(* ===== verification/_CoqProject ===== *)
-Q . S2P
Prelude.v
F64.v
FleetTypes.v
Billing.v
Planner.v
Ladder.v
ApiSchema.v
Json.v
Schema.v
Errors.v
Text.v
MatrixClient.v
MatrixEvents.v
Payments.v
Guards.v
MoneyDb.v
StreamsDb.v
Donations.v
Entitlement.v
TierGate.v
Feed.v
Rooms.v
Bot.v
FeedIndexer.v
Appservice.v
Subscriptions.v
Webhooks.v
MoneyApi.v
MoneyTables.v
MoneyHistory.v
Provider.v
Scaleway.v
ScalewayTrace.v
DesiredStore.v
Sweeper.v
Tfvars.v
Runner.v
Wallet.v
MeteringDb.v
Metering.v
MeterTrace.v
Rating.v
MeterLoop.v
Quotes.v
LadderDb.v
LadderLoop.v
Interleave.v
SwitchPool.v
Census.v
StreamLifecycle.v
StreamSweep.v
Actuator.v
StreamsApi.v
StreamsHistory.v
RecordingsApi.v
RecordingsHistory.v
RecordingsPage.v
SfuBreaker.v
LiveKit.v
Auth.v
AuthHistory.v
Internal.v
Config.v
Settings.v
SettingsOverlay.v
SettingsDb.v
SettingsService.v
SettingsHistory.v
SettingsApi.v
SettingsSecrets.v
MediaProbe.v
Ads.v
AdsTables.v
AdsApi.v
AdsAdmin.v
AdsHistory.v
Moderation.v
AdminApi.v
ModerationHistory.v
