(* ===== verification/Prelude.v ===== *)
(** * MatrixMedia: a verification development of its server

    MatrixMedia is a live-streaming service beside a Matrix homeserver. Its server starts
    and ends broadcasts in Matrix rooms, records them, sells access to them and takes
    donations, keeps a newsfeed, and runs a fleet of rented fan-out and transcoding nodes
    paid from prepaid wallets. This library models the server's crates and proves the
    properties that make them safe to leave alone with a provider's API, a customer's
    wallet and a viewer's credentials.

    ** The program and the files

    Foundations: this file (results, stateful computations with [let!] and [let?],
    machine integers, strings, ORDER BY, loop and pre/postcondition rules), [F64]
    (binary64 arithmetic with its rounding), [Json] (serde's values and codecs), [Text]
    (UTF-8 and mm-core/src/validation.rs), [Errors] (the error types of mm-core and
    mm-api), [ApiSchema] and [Schema] (the tables as one record, statements,
    transactions and their faults), [Interleave] (asynchronous code cut at its lock
    acquisitions, and schedules).

    The fleet (mm-core/src/fleet, mm-fleet, mm-db):
    - [FleetTypes], [Billing], [Planner], [Ladder]: the pure decisions.
    - [DesiredStore], [Wallet], [MeteringDb], [LadderDb]: the statements on V034 to V038,
      with the CHECK, UNIQUE and foreign-key constraints and the triggers they meet.
    - [Provider]: the trait as a class, what its callers rely on as the class
      [ProviderLaws], and the dry-run provider as an instance of both. [Scaleway] and
      [ScalewayTrace] (scaleway.rs): the real provider down to each HTTP request, and
      theorems on the log of its calls.
    - [Sweeper], [Tfvars], [Runner]: the sweeps, the file Terraform reads, the reconcile
      tick. [Metering], [MeterTrace], [Rating], [MeterLoop], [Quotes]: metering and
      charging. [LadderLoop]: acting on the demotion ladder.
    - [SwitchPool], [Census] (mm-api): which switch a viewer is on, and who is watching;
      [Census] discharges the runner's class of laws, [Actuator] (ladder_actuator.rs)
      the ladder's.

    Money (mm-payment, mm-api/src/monetization.rs, mm-db/src/postgres.rs):
    - [Payments]: tiers, fees, invoices, Lightning, providers. [Guards]: the settings and
      the guards. [MoneyDb]: the statements. [Donations], [Subscriptions], [Webhooks]:
      the handlers. [MoneyApi], [MoneyTables], [MoneyHistory]: all endpoints in any
      order, and what holds of the tables in every history.
    - [Entitlement], [TierGate]: which tier a subscriber holds, through two caches, and
      what it opens.

    Matrix (mm-matrix, mm-api):
    - [MatrixClient], [MatrixEvents]: requests to the homeserver and event contents.
    - [Bot], [FeedIndexer], [Appservice], [Feed]: commands, the newsfeed index, the
      transactions of the homeserver, the newsfeed endpoints.

    Broadcasts (mm-api, mm-db):
    - [StreamsDb]: rooms, streams, participants, keys and recordings. [Rooms]: who may
      broadcast. [StreamLifecycle], [StreamSweep]: how a broadcast ends, and the sweep
      that ends dead ones. [StreamsApi], [StreamsHistory]: the handlers of client.rs and
      the invariant of their tables. [RecordingsApi], [RecordingsHistory]: recording.
      [RecordingsPage]: who is let into a broadcast and given the URL of a recording.
    - [SfuBreaker], [LiveKit] (mm-sfu): the circuit breaker as a step relation of
      concurrent calls, the LiveKit adapter behind it, and LiveKit's webhooks.

    Callers (mm-core/src/auth.rs, cache.rs, federation.rs; mm-api/src/middleware.rs):
    - [Auth], [AuthHistory]: tokens, logins and extractors, and every history of them.
    - [Internal] (internal.rs): the endpoints for Alertmanager and LiveKit.

    Configuration (mm-core/src/config.rs, mm-core/src/settings, mm-db/src/settings_db.rs,
    mm-api/src/settings_service.rs, settings_checks.rs, admin_settings.rs):
    - [Config]: the fields, defaults and environment. [Settings]: the settings a dashboard
      may change, their checks, and the sealing of secrets. [SettingsOverlay]: from stored
      rows to the configuration that runs. [SettingsDb], [SettingsService], [SettingsApi]:
      the tables, the running instances, and the endpoints. [SettingsHistory] and
      [SettingsSecrets]: every interleaving of several instances on one database.

    Advertising (mm-ads, mm-api/src/ads.rs, state.rs, admin.rs):
    - [MediaProbe]: reading the duration of an uploaded MP4 or WebM file. [Ads]: creatives,
      rules, the choice of an ad and the proof that it was watched. [AdsTables]: what
      holds of the tables in every history. [AdsApi], [AdsAdmin]: the endpoints, the map of
      running ads and the timers that end them. [AdsHistory]: every interleaving of them.

    Operators (mm-api/src/moderation.rs, admin.rs; mm-db/src/moderation_db.rs):
    - [Moderation]: reports, takedowns and their audit. [AdminApi]: the dashboard's
      endpoints over streams, recordings, money and accounts. [ModerationHistory]: both
      mixed with the requests of users and the background tasks.

    ** How the code is modelled

    A stateful function is a function of the state it threads, [st S A]; [?] is [let?],
    a fallible result is [result]. Integers are [Z] with the wrap-around or saturation
    of their Rust type written out at every operation that can leave the range.
    [DateTime] is a number of nanoseconds. Maps are [gmap]; iteration follows the key
    order of a BTreeMap or the ORDER BY of the query, and where the code iterates in no
    particular order the theorems do not depend on one. Text is compared byte by byte.

    A database carries a script: for each statement, whether it is answered, lost
    before it ran, or run without an acknowledgement, and the clock it sees. A lost
    statement inside a transaction loses the transaction; a commit may take effect
    unacknowledged. A theorem that quantifies over the database quantifies over all
    these scripts; [healthy] is the script in which everything is answered. The disk of
    [Tfvars] has a script of the same kind.

    Services outside the repository are classes of operations over a state of their own:
    HTTP transports, clocks, caches, the SFU's client library, the media switch, Stripe.
    A theorem that holds whatever a service answers has no law for it; where the code
    relies on documented behaviour (a signature that verifies was issued, a cache that
    answers only what was stored) that is a class of laws with an instance in the
    examples.

    Operations on the switch pool are cut at every lock acquisition ([Interleave.run_sched]):
    that ad calls of one node reach one client is proved for every interleaving
    ([SwitchPool.ad_calls_reach_one_switch]), where a call for a viewer ends for requests one
    after another ([SwitchPool.calls_reach_the_viewers_switch]), and an example shows that
    overlapping offers break the latter. Instances that share the settings interleave at every database call and
    every access to their state (a rely relation says what the others may do in between:
    [Interleave.alongside]), ad requests and the timers they spawn interleave at every call and lock
    (each thread guarantees what the others rely on: [Interleave.guarded]; a sleep ends at
    its time or later, whenever the schedule picks the thread again), calls through the circuit breaker at every check and update
    ([SfuBreaker.step]), and nodes deliver, restart and fail between the polls of the
    meter ([MeterTrace.meter_event]). Elsewhere requests of one database run one after
    the other in any order; where that matters an example shows what two concurrent
    requests do.

    ** What the theorems show

    - Nothing running is destroyed by mistake: a plan never drops live fan-out, a tick
      destroys only rented machines of broadcasts that ended, the deadline sweep tries
      exactly the overdue ones that do not wait, at most an hour, for a billing boundary. A
      destroy at the provider touches nothing but its server and its volumes, and one that
      succeeds leaves nothing that bills.
    - Fleet money is right: balances are sums of their ledgers, usage is never billed
      beyond what was delivered and charged once however passes fail. No broadcast is
      restricted without a statement of reasons.
    - Customers' money is right: tables stay well typed, money moves only when a payment
      was reported, a Stripe event takes effect once; entitlements are at most 75 seconds
      old and joining seats exactly those the tables entitle, up to the capacity of the room.
      Both caches have keys that can collide: the theorems say what is answered then, or name
      the condition under which it does not happen.
    - Broadcasts end once, dead ones are ended and live ones left alone; the tables keep
      their invariants under every history; a recording stays behind the gate of its
      broadcast and its URL is shown exactly to those entitled (on a page whose priced rows
      are of one host, as the permission cache has no host in its key).
    - The newsfeed reaches every listed local member of a room of at most a thousand once,
      nobody of a larger one, and its pages are exact; transactions of the
      homeserver only index and hide; the owner of a room is final.
    - The breaker opens exactly on the configured number of outages and spares an SFU
      that is down; nobody is let in that no homeserver vouched for, and an issued token
      works; the internal endpoints accept exactly whom they mean to.
    - A stored secret is sent only to hosts that a configuration names or an operator
      confirmed, and is shown to nobody, whatever instances boot, save and reload at once.
    - An ad ends once, on the switch the viewer is on, after it ran out or was watched for
      its minimum; the ad served is the first whose rules admit it, subscribers included;
      an impression never loses a mark or progress; the probe reads the duration the file states and
      no byte outside the file.
    - A takedown lasts until an operator lifts it (a suspension as long as the query for it is
      answered: the code lets the request through when it fails), an accepted one took
      effect, at the homeserver too where it calls it, and is in the audit log, and a report of the homeserver is queued once.
    - Recorded defects are examples next to the definitions they concern.

    ** Bounds and fuel

    Loops that are not structural get fuel, and a theorem about their result includes that
    it suffices: the page walk of the ladder tick has one more than the number of streams
    ([LadderLoop.every_live_broadcast_evaluated_once]); the provider's paging and polling
    have the bounds the code itself has (100 pages, the polls of its timeouts); a terminal
    marker is attempted three times and a transcode polled 240 times, as in the source;
    readers of text get the length of their string, and every turn consumes some of it;
    the walk over the boxes of an MP4 file gets the length of the file, and every round
    advances by eight bytes or more.
    Theorems about arithmetic state the range in which nothing wraps, such as amounts
    below 2^53 where binary64 is exact.

    ** What is not modelled

    Logging, metrics and rate limits, except values a later decision reads; the printing
    and parsing of JSON text, hashing and signing, which are parameters; gaps in identity
    sequences and the overflow of the generation counter; columns no modelled statement
    touches. Of the server: the parts of the dashboard that only display (lists and sums of
    money tables, probes of components, the page of the broadcast servers) or keep rows
    nothing else reads (announcements, signups, requests for a server); the SQLite backend,
    which repeats the statements of the PostgreSQL one in another dialect; recommendations
    and the hourly statistics of ads, which are aggregates computed by the database.
    The media switch, the clients and the SDKs are programs of their own. *)
From stdpp Require Export base numbers list option strings gmap sorting pretty.
From Stdlib Require Export Lia.
From Stdlib Require Import Ascii.

Declare Scope mm_scope.
Delimit Scope mm_scope with mm.

(** ** Results and stateful computations

    [result A E] is Rust's [Result<A, E>]; [st S A] is code that reads and
    writes a state [S]. [let!] sequences, [let?] sequences and returns early on
    an error, as the postfix question mark of the source does. *)
Inductive result (A E : Type) : Type :=
  | Ok (a : A)
  | Err (e : E).
Arguments Ok {A E} a.
Arguments Err {A E} e.

#[export] Instance result_eq_dec {A E : Type} `{EqDecision A, EqDecision E} :
  EqDecision (result A E).
Proof. solve_decision. Defined.

Definition is_ok {A E} (r : result A E) : bool :=
  match r with Ok _ => true | Err _ => false end.

Definition map_err {A E F} (f : E → F) (r : result A E) : result A F :=
  match r with Ok a => Ok a | Err e => Err (f e) end.

Definition st (S A : Type) : Type := S → A * S.

Definition st_ret {S A} (a : A) : st S A := λ s, (a, s).

Definition st_bind {S A B} (m : st S A) (k : A → st S B) : st S B :=
  λ s, let (a, s') := m s in k a s'.

Definition st_try {S A B E} (m : st S (result A E)) (k : A → st S (result B E)) :
    st S (result B E) :=
  st_bind m (λ r, match r with Ok a => k a | Err e => st_ret (Err e) end).

(** A [for] loop with a mutable accumulator. *)
Fixpoint st_fold {S A B} (f : B → A → st S B) (l : list A) (b : B) : st S B :=
  match l with
  | [] => st_ret b
  | a :: l' => st_bind (f b a) (λ b', st_fold f l' b')
  end.

(** A [for] loop whose body may return early with an error. *)
Fixpoint st_try_each {S A E} (f : A → st S (result unit E)) (l : list A) :
    st S (result unit E) :=
  match l with
  | [] => st_ret (Ok tt)
  | a :: l' => st_try (f a) (λ _, st_try_each f l')
  end.

Notation "'let!' x ':=' m 'in' k" := (st_bind m (λ x, k))
  (at level 10, x name, k at level 200) : mm_scope.
Notation "'let?' x ':=' m 'in' k" := (st_try m (λ x, k))
  (at level 10, x name, k at level 200) : mm_scope.

(** ** Machine integers

    Every integer is a [Z]; these are the ranges and the conversions of the
    widths the source uses. A plain arithmetic operator wraps (the release
    profile has no overflow checks); [saturating_*] clamps. *)
Definition u32_max : Z := 4294967295.
Definition i32_max : Z := 2147483647.
Definition i32_min : Z := -2147483648.
Definition i64_max : Z := 9223372036854775807.
Definition i64_min : Z := -9223372036854775808.

Definition is_u32 (z : Z) : Prop := (0 ≤ z ≤ u32_max)%Z.
Definition is_i64 (z : Z) : Prop := (i64_min ≤ z ≤ i64_max)%Z.

Definition u32_wrap (z : Z) : Z := (z `mod` 4294967296)%Z.
Definition i32_wrap (z : Z) : Z :=
  ((z + 2147483648) `mod` 4294967296 - 2147483648)%Z.
Definition i64_wrap (z : Z) : Z :=
  ((z + 9223372036854775808) `mod` 18446744073709551616 - 9223372036854775808)%Z.

Definition i64_sat (z : Z) : Z := Z.max i64_min (Z.min i64_max z).
Definition u32_sat (z : Z) : Z := Z.max 0 (Z.min u32_max z).

(** [u32::saturating_sub] and [u32::div_ceil]. *)
Definition u32_saturating_sub (a b : Z) : Z := Z.max 0 (a - b).
Definition div_ceil (a b : Z) : Z := ((a + b - 1) `div` b)%Z.

(** ** Time

    [DateTime<Utc>] is a number of nanoseconds since the epoch, and
    [num_seconds] truncates towards zero, as chrono's does. *)
Abbreviation DateTime := Z (only parsing).
Definition NANOS : Z := 1000000000.
Definition num_seconds (d : Z) : Z := Z.quot d NANOS.
Definition seconds (n : Z) : Z := (n * NANOS)%Z.

(** ** Strings

    A Rust [&str] is its UTF-8 bytes. *)
Fixpoint strip_prefix (p s : string) : option string :=
  match p, s with
  | EmptyString, _ => Some s
  | String a p', String b s' => if decide (a = b) then strip_prefix p' s' else None
  | String _ _, EmptyString => None
  end.

Definition starts_with (p s : string) : bool :=
  match strip_prefix p s with Some _ => true | None => false end.

Definition is_empty_str (s : string) : bool :=
  match s with EmptyString => true | _ => false end.

Definition digit_value (c : Ascii.ascii) : option Z := Z.of_nat <$> Ascii.is_nat c.

Fixpoint parse_digits (s : string) (acc : Z) : option Z :=
  match s with
  | EmptyString => Some acc
  | String c s' =>
      match digit_value c with
      | Some d =>
          let acc' := (acc * 10 + d)%Z in
          if (acc' <=? u32_max)%Z then parse_digits s' acc' else None
      | None => None
      end
  end.

(** [str::parse::<u32>]: an optional plus sign and at least one digit, with
    overflow refused at every step. *)
Definition parse_u32 (s : string) : option Z :=
  match s with
  | EmptyString => None
  | String c s' =>
      if decide (c = "+"%char) then
        match s' with EmptyString => None | _ => parse_digits s' 0 end
      else parse_digits s 0
  end.

(** [format!("{n}")] of an unsigned and of a signed integer. *)
Definition fmt_u32 (n : Z) : string := pretty (Z.to_N n).
Definition fmt_i64 (n : Z) : string := pretty n.

(** [str::trim] removes the Unicode white space at both ends: these are the
    UTF-8 encodings of the White_Space characters. *)
Definition bytes (l : list nat) : string :=
  foldr (λ n s, String (ascii_of_nat n) s) EmptyString l.

Definition white_space : list string :=
  bytes <$> ([[9]; [10]; [11]; [12]; [13]; [32]; [194; 133]; [194; 160];
    [225; 154; 128]] ++ ((λ k, [226; 128; k]) <$> seq 128 11) ++
    [[226; 128; 168]; [226; 128; 169]; [226; 128; 175]; [226; 129; 159];
    [227; 128; 128]]).

Fixpoint strip_any (ps : list string) (s : string) : option string :=
  match ps with
  | [] => None
  | p :: ps' =>
      match strip_prefix p s with Some s' => Some s' | None => strip_any ps' s end
  end.

Fixpoint trim_start_with (fuel : nat) (ps : list string) (s : string) : string :=
  match fuel with
  | O => s
  | S fuel' =>
      match strip_any ps s with
      | Some s' => trim_start_with fuel' ps s'
      | None => s
      end
  end.

(** Each step removes at least one byte, so the length of the string is enough
    fuel. *)
Definition trim (s : string) : string :=
  let s1 := trim_start_with (String.length s) white_space s in
  String.rev (trim_start_with (String.length s1) (String.rev <$> white_space)
    (String.rev s1)).

Definition ascii_lower (c : ascii) : ascii :=
  let n := nat_of_ascii c in
  if (65 <=? n) && (n <=? 90) then ascii_of_nat (n + 32) else c.

Fixpoint to_ascii_lowercase (s : string) : string :=
  match s with
  | EmptyString => EmptyString
  | String c s' => String (ascii_lower c) (to_ascii_lowercase s')
  end.

(** ** ORDER BY a text key

    Text is compared byte by byte (the C collation). *)
Definition by_key {A} (key : A → string) (a b : A) : Prop :=
  String.le (key a) (key b).

#[export] Instance by_key_dec {A} (key : A → string) : RelDecision (by_key key).
Proof. intros a b. unfold by_key. apply _. Defined.

Definition order_by {A} (key : A → string) (l : list A) : list A :=
  merge_sort (by_key key) l.

(** SQL's [SUM]. *)
Definition sumZ (l : list Z) : Z := foldr Z.add 0%Z l.

(** [LIMIT n]. *)
Definition limit {A} (n : Z) (l : list A) : list A := take (Z.to_nat n) l.

(** ** Lemmas: stateful computations

    [st_rel R m]: every run of [m] moves the state along [R]. Invariants are
    the case where [R s s'] is an implication. *)
Definition st_rel {S A} (R : S → S → Prop) (m : st S A) : Prop :=
  ∀ s, R s (m s).2.

Definition keeps {S} (I : S → Prop) (s s' : S) : Prop := I s → I s'.

#[export] Instance keeps_preorder {S} (I : S → Prop) : PreOrder (keeps I).
Proof. split; unfold keeps; repeat intro; naive_solver. Qed.

Create HintDb mm.

Section st_rel_lemmas.
Context {S : Type} (R : S → S → Prop) `{!PreOrder R}.

Lemma st_rel_ret {A} (a : A) : st_rel R (st_ret a).
Proof. intros s; simpl; reflexivity. Qed.

Lemma st_rel_bind {A B} (m : st S A) (k : A → st S B) :
  st_rel R m → (∀ a, st_rel R (k a)) → st_rel R (st_bind m k).
Proof.
  intros Hm Hk s. unfold st_bind. specialize (Hm s).
  destruct (m s) as [a s']. simpl in *. etrans; [exact Hm | apply Hk].
Qed.

Lemma st_rel_try {A B E} (m : st S (result A E)) (k : A → st S (result B E)) :
  st_rel R m → (∀ a, st_rel R (k a)) → st_rel R (st_try m k).
Proof.
  intros Hm Hk. apply st_rel_bind; [done | intros [a|e]];
    [apply Hk | apply st_rel_ret].
Qed.

Lemma st_rel_fold {A B} (f : B → A → st S B) (l : list A) (b : B) :
  (∀ b a, a ∈ l → st_rel R (f b a)) → st_rel R (st_fold f l b).
Proof.
  revert b. induction l as [|a l IH]; intros b Hf; simpl; [apply st_rel_ret|].
  apply st_rel_bind; [apply Hf; left | intros b'; apply IH].
  intros; apply Hf; by right.
Qed.

Lemma st_rel_try_each {A E} (f : A → st S (result unit E)) (l : list A) :
  (∀ a, a ∈ l → st_rel R (f a)) → st_rel R (st_try_each f l).
Proof.
  induction l as [|a l IH]; intros Hf; simpl; [apply st_rel_ret|].
  apply st_rel_try; [apply Hf; left | intros _; apply IH].
  intros; apply Hf; by right.
Qed.

Lemma st_rel_if {A} (b : bool) (m1 m2 : st S A) :
  st_rel R m1 → st_rel R m2 → st_rel R (if b then m1 else m2).
Proof. by destruct b. Qed.
End st_rel_lemmas.

Lemma st_rel_weaken {S A} (R Q : S → S → Prop) (m : st S A) :
  (∀ a b, R a b → Q a b) → st_rel R m → st_rel Q m.
Proof. intros HRQ Hm s. by apply HRQ. Qed.

(** A loop invariant over the elements already processed. *)
Lemma st_fold_inv {S A B} (I : list A → B → S → Prop) (f : B → A → st S B)
    (l : list A) (b : B) (s : S) :
  I [] b s →
  (∀ seen a b s, a ∈ l → I seen b s → I (seen ++ [a]) (f b a s).1 (f b a s).2) →
  I l (st_fold f l b s).1 (st_fold f l b s).2.
Proof.
  intros H0 Hstep.
  assert (Hg : ∀ todo seen b s, (∀ a, a ∈ todo → a ∈ l) → I seen b s →
    I (seen ++ todo) (st_fold f todo b s).1 (st_fold f todo b s).2).
  { induction todo as [|a todo IH]; intros seen b' s' Hin HI; simpl.
    - by rewrite app_nil_r.
    - unfold st_bind. assert (Ha : a ∈ l) by (apply Hin; left).
      pose proof (Hstep seen a b' s' Ha HI) as HI'.
      destruct (f b' a s') as [b1 s1]. simpl in HI'.
      rewrite (cons_middle a seen todo), app_assoc. apply IH; [|done].
      intros x Hx. apply Hin. by right. }
  apply (Hg l []); auto.
Qed.

(** Pre- and postconditions, where a later call relies on what an earlier one
    answered. *)
Definition hoare {S A} (P : S → Prop) (m : st S A) (Q : A → S → Prop) : Prop :=
  ∀ s, P s → Q (m s).1 (m s).2.

Lemma hoare_ret {S A} (P : S → Prop) (a : A) (Q : A → S → Prop) :
  (∀ s, P s → Q a s) → hoare P (st_ret a) Q.
Proof. intros HQ s Hs. by apply HQ. Qed.

Lemma hoare_bind {S A B} (P : S → Prop) (m : st S A) (M : A → S → Prop)
    (k : A → st S B) (Q : B → S → Prop) :
  hoare P m M → (∀ a, hoare (M a) (k a) Q) → hoare P (st_bind m k) Q.
Proof.
  intros Hm Hk s Hs. specialize (Hm s Hs). unfold st_bind.
  destruct (m s) as [a s']. by apply Hk.
Qed.

Lemma hoare_try {S A B E} (P : S → Prop) (m : st S (result A E))
    (M : result A E → S → Prop) (k : A → st S (result B E)) (Q : result B E → S → Prop) :
  hoare P m M → (∀ a, hoare (M (Ok a)) (k a) Q) → (∀ e s, M (Err e) s → Q (Err e) s) →
  hoare P (st_try m k) Q.
Proof.
  intros Hm Hk He. apply (hoare_bind P m M); [done|]. intros [a|e]; [done|].
  apply hoare_ret. auto.
Qed.

Lemma hoare_conseq {S A} (P P' : S → Prop) (m : st S A) (Q Q' : A → S → Prop) :
  hoare P' m Q' → (∀ s, P s → P' s) → (∀ a s, Q' a s → Q a s) → hoare P m Q.
Proof. intros Hm HP HQ s Hs. by apply HQ, Hm, HP. Qed.

Lemma hoare_st_rel {S A} (P : S → Prop) (m : st S A) :
  hoare P m (λ _ s, P s) → st_rel (keeps P) m.
Proof. intros Hm s Hs. by apply Hm. Qed.

#[export] Hint Resolve st_rel_ret : mm.

(** Decomposes a stateful computation into the calls it makes. *)
Ltac st_step :=
  lazymatch goal with
  | |- st_rel _ (st_ret _) => apply st_rel_ret; apply _
  | |- st_rel _ (st_bind _ _) => apply st_rel_bind; [apply _| |intros ?]
  | |- st_rel _ (st_try _ _) => apply st_rel_try; [apply _| |intros ?]
  | |- st_rel _ (st_fold _ _ _) => apply st_rel_fold; [apply _|intros ???]
  | |- st_rel _ (st_try_each _ _) => apply st_rel_try_each; [apply _|intros ??]
  | |- st_rel _ (if ?b then _ else _) => destruct b
  | |- st_rel _ (match ?x with _ => _ end) => destruct x
  | |- st_rel _ (let '(_, _) := ?x in _) => destruct x
  end.
Ltac st_steps := repeat (st_step; cbv beta; try solve [eauto with mm typeclass_instances]).

(** ** Lemmas: strings *)
Lemma strip_prefix_Some p s r : strip_prefix p s = Some r ↔ s = p +:+ r.
Proof.
  revert s. induction p as [|a p IH]; intros s; simpl.
  - split; [by intros [= ->] | intros ->; done].
  - destruct s as [|b s]; [done|].
    case_decide as Hab; [subst b; rewrite IH|].
    + split; [by intros -> | by intros [= ->]].
    + split; [done | intros [= -> ?]; done].
Qed.

Lemma strip_prefix_app p r : strip_prefix p (p +:+ r) = Some r.
Proof. by apply strip_prefix_Some. Qed.

Lemma starts_with_spec p s : starts_with p s = true ↔ ∃ r, s = p +:+ r.
Proof.
  unfold starts_with. destruct (strip_prefix p s) as [r|] eqn:E.
  - apply strip_prefix_Some in E. naive_solver.
  - split; [done | intros [r ->]]. by rewrite strip_prefix_app in E.
Qed.

Lemma string_app_assoc (a b c : string) : (a +:+ b) +:+ c = a +:+ (b +:+ c).
Proof. induction a as [|x a IH]; [done|]. exact (f_equal (String x) IH). Qed.

#[export] Instance string_app_inj_r (p : string) : Inj (=) (=) (String.append p).
Proof. induction p as [|a p IH]; intros x y H; [done|]. injection H. apply IH. Qed.

Lemma string_app_nil_r (s : string) : s +:+ "" = s.
Proof. induction s as [|a s IH]; [done|]. exact (f_equal (String a) IH). Qed.

(** [format!] and [parse] of a [u32] are inverse. *)
Lemma digit_value_pretty (d : N) :
  (d < 10)%N → digit_value (pretty_N_char d) = Some (Z.of_N d).
Proof.
  intros Hd. assert (d = 0 ∨ d = 1 ∨ d = 2 ∨ d = 3 ∨ d = 4 ∨ d = 5 ∨ d = 6
    ∨ d = 7 ∨ d = 8 ∨ d = 9)%N as Hcase by lia.
  by destruct_or! Hcase; subst d.
Qed.

Lemma parse_digits_pretty_go (x : N) (s : string) :
  (Z.of_N x ≤ u32_max)%Z →
  parse_digits (pretty_N_go x s) 0 = parse_digits s (Z.of_N x).
Proof.
  revert s. induction (N.lt_wf_0 x) as [x _ IH]; intros s Hx.
  destruct (decide (x = 0)%N) as [->|Hx0]; [done|].
  rewrite pretty_N_go_step by lia.
  pose proof (N.div_mod x 10 ltac:(lia)) as Hdm.
  pose proof (N.mod_lt x 10 ltac:(lia)) as Hm.
  pose proof (N.div_lt x 10 ltac:(lia) ltac:(lia)) as Hlt.
  rewrite IH by lia. cbn [parse_digits].
  rewrite digit_value_pretty by lia.
  replace (Z.of_N (x `div` 10) * 10 + Z.of_N (x `mod` 10))%Z with (Z.of_N x)
    by (rewrite Hdm at 1; lia).
  by rewrite (proj2 (Z.leb_le _ _) Hx).
Qed.

Lemma pretty_N_go_ne_plus x s s' :
  s ≠ String "+" s' → pretty_N_go x s ≠ String "+" s'.
Proof.
  revert s. induction (N.lt_wf_0 x) as [x _ IH]; intros s Hs.
  destruct (decide (x = 0)%N) as [->|Hx0]; [done|].
  rewrite pretty_N_go_step by lia. apply IH; [apply N.div_lt; lia|].
  unfold pretty_N_char. by repeat case_match.
Qed.

Lemma parse_u32_fmt (n : Z) : is_u32 n → parse_u32 (fmt_u32 n) = Some n.
Proof.
  intros [H0 Hm]. unfold fmt_u32, pretty, pretty_N.
  case_decide as Hz; [assert (n = 0)%Z as -> by lia; done|].
  pose proof (parse_digits_pretty_go (Z.to_N n) "") as Hp.
  destruct (pretty_N_go (Z.to_N n) "") as [|c s'] eqn:E.
  - rewrite pretty_N_go_step in E by lia.
    exfalso. simpl in Hp. specialize (Hp ltac:(lia)). injection Hp as Hp. lia.
  - unfold parse_u32. case_decide as Hc.
    + subst c. exfalso. by apply (pretty_N_go_ne_plus (Z.to_N n) "" s').
    + rewrite Hp by lia. simpl. f_equal. lia.
Qed.

#[export] Instance fmt_i64_inj : Inj (=) (=) fmt_i64.
Proof. unfold fmt_i64. apply _. Qed.

(** ** Lemmas: ORDER BY *)
#[export] Instance by_key_total {A} (key : A → string) : Total (by_key key).
Proof. intros a b. apply (total String.le). Qed.

#[export] Instance by_key_trans {A} (key : A → string) : Transitive (by_key key).
Proof. intros a b c. unfold by_key. apply (transitivity (R := String.le)). Qed.

Lemma order_by_perm {A} (key : A → string) (l : list A) : order_by key l ≡ₚ l.
Proof. apply merge_sort_Permutation. Qed.

Lemma elem_of_order_by {A} (key : A → string) (l : list A) x :
  x ∈ order_by key l ↔ x ∈ l.
Proof. by rewrite order_by_perm. Qed.

Lemma order_by_sorted {A} (key : A → string) (l : list A) :
  Sorted String.le (key <$> order_by key l).
Proof.
  pose proof (Sorted_merge_sort (by_key key) l) as Hs. unfold order_by.
  induction Hs as [|a l' Hs IH Hr]; csimpl; [constructor|]. constructor; [done|].
  destruct Hr; csimpl; by constructor.
Qed.

Create Rewrite HintDb mm_rw.
#[export] Hint Rewrite @elem_of_order_by : mm_rw.

(** ** Lemmas: machine integers *)
Lemma u32_wrap_id (z : Z) : is_u32 z → u32_wrap z = z.
Proof. unfold is_u32, u32_wrap, u32_max. intros. apply Z.mod_small. lia. Qed.

Lemma i64_wrap_id (z : Z) : is_i64 z → i64_wrap z = z.
Proof.
  unfold is_i64, i64_wrap, i64_min, i64_max. intros. rewrite Z.mod_small; lia.
Qed.

Lemma i64_sat_id (z : Z) : is_i64 z → i64_sat z = z.
Proof. unfold is_i64, i64_sat. lia. Qed.

Lemma i64_sat_range (z : Z) : is_i64 (i64_sat z).
Proof. unfold is_i64, i64_sat, i64_min, i64_max. lia. Qed.

Lemma i64_sat_mono (a b : Z) : (a ≤ b)%Z → (i64_sat a ≤ i64_sat b)%Z.
Proof. unfold i64_sat. lia. Qed.

(** [div_ceil] is the least multiple count that covers the dividend. *)
Lemma div_ceil_spec (a b : Z) :
  (0 < b)%Z → (a ≤ div_ceil a b * b < a + b)%Z.
Proof.
  intros Hb. unfold div_ceil.
  pose proof (Z.div_mod (a + b - 1) b ltac:(lia)).
  pose proof (Z.mod_pos_bound (a + b - 1) b Hb). nia.
Qed.

Lemma div_ceil_least (a b k : Z) : (0 < b)%Z → (a ≤ k * b)%Z → (div_ceil a b ≤ k)%Z.
Proof. intros Hb Hk. pose proof (div_ceil_spec a b Hb). nia. Qed.

(** ** Lemmas: sums *)
Lemma sumZ_app (l1 l2 : list Z) : sumZ (l1 ++ l2) = (sumZ l1 + sumZ l2)%Z.
Proof. induction l1 as [|x l1 IH]; simpl; lia. Qed.

Lemma sumZ_nonneg (l : list Z) : Forall (λ x, 0 ≤ x)%Z l → (0 ≤ sumZ l)%Z.
Proof. induction 1; simpl; lia. Qed.

#[export] Instance sumZ_perm : Proper ((≡ₚ) ==> (=)) sumZ.
Proof. intros l1 l2 H. induction H; simpl; lia. Qed.

Lemma sumZ_filter_le {A} (f : A → Z) (p : A → bool) (l : list A) :
  Forall (λ x, 0 ≤ f x)%Z l → (sumZ (f <$> List.filter p l) ≤ sumZ (f <$> l))%Z.
Proof. induction 1 as [|x l Hx Hl IH]; csimpl; [lia|]. destruct (p x); csimpl; lia. Qed.
