(* ===== verification/F64.v ===== *)
(** * F64: IEEE 754 binary64 arithmetic, as far as the source uses it

    A finite [f64] is an integer multiple of the least positive subnormal, so
    [Fin z] is the real number z * 2^-1074; every operation computes the exact
    result as a ratio and rounds it once, to nearest, ties to even, with 53 bits
    of precision. The two zeros are one value: the modelled code never divides
    by zero and never looks at the sign of a zero. *)
From S2P Require Import Prelude.
Local Open Scope Z_scope.

Inductive f64 : Type :=
  | Fin (z : Z)
  | Inf (neg : bool)
  | NaN.

#[export] Instance f64_eq_dec : EqDecision f64.
Proof. solve_decision. Defined.

(** The number 1 in units of 2^-1074. *)
Definition UNIT : Z := 2 ^ 1074.
Definition PREC : Z := 2 ^ 53.
(** 2^1024, the overflow threshold, in the same units. *)
Definition OVER : Z := 2 ^ 2098.

(** The integer nearest to [n / d], ties to even. *)
Definition rne (n d : Z) : Z :=
  let q := n / d in
  match Z.compare (2 * (n mod d)) d with
  | Lt => q
  | Gt => q + 1
  | Eq => if Z.even q then q else q + 1
  end.

(** Weight of the last kept bit of a magnitude whose integral part is [t]. *)
Definition ulp (t : Z) : Z := if t <? PREC then 1 else 2 ^ (Z.log2 t - 52).

Definition round_pos (n d : Z) : Z :=
  let u := ulp (n / d) in rne n (d * u) * u.

Definition rnd (n d : Z) : Z :=
  if n <? 0 then - round_pos (- n) d else round_pos n d.

Definition f64_make (z : Z) : f64 :=
  if OVER <=? Z.abs z then Inf (z <? 0) else Fin z.

(** The [f64] nearest to the ratio [n / d], [0 < d]: literals and [as f64]. *)
Definition f64_of_ratio (n d : Z) : f64 := f64_make (rnd (n * UNIT) d).
Definition f64_of_Z (z : Z) : f64 := f64_of_ratio z 1.

Definition f64_neg (x : f64) : bool :=
  match x with Fin z => z <? 0 | Inf s => s | NaN => false end.

Definition f64_mul (x y : f64) : f64 :=
  match x, y with
  | NaN, _ | _, NaN => NaN
  | Fin a, Fin b => f64_make (rnd (a * b) UNIT)
  | Fin a, Inf s | Inf s, Fin a =>
      if a =? 0 then NaN else Inf (xorb s (a <? 0))
  | Inf s, Inf s' => Inf (xorb s s')
  end.

Definition f64_div (x y : f64) : f64 :=
  match x, y with
  | NaN, _ | _, NaN => NaN
  | Fin a, Fin b =>
      if b =? 0 then (if a =? 0 then NaN else Inf (a <? 0))
      else if b <? 0 then f64_make (rnd (- a * UNIT) (- b))
      else f64_make (rnd (a * UNIT) b)
  | Fin a, Inf _ => Fin 0
  | Inf s, Fin b => Inf (xorb s (b <? 0))
  | Inf _, Inf _ => NaN
  end.

(** Comparison: false as soon as one side is not a number. *)
Definition f64_le (x y : f64) : bool :=
  match x, y with
  | NaN, _ | _, NaN => false
  | Fin a, Fin b => a <=? b
  | Inf true, _ => true
  | _, Inf false => true
  | _, _ => false
  end.
Definition f64_lt (x y : f64) : bool :=
  match x, y with
  | NaN, _ | _, NaN => false
  | _, _ => negb (f64_le y x)
  end.

Definition f64_is_finite (x : f64) : bool :=
  match x with Fin _ => true | _ => false end.

(** [f64::min] and [f64::max] return the other side of a NaN. *)
Definition f64_min (x y : f64) : f64 :=
  match x, y with
  | NaN, _ => y
  | _, NaN => x
  | _, _ => if f64_le x y then x else y
  end.
Definition f64_max (x y : f64) : f64 :=
  match x, y with
  | NaN, _ => y
  | _, NaN => x
  | _, _ => if f64_le x y then y else x
  end.

Definition f64_floor (x : f64) : f64 :=
  match x with Fin z => Fin (z / UNIT * UNIT) | _ => x end.

(** [x as u32]: truncates, saturates, and sends a NaN to zero. *)
Definition f64_as_u32 (x : f64) : Z :=
  match x with
  | Fin z => u32_sat (Z.quot z UNIT)
  | Inf true => 0
  | Inf false => u32_max
  | NaN => 0
  end.

(** [f64::round]: to the nearest integer, ties away from zero. *)
Definition round_half_away (z : Z) : Z := Z.sgn z * ((2 * Z.abs z + UNIT) / (2 * UNIT)).
Definition f64_round (x : f64) : f64 :=
  match x with Fin z => Fin (round_half_away z * UNIT) | _ => x end.

(** [x as i64]. *)
Definition f64_as_i64 (x : f64) : Z :=
  match x with
  | Fin z => i64_sat (Z.quot z UNIT)
  | Inf true => i64_min
  | Inf false => i64_max
  | NaN => 0
  end.

#[global] Arguments UNIT : simpl never.
#[global] Arguments PREC : simpl never.
#[global] Arguments OVER : simpl never.
#[global] Arguments rnd : simpl never.
#[global] Arguments f64_make : simpl never.
#[global] Arguments f64_of_ratio : simpl never.
#[global] Arguments f64_of_Z : simpl never.
#[global] Arguments f64_div : simpl never.
#[global] Arguments f64_mul : simpl never.

(** ** Rounding to an integer *)
Lemma rne_char (n d : Z) :
  0 < d →
  2 * rne n d * d - d ≤ 2 * n ≤ 2 * rne n d * d + d ∧
  (2 * n = 2 * rne n d * d - d ∨ 2 * n = 2 * rne n d * d + d →
   Z.even (rne n d) = true).
Proof.
  intros Hd. unfold rne.
  pose proof (Z.div_mod n d ltac:(lia)) as Hdm.
  pose proof (Z.mod_pos_bound n d Hd) as Hm.
  set (q := n / d) in *. set (r := n mod d) in *. clearbody q r.
  destruct (Z.compare_spec (2 * r) d) as [He|Hl|Hg].
  - destruct (Z.even q) eqn:Hq; [split; [nia | done]|].
    rewrite Z.add_1_r, Z.even_succ, <- Z.negb_even, Hq. split; [nia | done].
  - split; [nia|]. intros [H|H]; exfalso; nia.
  - split; [nia|]. intros [H|H]; exfalso; nia.
Qed.

Lemma rne_mono (n1 d1 n2 d2 : Z) :
  0 < d1 → 0 < d2 → n1 * d2 ≤ n2 * d1 → rne n1 d1 ≤ rne n2 d2.
Proof.
  intros H1 H2 Hle.
  destruct (rne_char n1 d1 H1) as [[Ha Hb] He1].
  destruct (rne_char n2 d2 H2) as [[Hc Hd] He2].
  set (k1 := rne n1 d1) in *. set (k2 := rne n2 d2) in *. clearbody k1 k2.
  destruct (Z.le_gt_cases k1 k2) as [|Hgt]; [done|exfalso].
  assert (Hs : (2 * k1 * d1 - d1) * d2 ≤ (2 * k2 * d2 + d2) * d1) by nia.
  assert (Hk : k1 = k2 + 1) by (assert (0 < d1 * d2) by nia; nia).
  subst k1.
  assert (Hx : 2 * n1 = 2 * (k2 + 1) * d1 - d1) by (clear He1 He2; nia).
  assert (Hy : 2 * n2 = 2 * k2 * d2 + d2) by (clear He1 He2; nia).
  specialize (He1 (or_introl Hx)). specialize (He2 (or_intror Hy)).
  rewrite Z.add_1_r, Z.even_succ, <- Z.negb_even, He2 in He1. done.
Qed.

Lemma rne_exact (c d : Z) : 0 < d → rne (c * d) d = c.
Proof.
  intros Hd. unfold rne. rewrite Z.div_mul, Z.mod_mul by lia.
  by rewrite (proj2 (Z.compare_lt_iff (2 * 0) d)) by lia.
Qed.

(** ** Rounding to 53 bits *)
Lemma UNIT_pos : 0 < UNIT.
Proof. apply Z.pow_pos_nonneg; lia. Qed.

Lemma PREC_val : PREC = 9007199254740992.
Proof. reflexivity. Qed.

Lemma ulp_pow (t : Z) : ∃ k, 0 ≤ k ∧ ulp t = 2 ^ k.
Proof.
  unfold ulp. destruct (Z.ltb_spec t PREC) as [Hl|Hg]; [by exists 0|].
  exists (Z.log2 t - 52). split; [|done].
  assert (53 ≤ Z.log2 t); [|lia].
  apply Z.log2_le_pow2; rewrite PREC_val in Hg; lia.
Qed.

Lemma ulp_pos (t : Z) : 0 < ulp t.
Proof. destruct (ulp_pow t) as (k & ? & ->). apply Z.pow_pos_nonneg; lia. Qed.

Lemma ulp_upper (t : Z) : t < PREC * ulp t.
Proof.
  unfold ulp. destruct (Z.ltb_spec t PREC) as [Hl|Hg]; [lia|].
  rewrite PREC_val in Hg.
  pose proof (Z.log2_spec t ltac:(lia)) as [_ Hlt].
  assert (53 ≤ Z.log2 t) by (apply Z.log2_le_pow2; lia).
  unfold PREC. rewrite <- Z.pow_add_r by lia.
  by replace (53 + (Z.log2 t - 52)) with (Z.succ (Z.log2 t)) by lia.
Qed.

Lemma ulp_lower (t : Z) : 1 < ulp t → 2 ^ 52 * ulp t ≤ t.
Proof.
  unfold ulp. destruct (Z.ltb_spec t PREC) as [Hl|Hg]; [lia|]. intros _.
  rewrite PREC_val in Hg.
  pose proof (Z.log2_spec t ltac:(lia)) as [Hle _].
  assert (53 ≤ Z.log2 t) by (apply Z.log2_le_pow2; lia).
  rewrite <- Z.pow_add_r by lia.
  by replace (52 + (Z.log2 t - 52)) with (Z.log2 t) by lia.
Qed.

Lemma ulp_mono (t1 t2 : Z) : 0 ≤ t1 ≤ t2 → ulp t1 ≤ ulp t2.
Proof.
  intros Ht. unfold ulp.
  destruct (Z.ltb_spec t1 PREC) as [H1|H1], (Z.ltb_spec t2 PREC) as [H2|H2];
    try lia.
  - pose proof (ulp_pos t2) as Hp. unfold ulp in Hp.
    rewrite (proj2 (Z.ltb_ge _ _) H2) in Hp. lia.
  - apply Z.pow_le_mono_r; [lia|]. pose proof (Z.log2_le_mono t1 t2). lia.
Qed.

Lemma ulp_double (t1 t2 : Z) : ulp t1 < ulp t2 → 2 * ulp t1 ≤ ulp t2.
Proof.
  destruct (ulp_pow t1) as (k1 & Hk1 & ->), (ulp_pow t2) as (k2 & Hk2 & ->).
  intros Hlt. apply Z.pow_lt_mono_r_iff in Hlt; [|lia..].
  rewrite <- Z.pow_succ_r by lia. apply Z.pow_le_mono_r; lia.
Qed.

Lemma round_pos_le_prec (n d : Z) :
  0 ≤ n → 0 < d → round_pos n d ≤ PREC * ulp (n / d).
Proof.
  intros Hn Hd. unfold round_pos. set (u := ulp (n / d)).
  assert (Hu : 0 < u) by apply ulp_pos.
  apply Z.mul_le_mono_nonneg_r; [lia|].
  rewrite <- (rne_exact PREC 1) by lia. apply rne_mono; [nia|lia|].
  pose proof (ulp_upper (n / d)) as Hup. fold u in Hup.
  pose proof (Z.div_mod n d ltac:(lia)). pose proof (Z.mod_pos_bound n d Hd). nia.
Qed.

Lemma round_pos_ge_half_prec (n d : Z) :
  0 ≤ n → 0 < d → 1 < ulp (n / d) → 2 ^ 52 * ulp (n / d) ≤ round_pos n d.
Proof.
  intros Hn Hd H1. unfold round_pos. set (u := ulp (n / d)) in *.
  apply Z.mul_le_mono_nonneg_r; [lia|].
  rewrite <- (rne_exact (2 ^ 52) 1) by lia. apply rne_mono; [lia|nia|].
  pose proof (ulp_lower (n / d) H1) as Hlo. fold u in Hlo.
  pose proof (Z.mul_div_le n d Hd). nia.
Qed.

Lemma round_pos_mono (n1 d1 n2 d2 : Z) :
  0 ≤ n1 → 0 ≤ n2 → 0 < d1 → 0 < d2 → n1 * d2 ≤ n2 * d1 →
  round_pos n1 d1 ≤ round_pos n2 d2.
Proof.
  intros Hn1 Hn2 Hd1 Hd2 Hle.
  assert (Ht : 0 ≤ n1 / d1 ≤ n2 / d2).
  { split; [apply Z.div_pos; lia|]. apply Z.div_le_lower_bound; [lia|].
    pose proof (Z.mul_div_le n1 d1 Hd1).
    assert (d1 * (d2 * (n1 / d1)) ≤ d1 * n2) by nia. nia. }
  pose proof (ulp_mono _ _ Ht) as Hu.
  destruct (Z.eq_dec (ulp (n1 / d1)) (ulp (n2 / d2))) as [He|Hne].
  - unfold round_pos. rewrite <- He. pose proof (ulp_pos (n1 / d1)).
    apply Z.mul_le_mono_nonneg_r; [lia|]. apply rne_mono; nia.
  - pose proof (ulp_double (n1 / d1) (n2 / d2) ltac:(lia)).
    pose proof (ulp_pos (n1 / d1)).
    pose proof (round_pos_le_prec n1 d1 Hn1 Hd1).
    pose proof (round_pos_ge_half_prec n2 d2 Hn2 Hd2 ltac:(lia)).
    replace PREC with (2 ^ 52 * 2) in * by reflexivity. nia.
Qed.

Lemma round_pos_nonneg (n d : Z) : 0 ≤ n → 0 < d → 0 ≤ round_pos n d.
Proof.
  intros Hn Hd. unfold round_pos. pose proof (ulp_pos (n / d)).
  apply Z.mul_nonneg_nonneg; [|lia].
  rewrite <- (rne_exact 0 1) by lia. apply rne_mono; nia.
Qed.

Lemma rnd_mono (n1 d1 n2 d2 : Z) :
  0 < d1 → 0 < d2 → n1 * d2 ≤ n2 * d1 → rnd n1 d1 ≤ rnd n2 d2.
Proof.
  intros Hd1 Hd2 Hle. unfold rnd.
  destruct (Z.ltb_spec n1 0), (Z.ltb_spec n2 0).
  - apply (Z.opp_le_mono (round_pos (- n2) d2) (round_pos (- n1) d1)).
    apply round_pos_mono; nia.
  - pose proof (round_pos_nonneg (- n1) d1). pose proof (round_pos_nonneg n2 d2). lia.
  - exfalso. nia.
  - by apply round_pos_mono.
Qed.

(** A magnitude that fits 53 bits is kept exactly. *)
Lemma rnd_exact (m k d : Z) :
  0 ≤ m < PREC → 0 ≤ k → 0 < d → rnd (m * 2 ^ k * d) d = m * 2 ^ k.
Proof.
  intros Hm Hk Hd. pose proof (Z.pow_pos_nonneg 2 k ltac:(lia) Hk) as Hp.
  unfold rnd. rewrite (proj2 (Z.ltb_ge _ _)) by nia.
  unfold round_pos. rewrite Z.div_mul by lia. set (z := m * 2 ^ k) in *.
  assert (Hdiv : (ulp z | z)).
  { unfold ulp. destruct (Z.ltb_spec z PREC) as [|Hz]; [by exists z; lia|].
    apply (Z.divide_trans _ (2 ^ k)); [|by exists m].
    assert (Z.log2 z < 53 + k).
    { apply Z.log2_lt_pow2; [rewrite PREC_val in Hz; lia|].
      rewrite Z.pow_add_r by lia. fold PREC. unfold z. nia. }
    exists (2 ^ (k - (Z.log2 z - 52))). rewrite <- Z.pow_add_r; [f_equal; lia|lia|].
    assert (53 ≤ Z.log2 z); [|lia]. rewrite PREC_val in Hz.
    apply Z.log2_le_pow2; lia. }
  destruct Hdiv as [c Hc]. pose proof (ulp_pos z). clearbody z.
  rewrite Hc at 1. replace (c * ulp z * d) with (c * (d * ulp z)) by lia.
  rewrite rne_exact by nia. lia.
Qed.

(** ** Order *)
Lemma f64_le_trans (x y z : f64) :
  f64_le x y = true → f64_le y z = true → f64_le x z = true.
Proof. destruct x as [|[]|], y as [|[]|], z as [|[]|]; simpl; try done; lia. Qed.

Lemma f64_make_mono (a b : Z) : a ≤ b → f64_le (f64_make a) (f64_make b) = true.
Proof.
  intros Hab. unfold f64_make.
  assert (0 < OVER) by (apply Z.pow_pos_nonneg; lia).
  destruct (Z.leb_spec OVER (Z.abs a)), (Z.leb_spec OVER (Z.abs b)),
    (Z.ltb_spec a 0), (Z.ltb_spec b 0); simpl; lia.
Qed.

Lemma f64_of_ratio_mono (n1 d1 n2 d2 : Z) :
  0 < d1 → 0 < d2 → n1 * d2 ≤ n2 * d1 →
  f64_le (f64_of_ratio n1 d1) (f64_of_ratio n2 d2) = true.
Proof.
  intros. apply f64_make_mono, rnd_mono; try lia. pose proof UNIT_pos. nia.
Qed.

Lemma f64_make_nonneg (z : Z) : 0 ≤ z → f64_make z = Inf false ∨ f64_make z = Fin z.
Proof.
  intros Hz. unfold f64_make. rewrite (proj2 (Z.ltb_ge _ _)) by lia.
  destruct (OVER <=? Z.abs z); auto.
Qed.

(** An integer of magnitude below 2^53 converts exactly. *)
Lemma UNIT_lt_OVER (m : Z) : 0 ≤ m ≤ PREC → m * UNIT < OVER.
Proof.
  intros Hm. apply Z.le_lt_trans with (PREC * UNIT).
  - pose proof UNIT_pos. nia.
  - unfold PREC, UNIT, OVER. rewrite <- Z.pow_add_r by lia.
    apply Z.pow_lt_mono_r; lia.
Qed.

Lemma f64_of_Z_small (z : Z) : 0 ≤ z < PREC → f64_of_Z z = Fin (z * UNIT).
Proof.
  intros Hz. unfold f64_of_Z, f64_of_ratio.
  pose proof (rnd_exact z 1074 1 Hz ltac:(lia) ltac:(lia)) as He.
  fold UNIT in He. rewrite Z.mul_1_r in He. rewrite He. unfold f64_make.
  pose proof UNIT_pos. pose proof (UNIT_lt_OVER z ltac:(lia)).
  rewrite (proj2 (Z.leb_gt _ _)); [done | nia].
Qed.

(** Division is monotone in the dividend and antitone in a positive divisor. *)
Lemma f64_div_mono (a1 b1 a2 b2 : Z) :
  0 < b1 → 0 < b2 → a1 * b2 ≤ a2 * b1 →
  f64_le (f64_div (Fin a1) (Fin b1)) (f64_div (Fin a2) (Fin b2)) = true.
Proof.
  intros H1 H2 Hle. unfold f64_div.
  rewrite !(proj2 (Z.eqb_neq _ _)), !(proj2 (Z.ltb_ge _ _)) by lia.
  apply f64_make_mono, rnd_mono; [lia..|]. pose proof UNIT_pos. nia.
Qed.

Lemma rnd_one (a : Z) : 0 < a → rnd (a * UNIT) a = UNIT.
Proof.
  intros Ha. pose proof (rnd_exact 1 1074 a ltac:(rewrite PREC_val; lia)
    ltac:(lia) Ha) as He. fold UNIT in He.
  by rewrite !Z.mul_1_l, (Z.mul_comm UNIT) in He.
Qed.

(** The rounded quotient of two integers below 2^53 reaches 1 exactly when the
    quotient does. *)
Lemma rnd_quot_ge_one (b p : Z) :
  0 < b < PREC → 0 < p < PREC → UNIT ≤ rnd (b * UNIT * UNIT) (p * UNIT) ↔ p ≤ b.
Proof.
  intros Hb Hp. pose proof UNIT_pos as HU. split.
  - intros Hge. destruct (Z.le_gt_cases p b) as [|Hlt]; [done|exfalso].
    assert (Hup : rnd (b * UNIT * UNIT) (p * UNIT) ≤ (PREC - 1) * 2 ^ 1021).
    { rewrite <- (rnd_exact (PREC - 1) 1021 1) by (rewrite ?PREC_val; lia).
      apply rnd_mono; [nia|lia|].
      rewrite !Z.mul_1_r. replace UNIT with (PREC * 2 ^ 1021) at 2 by
        (unfold PREC, UNIT; rewrite <- Z.pow_add_r by lia; done).
      assert (0 < 2 ^ 1021) by (apply Z.pow_pos_nonneg; lia).
      assert (b * PREC ≤ (PREC - 1) * p) by nia. nia. }
    assert (UNIT = PREC * 2 ^ 1021) as HUP by
      (unfold PREC, UNIT; rewrite <- Z.pow_add_r by lia; done).
    assert (0 < 2 ^ 1021) by (apply Z.pow_pos_nonneg; lia). nia.
  - intros Hle. rewrite <- (rnd_one 1) at 1 by lia. apply rnd_mono; [lia|nia|nia].
Qed.

(** ** Rounding a quotient to an integer *)

(** Between two neighbouring integers the rounded quotient stays between them. *)
Lemma rnd_between (n d k : Z) :
  0 < d → 0 ≤ k → k + 1 < PREC → k * UNIT * d ≤ n ≤ (k + 1) * UNIT * d →
  k * UNIT ≤ rnd n d ≤ (k + 1) * UNIT.
Proof.
  intros Hd Hk Hp [Hlo Hhi].
  pose proof (rnd_exact k 1074 d ltac:(lia) ltac:(lia) Hd) as El.
  pose proof (rnd_exact (k + 1) 1074 d ltac:(lia) ltac:(lia) Hd) as Eh.
  fold UNIT in El, Eh. split; [rewrite <-El|rewrite <-Eh]; apply rnd_mono; nia.
Qed.

Lemma round_half_away_between (z k : Z) :
  0 ≤ k → k * UNIT ≤ z ≤ (k + 1) * UNIT → k ≤ round_half_away z ≤ k + 1.
Proof.
  intros Hk Hz. pose proof UNIT_pos as HU. unfold round_half_away.
  rewrite (Z.abs_eq z) by nia.
  assert (Hq : k ≤ (2 * z + UNIT) / (2 * UNIT) ≤ k + 1).
  { split; [apply Z.div_le_lower_bound; nia|].
    apply Z.lt_succ_r. apply Z.div_lt_upper_bound; nia. }
  destruct (Z.eq_dec z 0) as [->|Hnz]; [|rewrite Z.sgn_pos by nia; lia].
  simpl. assert (k = 0) by nia. lia.
Qed.

Lemma round_half_away_int (k : Z) : 0 ≤ k → round_half_away (k * UNIT) = k.
Proof.
  intros Hk. pose proof UNIT_pos as HU. unfold round_half_away. rewrite Z.abs_eq by nia.
  replace (2 * (k * UNIT) + UNIT) with (UNIT + k * (2 * UNIT)) by lia.
  rewrite Z.div_add by lia. rewrite (Z.div_small UNIT) by lia.
  destruct (Z.eq_dec k 0) as [->|]; [done|]. rewrite Z.sgn_pos by nia. lia.
Qed.

Lemma f64_as_i64_round (z : Z) :
  0 ≤ z → z ≤ PREC * UNIT → f64_as_i64 (f64_round (Fin z)) = round_half_away z.
Proof.
  intros Hz Hp. pose proof UNIT_pos as HU. simpl.
  rewrite Z.quot_mul by lia. apply i64_sat_id.
  unfold is_i64, i64_min, i64_max.
  assert (Hb : 0 ≤ round_half_away z ≤ PREC); [|rewrite PREC_val in Hb; lia].
  unfold round_half_away. rewrite Z.abs_eq by done.
  assert (0 ≤ (2 * z + UNIT) / (2 * UNIT) ≤ PREC).
  { split; [apply Z.div_pos; lia|]. apply Z.lt_succ_r, Z.div_lt_upper_bound; nia. }
  destruct (Z.eq_dec z 0) as [->|]; [simpl; rewrite PREC_val; lia|].
  rewrite Z.sgn_pos by lia. lia.
Qed.

(** [(n / d).round() as i64] of a quotient between two neighbouring integers. *)
Lemma f64_make_fin (z : Z) : 0 ≤ z ≤ PREC * UNIT → f64_make z = Fin z.
Proof.
  intros Hz. unfold f64_make. rewrite Z.abs_eq by lia.
  pose proof (UNIT_lt_OVER PREC ltac:(rewrite PREC_val; lia)).
  rewrite (proj2 (Z.leb_gt _ _)) by lia. done.
Qed.

Lemma round_quotient_between (n d k : Z) :
  0 < d → 0 ≤ k → k + 1 < PREC → k * UNIT * d ≤ n ≤ (k + 1) * UNIT * d →
  k ≤ f64_as_i64 (f64_round (f64_make (rnd n d))) ≤ k + 1.
Proof.
  intros Hd Hk Hp Hn. pose proof (rnd_between n d k Hd Hk Hp Hn) as Hr.
  pose proof UNIT_pos. rewrite f64_make_fin by nia. rewrite f64_as_i64_round by nia.
  by apply round_half_away_between.
Qed.

Lemma round_quotient_int (n d k : Z) :
  0 < d → 0 ≤ k < PREC → n = k * UNIT * d →
  f64_as_i64 (f64_round (f64_make (rnd n d))) = k.
Proof.
  intros Hd Hk ->. pose proof (rnd_exact k 1074 d Hk ltac:(lia) Hd) as E.
  fold UNIT in E. rewrite E. pose proof UNIT_pos. rewrite f64_make_fin by nia.
  rewrite f64_as_i64_round by nia. apply round_half_away_int. lia.
Qed.
