(* ===== verification/FleetTypes.v ===== *)
(** * FleetTypes: the vocabulary of the broadcast fleet

    [mm-core/src/fleet/mod.rs]: node identities, the three enumerations stored as
    text in V034's tables, and a node as mm-core understands it. [FleetMode] is
    the run-time switch of [mm-core/src/config.rs]. *)
From S2P Require Import Prelude.
Local Open Scope Z_scope.

(** [NodeId] and [ViewerId] are newtypes around [String]. *)
Abbreviation NodeId := string (only parsing).
Abbreviation ViewerId := string (only parsing).

Module Ownership.
Inductive t : Type := Owned | Leased | Rented.

#[global] Instance t_eq_dec : EqDecision t.
Proof. solve_decision. Defined.

Definition is_reapable (o : t) : bool :=
  match o with Rented => true | _ => false end.

Definition requires_destroy_deadline (o : t) : bool := is_reapable o.

Definition as_str (o : t) : string :=
  match o with Owned => "owned" | Leased => "leased" | Rented => "rented" end.

Definition parse (raw : string) : option t :=
  if decide (raw = "owned") then Some Owned
  else if decide (raw = "leased") then Some Leased
  else if decide (raw = "rented") then Some Rented
  else None.

Definition ALL : list t := [Owned; Leased; Rented].
End Ownership.

Module NodeFlavor.
Inductive t : Type := Origin | Fanout | Edge | Transcode.

#[global] Instance t_eq_dec : EqDecision t.
Proof. solve_decision. Defined.

Definition is_fleet (f : t) : bool := match f with Origin => false | _ => true end.

Definition serves_webrtc_viewers (f : t) : bool :=
  match f with Origin | Fanout => true | _ => false end.

Definition as_str (f : t) : string :=
  match f with
  | Origin => "origin" | Fanout => "fanout" | Edge => "edge"
  | Transcode => "transcode"
  end.

Definition parse (raw : string) : option t :=
  if decide (raw = "origin") then Some Origin
  else if decide (raw = "fanout") then Some Fanout
  else if decide (raw = "edge") then Some Edge
  else if decide (raw = "transcode") then Some Transcode
  else None.

Definition ALL : list t := [Origin; Fanout; Edge; Transcode].
End NodeFlavor.

Module NodeState.
Inductive t : Type := Requested | Booting | Healthy | Draining | Destroying | Gone.

#[global] Instance t_eq_dec : EqDecision t.
Proof. solve_decision. Defined.

Definition accepts_new_viewers (s : t) : bool :=
  match s with Healthy => true | _ => false end.

Definition is_probably_billing (s : t) : bool :=
  match s with Gone => false | _ => true end.

Definition as_str (s : t) : string :=
  match s with
  | Requested => "requested" | Booting => "booting" | Healthy => "healthy"
  | Draining => "draining" | Destroying => "destroying" | Gone => "gone"
  end.

Definition parse (raw : string) : option t :=
  if decide (raw = "requested") then Some Requested
  else if decide (raw = "booting") then Some Booting
  else if decide (raw = "healthy") then Some Healthy
  else if decide (raw = "draining") then Some Draining
  else if decide (raw = "destroying") then Some Destroying
  else if decide (raw = "gone") then Some Gone
  else None.

Definition ALL : list t := [Requested; Booting; Healthy; Draining; Destroying; Gone].
End NodeState.

Record FleetNode : Type := {
  fn_id : NodeId;
  fn_flavor : NodeFlavor.t;
  fn_ownership : Ownership.t;
  fn_state : NodeState.t;
  fn_viewer_capacity : Z;
  fn_viewers_current : Z
}.

#[global] Instance FleetNode_eq_dec : EqDecision FleetNode.
Proof. solve_decision. Defined.

Definition headroom (n : FleetNode) : Z :=
  u32_saturating_sub (fn_viewer_capacity n) (fn_viewers_current n).

Definition is_placeable (n : FleetNode) : bool :=
  NodeState.accepts_new_viewers (fn_state n) &&
  NodeFlavor.serves_webrtc_viewers (fn_flavor n) &&
  (0 <? headroom n).

Definition is_reapable (n : FleetNode) : bool :=
  Ownership.is_reapable (fn_ownership n) &&
  bool_decide (fn_state n ≠ NodeState.Gone).

(** The run-time switch of the fleet subsystem. *)
Module FleetMode.
Inductive t : Type := On | Frozen | Off.

#[global] Instance t_eq_dec : EqDecision t.
Proof. solve_decision. Defined.

Definition default : t := Frozen.

Definition parse (raw : string) : option t :=
  let s := to_ascii_lowercase (trim raw) in
  if decide (s = "on") then Some On
  else if decide (s = "frozen") then Some Frozen
  else if decide (s = "off") then Some Off
  else None.

Definition allows_placement (m : t) : bool :=
  match m with On => true | _ => false end.

Definition drains_existing_viewers (m : t) : bool :=
  match m with Off => true | _ => false end.

Definition as_str (m : t) : string :=
  match m with On => "on" | Frozen => "frozen" | Off => "off" end.
End FleetMode.

(** ** Lemmas *)
Lemma ownership_roundtrip (o : Ownership.t) :
  Ownership.parse (Ownership.as_str o) = Some o.
Proof. by destruct o. Qed.

Lemma flavor_roundtrip (f : NodeFlavor.t) :
  NodeFlavor.parse (NodeFlavor.as_str f) = Some f.
Proof. by destruct f. Qed.

Lemma state_roundtrip (s : NodeState.t) :
  NodeState.parse (NodeState.as_str s) = Some s.
Proof. by destruct s. Qed.

#[export] Hint Rewrite ownership_roundtrip flavor_roundtrip state_roundtrip : mm_rw.

Lemma ownership_parse_inv raw o :
  Ownership.parse raw = Some o → raw = Ownership.as_str o.
Proof. unfold Ownership.parse. repeat case_decide; naive_solver. Qed.

Lemma flavor_parse_inv raw f :
  NodeFlavor.parse raw = Some f → raw = NodeFlavor.as_str f.
Proof. unfold NodeFlavor.parse. repeat case_decide; naive_solver. Qed.

Lemma state_parse_inv raw s :
  NodeState.parse raw = Some s → raw = NodeState.as_str s.
Proof. unfold NodeState.parse. repeat case_decide; naive_solver. Qed.

Lemma headroom_nonneg (n : FleetNode) : 0 ≤ headroom n.
Proof. unfold headroom, u32_saturating_sub. lia. Qed.

Lemma headroom_le_capacity (n : FleetNode) :
  0 ≤ fn_viewer_capacity n → 0 ≤ fn_viewers_current n →
  headroom n ≤ fn_viewer_capacity n.
Proof. unfold headroom, u32_saturating_sub. lia. Qed.

Lemma is_placeable_spec (n : FleetNode) :
  is_placeable n = true ↔
  fn_state n = NodeState.Healthy ∧
  (fn_flavor n = NodeFlavor.Origin ∨ fn_flavor n = NodeFlavor.Fanout) ∧
  fn_viewers_current n < fn_viewer_capacity n.
Proof.
  unfold is_placeable, headroom, u32_saturating_sub.
  rewrite !andb_true_iff, Z.ltb_lt.
  split.
  - intros [[Hs Hf] Hh]. split; [by destruct (fn_state n)|].
    split; [destruct (fn_flavor n); naive_solver | lia].
  - intros (-> & [-> | ->] & Hh); (split; [done | lia]).
Qed.
