(* ===== verification/Billing.v ===== *)
(** * Billing: how a provider charges, and when to destroy a node

    [mm-core/src/fleet/billing.rs]. Periods run from the node's own start; a
    teardown whose deadline fell inside a paid hour waits for the end of that
    hour. *)
From S2P Require Import Prelude.
Local Open Scope Z_scope.

Module BillingIncrement.
Inductive t : Type := PerSecond | PerMinute | PerHour.

#[global] Instance t_eq_dec : EqDecision t.
Proof. solve_decision. Defined.

Definition seconds (i : t) : Z :=
  match i with PerSecond => 1 | PerMinute => 60 | PerHour => 3600 end.

Definition worth_aligning_teardown (i : t) : bool :=
  match i with PerHour => true | _ => false end.

Definition round_ttl_secs (i : t) (requested : Z) : Z :=
  let unit := seconds i in
  if requested =? 0 then unit
  else u32_wrap (div_ceil requested unit * unit).
End BillingIncrement.

Definition periods_owed (i : BillingIncrement.t) (started_at ended_at : DateTime) : Z :=
  let secs := num_seconds (ended_at - started_at) in
  if secs <=? 0 then 1
  else
    let unit := BillingIncrement.seconds i in
    u32_wrap (Z.max (Z.quot (secs + unit - 1) unit) 1).

Definition next_period_boundary (i : BillingIncrement.t)
    (started_at now : DateTime) : DateTime :=
  let unit := BillingIncrement.seconds i in
  let elapsed := num_seconds (now - started_at) in
  if elapsed <? 0 then started_at
  else
    let periods := Z.quot elapsed unit + 1 in
    started_at + seconds (periods * unit).

Definition aligned_teardown_at (i : BillingIncrement.t)
    (billing_started_at : option DateTime) (destroy_deadline now : DateTime) :
    option DateTime :=
  if negb (BillingIncrement.worth_aligning_teardown i) then None
  else
    match billing_started_at with
    | None => None
    | Some started_at =>
        let boundary := next_period_boundary i started_at destroy_deadline in
        if now <? boundary then Some boundary else None
    end.

(** ** Lemmas *)
Lemma increment_seconds_pos i : 0 < BillingIncrement.seconds i ≤ 3600.
Proof. destruct i; simpl; lia. Qed.

(** The only rounding is of a fraction of a second, towards zero. *)
Lemma num_seconds_spec (d : Z) :
  0 ≤ num_seconds d → num_seconds d * NANOS ≤ Z.max d 0 < (num_seconds d + 1) * NANOS.
Proof.
  unfold num_seconds, NANOS. intros H.
  pose proof (Z.quot_rem' d 1000000000). pose proof (Z.rem_bound_abs d 1000000000).
  destruct (Z.le_gt_cases 0 d).
  - pose proof (Z.rem_nonneg d 1000000000). lia.
  - pose proof (Z.rem_nonpos d 1000000000). lia.
Qed.

Lemma num_seconds_neg (d : Z) : num_seconds d < 0 → d ≤ - NANOS.
Proof.
  unfold num_seconds, NANOS. intros H.
  pose proof (Z.quot_rem' d 1000000000).
  destruct (Z.le_gt_cases 0 d).
  - pose proof (Z.quot_pos d 1000000000). lia.
  - pose proof (Z.rem_nonpos d 1000000000). pose proof (Z.rem_bound_abs d 1000000000).
    lia.
Qed.

Lemma num_seconds_exact (n : Z) : num_seconds (seconds n) = n.
Proof. unfold num_seconds, seconds, NANOS. apply Z.quot_mul. lia. Qed.

Lemma quot_div_pos (a b : Z) : 0 ≤ a → 0 < b → Z.quot a b = a / b.
Proof. intros. rewrite Z.quot_div_nonneg; lia. Qed.

(** The boundary is the end of the period the instant falls in. *)
Lemma boundary_period i started now :
  started ≤ now →
  let b := next_period_boundary i started now in
  now < b ≤ now + seconds (BillingIncrement.seconds i).
Proof.
  intros Hs b. subst b. unfold next_period_boundary, seconds.
  pose proof (increment_seconds_pos i) as Hu.
  set (u := BillingIncrement.seconds i) in *. clearbody u.
  assert (He : 0 ≤ num_seconds (now - started)).
  { unfold num_seconds, NANOS. apply Z.quot_pos; lia. }
  pose proof (num_seconds_spec _ He) as Hn.
  rewrite (proj2 (Z.ltb_ge _ _) He), quot_div_pos by lia.
  set (e := num_seconds (now - started)) in *. clearbody e.
  pose proof (Z.div_mod e u ltac:(lia)). pose proof (Z.mod_pos_bound e u ltac:(lia)).
  unfold NANOS in *. nia.
Qed.

Lemma boundary_upper i started now :
  next_period_boundary i started now <
  Z.max started now + seconds (BillingIncrement.seconds i) + 1.
Proof.
  destruct (Z.le_gt_cases started now) as [Hle|Hgt].
  - pose proof (boundary_period i started now Hle). simpl in *. lia.
  - unfold next_period_boundary, seconds. pose proof (increment_seconds_pos i).
    destruct (Z.ltb_spec (num_seconds (now - started)) 0) as [|He].
    + unfold NANOS. lia.
    + pose proof (num_seconds_spec _ He) as Hn.
      assert (num_seconds (now - started) = 0) as -> by (unfold NANOS in *; lia).
      rewrite Z.quot_0_l by lia. unfold NANOS. lia.
Qed.

(** A rounded TTL is the least whole number of periods that covers it. *)
Lemma round_ttl_spec i r :
  0 < r ≤ u32_max - 3600 →
  let t := BillingIncrement.round_ttl_secs i r in
  r ≤ t < r + BillingIncrement.seconds i ∧ t mod BillingIncrement.seconds i = 0.
Proof.
  intros Hr t. subst t. unfold BillingIncrement.round_ttl_secs.
  pose proof (increment_seconds_pos i) as Hu.
  set (u := BillingIncrement.seconds i) in *. clearbody u.
  rewrite (proj2 (Z.eqb_neq r 0)) by lia.
  pose proof (div_ceil_spec r u ltac:(lia)) as Hd.
  rewrite u32_wrap_id by (unfold is_u32; lia).
  split; [lia|]. apply Z.mod_mul. lia.
Qed.

Lemma periods_owed_pos i started ended :
  num_seconds (ended - started) ≤ u32_max →
  1 ≤ periods_owed i started ended.
Proof.
  intros Hs. unfold periods_owed. pose proof (increment_seconds_pos i) as Hu.
  set (u := BillingIncrement.seconds i) in *. clearbody u.
  destruct (Z.leb_spec (num_seconds (ended - started)) 0); [lia|].
  rewrite quot_div_pos by lia. set (s := num_seconds _) in *. clearbody s.
  rewrite u32_wrap_id; [lia|]. unfold is_u32.
  assert ((s + u - 1) / u ≤ s); [|lia].
  apply Z.lt_succ_r, Z.div_lt_upper_bound; nia.
Qed.

(** For a run of at least a second, the periods owed are the least number of
    whole periods that covers the whole seconds of the run. *)
Lemma periods_owed_least i started ended :
  0 < num_seconds (ended - started) ≤ u32_max →
  periods_owed i started ended
  = div_ceil (num_seconds (ended - started)) (BillingIncrement.seconds i).
Proof.
  intros Hs. unfold periods_owed, div_ceil. pose proof (increment_seconds_pos i) as Hu.
  set (u := BillingIncrement.seconds i) in *. clearbody u.
  rewrite (proj2 (Z.leb_gt _ _)) by lia. rewrite quot_div_pos by lia.
  set (s := num_seconds _) in *. clearbody s.
  assert (1 ≤ (s + u - 1) / u ≤ s).
  { split; [apply Z.div_le_lower_bound; lia|].
    apply Z.lt_succ_r, Z.div_lt_upper_bound; nia. }
  rewrite u32_wrap_id; [lia | unfold is_u32; lia].
Qed.

Lemma boundary_periods_owed i started now :
  started ≤ now → num_seconds (now - started) ≤ u32_max - 3600 →
  periods_owed i started (next_period_boundary i started now)
  = num_seconds (now - started) / BillingIncrement.seconds i + 1.
Proof.
  intros Hs Hm. pose proof (increment_seconds_pos i) as Hu.
  assert (He : 0 ≤ num_seconds (now - started)).
  { unfold num_seconds, NANOS. apply Z.quot_pos; lia. }
  unfold next_period_boundary. rewrite (proj2 (Z.ltb_ge _ _) He), quot_div_pos by lia.
  set (e := num_seconds (now - started)) in *. clearbody e.
  set (u := BillingIncrement.seconds i) in *.
  pose proof (Z.div_mod e u ltac:(lia)). pose proof (Z.mod_pos_bound e u ltac:(lia)).
  pose proof (Z.div_pos e u He ltac:(lia)).
  assert (Hx : started + seconds ((e / u + 1) * u) - started
    = seconds ((e / u + 1) * u)) by lia.
  rewrite periods_owed_least; rewrite Hx, num_seconds_exact; fold u; [|nia].
  unfold div_ceil. replace ((e / u + 1) * u + u - 1) with (u - 1 + (e / u + 1) * u) by lia.
  rewrite Z.div_add, Z.div_small by lia. lia.
Qed.

(** ** Properties *)

(** A teardown is deferred to one fixed instant: the end of the billing hour
    the deadline fell in, at most one hour past the deadline. The instant does
    not move with the clock of the sweep, and from it on every sweep destroys
    the node at once. *)
Theorem aligned_teardown_expires (i : BillingIncrement.t) (s deadline now t : DateTime) :
  s ≤ deadline →
  aligned_teardown_at i (Some s) deadline now = Some t →
  now < t ∧ deadline < t ≤ deadline + seconds 3600 ∧
  (∀ now', now' < t → aligned_teardown_at i (Some s) deadline now' = Some t) ∧
  (∀ now', t ≤ now' → aligned_teardown_at i (Some s) deadline now' = None).
Proof.
  intros Hs H. unfold aligned_teardown_at in *. destruct i; [done..|]. simpl in *.
  pose proof (boundary_period BillingIncrement.PerHour s deadline Hs) as Hb.
  simpl in Hb. destruct (Z.ltb_spec now (next_period_boundary BillingIncrement.PerHour
    s deadline)) as [Hlt|]; simplify_eq.
  split; [done|]. split; [done|]. split; intros now' Hn.
  - by rewrite (proj2 (Z.ltb_lt _ _) Hn).
  - by rewrite (proj2 (Z.ltb_ge _ _) Hn).
Qed.

Lemma aligned_teardown_expires_witness :
  aligned_teardown_at BillingIncrement.PerHour (Some 0) (seconds 3900) (seconds 3930)
    = Some (seconds 7200) ∧
  aligned_teardown_at BillingIncrement.PerHour (Some 0) (seconds 3900) (seconds 7200)
    = None.
Proof.
  assert (H : aligned_teardown_at BillingIncrement.PerHour (Some 0) (seconds 3900)
    (seconds 3930) = Some (seconds 7200)) by (vm_compute; reflexivity).
  split; [exact H|].
  refine (proj2 (proj2 (proj2 (aligned_teardown_expires BillingIncrement.PerHour 0
    (seconds 3900) (seconds 3930) (seconds 7200) _ H))) (seconds 7200) _);
  vm_compute; discriminate.
Defined.

(** Waiting for the aligned instant owes the provider exactly as many hours
    as destroying at the deadline, with one exception: when the deadline lies a
    whole positive number of hours after the start, the wait buys one hour
    more. *)
Theorem deferral_cost (s deadline now t : DateTime) :
  s ≤ deadline → num_seconds (deadline - s) ≤ u32_max - 3600 →
  aligned_teardown_at BillingIncrement.PerHour (Some s) deadline now = Some t →
  let e := num_seconds (deadline - s) in
  periods_owed BillingIncrement.PerHour s t
  = periods_owed BillingIncrement.PerHour s deadline
    + (if (0 <? e) && (e mod 3600 =? 0) then 1 else 0).
Proof.
  intros Hs Hm H e. unfold aligned_teardown_at in H. simpl in H.
  destruct (Z.ltb_spec now (next_period_boundary BillingIncrement.PerHour s deadline));
    simplify_eq.
  rewrite boundary_periods_owed by done. fold e. simpl.
  assert (He : 0 ≤ e) by (unfold e, num_seconds, NANOS; apply Z.quot_pos; lia).
  destruct (Z.ltb_spec 0 e) as [Hpos|Hz].
  - rewrite periods_owed_least by (fold e; lia). fold e. clearbody e. simpl.
    unfold div_ceil. pose proof (Z.div_mod e 3600 ltac:(lia)).
    pose proof (Z.mod_pos_bound e 3600 ltac:(lia)).
    destruct (Z.eqb_spec (e mod 3600) 0) as [Hd|Hd].
    + rewrite (Z.div_unique (e + 3600 - 1) 3600 (e / 3600) 3599) by lia. lia.
    + rewrite (Z.div_unique (e + 3600 - 1) 3600 (e / 3600 + 1) (e mod 3600 - 1)) by lia.
      lia.
  - assert (Hz0 : e = 0) by lia. rewrite Hz0.
    unfold periods_owed. fold e. rewrite Hz0. reflexivity.
Qed.

Lemma deferral_cost_witness :
  periods_owed BillingIncrement.PerHour 0 (seconds 7200)
  = periods_owed BillingIncrement.PerHour 0 (seconds 3900) + 0 ∧
  periods_owed BillingIncrement.PerHour 0 (seconds 7200)
  = periods_owed BillingIncrement.PerHour 0 (seconds 3600) + 1.
Proof.
  split.
  - refine (deferral_cost 0 (seconds 3900) (seconds 3900) (seconds 7200) _ _ _);
      [vm_compute; discriminate | vm_compute; discriminate | vm_compute; reflexivity].
  - refine (deferral_cost 0 (seconds 3600) (seconds 3600) (seconds 7200) _ _ _);
      [vm_compute; discriminate | vm_compute; discriminate | vm_compute; reflexivity].
Defined.
