(* ===== verification/Planner.v ===== *)
(** * Planner: which machines a broadcast should have

    [mm-core/src/fleet/planner.rs]. [plan] is the pure function from an
    observation and a policy to the complete desired set of one broadcast. *)
From S2P Require Import Prelude F64 FleetTypes Billing.
Local Open Scope Z_scope.

Record FleetPolicy : Type := {
  fp_viewer_capacity_per_node : Z;
  fp_max_fanout_nodes_per_broadcast : Z;
  fp_region : string;
  fp_size : string;
  fp_rented_ttl_secs : Z;
  fp_billing_increment : BillingIncrement.t
}.

Definition conservative (region size : string) : FleetPolicy := {|
  fp_viewer_capacity_per_node := 250;
  fp_max_fanout_nodes_per_broadcast := 8;
  fp_region := region;
  fp_size := size;
  fp_rented_ttl_secs := 3 * 3600;
  fp_billing_increment := BillingIncrement.PerHour
|}.

Definition with_ttl_secs (p : FleetPolicy) (requested : Z) : FleetPolicy := {|
  fp_viewer_capacity_per_node := fp_viewer_capacity_per_node p;
  fp_max_fanout_nodes_per_broadcast := fp_max_fanout_nodes_per_broadcast p;
  fp_region := fp_region p;
  fp_size := fp_size p;
  fp_rented_ttl_secs :=
    BillingIncrement.round_ttl_secs (fp_billing_increment p) requested;
  fp_billing_increment := fp_billing_increment p
|}.

Definition with_billing_increment (p : FleetPolicy) (i : BillingIncrement.t) :
    FleetPolicy := {|
  fp_viewer_capacity_per_node := fp_viewer_capacity_per_node p;
  fp_max_fanout_nodes_per_broadcast := fp_max_fanout_nodes_per_broadcast p;
  fp_region := fp_region p;
  fp_size := fp_size p;
  fp_rented_ttl_secs := BillingIncrement.round_ttl_secs i (fp_rented_ttl_secs p);
  fp_billing_increment := i
|}.

(** How many viewers a port cap supports at a bitrate. *)
Definition viewers_for_bandwidth (port_mbps viewer_bitrate_kbps : Z) (derate : f64) : Z :=
  if (viewer_bitrate_kbps =? 0) || negb (f64_is_finite derate)
     || f64_le derate (f64_of_Z 0)
  then 0
  else
    let usable_kbps :=
      f64_max (f64_mul (f64_mul (f64_of_Z port_mbps) (f64_of_Z 1000))
        (f64_min derate (f64_of_Z 1))) (f64_of_Z 0) in
    f64_as_u32 (f64_floor (f64_div usable_kbps (f64_of_Z viewer_bitrate_kbps))).

Definition with_measured_bandwidth (p : FleetPolicy)
    (port_mbps viewer_bitrate_kbps : Z) (derate : f64) : FleetPolicy := {|
  fp_viewer_capacity_per_node :=
    viewers_for_bandwidth port_mbps viewer_bitrate_kbps derate;
  fp_max_fanout_nodes_per_broadcast := fp_max_fanout_nodes_per_broadcast p;
  fp_region := fp_region p;
  fp_size := fp_size p;
  fp_rented_ttl_secs := fp_rented_ttl_secs p;
  fp_billing_increment := fp_billing_increment p
|}.

Record FleetObservation : Type := {
  fo_broadcast_id : string;
  fo_programme_is_live : bool;
  fo_transcode_enabled : bool;
  fo_viewers_projected : Z;
  fo_available_balance_minor : Z;
  fo_projected_cost_minor : Z;
  fo_nodes : list FleetNode
}.

Definition is_transcode_node (n : FleetNode) : bool :=
  bool_decide (fn_flavor n = NodeFlavor.Transcode) &&
  bool_decide (fn_state n ≠ NodeState.Gone).

Definition has_transcode_node (obs : FleetObservation) : bool :=
  existsb is_transcode_node (fo_nodes obs).

(** What one node contributes to the capacity at hand or on the way. *)
Definition node_capacity (policy : FleetPolicy) (n : FleetNode) : Z :=
  match fn_state n with
  | NodeState.Healthy => headroom n
  | NodeState.Requested | NodeState.Booting =>
      if fn_viewer_capacity n =? 0 then fp_viewer_capacity_per_node policy
      else fn_viewer_capacity n
  | _ => 0
  end.

Definition u32_sum (l : list Z) : Z := foldl (λ acc x, u32_wrap (acc + x)) 0 l.

Definition effective_capacity (obs : FleetObservation) (policy : FleetPolicy) : Z :=
  u32_sum (node_capacity policy <$>
    List.filter (λ n, NodeFlavor.serves_webrtc_viewers (fn_flavor n)) (fo_nodes obs)).

Definition is_live_fanout (n : FleetNode) : bool :=
  bool_decide (fn_flavor n = NodeFlavor.Fanout) &&
  bool_decide (fn_state n ≠ NodeState.Gone).

Definition live_fanout_nodes (obs : FleetObservation) : list FleetNode :=
  List.filter is_live_fanout (fo_nodes obs).

Record DesiredNode : Type := {
  dn_mm_node_id : NodeId;
  dn_flavor : NodeFlavor.t;
  dn_ownership : Ownership.t;
  dn_region : string;
  dn_size : string;
  dn_broadcast_id : string;
  dn_destroy_after_secs : option Z
}.

#[global] Instance DesiredNode_eq_dec : EqDecision DesiredNode.
Proof. solve_decision. Defined.

Definition fanout_prefix (broadcast_id : string) : string :=
  "bc-" +:+ broadcast_id +:+ "-fanout-".

Definition fanout (broadcast_id : string) (policy : FleetPolicy) (ordinal : Z) :
    DesiredNode := {|
  dn_mm_node_id := fanout_prefix broadcast_id +:+ fmt_u32 ordinal;
  dn_flavor := NodeFlavor.Fanout;
  dn_ownership := Ownership.Rented;
  dn_region := fp_region policy;
  dn_size := fp_size policy;
  dn_broadcast_id := broadcast_id;
  dn_destroy_after_secs := Some (fp_rented_ttl_secs policy)
|}.

Definition transcode (broadcast_id : string) (policy : FleetPolicy) : DesiredNode := {|
  dn_mm_node_id := "bc-" +:+ broadcast_id +:+ "-transcode";
  dn_flavor := NodeFlavor.Transcode;
  dn_ownership := Ownership.Rented;
  dn_region := fp_region policy;
  dn_size := fp_size policy;
  dn_broadcast_id := broadcast_id;
  dn_destroy_after_secs := Some (fp_rented_ttl_secs policy)
|}.

Definition keep (broadcast_id : string) (policy : FleetPolicy) (node : FleetNode) :
    DesiredNode := {|
  dn_mm_node_id := fn_id node;
  dn_flavor := fn_flavor node;
  dn_ownership := fn_ownership node;
  dn_region := fp_region policy;
  dn_size := fp_size policy;
  dn_broadcast_id := broadcast_id;
  dn_destroy_after_secs :=
    if Ownership.requires_destroy_deadline (fn_ownership node)
    then Some (fp_rented_ttl_secs policy) else None
|}.

Definition list_max (l : list Z) : option Z :=
  match l with [] => None | x :: l' => Some (foldl Z.max x l') end.

(** The ordinals of this broadcast's ids, in every state; other ids are ignored. *)
Definition ordinals (all_nodes : list FleetNode) (broadcast_id : string) : list Z :=
  omap (λ n, strip_prefix (fanout_prefix broadcast_id) (fn_id n) ≫= parse_u32) all_nodes.

Definition next_free_ordinal (all_nodes : list FleetNode) (broadcast_id : string) : Z :=
  match list_max (ordinals all_nodes broadcast_id) with
  | None => 0
  | Some m => u32_wrap (m + 1)
  end.

(** The [for _ in 0..to_add] loop: [n] nodes from [ordinal] on. *)
Fixpoint push_fanout (obs : FleetObservation) (policy : FleetPolicy)
    (n : nat) (ordinal : Z) : list DesiredNode :=
  match n with
  | O => []
  | S n' =>
      fanout (fo_broadcast_id obs) policy ordinal
      :: push_fanout obs policy n' (u32_wrap (ordinal + 1))
  end.

Definition nodes_to_add (obs : FleetObservation) (policy : FleetPolicy) : Z :=
  let capacity := effective_capacity obs policy in
  if capacity <? fo_viewers_projected obs then
    let shortfall := fo_viewers_projected obs - capacity in
    let per_node := Z.max (fp_viewer_capacity_per_node policy) 1 in
    let wanted := div_ceil shortfall per_node in
    let room := u32_saturating_sub (fp_max_fanout_nodes_per_broadcast policy)
      (u32_wrap (Z.of_nat (length (live_fanout_nodes obs)))) in
    Z.min wanted room
  else 0.

Definition plan (obs : FleetObservation) (policy : FleetPolicy) : list DesiredNode :=
  let existing := live_fanout_nodes obs in
  let kept := keep (fo_broadcast_id obs) policy <$> existing in
  if negb (fo_programme_is_live obs) then kept
  else if (fo_available_balance_minor obs <=? 0)
          || (fo_available_balance_minor obs <? fo_projected_cost_minor obs)
  then kept
  else
    kept
    ++ push_fanout obs policy (Z.to_nat (nodes_to_add obs policy))
         (next_free_ordinal (fo_nodes obs) (fo_broadcast_id obs))
    ++ (if fo_transcode_enabled obs && negb (has_transcode_node obs)
        then [transcode (fo_broadcast_id obs) policy] else []).

(** ** Specification vocabulary *)

(** The gates the code writes as early returns. *)
Definition growth_allowed (obs : FleetObservation) : Prop :=
  fo_programme_is_live obs = true ∧ 0 < fo_available_balance_minor obs ∧
  fo_projected_cost_minor obs ≤ fo_available_balance_minor obs.

#[global] Instance growth_allowed_dec obs : Decision (growth_allowed obs).
Proof. unfold growth_allowed. apply _. Defined.

(** A planned node that restates an existing one: emitting it does not tear the
    node down, and it carries a deadline exactly when its ownership needs one. *)
Definition restates (n : FleetNode) (d : DesiredNode) : Prop :=
  dn_mm_node_id d = fn_id n ∧ dn_flavor d = fn_flavor n ∧
  dn_ownership d = fn_ownership n ∧
  (is_Some (dn_destroy_after_secs d)
    ↔ Ownership.requires_destroy_deadline (fn_ownership n) = true).

(** A TTL is a whole positive number of the policy's billing periods. *)
Definition ttl_is_whole_periods (p : FleetPolicy) : Prop :=
  0 < fp_rented_ttl_secs p ∧
  fp_rented_ttl_secs p mod BillingIncrement.seconds (fp_billing_increment p) = 0.

(** The same observation once the ordered fan-out nodes exist as [requested]
    rows that have not reported a capacity. *)
Definition requested_node (d : DesiredNode) : FleetNode := {|
  fn_id := dn_mm_node_id d;
  fn_flavor := dn_flavor d;
  fn_ownership := dn_ownership d;
  fn_state := NodeState.Requested;
  fn_viewer_capacity := 0;
  fn_viewers_current := 0
|}.

Definition new_fanout (obs : FleetObservation) (policy : FleetPolicy) : list DesiredNode :=
  push_fanout obs policy (Z.to_nat (nodes_to_add obs policy))
    (next_free_ordinal (fo_nodes obs) (fo_broadcast_id obs)).

Definition after_order (obs : FleetObservation) (policy : FleetPolicy) :
    FleetObservation := {|
  fo_broadcast_id := fo_broadcast_id obs;
  fo_programme_is_live := fo_programme_is_live obs;
  fo_transcode_enabled := fo_transcode_enabled obs;
  fo_viewers_projected := fo_viewers_projected obs;
  fo_available_balance_minor := fo_available_balance_minor obs;
  fo_projected_cost_minor := fo_projected_cost_minor obs;
  fo_nodes := fo_nodes obs ++ (requested_node <$> new_fanout obs policy)
|}.

(** No capacity sum and no ordinal of this observation leaves [u32]. *)
Definition no_overflow (obs : FleetObservation) (policy : FleetPolicy) : Prop :=
  0 ≤ fp_viewer_capacity_per_node policy ∧
  0 ≤ fp_max_fanout_nodes_per_broadcast policy ≤ u32_max ∧
  Z.of_nat (length (fo_nodes obs)) ≤ u32_max ∧
  Forall (λ n, 0 ≤ fn_viewer_capacity n) (fo_nodes obs) ∧
  sumZ (node_capacity policy <$> fo_nodes obs)
    + fp_max_fanout_nodes_per_broadcast policy
      * Z.max 1 (fp_viewer_capacity_per_node policy) ≤ u32_max ∧
  next_free_ordinal (fo_nodes obs) (fo_broadcast_id obs)
    + fp_max_fanout_nodes_per_broadcast policy ≤ u32_max ∧
  Forall (λ o, o < u32_max) (ordinals (fo_nodes obs) (fo_broadcast_id obs)).

#[global] Instance no_overflow_dec obs policy : Decision (no_overflow obs policy).
Proof. unfold no_overflow. apply _. Defined.

(** ** Lemmas: the shape of a plan *)
Lemma plan_growing obs policy :
  growth_allowed obs →
  plan obs policy = (keep (fo_broadcast_id obs) policy <$> live_fanout_nodes obs)
    ++ new_fanout obs policy
    ++ (if fo_transcode_enabled obs && negb (has_transcode_node obs)
        then [transcode (fo_broadcast_id obs) policy] else []).
Proof.
  intros (Hl & Hb & Hc). unfold plan. rewrite Hl. simpl.
  by rewrite (proj2 (Z.leb_gt _ _) Hb), (proj2 (Z.ltb_ge _ _) Hc).
Qed.

Lemma plan_gated obs policy :
  ¬ growth_allowed obs →
  plan obs policy = keep (fo_broadcast_id obs) policy <$> live_fanout_nodes obs.
Proof.
  intros Hng. unfold plan, growth_allowed in *.
  destruct (fo_programme_is_live obs); [simpl|done].
  destruct (Z.leb_spec (fo_available_balance_minor obs) 0); [done|].
  destruct (Z.ltb_spec (fo_available_balance_minor obs) (fo_projected_cost_minor obs));
    [done|]. exfalso. apply Hng. auto.
Qed.

Lemma elem_of_live_fanout obs n :
  n ∈ live_fanout_nodes obs ↔
  n ∈ fo_nodes obs ∧ fn_flavor n = NodeFlavor.Fanout ∧ fn_state n ≠ NodeState.Gone.
Proof.
  unfold live_fanout_nodes, is_live_fanout.
  rewrite !list_elem_of_In, filter_In, andb_true_iff, !bool_decide_eq_true. done.
Qed.

Lemma keep_restates bid policy n : restates n (keep bid policy n).
Proof.
  unfold restates. simpl. repeat split.
  - by destruct (Ownership.requires_destroy_deadline _); [|intros [? ?]].
  - intros ->. eauto.
Qed.

Lemma nodes_to_add_range obs policy : 0 ≤ nodes_to_add obs policy.
Proof.
  unfold nodes_to_add, u32_saturating_sub.
  destruct (Z.ltb_spec (effective_capacity obs policy) (fo_viewers_projected obs));
    [|lia].
  assert (0 ≤ div_ceil (fo_viewers_projected obs - effective_capacity obs policy)
    (Z.max (fp_viewer_capacity_per_node policy) 1)); [|lia].
  apply Z.div_pos; lia.
Qed.

Lemma nodes_to_add_room obs policy :
  Z.of_nat (length (live_fanout_nodes obs)) ≤ u32_max →
  nodes_to_add obs policy ≤ Z.max 0 (fp_max_fanout_nodes_per_broadcast policy
    - Z.of_nat (length (live_fanout_nodes obs))).
Proof.
  intros Hlen. unfold nodes_to_add, u32_saturating_sub.
  rewrite u32_wrap_id by (unfold is_u32; lia).
  destruct (effective_capacity obs policy <? fo_viewers_projected obs); lia.
Qed.

Lemma length_push_fanout obs policy n o : length (push_fanout obs policy n o) = n.
Proof. revert o. induction n as [|n IH]; intros o; simpl; auto. Qed.

Lemma elem_of_push_fanout obs policy n o d :
  d ∈ push_fanout obs policy n o →
  ∃ ordinal, d = fanout (fo_broadcast_id obs) policy ordinal.
Proof.
  revert o. induction n as [|n IH]; intros o; simpl; [by rewrite elem_of_nil|].
  rewrite elem_of_cons. intros [->|Hd]; eauto.
Qed.

Lemma push_fanout_seqZ obs policy n o :
  0 ≤ o → o + Z.of_nat n ≤ u32_max →
  push_fanout obs policy n o
  = fanout (fo_broadcast_id obs) policy <$> seqZ o (Z.of_nat n).
Proof.
  revert o. induction n as [|n IH]; intros o Ho Hm; [done|].
  rewrite seqZ_cons by lia. simpl. f_equal.
  rewrite u32_wrap_id by (unfold is_u32; lia). rewrite IH by lia.
  f_equal. f_equal; lia.
Qed.

(** ** Lemmas: fresh ordinals *)
Lemma list_max_upper l m x : list_max l = Some m → x ∈ l → x ≤ m.
Proof.
  destruct l as [|y l]; [done|]. simpl. intros [= <-].
  assert (Hg : ∀ l y, y ≤ foldl Z.max y l ∧ ∀ x, x ∈ l → x ≤ foldl Z.max y l).
  { clear. induction l as [|z l IH]; intros y; simpl.
    - split; [lia | intros x Hx; by apply not_elem_of_nil in Hx].
    - destruct (IH (Z.max y z)) as [H1 H2]. split; [lia|].
      intros x [->|Hx]%elem_of_cons; [lia | auto]. }
  destruct (Hg l y) as [H1 H2]. intros [->|Hx]%elem_of_cons; auto.
Qed.

Lemma list_max_elem l m : list_max l = Some m → m ∈ l.
Proof.
  destruct l as [|y l]; [done|]. simpl. intros [= <-].
  revert y. induction l as [|z l IH]; intros y; simpl; [by left|].
  specialize (IH (Z.max y z)). rewrite !elem_of_cons in *.
  destruct (Z.max_spec y z) as [[_ E]|[_ E]]; rewrite E in *; tauto.
Qed.

Lemma ordinals_lt_next nodes bid x :
  Forall (λ o, o < u32_max) (ordinals nodes bid) →
  x ∈ ordinals nodes bid → 0 ≤ x → x < next_free_ordinal nodes bid.
Proof.
  intros Hf Hx H0. unfold next_free_ordinal.
  destruct (list_max (ordinals nodes bid)) as [m|] eqn:Hm.
  - pose proof (list_max_upper _ _ _ Hm Hx) as Hle.
    pose proof (list_max_elem _ _ Hm) as Hin.
    rewrite Forall_forall in Hf. specialize (Hf m Hin).
    rewrite u32_wrap_id; [lia | unfold is_u32; lia].
  - destruct (ordinals nodes bid); [by apply not_elem_of_nil in Hx | done].
Qed.

Lemma next_free_ordinal_nonneg nodes bid :
  0 ≤ next_free_ordinal nodes bid.
Proof.
  unfold next_free_ordinal. destruct (list_max _); [|lia].
  unfold u32_wrap. apply Z.mod_pos_bound. lia.
Qed.

Lemma fanout_id_inj bid policy x y :
  0 ≤ x → 0 ≤ y →
  dn_mm_node_id (fanout bid policy x) = dn_mm_node_id (fanout bid policy y) → x = y.
Proof.
  intros Hx Hy H. simpl in H. apply (inj (String.append _)) in H.
  unfold fmt_u32 in H. apply (inj pretty) in H. lia.
Qed.

Lemma fanout_id_ordinal nodes bid policy n x :
  is_u32 x → n ∈ nodes → fn_id n = dn_mm_node_id (fanout bid policy x) →
  x ∈ ordinals nodes bid.
Proof.
  intros Hx Hn Hid. unfold ordinals. apply list_elem_of_omap. exists n. split; [done|].
  rewrite Hid. simpl. rewrite strip_prefix_app. simpl. by apply parse_u32_fmt.
Qed.

(** ** Lemmas: capacity *)
Lemma node_capacity_nonneg policy n :
  0 ≤ fp_viewer_capacity_per_node policy → 0 ≤ fn_viewer_capacity n →
  0 ≤ node_capacity policy n.
Proof.
  intros Hp Hn. unfold node_capacity. pose proof (headroom_nonneg n).
  destruct (fn_state n); try lia; by destruct (fn_viewer_capacity n =? 0).
Qed.

Lemma u32_sum_acc (l : list Z) (acc : Z) :
  Forall (λ x, 0 ≤ x) l → 0 ≤ acc → acc + sumZ l ≤ u32_max →
  foldl (λ a x, u32_wrap (a + x)) acc l = acc + sumZ l.
Proof.
  intros Hl. revert acc. induction Hl as [|x l Hx Hl IH]; intros acc H0 Hs; simpl in *;
    [lia|].
  pose proof (sumZ_nonneg l Hl).
  rewrite u32_wrap_id by (unfold is_u32; lia). rewrite IH; lia.
Qed.

Lemma u32_sum_exact (l : list Z) :
  Forall (λ x, 0 ≤ x) l → sumZ l ≤ u32_max → u32_sum l = sumZ l.
Proof. intros. unfold u32_sum. rewrite u32_sum_acc; [lia | done | lia | lia]. Qed.

Lemma capacities_nonneg policy (l : list FleetNode) :
  0 ≤ fp_viewer_capacity_per_node policy → Forall (λ n, 0 ≤ fn_viewer_capacity n) l →
  Forall (λ x, 0 ≤ x) (node_capacity policy <$> l).
Proof.
  intros Hp Hl. rewrite Forall_fmap. eapply Forall_impl; [exact Hl|].
  intros n Hn. by apply node_capacity_nonneg.
Qed.

Lemma Forall_List_filter {A} (P : A → Prop) (f : A → bool) l :
  Forall P l → Forall P (List.filter f l).
Proof. induction 1 as [|x l]; simpl; [done|]. destruct (f x); auto. Qed.

Lemma effective_capacity_exact obs policy :
  0 ≤ fp_viewer_capacity_per_node policy →
  Forall (λ n, 0 ≤ fn_viewer_capacity n) (fo_nodes obs) →
  sumZ (node_capacity policy <$> fo_nodes obs) ≤ u32_max →
  effective_capacity obs policy = sumZ (node_capacity policy <$>
    List.filter (λ n, NodeFlavor.serves_webrtc_viewers (fn_flavor n)) (fo_nodes obs)).
Proof.
  intros Hp Hn Hs. unfold effective_capacity. apply u32_sum_exact.
  - apply capacities_nonneg; [done|]. by apply Forall_List_filter.
  - etrans; [|exact Hs]. apply sumZ_filter_le.
    rewrite <- (Forall_fmap (node_capacity policy) (λ x, 0 ≤ x)).
    by apply capacities_nonneg.
Qed.

Lemma filter_all {A} (f : A → bool) l :
  (∀ x, x ∈ l → f x = true) → List.filter f l = l.
Proof.
  induction l as [|x l IH]; intros H; simpl; [done|].
  rewrite H by (by left). f_equal. apply IH. intros; apply H; by right.
Qed.

Lemma sumZ_const {A} (l : list A) (f : A → Z) (c : Z) :
  (∀ x, x ∈ l → f x = c) → sumZ (f <$> l) = Z.of_nat (length l) * c.
Proof.
  induction l as [|x l IH]; intros H; csimpl; [lia|].
  rewrite H by (by left). rewrite IH; [lia|]. intros; apply H; by right.
Qed.

Lemma requested_fanout obs policy d :
  d ∈ new_fanout obs policy →
  fn_flavor (requested_node d) = NodeFlavor.Fanout ∧
  fn_state (requested_node d) = NodeState.Requested ∧
  fn_viewer_capacity (requested_node d) = 0 ∧
  keep (fo_broadcast_id obs) policy (requested_node d) = d.
Proof. intros H. apply elem_of_push_fanout in H as [o ->]. done. Qed.

Lemma after_order_live obs policy :
  live_fanout_nodes (after_order obs policy)
  = live_fanout_nodes obs ++ (requested_node <$> new_fanout obs policy).
Proof.
  unfold live_fanout_nodes. simpl. rewrite List.filter_app. f_equal. apply filter_all.
  intros x (d & -> & Hd)%list_elem_of_fmap. destruct (requested_fanout _ _ _ Hd)
    as (Hf & Hs & _). unfold is_live_fanout. by rewrite Hf, Hs.
Qed.

Lemma after_order_has_transcode obs policy :
  has_transcode_node (after_order obs policy) = has_transcode_node obs.
Proof.
  unfold has_transcode_node. simpl. rewrite existsb_app.
  enough (existsb is_transcode_node (requested_node <$> new_fanout obs policy) = false)
    as -> by apply orb_false_r.
  apply not_true_is_false. rewrite existsb_exists. intros (x & Hx & Ht).
  apply list_elem_of_In, list_elem_of_fmap in Hx as (d & -> & Hd).
  destruct (requested_fanout _ _ _ Hd) as (Hf & _).
  unfold is_transcode_node in Ht. by rewrite Hf in Ht.
Qed.

Lemma after_order_capacity obs policy :
  no_overflow obs policy →
  effective_capacity (after_order obs policy) policy
  = effective_capacity obs policy
    + nodes_to_add obs policy * fp_viewer_capacity_per_node policy.
Proof.
  intros (Hp & Hm & Hlen & Hn & Hs & Ho & Hf).
  pose proof (nodes_to_add_range obs policy) as Hr.
  assert (Hl : Z.of_nat (length (live_fanout_nodes obs)) ≤ u32_max).
  { pose proof (List.filter_length_le is_live_fanout (fo_nodes obs)).
    unfold live_fanout_nodes. lia. }
  pose proof (nodes_to_add_room obs policy Hl) as Hroom.
  assert (Hnew : sumZ (node_capacity policy <$> (requested_node <$> new_fanout obs policy))
    = nodes_to_add obs policy * fp_viewer_capacity_per_node policy).
  { rewrite (sumZ_const _ _ (fp_viewer_capacity_per_node policy)).
    - rewrite length_fmap. unfold new_fanout. rewrite length_push_fanout. lia.
    - intros x (d & -> & Hd)%list_elem_of_fmap. unfold node_capacity.
      destruct (requested_fanout _ _ _ Hd) as (_ & -> & -> & _). done. }
  assert (Hnn : Forall (λ n, 0 ≤ fn_viewer_capacity n)
    (requested_node <$> new_fanout obs policy)).
  { apply Forall_forall. intros x (d & -> & Hd)%list_elem_of_fmap. simpl. lia. }
  rewrite !effective_capacity_exact; try done; try nia.
  - simpl. rewrite List.filter_app, fmap_app, sumZ_app.
    rewrite (filter_all _ (requested_node <$> _)); [by rewrite Hnew|].
    intros x (d & -> & Hd)%list_elem_of_fmap.
    by destruct (requested_fanout _ _ _ Hd) as (-> & _).
  - simpl. by apply Forall_app.
  - simpl. rewrite fmap_app, sumZ_app, Hnew. nia.
Qed.

Lemma after_order_adds_nothing obs policy :
  no_overflow obs policy → 1 ≤ fp_viewer_capacity_per_node policy →
  nodes_to_add (after_order obs policy) policy = 0.
Proof.
  intros Hno Hp. pose proof (after_order_capacity obs policy Hno) as Hcap.
  destruct Hno as (_ & Hm & Hlen & _).
  assert (Hl : Z.of_nat (length (live_fanout_nodes obs)) ≤ u32_max).
  { pose proof (List.filter_length_le is_live_fanout (fo_nodes obs)).
    unfold live_fanout_nodes. lia. }
  pose proof (nodes_to_add_range obs policy) as Hr.
  pose proof (nodes_to_add_room obs policy Hl) as Hroom.
  unfold nodes_to_add at 1. rewrite Hcap, after_order_live. simpl.
  destruct (Z.ltb_spec (effective_capacity obs policy + nodes_to_add obs policy
    * fp_viewer_capacity_per_node policy) (fo_viewers_projected obs)) as [Hlt|]; [|done].
  set (short := fo_viewers_projected obs - _). assert (0 < short) by lia.
  assert (0 ≤ div_ceil short (Z.max (fp_viewer_capacity_per_node policy) 1))
    by (apply Z.div_pos; lia).
  rewrite length_app, length_fmap. unfold new_fanout. rewrite length_push_fanout.
  enough (fp_max_fanout_nodes_per_broadcast policy
    ≤ Z.of_nat (length (live_fanout_nodes obs)) + nodes_to_add obs policy) as He.
  { unfold u32_saturating_sub. rewrite u32_wrap_id by (unfold is_u32; lia). lia. }
  clear Hroom. revert Hlt. clear short H H0 Hcap.
  unfold nodes_to_add, u32_saturating_sub.
  rewrite (u32_wrap_id (Z.of_nat (length _))) by (unfold is_u32; lia).
  destruct (Z.ltb_spec (effective_capacity obs policy) (fo_viewers_projected obs));
    [|lia].
  set (per := Z.max _ 1).
  assert (per = fp_viewer_capacity_per_node policy) as Hper by lia. rewrite Hper.
  pose proof (div_ceil_spec (fo_viewers_projected obs - effective_capacity obs policy)
    (fp_viewer_capacity_per_node policy) ltac:(lia)).
  intros Hlt. set (w := div_ceil _ _) in *. set (r := Z.max 0 _) in *.
  destruct (Z.le_gt_cases w r); [rewrite Z.min_l in * by lia; nia | lia].
Qed.

(** ** Properties *)

(** Concrete inputs for the witnesses. *)
Definition ex_policy : FleetPolicy := conservative "eu-ams" "small".
Definition ex_node (id : string) (s : NodeState.t) (cap cur : Z) : FleetNode := {|
  fn_id := id; fn_flavor := NodeFlavor.Fanout; fn_ownership := Ownership.Rented;
  fn_state := s; fn_viewer_capacity := cap; fn_viewers_current := cur |}.
Definition ex_obs (nodes : list FleetNode) (viewers : Z) : FleetObservation := {|
  fo_broadcast_id := "b1"; fo_programme_is_live := true;
  fo_transcode_enabled := false; fo_viewers_projected := viewers;
  fo_available_balance_minor := 5000; fo_projected_cost_minor := 1000;
  fo_nodes := nodes |}.

(** C4. A gate stops growth and never destroys fan-out capacity. Whatever the
    gates decide, every fan-out node of the broadcast that is not gone is in the
    plan, restated with its own identity, flavour and ownership, and with a
    destroy deadline exactly when its ownership requires one. And while a gate
    is closed the plan grows nothing: every node it lists restates a node of the
    broadcast that exists. That nodes are kept is claimed of fan-out nodes only:
    the comment of the function promises it of everything that exists, but a
    running transcoder is left out ([plan_omits_running_transcoder]). *)
Theorem plan_keeps_live_fanout (obs : FleetObservation) (policy : FleetPolicy) :
  (∀ n, n ∈ fo_nodes obs → fn_flavor n = NodeFlavor.Fanout →
    fn_state n ≠ NodeState.Gone →
    ∃ d, d ∈ plan obs policy ∧ restates n d) ∧
  (¬ growth_allowed obs → ∀ d, d ∈ plan obs policy →
    ∃ n, n ∈ fo_nodes obs ∧ fn_state n ≠ NodeState.Gone ∧ restates n d).
Proof.
  split.
  - intros n Hn Hf Hg. exists (keep (fo_broadcast_id obs) policy n).
    split; [|apply keep_restates].
    assert (Hk : keep (fo_broadcast_id obs) policy n
      ∈ keep (fo_broadcast_id obs) policy <$> live_fanout_nodes obs)
      by (by apply list_elem_of_fmap_2, elem_of_live_fanout).
    destruct (decide (growth_allowed obs)) as [Hga|Hng].
    + rewrite plan_growing by done. apply elem_of_app. by left.
    + by rewrite plan_gated.
  - intros Hng d. rewrite plan_gated by done.
    intros (n & -> & (Hn & Hf & Hg)%elem_of_live_fanout)%list_elem_of_fmap.
    exists n. auto using keep_restates.
Qed.

(** The order is bounded and never reuses an identity: apart from the kept
    nodes and the single transcoder, a plan adds fan-out nodes only up to the
    policy's ceiling, counting the ones that already exist, and their ids are
    pairwise distinct and differ from the id of every node of the observation,
    the gone ones included. *)
Theorem plan_new_nodes_bounded_and_fresh (obs : FleetObservation) (policy : FleetPolicy) :
  no_overflow obs policy → growth_allowed obs →
  ∃ new rest,
    plan obs policy
      = (keep (fo_broadcast_id obs) policy <$> live_fanout_nodes obs) ++ new ++ rest ∧
    Forall (λ d, dn_flavor d = NodeFlavor.Fanout ∧ dn_ownership d = Ownership.Rented) new ∧
    rest ⊆ [transcode (fo_broadcast_id obs) policy] ∧
    Z.of_nat (length (live_fanout_nodes obs ++ (requested_node <$> new)))
      ≤ Z.max (Z.of_nat (length (live_fanout_nodes obs)))
          (fp_max_fanout_nodes_per_broadcast policy) ∧
    NoDup (dn_mm_node_id <$> new) ∧
    (∀ d n, d ∈ new → n ∈ fo_nodes obs → fn_id n ≠ dn_mm_node_id d).
Proof.
  intros (Hp & Hm & Hlen & _ & _ & Hord & Hof) Hg.
  assert (Hl : Z.of_nat (length (live_fanout_nodes obs)) ≤ u32_max).
  { pose proof (List.filter_length_le is_live_fanout (fo_nodes obs)).
    unfold live_fanout_nodes. lia. }
  pose proof (nodes_to_add_range obs policy) as Hr.
  pose proof (nodes_to_add_room obs policy Hl) as Hroom.
  pose proof (next_free_ordinal_nonneg (fo_nodes obs) (fo_broadcast_id obs)) as Hn0.
  exists (new_fanout obs policy). eexists. split; [by apply plan_growing|].
  split; [|split; [|split; [|split]]].
  - apply Forall_forall. intros d [o ->]%elem_of_push_fanout. done.
  - destruct (_ && _); set_solver.
  - rewrite length_app, length_fmap. unfold new_fanout. rewrite length_push_fanout. lia.
  - unfold new_fanout. rewrite push_fanout_seqZ by lia. rewrite <- list_fmap_compose.
    apply NoDup_fmap_2_strong; [|apply NoDup_seqZ].
    intros x y Hx%elem_of_seqZ Hy%elem_of_seqZ. apply fanout_id_inj; lia.
  - intros d n Hd Hn Hid. unfold new_fanout in Hd.
    rewrite push_fanout_seqZ in Hd by lia.
    apply list_elem_of_fmap in Hd as (x & -> & Hx%elem_of_seqZ).
    assert (Hin : x ∈ ordinals (fo_nodes obs) (fo_broadcast_id obs)).
    { eapply fanout_id_ordinal; [unfold is_u32; lia | done | exact Hid]. }
    pose proof (ordinals_lt_next _ _ _ Hof Hin). lia.
Qed.

Definition ex_gone : FleetObservation :=
  ex_obs [ex_node "bc-b1-fanout-0" NodeState.Gone 250 0;
          ex_node "bc-b1-fanout-7" NodeState.Healthy 250 250] 600.

Lemma ex_gone_no_overflow : no_overflow ex_gone ex_policy.
Proof.
  apply (bool_decide_eq_true_1 (no_overflow ex_gone ex_policy)). vm_compute. reflexivity.
Qed.

Lemma plan_new_nodes_bounded_and_fresh_witness :
  ∃ new, dn_mm_node_id <$> new
      = ["bc-b1-fanout-8"; "bc-b1-fanout-9"; "bc-b1-fanout-10"] ∧
    ∀ d n, d ∈ new → n ∈ fo_nodes ex_gone → fn_id n ≠ dn_mm_node_id d.
Proof.
  assert (Hg : growth_allowed ex_gone) by (apply (bool_decide_eq_true_1 (growth_allowed ex_gone)); vm_compute; reflexivity).
  destruct (plan_new_nodes_bounded_and_fresh ex_gone ex_policy ex_gone_no_overflow Hg)
    as (new & rest & Hplan & _ & Hrest & _ & _ & Hfresh).
  exists new. split; [|exact Hfresh].
  destruct rest as [|x rest].
  - rewrite app_nil_r in Hplan. vm_compute in Hplan. injection Hplan as <-. reflexivity.
  - exfalso. assert (Hx : x = transcode "b1" ex_policy).
    { apply list_elem_of_singleton, Hrest. left. }
    subst x. assert (Ht : transcode "b1" ex_policy ∈ plan ex_gone ex_policy).
    { rewrite Hplan. apply elem_of_app. right. apply elem_of_app. right. left. }
    revert Ht. vm_compute. intros Ht. repeat (apply elem_of_cons in Ht as [Ht|Ht];
      [discriminate|]). by apply not_elem_of_nil in Ht.
Defined.

(** A plan never under-provisions within its ceiling: when growth is allowed,
    the capacity at hand plus the capacity ordered covers the projected
    audience, unless the broadcast is at its ceiling of fan-out nodes. *)
Theorem plan_covers_demand (obs : FleetObservation) (policy : FleetPolicy) :
  no_overflow obs policy → growth_allowed obs →
  1 ≤ fp_viewer_capacity_per_node policy →
  fo_viewers_projected obs
    ≤ effective_capacity obs policy
      + Z.of_nat (length (new_fanout obs policy)) * fp_viewer_capacity_per_node policy ∨
  fp_max_fanout_nodes_per_broadcast policy
    ≤ Z.of_nat (length (live_fanout_nodes obs ++ (requested_node <$> new_fanout obs policy))).
Proof.
  intros Hno Hg Hp. pose proof (after_order_adds_nothing obs policy Hno Hp) as Hz.
  pose proof (after_order_capacity obs policy Hno) as Hcap.
  pose proof (nodes_to_add_range obs policy) as Hr.
  destruct Hno as (_ & Hm & Hlen & _).
  unfold nodes_to_add at 1 in Hz. rewrite Hcap, after_order_live in Hz. simpl in Hz.
  unfold new_fanout in *. rewrite length_push_fanout.
  destruct (Z.ltb_spec (effective_capacity obs policy + nodes_to_add obs policy
    * fp_viewer_capacity_per_node policy) (fo_viewers_projected obs)) as [Hlt|];
    [right | left; lia].
  set (len := Z.of_nat (length (_ ++ _))) in *.
  set (short := fo_viewers_projected obs - _) in Hz. assert (0 < short) by lia.
  pose proof (div_ceil_spec short (Z.max (fp_viewer_capacity_per_node policy) 1)
    ltac:(lia)). set (w := div_ceil _ _) in *. assert (0 < w) by nia.
  pose proof (Z.mod_pos_bound len 4294967296 ltac:(lia)).
  unfold u32_saturating_sub, u32_wrap in Hz.
  pose proof (Z.mod_le len 4294967296 ltac:(lia) ltac:(lia)). lia.
Qed.

Lemma plan_covers_demand_witness :
  fo_viewers_projected ex_gone
    ≤ effective_capacity ex_gone ex_policy
      + Z.of_nat (length (new_fanout ex_gone ex_policy))
        * fp_viewer_capacity_per_node ex_policy ∨
  fp_max_fanout_nodes_per_broadcast ex_policy
    ≤ Z.of_nat (length (live_fanout_nodes ex_gone
        ++ (requested_node <$> new_fanout ex_gone ex_policy))).
Proof.
  apply plan_covers_demand; [apply ex_gone_no_overflow | | vm_compute; discriminate].
  apply (bool_decide_eq_true_1 (growth_allowed ex_gone)). vm_compute. reflexivity.
Defined.

(** Capacity already ordered is not ordered again: once the ordered fan-out
    nodes exist as [requested] rows, planning the same demand yields exactly the
    same desired set. *)
Theorem replanning_orders_nothing_more (obs : FleetObservation) (policy : FleetPolicy) :
  no_overflow obs policy → growth_allowed obs →
  1 ≤ fp_viewer_capacity_per_node policy →
  plan (after_order obs policy) policy = plan obs policy.
Proof.
  intros Hno Hg Hp. rewrite (plan_growing obs) by done.
  rewrite (plan_growing (after_order obs policy)) by done.
  rewrite after_order_live, after_order_has_transcode.
  unfold new_fanout at 2. rewrite after_order_adds_nothing by done. simpl.
  rewrite fmap_app, <- app_assoc. f_equal.
  rewrite <- (list_fmap_id (new_fanout obs policy)) at 2. f_equal.
  rewrite <- list_fmap_compose. apply list_fmap_ext. intros i d Hd. simpl.
  apply list_elem_of_lookup_2 in Hd. by apply (requested_fanout obs policy).
Qed.

Lemma replanning_orders_nothing_more_witness :
  plan (after_order ex_gone ex_policy) ex_policy = plan ex_gone ex_policy ∧
  length (plan ex_gone ex_policy) = 4%nat.
Proof.
  split; [|vm_compute; reflexivity].
  apply replanning_orders_nothing_more; [apply ex_gone_no_overflow | |
    vm_compute; discriminate].
  apply (bool_decide_eq_true_1 (growth_allowed ex_gone)). vm_compute. reflexivity.
Defined.

(** A planned node carries a destroy deadline exactly when it is rented, and names
    the broadcast it is for. *)
Lemma plan_deadline_iff_rented (obs : FleetObservation) (policy : FleetPolicy) :
  Forall (λ d, dn_broadcast_id d = fo_broadcast_id obs ∧
      (is_Some (dn_destroy_after_secs d)
        ↔ Ownership.is_reapable (dn_ownership d) = true))
    (plan obs policy).
Proof.
  assert (Hk : Forall (λ d, dn_broadcast_id d = fo_broadcast_id obs ∧
      (is_Some (dn_destroy_after_secs d)
        ↔ Ownership.is_reapable (dn_ownership d) = true))
    (keep (fo_broadcast_id obs) policy <$> live_fanout_nodes obs)).
  { apply Forall_fmap, Forall_forall. intros n _. simpl. split; [done|].
    destruct (fn_ownership n); simpl; split; try done; intros [? [=]]. }
  destruct (decide (growth_allowed obs)) as [Hg|Hg];
    [rewrite plan_growing by done | by rewrite plan_gated].
  apply Forall_app. split; [done|]. apply Forall_app. split.
  - apply Forall_forall. intros d [o ->]%elem_of_push_fanout. simpl. split; [done|].
    split; eauto.
  - destruct (_ && _); [|constructor]. constructor; [|constructor]. simpl.
    split; [done|]. split; eauto.
Qed.

Lemma ttl_rounding_whole i r :
  0 ≤ r ≤ u32_max - 3600 →
  0 < BillingIncrement.round_ttl_secs i r ∧
  BillingIncrement.round_ttl_secs i r mod BillingIncrement.seconds i = 0.
Proof.
  intros Hr. destruct (decide (r = 0)) as [->|Hr0]; [by destruct i|].
  pose proof (round_ttl_spec i r ltac:(lia)) as [Hb Hm]. simpl in *. lia.
Qed.

(** The lease length is a whole positive number of the provider's billing
    periods however a policy is built: it is so for the conservative policy,
    for a requested length and after a change of billing increment. *)
Theorem policy_ttl_is_whole_periods (region size : string) (requested : Z)
    (i j : BillingIncrement.t) :
  0 ≤ requested ≤ u32_max - 7200 →
  let p0 := conservative region size in
  let p1 := with_billing_increment p0 i in
  let p2 := with_ttl_secs p1 requested in
  let p3 := with_billing_increment p2 j in
  ttl_is_whole_periods p0 ∧ ttl_is_whole_periods p1 ∧
  ttl_is_whole_periods p2 ∧ ttl_is_whole_periods p3 ∧
  requested ≤ fp_rented_ttl_secs p2 ≤ fp_rented_ttl_secs p3.
Proof.
  intros Hr p0 p1 p2 p3.
  assert (H2 : requested ≤ fp_rented_ttl_secs p2 ≤ requested + 3600).
  { subst p2 p1 p0. simpl. destruct (decide (requested = 0)) as [->|].
    - destruct i; vm_compute; split; discriminate.
    - pose proof (round_ttl_spec i requested ltac:(lia)) as [Hb _]. simpl in Hb.
      pose proof (increment_seconds_pos i). lia. }
  pose proof (ttl_rounding_whole i requested ltac:(lia)) as Hp2.
  pose proof (ttl_rounding_whole j (fp_rented_ttl_secs p2) ltac:(lia)) as Hp3.
  pose proof (round_ttl_spec j (fp_rented_ttl_secs p2)
    ltac:(unfold p2; simpl in *; lia)) as [Hb _].
  split; [split; vm_compute; reflexivity|].
  split; [destruct i; split; vm_compute; reflexivity|].
  split; [exact Hp2|]. split; [exact Hp3|]. simpl in *. lia.
Qed.

Lemma policy_ttl_is_whole_periods_witness :
  fp_rented_ttl_secs (with_ttl_secs ex_policy 5000) = 7200 ∧
  ttl_is_whole_periods (with_ttl_secs
    (with_billing_increment ex_policy BillingIncrement.PerMinute) 5000).
Proof.
  split; [vm_compute; reflexivity|].
  apply (policy_ttl_is_whole_periods "eu-ams" "small" 5000
    BillingIncrement.PerMinute BillingIncrement.PerHour).
  unfold u32_max. lia.
Defined.

(** A running transcoder is absent from every plan made while it exists: the
    plan keeps fan-out nodes only and its guard against a second transcoder
    suppresses the first one's row, so the desired set of a broadcast whose
    transcoder came up does not contain it. *)
Theorem plan_omits_running_transcoder (obs : FleetObservation) (policy : FleetPolicy)
    (n : FleetNode) :
  n ∈ fo_nodes obs → fn_flavor n = NodeFlavor.Transcode →
  fn_state n ≠ NodeState.Gone →
  Forall (λ d, dn_flavor d = NodeFlavor.Fanout) (plan obs policy).
Proof.
  intros Hn Hf Hs.
  assert (Ht : has_transcode_node obs = true).
  { unfold has_transcode_node. apply existsb_exists. exists n.
    split; [by apply list_elem_of_In|]. unfold is_transcode_node.
    by rewrite !bool_decide_true. }
  assert (Hk : Forall (λ d, dn_flavor d = NodeFlavor.Fanout)
    (keep (fo_broadcast_id obs) policy <$> live_fanout_nodes obs)).
  { apply Forall_fmap, Forall_forall. intros m (_ & Hm & _)%elem_of_live_fanout. done. }
  destruct (decide (growth_allowed obs)) as [Hg|Hg];
    [rewrite plan_growing by done | by rewrite plan_gated].
  rewrite Ht, andb_false_r, app_nil_r. apply Forall_app. split; [done|].
  apply Forall_forall. by intros d [o ->]%elem_of_push_fanout.
Qed.

Definition ex_transcoding : FleetObservation := {|
  fo_broadcast_id := "b1"; fo_programme_is_live := true;
  fo_transcode_enabled := true; fo_viewers_projected := 10;
  fo_available_balance_minor := 5000; fo_projected_cost_minor := 1000;
  fo_nodes := [{| fn_id := "bc-b1-transcode"; fn_flavor := NodeFlavor.Transcode;
    fn_ownership := Ownership.Rented; fn_state := NodeState.Healthy;
    fn_viewer_capacity := 0; fn_viewers_current := 0 |}] |}.

Lemma plan_omits_running_transcoder_witness :
  (dn_mm_node_id <$> plan ex_transcoding ex_policy) = ["bc-b1-fanout-0"] ∧
  Forall (λ d, dn_flavor d = NodeFlavor.Fanout) (plan ex_transcoding ex_policy).
Proof.
  split; [vm_compute; reflexivity|].
  eapply plan_omits_running_transcoder; [left | reflexivity | discriminate].
Defined.
