(* ===== verification/Ladder.v ===== *)
(** * Ladder: the demotion ladder

    [mm-core/src/fleet/ladder.rs]. [demotion_step] computes the rung a balance
    calls for, [next_step] applies the asymmetric hysteresis, and [LadderMode]
    caps what may be applied. *)
From S2P Require Import Prelude F64 FleetTypes Billing Planner.
Local Open Scope Z_scope.

Module DemotionStep.
Inductive t : Type :=
  | Healthy | StopProvisioning | ReduceQuality | DrainToOrigin | EndWithSlate | Overrun.

#[global] Instance t_eq_dec : EqDecision t.
Proof. solve_decision. Defined.

(** The derived order of the variants. *)
Definition rank (s : t) : Z :=
  match s with
  | Healthy => 0 | StopProvisioning => 1 | ReduceQuality => 2
  | DrainToOrigin => 3 | EndWithSlate => 4 | Overrun => 5
  end.
Definition cmp (a b : t) : comparison := Z.compare (rank a) (rank b).
Definition min (a b : t) : t := if rank a <=? rank b then a else b.

Definition destroys_nodes (s : t) : bool := false.

Definition allows_provisioning (s : t) : bool :=
  match s with Healthy => true | _ => false end.

Definition allows_full_quality_ladder (s : t) : bool :=
  match s with Healthy | StopProvisioning => true | _ => false end.

Definition allows_recording (s : t) : bool :=
  match s with Healthy | StopProvisioning => true | _ => false end.

Definition drains_fanout (s : t) : bool :=
  match s with DrainToOrigin | EndWithSlate | Overrun => true | _ => false end.

Definition programme_continues (s : t) : bool :=
  match s with EndWithSlate | Overrun => false | _ => true end.

Definition is_terminal (s : t) : bool :=
  match s with EndWithSlate | Overrun => true | _ => false end.

Definition as_str (s : t) : string :=
  match s with
  | Healthy => "healthy"
  | StopProvisioning => "stop_provisioning"
  | ReduceQuality => "reduce_quality"
  | DrainToOrigin => "drain_to_origin"
  | EndWithSlate => "end_with_slate"
  | Overrun => "overrun"
  end.

Definition ALL : list t :=
  [Healthy; StopProvisioning; ReduceQuality; DrainToOrigin; EndWithSlate; Overrun].

Definition parse (raw : string) : option t :=
  List.find (λ s, String.eqb (as_str s) raw) ALL.
End DemotionStep.

Module LadderMode.
Inductive t : Type := Observe | Degrade | Full.

#[global] Instance t_eq_dec : EqDecision t.
Proof. solve_decision. Defined.

Definition default : t := Observe.

Definition parse (raw : string) : option t :=
  let s := to_ascii_lowercase (trim raw) in
  if decide (s = "observe") then Some Observe
  else if decide (s = "degrade") then Some Degrade
  else if decide (s = "full") then Some Full
  else None.

Definition as_str (m : t) : string :=
  match m with Observe => "observe" | Degrade => "degrade" | Full => "full" end.

Definition cap (m : t) (target : DemotionStep.t) : DemotionStep.t :=
  match m with
  | Observe => DemotionStep.Healthy
  | Degrade => DemotionStep.min target DemotionStep.DrainToOrigin
  | Full => target
  end.
End LadderMode.

Record LadderPolicy : Type := {
  lp_reduce_quality_below : f64;
  lp_drain_below : f64;
  lp_recover_after_evaluations : Z
}.

Definition placeholder : LadderPolicy := {|
  lp_reduce_quality_below := f64_of_ratio 5 10;
  lp_drain_below := f64_of_ratio 2 10;
  lp_recover_after_evaluations := 3
|}.

Record LadderObservation : Type := {
  lo_balance_minor : Z;
  lo_projected_cost_remaining_minor : Z;
  lo_programme_is_live : bool
}.

Definition demotion_step (obs : LadderObservation) (policy : LadderPolicy) :
    DemotionStep.t :=
  if lo_balance_minor obs <=? 0 then
    if lo_programme_is_live obs then DemotionStep.EndWithSlate else DemotionStep.Overrun
  else if lo_projected_cost_remaining_minor obs <=? 0 then DemotionStep.Healthy
  else
    let coverage := f64_div (f64_of_Z (lo_balance_minor obs))
      (f64_of_Z (lo_projected_cost_remaining_minor obs)) in
    if f64_le (f64_of_Z 1) coverage then DemotionStep.Healthy
    else if f64_le (lp_reduce_quality_below policy) coverage
    then DemotionStep.StopProvisioning
    else if f64_le (lp_drain_below policy) coverage then DemotionStep.ReduceQuality
    else DemotionStep.DrainToOrigin.

Record LadderTransition : Type := {
  lt_step : DemotionStep.t;
  lt_milder_streak : Z;
  lt_moved : bool
}.

Definition next_step (current computed : DemotionStep.t) (milder_streak : Z)
    (programme_ended : bool) (policy : LadderPolicy) : LadderTransition :=
  match DemotionStep.cmp computed current with
  | Gt => {| lt_step := computed; lt_milder_streak := 0; lt_moved := true |}
  | Eq => {| lt_step := current; lt_milder_streak := 0; lt_moved := false |}
  | Lt =>
      if DemotionStep.is_terminal current && programme_ended then
        {| lt_step := current; lt_milder_streak := 0; lt_moved := false |}
      else
        let streak := u32_sat (milder_streak + 1) in
        if lp_recover_after_evaluations policy <? streak then
          {| lt_step := computed; lt_milder_streak := 0; lt_moved := true |}
        else
          {| lt_step := current; lt_milder_streak := streak; lt_moved := false |}
  end.

(** ** Specification vocabulary *)
Abbreviation severity := DemotionStep.rank.

(** The evaluations of one broadcast in order: the rung and the streak that are
    persisted after computing each of [cs]. *)
Definition evaluate (policy : LadderPolicy) (ended : bool)
    (s : DemotionStep.t * Z) (computed : DemotionStep.t) : DemotionStep.t * Z :=
  let t := next_step s.1 computed s.2 ended policy in (lt_step t, lt_milder_streak t).

Definition run (policy : LadderPolicy) (ended : bool) (s : DemotionStep.t * Z)
    (cs : list DemotionStep.t) : DemotionStep.t * Z :=
  foldl (evaluate policy ended) s cs.

(** ** Lemmas *)
#[global] Instance rank_inj : Inj (=) (=) DemotionStep.rank.
Proof. by intros [] []. Qed.

Lemma rank_range s : 0 ≤ severity s ≤ 5.
Proof. destruct s; simpl; lia. Qed.

Lemma rank_min a b : severity (DemotionStep.min a b) = Z.min (severity a) (severity b).
Proof.
  unfold DemotionStep.min. destruct (Z.leb_spec (severity a) (severity b)); lia.
Qed.

Lemma step_roundtrip s : DemotionStep.parse (DemotionStep.as_str s) = Some s.
Proof. by destruct s. Qed.

Lemma f64_of_Z_pos (z : Z) : 0 < z ≤ i64_max → ∃ a, f64_of_Z z = Fin a ∧ 0 < a.
Proof.
  intros Hz. pose proof UNIT_pos as HU.
  unfold f64_of_Z, f64_of_ratio.
  assert (Hlo : UNIT ≤ rnd (z * UNIT) 1).
  { rewrite <- (rnd_one 1) at 1 by lia. apply rnd_mono; [lia|lia|nia]. }
  assert (Hhi : rnd (z * UNIT) 1 ≤ 1 * 2 ^ 1138).
  { rewrite <- (rnd_exact 1 1138 1) by (rewrite ?PREC_val; lia).
    apply rnd_mono; [lia..|]. rewrite Z.mul_1_l, !Z.mul_1_r.
    replace (2 ^ 1138) with (2 ^ 64 * UNIT)
      by (unfold UNIT; rewrite <- Z.pow_add_r by lia; done).
    unfold i64_max in Hz. nia. }
  assert (HO : 1 * 2 ^ 1138 < OVER) by (vm_compute; reflexivity).
  exists (rnd (z * UNIT) 1). split; [|lia]. unfold f64_make.
  by rewrite (proj2 (Z.leb_gt _ _)) by lia.
Qed.

Lemma f64_of_Z_le (x y : Z) :
  0 < x → x ≤ y → y ≤ i64_max →
  ∃ a b, f64_of_Z x = Fin a ∧ f64_of_Z y = Fin b ∧ 0 < a ≤ b.
Proof.
  intros Hx Hxy Hy.
  destruct (f64_of_Z_pos x) as (a & Ha & ?); [lia|].
  destruct (f64_of_Z_pos y) as (b & Hb & ?); [lia|].
  exists a, b. split; [done|]. split; [done|]. split; [done|].
  pose proof (f64_of_ratio_mono x 1 y 1 ltac:(lia) ltac:(lia) ltac:(lia)) as Hm.
  fold (f64_of_Z x) in Hm. fold (f64_of_Z y) in Hm. rewrite Ha, Hb in Hm.
  simpl in Hm. lia.
Qed.

(** A threshold reached by a coverage is reached by every greater one. *)
Lemma coverage_mono (b1 b2 p1 p2 : Z) (t : f64) :
  0 < b1 ≤ b2 → b2 ≤ i64_max → 0 < p2 ≤ p1 → p1 ≤ i64_max →
  f64_le t (f64_div (f64_of_Z b1) (f64_of_Z p1)) = true →
  f64_le t (f64_div (f64_of_Z b2) (f64_of_Z p2)) = true.
Proof.
  intros Hb Hbm Hp Hpm Ht.
  destruct (f64_of_Z_le b1 b2) as (x1 & x2 & E1 & E2 & Hx); [lia..|].
  destruct (f64_of_Z_le p2 p1) as (y2 & y1 & E3 & E4 & Hy); [lia..|].
  rewrite E1, E4 in Ht. rewrite E2, E3.
  eapply f64_le_trans; [exact Ht|]. apply f64_div_mono; [lia..|nia].
Qed.

(** The ratio is at least one exactly when the balance covers the cost, for
    amounts below 2^53, which [f64] represents exactly. *)
Lemma coverage_ge_one (b p : Z) :
  0 < b < PREC → 0 < p < PREC →
  f64_le (f64_of_Z 1) (f64_div (f64_of_Z b) (f64_of_Z p)) = true ↔ p ≤ b.
Proof.
  intros Hb Hp. pose proof UNIT_pos as HU. pose proof PREC_val as HP.
  rewrite !f64_of_Z_small by (rewrite ?HP in *; lia).
  unfold f64_div. rewrite (proj2 (Z.eqb_neq _ _)), (proj2 (Z.ltb_ge _ _)) by nia.
  rewrite <- (rnd_quot_ge_one b p Hb Hp), Z.mul_1_l. unfold f64_make.
  destruct (Z.leb_spec OVER (Z.abs (rnd (b * UNIT * UNIT) (p * UNIT)))) as [Ho|Ho].
  - assert (Hpos : 0 ≤ rnd (b * UNIT * UNIT) (p * UNIT)).
    { rewrite <- (Z.mul_0_l (2 ^ 1)). rewrite <- (rnd_exact 0 1 1) by lia.
      apply rnd_mono; nia. }
    rewrite (proj2 (Z.ltb_ge _ _)) by lia. simpl. split; [|done]. intros _.
    assert (UNIT < OVER) by (vm_compute; reflexivity). lia.
  - simpl. apply Z.leb_le.
Qed.

(** The streak counts the latest evaluations, all of them milder than the rung. *)
Definition streak_counts (policy : LadderPolicy) (s : DemotionStep.t * Z)
    (history : list DemotionStep.t) : Prop :=
  0 ≤ s.2 ≤ lp_recover_after_evaluations policy ∧
  s.2 ≤ Z.of_nat (length history) ∧
  Forall (λ c, severity c < severity s.1) (take (Z.to_nat s.2) (reverse history)).

Definition dwell_in_range (policy : LadderPolicy) : Prop :=
  0 ≤ lp_recover_after_evaluations policy < u32_max.

Lemma run_app policy ended s cs cs' :
  run policy ended s (cs ++ cs') = run policy ended (run policy ended s cs) cs'.
Proof. apply foldl_app. Qed.

(** One evaluation, case by case. *)
Lemma evaluate_cases policy ended s c :
  dwell_in_range policy → 0 ≤ s.2 ≤ lp_recover_after_evaluations policy →
  (severity s.1 < severity c ∧ evaluate policy ended s c = (c, 0)) ∨
  (severity s.1 = severity c ∧ evaluate policy ended s c = (s.1, 0)) ∨
  (severity c < severity s.1 ∧ DemotionStep.is_terminal s.1 && ended = true ∧
    evaluate policy ended s c = (s.1, 0)) ∨
  (severity c < severity s.1 ∧ DemotionStep.is_terminal s.1 && ended = false ∧
    ((s.2 = lp_recover_after_evaluations policy ∧ evaluate policy ended s c = (c, 0)) ∨
     (s.2 < lp_recover_after_evaluations policy ∧
      evaluate policy ended s c = (s.1, s.2 + 1)))).
Proof.
  intros [Hr0 Hr] Hk. unfold evaluate, next_step, DemotionStep.cmp.
  destruct (Z.compare_spec (severity c) (severity s.1)); [auto| |auto].
  do 2 right. destruct (_ && ended); [left; auto|right]. split; [done|]. split; [done|].
  replace (u32_sat (s.2 + 1)) with (s.2 + 1) by (unfold u32_sat; lia).
  destruct (Z.ltb_spec (lp_recover_after_evaluations policy) (s.2 + 1));
    [left|right]; (split; [lia|done]).
Qed.

Lemma streak_counts_snoc policy ended s cs c :
  dwell_in_range policy → streak_counts policy s cs →
  streak_counts policy (evaluate policy ended s c) (cs ++ [c]).
Proof.
  intros Hd (Hk & Hl & Hf). pose proof Hd as [Hr0 _].
  unfold streak_counts. rewrite reverse_snoc, length_app.
  destruct (evaluate_cases policy ended s c Hd Hk)
    as [[? ->]|[[? ->]|[(? & ? & ->)|(? & ? & [[? ->]|[? ->]])]]]; simpl;
    try (split; [lia|]; split; [lia|constructor]).
  replace (Z.to_nat (s.2 + 1)) with (S (Z.to_nat s.2)) by lia. simpl.
  split; [lia|]. split; [lia|]. by constructor.
Qed.

Lemma run_streak_counts policy ended s cs :
  dwell_in_range policy → streak_counts policy (run policy ended (s, 0) cs) cs.
Proof.
  intros Hd. induction cs as [|c cs IH] using rev_ind.
  - unfold streak_counts. simpl. destruct Hd. split; [lia|]. split; [lia|constructor].
  - rewrite run_app. by apply streak_counts_snoc.
Qed.

(** ** Properties *)

(** The ladder is monotone: a lower balance or a higher remaining cost never
    yields a milder rung, for every policy, watermarks in any order included. *)
Theorem demotion_step_monotone (policy : LadderPolicy) (o1 o2 : LadderObservation) :
  lo_programme_is_live o1 = lo_programme_is_live o2 →
  lo_balance_minor o1 ≤ lo_balance_minor o2 ≤ i64_max →
  lo_projected_cost_remaining_minor o2 ≤ lo_projected_cost_remaining_minor o1 ≤ i64_max →
  severity (demotion_step o2 policy) ≤ severity (demotion_step o1 policy).
Proof.
  intros Hl Hb Hp. unfold demotion_step. rewrite <- Hl.
  pose proof (coverage_mono (lo_balance_minor o1) (lo_balance_minor o2)
    (lo_projected_cost_remaining_minor o1) (lo_projected_cost_remaining_minor o2)) as Hc.
  destruct (Z.leb_spec (lo_balance_minor o1) 0), (Z.leb_spec (lo_balance_minor o2) 0);
    try lia.
  { destruct (lo_programme_is_live o1); repeat case_match; simpl; lia. }
  destruct (Z.leb_spec (lo_projected_cost_remaining_minor o2) 0);
    [change (severity DemotionStep.Healthy) with 0; apply rank_range|].
  rewrite (proj2 (Z.leb_gt (lo_projected_cost_remaining_minor o1) 0)) by lia.
  set (c1 := f64_div (f64_of_Z (lo_balance_minor o1)) _) in *.
  set (c2 := f64_div (f64_of_Z (lo_balance_minor o2)) _) in *.
  assert (Hc' : ∀ t, f64_le t c1 = true → f64_le t c2 = true) by
    (intros t; apply Hc; lia).
  clearbody c1 c2. generalize (f64_of_Z 1), (lp_reduce_quality_below policy),
    (lp_drain_below policy). intros t1 t2 t3.
  pose proof (Hc' t1). pose proof (Hc' t2). pose proof (Hc' t3).
  destruct (f64_le t1 c1), (f64_le t1 c2), (f64_le t2 c1), (f64_le t2 c2),
    (f64_le t3 c1), (f64_le t3 c2); simpl; try lia; naive_solver.
Qed.

Lemma demotion_step_monotone_witness :
  severity (demotion_step {| lo_balance_minor := 600;
      lo_projected_cost_remaining_minor := 1000; lo_programme_is_live := true |} placeholder)
  ≤ severity (demotion_step {| lo_balance_minor := 150;
      lo_projected_cost_remaining_minor := 1000; lo_programme_is_live := true |} placeholder).
Proof. apply demotion_step_monotone; simpl; unfold i64_max; (done || lia). Defined.

(** The ladder's first rung is the planner's balance gate: for amounts below
    2^53, a live broadcast may provision according to the ladder exactly when the
    planner may grow it. *)
Theorem ladder_agrees_with_planner_gate (policy : LadderPolicy) (obs : FleetObservation) :
  fo_programme_is_live obs = true →
  fo_available_balance_minor obs < PREC → fo_projected_cost_minor obs < PREC →
  DemotionStep.allows_provisioning (demotion_step {|
    lo_balance_minor := fo_available_balance_minor obs;
    lo_projected_cost_remaining_minor := fo_projected_cost_minor obs;
    lo_programme_is_live := fo_programme_is_live obs |} policy) = true
  ↔ growth_allowed obs.
Proof.
  intros Hlive Hb Hp. unfold demotion_step, growth_allowed.
  cbn [lo_balance_minor lo_projected_cost_remaining_minor lo_programme_is_live].
  rewrite Hlive.
  destruct (Z.leb_spec (fo_available_balance_minor obs) 0);
    [split; [discriminate|intros (_ & ? & _); lia]|].
  destruct (Z.leb_spec (fo_projected_cost_minor obs) 0);
    [split; [intros _; split; [reflexivity|lia]|reflexivity]|].
  pose proof (coverage_ge_one (fo_available_balance_minor obs)
    (fo_projected_cost_minor obs) ltac:(lia) ltac:(lia)) as Hc.
  revert Hc. generalize (f64_div (f64_of_Z (fo_available_balance_minor obs))
    (f64_of_Z (fo_projected_cost_minor obs))), (f64_of_Z 1),
    (lp_reduce_quality_below policy), (lp_drain_below policy).
  intros cov t1 t2 t3 Hc. destruct (f64_le t1 cov), (f64_le t2 cov), (f64_le t3 cov);
    simpl; intuition congruence.
Qed.

Lemma ladder_agrees_with_planner_gate_witness :
  DemotionStep.allows_provisioning (demotion_step {|
    lo_balance_minor := fo_available_balance_minor ex_gone;
    lo_projected_cost_remaining_minor := fo_projected_cost_minor ex_gone;
    lo_programme_is_live := fo_programme_is_live ex_gone |} placeholder) = true
  ↔ growth_allowed ex_gone.
Proof.
  apply ladder_agrees_with_planner_gate; vm_compute; reflexivity.
Defined.

(** Recovery waits out the dwell: along any sequence of evaluations that
    starts with no streak, the rung gets milder only when this evaluation and at
    least [recover_after_evaluations] consecutive ones before it all computed a
    milder rung than the one held. *)
Theorem recovery_needs_dwell (policy : LadderPolicy) (ended : bool)
    (s0 : DemotionStep.t) (cs : list DemotionStep.t) (c : DemotionStep.t) :
  dwell_in_range policy →
  let held := (run policy ended (s0, 0) cs).1 in
  severity (run policy ended (s0, 0) (cs ++ [c])).1 < severity held →
  lp_recover_after_evaluations policy < Z.of_nat (length (cs ++ [c])) ∧
  Forall (λ x, severity x < severity held)
    (take (S (Z.to_nat (lp_recover_after_evaluations policy))) (reverse (cs ++ [c]))).
Proof.
  intros Hd. cbv zeta. pose proof (run_streak_counts policy ended s0 cs Hd) as Hs.
  rewrite run_app. destruct (run policy ended (s0, 0) cs) as [held k] eqn:E.
  destruct Hs as (Hk & Hl & Hf). simpl in Hk, Hl, Hf.
  rewrite reverse_snoc, length_app.
  cbn [run foldl fst]. destruct (evaluate_cases policy ended (held, k) c Hd Hk)
    as [[? ->]|[[? ->]|[(? & ? & ->)|(? & ? & [[? ->]|[? ->]])]]]; simpl in *; try lia.
  intros Hm. subst k. split; [lia|]. by constructor.
Qed.

Lemma recovery_needs_dwell_witness :
  let cs := [DemotionStep.DrainToOrigin; DemotionStep.Healthy; DemotionStep.Healthy;
    DemotionStep.ReduceQuality] in
  run placeholder false (DemotionStep.Healthy, 0) cs = (DemotionStep.DrainToOrigin, 3) ∧
  Forall (λ x, severity x < 3) (take 4 (reverse (cs ++ [DemotionStep.Healthy]))).
Proof.
  intros cs. split; [vm_compute; reflexivity|].
  destruct (recovery_needs_dwell placeholder false DemotionStep.Healthy cs
    DemotionStep.Healthy) as [_ Hall].
  - split; vm_compute; congruence.
  - vm_compute. reflexivity.
  - exact Hall.
Defined.

Lemma run_stays_below policy ended s cs (v : Z) :
  dwell_in_range policy → 0 ≤ s.2 ≤ lp_recover_after_evaluations policy →
  severity s.1 ≤ v → Forall (λ x, severity x ≤ v) cs →
  severity (run policy ended s cs).1 ≤ v.
Proof.
  intros Hd. revert s. induction cs as [|c cs IH]; intros s Hk Hs Hf; [done|].
  inversion_clear Hf as [|?? Hc Hf']. pose proof Hd as [? _]. simpl.
  destruct (evaluate_cases policy ended s c Hd Hk)
    as [[? E]|[[? E]|[(? & ? & E)|(? & ? & [[? E]|[? E]])]]];
    apply IH; rewrite ?E; simpl; (done || lia).
Qed.

Lemma run_recovers policy s cs (v : Z) :
  dwell_in_range policy → 0 ≤ s.2 ≤ lp_recover_after_evaluations policy →
  lp_recover_after_evaluations policy - s.2 < Z.of_nat (length cs) →
  Forall (λ x, severity x ≤ v) cs → severity (run policy false s cs).1 ≤ v.
Proof.
  intros Hd. revert s. induction cs as [|c cs IH]; intros s Hk Hl Hf; [simpl in *; lia|].
  inversion_clear Hf as [|?? Hc Hf']. pose proof Hd as [? _]. simpl in *.
  destruct (evaluate_cases policy false s c Hd Hk)
    as [[? E]|[[? E]|[(? & Hx & E)|(? & ? & [[? E]|[? E]])]]];
    [apply run_stays_below..| |apply run_stays_below|apply IH];
    rewrite ?E; simpl; try (done || lia).
Qed.

(** Recovery is guaranteed while the programme is on air: whatever came
    before, [recover_after_evaluations + 1] consecutive evaluations that compute a
    rung of severity at most [v] leave the broadcast on a rung of severity at most
    [v]; and one evaluation is enough to be at least as severe as it computes. *)
Theorem recovery_within_dwell (policy : LadderPolicy) (s0 : DemotionStep.t)
    (cs agreeing : list DemotionStep.t) (v : Z) (c : DemotionStep.t) :
  dwell_in_range policy →
  Z.of_nat (length agreeing) = lp_recover_after_evaluations policy + 1 →
  Forall (λ x, severity x ≤ v) agreeing →
  severity (run policy false (s0, 0) (cs ++ agreeing)).1 ≤ v ∧
  severity c ≤ severity (run policy false (s0, 0) (cs ++ [c])).1.
Proof.
  intros Hd Hl Hf. pose proof (run_streak_counts policy false s0 cs Hd) as (Hk & _ & _).
  rewrite !run_app. split; [apply run_recovers; (done || lia)|].
  destruct (run policy false (s0, 0) cs) as [held k]. cbn [run foldl fst] in *.
  destruct (evaluate_cases policy false (held, k) c Hd Hk)
    as [[? ->]|[[? ->]|[(? & ? & ->)|(? & ? & [[? ->]|[? ->]])]]]; simpl in *; lia.
Qed.

Lemma recovery_within_dwell_witness :
  severity (run placeholder false (DemotionStep.EndWithSlate, 0)
    ([DemotionStep.Healthy; DemotionStep.DrainToOrigin] ++
     [DemotionStep.Healthy; DemotionStep.StopProvisioning;
      DemotionStep.Healthy; DemotionStep.StopProvisioning])).1 ≤ 1.
Proof.
  apply (recovery_within_dwell placeholder DemotionStep.EndWithSlate
    [DemotionStep.Healthy; DemotionStep.DrainToOrigin]
    [DemotionStep.Healthy; DemotionStep.StopProvisioning;
     DemotionStep.Healthy; DemotionStep.StopProvisioning] 1 DemotionStep.Healthy);
    [split; vm_compute; congruence | reflexivity | repeat constructor; simpl; lia].
Defined.
