(* ===== verification/ApiSchema.v ===== *)
(** * ApiSchema: the PostgreSQL tables of the API's money features

    The rows of [mm-db/migrations/V004] (creator profiles, donations, webhook log),
    [V005] with [V012], [V025], [V027] and [V032] (subscription tiers, subscriptions,
    content gates), the moderation tables of [V029], the settings of [V039], the
    advertising tables of [V010] and the columns [V011], [V017] and [V018] add. They are one field of
    [Schema.Tables], so the statements on them share the connection faults of the rest;
    the constraints are part of the statements in the file [MoneyDb]. *)
From S2P Require Import Prelude.
Local Open Scope Z_scope.

(** A UUID is its canonical text. [gen_random_uuid()] takes the next element of
    [a_uuids]: nothing is assumed of it, a repeated one meets the primary key. *)
Abbreviation Uuid := string (only parsing).

(** A JSON value; an object's keys are distinct. A number is its text. *)
Inductive json_value : Type :=
  | JNull
  | JBool (b : bool)
  | JNum (text : string)
  | JStr (s : string)
  | JArr (l : list json_value)
  | JObj (fields : list (string * json_value)).

(** mm_creator_profiles, keyed by user_id. The NUMERIC(5,4) fee is held in
    ten-thousandths. *)
Record ProfileRec : Type := {
  cp_id : Uuid;
  cp_display_name : string;
  cp_stripe_account_id : option string;
  cp_onboarding_complete : bool;
  cp_platform_fee_e4 : Z;
  cp_lightning_address : option string;
  cp_created_at : DateTime;
  cp_updated_at : DateTime
}.

(** mm_donations, in the order of insertion. *)
Record DonationRec : Type := {
  dn_id : Uuid;
  dn_stream_id : string;
  dn_donor_user_id : string;
  dn_recipient_user_id : string;
  dn_amount_cents : Z;
  dn_currency : string;
  dn_message : option string;
  dn_tier : string;
  dn_pin_duration_secs : Z;
  dn_stripe_session_id : option string;
  dn_stripe_payment_intent_id : option string;
  dn_status : string;
  dn_idempotency_key : string;
  dn_created_at : DateTime;
  dn_provider_payment_id : option string;
  dn_bolt11 : option string;
  dn_payment_hash : option string
}.

(** mm_subscription_tiers, in the order of insertion. *)
Record TierRec : Type := {
  st_id : Uuid;
  st_creator_user_id : option string;
  st_room_id : option string;
  st_name : string;
  st_description : option string;
  st_price_cents : Z;
  st_currency : string;
  st_tier_level : Z;
  st_perks_json : json_value;
  st_badge_url : option string;
  st_is_active : bool;
  st_stripe_price_id : option string;
  st_permissions : json_value;
  st_created_at : DateTime;
  st_updated_at : DateTime
}.

(** mm_subscriptions, in the order of insertion. *)
Record SubRec : Type := {
  sb_id : Uuid;
  sb_subscriber_user_id : string;
  sb_creator_user_id : string;
  sb_room_id : option string;
  sb_tier_id : Uuid;
  sb_status : string;
  sb_stripe_subscription_id : option string;
  sb_current_period_end : DateTime;
  sb_cancelled_at : option DateTime;
  sb_created_at : DateTime;
  sb_updated_at : DateTime
}.

(** mm_content_gates, keyed by (content_type, content_id). *)
Record GateRec : Type := {
  cg_id : Uuid;
  cg_creator_user_id : string;
  cg_min_tier_level : Z;
  cg_preview_seconds : Z;
  cg_created_at : DateTime
}.

(** mm_rooms, keyed by id, the columns the gates read. *)
Record RoomRec : Type := {
  rm_matrix_room_id : string;
  rm_max_participants : Z
}.

(** mm_feed_items (V023, V024), in the order of insertion. *)
Record FeedRec : Type := {
  fi_id : string;
  fi_user_id : string;
  fi_room_id : string;
  fi_event_id : string;
  fi_kind : string;
  fi_ts : Z;
  fi_origin : string;
  fi_payload : json_value;
  fi_seen_at : option Z;
  fi_hidden : bool;
  fi_reactions_count : Z;
  fi_comments_count : Z
}.

(** mm_feed_engagement_refs (V024), keyed by event_id. *)
Record EngagementRef : Type := {
  eg_target_event_id : string;
  eg_room_id : string;
  eg_kind : string
}.

(** The newsfeed's tables; mm_room_config (V019) is keyed by the room. *)
Record FeedTables : Type := {
  f_items : list FeedRec;
  f_refs : gmap string EngagementRef;
  f_mm_enabled : gmap string bool
}.

Definition no_feed : FeedTables := {| f_items := []; f_refs := ∅; f_mm_enabled := ∅ |}.

(** mm_recordings (V007, V026, V029, V030), in the order of insertion. *)
Record RecordingRec : Type := {
  rec_id : string;
  rec_stream_id : string;
  rec_room_id : Z;
  rec_host_user_id : string;
  rec_status : string;
  rec_media_type : string;
  rec_storage_key : string;
  rec_storage_backend : string;
  rec_mxc_url : option string;
  rec_cdn_url : option string;
  rec_duration_ms : option Z;
  rec_size_bytes : option Z;
  rec_mime_type : string;
  rec_sha256 : option string;
  rec_title : option string;
  rec_egress_id : option string;
  rec_created_at : DateTime;
  rec_completed_at : option DateTime;
  rec_min_tier_level : option Z;
  rec_hidden : bool;
  rec_hidden_at : option DateTime;
  rec_mp4_status : string;
  rec_mp4_key : option string
}.

(** mm_participants, in the order of insertion. *)
Record ParticipantRec : Type := {
  pt_id : string;
  pt_stream_id : string;
  pt_user_id : string;
  pt_role : string;
  pt_sfu_participant_id : option string;
  pt_joined_at : DateTime;
  pt_left_at : option DateTime
}.

(** mm_e2ee_key_history, keyed by stream and generation. *)
Record KeyRec : Type := {
  ky_key_id : string;
  ky_key_b64 : string;
  ky_algorithm : string
}.

(** mm_room_stream_hosts (V015), keyed by the Matrix room. *)
Record HostsRec : Type := {
  ho_mode : string;
  ho_owner_user_id : option string;
  ho_allowed_user_ids : list string
}.

(** mm_creator_defaults. *)
Record DefaultsRec : Type := {
  df_stream_min_tier : Z;
  df_recording_min_tier : Z;
  df_ads_enabled : bool
}.

(** The tables of broadcasts besides mm_streams; [m_room_seq] is the sequence of
    mm_rooms. *)
Record MediaTables : Type := {
  m_recordings : list RecordingRec;
  m_participants : list ParticipantRec;
  m_keys : gmap (string * Z) KeyRec;
  m_hosts : gmap string HostsRec;
  m_room_seq : Z;
  m_defaults : gmap string DefaultsRec
}.

Definition no_media : MediaTables :=
  {| m_recordings := []; m_participants := []; m_keys := ∅; m_hosts := ∅;
     m_room_seq := 1; m_defaults := ∅ |}.

(** mm_settings (V039), keyed by key: the CHECK wants exactly one of the two values. *)
Record SettingRec : Type := {
  sg_json : option json_value;
  sg_enc : option string;
  sg_rev : Z;
  sg_updated_at : DateTime;
  sg_updated_by : string
}.

(** mm_settings_audit. *)
Record SettingAuditRec : Type := {
  sa_id : Z;
  sa_key : string;
  sa_action : string;
  sa_old : option json_value;
  sa_new : option json_value;
  sa_secret_changed : bool;
  sa_actor : string;
  sa_rev : Z;
  sa_at : DateTime
}.

(** The settings tables with the one row of mm_settings_meta and the two sequences. *)
Record SettingsTables : Type := {
  s_rows : gmap string SettingRec;
  s_audit : list SettingAuditRec;
  s_imported_at : option DateTime;
  s_restart_requested_rev : Z;
  s_rev_seq : Z;
  s_audit_seq : Z
}.

Definition no_settings : SettingsTables := {|
  s_rows := ∅; s_audit := []; s_imported_at := None; s_restart_requested_rev := 0;
  s_rev_seq := 1; s_audit_seq := 1 |}.

(** mm_ad_creatives (V010). *)
Record CreativeRec : Type := {
  ac_id : string;
  ac_owner_type : string;
  ac_owner_id : string;
  ac_title : string;
  ac_placement : string;
  ac_duration_secs : Z;
  ac_storage_key : string;
  ac_storage_backend : string;
  ac_cdn_url : option string;
  ac_mime_type : string;
  ac_file_size_bytes : Z;
  ac_click_through_url : option string;
  ac_categories : json_value;
  ac_status : string;
  ac_created_at : DateTime;
  ac_updated_at : DateTime
}.

(** mm_ad_rules. *)
Record RuleRec : Type := {
  ru_id : string;
  ru_ad_id : string;
  ru_rule_type : string;
  ru_rule_config : json_value;
  ru_priority : Z;
  ru_active : bool;
  ru_created_at : DateTime
}.

(** mm_ad_impressions. *)
Record ImpressionRec : Type := {
  im_id : string;
  im_impression_token : string;
  im_ad_id : string;
  im_stream_id : string;
  im_viewer_user_id : string;
  im_slot : string;
  im_owner_type : string;
  im_decided_at : DateTime;
  im_started_at : option DateTime;
  im_completed_at : option DateTime;
  im_skipped_at : option DateTime;
  im_clicked_at : option DateTime;
  im_error_at : option DateTime;
  im_watch_duration_secs : option Z;
  im_quartile_reached : Z;
  im_viewport_visible : option bool;
  im_audio_audible : option bool;
  im_sfu_revoked_at : option DateTime;
  im_sfu_restored_at : option DateTime
}.

(** mm_ad_platform_policy. *)
Record PolicyRec : Type := {
  po_id : string;
  po_slot : string;
  po_rule_type : string;
  po_rule_config : json_value;
  po_priority : Z;
  po_active : bool;
  po_created_at : DateTime;
  po_updated_at : DateTime
}.

Record AdTables : Type := {
  d_creatives : list CreativeRec;
  d_rules : list RuleRec;
  d_impressions : list ImpressionRec;
  d_policies : list PolicyRec
}.

Definition no_ads : AdTables :=
  {| d_creatives := []; d_rules := []; d_impressions := []; d_policies := [] |}.

(** mm_moderation_reports (V029). *)
Record ReportRec : Type := {
  mr_id : Uuid;
  mr_source : string;
  mr_target_type : string;
  mr_target_id : string;
  mr_room_id : option string;
  mr_reported_user_id : option string;
  mr_reporter_id : option string;
  mr_reason : string;
  mr_details : option string;
  mr_status : string;
  mr_synapse_report_id : option Z;
  mr_created_at : DateTime;
  mr_updated_at : DateTime;
  mr_resolved_by : option string;
  mr_resolved_at : option DateTime
}.

(** mm_moderation_actions. *)
Record ActionRec : Type := {
  ma_id : Uuid;
  ma_report_id : option Uuid;
  ma_action_type : string;
  ma_target_type : string;
  ma_target_id : string;
  ma_operator_id : string;
  ma_reason : string;
  ma_metadata : json_value;
  ma_created_at : DateTime
}.

(** mm_user_moderation, keyed by user_id. *)
Record UserModerationRec : Type := {
  um_suspended : bool;
  um_suspended_at : option DateTime;
  um_suspended_by : option string;
  um_reason : option string
}.

Record ModerationTables : Type := {
  q_reports : list ReportRec;
  q_actions : list ActionRec;
  q_users : gmap string UserModerationRec
}.

Definition no_moderation : ModerationTables :=
  {| q_reports := []; q_actions := []; q_users := ∅ |}.

Record ApiTables : Type := {
  a_profiles : gmap string ProfileRec;
  a_donations : list DonationRec;
  a_webhook_log : gmap string string;
  a_tiers : list TierRec;
  a_subscriptions : list SubRec;
  a_gates : gmap (string * string) GateRec;
  a_rooms : gmap Z RoomRec;
  a_moderation : ModerationTables;
  a_uuids : list Uuid;
  a_feed : FeedTables;
  a_media : MediaTables;
  a_settings : SettingsTables;
  a_ads : AdTables
}.

Definition no_api : ApiTables := {|
  a_profiles := ∅; a_donations := []; a_webhook_log := ∅; a_tiers := [];
  a_subscriptions := []; a_gates := ∅; a_rooms := ∅; a_moderation := no_moderation; a_uuids := [];
  a_feed := no_feed; a_media := no_media; a_settings := no_settings;
  a_ads := no_ads
|}.

Definition set_profiles (m : gmap string ProfileRec) (a : ApiTables) : ApiTables := {|
  a_profiles := m; a_donations := a_donations a; a_webhook_log := a_webhook_log a;
  a_tiers := a_tiers a; a_subscriptions := a_subscriptions a; a_gates := a_gates a;
  a_rooms := a_rooms a; a_moderation := a_moderation a; a_uuids := a_uuids a;
  a_feed := a_feed a; a_media := a_media a; a_settings := a_settings a;
  a_ads := a_ads a
|}.
Definition set_donations (l : list DonationRec) (a : ApiTables) : ApiTables := {|
  a_profiles := a_profiles a; a_donations := l; a_webhook_log := a_webhook_log a;
  a_tiers := a_tiers a; a_subscriptions := a_subscriptions a; a_gates := a_gates a;
  a_rooms := a_rooms a; a_moderation := a_moderation a; a_uuids := a_uuids a;
  a_feed := a_feed a; a_media := a_media a; a_settings := a_settings a;
  a_ads := a_ads a
|}.
Definition set_webhook_log (m : gmap string string) (a : ApiTables) : ApiTables := {|
  a_profiles := a_profiles a; a_donations := a_donations a; a_webhook_log := m;
  a_tiers := a_tiers a; a_subscriptions := a_subscriptions a; a_gates := a_gates a;
  a_rooms := a_rooms a; a_moderation := a_moderation a; a_uuids := a_uuids a;
  a_feed := a_feed a; a_media := a_media a; a_settings := a_settings a;
  a_ads := a_ads a
|}.
Definition set_tiers (l : list TierRec) (a : ApiTables) : ApiTables := {|
  a_profiles := a_profiles a; a_donations := a_donations a;
  a_webhook_log := a_webhook_log a; a_tiers := l;
  a_subscriptions := a_subscriptions a; a_gates := a_gates a;
  a_rooms := a_rooms a; a_moderation := a_moderation a; a_uuids := a_uuids a;
  a_feed := a_feed a; a_media := a_media a; a_settings := a_settings a;
  a_ads := a_ads a
|}.
Definition set_subscriptions (l : list SubRec) (a : ApiTables) : ApiTables := {|
  a_profiles := a_profiles a; a_donations := a_donations a;
  a_webhook_log := a_webhook_log a; a_tiers := a_tiers a; a_subscriptions := l;
  a_gates := a_gates a; a_rooms := a_rooms a; a_moderation := a_moderation a;
  a_uuids := a_uuids a;
  a_feed := a_feed a; a_media := a_media a; a_settings := a_settings a;
  a_ads := a_ads a
|}.
Definition set_gates (m : gmap (string * string) GateRec) (a : ApiTables) : ApiTables := {|
  a_profiles := a_profiles a; a_donations := a_donations a;
  a_webhook_log := a_webhook_log a; a_tiers := a_tiers a;
  a_subscriptions := a_subscriptions a; a_gates := m; a_rooms := a_rooms a;
  a_moderation := a_moderation a; a_uuids := a_uuids a;
  a_feed := a_feed a; a_media := a_media a; a_settings := a_settings a;
  a_ads := a_ads a
|}.
Definition take_uuid (a : ApiTables) : Uuid * ApiTables :=
  (default EmptyString (head (a_uuids a)), {|
  a_profiles := a_profiles a; a_donations := a_donations a;
  a_webhook_log := a_webhook_log a; a_tiers := a_tiers a;
  a_subscriptions := a_subscriptions a; a_gates := a_gates a; a_rooms := a_rooms a;
  a_moderation := a_moderation a; a_uuids := tail (a_uuids a);
  a_feed := a_feed a; a_media := a_media a; a_settings := a_settings a;
  a_ads := a_ads a
|}).

Definition set_feed (f : FeedTables) (a : ApiTables) : ApiTables := {|
  a_profiles := a_profiles a; a_donations := a_donations a;
  a_webhook_log := a_webhook_log a; a_tiers := a_tiers a;
  a_subscriptions := a_subscriptions a; a_gates := a_gates a; a_rooms := a_rooms a;
  a_moderation := a_moderation a; a_uuids := a_uuids a; a_feed := f;
  a_media := a_media a; a_settings := a_settings a;
  a_ads := a_ads a
|}.

Definition set_media (m : MediaTables) (a : ApiTables) : ApiTables := {|
  a_profiles := a_profiles a; a_donations := a_donations a;
  a_webhook_log := a_webhook_log a; a_tiers := a_tiers a;
  a_subscriptions := a_subscriptions a; a_gates := a_gates a; a_rooms := a_rooms a;
  a_moderation := a_moderation a; a_uuids := a_uuids a; a_feed := a_feed a; a_media := m;
  a_settings := a_settings a;
  a_ads := a_ads a
|}.

Definition set_settings (s : SettingsTables) (a : ApiTables) : ApiTables := {|
  a_profiles := a_profiles a; a_donations := a_donations a;
  a_webhook_log := a_webhook_log a; a_tiers := a_tiers a;
  a_subscriptions := a_subscriptions a; a_gates := a_gates a; a_rooms := a_rooms a;
  a_moderation := a_moderation a; a_uuids := a_uuids a; a_feed := a_feed a;
  a_media := a_media a; a_settings := s; a_ads := a_ads a
|}.

Definition set_ads (d : AdTables) (a : ApiTables) : ApiTables := {|
  a_profiles := a_profiles a; a_donations := a_donations a;
  a_webhook_log := a_webhook_log a; a_tiers := a_tiers a;
  a_subscriptions := a_subscriptions a; a_gates := a_gates a; a_rooms := a_rooms a;
  a_moderation := a_moderation a; a_uuids := a_uuids a; a_feed := a_feed a;
  a_media := a_media a; a_settings := a_settings a; a_ads := d
|}.

Definition set_moderation (q : ModerationTables) (a : ApiTables) : ApiTables := {|
  a_profiles := a_profiles a; a_donations := a_donations a;
  a_webhook_log := a_webhook_log a; a_tiers := a_tiers a;
  a_subscriptions := a_subscriptions a; a_gates := a_gates a; a_rooms := a_rooms a;
  a_moderation := q; a_uuids := a_uuids a; a_feed := a_feed a;
  a_media := a_media a; a_settings := a_settings a; a_ads := a_ads a
|}.

Definition set_rooms (m : gmap Z RoomRec) (a : ApiTables) : ApiTables := {|
  a_profiles := a_profiles a; a_donations := a_donations a;
  a_webhook_log := a_webhook_log a; a_tiers := a_tiers a;
  a_subscriptions := a_subscriptions a; a_gates := a_gates a; a_rooms := m;
  a_moderation := a_moderation a; a_uuids := a_uuids a; a_feed := a_feed a;
  a_media := a_media a; a_settings := a_settings a;
  a_ads := a_ads a
|}.

(** [ORDER BY] an integer column: stable, so ties keep the order of insertion. *)
Definition by_int {A} (key : A → Z) (a b : A) : Prop := key a ≤ key b.

#[export] Instance by_int_dec {A} (key : A → Z) : RelDecision (by_int key).
Proof. intros a b. unfold by_int. apply _. Defined.

#[export] Instance by_int_total {A} (key : A → Z) : Total (by_int key).
Proof. intros a b. unfold by_int. lia. Qed.

#[export] Instance by_int_trans {A} (key : A → Z) : Transitive (by_int key).
Proof. intros a b c. unfold by_int. lia. Qed.

Definition order_asc {A} (key : A → Z) (l : list A) : list A := merge_sort (by_int key) l.
Definition order_desc {A} (key : A → Z) (l : list A) : list A :=
  merge_sort (by_int (λ a, - key a)) l.

Lemma elem_of_order_asc {A} (key : A → Z) (l : list A) x : x ∈ order_asc key l ↔ x ∈ l.
Proof. unfold order_asc. by rewrite merge_sort_Permutation. Qed.

Lemma elem_of_order_desc {A} (key : A → Z) (l : list A) x : x ∈ order_desc key l ↔ x ∈ l.
Proof. unfold order_desc. by rewrite merge_sort_Permutation. Qed.

#[export] Hint Rewrite @elem_of_order_asc @elem_of_order_desc : mm_rw.

(** The first row of a descending order carries the largest key. *)
Lemma order_desc_head {A} (key : A → Z) (l : list A) x rest :
  order_desc key l = x :: rest → x ∈ l ∧ ∀ y, y ∈ l → key y ≤ key x.
Proof.
  intros E. split.
  - apply (elem_of_order_desc key). rewrite E. left.
  - intros y Hy. apply (elem_of_order_desc key) in Hy. rewrite E in Hy.
    pose proof (StronglySorted_merge_sort (by_int (λ a, - key a)) l) as Hs.
    unfold order_desc in E. rewrite E in Hs.
    inversion Hs as [|? ? _ Hall]; subst.
    apply elem_of_cons in Hy as [->|Hy]; [lia|].
    rewrite Forall_forall in Hall. specialize (Hall y Hy). unfold by_int in Hall. lia.
Qed.
