(* ===== verification/Json.v ===== *)
(** * Json: the values serde_json exchanges

    Reading and writing the structs the crates derive [Serialize] and [Deserialize] for.
    A codec is a writer and a reader with the law that reading what was written gives it
    back; a struct is read from an object or, as serde's derived readers also accept,
    from an array of its fields. Numbers are their text: an integer is read from the
    decimal digits [format!] prints. *)
From Stdlib Require Import Ascii.
From S2P Require Import Prelude ApiSchema.
Local Open Scope Z_scope.
Local Open Scope mm_scope.

(** ** Decimal integers *)
Fixpoint parse_dec (s : string) (acc : Z) : option Z :=
  match s with
  | EmptyString => Some acc
  | String c s' =>
      match digit_value c with
      | Some d => parse_dec s' (acc * 10 + d)
      | None => None
      end
  end.

Definition parse_dec1 (s : string) : option Z :=
  match s with EmptyString => None | _ => parse_dec s 0 end.

Definition in_range (lo hi : Z) (o : option Z) : option Z :=
  match o with Some z => if (lo <=? z) && (z <=? hi) then Some z else None | None => None end.

(** [str::parse::<i64>]: an optional sign and at least one digit. *)
Definition parse_i64 (s : string) : option Z :=
  in_range i64_min i64_max
    (match s with
     | String c s' =>
         if decide (c = "-"%char) then Z.opp <$> parse_dec1 s'
         else if decide (c = "+"%char) then parse_dec1 s'
         else parse_dec1 s
     | EmptyString => None
     end).

(** An integer in JSON; the text -0 is a float to serde_json. *)
Definition json_int (s : string) : option Z :=
  match s with
  | String c s' =>
      if decide (c = "-"%char)
      then match parse_dec1 s' with Some 0 | None => None | Some n => Some (- n) end
      else parse_dec1 s
  | EmptyString => None
  end.

Lemma in_range_id lo hi z : lo ≤ z ≤ hi → in_range lo hi (Some z) = Some z.
Proof.
  intros [H1 H2]. unfold in_range.
  by rewrite (proj2 (Z.leb_le _ _) H1), (proj2 (Z.leb_le _ _) H2).
Qed.

Lemma parse_dec_pretty_go (x : N) (s : string) :
  parse_dec (pretty_N_go x s) 0 = parse_dec s (Z.of_N x).
Proof.
  revert s. induction (N.lt_wf_0 x) as [x _ IH]; intros s.
  destruct (decide (x = 0)%N) as [->|Hx0]; [done|].
  rewrite pretty_N_go_step by lia.
  pose proof (N.div_mod x 10 ltac:(lia)) as Hdm.
  rewrite IH by (apply N.div_lt; lia). cbn [parse_dec].
  rewrite digit_value_pretty by (apply N.mod_lt; lia).
  f_equal. rewrite Hdm at 3. lia.
Qed.

Lemma parse_dec1_pretty (n : N) : parse_dec1 (pretty n) = Some (Z.of_N n).
Proof.
  unfold pretty, pretty_N. case_decide as Hz; [by subst|].
  pose proof (parse_dec_pretty_go n "") as Hp.
  destruct (pretty_N_go n "") as [|c s'] eqn:E; [|exact Hp].
  simpl in Hp. injection Hp as Hp. lia.
Qed.

Lemma pretty_N_first (n : N) : ∃ c s, pretty n = String c s ∧ c ≠ "-"%char ∧ c ≠ "+"%char.
Proof.
  unfold pretty, pretty_N. case_decide as Hz; [by eexists _, _|].
  assert (Hg : ∀ x s, (0 < x)%N →
    ∃ c r, pretty_N_go x s = String c r ∧ c ≠ "-"%char ∧ c ≠ "+"%char);
    [|apply Hg; by apply N.neq_0_lt_0].
  clear n Hz. intros x. induction (N.lt_wf_0 x) as [x _ IH]; intros s Hx.
  rewrite pretty_N_go_step by lia.
  destruct (decide (x `div` 10 = 0)%N) as [->|Hq].
  - eexists _, _. split; [reflexivity|]. unfold pretty_N_char. by repeat case_match.
  - apply IH; [apply N.div_lt; lia|]. by apply N.neq_0_lt_0.
Qed.

Lemma json_int_fmt (z : Z) : json_int (fmt_i64 z) = Some z.
Proof.
  unfold fmt_i64. destruct z as [|p|p]; [done| |].
  - change (pretty (Z.pos p)) with (pretty (N.pos p)). destruct (pretty_N_first (N.pos p)) as (c & s & E & Hc & _).
    pose proof (parse_dec1_pretty (N.pos p)) as Hp. rewrite E in *.
    unfold json_int. by rewrite decide_False by done.
  - change (pretty (Z.neg p)) with (String "-" (pretty (N.pos p))).
    cbn [json_int decide]. by rewrite (parse_dec1_pretty (N.pos p)).
Qed.

Lemma parse_i64_fmt (z : Z) : is_i64 z → parse_i64 (fmt_i64 z) = Some z.
Proof.
  intros Hz. unfold parse_i64, fmt_i64. rewrite <-(in_range_id i64_min i64_max z Hz).
  f_equal. destruct z as [|p|p]; [done| |].
  - change (pretty (Z.pos p)) with (pretty (N.pos p)).
    destruct (pretty_N_first (N.pos p)) as (c & s & E & Hm & Hp).
    pose proof (parse_dec1_pretty (N.pos p)) as Hd. rewrite E in *.
    by rewrite !decide_False by done.
  - change (pretty (Z.neg p)) with (String "-" (pretty (N.pos p))).
    cbn [decide]. simpl. by rewrite (parse_dec1_pretty (N.pos p)).
Qed.

(** ** Access, as [serde_json::Value] offers it *)
Definition find_field (name : string) (l : list (string * json_value)) : option json_value :=
  snd <$> List.find (λ p, String.eqb p.1 name) l.

(** [Value::get] of a key: of an object only. *)
Definition jget (name : string) (v : json_value) : option json_value :=
  match v with JObj l => find_field name l | _ => None end.

Definition as_str (v : json_value) : option string :=
  match v with JStr s => Some s | _ => None end.

Definition as_i64 (v : json_value) : option Z :=
  match v with JNum t => in_range i64_min i64_max (json_int t) | _ => None end.

Definition get_str (name : string) (v : json_value) : option string :=
  jget name v ≫= as_str.

(** ** Codecs *)
Class Codec (A : Type) (valid : A → Prop) : Type := {
  enc : A → json_value;
  dec : json_value → option A;
  dec_enc a : valid a → dec (enc a) = Some a;
  enc_not_null a : enc a ≠ JNull
}.

Definition any {A} (_ : A) : Prop := True.

#[export] Instance string_codec : Codec string any.
Proof. by refine {| enc := JStr; dec := as_str |}. Defined.

#[export] Instance bool_codec : Codec bool any.
Proof. by refine {| enc := JBool; dec v := match v with JBool b => Some b | _ => None end |}. Defined.

Definition u64_max : Z := 18446744073709551615.

Definition dec_list {A} (d : json_value → option A) (v : json_value) : option (list A) :=
  match v with JArr l => mapM d l | _ => None end.

#[export] Instance list_codec {A} (P : A → Prop) `{Codec A P} : Codec (list A) (Forall P).
Proof.
  refine {| enc l := JArr (enc <$> l); dec := dec_list dec |}; [|done].
  intros l Hl. simpl. apply mapM_Some. induction Hl; csimpl; constructor; [|done].
  by apply dec_enc.
Defined.

(** ** Structs *)

(** The fields of a struct in order; [None] is a field that is left out. *)
Definition fields (l : list (string * option json_value)) : list (string * json_value) :=
  omap (λ p, pair p.1 <$> p.2) l.

Definition to_object (l : list (string * option json_value)) : json_value := JObj (fields l).

(** Where a reader finds its fields. *)
Inductive source : Type :=
  | Named (l : list (string * json_value))
  | Positional (l : list json_value).

Definition fetch (s : source) (i : nat) (name : string) : option json_value :=
  match s with Named l => find_field name l | Positional l => l !! i end.

(** A required field, an optional one, and one with [serde(default)]. *)
Definition req {A} (d : json_value → option A) (s : source) (i : nat) (name : string) : option A :=
  fetch s i name ≫= d.

Definition opt {A} (d : json_value → option A) (s : source) (i : nat) (name : string) :
    option (option A) :=
  match s, fetch s i name with
  | _, Some JNull => Some None
  | _, Some v => Some <$> d v
  | Named _, None => Some None
  | Positional _, None => None
  end.

Definition opt_default {A} (d : json_value → option A) (s : source) (i : nat) (name : string) :
    option (option A) :=
  match fetch s i name with
  | None | Some JNull => Some None
  | Some v => Some <$> d v
  end.

Definition dflt {A} (a : A) (d : json_value → option A) (s : source) (i : nat) (name : string) :
    option A :=
  match fetch s i name with None => Some a | Some v => d v end.

(** A struct of [n] fields. *)
Definition struct {A} (n : nat) (build : source → option A) (v : json_value) : option A :=
  match v with
  | JObj l => build (Named l)
  | JArr l => if (length l <=? n)%nat then build (Positional l) else None
  | _ => None
  end.

(** Looking a field up among the fields written: by name, without the values. *)
Fixpoint written (name : string) (l : list (string * option json_value)) : option json_value :=
  match l with
  | [] => None
  | (k, v) :: l' => if String.eqb k name then v else written name l'
  end.

Fixpoint keys_distinct (l : list string) : bool :=
  match l with
  | [] => true
  | k :: l' => negb (existsb (String.eqb k) l') && keys_distinct l'
  end.

Lemma find_field_absent name l :
  existsb (String.eqb name) (fst <$> l) = false → find_field name (fields l) = None.
Proof.
  induction l as [|[k v] l IH]; [done|]. csimpl. rewrite orb_false_iff. intros [Hk Hl].
  rewrite String.eqb_sym in Hk. destruct v as [v|]; csimpl; [|by apply IH].
  unfold find_field. cbn [List.find fst]. rewrite Hk. by apply IH.
Qed.

Lemma find_field_fields name l :
  keys_distinct (fst <$> l) = true → find_field name (fields l) = written name l.
Proof.
  induction l as [|[k v] l IH]; [done|]. csimpl. rewrite andb_true_iff, negb_true_iff.
  intros [Hk Hl]. destruct (String.eqb k name) eqn:E.
  - apply String.eqb_eq in E as ->. destruct v as [v|]; csimpl; [|by apply find_field_absent].
    unfold find_field. cbn [List.find fst]. by rewrite String.eqb_refl.
  - destruct v as [v|]; csimpl; [|by apply IH].
    unfold find_field. cbn [List.find fst]. rewrite E. by apply IH.
Qed.

Section reading_back.
Context {A : Type} (d : json_value → option A) (l : list (string * option json_value)).
Hypothesis keys_ok : keys_distinct (fst <$> l) = true.

Lemma req_written i name v a :
  written name l = Some v → d v = Some a → req d (Named (fields l)) i name = Some a.
Proof. intros Hw Ha. unfold req, fetch. by rewrite find_field_fields, Hw. Qed.

Lemma dflt_written i name v a x :
  written name l = Some v → d v = Some a → dflt x d (Named (fields l)) i name = Some a.
Proof. intros Hw Ha. unfold dflt, fetch. by rewrite find_field_fields, Hw. Qed.

Lemma opt_default_written i name (e : A → json_value) o :
  written name l = e <$> o → (∀ a, o = Some a → e a ≠ JNull ∧ d (e a) = Some a) →
  opt_default d (Named (fields l)) i name = Some o.
Proof.
  intros Hw Ha. unfold opt_default, fetch. rewrite find_field_fields, Hw by done.
  destruct o as [a|]; [|done]. simpl. destruct (Ha a eq_refl) as [Hn ->].
  by destruct (e a).
Qed.

Lemma opt_written i name (e : A → json_value) o :
  written name l = e <$> o → (∀ a, o = Some a → e a ≠ JNull ∧ d (e a) = Some a) →
  opt d (Named (fields l)) i name = Some o.
Proof. intros Hw Ha. exact (opt_default_written i name e o Hw Ha). Qed.
End reading_back.

(** Integers, by their type. *)
Definition jint (z : Z) : json_value := JNum (fmt_i64 z).
Definition of_int (lo hi : Z) (v : json_value) : option Z :=
  match v with JNum t => in_range lo hi (json_int t) | _ => None end.
Abbreviation of_u32 := (of_int 0 u32_max).
Abbreviation of_u64 := (of_int 0 u64_max).
Abbreviation of_i64 := (of_int i64_min i64_max).
Definition of_bool (v : json_value) : option bool :=
  match v with JBool b => Some b | _ => None end.

Definition opt_in (lo hi : Z) (o : option Z) : Prop :=
  match o with Some z => lo ≤ z ≤ hi | None => True end.

Lemma of_int_jint lo hi z : lo ≤ z ≤ hi → of_int lo hi (jint z) = Some z.
Proof. intros Hz. unfold of_int, jint. rewrite json_int_fmt. by apply in_range_id. Qed.

Lemma opt_int_back lo hi o z :
  opt_in lo hi o → o = Some z → jint z ≠ JNull ∧ of_int lo hi (jint z) = Some z.
Proof. intros Ho ->. split; [done|]. by apply of_int_jint. Qed.

Lemma opt_codec_back {A} (P : A → Prop) `{Codec A P} (o : option A) a :
  (∀ x, o = Some x → P x) → o = Some a → enc a ≠ JNull ∧ dec (enc a) = Some a.
Proof. intros Ho ->. split; [apply enc_not_null|]. by apply dec_enc, Ho. Qed.

Create HintDb codec.
#[export] Hint Resolve of_int_jint opt_int_back dec_enc opt_codec_back : codec.
#[export] Hint Extern 1 (∀ a, _ = Some a → _ ∧ _) => (by intros ? _) : codec.

(** Reads one field of a written struct back. *)
Ltac read_field :=
  lazymatch goal with
  | |- mbind _ ?m = _ =>
      lazymatch m with
      | req _ _ _ _ => erewrite req_written; [|reflexivity|reflexivity|]
      | dflt _ _ _ _ _ => erewrite dflt_written; [|reflexivity|reflexivity|]
      | opt _ _ _ _ => erewrite opt_written; [|reflexivity|reflexivity|]
      | opt_default _ _ _ _ => erewrite opt_default_written; [|reflexivity|reflexivity|]
      end; [cbn [mbind option_bind]|by eauto with codec ..]
  end.

(** Values are compared structurally. *)
#[export] Instance json_value_eq_dec : EqDecision json_value.
Proof.
  refine (fix go (v w : json_value) {struct v} : Decision (v = w) :=
    match v, w with
    | JNull, JNull => left eq_refl
    | JBool b, JBool b' => cast_if (decide (b = b'))
    | JNum t, JNum t' => cast_if (decide (t = t'))
    | JStr s, JStr s' => cast_if (decide (s = s'))
    | JArr l, JArr l' => cast_if (@list_eq_dec _ go l l')
    | JObj l, JObj l' => cast_if (@list_eq_dec _ (@prod_eq_dec _ _ _ go) l l')
    | _, _ => right _
    end); congruence.
Defined.
