(* ===== verification/Schema.v ===== *)
(** * Schema: the PostgreSQL tables and what a statement does to them

    The tables of [mm-db/migrations/V034] to [V038] and the part of [mm_streams]
    the fleet reads, each row with its columns, and the API's tables of [ApiSchema]; the CHECK, UNIQUE and FOREIGN KEY
    constraints and the triggers are part of the statements of the modules that
    issue them. The service itself is a parameter: a [script] says, for every
    statement in turn, whether it is executed and acknowledged, and what the
    database clock reads, so a theorem about all scripts is a theorem about every
    pattern of lost connections. Statements of one caller run one after the other;
    other writers are not modelled. *)
From S2P Require Import Prelude.
From S2P Require Import ApiSchema.
Local Open Scope Z_scope.

(** ** Rows *)

(** V034: mm_fleet_desired, keyed by mm_node_id. *)
Record DesiredRec : Type := {
  ds_flavor : string;
  ds_ownership : string;
  ds_region : string;
  ds_size : string;
  ds_broadcast_id : option string;
  ds_requested_at : DateTime;
  ds_destroy_deadline : option DateTime
}.

(** V034: mm_fleet_nodes, keyed by mm_node_id, the columns the crate reads. *)
Record NodeRec : Type := {
  nr_flavor : string;
  nr_ownership : string;
  nr_state : string;
  nr_provider_id : option string;
  nr_viewer_capacity : option Z;
  nr_viewers_current : Z;
  nr_billing_started_at : option DateTime;
  nr_destroy_deadline : option DateTime
}.

(** V035 and V038: mm_broadcaster_wallet, keyed by user_id. *)
Record WalletRec : Type := {
  wr_currency : string;
  wr_balance_minor : Z;
  wr_credit_limit_minor : Z;
  wr_updated_at : DateTime;
  wr_rating_blocked_at : option DateTime
}.

(** V035: mm_wallet_transactions. *)
Record TxRec : Type := {
  tx_id : Z;
  tx_user_id : string;
  tx_currency : string;
  tx_kind : string;
  tx_amount_minor : Z;
  tx_idempotency_key : string;
  tx_broadcast_id : option string;
  tx_note : option string;
  tx_created_at : DateTime
}.

(** V035: mm_rate_card. *)
Record RateRec : Type := {
  rr_version : Z;
  rr_currency : string;
  rr_unit : string;
  rr_price_minor : Z
}.

(** V035 and V036: mm_usage_events. *)
Record UsageRec : Type := {
  ue_id : Z;
  ue_user_id : string;
  ue_broadcast_id : string;
  ue_unit : string;
  ue_quantity_milli : Z;
  ue_mm_node_id : option string;
  ue_idempotency_key : string;
  ue_occurred_at : DateTime;
  ue_rated_at : option DateTime;
  ue_rate_card_version : option Z;
  ue_transaction_id : option Z;
  ue_egress_epoch : option string;
  ue_cumulative_bytes : option Z
}.

(** V036: mm_egress_baseline, keyed by (mm_node_id, source). *)
Record BaselineRec : Type := {
  bl_epoch : string;
  bl_cumulative_bytes : Z;
  bl_observed_at : DateTime
}.

(** V037: mm_broadcast_demotion, keyed by broadcast_id. *)
Record DemotionRec : Type := {
  dm_target_step : string;
  dm_applied_step : string;
  dm_entered_at : DateTime;
  dm_evaluated_at : DateTime;
  dm_balance_minor : Z;
  dm_projected_cost_minor : Z;
  dm_milder_streak : Z
}.

(** V037: mm_demotion_events. *)
Record DemotionEventRec : Type := {
  de_broadcast_id : string;
  de_user_id : string;
  de_from_step : string;
  de_to_step : string;
  de_balance_minor : Z;
  de_projected_cost_minor : Z;
  de_statement : string;
  de_kind : string;
  de_delivered_at : option DateTime;
  de_occurred_at : DateTime
}.

(** mm_streams (V007, V020, V023, V026, V031), keyed by id. *)
Record StreamRec : Type := {
  sr_host_user_id : string;
  sr_status : string;
  sr_started_at : DateTime;
  sr_room_id : Z;
  sr_min_tier_level : option Z;
  sr_media_type : string;
  sr_title : option string;
  sr_sfu_room_id : option string;
  sr_participant_count : Z;
  sr_ended_at : option DateTime;
  sr_state_event_id : option string;
  sr_feed_started_event_id : option string;
  sr_ended_event_id : option string;
  sr_marker_generation : Z;
  sr_e2ee : bool;
  sr_e2ee_algorithm : option string;
  sr_e2ee_key_id : option string;
  sr_e2ee_key_generation : option Z;
  sr_e2ee_key_b64 : option string
}.

(** A free stream of room 1. *)
Definition stream_row (host status : string) (started : DateTime) : StreamRec := {|
  sr_host_user_id := host; sr_status := status; sr_started_at := started;
  sr_room_id := 1; sr_min_tier_level := None; sr_media_type := "audio"; sr_title := None;
  sr_sfu_room_id := None; sr_participant_count := 0; sr_ended_at := None;
  sr_state_event_id := None; sr_feed_started_event_id := None; sr_ended_event_id := None;
  sr_marker_generation := 1; sr_e2ee := false; sr_e2ee_algorithm := None;
  sr_e2ee_key_id := None; sr_e2ee_key_generation := None; sr_e2ee_key_b64 := None
|}.

Record Tables : Type := {
  t_generation : Z;
  t_desired : gmap string DesiredRec;
  t_nodes : gmap string NodeRec;
  t_wallets : gmap string WalletRec;
  t_transactions : list TxRec;
  t_tx_seq : Z;
  t_rate_card : list RateRec;
  t_usage : list UsageRec;
  t_usage_seq : Z;
  t_baseline : gmap (string * string) BaselineRec;
  t_demotion : gmap string DemotionRec;
  t_demotion_events : list DemotionEventRec;
  t_streams : gmap string StreamRec;
  t_api : ApiTables
}.

Definition no_tables : Tables := {|
  t_generation := 1; t_desired := ∅; t_nodes := ∅; t_wallets := ∅;
  t_transactions := []; t_tx_seq := 1; t_rate_card := []; t_usage := [];
  t_usage_seq := 1; t_baseline := ∅; t_demotion := ∅; t_demotion_events := [];
  t_streams := ∅; t_api := no_api
|}.

Definition set_desired (g : Z) (m : gmap string DesiredRec) (t : Tables) : Tables := {|
  t_generation := g; t_desired := m; t_nodes := t_nodes t; t_wallets := t_wallets t;
  t_transactions := t_transactions t; t_tx_seq := t_tx_seq t;
  t_rate_card := t_rate_card t; t_usage := t_usage t; t_usage_seq := t_usage_seq t;
  t_baseline := t_baseline t; t_demotion := t_demotion t;
  t_demotion_events := t_demotion_events t; t_streams := t_streams t;
  t_api := t_api t
|}.

Definition set_nodes (m : gmap string NodeRec) (t : Tables) : Tables := {|
  t_generation := t_generation t; t_desired := t_desired t; t_nodes := m;
  t_wallets := t_wallets t; t_transactions := t_transactions t; t_tx_seq := t_tx_seq t;
  t_rate_card := t_rate_card t; t_usage := t_usage t; t_usage_seq := t_usage_seq t;
  t_baseline := t_baseline t; t_demotion := t_demotion t;
  t_demotion_events := t_demotion_events t; t_streams := t_streams t;
  t_api := t_api t
|}.

Definition set_wallets (m : gmap string WalletRec) (t : Tables) : Tables := {|
  t_generation := t_generation t; t_desired := t_desired t; t_nodes := t_nodes t;
  t_wallets := m; t_transactions := t_transactions t; t_tx_seq := t_tx_seq t;
  t_rate_card := t_rate_card t; t_usage := t_usage t; t_usage_seq := t_usage_seq t;
  t_baseline := t_baseline t; t_demotion := t_demotion t;
  t_demotion_events := t_demotion_events t; t_streams := t_streams t;
  t_api := t_api t
|}.

Definition set_ledger (w : gmap string WalletRec) (l : list TxRec) (n : Z) (t : Tables) :
    Tables := {|
  t_generation := t_generation t; t_desired := t_desired t; t_nodes := t_nodes t;
  t_wallets := w; t_transactions := l; t_tx_seq := n;
  t_rate_card := t_rate_card t; t_usage := t_usage t; t_usage_seq := t_usage_seq t;
  t_baseline := t_baseline t; t_demotion := t_demotion t;
  t_demotion_events := t_demotion_events t; t_streams := t_streams t;
  t_api := t_api t
|}.

Definition set_usage (u : list UsageRec) (n : Z) (t : Tables) : Tables := {|
  t_generation := t_generation t; t_desired := t_desired t; t_nodes := t_nodes t;
  t_wallets := t_wallets t; t_transactions := t_transactions t; t_tx_seq := t_tx_seq t;
  t_rate_card := t_rate_card t; t_usage := u; t_usage_seq := n;
  t_baseline := t_baseline t; t_demotion := t_demotion t;
  t_demotion_events := t_demotion_events t; t_streams := t_streams t;
  t_api := t_api t
|}.

Definition set_baseline (m : gmap (string * string) BaselineRec) (t : Tables) : Tables := {|
  t_generation := t_generation t; t_desired := t_desired t; t_nodes := t_nodes t;
  t_wallets := t_wallets t; t_transactions := t_transactions t; t_tx_seq := t_tx_seq t;
  t_rate_card := t_rate_card t; t_usage := t_usage t; t_usage_seq := t_usage_seq t;
  t_baseline := m; t_demotion := t_demotion t;
  t_demotion_events := t_demotion_events t; t_streams := t_streams t;
  t_api := t_api t
|}.

Definition set_demotion (m : gmap string DemotionRec) (l : list DemotionEventRec)
    (t : Tables) : Tables := {|
  t_generation := t_generation t; t_desired := t_desired t; t_nodes := t_nodes t;
  t_wallets := t_wallets t; t_transactions := t_transactions t; t_tx_seq := t_tx_seq t;
  t_rate_card := t_rate_card t; t_usage := t_usage t; t_usage_seq := t_usage_seq t;
  t_baseline := t_baseline t; t_demotion := m; t_demotion_events := l;
  t_streams := t_streams t;
  t_api := t_api t
|}.

Definition set_streams (m : gmap string StreamRec) (t : Tables) : Tables := {|
  t_generation := t_generation t; t_desired := t_desired t; t_nodes := t_nodes t;
  t_wallets := t_wallets t; t_transactions := t_transactions t; t_tx_seq := t_tx_seq t;
  t_rate_card := t_rate_card t; t_usage := t_usage t; t_usage_seq := t_usage_seq t;
  t_baseline := t_baseline t; t_demotion := t_demotion t;
  t_demotion_events := t_demotion_events t; t_streams := m; t_api := t_api t
|}.
Definition set_api (a : ApiTables) (t : Tables) : Tables := {|
  t_generation := t_generation t; t_desired := t_desired t; t_nodes := t_nodes t;
  t_wallets := t_wallets t; t_transactions := t_transactions t; t_tx_seq := t_tx_seq t;
  t_rate_card := t_rate_card t; t_usage := t_usage t; t_usage_seq := t_usage_seq t;
  t_baseline := t_baseline t; t_demotion := t_demotion t;
  t_demotion_events := t_demotion_events t; t_streams := t_streams t; t_api := a
|}.

(** ** Statements *)

(** What sqlx reports: a message, and the constraint's name when the server
    refused the statement because of one. *)
Record db_error : Type := {
  dbe_message : string;
  dbe_constraint : option string
}.

Definition violates (name : string) : db_error := {|
  dbe_message := "error returned from database: violates constraint " +:+ name;
  dbe_constraint := Some name
|}.
Definition refused (msg : string) : db_error := {|
  dbe_message := "error returned from database: " +:+ msg; dbe_constraint := None
|}.
Definition disconnected (msg : string) : db_error := {|
  dbe_message := "error communicating with database: " +:+ msg; dbe_constraint := None
|}.

Inductive outcome : Type :=
  | Answered                  (** executed, and the caller is told *)
  | Lost (msg : string)       (** not executed, the caller gets an error *)
  | Unacked (msg : string).   (** executed, the caller gets an error *)

Record tick : Type := { tk_outcome : outcome; tk_now : DateTime }.

Record Db : Type := {
  db_tables : Tables;
  db_now : DateTime;
  db_script : list tick
}.

(** A statement reads the clock and the tables; a refused one changes nothing. *)
Definition stmt (A : Type) : Type := DateTime → Tables → result (A * Tables) db_error.

Definition next_tick (db : Db) : tick * list tick :=
  match db_script db with
  | [] => ({| tk_outcome := Answered; tk_now := db_now db |}, [])
  | k :: rest => (k, rest)
  end.

(** One statement in a transaction of its own. *)
Definition exec {A} (s : stmt A) : st Db (result A db_error) := λ db,
  let '(k, rest) := next_tick db in
  let db' := λ t, {| db_tables := t; db_now := tk_now k; db_script := rest |} in
  match tk_outcome k with
  | Lost m => (Err (disconnected m), db' (db_tables db))
  | Answered =>
      match s (tk_now k) (db_tables db) with
      | Ok (a, t) => (Ok a, db' t)
      | Err e => (Err e, db' (db_tables db))
      end
  | Unacked m =>
      match s (tk_now k) (db_tables db) with
      | Ok (_, t) => (Err (disconnected m), db' t)
      | Err _ => (Err (disconnected m), db' (db_tables db))
      end
  end.

(** A statement of an open transaction runs at the transaction's clock reading,
    and a connection lost during it loses the transaction. *)
Definition exec_tx {A} (s : stmt A) : st Db (result A db_error) := λ db,
  let '(k, rest) := next_tick db in
  let db' := λ t, {| db_tables := t; db_now := db_now db; db_script := rest |} in
  match tk_outcome k with
  | Lost m | Unacked m => (Err (disconnected m), db' (db_tables db))
  | Answered =>
      match s (db_now db) (db_tables db) with
      | Ok (a, t) => (Ok a, db' t)
      | Err e => (Err e, db' (db_tables db))
      end
  end.

Definition nothing : stmt () := λ _ t, Ok ((), t).

Definition restore (t : Tables) (db : Db) : Db :=
  {| db_tables := t; db_now := db_now db; db_script := db_script db |}.

(** [begin], the body, [commit]: an error of the body rolls back when the
    transaction is dropped; a commit may take effect without being acknowledged. *)
Definition in_tx {A E} (of_db : db_error → E) (body : st Db (result A E)) :
    st Db (result A E) := λ db,
  match exec nothing db with
  | (Err e, db1) => (Err (of_db e), db1)
  | (Ok _, db1) =>
      match body db1 with
      | (Err e, db2) => (Err e, restore (db_tables db) db2)
      | (Ok a, db2) =>
          let '(k, rest) := next_tick db2 in
          let db3 := λ t, {| db_tables := t; db_now := db_now db2; db_script := rest |} in
          match tk_outcome k with
          | Answered => (Ok a, db3 (db_tables db2))
          | Lost m => (Err (of_db (disconnected m)), db3 (db_tables db))
          | Unacked m => (Err (of_db (disconnected m)), db3 (db_tables db2))
          end
      end
  end.

(** A SELECT. *)
Definition reading {A} (f : Tables → A) : stmt A := λ _ t, Ok (f t, t).

(** ** Lifting to a state with other parts *)
Definition st_fst {S T A} (m : st S A) : st (S * T) A := λ s,
  let (a, s1) := m s.1 in (a, (s1, s.2)).
Definition st_snd {S T A} (m : st T A) : st (S * T) A := λ s,
  let (a, s2) := m s.2 in (a, (s.1, s2)).

(** ** Lemmas *)

(** [on_tables R]: the relation on database states that looks at the tables. *)
Definition on_tables (R : Tables → Tables → Prop) (a b : Db) : Prop :=
  R (db_tables a) (db_tables b).

#[export] Instance on_tables_preorder R `{!PreOrder R} : PreOrder (on_tables R).
Proof.
  split.
  - intros a. unfold on_tables. reflexivity.
  - intros a b c ??. unfold on_tables in *. by etrans.
Qed.

Definition stmt_rel {A} (R : Tables → Tables → Prop) (s : stmt A) : Prop :=
  ∀ now t a t', s now t = Ok (a, t') → R t t'.

Lemma st_rel_exec {A} (R : Tables → Tables → Prop) `{!PreOrder R} (s : stmt A) :
  stmt_rel R s → st_rel (on_tables R) (exec s).
Proof.
  intros Hs db. unfold exec, on_tables. destruct (next_tick db) as [k rest].
  destruct (tk_outcome k); [|simpl; reflexivity|];
    (destruct (s (tk_now k) (db_tables db)) as [[a t]|e] eqn:E; simpl;
     [by eapply Hs | reflexivity]).
Qed.

Lemma st_rel_exec_tx {A} (R : Tables → Tables → Prop) `{!PreOrder R} (s : stmt A) :
  stmt_rel R s → st_rel (on_tables R) (exec_tx s).
Proof.
  intros Hs db. unfold exec_tx, on_tables. destruct (next_tick db) as [k rest].
  destruct (tk_outcome k); [|simpl; reflexivity|simpl; reflexivity].
  destruct (s (db_now db) (db_tables db)) as [[a t]|e] eqn:E; simpl;
    [by eapply Hs | reflexivity].
Qed.

Lemma exec_nothing_tables db : db_tables (exec nothing db).2 = db_tables db.
Proof. unfold exec. destruct (next_tick db) as [k rest]. by destruct (tk_outcome k). Qed.

Lemma st_rel_in_tx {A E} (R : Tables → Tables → Prop) `{!PreOrder R}
    (f : db_error → E) (body : st Db (result A E)) :
  st_rel (on_tables R) body → st_rel (on_tables R) (in_tx f body).
Proof.
  intros Hb db. unfold in_tx, on_tables. pose proof (exec_nothing_tables db) as H0.
  destruct (exec nothing db) as [[u|e] db1]; simpl in *; [|by rewrite H0].
  specialize (Hb db1). unfold on_tables in Hb. rewrite H0 in Hb.
  destruct (body db1) as [[a|e] db2]; simpl in *; [|reflexivity].
  destruct (next_tick db2) as [k rest]. destruct (tk_outcome k); simpl; [done| |done].
  reflexivity.
Qed.

(** A transaction is all or nothing. *)
Lemma in_tx_atomic {A E} (f : db_error → E) (body : st Db (result A E)) db :
  db_tables (in_tx f body db).2 = db_tables db ∨
  (∃ db1 db2 a, db_tables db1 = db_tables db ∧ body db1 = (Ok a, db2) ∧
    db_tables (in_tx f body db).2 = db_tables db2).
Proof.
  unfold in_tx. pose proof (exec_nothing_tables db) as H0.
  destruct (exec nothing db) as [[u|e] db1] eqn:E0; simpl in *; [|auto].
  destruct (body db1) as [[a|e] db2] eqn:Eb; simpl in *; [|auto].
  destruct (next_tick db2) as [k rest].
  destruct (tk_outcome k); simpl; [right|auto|right]; by eauto 10.
Qed.

Lemma in_tx_ok {A E} (f : db_error → E) (body : st Db (result A E)) db a :
  (in_tx f body db).1 = Ok a →
  ∃ db1 db2, db_tables db1 = db_tables db ∧ body db1 = (Ok a, db2) ∧
    db_tables (in_tx f body db).2 = db_tables db2.
Proof.
  unfold in_tx. pose proof (exec_nothing_tables db) as H0.
  destruct (exec nothing db) as [[u|e] db1] eqn:E0; simpl in *; [|done].
  destruct (body db1) as [[a'|e] db2] eqn:Eb; simpl in *; [|done].
  destruct (next_tick db2) as [k rest]. destruct (tk_outcome k); simpl; [|done|done].
  intros [= ->]. by eauto 10.
Qed.

Lemma exec_ok {A} (s : stmt A) db a :
  (exec s db).1 = Ok a →
  ∃ now, s now (db_tables db) = Ok (a, db_tables (exec s db).2).
Proof.
  unfold exec. destruct (next_tick db) as [k rest].
  destruct (tk_outcome k); simpl; [|done|];
    destruct (s (tk_now k) (db_tables db)) as [[a' t]|e] eqn:E; simpl; try done.
  intros [= ->]. eauto.
Qed.

Lemma exec_tx_ok {A} (s : stmt A) db a :
  (exec_tx s db).1 = Ok a →
  s (db_now db) (db_tables db) = Ok (a, db_tables (exec_tx s db).2).
Proof.
  unfold exec_tx. destruct (next_tick db) as [k rest].
  destruct (tk_outcome k); simpl; [|done|done].
  destruct (s (db_now db) (db_tables db)) as [[a' t]|e]; simpl; [|done].
  by intros [= ->].
Qed.

Lemma exec_tx_now {A} (s : stmt A) db : db_now (exec_tx s db).2 = db_now db.
Proof.
  unfold exec_tx. destruct (next_tick db) as [k rest].
  destruct (tk_outcome k); [|done|done]. by destruct (s _ _) as [[]|].
Qed.

Lemma stmt_rel_reading {A} (R : Tables → Tables → Prop) `{!PreOrder R} (f : Tables → A) :
  stmt_rel R (reading f).
Proof. intros now t a t' [= _ <-]. reflexivity. Qed.

Lemma exec_reading_tables {A} (f : Tables → A) db :
  db_tables (exec (reading f) db).2 = db_tables db.
Proof. unfold exec. destruct (next_tick db). by destruct (tk_outcome _). Qed.

Lemma exec_reading_ok {A} (f : Tables → A) db a :
  (exec (reading f) db).1 = Ok a → a = f (db_tables db).
Proof.
  unfold exec. destruct (next_tick db) as [k rest].
  destruct (tk_outcome k); simpl; try done. congruence.
Qed.

(** A statement under an assertion [I] on the tables that it keeps, with what its
    answer tells about the tables it leaves. *)
Definition on (I : Tables → Prop) (db : Db) : Prop := I (db_tables db).

Definition answers {A E} (I : Tables → Prop) (Q : A → Tables → Prop) (r : result A E)
    (db : Db) : Prop :=
  on I db ∧ match r with Ok a => Q a (db_tables db) | Err _ => True end.

Lemma hoare_exec {A} (I : Tables → Prop) (s : stmt A) (Q : A → Tables → Prop) :
  (∀ now t a t', I t → s now t = Ok (a, t') → I t' ∧ Q a t') →
  hoare (on I) (exec s) (answers I Q).
Proof.
  intros Hs db Hdb. unfold exec, answers, on in *. destruct (next_tick db) as [k rest].
  destruct (tk_outcome k); simpl; [|done|];
    (destruct (s (tk_now k) (db_tables db)) as [[a t]|e] eqn:E; simpl; [|done]);
    apply Hs in E as [? ?]; done.
Qed.

Lemma hoare_exec_reading {A} (I : Tables → Prop) (f : Tables → A) :
  hoare (on I) (exec (reading f)) (answers I (λ a t, a = f t)).
Proof. apply hoare_exec. by intros now t a t' Ht [= <- <-]. Qed.

(** A database whose every statement is answered. *)
Definition healthy (t : Tables) (now : DateTime) : Db :=
  {| db_tables := t; db_now := now; db_script := [] |}.

Lemma exec_healthy {A} (s : stmt A) t now :
  exec s (healthy t now) =
  match s now t with
  | Ok (a, t') => (Ok a, healthy t' now)
  | Err e => (Err e, healthy t now)
  end.
Proof. unfold exec. simpl. by destruct (s now t) as [[]|]. Qed.

Section lifting.
Context {S T : Type} (R : S → S → Prop) (Q : T → T → Prop).

Definition both (a b : S * T) : Prop := R a.1 b.1 ∧ Q a.2 b.2.

#[export] Instance both_preorder `{!PreOrder R, !PreOrder Q} : PreOrder both.
Proof.
  split.
  - intros a. split; reflexivity.
  - intros a b c [??] [??]. split; by etrans.
Qed.

Lemma st_rel_fst `{!PreOrder Q} {A} (m : st S A) : st_rel R m → st_rel both (st_fst m).
Proof.
  intros Hm [s t]. unfold st_fst. specialize (Hm s). simpl.
  destruct (m s) as [a s']. split; simpl in *; [done | reflexivity].
Qed.

Lemma st_rel_snd `{!PreOrder R} {A} (m : st T A) : st_rel Q m → st_rel both (st_snd m).
Proof.
  intros Hm [s t]. unfold st_snd. specialize (Hm t). simpl.
  destruct (m t) as [a t']. split; simpl in *; [reflexivity | done].
Qed.
End lifting.

(** A relation on the first part of the state alone. *)
Definition on_fst {S T} (R : S → S → Prop) (a b : S * T) : Prop := R a.1 b.1.

#[export] Instance on_fst_preorder {S T} (R : S → S → Prop) `{!PreOrder R} :
  PreOrder (on_fst (T := T) R).
Proof.
  split.
  - intros a. unfold on_fst. reflexivity.
  - intros a b c ??. unfold on_fst in *. by etrans.
Qed.

Lemma st_rel_on_fst {S T A} (R : S → S → Prop) (m : st S A) :
  st_rel R m → st_rel (on_fst (T := T) R) (st_fst m).
Proof. intros Hm [s t]. unfold st_fst. specialize (Hm s). simpl. by destruct (m s). Qed.

Lemma st_rel_on_snd {S T A} (R : S → S → Prop) `{!PreOrder R} (m : st T A) :
  st_rel (on_fst R) (st_snd m).
Proof. intros [s t]. unfold st_snd. simpl. destruct (m t). unfold on_fst. reflexivity. Qed.

#[export] Hint Resolve st_rel_exec st_rel_exec_tx st_rel_in_tx stmt_rel_reading : mm.
#[export] Hint Resolve st_rel_on_fst st_rel_on_snd : mm.
