(* ===== verification/Errors.v ===== *)
(** * Errors: the error type of the API and what a client is told

    [mm-core/src/error.rs] and [mm-api/src/error.rs]: the codes, the error type, the
    envelope a response carries and its HTTP status. *)
From S2P Require Import Prelude Schema.
Local Open Scope Z_scope.

Module ErrorCode.
Inductive t : Type :=
  | NotFound | StreamActive | StreamEnded | RoomFull | RateLimited | SfuUnavailable
  | HomeserverUnreachable | Forbidden | FeatureDisabled | Internal | MonetizationDisabled
  | CreatorNotOnboarded | InvalidAmount | PaymentFailed | WebhookInvalid | InvalidToken
  | InsufficientTier | ContentGated | PermissionDenied | TierTooLow | SubscriptionsDisabled
  | TierLimitReached | BalanceTooLow | InvalidPaymentProvider | InvalidLightningAddress
  | InvalidRequest | HoneypotFilled | UsernameReserved | RateLimitedSignup
  | UsernameInvalid | UsernameTaken.

(** The derived [Debug]. *)
Definition debug (c : t) : string :=
  match c with
  | NotFound => "NotFound"
  | StreamActive => "StreamActive"
  | StreamEnded => "StreamEnded"
  | RoomFull => "RoomFull"
  | RateLimited => "RateLimited"
  | SfuUnavailable => "SfuUnavailable"
  | HomeserverUnreachable => "HomeserverUnreachable"
  | Forbidden => "Forbidden"
  | FeatureDisabled => "FeatureDisabled"
  | Internal => "Internal"
  | MonetizationDisabled => "MonetizationDisabled"
  | CreatorNotOnboarded => "CreatorNotOnboarded"
  | InvalidAmount => "InvalidAmount"
  | PaymentFailed => "PaymentFailed"
  | WebhookInvalid => "WebhookInvalid"
  | InvalidToken => "InvalidToken"
  | InsufficientTier => "InsufficientTier"
  | ContentGated => "ContentGated"
  | PermissionDenied => "PermissionDenied"
  | TierTooLow => "TierTooLow"
  | SubscriptionsDisabled => "SubscriptionsDisabled"
  | TierLimitReached => "TierLimitReached"
  | BalanceTooLow => "BalanceTooLow"
  | InvalidPaymentProvider => "InvalidPaymentProvider"
  | InvalidLightningAddress => "InvalidLightningAddress"
  | InvalidRequest => "InvalidRequest"
  | HoneypotFilled => "HoneypotFilled"
  | UsernameReserved => "UsernameReserved"
  | RateLimitedSignup => "RateLimitedSignup"
  | UsernameInvalid => "UsernameInvalid"
  | UsernameTaken => "UsernameTaken"
  end.
End ErrorCode.

Module MMError.
Inductive t : Type :=
  | Api (code : ErrorCode.t) (message : string) (retry_after_ms : option Z)
  | Database (m : string)
  | Sfu (m : string)
  | Homeserver (m : string)
  | Config (m : string)
  | Internal (m : string)
  | Stripe (m : string)
  | Lightning (m : string)
  | Redis (m : string).

Definition api (code : ErrorCode.t) (message : string) : t := Api code message None.

Definition rate_limited (retry_after_ms : Z) : t :=
  Api ErrorCode.RateLimited "Rate limit exceeded" (Some retry_after_ms).

(** [Display]. *)
Definition to_string (e : t) : string :=
  match e with
  | Api code message _ => ErrorCode.debug code +:+ ": " +:+ message
  | Database m => "database error: " +:+ m
  | Sfu m => "SFU error: " +:+ m
  | Homeserver m => "Matrix homeserver error: " +:+ m
  | Config m => "configuration error: " +:+ m
  | Internal m => "internal error: " +:+ m
  | Stripe m => "Stripe error: " +:+ m
  | Lightning m => "Lightning error: " +:+ m
  | Redis m => "Redis error: " +:+ m
  end.
End MMError.

(** sqlx errors are reported with their text. *)
Definition db_err (e : db_error) : MMError.t := MMError.Database (dbe_message e).

Record ErrorResponse : Type := {
  er_error : ErrorCode.t;
  er_message : string;
  er_retry_after_ms : option Z
}.

Definition sanitized (code : ErrorCode.t) (m : string) : ErrorResponse :=
  {| er_error := code; er_message := m; er_retry_after_ms := None |}.

Definition response_of (err : MMError.t) : ErrorResponse :=
  match err with
  | MMError.Api code message retry =>
      {| er_error := code; er_message := message; er_retry_after_ms := retry |}
  | MMError.Database _ => sanitized ErrorCode.Internal "Internal server error"
  | MMError.Sfu msg => sanitized ErrorCode.SfuUnavailable msg
  | MMError.Homeserver msg => sanitized ErrorCode.HomeserverUnreachable msg
  | MMError.Config _ => sanitized ErrorCode.Internal "Internal server error"
  | MMError.Internal _ => sanitized ErrorCode.Internal "Internal server error"
  | MMError.Stripe _ => sanitized ErrorCode.PaymentFailed "Payment processing failed"
  | MMError.Lightning _ =>
      sanitized ErrorCode.PaymentFailed "Lightning payment processing failed"
  | MMError.Redis _ => sanitized ErrorCode.Internal "Internal server error"
  end.

Definition status_for_code (code : ErrorCode.t) : Z :=
  match code with
  | ErrorCode.NotFound => 404
  | ErrorCode.StreamActive | ErrorCode.RoomFull => 409
  | ErrorCode.StreamEnded => 410
  | ErrorCode.RateLimited => 429
  | ErrorCode.Forbidden => 401
  | ErrorCode.FeatureDisabled => 501
  | ErrorCode.SfuUnavailable | ErrorCode.HomeserverUnreachable => 503
  | ErrorCode.Internal => 500
  | ErrorCode.MonetizationDisabled => 501
  | ErrorCode.CreatorNotOnboarded => 412
  | ErrorCode.InvalidAmount => 400
  | ErrorCode.PaymentFailed => 402
  | ErrorCode.WebhookInvalid => 400
  | ErrorCode.InvalidToken => 401
  | ErrorCode.InsufficientTier => 403
  | ErrorCode.ContentGated => 402
  | ErrorCode.PermissionDenied => 403
  | ErrorCode.TierTooLow => 402
  | ErrorCode.SubscriptionsDisabled => 501
  | ErrorCode.TierLimitReached => 409
  | ErrorCode.BalanceTooLow => 402
  | ErrorCode.InvalidPaymentProvider => 400
  | ErrorCode.InvalidLightningAddress => 400
  | ErrorCode.InvalidRequest => 400
  | ErrorCode.HoneypotFilled => 422
  | ErrorCode.UsernameReserved => 409
  | ErrorCode.UsernameTaken => 409
  | ErrorCode.UsernameInvalid => 400
  | ErrorCode.RateLimitedSignup => 429
  end.

Definition into_response (err : MMError.t) : Z * ErrorResponse :=
  (match err with
   | MMError.Api code _ _ => status_for_code code
   | MMError.Database _ | MMError.Config _ | MMError.Internal _ => 500
   | MMError.Sfu _ => 503
   | MMError.Homeserver _ => 503
   | MMError.Stripe _ => 402
   | MMError.Lightning _ => 402
   | MMError.Redis _ => 500
   end, response_of err).

(** The text of a database, configuration, internal, payment or cache error. *)
Definition private_text (err : MMError.t) : option string :=
  match err with
  | MMError.Database m | MMError.Config m | MMError.Internal m | MMError.Stripe m
  | MMError.Lightning m | MMError.Redis m => Some m
  | _ => None
  end.

Definition same_kind (e1 e2 : MMError.t) : Prop :=
  match e1, e2 with
  | MMError.Database _, MMError.Database _ | MMError.Config _, MMError.Config _
  | MMError.Internal _, MMError.Internal _ | MMError.Stripe _, MMError.Stripe _
  | MMError.Lightning _, MMError.Lightning _ | MMError.Redis _, MMError.Redis _ => True
  | _, _ => e1 = e2
  end.

(** What a client sees does not depend on the private text. *)
Lemma private_text_not_disclosed (e1 e2 : MMError.t) :
  same_kind e1 e2 → into_response e1 = into_response e2.
Proof. by destruct e1, e2; simpl; intros H; inversion H. Qed.

(** The status of an error is the status of the code its envelope carries. *)
Lemma status_agrees_with_envelope (err : MMError.t) :
  (into_response err).1 = status_for_code (er_error (into_response err).2).
Proof. by destruct err. Qed.
