(* ===== verification/Text.v ===== *)
(** * Text: characters of a UTF-8 string and input validation

    [mm-core/src/validation.rs]: the bounds on amounts, tier levels and preview lengths,
    and [sanitize_display_text]. A Rust [&str] is its UTF-8 bytes; [chars] cuts it into
    characters, [char_count] is what PostgreSQL's [length] reports. *)
From Stdlib Require Import Ascii.
From S2P Require Import Prelude Schema Errors.
Local Open Scope Z_scope.

(** A byte of the form 10xxxxxx continues the character before it. *)
Definition is_continuation (c : ascii) : bool :=
  match c with Ascii _ _ _ _ _ _ b6 b7 => negb b6 && b7 end.

(** The continuation bytes at the front, and the rest. *)
Fixpoint span_continuation (s : string) : string * string :=
  match s with
  | String c s' =>
      if is_continuation c
      then let '(a, b) := span_continuation s' in (String c a, b)
      else (EmptyString, s)
  | EmptyString => (EmptyString, EmptyString)
  end.

(** [str::chars], each character as its bytes; the length of the string is enough
    fuel, since every character has a byte. *)
Fixpoint chars_go (fuel : nat) (s : string) : list string :=
  match fuel, s with
  | S fuel', String c s' =>
      let '(a, b) := span_continuation s' in String c a :: chars_go fuel' b
  | _, _ => []
  end.

Definition chars (s : string) : list string := chars_go (String.length s) s.
Definition char_count (s : string) : Z := Z.of_nat (length (chars s)).
Definition collect (l : list string) : string := foldr String.append EmptyString l.

(** [char::is_control]: the general category Cc. *)
Definition is_control (c : string) : bool :=
  match c with
  | String a EmptyString => let n := nat_of_ascii a in (n <? 32)%nat || (n =? 127)%nat
  | String a (String b EmptyString) =>
      (nat_of_ascii a =? 194)%nat && (nat_of_ascii b <? 160)%nat
  | _ => false
  end.

(** [str::replace] of one ASCII character. *)
Fixpoint replace_char (c : ascii) (by_ : string) (s : string) : string :=
  match s with
  | EmptyString => EmptyString
  | String a s' =>
      if decide (a = c) then by_ +:+ replace_char c by_ s'
      else String a (replace_char c by_ s')
  end.

Definition newline : string := String "010"%char EmptyString.

Definition escape (s : string) : string :=
  replace_char ">"%char "&gt;" (replace_char "<"%char "&lt;" (replace_char "&"%char "&amp;" s)).

Definition sanitize_display_text (input : string) (max_len : nat) : string :=
  escape (collect (take max_len
    (List.filter (λ c, negb (is_control c) || bool_decide (c = newline)) (chars input)))).

Definition validate_donation_amount (cents min max : Z) : result () MMError.t :=
  if cents <=? 0 then Err (MMError.api ErrorCode.InvalidAmount "Amount must be positive")
  else if cents <? min then
    Err (MMError.api ErrorCode.InvalidAmount
      ("Minimum donation is " +:+ fmt_i64 min +:+ " cents"))
  else if max <? cents then
    Err (MMError.api ErrorCode.InvalidAmount
      ("Maximum donation is " +:+ fmt_i64 max +:+ " cents"))
  else Ok ().

Definition validate_tier_level (level : Z) : result () MMError.t :=
  if negb ((1 <=? level) && (level <=? 5)) then
    Err (MMError.api ErrorCode.InvalidAmount "Tier level must be 1-5")
  else Ok ().

Definition validate_preview_seconds (secs : Z) : result () MMError.t :=
  if negb ((0 <=? secs) && (secs <=? 3600)) then
    Err (MMError.api ErrorCode.InvalidAmount "Preview seconds must be 0-3600")
  else Ok ().

Definition ends_with (suffix s : string) : bool :=
  starts_with (String.rev suffix) (String.rev s).

(** ** Lemmas *)

Lemma span_continuation_app s a b : span_continuation s = (a, b) → s = a +:+ b.
Proof.
  revert a b. induction s as [|c s IH]; intros a b; simpl.
  - by intros [= <- <-].
  - destruct (is_continuation c).
    + destruct (span_continuation s) as [x y]. intros [= <- <-].
      by rewrite (IH x y eq_refl).
    + by intros [= <- <-].
Qed.

Lemma string_app_length (a b : string) :
  String.length (a +:+ b) = (String.length a + String.length b)%nat.
Proof. induction a as [|c a IH]; [done|]. exact (f_equal S IH). Qed.

(** Cutting into characters loses nothing. *)
Lemma chars_go_collect fuel s :
  (String.length s ≤ fuel)%nat → collect (chars_go fuel s) = s.
Proof.
  revert s. induction fuel as [|fuel IH]; intros s Hs.
  - destruct s; [done|]. simpl in Hs. lia.
  - destruct s as [|c s]; [done|]. cbn [chars_go].
    destruct (span_continuation s) as [a b] eqn:E.
    apply span_continuation_app in E as ->. cbn [collect foldr].
    simpl in Hs. rewrite string_app_length in Hs.
    fold (collect (chars_go fuel b)). rewrite IH by lia. done.
Qed.

Lemma collect_chars s : collect (chars s) = s.
Proof. by apply chars_go_collect. Qed.

(** The characters of a text, and the inverse of the escape. *)
Fixpoint unescape_go (fuel : nat) (s : string) : string :=
  match fuel with
  | O => s
  | S fuel' =>
      match strip_prefix "&amp;" s with
      | Some r => String "&"%char (unescape_go fuel' r)
      | None =>
      match strip_prefix "&lt;" s with
      | Some r => String "<"%char (unescape_go fuel' r)
      | None =>
      match strip_prefix "&gt;" s with
      | Some r => String ">"%char (unescape_go fuel' r)
      | None => match s with
                | EmptyString => EmptyString
                | String c r => String c (unescape_go fuel' r)
                end
      end end end
  end.

Definition unescape (s : string) : string := unescape_go (String.length s) s.

Definition escape_char (c : ascii) : string :=
  if decide (c = "&"%char) then "&amp;"
  else if decide (c = "<"%char) then "&lt;"
  else if decide (c = ">"%char) then "&gt;"
  else String c EmptyString.

Lemma replace_char_app c by_ a b :
  replace_char c by_ (a +:+ b) = replace_char c by_ a +:+ replace_char c by_ b.
Proof.
  induction a as [|x a IH]; [done|]. change (String x a +:+ b) with (String x (a +:+ b)).
  cbn [replace_char]. case_decide; rewrite IH; [|done]. by rewrite string_app_assoc.
Qed.

(** The three passes escape one character at a time. *)
Lemma escape_cons c s : escape (String c s) = escape_char c +:+ escape s.
Proof.
  unfold escape. change (String c s) with (String c EmptyString +:+ s).
  rewrite !replace_char_app. f_equal. unfold escape_char. cbn [replace_char].
  case_decide; [by subst|]. cbn [replace_char].
  case_decide; [by subst|]. cbn [replace_char]. by case_decide; subst.
Qed.

Lemma unescape_go_escape_char fuel c s :
  unescape_go (S fuel) (escape_char c +:+ s) = String c (unescape_go fuel s).
Proof.
  unfold escape_char. case_decide as H1; [by subst|]. case_decide as H2; [by subst|].
  case_decide as H3; [by subst|].
  change (String c EmptyString +:+ s) with (String c s). cbn [unescape_go strip_prefix].
  rewrite !decide_False by congruence. done.
Qed.

Lemma escape_char_length c : (1 ≤ String.length (escape_char c))%nat.
Proof. unfold escape_char. repeat case_decide; simpl; lia. Qed.

(** Escaping is reversible. *)
Lemma unescape_escape s : unescape (escape s) = s.
Proof.
  unfold unescape. assert (Hg : ∀ fuel, (String.length (escape s) ≤ fuel)%nat →
    unescape_go fuel (escape s) = s); [|by apply Hg].
  induction s as [|c s IH]; intros fuel Hf; [by destruct fuel|].
  rewrite escape_cons in *. rewrite string_app_length in Hf.
  pose proof (escape_char_length c).
  destruct fuel as [|fuel]; [lia|]. rewrite unescape_go_escape_char. f_equal.
  apply IH. lia.
Qed.

Definition has_char (c : ascii) (s : string) : Prop := c ∈ String.list_ascii_of_string s.

Lemma has_char_app c a b : has_char c (a +:+ b) ↔ has_char c a ∨ has_char c b.
Proof.
  unfold has_char. induction a as [|x a IH]; simpl.
  - set_solver.
  - rewrite !elem_of_cons. naive_solver.
Qed.

Lemma escape_no_brackets s : ¬ has_char "<" (escape s) ∧ ¬ has_char ">" (escape s).
Proof.
  induction s as [|c s [IH1 IH2]]; [split; unfold has_char; simpl; set_solver|].
  rewrite escape_cons, !has_char_app.
  assert (Hc : ¬ has_char "<" (escape_char c) ∧ ¬ has_char ">" (escape_char c)).
  { unfold escape_char, has_char. repeat case_decide; simpl; set_solver. }
  naive_solver.
Qed.

(** ** White space at the end of a text *)

(** A whole character: a first byte and its continuation bytes. *)
Definition one_char (w : string) : bool :=
  match w with
  | EmptyString => false
  | String c w' => negb (is_continuation c) &&
      match span_continuation w' with (_, EmptyString) => true | _ => false end
  end.

Lemma span_continuation_before y w :
  one_char w = true → ∃ x y', span_continuation (y +:+ w) = (x, y' +:+ w) ∧
    (String.length y' ≤ String.length y)%nat.
Proof.
  intros Hw. induction y as [|a y (x & y' & E & Hl)].
  - exists EmptyString, EmptyString. split; [|done]. destruct w as [|c w]; [done|].
    simpl in *. apply andb_true_iff in Hw as [Hc _]. by rewrite (proj1 (negb_true_iff _) Hc).
  - change (String a y +:+ w) with (String a (y +:+ w)). cbn [span_continuation].
    destruct (is_continuation a); [rewrite E; exists (String a x), y'; simpl; by split; [|lia]|].
    exists EmptyString, (String a y). by split.
Qed.

Lemma chars_go_suffix fuel y w :
  one_char w = true → (String.length (y +:+ w) ≤ fuel)%nat → w ∈ chars_go fuel (y +:+ w).
Proof.
  intros Hw. revert y. induction fuel as [|fuel IH]; intros y Hl.
  { destruct y, w; simpl in *; try done; lia. }
  destruct y as [|a y].
  - change (EmptyString +:+ w) with w. destruct w as [|c w]; [done|]. cbn [chars_go].
    simpl in Hw. apply andb_true_iff in Hw as [_ Hw].
    destruct (span_continuation w) as [u v] eqn:E. destruct v; [|done].
    apply span_continuation_app in E. rewrite string_app_nil_r in E. subst w. left.
  - change (String a y +:+ w) with (String a (y +:+ w)) in *. cbn [chars_go].
    destruct (span_continuation_before y w Hw) as (x & y' & E & Hy). rewrite E. right.
    apply IH. simpl in Hl. rewrite string_app_length in *. lia.
Qed.

Lemma chars_suffix y w : one_char w = true → w ∈ chars (y +:+ w).
Proof. intros Hw. by apply chars_go_suffix. Qed.

Lemma white_space_one_char w : w ∈ white_space → one_char w = true.
Proof.
  intros Hw. assert (H : Forall (λ w, one_char w = true) white_space).
  { apply (bool_decide_eq_true_1 _). vm_compute. reflexivity. }
  rewrite Forall_forall in H. by apply H.
Qed.

(** ** Lower case *)
Lemma is_continuation_lower c : is_continuation (ascii_lower c) = is_continuation c.
Proof. by destruct c as [[] [] [] [] [] [] [] []]. Qed.

Lemma span_continuation_lower s :
  span_continuation (to_ascii_lowercase s) =
    (to_ascii_lowercase (span_continuation s).1, to_ascii_lowercase (span_continuation s).2).
Proof.
  induction s as [|c s IH]; [done|]. cbn [to_ascii_lowercase span_continuation].
  rewrite is_continuation_lower. destruct (is_continuation c); [|done].
  rewrite IH. by destruct (span_continuation s).
Qed.

Lemma length_lower s : String.length (to_ascii_lowercase s) = String.length s.
Proof. induction s as [|c s IH]; [done|]. simpl. by rewrite IH. Qed.

Lemma chars_lower s : chars (to_ascii_lowercase s) = to_ascii_lowercase <$> chars s.
Proof.
  unfold chars. rewrite length_lower. generalize (String.length s) as fuel. intros fuel.
  revert s. induction fuel as [|fuel IH]; intros s; [done|]. destruct s as [|c s]; [done|].
  cbn [to_ascii_lowercase chars_go]. rewrite span_continuation_lower.
  destruct (span_continuation s) as [a b]. simpl. by rewrite IH.
Qed.

Definition is_lower (c : ascii) : bool :=
  let n := nat_of_ascii c in ((97 <=? n) && (n <=? 122))%nat.

Lemma ascii_lower_not_lower c d : ascii_lower c = d → is_lower d = false → c = d.
Proof. intros <-. by destruct c as [[] [] [] [] [] [] [] []]. Qed.

Lemma ascii_lower_idem c : ascii_lower (ascii_lower c) = ascii_lower c.
Proof. by destruct c as [[] [] [] [] [] [] [] []]. Qed.

Lemma lowercase_idem s : to_ascii_lowercase (to_ascii_lowercase s) = to_ascii_lowercase s.
Proof. induction s as [|c s IH]; [done|]. simpl. by rewrite IH, ascii_lower_idem. Qed.

Lemma lowercase_app a b :
  to_ascii_lowercase (a +:+ b) = to_ascii_lowercase a +:+ to_ascii_lowercase b.
Proof.
  induction a as [|c a IH]; [done|].
  exact (f_equal (String (ascii_lower c)) IH).
Qed.

Fixpoint no_lower (s : string) : bool :=
  match s with EmptyString => true | String c s' => negb (is_lower c) && no_lower s' end.

Lemma lowercase_no_lower x w : to_ascii_lowercase x = w → no_lower w = true → x = w.
Proof.
  revert w. induction x as [|c x IH]; intros w <-; [done|]. simpl.
  rewrite andb_true_iff, negb_true_iff. intros [Hc Hx].
  apply (ascii_lower_not_lower c) in Hc; [|done]. rewrite <-Hc. f_equal. by apply IH.
Qed.

Lemma white_space_no_lower w : w ∈ white_space → no_lower w = true.
Proof.
  intros Hw. assert (H : Forall (λ w, no_lower w = true) white_space).
  { apply (bool_decide_eq_true_1 _). vm_compute. reflexivity. }
  rewrite Forall_forall in H. by apply H.
Qed.

(** ** A text without white space at its ends is not trimmed *)
Lemma strip_any_None ps s : (∀ p, p ∈ ps → strip_prefix p s = None) → strip_any ps s = None.
Proof.
  induction ps as [|p ps IH]; intros Hp; [done|]. simpl. rewrite Hp by left.
  apply IH. intros q Hq. apply Hp. by right.
Qed.

Lemma trim_start_with_None fuel ps s : strip_any ps s = None → trim_start_with fuel ps s = s.
Proof. intros E. destruct fuel; [done|]. simpl. by rewrite E. Qed.

Lemma rev_app_spec a b : String.rev_app a b = String.rev a +:+ b.
Proof.
  revert b. induction a as [|c a IH]; intros b; [done|].
  unfold String.rev. cbn [String.rev_app]. rewrite (IH (String c b)), (IH (String c "")).
  by rewrite string_app_assoc.
Qed.

Lemma string_rev_app a b : String.rev (a +:+ b) = String.rev b +:+ String.rev a.
Proof.
  induction a as [|c a IH]; [by rewrite string_app_nil_r|].
  change (String c a +:+ b) with (String c (a +:+ b)). unfold String.rev at 1 3.
  cbn [String.rev_app]. rewrite !rev_app_spec, IH. by rewrite string_app_assoc.
Qed.

Lemma string_rev_involutive s : String.rev (String.rev s) = s.
Proof.
  induction s as [|c s IH]; [done|]. unfold String.rev at 2. cbn [String.rev_app].
  rewrite rev_app_spec, string_rev_app, IH. done.
Qed.

Lemma trim_none s :
  (∀ w r, w ∈ white_space → s ≠ w +:+ r) → (∀ w r, w ∈ white_space → s ≠ r +:+ w) →
  trim s = s.
Proof.
  intros Hl Hr. unfold trim. rewrite (trim_start_with_None _ _ s).
  2: { apply strip_any_None. intros p Hp. destruct (strip_prefix p s) as [r|] eqn:E; [|done].
       apply strip_prefix_Some in E. by destruct (Hl p r Hp). }
  rewrite trim_start_with_None; [apply string_rev_involutive|].
  apply strip_any_None. intros p Hp. apply list_elem_of_fmap in Hp as (w & -> & Hw).
  destruct (strip_prefix _ _) as [r|] eqn:E; [|done].
  apply strip_prefix_Some in E. apply (f_equal String.rev) in E.
  rewrite string_rev_involutive, string_rev_app, string_rev_involutive in E.
  by destruct (Hr w (String.rev r) Hw).
Qed.

Lemma ends_with_spec p s : ends_with p s = true ↔ ∃ r, s = r +:+ p.
Proof.
  unfold ends_with. rewrite starts_with_spec. split.
  - intros [r Hr]. exists (String.rev r).
    by rewrite <-(string_rev_involutive s), Hr, string_rev_app, string_rev_involutive.
  - intros [r ->]. exists (String.rev r). by rewrite string_rev_app.
Qed.
