(* ===== verification/MatrixClient.v ===== *)
(** * MatrixClient: the homeserver client

    [mm-matrix/src/client.rs]. The HTTP client, the resolver and the generator of UUIDs
    are a class; what is modelled is which requests a call makes, with which address,
    credentials and body, and what it makes of the answers. Request timings and log lines
    are left out. *)
From Stdlib Require Import Ascii.
From S2P Require Import Prelude ApiSchema Json Schema Errors Text.
Local Open Scope Z_scope.
Local Open Scope mm_scope.

(** ** The HTTP client *)
Record HttpRequest : Type := {
  rq_method : string;
  rq_url : string;
  rq_bearer : option string;
  rq_query : list (string * string);
  rq_json : option json_value;
  rq_timeout_secs : option Z
}.

(** [rs_text]: the body as text, empty when it cannot be read; [rs_json]: the body as
    JSON, or why it is not. *)
Record HttpResponse : Type := {
  rs_status : Z;
  rs_text : string;
  rs_json : result json_value string
}.

Inductive IpAddr : Type :=
  | V4 (a b c d : Z)
  | V6 (bits : Z).

Class Http (N : Type) : Type := {
  http_send : HttpRequest → st N (result HttpResponse string);
  lookup_host : string → st N (result (list IpAddr) string);
  new_v4 : st N Uuid;
  status_text : Z → string;                (** a status code with its reason *)
  shape_error : json_value → string;       (** a value that is not the struct asked for *)
  hash_order : list string → list string   (** the order of a HashMap's keys *)
}.

Definition is_success (status : Z) : bool := (200 <=? status) && (status <? 300).

(** ** Addresses a federation request must not reach *)
Definition v4_loopback (a : Z) : bool := a =? 127.
Definition v4_private (a b : Z) : bool :=
  (a =? 10) || ((a =? 172) && (16 <=? b) && (b <=? 31)) || ((a =? 192) && (b =? 168)).
Definition v4_link_local (a b : Z) : bool := (a =? 169) && (b =? 254).
Definition v4_is (x a b c d : Z) : bool := (a =? x) && (b =? x) && (c =? x) && (d =? x).

Definition private_v4 (a b c d : Z) : bool :=
  v4_loopback a || v4_private a b || v4_link_local a b || v4_is 255 a b c d ||
  v4_is 0 a b c d || ((a =? 100) && (64 <=? b) && (b <=? 127)).

(** [to_ipv4_mapped]: the addresses ::ffff:a.b.c.d. *)
Definition to_ipv4_mapped (bits : Z) : option (Z * Z * Z * Z) :=
  if Z.shiftr bits 32 =? 65535 then
    Some (Z.land (Z.shiftr bits 24) 255, Z.land (Z.shiftr bits 16) 255,
          Z.land (Z.shiftr bits 8) 255, Z.land bits 255)
  else None.

Definition is_private_or_reserved_ip (ip : IpAddr) : bool :=
  match ip with
  | V4 a b c d => private_v4 a b c d
  | V6 bits =>
      (bits =? 1) || (bits =? 0) ||
      match to_ipv4_mapped bits with
      | Some (a, b, c, d) => private_v4 a b c d
      | None => false
      end
  end.

(** ** Text *)

(** [trim_end_matches] of one character. *)
Fixpoint strip_char (c : ascii) (s : string) : string :=
  match s with
  | String a s' => if decide (a = c) then strip_char c s' else s
  | EmptyString => EmptyString
  end.
Definition trim_end_char (c : ascii) (s : string) : string :=
  String.rev (strip_char c (String.rev s)).

Fixpoint contains (needle s : string) : bool :=
  starts_with needle s ||
  match s with String _ s' => contains needle s' | EmptyString => false end.

(** ** The client *)
Record WhoamiResponse : Type := { wi_user_id : string; wi_device_id : option string }.
Record OpenIdUserInfo : Type := { oi_sub : string }.
Record PowerLevelsContent : Type := {
  pl_users : list (string * Z);
  pl_state_default : Z;
  pl_events_default : Z
}.

Record HomeserverClient : Type := {
  hc_homeserver_url : string;
  hc_as_token : string;
  hc_bot_user_id : string
}.

Definition new_client (homeserver_url as_token bot_user_id : string) : HomeserverClient := {|
  hc_homeserver_url := trim_end_char "/" homeserver_url; hc_as_token := as_token;
  hc_bot_user_id := bot_user_id |}.

(** The answers that are read, as serde's derived readers accept them. *)
Definition whoami_of (v : json_value) : option WhoamiResponse :=
  struct 2 (λ s,
    u ← req as_str s 0 "user_id";
    d ← opt_default as_str s 1 "device_id";
    Some {| wi_user_id := u; wi_device_id := d |}) v.

Definition openid_of (v : json_value) : option OpenIdUserInfo :=
  struct 1 (λ s, u ← req as_str s 0 "sub"; Some {| oi_sub := u |}) v.

Definition event_id_of (v : json_value) : option string :=
  struct 1 (λ s, req as_str s 0 "event_id") v.

Definition int_map (v : json_value) : option (list (string * Z)) :=
  match v with
  | JObj l => mapM (λ p : string * json_value, pair p.1 <$> as_i64 p.2) l
  | _ => None
  end.

Definition power_levels_of (v : json_value) : option PowerLevelsContent :=
  struct 3 (λ s,
    u ← dflt [] int_map s 0 "users";
    sd ← dflt 50 as_i64 s 1 "state_default";
    ed ← dflt 0 as_i64 s 2 "events_default";
    Some {| pl_users := u; pl_state_default := sd; pl_events_default := ed |}) v.

Definition keys_of (v : json_value) : option (list string) :=
  match v with JObj l => Some (fst <$> l) | _ => None end.

Definition joined_of (v : json_value) : option (list string) :=
  struct 1 (λ s, req keys_of s 0 "joined") v.

Section client.
Context {N : Type} `{Http N}.
Variable client : HomeserverClient.

(** [send], with the transport error reported under [failed]. *)
Definition send (failed : string) (r : HttpRequest) : st N (result HttpResponse MMError.t) :=
  let! x := http_send r in
  st_ret (map_err (λ e, MMError.Homeserver (failed +:+ ": " +:+ e)) x).

(** A status that is no success is an error with the body's text. *)
Definition checked (returned : string) (resp : HttpResponse) : result HttpResponse MMError.t :=
  if is_success (rs_status resp) then Ok resp
  else Err (MMError.Homeserver
    (returned +:+ " returned " +:+ status_text (rs_status resp) +:+ ": " +:+ rs_text resp)).

Definition parsed {A} (failed : string) (d : json_value → option A) (resp : HttpResponse) :
    result A MMError.t :=
  match rs_json resp with
  | Err e => Err (MMError.Homeserver (failed +:+ ": " +:+ e))
  | Ok v => match d v with
            | Some a => Ok a
            | None => Err (MMError.Homeserver (failed +:+ ": " +:+ shape_error v))
            end
  end.

Definition api_url (path : string) : string :=
  hc_homeserver_url client +:+ "/_matrix/client/v3/" +:+ path.

Definition as_bot : list (string * string) := [("user_id", hc_bot_user_id client)].

Definition whoami : st N (result WhoamiResponse MMError.t) :=
  let? resp := send "whoami failed" {| rq_method := "GET"; rq_url := api_url "account/whoami";
    rq_bearer := Some (hc_as_token client); rq_query := []; rq_json := None;
    rq_timeout_secs := None |} in
  st_ret (match checked "whoami" resp with
          | Err e => Err e
          | Ok resp => parsed "whoami parse failed" whoami_of resp
          end).

Definition openid_path (token : string) : string :=
  "/_matrix/federation/v1/openid/userinfo?access_token=" +:+ token.

Definition validate_openid (token : string) : st N (result OpenIdUserInfo MMError.t) :=
  let? resp := send "openid validation failed" {| rq_method := "GET";
    rq_url := hc_homeserver_url client +:+ openid_path token;
    rq_bearer := None; rq_query := []; rq_json := None; rq_timeout_secs := None |} in
  st_ret (match checked "openid" resp with
          | Err e => Err e
          | Ok resp => parsed "openid parse failed" openid_of resp
          end).

(** host:port, or the federation port added. *)
Definition has_port (server_name : string) : bool :=
  (contains ":" server_name && negb (starts_with "[" server_name)) ||
  (starts_with "[" server_name && contains "]:" server_name).

Definition with_port (server_name : string) : string :=
  if has_port server_name then server_name else server_name +:+ ":8448".

Definition federated_request (access_token server_name : string) (timeout_secs : Z) :
    HttpRequest := {|
  rq_method := "GET";
  rq_url := "https://" +:+ with_port server_name +:+ openid_path access_token;
  rq_bearer := None; rq_query := []; rq_json := None; rq_timeout_secs := Some timeout_secs |}.

(** The user must be one of the server that vouches for it. *)
Definition of_server (server_name : string) (info : OpenIdUserInfo) :
    result OpenIdUserInfo MMError.t :=
  if ends_with (":" +:+ server_name) (oi_sub info) then Ok info
  else Err (MMError.api ErrorCode.Forbidden
    ("user_id " +:+ oi_sub info +:+ " does not match server " +:+ server_name)).

Definition validate_openid_federated (access_token server_name : string) (timeout_secs : Z) :
    st N (result OpenIdUserInfo MMError.t) :=
  let! r := lookup_host (with_port server_name) in
  match r with
  | Err e => st_ret (Err (MMError.Homeserver
      ("DNS resolution failed for " +:+ server_name +:+ ": " +:+ e)))
  | Ok [] => st_ret (Err (MMError.Homeserver
      ("DNS resolution returned no addresses for " +:+ server_name)))
  | Ok addrs =>
      if existsb is_private_or_reserved_ip addrs
      then st_ret (Err (MMError.api ErrorCode.Forbidden
             "Federation to private/internal addresses is not allowed"))
      else
        let? resp := send "federated openid validation"
                       (federated_request access_token server_name timeout_secs) in
        st_ret (match checked "foreign homeserver" resp with
                | Err e => Err e
                | Ok resp =>
                    match parsed "parse openid response" openid_of resp with
                    | Err e => Err e
                    | Ok info => of_server server_name info
                    end
                end)
  end.

(** A PUT as the bot, answered with an event id. *)
Definition put_event (what path : string) (content : json_value) :
    st N (result string MMError.t) :=
  let? resp := send (what +:+ " failed") {| rq_method := "PUT"; rq_url := api_url path;
    rq_bearer := Some (hc_as_token client); rq_query := as_bot; rq_json := Some content;
    rq_timeout_secs := None |} in
  st_ret (match checked what resp with
          | Err e => Err e
          | Ok resp => parsed (what +:+ " parse failed") event_id_of resp
          end).

Definition send_state_event (room_id event_type state_key : string) (content : json_value) :
    st N (result string MMError.t) :=
  put_event "send state event"
    ("rooms/" +:+ room_id +:+ "/state/" +:+ event_type +:+ "/" +:+ state_key) content.

Definition message_request (msgtype body : string) : json_value :=
  JObj [("msgtype", JStr msgtype); ("body", JStr body)].

Definition send_path (room_id event_type txn_id : string) : string :=
  "rooms/" +:+ room_id +:+ "/send/" +:+ event_type +:+ "/" +:+ txn_id.

Definition send_message (room_id msgtype body : string) : st N (result string MMError.t) :=
  let! txn_id := new_v4 in
  put_event "send message" (send_path room_id "m.room.message" txn_id)
    (message_request msgtype body).

Definition send_message_raw (room_id : string) (content : json_value) :
    st N (result string MMError.t) :=
  let! txn_id := new_v4 in
  put_event "send_message_raw" (send_path room_id "m.room.message" txn_id) content.

Definition send_custom_event (room_id event_type : string) (content : json_value) :
    st N (result string MMError.t) :=
  let! txn_id := new_v4 in
  put_event "send_custom_event" (send_path room_id event_type txn_id) content.

Definition send_notice (room_id text : string) : st N (result string MMError.t) :=
  send_message room_id "m.notice" text.

Definition join_room (room_id : string) : st N (result () MMError.t) :=
  let? resp := send "join room failed" {| rq_method := "POST";
    rq_url := api_url ("join/" +:+ room_id); rq_bearer := Some (hc_as_token client);
    rq_query := as_bot; rq_json := Some (JObj []); rq_timeout_secs := None |} in
  st_ret (match checked "join room" resp with Err e => Err e | Ok _ => Ok () end).

(** A GET as the bot. *)
Definition bot_get (path : string) : HttpRequest := {|
  rq_method := "GET"; rq_url := api_url path; rq_bearer := Some (hc_as_token client);
  rq_query := as_bot; rq_json := None; rq_timeout_secs := None |}.

Definition get_power_levels (room_id : string) : st N (result PowerLevelsContent MMError.t) :=
  let? resp := send "get power levels failed"
                 (bot_get ("rooms/" +:+ room_id +:+ "/state/m.room.power_levels/")) in
  st_ret (match checked "get power levels" resp with
          | Err e => Err e
          | Ok resp => parsed "get power levels parse failed" power_levels_of resp
          end).

Definition power_of (user : string) (pls : PowerLevelsContent) : Z :=
  default 0 (snd <$> List.find (λ p : string * Z, String.eqb p.1 user) (pl_users pls)).

Definition bot_has_state_power (room_id : string) : st N (result bool MMError.t) :=
  let? pls := get_power_levels room_id in
  st_ret (Ok (pl_state_default pls <=? power_of (hc_bot_user_id client) pls)).

Definition check_room_encrypted (room_id : string) : st N (result bool MMError.t) :=
  let? resp := send "check encryption failed"
                 (bot_get ("rooms/" +:+ room_id +:+ "/state/m.room.encryption/")) in
  st_ret (if rs_status resp =? 404 then Ok false
          else match checked "check encryption" resp with Err e => Err e | Ok _ => Ok true end).

Definition get_joined_members (room_id : string) : st N (result (list string) MMError.t) :=
  let? resp := send "joined_members failed"
                 (bot_get ("rooms/" +:+ room_id +:+ "/joined_members")) in
  st_ret (match checked "joined_members" resp with
          | Err e => Err e
          | Ok resp =>
              match parsed "joined_members parse failed" joined_of resp with
              | Err e => Err e
              | Ok l => Ok (hash_order l)
              end
          end).
End client.

(** ** Lemmas *)
(** The blocked IPv4 ranges as prefixes of the 32-bit address. *)
Definition v4_bits (a b c d : Z) : Z := a * 16777216 + b * 65536 + c * 256 + d.

Definition reserved_ranges : list (Z * Z) :=
  [(v4_bits 127 0 0 0, 8); (v4_bits 10 0 0 0, 8); (v4_bits 172 16 0 0, 12);
   (v4_bits 192 168 0 0, 16); (v4_bits 169 254 0 0, 16); (v4_bits 255 255 255 255, 32);
   (v4_bits 0 0 0 0, 32); (v4_bits 100 64 0 0, 10)].

Definition in_prefix (bits : Z) (r : Z * Z) : bool :=
  Z.shiftr bits (32 - r.2) =? Z.shiftr r.1 (32 - r.2).

Definition is_octet (x : Z) : Prop := 0 ≤ x ≤ 255.

(** The test on octets is membership in the ranges its comments name. *)
Lemma private_v4_ranges a b c d :
  is_octet a → is_octet b → is_octet c → is_octet d →
  private_v4 a b c d = existsb (in_prefix (v4_bits a b c d)) reserved_ranges.
Proof.
  unfold is_octet. intros Ha Hb Hc Hd. apply eq_true_iff_eq.
  unfold private_v4, v4_loopback, v4_private, v4_link_local, v4_is, reserved_ranges, in_prefix.
  cbn [existsb fst snd]. rewrite !Z.shiftr_div_pow2 by lia.
  rewrite !orb_true_iff, !andb_true_iff, !Z.eqb_eq, !Z.leb_le.
  assert (Hn : ∀ k q r, 0 < k → v4_bits a b c d = k * q + r → 0 ≤ r < k → v4_bits a b c d / k = q)
    by (intros k q r Hk E Hr; symmetry; apply (Z.div_unique _ _ _ r); lia).
  pose proof (Z.div_mod b 16 ltac:(lia)). pose proof (Z.mod_pos_bound b 16 ltac:(lia)).
  pose proof (Z.div_mod b 64 ltac:(lia)). pose proof (Z.mod_pos_bound b 64 ltac:(lia)).
  change (2 ^ (32 - 8)) with 16777216. change (2 ^ (32 - 12)) with 1048576.
  change (2 ^ (32 - 16)) with 65536. change (2 ^ (32 - 32)) with 1.
  change (2 ^ (32 - 10)) with 4194304.
  rewrite (Hn 16777216 a (b * 65536 + c * 256 + d)) by (unfold v4_bits; lia).
  rewrite (Hn 1048576 (16 * a + b / 16) (b mod 16 * 65536 + c * 256 + d))
    by (unfold v4_bits; lia).
  rewrite (Hn 65536 (256 * a + b) (c * 256 + d)) by (unfold v4_bits; lia).
  rewrite (Hn 4194304 (4 * a + b / 64) (b mod 64 * 65536 + c * 256 + d))
    by (unfold v4_bits; lia).
  rewrite Z.div_1_r.
  change (v4_bits 127 0 0 0 / 16777216) with 127. change (v4_bits 10 0 0 0 / 16777216) with 10.
  change (v4_bits 172 16 0 0 / 1048576) with (16 * 172 + 1).
  change (v4_bits 192 168 0 0 / 65536) with (256 * 192 + 168).
  change (v4_bits 169 254 0 0 / 65536) with (256 * 169 + 254).
  change (v4_bits 100 64 0 0 / 4194304) with (4 * 100 + 1).
  rewrite !Z.div_1_r.
  assert (16 * a + b / 16 = 16 * 172 + 1 ↔ (a = 172 ∧ 16 ≤ b) ∧ b ≤ 31) as -> by (split; lia).
  assert (256 * a + b = 256 * 192 + 168 ↔ a = 192 ∧ b = 168) as -> by (split; lia).
  assert (256 * a + b = 256 * 169 + 254 ↔ a = 169 ∧ b = 254) as -> by (split; lia).
  assert (4 * a + b / 64 = 4 * 100 + 1 ↔ (a = 100 ∧ 64 ≤ b) ∧ b ≤ 127) as -> by (split; lia).
  assert (∀ x, 0 ≤ x ≤ 255 →
    v4_bits a b c d = v4_bits x x x x ↔ ((a = x ∧ b = x) ∧ c = x) ∧ d = x) as Hall
    by (unfold v4_bits; intros; split; lia).
  rewrite (Hall 255), (Hall 0) by lia. clear.
  pose proof diff_false_true. simpl. tauto.
Qed.

(** What a federated login does, for every state of the network: the resolver is asked
    once; unless it answers at least one address and every one of them is public, nothing
    is sent; otherwise exactly one request goes out, to that server, and the user it
    answers is accepted exactly when the user belongs to that server. *)
Theorem federated_login_exact {N} `{Http N} (token server : string) (timeout : Z) (n : N) :
  let '(r, n') := validate_openid_federated token server timeout n in
  let '(found, n1) := lookup_host (with_port server) n in
  let request := federated_request token server timeout in
  match found with
  | Ok addrs =>
      if bool_decide (addrs = []) || existsb is_private_or_reserved_ip addrs
      then (∃ e, r = Err e) ∧ n' = n1
      else n' = (http_send request n1).2 ∧
        ∀ info, r = Ok info ↔
          ∃ resp v, (http_send request n1).1 = Ok resp ∧ is_success (rs_status resp) = true ∧
            rs_json resp = Ok v ∧ openid_of v = Some info ∧
            ∃ name, oi_sub info = name +:+ ":" +:+ server
  | Err _ => (∃ e, r = Err e) ∧ n' = n1
  end.
Proof.
  unfold validate_openid_federated, st_bind at 1.
  destruct (lookup_host (with_port server) n) as [[[|a l]|e] n1];
    [by split; [eexists|]| |by split; [eexists|]].
  rewrite bool_decide_eq_false_2 by done. cbn [orb].
  destruct (existsb is_private_or_reserved_ip (a :: l)); [by split; [eexists|]|].
  unfold st_try, send, st_bind.
  destruct (http_send (federated_request token server timeout) n1) as [[resp|e] n2];
    cbn [fst snd st_ret map_err];
    [|split; [done|]; intros info; split; [done|]; by intros (? & ? & ? & _)].
  split; [done|]. intros info. unfold checked, parsed, of_server.
  destruct (is_success (rs_status resp)) eqn:Es;
    [|split; [done|]; intros (? & ? & [= <-] & Hs & _); by rewrite Es in Hs].
  destruct (rs_json resp) as [v|e] eqn:Ej;
    [|split; [done|]; intros (? & ? & [= <-] & _ & Hj & _); by rewrite Ej in Hj].
  destruct (openid_of v) as [i|] eqn:Ev;
    [|split; [done|]; intros (? & ? & [= <-] & _ & Hj & Hv & _);
      rewrite Ej in Hj; injection Hj as <-; by rewrite Ev in Hv].
  destruct (ends_with (":" +:+ server) (oi_sub i)) eqn:Ee.
  - apply ends_with_spec in Ee. split.
    + intros [= <-]. eexists _, _. eauto 10.
    + intros (? & ? & [= <-] & _ & Hj & Hv & _). congruence.
  - split; [done|]. intros (? & ? & [= <-] & _ & Hj & Hv & Hn).
    rewrite Ej in Hj. injection Hj as <-. rewrite Ev in Hv. injection Hv as <-.
    apply ends_with_spec in Hn. by rewrite Ee in Hn.
Qed.

(** Unique-local and link-local IPv6 addresses pass the test: fc00::1 and fe80::1. *)
Lemma ipv6_local_not_blocked :
  is_private_or_reserved_ip (V6 (Z.shiftl 64512 112 + 1)) = false ∧
  is_private_or_reserved_ip (V6 (Z.shiftl 65152 112 + 1)) = false.
Proof. by split; vm_compute. Qed.
