(* ===== verification/MatrixEvents.v ===== *)
(** * MatrixEvents: the events the server posts to a room

    [mm-matrix/src/events.rs]: the contents of the MatrixMedia events with their JSON
    form, the texts of the notices that go with them, and the calls that send them. An
    instant is in milliseconds since the epoch. *)
From Stdlib Require Import Ascii.
From S2P Require Import Prelude ApiSchema Json Schema Errors Text MatrixClient.
Local Open Scope Z_scope.
Local Open Scope mm_scope.

Definition STREAM_EVENT_TYPE : string := "com.matrixmedia.stream".
Definition ROOM_CONFIG_EVENT_TYPE : string := "com.matrixmedia.room_config".
Definition DONATION_EVENT_TYPE : string := "com.matrixmedia.donation".
Definition SUBSCRIPTION_TIERS_EVENT_TYPE : string := "com.matrixmedia.subscription_tiers".
Definition SUBSCRIPTION_PROOF_EVENT_TYPE : string := "com.matrixmedia.subscription_proof".
Definition CONTENT_GATE_EVENT_TYPE : string := "com.matrixmedia.content_gate".
Definition E2EE_KEY_EVENT_TYPE : string := "com.matrixmedia.stream.e2ee_key".
Definition FEED_BROADCAST_STARTED_EVENT_TYPE : string :=
  "com.steegler.matrixmedia.feed.broadcast.started".
Definition FEED_BROADCAST_ENDED_EVENT_TYPE : string :=
  "com.steegler.matrixmedia.feed.broadcast.ended".
Definition FEED_RECORDING_AVAILABLE_EVENT_TYPE : string :=
  "com.steegler.matrixmedia.feed.recording.available".
Definition FEED_POST_EVENT_TYPE : string := "com.steegler.matrixmedia.feed.post".

Definition is_i64_z (z : Z) : Prop := i64_min ≤ z ≤ i64_max.
Definition is_u32_z (z : Z) : Prop := 0 ≤ z ≤ u32_max.
Definition is_u64_z (z : Z) : Prop := 0 ≤ z ≤ u64_max.
#[export] Hint Unfold is_i64_z is_u32_z is_u64_z : codec.

(** ** The stream marker *)
Record StreamVideoConfig : Type := {
  vc_max_bitrate : Z;
  vc_max_width : Z;
  vc_max_height : Z;
  vc_max_frame_rate : Z;
  vc_simulcast_enabled : bool
}.

Definition video_config_value (c : StreamVideoConfig) : json_value := to_object [
  ("max_bitrate", Some (jint (vc_max_bitrate c)));
  ("max_width", Some (jint (vc_max_width c)));
  ("max_height", Some (jint (vc_max_height c)));
  ("max_frame_rate", Some (jint (vc_max_frame_rate c)));
  ("simulcast_enabled", Some (JBool (vc_simulcast_enabled c)))].

Definition video_config_of : json_value → option StreamVideoConfig := struct 5 (λ s,
  b ← req of_u32 s 0 "max_bitrate";
  w ← req of_u32 s 1 "max_width";
  h ← req of_u32 s 2 "max_height";
  f ← req of_u32 s 3 "max_frame_rate";
  m ← req of_bool s 4 "simulcast_enabled";
  Some {| vc_max_bitrate := b; vc_max_width := w; vc_max_height := h;
          vc_max_frame_rate := f; vc_simulcast_enabled := m |}).

Definition video_config_valid (c : StreamVideoConfig) : Prop :=
  is_u32_z (vc_max_bitrate c) ∧ is_u32_z (vc_max_width c) ∧ is_u32_z (vc_max_height c) ∧
  is_u32_z (vc_max_frame_rate c).

#[export] Instance video_config_codec : Codec StreamVideoConfig video_config_valid.
Proof.
  refine {| enc := video_config_value; dec := video_config_of |}; [|done].
  intros [b w h f m] (Hb & Hw & Hh & Hf). unfold video_config_of. cbn [struct to_object video_config_value].
  do 5 read_field. done.
Defined.

Record StreamEventContent : Type := {
  se_stream_id : string;
  se_status : string;
  se_host_user_id : string;
  se_title : option string;
  se_media_type : string;
  se_video_config : option StreamVideoConfig;
  se_viewer_url : option string;
  se_mm_server_url : option string;
  se_mm_matrix_server : option string;
  se_federation_enabled : option bool;
  se_participant_count : Z;
  se_e2ee_enabled : option bool;
  se_e2ee_algorithm : option string;
  se_e2ee_key_id : option string;
  se_e2ee_key_generation : option Z;
  se_started_at_ms : Z;
  se_updated_at_ms : Z;
  se_marker_generation : Z
}.

Definition stream_event_value (c : StreamEventContent) : json_value := to_object [
  ("stream_id", Some (JStr (se_stream_id c)));
  ("status", Some (JStr (se_status c)));
  ("host_user_id", Some (JStr (se_host_user_id c)));
  ("title", JStr <$> se_title c);
  ("media_type", Some (JStr (se_media_type c)));
  ("video_config", enc <$> se_video_config c);
  ("viewer_url", JStr <$> se_viewer_url c);
  ("mm_server_url", JStr <$> se_mm_server_url c);
  ("mm_matrix_server", JStr <$> se_mm_matrix_server c);
  ("federation_enabled", JBool <$> se_federation_enabled c);
  ("participant_count", Some (jint (se_participant_count c)));
  ("e2ee_enabled", JBool <$> se_e2ee_enabled c);
  ("e2ee_algorithm", JStr <$> se_e2ee_algorithm c);
  ("e2ee_key_id", JStr <$> se_e2ee_key_id c);
  ("e2ee_key_generation", jint <$> se_e2ee_key_generation c);
  ("started_at_ms", Some (jint (se_started_at_ms c)));
  ("updated_at_ms", Some (jint (se_updated_at_ms c)));
  ("marker_generation", Some (jint (se_marker_generation c)))].

Definition default_marker_generation : Z := 1.

Definition stream_event_of : json_value → option StreamEventContent := struct 18 (λ s,
  stream_id ← req as_str s 0 "stream_id";
  status ← req as_str s 1 "status";
  host ← req as_str s 2 "host_user_id";
  title ← opt as_str s 3 "title";
  media ← req as_str s 4 "media_type";
  video ← opt dec s 5 "video_config";
  viewer ← opt as_str s 6 "viewer_url";
  server ← opt as_str s 7 "mm_server_url";
  matrix ← opt_default as_str s 8 "mm_matrix_server";
  fed ← opt_default of_bool s 9 "federation_enabled";
  count ← dflt 0 of_u32 s 10 "participant_count";
  e2ee ← opt_default of_bool s 11 "e2ee_enabled";
  alg ← opt_default as_str s 12 "e2ee_algorithm";
  key ← opt_default as_str s 13 "e2ee_key_id";
  gen ← opt_default of_u32 s 14 "e2ee_key_generation";
  started ← dflt 0 of_i64 s 15 "started_at_ms";
  updated ← dflt 0 of_i64 s 16 "updated_at_ms";
  marker ← dflt default_marker_generation of_u32 s 17 "marker_generation";
  Some {| se_stream_id := stream_id; se_status := status; se_host_user_id := host;
          se_title := title; se_media_type := media; se_video_config := video;
          se_viewer_url := viewer; se_mm_server_url := server; se_mm_matrix_server := matrix;
          se_federation_enabled := fed; se_participant_count := count;
          se_e2ee_enabled := e2ee; se_e2ee_algorithm := alg; se_e2ee_key_id := key;
          se_e2ee_key_generation := gen; se_started_at_ms := started;
          se_updated_at_ms := updated; se_marker_generation := marker |}).

(** The integers are in the ranges of their types. *)
Record stream_event_valid (c : StreamEventContent) : Prop := {
  sv_video x : se_video_config c = Some x → video_config_valid x;
  sv_count : is_u32_z (se_participant_count c);
  sv_gen : opt_in 0 u32_max (se_e2ee_key_generation c);
  sv_started : is_i64_z (se_started_at_ms c);
  sv_updated : is_i64_z (se_updated_at_ms c);
  sv_marker : is_u32_z (se_marker_generation c)
}.

#[export] Instance stream_event_codec : Codec StreamEventContent stream_event_valid.
Proof.
  refine {| enc := stream_event_value; dec := stream_event_of |}; [|done].
  intros [] [Hv Hc Hg Hs Hu Hm]. cbn [se_video_config se_participant_count
    se_e2ee_key_generation se_started_at_ms se_updated_at_ms se_marker_generation] in *.
  unfold stream_event_of. cbn [struct to_object stream_event_value].
  do 18 read_field. done.
Defined.

(** Proves the law of a struct's codec: [reader] and [writer] are unfolded and the fields
    are read back one by one. *)
Ltac struct_codec reader writer :=
  intros [] Hvalid; repeat (destruct Hvalid as [? Hvalid]);
  unfold reader; cbn [struct to_object writer]; repeat read_field; reflexivity.

(** The terminal payload; every field has a default, so that the legacy empty object is
    still read. *)
Record StreamEndedEventContent : Type := {
  sd_stream_id : string;
  sd_status : string;
  sd_ended_at_ms : Z;
  sd_marker_generation : Z;
  sd_reason : option string
}.

Definition stream_ended_value (c : StreamEndedEventContent) : json_value := to_object [
  ("stream_id", Some (JStr (sd_stream_id c)));
  ("status", Some (JStr (sd_status c)));
  ("ended_at_ms", Some (jint (sd_ended_at_ms c)));
  ("marker_generation", Some (jint (sd_marker_generation c)));
  ("reason", JStr <$> sd_reason c)].

Definition stream_ended_of : json_value → option StreamEndedEventContent := struct 5 (λ s,
  stream_id ← dflt "" as_str s 0 "stream_id";
  status ← dflt "" as_str s 1 "status";
  ended ← dflt 0 of_i64 s 2 "ended_at_ms";
  marker ← dflt default_marker_generation of_u32 s 3 "marker_generation";
  reason ← opt_default as_str s 4 "reason";
  Some {| sd_stream_id := stream_id; sd_status := status; sd_ended_at_ms := ended;
          sd_marker_generation := marker; sd_reason := reason |}).

#[export] Instance stream_ended_codec : Codec StreamEndedEventContent
  (λ c, is_i64_z (sd_ended_at_ms c) ∧ is_u32_z (sd_marker_generation c)).
Proof.
  refine {| enc := stream_ended_value; dec := stream_ended_of |}; [|done].
  struct_codec stream_ended_of stream_ended_value.
Defined.

(** [StreamEndedEventContent::new] at the instant [now_ms], and [with_reason]. *)
Definition stream_ended (now_ms : Z) (stream_id : string) (marker_generation : Z) :
    StreamEndedEventContent := {|
  sd_stream_id := stream_id; sd_status := "ended"; sd_ended_at_ms := now_ms;
  sd_marker_generation := marker_generation; sd_reason := None |}.

Definition with_reason (reason : string) (c : StreamEndedEventContent) :
    StreamEndedEventContent := {|
  sd_stream_id := sd_stream_id c; sd_status := sd_status c;
  sd_ended_at_ms := sd_ended_at_ms c; sd_marker_generation := sd_marker_generation c;
  sd_reason := Some reason |}.

(** ** Room configuration *)
Record RoomConfigContent : Type := {
  rc_max_participants : Z;
  rc_allowed_media_types : list string;
  rc_enabled : bool
}.

Definition default_max_participants : Z := 50.
Definition default_allowed_media : list string := ["audio"; "video"; "screen"].

Definition room_config_value (c : RoomConfigContent) : json_value := to_object [
  ("max_participants", Some (jint (rc_max_participants c)));
  ("allowed_media_types", Some (enc (rc_allowed_media_types c)));
  ("enabled", Some (JBool (rc_enabled c)))].

Definition room_config_of : json_value → option RoomConfigContent := struct 3 (λ s,
  m ← dflt default_max_participants of_u32 s 0 "max_participants";
  a ← dflt default_allowed_media dec s 1 "allowed_media_types";
  e ← dflt true of_bool s 2 "enabled";
  Some {| rc_max_participants := m; rc_allowed_media_types := a; rc_enabled := e |}).

Lemma strings_back (l : list string) : dec (enc l) = Some l.
Proof. apply dec_enc. by apply Forall_true. Qed.
#[export] Hint Resolve strings_back : codec.

#[export] Instance room_config_codec : Codec RoomConfigContent
  (λ c, is_u32_z (rc_max_participants c)).
Proof.
  refine {| enc := room_config_value; dec := room_config_of |}; [|done].
  struct_codec room_config_of room_config_value.
Defined.

(** ** End-to-end keys *)
Record E2eeKeyEvent : Type := {
  ek_stream_id : string;
  ek_algorithm : string;
  ek_key_id : string;
  ek_key_generation : Z;
  ek_key_b64 : string;
  ek_rotated_at_ms : Z;
  ek_rotates_next_ms : option Z
}.

Definition e2ee_key_value (c : E2eeKeyEvent) : json_value := to_object [
  ("stream_id", Some (JStr (ek_stream_id c)));
  ("algorithm", Some (JStr (ek_algorithm c)));
  ("key_id", Some (JStr (ek_key_id c)));
  ("key_generation", Some (jint (ek_key_generation c)));
  ("key_b64", Some (JStr (ek_key_b64 c)));
  ("rotated_at_ms", Some (jint (ek_rotated_at_ms c)));
  ("rotates_next_ms", jint <$> ek_rotates_next_ms c)].

Definition e2ee_key_of : json_value → option E2eeKeyEvent := struct 7 (λ s,
  stream_id ← req as_str s 0 "stream_id";
  alg ← req as_str s 1 "algorithm";
  key ← req as_str s 2 "key_id";
  gen ← req of_u32 s 3 "key_generation";
  b64 ← req as_str s 4 "key_b64";
  rotated ← req of_i64 s 5 "rotated_at_ms";
  next ← opt of_i64 s 6 "rotates_next_ms";
  Some {| ek_stream_id := stream_id; ek_algorithm := alg; ek_key_id := key;
          ek_key_generation := gen; ek_key_b64 := b64; ek_rotated_at_ms := rotated;
          ek_rotates_next_ms := next |}).

#[export] Instance e2ee_key_codec : Codec E2eeKeyEvent
  (λ c, is_u32_z (ek_key_generation c) ∧ is_i64_z (ek_rotated_at_ms c) ∧
        opt_in i64_min i64_max (ek_rotates_next_ms c)).
Proof.
  refine {| enc := e2ee_key_value; dec := e2ee_key_of |}; [|done].
  struct_codec e2ee_key_of e2ee_key_value.
Defined.

(** ** Donations *)
Record DonationEventContent : Type := {
  de_donation_id : string;
  de_stream_id : string;
  de_donor_display_name : string;
  de_amount_cents : Z;
  de_currency : string;
  de_message : option string;
  de_tier : string;
  de_pin_duration_secs : Z;
  de_color : string;
  de_version : Z
}.

Definition donation_event_value (c : DonationEventContent) : json_value := to_object [
  ("donation_id", Some (JStr (de_donation_id c)));
  ("stream_id", Some (JStr (de_stream_id c)));
  ("donor_display_name", Some (JStr (de_donor_display_name c)));
  ("amount_cents", Some (jint (de_amount_cents c)));
  ("currency", Some (JStr (de_currency c)));
  ("message", JStr <$> de_message c);
  ("tier", Some (JStr (de_tier c)));
  ("pin_duration_secs", Some (jint (de_pin_duration_secs c)));
  ("color", Some (JStr (de_color c)));
  ("version", Some (jint (de_version c)))].

Definition donation_event_of : json_value → option DonationEventContent := struct 10 (λ s,
  id ← req as_str s 0 "donation_id";
  stream ← req as_str s 1 "stream_id";
  donor ← req as_str s 2 "donor_display_name";
  amount ← req of_i64 s 3 "amount_cents";
  currency ← req as_str s 4 "currency";
  message ← opt as_str s 5 "message";
  tier ← req as_str s 6 "tier";
  pin ← req of_u32 s 7 "pin_duration_secs";
  color ← req as_str s 8 "color";
  version ← req of_u32 s 9 "version";
  Some {| de_donation_id := id; de_stream_id := stream; de_donor_display_name := donor;
          de_amount_cents := amount; de_currency := currency; de_message := message;
          de_tier := tier; de_pin_duration_secs := pin; de_color := color;
          de_version := version |}).

#[export] Instance donation_event_codec : Codec DonationEventContent
  (λ c, is_i64_z (de_amount_cents c) ∧ is_u32_z (de_pin_duration_secs c) ∧
        is_u32_z (de_version c)).
Proof.
  refine {| enc := donation_event_value; dec := donation_event_of |}; [|done].
  struct_codec donation_event_of donation_event_value.
Defined.

(** ** Subscription tiers, proofs and gates *)
Record TierInfo : Type := {
  ti_tier_level : Z;
  ti_name : string;
  ti_price_cents : Z;
  ti_currency : string;
  ti_perks : list string;
  ti_badge_url : option string
}.

Definition tier_info_value (c : TierInfo) : json_value := to_object [
  ("tier_level", Some (jint (ti_tier_level c)));
  ("name", Some (JStr (ti_name c)));
  ("price_cents", Some (jint (ti_price_cents c)));
  ("currency", Some (JStr (ti_currency c)));
  ("perks", Some (enc (ti_perks c)));
  ("badge_url", JStr <$> ti_badge_url c)].

Definition tier_info_of : json_value → option TierInfo := struct 6 (λ s,
  level ← req of_u32 s 0 "tier_level";
  name ← req as_str s 1 "name";
  price ← req of_i64 s 2 "price_cents";
  currency ← req as_str s 3 "currency";
  perks ← req dec s 4 "perks";
  badge ← opt as_str s 5 "badge_url";
  Some {| ti_tier_level := level; ti_name := name; ti_price_cents := price;
          ti_currency := currency; ti_perks := perks; ti_badge_url := badge |}).

Definition tier_info_valid (c : TierInfo) : Prop :=
  is_u32_z (ti_tier_level c) ∧ is_i64_z (ti_price_cents c).

#[export] Instance tier_info_codec : Codec TierInfo tier_info_valid.
Proof.
  refine {| enc := tier_info_value; dec := tier_info_of |}; [|done].
  struct_codec tier_info_of tier_info_value.
Defined.

Record SubscriptionTiersContent : Type := {
  sc_tiers : list TierInfo;
  sc_creator_user_id : string;
  sc_mm_server_url : string;
  sc_version : Z
}.

Definition subscription_tiers_value (c : SubscriptionTiersContent) : json_value := to_object [
  ("tiers", Some (enc (sc_tiers c)));
  ("creator_user_id", Some (JStr (sc_creator_user_id c)));
  ("mm_server_url", Some (JStr (sc_mm_server_url c)));
  ("version", Some (jint (sc_version c)))].

Definition subscription_tiers_of : json_value → option SubscriptionTiersContent :=
  struct 4 (λ s,
  tiers ← req dec s 0 "tiers";
  creator ← req as_str s 1 "creator_user_id";
  url ← req as_str s 2 "mm_server_url";
  version ← req of_u32 s 3 "version";
  Some {| sc_tiers := tiers; sc_creator_user_id := creator; sc_mm_server_url := url;
          sc_version := version |}).

#[export] Instance subscription_tiers_codec : Codec SubscriptionTiersContent
  (λ c, Forall tier_info_valid (sc_tiers c) ∧ is_u32_z (sc_version c)).
Proof.
  refine {| enc := subscription_tiers_value; dec := subscription_tiers_of |}; [|done].
  struct_codec subscription_tiers_of subscription_tiers_value.
Defined.

Record SubscriptionProofContent : Type := {
  sp_subscriber_user_id : string;
  sp_creator_user_id : string;
  sp_tier_level : Z;
  sp_tier_name : string;
  sp_valid_until_ms : Z;
  sp_mm_server_url : string;
  sp_version : Z
}.

Definition subscription_proof_value (c : SubscriptionProofContent) : json_value := to_object [
  ("subscriber_user_id", Some (JStr (sp_subscriber_user_id c)));
  ("creator_user_id", Some (JStr (sp_creator_user_id c)));
  ("tier_level", Some (jint (sp_tier_level c)));
  ("tier_name", Some (JStr (sp_tier_name c)));
  ("valid_until_ms", Some (jint (sp_valid_until_ms c)));
  ("mm_server_url", Some (JStr (sp_mm_server_url c)));
  ("version", Some (jint (sp_version c)))].

Definition subscription_proof_of : json_value → option SubscriptionProofContent :=
  struct 7 (λ s,
  subscriber ← req as_str s 0 "subscriber_user_id";
  creator ← req as_str s 1 "creator_user_id";
  level ← req of_u32 s 2 "tier_level";
  name ← req as_str s 3 "tier_name";
  until ← req of_u64 s 4 "valid_until_ms";
  url ← req as_str s 5 "mm_server_url";
  version ← req of_u32 s 6 "version";
  Some {| sp_subscriber_user_id := subscriber; sp_creator_user_id := creator;
          sp_tier_level := level; sp_tier_name := name; sp_valid_until_ms := until;
          sp_mm_server_url := url; sp_version := version |}).

#[export] Instance subscription_proof_codec : Codec SubscriptionProofContent
  (λ c, is_u32_z (sp_tier_level c) ∧ is_u64_z (sp_valid_until_ms c) ∧ is_u32_z (sp_version c)).
Proof.
  refine {| enc := subscription_proof_value; dec := subscription_proof_of |}; [|done].
  struct_codec subscription_proof_of subscription_proof_value.
Defined.

Record ContentGateContent : Type := {
  gt_min_tier_level : Z;
  gt_min_tier_name : string;
  gt_creator_user_id : string;
  gt_preview_seconds : Z;
  gt_version : Z
}.

Definition default_preview_seconds : Z := 120.

Definition content_gate_value (c : ContentGateContent) : json_value := to_object [
  ("min_tier_level", Some (jint (gt_min_tier_level c)));
  ("min_tier_name", Some (JStr (gt_min_tier_name c)));
  ("creator_user_id", Some (JStr (gt_creator_user_id c)));
  ("preview_seconds", Some (jint (gt_preview_seconds c)));
  ("version", Some (jint (gt_version c)))].

Definition content_gate_of : json_value → option ContentGateContent := struct 5 (λ s,
  level ← req of_u32 s 0 "min_tier_level";
  name ← req as_str s 1 "min_tier_name";
  creator ← req as_str s 2 "creator_user_id";
  preview ← dflt default_preview_seconds of_u32 s 3 "preview_seconds";
  version ← req of_u32 s 4 "version";
  Some {| gt_min_tier_level := level; gt_min_tier_name := name;
          gt_creator_user_id := creator; gt_preview_seconds := preview;
          gt_version := version |}).

#[export] Instance content_gate_codec : Codec ContentGateContent
  (λ c, is_u32_z (gt_min_tier_level c) ∧ is_u32_z (gt_preview_seconds c) ∧
        is_u32_z (gt_version c)).
Proof.
  refine {| enc := content_gate_value; dec := content_gate_of |}; [|done].
  struct_codec content_gate_of content_gate_value.
Defined.

(** ** Recordings *)
Record RecordingInfo : Type := { ri_mimetype : string; ri_duration : Z; ri_size : option Z }.

Definition recording_info_value (c : RecordingInfo) : json_value := to_object [
  ("mimetype", Some (JStr (ri_mimetype c)));
  ("duration", Some (jint (ri_duration c)));
  ("size", jint <$> ri_size c)].

Definition recording_info_of : json_value → option RecordingInfo := struct 3 (λ s,
  mime ← req as_str s 0 "mimetype";
  duration ← req of_i64 s 1 "duration";
  size ← opt of_i64 s 2 "size";
  Some {| ri_mimetype := mime; ri_duration := duration; ri_size := size |}).

Definition recording_info_valid (c : RecordingInfo) : Prop :=
  is_i64_z (ri_duration c) ∧ opt_in i64_min i64_max (ri_size c).

#[export] Instance recording_info_codec : Codec RecordingInfo recording_info_valid.
Proof.
  refine {| enc := recording_info_value; dec := recording_info_of |}; [|done].
  struct_codec recording_info_of recording_info_value.
Defined.

Record RecordingTimelineEvent : Type := {
  rt_msgtype : string;
  rt_body : string;
  rt_url : string;
  rt_info : RecordingInfo;
  rt_mm_recording_id : string;
  rt_mm_stream_id : string;
  rt_mm_host_user_id : string;
  rt_mm_duration_ms : Z;
  rt_mm_cdn_url : option string
}.

Definition recording_event_value (c : RecordingTimelineEvent) : json_value := to_object [
  ("msgtype", Some (JStr (rt_msgtype c)));
  ("body", Some (JStr (rt_body c)));
  ("url", Some (JStr (rt_url c)));
  ("info", Some (enc (rt_info c)));
  ("com.matrixmedia.recording_id", Some (JStr (rt_mm_recording_id c)));
  ("com.matrixmedia.stream_id", Some (JStr (rt_mm_stream_id c)));
  ("com.matrixmedia.host_user_id", Some (JStr (rt_mm_host_user_id c)));
  ("com.matrixmedia.duration_ms", Some (jint (rt_mm_duration_ms c)));
  ("com.matrixmedia.cdn_url", JStr <$> rt_mm_cdn_url c)].

Definition recording_event_of : json_value → option RecordingTimelineEvent := struct 9 (λ s,
  msgtype ← req as_str s 0 "msgtype";
  body ← req as_str s 1 "body";
  url ← req as_str s 2 "url";
  info ← req dec s 3 "info";
  rec ← req as_str s 4 "com.matrixmedia.recording_id";
  stream ← req as_str s 5 "com.matrixmedia.stream_id";
  host ← req as_str s 6 "com.matrixmedia.host_user_id";
  duration ← req of_i64 s 7 "com.matrixmedia.duration_ms";
  cdn ← opt as_str s 8 "com.matrixmedia.cdn_url";
  Some {| rt_msgtype := msgtype; rt_body := body; rt_url := url; rt_info := info;
          rt_mm_recording_id := rec; rt_mm_stream_id := stream; rt_mm_host_user_id := host;
          rt_mm_duration_ms := duration; rt_mm_cdn_url := cdn |}).

#[export] Instance recording_event_codec : Codec RecordingTimelineEvent
  (λ c, recording_info_valid (rt_info c) ∧ is_i64_z (rt_mm_duration_ms c)).
Proof.
  refine {| enc := recording_event_value; dec := recording_event_of |}; [|done].
  intros [] [Hi Hd]. unfold recording_event_of. cbn [struct to_object recording_event_value].
  do 9 read_field. done.
Defined.

(** ** Newsfeed contents *)
Record FeedThumbnail : Type := {
  ft_mxc : string;
  ft_width : Z;
  ft_height : Z;
  ft_blurhash : option string
}.

Definition thumbnail_value (c : FeedThumbnail) : json_value := to_object [
  ("mxc", Some (JStr (ft_mxc c)));
  ("width", Some (jint (ft_width c)));
  ("height", Some (jint (ft_height c)));
  ("blurhash", JStr <$> ft_blurhash c)].

Definition thumbnail_of : json_value → option FeedThumbnail := struct 4 (λ s,
  mxc ← req as_str s 0 "mxc";
  w ← req of_u32 s 1 "width";
  h ← req of_u32 s 2 "height";
  b ← opt_default as_str s 3 "blurhash";
  Some {| ft_mxc := mxc; ft_width := w; ft_height := h; ft_blurhash := b |}).

Definition thumbnail_valid (c : FeedThumbnail) : Prop :=
  is_u32_z (ft_width c) ∧ is_u32_z (ft_height c).

#[export] Instance thumbnail_codec : Codec FeedThumbnail thumbnail_valid.
Proof.
  refine {| enc := thumbnail_value; dec := thumbnail_of |}; [|done].
  struct_codec thumbnail_of thumbnail_value.
Defined.

Record FeedRelatesTo : Type := { fr_rel_type : string; fr_event_id : string }.

Definition relates_to_value (c : FeedRelatesTo) : json_value := to_object [
  ("rel_type", Some (JStr (fr_rel_type c)));
  ("event_id", Some (JStr (fr_event_id c)))].

Definition relates_to_of : json_value → option FeedRelatesTo := struct 2 (λ s,
  t ← req as_str s 0 "rel_type";
  e ← req as_str s 1 "event_id";
  Some {| fr_rel_type := t; fr_event_id := e |}).

#[export] Instance relates_to_codec : Codec FeedRelatesTo any.
Proof.
  refine {| enc := relates_to_value; dec := relates_to_of |}; [|done].
  intros [] _. unfold relates_to_of. cbn [struct to_object relates_to_value].
  do 2 read_field. done.
Defined.

Record FeedPostMedia : Type := {
  fm_kind : string;
  fm_mxc : string;
  fm_width : option Z;
  fm_height : option Z;
  fm_blurhash : option string
}.

Definition post_media_value (c : FeedPostMedia) : json_value := to_object [
  ("kind", Some (JStr (fm_kind c)));
  ("mxc", Some (JStr (fm_mxc c)));
  ("width", jint <$> fm_width c);
  ("height", jint <$> fm_height c);
  ("blurhash", JStr <$> fm_blurhash c)].

Definition post_media_of : json_value → option FeedPostMedia := struct 5 (λ s,
  kind ← req as_str s 0 "kind";
  mxc ← req as_str s 1 "mxc";
  w ← opt_default of_u32 s 2 "width";
  h ← opt_default of_u32 s 3 "height";
  b ← opt_default as_str s 4 "blurhash";
  Some {| fm_kind := kind; fm_mxc := mxc; fm_width := w; fm_height := h;
          fm_blurhash := b |}).

Definition post_media_valid (c : FeedPostMedia) : Prop :=
  opt_in 0 u32_max (fm_width c) ∧ opt_in 0 u32_max (fm_height c).

#[export] Instance post_media_codec : Codec FeedPostMedia post_media_valid.
Proof.
  refine {| enc := post_media_value; dec := post_media_of |}; [|done].
  struct_codec post_media_of post_media_value.
Defined.

Record FeedBroadcastStartedContent : Type := {
  fs_version : Z;
  fs_body : string;
  fs_msgtype : string;
  fs_stream_id : string;
  fs_title : option string;
  fs_host : string;
  fs_started_at : Z;
  fs_thumbnail : option FeedThumbnail;
  fs_ad_policy : option string;
  fs_join_token : option string
}.

Definition feed_started_value (c : FeedBroadcastStartedContent) : json_value := to_object [
  ("version", Some (jint (fs_version c)));
  ("body", Some (JStr (fs_body c)));
  ("msgtype", Some (JStr (fs_msgtype c)));
  ("stream_id", Some (JStr (fs_stream_id c)));
  ("title", JStr <$> fs_title c);
  ("host", Some (JStr (fs_host c)));
  ("started_at", Some (jint (fs_started_at c)));
  ("thumbnail", enc <$> fs_thumbnail c);
  ("ad_policy", JStr <$> fs_ad_policy c);
  ("join_token", JStr <$> fs_join_token c)].

Definition feed_started_of : json_value → option FeedBroadcastStartedContent := struct 10 (λ s,
  version ← req of_u32 s 0 "version";
  body ← req as_str s 1 "body";
  msgtype ← req as_str s 2 "msgtype";
  stream ← req as_str s 3 "stream_id";
  title ← opt_default as_str s 4 "title";
  host ← req as_str s 5 "host";
  started ← req of_i64 s 6 "started_at";
  thumbnail ← opt_default dec s 7 "thumbnail";
  policy ← opt_default as_str s 8 "ad_policy";
  token ← opt_default as_str s 9 "join_token";
  Some {| fs_version := version; fs_body := body; fs_msgtype := msgtype;
          fs_stream_id := stream; fs_title := title; fs_host := host;
          fs_started_at := started; fs_thumbnail := thumbnail; fs_ad_policy := policy;
          fs_join_token := token |}).

#[export] Instance feed_started_codec : Codec FeedBroadcastStartedContent
  (λ c, is_u32_z (fs_version c) ∧ is_i64_z (fs_started_at c) ∧
        ∀ x, fs_thumbnail c = Some x → thumbnail_valid x).
Proof.
  refine {| enc := feed_started_value; dec := feed_started_of |}; [|done].
  intros [] (Hv & Hs & Ht). unfold feed_started_of. cbn [struct to_object feed_started_value].
  cbn [fs_thumbnail] in Ht. do 10 read_field. done.
Defined.

Record FeedBroadcastEndedContent : Type := {
  fe_version : Z;
  fe_body : string;
  fe_msgtype : string;
  fe_stream_id : string;
  fe_host : option string;
  fe_ended_at : Z;
  fe_duration_ms : Z;
  fe_m_relates_to : option FeedRelatesTo
}.

Definition feed_ended_value (c : FeedBroadcastEndedContent) : json_value := to_object [
  ("version", Some (jint (fe_version c)));
  ("body", Some (JStr (fe_body c)));
  ("msgtype", Some (JStr (fe_msgtype c)));
  ("stream_id", Some (JStr (fe_stream_id c)));
  ("host", JStr <$> fe_host c);
  ("ended_at", Some (jint (fe_ended_at c)));
  ("duration_ms", Some (jint (fe_duration_ms c)));
  ("m.relates_to", enc <$> fe_m_relates_to c)].

Definition feed_ended_of : json_value → option FeedBroadcastEndedContent := struct 8 (λ s,
  version ← req of_u32 s 0 "version";
  body ← req as_str s 1 "body";
  msgtype ← req as_str s 2 "msgtype";
  stream ← req as_str s 3 "stream_id";
  host ← opt_default as_str s 4 "host";
  ended ← req of_i64 s 5 "ended_at";
  duration ← req of_i64 s 6 "duration_ms";
  rel ← opt_default dec s 7 "m.relates_to";
  Some {| fe_version := version; fe_body := body; fe_msgtype := msgtype;
          fe_stream_id := stream; fe_host := host; fe_ended_at := ended;
          fe_duration_ms := duration; fe_m_relates_to := rel |}).

Lemma relates_back (o : option FeedRelatesTo) a :
  o = Some a → enc a ≠ JNull ∧ dec (enc a) = Some a.
Proof. intros ->. split; [done|]. by apply dec_enc. Qed.
#[export] Hint Resolve relates_back : codec.

#[export] Instance feed_ended_codec : Codec FeedBroadcastEndedContent
  (λ c, is_u32_z (fe_version c) ∧ is_i64_z (fe_ended_at c) ∧ is_i64_z (fe_duration_ms c)).
Proof.
  refine {| enc := feed_ended_value; dec := feed_ended_of |}; [|done].
  struct_codec feed_ended_of feed_ended_value.
Defined.

Record FeedRecordingAvailableContent : Type := {
  fa_version : Z;
  fa_body : string;
  fa_msgtype : string;
  fa_stream_id : string;
  fa_recording_id : string;
  fa_title : option string;
  fa_host : string;
  fa_duration_ms : Z;
  fa_thumbnail : option FeedThumbnail;
  fa_thumbnail_url_hint : option string;
  fa_playback_url_hint : option string
}.

Definition feed_recording_value (c : FeedRecordingAvailableContent) : json_value := to_object [
  ("version", Some (jint (fa_version c)));
  ("body", Some (JStr (fa_body c)));
  ("msgtype", Some (JStr (fa_msgtype c)));
  ("stream_id", Some (JStr (fa_stream_id c)));
  ("recording_id", Some (JStr (fa_recording_id c)));
  ("title", JStr <$> fa_title c);
  ("host", Some (JStr (fa_host c)));
  ("duration_ms", Some (jint (fa_duration_ms c)));
  ("thumbnail", enc <$> fa_thumbnail c);
  ("thumbnail_url_hint", JStr <$> fa_thumbnail_url_hint c);
  ("playback_url_hint", JStr <$> fa_playback_url_hint c)].

Definition feed_recording_of : json_value → option FeedRecordingAvailableContent :=
  struct 11 (λ s,
  version ← req of_u32 s 0 "version";
  body ← req as_str s 1 "body";
  msgtype ← req as_str s 2 "msgtype";
  stream ← req as_str s 3 "stream_id";
  rec ← req as_str s 4 "recording_id";
  title ← opt_default as_str s 5 "title";
  host ← req as_str s 6 "host";
  duration ← req of_i64 s 7 "duration_ms";
  thumbnail ← opt_default dec s 8 "thumbnail";
  thumb_hint ← opt_default as_str s 9 "thumbnail_url_hint";
  play_hint ← opt_default as_str s 10 "playback_url_hint";
  Some {| fa_version := version; fa_body := body; fa_msgtype := msgtype;
          fa_stream_id := stream; fa_recording_id := rec; fa_title := title; fa_host := host;
          fa_duration_ms := duration; fa_thumbnail := thumbnail;
          fa_thumbnail_url_hint := thumb_hint; fa_playback_url_hint := play_hint |}).

#[export] Instance feed_recording_codec : Codec FeedRecordingAvailableContent
  (λ c, is_u32_z (fa_version c) ∧ is_i64_z (fa_duration_ms c) ∧
        ∀ x, fa_thumbnail c = Some x → thumbnail_valid x).
Proof.
  refine {| enc := feed_recording_value; dec := feed_recording_of |}; [|done].
  intros [] (Hv & Hs & Ht). unfold feed_recording_of.
  cbn [struct to_object feed_recording_value]. cbn [fa_thumbnail] in Ht.
  do 11 read_field. done.
Defined.

Record FeedPostContent : Type := {
  fp_version : Z;
  fp_body : string;
  fp_msgtype : string;
  fp_post_id : string;
  fp_author : string;
  fp_text : string;
  fp_media : list FeedPostMedia;
  fp_scheduled_for_ms : option Z
}.

Definition feed_post_value (c : FeedPostContent) : json_value := to_object [
  ("version", Some (jint (fp_version c)));
  ("body", Some (JStr (fp_body c)));
  ("msgtype", Some (JStr (fp_msgtype c)));
  ("post_id", Some (JStr (fp_post_id c)));
  ("author", Some (JStr (fp_author c)));
  ("text", Some (JStr (fp_text c)));
  ("media", Some (enc (fp_media c)));
  ("scheduled_for_ms", jint <$> fp_scheduled_for_ms c)].

Definition feed_post_of : json_value → option FeedPostContent := struct 8 (λ s,
  version ← req of_u32 s 0 "version";
  body ← req as_str s 1 "body";
  msgtype ← req as_str s 2 "msgtype";
  post ← req as_str s 3 "post_id";
  author ← req as_str s 4 "author";
  text ← req as_str s 5 "text";
  media ← dflt [] dec s 6 "media";
  scheduled ← opt_default of_i64 s 7 "scheduled_for_ms";
  Some {| fp_version := version; fp_body := body; fp_msgtype := msgtype; fp_post_id := post;
          fp_author := author; fp_text := text; fp_media := media;
          fp_scheduled_for_ms := scheduled |}).

#[export] Instance feed_post_codec : Codec FeedPostContent
  (λ c, is_u32_z (fp_version c) ∧ Forall post_media_valid (fp_media c) ∧
        opt_in i64_min i64_max (fp_scheduled_for_ms c)).
Proof.
  refine {| enc := feed_post_value; dec := feed_post_of |}; [|done].
  struct_codec feed_post_of feed_post_value.
Defined.

(** ** Texts *)
Definition lf : string := newline.
Definition currency_symbol (currency : string) : string :=
  if String.eqb currency "usd" then "$"
  else if String.eqb currency "eur" then bytes [226; 130; 172]%nat
  else if String.eqb currency "gbp" then bytes [194; 163]%nat
  else "$".

(** [{cents:02}]. *)
Definition pad2 (n : Z) : string := if n <? 10 then "0" +:+ fmt_i64 n else fmt_i64 n.

(** [{symbol}{dollars}.{cents:02}] with Rust's truncating division. *)
Definition money (currency : string) (cents : Z) : string :=
  currency_symbol currency +:+ fmt_i64 (Z.quot cents 100) +:+ "." +:+
  pad2 (Z.abs (Z.rem cents 100)).

Definition nonempty (o : option string) : option string :=
  match o with Some s => if is_empty_str s then None else Some s | None => None end.

Definition format_donation_notice (c : DonationEventContent) : string :=
  let head := money (de_currency c) (de_amount_cents c) +:+ " donation from " +:+
              de_donor_display_name c in
  match nonempty (de_message c) with
  | Some msg => head +:+ ": '" +:+ msg +:+ "'"
  | None => head
  end.

(** [join]. *)
Fixpoint join (sep : string) (l : list string) : string :=
  match l with
  | [] => ""
  | [x] => x
  | x :: l' => x +:+ sep +:+ join sep l'
  end.

Definition tier_line (t : TierInfo) : string :=
  "  Tier " +:+ fmt_i64 (ti_tier_level t) +:+ " - " +:+ ti_name t +:+ " (" +:+
  money (ti_currency t) (ti_price_cents t) +:+ "/mo): " +:+ join ", " (ti_perks t).

Definition format_subscription_tiers_notice (c : SubscriptionTiersContent) : string :=
  join lf (("Subscription tiers updated by " +:+ sc_creator_user_id c +:+ ":") ::
           (tier_line <$> sc_tiers c)).

Definition format_subscription_proof_notice (c : SubscriptionProofContent) : string :=
  sp_subscriber_user_id c +:+ " subscribed to " +:+ sp_tier_name c +:+ " (Tier " +:+
  fmt_i64 (sp_tier_level c) +:+ ") from " +:+ sp_creator_user_id c.

Definition format_content_gate_notice (c : ContentGateContent) : string :=
  "Content gated: requires " +:+ gt_min_tier_name c +:+ " (Tier " +:+
  fmt_i64 (gt_min_tier_level c) +:+ ") or higher." +:+
  (if 0 <? gt_preview_seconds c
   then " " +:+ fmt_i64 (gt_preview_seconds c) +:+ "s free preview."
   else " No free preview.").

Definition stream_started_notice (title viewer_url : option string) : string :=
  let title_part := default "Untitled stream" title in
  match viewer_url with
  | Some url => "Live stream started: " +:+ title_part +:+ lf +:+ "Join: " +:+ url
  | None => "Live stream started: " +:+ title_part
  end.

Definition stream_ended_notice (title : option string) : string :=
  "Stream ended: " +:+ default "Untitled stream" title.

Definition format_stream_started (host : string) (title : option string) (viewer_url : string) :
    string :=
  host +:+ " started streaming" +:+ default "" ((λ t, ": " +:+ t) <$> title) +:+ lf +:+
  "Join: " +:+ viewer_url.

Definition format_stream_ended (host : string) (duration_secs peak : Z) : string :=
  "Stream ended (hosted by " +:+ host +:+ ", " +:+ fmt_i64 (duration_secs / 60) +:+ "m " +:+
  fmt_i64 (duration_secs mod 60) +:+ "s, peak " +:+ fmt_i64 peak +:+ " viewers)".

(** The parts of a duration in milliseconds, never negative. *)
Definition hms (duration_ms : Z) : Z * Z * Z :=
  let total_secs := Z.max (Z.quot duration_ms 1000) 0 in
  (total_secs / 3600, total_secs mod 3600 / 60, total_secs mod 60).

Definition format_recording_body (title : option string) (duration_ms : Z) : string :=
  let '(hours, mins, secs) := hms duration_ms in
  let dur := if 0 <? hours then fmt_i64 hours +:+ "h " +:+ fmt_i64 mins +:+ "m"
             else if 0 <? mins then fmt_i64 mins +:+ " min"
             else fmt_i64 secs +:+ " sec" in
  match nonempty title with
  | Some t => "Recording: " +:+ t +:+ " (" +:+ dur +:+ ")"
  | None => "Recording (" +:+ dur +:+ ")"
  end.

Definition tv_emoji : string := bytes [240; 159; 147; 186]%nat.
Definition clapper_emoji : string := bytes [240; 159; 142; 172]%nat.

Definition feed_broadcast_started_body (host : string) (title : option string) : string :=
  match nonempty title with
  | Some t => tv_emoji +:+ " " +:+ host +:+ " started a broadcast: " +:+ t
  | None => tv_emoji +:+ " " +:+ host +:+ " started a broadcast"
  end.

Definition feed_broadcast_ended_body (host : string) : string := host +:+ "'s broadcast ended".

Definition feed_recording_available_body (title : option string) (duration_ms : Z) : string :=
  let '(hours, mins, secs) := hms duration_ms in
  let dur := if 0 <? hours then fmt_i64 hours +:+ "h " +:+ fmt_i64 mins +:+ "m"
             else if 0 <? mins then fmt_i64 mins +:+ "m " +:+ fmt_i64 secs +:+ "s"
             else fmt_i64 secs +:+ "s" in
  match nonempty title with
  | Some t => clapper_emoji +:+ " New recording: " +:+ t +:+ " (" +:+ dur +:+ ")"
  | None => clapper_emoji +:+ " New recording (" +:+ dur +:+ ")"
  end.

(** ** Building feed contents *)
Definition build_feed_broadcast_started (stream_id host : string) (title : option string)
    (started_at_ms : Z) : FeedBroadcastStartedContent := {|
  fs_version := 1; fs_body := feed_broadcast_started_body host title;
  fs_msgtype := "m.notice"; fs_stream_id := stream_id; fs_title := title; fs_host := host;
  fs_started_at := started_at_ms; fs_thumbnail := None; fs_ad_policy := None;
  fs_join_token := None |}.

Definition build_feed_broadcast_ended (stream_id host : string) (ended_at_ms duration_ms : Z)
    (started_event_id : option string) : FeedBroadcastEndedContent := {|
  fe_version := 1; fe_body := feed_broadcast_ended_body host; fe_msgtype := "m.notice";
  fe_stream_id := stream_id; fe_host := Some host; fe_ended_at := ended_at_ms;
  fe_duration_ms := duration_ms;
  fe_m_relates_to :=
    (λ e, {| fr_rel_type := "m.reference"; fr_event_id := e |}) <$> started_event_id |}.

Definition build_feed_recording_available (stream_id recording_id host : string)
    (title : option string) (duration_ms : Z) (thumbnail_url_hint : option string) :
    FeedRecordingAvailableContent := {|
  fa_version := 1; fa_body := feed_recording_available_body title duration_ms;
  fa_msgtype := "m.notice"; fa_stream_id := stream_id; fa_recording_id := recording_id;
  fa_title := title; fa_host := host; fa_duration_ms := duration_ms; fa_thumbnail := None;
  fa_thumbnail_url_hint := thumbnail_url_hint; fa_playback_url_hint := None |}.

(** ** Sending *)
Section emit.
Context {N : Type} `{Http N}.
Variable client : HomeserverClient.

Definition publish_stream_active (room_id : string) (c : StreamEventContent) :
    st N (result string MMError.t) :=
  send_state_event client room_id STREAM_EVENT_TYPE "" (enc c).

Definition publish_stream_ended (room_id : string) (c : StreamEndedEventContent) :
    st N (result string MMError.t) :=
  send_state_event client room_id STREAM_EVENT_TYPE "" (enc c).

Definition clear_stream_active (room_id : string) : st N (result string MMError.t) :=
  send_state_event client room_id STREAM_EVENT_TYPE "" (JObj []).

Definition publish_e2ee_key (room_id : string) (event : E2eeKeyEvent) :
    st N (result string MMError.t) :=
  send_state_event client room_id E2EE_KEY_EVENT_TYPE (ek_stream_id event) (enc event).

Definition clear_e2ee_key (room_id stream_id : string) : st N (result string MMError.t) :=
  send_state_event client room_id E2EE_KEY_EVENT_TYPE stream_id (JObj []).

(** An event and the notice that explains it. *)
Definition with_notice (room_id text : string) (m : st N (result string MMError.t)) :
    st N (result (string * string) MMError.t) :=
  let? event_id := m in
  let? notice_id := send_notice client room_id text in
  st_ret (Ok (event_id, notice_id)).

Definition emit_donation_event (room_id : string) (c : DonationEventContent) :
    st N (result (string * string) MMError.t) :=
  let! _ := join_room client room_id in
  with_notice room_id (format_donation_notice c)
    (send_custom_event client room_id DONATION_EVENT_TYPE (enc c)).

Definition emit_subscription_tiers_event (room_id : string) (c : SubscriptionTiersContent) :
    st N (result (string * string) MMError.t) :=
  with_notice room_id (format_subscription_tiers_notice c)
    (send_state_event client room_id SUBSCRIPTION_TIERS_EVENT_TYPE "" (enc c)).

Definition emit_subscription_proof_event (room_id : string) (c : SubscriptionProofContent) :
    st N (result (string * string) MMError.t) :=
  with_notice room_id (format_subscription_proof_notice c)
    (send_state_event client room_id SUBSCRIPTION_PROOF_EVENT_TYPE
       (sp_subscriber_user_id c) (enc c)).

Definition clear_subscription_proof_event (room_id subscriber : string) :
    st N (result (string * string) MMError.t) :=
  with_notice room_id ("Subscription proof cleared for " +:+ subscriber)
    (send_state_event client room_id SUBSCRIPTION_PROOF_EVENT_TYPE subscriber (JObj [])).

Definition emit_content_gate_event (room_id : string) (c : ContentGateContent) :
    st N (result (string * string) MMError.t) :=
  with_notice room_id (format_content_gate_notice c)
    (send_state_event client room_id CONTENT_GATE_EVENT_TYPE "" (enc c)).

Definition clear_content_gate_event (room_id : string) :
    st N (result (string * string) MMError.t) :=
  with_notice room_id "Content gate removed. Stream is now open to all viewers."
    (send_state_event client room_id CONTENT_GATE_EVENT_TYPE "" (JObj [])).

Definition notify_stream_started (room_id host : string) (title : option string)
    (viewer_url : string) : st N (result string MMError.t) :=
  send_notice client room_id (format_stream_started host title viewer_url).

Definition notify_stream_ended (room_id host : string) (duration_secs peak : Z) :
    st N (result string MMError.t) :=
  send_notice client room_id (format_stream_ended host duration_secs peak).

Definition post_recording_to_timeline (room_id : string) (event : RecordingTimelineEvent) :
    st N (result string MMError.t) :=
  send_message_raw client room_id (enc event).

Definition emit_feed_broadcast_started (room_id : string) (c : FeedBroadcastStartedContent) :
    st N (result string MMError.t) :=
  send_custom_event client room_id FEED_BROADCAST_STARTED_EVENT_TYPE (enc c).

Definition emit_feed_broadcast_ended (room_id : string) (c : FeedBroadcastEndedContent) :
    st N (result string MMError.t) :=
  send_custom_event client room_id FEED_BROADCAST_ENDED_EVENT_TYPE (enc c).

Definition emit_feed_recording_available (room_id : string)
    (c : FeedRecordingAvailableContent) : st N (result string MMError.t) :=
  send_custom_event client room_id FEED_RECORDING_AVAILABLE_EVENT_TYPE (enc c).
End emit.

(** ** The stream marker on the wire *)

(** Both payloads of the stream marker are read back as they were written, the terminal
    one is never taken for a live stream, and the legacy empty payload reads as the end of
    no stream, at generation 1. *)
Theorem stream_marker_round_trip (active : StreamEventContent)
    (ended : StreamEndedEventContent) :
  stream_event_valid active →
  is_i64_z (sd_ended_at_ms ended) → is_u32_z (sd_marker_generation ended) →
  stream_event_of (stream_event_value active) = Some active ∧
  stream_ended_of (stream_ended_value ended) = Some ended ∧
  stream_event_of (stream_ended_value ended) = None ∧
  stream_ended_of (JObj []) = Some {| sd_stream_id := ""; sd_status := "";
    sd_ended_at_ms := 0; sd_marker_generation := 1; sd_reason := None |}.
Proof.
  intros Ha He Hm. split; [by apply (dec_enc (Codec := stream_event_codec))|].
  split; [by apply (dec_enc (Codec := stream_ended_codec))|].
  split; [|done]. by destruct ended as [? ? ? ? []].
Qed.

Definition ex_marker : StreamEventContent := {|
  se_stream_id := "01J"; se_status := "active"; se_host_user_id := "@alice:example.org";
  se_title := Some "Morning show"; se_media_type := "video";
  se_video_config := Some {| vc_max_bitrate := 2500000; vc_max_width := 1280;
    vc_max_height := 720; vc_max_frame_rate := 30; vc_simulcast_enabled := true |};
  se_viewer_url := None; se_mm_server_url := None; se_mm_matrix_server := None;
  se_federation_enabled := Some false; se_participant_count := 3; se_e2ee_enabled := None;
  se_e2ee_algorithm := None; se_e2ee_key_id := None; se_e2ee_key_generation := Some 2;
  se_started_at_ms := 1760000000000; se_updated_at_ms := 1760000000000;
  se_marker_generation := 1 |}.

Lemma stream_marker_round_trip_witness :
  stream_event_of (stream_event_value ex_marker) = Some ex_marker ∧
  stream_event_of (stream_ended_value (stream_ended 1760000100000 "01J" 2)) = None.
Proof.
  destruct (stream_marker_round_trip ex_marker (stream_ended 1760000100000 "01J" 2))
    as (? & _ & ? & _); [|by split|by split|by split].
  split; [|by split..]. intros x [= <-]. by repeat split.
Defined.
