(* ===== verification/Payments.v ===== *)
(** * Payments: amounts, fees, invoices and payment providers

    [mm-payment]: donation tiers and fees ([donations.rs]), the rules of a subscription
    tier ([subscriptions.rs]), the Lightning conversions and fees ([lnbits/types.rs]),
    preimage proofs ([bolt11.rs]), Lightning Addresses and the LNURL-pay client
    ([lnurl/types.rs], [lnurl/client.rs]), the provider types and registry
    ([provider.rs], [registry.rs]) and the LNBits provider ([lnbits/mod.rs]). HTTP,
    hashing, hexadecimal and JSON text are parameters. *)
From Stdlib Require Import Ascii.
From S2P Require Import Prelude F64 ApiSchema Schema Errors Text.
Local Open Scope Z_scope.
Local Open Scope mm_scope.

(** ** Donation tiers and fees *)
Record DonationTier : Type := {
  dt_name : string;
  dt_color : string;
  dt_pin_duration_secs : Z
}.

Definition between (lo hi x : Z) : bool := (lo <=? x) && (x <=? hi).

Definition tier_for_amount (amount_cents : Z) : DonationTier :=
  if between 0 199 amount_cents then
    {| dt_name := "blue"; dt_color := "#1E88E5"; dt_pin_duration_secs := 30 |}
  else if between 200 499 amount_cents then
    {| dt_name := "green"; dt_color := "#43A047"; dt_pin_duration_secs := 60 |}
  else if between 500 999 amount_cents then
    {| dt_name := "yellow"; dt_color := "#FDD835"; dt_pin_duration_secs := 90 |}
  else if between 1000 2499 amount_cents then
    {| dt_name := "orange"; dt_color := "#FB8C00"; dt_pin_duration_secs := 120 |}
  else if between 2500 4999 amount_cents then
    {| dt_name := "magenta"; dt_color := "#E91E63"; dt_pin_duration_secs := 180 |}
  else if between 5000 9999 amount_cents then
    {| dt_name := "red"; dt_color := "#E53935"; dt_pin_duration_secs := 240 |}
  else
    {| dt_name := "gold"; dt_color := "#FFD700"; dt_pin_duration_secs := 300 |}.

Record FeeBreakdown : Type := {
  fb_gross_cents : Z;
  fb_stripe_fee_cents : Z;
  fb_platform_fee_cents : Z;
  fb_creator_net_cents : Z
}.

(** [(x as f64 * pct).round() as i64]. *)
Definition share_of (x : Z) (pct : f64) : Z :=
  f64_as_i64 (f64_round (f64_mul (f64_of_Z x) pct)).

Definition calculate_fees (amount_cents : Z) (platform_fee_pct : f64) : FeeBreakdown :=
  let stripe_fee := i64_wrap (30 + Z.quot (i64_wrap (amount_cents * 29)) 1000) in
  let net_after_stripe := i64_wrap (amount_cents - stripe_fee) in
  let platform_fee := share_of net_after_stripe platform_fee_pct in
  {| fb_gross_cents := amount_cents; fb_stripe_fee_cents := stripe_fee;
     fb_platform_fee_cents := platform_fee;
     fb_creator_net_cents := i64_wrap (net_after_stripe - platform_fee) |}.

(** ** Subscription tiers *)
Definition MAX_TIERS_PER_CREATOR : Z := 5.
Definition MIN_TIER_LEVEL : Z := 1.
Definition MAX_TIER_LEVEL : Z := 5.
Definition MIN_PRICE_CENTS : Z := 99.
Definition MAX_PRICE_CENTS : Z := 4999.

Definition validate_tier (tier_level price_cents existing_tier_count : Z) : result () string :=
  if negb (between MIN_TIER_LEVEL MAX_TIER_LEVEL tier_level)
  then Err "tier_level must be between 1 and 5"
  else if negb (between MIN_PRICE_CENTS MAX_PRICE_CENTS price_cents)
  then Err "price must be between 99 and 4999 cents"
  else if MAX_TIERS_PER_CREATOR <=? existing_tier_count
  then Err "maximum of 5 tiers per creator"
  else Ok ().

(** ** Lightning amounts *)
Definition sats_to_usd_cents (sats : Z) : Z :=
  f64_as_i64 (f64_round (f64_div (f64_mul (f64_of_Z sats) (f64_of_Z 100)) (f64_of_Z 1500))).

Definition usd_cents_to_sats (cents : Z) : Z :=
  f64_as_i64 (f64_round (f64_div (f64_mul (f64_of_Z cents) (f64_of_Z 1500)) (f64_of_Z 100))).

Record LightningFeeBreakdown : Type := {
  lf_gross_sats : Z;
  lf_network_fee_sats : Z;
  lf_platform_fee_sats : Z;
  lf_creator_net_sats : Z;
  lf_approx_usd_cents : Z
}.

Definition calculate_lightning_fees (amount_sats : Z) (platform_fee_pct : f64) :
    LightningFeeBreakdown :=
  let network_fee := Z.max 1 (Z.quot amount_sats 1000) in
  let net_after_network := i64_wrap (amount_sats - network_fee) in
  let platform_fee := share_of net_after_network platform_fee_pct in
  {| lf_gross_sats := amount_sats; lf_network_fee_sats := network_fee;
     lf_platform_fee_sats := platform_fee;
     lf_creator_net_sats := i64_wrap (net_after_network - platform_fee);
     lf_approx_usd_cents := sats_to_usd_cents amount_sats |}.

(** ** Preimage proofs *)
Module Bolt11Error.
Inductive t : Type := ParseError (m : string) | BadPreimage | PreimageMismatch.

Definition to_string (e : t) : string :=
  match e with
  | ParseError m => "invalid BOLT11 invoice: " +:+ m
  | BadPreimage => "preimage must be 64 hex characters"
  | PreimageMismatch => "payment_hash mismatch: SHA256(preimage) does not match the invoice"
  end.
End Bolt11Error.

(** The invoice parser, the hexadecimal codec and the hash are library code; byte
    strings are strings. *)
Record Bolt11Ops : Type := {
  invoice_payment_hash : string → result string string;
  hex_encode : string → string;
  hex_decode : string → option string;
  sha256 : string → string
}.

Definition extract_payment_hash (ops : Bolt11Ops) (bolt11 : string) :
    result string Bolt11Error.t :=
  match invoice_payment_hash ops (trim bolt11) with
  | Err e => Err (Bolt11Error.ParseError e)
  | Ok h => Ok (hex_encode ops h)
  end.

Definition eq_ignore_ascii_case (a b : string) : bool :=
  String.eqb (to_ascii_lowercase a) (to_ascii_lowercase b).

Definition verify_preimage (ops : Bolt11Ops) (preimage_hex expected_hash_hex : string) :
    result () Bolt11Error.t :=
  match hex_decode ops (trim preimage_hex) with
  | None => Err Bolt11Error.BadPreimage
  | Some preimage =>
      if negb (String.length preimage =? 32)%nat then Err Bolt11Error.BadPreimage
      else if eq_ignore_ascii_case (hex_encode ops (sha256 ops preimage)) expected_hash_hex
      then Ok ()
      else Err Bolt11Error.PreimageMismatch
  end.

(** ** Lightning Addresses *)
Module LnurlError.
Inductive t : Type :=
  | InvalidAddress (m : string)
  | AmountOutOfRange (amount_msat min_msat max_msat : Z)
  | CommentTooLong (len max_allowed : Z)
  | InvalidMetadata (m : string)
  | Remote (m : string)
  | Network (m : string).

Definition to_string (e : t) : string :=
  match e with
  | InvalidAddress m => "invalid Lightning Address: " +:+ m
  | AmountOutOfRange a lo hi =>
      "amount " +:+ fmt_i64 a +:+ " msat is outside allowed range [" +:+ fmt_i64 lo +:+
      ", " +:+ fmt_i64 hi +:+ "]"
  | CommentTooLong len max =>
      "comment too long (" +:+ fmt_i64 len +:+ " > " +:+ fmt_i64 max +:+ ")"
  | InvalidMetadata m => "LNURL-pay metadata document is malformed: " +:+ m
  | Remote m => "LNURL-pay endpoint returned an error: " +:+ m
  | Network m => "network error: " +:+ m
  end.
End LnurlError.

Record LightningAddress : Type := { la_local_part : string; la_domain : string }.

#[export] Instance LightningAddress_eq_dec : EqDecision LightningAddress.
Proof. solve_decision. Defined.

(** [str::split_once]. *)
Fixpoint split_once (c : ascii) (s : string) : option (string * string) :=
  match s with
  | EmptyString => None
  | String a s' =>
      if decide (a = c) then Some (EmptyString, s')
      else match split_once c s' with
           | Some (x, y) => Some (String a x, y)
           | None => None
           end
  end.

Definition contains_char (c : ascii) (s : string) : bool :=
  match split_once c s with Some _ => true | None => false end.

(** [s.split(c).next()]. *)
Definition split_first (c : ascii) (s : string) : string :=
  match split_once c s with Some (x, _) => x | None => s end.

Definition is_local_host (host : string) : bool :=
  String.eqb host "localhost" || String.eqb host "127.0.0.1" || String.eqb host "::1" ||
  ends_with ".localhost" host || ends_with ".local" host || ends_with ".test" host.

Definition is_local_domain (a : LightningAddress) : bool :=
  is_local_host (split_first ":"%char (la_domain a)).

Definition well_known_url (a : LightningAddress) : string :=
  (if is_local_domain a then "http" else "https") +:+ "://" +:+ la_domain a +:+
  "/.well-known/lnurlp/" +:+ la_local_part a.

Definition has_whitespace (s : string) : bool :=
  existsb (λ c, existsb (String.eqb c) white_space) (chars s).

Definition allowed_local_char (c : ascii) : bool :=
  let n := nat_of_ascii c in
  ((48 <=? n) && (n <=? 57) || (65 <=? n) && (n <=? 90) || (97 <=? n) && (n <=? 122) ||
   (n =? 46) || (n =? 45) || (n =? 95) || (n =? 43))%nat.

Fixpoint all_chars (p : ascii → bool) (s : string) : bool :=
  match s with
  | EmptyString => true
  | String c s' => p c && all_chars p s'
  end.

Definition parse_lightning_address (input : string) : result LightningAddress LnurlError.t :=
  let trimmed := trim input in
  if is_empty_str trimmed then Err (LnurlError.InvalidAddress "empty")
  else
    match split_once "@"%char trimmed with
    | None => Err (LnurlError.InvalidAddress "missing '@'")
    | Some (local, domain) =>
        if is_empty_str local || is_empty_str domain
        then Err (LnurlError.InvalidAddress "local-part or domain is empty")
        else if contains_char "@"%char local || contains_char "@"%char domain
        then Err (LnurlError.InvalidAddress "multiple '@'")
        else if negb (is_local_host (split_first ":"%char domain)) &&
                negb (contains_char "."%char domain)
        then Err (LnurlError.InvalidAddress "domain has no '.'")
        else if has_whitespace domain || has_whitespace local
        then Err (LnurlError.InvalidAddress "whitespace not allowed")
        else
          let local_norm := to_ascii_lowercase local in
          if negb (all_chars allowed_local_char local_norm)
          then Err (LnurlError.InvalidAddress "local-part contains disallowed character")
          else Ok {| la_local_part := local_norm; la_domain := to_ascii_lowercase domain |}
    end.

(** The text a profile stores. *)
Definition address_text (a : LightningAddress) : string :=
  la_local_part a +:+ "@" +:+ la_domain a.

(** ** LNURL-pay *)
Record LnurlPayMetadata : Type := {
  lm_callback : string;
  lm_max_sendable : Z;
  lm_min_sendable : Z;
  lm_metadata : string;
  lm_tag : string;
  lm_comment_allowed : Z
}.

(** [{:?}] of the tag is its debug text. *)
Definition metadata_validate (debug : string → string) (m : LnurlPayMetadata) :
    result () LnurlError.t :=
  if negb (String.eqb (lm_tag m) "payRequest")
  then Err (LnurlError.InvalidMetadata ("expected tag=payRequest, got " +:+ debug (lm_tag m)))
  else if (lm_min_sendable m =? 0) || (lm_max_sendable m <? lm_min_sendable m)
  then Err (LnurlError.InvalidMetadata ("incoherent sendable bounds: min=" +:+
         fmt_u32 (lm_min_sendable m) +:+ " max=" +:+ fmt_u32 (lm_max_sendable m)))
  else Ok ().

Definition MAX_BODY_BYTES : Z := 16384.

Record LnurlErrorPayload : Type := { le_status : string; le_reason : string }.

(** An HTTP response: its status and its body. *)
Record http_response : Type := { hr_success : bool; hr_status_text : string; hr_body : string }.

(** The HTTP client, the URL type and the JSON parser. *)
Class LnurlNet (N : Type) : Type := {
  http_get : string → st N (result http_response string);
  callback_url : string → list (string * string) → result string string;
  metadata_of_json : string → result LnurlPayMetadata string;
  error_of_json : string → option LnurlErrorPayload;
  invoice_of_json : string → result string string;
  debug_text : string → string
}.

Section lnurl.
Context {N : Type} `{LnurlNet N}.

Definition fetch_metadata (address : LightningAddress) :
    st N (result LnurlPayMetadata LnurlError.t) :=
  let url := well_known_url address in
  let! resp := http_get url in
  st_ret (match resp with
  | Err e => Err (LnurlError.Network e)
  | Ok r =>
      if negb (hr_success r)
      then Err (LnurlError.Remote ("metadata GET " +:+ url +:+ " returned HTTP " +:+
             hr_status_text r))
      else if MAX_BODY_BYTES <? Z.of_nat (String.length (hr_body r))
      then Err (LnurlError.InvalidMetadata ("metadata body too large (" +:+
             fmt_u32 (Z.of_nat (String.length (hr_body r))) +:+ " bytes)"))
      else match metadata_of_json (hr_body r) with
           | Err e => Err (LnurlError.InvalidMetadata e)
           | Ok m => match metadata_validate debug_text m with
                     | Err e => Err e
                     | Ok _ => Ok m
                     end
           end
  end).

(** The comment that is sent: none when the recipient takes none. *)
Definition comment_to_send (m : LnurlPayMetadata) (comment : option string) :
    result (option string) LnurlError.t :=
  match comment with
  | Some c =>
      if is_empty_str c then Ok None
      else if lm_comment_allowed m =? 0 then Ok None
      else if lm_comment_allowed m <? Z.of_nat (String.length c)
      then Err (LnurlError.CommentTooLong (Z.of_nat (String.length c)) (lm_comment_allowed m))
      else Ok (Some c)
  | None => Ok None
  end.

(** The body as an invoice. *)
Definition invoice_or_error (body : string) : result string LnurlError.t :=
  match invoice_of_json body with
  | Err e => Err (LnurlError.Remote ("invoice payload malformed: " +:+ e))
  | Ok pr =>
      if negb (starts_with "ln" pr)
      then Err (LnurlError.Remote ("invoice payload missing BOLT11: " +:+ pr))
      else Ok pr
  end.

Definition request_invoice_with_metadata (m : LnurlPayMetadata) (amount_msat : Z)
    (comment : option string) : st N (result string LnurlError.t) :=
  if (amount_msat <? lm_min_sendable m) || (lm_max_sendable m <? amount_msat)
  then st_ret (Err (LnurlError.AmountOutOfRange amount_msat (lm_min_sendable m)
                      (lm_max_sendable m)))
  else
    match comment_to_send m comment with
    | Err e => st_ret (Err e)
    | Ok c =>
        match callback_url (lm_callback m) (("amount", fmt_u32 amount_msat) ::
                match c with Some x => [("comment", x)] | None => [] end) with
        | Err e => st_ret (Err (LnurlError.InvalidMetadata ("bad callback URL: " +:+ e)))
        | Ok url =>
            let! resp := http_get url in
            st_ret (match resp with
            | Err e => Err (LnurlError.Network e)
            | Ok r =>
                if negb (hr_success r)
                then Err (LnurlError.Remote ("callback returned HTTP " +:+ hr_status_text r))
                else if MAX_BODY_BYTES <? Z.of_nat (String.length (hr_body r))
                then Err (LnurlError.Remote ("invoice body too large (" +:+
                       fmt_u32 (Z.of_nat (String.length (hr_body r))) +:+ " bytes)"))
                else
                  match error_of_json (hr_body r) with
                  | Some e =>
                      if eq_ignore_ascii_case (le_status e) "ERROR"
                      then Err (LnurlError.Remote (le_reason e))
                      else invoice_or_error (hr_body r)
                  | None => invoice_or_error (hr_body r)
                  end
            end)
        end
    end.

Definition request_invoice (address : string) (amount_msat : Z) (comment : option string) :
    st N (result string LnurlError.t) :=
  match parse_lightning_address address with
  | Err e => st_ret (Err e)
  | Ok parsed =>
      let? m := fetch_metadata parsed in
      request_invoice_with_metadata m amount_msat comment
  end.
End lnurl.

(** ** Providers *)
Module PaymentError.
Inductive t : Type :=
  | Unavailable (m : string)
  | InvalidRequest (m : string)
  | PaymentFailed (m : string)
  | WebhookInvalid (m : string)
  | NotFound (m : string)
  | Internal (m : string).

Definition to_string (e : t) : string :=
  match e with
  | Unavailable m => "Provider unavailable: " +:+ m
  | InvalidRequest m => "Invalid request: " +:+ m
  | PaymentFailed m => "Payment failed: " +:+ m
  | WebhookInvalid m => "Webhook verification failed: " +:+ m
  | NotFound m => "Not found: " +:+ m
  | Internal m => "Provider error: " +:+ m
  end.
End PaymentError.

Module CheckoutMode.
Inductive t : Type := Payment | Subscription.
End CheckoutMode.

Record CheckoutRequest : Type := {
  cq_mode : CheckoutMode.t;
  cq_amount_cents : option Z;
  cq_currency : string;
  cq_creator_account_id : string;
  cq_platform_fee_cents : option Z;
  cq_success_url : string;
  cq_cancel_url : string;
  cq_metadata : gmap string string;
  cq_price_id : option string
}.

Record CheckoutResponse : Type := { cs_session_id : string; cs_checkout_url : string }.

Record OnboardingRequest : Type := {
  oq_user_id : string; oq_return_url : string; oq_refresh_url : string
}.
Record OnboardingResponse : Type := { or_account_id : string; or_onboarding_url : string }.

Module WebhookEvent.
Inductive t : Type :=
  | CheckoutCompleted (session_id : string) (mode : CheckoutMode.t) (metadata : gmap string string)
  | AccountOnboarded (account_id : string) (charges_enabled : bool)
  | SubscriptionCreated (subscription_id customer_id : string) (metadata : gmap string string)
  | SubscriptionUpdated (subscription_id status : string)
  | SubscriptionCancelled (subscription_id : string)
  | PaymentFailed (subscription_id : option string) (reason : string)
  | Unknown (event_type : string).
End WebhookEvent.

(** The trait, over the state [N] of the services it reaches. *)
Record PaymentProvider (N : Type) : Type := {
  pp_name : string;
  pp_is_mock : bool;
  pp_create_connected_account :
    OnboardingRequest → st N (result OnboardingResponse PaymentError.t);
  pp_create_checkout : CheckoutRequest → st N (result CheckoutResponse PaymentError.t);
  pp_verify_webhook : string → string → st N (result WebhookEvent.t PaymentError.t)
}.
Arguments pp_name {N}.
Arguments pp_is_mock {N}.
Arguments pp_create_connected_account {N}.
Arguments pp_create_checkout {N}.
Arguments pp_verify_webhook {N}.

Module Registry.
Section registry.
Context {N : Type}.

Definition t : Type := gmap string (PaymentProvider N).

Definition register (p : PaymentProvider N) (r : t) : t := <[pp_name p := p]> r.

Definition get (r : t) (name : string) : option (PaymentProvider N) := r !! name.

Definition not_registered (provider : string) : PaymentError.t :=
  PaymentError.NotFound ("Provider '" +:+ provider +:+ "' not registered").

Definition create_checkout (r : t) (provider : string) (req : CheckoutRequest) :
    st N (result CheckoutResponse PaymentError.t) :=
  match r !! provider with
  | None => st_ret (Err (not_registered provider))
  | Some p => pp_create_checkout p req
  end.

Definition onboard (r : t) (provider : string) (req : OnboardingRequest) :
    st N (result OnboardingResponse PaymentError.t) :=
  match r !! provider with
  | None => st_ret (Err (not_registered provider))
  | Some p => pp_create_connected_account p req
  end.

Definition verify_webhook (r : t) (provider payload signature : string) :
    st N (result WebhookEvent.t PaymentError.t) :=
  match r !! provider with
  | None => st_ret (Err (not_registered provider))
  | Some p => pp_verify_webhook p payload signature
  end.
End registry.
End Registry.

(** ** LNBits *)
Record LNBitsWebhookPayload : Type := {
  lw_payment_hash : string;
  lw_payment_request : string;
  lw_amount : Z;
  lw_memo : string;
  lw_extra : gmap string json_value
}.

(** The wallet's HTTP interface and JSON. *)
Class LNBitsNet (N : Type) : Type := {
  ln_create_invoice : Z → string → gmap string string → st N (result (string * string) string);
  ln_check_payment : string → st N (result bool string);
  ln_payload_of_json : string → result LNBitsWebhookPayload string;
  json_text : json_value → string
}.

(** [trim_matches] of the double quote, character 34. *)
Fixpoint strip_quotes (s : string) : string :=
  match s with
  | String c s' => if decide (nat_of_ascii c = 34%nat) then strip_quotes s' else s
  | EmptyString => s
  end.
Definition trim_quotes (s : string) : string :=
  String.rev (strip_quotes (String.rev (strip_quotes s))).

Module LNBits.
Section provider.
Context {N : Type} `{LNBitsNet N}.

Fixpoint replace_any (set : list ascii) (s : string) : string :=
  match s with
  | EmptyString => EmptyString
  | String c s' => String (if bool_decide (c ∈ set) then "_"%char else c) (replace_any set s')
  end.

Definition create_connected_account (req : OnboardingRequest) :
    st N (result OnboardingResponse PaymentError.t) :=
  st_ret (Ok {| or_account_id := "ln_" +:+ replace_any ["@"; ":"; "."]%char (oq_user_id req);
                or_onboarding_url := "" |}).

Definition create_checkout (req : CheckoutRequest) :
    st N (result CheckoutResponse PaymentError.t) :=
  let amount_sats := default 0 (cq_amount_cents req) in
  if amount_sats <=? 0
  then st_ret (Err (PaymentError.InvalidRequest "Amount must be positive"))
  else
    let donor := default "" (cq_metadata req !! "donor_user_id") in
    let memo := "MatrixMedia donation: " +:+ fmt_i64 amount_sats +:+ " sats from " +:+ donor in
    let extra := <["amount_sats" := fmt_i64 amount_sats]>
                   (<["creator_account_id" := cq_creator_account_id req]> (cq_metadata req)) in
    let! r := ln_create_invoice amount_sats memo extra in
    st_ret (match r with
            | Err e => Err (PaymentError.PaymentFailed e)
            | Ok (hash, bolt11) => Ok {| cs_session_id := hash; cs_checkout_url := bolt11 |}
            end).

(** The metadata of the event is what the request body says. *)
Definition webhook_metadata (w : LNBitsWebhookPayload) : gmap string string :=
  <["provider" := "lightning"]> (<["amount_sats" := fmt_i64 (lw_amount w)]>
    (<["payment_hash" := lw_payment_hash w]> ((λ v, trim_quotes (json_text v)) <$> lw_extra w))).

Definition verify_webhook (payload signature : string) :
    st N (result WebhookEvent.t PaymentError.t) :=
  match ln_payload_of_json payload with
  | Err e => st_ret (Err (PaymentError.WebhookInvalid ("Invalid JSON: " +:+ e)))
  | Ok w =>
      let! r := ln_check_payment (lw_payment_hash w) in
      st_ret (match r with
      | Err e => Err (PaymentError.Internal e)
      | Ok paid =>
          if negb paid then Err (PaymentError.WebhookInvalid "Payment not settled")
          else Ok (WebhookEvent.CheckoutCompleted (lw_payment_hash w) CheckoutMode.Payment
                     (webhook_metadata w))
      end)
  end.

Definition provider : PaymentProvider N := {|
  pp_name := "lightning"; pp_is_mock := false;
  pp_create_connected_account := create_connected_account;
  pp_create_checkout := create_checkout; pp_verify_webhook := verify_webhook |}.
End provider.
End LNBits.

(** ** Amounts: lemmas *)

(** A share of a non-negative amount by a percentage between 0 and 1 is the exact share
    rounded down or up. *)
Lemma share_of_between x p :
  0 ≤ x < PREC - 1 → 0 ≤ p ≤ UNIT →
  x * p / UNIT ≤ share_of x (Fin p) ≤ x * p / UNIT + 1.
Proof.
  intros Hx Hp. pose proof UNIT_pos as HU. unfold share_of.
  rewrite f64_of_Z_small by lia. unfold f64_mul.
  pose proof (Z.div_mod (x * p) UNIT ltac:(lia)) as Hdm.
  pose proof (Z.mod_pos_bound (x * p) UNIT HU).
  assert (0 ≤ x * p / UNIT) by (apply Z.div_pos; nia).
  assert (x * p / UNIT ≤ x) by (apply Z.div_le_upper_bound; nia).
  apply round_quotient_between; [done|done|lia|nia].
Qed.

(** It is never more than the amount. *)
Lemma share_of_le x p : 0 ≤ x < PREC - 1 → 0 ≤ p ≤ UNIT → 0 ≤ share_of x (Fin p) ≤ x.
Proof.
  intros Hx Hp. pose proof UNIT_pos as HU.
  assert (Hlo : 0 ≤ share_of x (Fin p)).
  { pose proof (share_of_between x p Hx Hp).
    assert (0 ≤ x * p / UNIT) by (apply Z.div_pos; nia). lia. }
  split; [done|]. unfold share_of. rewrite f64_of_Z_small by lia. unfold f64_mul.
  assert (Hr : 0 ≤ rnd (x * UNIT * p) UNIT ≤ x * UNIT).
  { pose proof (rnd_exact x 1074 UNIT ltac:(lia) ltac:(lia) HU) as E. fold UNIT in E.
    split; [|rewrite <-E; apply rnd_mono; nia].
    unfold rnd. rewrite (proj2 (Z.ltb_ge _ _)) by nia. apply round_pos_nonneg; nia. }
  rewrite f64_make_fin by nia. rewrite f64_as_i64_round by nia.
  destruct (Z.eq_dec x 0) as [->|Hx0].
  { assert (rnd (0 * UNIT * p) UNIT = 0) as -> by lia.
    pose proof (round_half_away_int 0 ltac:(lia)) as E0. rewrite Z.mul_0_l in E0. lia. }
  assert (rnd (x * UNIT * p) UNIT ≤ x * UNIT) by lia.
  destruct (Z.le_gt_cases (rnd (x * UNIT * p) UNIT) ((x - 1) * UNIT)) as [Hc|Hc].
  - unfold round_half_away. rewrite Z.abs_eq by lia.
    assert ((2 * rnd (x * UNIT * p) UNIT + UNIT) / (2 * UNIT) ≤ x).
    { apply Z.lt_succ_r, Z.div_lt_upper_bound; nia. }
    assert (0 ≤ (2 * rnd (x * UNIT * p) UNIT + UNIT) / (2 * UNIT)) by (apply Z.div_pos; lia).
    pose proof (Z.sgn_spec (rnd (x * UNIT * p) UNIT)). lia.
  - pose proof (round_half_away_between (rnd (x * UNIT * p) UNIT) (x - 1)). lia.
Qed.

Lemma stripe_net_bounds amount :
  99 ≤ amount ≤ 1000000000000 →
  let fee := 30 + Z.quot (amount * 29) 1000 in
  i64_wrap (30 + Z.quot (i64_wrap (amount * 29)) 1000) = fee ∧ 30 ≤ fee < amount ∧
  0 ≤ amount - fee < PREC - 1.
Proof.
  intros Ha fee. rewrite (i64_wrap_id (amount * 29)) by (unfold is_i64, i64_min, i64_max; lia).
  rewrite PREC_val. unfold fee. rewrite Z.quot_div_nonneg by lia.
  assert (0 ≤ amount * 29 / 1000 < amount - 30).
  { split; [apply Z.div_pos; lia|]. apply Z.div_lt_upper_bound; lia. }
  rewrite i64_wrap_id by (unfold is_i64, i64_min, i64_max; lia). lia.
Qed.

(** The parts of a fee breakdown add up to what the donor pays, none of them is negative
    and the creator's share is what is left; the platform's share is the percentage of
    the net amount, rounded to a cent. *)
Theorem fees_add_up (amount p : Z) :
  99 ≤ amount ≤ 1000000000000 → 0 ≤ p ≤ UNIT →
  let f := calculate_fees amount (Fin p) in
  fb_gross_cents f = amount ∧
  fb_stripe_fee_cents f + fb_platform_fee_cents f + fb_creator_net_cents f = amount ∧
  30 ≤ fb_stripe_fee_cents f < amount ∧
  0 ≤ fb_platform_fee_cents f ∧ 0 ≤ fb_creator_net_cents f ∧
  (let net := amount - fb_stripe_fee_cents f in
   net * p / UNIT ≤ fb_platform_fee_cents f ≤ net * p / UNIT + 1).
Proof.
  intros Ha Hp. destruct (stripe_net_bounds amount Ha) as (Ef & Hfee & Hnet).
  unfold calculate_fees. rewrite Ef.
  set (fee := 30 + Z.quot (amount * 29) 1000) in *.
  rewrite PREC_val in Hnet.
  rewrite (i64_wrap_id (amount - fee)) by (unfold is_i64, i64_min, i64_max; lia).
  cbv zeta. cbn [fb_gross_cents fb_stripe_fee_cents fb_platform_fee_cents fb_creator_net_cents].
  pose proof (share_of_le (amount - fee) p ltac:(rewrite PREC_val; lia) Hp) as Hs.
  pose proof (share_of_between (amount - fee) p ltac:(rewrite PREC_val; lia) Hp) as Hb.
  rewrite i64_wrap_id by (unfold is_i64, i64_min, i64_max; lia).
  repeat split; lia.
Qed.

(** ** Lightning amounts: lemmas *)
Lemma mul_div_round a b c k :
  0 ≤ a < PREC → 0 ≤ b < PREC → 0 ≤ a * b < PREC → 0 < c < PREC → 0 ≤ k < PREC →
  a * b = k * c →
  f64_as_i64 (f64_round (f64_div (f64_mul (f64_of_Z a) (f64_of_Z b)) (f64_of_Z c))) = k.
Proof.
  intros Ha Hb Hab Hc Hk E. pose proof UNIT_pos as HU.
  rewrite !f64_of_Z_small by lia. unfold f64_mul.
  replace (a * UNIT * (b * UNIT)) with (a * b * UNIT * UNIT) by lia.
  pose proof (rnd_exact (a * b) 1074 UNIT Hab ltac:(lia) HU) as Er. fold UNIT in Er.
  rewrite Er, f64_make_fin by nia. unfold f64_div.
  rewrite (proj2 (Z.eqb_neq _ _)), (proj2 (Z.ltb_ge _ _)) by nia.
  apply round_quotient_int; [nia|done|]. rewrite E. lia.
Qed.

Lemma usd_cents_to_sats_exact cents :
  0 ≤ cents ≤ 1000000000000 → usd_cents_to_sats cents = 15 * cents.
Proof. intros. apply mul_div_round; rewrite ?PREC_val; lia. Qed.

(** A donation in cents survives the conversion to satoshis and back. *)
Theorem sats_round_trip (cents : Z) :
  0 ≤ cents ≤ 1000000000 → sats_to_usd_cents (usd_cents_to_sats cents) = cents.
Proof.
  intros. rewrite usd_cents_to_sats_exact by lia.
  apply mul_div_round; rewrite ?PREC_val; lia.
Qed.

Lemma lightning_fees_add_up (amount p : Z) :
  1 ≤ amount ≤ 1000000000000 → 0 ≤ p ≤ UNIT →
  let f := calculate_lightning_fees amount (Fin p) in
  lf_network_fee_sats f + lf_platform_fee_sats f + lf_creator_net_sats f = amount ∧
  1 ≤ lf_network_fee_sats f ∧ 0 ≤ lf_platform_fee_sats f ∧ 0 ≤ lf_creator_net_sats f.
Proof.
  intros Ha Hp. unfold calculate_lightning_fees. rewrite Z.quot_div_nonneg by lia.
  assert (0 ≤ amount / 1000 ≤ amount - 1 ∨ amount = 1 ∧ amount / 1000 = 0).
  { destruct (Z.eq_dec amount 1) as [->|]; [by right|left].
    split; [apply Z.div_pos; lia|]. apply Z.lt_succ_r. apply Z.div_lt_upper_bound; lia. }
  set (fee := Z.max 1 (amount / 1000)) in *.
  assert (1 ≤ fee ≤ amount) by lia.
  rewrite (i64_wrap_id (amount - fee)) by (unfold is_i64, i64_min, i64_max; lia).
  cbv zeta. cbn [lf_network_fee_sats lf_platform_fee_sats lf_creator_net_sats].
  pose proof (share_of_le (amount - fee) p ltac:(rewrite PREC_val; lia) Hp).
  rewrite i64_wrap_id by (unfold is_i64, i64_min, i64_max; lia). lia.
Qed.

(** A larger donation is shown at least as long. *)
Lemma pin_duration_mono a b :
  0 ≤ a ≤ b → dt_pin_duration_secs (tier_for_amount a) ≤ dt_pin_duration_secs (tier_for_amount b).
Proof.
  intros Hab. unfold tier_for_amount, between.
  repeat (case_match; try (simpl; lia)).
Qed.

(** ** Lightning Addresses: lemmas *)
Lemma split_once_Some c s a b :
  split_once c s = Some (a, b) ↔ s = a +:+ String c b ∧ contains_char c a = false.
Proof.
  unfold contains_char. revert a b. induction s as [|x s IH]; intros a b; simpl.
  - split; [done|]. intros [E _]. by destruct a.
  - case_decide as Hx.
    + subst x. split.
      * intros [= <- <-]. done.
      * intros [E Ha]. destruct a as [|y a]; [by injection E as ->|].
        injection E as <- _. simpl in Ha. by rewrite decide_True in Ha.
    + split.
      * destruct (split_once c s) as [[u v]|] eqn:E; [|done]. intros [= <- <-].
        destruct (proj1 (IH u v) eq_refl) as [-> Hu]. split; [done|]. simpl.
        rewrite decide_False by done. revert Hu. by destruct (split_once c u) as [[]|].
      * intros [E Ha]. destruct a as [|y a]; [by injection E as -> ->|].
        injection E as <- E. simpl in Ha. rewrite decide_False in Ha by done.
        assert (Hs : split_once c s = Some (a, b)).
        { apply IH. split; [done|]. revert Ha. by destruct (split_once c a) as [[]|]. }
        by rewrite Hs.
Qed.

Lemma contains_char_spec c s : contains_char c s = true ↔ has_char c s.
Proof.
  unfold contains_char, has_char. induction s as [|x s IH]; simpl; [set_solver|].
  rewrite elem_of_cons, <-IH. case_decide as Hx; [naive_solver|].
  destruct (split_once c s) as [[]|]; naive_solver.
Qed.

Lemma has_char_lower c s :
  is_lower c = false → has_char c (to_ascii_lowercase s) → has_char c s.
Proof.
  unfold has_char. intros Hc. induction s as [|x s IH]; simpl; [done|].
  rewrite !elem_of_cons. intros [E|E]; [left|right; auto].
  symmetry. by apply (ascii_lower_not_lower x c).
Qed.

Lemma lower_keeps_char c s :
  ascii_lower c = c → has_char c s → has_char c (to_ascii_lowercase s).
Proof.
  unfold has_char. intros Hc. induction s as [|x s IH]; simpl; [done|].
  rewrite !elem_of_cons. intros [->|E]; [by left|right; auto].
Qed.

Lemma has_whitespace_spec s : has_whitespace s = true ↔ ∃ w, w ∈ white_space ∧ w ∈ chars s.
Proof.
  unfold has_whitespace. rewrite existsb_exists. setoid_rewrite existsb_exists.
  setoid_rewrite String.eqb_eq. setoid_rewrite <-list_elem_of_In. naive_solver.
Qed.

Lemma has_whitespace_lower s :
  has_whitespace (to_ascii_lowercase s) = true → has_whitespace s = true.
Proof.
  rewrite !has_whitespace_spec, chars_lower. intros (w & Hw & Hin).
  apply list_elem_of_fmap in Hin as (x & E & Hx). exists w. split; [done|].
  symmetry in E. apply lowercase_no_lower in E; [|by apply white_space_no_lower]. by subst.
Qed.

(** Only a part of a host that contains a dot, or "localhost" itself, is local. *)
Lemma is_local_host_dot h :
  is_local_host h = true → h = "localhost" ∨ h = "::1" ∨ has_char "."%char h.
Proof.
  assert (Hend : ∀ suf, has_char "."%char suf → ends_with suf h = true → has_char "."%char h).
  { intros suf Hs He. unfold ends_with in He. apply starts_with_spec in He as [r Hr].
    apply (f_equal String.rev) in Hr.
    rewrite string_rev_involutive, string_rev_app, string_rev_involutive in Hr. subst h.
    rewrite has_char_app. by right. }
  unfold is_local_host. rewrite !orb_true_iff, !String.eqb_eq.
  intros [[[[[->| ->]| ->]|He]|He]|He]; auto; right; right;
    try (by eapply Hend; [|exact He]; unfold has_char; simpl; set_solver).
  unfold has_char. simpl. set_solver.
Qed.

Lemma all_chars_has p s c : all_chars p s = true → has_char c s → p c = true.
Proof.
  unfold has_char. induction s as [|x s IH]; simpl; [set_solver|].
  rewrite andb_true_iff, elem_of_cons. intros [Hx Hs] [->|Hc]; auto.
Qed.

Lemma white_space_not_allowed w c r :
  w ∈ white_space → w = String c r → allowed_local_char c = false.
Proof.
  intros Hw ->. assert (H : Forall (λ w, match w with
    | String c _ => allowed_local_char c | EmptyString => true end = false) white_space).
  { apply (bool_decide_eq_true_1 _). vm_compute. reflexivity. }
  rewrite Forall_forall in H. by apply (H (String c r)).
Qed.

Lemma white_space_no_at w : w ∈ white_space → ¬ has_char "@"%char w.
Proof.
  intros Hw. assert (H : Forall (λ w, contains_char "@"%char w = false) white_space).
  { apply (bool_decide_eq_true_1 _). vm_compute. reflexivity. }
  rewrite Forall_forall in H. specialize (H w Hw). rewrite <-contains_char_spec. congruence.
Qed.

(** What a parsed address looks like. *)
Record address_ok (a : LightningAddress) : Prop := {
  ao_local : la_local_part a ≠ "" ∧ all_chars allowed_local_char (la_local_part a) = true;
  ao_domain : la_domain a ≠ "" ∧ ¬ has_char "@"%char (la_domain a);
  ao_host : is_local_host (split_first ":"%char (la_domain a)) = true ∨
            has_char "."%char (la_domain a);
  ao_space : has_whitespace (la_domain a) = false ∧ has_whitespace (la_local_part a) = false;
  ao_lower : to_ascii_lowercase (la_local_part a) = la_local_part a ∧
             to_ascii_lowercase (la_domain a) = la_domain a
}.

Lemma split_first_has c d s : has_char c (split_first d s) → has_char c s.
Proof.
  unfold split_first. destruct (split_once d s) as [[x y]|] eqn:E; [|done].
  apply split_once_Some in E as [-> _]. rewrite has_char_app. by left.
Qed.

Lemma lower_local_host d :
  is_local_host (split_first ":"%char d) = true ∨ has_char "."%char d →
  is_local_host (split_first ":"%char (to_ascii_lowercase d)) = true ∨
  has_char "."%char (to_ascii_lowercase d).
Proof.
  intros [Hl|Hd]; [|right; by apply lower_keeps_char].
  apply is_local_host_dot in Hl as [Hl|[Hl|Hl]].
  - left. unfold split_first in *. destruct (split_once ":"%char d) as [[x y]|] eqn:E.
    + apply split_once_Some in E as [-> _]. subst x.
      rewrite lowercase_app. reflexivity.
    + subst d. reflexivity.
  - exfalso. unfold split_first in Hl. destruct (split_once ":"%char d) as [[x y]|] eqn:E.
    + apply split_once_Some in E as [_ Hx]. subst x. done.
    + by subst d.
  - right. apply lower_keeps_char; [done|]. by eapply split_first_has.
Qed.

Lemma is_empty_str_spec s : is_empty_str s = false ↔ s ≠ "".
Proof. by destruct s. Qed.

Lemma parse_lightning_address_ok input a :
  parse_lightning_address input = Ok a → address_ok a.
Proof.
  unfold parse_lightning_address. destruct (is_empty_str (trim input)); [done|].
  destruct (split_once _ _) as [[l d]|]; [|done].
  destruct (is_empty_str l) eqn:El; [done|]. destruct (is_empty_str d) eqn:Ed; [done|].
  cbn [orb]. destruct (contains_char "@"%char l); [done|]. cbn [orb].
  destruct (contains_char "@"%char d) eqn:Ea; [done|].
  destruct (_ && _) eqn:Eh; [done|].
  destruct (has_whitespace d) eqn:Ewd; [done|]. cbn [orb].
  destruct (has_whitespace l) eqn:Ewl; [done|].
  destruct (all_chars _ _) eqn:Eall; [|done]. intros [= <-].
  assert (Hnl : ∀ s, s ≠ "" → to_ascii_lowercase s ≠ "") by (by intros []).
  assert (Hws : ∀ s, has_whitespace s = false → has_whitespace (to_ascii_lowercase s) = false).
  { intros s Hs. apply not_true_is_false. intros H. apply has_whitespace_lower in H. congruence. }
  split; simpl.
  - split; [by apply Hnl, is_empty_str_spec|done].
  - split; [by apply Hnl, is_empty_str_spec|]. intros Hc.
    apply has_char_lower in Hc; [|done]. apply contains_char_spec in Hc. congruence.
  - apply lower_local_host. apply andb_false_iff in Eh as [Eh|Eh]; apply negb_false_iff in Eh;
      [by left|right]. by apply contains_char_spec.
  - auto.
  - by rewrite !lowercase_idem.
Qed.

(** The end of an address is the end of its domain. *)
Lemma address_suffix a w r :
  address_ok a → w ∈ white_space → address_text a ≠ r +:+ w.
Proof.
  intros Ha Hw E. unfold address_text in E.
  assert (Hsuf : ∀ l d, d ≠ "" → ¬ has_char "@"%char w → l +:+ "@" +:+ d = r +:+ w →
    ∃ d', d = d' +:+ w).
  { clear. intros l d Hd Hn. revert r. induction l as [|c l IH]; intros [|x r] E.
    - exfalso. apply Hn. change (EmptyString +:+ w) with w in E. rewrite <-E.
      unfold has_char. simpl. left.
    - injection E as _ E. by exists r.
    - exfalso. apply Hn. change (EmptyString +:+ w) with w in E. rewrite <-E.
      rewrite has_char_app. right. unfold has_char. simpl. left.
    - injection E as _ E. by apply (IH r). }
  destruct (Hsuf _ _ (proj1 (ao_domain a Ha)) (white_space_no_at w Hw) E) as [d' Hd].
  destruct (ao_space a Ha) as [Hs _]. apply not_true_iff_false in Hs. apply Hs.
  apply has_whitespace_spec. exists w. split; [done|]. rewrite Hd.
  by apply chars_suffix, white_space_one_char.
Qed.

(** A stored Lightning Address parses back to itself: the text that the profile keeps
    for an accepted address is its normal form. *)
Theorem stored_address_round_trip (input : string) (a : LightningAddress) :
  parse_lightning_address input = Ok a → parse_lightning_address (address_text a) = Ok a.
Proof.
  intros E. apply parse_lightning_address_ok in E as Ha.
  destruct (ao_local a Ha) as [Hl Hall], (ao_domain a Ha) as [Hd Hat],
    (ao_space a Ha) as [Hsd Hsl], (ao_lower a Ha) as [Hll Hld].
  unfold parse_lightning_address. rewrite trim_none.
  2: { intros w r Hw E'. unfold address_text in E'.
       destruct (la_local_part a) as [|c l]; [done|]. destruct w as [|c' w]; [by apply white_space_one_char in Hw|].
       injection E' as <- _. pose proof (white_space_not_allowed _ c w Hw eq_refl).
       simpl in Hall. apply andb_true_iff in Hall as [? _]. congruence. }
  2: { intros w r Hw. by apply address_suffix. }
  assert (is_empty_str (address_text a) = false) as ->.
  { apply is_empty_str_spec. unfold address_text. by destruct (la_local_part a). }
  assert (Hnl : contains_char "@"%char (la_local_part a) = false).
  { apply not_true_is_false. rewrite contains_char_spec. intros H.
    by apply (all_chars_has _ _ _ Hall) in H. }
  assert (split_once "@"%char (address_text a) = Some (la_local_part a, la_domain a)) as ->
    by (by apply split_once_Some).
  rewrite (proj2 (is_empty_str_spec _) Hl), (proj2 (is_empty_str_spec _) Hd), Hnl. cbn [orb].
  assert (contains_char "@"%char (la_domain a) = false) as ->.
  { apply not_true_is_false. by rewrite contains_char_spec. }
  assert (negb (is_local_host (split_first ":"%char (la_domain a))) &&
          negb (contains_char "."%char (la_domain a)) = false) as ->.
  { apply andb_false_iff. rewrite !negb_false_iff, contains_char_spec. apply (ao_host a Ha). }
  rewrite Hsd, Hsl, Hll, Hall, Hld. cbn [orb negb]. by destruct a.
Qed.

Lemma stored_address_round_trip_witness :
  parse_lightning_address " Alice@Getalby.COM " =
    Ok {| la_local_part := "alice"; la_domain := "getalby.com" |} ∧
  parse_lightning_address (address_text {| la_local_part := "alice"; la_domain := "getalby.com" |})
    = Ok {| la_local_part := "alice"; la_domain := "getalby.com" |}.
Proof.
  assert (E : parse_lightning_address " Alice@Getalby.COM " =
    Ok {| la_local_part := "alice"; la_domain := "getalby.com" |}) by (vm_compute; reflexivity).
  split; [exact E|]. exact (stored_address_round_trip _ _ E).
Defined.

(** Five dollars with a platform fee of 10%. *)
Lemma fees_add_up_witness :
  let f := calculate_fees 500 (Fin (rnd UNIT 10)) in
  fb_stripe_fee_cents f + fb_platform_fee_cents f + fb_creator_net_cents f = 500 ∧
  fb_creator_net_cents f = 410.
Proof.
  assert (Hp : 0 ≤ rnd UNIT 10 ≤ UNIT) by (split; apply Z.leb_le; vm_compute; reflexivity).
  destruct (fees_add_up 500 (rnd UNIT 10) ltac:(lia) Hp) as (_ & Hsum & _).
  split; [exact Hsum|]. vm_compute. reflexivity.
Defined.

Lemma sats_round_trip_witness :
  usd_cents_to_sats 500 = 7500 ∧ sats_to_usd_cents (usd_cents_to_sats 500) = 500.
Proof. split; [vm_compute; reflexivity|]. apply (sats_round_trip 500). lia. Defined.

(** ** Preimages *)

(** The codec writes lower-case digits and is injective. *)
Class Bolt11Laws (ops : Bolt11Ops) : Prop := {
  hex_lower b : to_ascii_lowercase (hex_encode ops b) = hex_encode ops b;
  hex_inj :: Inj (=) (=) (hex_encode ops)
}.

(** An accepted preimage of an invoice hashes to the invoice's payment hash. *)
Lemma preimage_hashes_to_invoice ops `{!Bolt11Laws ops} bolt11 preimage h :
  extract_payment_hash ops bolt11 = Ok h → verify_preimage ops preimage h = Ok () →
  ∃ bytes, hex_decode ops (trim preimage) = Some bytes ∧ String.length bytes = 32%nat ∧
    invoice_payment_hash ops (trim bolt11) = Ok (sha256 ops bytes).
Proof.
  unfold extract_payment_hash, verify_preimage.
  destruct (invoice_payment_hash ops (trim bolt11)) as [x|]; [|done]. intros [= <-].
  destruct (hex_decode ops (trim preimage)) as [b|]; [|done].
  destruct (Nat.eqb_spec (String.length b) 32); [|done]. cbn [negb].
  destruct (eq_ignore_ascii_case _ _) eqn:E; [|done]. intros _.
  unfold eq_ignore_ascii_case in E. rewrite !hex_lower in E. apply String.eqb_eq in E.
  apply (inj (hex_encode ops)) in E. subst x. eauto.
Qed.
