(* ===== verification/Guards.v ===== *)
(** * Guards: the monetization settings, their validation and the handlers' guards

    [MonetizationConfig] with its validation in [mm-core/src/config.rs] and the guard
    functions of [mm-api/src/guards.rs]. *)
From S2P Require Import Prelude F64 ApiSchema Schema Errors.
Local Open Scope Z_scope.

Record MonetizationConfig : Type := {
  mc_enabled : bool;
  mc_donations_enabled : bool;
  mc_subscriptions_enabled : bool;
  mc_min_donation_cents : Z;
  mc_max_donation_cents : Z;
  mc_platform_fee_pct : f64;
  mc_postgres_url : string;
  mc_stripe_secret_key : string;
  mc_stripe_publishable_key : string;
  mc_webhook_signing_secret : string;
  mc_stripe_api_base : string;
  mc_redis_url : string;
  mc_lnbits_enabled : bool;
  mc_lnbits_url : string;
  mc_lnbits_invoice_key : string;
  mc_lnbits_admin_key : string;
  mc_demo_mode : bool
}.

Definition default_stripe_api_base : string := "https://api.stripe.com/".

Definition default_config : MonetizationConfig := {|
  mc_enabled := false; mc_donations_enabled := false; mc_subscriptions_enabled := false;
  mc_min_donation_cents := 100; mc_max_donation_cents := 10000;
  mc_platform_fee_pct := f64_of_ratio 1 10; mc_postgres_url := "";
  mc_stripe_secret_key := ""; mc_stripe_publishable_key := "";
  mc_webhook_signing_secret := ""; mc_stripe_api_base := default_stripe_api_base;
  mc_redis_url := ""; mc_lnbits_enabled := false; mc_lnbits_url := "";
  mc_lnbits_invoice_key := ""; mc_lnbits_admin_key := ""; mc_demo_mode := false
|}.

Record BuildPolicy : Type := { bp_release_build : bool; bp_allow_mock : bool }.

Definition MOCK_STRIPE_KEY_PREFIX : string := "sk_test_mock".

Definition is_live_stripe_key (key : string) : bool :=
  negb (starts_with "sk_test_" key || starts_with "rk_test_" key).

(** The parts of a parsed URL the check reads. *)
Record Url : Type := {
  url_scheme : string;
  url_host : option string;
  url_port_or_known_default : option Z;
  url_username : string;
  url_password : option string
}.

Section config.
(** The URL parser is library code. *)
Variable url_parse : string → option Url.

Definition is_real_stripe_api_base (base : string) : bool :=
  match url_parse base with
  | Some u =>
      String.eqb (url_scheme u) "https" &&
      bool_decide (url_host u = Some "api.stripe.com") &&
      bool_decide (url_port_or_known_default u = Some 443) &&
      is_empty_str (url_username u) &&
      match url_password u with None => true | Some _ => false end
  | None => false
  end.

Definition validate (c : MonetizationConfig) : result () string :=
  if negb (mc_enabled c) then Ok ()
  else if is_empty_str (mc_postgres_url c)
  then Err "MM_POSTGRES_URL required when monetization enabled"
  else if is_empty_str (mc_stripe_secret_key c)
  then Err "MM_STRIPE_SECRET_KEY required when monetization enabled"
  else if is_empty_str (mc_webhook_signing_secret c)
  then Err "MM_STRIPE_WEBHOOK_SECRET required when monetization enabled"
  else if f64_lt (mc_platform_fee_pct c) (f64_of_Z 0) ||
          f64_lt (f64_of_ratio 1 2) (mc_platform_fee_pct c)
  then Err "platform_fee_pct must be 0.0-0.50"
  else if mc_min_donation_cents c <? 100 then Err "min_donation_cents must be >= 100"
  else if mc_max_donation_cents c <? mc_min_donation_cents c
  then Err "max_donation_cents must be >= min_donation_cents"
  else if is_live_stripe_key (mc_stripe_secret_key c) && mc_demo_mode c
  then Err "MM_DEMO_MODE must be false when a live Stripe key (not sk_test_/rk_test_) is configured"
  else if is_live_stripe_key (mc_stripe_secret_key c) &&
          negb (is_real_stripe_api_base (mc_stripe_api_base c))
  then Err "MM_STRIPE_API_BASE must be https://api.stripe.com when a live Stripe key (not sk_test_/rk_test_) is configured"
  else Ok ().

Definition validate_for (c : MonetizationConfig) (policy : BuildPolicy) : result () string :=
  match validate c with
  | Err e => Err e
  | Ok _ =>
      if mc_enabled c && bp_release_build policy && negb (bp_allow_mock policy) &&
         starts_with MOCK_STRIPE_KEY_PREFIX (mc_stripe_secret_key c)
      then Err "a mock Stripe key (sk_test_mock…) is not allowed in a release build; set MM_ALLOW_MOCK=true to override"
      else Ok ()
  end.

(** What an accepted configuration guarantees. *)
Record config_ok (c : MonetizationConfig) (policy : BuildPolicy) : Prop := {
  co_fee : f64_lt (mc_platform_fee_pct c) (f64_of_Z 0) ||
           f64_lt (f64_of_ratio 1 2) (mc_platform_fee_pct c) = false;
  co_bounds : 100 ≤ mc_min_donation_cents c ≤ mc_max_donation_cents c;
  co_live : is_live_stripe_key (mc_stripe_secret_key c) = true →
    mc_demo_mode c = false ∧ is_real_stripe_api_base (mc_stripe_api_base c) = true;
  co_mock : bp_release_build policy = true → bp_allow_mock policy = false →
    starts_with MOCK_STRIPE_KEY_PREFIX (mc_stripe_secret_key c) = false
}.

Lemma validate_for_ok c policy :
  mc_enabled c = true → validate_for c policy = Ok () → config_ok c policy.
Proof.
  intros He. unfold validate_for, validate. rewrite He. cbn [negb andb].
  destruct (is_empty_str (mc_postgres_url c)); [discriminate|].
  destruct (is_empty_str (mc_stripe_secret_key c)); [discriminate|].
  destruct (is_empty_str (mc_webhook_signing_secret c)); [discriminate|].
  destruct (_ || _) eqn:Hfee; [discriminate|].
  destruct (Z.ltb_spec (mc_min_donation_cents c) 100); [discriminate|].
  destruct (Z.ltb_spec (mc_max_donation_cents c) (mc_min_donation_cents c)); [discriminate|].
  intros Hv. split; [exact Hfee|lia|..].
  - intros Hl. rewrite Hl in Hv. cbn [andb] in Hv.
    destruct (mc_demo_mode c); [discriminate|]. split; [reflexivity|].
    by destruct (is_real_stripe_api_base _).
  - intros Hr Ha. rewrite Hr, Ha in Hv.
    destruct (is_live_stripe_key _ && mc_demo_mode c); [discriminate|].
    destruct (is_live_stripe_key _ && _); [discriminate|].
    by destruct (starts_with MOCK_STRIPE_KEY_PREFIX _).
Qed.
End config.

(** ** Guards *)

(** A check that may end the handler, then the rest. *)
Definition guard {S A B E} (g : result A E) (k : st S (result B E)) : st S (result B E) :=
  match g with Err e => st_ret (Err e) | Ok _ => k end.

(** [.ok_or_else(..)?] *)
Definition or_fail {S A B E} (o : option A) (e : E) (k : A → st S (result B E)) :
    st S (result B E) :=
  match o with Some a => k a | None => st_ret (Err e) end.

Lemma st_rel_guard {S A B E} (R : S → S → Prop) `{!PreOrder R} (g : result A E)
    (k : st S (result B E)) :
  (∀ a, g = Ok a → st_rel R k) → st_rel R (guard g k).
Proof. intros Hk. destruct g; [by eapply Hk|]. by apply st_rel_ret. Qed.

Lemma st_rel_or_fail {S A B E} (R : S → S → Prop) `{!PreOrder R} (o : option A) (e : E)
    (k : A → st S (result B E)) :
  (∀ a, o = Some a → st_rel R (k a)) → st_rel R (or_fail o e k).
Proof. intros Hk. destruct o; [by eapply Hk|]. by apply st_rel_ret. Qed.

(** The optional parts of the shared state the guards look at. *)
Record ApiState : Type := {
  as_config : MonetizationConfig;
  as_has_pg_pool : bool;
  as_has_entitlement : bool;
  as_has_registry : bool;
  as_public_url : option string
}.

Definition require_monetization (s : ApiState) : result () MMError.t :=
  if negb (mc_enabled (as_config s))
  then Err (MMError.api ErrorCode.MonetizationDisabled "Monetization is not enabled")
  else Ok ().

Definition require_donations (s : ApiState) : result () MMError.t :=
  match require_monetization s with
  | Err e => Err e
  | Ok _ =>
      if negb (mc_donations_enabled (as_config s))
      then Err (MMError.api ErrorCode.MonetizationDisabled "Donations are not enabled")
      else Ok ()
  end.

Definition require_subscriptions (s : ApiState) : result () MMError.t :=
  match require_monetization s with
  | Err e => Err e
  | Ok _ =>
      if negb (mc_subscriptions_enabled (as_config s))
      then Err (MMError.api ErrorCode.SubscriptionsDisabled "Subscriptions are not enabled")
      else Ok ()
  end.

Definition pg_pool (s : ApiState) : result () MMError.t :=
  if as_has_pg_pool s then Ok () else Err (MMError.Internal "PG pool not initialized").

Definition entitlement_service (s : ApiState) : result () MMError.t :=
  if as_has_entitlement s then Ok ()
  else Err (MMError.Internal "Entitlement service not initialized").

Definition payment_registry (s : ApiState) : result () MMError.t :=
  if as_has_registry s then Ok ()
  else Err (MMError.Internal "Payment registry not initialized").
