(* ===== verification/MoneyDb.v ===== *)
(** * MoneyDb: the statements on the money tables

    The monetization part of [impl Database for PgDatabase] in [mm-db/src/postgres.rs]
    and the enumerations of [mm-db/src/models.rs] it uses. A statement carries the CHECK,
    UNIQUE and FOREIGN KEY constraints and the trigger of the migrations; decoding the
    rows it answers is the caller's work, after the statement took effect. *)
From S2P Require Import Prelude F64 ApiSchema Schema Errors Text.
Local Open Scope Z_scope.
Local Open Scope mm_scope.

Module DonationStatus.
Inductive t : Type := Pending | Succeeded | Failed | Refunded.

Definition as_str (s : t) : string :=
  match s with
  | Pending => "pending" | Succeeded => "succeeded" | Failed => "failed"
  | Refunded => "refunded"
  end.

Definition from_str (s : string) : t :=
  if String.eqb s "pending" then Pending
  else if String.eqb s "succeeded" then Succeeded
  else if String.eqb s "failed" then Failed
  else if String.eqb s "refunded" then Refunded
  else Failed.

Lemma donation_status_round_trip s : from_str (as_str s) = s.
Proof. by destruct s. Qed.
End DonationStatus.

Module SubscriptionStatus.
Inductive t : Type := Active | Incomplete | PastDue | Cancelled | Expired.

Definition as_str (s : t) : string :=
  match s with
  | Active => "active" | Incomplete => "incomplete" | PastDue => "past_due"
  | Cancelled => "cancelled" | Expired => "expired"
  end.

Definition from_str (s : string) : t :=
  if String.eqb s "active" then Active
  else if String.eqb s "incomplete" then Incomplete
  else if String.eqb s "past_due" then PastDue
  else if String.eqb s "cancelled" then Cancelled
  else if String.eqb s "expired" then Expired
  else Expired.

Lemma subscription_status_round_trip s : from_str (as_str s) = s.
Proof. by destruct s. Qed.
End SubscriptionStatus.

(** A statement on the money tables alone. *)
Definition on_api {A} (f : DateTime → ApiTables → result (A * ApiTables) db_error) : stmt A :=
  λ now t, match f now (t_api t) with
           | Ok (a, api) => Ok (a, set_api api t)
           | Err e => Err e
           end.

Definition asking {A} (s : stmt A) : st Db (result A MMError.t) :=
  let! r := exec s in st_ret (map_err db_err r).

Definition asking_tx {A} (s : stmt A) : st Db (result A MMError.t) :=
  let! r := exec_tx s in st_ret (map_err db_err r).

(** The NUMERIC column read as float8. *)
Definition platform_fee_pct (p : ProfileRec) : f64 :=
  f64_of_ratio (cp_platform_fee_e4 p) 10000.

(** ** Streams and rooms *)
Definition get_stream (id : string) : st Db (result (option StreamRec) MMError.t) :=
  asking (reading (λ t, t_streams t !! id)).
Definition get_room (id : Z) : st Db (result (option RoomRec) MMError.t) :=
  asking (reading (λ t, a_rooms (t_api t) !! id)).

(** ** Creator profiles *)
Definition get_creator_profile (user_id : string) :
    st Db (result (option ProfileRec) MMError.t) :=
  asking (reading (λ t, a_profiles (t_api t) !! user_id)).

(** [to_numeric] is PostgreSQL's cast of a float8 to NUMERIC(5,4), in
    ten-thousandths. *)
Definition insert_profile (to_numeric : f64 → result Z db_error) (user_id display_name : string)
    (fee : f64) : stmt ProfileRec := on_api (λ now a,
  match to_numeric fee with
  | Err e => Err e
  | Ok e4 =>
      let '(id, a) := take_uuid a in
      match a_profiles a !! user_id with
      | Some p =>
          let p' := {| cp_id := cp_id p; cp_display_name := display_name;
            cp_stripe_account_id := cp_stripe_account_id p;
            cp_onboarding_complete := cp_onboarding_complete p;
            cp_platform_fee_e4 := cp_platform_fee_e4 p;
            cp_lightning_address := cp_lightning_address p;
            cp_created_at := cp_created_at p; cp_updated_at := cp_updated_at p |} in
          Ok (p', set_profiles (<[user_id := p']> (a_profiles a)) a)
      | None =>
          if bool_decide (map_Exists (λ _ p, cp_id p = id) (a_profiles a))
          then Err (violates "mm_creator_profiles_pkey")
          else
            let p' := {| cp_id := id; cp_display_name := display_name;
              cp_stripe_account_id := None; cp_onboarding_complete := false;
              cp_platform_fee_e4 := e4; cp_lightning_address := None;
              cp_created_at := now; cp_updated_at := now |} in
            Ok (p', set_profiles (<[user_id := p']> (a_profiles a)) a)
      end
  end).

Definition create_creator_profile (to_numeric : f64 → result Z db_error)
    (user_id display_name : string) (fee : f64) : st Db (result ProfileRec MMError.t) :=
  asking (insert_profile to_numeric user_id display_name fee).

Definition with_stripe_account (id : string) (now : DateTime) (p : ProfileRec) : ProfileRec := {|
  cp_id := cp_id p; cp_display_name := cp_display_name p; cp_stripe_account_id := Some id;
  cp_onboarding_complete := cp_onboarding_complete p;
  cp_platform_fee_e4 := cp_platform_fee_e4 p;
  cp_lightning_address := cp_lightning_address p;
  cp_created_at := cp_created_at p; cp_updated_at := now |}.

Definition set_creator_stripe_account (user_id stripe_account_id : string) :
    st Db (result () MMError.t) :=
  asking (on_api (λ now a,
    Ok ((), set_profiles (alter (with_stripe_account stripe_account_id now) user_id
              (a_profiles a)) a))).

Definition with_onboarding (complete : bool) (now : DateTime) (p : ProfileRec) : ProfileRec := {|
  cp_id := cp_id p; cp_display_name := cp_display_name p;
  cp_stripe_account_id := cp_stripe_account_id p; cp_onboarding_complete := complete;
  cp_platform_fee_e4 := cp_platform_fee_e4 p;
  cp_lightning_address := cp_lightning_address p;
  cp_created_at := cp_created_at p; cp_updated_at := now |}.

Definition set_creator_onboarding_complete (stripe_account_id : string) (complete : bool) :
    st Db (result () MMError.t) :=
  asking (on_api (λ now a,
    Ok ((), set_profiles ((λ p,
      if bool_decide (cp_stripe_account_id p = Some stripe_account_id)
      then with_onboarding complete now p else p) <$> a_profiles a) a))).

Definition with_lightning (addr : option string) (now : DateTime) (p : ProfileRec) :
    ProfileRec := {|
  cp_id := cp_id p; cp_display_name := cp_display_name p;
  cp_stripe_account_id := cp_stripe_account_id p;
  cp_onboarding_complete := cp_onboarding_complete p;
  cp_platform_fee_e4 := cp_platform_fee_e4 p; cp_lightning_address := addr;
  cp_created_at := cp_created_at p; cp_updated_at := now |}.

Definition set_creator_lightning_address (user_id : string) (addr : option string) :
    st Db (result (option ProfileRec) MMError.t) :=
  asking (on_api (λ now a,
    let m := alter (with_lightning addr now) user_id (a_profiles a) in
    Ok (m !! user_id, set_profiles m a))).

(** ** Donations *)

(** The columns the struct [Donation] reads by name; none has a default. *)
Definition donation_fields : list string :=
  ["id"; "stream_id"; "donor_user_id"; "recipient_user_id"; "amount_cents"; "currency";
   "message"; "tier"; "pin_duration_secs"; "stripe_session_id";
   "stripe_payment_intent_id"; "status"; "idempotency_key"; "created_at"; "bolt11";
   "payment_hash"].

(** The select list of get_donation, update_donation_status and get_donation_feed. *)
Definition donation_select : list string :=
  ["id"; "stream_id"; "donor_user_id"; "recipient_user_id"; "amount_cents"; "currency";
   "message"; "tier"; "pin_duration_secs"; "stripe_session_id";
   "stripe_payment_intent_id"; "status"; "idempotency_key"; "created_at"].

(** [FromRow]: a field whose column the row does not have is ColumnNotFound. *)
Definition decode_row {A} (fields selected : list string) (row : A) : result A db_error :=
  match List.find (λ f, negb (existsb (String.eqb f) selected)) fields with
  | Some f => Err {| dbe_message := "no column found for name: " +:+ f; dbe_constraint := None |}
  | None => Ok row
  end.

Definition decode_donation : DonationRec → result DonationRec db_error :=
  decode_row donation_fields donation_select.

Fixpoint decode_all (l : list DonationRec) : result (list DonationRec) db_error :=
  match l with
  | [] => Ok []
  | d :: l' =>
      match decode_donation d, decode_all l' with
      | Ok d', Ok r => Ok (d' :: r)
      | Err e, _ => Err e
      | _, Err e => Err e
      end
  end.

Definition decode_optional (l : list DonationRec) : result (option DonationRec) db_error :=
  match l with
  | [] => Ok None
  | d :: _ => match decode_donation d with Ok d' => Ok (Some d') | Err e => Err e end
  end.

Definition donation_statuses : list string := ["pending"; "succeeded"; "failed"; "refunded"].

Definition mem (s : string) (l : list string) : bool := existsb (String.eqb s) l.

(** The CHECK and UNIQUE constraints of mm_donations. *)
Definition donation_check (l : list DonationRec) (d : DonationRec) : result () db_error :=
  if negb (100 <=? dn_amount_cents d) then Err (violates "mm_donations_amount_cents_check")
  else if negb (dn_amount_cents d <=? 100000) then Err (violates "chk_donation_max")
  else if match dn_message d with Some m => 150 <? char_count m | None => false end
  then Err (violates "mm_donations_message_check")
  else if negb (mem (dn_status d) donation_statuses)
  then Err (violates "mm_donations_status_check")
  else if existsb (λ x, String.eqb (dn_id x) (dn_id d)) l then Err (violates "mm_donations_pkey")
  else if existsb (λ x, String.eqb (dn_idempotency_key x) (dn_idempotency_key d)) l
  then Err (violates "mm_donations_idempotency_key_key")
  else Ok ().

(** The INSERT leaves the payment intent and the provider's id NULL and takes the
    server's clock. *)
Definition inserted_donation (now : DateTime) (d : DonationRec) : DonationRec := {|
  dn_id := dn_id d; dn_stream_id := dn_stream_id d; dn_donor_user_id := dn_donor_user_id d;
  dn_recipient_user_id := dn_recipient_user_id d; dn_amount_cents := dn_amount_cents d;
  dn_currency := dn_currency d; dn_message := dn_message d; dn_tier := dn_tier d;
  dn_pin_duration_secs := dn_pin_duration_secs d;
  dn_stripe_session_id := dn_stripe_session_id d; dn_stripe_payment_intent_id := None;
  dn_status := dn_status d; dn_idempotency_key := dn_idempotency_key d;
  dn_created_at := now; dn_provider_payment_id := None; dn_bolt11 := dn_bolt11 d;
  dn_payment_hash := dn_payment_hash d |}.

Definition insert_donation (d : DonationRec) : stmt () := on_api (λ now a,
  match donation_check (a_donations a) d with
  | Err e => Err e
  | Ok _ => Ok ((), set_donations (a_donations a ++ [inserted_donation now d]) a)
  end).

Definition db_create_donation (d : DonationRec) : st Db (result () MMError.t) :=
  asking (insert_donation d).

Definition get_donation (donation_id : Uuid) : st Db (result (option DonationRec) MMError.t) :=
  let! r := exec (reading (λ t,
    List.filter (λ d, String.eqb (dn_id d) donation_id) (a_donations (t_api t)))) in
  st_ret (map_err db_err (match r with Err e => Err e | Ok l => decode_optional l end)).

Definition with_status (status : string) (intent : option string) (d : DonationRec) :
    DonationRec := {|
  dn_id := dn_id d; dn_stream_id := dn_stream_id d; dn_donor_user_id := dn_donor_user_id d;
  dn_recipient_user_id := dn_recipient_user_id d; dn_amount_cents := dn_amount_cents d;
  dn_currency := dn_currency d; dn_message := dn_message d; dn_tier := dn_tier d;
  dn_pin_duration_secs := dn_pin_duration_secs d;
  dn_stripe_session_id := dn_stripe_session_id d;
  dn_stripe_payment_intent_id :=
    match intent with Some i => Some i | None => dn_stripe_payment_intent_id d end;
  dn_status := status; dn_idempotency_key := dn_idempotency_key d;
  dn_created_at := dn_created_at d; dn_provider_payment_id := dn_provider_payment_id d;
  dn_bolt11 := dn_bolt11 d; dn_payment_hash := dn_payment_hash d |}.

Definition of_session (session : string) (d : DonationRec) : bool :=
  bool_decide (dn_stripe_session_id d = Some session).

(** UPDATE ... RETURNING: every row of the session is updated and returned. *)
Definition update_status (session status : string) (intent : option string) :
    stmt (list DonationRec) := on_api (λ _ a,
  let l := (λ d, if of_session session d then with_status status intent d else d)
             <$> a_donations a in
  Ok (List.filter (of_session session) l, set_donations l a)).

Definition update_donation_status (session : string) (status : DonationStatus.t)
    (intent : option string) : st Db (result (option DonationRec) MMError.t) :=
  let! r := exec (update_status session (DonationStatus.as_str status) intent) in
  st_ret (map_err db_err (match r with Err e => Err e | Ok l => decode_optional l end)).

Definition db_get_donation_feed (stream_id : string) (lim : Z) (after : option DateTime) :
    st Db (result (list DonationRec) MMError.t) :=
  let! r := exec (reading (λ t, limit lim (order_desc dn_created_at
    (List.filter (λ d, String.eqb (dn_stream_id d) stream_id &&
                       String.eqb (dn_status d) "succeeded" &&
                       match after with Some ts => ts <? dn_created_at d | None => true end)
       (a_donations (t_api t)))))) in
  st_ret (map_err db_err (match r with Err e => Err e | Ok l => decode_all l end)).

(** ** The webhook log *)

(** INSERT ... ON CONFLICT DO NOTHING: whether a row was inserted. *)
Definition log_event (event_id event_type : string) : stmt bool := on_api (λ _ a,
  match a_webhook_log a !! event_id with
  | Some _ => Ok (false, a)
  | None => Ok (true, set_webhook_log (<[event_id := event_type]> (a_webhook_log a)) a)
  end).

(** The advisory lock serialises the callers; statements of one caller are already in
    order here. *)
Definition record_webhook_event (event_id event_type : string) :
    st Db (result bool MMError.t) :=
  in_tx db_err (
    let? _ := asking_tx nothing in
    let? inserted := asking_tx (log_event event_id event_type) in
    st_ret (Ok inserted)).

(** ** Subscription tiers *)

(** [COALESCE(room_id, '')]. *)
Definition scope (room : option string) : string := default EmptyString room.

(** V009's trigger: the active tiers of the creator, in any room. *)
Definition active_tiers_of (creator : option string) (l : list TierRec) : Z :=
  Z.of_nat (length (List.filter (λ x,
    match creator, st_creator_user_id x with
    | Some c, Some c' => String.eqb c c' && st_is_active x
    | _, _ => false
    end) l)).

(** V025: one tier per (creator, room, level), and per (room, level) for the
    platform's own. *)
Definition same_slot (x y : TierRec) : bool :=
  bool_decide (st_creator_user_id x = st_creator_user_id y) &&
  String.eqb (scope (st_room_id x)) (scope (st_room_id y)) &&
  (st_tier_level x =? st_tier_level y).

Definition tier_unique_name (x : TierRec) : string :=
  match st_creator_user_id x with
  | Some _ => "mm_subscription_tiers_creator_room_level_key"
  | None => "uq_subscription_tiers_platform_room_level"
  end.

Definition tier_check (l : list TierRec) (x : TierRec) : result () db_error :=
  if 5 <=? active_tiers_of (st_creator_user_id x) l
  then Err (refused "Maximum 5 active tiers per creator")
  else if negb (((st_tier_level x =? 0) && (st_price_cents x =? 0)) ||
                ((99 <=? st_price_cents x) && (st_price_cents x <=? 4999)))
  then Err (violates "mm_subscription_tiers_price_cents_check")
  else if negb ((0 <=? st_tier_level x) && (st_tier_level x <=? 5))
  then Err (violates "mm_subscription_tiers_tier_level_check")
  else if existsb (λ y, String.eqb (st_id y) (st_id x)) l
  then Err (violates "mm_subscription_tiers_pkey")
  else if existsb (same_slot x) l then Err (violates (tier_unique_name x))
  else Ok ().

Definition insert_tier (creator : string) (room : option string) (name : string)
    (price level : Z) (description : option string) (perks : json_value)
    (badge : option string) (permissions : json_value) : stmt TierRec := on_api (λ now a,
  let '(id, a) := take_uuid a in
  let x := {| st_id := id; st_creator_user_id := Some creator; st_room_id := room;
    st_name := name; st_description := description; st_price_cents := price;
    st_currency := "usd"; st_tier_level := level; st_perks_json := perks;
    st_badge_url := badge; st_is_active := true; st_stripe_price_id := None;
    st_permissions := permissions; st_created_at := now; st_updated_at := now |} in
  match tier_check (a_tiers a) x with
  | Err e => Err e
  | Ok _ => Ok (x, set_tiers (a_tiers a ++ [x]) a)
  end).

Definition create_subscription_tier (creator : string) (room : option string) (level : Z)
    (name : string) (price : Z) (perks : option json_value) (description badge : option string) :
    st Db (result TierRec MMError.t) :=
  asking (insert_tier creator room name price level description
            (default (JArr []) perks) badge (JObj [])).

Definition db_create_tier (creator name : string) (price level : Z)
    (description : option string) (perks : option json_value) (badge : option string) :
    st Db (result TierRec MMError.t) :=
  asking (insert_tier creator None name price level description
            (default (JArr []) perks) badge (JObj [])).

Definition tiers_where (p : TierRec → bool) (t : Tables) : list TierRec :=
  List.filter p (a_tiers (t_api t)).

Definition get_tier (id : Uuid) : st Db (result (option TierRec) MMError.t) :=
  asking (reading (λ t, head (tiers_where (λ x, String.eqb (st_id x) id) t))).

Definition of_creator (creator : string) (x : TierRec) : bool :=
  bool_decide (st_creator_user_id x = Some creator).
Definition of_room (room : option string) (x : TierRec) : bool :=
  bool_decide (st_room_id x = room).

Definition get_creator_tiers (creator : string) : st Db (result (list TierRec) MMError.t) :=
  asking (reading (λ t, order_asc st_tier_level (tiers_where (of_creator creator) t))).

Definition room_ladder (creator : string) (room : option string) (t : Tables) : list TierRec :=
  order_asc st_tier_level
    (tiers_where (λ x, of_creator creator x && of_room room x && st_is_active x) t).

Definition list_tiers_for_room (creator : string) (room : option string) :
    st Db (result (list TierRec) MMError.t) :=
  let? has_room_specific := asking (reading (λ t,
    existsb (λ x, of_creator creator x && of_room room x &&
                  match st_room_id x with Some _ => true | None => false end &&
                  st_is_active x) (a_tiers (t_api t)))) in
  if has_room_specific then asking (reading (room_ladder creator room))
  else asking (reading (room_ladder creator None)).

Definition delete_tier_row (id : Uuid) : stmt () := on_api (λ _ a,
  if existsb (λ x, String.eqb (st_id x) id) (a_tiers a) &&
     existsb (λ s, String.eqb (sb_tier_id s) id) (a_subscriptions a)
  then Err (violates "mm_subscriptions_tier_id_fkey")
  else Ok ((), set_tiers (List.filter (λ x, negb (String.eqb (st_id x) id)) (a_tiers a)) a)).

Definition delete_subscription_tier (id : Uuid) : st Db (result () MMError.t) :=
  asking (delete_tier_row id).

(** The JSON of [TierPermissions::spectator_default()]. *)
Definition spectator_blob : json_value :=
  JObj [("can_read", JBool true); ("can_send", JBool false); ("can_react", JBool false);
        ("can_comment", JBool false); ("can_watch_recordings", JBool false);
        ("can_join_live", JBool false); ("can_tip", JBool true);
        ("can_manage_room", JBool false)].

(** INSERT ... SELECT ... WHERE NOT EXISTS. *)
Definition insert_spectator (creator room : string) : stmt () := λ now t,
  if existsb (λ x, of_creator creator x && String.eqb (scope (st_room_id x)) room &&
                   (st_tier_level x =? 0)) (a_tiers (t_api t))
  then Ok ((), t)
  else match insert_tier creator (Some room) "Spectator" 0 0 None (JArr []) None
               spectator_blob now t with
       | Ok (_, t') => Ok ((), t')
       | Err e => Err e
       end.

(** SQLSTATE 23505. *)
Definition is_unique_violation (e : db_error) : bool :=
  match dbe_constraint e with
  | Some n => mem n ["mm_subscription_tiers_creator_room_level_key";
      "uq_subscription_tiers_platform_room_level"; "mm_subscription_tiers_pkey"]
  | None => false
  end.

Definition ensure_spectator_tier (creator room : string) : st Db (result () MMError.t) :=
  let! r := exec (insert_spectator creator room) in
  st_ret (match r with
          | Ok _ => Ok ()
          | Err e => if is_unique_violation e then Ok () else Err (db_err e)
          end).

Definition with_tier_fields (name : string) (description : option string) (perks : json_value)
    (permissions : json_value) (now : DateTime) (x : TierRec) : TierRec := {|
  st_id := st_id x; st_creator_user_id := st_creator_user_id x; st_room_id := st_room_id x;
  st_name := name; st_description := description; st_price_cents := st_price_cents x;
  st_currency := st_currency x; st_tier_level := st_tier_level x; st_perks_json := perks;
  st_badge_url := st_badge_url x; st_is_active := st_is_active x;
  st_stripe_price_id := st_stripe_price_id x; st_permissions := permissions;
  st_created_at := st_created_at x; st_updated_at := now |}.

Definition update_tiers (id : Uuid) (f : TierRec → TierRec) (a : ApiTables) : ApiTables :=
  set_tiers ((λ x, if String.eqb (st_id x) id then f x else x) <$> a_tiers a) a.

Definition db_update_tier (id : Uuid) (name description : option string)
    (perks : option json_value) : st Db (result () MMError.t) :=
  asking (on_api (λ now a, Ok ((), update_tiers id (λ x,
    with_tier_fields (default (st_name x) name)
      (match description with Some d => Some d | None => st_description x end)
      (default (st_perks_json x) perks) (st_permissions x) now x) a))).

Definition inactive_tier (now : DateTime) (x : TierRec) : TierRec := {|
  st_id := st_id x; st_creator_user_id := st_creator_user_id x; st_room_id := st_room_id x;
  st_name := st_name x; st_description := st_description x;
  st_price_cents := st_price_cents x; st_currency := st_currency x;
  st_tier_level := st_tier_level x; st_perks_json := st_perks_json x;
  st_badge_url := st_badge_url x; st_is_active := false;
  st_stripe_price_id := st_stripe_price_id x; st_permissions := st_permissions x;
  st_created_at := st_created_at x; st_updated_at := now |}.

Definition deactivate_stmt (id : Uuid) : stmt () :=
  on_api (λ now a, Ok ((), update_tiers id (inactive_tier now) a)).

Definition deactivate_tier (id : Uuid) : st Db (result () MMError.t) :=
  asking (deactivate_stmt id).

(** ** Subscriptions *)
Definition subscription_statuses : list string :=
  ["active"; "incomplete"; "past_due"; "cancelled"; "expired"].

(** V025: one subscription per (subscriber, creator, room). *)
Definition same_scope (x y : SubRec) : bool :=
  String.eqb (sb_subscriber_user_id x) (sb_subscriber_user_id y) &&
  String.eqb (sb_creator_user_id x) (sb_creator_user_id y) &&
  String.eqb (scope (sb_room_id x)) (scope (sb_room_id y)).

Definition sub_check (a : ApiTables) (x : SubRec) : result () db_error :=
  if negb (mem (sb_status x) subscription_statuses)
  then Err (violates "mm_subscriptions_status_check")
  else if existsb (λ y, String.eqb (sb_id y) (sb_id x)) (a_subscriptions a)
  then Err (violates "mm_subscriptions_pkey")
  else if existsb (same_scope x) (a_subscriptions a)
  then Err (violates "mm_subscriptions_subscriber_creator_room_key")
  else if negb (existsb (λ y, String.eqb (st_id y) (sb_tier_id x)) (a_tiers a))
  then Err (violates "mm_subscriptions_tier_id_fkey")
  else Ok ().

Definition insert_subscription (x : SubRec) : stmt () := on_api (λ _ a,
  match sub_check a x with
  | Err e => Err e
  | Ok _ => Ok ((), set_subscriptions (a_subscriptions a ++ [x]) a)
  end).

(** No two rows share a scope. *)
Fixpoint scopes_distinct (l : list SubRec) : bool :=
  match l with
  | [] => true
  | x :: l' => negb (existsb (same_scope x) l') && scopes_distinct l'
  end.

(** UPDATE of the rows that satisfy [p]; the unique index refuses a result in which
    two rows share a scope. The updated rows are returned. *)
Definition update_subscriptions (p : SubRec → bool) (f : SubRec → SubRec) (a : ApiTables) :
    result (list SubRec * ApiTables) db_error :=
  let l := (λ x, if p x then f x else x) <$> a_subscriptions a in
  if scopes_distinct l
  then Ok (f <$> List.filter p (a_subscriptions a), set_subscriptions l a)
  else Err (violates "mm_subscriptions_subscriber_creator_room_key").

Definition activated (new_id : string) (period_end : DateTime) (room : option string)
    (now : DateTime) (x : SubRec) : SubRec := {|
  sb_id := sb_id x; sb_subscriber_user_id := sb_subscriber_user_id x;
  sb_creator_user_id := sb_creator_user_id x;
  sb_room_id := match sb_room_id x with Some r => Some r | None => room end;
  sb_tier_id := sb_tier_id x; sb_status := "active";
  sb_stripe_subscription_id := Some new_id; sb_current_period_end := period_end;
  sb_cancelled_at := sb_cancelled_at x; sb_created_at := sb_created_at x;
  sb_updated_at := now |}.

Definition cancelled (now : DateTime) (x : SubRec) : SubRec := {|
  sb_id := sb_id x; sb_subscriber_user_id := sb_subscriber_user_id x;
  sb_creator_user_id := sb_creator_user_id x; sb_room_id := sb_room_id x;
  sb_tier_id := sb_tier_id x; sb_status := "cancelled";
  sb_stripe_subscription_id := sb_stripe_subscription_id x;
  sb_current_period_end := sb_current_period_end x; sb_cancelled_at := Some now;
  sb_created_at := sb_created_at x; sb_updated_at := now |}.

Definition with_sub_status (status : string) (now : DateTime) (x : SubRec) : SubRec := {|
  sb_id := sb_id x; sb_subscriber_user_id := sb_subscriber_user_id x;
  sb_creator_user_id := sb_creator_user_id x; sb_room_id := sb_room_id x;
  sb_tier_id := sb_tier_id x; sb_status := status;
  sb_stripe_subscription_id := sb_stripe_subscription_id x;
  sb_current_period_end := sb_current_period_end x; sb_cancelled_at := sb_cancelled_at x;
  sb_created_at := sb_created_at x; sb_updated_at := now |}.

Definition cancel_stmt (id : Uuid) : stmt (list SubRec) := on_api (λ now a,
  update_subscriptions (λ x, String.eqb (sb_id x) id) (cancelled now) a).

Definition db_cancel_subscription (id : Uuid) : st Db (result () MMError.t) :=
  let? _ := asking (cancel_stmt id) in st_ret (Ok ()).

Definition update_subscription_status (id : Uuid) (status : SubscriptionStatus.t) :
    st Db (result () MMError.t) :=
  let? _ := asking (on_api (λ now a, update_subscriptions (λ x, String.eqb (sb_id x) id)
    (with_sub_status (SubscriptionStatus.as_str status) now) a)) in st_ret (Ok ()).

Definition get_subscription (subscriber creator : string) :
    st Db (result (option SubRec) MMError.t) :=
  asking (reading (λ t, head (List.filter (λ x,
    String.eqb (sb_subscriber_user_id x) subscriber &&
    String.eqb (sb_creator_user_id x) creator) (a_subscriptions (t_api t))))).

Definition get_user_subscriptions (subscriber : string) :
    st Db (result (list SubRec) MMError.t) :=
  asking (reading (λ t, limit 200 (order_desc sb_created_at (List.filter (λ x,
    String.eqb (sb_subscriber_user_id x) subscriber) (a_subscriptions (t_api t)))))).

(** ** Content gates *)
Definition gate_check (content_type : string) (min_tier : Z) : result () db_error :=
  if negb (mem content_type ["stream"; "recording"])
  then Err (violates "mm_content_gates_content_type_check")
  else if negb ((1 <=? min_tier) && (min_tier <=? 5))
  then Err (violates "mm_content_gates_min_tier_level_check")
  else Ok ().

Definition upsert_gate (content_type content_id creator : string) (min_tier preview : Z) :
    stmt GateRec := on_api (λ now a,
  match gate_check content_type min_tier with
  | Err e => Err e
  | Ok _ =>
      let '(id, a) := take_uuid a in
      let g := match a_gates a !! (content_type, content_id) with
        | Some g => {| cg_id := cg_id g; cg_creator_user_id := cg_creator_user_id g;
            cg_min_tier_level := min_tier; cg_preview_seconds := preview;
            cg_created_at := cg_created_at g |}
        | None => {| cg_id := id; cg_creator_user_id := creator;
            cg_min_tier_level := min_tier; cg_preview_seconds := preview;
            cg_created_at := now |}
        end in
      Ok (g, set_gates (<[(content_type, content_id) := g]> (a_gates a)) a)
  end).

Definition create_content_gate (content_type content_id creator : string)
    (min_tier preview : Z) : st Db (result GateRec MMError.t) :=
  asking (upsert_gate content_type content_id creator min_tier preview).

Definition db_get_content_gate (content_type content_id : string) :
    st Db (result (option GateRec) MMError.t) :=
  asking (reading (λ t, a_gates (t_api t) !! (content_type, content_id))).

Definition delete_content_gate (content_type content_id : string) :
    st Db (result () MMError.t) :=
  asking (on_api (λ _ a, Ok ((), set_gates (delete (content_type, content_id) (a_gates a)) a))).

(** ** Lemmas *)

(** [asking] under a relation on the tables. *)
Lemma st_rel_asking {A} (R : Tables → Tables → Prop) `{!PreOrder R} (s : stmt A) :
  stmt_rel R s → st_rel (on_tables R) (asking s).
Proof.
  intros Hs. unfold asking. apply st_rel_bind; [apply _|by apply st_rel_exec|].
  intros r. apply st_rel_ret. apply _.
Qed.

Lemma stmt_rel_on_api {A} (R : Tables → Tables → Prop)
    (f : DateTime → ApiTables → result (A * ApiTables) db_error) :
  (∀ now t a api, f now (t_api t) = Ok (a, api) → R t (set_api api t)) →
  stmt_rel R (on_api f).
Proof.
  intros H now t a t' E. unfold on_api in E.
  destruct (f now (t_api t)) as [[x api]|] eqn:Ef; [|done].
  injection E as <- <-. by apply (H now t x).
Qed.

Lemma asking_ok {A} (s : stmt A) db a :
  (asking s db).1 = Ok a →
  ∃ now, s now (db_tables db) = Ok (a, db_tables (asking s db).2).
Proof.
  unfold asking, st_bind. pose proof (exec_ok s db) as H.
  destruct (exec s db) as [[x|e] db']; simpl in *; [|done].
  intros [= ->]. by apply H.
Qed.

(** A read leaves the tables as they are. *)
Lemma asking_reading_tables {A} (f : Tables → A) db :
  db_tables (asking (reading f) db).2 = db_tables db.
Proof.
  unfold asking, st_bind. pose proof (exec_reading_tables f db) as H.
  by destruct (exec (reading f) db).
Qed.

Lemma asking_reading_ok {A} (f : Tables → A) db a :
  (asking (reading f) db).1 = Ok a → a = f (db_tables db).
Proof.
  intros H. pose proof (asking_reading_tables f db) as Ht.
  apply asking_ok in H as [now H]. unfold reading in H. by injection H as <-.
Qed.

(** Every read of a donation row fails: the struct has fields the select lists omit. *)
Lemma decode_donation_fails d :
  decode_donation d =
    Err {| dbe_message := "no column found for name: bolt11"; dbe_constraint := None |}.
Proof. reflexivity. Qed.

Lemma decode_optional_cons d l : ∃ e, decode_optional (d :: l) = Err e.
Proof. by eexists. Qed.

Lemma decode_all_ok l r : decode_all l = Ok r → l = [] ∧ r = [].
Proof. destruct l as [|d l]; [by intros [= <-]|]. by destruct (decode_all l). Qed.

Lemma mem_spec s l : mem s l = true ↔ s ∈ l.
Proof.
  unfold mem. rewrite existsb_exists. setoid_rewrite String.eqb_eq.
  setoid_rewrite <-list_elem_of_In. naive_solver.
Qed.

Lemma scopes_distinct_spec l :
  scopes_distinct l = true ↔
  ∀ i j x y, l !! i = Some x → l !! j = Some y → same_scope x y = true → i = j.
Proof.
  induction l as [|a l IH]; simpl; [split; [done|]; by intros|].
  rewrite andb_true_iff, negb_true_iff, IH. clear IH. split.
  - intros [Ha Hl] i j x y Hi Hj Hs.
    assert (Hno : ∀ z, z ∈ l → same_scope a z = false).
    { intros z Hz. destruct (same_scope a z) eqn:E; [|done].
      rewrite <-Ha. symmetry. apply existsb_exists. exists z.
      by rewrite <-list_elem_of_In. }
    assert (Hsym : same_scope y x = true).
    { revert Hs. unfold same_scope. rewrite !andb_true_iff, !String.eqb_eq. naive_solver. }
    destruct i as [|i], j as [|j]; simplify_eq/=; [done| | |].
    + apply list_elem_of_lookup_2 in Hj. by rewrite (Hno _ Hj) in Hs.
    + apply list_elem_of_lookup_2 in Hi. by rewrite (Hno _ Hi) in Hsym.
    + f_equal. by eapply Hl.
  - intros H. split.
    + apply not_true_is_false. rewrite existsb_exists. intros (z & Hz & Hs).
      apply list_elem_of_In, list_elem_of_lookup in Hz as [k Hk].
      by specialize (H 0%nat (S k) a z eq_refl Hk Hs).
    + intros i j x y Hi Hj Hs. by specialize (H (S i) (S j) x y Hi Hj Hs) as [= ->].
Qed.

Lemma existsb_absent {A} (f : A → string) (x : string) (l : list A) :
  existsb (λ y, String.eqb (f y) x) l = false → x ∉ f <$> l.
Proof.
  intros Hf [y [-> Hy]]%list_elem_of_fmap. apply not_true_iff_false in Hf. apply Hf.
  apply existsb_exists. exists y. rewrite String.eqb_refl. by rewrite <-list_elem_of_In.
Qed.

Lemma donation_check_ok l d : donation_check l d = Ok () →
  100 ≤ dn_amount_cents d ≤ 100000 ∧ (∀ m, dn_message d = Some m → char_count m ≤ 150) ∧
  dn_id d ∉ dn_id <$> l.
Proof.
  unfold donation_check.
  destruct (Z.leb_spec 100 (dn_amount_cents d)); [|done].
  destruct (Z.leb_spec (dn_amount_cents d) 100000); [|done]. cbn [negb].
  destruct (match dn_message d with Some m => _ | None => _ end) eqn:Em; [done|].
  destruct (negb _); [done|].
  destruct (existsb (λ x, String.eqb (dn_id x) (dn_id d)) l) eqn:Ei; [done|].
  intros _. split; [done|]. split; [|by apply existsb_absent].
  intros m Hm. rewrite Hm in Em. apply Z.ltb_ge in Em. lia.
Qed.

Lemma donation_check_amount l d : donation_check l d = Ok () → 100 ≤ dn_amount_cents d ≤ 100000.
Proof. by intros [? _]%donation_check_ok. Qed.

#[export] Hint Resolve st_rel_asking stmt_rel_reading : mm.
