(* ===== verification/StreamsDb.v ===== *)
(** * StreamsDb: rooms, streams, participants and recordings

    The statements of [mm-db/src/postgres.rs] on mm_rooms, mm_streams, mm_participants,
    mm_recordings and mm_e2ee_key_history. A stream is its id with its row. *)
From S2P Require Import Prelude ApiSchema Schema Errors MoneyDb.
Local Open Scope Z_scope.
Local Open Scope mm_scope.

Definition Stream : Type := string * StreamRec.

Inductive ParticipantRole : Type := Host | Viewer.
Definition role_str (r : ParticipantRole) : string :=
  match r with Host => "host" | Viewer => "viewer" end.

Inductive StreamStatus : Type := Active | Ended.
Definition status_str (s : StreamStatus) : string :=
  match s with Active => "active" | Ended => "ended" end.

Module RecordingStatus.
Inductive t : Type := Recording | Processing | Ready | Failed | Deleted.
Definition as_str (s : t) : string :=
  match s with
  | Recording => "recording" | Processing => "processing" | Ready => "ready"
  | Failed => "failed" | Deleted => "deleted"
  end.
Definition from_str (s : string) : t :=
  if String.eqb s "recording" then Recording
  else if String.eqb s "processing" then Processing
  else if String.eqb s "ready" then Ready
  else if String.eqb s "failed" then Failed
  else if String.eqb s "deleted" then Deleted
  else Failed.
Lemma recording_status_round_trip s : from_str (as_str s) = s.
Proof. by destruct s. Qed.
End RecordingStatus.

(** ** Updating one column *)
Definition with_stream_status (status : string) (ended : option DateTime) (s : StreamRec) :
    StreamRec := {|
  sr_host_user_id := sr_host_user_id s; sr_status := status; sr_started_at := sr_started_at s;
  sr_room_id := sr_room_id s; sr_min_tier_level := sr_min_tier_level s;
  sr_media_type := sr_media_type s; sr_title := sr_title s; sr_sfu_room_id := sr_sfu_room_id s;
  sr_participant_count := sr_participant_count s; sr_ended_at := ended;
  sr_state_event_id := sr_state_event_id s;
  sr_feed_started_event_id := sr_feed_started_event_id s;
  sr_ended_event_id := sr_ended_event_id s; sr_marker_generation := sr_marker_generation s;
  sr_e2ee := sr_e2ee s; sr_e2ee_algorithm := sr_e2ee_algorithm s;
  sr_e2ee_key_id := sr_e2ee_key_id s; sr_e2ee_key_generation := sr_e2ee_key_generation s;
  sr_e2ee_key_b64 := sr_e2ee_key_b64 s |}.

(** The columns of the marker and of the feed event. *)
Definition with_marker (state_event feed_started ended_event : option string) (generation : Z)
    (s : StreamRec) : StreamRec := {|
  sr_host_user_id := sr_host_user_id s; sr_status := sr_status s;
  sr_started_at := sr_started_at s; sr_room_id := sr_room_id s;
  sr_min_tier_level := sr_min_tier_level s; sr_media_type := sr_media_type s;
  sr_title := sr_title s; sr_sfu_room_id := sr_sfu_room_id s;
  sr_participant_count := sr_participant_count s; sr_ended_at := sr_ended_at s;
  sr_state_event_id := state_event; sr_feed_started_event_id := feed_started;
  sr_ended_event_id := ended_event; sr_marker_generation := generation;
  sr_e2ee := sr_e2ee s; sr_e2ee_algorithm := sr_e2ee_algorithm s;
  sr_e2ee_key_id := sr_e2ee_key_id s; sr_e2ee_key_generation := sr_e2ee_key_generation s;
  sr_e2ee_key_b64 := sr_e2ee_key_b64 s |}.

Definition with_count (n : Z) (s : StreamRec) : StreamRec := {|
  sr_host_user_id := sr_host_user_id s; sr_status := sr_status s;
  sr_started_at := sr_started_at s; sr_room_id := sr_room_id s;
  sr_min_tier_level := sr_min_tier_level s; sr_media_type := sr_media_type s;
  sr_title := sr_title s; sr_sfu_room_id := sr_sfu_room_id s;
  sr_participant_count := n; sr_ended_at := sr_ended_at s;
  sr_state_event_id := sr_state_event_id s;
  sr_feed_started_event_id := sr_feed_started_event_id s;
  sr_ended_event_id := sr_ended_event_id s; sr_marker_generation := sr_marker_generation s;
  sr_e2ee := sr_e2ee s; sr_e2ee_algorithm := sr_e2ee_algorithm s;
  sr_e2ee_key_id := sr_e2ee_key_id s; sr_e2ee_key_generation := sr_e2ee_key_generation s;
  sr_e2ee_key_b64 := sr_e2ee_key_b64 s |}.

Definition with_key (key_id : string) (generation : Z) (key_b64 algorithm : string)
    (s : StreamRec) : StreamRec := {|
  sr_host_user_id := sr_host_user_id s; sr_status := sr_status s;
  sr_started_at := sr_started_at s; sr_room_id := sr_room_id s;
  sr_min_tier_level := sr_min_tier_level s; sr_media_type := sr_media_type s;
  sr_title := sr_title s; sr_sfu_room_id := sr_sfu_room_id s;
  sr_participant_count := sr_participant_count s; sr_ended_at := sr_ended_at s;
  sr_state_event_id := sr_state_event_id s;
  sr_feed_started_event_id := sr_feed_started_event_id s;
  sr_ended_event_id := sr_ended_event_id s; sr_marker_generation := sr_marker_generation s;
  sr_e2ee := true; sr_e2ee_algorithm := Some algorithm; sr_e2ee_key_id := Some key_id;
  sr_e2ee_key_generation := Some generation; sr_e2ee_key_b64 := Some key_b64 |}.

(** UPDATE mm_streams SET ... WHERE id = $n [AND p]: whether a row was updated. *)
Definition update_stream (id : string) (p : StreamRec → bool) (f : DateTime → StreamRec → StreamRec) :
    stmt bool := λ now t,
  match t_streams t !! id with
  | Some s => if p s then Ok (true, set_streams (<[id := f now s]> (t_streams t)) t)
              else Ok (false, t)
  | None => Ok (false, t)
  end.

Definition always_row (s : StreamRec) : bool := true.

Definition run_update (s : stmt bool) : st Db (result () MMError.t) :=
  let? _ := asking s in st_ret (Ok ()).

(** ** Rooms *)
Definition find_room (matrix_room_id : string) (t : Tables) : option (Z * RoomRec) :=
  head (List.filter (λ kv : Z * RoomRec, String.eqb (rm_matrix_room_id kv.2) matrix_room_id)
          (map_to_list (a_rooms (t_api t)))).

Definition media_of (t : Tables) : MediaTables := a_media (t_api t).

Definition set_recordings (l : list RecordingRec) (m : MediaTables) : MediaTables := {|
  m_recordings := l; m_participants := m_participants m; m_keys := m_keys m;
  m_hosts := m_hosts m; m_room_seq := m_room_seq m;
  m_defaults := m_defaults m |}.
Definition set_participants (l : list ParticipantRec) (m : MediaTables) : MediaTables := {|
  m_recordings := m_recordings m; m_participants := l; m_keys := m_keys m;
  m_hosts := m_hosts m; m_room_seq := m_room_seq m;
  m_defaults := m_defaults m |}.
Definition set_keys (k : gmap (string * Z) KeyRec) (m : MediaTables) : MediaTables := {|
  m_recordings := m_recordings m; m_participants := m_participants m; m_keys := k;
  m_hosts := m_hosts m; m_room_seq := m_room_seq m;
  m_defaults := m_defaults m |}.
Definition set_hosts (h : gmap string HostsRec) (m : MediaTables) : MediaTables := {|
  m_recordings := m_recordings m; m_participants := m_participants m; m_keys := m_keys m;
  m_hosts := h; m_room_seq := m_room_seq m;
  m_defaults := m_defaults m |}.
Definition set_room_seq (n : Z) (m : MediaTables) : MediaTables := {|
  m_recordings := m_recordings m; m_participants := m_participants m; m_keys := m_keys m;
  m_hosts := m_hosts m; m_room_seq := n;
  m_defaults := m_defaults m |}.

Definition on_media {A} (f : DateTime → MediaTables → result (A * MediaTables) db_error) :
    stmt A :=
  on_api (λ now a, match f now (a_media a) with
                   | Ok (x, m) => Ok (x, set_media m a)
                   | Err e => Err e
                   end).

(** The default of max_participants is 50. *)
Definition upsert_room (matrix_room_id : string) : stmt (Z * RoomRec) := λ _ t,
  match find_room matrix_room_id t with
  | Some r => Ok (r, t)
  | None =>
      let id := m_room_seq (media_of t) in
      let row := {| rm_matrix_room_id := matrix_room_id; rm_max_participants := 50 |} in
      Ok ((id, row), set_api (set_media (set_room_seq (id + 1) (media_of t))
        (set_rooms (<[id := row]> (a_rooms (t_api t))) (t_api t))) t)
  end.

Definition get_or_create_room (matrix_room_id : string) :
    st Db (result (Z * RoomRec) MMError.t) := asking (upsert_room matrix_room_id).

Definition get_room_by_matrix_id (matrix_room_id : string) :
    st Db (result (option (Z * RoomRec)) MMError.t) :=
  asking (reading (find_room matrix_room_id)).

(** ** Streams *)
Definition new_stream (room_id : Z) (host : string) (title : option string) (media_type : string)
    (sfu_room_id : option string) (min_tier_level : option Z) (now : DateTime) : StreamRec := {|
  sr_host_user_id := host; sr_status := "active"; sr_started_at := now; sr_room_id := room_id;
  sr_min_tier_level := min_tier_level; sr_media_type := media_type; sr_title := title;
  sr_sfu_room_id := sfu_room_id; sr_participant_count := 0; sr_ended_at := None;
  sr_state_event_id := None; sr_feed_started_event_id := None; sr_ended_event_id := None;
  sr_marker_generation := 1; sr_e2ee := false; sr_e2ee_algorithm := None;
  sr_e2ee_key_id := None; sr_e2ee_key_generation := None; sr_e2ee_key_b64 := None |}.

(** [id] is the fresh identifier; the primary key and the reference to the room. *)
Definition insert_stream (id : string) (room_id : Z) (host : string) (title : option string)
    (media_type : string) (sfu_room_id : option string) (min_tier_level : option Z) :
    stmt Stream := λ now t,
  match t_streams t !! id, a_rooms (t_api t) !! room_id with
  | Some _, _ => Err (violates "mm_streams_pkey")
  | None, None => Err (violates "mm_streams_room_id_fkey")
  | None, Some _ =>
      let row := new_stream room_id host title media_type sfu_room_id min_tier_level now in
      Ok ((id, row), set_streams (<[id := row]> (t_streams t)) t)
  end.

Definition create_stream (id : string) (room_id : Z) (host : string) (title : option string)
    (media_type : string) (sfu_room_id : option string) (min_tier_level : option Z) :
    st Db (result Stream MMError.t) :=
  asking (insert_stream id room_id host title media_type sfu_room_id min_tier_level).

Definition set_stream_state_event_id (id event_id : string) : st Db (result () MMError.t) :=
  run_update (update_stream id always_row (λ _ s, with_marker (Some event_id)
    (sr_feed_started_event_id s) (sr_ended_event_id s) (sr_marker_generation s) s)).

Definition set_stream_feed_started_event_id (id event_id : string) :
    st Db (result () MMError.t) :=
  run_update (update_stream id always_row (λ _ s, with_marker (sr_state_event_id s)
    (Some event_id) (sr_ended_event_id s) (sr_marker_generation s) s)).

Definition set_stream_ended_event_id (id event_id : string) : st Db (result () MMError.t) :=
  run_update (update_stream id always_row (λ _ s, with_marker (sr_state_event_id s)
    (sr_feed_started_event_id s) (Some event_id) (sr_marker_generation s) s)).

Definition i32_top : Z := 2147483647.

(** RETURNING with [fetch_one]: no row is an error; so is an INTEGER overflow. *)
Definition bump_generation (id : string) : stmt Z := λ _ t,
  match t_streams t !! id with
  | None => Err (refused "no rows returned by a query that expected to return at least one row")
  | Some s =>
      if i32_top <=? sr_marker_generation s then Err (refused "integer out of range")
      else
        let g := sr_marker_generation s + 1 in
        Ok (g, set_streams (<[id := with_marker (sr_state_event_id s)
          (sr_feed_started_event_id s) (sr_ended_event_id s) g s]> (t_streams t)) t)
  end.

Definition bump_stream_marker_generation (id : string) : st Db (result Z MMError.t) :=
  asking (bump_generation id).

Definition is_active (s : StreamRec) : bool := String.eqb (sr_status s) "active".

(** ORDER BY started_at DESC. *)
Definition streams_where (p : StreamRec → bool) (t : Tables) : list Stream :=
  order_desc (λ s : Stream, sr_started_at s.2)
    (List.filter (λ s : Stream, p s.2) (map_to_list (t_streams t))).

Definition get_active_stream (room_id : Z) : st Db (result (option Stream) MMError.t) :=
  asking (reading (λ t, head (streams_where (λ s, (sr_room_id s =? room_id) && is_active s) t))).

Definition update_stream_status (id : string) (status : StreamStatus) :
    st Db (result () MMError.t) :=
  run_update (update_stream id always_row (λ now s, with_stream_status (status_str status)
    (match status with Ended => Some now | Active => sr_ended_at s end) s)).

Definition list_streams (room_id lim : Z) : st Db (result (list Stream) MMError.t) :=
  asking (reading (λ t, limit lim (streams_where (λ s, sr_room_id s =? room_id) t))).

Definition end_stmt (id : string) : stmt bool :=
  update_stream id is_active (λ now, with_stream_status "ended" (Some now)).

Definition end_stream_if_active (id : string) : st Db (result bool MMError.t) :=
  asking (end_stmt id).

Definition list_all_active_streams (lim : Z) : st Db (result (list Stream) MMError.t) :=
  asking (reading (λ t, limit lim (streams_where is_active t))).

(** ** E2EE keys *)
(** [as i32] and back. *)
Definition as_i32 (u : Z) : Z := if u <? 2147483648 then u else u - 4294967296.
Definition as_u32 (i : Z) : Z := if i <? 0 then i + 4294967296 else i.

Definition upsert_key (stream_id : string) (generation : Z) (k : KeyRec) : stmt () :=
  on_media (λ _ m, Ok ((), set_keys (<[(stream_id, generation) := k]> (m_keys m)) m)).

(** Two statements, each in a transaction of its own. *)
Definition set_stream_e2ee_key (stream_id key_id : string) (generation : Z)
    (key_b64 algorithm : string) : st Db (result () MMError.t) :=
  let? _ := asking (update_stream stream_id always_row
    (λ _, with_key key_id (as_i32 generation) key_b64 algorithm)) in
  asking (upsert_key stream_id (as_i32 generation)
    {| ky_key_id := key_id; ky_key_b64 := key_b64; ky_algorithm := algorithm |}).

Definition get_stream_e2ee_key (stream_id : string) :
    st Db (result (option (string * Z * string * string)) MMError.t) :=
  asking (reading (λ t,
    s ← t_streams t !! stream_id;
    if negb (sr_e2ee s) then None
    else
    kid ← sr_e2ee_key_id s; gen ← sr_e2ee_key_generation s;
    kb64 ← sr_e2ee_key_b64 s; alg ← sr_e2ee_algorithm s;
    Some (kid, as_u32 gen, kb64, alg))).

Definition rotate_stream_e2ee_key : string → string → Z → string → string →
    st Db (result () MMError.t) := set_stream_e2ee_key.

(** ** Participants *)
Definition present (stream_id : string) (p : ParticipantRec) : bool :=
  String.eqb (pt_stream_id p) stream_id && bool_decide (pt_left_at p = None).

Definition sync_participant_count (stream_id : string) : st Db (result () MMError.t) :=
  let? count := asking (reading (λ t,
    Z.of_nat (length (List.filter (present stream_id) (m_participants (media_of t)))))) in
  run_update (update_stream stream_id always_row (λ _, with_count count)).

(** ON CONFLICT (stream_id, user_id): a participant who comes back keeps the row. *)
Definition rejoined (role : string) (sfu : option string) (now : DateTime) (p : ParticipantRec) :
    ParticipantRec := {|
  pt_id := pt_id p; pt_stream_id := pt_stream_id p; pt_user_id := pt_user_id p;
  pt_role := role; pt_sfu_participant_id := sfu; pt_joined_at := now; pt_left_at := None |}.

Definition same_participant (stream_id user_id : string) (p : ParticipantRec) : bool :=
  String.eqb (pt_stream_id p) stream_id && String.eqb (pt_user_id p) user_id.

Definition upsert_participant (id stream_id user_id role : string) (sfu : option string) :
    stmt ParticipantRec := λ now t,
  let l := m_participants (media_of t) in
  let put l' x := Ok (x, set_api (set_media (set_participants l' (media_of t)) (t_api t)) t) in
  match List.find (same_participant stream_id user_id) l with
  | Some p =>
      put ((λ q, if same_participant stream_id user_id q then rejoined role sfu now q else q)
             <$> l) (rejoined role sfu now p)
  | None =>
      match t_streams t !! stream_id with
      | None => Err (violates "mm_participants_stream_id_fkey")
      | Some _ =>
          if existsb (λ q, String.eqb (pt_id q) id) l then Err (violates "mm_participants_pkey")
          else
            let p := {| pt_id := id; pt_stream_id := stream_id; pt_user_id := user_id;
                        pt_role := role; pt_sfu_participant_id := sfu; pt_joined_at := now;
                        pt_left_at := None |} in
            put (l ++ [p]) p
      end
  end.

Definition add_participant (id stream_id user_id : string) (role : ParticipantRole)
    (sfu : option string) : st Db (result ParticipantRec MMError.t) :=
  let? row := asking (upsert_participant id stream_id user_id (role_str role) sfu) in
  let? _ := sync_participant_count stream_id in
  st_ret (Ok row).

Definition left_participant (now : DateTime) (p : ParticipantRec) : ParticipantRec := {|
  pt_id := pt_id p; pt_stream_id := pt_stream_id p; pt_user_id := pt_user_id p;
  pt_role := pt_role p; pt_sfu_participant_id := pt_sfu_participant_id p;
  pt_joined_at := pt_joined_at p; pt_left_at := Some now |}.

Definition remove_participant (stream_id participant_id : string) : st Db (result () MMError.t) :=
  let? _ := asking (on_media (λ now m, Ok ((), set_participants
    ((λ p, if present stream_id p && String.eqb (pt_id p) participant_id
           then left_participant now p else p) <$> m_participants m) m))) in
  sync_participant_count stream_id.

Definition list_participants (stream_id : string) : st Db (result (list ParticipantRec) MMError.t) :=
  asking (reading (λ t, order_asc pt_joined_at
    (List.filter (present stream_id) (m_participants (media_of t))))).

(** ** Recordings *)
(** The columns that statements change. *)
Definition with_recording (status : string) (completed : option DateTime) (hidden : bool)
    (hidden_at : option DateTime) (mp4_status : string) (r : RecordingRec) : RecordingRec := {|
  rec_id := rec_id r; rec_stream_id := rec_stream_id r; rec_room_id := rec_room_id r;
  rec_host_user_id := rec_host_user_id r; rec_status := status;
  rec_media_type := rec_media_type r; rec_storage_key := rec_storage_key r;
  rec_storage_backend := rec_storage_backend r; rec_mxc_url := rec_mxc_url r;
  rec_cdn_url := rec_cdn_url r; rec_duration_ms := rec_duration_ms r;
  rec_size_bytes := rec_size_bytes r; rec_mime_type := rec_mime_type r;
  rec_sha256 := rec_sha256 r; rec_title := rec_title r; rec_egress_id := rec_egress_id r;
  rec_created_at := rec_created_at r; rec_completed_at := completed;
  rec_min_tier_level := rec_min_tier_level r; rec_hidden := hidden;
  rec_hidden_at := hidden_at; rec_mp4_status := mp4_status; rec_mp4_key := rec_mp4_key r |}.

Definition with_file (duration_ms size_bytes : option Z) (sha256 mxc cdn : option string)
    (mp4_key : option string) (r : RecordingRec) : RecordingRec := {|
  rec_id := rec_id r; rec_stream_id := rec_stream_id r; rec_room_id := rec_room_id r;
  rec_host_user_id := rec_host_user_id r; rec_status := rec_status r;
  rec_media_type := rec_media_type r; rec_storage_key := rec_storage_key r;
  rec_storage_backend := rec_storage_backend r; rec_mxc_url := mxc;
  rec_cdn_url := cdn; rec_duration_ms := duration_ms;
  rec_size_bytes := size_bytes; rec_mime_type := rec_mime_type r;
  rec_sha256 := sha256; rec_title := rec_title r; rec_egress_id := rec_egress_id r;
  rec_created_at := rec_created_at r; rec_completed_at := rec_completed_at r;
  rec_min_tier_level := rec_min_tier_level r; rec_hidden := rec_hidden r;
  rec_hidden_at := rec_hidden_at r; rec_mp4_status := rec_mp4_status r;
  rec_mp4_key := mp4_key |}.

(** UPDATE mm_recordings SET ... WHERE p: the rows before the update, in table order. *)
Definition update_recordings (p : RecordingRec → bool)
    (f : DateTime → RecordingRec → RecordingRec) : stmt (list RecordingRec) :=
  on_media (λ now m, Ok (List.filter p (m_recordings m),
    set_recordings ((λ r, if p r then f now r else r) <$> m_recordings m) m)).

Definition recordings_where (p : RecordingRec → bool) (t : Tables) : list RecordingRec :=
  List.filter p (m_recordings (media_of t)).

Definition by_id (id : string) (r : RecordingRec) : bool := String.eqb (rec_id r) id.

(** The CHECK of V016. *)
Definition status_allowed (s : string) : bool :=
  mem s ["recording"; "paused"; "ready"; "failed"; "deleted"].

(** The columns the INSERT does not name take their defaults. *)
Definition insert_recording (r : RecordingRec) : stmt () := on_media (λ _ m,
  if negb (status_allowed (rec_status r)) then Err (violates "mm_recordings_status_check")
  else if existsb (by_id (rec_id r)) (m_recordings m) then Err (violates "mm_recordings_pkey")
  else Ok ((), set_recordings (m_recordings m ++
    [with_recording (rec_status r) (rec_completed_at r) false None "none"
       (with_file (rec_duration_ms r) (rec_size_bytes r) (rec_sha256 r) (rec_mxc_url r)
          (rec_cdn_url r) None r)]) m)).

Definition create_recording (r : RecordingRec) : st Db (result () MMError.t) :=
  asking (insert_recording r).

Definition get_recording (id : string) : st Db (result (option RecordingRec) MMError.t) :=
  asking (reading (λ t, head (recordings_where (λ r, by_id id r && negb (rec_hidden r)) t))).

(** ORDER BY created_at DESC LIMIT n. *)
Definition newest (lim : Z) (l : list RecordingRec) : list RecordingRec :=
  limit lim (order_desc rec_created_at l).

Definition get_recordings_for_stream (stream_id : string) :
    st Db (result (list RecordingRec) MMError.t) :=
  asking (reading (λ t, newest 100
    (recordings_where (λ r, String.eqb (rec_stream_id r) stream_id) t))).

Definition get_recordings_for_room (room_id : Z) : st Db (result (list RecordingRec) MMError.t) :=
  asking (reading (λ t, newest 100
    (recordings_where (λ r, (rec_room_id r =? room_id) && negb (rec_hidden r)) t))).

Definition run_recordings (s : stmt (list RecordingRec)) : st Db (result () MMError.t) :=
  let? _ := asking s in st_ret (Ok ()).

Definition keep_but_status (status : string) (r : RecordingRec) : RecordingRec :=
  with_recording status (rec_completed_at r) (rec_hidden r) (rec_hidden_at r)
    (rec_mp4_status r) r.

(** A row that would get a status the CHECK refuses fails the statement. *)
Definition set_status (id status : string) : stmt (list RecordingRec) := λ now t,
  if negb (status_allowed status) && negb (bool_decide (recordings_where (by_id id) t = []))
  then Err (violates "mm_recordings_status_check")
  else update_recordings (by_id id) (λ _, keep_but_status status) now t.

Definition update_recording_status (id : string) (status : RecordingStatus.t) :
    st Db (result () MMError.t) := run_recordings (set_status id (RecordingStatus.as_str status)).

Definition update_recording_completed (id : string) (duration_ms size_bytes : Z)
    (sha256 : string) (mxc_url cdn_url : option string) : st Db (result () MMError.t) :=
  run_recordings (update_recordings (by_id id) (λ now r,
    with_recording "ready" (Some now) (rec_hidden r) (rec_hidden_at r) (rec_mp4_status r)
      (with_file (Some duration_ms) (Some size_bytes) (Some sha256) mxc_url cdn_url
         (rec_mp4_key r) r))).

Definition delete_recording (id : string) : st Db (result () MMError.t) :=
  run_recordings (update_recordings (by_id id) (λ _, keep_but_status "deleted")).

(** [created_at < (SELECT created_at ... WHERE id = $1)]: NULL, so no row, for an unknown
    id. *)
Definition created_before (t : Tables) (before_id : option string) (r : RecordingRec) : bool :=
  match before_id with
  | None => true
  | Some b => match head (recordings_where (by_id b) t) with
              | Some x => rec_created_at r <? rec_created_at x
              | None => false
              end
  end.

Definition list_recordings (lim : Z) (before_id : option string) :
    st Db (result (list RecordingRec) MMError.t) :=
  asking (reading (λ t, newest lim (recordings_where (created_before t before_id) t))).

Definition get_recording_by_egress_id (egress_id : string) :
    st Db (result (option RecordingRec) MMError.t) :=
  asking (reading (λ t, head (recordings_where
    (λ r, bool_decide (rec_egress_id r = Some egress_id)) t))).

Definition list_room_recordings (room_id lim : Z) (before_id : option string) :
    st Db (result (list RecordingRec) MMError.t) :=
  asking (reading (λ t, newest lim (recordings_where (λ r,
    (rec_room_id r =? room_id) && String.eqb (rec_status r) "ready" && negb (rec_hidden r) &&
    created_before t before_id r) t))).

Definition list_all_recordings (lim : Z) (status_filter : option string) :
    st Db (result (list RecordingRec) MMError.t) :=
  asking (reading (λ t, newest lim (recordings_where (λ r,
    match status_filter with Some s => String.eqb (rec_status r) s | None => true end) t))).

(** [parse_utc] is the parser of RFC 3339; a text it refuses is the epoch. *)
Definition recordings_older_than (parse_utc : string → option DateTime) (older_than : string) :
    st Db (result (list RecordingRec) MMError.t) :=
  asking (reading (λ t, limit 1000 (order_asc rec_created_at (recordings_where (λ r,
    (rec_created_at r <? default 0 (parse_utc older_than)) &&
    negb (String.eqb (rec_status r) "deleted")) t)))).

(** The instant is the server process's. *)
Definition set_recording_hidden (id : string) (hidden : bool) (now : DateTime) :
    st Db (result bool MMError.t) :=
  let? rows := asking (update_recordings (by_id id) (λ _ r,
    with_recording (rec_status r) (rec_completed_at r) hidden
      (if hidden then Some now else None) (rec_mp4_status r) r)) in
  st_ret (Ok (negb (bool_decide (rows = [])))).
