(* ===== verification/Donations.v ===== *)
(** * Donations: creator profiles, tips and their settlement

    The donation half of [mm-api/src/monetization.rs]: onboarding and profiles, creating
    a donation on either rail, the Lightning proof, the feed, the LNBits webhook and the
    status poll. A handler works on the database and on the services it calls (payment
    providers, the recipient's wallet, the homeserver), which are parameters; the
    counters and log lines are left out. The build is a release build: donations are not
    completed automatically. *)
From Stdlib Require Import Ascii.
From S2P Require Import Prelude F64 ApiSchema Json Schema Errors Text MatrixClient MatrixEvents.
From S2P Require Import Payments Guards MoneyDb.
Local Open Scope Z_scope.
Local Open Scope mm_scope.

(** Third-party texts and parsers: instants as RFC 3339 and UUIDs. *)
Record TextOps : Type := {
  rfc3339 : DateTime → string;
  parse_rfc3339 : string → option DateTime;
  parse_uuid : string → option Uuid
}.

Section handlers.
Context {N : Type} `{Http N, LnurlNet N}.
Variable registry : @Registry.t N.
Variable ops : Bolt11Ops.
Variable txt : TextOps.
Variable hs_client : HomeserverClient.
Variable to_numeric : f64 → result Z db_error.
Variable state : ApiState.

Abbreviation World := (Db * N)%type.

Definition in_db {A} (m : st Db A) : st World A := st_fst m.
Definition in_net {A} (m : st N A) : st World A := st_snd m.

(** ** Creator profiles *)
Definition base_url (fallback : string) : string := default fallback (as_public_url state).

Definition onboarding_request (user_id base : string) : OnboardingRequest := {|
  oq_user_id := user_id; oq_return_url := base +:+ "/creator/onboard/return";
  oq_refresh_url := base +:+ "/creator/onboard/refresh" |}.

Definition stripe_onboard (user_id base : string) :
    st World (result OnboardingResponse MMError.t) :=
  let! r := in_net (Registry.onboard registry "stripe" (onboarding_request user_id base)) in
  st_ret (map_err (λ e, MMError.Stripe (PaymentError.to_string e)) r).

Definition creator_onboard (user_id display_name : string) :
    st World (result (Uuid * string) MMError.t) :=
  guard (require_monetization state) (
  guard (payment_registry state) (
  let? existing := in_db (MoneyDb.get_creator_profile user_id) in
  match existing with
  | Some ({| cp_id := id; cp_stripe_account_id := Some _ |}) =>
      let? resp := stripe_onboard user_id (base_url "https://10.0.0.105:6167") in
      st_ret (Ok (id, or_onboarding_url resp))
  | _ =>
      let? profile := in_db (create_creator_profile to_numeric user_id display_name
                               (mc_platform_fee_pct (as_config state))) in
      let? resp := stripe_onboard user_id (base_url "https://localhost:6167") in
      let? _ := in_db (set_creator_stripe_account user_id (or_account_id resp)) in
      st_ret (Ok (cp_id profile, or_onboarding_url resp))
  end)).

Definition profile_not_found : MMError.t :=
  MMError.api ErrorCode.NotFound "Creator profile not found".

(** [get_creator_profile] of the caller, and the public lookup of another user. *)
Definition get_creator_profile (user_id : string) : st World (result ProfileRec MMError.t) :=
  guard (require_monetization state) (
  let? p := in_db (MoneyDb.get_creator_profile user_id) in
  or_fail p profile_not_found (λ p, st_ret (Ok p))).

Definition get_public_creator_profile (user_id : string) :
    st World (result (string * string * option string) MMError.t) :=
  guard (require_monetization state) (
  let? p := in_db (MoneyDb.get_creator_profile user_id) in
  or_fail p profile_not_found (λ p,
    st_ret (Ok (user_id, cp_display_name p, cp_lightning_address p)))).

(** [trim_start_matches('@')]. *)
Fixpoint strip_at (s : string) : string :=
  match s with
  | String c s' => if decide (c = "@"%char) then strip_at s' else s
  | EmptyString => s
  end.

Definition normalize_address (addr : option string) : result (option string) MMError.t :=
  match addr with
  | None => Ok None
  | Some s =>
      if is_empty_str (trim s) then Ok None
      else match parse_lightning_address s with
           | Err e => Err (MMError.api ErrorCode.InvalidLightningAddress
                             ("Invalid lightning_address: " +:+ LnurlError.to_string e))
           | Ok a => Ok (Some (address_text a))
           end
  end.

Definition update_creator_profile (user_id : string) (lightning_address : option string) :
    st World (result ProfileRec MMError.t) :=
  guard (require_monetization state) (
  match normalize_address lightning_address with
  | Err e => st_ret (Err e)
  | Ok normalized =>
      let? existing := in_db (MoneyDb.get_creator_profile user_id) in
      let? _ := (match existing with
        | Some _ => st_ret (Ok ())
        | None =>
            let? _ := in_db (create_creator_profile to_numeric user_id
              (split_first ":"%char (strip_at user_id))
              (mc_platform_fee_pct (as_config state))) in
            st_ret (Ok ())
        end) in
      let? updated := in_db (set_creator_lightning_address user_id normalized) in
      or_fail updated profile_not_found (λ p, st_ret (Ok p))
  end).

(** ** Creating a donation *)
Record CreateDonationRequest : Type := {
  dq_stream_id : string;
  dq_amount_cents : Z;
  dq_message : option string;
  dq_payment_provider : string
}.

Record LightningInvoice : Type := { li_bolt11 : string; li_payment_hash : string }.

Record CreateDonationResponse : Type := {
  dr_donation_id : Uuid;
  dr_checkout_url : string;
  dr_invoice : option LightningInvoice;
  dr_tier : string;
  dr_pin_duration_secs : Z
}.

Definition suspended_in (user : string) (a : ApiTables) : bool :=
  match q_users (a_moderation a) !! user with Some u => um_suspended u | None => false end.

Definition is_user_suspended (user : string) : st Db (result bool db_error) :=
  exec (reading (λ t, suspended_in user (t_api t))).

Inductive rail : Type := Lightning | StripeRail.

(** Letters outside ASCII, which [to_lowercase] also folds, are in none of the names. *)
Definition normalize_provider (p : string) : result rail MMError.t :=
  let p := to_ascii_lowercase p in
  if mem p ["lightning"; "ln"] then Ok Lightning
  else if mem p ["stripe"; ""] then Ok StripeRail
  else Err (MMError.api ErrorCode.InvalidPaymentProvider ("Unknown payment provider: " +:+ p)).

Definition rail_name (r : rail) : string :=
  match r with Lightning => "lightning" | StripeRail => "stripe" end.

(** Stripe pays out to a connected account. *)
Definition stripe_ready (creator : ProfileRec) (r : rail) : result () MMError.t :=
  match r with
  | Lightning => Ok ()
  | StripeRail =>
      if negb (cp_onboarding_complete creator)
      then Err (MMError.api ErrorCode.CreatorNotOnboarded
                  "Stream host has not completed Stripe onboarding")
      else match cp_stripe_account_id creator with
           | None => Err (MMError.api ErrorCode.CreatorNotOnboarded
                            "Stream host has no Stripe account")
           | Some _ => Ok ()
           end
  end.

(** What the chosen rail answers: the session and the URL, and what is stored of the
    invoice. *)
Record checkout : Type := {
  co_response : CheckoutResponse;
  co_bolt11 : option string;
  co_payment_hash : option string
}.

Definition u64_saturating_mul (a b : Z) : Z := Z.min 18446744073709551615 (a * b).

Definition lnurl_checkout (addr donation_id : string) (amount_cents : Z)
    (message : option string) : st World (result checkout MMError.t) :=
  let amount_sats := usd_cents_to_sats amount_cents in
  if amount_sats <=? 0
  then st_ret (Err (MMError.Lightning "amount converts to <= 0 sats"))
  else
    let! inv := in_net (request_invoice addr (u64_saturating_mul amount_sats 1000) message) in
    match inv with
    | Err e => st_ret (Err (MMError.Lightning
                 ("LNURL-pay " +:+ addr +:+ ": " +:+ LnurlError.to_string e)))
    | Ok pr =>
        match extract_payment_hash ops pr with
        | Err e => st_ret (Err (MMError.Lightning ("LNURL-pay " +:+ addr +:+
            " returned an invoice we could not parse: " +:+ Bolt11Error.to_string e)))
        | Ok hash =>
            st_ret (Ok {| co_response := {| cs_session_id := donation_id; cs_checkout_url := pr |};
                          co_bolt11 := Some pr; co_payment_hash := Some hash |})
        end
    end.

Definition provider_checkout (r : rail) (creator : ProfileRec) (req : CreateDonationRequest)
    (donation_id donor : string) (fees : FeeBreakdown) : st World (result checkout MMError.t) :=
  let base := base_url "https://localhost:6167" in
  let! resp := in_net (Registry.create_checkout registry (rail_name r) {|
    cq_mode := CheckoutMode.Payment;
    cq_amount_cents := Some (match r with
      | Lightning => usd_cents_to_sats (dq_amount_cents req)
      | StripeRail => dq_amount_cents req end);
    cq_currency := match r with Lightning => "sats" | StripeRail => "usd" end;
    cq_creator_account_id := default "" (cp_stripe_account_id creator);
    cq_platform_fee_cents := Some (fb_platform_fee_cents fees);
    cq_success_url := base +:+ "/donations/" +:+ donation_id +:+ "/success";
    cq_cancel_url := base +:+ "/donations/" +:+ donation_id +:+ "/cancel";
    cq_metadata := <["donor_user_id" := donor]> (<["stream_id" := dq_stream_id req]>
                     {["donation_id" := donation_id]});
    cq_price_id := None |}) in
  st_ret (match resp with
    | Err e => Err (match r with
        | Lightning => MMError.Lightning (PaymentError.to_string e)
        | StripeRail => MMError.Stripe (PaymentError.to_string e) end)
    | Ok x => Ok {| co_response := x; co_bolt11 := None; co_payment_hash := None |}
    end).

(** The LNURL-pay path when the creator publishes an address, the provider otherwise. *)
Definition route (r : rail) (creator : ProfileRec) (req : CreateDonationRequest)
    (message : option string) (donation_id donor : string) (fees : FeeBreakdown) :
    st World (result checkout MMError.t) :=
  match r, cp_lightning_address creator with
  | Lightning, Some addr =>
      if is_empty_str addr then provider_checkout r creator req donation_id donor fees
      else lnurl_checkout addr donation_id (dq_amount_cents req) message
  | _, _ => provider_checkout r creator req donation_id donor fees
  end.

(** The row that is inserted. *)
Definition new_donation (req : CreateDonationRequest) (message : option string)
    (donation_id key donor recipient : string) (c : checkout) (created : DateTime) :
    DonationRec := {|
  dn_id := donation_id; dn_stream_id := dq_stream_id req; dn_donor_user_id := donor;
  dn_recipient_user_id := recipient; dn_amount_cents := dq_amount_cents req;
  dn_currency := "usd"; dn_message := message;
  dn_tier := dt_name (tier_for_amount (dq_amount_cents req));
  dn_pin_duration_secs := dt_pin_duration_secs (tier_for_amount (dq_amount_cents req));
  dn_stripe_session_id := Some (cs_session_id (co_response c));
  dn_stripe_payment_intent_id := None;
  dn_status := DonationStatus.as_str DonationStatus.Pending; dn_idempotency_key := key;
  dn_created_at := created; dn_provider_payment_id := None; dn_bolt11 := co_bolt11 c;
  dn_payment_hash := co_payment_hash c |}.

Definition sanitized_message (m : option string) : option string :=
  (λ m, sanitize_display_text m 150) <$> m.

(** [donation_id] and [key] are the two fresh UUIDs, [now] the server's clock. *)
Definition create_donation (donor : string) (req : CreateDonationRequest)
    (donation_id key : Uuid) (now : DateTime) :
    st World (result CreateDonationResponse MMError.t) :=
  guard (require_donations state) (
  let! suspended := in_db (is_user_suspended donor) in
  if match suspended with Ok b => b | Err _ => false end
  then st_ret (Err (MMError.api ErrorCode.Forbidden "account suspended"))
  else
  guard (validate_donation_amount (dq_amount_cents req)
           (mc_min_donation_cents (as_config state)) (mc_max_donation_cents (as_config state))) (
  let message := sanitized_message (dq_message req) in
  let? stream := in_db (get_stream (dq_stream_id req)) in
  or_fail stream (MMError.api ErrorCode.NotFound "Stream not found") (λ stream,
  if negb (String.eqb (sr_status stream) "active")
  then st_ret (Err (MMError.api ErrorCode.StreamEnded "Stream is not active"))
  else
  let? creator := in_db (MoneyDb.get_creator_profile (sr_host_user_id stream)) in
  or_fail creator (MMError.api ErrorCode.CreatorNotOnboarded
                     "Stream host has not set up donations") (λ creator,
  match normalize_provider (dq_payment_provider req) with
  | Err e => st_ret (Err e)
  | Ok r =>
      guard (stripe_ready creator r) (
      let tier := tier_for_amount (dq_amount_cents req) in
      let fees := calculate_fees (dq_amount_cents req) (platform_fee_pct creator) in
      guard (payment_registry state) (
      let? c := route r creator req message donation_id donor fees in
      let? _ := in_db (db_create_donation (new_donation req message donation_id key donor
                         (sr_host_user_id stream) c now)) in
      st_ret (Ok {| dr_donation_id := donation_id;
        dr_checkout_url := cs_checkout_url (co_response c);
        dr_invoice := match r with
          | Lightning => Some {| li_bolt11 := cs_checkout_url (co_response c);
                                 li_payment_hash := cs_session_id (co_response c) |}
          | StripeRail => None end;
        dr_tier := dt_name tier; dr_pin_duration_secs := dt_pin_duration_secs tier |})))
  end)))).
(** ** Settling a donation *)
Record LightningProofResponse : Type := {
  lp_donation_id : Uuid;
  lp_status : string;
  lp_confirmed_at : string
}.

Definition proof_error (e : Bolt11Error.t) : MMError.t :=
  match e with
  | Bolt11Error.PreimageMismatch => MMError.api ErrorCode.InvalidRequest
      "Preimage does not match this donation's payment_hash"
  | Bolt11Error.BadPreimage => MMError.api ErrorCode.InvalidRequest
      "Preimage must be 32 bytes hex-encoded (64 hex characters)"
  | other => MMError.Internal ("preimage verification failed: " +:+ Bolt11Error.to_string other)
  end.

Definition submit_lightning_proof (me : string) (donation_id : Uuid) (preimage : string)
    (now : DateTime) : st World (result LightningProofResponse MMError.t) :=
  guard (require_donations state) (
  let? found := in_db (get_donation donation_id) in
  or_fail found (MMError.api ErrorCode.NotFound "Donation not found") (λ donation,
  if negb (String.eqb me (dn_donor_user_id donation)) &&
     negb (String.eqb me (dn_recipient_user_id donation))
  then st_ret (Err (MMError.api ErrorCode.Forbidden
         "Only the donor or recipient can submit a Lightning payment proof"))
  else
  or_fail (dn_payment_hash donation) (MMError.api ErrorCode.InvalidRequest
    "This donation has no associated Lightning invoice (Stripe rail or pre-V018 row)")
    (λ payment_hash,
  if String.eqb (dn_status donation) (DonationStatus.as_str DonationStatus.Succeeded)
  then st_ret (Ok {| lp_donation_id := donation_id; lp_status := dn_status donation;
                     lp_confirmed_at := rfc3339 txt (dn_created_at donation) |})
  else
  guard (map_err proof_error (verify_preimage ops preimage payment_hash)) (
  or_fail (dn_stripe_session_id donation) (MMError.Internal "donation row missing session_id")
    (λ session_id,
  let? updated := in_db (update_donation_status session_id DonationStatus.Succeeded None) in
  or_fail updated (MMError.Internal "donation row vanished mid-update") (λ updated,
  st_ret (Ok {| lp_donation_id := donation_id; lp_status := dn_status updated;
                lp_confirmed_at := rfc3339 txt now |}))))))).

(** ** The feed *)
Record DonationDetailResponse : Type := {
  dd_id : Uuid;
  dd_stream_id : string;
  dd_donor_display_name : string;
  dd_amount_cents : Z;
  dd_currency : string;
  dd_message : option string;
  dd_tier : string;
  dd_pin_duration_secs : Z;
  dd_color : string;
  dd_status : string;
  dd_created_at : string
}.

Definition donation_detail (d : DonationRec) : DonationDetailResponse := {|
  dd_id := dn_id d; dd_stream_id := dn_stream_id d; dd_donor_display_name := dn_donor_user_id d;
  dd_amount_cents := dn_amount_cents d; dd_currency := dn_currency d;
  dd_message := dn_message d; dd_tier := dn_tier d;
  dd_pin_duration_secs := dn_pin_duration_secs d;
  dd_color := dt_color (tier_for_amount (dn_amount_cents d)); dd_status := dn_status d;
  dd_created_at := rfc3339 txt (dn_created_at d) |}.

Definition clamp (lo hi x : Z) : Z := if x <? lo then lo else if hi <? x then hi else x.

Definition get_donation_feed (stream_id : string) (lim : option Z) (after : option string) :
    st World (result (list DonationDetailResponse) MMError.t) :=
  guard (require_donations state) (
  let? donations := in_db (db_get_donation_feed stream_id (clamp 1 100 (default 20 lim))
                             (after ≫= parse_rfc3339 txt)) in
  st_ret (Ok (donation_detail <$> donations))).

(** ** Announcing a donation in its room *)

(** Look the stream's room up and post there; whatever fails is ignored. *)
Definition announce (stream_id : string) (content : DonationEventContent) : st World () :=
  let! stream := in_db (get_stream stream_id) in
  match stream with
  | Ok (Some stream) =>
      let! room := in_db (get_room (sr_room_id stream)) in
      match room with
      | Ok (Some room) =>
          let! _ := in_net (emit_donation_event hs_client (rm_matrix_room_id room) content) in
          st_ret ()
      | _ => st_ret ()
      end
  | _ => st_ret ()
  end.

(** The donation half of a completed checkout. *)
Definition complete_donation (session_id : string) (payment_intent : option string) :
    st World (result () MMError.t) :=
  let? donation := in_db (update_donation_status session_id DonationStatus.Succeeded
                            payment_intent) in
  match donation with
  | None => st_ret (Ok ())
  | Some d =>
      let tier := tier_for_amount (dn_amount_cents d) in
      let! _ := announce (dn_stream_id d) {|
        de_donation_id := dn_id d; de_stream_id := dn_stream_id d;
        de_donor_display_name := dn_donor_user_id d; de_amount_cents := dn_amount_cents d;
        de_currency := dn_currency d; de_message := dn_message d; de_tier := dn_tier d;
        de_pin_duration_secs := dt_pin_duration_secs tier; de_color := dt_color tier;
        de_version := 1 |} in
      st_ret (Ok ())
  end.

(** ** Lightning payments *)
Record LightningPaymentStatusResponse : Type := {
  ls_payment_hash : string;
  ls_paid : bool;
  ls_status : string;
  ls_paid_at : option string;
  ls_preimage : option string
}.

Definition payment_status (hash : string) (row : option DonationRec) :
    LightningPaymentStatusResponse :=
  let status := match row with Some d => dn_status d | None => "unknown" end in
  {| ls_payment_hash := hash; ls_paid := String.eqb status "succeeded"; ls_status := status;
     ls_paid_at := match row with
       | Some d => if String.eqb (dn_status d) "succeeded"
                   then Some (rfc3339 txt (dn_created_at d)) else None
       | None => None end;
     ls_preimage := None |}.

Definition check_lightning_payment (hash : string) :
    st World (result LightningPaymentStatusResponse MMError.t) :=
  guard (require_monetization state) (
  guard (payment_registry state) (
  match Registry.get registry "lightning" with
  | None => st_ret (Err (MMError.api ErrorCode.FeatureDisabled "Lightning payments not enabled"))
  | Some _ =>
      if negb (as_has_pg_pool state) then st_ret (Ok (payment_status hash None))
      else
        let? row := in_db (asking (reading (λ t, head (List.filter (λ d,
          bool_decide (dn_provider_payment_id d = Some hash)) (a_donations (t_api t)))))) in
        st_ret (Ok (payment_status hash row))
  end)).

Definition paid_by (payment_id : string) (d : DonationRec) : DonationRec := {|
  dn_id := dn_id d; dn_stream_id := dn_stream_id d; dn_donor_user_id := dn_donor_user_id d;
  dn_recipient_user_id := dn_recipient_user_id d; dn_amount_cents := dn_amount_cents d;
  dn_currency := dn_currency d; dn_message := dn_message d; dn_tier := dn_tier d;
  dn_pin_duration_secs := dn_pin_duration_secs d;
  dn_stripe_session_id := dn_stripe_session_id d;
  dn_stripe_payment_intent_id := dn_stripe_payment_intent_id d; dn_status := "succeeded";
  dn_idempotency_key := dn_idempotency_key d; dn_created_at := dn_created_at d;
  dn_provider_payment_id := Some payment_id; dn_bolt11 := dn_bolt11 d;
  dn_payment_hash := dn_payment_hash d |}.

Definition pay_stmt (id : Uuid) (payment_id : string) : stmt () := on_api (λ _ a,
  Ok ((), set_donations ((λ d, if String.eqb (dn_id d) id then paid_by payment_id d else d)
                           <$> a_donations a) a)).

Definition lnbits_webhook (body : string) : st World (result () MMError.t) :=
  if negb (as_has_registry state)
  then st_ret (Err (MMError.api ErrorCode.MonetizationDisabled "monetization disabled"))
  else
  let! event := in_net (Registry.verify_webhook registry "lightning" body "") in
  match event with
  | Err e => st_ret (Err (MMError.Internal
               ("LNBits webhook error: " +:+ PaymentError.to_string e)))
  | Ok (WebhookEvent.CheckoutCompleted session_id _ metadata) =>
      let donation_id := default "" (metadata !! "donation_id") in
      let stream_id := default "" (metadata !! "stream_id") in
      let amount_sats := default 0 ((metadata !! "amount_sats") ≫= parse_i64) in
      let! _ :=
        (if as_has_pg_pool state then
           match parse_uuid txt donation_id with
           | Some id => let! _ := in_db (exec (pay_stmt id session_id)) in st_ret ()
           | None => st_ret ()
           end
         else st_ret ()) in
      let! _ :=
        (if negb (is_empty_str stream_id) && negb (is_empty_str donation_id) &&
            as_has_pg_pool state then
           let amount_cents := sats_to_usd_cents amount_sats in
           let tier := tier_for_amount amount_cents in
           announce stream_id {|
             de_donation_id := donation_id; de_stream_id := stream_id;
             de_donor_display_name := default "" (metadata !! "donor_user_id");
             de_amount_cents := amount_cents; de_currency := "sats";
             de_message := metadata !! "message"; de_tier := dt_name tier;
             de_pin_duration_secs := dt_pin_duration_secs tier; de_color := dt_color tier;
             de_version := 1 |}
         else st_ret ()) in
      st_ret (Ok ())
  | Ok _ => st_ret (Ok ())
  end.
End handlers.

(** ** What creating a donation records *)
Section recorded.
Context {N : Type} `{Http N, LnurlNet N}.
Variable registry : @Registry.t N.
Variable ops : Bolt11Ops.
Variable state : ApiState.

Abbreviation World := (Db * N)%type.
Abbreviation rows w := (a_donations (t_api (db_tables (fst w)))).

(** A checkout is between the server and the payment services. *)
Lemma route_db r creator req msg id donor fees (w : World) :
  (route registry ops state r creator req msg id donor fees w).2.1 = w.1.
Proof.
  assert (Hp : (provider_checkout registry state r creator req id donor fees w).2.1 = w.1).
  { unfold provider_checkout, in_net, st_bind, st_snd. by destruct (Registry.create_checkout _ _ _ _). }
  unfold route. destruct r, (cp_lightning_address creator) as [addr|]; try done.
  destruct (is_empty_str addr); [done|]. unfold lnurl_checkout, in_net, st_bind, st_snd.
  destruct (_ <=? 0); [done|]. destruct (request_invoice _ _ _ _) as [[pr|e] n]; [|done].
  simpl. by destruct (extract_payment_hash ops pr).
Qed.

(** The row of a donation: the request's, for the host of the active stream it names. *)
Record recorded (donor : string) (q : CreateDonationRequest) (id key : Uuid) (t : Tables)
    (d : DonationRec) : Prop := {
  re_stream : ∃ stream, t_streams t !! dq_stream_id q = Some stream ∧
    sr_status stream = "active" ∧ dn_recipient_user_id d = sr_host_user_id stream;
  re_request : (dn_id d, dn_idempotency_key d, dn_stream_id d, dn_donor_user_id d,
                dn_amount_cents d, dn_status d, dn_message d) =
               (id, key, dq_stream_id q, donor, dq_amount_cents q, "pending",
                sanitized_message (dq_message q));
  re_allowed : mc_min_donation_cents (as_config state) ≤ dq_amount_cents q ≤
               mc_max_donation_cents (as_config state);
  re_amount : 100 ≤ dq_amount_cents q ≤ 100000
}.

Lemma insert_donation_spec d (w : World) :
  let '(r, db) := db_create_donation d w.1 in
  let l' := a_donations (t_api (db_tables db)) in
  match r with
  | Ok _ => ∃ now, donation_check (rows w) d = Ok () ∧ l' = rows w ++ [inserted_donation now d]
  | Err _ => l' = rows w ∨
      ∃ now, donation_check (rows w) d = Ok () ∧ l' = rows w ++ [inserted_donation now d]
  end.
Proof.
  unfold db_create_donation, asking, st_bind, exec. destruct (next_tick w.1) as [k rest].
  unfold insert_donation, on_api.
  destruct (tk_outcome k); cbn [fst snd st_ret map_err db_tables]; [|by left|];
    destruct (donation_check (a_donations (t_api (db_tables w.1))) d) as [[]|e] eqn:E;
    cbn [fst snd st_ret map_err db_tables]; eauto.
Qed.

Lemma validate_amount_ok c lo hi : validate_donation_amount c lo hi = Ok () → lo ≤ c ≤ hi.
Proof.
  unfold validate_donation_amount. destruct (c <=? 0); [done|].
  destruct (Z.ltb_spec c lo); [done|]. destruct (Z.ltb_spec hi c); [done|]. lia.
Qed.

(** A step that only reads the tables. *)
Lemma reading_step {A B} (f : Tables → A) (k : A → st World (result B MMError.t)) (w : World) :
  ∃ db, db_tables db = db_tables w.1 ∧
  (st_try (in_db (asking (reading f))) k w = k (f (db_tables w.1)) (db, w.2) ∨
   ∃ e, st_try (in_db (asking (reading f))) k w = (Err e, (db, w.2))).
Proof.
  unfold st_try, st_bind, in_db, st_fst.
  pose proof (asking_reading_tables f w.1) as Ht. pose proof (asking_reading_ok f w.1) as Ho.
  destruct (asking (reading f) w.1) as [[a|e] db]; exists db; split; [done| |done|right; by exists e].
  left. by rewrite (Ho a eq_refl).
Qed.

(** Creating a donation, whatever the database does: an answer with the donation's id means
    that exactly one row was added, pending and as requested, for the host of an active
    stream and with an amount in the configured range; an error means that nothing was
    added, or that row. *)
Theorem donation_recorded_pending (donor : string) (q : CreateDonationRequest)
    (id key : Uuid) (now : DateTime) (w : World) :
  let '(r, w') := create_donation registry ops state donor q id key now w in
  let added := ∃ d, rows w' = rows w ++ [d] ∧
                 recorded donor q id key (db_tables w.1) d in
  match r with
  | Ok resp => added ∧ dr_donation_id resp = id
  | Err _ => rows w' = rows w ∨ added
  end.
Proof.
  unfold create_donation, guard at 1. destruct (require_donations state); [|by left].
  unfold st_bind at 1, in_db at 1, st_fst at 1, is_user_suspended.
  match goal with |- context [exec (reading ?f) w.1] =>
    pose proof (exec_reading_tables f w.1) as Hs; destruct (exec (reading f) w.1) as [sus db1] end.
  cbn [fst snd] in *. rewrite <-Hs. destruct (match sus with Ok b => b | _ => _ end); [by left|].
  destruct (validate_donation_amount _ _ _) as [[]|] eqn:Ev; [|by left].
  apply validate_amount_ok in Ev. cbn [guard].
  match goal with |- context [st_try (in_db (get_stream ?s)) ?k ?w0] =>
    destruct (reading_step (λ t, t_streams t !! s) k w0) as (db2 & Hdb2 & [E|[e E]]) end;
    unfold get_stream; rewrite E; clear E; cbn [fst snd] in *; [|left; by rewrite Hdb2].
  destruct (t_streams (db_tables db1) !! dq_stream_id q) as [stream|] eqn:Es; [|left; by rewrite <-Hdb2].
  cbn [or_fail]. destruct (String.eqb (sr_status stream) "active") eqn:Ea; [|left; by rewrite <-Hdb2].
  apply String.eqb_eq in Ea. cbn [negb]. rewrite <-Hdb2 in Es |- *. clear Hdb2 db1 Hs.
  match goal with |- context [st_try (in_db (MoneyDb.get_creator_profile ?s)) ?k ?w0] =>
    destruct (reading_step (λ t, a_profiles (t_api t) !! s) k w0) as (db3 & Hdb3 & [E|[e E]]) end;
    unfold MoneyDb.get_creator_profile; rewrite E; clear E; cbn [fst snd] in *; [|left; by rewrite Hdb3].
  rewrite <-Hdb3 in Es |- *. destruct (a_profiles _ !! _) as [creator|]; [|by left].
  cbn [or_fail]. destruct (normalize_provider _) as [r|]; [|by left].
  unfold guard at 1. destruct (stripe_ready creator r); [|by left].
  unfold guard at 1. destruct (payment_registry state); [|by left].
  unfold st_try at 1, st_bind at 1.
  match goal with |- context [route ?a ?b ?c ?d ?e ?f ?g ?h ?i ?j ?k] =>
    pose proof (route_db d e f g h i j k) as Hr;
    destruct (route a b c d e f g h i j k) as [[c0|e0] w4] end; cbn [fst snd] in Hr;
    [|left; cbn; by rewrite Hr].
  unfold st_try, st_bind, in_db, st_fst.
  match goal with |- context [db_create_donation ?d _] =>
    pose proof (insert_donation_spec d w4) as Hi;
    destruct (db_create_donation d w4.1) as [[[]|e5] db5] end; cbn [fst snd st_ret] in *; rewrite Hr in Hi.
  - destruct Hi as (at_ & Hc & Hl). split; [|done]. eexists. split; [exact Hl|].
    split; [by eauto|done|done|]. by apply donation_check_amount in Hc.
  - destruct Hi as [Hl|(at_ & Hc & Hl)]; [by left|right]. eexists. split; [exact Hl|].
    split; [by eauto|done|done|]. by apply donation_check_amount in Hc.
Qed.
End recorded.
