(* ===== verification/Entitlement.v ===== *)
(** * Entitlement: which tier a subscriber holds, through two caches

    [mm-payment/src/entitlement.rs] over the in-process cache (moka) and Redis
    ([RedisCache] of [mm-core/src/cache.rs]). Both cache services are classes: what they
    may answer is stated by laws over the entries they hold, so evictions, lost
    connections and unacknowledged writes are allowed. Several server processes share
    the database and Redis; each has an in-process cache of its own. *)
From Stdlib Require Import Ascii.
From S2P Require Import Prelude F64 ApiSchema Schema Errors Text MoneyDb.
Local Open Scope Z_scope.
Local Open Scope mm_scope.

(** ** Cache services *)

(** A cache whose entries live for a fixed time after their insertion. *)
Class TtlCache (C K V : Type) : Type := {
  tc_get : DateTime → K → C → option V;
  tc_insert : DateTime → K → V → C → C;
  tc_invalidate : K → C → C
}.

(** [tc_entry]: the value last inserted under a key, and when. An entry may be dropped
    at any insertion (the capacity is bounded), never be kept past its time. *)
Class TtlCacheLaws (C K V : Type) `{TtlCache C K V} (ttl : Z) : Type := {
  tc_entry : C → K → option (V * DateTime);
  tc_get_hit now k c v :
    tc_get now k c = Some v → ∃ t, tc_entry c k = Some (v, t) ∧ now < t + ttl;
  tc_insert_entry now k v c k' x :
    tc_entry (tc_insert now k v c) k' = Some x →
    (k' = k ∧ x = (v, now)) ∨ (k' ≠ k ∧ tc_entry c k' = Some x);
  tc_invalidate_entry k c k' x :
    tc_entry (tc_invalidate k c) k' = Some x → k' ≠ k ∧ tc_entry c k' = Some x
}.

(** The commands of the Redis client the caches use; a failed one may have taken
    effect. *)
Class Redis (R : Type) : Type := {
  redis_get : DateTime → string → st R (result (option string) string);
  redis_set_ex : DateTime → string → string → Z → st R (result () string);
  redis_del : string → st R (result () string)
}.

(** [rd_entry]: the value of a key and the instant its life ends. *)
Class RedisLaws (R : Type) `{Redis R} : Type := {
  rd_entry : R → string → option (string * DateTime);
  redis_get_hit now k r v :
    (redis_get now k r).1 = Ok (Some v) → ∃ e, rd_entry r k = Some (v, e) ∧ now < e;
  redis_get_keeps now k r k' x :
    rd_entry (redis_get now k r).2 k' = Some x → rd_entry r k' = Some x;
  redis_set_entry now k v ttl r k' x :
    rd_entry (redis_set_ex now k v ttl r).2 k' = Some x →
    (k' = k ∧ x = (v, now + seconds ttl)) ∨ rd_entry r k' = Some x;
  redis_del_entry k r k' x :
    rd_entry (redis_del k r).2 k' = Some x → rd_entry r k' = Some x
}.

(** ** RedisCache *)
Definition REDIS_PREFIX : string := "mm:".

Module RedisCache.
Section cache.
Context {R : Type} `{Redis R}.

Definition key (raw : string) : string := REDIS_PREFIX +:+ raw.

Definition get (now : DateTime) (raw_key : string) : st R (option string) :=
  let! r := redis_get now (key raw_key) in
  st_ret (match r with Ok v => v | Err _ => None end).

Definition set (now : DateTime) (raw_key value : string) (ttl_secs : Z) :
    st R (result () MMError.t) :=
  let! r := redis_set_ex now (key raw_key) value ttl_secs in
  st_ret (map_err (λ e, MMError.Redis ("SET " +:+ key raw_key +:+ ": " +:+ e)) r).

Definition del (raw_key : string) : st R (result () MMError.t) :=
  let! r := redis_del (key raw_key) in
  st_ret (map_err (λ e, MMError.Redis ("DEL " +:+ key raw_key +:+ ": " +:+ e)) r).
End cache.
End RedisCache.

(** ** The service *)
Definition REDIS_TTL_SECS : Z := 60.
Definition L1_TTL : Z := seconds 15.

Record Entitlement : Type := {
  en_tier_level : Z;
  en_tier_name : string;
  en_expires_at : DateTime
}.

#[export] Instance Entitlement_eq_dec : EqDecision Entitlement.
Proof. solve_decision. Defined.

(** The rows of the join of mm_subscriptions with mm_subscription_tiers on tier_id. *)
Definition subscriptions_with_tier (p : SubRec → bool) (a : ApiTables) :
    list (SubRec * TierRec) :=
  s ← List.filter p (a_subscriptions a);
  pair s <$> List.filter (λ x, String.eqb (st_id x) (sb_tier_id s)) (a_tiers a).

Definition is_live (user creator : string) (now : DateTime) (s : SubRec) : bool :=
  String.eqb (sb_subscriber_user_id s) user && String.eqb (sb_creator_user_id s) creator &&
  String.eqb (sb_status s) "active" && (now <? sb_current_period_end s).

(** What the query answers at an instant. *)
Definition entitlement_of (user creator : string) (now : DateTime) (t : Tables) :
    option Entitlement :=
  (λ r : SubRec * TierRec, {| en_tier_level := st_tier_level r.2; en_tier_name := st_name r.2;
         en_expires_at := sb_current_period_end r.1 |})
  <$> head (order_desc (λ r : SubRec * TierRec, st_tier_level r.2)
        (subscriptions_with_tier (is_live user creator now) (t_api t))).

Definition query_entitlement (user creator : string) :
    st Db (result (option Entitlement) db_error) :=
  exec (λ now t, Ok (entitlement_of user creator now t, t)).

Section service.
Context {C R : Type} `{TtlCache C (string * string) (option Entitlement), Redis R}.
(** serde_json's printer and parser of [Option<Entitlement>]. *)
Variable ent_json : option Entitlement → string.
Variable ent_parse : string → option (option Entitlement).
(** Whether Redis is configured. *)
Variable has_redis : bool.

Definition redis_key (user creator : string) : string :=
  "entitlement:" +:+ user +:+ ":" +:+ creator.

(** The database, Redis and the process's own cache. *)
Abbreviation World := (Db * (R * C))%type.

Definition on_l1 (f : C → C) : st World () := λ w, ((), (w.1, (w.2.1, f w.2.2))).

Definition check (now : DateTime) (user creator : string) : st World (option Entitlement) :=
  λ w,
  match tc_get now (user, creator) w.2.2 with
  | Some cached => (cached, w)
  | None =>
      (let! hit :=
         (if has_redis then
            let! json := st_snd (st_fst (RedisCache.get now (redis_key user creator))) in
            st_ret (match json with Some j => ent_parse j | None => None end)
          else st_ret None) in
       match hit with
       | Some ent =>
           let! _ := on_l1 (tc_insert now (user, creator) ent) in
           st_ret ent
       | None =>
           let! r := st_fst (query_entitlement user creator) in
           match r with
           | Ok ent =>
               let! _ := on_l1 (tc_insert now (user, creator) ent) in
               let! _ :=
                 (if has_redis then
                    st_snd (st_fst (RedisCache.set now (redis_key user creator) (ent_json ent)
                      REDIS_TTL_SECS))
                  else st_ret (Ok ())) in
               st_ret ent
           | Err _ => st_ret None
           end
       end) w
  end.

Definition invalidate (user creator : string) : st World () :=
  let! _ := on_l1 (tc_invalidate (user, creator)) in
  if has_redis then
    let! _ := st_snd (st_fst (RedisCache.del (redis_key user creator))) in
    st_ret ()
  else st_ret ().
End service.

(** ** Histories of several processes *)
Inductive event : Type :=
  | Checked (process : nat) (user creator : string) (o : outcome)
  | Invalidated (process : nat) (user creator : string)
  | Wrote (t : Tables).       (** any change of the tables, by anyone *)

Section history.
Context {C R : Type} `{TtlCache C (string * string) (option Entitlement), Redis R}.
Variable ent_json : option Entitlement → string.
Variable ent_parse : string → option (option Entitlement).
Variable has_redis : bool.

Record Cluster : Type := {
  cl_now : DateTime;
  cl_tables : Tables;
  cl_redis : R;
  cl_l1 : nat → C;
  cl_past : list (DateTime * Tables)   (** every instant the database was consulted *)
}.

Definition set_l1 (i : nat) (c : C) (m : nat → C) : nat → C :=
  λ j, if decide (j = i) then c else m j.

(** One event, [delay] after the one before it: the answer of a check, and the cluster
    afterwards. *)
Definition cluster_step (delay : N) (ev : event) (cl : Cluster) :
    option (option Entitlement) * Cluster :=
  let now := cl_now cl + Z.of_N delay in
  let past := (now, cl_tables cl) :: cl_past cl in
  match ev with
  | Checked i user creator o =>
      let db := {| db_tables := cl_tables cl; db_now := now;
                   db_script := [{| tk_outcome := o; tk_now := now |}] |} in
      let '(a, w) := check ent_json ent_parse has_redis now user creator
                       (db, (cl_redis cl, cl_l1 cl i)) in
      (Some a, {| cl_now := now; cl_tables := db_tables w.1; cl_redis := w.2.1;
                  cl_l1 := set_l1 i w.2.2 (cl_l1 cl); cl_past := past |})
  | Invalidated i user creator =>
      let w := (invalidate has_redis user creator
                 (healthy (cl_tables cl) now, (cl_redis cl, cl_l1 cl i))).2 in
      (None, {| cl_now := now; cl_tables := cl_tables cl; cl_redis := w.2.1;
                cl_l1 := set_l1 i w.2.2 (cl_l1 cl); cl_past := past |})
  | Wrote t =>
      (None, {| cl_now := now; cl_tables := t; cl_redis := cl_redis cl;
                cl_l1 := cl_l1 cl; cl_past := past |})
  end.

Fixpoint cluster_run (evs : list (N * event)) (cl : Cluster) : Cluster :=
  match evs with
  | [] => cl
  | (d, ev) :: evs' => cluster_run evs' (cluster_step d ev cl).2
  end.

(** The pairs a history asks about. *)
Definition event_pair (ev : event) : option (string * string) :=
  match ev with Checked _ u c _ => Some (u, c) | _ => None end.

Context `{!TtlCacheLaws C (string * string) (option Entitlement) L1_TTL, !RedisLaws R}.
Hypothesis parse_json : ∀ e, ent_parse (ent_json e) = Some e.
(** The pairs a history asks about. *)
Variable pairs : string * string → Prop.

(** [v] was the database's answer at [t0], for the pair or for another one of the history
    whose Redis key is the same text. *)
Definition answered_at (past : list (DateTime * Tables)) (u c : string) (t0 : DateTime)
    (v : option Entitlement) : Prop :=
  ∃ tb u' c', (t0, tb) ∈ past ∧ pairs (u', c') ∧ redis_key u' c' = redis_key u c ∧
    v = entitlement_of u' c' t0 tb.

Record cluster_ok (cl : Cluster) : Prop := {
  ok_past : Forall (λ x, x.1 ≤ cl_now cl) (cl_past cl);
  ok_l1 i u c v t :
    pairs (u, c) → tc_entry (cl_l1 cl i) (u, c) = Some (v, t) →
    ∃ t0, t < t0 + seconds REDIS_TTL_SECS ∧ t0 ≤ cl_now cl ∧
      answered_at (cl_past cl) u c t0 v;
  ok_redis u c j e :
    pairs (u, c) → rd_entry (cl_redis cl) (RedisCache.key (redis_key u c)) = Some (j, e) →
    ∃ t0 v, e = t0 + seconds REDIS_TTL_SECS ∧ t0 ≤ cl_now cl ∧ j = ent_json v ∧
      answered_at (cl_past cl) u c t0 v
}.

Lemma answered_at_more past x u c t0 v :
  answered_at past u c t0 v → answered_at (x :: past) u c t0 v.
Proof. intros (tb & u' & c' & Hin & H'). exists tb, u', c'. split; [by right|done]. Qed.

Lemma answered_now past now tb u c :
  pairs (u, c) → answered_at ((now, tb) :: past) u c now (entitlement_of u c now tb).
Proof. intros Hp. exists tb, u, c. split; [left|done]. Qed.

Lemma redis_key_of_prefixed u c u' c' :
  RedisCache.key (redis_key u c) = RedisCache.key (redis_key u' c') →
  redis_key u c = redis_key u' c'.
Proof. apply (inj (String.append REDIS_PREFIX)). Qed.

(** What the caches may hold after a check, in terms of what they held before: an entry
    from before, or the answer of this check, itself an answer of the database now or of
    Redis. *)
Definition from_db_or_redis (now : DateTime) (tb : Tables) (r : R) (u c : string)
    (v : option Entitlement) : Prop :=
  v = entitlement_of u c now tb ∨
  ∃ j e, rd_entry r (RedisCache.key (redis_key u c)) = Some (j, e) ∧ now < e ∧
    ent_parse j = Some v.

Lemma redis_cache_get_spec now raw r :
  (∀ j, (RedisCache.get now raw r).1 = Some j →
    ∃ e, rd_entry r (RedisCache.key raw) = Some (j, e) ∧ now < e) ∧
  (∀ k x, rd_entry (RedisCache.get now raw r).2 k = Some x → rd_entry r k = Some x).
Proof.
  unfold RedisCache.get, st_bind. pose proof (redis_get_hit now (RedisCache.key raw) r) as Hh.
  pose proof (redis_get_keeps now (RedisCache.key raw) r) as Hk.
  destruct (redis_get now (RedisCache.key raw) r) as [[v|e] r']; simpl in *; split; try done.
  intros j ->. by apply Hh.
Qed.

(** What one check answers and what it leaves in the caches. *)
Record check_post (now : DateTime) (o : outcome) (db : Db) (r : R) (l1 : C) (u c : string)
    (a : option Entitlement) (w : Db * (R * C)) : Prop := {
  cp_db : w.1 = db ∨ w.1 = (query_entitlement u c db).2;
  cp_answer :
    (∃ t, tc_entry l1 (u, c) = Some (a, t) ∧ now < t + L1_TTL) ∨
    from_db_or_redis now (db_tables db) r u c a ∨ (a = None ∧ o ≠ Answered);
  cp_l1 k v t : tc_entry w.2.2 k = Some (v, t) →
    tc_entry l1 k = Some (v, t) ∨ (k = (u, c) ∧ t = now ∧ from_db_or_redis now (db_tables db) r u c v);
  cp_redis k x : rd_entry w.2.1 k = Some x →
    rd_entry r k = Some x ∨
    (k = RedisCache.key (redis_key u c) ∧
     x = (ent_json (entitlement_of u c now (db_tables db)), now + seconds REDIS_TTL_SECS))
}.

(** The next statement of [db] has outcome [o] at the instant [now]. *)
Definition next_at (db : Db) (o : outcome) (now : DateTime) : Prop :=
  (next_tick db).1 = {| tk_outcome := o; tk_now := now |}.

Lemma query_entitlement_spec now o db u c :
  next_at db o now →
  db_tables (query_entitlement u c db).2 = db_tables db ∧
  match (query_entitlement u c db).1 with
  | Ok v => v = entitlement_of u c now (db_tables db)
  | Err _ => o ≠ Answered
  end.
Proof.
  unfold query_entitlement, exec, next_at. destruct (next_tick db) as [k rest].
  simpl. intros ->. by destruct o.
Qed.

(** The part of a check that consults Redis. *)
Definition redis_hit (now : DateTime) (u c : string) : st (Db * (R * C)) (option (option Entitlement)) :=
  if has_redis then
    st_bind (st_snd (st_fst (RedisCache.get now (redis_key u c)))) (λ json,
    st_ret (match json with Some j => ent_parse j | None => None end))
  else st_ret None.

Lemma redis_hit_spec now u c (w : Db * (R * C)) :
  let h := redis_hit now u c w in
  h.2.1 = w.1 ∧ h.2.2.2 = w.2.2 ∧
  (∀ v, h.1 = Some v → ∃ j e, rd_entry w.2.1 (RedisCache.key (redis_key u c)) = Some (j, e) ∧
    now < e ∧ ent_parse j = Some v) ∧
  (∀ k x, rd_entry h.2.2.1 k = Some x → rd_entry w.2.1 k = Some x).
Proof.
  unfold redis_hit. destruct has_redis; [|by repeat split].
  unfold st_bind, st_snd, st_fst.
  destruct (redis_cache_get_spec now (redis_key u c) w.2.1) as [Hh Hk].
  destruct (RedisCache.get now (redis_key u c) w.2.1) as [j r'] eqn:E. cbn [fst snd st_ret] in *.
  repeat split; [|exact Hk]. intros v Hv. destruct j as [j|]; [|done].
  destruct (Hh j eq_refl) as (e & He & Hlt). eauto.
Qed.

(** The write-back to Redis. *)
Definition redis_fill (now : DateTime) (u c : string) (v : option Entitlement) :
    st (Db * (R * C)) (result () MMError.t) :=
  if has_redis then
    st_snd (st_fst (RedisCache.set now (redis_key u c) (ent_json v) REDIS_TTL_SECS))
  else st_ret (Ok ()).

Lemma redis_fill_spec now u c v (w : Db * (R * C)) :
  let h := redis_fill now u c v w in
  h.2.1 = w.1 ∧ h.2.2.2 = w.2.2 ∧
  (∀ k x, rd_entry h.2.2.1 k = Some x → rd_entry w.2.1 k = Some x ∨
    (k = RedisCache.key (redis_key u c) ∧ x = (ent_json v, now + seconds REDIS_TTL_SECS))).
Proof.
  unfold redis_fill. destruct has_redis; [|by simpl; repeat split; auto].
  unfold st_snd, st_fst, RedisCache.set, st_bind.
  pose proof (redis_set_entry now (RedisCache.key (redis_key u c)) (ent_json v) REDIS_TTL_SECS
    w.2.1) as Hs.
  destruct (redis_set_ex _ _ _ _ _) as [x r']. cbn [fst snd st_ret] in *.
  repeat split. intros k y Hy. apply Hs in Hy as [[-> ->]|Hy]; auto.
Qed.

Lemma l1_insert_spec now u c v l1 k x t :
  tc_entry (tc_insert now (u, c) v l1) k = Some (x, t) →
  tc_entry l1 k = Some (x, t) ∨ (k = (u, c) ∧ t = now ∧ x = v).
Proof. intros Hx. apply tc_insert_entry in Hx as [[-> [= -> ->]]|[_ Hx]]; auto. Qed.

Lemma check_spec now o db r l1 u c a w :
  next_at db o now →
  check ent_json ent_parse has_redis now u c (db, (r, l1)) = (a, w) →
  check_post now o db r l1 u c a w.
Proof.
  intros Hat. unfold check. cbn [fst snd]. destruct (tc_get now (u, c) l1) as [v|] eqn:Eg.
  { intros [= <- <-]. apply tc_get_hit in Eg as (t & Ht & Hlt). split; cbn [fst snd]; eauto. }
  fold (redis_hit now u c). unfold st_bind at 1.
  pose proof (redis_hit_spec now u c (db, (r, l1))) as (Hdb & Hl & Hh & Hk).
  destruct (redis_hit now u c _) as [hit [db1 [r1 l2]]]. cbn [fst snd] in *. subst db1 l2.
  destruct hit as [v|].
  { unfold st_bind, on_l1, st_ret. intros [= <- <-].
    assert (from_db_or_redis now (db_tables db) r u c v) as Hv by (right; by apply Hh).
    split; cbn [fst snd]; [by left|by auto| |by auto].
    intros k x t Hx. apply l1_insert_spec in Hx as [?|(-> & -> & ->)]; auto. }
  unfold st_bind at 1. unfold st_fst at 1. cbn [fst snd].
  pose proof (query_entitlement_spec now o db u c Hat) as [Hqt Hq].
  destruct (query_entitlement u c db) as [[v|e] db2] eqn:Eq; cbn [fst snd] in *;
    last by (intros [= <- <-]; split; cbn [fst snd]; rewrite ?Eq; auto).
  unfold st_bind at 1, on_l1 at 1. cbn [fst snd]. fold (redis_fill now u c v).
  unfold st_bind at 1.
  pose proof (redis_fill_spec now u c v (db2, (r1, tc_insert now (u, c) v l1)))
    as (Hfd & Hfl & Hfr).
  destruct (redis_fill now u c v _) as [z [db3 [r3 l3]]]. cbn [fst snd] in *. subst db3 l3.
  unfold st_ret. intros [= <- <-].
  assert (from_db_or_redis now (db_tables db) r u c v) as Hv by by left.
  split; cbn [fst snd]; [rewrite Eq; by right|by auto| |].
  - intros k x t Hx. apply l1_insert_spec in Hx as [?|(-> & -> & ->)]; auto.
  - intros k x Hx. apply Hfr in Hx as [Hx|[-> ->]]; [left; auto|right; by rewrite Hq].
Qed.

(** ** The invariant *)
Lemma from_db_or_redis_answered cl delay u c v :
  cluster_ok cl → pairs (u, c) →
  let now := cl_now cl + Z.of_N delay in
  from_db_or_redis now (cl_tables cl) (cl_redis cl) u c v →
  ∃ t0, now < t0 + seconds REDIS_TTL_SECS ∧ t0 ≤ now ∧
    answered_at ((now, cl_tables cl) :: cl_past cl) u c t0 v.
Proof.
  intros Hok Hp now [->|(j & e & He & Hlt & Hj)].
  - exists now. split; [unfold REDIS_TTL_SECS, seconds, NANOS; lia|]. split; [lia|].
    by apply answered_now.
  - destruct (ok_redis cl Hok u c j e Hp He) as (t0 & v' & -> & Ht & -> & Ha).
    rewrite parse_json in Hj. injection Hj as ->. exists t0. split; [lia|]. split; [lia|].
    by apply answered_at_more.
Qed.

Lemma past_le cl now : cl_now cl ≤ now → cluster_ok cl →
  Forall (λ x, x.1 ≤ now) ((now, cl_tables cl) :: cl_past cl).
Proof.
  intros Hle Hok. constructor; [done|]. eapply Forall_impl; [apply ok_past, Hok|].
  simpl. intros x ?. lia.
Qed.

Lemma l1_kept cl now i u c v t : cl_now cl ≤ now → cluster_ok cl → pairs (u, c) →
  tc_entry (cl_l1 cl i) (u, c) = Some (v, t) →
  ∃ t0, t < t0 + seconds REDIS_TTL_SECS ∧ t0 ≤ now ∧
    answered_at ((now, cl_tables cl) :: cl_past cl) u c t0 v.
Proof.
  intros Hle Hok Hp Ht. destruct (ok_l1 cl Hok i u c v t Hp Ht) as (t0 & ? & ? & ?).
  exists t0. repeat split; [lia..|by apply answered_at_more].
Qed.

Lemma redis_kept cl now u c j e : cl_now cl ≤ now → cluster_ok cl → pairs (u, c) →
  rd_entry (cl_redis cl) (RedisCache.key (redis_key u c)) = Some (j, e) →
  ∃ t0 v, e = t0 + seconds REDIS_TTL_SECS ∧ t0 ≤ now ∧ j = ent_json v ∧
    answered_at ((now, cl_tables cl) :: cl_past cl) u c t0 v.
Proof.
  intros Hle Hok Hp He. destruct (ok_redis cl Hok u c j e Hp He) as (t0 & v & ? & ? & ? & ?).
  exists t0, v. repeat split; [done|lia|done|by apply answered_at_more].
Qed.

(** One event keeps the invariant; a check's answer is the database's of less than 75
    seconds ago, or none because the database failed. *)
Lemma cluster_step_ok delay ev cl a cl' :
  cluster_ok cl → (∀ p, event_pair ev = Some p → pairs p) →
  cluster_step delay ev cl = (a, cl') →
  cluster_ok cl' ∧
  match ev, a with
  | Checked i u c o, Some v =>
      (∃ t0, cl_now cl' < t0 + seconds 75 ∧ t0 ≤ cl_now cl' ∧
        answered_at (cl_past cl') u c t0 v) ∨ (v = None ∧ o ≠ Answered)
  | _, _ => True
  end.
Proof.
  intros Hok Hp E. assert (Hle : cl_now cl ≤ cl_now cl + Z.of_N delay) by lia.
  destruct ev as [i u c o|i u c|t]; cbn [cluster_step] in E.
  - specialize (Hp _ eq_refl).
    destruct (check _ _ _ _ _ _ _) as [v w] eqn:Ec. injection E as <- <-.
    eapply (check_spec _ o) in Ec as [Htb Hans Hl1 Hrd]; [|done]. cbn [db_tables] in *. split.
    + split; cbn [cl_past cl_now cl_l1 cl_redis]; [by apply past_le| |].
      * intros j u' c' x t Hp' Hx. unfold set_l1 in Hx. case_decide as Hj.
        2: { by eapply (l1_kept cl _ j). }
        apply Hl1 in Hx as [Hx|([= -> ->] & -> & Hx)]; [by eapply (l1_kept cl _ i)|].
        by apply from_db_or_redis_answered.
      * intros u' c' j e Hp' Hx. apply Hrd in Hx as [Hx|[Hk [= -> ->]]];
          [by eapply redis_kept|].
        apply redis_key_of_prefixed in Hk. eexists _, _. repeat split; [lia|].
        exists (cl_tables cl), u, c. split; [left|done].
    + destruct Hans as [(t & Ht & Hlt)|[Hv|?]]; [left|left|by right];
        cbn [cl_now cl_past].
      * destruct (l1_kept cl (cl_now cl + Z.of_N delay) i u c v t Hle Hok Hp Ht)
          as (t0 & Hs & Ht0 & Ha).
        exists t0. unfold L1_TTL, REDIS_TTL_SECS, seconds, NANOS in *. repeat split; [lia..|done].
      * apply (from_db_or_redis_answered cl delay u c v Hok Hp) in Hv as (t0 & Hs & Ht0 & Ha).
        exists t0. unfold REDIS_TTL_SECS, seconds, NANOS in *. repeat split; [lia..|done].
  - injection E as <- <-. split; [|done].
    assert (Hinv : let w := (invalidate has_redis u c (healthy (cl_tables cl)
        (cl_now cl + Z.of_N delay), (cl_redis cl, cl_l1 cl i))).2 in
      (∀ k x, tc_entry w.2.2 k = Some x → tc_entry (cl_l1 cl i) k = Some x) ∧
      (∀ k x, rd_entry w.2.1 k = Some x → rd_entry (cl_redis cl) k = Some x)).
    { unfold invalidate, st_bind, on_l1. destruct has_redis.
      - unfold st_snd, st_fst, RedisCache.del, st_bind. cbn [fst snd].
        pose proof (redis_del_entry (RedisCache.key (redis_key u c)) (cl_redis cl)) as Hd.
        destruct (redis_del _ _) as [x r']. cbn [fst snd st_ret] in *. split; [|exact Hd].
        intros k x' Hx. by apply tc_invalidate_entry in Hx as [_ Hx].
      - cbn [fst snd st_ret]. split; [|done]. intros k x Hx.
        by apply tc_invalidate_entry in Hx as [_ Hx]. }
    destruct Hinv as [Hil Hir].
    split; cbn [cl_past cl_now cl_l1 cl_redis]; [by apply past_le| |].
    + intros j u' c' x t Hp' Hx. unfold set_l1 in Hx. case_decide.
      * apply Hil in Hx. by eapply (l1_kept cl _ i).
      * by eapply (l1_kept cl _ j).
    + intros u' c' j e Hp' Hx. apply Hir in Hx. by eapply redis_kept.
  - injection E as <- <-. split; [|done].
    split; cbn [cl_past cl_now cl_l1 cl_redis]; [by apply past_le|..].
    + intros. by eapply (l1_kept cl).
    + intros. by eapply redis_kept.
Qed.

Lemma cluster_run_ok evs cl :
  cluster_ok cl → (∀ d ev p, (d, ev) ∈ evs → event_pair ev = Some p → pairs p) →
  cluster_ok (cluster_run evs cl).
Proof.
  revert cl. induction evs as [|[d ev] evs IH]; intros cl Hok Hp; [done|].
  cbn [cluster_run]. destruct (cluster_step d ev cl) as [a cl'] eqn:E.
  apply IH.
  - eapply cluster_step_ok; [done| |exact E]. intros p. apply (Hp d). left.
  - intros d' ev' p Hin. apply (Hp d'). by right.
Qed.

(** Caches that hold nothing. *)
Definition cold (cl : Cluster) : Prop :=
  cl_past cl = [] ∧ (∀ i k, tc_entry (cl_l1 cl i) k = None) ∧
  (∀ k, rd_entry (cl_redis cl) k = None).

Lemma cold_ok cl : cold cl → cluster_ok cl.
Proof.
  intros (Hp & Hl & Hr). split; [by rewrite Hp|..]; intros; [by rewrite Hl in *|].
  by rewrite Hr in *.
Qed.
End history.

(** ** Concrete services *)

(** A cache that never evicts early, and a Redis that always answers. *)
Section map_services.
Context {K V : Type} `{Countable K}.

#[export] Instance map_cache (ttl : Z) : TtlCache (gmap K (V * DateTime)) K V := {
  tc_get now k c := match c !! k with
                    | Some (v, t) => if now <? t + ttl then Some v else None
                    | None => None
                    end;
  tc_insert now k v c := <[k := (v, now)]> c;
  tc_invalidate k c := delete k c
}.

Lemma map_cache_laws (ttl : Z) : @TtlCacheLaws (gmap K (V * DateTime)) K V (map_cache ttl) ttl.
Proof.
  refine {| tc_entry := λ c k, c !! k |}.
  - intros now k c v. simpl. destruct (c !! k) as [[x t]|]; [|done].
    destruct (Z.ltb_spec now (t + ttl)); [|done]. intros [= ->]. eauto.
  - intros now k v c k' x. simpl. destruct (decide (k' = k)) as [->|Hk].
    + rewrite lookup_insert_eq. intros [= <-]. by left.
    + rewrite lookup_insert_ne by done. by right.
  - intros k c k' x. simpl. destruct (decide (k' = k)) as [->|Hk].
    + by rewrite lookup_delete_eq.
    + by rewrite lookup_delete_ne by done.
Defined.
End map_services.

#[export] Instance map_redis : Redis (gmap string (string * DateTime)) := {
  redis_get now k := λ r, (Ok (match r !! k with
                               | Some (v, e) => if now <? e then Some v else None
                               | None => None
                               end), r);
  redis_set_ex now k v ttl := λ r, (Ok (), <[k := (v, now + seconds ttl)]> r);
  redis_del k := λ r, (Ok (), delete k r)
}.

#[export] Instance map_redis_laws : RedisLaws (gmap string (string * DateTime)).
Proof.
  refine {| rd_entry := λ r k, r !! k |}.
  - intros now k r v. simpl. destruct (r !! k) as [[x e]|]; [|done].
    destruct (Z.ltb_spec now e); [|done]. intros [= ->]. eauto.
  - done.
  - intros now k v ttl r k' x. simpl. destruct (decide (k' = k)) as [->|Hk].
    + rewrite lookup_insert_eq. intros [= <-]. by left.
    + rewrite lookup_insert_ne by done. by right.
  - intros k r k' x. simpl. destruct (decide (k' = k)) as [->|Hk].
    + by rewrite lookup_delete_eq.
    + by rewrite lookup_delete_ne by done.
Defined.

(** A printer of values with a parser that inverts it. *)
Fixpoint bits_text (p : positive) : string :=
  match p with
  | xH => "!" | xO q => String "0"%char (bits_text q) | xI q => String "1"%char (bits_text q)
  end.

Fixpoint text_bits (s : string) : option positive :=
  match s with
  | EmptyString => None
  | String c s' =>
      if Ascii.eqb c "!"%char then Some xH
      else if Ascii.eqb c "0"%char then xO <$> text_bits s'
      else xI <$> text_bits s'
  end.

Lemma text_bits_text p : text_bits (bits_text p) = Some p.
Proof. induction p as [p IH|p IH|]; simpl; [by rewrite IH..|done]. Qed.

Definition print_value {A} `{Countable A} (a : A) : string := bits_text (encode a).
Definition parse_value {A} `{Countable A} (s : string) : option A := p ← text_bits s; decode p.

Lemma parse_print_value {A} `{Countable A} (a : A) : parse_value (print_value a) = Some a.
Proof. unfold parse_value, print_value. rewrite text_bits_text. simpl. apply decode_encode. Qed.

#[export] Instance Entitlement_countable : Countable Entitlement.
Proof.
  apply (inj_countable' (λ e, (en_tier_level e, en_tier_name e, en_expires_at e))
    (λ '(l, n, x), {| en_tier_level := l; en_tier_name := n; en_expires_at := x |})).
  by intros [].
Defined.

(** The keys of subscribers of one homeserver are distinct. *)
Definition of_server (server u : string) : Prop :=
  ∃ name, u = "@" +:+ name +:+ ":" +:+ server ∧ ¬ has_char ":"%char name.

Lemma before_colon_unique a b x y :
  ¬ has_char ":"%char a → ¬ has_char ":"%char b → a +:+ ":" +:+ x = b +:+ ":" +:+ y → a = b ∧ x = y.
Proof.
  revert b. induction a as [|c a IH]; intros [|d b] Ha Hb E.
  - by injection E.
  - injection E as <- _. exfalso. apply Hb. unfold has_char. simpl. left.
  - injection E as -> _. exfalso. apply Ha. unfold has_char. simpl. left.
  - injection E as <- E. destruct (IH b) as [-> ->]; [| |exact E|done];
      intros Hx; [apply Ha|apply Hb]; unfold has_char in *; simpl; by right.
Qed.

Lemma redis_key_inj_of_server server u c u' c' :
  of_server server u → of_server server u' →
  redis_key u c = redis_key u' c' → (u, c) = (u', c').
Proof.
  intros (n & -> & Hn) (n' & -> & Hn') E. unfold redis_key in E.
  apply (inj (String.append "entitlement:")) in E. rewrite !string_app_assoc in E.
  apply (inj (String.append "@")) in E.
  apply before_colon_unique in E as [-> E]; [|done..].
  apply (inj (String.append server)) in E. apply (inj (String.append ":")) in E. by subst.
Qed.

(** Of subscribers of different homeservers they are not: a port number can be read as
    the front of the creator's id. *)
Lemma redis_key_collides :
  redis_key "@a:b" "8448:@c:d" = redis_key "@a:b:8448" "@c:d".
Proof. reflexivity. Qed.

(** ** Freshness *)

(** The pair was asked about by the history, or is the one asked about now. *)
Definition asked (evs : list (N * event)) (u c : string) (p : string * string) : Prop :=
  p = (u, c) ∨ ∃ d ev, (d, ev) ∈ evs ∧ event_pair ev = Some p.

(** C26. An answer is never older than 75 seconds: for every number of server processes,
    every order of checks, invalidations and table changes with any delays between
    them, caches that start empty and may lose entries and a Redis whose commands may fail, a
    check answers what the database answered less than 75 seconds before, or answers that
    there is no entitlement because the database failed. The answer is the one for the
    subscriber and the creator of the check, or for another pair the history asked about
    whose Redis key is the same text: the key joins the two ids by a colon, which both may
    contain ([redis_key_collides]); it is the one of the check itself when the subscribers
    asked about are users of one homeserver. A check is one instant: the time a query takes
    comes on top of the 75 seconds. *)
Theorem entitlement_at_most_75s_old {C R : Type}
    `{TtlCache C (string * string) (option Entitlement), Redis R}
    `{!TtlCacheLaws C (string * string) (option Entitlement) L1_TTL, !RedisLaws R}
    (ent_json : option Entitlement → string) (ent_parse : string → option (option Entitlement))
    (has_redis : bool) (cl : @Cluster C R)
    (evs : list (N * event)) (delay : N) (i : nat) (u c : string) (o : outcome)
    (v : option Entitlement) (cl' : @Cluster C R) :
  (∀ e, ent_parse (ent_json e) = Some e) → cold cl →
  cluster_step ent_json ent_parse has_redis delay (Checked i u c o)
    (cluster_run ent_json ent_parse has_redis evs cl) = (Some v, cl') →
  (∃ t0 tb u' c', cl_now cl' - seconds 75 < t0 ≤ cl_now cl' ∧ (t0, tb) ∈ cl_past cl' ∧
     v = entitlement_of u' c' t0 tb ∧
     asked evs u c (u', c') ∧ redis_key u' c' = redis_key u c ∧
     ((∃ server, ∀ x y, asked evs u c (x, y) → of_server server x) → (u', c') = (u, c))) ∨
  (v = None ∧ o ≠ Answered).
Proof.
  intros Hjson Hcold E.
  pose proof (cluster_run_ok ent_json ent_parse has_redis Hjson (asked evs u c) evs cl
    (cold_ok _ _ _ Hcold)) as Hok.
  apply (cluster_step_ok _ _ _ Hjson (asked evs u c)) in E as [_ E];
    [|apply Hok; unfold asked; eauto|by intros p [= <-]; left].
  destruct E as [(t0 & Hlt & Hle & tb & u' & c' & Hin & Hp & Hk & Hv)|?]; [left|by right].
  exists t0, tb, u', c'. split; [lia|]. do 4 (split; [done|]). intros (server & Hs).
  eapply redis_key_inj_of_server; [by eapply Hs|eapply Hs; by left|done].
Qed.

(** A subscription of level 3, and the same one cancelled. *)
Definition ex_tier : TierRec := {|
  st_id := "t3"; st_creator_user_id := Some "@c:x"; st_room_id := None; st_name := "Gold";
  st_description := None; st_price_cents := 999; st_currency := "usd"; st_tier_level := 3;
  st_perks_json := JArr []; st_badge_url := None; st_is_active := true;
  st_stripe_price_id := None; st_permissions := JObj []; st_created_at := 0;
  st_updated_at := 0 |}.
Definition ex_sub : SubRec := {|
  sb_id := "s1"; sb_subscriber_user_id := "@u:x"; sb_creator_user_id := "@c:x";
  sb_room_id := None; sb_tier_id := "t3"; sb_status := "active";
  sb_stripe_subscription_id := Some "sub_1"; sb_current_period_end := seconds 1000;
  sb_cancelled_at := None; sb_created_at := 0; sb_updated_at := 0 |}.
Definition ex_subscribed : Tables :=
  set_api (set_subscriptions [ex_sub] (set_tiers [ex_tier] no_api)) no_tables.
Definition ex_cancelled : Tables :=
  set_api (set_subscriptions [cancelled 1 ex_sub] (set_tiers [ex_tier] no_api)) no_tables.

Abbreviation ex_l1 := (gmap (string * string) (option Entitlement * DateTime)) (only parsing).

Definition ex_cluster : @Cluster ex_l1 (gmap string (string * DateTime)) := {|
  cl_now := 0; cl_tables := ex_subscribed; cl_redis := ∅; cl_l1 := λ _, ∅; cl_past := []
|}.

(** Process 0 fills both caches, the subscription is cancelled a second later, and
    process 1 finds the entry in Redis just before it expires. *)
Definition ex_events : list (N * event) :=
  [(0%N, Checked 0 "@u:x" "@c:x" Answered);
   (1000000000%N, Wrote ex_cancelled);
   (58000000000%N, Checked 1 "@u:x" "@c:x" Answered)].

#[local] Instance ex_l1_cache : TtlCache ex_l1 (string * string) (option Entitlement) :=
  map_cache L1_TTL.
#[local] Instance ex_l1_laws :
  TtlCacheLaws ex_l1 (string * string) (option Entitlement) L1_TTL := map_cache_laws L1_TTL.

(** The check of process 1 just before its own entry expires. *)
Definition ex_last : option (option Entitlement) * Cluster :=
  cluster_step print_value parse_value true 14999999999%N (Checked 1 "@u:x" "@c:x" Answered)
    (cluster_run print_value parse_value true ex_events ex_cluster).

(** The bound is approached: 73 seconds after the cancellation the old answer is still
    given. *)
Lemma entitlement_at_most_75s_old_witness :
  option_map (option_map en_tier_level) ex_last.1 = Some (Some 3) ∧
  ∃ v cl', ex_last = (Some v, cl') ∧
    ∃ t0 tb, cl_now cl' - seconds 75 < t0 ≤ cl_now cl' ∧ (t0, tb) ∈ cl_past cl' ∧
      v = entitlement_of "@u:x" "@c:x" t0 tb.
Proof.
  split; [vm_compute; reflexivity|]. destruct ex_last as [[v|] cl'] eqn:E.
  2: { exfalso. apply (f_equal fst) in E. vm_compute in E. discriminate. }
  exists v, cl'. split; [done|].
  destruct (entitlement_at_most_75s_old print_value parse_value true ex_cluster ex_events
    14999999999%N 1 "@u:x" "@c:x" Answered v cl')
    as [(t0 & tb & u' & c' & Ht & Hin & Hv & _ & _ & Hone)|[_ ?]];
    [apply parse_print_value| |exact E| |done].
  - split; [done|]. split; [intros i k; apply lookup_empty|intros k; apply lookup_empty].
  - exists t0, tb. split; [done|]. split; [done|]. rewrite Hv.
    enough ((u', c') = ("@u:x", "@c:x")) as [= -> ->] by done.
    apply Hone. exists "x". intros x y Hxy.
    assert (x = "@u:x") as ->.
    { destruct Hxy as [[= -> _]|(d & ev & Hin' & Hev)]; [done|]. unfold ex_events in Hin'.
      repeat (apply elem_of_cons in Hin' as [Hin'|Hin']; [injection Hin' as -> ->; by simplify_eq/=|]).
      by apply elem_of_nil in Hin'. }
    exists "u". split; [done|]. vm_compute. intros Hc. inversion Hc; subst. by inversion H1.
Defined.
