(* ===== verification/TierGate.v ===== *)
(** * TierGate: what a viewer may do, and which streams and recordings it may watch

    [TierPermissions] of [mm-core/src/permissions.rs], the permission gate of
    [mm-api/src/middleware/tier_gate.rs] with its 60-second cache, and the gates of
    [mm-api/src/client.rs] that use it: joining a stream up to the capacity check, and
    watching a recording. *)
From S2P Require Import Prelude F64 ApiSchema Schema Errors Text Guards MoneyDb Entitlement.
Local Open Scope Z_scope.
Local Open Scope mm_scope.

(** ** Permissions *)
Record TierPermissions : Type := {
  can_read : bool;
  can_send : bool;
  can_react : bool;
  can_comment : bool;
  can_watch_recordings : bool;
  can_join_live : bool;
  can_tip : bool;
  can_manage_room : bool
}.

#[export] Instance TierPermissions_eq_dec : EqDecision TierPermissions.
Proof. solve_decision. Defined.

Module Permissions.
Definition default : TierPermissions := {|
  can_read := false; can_send := false; can_react := false; can_comment := false;
  can_watch_recordings := false; can_join_live := false; can_tip := false;
  can_manage_room := false |}.

Definition spectator_default : TierPermissions := {|
  can_read := true; can_send := can_send default; can_react := can_react default;
  can_comment := can_comment default;
  can_watch_recordings := can_watch_recordings default;
  can_join_live := can_join_live default; can_tip := true;
  can_manage_room := can_manage_room default |}.

Definition full_size_user_default : TierPermissions := {|
  can_read := true; can_send := true; can_react := true; can_comment := true;
  can_watch_recordings := true; can_join_live := true; can_tip := true;
  can_manage_room := false |}.

(** serde's printer of the struct: a flat object. *)
Definition to_value (p : TierPermissions) : json_value :=
  JObj [("can_read", JBool (can_read p)); ("can_send", JBool (can_send p));
        ("can_react", JBool (can_react p)); ("can_comment", JBool (can_comment p));
        ("can_watch_recordings", JBool (can_watch_recordings p));
        ("can_join_live", JBool (can_join_live p)); ("can_tip", JBool (can_tip p));
        ("can_manage_room", JBool (can_manage_room p))].

(** A field of an object: absent is [false], anything but a boolean is refused. *)
Fixpoint field (name : string) (l : list (string * json_value)) : option bool :=
  match l with
  | [] => Some false
  | (k, v) :: l' =>
      if String.eqb k name then match v with JBool b => Some b | _ => None end
      else field name l'
  end.

(** The element at an index of an array; past the end it is [false]. *)
Definition element (i : nat) (l : list json_value) : option bool :=
  match l !! i with
  | None => Some false
  | Some (JBool b) => Some b
  | Some _ => None
  end.

Definition build (get : string → nat → option bool) : option TierPermissions :=
  a ← get "can_read" 0%nat; b ← get "can_send" 1%nat; c ← get "can_react" 2%nat;
  d ← get "can_comment" 3%nat; e ← get "can_watch_recordings" 4%nat;
  f ← get "can_join_live" 5%nat; g ← get "can_tip" 6%nat; h ← get "can_manage_room" 7%nat;
  Some {| can_read := a; can_send := b; can_react := c; can_comment := d;
          can_watch_recordings := e; can_join_live := f; can_tip := g;
          can_manage_room := h |}.

(** serde's parser with [#[serde(default)]]: an object, or an array in the order of the
    fields with nothing after them. *)
Definition from_value (v : json_value) : option TierPermissions :=
  match v with
  | JObj l => build (λ name _, field name l)
  | JArr l => if (length l <=? 8)%nat then build (λ _ i, element i l) else None
  | _ => None
  end.

Lemma from_value_to_value p : from_value (to_value p) = Some p.
Proof. by destruct p. Qed.

Lemma from_value_empty : from_value (JObj []) = Some default.
Proof. reflexivity. Qed.
End Permissions.

Definition perms_from_blob (blob : json_value) : TierPermissions :=
  match Permissions.from_value blob with
  | Some p => p
  | None => Permissions.spectator_default
  end.

(** ** Resolution *)

(** [ORDER BY k1 DESC, k2 DESC]. *)
Definition lex_desc {A} (k1 k2 : A → Z) (a b : A) : Prop :=
  k1 b < k1 a ∨ (k1 a = k1 b ∧ k2 b ≤ k2 a).

#[export] Instance lex_desc_dec {A} (k1 k2 : A → Z) : RelDecision (lex_desc k1 k2).
Proof. intros a b. unfold lex_desc. apply _. Defined.
#[export] Instance lex_desc_total {A} (k1 k2 : A → Z) : Total (lex_desc k1 k2).
Proof. intros a b. unfold lex_desc. lia. Qed.
#[export] Instance lex_desc_trans {A} (k1 k2 : A → Z) : Transitive (lex_desc k1 k2).
Proof. intros a b c. unfold lex_desc. lia. Qed.

Definition in_scope (room : string) (s : SubRec) : bool :=
  String.eqb (scope (sb_room_id s)) room || String.eqb (scope (sb_room_id s)) "".
Definition room_first (room : string) (r : SubRec * TierRec) : Z :=
  if String.eqb (scope (sb_room_id r.1)) room then 1 else 0.

(** The permissions of the best active subscription that covers the room. *)
Definition active_blob (user creator room : string) (now : DateTime) (t : Tables) :
    option json_value :=
  (λ r : SubRec * TierRec, st_permissions r.2) <$>
  head (merge_sort (lex_desc (room_first room) (λ r, st_tier_level r.2))
    (subscriptions_with_tier (λ s, is_live user creator now s && in_scope room s) (t_api t))).

(** The permissions of the room's Spectator tier. *)
Definition spectator_tier_blob (creator room : string) (t : Tables) : option json_value :=
  st_permissions <$> head (List.filter (λ x,
    of_creator creator x && String.eqb (scope (st_room_id x)) room &&
    (st_tier_level x =? 0) && st_is_active x) (a_tiers (t_api t))).

(** [.ok().flatten()]: a failed query counts as no row. *)
Definition row_or_none {A} (r : result (option A) db_error) : option A :=
  match r with Ok x => x | Err _ => None end.

Definition resolve_with_pool (user creator room : string) : st Db TierPermissions :=
  let! active := exec (λ now t, Ok (active_blob user creator room now t, t)) in
  match row_or_none active with
  | Some blob => st_ret (perms_from_blob blob)
  | None =>
      let! spectator := exec (reading (spectator_tier_blob creator room)) in
      match row_or_none spectator with
      | Some blob => st_ret (perms_from_blob blob)
      | None => st_ret Permissions.spectator_default
      end
  end.

Definition PERMISSIONS_TTL : Z := seconds 60.

Section gate.
Context {C R P : Type} `{TtlCache C (string * string) (option Entitlement), Redis R}.
Context `{TtlCache P (string * string) TierPermissions}.
Variable ent_json : option Entitlement → string.
Variable ent_parse : string → option (option Entitlement).
Variable has_redis : bool.
Variable state : ApiState.

(** The database, the entitlement caches, and the permissions cache. *)
Abbreviation World := ((Db * (R * C)) * P)%type.

Definition in_db {A} (m : st Db A) : st World A := st_fst (st_fst m).

Definition resolve_effective_permissions (user creator room : string) :
    st World (result TierPermissions MMError.t) :=
  if negb (as_has_pg_pool state) then st_ret (Ok Permissions.spectator_default)
  else let! p := in_db (resolve_with_pool user creator room) in st_ret (Ok p).

Definition effective_permissions (now : DateTime) (user creator room : string) :
    st World (result TierPermissions MMError.t) := λ w,
  match tc_get now (user, room) w.2 with
  | Some cached => (Ok cached, w)
  | None =>
      (let? resolved := resolve_effective_permissions user creator room in
       let! _ := st_snd (λ p, ((), tc_insert now (user, room) resolved p)) in
       st_ret (Ok resolved)) w
  end.

Definition require_permission (now : DateTime) (user creator room : string)
    (predicate : TierPermissions → bool) : st World (result () MMError.t) :=
  let? perms := effective_permissions now user creator room in
  if predicate perms then st_ret (Ok ())
  else st_ret (Err (MMError.api ErrorCode.PermissionDenied
                      "Your tier does not permit this action")).

(** ** Gates *)
Definition get_content_gate (kind id : string) : st Db (result (option GateRec) MMError.t) :=
  if negb (mc_enabled (as_config state)) then st_ret (Ok None)
  else db_get_content_gate kind id.

Definition check_entitlement_of (now : DateTime) (user creator : string) :
    st World (option Entitlement) :=
  st_fst (check ent_json ent_parse has_redis now user creator).

(** [ent.map(|e| e.tier_level).unwrap_or(0)]. *)
Definition level_or_0 (e : option Entitlement) : Z :=
  match e with Some e => en_tier_level e | None => 0 end.

(** The legacy gate: a row of mm_content_gates names the creator and the level. *)
Definition content_gate (now : DateTime) (user stream_id : string) :
    st World (result () MMError.t) :=
  if negb (as_has_entitlement state) then st_ret (Ok ())
  else
    let? gate := in_db (get_content_gate "stream" stream_id) in
    match gate with
    | None => st_ret (Ok ())
    | Some g =>
        let! ent := check_entitlement_of now user (cg_creator_user_id g) in
        match ent with
        | Some e =>
            if en_tier_level e <? cg_min_tier_level g
            then st_ret (Err (MMError.api ErrorCode.InsufficientTier
              ("Requires tier level " +:+ fmt_i64 (cg_min_tier_level g) +:+
               " or higher (you have " +:+ fmt_i64 (en_tier_level e) +:+ ")")))
            else st_ret (Ok ())
        | None =>
            st_ret (Err (MMError.api ErrorCode.ContentGated
              ("This stream requires a tier " +:+ fmt_i64 (cg_min_tier_level g) +:+
               " subscription to the creator")))
        end
    end.

(** The capability and the level a tier-gated item requires. *)
Definition tier_requirement (now : DateTime) (user host room : string) (min : Z)
    (predicate : TierPermissions → bool) (what : string) : st World (result () MMError.t) :=
  let? _ := require_permission now user host room predicate in
  let! ent := check_entitlement_of now user host in
  if level_or_0 ent <? min
  then st_ret (Err (MMError.api ErrorCode.TierTooLow
    ("Requires tier level " +:+ fmt_i64 min +:+ " or higher to watch this " +:+ what)))
  else st_ret (Ok ()).

(** [join_stream] up to the capacity check. *)
Definition join_gate (now : DateTime) (user stream_id : string) :
    st World (result (StreamRec * RoomRec) MMError.t) :=
  let? stream := in_db (get_stream stream_id) in
  match stream with
  | None => st_ret (Err (MMError.api ErrorCode.NotFound "stream not found"))
  | Some s =>
      if String.eqb (sr_status s) "ended"
      then st_ret (Err (MMError.api ErrorCode.StreamEnded "stream has ended"))
      else
        let? _ := content_gate now user stream_id in
        let? room := in_db (get_room (sr_room_id s)) in
        match room with
        | None => st_ret (Err (MMError.Internal "room not found for stream"))
        | Some r =>
            let? _ := (match sr_min_tier_level s with
                       | Some min =>
                           if (0 <? min) && as_has_entitlement state
                           then tier_requirement now user (sr_host_user_id s)
                                  (rm_matrix_room_id r) min can_join_live "stream"
                           else st_ret (Ok ())
                       | None => st_ret (Ok ())
                       end) in
            st_ret (Ok (s, r))
        end
  end.

Definition recording_is_tier_gated (min_tier_level : option Z) : bool :=
  match min_tier_level with Some m => 0 <? m | None => false end.

Definition is_entitled_to_recording (now : DateTime) (viewer matrix_room_id : string)
    (recording : RecordingRec) : st World bool :=
  if String.eqb viewer (rec_host_user_id recording) then st_ret true
  else if negb (as_has_entitlement state) then st_ret true
  else
    match rec_min_tier_level recording with
    | Some min =>
        if negb (recording_is_tier_gated (Some min)) then st_ret true
        else
          let! perms := effective_permissions now viewer (rec_host_user_id recording)
                          matrix_room_id in
          match perms with
          | Err _ => st_ret true
          | Ok p =>
              if negb (can_watch_recordings p) then st_ret false
              else
                let! ent := check_entitlement_of now viewer (rec_host_user_id recording) in
                st_ret (min <=? level_or_0 ent)
          end
    | None => st_ret true
    end.

(** The gate of [get_recording], before the playable URL is built. *)
Definition recording_gate (now : DateTime) (user : string) (recording : RecordingRec) :
    st World (result () MMError.t) :=
  match rec_min_tier_level recording with
  | Some min =>
      if recording_is_tier_gated (Some min) && as_has_entitlement state &&
         negb (String.eqb user (rec_host_user_id recording))
      then
        let? room := in_db (get_room (rec_room_id recording)) in
        match room with
        | Some r => tier_requirement now user (rec_host_user_id recording)
                      (rm_matrix_room_id r) min can_watch_recordings "recording"
        | None => st_ret (Ok ())
        end
      else st_ret (Ok ())
  | None => st_ret (Ok ())
  end.
End gate.

(** ** What the gates decide *)

(** The permissions the tables give a viewer of a room at an instant. *)
Definition permissions_of (user creator room : string) (now : DateTime) (t : Tables) :
    TierPermissions :=
  match active_blob user creator room now t with
  | Some blob => perms_from_blob blob
  | None => match spectator_tier_blob creator room t with
            | Some blob => perms_from_blob blob
            | None => Permissions.spectator_default
            end
  end.

(** A subscription of [user] to [creator] that is live and covers the room, with its
    tier. *)
Definition covering (user creator room : string) (now : DateTime) (t : Tables)
    (s : SubRec) (x : TierRec) : Prop :=
  s ∈ a_subscriptions (t_api t) ∧ x ∈ a_tiers (t_api t) ∧ st_id x = sb_tier_id s ∧
  sb_subscriber_user_id s = user ∧ sb_creator_user_id s = creator ∧
  sb_status s = "active" ∧ now < sb_current_period_end s ∧
  (scope (sb_room_id s) = room ∨ scope (sb_room_id s) = "").

Lemma elem_of_filter_bool {A} (p : A → bool) (l : list A) x :
  x ∈ List.filter p l ↔ x ∈ l ∧ p x = true.
Proof. rewrite !list_elem_of_In. apply filter_In. Qed.

Lemma elem_of_subscriptions_with_tier p a s x :
  (s, x) ∈ subscriptions_with_tier p a ↔
  s ∈ a_subscriptions a ∧ p s = true ∧ x ∈ a_tiers a ∧ st_id x = sb_tier_id s.
Proof.
  unfold subscriptions_with_tier. rewrite list_elem_of_bind. setoid_rewrite list_elem_of_fmap.
  setoid_rewrite elem_of_filter_bool. setoid_rewrite String.eqb_eq. naive_solver.
Qed.

Lemma is_live_spec user creator now s :
  is_live user creator now s = true ↔
  sb_subscriber_user_id s = user ∧ sb_creator_user_id s = creator ∧
  sb_status s = "active" ∧ now < sb_current_period_end s.
Proof. unfold is_live. rewrite !andb_true_iff, !String.eqb_eq, Z.ltb_lt. naive_solver. Qed.

Lemma elem_of_covering user creator room now t s x :
  (s, x) ∈ subscriptions_with_tier (λ s, is_live user creator now s && in_scope room s)
             (t_api t) ↔ covering user creator room now t s x.
Proof.
  rewrite elem_of_subscriptions_with_tier, andb_true_iff, is_live_spec. unfold in_scope, covering.
  rewrite orb_true_iff, !String.eqb_eq. naive_solver.
Qed.

(** The entitlement of a user is the highest level among its live subscriptions to the
    creator, whatever their room. *)
Lemma entitlement_is_highest user creator now t e :
  entitlement_of user creator now t = Some e ↔
  ∃ s x rest, order_desc (λ r : SubRec * TierRec, st_tier_level r.2)
      (subscriptions_with_tier (is_live user creator now) (t_api t)) = (s, x) :: rest ∧
    e = {| en_tier_level := st_tier_level x; en_tier_name := st_name x;
           en_expires_at := sb_current_period_end s |}.
Proof.
  unfold entitlement_of. destruct (order_desc _ _) as [|[s x] rest]; simpl; [naive_solver|].
  split; [intros [= <-]; eauto 10|by intros (? & ? & ? & [= <- <- <-] & ->)].
Qed.

(** A level is held exactly when some live subscription reaches it. *)
Lemma level_reached user creator now t min :
  0 < min →
  (min ≤ level_or_0 (entitlement_of user creator now t) ↔
   ∃ s x, s ∈ a_subscriptions (t_api t) ∧ is_live user creator now s = true ∧
     x ∈ a_tiers (t_api t) ∧ st_id x = sb_tier_id s ∧ min ≤ st_tier_level x).
Proof.
  intros Hmin. destruct (entitlement_of user creator now t) as [e|] eqn:E; simpl.
  - apply entitlement_is_highest in E as (s & x & rest & Eo & ->). simpl.
    apply order_desc_head in Eo as [Hin Hmax].
    apply elem_of_subscriptions_with_tier in Hin as (? & ? & ? & ?). split; [eauto 10|].
    intros (s' & x' & ? & ? & ? & ? & ?).
    assert (Hx : (s', x') ∈ subscriptions_with_tier (is_live user creator now) (t_api t))
      by (by apply elem_of_subscriptions_with_tier).
    specialize (Hmax _ Hx). simpl in Hmax. lia.
  - split; [lia|]. intros (s & x & ? & ? & ? & ? & ?). exfalso.
    unfold entitlement_of in E.
    assert (Hx : (s, x) ∈ order_desc (λ r : SubRec * TierRec, st_tier_level r.2)
      (subscriptions_with_tier (is_live user creator now) (t_api t))).
    { rewrite elem_of_order_desc. by apply elem_of_subscriptions_with_tier. }
    destruct (order_desc _ _); [by apply elem_of_nil in Hx|done].
Qed.

(** The permissions of a subscriber are those of its best covering subscription: one
    scoped to the room before a creator-wide one, then the higher level. *)
Lemma permissions_of_best user creator room now t :
  (∃ s x, covering user creator room now t s x ∧
     permissions_of user creator room now t = perms_from_blob (st_permissions x) ∧
     ∀ s' x', covering user creator room now t s' x' →
       (scope (sb_room_id s') = room → scope (sb_room_id s) = room) ∧
       ((scope (sb_room_id s') = room ↔ scope (sb_room_id s) = room) →
        st_tier_level x' ≤ st_tier_level x)) ∨
  ((∀ s x, ¬ covering user creator room now t s x) ∧
   permissions_of user creator room now t =
     default Permissions.spectator_default
       (perms_from_blob <$> spectator_tier_blob creator room t)).
Proof.
  unfold permissions_of, active_blob.
  set (l := subscriptions_with_tier _ _).
  pose proof (StronglySorted_merge_sort (lex_desc (room_first room)
    (λ r : SubRec * TierRec, st_tier_level r.2)) l) as Hs.
  pose proof (merge_sort_Permutation (lex_desc (room_first room)
    (λ r : SubRec * TierRec, st_tier_level r.2)) l) as Hp.
  destruct (merge_sort _ l) as [|[s x] rest]; simpl.
  - right. split; [|by destruct (spectator_tier_blob creator room t)].
    intros s x Hc. apply elem_of_covering in Hc. fold l in Hc. rewrite <-Hp in Hc.
    by apply elem_of_nil in Hc.
  - left. exists s, x. split; [apply elem_of_covering; fold l; rewrite <-Hp; left|].
    split; [done|]. intros s' x' Hc. apply elem_of_covering in Hc. fold l in Hc.
    rewrite <-Hp in Hc. inversion Hs as [|? ? _ Hall]; subst.
    apply elem_of_cons in Hc as [[= -> ->]|Hc]; [done|].
    rewrite Forall_forall in Hall. specialize (Hall _ Hc). unfold lex_desc, room_first in Hall.
    simpl in Hall. destruct (String.eqb_spec (scope (sb_room_id s)) room),
      (String.eqb_spec (scope (sb_room_id s')) room); split; intros; try lia; naive_solver.
Qed.

Lemma resolve_with_pool_healthy user creator room t now :
  resolve_with_pool user creator room (healthy t now) =
    (permissions_of user creator room now t, healthy t now).
Proof.
  unfold resolve_with_pool, st_bind, permissions_of. rewrite exec_healthy. cbn [row_or_none].
  destruct (active_blob user creator room now t); [done|]. rewrite exec_healthy.
  unfold reading. cbn [row_or_none]. by destruct (spectator_tier_blob creator room t).
Qed.

(** The answer and the state a call leaves, the state being kept right. *)
Ltac outcome_of := eexists _, _; split; [reflexivity|]; split; [assumption|].

Section exact.
Context {C R P : Type} `{TtlCache C (string * string) (option Entitlement), Redis R}.
Context `{TtlCache P (string * string) TierPermissions}.
Context `{!TtlCacheLaws C (string * string) (option Entitlement) L1_TTL, !RedisLaws R}.
Context `{!TtlCacheLaws P (string * string) TierPermissions PERMISSIONS_TTL}.
Variable ent_json : option Entitlement → string.
Variable ent_parse : string → option (option Entitlement).
Variable has_redis : bool.
Variable state : ApiState.
Variables (now : DateTime) (t : Tables).
Hypothesis parse_json : ∀ e, ent_parse (ent_json e) = Some e.
(** The viewer, and the host and the room of what it asks for. *)
Variables u host room : string.

(** The database answers, and the caches hold for the viewer nothing but the present answers
    of the tables. The permissions cached for the viewer and the room, if any, are those of
    this host: the cache is keyed without it. *)
Record current (w : (Db * (R * C)) * P) : Prop := {
  cur_db : w.1.1 = healthy t now;
  cur_l1 c v s : tc_entry w.1.2.2 (u, c) = Some (v, s) → v = entitlement_of u c now t;
  cur_redis c j e : rd_entry w.1.2.1 (RedisCache.key (redis_key u c)) = Some (j, e) →
    ent_parse j = Some (entitlement_of u c now t);
  cur_perms p s : tc_entry w.2 (u, room) = Some (p, s) → p = permissions_of u host room now t
}.

Lemma in_db_reading {A} (f : Tables → A) w :
  current w → in_db (asking (reading f)) w = (Ok (f t), w).
Proof.
  intros [Hdb _ _ _]. destruct w as [[db x] p]. simpl in Hdb. subst db.
  unfold in_db, st_fst, asking, st_bind. cbn [fst snd]. by rewrite exec_healthy.
Qed.

Lemma check_current c w :
  current w →
  ∃ w', check_entitlement_of ent_json ent_parse has_redis now u c w =
          (entitlement_of u c now t, w') ∧ current w'.
Proof.
  intros [Hdb Hl1 Hrd Hpm]. destruct w as [[db [r l1]] p]. cbn [fst snd] in *. subst db.
  unfold check_entitlement_of, st_fst. cbn [fst snd].
  destruct (check _ _ _ _ _ _ _) as [a w'] eqn:E.
  eapply (check_spec _ _ _ _ Answered) in E as [Hw Ha Hl Hr]; [|done]. cbn [db_tables healthy] in *.
  assert (Hfresh : ∀ v, from_db_or_redis ent_parse now t r u c v → v = entitlement_of u c now t).
  { intros v [->|(j & e & He & _ & Hj)]; [done|]. apply Hrd in He. congruence. }
  assert (a = entitlement_of u c now t) as ->.
  { destruct Ha as [(s & Hs & _)|[Hv|[_ Hv]]]; [by eapply Hl1|by apply Hfresh|done]. }
  eexists. split; [done|]. split; cbn [fst snd].
  - destruct Hw as [->| ->]; [done|]. unfold query_entitlement. by rewrite exec_healthy.
  - intros c' v s Hv. apply Hl in Hv as [Hv|([= ->] & _ & Hv)]; eauto.
  - intros c' j e Hj. apply Hr in Hj as [Hj|[Hk [= -> ->]]]; [eauto|].
    rewrite parse_json. do 2 f_equal. apply redis_key_of_prefixed in Hk. unfold redis_key in Hk.
    by apply (inj (String.append "entitlement:")), (inj (String.append u)),
      (inj (String.append ":")) in Hk.
  - exact Hpm.
Qed.

Lemma effective_permissions_current w :
  current w → as_has_pg_pool state = true →
  ∃ w', effective_permissions state now u host room w =
          (Ok (permissions_of u host room now t), w') ∧ current w'.
Proof.
  intros [Hdb Hl1 Hrd Hpm] Hpg. destruct w as [[db x] p]. cbn [fst snd] in *. subst db.
  unfold effective_permissions. cbn [snd].
  destruct (tc_get now (u, room) p) as [q|] eqn:E.
  { apply tc_get_hit in E as (s & Hs & _). rewrite <-(Hpm _ _ Hs). eauto using current. }
  unfold resolve_effective_permissions. rewrite Hpg. cbn [negb].
  unfold st_try, st_bind, in_db, st_fst, st_snd, st_ret. cbn [fst snd].
  rewrite resolve_with_pool_healthy. cbn [fst snd]. eexists. split; [done|].
  split; cbn [fst snd]; [done..|]. intros q s Hq.
  apply tc_insert_entry in Hq as [[_ [= -> _]]|[_ Hq]]; eauto.
Qed.

Lemma tier_requirement_current min predicate what w :
  current w → as_has_pg_pool state = true →
  ∃ w' r, tier_requirement ent_json ent_parse has_redis state now u host room min
            predicate what w = (r, w') ∧ current w' ∧
    (r = Ok () ↔ predicate (permissions_of u host room now t) = true ∧
                 min ≤ level_or_0 (entitlement_of u host now t)).
Proof.
  intros Hw Hpg. unfold tier_requirement, require_permission, st_try.
  destruct (effective_permissions_current w Hw Hpg) as (w1 & E1 & Hw1).
  unfold st_bind at 1 2. rewrite E1.
  destruct (predicate _) eqn:Ep; unfold st_ret at 1.
  - destruct (check_current host w1 Hw1) as (w2 & E2 & Hw2).
    unfold st_bind at 1. rewrite E2. destruct (Z.ltb_spec (level_or_0
      (entitlement_of u host now t)) min).
    + outcome_of. split; [done|]. intros [_ ?]. lia.
    + by outcome_of.
  - outcome_of. split; [done|]. by intros [? _].
Qed.

Lemma content_gate_current stream_id w :
  current w →
  ∃ w' r, content_gate ent_json ent_parse has_redis state now u stream_id w = (r, w') ∧
    current w' ∧
    (r = Ok () ↔
     (as_has_entitlement state = true → mc_enabled (as_config state) = true →
      ∀ g, a_gates (t_api t) !! ("stream", stream_id) = Some g →
        ∃ e, entitlement_of u (cg_creator_user_id g) now t = Some e ∧
          cg_min_tier_level g ≤ en_tier_level e)).
Proof.
  intros Hw. unfold content_gate.
  destruct (as_has_entitlement state); cbn [negb]; [|by outcome_of].
  unfold get_content_gate. destruct (mc_enabled (as_config state)); cbn [negb].
  2: { destruct w as [[db x] p]. by outcome_of. }
  unfold db_get_content_gate, st_try. unfold st_bind at 1. rewrite in_db_reading by done.
  destruct (a_gates (t_api t) !! ("stream", stream_id)) as [g|] eqn:Eg.
  2: { by outcome_of. }
  destruct (check_current (cg_creator_user_id g) w Hw) as (w1 & E1 & Hw1).
  unfold st_bind at 1. rewrite E1.
  destruct (entitlement_of u (cg_creator_user_id g) now t) as [e|] eqn:Ee.
  - destruct (Z.ltb_spec (en_tier_level e) (cg_min_tier_level g)).
    + outcome_of. split; [done|]. intros Hx.
      destruct (Hx eq_refl eq_refl g eq_refl) as (e' & He & ?). simplify_eq. lia.
    + outcome_of. split; [|done]. intros _ _ _ g' [= <-]. eauto.
  - outcome_of. split; [done|]. intros Hx.
    destruct (Hx eq_refl eq_refl g eq_refl) as (e' & He & _). congruence.
Qed.

(** What the tables ask of a viewer of the stream. *)
Definition entitled (stream_id : string) (s : StreamRec) : Prop :=
  (mc_enabled (as_config state) = true →
   ∀ g, a_gates (t_api t) !! ("stream", stream_id) = Some g →
     ∃ e, entitlement_of u (cg_creator_user_id g) now t = Some e ∧
       cg_min_tier_level g ≤ en_tier_level e) ∧
  (∀ min, sr_min_tier_level s = Some min → 0 < min →
     can_join_live (permissions_of u host room now t) = true ∧
     min ≤ level_or_0 (entitlement_of u host now t)).

(** The part of a join before the capacity check passes exactly when the stream has not ended
    and the tables entitle the viewer. *)
Lemma join_gate_exact stream_id w s r :
  current w → as_has_pg_pool state = true →
  t_streams t !! stream_id = Some s → a_rooms (t_api t) !! sr_room_id s = Some r →
  sr_host_user_id s = host → rm_matrix_room_id r = room →
  ∃ q w', join_gate ent_json ent_parse has_redis state now u stream_id w = (q, w') ∧ current w' ∧
    (∀ x, q = Ok x → x = (s, r)) ∧
    (is_ok q = true ↔
     sr_status s ≠ "ended" ∧ (as_has_entitlement state = true → entitled stream_id s)).
Proof.
  intros Hw Hpg Es Er Hh Hr. unfold join_gate, get_stream, st_try.
  unfold st_bind at 1. rewrite in_db_reading by done. rewrite Es.
  destruct (String.eqb_spec (sr_status s) "ended") as [He|He].
  { outcome_of. split; [done|]. naive_solver. }
  unfold st_bind at 1.
  destruct (content_gate_current stream_id w Hw) as (w1 & g & Eg & Hw1 & Hg).
  rewrite Eg. destruct g as [[]|e]; cbn [fst snd].
  2: { outcome_of. split; [done|]. split; [done|]. intros [_ Hent]. exfalso.
       assert (Hx : Err e = Ok ()) by (apply Hg; intros Ha; by apply Hent). done. }
  assert (Hgate := proj1 Hg eq_refl). clear Hg.
  unfold get_room. unfold st_bind at 1. rewrite in_db_reading by done. rewrite Er.
  destruct (sr_min_tier_level s) as [min|] eqn:Em.
  2: { unfold st_bind, st_ret. outcome_of. split; [by intros ? [= <-]|]. split; [|done].
       intros _. split; [done|]. intros Ha. split; [by apply Hgate|congruence]. }
  destruct (Z.ltb_spec 0 min) as [Hm|Hm]; cbn [andb].
  2: { unfold st_bind, st_ret. outcome_of. split; [by intros ? [= <-]|]. split; [|done].
       intros _. split; [done|]. intros Ha. split; [by apply Hgate|].
       intros min' Hm' ?. simplify_eq. lia. }
  destruct (as_has_entitlement state) eqn:Ha.
  2: { unfold st_bind, st_ret. outcome_of. split; [by intros ? [= <-]|]. by split. }
  rewrite Hh, Hr. unfold st_bind at 1.
  destruct (tier_requirement_current min can_join_live "stream" w1 Hw1 Hpg)
    as (w2 & q & Eq & Hw2 & Hq). rewrite Eq.
  destruct q as [[]|e]; unfold st_ret.
  - assert (Hreq := proj1 Hq eq_refl). outcome_of. split; [by intros ? [= <-]|]. split; [|done].
    intros _. split; [done|]. intros _. split; [by apply Hgate|].
    intros min' Hm' ?. by simplify_eq.
  - outcome_of. split; [done|]. split; [done|]. intros [_ Hent].
    destruct (Hent eq_refl) as [_ Hreq]. specialize (Hreq min Em Hm).
    assert (Hx : Err e = Ok ()) by (by apply Hq). done.
Qed.
End exact.

(** ** Examples *)
Definition ex_state : ApiState := {|
  as_config := {| mc_enabled := true; mc_donations_enabled := true;
    mc_subscriptions_enabled := true; mc_min_donation_cents := 100;
    mc_max_donation_cents := 10000; mc_platform_fee_pct := Fin 0; mc_postgres_url := "p";
    mc_stripe_secret_key := "sk_test_1"; mc_stripe_publishable_key := "pk";
    mc_webhook_signing_secret := "whsec_0123456789012345678901234567";
    mc_stripe_api_base := default_stripe_api_base; mc_redis_url := ""; mc_lnbits_enabled := true;
    mc_lnbits_url := ""; mc_lnbits_invoice_key := ""; mc_lnbits_admin_key := "";
    mc_demo_mode := false |};
  as_has_pg_pool := true; as_has_entitlement := true; as_has_registry := true;
  as_public_url := None |}.

Definition ex_full_tier : TierRec :=
  with_tier_fields "Gold" None (JArr [])
    (Permissions.to_value Permissions.full_size_user_default) 0 ex_tier.

Definition ex_stream_row (min : option Z) : StreamRec := {|
  sr_host_user_id := "@c:x"; sr_status := "active"; sr_started_at := 0; sr_room_id := 1;
  sr_min_tier_level := min; sr_media_type := "video"; sr_title := None;
  sr_sfu_room_id := None; sr_participant_count := 0; sr_ended_at := None;
  sr_state_event_id := None; sr_feed_started_event_id := None; sr_ended_event_id := None;
  sr_marker_generation := 1; sr_e2ee := false; sr_e2ee_algorithm := None;
  sr_e2ee_key_id := None; sr_e2ee_key_generation := None; sr_e2ee_key_b64 := None |}.
Definition ex_room_row : RoomRec := {| rm_matrix_room_id := "!r:x"; rm_max_participants := 10 |}.

(** A stream for level 3 in a room of "@c:x", and a subscriber of that level. *)
Definition ex_gated : Tables := {|
  t_generation := 1; t_desired := ∅; t_nodes := ∅; t_wallets := ∅; t_transactions := [];
  t_tx_seq := 1; t_rate_card := []; t_usage := []; t_usage_seq := 1; t_baseline := ∅;
  t_demotion := ∅; t_demotion_events := [];
  t_streams := {[ "b1" := ex_stream_row (Some 3) ]};
  t_api := {| a_profiles := ∅; a_donations := []; a_webhook_log := ∅;
    a_tiers := [ex_full_tier]; a_subscriptions := [ex_sub]; a_gates := ∅;
    a_rooms := {[ 1 := ex_room_row ]}; a_moderation := no_moderation; a_uuids := []; a_feed := no_feed; a_media := no_media; a_settings := no_settings;
    a_ads := no_ads |} |}.

Abbreviation ex_perms := (gmap (string * string) (TierPermissions * DateTime)) (only parsing).

#[local] Instance ex_ent_cache : TtlCache ex_l1 (string * string) (option Entitlement) :=
  map_cache L1_TTL.
#[local] Instance ex_ent_laws :
  TtlCacheLaws ex_l1 (string * string) (option Entitlement) L1_TTL := map_cache_laws L1_TTL.
#[local] Instance ex_perm_cache : TtlCache ex_perms (string * string) TierPermissions :=
  map_cache PERMISSIONS_TTL.
#[local] Instance ex_perm_laws :
  TtlCacheLaws ex_perms (string * string) TierPermissions PERMISSIONS_TTL :=
  map_cache_laws PERMISSIONS_TTL.

Definition ex_world (t : Tables) :
    (Db * (gmap string (string * DateTime) * ex_l1)) * ex_perms :=
  ((healthy t 5, (∅, ∅)), ∅).

(** The permissions cache is keyed by subscriber and room alone, so the answer for one
    host is given for every other host of the room for a minute. *)
Lemma permissions_cache_ignores_creator (state : ApiState) (now : DateTime)
    (u a b room : string) (w w' : (Db * (gmap string (string * DateTime) * ex_l1)) * ex_perms)
    (p : TierPermissions) :
  effective_permissions state now u a room w = (Ok p, w') →
  (effective_permissions state now u b room w').1 = Ok p.
Proof.
  unfold effective_permissions at 1. destruct (tc_get now (u, room) w.2) as [q|] eqn:E.
  - intros [= <- <-]. unfold effective_permissions. by rewrite E.
  - unfold st_try, st_bind, st_snd, st_ret.
    destruct (resolve_effective_permissions state u a room w) as [[q|] w1]; [|done].
    intros [= <- <-]. unfold effective_permissions. simpl. rewrite lookup_insert_eq.
    assert ((now <? now + PERMISSIONS_TTL) = true) as ->; [|done].
    apply Z.ltb_lt. unfold PERMISSIONS_TTL, seconds, NANOS. lia.
Qed.

(** A query that fails for a subscriber leaves the Spectator's permissions in the cache:
    a later join is refused although the database answers again. *)
Lemma failed_query_is_cached :
  let w0 := (({| db_tables := ex_gated; db_now := 5; db_script :=
      [{| tk_outcome := Lost "reset"; tk_now := 5 |}; {| tk_outcome := Answered; tk_now := 5 |}] |},
      (∅, ∅)), ∅) : (Db * (gmap string (string * DateTime) * ex_l1)) * ex_perms in
  let w1 := (effective_permissions ex_state 5 "@u:x" "@c:x" "!r:x" w0).2 in
  is_ok (join_gate print_value parse_value true ex_state 5 "@u:x" "b1" (ex_world ex_gated)).1
    = true ∧
  is_ok (join_gate print_value parse_value true ex_state 30 "@u:x" "b1" w1).1 = false.
Proof. vm_compute. split; reflexivity. Qed.
