(* ===== verification/Feed.v ===== *)
(** * Feed: the newsfeed index and its client endpoints

    [mm-db/src/feed_db.rs] and [mm-api/src/feed.rs]: the rows of mm_feed_items, keyset
    pagination with its cursor, the engagement counters, and the two client endpoints. A
    byte string is its bytes; base64, hex, SHA-256 and PostgreSQL's text of a JSON value
    are parameters. *)
From Stdlib Require Import Ascii.
From S2P Require Import Prelude ApiSchema Json Schema Errors Text MatrixClient MoneyDb Donations.
From S2P Require Import Entitlement.
Local Open Scope Z_scope.
Local Open Scope mm_scope.

(** ** Cursors *)
Definition u64_of_i64 (z : Z) : Z := z mod 18446744073709551616.
Definition i64_of_u64 (u : Z) : Z :=
  if u <? 9223372036854775808 then u else u - 18446744073709551616.

Definition byte (n : Z) : ascii := ascii_of_nat (Z.to_nat n).

(** [to_be_bytes] of [n] bytes, and back. *)
Fixpoint be_bytes (n : nat) (u : Z) : string :=
  match n with
  | O => EmptyString
  | S n' => String (byte (u / 256 ^ Z.of_nat n' mod 256)) (be_bytes n' u)
  end.

Fixpoint of_be_bytes (n : nat) (s : string) (acc : Z) : Z :=
  match n, s with
  | S n', String c s' => of_be_bytes n' s' (acc * 256 + Z.of_nat (nat_of_ascii c))
  | _, _ => acc
  end.

Fixpoint skip (n : nat) (s : string) : string :=
  match n, s with
  | S n', String _ s' => skip n' s'
  | _, _ => s
  end.

Record FeedCursor : Type := { fc_ts : Z; fc_id : string }.

(** The codecs and hashes of libraries. *)
Class FeedText : Type := {
  b64_encode : string → string;
  b64_decode : string → option string;
  hex : string → string;
  unhex : string → option string;
  sha2_256 : string → string;
  json_as_text : json_value → string;
  url_encode : string → string
}.

Section cursor.
Context `{FeedText}.

Definition cursor_encode (c : FeedCursor) : string :=
  b64_encode (be_bytes 8 (u64_of_i64 (fc_ts c)) +:+ fc_id c).

Definition cursor_decode (s : string) : result FeedCursor string :=
  match b64_decode s with
  | None => Err "cursor: not base64url"
  | Some raw =>
      if (String.length raw <? 8)%nat then Err "cursor: too short"
      else if is_empty_str (skip 8 raw) then Err "cursor: missing id"
      else Ok {| fc_ts := i64_of_u64 (of_be_bytes 8 raw 0); fc_id := skip 8 raw |}
  end.

Definition make_item_id (user_id event_id : string) : string :=
  sha2_256 (user_id +:+ "|" +:+ event_id).
End cursor.

(** ** Rows *)
Definition on_feed {A} (f : FeedTables → result (A * FeedTables) db_error) : stmt A :=
  on_api (λ _ a, match f (a_feed a) with
                 | Ok (x, f') => Ok (x, set_feed f' a)
                 | Err e => Err e
                 end).

Definition feed_of (t : Tables) : FeedTables := a_feed (t_api t).

Definition set_items (l : list FeedRec) (f : FeedTables) : FeedTables :=
  {| f_items := l; f_refs := f_refs f; f_mm_enabled := f_mm_enabled f |}.
Definition set_refs (m : gmap string EngagementRef) (f : FeedTables) : FeedTables :=
  {| f_items := f_items f; f_refs := m; f_mm_enabled := f_mm_enabled f |}.

Definition new_item (id user room event kind : string) (ts : Z) (origin : string)
    (payload : json_value) : FeedRec := {|
  fi_id := id; fi_user_id := user; fi_room_id := room; fi_event_id := event; fi_kind := kind;
  fi_ts := ts; fi_origin := origin; fi_payload := payload; fi_seen_at := None;
  fi_hidden := false; fi_reactions_count := 0; fi_comments_count := 0 |}.

(** The primary key and the unique (user_id, event_id). *)
Definition conflicts (x y : FeedRec) : bool :=
  String.eqb (fi_id x) (fi_id y) ||
  (String.eqb (fi_user_id x) (fi_user_id y) && String.eqb (fi_event_id x) (fi_event_id y)).

(** INSERT ... ON CONFLICT DO NOTHING, row after row: the rows and how many are new. *)
Fixpoint insert_rows (new : list FeedRec) (l : list FeedRec) : list FeedRec * Z :=
  match new with
  | [] => (l, 0)
  | x :: new' =>
      if existsb (conflicts x) l then insert_rows new' l
      else let '(l', n) := insert_rows new' (l ++ [x]) in (l', 1 + n)
  end.

Definition insert_stmt (rows : list FeedRec) : stmt Z := on_feed (λ f,
  let '(l, n) := insert_rows rows (f_items f) in Ok (n, set_items l f)).

Definition insert_feed_item (x : FeedRec) : st Db (result () db_error) :=
  let? _ := exec (insert_stmt [x]) in st_ret (Ok ()).

Definition FEED_INSERT_CHUNK : nat := 500.

(** [chunks(n)]; the length of the list is enough fuel. *)
Fixpoint chunks_go {A} (fuel n : nat) (l : list A) : list (list A) :=
  match fuel, l with
  | S fuel', _ :: _ => take n l :: chunks_go fuel' n (drop n l)
  | _, _ => []
  end.
Definition chunks {A} (n : nat) (l : list A) : list (list A) := chunks_go (length l) n l.

(** One statement per chunk; the first that fails ends the batch. *)
Fixpoint insert_chunks (cs : list (list FeedRec)) (inserted : Z) : st Db (result Z db_error) :=
  match cs with
  | [] => st_ret (Ok inserted)
  | c :: cs' =>
      let? n := exec (insert_stmt c) in insert_chunks cs' (inserted + n)
  end.

(** The parallel arrays, zipped. *)
Definition insert_feed_items_batch (ids user_ids : list string) (room event kind : string)
    (ts : Z) (origin : string) (payload : json_value) : st Db (result Z db_error) :=
  if bool_decide (ids = []) then st_ret (Ok 0)
  else
    insert_chunks
      (zip_with (λ i u, zip_with (λ id user, new_item id user room event kind ts origin payload)
         i u) (chunks FEED_INSERT_CHUNK ids) (chunks FEED_INSERT_CHUNK user_ids)) 0.

(** ** Counters *)
Definition with_reactions (n : Z) (x : FeedRec) : FeedRec := {|
  fi_id := fi_id x; fi_user_id := fi_user_id x; fi_room_id := fi_room_id x;
  fi_event_id := fi_event_id x; fi_kind := fi_kind x; fi_ts := fi_ts x;
  fi_origin := fi_origin x; fi_payload := fi_payload x; fi_seen_at := fi_seen_at x;
  fi_hidden := fi_hidden x; fi_reactions_count := n;
  fi_comments_count := fi_comments_count x |}.
Definition with_comments (n : Z) (x : FeedRec) : FeedRec := {|
  fi_id := fi_id x; fi_user_id := fi_user_id x; fi_room_id := fi_room_id x;
  fi_event_id := fi_event_id x; fi_kind := fi_kind x; fi_ts := fi_ts x;
  fi_origin := fi_origin x; fi_payload := fi_payload x; fi_seen_at := fi_seen_at x;
  fi_hidden := fi_hidden x; fi_reactions_count := fi_reactions_count x;
  fi_comments_count := n |}.
Definition hidden_item (x : FeedRec) : FeedRec := {|
  fi_id := fi_id x; fi_user_id := fi_user_id x; fi_room_id := fi_room_id x;
  fi_event_id := fi_event_id x; fi_kind := fi_kind x; fi_ts := fi_ts x;
  fi_origin := fi_origin x; fi_payload := fi_payload x; fi_seen_at := fi_seen_at x;
  fi_hidden := true; fi_reactions_count := fi_reactions_count x;
  fi_comments_count := fi_comments_count x |}.
Definition seen_item (now_ms : Z) (x : FeedRec) : FeedRec := {|
  fi_id := fi_id x; fi_user_id := fi_user_id x; fi_room_id := fi_room_id x;
  fi_event_id := fi_event_id x; fi_kind := fi_kind x; fi_ts := fi_ts x;
  fi_origin := fi_origin x; fi_payload := fi_payload x; fi_seen_at := Some now_ms;
  fi_hidden := fi_hidden x; fi_reactions_count := fi_reactions_count x;
  fi_comments_count := fi_comments_count x |}.

(** UPDATE of the rows that satisfy [p]: how many there were. *)
Definition update_items (p : FeedRec → bool) (f : FeedRec → FeedRec) (t : FeedTables) :
    Z * FeedTables :=
  (Z.of_nat (length (List.filter p (f_items t))),
   set_items ((λ x, if p x then f x else x) <$> f_items t) t).

Definition i32_max : Z := 2147483647.

(** Adding one to an INT column is refused when a row is at the end of its range. *)
Definition bump (get : FeedRec → Z) (put : Z → FeedRec → FeedRec) (room event : string) :
    stmt Z := on_feed (λ f,
  let p x := String.eqb (fi_event_id x) event && String.eqb (fi_room_id x) room in
  if existsb (λ x, p x && (i32_max <=? get x)) (f_items f)
  then Err (refused "integer out of range")
  else Ok (update_items p (λ x, put (get x + 1) x) f)).

(** [GREATEST(count - 1, 0)]; the smallest INT cannot be reached, counts start at 0. *)
Definition unbump (get : FeedRec → Z) (put : Z → FeedRec → FeedRec) (room event : string) :
    stmt Z := on_feed (λ f,
  Ok (update_items (λ x, String.eqb (fi_event_id x) event && String.eqb (fi_room_id x) room)
        (λ x, put (Z.max (get x - 1) 0) x) f)).

Definition increment_reactions_count (room event : string) : st Db (result Z db_error) :=
  exec (bump fi_reactions_count with_reactions room event).
Definition decrement_reactions_count (room event : string) : st Db (result Z db_error) :=
  exec (unbump fi_reactions_count with_reactions room event).
Definition increment_comments_count (room event : string) : st Db (result Z db_error) :=
  exec (bump fi_comments_count with_comments room event).
Definition decrement_comments_count (room event : string) : st Db (result Z db_error) :=
  exec (unbump fi_comments_count with_comments room event).

(** ** Engagement references *)
Definition insert_engagement_ref (event target room kind : string) : st Db (result () db_error) :=
  exec (on_feed (λ f, Ok ((), match f_refs f !! event with
    | Some _ => f
    | None => set_refs (<[event := {| eg_target_event_id := target; eg_room_id := room;
                                      eg_kind := kind |}]> (f_refs f)) f
    end))).

Definition lookup_engagement_ref (event : string) :
    st Db (result (option EngagementRef) db_error) :=
  exec (reading (λ t, f_refs (feed_of t) !! event)).

Definition delete_engagement_ref (event : string) : st Db (result () db_error) :=
  exec (on_feed (λ f, Ok ((), set_refs (delete event (f_refs f)) f))).

Definition mark_hidden_by_event (event : string) : st Db (result Z db_error) :=
  exec (on_feed (λ f, Ok (update_items (λ x, String.eqb (fi_event_id x) event) hidden_item f))).

Definition mark_seen (user : string) (ids : list string) (now_ms : Z) :
    st Db (result Z db_error) :=
  if bool_decide (ids = []) then st_ret (Ok 0)
  else exec (on_feed (λ f, Ok (update_items (λ x,
    String.eqb (fi_user_id x) user && mem (fi_id x) ids &&
    match fi_seen_at x with None => true | Some _ => false end) (seen_item now_ms) f))).

(** ** Reading pages *)
Record FeedItem : Type := {
  fx_id : string;
  fx_ts : Z;
  fx_room_id : string;
  fx_event_id : string;
  fx_kind : string;
  fx_origin : string;
  fx_seen : bool;
  fx_payload : json_value;
  fx_reactions_count : Z;
  fx_comments_count : Z;
  fx_author_creator_profile_id : option string
}.

Record FeedPage : Type := {
  pg_items : list FeedItem;
  pg_next : option string;
  pg_since_returned : Z
}.

(** [(ts DESC, id DESC)]. *)
Definition newer (x y : FeedRec) : Prop :=
  fi_ts y < fi_ts x ∨ (fi_ts x = fi_ts y ∧ String.le (fi_id y) (fi_id x)).

#[export] Instance newer_dec : RelDecision newer.
Proof. intros x y. unfold newer. apply _. Defined.
#[export] Instance newer_total : Total newer.
Proof.
  intros x y. unfold newer. destruct (total String.le (fi_id x) (fi_id y)); lia || (destruct (Z.lt_trichotomy (fi_ts x) (fi_ts y)) as [|[|]]; auto).
Qed.
#[export] Instance newer_trans : Transitive newer.
Proof.
  intros x y z. unfold newer. intros [|[E1 L1]] [|[E2 L2]]; [left; lia..|].
  right. split; [lia|]. by etrans.
Qed.

(** What a reader sees: own rows that are not hidden, of the kinds and rooms asked for. *)
Record FeedFilter : Type := {
  ff_user : string;
  ff_kinds : list string;
  ff_room : option string;
  ff_muted : list string
}.

Definition visible (q : FeedFilter) (x : FeedRec) : bool :=
  String.eqb (fi_user_id x) (ff_user q) && negb (fi_hidden x) &&
  (bool_decide (ff_kinds q = []) || mem (fi_kind x) (ff_kinds q)) &&
  match ff_room q with Some r => String.eqb (fi_room_id x) r | None => true end &&
  negb (mem (fi_room_id x) (ff_muted q)).

(** [id < $n] on BYTEA. *)
Definition bytes_lt (a b : string) : bool := bool_decide (String.le a b) && negb (String.eqb a b).

Definition before (since : option FeedCursor) (x : FeedRec) : bool :=
  match since with
  | None => true
  | Some c => (fi_ts x <? fc_ts c) || ((fi_ts x =? fc_ts c) && bytes_lt (fi_id x) (fc_id c))
  end.

Section pages.
Context `{FeedText}.

(** LEFT JOIN on payload->>'author_user_id'. *)
Definition author_profile (t : Tables) (payload : json_value) : option string :=
  match jget "author_user_id" payload with
  | None | Some JNull => None
  | Some v =>
      cp_id <$> a_profiles (t_api t) !! match v with JStr s => s | _ => json_as_text v end
  end.

Definition feed_item (t : Tables) (x : FeedRec) : FeedItem := {|
  fx_id := hex (fi_id x); fx_ts := fi_ts x; fx_room_id := fi_room_id x;
  fx_event_id := fi_event_id x; fx_kind := fi_kind x; fx_origin := fi_origin x;
  fx_seen := match fi_seen_at x with Some _ => true | None => false end;
  fx_payload := fi_payload x; fx_reactions_count := fi_reactions_count x;
  fx_comments_count := fi_comments_count x;
  fx_author_creator_profile_id := author_profile t (fi_payload x) |}.

(** The query: at most [lim + 1] rows, each with the joined profile. *)
Definition page_rows (q : FeedFilter) (since : option FeedCursor) (lim : Z) (t : Tables) :
    list (FeedRec * FeedItem) :=
  (λ x, (x, feed_item t x)) <$> limit (lim + 1) (merge_sort newer
    (List.filter (λ x, visible q x && before since x) (f_items (feed_of t)))).

Definition cursor_of (x : FeedRec) : FeedCursor := {| fc_ts := fi_ts x; fc_id := fi_id x |}.

(** One row more than asked for tells that there is a next page. *)
Definition page_of (lim : Z) (rows : list (FeedRec * FeedItem)) : FeedPage :=
  let shown := take (Z.to_nat lim) rows in {|
  pg_items := snd <$> shown;
  pg_next := if lim <? Z.of_nat (length rows)
             then (λ r : FeedRec * FeedItem, cursor_encode (cursor_of r.1)) <$> last shown
             else None;
  pg_since_returned := Z.of_nat (length shown) |}.

Definition get_feed_items (q : FeedFilter) (since : option FeedCursor) (lim : Z) :
    st Db (result FeedPage db_error) :=
  let lim := clamp 1 100 lim in
  let? rows := exec (reading (page_rows q since lim)) in
  st_ret (Ok (page_of lim rows)).
End pages.

(** ** The endpoints *)
Section endpoints.
Context {N M : Type} `{FeedText, Http N, TtlCache M string (list string)}.
Variable feed_enabled : bool.
Variable homeserver_url as_token : string.

(** The database, the services and the cache of muted rooms. *)
Abbreviation World := ((Db * N) * M)%type.

Definition strings_in (v : json_value) : option (list string) :=
  match v with JArr l => Some (omap as_str l) | _ => None end.

(** An object with a list of rooms, or the list itself. *)
Definition muted_of (body : json_value) : list string :=
  match jget "rooms" body ≫= strings_in with
  | Some l => l
  | None => default [] (strings_in body)
  end.

Definition fetch_muted_rooms_uncached (user : string) : st N (list string) :=
  let! r := http_send {| rq_method := "GET";
    rq_url := homeserver_url +:+ "/_matrix/client/v3/user/" +:+ url_encode user +:+
              "/account_data/com.steegler.matrixmedia.feed_muted";
    rq_bearer := Some as_token; rq_query := [("user_id", user)]; rq_json := None;
    rq_timeout_secs := None |} in
  st_ret (match r with
    | Err _ => []
    | Ok resp =>
        if is_success (rs_status resp)
        then match rs_json resp with Ok v => muted_of v | Err _ => [] end
        else []
    end).

Definition fetch_muted_rooms (now : DateTime) (user : string) : st World (list string) := λ w,
  match tc_get now user w.2 with
  | Some cached => (cached, w)
  | None =>
      (let! fetched := st_fst (st_snd (fetch_muted_rooms_uncached user)) in
       let! _ := st_snd (λ m, ((), tc_insert now user fetched m)) in
       st_ret fetched) w
  end.

(** [s.split(',')]. *)
Fixpoint split_commas (s acc : string) : list string :=
  match s with
  | EmptyString => [acc]
  | String c s' =>
      if decide (c = ","%char) then acc :: split_commas s' EmptyString
      else split_commas s' (acc +:+ String c EmptyString)
  end.

Definition kinds_of (s : option string) : list string :=
  match s with
  | None => []
  | Some s => List.filter (λ t, negb (is_empty_str t)) (trim <$> split_commas s EmptyString)
  end.

Inductive feed_reply (A : Type) : Type :=
  | FeedDisabled
  | FeedOk (a : A).
Arguments FeedDisabled {A}.
Arguments FeedOk {A}.

(** [allowed] is what the rate limiter answers. *)
Definition get_feed (allowed : bool) (now : DateTime) (user : string) (since : option string)
    (lim : option Z) (kinds room : option string) :
    st World (result (feed_reply FeedPage) MMError.t) :=
  if negb feed_enabled then st_ret (Ok FeedDisabled)
  else if negb allowed
  then st_ret (Err (MMError.api ErrorCode.RateLimited "feed rate limit exceeded"))
  else
  let lim := clamp 1 100 (default 20 lim) in
  match (match since with
         | None => Ok None
         | Some s => match cursor_decode s with Ok c => Ok (Some c) | Err e => Err e end
         end) with
  | Err msg => st_ret (Err (MMError.api ErrorCode.InvalidRequest msg))
  | Ok since =>
      let! muted := fetch_muted_rooms now user in
      let! page := st_fst (st_fst (get_feed_items {| ff_user := user; ff_kinds := kinds_of kinds;
                     ff_room := room; ff_muted := muted |} since lim)) in
      st_ret (match page with Err e => Err (db_err e) | Ok p => Ok (FeedOk p) end)
  end.

Definition post_feed_seen (now_ms : Z) (user : string) (ids : list string) :
    st World (result (feed_reply ()) MMError.t) :=
  if negb feed_enabled then st_ret (Ok FeedDisabled)
  else if bool_decide (ids = [])
  then st_ret (Err (MMError.api ErrorCode.InvalidRequest "ids must not be empty"))
  else if (100 <? length ids)%nat
  then st_ret (Err (MMError.api ErrorCode.InvalidRequest "ids capped at 100 per request"))
  else
  match mapM unhex ids with
  | None => st_ret (Err (MMError.api ErrorCode.InvalidRequest "ids must be hex-encoded"))
  | Some decoded =>
      let! r := st_fst (st_fst (mark_seen user decoded now_ms)) in
      st_ret (match r with Err e => Err (db_err e) | Ok _ => Ok (FeedOk ()) end)
  end.
End endpoints.

(** ** Cursors: lemmas *)
Lemma be_bytes_length n u : String.length (be_bytes n u) = n.
Proof. induction n as [|n IH]; simpl; [done|]. by rewrite IH. Qed.

Lemma byte_value n : 0 ≤ n < 256 → Z.of_nat (nat_of_ascii (byte n)) = n.
Proof. intros Hn. unfold byte. rewrite nat_ascii_embedding; lia. Qed.

Lemma of_be_bytes_app n u rest acc :
  of_be_bytes n (be_bytes n u +:+ rest) acc = acc * 256 ^ Z.of_nat n + u mod 256 ^ Z.of_nat n.
Proof.
  revert acc. induction n as [|n IH]; intros acc.
  - simpl. rewrite Z.mod_1_r. lia.
  - cbn [be_bytes]. change (String ?c ?s +:+ ?r) with (String c (s +:+ r)).
    cbn [of_be_bytes]. rewrite IH.
    pose proof (Z.mod_pos_bound (u / 256 ^ Z.of_nat n) 256 ltac:(lia)) as Hb.
    rewrite byte_value by lia.
    rewrite Nat2Z.inj_succ, Z.pow_succ_r by lia.
    pose proof (Z.pow_pos_nonneg 256 (Z.of_nat n) ltac:(lia) ltac:(lia)) as Hp.
    rewrite (Z.mul_comm 256), Z.rem_mul_r by lia. lia.
Qed.

Lemma skip_app a b : skip (String.length a) (a +:+ b) = b.
Proof. induction a as [|c a IH]; [done|]. exact IH. Qed.

Lemma i64_u64 z : is_i64 z → i64_of_u64 (u64_of_i64 z mod 256 ^ 8) = z.
Proof.
  unfold is_i64, i64_min, i64_max, u64_of_i64, i64_of_u64. intros Hz.
  change (256 ^ 8) with 18446744073709551616. rewrite Z.mod_mod by lia.
  destruct (Z.le_gt_cases 0 z).
  - rewrite Z.mod_small by lia. destruct (Z.ltb_spec z 9223372036854775808); lia.
  - replace (z mod 18446744073709551616) with (z + 18446744073709551616)
      by (apply (Z.mod_unique _ _ (-1)); lia).
    destruct (Z.ltb_spec (z + 18446744073709551616) 9223372036854775808); lia.
Qed.

Lemma cursor_round_trip `{FeedText} c :
  (∀ b, b64_decode (b64_encode b) = Some b) → is_i64 (fc_ts c) → fc_id c ≠ "" →
  cursor_decode (cursor_encode c) = Ok c.
Proof.
  intros Hb Ht Hid. unfold cursor_decode, cursor_encode. rewrite Hb.
  pose proof (be_bytes_length 8 (u64_of_i64 (fc_ts c))) as Hl.
  set (ts := be_bytes 8 (u64_of_i64 (fc_ts c))) in *.
  assert (Hs : skip 8 (ts +:+ fc_id c) = fc_id c) by (rewrite <-Hl; apply skip_app).
  rewrite string_app_length, Hl, Hs. destruct (Nat.ltb_spec (8 + String.length (fc_id c)) 8); [lia|].
  destruct (fc_id c) as [|a s] eqn:E; [done|]. cbn [is_empty_str].
  unfold ts. rewrite of_be_bytes_app, Z.mul_0_l, Z.add_0_l.
  change (Z.of_nat 8) with 8. rewrite i64_u64 by done. destruct c. simpl in *. by rewrite E.
Qed.

(** ** Reading the whole feed page by page *)
Section paging.
Context `{FeedText}.

(** A client that follows [next] until there is none. *)
Fixpoint read_all (fuel : nat) (q : FeedFilter) (lim : Z) (since : option FeedCursor) :
    st Db (result (list FeedItem) string) :=
  match fuel with
  | O => st_ret (Err "out of fuel")
  | S fuel' =>
      let! page := get_feed_items q since lim in
      match page with
      | Err e => st_ret (Err (dbe_message e))
      | Ok p =>
          match pg_next p with
          | None => st_ret (Ok (pg_items p))
          | Some s =>
              match cursor_decode s with
              | Err e => st_ret (Err e)
              | Ok c =>
                  let? rest := read_all fuel' q lim (Some c) in
                  st_ret (Ok (pg_items p ++ rest))
              end
          end
      end
  end.

Variable t : Tables.
Variable q : FeedFilter.
Hypothesis b64_back : ∀ b, b64_decode (b64_encode b) = Some b.
Hypothesis ids_distinct : NoDup (fi_id <$> f_items (feed_of t)).
Hypothesis rows_sane : Forall (λ x, is_i64 (fi_ts x) ∧ fi_id x ≠ "") (f_items (feed_of t)).

Definition sorted_feed : list FeedRec :=
  merge_sort newer (List.filter (visible q) (f_items (feed_of t))).

Lemma in_sorted x : x ∈ sorted_feed → x ∈ f_items (feed_of t).
Proof.
  unfold sorted_feed. rewrite merge_sort_Permutation, list_elem_of_In, filter_In.
  rewrite <-list_elem_of_In. naive_solver.
Qed.

Lemma same_id x y :
  x ∈ f_items (feed_of t) → y ∈ f_items (feed_of t) → fi_id x = fi_id y → x = y.
Proof.
  intros [i Hi]%list_elem_of_lookup [j Hj]%list_elem_of_lookup E.
  assert (i = j) as ->; [|congruence].
  eapply (NoDup_lookup (fi_id <$> f_items (feed_of t))); [done|..]; rewrite list_lookup_fmap.
  - by rewrite Hi.
  - rewrite Hj. simpl. by rewrite E.
Qed.

Lemma newer_antisym x y :
  x ∈ f_items (feed_of t) → y ∈ f_items (feed_of t) → newer x y → newer y x → x = y.
Proof.
  unfold newer. intros Hx Hy [|[? L1]] [|[? L2]]; try lia. apply same_id; [done..|].
  by apply (anti_symm String.le).
Qed.

(** The rows before a cursor are the ones that come after its row. *)
Lemma before_cursor x y :
  x ∈ f_items (feed_of t) → y ∈ f_items (feed_of t) →
  (newer x y → x ≠ y → before (Some (cursor_of x)) y = true) ∧
  (newer y x → before (Some (cursor_of x)) y = false).
Proof.
  intros Hx Hy. unfold before, cursor_of, newer, bytes_lt. cbn [fc_ts fc_id]. split.
  - intros [Hlt|[E Hle]] Hne; [by rewrite (proj2 (Z.ltb_lt _ _) Hlt)|].
    rewrite orb_true_iff, !andb_true_iff, negb_true_iff, Z.eqb_eq, bool_decide_eq_true, String.eqb_neq.
    right. split; [done|]. split; [done|]. intros Eid. by apply Hne, same_id.
  - intros Hn. rewrite orb_false_iff, Z.ltb_ge. split; [lia|].
    destruct (fi_ts y =? fi_ts x) eqn:Et; [|done]. apply Z.eqb_eq in Et. cbn [andb].
    destruct Hn as [|[_ Hle]]; [lia|].
    destruct (bool_decide_reflect (String.le (fi_id y) (fi_id x))) as [Hle'|]; [|done].
    cbn [andb]. apply negb_false_iff, String.eqb_eq. by apply (anti_symm String.le).
Qed.

Lemma filter_split {A} (p r : A → bool) (l : list A) :
  List.filter (λ x, p x && r x) l = List.filter r (List.filter p l).
Proof. induction l as [|x l IH]; simpl; [done|]. destruct (p x); simpl; by rewrite IH. Qed.

Lemma filter_constant {A} (p : A → bool) (l : list A) b :
  Forall (λ x, p x = b) l → List.filter p l = if b then l else [].
Proof. induction 1 as [|x l Hx Hl IH]; simpl; [by destruct b|]. rewrite Hx, IH. by destruct b. Qed.

Global Instance filter_perm {A} (p : A → bool) : Proper ((≡ₚ) ==> (≡ₚ)) (List.filter p).
Proof. intros l l' Hl. induction Hl; simpl; repeat case_match; eauto using perm_trans, perm_swap. Qed.

(** The rows a page is cut from: what follows the cursor's row in the sorted feed. *)
Lemma rows_after (P S : list FeedRec) x :
  sorted_feed = P ++ x :: S →
  merge_sort newer (List.filter (λ y, visible q y && before (Some (cursor_of x)) y)
    (f_items (feed_of t))) = S.
Proof.
  intros E. rewrite filter_split.
  assert (Hin : ∀ y, y ∈ P ++ x :: S → y ∈ f_items (feed_of t)).
  { intros y Hy. apply in_sorted. by rewrite E. }
  pose proof (StronglySorted_merge_sort newer (List.filter (visible q) (f_items (feed_of t)))) as Hs.
  fold sorted_feed in Hs. rewrite E in Hs.
  assert (Hnd : NoDup (P ++ x :: S)).
  { rewrite <-E. unfold sorted_feed. rewrite merge_sort_Permutation. apply NoDup_ListNoDup, List.NoDup_filter, NoDup_ListNoDup. by eapply NoDup_fmap_1. }
  apply StronglySorted_app in Hs as (HPx & HP & HxS). inversion HxS as [|? ? HS Hx]; subst.
  assert (Hf : List.filter (before (Some (cursor_of x))) (P ++ x :: S) = S).
  { rewrite List.filter_app, (filter_constant _ P false), app_nil_l. 2: {
      apply Forall_forall. intros y Hy. apply before_cursor; [apply Hin; set_solver..|].
      apply HPx; [done|left]. }
    change (x :: S) with ([x] ++ S). rewrite List.filter_app, (filter_constant _ [x] false), app_nil_l. 2: {
      constructor; [|done]. apply before_cursor; [apply Hin; set_solver..|]. right. by split. }
    apply (filter_constant _ S true), Forall_forall. intros y Hy.
    apply before_cursor; [apply Hin; set_solver..| |].
    - by eapply Forall_forall in Hx.
    - intros ->. apply NoDup_app in Hnd as (_ & _ & Hn). apply NoDup_cons in Hn as [Hn _]. done. }
  eapply (StronglySorted_unique_strong newer).
  - intros y z Hy Hz. apply newer_antisym.
    + rewrite merge_sort_Permutation in Hy. apply list_elem_of_In, filter_In in Hy as [Hy _].
      apply filter_In in Hy as [Hy _]. by apply list_elem_of_In.
    + apply Hin. set_solver.
  - apply StronglySorted_merge_sort; apply _.
  - done.
  - rewrite merge_sort_Permutation.
    transitivity (List.filter (before (Some (cursor_of x))) (P ++ x :: S)); [|by rewrite Hf].
    apply filter_perm. rewrite <-E. unfold sorted_feed. by rewrite merge_sort_Permutation.
Qed.

(** One page of the rows [S] still unread: what it shows and where it says to go on. *)
Lemma page_of_rows lim (S : list FeedRec) :
  1 ≤ lim →
  let p := page_of lim ((λ x, (x, feed_item t x)) <$> limit (lim + 1) S) in
  pg_items p = feed_item t <$> take (Z.to_nat lim) S ∧
  pg_next p = if (length S <=? Z.to_nat lim)%nat then None
              else cursor_encode ∘ cursor_of <$> last (take (Z.to_nat lim) S).
Proof.
  intros Hl. unfold page_of, limit. cbn [pg_items pg_next].
  rewrite <-!fmap_take, <-list_fmap_compose, take_take, length_fmap, length_take.
  rewrite Nat.min_l by lia. split; [done|].
  destruct (Nat.leb_spec (length S) (Z.to_nat lim)); destruct (Z.ltb_spec lim (Z.of_nat (Nat.min (Z.to_nat (lim + 1)) (length S)))); try lia; [done|].
  rewrite fmap_last. by destruct (last _).
Qed.

Lemma feed_page_read since lim now :
  get_feed_items q since lim (healthy t now) =
  (Ok (page_of (clamp 1 100 lim) (page_rows q since (clamp 1 100 lim) t)), healthy t now).
Proof. reflexivity. Qed.

Lemma read_from fuel lim since (P S : list FeedRec) now :
  sorted_feed = P ++ S →
  merge_sort newer (List.filter (λ y, visible q y && before since y) (f_items (feed_of t))) = S →
  (length S < fuel)%nat →
  (read_all fuel q lim since (healthy t now)).1 = Ok (feed_item t <$> S).
Proof.
  revert since P S. induction fuel as [|fuel IH]; intros since P S E Hrows Hf; [lia|].
  cbn [read_all]. unfold st_bind at 1. rewrite feed_page_read. unfold page_rows. rewrite Hrows.
  cbn [fst snd].
  set (l := clamp 1 100 lim). assert (Hl : 1 ≤ l) by (unfold l, clamp; repeat case_match; lia).
  clearbody l.
  destruct (page_of_rows l S Hl) as [Hi Hn]. cbn zeta in Hi, Hn.
  set (p := page_of _ _) in *. rewrite Hn. clear Hn.
  destruct (Nat.leb_spec (length S) (Z.to_nat l)) as [Hs|Hs].
  { unfold st_ret. cbn [fst]. by rewrite Hi, take_ge. }
  pose proof (take_drop (Z.to_nat l) S) as Etd.
  destruct (last (take (Z.to_nat l) S)) as [x|] eqn:Ex.
  2: { apply last_None in Ex. apply (f_equal length) in Ex. rewrite length_take in Ex. simpl in Ex. lia. }
  apply last_Some in Ex as [A EA].
  assert (Exin : x ∈ f_items (feed_of t)).
  { apply in_sorted. rewrite E, <-Etd, EA. set_solver. }
  destruct (proj1 (Forall_forall _ _) rows_sane x Exin) as [Hts Hid].
  cbn [fmap option_fmap option_map compose]. rewrite cursor_round_trip by done.
  assert (E' : sorted_feed = (P ++ A) ++ x :: drop (Z.to_nat l) S).
  { rewrite E. rewrite <-Etd at 1. rewrite EA. by rewrite <-!(assoc_L (++)). }
  pose proof (rows_after _ _ _ E') as Hrest.
  specialize (IH (Some (cursor_of x)) (P ++ A ++ [x]) (drop (Z.to_nat l) S)).
  unfold st_try, st_bind.
  destruct (read_all fuel q lim (Some (cursor_of x)) (healthy t now)) as [r s'] eqn:Er.
  cbn [fst] in IH. rewrite IH; [|by rewrite E', <-!(assoc_L (++))|done|rewrite length_drop; lia].
  unfold st_ret. cbn [fst]. rewrite Hi, <-fmap_app. by rewrite take_drop.
Qed.
End paging.

(** Column types and the primary key. *)
Definition feed_ok (f : FeedTables) : Prop :=
  NoDup (fi_id <$> f_items f) ∧ Forall (λ x, is_i64 (fi_ts x) ∧ fi_id x ≠ "") (f_items f).

(** C37. A client that follows the next cursors of the newsfeed from the top, with any page size,
    gets after finitely many pages exactly the rows it may see, each once, newest first:
    the keyset cursor loses and repeats no row at a page border, also when rows share a
    timestamp. Base64 is only assumed to decode what it encoded. *)
Theorem feed_pages_exact `{FeedText} (t : Tables) (q : FeedFilter) (lim : Z)
    (now : DateTime) (fuel : nat) :
  (∀ b, b64_decode (b64_encode b) = Some b) →
  feed_ok (feed_of t) →
  (length (f_items (feed_of t)) < fuel)%nat →
  ∃ rows,
    (read_all fuel q lim None (healthy t now)).1 = Ok (feed_item t <$> rows) ∧
    rows ≡ₚ List.filter (visible q) (f_items (feed_of t)) ∧
    StronglySorted newer rows.
Proof.
  intros Hb [Hn Hs] Hf. exists (sorted_feed t q). split; [|split].
  - apply (read_from t q Hb Hn Hs _ _ _ []); [done| |].
    + unfold sorted_feed. f_equal. apply List.filter_ext. intros x. apply andb_true_r.
    + unfold sorted_feed. rewrite merge_sort_Permutation.
      pose proof (List.filter_length_le (visible q) (f_items (feed_of t))). lia.
  - unfold sorted_feed. apply merge_sort_Permutation.
  - apply StronglySorted_merge_sort; apply _.
Qed.

(** Three rows of one user, two with the same timestamp, in pages of one; a fourth is hidden. *)
Module FeedDemo.
#[local] Instance txt : FeedText := {|
  b64_encode s := s; b64_decode := Some; hex s := s; unhex := Some; sha2_256 s := s;
  json_as_text _ := ""; url_encode s := s |}.
Definition row (id : string) (ts : Z) : FeedRec :=
  new_item id "@u:x" "!r:x" ("$" +:+ id) "stream" ts "mm" JNull.
Definition tables : Tables := set_api (set_feed
  {| f_items := [row "a" 5; row "b" 7; row "c" 5; hidden_item (row "d" 9)];
     f_refs := ∅; f_mm_enabled := ∅ |} no_api) no_tables.
Definition reader : FeedFilter :=
  {| ff_user := "@u:x"; ff_kinds := []; ff_room := None; ff_muted := [] |}.
End FeedDemo.

Lemma feed_pages_exact_witness :
  (match (@read_all FeedDemo.txt 5 FeedDemo.reader 1 None (healthy FeedDemo.tables 0)).1 with
   | Ok l => fx_id <$> l | Err _ => [] end) = ["b"; "c"; "a"] ∧
  ∃ rows,
    (@read_all FeedDemo.txt 5 FeedDemo.reader 1 None (healthy FeedDemo.tables 0)).1 =
      Ok (@feed_item FeedDemo.txt FeedDemo.tables <$> rows) ∧
    rows ≡ₚ List.filter (visible FeedDemo.reader) (f_items (feed_of FeedDemo.tables)) ∧
    StronglySorted newer rows.
Proof.
  split; [vm_compute; reflexivity|].
  apply (@feed_pages_exact FeedDemo.txt); [done| |simpl; lia].
  split; [apply (bool_decide_eq_true_1 _); vm_compute; reflexivity|].
  repeat constructor; discriminate.
Defined.
