(* ===== verification/Rooms.v ===== *)
(** * Rooms: who may broadcast in a room, and the bot's membership

    [mm-api/src/rooms.rs]: the allowlist of hosts with its owner, the switch that turns
    MatrixMedia off in a room, and the sequence of requests that brings the bot into a
    room with power level 100. *)
From Stdlib Require Import Ascii.
From S2P Require Import Prelude ApiSchema Json Schema Errors Text MatrixClient MoneyDb Guards.
From S2P Require Import Donations StreamsDb Feed.
Local Open Scope Z_scope.
Local Open Scope mm_scope.

Record StreamPermissions : Type := {
  sp_mode : string;
  sp_owner_user_id : option string;
  sp_allowed_user_ids : list string
}.

#[export] Instance StreamPermissions_eq_dec : EqDecision StreamPermissions.
Proof. solve_decision. Defined.

Definition default_permissions : StreamPermissions :=
  {| sp_mode := "open"; sp_owner_user_id := None; sp_allowed_user_ids := [] |}.

(** [sort] then [dedup] of strings. *)
Fixpoint dedup_sorted (l : list string) : list string :=
  match l with
  | x :: (y :: _) as l' => if String.eqb x y then dedup_sorted l' else x :: dedup_sorted l'
  | _ => l
  end.
Definition sort_dedup (l : list string) : list string := dedup_sorted (order_by id l).

Definition allowed_with (me : string) (l : list string) : list string :=
  sort_dedup (if mem me l then l else l ++ [me]).

(** ** Statements *)
Definition permissions_row (room : string) (t : Tables) : option HostsRec :=
  m_hosts (media_of t) !! room.

Definition put_hosts (room mode me : string) (allowed : list string) : stmt () :=
  on_media (λ _ m, Ok ((), set_hosts (<[room := {|
    ho_mode := mode;
    ho_owner_user_id := match m_hosts m !! room with
                        | Some h => ho_owner_user_id h
                        | None => Some me
                        end;
    ho_allowed_user_ids := allowed |}]> (m_hosts m)) m)).

(** The update on conflict is guarded by the missing owner. *)
Definition claim_hosts (room me : string) : stmt () :=
  on_media (λ _ m, Ok ((), match m_hosts m !! room with
    | None => set_hosts (<[room := {| ho_mode := "open"; ho_owner_user_id := Some me;
                                      ho_allowed_user_ids := [me] |}]> (m_hosts m)) m
    | Some h =>
        match ho_owner_user_id h with
        | Some _ => m
        | None => set_hosts (<[room := {| ho_mode := ho_mode h; ho_owner_user_id := Some me;
                                          ho_allowed_user_ids := [me] |}]> (m_hosts m)) m
        end
    end)).

Definition put_mm_enabled_stmt (room : string) (enabled : bool) : stmt () :=
  on_feed (λ f, Ok ((), {| f_items := f_items f; f_refs := f_refs f;
                           f_mm_enabled := <[room := enabled]> (f_mm_enabled f) |})).

(** ** Stream-host permissions *)
Section permissions.
Variable state : ApiState.

Definition pg : result () MMError.t :=
  if as_has_pg_pool state then Ok ()
  else Err (MMError.api ErrorCode.FeatureDisabled "PostgreSQL not configured").

Definition load_permissions (room : string) : st Db (result StreamPermissions MMError.t) :=
  if negb (as_has_pg_pool state) then st_ret (Ok default_permissions)
  else
  let? row := asking (reading (permissions_row room)) in
  st_ret (Ok (match row with
    | Some h => {| sp_mode := ho_mode h; sp_owner_user_id := ho_owner_user_id h;
                   sp_allowed_user_ids := ho_allowed_user_ids h |}
    | None => default_permissions
    end)).

Definition get_permissions (room : string) : st Db (result StreamPermissions MMError.t) :=
  load_permissions room.

Definition put_permissions (me room : string) (req : StreamPermissions) :
    st Db (result StreamPermissions MMError.t) :=
  guard pg (
  let? cur := load_permissions room in
  match sp_owner_user_id cur with
  | None => st_ret (Err (MMError.api ErrorCode.Forbidden
      "room has no owner yet — call POST /rooms/{id}/stream-permissions/claim first"))
  | Some owner =>
      if negb (String.eqb owner me)
      then st_ret (Err (MMError.api ErrorCode.Forbidden
             "only the room owner can change permissions"))
      else if negb (mem (sp_mode req) ["open"; "restricted"])
      then st_ret (Err (MMError.api ErrorCode.InvalidAmount
             "mode must be 'open' or 'restricted'"))
      else
      let allowed := allowed_with me (sp_allowed_user_ids req) in
      let? _ := asking (put_hosts room (sp_mode req) me allowed) in
      st_ret (Ok {| sp_mode := sp_mode req; sp_owner_user_id := Some me;
                    sp_allowed_user_ids := allowed |})
  end).

Definition claim_owner (me room : string) : st Db (result StreamPermissions MMError.t) :=
  guard pg (
  let? cur := load_permissions room in
  match sp_owner_user_id cur with
  | Some owner =>
      if negb (String.eqb owner me)
      then st_ret (Err (MMError.api ErrorCode.Forbidden
             ("room is already owned by " +:+ owner)))
      else st_ret (Ok cur)
  | None =>
      let? _ := asking (claim_hosts room me) in
      load_permissions room
  end).

(** The gate of stream creation. *)
Definition check_can_host (room user : string) : st Db (result () MMError.t) :=
  let? perms := load_permissions room in
  st_ret (if String.eqb (sp_mode perms) "open" then Ok ()
          else if mem user (sp_allowed_user_ids perms) then Ok ()
          else Err (MMError.api ErrorCode.Forbidden
                 "you are not on this room's stream-host allowlist")).

(** ** The MatrixMedia switch of a room *)
Definition load_mm_config (room : string) : st Db (result bool MMError.t) :=
  if negb (as_has_pg_pool state) then st_ret (Ok true)
  else
  let? row := asking (reading (λ t, f_mm_enabled (feed_of t) !! room)) in
  st_ret (Ok (default true row)).

Definition get_mm_config (room : string) : st Db (result bool MMError.t) := load_mm_config room.

Definition put_mm_config (me room : string) (enabled : bool) : st Db (result bool MMError.t) :=
  guard pg (
  let? perms := load_permissions room in
  if match sp_owner_user_id perms with
     | Some owner => negb (String.eqb owner me)
     | None => false
     end
  then st_ret (Err (MMError.api ErrorCode.Forbidden
         "only the room owner can change MM config"))
  else
  let? _ := asking (put_mm_enabled_stmt room enabled) in
  st_ret (Ok enabled)).
End permissions.

(** ** The bot's membership *)
Record MatrixConfig : Type := {
  mx_homeserver_url : string;
  mx_server_name : string;
  mx_bot_localpart : string;
  mx_as_token : string;
  mx_synapse_admin_token : string
}.

Inductive BotInviteOutcome : Type := JoinedNow | AlreadyMember.

Definition bot_id (cfg : MatrixConfig) : string :=
  if is_empty_str (mx_server_name cfg) then "@" +:+ mx_bot_localpart cfg +:+ ":localhost"
  else "@" +:+ mx_bot_localpart cfg +:+ ":" +:+ mx_server_name cfg.

Section membership.
Context {N : Type} `{Http N}.
Variable url_encode : string → string.

Definition post (url token : string) (body : json_value) : HttpRequest := {|
  rq_method := "POST"; rq_url := url; rq_bearer := Some token; rq_query := [];
  rq_json := Some body; rq_timeout_secs := None |}.

Definition internal {A} (m : string) : result A MMError.t := Err (MMError.Internal m).

(** 1. A token of the user, through the admin interface. *)
Definition user_login (cfg : MatrixConfig) (base user : string) : st N (result string MMError.t) :=
  let! r := http_send (post (base +:+ "/_synapse/admin/v1/users/" +:+ url_encode user +:+ "/login")
              (mx_synapse_admin_token cfg) (JObj [])) in
  st_ret (match r with
    | Err e => internal ("synapse login proxy failed: " +:+ e)
    | Ok resp =>
        if negb (is_success (rs_status resp))
        then internal ("synapse user-login failed " +:+ status_text (rs_status resp) +:+ ": " +:+
               rs_text resp)
        else match rs_json resp with
             | Err e => internal ("parse login response: " +:+ e)
             | Ok v => match get_str "access_token" v with
                       | Some t => Ok t
                       | None => internal "missing access_token in login response"
                       end
             end
    end).

Definition json_or_empty (resp : HttpResponse) : json_value :=
  match rs_json resp with Ok v => v | Err _ => JObj [] end.

(** 2. The user invites the bot; [true]: it was already there. *)
Definition invite_bot (base room_enc bot token : string) : st N (result bool MMError.t) :=
  let! r := http_send (post (base +:+ "/_matrix/client/v3/rooms/" +:+ room_enc +:+ "/invite")
              token (JObj [("user_id", JStr bot)])) in
  st_ret (match r with
    | Err e => internal ("invite request failed: " +:+ e)
    | Ok resp =>
        if is_success (rs_status resp) then Ok false
        else
        let body := json_or_empty resp in
        let err_text := default "" (get_str "error" body) in
        if String.eqb (default "" (get_str "errcode" body)) "M_FORBIDDEN" &&
           contains "already" err_text
        then Ok true
        else internal ("invite returned " +:+ status_text (rs_status resp) +:+ ": " +:+ err_text)
    end).

(** 3. The bot accepts. *)
Definition bot_joins (cfg : MatrixConfig) (base room_enc bot : string) :
    st N (result bool MMError.t) :=
  let! r := http_send (post (base +:+ "/_matrix/client/v3/rooms/" +:+ room_enc +:+
              "/join?user_id=" +:+ url_encode bot) (mx_as_token cfg) (JObj [])) in
  st_ret (match r with
    | Err e => internal ("AS join request failed: " +:+ e)
    | Ok resp =>
        if is_success (rs_status resp) then Ok false
        else
        let err_text := default "" (get_str "error" (json_or_empty resp)) in
        if contains "already" err_text then Ok true
        else internal ("AS join returned " +:+ status_text (rs_status resp) +:+ ": " +:+ err_text)
    end).

(** [map.insert]. *)
Fixpoint put_field (name : string) (v : json_value) (l : list (string * json_value)) :
    list (string * json_value) :=
  match l with
  | [] => [(name, v)]
  | (n, x) :: l' => if String.eqb n name then (n, v) :: l' else (n, x) :: put_field name v l'
  end.

Definition users_of (content : json_value) : list (string * json_value) :=
  match jget "users" content with Some (JObj m) => m | _ => [] end.

(** [content["users"] = ...] makes an object of null; on another value that is no object
    it panics, which is taken as an error here: the state of a room is an object. *)
Definition with_users (users : list (string * json_value)) (content : json_value) :
    result json_value string :=
  match content with
  | JObj l => Ok (JObj (put_field "users" (JObj users) l))
  | JNull => Ok (JObj [("users", JObj users)])
  | _ => Err "cannot access key in JSON value"
  end.

Definition power_url (base room_enc : string) : string :=
  base +:+ "/_matrix/client/v3/rooms/" +:+ room_enc +:+ "/state/m.room.power_levels".

(** 4. Power level 100, unless it has it. *)
Definition promote_bot_to_pl100 (base token room_enc bot : string) : st N (result () string) :=
  let! r := http_send {| rq_method := "GET"; rq_url := power_url base room_enc;
    rq_bearer := Some token; rq_query := []; rq_json := None; rq_timeout_secs := None |} in
  match r with
  | Err e => st_ret (Err ("GET power_levels: " +:+ e))
  | Ok resp =>
      if negb (is_success (rs_status resp))
      then st_ret (Err ("GET power_levels returned " +:+ status_text (rs_status resp)))
      else
      match rs_json resp with
      | Err e => st_ret (Err ("parse power_levels: " +:+ e))
      | Ok content =>
          let users := users_of content in
          if 100 <=? default 0 (find_field bot users ≫= as_i64) then st_ret (Ok ())
          else
          match with_users (put_field bot (JNum "100") users) content with
          | Err e => st_ret (Err e)
          | Ok content' =>
              let! w := http_send {| rq_method := "PUT"; rq_url := power_url base room_enc;
                rq_bearer := Some token; rq_query := []; rq_json := Some content';
                rq_timeout_secs := None |} in
              st_ret (match w with
                | Err e => Err ("PUT power_levels: " +:+ e)
                | Ok resp =>
                    if is_success (rs_status resp) then Ok ()
                    else Err ("PUT power_levels returned " +:+ status_text (rs_status resp) +:+
                              ": " +:+ rs_text resp)
                end)
          end
      end
  end.

Definition ensure_bot_in_room_cfg (cfg : MatrixConfig) (user room : string) :
    st N (result BotInviteOutcome MMError.t) :=
  if is_empty_str (mx_synapse_admin_token cfg)
  then st_ret (Err (MMError.api ErrorCode.FeatureDisabled
         "Synapse admin token not configured — cannot invite bot on user's behalf"))
  else if is_empty_str (mx_as_token cfg)
  then st_ret (Err (MMError.api ErrorCode.FeatureDisabled
         "Matrix AS token not configured — cannot have bot accept invite"))
  else
  let base := trim_end_char "/"%char (mx_homeserver_url cfg) in
  let room_enc := url_encode room in
  let bot := bot_id cfg in
  let? token := user_login cfg base user in
  let? invite_already := invite_bot base room_enc bot token in
  let? join_already := bot_joins cfg base room_enc bot in
  let! _ := promote_bot_to_pl100 base token room_enc bot in
  st_ret (Ok (if invite_already && join_already then AlreadyMember else JoinedNow)).

Definition enable_mm (cfg : MatrixConfig) (me room : string) :
    st N (result (string * string) MMError.t) :=
  let? outcome := ensure_bot_in_room_cfg cfg me room in
  st_ret (Ok (bot_id cfg, match outcome with
    | AlreadyMember => "bot is already in the room"
    | JoinedNow => "bot invited + joined + promoted to PL=100"
    end)).
End membership.

(** ** Ownership *)
Inductive room_request : Type :=
  | GetPermissions (room : string)
  | PutPermissions (me room : string) (req : StreamPermissions)
  | ClaimOwner (me room : string)
  | CheckCanHost (room user : string)
  | PutMMConfig (me room : string) (enabled : bool).

Definition serve_room (state : ApiState) (r : room_request) (db : Db) : Db :=
  match r with
  | GetPermissions room => (get_permissions state room db).2
  | PutPermissions me room req => (put_permissions state me room req db).2
  | ClaimOwner me room => (claim_owner state me room db).2
  | CheckCanHost room user => (check_can_host state room user db).2
  | PutMMConfig me room enabled => (put_mm_config state me room enabled db).2
  end.

(** Who may have changed the row of an owned room. *)
Definition asked_by (owner room : string) (r : room_request) : Prop :=
  match r with PutPermissions me room' _ => me = owner ∧ room' = room | _ => False end.

(** From [t] to [t']: an owner stays, and unless [ok room owner] the row of its room too. *)
Definition owners_stay (ok : string → string → Prop) (t t' : Tables) : Prop :=
  ∀ room h owner, permissions_row room t = Some h → ho_owner_user_id h = Some owner →
    ∃ h', permissions_row room t' = Some h' ∧ ho_owner_user_id h' = Some owner ∧
      (h' = h ∨ ok room owner ∧ (ho_mode h' = "open" ∨ ho_mode h' = "restricted") ∧
         owner ∈ ho_allowed_user_ids h').

#[global] Instance owners_stay_preorder ok : PreOrder (owners_stay ok).
Proof.
  split.
  - intros t room h owner Hh Ho. eauto 10.
  - intros t1 t2 t3 H12 H23 room h owner Hh Ho.
    destruct (H12 room h owner Hh Ho) as (h2 & Hh2 & Ho2 & Hc2).
    destruct (H23 room h2 owner Hh2 Ho2) as (h3 & Hh3 & Ho3 & Hc3).
    exists h3. split; [done|]. split; [done|]. destruct Hc3 as [->|?]; [done|by right].
Qed.

Lemma owners_stay_same ok t t' : m_hosts (media_of t') = m_hosts (media_of t) → owners_stay ok t t'.
Proof. intros E room h owner Hh Ho. exists h. unfold permissions_row in *. rewrite E. auto. Qed.

Lemma elem_of_dedup_sorted x l : x ∈ dedup_sorted l ↔ x ∈ l.
Proof.
  induction l as [|a [|b l] IH]; [done..|]. cbn [dedup_sorted].
  destruct (String.eqb_spec a b) as [->|]; rewrite ?elem_of_cons, IH, ?elem_of_cons; naive_solver.
Qed.

Lemma allowed_with_me me l : me ∈ allowed_with me l.
Proof.
  unfold allowed_with, sort_dedup. rewrite elem_of_dedup_sorted, elem_of_order_by.
  unfold mem. destruct (existsb _ l) eqn:E; [|set_solver].
  apply existsb_exists in E as (y & Hy & E). apply String.eqb_eq in E as ->. by apply list_elem_of_In.
Qed.

Section history.
Variable state : ApiState.

Definition owner_of (room : string) (t : Tables) : option string :=
  permissions_row room t ≫= ho_owner_user_id.

Lemma load_permissions_reads room db :
  db_tables (load_permissions state room db).2 = db_tables db ∧
  ∀ p, (load_permissions state room db).1 = Ok p → as_has_pg_pool state = true →
    sp_owner_user_id p = owner_of room (db_tables db).
Proof.
  unfold load_permissions. destruct (as_has_pg_pool state); [|done].
  cbn [negb]. unfold st_try, st_bind, asking.
  pose proof (exec_reading_tables (permissions_row room) db) as Ht.
  pose proof (exec_reading_ok (permissions_row room) db) as Ho. unfold st_bind.
  destruct (exec (reading (permissions_row room)) db) as [[row|e] db']; cbn; [|done].
  split; [done|]. intros p [= <-] _. rewrite (Ho row eq_refl). unfold owner_of.
  by destruct (permissions_row room (db_tables db)).
Qed.

Lemma asking_rel {A} (R : Tables → Tables → Prop) `{!PreOrder R} (s : stmt A) db :
  (∀ now t', s now (db_tables db) = t' → ∀ a t'', t' = Ok (a, t'') → R (db_tables db) t'') →
  R (db_tables db) (db_tables (asking s db).2).
Proof.
  intros Hs. unfold asking, st_bind, exec. destruct (next_tick db) as [k rest].
  destruct (tk_outcome k); cbn; [|done|];
    destruct (s (tk_now k) (db_tables db)) as [[a t]|e] eqn:E; cbn; try done; by eapply Hs.
Qed.

Lemma put_hosts_stays ok me room mode allowed db :
  owner_of room (db_tables db) = Some me → ok room me → me ∈ allowed →
  mode = "open" ∨ mode = "restricted" →
  owners_stay ok (db_tables db) (db_tables (asking (put_hosts room mode me allowed) db).2).
Proof.
  intros Hown Hok Hin Hmode. apply asking_rel; [apply _|].
  intros now t' <- a t''. unfold put_hosts, on_media, on_api. intros [= _ <-] room' h owner Hh Ho.
  unfold permissions_row, media_of in *. cbn. unfold owner_of, permissions_row, media_of in Hown.
  destruct (decide (room' = room)) as [->|Hne].
  - rewrite lookup_insert_eq. rewrite Hh in Hown |- *. cbn in Hown.
    assert (owner = me) as -> by congruence. eexists. split; [reflexivity|]. cbn. auto.
  - rewrite lookup_insert_ne by done. eauto.
Qed.

Lemma claim_hosts_stays ok me room db :
  owners_stay ok (db_tables db) (db_tables (asking (claim_hosts room me) db).2).
Proof.
  apply asking_rel; [apply _|]. intros now t' <- a t''.
  unfold claim_hosts, on_media, on_api. intros [= _ <-] room' h owner Hh Ho.
  unfold permissions_row, media_of in *. cbn.
  destruct (m_hosts (a_media (t_api (db_tables db))) !! room) as [g|] eqn:Eg.
  - destruct (ho_owner_user_id g) eqn:Eo; cbn; [eauto|].
    rewrite lookup_insert_ne by congruence. eauto.
  - cbn. rewrite lookup_insert_ne by congruence. eauto.
Qed.

Lemma mm_enabled_stays ok room enabled db :
  owners_stay ok (db_tables db) (db_tables (asking (put_mm_enabled_stmt room enabled) db).2).
Proof.
  apply asking_rel; [apply _|]. intros now t' <- a t''.
  unfold put_mm_enabled_stmt, on_feed, on_api. intros [= _ <-]. by apply owners_stay_same.
Qed.

Lemma serve_room_stays r db :
  owners_stay (λ room owner, asked_by owner room r) (db_tables db)
    (db_tables (serve_room state r db)).
Proof.
  destruct r as [room|me room req|me room|room user|me room enabled]; cbn [serve_room].
  - unfold get_permissions. by rewrite (proj1 (load_permissions_reads room db)).
  - unfold put_permissions, guard, pg. destruct (as_has_pg_pool state) eqn:Ep; [|done].
    unfold st_try at 1, st_bind at 1. destruct (load_permissions_reads room db) as [Ht Ho].
    destruct (load_permissions state room db) as [[cur|e] db1]; cbn [fst snd] in *; [|cbn; by rewrite Ht].
    rewrite <-Ht. rewrite (Ho cur eq_refl Ep), <-Ht.
    destruct (owner_of room (db_tables db1)) as [owner|] eqn:Eo; [|done].
    destruct (String.eqb_spec owner me) as [->|]; [|done]. cbn [negb].
    destruct (mem (sp_mode req) _) eqn:Em; [|done]. cbn [negb].
    assert (Hm : sp_mode req = "open" ∨ sp_mode req = "restricted").
    { unfold mem in Em. cbn in Em. rewrite !orb_true_iff, !String.eqb_eq in Em. naive_solver. }
    pose proof (put_hosts_stays (λ r o, asked_by o r (PutPermissions me room req)) me room
      (sp_mode req) (allowed_with me (sp_allowed_user_ids req)) db1 Eo (conj eq_refl eq_refl)
      (allowed_with_me _ _) Hm) as Hs.
    unfold st_try, st_bind. by destruct (asking _ db1) as [[]].
  - unfold claim_owner, guard, pg. destruct (as_has_pg_pool state) eqn:Ep; [|done].
    unfold st_try at 1, st_bind at 1. destruct (load_permissions_reads room db) as [Ht Ho].
    destruct (load_permissions state room db) as [[cur|e] db1]; cbn [fst snd] in *; [|cbn; by rewrite Ht].
    rewrite <-Ht. destruct (sp_owner_user_id cur) as [owner|]; [by destruct (String.eqb owner me)|].
    pose proof (claim_hosts_stays (λ r o, asked_by o r (ClaimOwner me room)) me room db1) as Hs.
    unfold st_try, st_bind. destruct (asking _ db1) as [[] db2]; [|done].
    cbn [fst snd] in Hs |- *. by rewrite (proj1 (load_permissions_reads room db2)).
  - unfold check_can_host, st_try, st_bind. destruct (load_permissions_reads room db) as [Ht _].
    destruct (load_permissions state room db) as [[]]; cbn in *; by rewrite Ht.
  - unfold put_mm_config, guard, pg. destruct (as_has_pg_pool state) eqn:Ep; [|done].
    unfold st_try at 1, st_bind at 1. destruct (load_permissions_reads room db) as [Ht Ho].
    destruct (load_permissions state room db) as [[cur|e] db1]; cbn [fst snd] in *; [|cbn; by rewrite Ht].
    rewrite <-Ht.
    destruct (match sp_owner_user_id cur with Some owner => negb (String.eqb owner me)
      | None => false end); [cbn; reflexivity|].
    pose proof (mm_enabled_stays (λ r o, asked_by o r (PutMMConfig me room enabled)) room enabled db1).
    unfold st_try, st_bind. by destruct (asking _ db1) as [[]].
Qed.
End history.

Definition serve_rooms (state : ApiState) (l : list room_request) (db : Db) : Db :=
  fold_left (λ db r, serve_room state r db) l db.

(** C35. The owner of a room is final: once a room is claimed, no sequence of requests by anybody,
    under any database faults, changes its owner; its host list and mode stay as they are
    unless the owner asked for the change, and then the owner is on the list. *)
Theorem room_owner_is_final (state : ApiState) (l : list room_request) (db : Db)
    (room : string) (h : HostsRec) (owner : string) :
  permissions_row room (db_tables db) = Some h → ho_owner_user_id h = Some owner →
  ∃ h', permissions_row room (db_tables (serve_rooms state l db)) = Some h' ∧
    ho_owner_user_id h' = Some owner ∧
    (h' = h ∨ (∃ r, r ∈ l ∧ asked_by owner room r) ∧
              (ho_mode h' = "open" ∨ ho_mode h' = "restricted") ∧
              owner ∈ ho_allowed_user_ids h').
Proof.
  enough (Hs : owners_stay (λ room owner, ∃ r, r ∈ l ∧ asked_by owner room r) (db_tables db)
    (db_tables (serve_rooms state l db))) by apply Hs.
  revert db. induction l as [|r l IH]; intros db; [reflexivity|].
  cbn [serve_rooms fold_left]. etrans.
  - intros room' h' owner' Hh Ho.
    destruct (serve_room_stays state r db room' h' owner' Hh Ho) as (h2 & ? & ? & Hc).
    exists h2. split; [done|]. split; [done|]. destruct Hc as [|(? & ?)]; [by left|].
    right. split; [|done]. exists r. split; [left|done].
  - intros room' h' owner' Hh Ho.
    destruct (IH (serve_room state r db) room' h' owner' Hh Ho) as (h2 & ? & ? & Hc).
    exists h2. split; [done|]. split; [done|]. destruct Hc as [|((r' & ? & ?) & ?)]; [by left|].
    right. split; [|done]. exists r'. split; [by right|done].
Qed.

(** Two users claim a room, the second one then tries to take it over. *)
Module RoomDemo.
Definition app : ApiState := {| as_config := default_config; as_has_pg_pool := true;
  as_has_entitlement := false; as_has_registry := false; as_public_url := None |}.
Definition claimed : Db := serve_rooms app [ClaimOwner "@a:x" "!r:x"] (healthy no_tables 0).
Definition takeover : list room_request :=
  [ClaimOwner "@b:x" "!r:x";
   PutPermissions "@b:x" "!r:x" {| sp_mode := "restricted"; sp_owner_user_id := Some "@b:x";
                                   sp_allowed_user_ids := ["@b:x"] |}].
Definition row : HostsRec :=
  {| ho_mode := "open"; ho_owner_user_id := Some "@a:x"; ho_allowed_user_ids := ["@a:x"] |}.
End RoomDemo.

Lemma room_owner_is_final_witness :
  ∃ h', permissions_row "!r:x" (db_tables (serve_rooms RoomDemo.app RoomDemo.takeover
      RoomDemo.claimed)) = Some h' ∧
    ho_owner_user_id h' = Some "@a:x" ∧
    (h' = RoomDemo.row ∨ (∃ r, r ∈ RoomDemo.takeover ∧ asked_by "@a:x" "!r:x" r) ∧
              (ho_mode h' = "open" ∨ ho_mode h' = "restricted") ∧
              "@a:x" ∈ ho_allowed_user_ids h').
Proof. apply room_owner_is_final; vm_compute; reflexivity. Defined.

(** Without an owner anybody may switch MatrixMedia off in a room, again and again: writing
    the switch does not make the writer its owner. *)
Example unowned_switch_is_open :
  let db := serve_rooms RoomDemo.app
    [PutMMConfig "@a:x" "!r:x" true; PutMMConfig "@b:x" "!r:x" false] (healthy no_tables 0) in
  f_mm_enabled (feed_of (db_tables db)) !! "!r:x" = Some false.
Proof. vm_compute. reflexivity. Qed.
