(* ===== verification/Bot.v ===== *)
(** * Bot: the commands people type in a room

    [mm-matrix/src/bot.rs]: [parse_command] and the texts [BotExecutor::execute] answers.
    Strings are UTF-8 bytes; a space is one byte and never part of another character, so
    splitting at it is splitting the bytes. *)
From Stdlib Require Import Ascii.
From S2P Require Import Prelude Json Text.
Local Open Scope Z_scope.
Local Open Scope mm_scope.

Inductive BotCommand : Type :=
  | Live (title : option string)
  | End_
  | Status
  | Setup
  | Donate (amount : Z) (message : option string)
  | Tiers
  | Subscribe
  | Gate (level : Z)
  | Ungate
  | Help.

#[export] Instance BotCommand_eq_dec : EqDecision BotCommand.
Proof. solve_decision. Defined.

(** ** String operations of the standard library *)
Definition dquote : ascii := "034"%char.

(** [split_once(' ')]. *)
Fixpoint split_once (s : string) : option (string * string) :=
  match s with
  | EmptyString => None
  | String c s' =>
      if decide (c = " "%char) then Some (EmptyString, s')
      else match split_once s' with
           | Some (a, b) => Some (String c a, b)
           | None => None
           end
  end.

(** [splitn(n, ' ')]. *)
Fixpoint splitn (n : nat) (s : string) : list string :=
  match n with
  | O => []
  | S O => [s]
  | S n' => match split_once s with
            | Some (a, b) => a :: splitn n' b
            | None => [s]
            end
  end.

Fixpoint drop_leading (c : ascii) (s : string) : string :=
  match s with
  | String d s' => if decide (d = c) then drop_leading c s' else s
  | EmptyString => s
  end.

(** [trim_matches(c)]. *)
Definition trim_matches (c : ascii) (s : string) : string :=
  String.rev (drop_leading c (String.rev (drop_leading c s))).

(** [split_whitespace().next()]. *)
Fixpoint word (l : list string) : list string :=
  match l with
  | c :: l' => if bool_decide (c ∈ white_space) then [] else c :: word l'
  | [] => []
  end.
Definition first_word (s : string) : string := collect (word (chars (trim s))).

Definition u32_max : Z := 4294967295.

(** [parse::<u32>]: a plus sign is accepted, a minus sign is not a digit. *)
Definition parse_u32 (s : string) : option Z :=
  in_range 0 u32_max
    (match s with
     | String "+" (String _ _ as s') => parse_dec1 s'
     | _ => parse_dec1 s
     end).

(** ** Parsing *)
Definition title_of (rest : string) : option string :=
  let rest := trim rest in
  match strip_prefix "--title" rest with
  | Some t => Some (trim_matches dquote (trim t))
  | None => None
  end.

Definition parse_donate (rest : string) : BotCommand :=
  if is_empty_str rest then Help
  else
  let '(amount_str, message) := match split_once rest with
                                | Some (a, m) => (trim a, Some (trim m))
                                | None => (rest, None)
                                end in
  let amount_str := default amount_str (strip_prefix "$" amount_str) in
  match parse_u32 amount_str with
  | Some 0 => Help
  | Some amount => Donate amount message
  | None => Help
  end.

Definition parse_gate (rest : string) : BotCommand :=
  if is_empty_str rest then Help
  else
  match parse_u32 (first_word rest) with
  | Some level => if (1 <=? level) && (level <=? 5) then Gate level else Help
  | None => Help
  end.

Definition parse_command (body : string) : option BotCommand :=
  let body := trim body in
  if negb (starts_with "!mm " body) && negb (String.eqb body "!mm") then None
  else
  let parts := splitn 3 body in
  let rest := default "" (trim <$> parts !! 2%nat) in
  Some (match parts !! 1%nat with
  | None => Help
  | Some c =>
      if String.eqb c "live" then Live (parts !! 2%nat ≫= title_of)
      else if String.eqb c "end" then End_
      else if String.eqb c "status" then Status
      else if String.eqb c "setup" then Setup
      else if String.eqb c "donate" then parse_donate rest
      else if String.eqb c "tiers" then Tiers
      else if String.eqb c "subscribe" then Subscribe
      else if String.eqb c "gate" then parse_gate rest
      else if String.eqb c "ungate" then Ungate
      else Help
  end).

(** ** Answers *)
Definition quoted (s : string) : string :=
  String dquote EmptyString +:+ s +:+ String dquote EmptyString.

Definition help_text : string :=
  "MatrixMedia commands:" +:+ newline +:+
  "!mm live [--title " +:+ quoted "..." +:+ "] - Start a stream" +:+ newline +:+
  "!mm end - End stream" +:+ newline +:+
  "!mm status - Show status" +:+ newline +:+
  "!mm setup - Set up payments" +:+ newline +:+
  "!mm donate <amount> [message] - Donate to streamer" +:+ newline +:+
  "!mm tiers - Show subscription tiers" +:+ newline +:+
  "!mm subscribe - Get subscribe link" +:+ newline +:+
  "!mm gate <1-5> - Set content gate (host only)" +:+ newline +:+
  "!mm ungate - Remove content gate (host only)" +:+ newline +:+
  "!mm help - This message".

Definition execute (sender : string) (command : BotCommand) : string :=
  match command with
  | Live title =>
      "Stream started by " +:+ sender +:+ default "" ((λ t, ": " +:+ t) <$> title) +:+ newline +:+
      "(Stream management will be available when SFU integration is complete.)"
  | End_ => "Stream ended."
  | Status => "No active stream in this room."
  | Setup => "Set up payments for your streams: " +:+
             "<onboarding URL will be provided by the payment service>"
  | Donate amount message =>
      "Donate $" +:+ fmt_i64 amount +:+ " to the stream host" +:+
      default "" ((λ m, " with message: " +:+ quoted m) <$> message) +:+ ": " +:+
      "<checkout URL will be provided by the payment service>"
  | Tiers => "No subscription tiers configured in this room. " +:+
             "The stream host can set them up via the dashboard."
  | Subscribe => "Subscribe to this creator: " +:+
                 "<subscribe URL will be provided by the payment service>"
  | Gate level =>
      "Content gate set to Tier " +:+ fmt_i64 level +:+ ". " +:+
      "Only subscribers at Tier " +:+ fmt_i64 level +:+ " or above can view the stream."
  | Ungate => "Content gate removed. Stream is now open to all viewers."
  | Help => help_text
  end.

(** ** What a parsed command can carry *)
Definition command_ok (c : BotCommand) : Prop :=
  match c with
  | Donate amount _ => 1 ≤ amount ≤ u32_max
  | Gate level => 1 ≤ level ≤ 5
  | _ => True
  end.

Lemma in_range_Some lo hi o z : in_range lo hi o = Some z → o = Some z ∧ lo ≤ z ≤ hi.
Proof.
  unfold in_range. destruct o as [x|]; simpl; [|done].
  destruct (Z.leb_spec lo x), (Z.leb_spec x hi); simpl; intros E; try done.
  injection E as ->. done.
Qed.

(** Whatever the text, the amount and the level of a command are in range. *)
Lemma parse_donate_ok rest : command_ok (parse_donate rest).
Proof.
  unfold parse_donate. repeat case_match; try done;
    match goal with H : parse_u32 _ = Some _ |- _ => apply in_range_Some in H as [_ ?] end;
    unfold command_ok, u32_max in *; lia.
Qed.

Lemma parse_gate_ok rest : command_ok (parse_gate rest).
Proof.
  unfold parse_gate. case_match; [done|]. case_match; [|done]. case_match eqn:E; [|done].
  apply andb_true_iff in E as [??]. unfold command_ok. lia.
Qed.

Lemma parse_command_ok body c : parse_command body = Some c → command_ok c.
Proof.
  unfold parse_command. case_match; [done|]. intros [= <-].
  repeat (case_match; eauto using parse_donate_ok, parse_gate_ok); done.
Qed.

(** What people type. *)
Example parse_examples :
  parse_command "  !mm donate $5 for you " = Some (Donate 5 (Some "for you")) ∧
  parse_command "!mm donate -5" = Some Help ∧
  parse_command "!mm gate 3 now" = Some (Gate 3) ∧
  parse_command "!mm gate 6" = Some Help ∧
  parse_command ("!mm live --title " +:+ quoted "My Stream") = Some (Live (Some "My Stream")) ∧
  parse_command "!mmlive" = None ∧
  parse_command "!mm" = Some Help.
Proof. vm_compute. repeat split; reflexivity. Qed.
