(* ===== verification/FeedIndexer.v ===== *)
(** * FeedIndexer: from room events to newsfeed rows

    [mm-matrix/src/feed_indexer.rs]: the fan-out of feed events to the local members of a
    room, redactions, and the engagement counters. The state is the database, the
    homeserver, and the two caches of the process, whose entries carry the instant they
    were stored. *)
From Stdlib Require Import Ascii.
From S2P Require Import Prelude ApiSchema Json Schema Errors Text MatrixClient MatrixEvents.
From S2P Require Import MoneyDb Feed.
Local Open Scope Z_scope.
Local Open Scope mm_scope.

Definition FEED_EVENT_TYPES : list string :=
  [FEED_BROADCAST_STARTED_EVENT_TYPE; FEED_BROADCAST_ENDED_EVENT_TYPE;
   FEED_RECORDING_AVAILABLE_EVENT_TYPE; FEED_POST_EVENT_TYPE].

Definition is_feed_event_type (t : string) : bool := existsb (String.eqb t) FEED_EVENT_TYPES.

Definition MAX_FAN_OUT_MEMBERS : nat := 1000.

Definition members_ttl : Z := seconds 60.
Definition mm_enabled_ttl : Z := seconds 300.

Record FeedIndexer : Type := {
  ix_client : HomeserverClient;      (** of the [HomeserverMemberResolver] *)
  ix_local_server_name : string;
  ix_bot_user_id : string
}.

Record Caches : Type := {
  c_members : gmap string (list string * DateTime);
  c_mm_enabled : gmap string (bool * DateTime)
}.

(** An entry younger than [ttl]. *)
Definition fresh {V} (ttl : Z) (now : DateTime) (key : string)
    (m : gmap string (V * DateTime)) : option V :=
  match m !! key with
  | Some (v, at_) => if now - at_ <? ttl then Some v else None
  | None => None
  end.

Definition extract_thread_root (event : json_value) : option (string * string) :=
  content ← jget "content" event;
  relates_to ← jget "m.relates_to" content;
  rel_type ← get_str "rel_type" relates_to;
  if negb (String.eqb rel_type "m.thread") then None
  else
  root ← get_str "event_id" relates_to;
  room_id ← get_str "room_id" event;
  Some (root, room_id).

Definition feed_kind_for_type (t : string) : string :=
  if String.eqb t FEED_BROADCAST_STARTED_EVENT_TYPE then "broadcast.started"
  else if String.eqb t FEED_BROADCAST_ENDED_EVENT_TYPE then "broadcast.ended"
  else if String.eqb t FEED_RECORDING_AVAILABLE_EVENT_TYPE then "recording.available"
  else if String.eqb t FEED_POST_EVENT_TYPE then "post"
  else "unknown".

Section indexer.
Context {N : Type} `{FeedText, Http N}.
Variable ix : FeedIndexer.

Abbreviation World := ((Db * N) * Caches)%type.

Definition in_db {A} (m : st Db (result A db_error)) : st World (result A MMError.t) :=
  let! r := st_fst (st_fst m) in
  st_ret (map_err (λ e, MMError.Database (dbe_message e)) r).

Definition now_of (w : World) : DateTime := db_now w.1.1.

(** ** The caches *)
Definition put_mm_enabled (room : string) (v : bool) : st World () := λ w,
  ((), (w.1, {| c_members := c_members w.2;
                c_mm_enabled := <[room := (v, now_of w)]> (c_mm_enabled w.2) |})).
Definition put_members (room : string) (v : list string) : st World () := λ w,
  ((), (w.1, {| c_members := <[room := (v, now_of w)]> (c_members w.2);
                c_mm_enabled := c_mm_enabled w.2 |})).

Definition select_mm_enabled (room : string) : st Db (result (option bool) db_error) :=
  exec (reading (λ t, f_mm_enabled (feed_of t) !! room)).

(** A failed query, like a missing row, counts as enabled, and is cached. *)
Definition mm_enabled (room : string) : st World bool := λ w,
  match fresh mm_enabled_ttl (now_of w) room (c_mm_enabled w.2) with
  | Some enabled => (enabled, w)
  | None =>
      (let! r := st_fst (st_fst (select_mm_enabled room)) in
       let enabled := match r with Ok (Some b) => b | _ => true end in
       let! _ := put_mm_enabled room enabled in
       st_ret enabled) w
  end.

Definition joined_members_cached (room : string) : st World (result (list string) MMError.t) := λ w,
  match fresh members_ttl (now_of w) room (c_members w.2) with
  | Some members => (Ok members, w)
  | None =>
      (let? members := st_fst (st_snd (get_joined_members (ix_client ix) room)) in
       let! _ := put_members room members in
       st_ret (Ok members)) w
  end.

(** ** Fan-out *)
Definition is_recipient (m : string) : bool :=
  ends_with (":" +:+ ix_local_server_name ix) m && negb (String.eqb m (ix_bot_user_id ix)).

Definition fan_out (room event kind : string) (ts : Z) (content : json_value)
    (members : list string) : st World (result bool MMError.t) :=
  if (MAX_FAN_OUT_MEMBERS <? length members)%nat then st_ret (Ok false)
  else
  let local_members := List.filter is_recipient members in
  let ids := (λ m, make_item_id m event) <$> local_members in
  let! r := st_fst (st_fst (insert_feed_items_batch ids local_members room event kind ts
                              (ix_local_server_name ix) content)) in
  st_ret (match r with Ok inserted => Ok (0 <? inserted) | Err _ => Ok false end).

(** ** Redactions *)
Definition redaction_target (event : json_value) : option string :=
  match get_str "redacts" event with
  | Some t => Some t
  | None => jget "content" event ≫= get_str "redacts"
  end.

Definition release_ref (eng : EngagementRef) : st World (result () MMError.t) :=
  if String.eqb (eg_kind eng) "reaction" then
    let? _ := in_db (decrement_reactions_count (eg_room_id eng) (eg_target_event_id eng)) in
    st_ret (Ok ())
  else if String.eqb (eg_kind eng) "thread_reply" then
    let? _ := in_db (decrement_comments_count (eg_room_id eng) (eg_target_event_id eng)) in
    st_ret (Ok ())
  else st_ret (Ok ()).

Definition handle_redaction (event : json_value) : st World (result bool MMError.t) :=
  match redaction_target event with
  | None => st_ret (Ok false)
  | Some target =>
      let? engagement := in_db (lookup_engagement_ref target) in
      match engagement with
      | Some eng =>
          let? _ := release_ref eng in
          let! _ := st_fst (st_fst (delete_engagement_ref target)) in
          st_ret (Ok true)
      | None =>
          let? updated := in_db (mark_hidden_by_event target) in
          st_ret (Ok (0 <? updated))
      end
  end.

(** ** Engagement *)
(** The counter first; only when a row was counted, the reference that can undo it. *)
Definition engage (bump : string → string → st Db (result Z db_error)) (kind : string)
    (room target by_ : string) : st World (result bool MMError.t) :=
  let? updated := in_db (bump room target) in
  if updated =? 0 then st_ret (Ok false)
  else
  let? _ := in_db (insert_engagement_ref by_ target room kind) in
  st_ret (Ok true).

Definition handle_reaction (event : json_value) : st World (result bool MMError.t) :=
  match jget "content" event ≫= jget "m.relates_to" with
  | None => st_ret (Ok false)
  | Some relates_to =>
      if negb (bool_decide (get_str "rel_type" relates_to = Some "m.annotation"))
      then st_ret (Ok false)
      else
      match get_str "event_id" relates_to, get_str "room_id" event, get_str "event_id" event with
      | Some target, Some room, Some reaction =>
          engage increment_reactions_count "reaction" room target reaction
      | _, _, _ => st_ret (Ok false)
      end
  end.

Definition handle_thread_reply (event : json_value) (room root : string) :
    st World (result bool MMError.t) :=
  match get_str "event_id" event with
  | None => st_ret (Ok false)
  | Some reply => engage increment_comments_count "thread_reply" room root reply
  end.

(** ** One event *)
Definition handle_feed_event (event_type : string) (event : json_value) :
    st World (result bool MMError.t) :=
  match get_str "room_id" event, get_str "event_id" event with
  | Some room, Some event_id => λ w,
      let ts := default (now_of w / 1000000) (jget "origin_server_ts" event ≫= as_i64) in
      let content := default JNull (jget "content" event) in
      (let! enabled := mm_enabled room in
       if negb enabled then st_ret (Ok false)
       else
       let? members := joined_members_cached room in
       fan_out room event_id (feed_kind_for_type event_type) ts content members) w
  | _, _ => st_ret (Ok false)
  end.

Definition handle_event (event : json_value) : st World (result bool MMError.t) :=
  let event_type := default "" (get_str "type" event) in
  if String.eqb event_type "m.room.redaction" then handle_redaction event
  else if String.eqb event_type "m.reaction" then handle_reaction event
  else if String.eqb event_type "m.room.message" then
    match extract_thread_root event with
    | Some (root, room) => handle_thread_reply event room root
    | None => st_ret (Ok false)
    end
  else if negb (is_feed_event_type event_type) then st_ret (Ok false)
  else handle_feed_event event_type event.
End indexer.

(** ** The fan-out writes one row per recipient *)
Section fan_out_lemmas.
Context {N : Type} `{FeedText, Http N}.
Variable ix : FeedIndexer.

(** What the indexer relies on: SHA-256 does not collide, event identifiers have no bar. *)
Definition no_collision : Prop := ∀ a b, sha2_256 a = sha2_256 b → a = b.
Definition plain_id (e : string) : Prop := ¬ has_char "|"%char e.

#[global] Instance plain_id_dec e : Decision (plain_id e).
Proof. unfold plain_id, has_char. apply _. Defined.

(** The keys of the rows: one per user and event, derived from both. *)
Definition keyed (x : FeedRec) : Prop :=
  fi_id x = make_item_id (fi_user_id x) (fi_event_id x) ∧ plain_id (fi_event_id x).
Definition index_ok (l : list FeedRec) : Prop :=
  NoDup ((λ x, (fi_user_id x, fi_event_id x)) <$> l) ∧ Forall keyed l.

Lemma last_bar_unique (a b a' b' : string) :
  plain_id b → plain_id b' → a +:+ String "|"%char b = a' +:+ String "|"%char b' → a = a' ∧ b = b'.
Proof.
  intros Hb Hb'. revert a'. induction a as [|c a IH]; intros [|c' a'] E.
  - by injection E as ->.
  - injection E as <- E. exfalso. apply Hb. rewrite E. apply has_char_app. right. left.
  - injection E as -> E. exfalso. apply Hb'. rewrite <-E. apply has_char_app. right. left.
  - injection E as -> E. destruct (IH _ E) as [-> ->]. done.
Qed.

Lemma make_item_id_inj u e u' e' :
  no_collision → plain_id e → plain_id e' →
  make_item_id u e = make_item_id u' e' → u = u' ∧ e = e'.
Proof. intros Hs He He' E%Hs. by apply last_bar_unique. Qed.

(** On keyed rows both constraints of the table are one. *)
Lemma conflicts_keyed x y :
  no_collision → keyed x → keyed y →
  conflicts x y = bool_decide (fi_user_id x = fi_user_id y ∧ fi_event_id x = fi_event_id y).
Proof.
  intros Hs [Hx Px] [Hy Py]. unfold conflicts. rewrite Hx, Hy.
  destruct (String.eqb_spec (make_item_id (fi_user_id x) (fi_event_id x))
    (make_item_id (fi_user_id y) (fi_event_id y))) as [E|E]; cbn [orb].
  - symmetry. apply bool_decide_eq_true. by apply make_item_id_inj.
  - destruct (String.eqb_spec (fi_user_id x) (fi_user_id y));
      destruct (String.eqb_spec (fi_event_id x) (fi_event_id y)); cbn [andb];
      [congruence|symmetry; apply bool_decide_eq_false; naive_solver..].
Qed.

Definition row_key (x : FeedRec) : string * string := (fi_user_id x, fi_event_id x).

Lemma insert_rows_prefix new l : ∃ added, (insert_rows new l).1 = l ++ added ∧ added ⊆ new.
Proof.
  revert l. induction new as [|x new IH]; intros l; simpl.
  - exists []. by rewrite app_nil_r.
  - destruct (existsb (conflicts x) l).
    + destruct (IH l) as (a & E & Ha). exists a. split; [done|set_solver].
    + destruct (IH (l ++ [x])) as (a & E & Ha). destruct (insert_rows new (l ++ [x])) as [l' n].
      simpl in *. exists (x :: a). rewrite E, <-(assoc_L (++)). split; [done|set_solver].
Qed.

(** Inserting keyed rows keeps the keys and adds exactly the missing ones. *)
Lemma insert_rows_keys new l :
  no_collision → Forall keyed new → index_ok l →
  index_ok (insert_rows new l).1 ∧
  ∀ k, k ∈ row_key <$> (insert_rows new l).1 ↔ k ∈ row_key <$> l ∨ k ∈ row_key <$> new.
Proof.
  intros Hs Hn. revert l. induction Hn as [|x new Hx Hn IH]; intros l Hl; cbn [insert_rows].
  { split; [done|]. intros k. cbn. rewrite elem_of_nil. naive_solver. }
  destruct (existsb (conflicts x) l) eqn:E.
  - destruct (IH l Hl) as [Hok Hk]. split; [done|]. intros k. rewrite Hk.
    apply existsb_exists in E as (y & Hy & Hc). apply list_elem_of_In in Hy.
    rewrite conflicts_keyed in Hc by (destruct Hl as [_ Hl]; rewrite Forall_forall in Hl; auto).
    apply bool_decide_eq_true in Hc as [Eu Ee].
    assert (row_key x ∈ row_key <$> l).
    { apply list_elem_of_fmap. exists y. split; [|done]. unfold row_key. by rewrite Eu, Ee. }
    rewrite fmap_cons, elem_of_cons. naive_solver.
  - destruct (IH (l ++ [x])) as [Hok Hk].
    { destruct Hl as [Hnd Hl]. split; [|by apply Forall_app; split; [|constructor]].
      rewrite fmap_app. apply NoDup_app. split; [done|]. split; [|apply NoDup_singleton].
      intros k Hin Hk%list_elem_of_singleton. subst k. simpl in Hin.
      apply list_elem_of_fmap in Hin as (y & Hy & Hin).
      assert (Hc : existsb (conflicts x) l = true); [|congruence].
      apply existsb_exists. exists y. split; [by apply list_elem_of_In|].
      rewrite conflicts_keyed by (rewrite ?Forall_forall in Hl; auto).
      apply bool_decide_eq_true. by injection Hy. }
    destruct (insert_rows new (l ++ [x])) as [l' n]. cbn [fst] in *. split; [done|].
    intros k. rewrite Hk, fmap_app, elem_of_app, !fmap_cons, !elem_of_cons.
    rewrite fmap_nil, elem_of_nil. naive_solver.
Qed.

(** ** The batch, chunk by chunk, is one insertion *)
Lemma insert_rows_app a b l : (insert_rows (a ++ b) l).1 = (insert_rows b (insert_rows a l).1).1.
Proof.
  revert l. induction a as [|x a IH]; intros l; simpl; [done|].
  destruct (existsb (conflicts x) l); [apply IH|]. specialize (IH (l ++ [x])).
  destruct (insert_rows (a ++ b) (l ++ [x])), (insert_rows a (l ++ [x])). exact IH.
Qed.

Definition with_items (l : list FeedRec) (t : Tables) : Tables :=
  set_api (set_feed (set_items l (feed_of t)) (t_api t)) t.

Lemma feed_of_with_items l t : feed_of (with_items l t) = set_items l (feed_of t).
Proof. done. Qed.

Lemma with_items_twice l l' t : with_items l' (with_items l t) = with_items l' t.
Proof. done. Qed.

Lemma with_items_same t : with_items (f_items (feed_of t)) t = t.
Proof.
  destruct t. unfold with_items, feed_of, set_api. simpl. f_equal.
  destruct t_api. unfold set_feed. simpl. f_equal. by destruct a_feed.
Qed.

Lemma insert_chunks_healthy cs n t now :
  ∃ m, insert_chunks cs n (healthy t now) =
    (Ok m, healthy (with_items (insert_rows (concat cs) (f_items (feed_of t))).1 t) now).
Proof.
  revert n t. induction cs as [|c cs IH]; intros n t; simpl.
  - exists n. unfold st_ret. by rewrite with_items_same.
  - unfold st_try, st_bind. rewrite exec_healthy. unfold insert_stmt, on_feed, on_api.
    fold (feed_of t). rewrite insert_rows_app.
    destruct (insert_rows c (f_items (feed_of t))) as [l k] eqn:E. cbn [fst].
    destruct (IH (n + k) (with_items l t)) as [m Hm]. exists m. exact Hm.
Qed.

Lemma chunks_go_concat {A} fuel n (l : list A) :
  (0 < n)%nat → (length l ≤ fuel)%nat → concat (chunks_go fuel n l) = l.
Proof.
  intros Hn. revert l. induction fuel as [|fuel IH]; intros [|x l] Hl; simpl in *; try lia; [done..|].
  destruct n as [|n]; [lia|]. cbn [take drop]. rewrite IH by (rewrite length_drop; simpl; lia).
  simpl. by rewrite take_drop.
Qed.

Lemma chunks_go_fmap {A B} (f : A → B) fuel n (l : list A) :
  chunks_go fuel n (fmap (M := list) f l) =
  fmap (M := list) (fmap (M := list) f) (chunks_go fuel n l).
Proof.
  revert l. induction fuel as [|fuel IH]; intros [|x l]; [done..|].
  change (fmap (M := list) f (x :: l)) with (f x :: fmap (M := list) f l). cbn [chunks_go].
  rewrite <-fmap_cons, <-fmap_take, <-fmap_drop, IH. done.
Qed.

(** One row per recipient, whatever the chunks. *)
Lemma batch_rows {A} (f : A → string) (g : string → A → FeedRec) (l : list A) n :
  (0 < n)%nat →
  concat (zip_with (λ i u, zip_with g i u) (chunks n (f <$> l)) (chunks n l)) =
  (λ u, g (f u) u) <$> l.
Proof.
  intros Hn. unfold chunks. rewrite length_fmap, chunks_go_fmap.
  transitivity ((λ u, g (f u) u) <$> concat (chunks_go (length l) n l));
    [|by rewrite chunks_go_concat by lia].
  induction (chunks_go (length l) n l) as [|c cs IH]; [done|].
  cbn [fmap list_fmap zip_with concat]. rewrite fmap_app. f_equal; [|exact IH].
  induction c as [|a c IHc]; [done|]. cbn. f_equal. exact IHc.
Qed.

Lemma batch_healthy (us : list string) room e kind ts origin content t now :
  ∃ n, insert_feed_items_batch ((λ m, make_item_id m e) <$> us) us room e kind ts origin content
         (healthy t now) =
    (Ok n, healthy (with_items (insert_rows
       ((λ u, new_item (make_item_id u e) u room e kind ts origin content) <$> us)
       (f_items (feed_of t))).1 t) now).
Proof.
  unfold insert_feed_items_batch. case_bool_decide as E.
  - apply fmap_nil_inv in E as ->. exists 0. simpl. unfold st_ret. by rewrite with_items_same.
  - destruct (insert_chunks_healthy (zip_with (λ i u, zip_with (λ id user,
      new_item id user room e kind ts origin content) i u)
      (chunks FEED_INSERT_CHUNK ((λ m, make_item_id m e) <$> us)) (chunks FEED_INSERT_CHUNK us))
      0 t now) as [m Hm].
    exists m. rewrite Hm. rewrite batch_rows by (unfold FEED_INSERT_CHUNK; lia). done.
Qed.

Lemma one_row (l : list FeedRec) k :
  NoDup (row_key <$> l) → k ∈ row_key <$> l →
  length (List.filter (λ x, bool_decide (row_key x = k)) l) = 1%nat.
Proof.
  induction l as [|x l IH]; intros Hn Hk; [by apply elem_of_nil in Hk|].
  rewrite fmap_cons in *. apply NoDup_cons in Hn as [Hx Hn]. simpl.
  case_bool_decide as E.
  - subst k. simpl. f_equal. rewrite length_zero_iff_nil.
    destruct (List.filter _ l) as [|y l'] eqn:Ef; [done|].
    assert (Hy : In y (y :: l')) by by left. rewrite <-Ef in Hy. apply filter_In in Hy as [Hy E].
    apply bool_decide_eq_true in E. destruct Hx. rewrite <-E.
    by apply list_elem_of_fmap_2, list_elem_of_In.
  - apply elem_of_cons in Hk as [->|Hk]; [done|]. by apply IH.
Qed.
End fan_out_lemmas.

Definition feed_rows {N} (w : (Db * N) * Caches) : list FeedRec := f_items (feed_of (db_tables w.1.1)).

(** The row a recipient gets. *)
Definition row_for `{FeedText} (ix : FeedIndexer) (event_type : string) (event : json_value)
    (now : DateTime) (room e u : string) : FeedRec :=
  new_item (make_item_id u e) u room e (feed_kind_for_type event_type)
    (default (now / 1000000) (jget "origin_server_ts" event ≫= as_i64))
    (ix_local_server_name ix) (default JNull (jget "content" event)).

Lemma feed_type_not_other t :
  is_feed_event_type t = true →
  String.eqb t "m.room.redaction" = false ∧ String.eqb t "m.reaction" = false ∧
  String.eqb t "m.room.message" = false.
Proof.
  intros Ht. repeat split; apply String.eqb_neq; intros ->; vm_compute in Ht; discriminate.
Qed.

Lemma row_for_keyed `{FeedText} ix event_type event now room e us :
  plain_id e → Forall keyed (row_for ix event_type event now room e <$> us).
Proof. intros He. apply Forall_fmap, Forall_true. intros u. by split. Qed.

(** Whether the room counts as enabled: an answer less than five minutes old, else the
    table's, a missing row counting as enabled. *)
Definition room_enabled (room : string) (t : Tables) (now : DateTime) (c : Caches) : bool :=
  match fresh mm_enabled_ttl now room (c_mm_enabled c) with
  | Some b => b
  | None => default true (f_mm_enabled (feed_of t) !! room)
  end.

(** The members the indexer works with: a list less than a minute old, else what the
    homeserver answers now. *)
Definition member_list {N} `{Http N} (ix : FeedIndexer) (room : string) (now : DateTime) (n : N)
    (c : Caches) : result (list string) MMError.t :=
  match fresh members_ttl now room (c_members c) with
  | Some l => Ok l
  | None => (get_joined_members (ix_client ix) room n).1
  end.

Lemma mm_enabled_run {N} `{Http N} room t now (n : N) c :
  ∃ c', mm_enabled room (healthy t now, n, c) = (room_enabled room t now c, (healthy t now, n, c')) ∧
    c_members c' = c_members c.
Proof.
  unfold mm_enabled, room_enabled. cbn [fst snd now_of healthy db_now].
  destruct (fresh _ _ _ _) as [b|]; [by eauto|].
  unfold st_bind, st_fst, select_mm_enabled. cbn [fst snd]. rewrite exec_healthy. unfold reading.
  cbn [fst snd]. destruct (f_mm_enabled (feed_of t) !! room) as [b|]; simpl; by eauto.
Qed.

Lemma joined_members_run {N} `{Http N} ix room t now (n : N) c :
  ∃ n' c', joined_members_cached ix room (healthy t now, n, c) =
    (member_list ix room now n c, (healthy t now, n', c')).
Proof.
  unfold joined_members_cached, member_list. cbn [fst snd now_of healthy db_now].
  destruct (fresh _ _ _ _) as [b|]; [by eauto|].
  unfold st_try, st_bind, st_fst, st_snd. cbn [fst snd].
  destruct (get_joined_members (ix_client ix) room n) as [[ms|e] n']; cbn; by eauto.
Qed.

(** The members a feed event of a room is written for: nobody when the room is switched off,
    its members are unknown or there are more than a thousand of them. *)
Definition audience {N} `{Http N} (ix : FeedIndexer) (room : string) (t : Tables)
    (now : DateTime) (n : N) (c : Caches) : list string :=
  if negb (room_enabled room t now c) then [] else
  match member_list ix room now n c with
  | Ok members => if (MAX_FAN_OUT_MEMBERS <? length members)%nat then [] else members
  | Err _ => []
  end.

(** What a feed event does to the rows. *)
Lemma handle_event_rows {N} `{FeedText, Http N} ix event t now (n : N) c event_type room e :
  let w := (healthy t now, n, c) in
  get_str "type" event = Some event_type → is_feed_event_type event_type = true →
  get_str "room_id" event = Some room → get_str "event_id" event = Some e →
  feed_rows (handle_event ix event w).2 =
  (insert_rows (row_for ix event_type event now room e <$>
     List.filter (is_recipient ix) (audience ix room t now n c)) (feed_rows w)).1.
Proof.
  intros w Ht Hf Hr He. unfold handle_event. rewrite Ht.
  change (default "" (Some event_type)) with event_type. cbv zeta.
  destruct (feed_type_not_other _ Hf) as (-> & -> & ->). rewrite Hf. cbn [negb].
  unfold handle_feed_event, audience. rewrite Hr, He. unfold w. clear w.
  destruct (mm_enabled_run room t now n c) as (c1 & E1 & Hc1).
  unfold st_bind at 1. rewrite E1. destruct (room_enabled room t now c); cbn [negb]; [|done].
  destruct (joined_members_run ix room t now n c1) as (n2 & c2 & E2).
  assert (Em : member_list ix room now n c1 = member_list ix room now n c)
    by (unfold member_list; by rewrite Hc1).
  rewrite Em in E2. unfold st_try, st_bind. rewrite E2.
  destruct (member_list ix room now n c) as [members|err]; [|done].
  unfold fan_out. destruct (Nat.ltb_spec MAX_FAN_OUT_MEMBERS (length members)); [done|].
  unfold st_bind, st_fst. cbn [fst snd].
  match goal with |- context [insert_feed_items_batch _ _ ?a ?b ?c ?d ?e ?f _] =>
    destruct (batch_healthy (List.filter (is_recipient ix) members) a b c d e f t now) as [k Ek] end.
  rewrite Ek. done.
Qed.

(** C36. On a working database, a feed event of an enabled room of at most a thousand members
    reaches every local member other than the bot: each of them then has exactly one row for
    the event, the rows added belong to such members and carry the event's room, kind, time
    and content, and no row is lost or changed. The members are those of the indexer's
    list, which is less than a minute old or fetched for the event; whether the room is enabled
    is known up to five minutes late, and a room without an entry counts as enabled. When the
    room is switched off, the members cannot be fetched or there are more than a thousand of
    them, nothing is written. The start is any table whose rows are keyed, so that a
    redelivered event adds nothing for those who have it. Assumed are a hash without
    collisions and event ids without a bar. *)
Theorem feed_event_reaches_every_member {N} `{FeedText, Http N} (ix : FeedIndexer)
    (event : json_value) (t : Tables) (now : DateTime) (n : N) (c : Caches)
    (event_type room e : string) :
  let w := (healthy t now, n, c) in
  let w' := (handle_event ix event w).2 in
  no_collision → plain_id e → index_ok (feed_rows w) →
  get_str "type" event = Some event_type → is_feed_event_type event_type = true →
  get_str "room_id" event = Some room → get_str "event_id" event = Some e →
  index_ok (feed_rows w') ∧
  (∀ members, room_enabled room t now c = true → member_list ix room now n c = Ok members →
    (length members ≤ MAX_FAN_OUT_MEMBERS)%nat →
    (∃ added, feed_rows w' = feed_rows w ++ added ∧
      Forall (λ x, ∃ u, u ∈ members ∧ is_recipient ix u = true ∧
                        x = row_for ix event_type event now room e u) added) ∧
    (∀ u, u ∈ members → is_recipient ix u = true →
      length (List.filter (λ x, bool_decide (row_key x = (u, e))) (feed_rows w')) = 1%nat)) ∧
  (room_enabled room t now c = false ∨ (∃ err, member_list ix room now n c = Err err) ∨
   (∃ members, member_list ix room now n c = Ok members ∧
     (MAX_FAN_OUT_MEMBERS < length members)%nat) →
   feed_rows w' = feed_rows w).
Proof.
  intros w w' Hs He Hok Ht Hf Hr Hid.
  pose proof (handle_event_rows ix event t now n c _ _ _ Ht Hf Hr Hid) as Hw.
  fold w in Hw. fold w' in Hw. rewrite Hw.
  set (new := row_for ix event_type event now room e <$>
    List.filter (is_recipient ix) (audience ix room t now n c)).
  destruct (insert_rows_keys new (feed_rows w) Hs) as [Hok' Hk];
    [by apply row_for_keyed|done|]. split; [done|]. split.
  - intros members Hen Hm Hlen.
    assert (Ha : audience ix room t now n c = members)
      by (unfold audience; by rewrite Hen, Hm, (proj2 (Nat.ltb_ge _ _) Hlen)).
    unfold new in *. rewrite Ha in *. clear Ha new. set (new := row_for _ _ _ _ _ _ <$> _) in *. split.
    + destruct (insert_rows_prefix new (feed_rows w)) as (added & E & Ha). exists added.
      split; [done|]. apply Forall_forall. intros x Hx%Ha.
      apply list_elem_of_fmap in Hx as (u & -> & Hu).
      apply list_elem_of_In, filter_In in Hu as [Hu Hrec]. exists u.
      by rewrite list_elem_of_In.
    + intros u Hu Hrec. apply one_row; [apply Hok'|]. apply Hk. right.
      apply list_elem_of_fmap. exists (row_for ix event_type event now room e u). split; [done|].
      apply list_elem_of_fmap_2, list_elem_of_In, filter_In. by rewrite <-list_elem_of_In.
  - intros Hno. unfold new, audience.
    destruct Hno as [->|[[err ->]|(members & -> & Hlt)]]; [done|by destruct (negb _)|].
    rewrite (proj2 (Nat.ltb_lt _ _) Hlt). by destruct (negb _).
Qed.

(** A room with the bot, a guest of another server and two local members, one of whom
    already has the event. *)
Module IndexDemo.
#[export] Instance http : Http () := {|
  http_send _ := st_ret (Err "offline"); lookup_host _ := st_ret (Err "offline");
  new_v4 := st_ret "txn"; status_text _ := ""; shape_error _ := ""; hash_order l := l |}.
Definition client : HomeserverClient := new_client "https://hs" "token" "@bot:x".
Definition ix : FeedIndexer :=
  {| ix_client := client; ix_local_server_name := "x"; ix_bot_user_id := "@bot:x" |}.
Definition event : json_value := JObj
  [("type", JStr "com.steegler.matrixmedia.feed.post"); ("room_id", JStr "!r:x");
   ("event_id", JStr "$e"); ("origin_server_ts", JNum "77")].
Definition post_row (u : string) : FeedRec :=
  new_item (u +:+ "|$e") u "!r:x" "$e" "post" 77 "x" JNull.
Definition tables : Tables := set_api (set_feed
  {| f_items := [post_row "@a:x"]; f_refs := ∅; f_mm_enabled := ∅ |} no_api) no_tables.
Definition members : list string := ["@a:x"; "@bot:x"; "@g:y"; "@b:x"].
Definition caches : Caches :=
  {| c_members := {[ "!r:x" := (members, 0) ]}; c_mm_enabled := ∅ |}.
Definition world : (Db * ()) * Caches := (healthy tables 0, (), caches).
Definition after : (Db * ()) * Caches := (@handle_event () FeedDemo.txt http ix event world).2.
End IndexDemo.

Lemma feed_event_reaches_every_member_witness :
  fi_user_id <$> feed_rows IndexDemo.after = ["@a:x"; "@b:x"] ∧
  length (List.filter (λ x, bool_decide (row_key x = ("@b:x", "$e")))
            (feed_rows IndexDemo.after)) = 1%nat.
Proof.
  split; [vm_compute; reflexivity|].
  refine (proj2 (proj1 (proj2 (@feed_event_reaches_every_member () FeedDemo.txt IndexDemo.http
    IndexDemo.ix IndexDemo.event IndexDemo.tables 0 () IndexDemo.caches
    "com.steegler.matrixmedia.feed.post" "!r:x" "$e" _ _ _ _ _ _ _)) IndexDemo.members _ _ _)
    "@b:x" _ _); try (vm_compute; reflexivity).
  - intros a b. exact id.
  - apply (bool_decide_eq_true_1 _). vm_compute. reflexivity.
  - split; [apply (bool_decide_eq_true_1 _); vm_compute; reflexivity|].
    constructor; [|constructor]. split; [vm_compute; reflexivity|].
    apply (bool_decide_eq_true_1 _). vm_compute. reflexivity.
  - vm_compute. lia.
  - apply (bool_decide_eq_true_1 _). vm_compute. reflexivity.
Defined.
