(* ===== verification/Appservice.v ===== *)
(** * Appservice: the transactions the homeserver pushes

    [mm-matrix/src/appservice.rs] and [mm-api/src/appservice.rs]: one event after the
    other, each routed by its type to the membership handler, the bot, or the newsfeed
    indexer. Errors of one event are logged and do not stop the next. *)
From S2P Require Import Prelude ApiSchema Json Schema Errors Text MatrixClient MatrixEvents.
From S2P Require Import MoneyDb Feed Bot FeedIndexer.
Local Open Scope Z_scope.
Local Open Scope mm_scope.

(** ** Registration *)
Record NamespaceEntry : Type := { ns_exclusive : bool; ns_regex : string }.

Record Namespaces : Type := {
  ns_users : list NamespaceEntry;
  ns_rooms : list NamespaceEntry;
  ns_aliases : list NamespaceEntry
}.

Record AppserviceRegistration : Type := {
  ar_id : string;
  ar_url : string;
  ar_as_token : string;
  ar_hs_token : string;
  ar_sender_localpart : string;
  ar_namespaces : Namespaces;
  ar_rate_limited : bool
}.

Definition default_registration (homeserver_url mm_url bot_localpart : string) :
    AppserviceRegistration := {|
  ar_id := "matrixmedia"; ar_url := mm_url; ar_as_token := ""; ar_hs_token := "";
  ar_sender_localpart := bot_localpart;
  ar_namespaces := {|
    ns_users := [{| ns_exclusive := false; ns_regex := "@" +:+ bot_localpart +:+ ":.*" |}];
    ns_rooms := []; ns_aliases := [] |};
  ar_rate_limited := false |}.

(** ** The handler *)
Record AppserviceHandler : Type := {
  ah_hs_client : HomeserverClient;
  ah_feed_indexer : option FeedIndexer
}.

Definition new_handler (c : HomeserverClient) : AppserviceHandler :=
  {| ah_hs_client := c; ah_feed_indexer := None |}.

Definition with_feed_indexer (c : HomeserverClient) (local_server_name : string) :
    AppserviceHandler := {|
  ah_hs_client := c;
  ah_feed_indexer := Some {| ix_client := c; ix_local_server_name := local_server_name;
                             ix_bot_user_id := hc_bot_user_id c |} |}.

Definition low_power_notice : string :=
  "Warning: I need a power level of at least 50 to manage streams in this room. " +:+
  "Please promote me with: /op @mmbot 50".

Definition e2ee_notice : string :=
  "Note: This room has end-to-end encryption enabled. " +:+
  "MatrixMedia has limited support for E2EE rooms in v1 -- " +:+
  "I cannot read encrypted messages, so bot commands must be " +:+
  "sent as unencrypted messages or use the widget interface.".

Section handler.
Context {N : Type} `{FeedText, Http N}.
Variable h : AppserviceHandler.

Abbreviation World := ((Db * N) * Caches)%type.

(** After joining, the checks of the room; their failures do not fail the event. *)
Definition check_room (room : string) : st N () :=
  let! power := bot_has_state_power (ah_hs_client h) room in
  let! _ := match power with
            | Ok false => let! _ := send_notice (ah_hs_client h) room low_power_notice in st_ret ()
            | _ => st_ret ()
            end in
  let! encrypted := check_room_encrypted (ah_hs_client h) room in
  match encrypted with
  | Ok true => let! _ := send_notice (ah_hs_client h) room e2ee_notice in st_ret ()
  | _ => st_ret ()
  end.

Definition handle_member_event (event : json_value) : st World (result () MMError.t) :=
  let content := default JNull (jget "content" event) in
  if negb (bool_decide (get_str "membership" content = Some "invite")) then st_ret (Ok ())
  else if negb (bool_decide (get_str "state_key" event = Some (hc_bot_user_id (ah_hs_client h))))
  then st_ret (Ok ())
  else
  match get_str "room_id" event with
  | None => st_ret (Ok ())
  | Some room =>
      let? _ := st_fst (st_snd (join_room (ah_hs_client h) room)) in
      let! _ := st_fst (st_snd (check_room room)) in
      st_ret (Ok ())
  end.

Definition handle_message_event (event : json_value) : st World (result () MMError.t) :=
  let content := default JNull (jget "content" event) in
  match get_str "body" content, get_str "room_id" event, get_str "sender" event with
  | Some body, Some room, Some sender =>
      if String.eqb sender (hc_bot_user_id (ah_hs_client h)) then st_ret (Ok ())
      else
      match parse_command body with
      | None => st_ret (Ok ())
      | Some command =>
          let? _ := st_fst (st_snd (send_notice (ah_hs_client h) room (execute sender command))) in
          st_ret (Ok ())
      end
  | _, _, _ => st_ret (Ok ())
  end.

Definition handle_feed_dispatch (event : json_value) : st World (result () MMError.t) :=
  match ah_feed_indexer h with
  | None => st_ret (Ok ())
  | Some ix => let? _ := handle_event ix event in st_ret (Ok ())
  end.

(** Only logs. *)
Definition handle_mm_event (event : json_value) : st World (result () MMError.t) :=
  st_ret (Ok ()).

Definition dispatch (event : json_value) : st World (result () MMError.t) :=
  match get_str "type" event with
  | None => st_ret (Ok ())
  | Some t =>
      if String.eqb t "m.room.member" then handle_member_event event
      else if String.eqb t "m.room.message" then handle_message_event event
      else if String.eqb t "m.room.redaction" then handle_feed_dispatch event
      else if is_feed_event_type t then handle_feed_dispatch event
      else if starts_with "com.matrixmedia." t then handle_mm_event event
      else st_ret (Ok ())
  end.

Definition handle_transaction (events : list json_value) : st World (result () MMError.t) :=
  let! _ := st_fold (λ _ event, let! _ := dispatch event in st_ret ()) events () in
  st_ret (Ok ()).

(** ** PUT /transactions/{txn_id} *)
(** [authorized] is what the extractor of the homeserver's token answers; the body has
    [events], an empty list when it is absent. *)
Definition put_transaction (authorized : result () MMError.t) (txn_id : string)
    (events : list json_value) : st World (result json_value MMError.t) :=
  match authorized with
  | Err e => st_ret (Err e)
  | Ok _ =>
      let! _ := handle_transaction events in
      st_ret (Ok (JObj []))
  end.
End handler.

(** ** What transactions can do to the tables *)
Section evolution.
Context {N : Type} `{FeedText, Http N}.

Definition same_or_hidden (x y : FeedRec) : Prop := y = x ∨ y = hidden_item x.

(** A row of the index: of a local member other than the bot, uncounted. *)
Definition index_row (ix : FeedIndexer) (x : FeedRec) : Prop :=
  is_recipient ix (fi_user_id x) = true ∧ fi_origin x = ix_local_server_name ix ∧
  fi_id x = make_item_id (fi_user_id x) (fi_event_id x) ∧
  fi_kind x ∈ feed_kind_for_type <$> FEED_EVENT_TYPES ∧ fi_seen_at x = None ∧
  fi_reactions_count x = 0 ∧ fi_comments_count x = 0.

(** From [t] to [t']: nothing but the feed rows changes; they keep their place and may be
    hidden; the new ones are rows of the index. *)
Definition indexed_into (ix : FeedIndexer) (t t' : Tables) : Prop :=
  ∃ kept added, t' = with_items (kept ++ added) t ∧
    Forall2 same_or_hidden (f_items (feed_of t)) kept ∧ Forall (index_row ix) added.

Lemma hidden_hidden x : hidden_item (hidden_item x) = hidden_item x.
Proof. done. Qed.

Lemma index_row_hidden ix x y : same_or_hidden x y → index_row ix x → index_row ix y.
Proof. by intros [->| ->]. Qed.

#[global] Instance same_or_hidden_preorder : PreOrder same_or_hidden.
Proof.
  split; [by left|]. intros x y z [->| ->] [->| ->]; unfold same_or_hidden; auto.
Qed.

#[global] Instance indexed_into_preorder ix : PreOrder (indexed_into ix).
Proof.
  split.
  - intros t. exists (f_items (feed_of t)), []. rewrite app_nil_r, with_items_same.
    by repeat split.
  - intros t1 t2 t3 (k1 & a1 & -> & Hk1 & Ha1) (k2 & a2 & -> & Hk2 & Ha2).
    cbn [feed_of with_items] in Hk2. rewrite feed_of_with_items in Hk2. cbn [f_items set_items] in Hk2.
    apply Forall2_app_inv_l in Hk2 as (k & k' & Hk & Hk' & ->).
    exists k, (k' ++ a2). rewrite with_items_twice, <-(assoc_L (++)). split; [done|].
    split; [by etrans|]. apply Forall_app. split; [|done].
    clear -Hk' Ha1. induction Hk' as [|x y a1 k' Hxy Hk' IH]; [done|].
    inversion Ha1; subst. constructor; [by eapply index_row_hidden|by apply IH].
Qed.

(** The same, for tables without engagement references. *)
Definition evolves_unreferenced (ix : FeedIndexer) (t t' : Tables) : Prop :=
  f_refs (feed_of t) = ∅ → indexed_into ix t t'.

Lemma indexed_into_refs ix t t' : indexed_into ix t t' → f_refs (feed_of t') = f_refs (feed_of t).
Proof. by intros (k & a & -> & _). Qed.

#[global] Instance evolves_unreferenced_preorder ix : PreOrder (evolves_unreferenced ix).
Proof.
  split.
  - intros t _. reflexivity.
  - intros t1 t2 t3 H12 H23 Hr. specialize (H12 Hr). etrans; [exact H12|]. apply H23.
    by rewrite (indexed_into_refs _ _ _ H12).
Qed.

Variable ix : FeedIndexer.
Abbreviation R := (on_fst (T := Caches) (on_fst (T := N) (on_tables (evolves_unreferenced ix)))).

(** ** The statements *)
Lemma insert_stmt_indexes rows :
  Forall (index_row ix) rows → stmt_rel (evolves_unreferenced ix) (insert_stmt rows).
Proof.
  intros Hr now t n t'. unfold insert_stmt, on_feed, on_api. fold (feed_of t).
  pose proof (insert_rows_prefix rows (f_items (feed_of t))) as (added & E & Ha).
  destruct (insert_rows rows (f_items (feed_of t))) as [l k]. cbn [fst] in E. subst l.
  intros [= _ <-] _. exists (f_items (feed_of t)), added. split; [done|]. split; [done|].
  rewrite Forall_forall in *. auto.
Qed.

Lemma hide_indexes event : st_rel (on_tables (evolves_unreferenced ix)) (mark_hidden_by_event event).
Proof.
  apply st_rel_exec; [apply _|]. intros now t n t'. unfold on_feed, on_api. fold (feed_of t).
  unfold update_items. intros [= _ <-] _. eexists _, []. rewrite app_nil_r.
  split; [reflexivity|]. split; [|done]. apply Forall2_fmap_r, Forall_Forall2_diag, Forall_true.
  intros x. unfold same_or_hidden. simpl. case_match; auto.
Qed.

Lemma insert_chunks_indexes cs n :
  Forall (Forall (index_row ix)) cs →
  st_rel (on_tables (evolves_unreferenced ix)) (insert_chunks cs n).
Proof.
  intros Hc. revert n. induction Hc as [|c cs Hc Hcs IH]; intros n; cbn [insert_chunks].
  - apply st_rel_ret. apply _.
  - apply st_rel_try; [apply _|by apply st_rel_exec; [apply _|apply insert_stmt_indexes]|].
    intros k. apply IH.
Qed.

(** ** The handlers *)
Lemma kind_in t : is_feed_event_type t = true → feed_kind_for_type t ∈ feed_kind_for_type <$> FEED_EVENT_TYPES.
Proof.
  intros Ht. apply existsb_exists in Ht as (t' & Hin & E). apply String.eqb_eq in E. subst t'.
  by apply list_elem_of_fmap_2, list_elem_of_In.
Qed.

Lemma batch_indexes us room e t ts content :
  Forall (λ u, is_recipient ix u = true) us → is_feed_event_type t = true →
  st_rel (on_tables (evolves_unreferenced ix))
    (insert_feed_items_batch ((λ m, make_item_id m e) <$> us) us room e (feed_kind_for_type t) ts
       (ix_local_server_name ix) content).
Proof.
  intros Hu Ht. unfold insert_feed_items_batch. st_step; [apply st_rel_ret; apply _|].
  apply insert_chunks_indexes, Forall_concat.
  rewrite batch_rows by (unfold FEED_INSERT_CHUNK; lia).
  apply Forall_fmap. eapply Forall_impl; [exact Hu|]. intros u Hrec. simpl.
  repeat split; try done. by apply kind_in.
Qed.

Lemma in_db_rel {A} (m : st Db (result A db_error)) :
  st_rel (on_tables (evolves_unreferenced ix)) m → st_rel R (in_db (N := N) m).
Proof.
  intros Hm. unfold in_db. apply st_rel_bind; [apply _|by auto with mm|].
  intros r. apply st_rel_ret. apply _.
Qed.

Lemma asks_homeserver {A} (m : st N A) : st_rel R (st_fst (st_snd m)).
Proof. apply st_rel_on_fst, st_rel_on_snd. apply _. Qed.

Lemma mm_enabled_indexes room : st_rel R (mm_enabled room).
Proof.
  intros w. unfold mm_enabled. destruct (fresh _ _ _ _); [reflexivity|].
  match goal with |- R w (?m w).2 => enough (Hm : st_rel R m) by apply Hm end.
  apply st_rel_bind; [apply _| |].
  { apply st_rel_on_fst, st_rel_on_fst, st_rel_exec, stmt_rel_reading; apply _. }
  intros r. apply st_rel_bind; [apply _| |intros ?; apply st_rel_ret; apply _].
  intros w'. unfold on_fst, on_tables. cbn [fst snd]. reflexivity.
Qed.

Lemma joined_members_indexes room : st_rel R (joined_members_cached ix room).
Proof.
  intros w. unfold joined_members_cached. destruct (fresh _ _ _ _); [reflexivity|].
  match goal with |- R w (?m w).2 => enough (Hm : st_rel R m) by apply Hm end.
  apply st_rel_try; [apply _|apply asks_homeserver|].
  intros ms. apply st_rel_bind; [apply _| |intros ?; apply st_rel_ret; apply _].
  intros w'. unfold on_fst, on_tables. cbn [fst snd]. reflexivity.
Qed.

(** Without references a redaction can only hide. *)
Lemma lookup_unreferenced target (w : (Db * N) * Caches) eng :
  f_refs (feed_of (db_tables w.1.1)) = ∅ →
  (in_db (lookup_engagement_ref target) w).1 ≠ Ok (Some eng).
Proof.
  intros Hr. unfold in_db, lookup_engagement_ref, st_bind, st_fst.
  pose proof (exec_reading_ok (λ t, f_refs (feed_of t) !! target) w.1.1) as Ha.
  destruct (exec _ w.1.1) as [[a|err] db']; cbn; [|done].
  intros [= ->]. specialize (Ha (Some eng) eq_refl). by rewrite Hr, lookup_empty in Ha.
Qed.

Lemma handle_redaction_indexes event : st_rel R (handle_redaction event).
Proof.
  unfold handle_redaction. destruct (redaction_target event) as [target|]; [|apply st_rel_ret; apply _].
  intros w Hr. pose proof (lookup_unreferenced target w) as Hn.
  assert (Hl : st_rel R (in_db (N := N) (lookup_engagement_ref target))).
  { apply in_db_rel, st_rel_exec, stmt_rel_reading; apply _. }
  specialize (Hl w). unfold st_try at 1, st_bind at 1.
  destruct (in_db (lookup_engagement_ref target) w) as [[[eng|]|err] w1]; cbn [fst snd] in *.
  - by destruct (Hn eng Hr).
  - assert (Hh : st_rel R (st_try (in_db (N := N) (mark_hidden_by_event target)) (λ updated,
      st_ret (Ok (0 <? updated))))).
    { apply st_rel_try; [apply _|apply in_db_rel, hide_indexes|]. intros k. apply st_rel_ret; apply _. }
    exact (transitivity (R := R) Hl (Hh w1) Hr).
  - by apply Hl.
Qed.

Lemma fan_out_indexes room e t ts content members :
  is_feed_event_type t = true →
  st_rel R (fan_out ix room e (feed_kind_for_type t) ts content members).
Proof.
  intros Ht. unfold fan_out. st_step; [apply st_rel_ret; apply _|].
  apply st_rel_bind; [apply _| |intros ?; apply st_rel_ret; apply _].
  apply st_rel_on_fst, st_rel_on_fst, batch_indexes; [|done].
  apply Forall_forall. intros u Hu%list_elem_of_In. by apply filter_In in Hu as [_ ?].
Qed.

Lemma handle_feed_event_indexes t event :
  is_feed_event_type t = true → st_rel R (handle_feed_event ix t event).
Proof.
  intros Ht. unfold handle_feed_event.
  destruct (get_str "room_id" event) as [room|]; [|apply st_rel_ret; apply _].
  destruct (get_str "event_id" event) as [e|]; [|apply st_rel_ret; apply _].
  intros w. cbv zeta.
  match goal with |- R w (?m w).2 => enough (Hm : st_rel R m) by apply Hm end.
  apply st_rel_bind; [apply _|apply mm_enabled_indexes|]. intros b.
  st_step; [apply st_rel_ret; apply _|].
  apply st_rel_try; [apply _|apply joined_members_indexes|]. intros ms. by apply fan_out_indexes.
Qed.

Variable h : AppserviceHandler.
Hypothesis h_indexer : ah_feed_indexer h = Some ix ∨ ah_feed_indexer h = None.

(** Only redactions and feed events get to the indexer. *)
Lemma handle_feed_dispatch_indexes t event :
  get_str "type" event = Some t →
  t = "m.room.redaction" ∨ is_feed_event_type t = true →
  st_rel R (handle_feed_dispatch h event).
Proof.
  intros Ht Hcase. unfold handle_feed_dispatch.
  destruct h_indexer as [-> | ->]; [|apply st_rel_ret; apply _].
  apply st_rel_try; [apply _| |intros ?; apply st_rel_ret; apply _].
  unfold handle_event. rewrite Ht. change (default "" (Some t)) with t. cbv zeta.
  destruct Hcase as [->|Hf]; [apply handle_redaction_indexes|].
  destruct (feed_type_not_other _ Hf) as (-> & -> & ->). rewrite Hf.
  by apply handle_feed_event_indexes.
Qed.

Lemma dispatch_indexes event : st_rel R (dispatch h event).
Proof.
  unfold dispatch. destruct (get_str "type" event) as [t|] eqn:Ht; [|apply st_rel_ret; apply _].
  destruct (String.eqb t "m.room.member").
  { unfold handle_member_event. st_steps; apply asks_homeserver. }
  destruct (String.eqb t "m.room.message").
  { unfold handle_message_event. st_steps; apply asks_homeserver. }
  destruct (String.eqb_spec t "m.room.redaction"); [apply (handle_feed_dispatch_indexes t); auto|].
  destruct (is_feed_event_type t) eqn:Hf; [apply (handle_feed_dispatch_indexes t); auto|].
  unfold handle_mm_event. st_step; apply st_rel_ret; apply _.
Qed.

Lemma handle_transaction_indexes events : st_rel R (handle_transaction h events).
Proof.
  unfold handle_transaction. apply st_rel_bind; [apply _| |intros ?; apply st_rel_ret; apply _].
  apply st_rel_fold; [apply _|]. intros _ event _.
  apply st_rel_bind; [apply _|apply dispatch_indexes|intros ?; apply st_rel_ret; apply _].
Qed.
End evolution.

(** A homeserver's pushes, one after the other, authorized or not. *)
Definition push_all {N} `{FeedText, Http N} (h : AppserviceHandler)
    (reqs : list (result () MMError.t * string * list json_value)) : st ((Db * N) * Caches) () :=
  st_fold (λ _ r, let '(authorized, txn_id, events) := r in
                  let! _ := put_transaction h authorized txn_id events in st_ret ()) reqs ().

(** Whatever events a homeserver pushes, in whatever transactions, and whichever statements
    fail: nothing but the newsfeed changes; its rows keep their place and their content
    and can only become hidden; and every row added belongs to a local member other than
    the bot, is of one of the four feed kinds, and carries the key derived from its user and
    event. In particular no reaction or reply is ever counted, because only redactions and
    feed events are routed to the indexer. *)
Theorem transactions_only_index_and_hide {N} `{FeedText, Http N} (c : HomeserverClient)
    (local_server_name : string)
    (reqs : list (result () MMError.t * string * list json_value)) (w : (Db * N) * Caches) :
  let ix := {| ix_client := c; ix_local_server_name := local_server_name;
               ix_bot_user_id := hc_bot_user_id c |} in
  f_refs (feed_of (db_tables w.1.1)) = ∅ →
  indexed_into ix (db_tables w.1.1)
    (db_tables (push_all (with_feed_indexer c local_server_name) reqs w).2.1.1).
Proof.
  intros ix.
  enough (Hp : st_rel (on_fst (T := Caches) (on_fst (T := N) (on_tables (evolves_unreferenced ix))))
    (push_all (with_feed_indexer c local_server_name) reqs)) by apply Hp.
  apply st_rel_fold; [apply _|]. intros _ [[authorized txn_id] events] _.
  apply st_rel_bind; [apply _| |intros ?; apply st_rel_ret; apply _].
  unfold put_transaction. st_step; [|apply st_rel_ret; apply _].
  apply st_rel_bind; [apply _| |intros ?; apply st_rel_ret; apply _].
  apply handle_transaction_indexes. by left.
Qed.

(** A post and a reaction to it: the post is indexed, the reaction is not counted. *)
Module PushDemo.
Definition reaction : json_value := JObj
  [("type", JStr "m.reaction"); ("room_id", JStr "!r:x"); ("event_id", JStr "$f");
   ("content", JObj [("m.relates_to",
     JObj [("rel_type", JStr "m.annotation"); ("event_id", JStr "$e")])])].
Definition reqs : list (result () MMError.t * string * list json_value) :=
  [(Ok (), "1", [IndexDemo.event; reaction])].
Definition after : (Db * ()) * Caches :=
  (@push_all () FeedDemo.txt IndexDemo.http (with_feed_indexer IndexDemo.client "x") reqs
     IndexDemo.world).2.
End PushDemo.

Lemma transactions_only_index_and_hide_witness :
  fi_reactions_count <$> feed_rows PushDemo.after = [0; 0] ∧
  @indexed_into FeedDemo.txt IndexDemo.ix IndexDemo.tables (db_tables PushDemo.after.1.1).
Proof.
  split; [vm_compute; reflexivity|].
  apply (@transactions_only_index_and_hide () FeedDemo.txt IndexDemo.http IndexDemo.client "x"
    PushDemo.reqs IndexDemo.world).
  reflexivity.
Defined.
