(* ===== verification/Subscriptions.v ===== *)
(** * Subscriptions: tiers, subscriptions and content gates

    The subscription half of [mm-api/src/monetization.rs]: a creator's tiers, subscribing
    through a checkout, cancelling, the entitlement query and the content gates. The
    Stripe client is a class; a handler works on the database, the entitlement caches and
    the services. *)
From Stdlib Require Import Ascii.
From S2P Require Import Prelude F64 ApiSchema Json Schema Errors Text Payments Guards MoneyDb.
From S2P Require Import Entitlement TierGate.
Local Open Scope Z_scope.
Local Open Scope mm_scope.

(** The calls of the Stripe library, with its parsers of currencies and ids. *)
Class StripeNet (N : Type) : Type := {
  stripe_currency : string → option string;
  stripe_create_price : Z → string → string → st N (result string string);
  stripe_parse_subscription_id : string → option string;
  stripe_cancel : string → st N (result () string)
}.

Record TierResponse : Type := {
  tr_id : Uuid;
  tr_creator_user_id : option string;
  tr_room_id : option string;
  tr_name : string;
  tr_description : option string;
  tr_tier_level : Z;
  tr_price_cents : Z;
  tr_currency : string;
  tr_stripe_price_id : option string;
  tr_perks : list string;
  tr_permissions : TierPermissions;
  tr_active : bool;
  tr_created_at : DateTime
}.

(** [serde_json::from_value(..).unwrap_or_default()] of the perks. *)
Definition perks_of (v : json_value) : list string :=
  match dec (A := list string) v with Some l => l | None => [] end.
Definition perks_value (l : list string) : json_value := enc l.

Definition permissions_or_default (v : json_value) : TierPermissions :=
  match Permissions.from_value v with Some p => p | None => Permissions.default end.

(** ** Statements of the handlers *)
Definition with_price (price_id : string) (x : TierRec) : TierRec := {|
  st_id := st_id x; st_creator_user_id := st_creator_user_id x; st_room_id := st_room_id x;
  st_name := st_name x; st_description := st_description x;
  st_price_cents := st_price_cents x; st_currency := st_currency x;
  st_tier_level := st_tier_level x; st_perks_json := st_perks_json x;
  st_badge_url := st_badge_url x; st_is_active := st_is_active x;
  st_stripe_price_id := Some price_id; st_permissions := st_permissions x;
  st_created_at := st_created_at x; st_updated_at := st_updated_at x |}.

Definition with_permissions (p : json_value) (x : TierRec) : TierRec := {|
  st_id := st_id x; st_creator_user_id := st_creator_user_id x; st_room_id := st_room_id x;
  st_name := st_name x; st_description := st_description x;
  st_price_cents := st_price_cents x; st_currency := st_currency x;
  st_tier_level := st_tier_level x; st_perks_json := st_perks_json x;
  st_badge_url := st_badge_url x; st_is_active := st_is_active x;
  st_stripe_price_id := st_stripe_price_id x; st_permissions := p;
  st_created_at := st_created_at x; st_updated_at := st_updated_at x |}.

Definition set_tier_price (id : Uuid) (price_id : string) : stmt () :=
  on_api (λ _ a, Ok ((), update_tiers id (with_price price_id) a)).
Definition set_tier_permissions (id : Uuid) (p : json_value) : stmt () :=
  on_api (λ _ a, Ok ((), update_tiers id (with_permissions p) a)).

Definition update_tier_stmt (id : Uuid) (name : string) (description : option string)
    (perks : json_value) (permissions : option json_value) : stmt () :=
  on_api (λ now a, Ok ((), update_tiers id (λ x,
    with_tier_fields name description perks (default (st_permissions x) permissions) now x) a)).

Definition tier_by_id (id : Uuid) (t : Tables) : option TierRec :=
  head (tiers_where (λ x, String.eqb (st_id x) id) t).
Definition active_tier_by_id (id : Uuid) (t : Tables) : option TierRec :=
  head (tiers_where (λ x, String.eqb (st_id x) id && st_is_active x) t).

(** The creator's own active tiers and, for the levels they leave free, the platform's. *)
Definition offered_tiers (creator : string) (t : Tables) : list TierRec :=
  let own := tiers_where (λ x, of_creator creator x && of_room None x && st_is_active x) t in
  order_asc st_tier_level (own ++ tiers_where (λ x,
    bool_decide (st_creator_user_id x = None) && of_room None x && st_is_active x &&
    negb (existsb (λ y, st_tier_level y =? st_tier_level x) own)) t).

Definition sub_by_id (id : Uuid) (t : Tables) : option SubRec :=
  head (List.filter (λ s, String.eqb (sb_id s) id) (a_subscriptions (t_api t))).

(** LEFT JOIN on the tier. *)
Definition own_subscriptions (user : string) (t : Tables) : list (SubRec * option TierRec) :=
  order_desc (λ r : SubRec * option TierRec, sb_created_at r.1)
    (s ← List.filter (λ s, String.eqb (sb_subscriber_user_id s) user)
           (a_subscriptions (t_api t));
     match List.filter (λ x, String.eqb (st_id x) (sb_tier_id s)) (a_tiers (t_api t)) with
     | [] => [(s, None)]
     | l => (λ x, (s, Some x)) <$> l
     end).

Definition row_not_found : MMError.t :=
  MMError.Database "no rows returned by a query that expected to return at least one row".

Definition thirty_days : Z := seconds (30 * 86400).

Section handlers.
Context {N C R : Type} `{StripeNet N}.
Context `{TtlCache C (string * string) (option Entitlement), Redis R}.
Variable registry : @Registry.t N.
Variable uuid_simple : Uuid → string.
Variable ent_json : option Entitlement → string.
Variable ent_parse : string → option (option Entitlement).
Variable has_redis has_stripe_client : bool.
Variable state : ApiState.

(** The database with the entitlement caches, and the services. *)
Abbreviation World := ((Db * (R * C)) * N)%type.

Definition in_db {A} (m : st Db A) : st World A := st_fst (st_fst m).
Definition in_net {A} (m : st N A) : st World A := st_snd m.

(** Stripe must be able to pay the creator out. *)
Definition onboarded (creator : ProfileRec) (not_complete no_account : string) :
    result string MMError.t :=
  if negb (cp_onboarding_complete creator)
  then Err (MMError.api ErrorCode.CreatorNotOnboarded not_complete)
  else match cp_stripe_account_id creator with
       | None => Err (MMError.api ErrorCode.CreatorNotOnboarded no_account)
       | Some id => Ok id
       end.

(** ** Tiers *)
Record CreateTierRequest : Type := {
  tq_room_id : option string;
  tq_name : string;
  tq_description : option string;
  tq_tier_level : Z;
  tq_price_cents : Z;
  tq_currency : option string;
  tq_perks : option (list string);
  tq_permissions : option TierPermissions
}.

(** The tiers the limit is counted on: the room's ladder, or the creator's default one. *)
Definition existing_tiers (user : string) (room : option string) :
    st World (result (list TierRec) MMError.t) :=
  match room with
  | Some r => in_db (list_tiers_for_room user (Some r))
  | None =>
      let? l := in_db (get_creator_tiers user) in
      st_ret (Ok (List.filter (λ x, bool_decide (st_room_id x = None)) l))
  end.

Definition synthetic_price (id : Uuid) : string := "price_" +:+ uuid_simple id.

(** A Stripe price, or a synthetic one when there is no client or the call fails. *)
Definition price_for (req : CreateTierRequest) (tier : TierRec) : st World string :=
  if has_stripe_client then
    let! r := in_net (stripe_create_price (tq_price_cents req)
      (default "usd" (stripe_currency (default "usd" (tq_currency req)))) (tq_name req)) in
    st_ret (match r with Ok id => id | Err _ => synthetic_price (st_id tier) end)
  else st_ret (synthetic_price (st_id tier)).

Definition create_tier (user : string) (req : CreateTierRequest) :
    st World (result TierResponse MMError.t) :=
  guard (require_subscriptions state) (
  let? creator := in_db (MoneyDb.get_creator_profile user) in
  or_fail creator (MMError.api ErrorCode.CreatorNotOnboarded "Creator profile not found")
    (λ creator,
  guard (onboarded creator "Complete Stripe onboarding first" "No Stripe account") (
  let? existing := existing_tiers user (tq_room_id req) in
  guard (map_err (MMError.api ErrorCode.InvalidAmount)
    (validate_tier (tq_tier_level req) (tq_price_cents req)
       (Z.of_nat (length (List.filter st_is_active existing))))) (
  let? tier := in_db (create_subscription_tier user (tq_room_id req) (tq_tier_level req)
    (tq_name req) (tq_price_cents req) (Some (perks_value (default [] (tq_perks req))))
    (tq_description req) None) in
  let! price_id := price_for req tier in
  let! _ := (if as_has_pg_pool state
             then in_db (exec (set_tier_price (st_id tier) price_id)) else st_ret (Ok ())) in
  let permissions := default Permissions.default (tq_permissions req) in
  let? _ := (if as_has_pg_pool state then
               let! r := in_db (exec (set_tier_permissions (st_id tier)
                                        (Permissions.to_value permissions))) in
               st_ret (map_err (λ _, MMError.api ErrorCode.Internal
                         "failed to persist tier permissions") r)
             else st_ret (Ok ())) in
  st_ret (Ok {| tr_id := st_id tier; tr_creator_user_id := st_creator_user_id tier;
    tr_room_id := st_room_id tier; tr_name := st_name tier;
    tr_description := st_description tier; tr_tier_level := st_tier_level tier;
    tr_price_cents := st_price_cents tier; tr_currency := st_currency tier;
    tr_stripe_price_id := Some price_id; tr_perks := perks_of (st_perks_json tier);
    tr_permissions := permissions; tr_active := st_is_active tier;
    tr_created_at := st_created_at tier |}))))).

(** The tier, when it is the caller's own. *)
Definition own_tier {B} (user : string) (id : Uuid) (not_yours : string)
    (k : TierRec → st World (result B MMError.t)) : st World (result B MMError.t) :=
  let? tier := in_db (asking (reading (tier_by_id id))) in
  or_fail tier (MMError.api ErrorCode.NotFound "Tier not found") (λ tier,
  if negb (bool_decide (st_creator_user_id tier = Some user))
  then st_ret (Err (MMError.api ErrorCode.Forbidden not_yours))
  else k tier).

Definition update_tier (user : string) (id : Uuid) (name description : option string)
    (perks : option (list string)) (permissions : option TierPermissions) :
    st World (result TierResponse MMError.t) :=
  guard (require_subscriptions state) (
  guard (pg_pool state) (
  own_tier user id
    "Not your tier (platform defaults are read-only; create your own to override)" (λ tier,
  let new_name := default (st_name tier) name in
  let new_description :=
    match description with Some d => Some d | None => st_description tier end in
  let new_perks := match perks with Some l => perks_value l | None => st_perks_json tier end in
  let? _ := in_db (asking (update_tier_stmt id new_name new_description new_perks
                             (Permissions.to_value <$> permissions))) in
  let? effective := in_db (asking (reading (λ t, st_permissions <$> tier_by_id id t))) in
  or_fail effective row_not_found (λ effective,
  st_ret (Ok {| tr_id := st_id tier; tr_creator_user_id := st_creator_user_id tier;
    tr_room_id := st_room_id tier; tr_name := new_name; tr_description := new_description;
    tr_tier_level := st_tier_level tier; tr_price_cents := st_price_cents tier;
    tr_currency := st_currency tier; tr_stripe_price_id := st_stripe_price_id tier;
    tr_perks := perks_of new_perks; tr_permissions := permissions_or_default effective;
    tr_active := st_is_active tier; tr_created_at := st_created_at tier |}))))).

Definition delete_tier (user : string) (id : Uuid) : st World (result () MMError.t) :=
  guard (require_subscriptions state) (
  guard (pg_pool state) (
  own_tier user id "Not your tier (cannot delete platform defaults)" (λ _,
  let? _ := in_db (asking (deactivate_stmt id)) in st_ret (Ok ())))).

Definition tier_response (x : TierRec) : TierResponse := {|
  tr_id := st_id x; tr_creator_user_id := st_creator_user_id x; tr_room_id := st_room_id x;
  tr_name := st_name x; tr_description := st_description x; tr_tier_level := st_tier_level x;
  tr_price_cents := st_price_cents x; tr_currency := st_currency x;
  tr_stripe_price_id := st_stripe_price_id x; tr_perks := perks_of (st_perks_json x);
  tr_permissions := permissions_or_default (st_permissions x); tr_active := st_is_active x;
  tr_created_at := st_created_at x |}.

Definition list_creator_tiers (creator : string) :
    st World (result (list TierResponse) MMError.t) :=
  guard (require_subscriptions state) (
  guard (pg_pool state) (
  let? rows := in_db (asking (reading (offered_tiers creator))) in
  st_ret (Ok (tier_response <$> rows)))).

(** ** Subscribing *)
Record CreateSubscriptionResponse : Type := {
  ss_subscription_id : Uuid;
  ss_checkout_url : string
}.

Definition new_subscription (id : Uuid) (user creator : string) (room : option string)
    (tier_id : Uuid) (session : string) (period_end now : DateTime) : SubRec := {|
  sb_id := id; sb_subscriber_user_id := user; sb_creator_user_id := creator;
  sb_room_id := room; sb_tier_id := tier_id; sb_status := "incomplete";
  sb_stripe_subscription_id := Some session; sb_current_period_end := period_end;
  sb_cancelled_at := None; sb_created_at := now; sb_updated_at := now |}.

(** [now()] of the statement fills the two time columns. *)
Definition insert_incomplete (id : Uuid) (user creator : string) (room : option string)
    (tier_id : Uuid) (session : string) (period_end : DateTime) : stmt () := λ now t,
  insert_subscription (new_subscription id user creator room tier_id session period_end now)
    now t.

Definition subscription_metadata (id : Uuid) (user creator : string) (tier_id : Uuid)
    (room : option string) : gmap string string :=
  let m := <["tier_id" := tier_id]> (<["creator_user_id" := creator]>
             (<["subscriber_user_id" := user]> {["subscription_id" := id]})) in
  match room with Some r => <["mm_room_id" := r]> m | None => m end.

(** [id] is the fresh UUID, [now] the server's clock. *)
Definition create_subscription (user : string) (tier_id : Uuid) (room : option string)
    (id : Uuid) (now : DateTime) : st World (result CreateSubscriptionResponse MMError.t) :=
  guard (require_subscriptions state) (
  guard (pg_pool state) (
  let? tier := in_db (asking (reading (active_tier_by_id tier_id))) in
  or_fail tier (MMError.api ErrorCode.NotFound "Tier not found or inactive") (λ tier,
  or_fail (st_creator_user_id tier) (MMError.api ErrorCode.NotFound
    "Cannot subscribe to a platform-default tier directly; the creator must adopt it first")
    (λ creator_id,
  let? creator := in_db (MoneyDb.get_creator_profile creator_id) in
  or_fail creator (MMError.api ErrorCode.CreatorNotOnboarded
    "Creator has not completed onboarding") (λ creator,
  match onboarded creator "Creator has not completed Stripe onboarding"
          "Creator has no Stripe account" with
  | Err e => st_ret (Err e)
  | Ok account =>
      let fees := calculate_fees (st_price_cents tier) (platform_fee_pct creator) in
      let base := default "https://localhost:6167" (as_public_url state) in
      guard (payment_registry state) (
      let! resp := in_net (Registry.create_checkout registry "stripe" {|
        cq_mode := CheckoutMode.Subscription; cq_amount_cents := Some (st_price_cents tier);
        cq_currency := st_currency tier; cq_creator_account_id := account;
        cq_platform_fee_cents := Some (fb_platform_fee_cents fees);
        cq_success_url := base +:+ "/subscriptions/" +:+ id +:+ "/success";
        cq_cancel_url := base +:+ "/subscriptions/" +:+ id +:+ "/cancel";
        cq_metadata := subscription_metadata id user creator_id (st_id tier) room;
        cq_price_id := st_stripe_price_id tier |}) in
      match resp with
      | Err e => st_ret (Err (MMError.Stripe (PaymentError.to_string e)))
      | Ok checkout =>
          let? _ := in_db (asking (insert_incomplete id user creator_id room (st_id tier)
                             (cs_session_id checkout) (now + thirty_days))) in
          st_ret (Ok {| ss_subscription_id := id;
                        ss_checkout_url := cs_checkout_url checkout |})
      end)
  end))))).

(** ** Cancelling *)
Definition invalidate_entitlement (user creator : string) : st World () :=
  if as_has_entitlement state then st_fst (invalidate has_redis user creator)
  else st_ret ().

(** A subscription Stripe knows is cancelled there first; only an id that cannot be parsed
    stops the request. *)
Definition cancel_at_stripe (stripe_id : option string) : st World (result () MMError.t) :=
  match stripe_id with
  | Some s =>
      if starts_with "sub_" s && has_stripe_client then
        match stripe_parse_subscription_id s with
        | None => st_ret (Err (MMError.Stripe "Invalid subscription ID format"))
        | Some sub_id => let! _ := in_net (stripe_cancel sub_id) in st_ret (Ok ())
        end
      else st_ret (Ok ())
  | None => st_ret (Ok ())
  end.

Definition cancel_subscription (user : string) (id : Uuid) : st World (result () MMError.t) :=
  guard (require_subscriptions state) (
  guard (pg_pool state) (
  let? sub := in_db (asking (reading (sub_by_id id))) in
  or_fail sub (MMError.api ErrorCode.NotFound "Subscription not found") (λ sub,
  if negb (String.eqb (sb_subscriber_user_id sub) user)
  then st_ret (Err (MMError.api ErrorCode.Forbidden "Not your subscription"))
  else if String.eqb (sb_status sub) "cancelled"
  then st_ret (Err (MMError.api ErrorCode.InvalidAmount "Subscription already cancelled"))
  else
  let? _ := cancel_at_stripe (sb_stripe_subscription_id sub) in
  let? _ := in_db (asking (cancel_stmt id)) in
  let! _ := invalidate_entitlement (sb_subscriber_user_id sub) (sb_creator_user_id sub) in
  st_ret (Ok ())))).

(** ** Queries *)
Record SubscriptionResponse : Type := {
  sx_id : Uuid;
  sx_creator_user_id : string;
  sx_tier_id : Uuid;
  sx_tier_name : option string;
  sx_tier_level : option Z;
  sx_status : string;
  sx_current_period_end : DateTime;
  sx_created_at : DateTime
}.

Definition subscription_response (r : SubRec * option TierRec) : SubscriptionResponse := {|
  sx_id := sb_id r.1; sx_creator_user_id := sb_creator_user_id r.1;
  sx_tier_id := sb_tier_id r.1; sx_tier_name := st_name <$> r.2;
  sx_tier_level := st_tier_level <$> r.2; sx_status := sb_status r.1;
  sx_current_period_end := sb_current_period_end r.1; sx_created_at := sb_created_at r.1 |}.

Definition list_subscriptions (user : string) :
    st World (result (list SubscriptionResponse) MMError.t) :=
  guard (require_subscriptions state) (
  guard (pg_pool state) (
  let? rows := in_db (asking (reading (own_subscriptions user))) in
  st_ret (Ok (subscription_response <$> rows)))).

Definition check_entitlement (now : DateTime) (user creator : string) :
    st World (result (option Entitlement) MMError.t) :=
  guard (require_subscriptions state) (
  guard (entitlement_service state) (
  let! e := st_fst (check ent_json ent_parse has_redis now user creator) in
  st_ret (Ok e))).

(** ** Content gates *)
Definition create_gate (user content_type content_id : string) (min_tier_level : Z)
    (preview_seconds : option Z) : st World (result GateRec MMError.t) :=
  guard (require_subscriptions state) (
  guard (validate_tier_level min_tier_level) (
  guard (validate_preview_seconds (default 120 preview_seconds)) (
  in_db (create_content_gate content_type content_id user min_tier_level
           (default 120 preview_seconds))))).

Definition get_gate (content_type content_id : string) :
    st World (result (option GateRec) MMError.t) :=
  guard (require_subscriptions state) (in_db (db_get_content_gate content_type content_id)).

Definition delete_gate (content_type content_id : string) : st World (result () MMError.t) :=
  guard (require_subscriptions state) (in_db (delete_content_gate content_type content_id)).
End handlers.

(** ** The tiers a creator offers *)

Lemma sorted_strict (l : list TierRec) :
  StronglySorted (by_int st_tier_level) l → NoDup (st_tier_level <$> l) →
  StronglySorted (λ x y, st_tier_level x < st_tier_level y) l.
Proof.
  induction 1 as [|x l Hs IH Hx]; [constructor|]. csimpl. rewrite NoDup_cons. intros [Hn Hd].
  constructor; [by apply IH|]. rewrite Forall_forall in *. intros y Hy.
  pose proof (Hx y Hy) as Hle. unfold by_int in Hle.
  assert (st_tier_level x ≠ st_tier_level y); [|lia].
  intros E. apply Hn. rewrite E. by apply list_elem_of_fmap_2.
Qed.

Lemma NoDup_fmap_filter {A B} (f : A → B) (p : A → bool) (l : list A) :
  NoDup l → (∀ x y, x ∈ l → y ∈ l → p x = true → p y = true → f x = f y → x = y) →
  NoDup (f <$> List.filter p l).
Proof.
  induction 1 as [|x l Hx Hl IH]; intros Hinj; csimpl; [constructor|].
  assert (IH' : NoDup (f <$> List.filter p l)).
  { apply IH. intros y z ??. apply Hinj; by right. }
  destruct (p x) eqn:E; csimpl; [|done]. apply NoDup_cons. split; [|done].
  intros (y & Ef & Hy)%list_elem_of_fmap.
  apply list_elem_of_In, filter_In in Hy as [Hy Hp]. apply list_elem_of_In in Hy.
  assert (x = y) as -> by (apply Hinj; [left|by right|done..]). done.
Qed.

Lemma elem_of_tiers_where p t x : x ∈ tiers_where p t ↔ x ∈ a_tiers (t_api t) ∧ p x = true.
Proof. unfold tiers_where. by rewrite !list_elem_of_In, filter_In. Qed.

(** Two tiers with the same owner, room and level are one row. *)
Definition slots_unique (l : list TierRec) : Prop :=
  ∀ x y, x ∈ l → y ∈ l → same_slot x y = true → x = y.

(** The list shown for a creator has every level once, in ascending order: the creator's
    own active tier of that level when there is one, the platform's otherwise; and it has
    a tier exactly when it is one of those. *)
Theorem offered_tiers_exact (creator : string) (t : Tables) :
  NoDup (a_tiers (t_api t)) → slots_unique (a_tiers (t_api t)) →
  let own x := x ∈ a_tiers (t_api t) ∧ st_creator_user_id x = Some creator ∧
               st_room_id x = None ∧ st_is_active x = true in
  let platform x := x ∈ a_tiers (t_api t) ∧ st_creator_user_id x = None ∧
                    st_room_id x = None ∧ st_is_active x = true in
  StronglySorted (λ x y, st_tier_level x < st_tier_level y) (offered_tiers creator t) ∧
  ∀ x, x ∈ offered_tiers creator t ↔
    own x ∨ (platform x ∧ ∀ y, own y → st_tier_level y ≠ st_tier_level x).
Proof.
  intros Hnd Hu own platform. unfold offered_tiers.
  set (mine := tiers_where (λ x, of_creator creator x && of_room None x && st_is_active x) t).
  assert (Hmine : ∀ x, x ∈ mine ↔ own x).
  { intros x. unfold mine, own. rewrite elem_of_tiers_where. unfold of_creator, of_room.
    rewrite !andb_true_iff, !bool_decide_eq_true. naive_solver. }
  set (rest := λ x, bool_decide (st_creator_user_id x = None) && of_room None x &&
    st_is_active x && negb (existsb (λ y, st_tier_level y =? st_tier_level x) mine)).
  assert (Hrest : ∀ x, x ∈ tiers_where rest t ↔
    platform x ∧ ∀ y, own y → st_tier_level y ≠ st_tier_level x).
  { intros x. unfold platform. rewrite elem_of_tiers_where. unfold rest, of_room.
    rewrite !andb_true_iff, !bool_decide_eq_true, negb_true_iff, <-not_true_iff_false, existsb_exists.
    setoid_rewrite <-Hmine. setoid_rewrite Z.eqb_eq. setoid_rewrite <-list_elem_of_In. naive_solver. }
  assert (Hslot : ∀ x y, st_creator_user_id x = st_creator_user_id y →
    st_room_id x = st_room_id y → st_tier_level x = st_tier_level y → same_slot x y = true).
  { intros x y E1 E2 E3. unfold same_slot. rewrite bool_decide_eq_true_2, E2, E3 by done.
    by rewrite String.eqb_refl, Z.eqb_refl. }
  split.
  - apply sorted_strict; [apply StronglySorted_merge_sort; apply _|].
    unfold order_asc. rewrite merge_sort_Permutation, fmap_app. apply NoDup_app. split; [|split].
    + apply NoDup_fmap_filter; [done|]. intros x y Hx Hy Px Py E.
      assert (Hox : own x) by (apply Hmine; by apply elem_of_tiers_where).
      assert (Hoy : own y) by (apply Hmine; by apply elem_of_tiers_where).
      apply Hu; [done..|]. unfold own in *. apply Hslot; naive_solver congruence.
    + intros z (x & -> & Hx)%list_elem_of_fmap (y & E & Hy)%list_elem_of_fmap.
      apply Hmine in Hx. apply Hrest in Hy as [_ Hy]. by apply (Hy x Hx).
    + apply NoDup_fmap_filter; [done|]. intros x y Hx Hy Px Py E.
      assert (Hox : x ∈ tiers_where rest t) by by apply elem_of_tiers_where.
      assert (Hoy : y ∈ tiers_where rest t) by by apply elem_of_tiers_where.
      apply Hrest in Hox as [Hox _], Hoy as [Hoy _].
      apply Hu; [done..|]. unfold platform in *. apply Hslot; naive_solver congruence.
  - intros x. by rewrite elem_of_order_asc, elem_of_app, Hmine, Hrest.
Qed.

Definition ex_platform (level : Z) : TierRec := {|
  st_id := "p" +:+ fmt_i64 level; st_creator_user_id := None; st_room_id := None;
  st_name := "Platform"; st_description := None; st_price_cents := 299; st_currency := "usd";
  st_tier_level := level; st_perks_json := JArr []; st_badge_url := None;
  st_is_active := true; st_stripe_price_id := None; st_permissions := JObj [];
  st_created_at := 0; st_updated_at := 0 |}.

Definition ex_ladder : Tables :=
  set_api (set_tiers [ex_platform 5; ex_tier; ex_platform 3; ex_platform 1] no_api) no_tables.

(** A creator who overrides level 3. *)
Lemma offered_tiers_exact_witness :
  (st_id <$> offered_tiers "@c:x" ex_ladder) = ["p1"; "t3"; "p5"] ∧
  StronglySorted (λ x y, st_tier_level x < st_tier_level y) (offered_tiers "@c:x" ex_ladder).
Proof.
  split; [vm_compute; reflexivity|].
  apply (offered_tiers_exact "@c:x" ex_ladder).
  - apply (NoDup_fmap_1 st_id). apply (bool_decide_eq_true_1 _). vm_compute. reflexivity.
  - assert (Hids : ∀ x y, x ∈ a_tiers (t_api ex_ladder) → y ∈ a_tiers (t_api ex_ladder) →
      same_slot x y = true → x = y); [|exact Hids].
    intros x y Hx Hy. simpl in Hx, Hy. repeat setoid_rewrite elem_of_cons in Hx.
    repeat setoid_rewrite elem_of_cons in Hy.
    destruct Hx as [->|[->|[->|[->|Hx]]]]; [..|by apply elem_of_nil in Hx];
      (destruct Hy as [->|[->|[->|[->|Hy]]]]; [..|by apply elem_of_nil in Hy]);
      vm_compute; congruence.
Defined.
