(* ===== verification/Webhooks.v ===== *)
(** * Webhooks: what Stripe reports

    [stripe_webhook] of [mm-api/src/monetization.rs] and the handlers it routes to: the
    signature, the log of events, a completed checkout (a donation or a subscription), a
    deleted subscription and an updated account. Checking the signature and parsing the
    event is the Stripe library's. *)
From Stdlib Require Import Ascii.
From S2P Require Import Prelude F64 ApiSchema Json Schema Errors Text MatrixClient MatrixEvents.
From S2P Require Import Payments Guards MoneyDb Donations Entitlement TierGate Subscriptions.
Local Open Scope Z_scope.
Local Open Scope mm_scope.

Record CheckoutSession : Type := {
  se_id : string;
  se_is_subscription : bool;
  se_payment_intent : option string;
  se_subscription : option string;
  se_metadata : option (gmap string string)
}.

Inductive EventType : Type :=
  | CheckoutSessionCompleted
  | AccountUpdated
  | CustomerSubscriptionDeleted
  | OtherType (name : string).

Inductive EventObject : Type :=
  | SessionObject (s : CheckoutSession)
  | SubscriptionObject (id : string)
  | AccountObject (id : string) (charges_enabled : option bool)
  | OtherObject.

Record StripeEvent : Type := {
  ev_id : string;
  ev_type : EventType;
  ev_object : EventObject
}.

Definition event_type_text (t : EventType) : string :=
  match t with
  | CheckoutSessionCompleted => "checkout.session.completed"
  | AccountUpdated => "account.updated"
  | CustomerSubscriptionDeleted => "customer.subscription.deleted"
  | OtherType name => name
  end.

(** ** Statements *)
Definition activate_stmt (new_id : string) (period_end : DateTime) (session : string)
    (room : option string) : stmt (list SubRec) := on_api (λ now a,
  update_subscriptions (λ x,
    bool_decide (sb_stripe_subscription_id x = Some session) &&
    String.eqb (sb_status x) "incomplete") (activated new_id period_end room now) a).

Definition cancel_by_stripe_stmt (stripe_id : string) : stmt (list SubRec) := on_api (λ now a,
  update_subscriptions (λ x,
    bool_decide (sb_stripe_subscription_id x = Some stripe_id) &&
    negb (String.eqb (sb_status x) "cancelled")) (cancelled now) a).

Section webhook.
Context {N C R : Type} `{Http N}.
Context `{TtlCache C (string * string) (option Entitlement), Redis R}.
Variable hs_client : HomeserverClient.
Variable has_redis : bool.
Variable state : ApiState.
(** [stripe::Webhook::construct_event]: payload, signature, secret. *)
Variable construct_event : string → string → string → result StripeEvent string.

Abbreviation World := ((Db * (R * C)) * N)%type.

(** A computation on the database and the services only. *)
Definition db_net {A} (m : st (Db * N) A) : st World A := λ w,
  let '(a, (db, n)) := m (w.1.1, w.2) in (a, ((db, w.1.2), n)).

Definition in_db {A} (m : st Db A) : st World A := st_fst (st_fst m).

(** What depends on the subscription of a row: its cached entitlement. *)
Definition invalidate_row (row : option SubRec) : st World () :=
  match row with
  | Some x => invalidate_entitlement has_redis state (sb_subscriber_user_id x)
                (sb_creator_user_id x)
  | None => st_ret ()
  end.

Definition handle_subscription_checkout_completed (session : CheckoutSession) (now : DateTime) :
    st World (result () MMError.t) :=
  if negb (as_has_pg_pool state) then st_ret (Ok ())
  else
  let new_sub_id := default (se_id session) (se_subscription session) in
  let room := se_metadata session ≫= λ m, m !! "mm_room_id" in
  let? rows := in_db (asking (activate_stmt new_sub_id (now + thirty_days) (se_id session) room)) in
  let! _ := invalidate_row (head rows) in
  st_ret (Ok ()).

Definition handle_checkout_completed (event : StripeEvent) (now : DateTime) :
    st World (result () MMError.t) :=
  match ev_object event with
  | SessionObject session =>
      if se_is_subscription session
      then handle_subscription_checkout_completed session now
      else db_net (complete_donation hs_client (se_id session) (se_payment_intent session))
  | _ => st_ret (Err (MMError.Internal
           "Expected CheckoutSession in checkout.session.completed"))
  end.

Definition handle_subscription_deleted (event : StripeEvent) : st World (result () MMError.t) :=
  match ev_object event with
  | SubscriptionObject stripe_sub_id =>
      if negb (as_has_pg_pool state) then st_ret (Ok ())
      else
      let? rows := in_db (asking (cancel_by_stripe_stmt stripe_sub_id)) in
      let! _ := invalidate_row (head rows) in
      st_ret (Ok ())
  | _ => st_ret (Err (MMError.Internal
           "Expected Subscription in customer.subscription.deleted"))
  end.

Definition handle_account_updated (event : StripeEvent) : st World (result () MMError.t) :=
  match ev_object event with
  | AccountObject account_id charges_enabled =>
      if default false charges_enabled
      then in_db (set_creator_onboarding_complete account_id true)
      else st_ret (Ok ())
  | _ => st_ret (Err (MMError.Internal "Expected Account in account.updated"))
  end.

Definition process (event : StripeEvent) (now : DateTime) : st World (result () MMError.t) :=
  match ev_type event with
  | CheckoutSessionCompleted => handle_checkout_completed event now
  | AccountUpdated => handle_account_updated event
  | CustomerSubscriptionDeleted => handle_subscription_deleted event
  | OtherType _ => st_ret (Ok ())
  end.

(** [signature] is the header, [body] the payload or why it is not UTF-8, [now] the
    server's clock. An event that was already recorded is not processed; a failure of the
    processing is not reported. *)
Definition stripe_webhook (signature : option string) (body : result string string)
    (now : DateTime) : st World (result () MMError.t) :=
  match require_monetization state with
  | Err e => st_ret (Err e)
  | Ok _ =>
  let secret := mc_webhook_signing_secret (as_config state) in
  if (String.length secret <? 32)%nat
  then st_ret (Err (MMError.api ErrorCode.WebhookInvalid "Webhook processing unavailable"))
  else
  match signature, body with
  | None, _ => st_ret (Err (MMError.api ErrorCode.WebhookInvalid
                 "Missing Stripe-Signature header"))
  | _, Err e => st_ret (Err (MMError.api ErrorCode.WebhookInvalid ("Invalid UTF-8: " +:+ e)))
  | Some sig, Ok payload =>
      match construct_event payload sig secret with
      | Err e => st_ret (Err (MMError.api ErrorCode.WebhookInvalid
                   ("Signature verification failed: " +:+ e)))
      | Ok event =>
          let? is_new := in_db (record_webhook_event (ev_id event)
                                  (event_type_text (ev_type event))) in
          if negb is_new then st_ret (Ok ())
          else let! _ := process event now in st_ret (Ok ())
      end
  end
  end.
End webhook.
