(* ===== verification/MoneyApi.v ===== *)
(** * MoneyApi: the monetization endpoints together

    Every request of [routes] and [webhook_routes] in [mm-api/src/monetization.rs], served
    one after the other on one database with its caches and services, and what holds of
    the money tables in every such history, under any pattern of lost or unacknowledged
    statements. *)
From Stdlib Require Import Ascii.
From S2P Require Import Prelude F64 ApiSchema Json Schema Errors Text MatrixClient MatrixEvents.
From S2P Require Import Payments Guards MoneyDb Donations Entitlement TierGate Subscriptions.
From S2P Require Import Webhooks.
Local Open Scope Z_scope.
Local Open Scope mm_scope.

(** A request with its caller, the fresh ids and the clock reading it is served with. *)
Inductive request : Type :=
  | CreatorOnboard (user display_name : string)
  | GetCreatorProfile (user : string)
  | GetPublicCreatorProfile (user : string)
  | UpdateCreatorProfile (user : string) (lightning_address : option string)
  | CreateDonation (donor : string) (req : CreateDonationRequest) (id key : Uuid)
      (now : DateTime)
  | SubmitLightningProof (me : string) (id : Uuid) (preimage : string) (now : DateTime)
  | GetDonationFeed (stream_id : string) (lim : option Z) (after : option string)
  | CheckLightningPayment (hash : string)
  | LnbitsWebhook (body : string)
  | CreateTier (user : string) (req : CreateTierRequest)
  | UpdateTier (user : string) (id : Uuid) (name description : option string)
      (perks : option (list string)) (permissions : option TierPermissions)
  | DeleteTier (user : string) (id : Uuid)
  | ListCreatorTiers (creator : string)
  | CreateSubscription (user : string) (tier_id : Uuid) (room : option string) (id : Uuid)
      (now : DateTime)
  | CancelSubscription (user : string) (id : Uuid)
  | ListSubscriptions (user : string)
  | CheckEntitlement (now : DateTime) (user creator : string)
  | CreateGate (user content_type content_id : string) (level : Z) (preview : option Z)
  | GetGate (content_type content_id : string)
  | DeleteGate (content_type content_id : string)
  | StripeWebhook (signature : option string) (body : result string string) (now : DateTime).

(** ** Changes the endpoints may make

    [Allowed P opens paid settled]: the relation [P] on tables allows every statement of
    the endpoints, where [opens] says whether a donation or a subscription may be opened,
    and [paid] and [settled] which checkouts and donations count as paid.
    The endpoints are shown once to move along every such relation; an invariant or a
    history property is an instance. *)

(** A donation as the handler inserts it. *)
Record donation_shape (d : DonationRec) : Prop := {
  ds_tier : dn_tier d = dt_name (tier_for_amount (dn_amount_cents d));
  ds_pin : dn_pin_duration_secs d = dt_pin_duration_secs (tier_for_amount (dn_amount_cents d));
  ds_currency : dn_currency d = "usd";
  ds_message m : dn_message d = Some m → ¬ has_char "<"%char m ∧ ¬ has_char ">"%char m
}.

(** What an update of a tier leaves alone: it may deactivate it, never activate it. *)
Definition tier_update (f : TierRec → TierRec) : Prop := ∀ x,
  st_id (f x) = st_id x ∧ st_creator_user_id (f x) = st_creator_user_id x ∧
  st_room_id (f x) = st_room_id x ∧ st_tier_level (f x) = st_tier_level x ∧
  st_price_cents (f x) = st_price_cents x ∧
  (st_is_active (f x) = true → st_is_active x = true).

Class Allowed (P : Tables → Tables → Prop) (opens : Prop) (paid : bool → string → Prop)
    (settled : Uuid → Prop) : Prop := {
  al_pre :: PreOrder P;
  al_frame t a :
    a_donations a = a_donations (t_api t) → a_tiers a = a_tiers (t_api t) →
    a_subscriptions a = a_subscriptions (t_api t) →
    a_webhook_log a = a_webhook_log (t_api t) → a_gates a = a_gates (t_api t) →
    P t (set_api a t);
  al_donation d :
    opens → donation_shape d → dn_status d = "pending" → stmt_rel P (insert_donation d);
  al_succeeded session intent :
    paid false session → stmt_rel P (update_status session "succeeded" intent);
  al_pay id payment : settled id → stmt_rel P (pay_stmt id payment);
  al_log id ty : stmt_rel P (log_event id ty);
  al_tier creator room name price level desc perks badge perms :
    stmt_rel P (insert_tier creator room name price level desc perks badge perms);
  al_tier_update t id f :
    tier_update f → P t (set_api (update_tiers id f (t_api t)) t);
  al_subscribe id user creator room tier session period_end :
    opens → stmt_rel P (insert_incomplete id user creator room tier session period_end);
  al_activate new_id period_end session room :
    paid true session → stmt_rel P (activate_stmt new_id period_end session room);
  al_cancel id : stmt_rel P (cancel_stmt id);
  al_cancel_stripe id : stmt_rel P (cancel_by_stripe_stmt id);
  al_gate ct cid creator level preview :
    0 ≤ preview ≤ 3600 → stmt_rel P (upsert_gate ct cid creator level preview);
  al_ungate t m : m ⊆ a_gates (t_api t) → P t (set_api (set_gates m (t_api t)) t)
}.

Definition ignore {S A} (m : st S A) : st S () := let! _ := m in st_ret ().

Section api.
Context {N C R : Type} `{Http N, LnurlNet N, StripeNet N}.
Context `{TtlCache C (string * string) (option Entitlement), Redis R}.
Variable registry : @Registry.t N.
Variable ops : Bolt11Ops.
Variable txt : TextOps.
Variable to_numeric : f64 → result Z db_error.
Variable uuid_simple : Uuid → string.
Variable ent_json : option Entitlement → string.
Variable ent_parse : string → option (option Entitlement).
Variable has_redis has_stripe_client : bool.
Variable hs_client : HomeserverClient.
Variable construct_event : string → string → string → result StripeEvent string.
Variable state : ApiState.

Abbreviation World := ((Db * (R * C)) * N)%type.

Definition serve (r : request) : st World () :=
  match r with
  | CreatorOnboard u d => ignore (db_net (creator_onboard registry to_numeric state u d))
  | GetCreatorProfile u => ignore (db_net (Donations.get_creator_profile state u))
  | GetPublicCreatorProfile u => ignore (db_net (get_public_creator_profile state u))
  | UpdateCreatorProfile u a => ignore (db_net (update_creator_profile to_numeric state u a))
  | CreateDonation u q id key now =>
      ignore (db_net (create_donation registry ops state u q id key now))
  | SubmitLightningProof u id p now =>
      ignore (db_net (submit_lightning_proof ops txt state u id p now))
  | GetDonationFeed s l a => ignore (db_net (get_donation_feed txt state s l a))
  | CheckLightningPayment h => ignore (db_net (check_lightning_payment registry txt state h))
  | LnbitsWebhook b => ignore (db_net (lnbits_webhook registry txt hs_client state b))
  | CreateTier u q => ignore (create_tier uuid_simple has_stripe_client state u q)
  | UpdateTier u id n d p pm => ignore (update_tier state u id n d p pm)
  | DeleteTier u id => ignore (delete_tier state u id)
  | ListCreatorTiers c => ignore (list_creator_tiers state c)
  | CreateSubscription u t r id now => ignore (create_subscription registry state u t r id now)
  | CancelSubscription u id => ignore (cancel_subscription has_redis has_stripe_client state u id)
  | ListSubscriptions u => ignore (list_subscriptions state u)
  | CheckEntitlement now u c =>
      ignore (check_entitlement ent_json ent_parse has_redis state now u c)
  | CreateGate u t c l p => ignore (create_gate state u t c l p)
  | GetGate t c => ignore (get_gate state t c)
  | DeleteGate t c => ignore (delete_gate state t c)
  | StripeWebhook s b now =>
      ignore (stripe_webhook hs_client has_redis state construct_event s b now)
  end.

Definition serve_all (l : list request) (w : World) : World :=
  fold_left (λ w r, (serve r w).2) l w.

Definition tables_of (w : World) : Tables := db_tables w.1.1.

(** The requests that open a donation or a subscription. *)
Definition opens_payment (r : request) : Prop :=
  match r with CreateDonation _ _ _ _ _ | CreateSubscription _ _ _ _ _ => True | _ => False end.

(** What a request may take as paid: a completed checkout in an event whose signature was
    accepted, a donation the Lightning wallet reports when it is asked in the network state
    [n], and a donation whose donor or recipient shows the preimage of its invoice. *)
Definition stripe_reports (r : request) (subscription : bool) (session : string) : Prop :=
  ∃ sig payload now e s,
    r = StripeWebhook (Some sig) (Ok payload) now ∧
    construct_event payload sig (mc_webhook_signing_secret (as_config state)) = Ok e ∧
    ev_type e = CheckoutSessionCompleted ∧ ev_object e = SessionObject s ∧
    se_is_subscription s = subscription ∧ se_id s = session.

Definition wallet_reports (r : request) (n : N) (id : Uuid) : Prop :=
  ∃ body session mode md,
    r = LnbitsWebhook body ∧
    (Registry.verify_webhook registry "lightning" body "" n).1 =
      Ok (WebhookEvent.CheckoutCompleted session mode md) ∧
    parse_uuid txt (default "" (md !! "donation_id")) = Some id.

Definition preimage_proves (r : request) (d : DonationRec) : Prop :=
  ∃ me preimage now hash,
    r = SubmitLightningProof me (dn_id d) preimage now ∧
    (me = dn_donor_user_id d ∨ me = dn_recipient_user_id d) ∧
    dn_payment_hash d = Some hash ∧ verify_preimage ops preimage hash = Ok ().

(** How the request [r], served in the world [w], may report the donation [d] as paid. *)
Definition donation_reported (r : request) (w : World) (d : DonationRec) : Prop :=
  (∃ s, dn_stripe_session_id d = Some s ∧ stripe_reports r false s) ∨
  wallet_reports r w.2 (dn_id d) ∨ preimage_proves r d.
End api.

(** Takes a handler apart into the statements and calls it makes. *)
Ltac api_step :=
  first [ st_step
        | apply st_rel_guard; [apply _|intros ? ?]
        | apply st_rel_or_fail; [apply _|intros ? ?]
        | apply st_rel_on_fst
        | apply st_rel_on_snd; apply _ ].
Ltac api_steps := repeat (api_step; cbv beta; try solve [eauto with mm typeclass_instances]).

(** ** Every endpoint moves along an allowed relation *)
Section moves.
Context (P : Tables → Tables → Prop) (opens : Prop).
Context (paid : bool → string → Prop) (settled : Uuid → Prop).
Context `{!Allowed P opens paid settled}.

Lemma stmt_rel_frame {A} (f : DateTime → ApiTables → result (A * ApiTables) db_error) :
  (∀ now a x a', f now a = Ok (x, a') →
     a_donations a' = a_donations a ∧ a_tiers a' = a_tiers a ∧
     a_subscriptions a' = a_subscriptions a ∧ a_webhook_log a' = a_webhook_log a ∧
     a_gates a' = a_gates a) →
  stmt_rel P (on_api f).
Proof.
  intros Hf. apply stmt_rel_on_api. intros now t x a' E.
  apply Hf in E as (? & ? & ? & ? & ?). by eapply al_frame.
Qed.

Lemma moves_insert_profile to_numeric u d fee : stmt_rel P (insert_profile to_numeric u d fee).
Proof.
  apply stmt_rel_frame. intros now a x a'. destruct (to_numeric fee); [|done].
  cbn [take_uuid]. destruct (a_profiles _ !! u).
  - by intros [= <- <-].
  - destruct (bool_decide _); [done|]. by intros [= <- <-].
Qed.

Lemma moves_profiles f g : stmt_rel P (on_api (λ now a,
  Ok (f now a : (), set_profiles (g now a) a))).
Proof. apply stmt_rel_frame. by intros now a x a' [= <- <-]. Qed.

Lemma moves_lightning u addr : st_rel (on_tables P) (set_creator_lightning_address u addr).
Proof.
  apply st_rel_asking; [apply _|]. apply stmt_rel_frame. by intros now a x a' [= <- <-].
Qed.

Lemma moves_tier_update (id : Uuid) (f : DateTime → TierRec → TierRec) :
  (∀ now, tier_update (f now)) →
  stmt_rel P (on_api (λ now a, Ok ((), update_tiers id (f now) a))).
Proof.
  intros Hf. apply stmt_rel_on_api. intros now t x a' [= _ <-]. by apply al_tier_update.
Qed.

Lemma moves_delete_gate ct cid : st_rel (on_tables P) (delete_content_gate ct cid).
Proof.
  apply st_rel_asking; [apply _|]. apply stmt_rel_on_api. intros now t x a' [= _ <-].
  apply al_ungate, delete_subseteq.
Qed.

Lemma moves_record id ty : st_rel (on_tables P) (record_webhook_event id ty).
Proof.
  apply st_rel_in_tx; [apply _|]. unfold asking_tx. st_steps.
  apply st_rel_exec_tx; [apply _|]. apply al_log.
Qed.

Lemma moves_get_donation id : st_rel (on_tables P) (get_donation id).
Proof. unfold get_donation. st_steps. Qed.

Lemma moves_feed s l a : st_rel (on_tables P) (db_get_donation_feed s l a).
Proof. unfold db_get_donation_feed. st_steps. Qed.

Lemma moves_succeeded session intent :
  paid false session →
  st_rel (on_tables P) (update_donation_status session DonationStatus.Succeeded intent).
Proof.
  intros Hp. unfold update_donation_status. st_steps.
  apply st_rel_exec; [apply _|]. by apply al_succeeded.
Qed.

Lemma moves_list_tiers u r : st_rel (on_tables P) (list_tiers_for_room u r).
Proof. unfold list_tiers_for_room. st_steps; apply st_rel_asking; apply _ || apply stmt_rel_reading; apply _. Qed.

Lemma moves_reading {A} (f : Tables → A) : st_rel (on_tables P) (asking (reading f)).
Proof. apply st_rel_asking; [apply _|]. apply stmt_rel_reading. apply _. Qed.

(** ** Handlers on the database and the services *)
Section donations.
Context {N : Type} `{Http N, LnurlNet N}.
Variable registry : @Registry.t N.
Variable ops : Bolt11Ops.
Variable txt : TextOps.
Variable to_numeric : f64 → result Z db_error.
Variable hs_client : HomeserverClient.
Variable state : ApiState.

#[local] Hint Resolve moves_insert_profile moves_profiles moves_lightning moves_get_donation
  moves_feed moves_reading : mm.

Abbreviation keeps_pair := (st_rel (on_fst (T := N) (on_tables P))).

Lemma onboard_moves u d : keeps_pair (creator_onboard registry to_numeric state u d).
Proof.
  unfold creator_onboard, stripe_onboard, Donations.in_db, Donations.in_net,
    MoneyDb.get_creator_profile, create_creator_profile, set_creator_stripe_account.
  api_steps.
Qed.

Lemma profile_moves u : keeps_pair (Donations.get_creator_profile state u).
Proof. unfold Donations.get_creator_profile, Donations.in_db, MoneyDb.get_creator_profile. api_steps. Qed.

Lemma public_profile_moves u : keeps_pair (get_public_creator_profile state u).
Proof. unfold get_public_creator_profile, Donations.in_db, MoneyDb.get_creator_profile. api_steps. Qed.

Lemma update_profile_moves u a : keeps_pair (update_creator_profile to_numeric state u a).
Proof.
  unfold update_creator_profile, Donations.in_db, MoneyDb.get_creator_profile,
    create_creator_profile. api_steps.
Qed.

Lemma sanitized_no_brackets m s :
  sanitized_message m = Some s → ¬ has_char "<"%char s ∧ ¬ has_char ">"%char s.
Proof.
  destruct m as [m|]; [|done]. intros [= <-]. unfold sanitize_display_text.
  apply escape_no_brackets.
Qed.

Lemma new_donation_shape req msg id key donor recipient c now :
  donation_shape (new_donation req (sanitized_message msg) id key donor recipient c now).
Proof. split; [done..|]. apply sanitized_no_brackets. Qed.

Lemma route_moves r creator req msg id donor fees :
  keeps_pair (route registry ops state r creator req msg id donor fees).
Proof.
  assert (Hp : keeps_pair (provider_checkout registry state r creator req id donor fees)).
  { unfold provider_checkout, Donations.in_net. api_steps. }
  unfold route. destruct r, (cp_lightning_address creator) as [addr|]; try done.
  destruct (is_empty_str addr); [done|].
  unfold lnurl_checkout, Donations.in_net. api_steps.
Qed.

Lemma create_donation_moves u q id key now :
  opens → keeps_pair (create_donation registry ops state u q id key now).
Proof.
  intros Hopens. unfold create_donation, Donations.in_db, is_user_suspended, get_stream,
    MoneyDb.get_creator_profile.
  api_steps; try apply route_moves.
  apply st_rel_asking; [apply _|]. apply al_donation; [done|apply new_donation_shape|done].
Qed.

(** Reading a donation back always fails, so a proof never reaches the update. *)
Lemma get_donation_none id db d : (get_donation id db).1 ≠ Ok (Some d).
Proof.
  unfold get_donation, st_bind. by destruct (exec _ db) as [[[|x l]|e] db'].
Qed.

Lemma proof_moves u id p now :
  keeps_pair (submit_lightning_proof ops txt state u id p now).
Proof.
  unfold submit_lightning_proof. apply st_rel_guard; [apply _|]. intros _ _ w.
  unfold st_try, st_bind, Donations.in_db, st_fst.
  pose proof (get_donation_none id w.1) as Hn. pose proof (moves_get_donation id w.1) as Hm.
  destruct (get_donation id w.1) as [[[d|]|e] db]; [by destruct (Hn d)|exact Hm|exact Hm].
Qed.

Lemma feed_moves s l a : keeps_pair (Donations.get_donation_feed txt state s l a).
Proof. unfold Donations.get_donation_feed, Donations.in_db. api_steps. Qed.

Lemma payment_check_moves h : keeps_pair (check_lightning_payment registry txt state h).
Proof. unfold check_lightning_payment, Donations.in_db. api_steps. Qed.

Lemma announce_moves s c : keeps_pair (announce hs_client s c).
Proof. unfold announce, Donations.in_db, Donations.in_net, get_stream, get_room. api_steps. Qed.

Lemma complete_moves session intent :
  paid false session → keeps_pair (complete_donation hs_client session intent).
Proof.
  intros Hp. unfold complete_donation, Donations.in_db. api_steps; try apply announce_moves.
  by apply moves_succeeded.
Qed.

(** A wallet's report settles the donation it names. *)
Lemma lnbits_moves body w :
  (∀ session mode md id,
     (Registry.verify_webhook registry "lightning" body "" w.2).1 =
       Ok (WebhookEvent.CheckoutCompleted session mode md) →
     parse_uuid txt (default "" (md !! "donation_id")) = Some id → settled id) →
  on_fst (on_tables P) w (lnbits_webhook registry txt hs_client state body w).2.
Proof.
  intros Hs. unfold lnbits_webhook. destruct (negb (as_has_registry state)); [reflexivity|].
  unfold st_bind at 1, Donations.in_net at 1, st_snd at 1.
  destruct (Registry.verify_webhook registry "lightning" body "" w.2) as [ev n] eqn:E.
  transitivity (w.1, n); [unfold on_fst; simpl; reflexivity|].
  destruct ev as [[session mode md| | | | | |]|e]; try reflexivity.
  match goal with |- on_fst _ _ (?m ?w1).2 =>
    cut (keeps_pair m); [intros Hm; exact (Hm w1)|] end.
  unfold Donations.in_db.
  destruct (parse_uuid txt (default "" (md !! "donation_id"))) as [id|] eqn:Eid;
    api_steps; try apply announce_moves.
  apply st_rel_exec; [apply _|]. apply al_pay. by eapply Hs.
Qed.
End donations.

(** ** Handlers with the entitlement caches *)
Section subscriptions.
Context {N C R : Type} `{StripeNet N, Http N}.
Context `{TtlCache C (string * string) (option Entitlement), Redis R}.
Variable registry : @Registry.t N.
Variable uuid_simple : Uuid → string.
Variable ent_json : option Entitlement → string.
Variable ent_parse : string → option (option Entitlement).
Variable has_redis has_stripe_client : bool.
Variable hs_client : HomeserverClient.
Variable state : ApiState.
Variable construct_event : string → string → string → result StripeEvent string.

#[local] Hint Resolve moves_profiles moves_reading moves_list_tiers moves_delete_gate
  moves_record : mm.

Abbreviation keeps_world := (st_rel (on_fst (T := N) (on_fst (T := (R * C)%type) (on_tables P)))).
Abbreviation keeps_cached := (st_rel (on_fst (T := (R * C)%type) (on_tables P))).

Lemma check_moves now u c : keeps_cached (check ent_json ent_parse has_redis now u c).
Proof.
  intros w. unfold check. destruct (tc_get now (u, c) w.2.2); [reflexivity|].
  match goal with |- on_fst _ _ (?m ?w1).2 =>
    cut (keeps_cached m); [intros Hm; exact (Hm w1)|] end.
  unfold query_entitlement, on_l1. api_steps; try (intros s; unfold on_fst; reflexivity).
  apply st_rel_exec; [apply _|]. by intros now' t a t' [= _ <-].
Qed.

Lemma invalidate_moves u c : keeps_world (invalidate_entitlement has_redis state u c).
Proof.
  unfold invalidate_entitlement, invalidate, on_l1. api_steps; intros s; unfold on_fst; reflexivity.
Qed.

Lemma create_tier_moves u q : keeps_world (create_tier uuid_simple has_stripe_client state u q).
Proof.
  unfold create_tier, existing_tiers, price_for, Subscriptions.in_db, Subscriptions.in_net,
    MoneyDb.get_creator_profile, get_creator_tiers, create_subscription_tier.
  api_steps.
  - apply st_rel_asking; [apply _|]. apply al_tier.
  - apply st_rel_exec; [apply _|]. apply moves_tier_update. by intros now x.
  - apply st_rel_exec; [apply _|]. apply moves_tier_update. by intros now x.
Qed.

Lemma own_tier_moves {B} u id msg (k : TierRec → st _ (result B MMError.t)) :
  (∀ x, keeps_world (k x)) → keeps_world (own_tier u id msg k).
Proof. intros Hk. unfold own_tier, Subscriptions.in_db. api_steps; auto. Qed.

Lemma update_tier_moves u id n d p pm : keeps_world (update_tier state u id n d p pm).
Proof.
  unfold update_tier, Subscriptions.in_db.
  do 2 (apply st_rel_guard; [apply _|intros _ _]). apply own_tier_moves. intros x. api_steps.
  apply st_rel_asking; [apply _|]. unfold update_tier_stmt.
  apply (moves_tier_update id (λ now y, with_tier_fields _ _ _ (default (st_permissions y) _) now y)).
  by intros now y.
Qed.

Lemma delete_tier_moves u id : keeps_world (delete_tier state u id).
Proof.
  unfold delete_tier, Subscriptions.in_db.
  do 2 (apply st_rel_guard; [apply _|intros _ _]). apply own_tier_moves. intros x. api_steps.
  apply st_rel_asking; [apply _|]. apply moves_tier_update. intros now y. by repeat split.
Qed.

Lemma list_tiers_moves c : keeps_world (list_creator_tiers state c).
Proof. unfold list_creator_tiers, Subscriptions.in_db. api_steps. Qed.

Lemma subscribe_moves u t room id now :
  opens → keeps_world (create_subscription registry state u t room id now).
Proof.
  intros Hopens. unfold create_subscription, Subscriptions.in_db, Subscriptions.in_net,
    MoneyDb.get_creator_profile. api_steps.
  apply st_rel_asking; [apply _|]. by apply al_subscribe.
Qed.

Lemma cancel_moves u id :
  keeps_world (cancel_subscription has_redis has_stripe_client state u id).
Proof.
  unfold cancel_subscription, cancel_at_stripe, Subscriptions.in_db, Subscriptions.in_net.
  api_steps; try apply invalidate_moves.
  apply st_rel_asking; [apply _|]. apply al_cancel.
Qed.

Lemma list_subscriptions_moves u : keeps_world (list_subscriptions state u).
Proof. unfold list_subscriptions, Subscriptions.in_db. api_steps. Qed.

Lemma check_entitlement_moves now u c :
  keeps_world (check_entitlement ent_json ent_parse has_redis state now u c).
Proof. unfold check_entitlement. api_steps; apply check_moves. Qed.

Lemma create_gate_moves u t c l p : keeps_world (create_gate state u t c l p).
Proof.
  unfold create_gate, Subscriptions.in_db, create_content_gate.
  do 3 (apply st_rel_guard; [apply _|intros ? ?]). api_steps.
  apply st_rel_asking; [apply _|]. apply al_gate.
  revert select (validate_preview_seconds _ = _). unfold validate_preview_seconds.
  destruct (Z.leb_spec 0 (default 120 p)), (Z.leb_spec (default 120 p) 3600); simpl; try done; lia.
Qed.

Lemma get_gate_moves t c : keeps_world (get_gate state t c).
Proof. unfold get_gate, Subscriptions.in_db, db_get_content_gate. api_steps. Qed.

Lemma delete_gate_moves t c : keeps_world (delete_gate state t c).
Proof. unfold delete_gate, Subscriptions.in_db. api_steps. Qed.

(** ** The Stripe webhook *)
Lemma db_net_moves {A} (m : st (Db * N) A) :
  st_rel (on_fst (on_tables P)) m → keeps_world (db_net m).
Proof.
  intros Hm [[db rc] n]. unfold db_net. specialize (Hm (db, n)). simpl.
  by destruct (m (db, n)) as [a [db' n']].
Qed.

Lemma invalidate_row_moves row : keeps_world (invalidate_row has_redis state row).
Proof. unfold invalidate_row. destruct row; [apply invalidate_moves|apply st_rel_ret; apply _]. Qed.

Definition completes (e : StripeEvent) (subscription : bool) (session : string) : Prop :=
  ev_type e = CheckoutSessionCompleted ∧
  ∃ s, ev_object e = SessionObject s ∧ se_is_subscription s = subscription ∧ se_id s = session.

Lemma process_moves e now :
  (∀ b session, completes e b session → paid b session) →
  keeps_world (process hs_client has_redis state e now).
Proof.
  intros Hp. unfold process. destruct (ev_type e) eqn:Et; [| | |apply st_rel_ret; apply _].
  - unfold handle_checkout_completed. destruct (ev_object e) as [s| | |] eqn:Eo;
      try (apply st_rel_ret; apply _).
    assert (Hs : paid (se_is_subscription s) (se_id s)) by (apply Hp; split; [done|by exists s]).
    destruct (se_is_subscription s).
    + unfold handle_subscription_checkout_completed, Webhooks.in_db.
      api_steps; try apply invalidate_row_moves.
      apply st_rel_asking; [apply _|]. by apply al_activate.
    + apply db_net_moves. by apply complete_moves.
  - unfold handle_account_updated, Webhooks.in_db, set_creator_onboarding_complete.
    destruct (ev_object e); api_steps.
  - unfold handle_subscription_deleted, Webhooks.in_db.
    destruct (ev_object e); api_steps; try apply invalidate_row_moves.
    apply st_rel_asking; [apply _|]. apply al_cancel_stripe.
Qed.

Lemma webhook_moves sig body now :
  (∀ s payload e b session, sig = Some s → body = Ok payload →
     construct_event payload s (mc_webhook_signing_secret (as_config state)) = Ok e →
     completes e b session → paid b session) →
  keeps_world (stripe_webhook hs_client has_redis state construct_event sig body now).
Proof.
  intros Hp. unfold stripe_webhook, Webhooks.in_db. destruct (require_monetization state);
    [|apply st_rel_ret; apply _].
  destruct (_ <? _)%nat; [apply st_rel_ret; apply _|].
  destruct sig as [s|]; [|apply st_rel_ret; apply _].
  destruct body as [payload|]; [|apply st_rel_ret; apply _].
  destruct (construct_event payload s _) as [e|] eqn:Ec; [|apply st_rel_ret; apply _].
  api_steps. apply process_moves. intros b session Hc. by eapply Hp.
Qed.
End subscriptions.
End moves.
