(* ===== verification/MoneyTables.v ===== *)
(** * MoneyTables: the money tables are well typed

    The invariant of the donation, tier, subscription and gate tables, and that every
    statement of the monetization endpoints keeps it. *)
From Stdlib Require Import Ascii.
From S2P Require Import Prelude F64 ApiSchema Json Schema Errors Text MatrixClient MatrixEvents.
From S2P Require Import Payments Guards MoneyDb Donations Entitlement TierGate Subscriptions.
From S2P Require Import Webhooks MoneyApi.
Local Open Scope Z_scope.
Local Open Scope mm_scope.

(** ** Well-typed money tables *)
Record donation_ok (d : DonationRec) : Prop := {
  do_shape : donation_shape d;
  do_amount : 100 ≤ dn_amount_cents d ≤ 100000;
  do_message m : dn_message d = Some m → char_count m ≤ 150;
  do_status : dn_status d = "pending" ∨ dn_status d = "succeeded"
}.

Definition tier_ok (x : TierRec) : Prop :=
  0 ≤ st_tier_level x ≤ 5 ∧
  ((st_tier_level x = 0 ∧ st_price_cents x = 0) ∨ 99 ≤ st_price_cents x ≤ 4999).

(** What the unique indexes see of a tier. *)
Definition tier_slot (x : TierRec) : option string * string * Z :=
  (st_creator_user_id x, scope (st_room_id x), st_tier_level x).

Definition gate_ok (k : string * string) (g : GateRec) : Prop :=
  (k.1 = "stream" ∨ k.1 = "recording") ∧ 1 ≤ cg_min_tier_level g ≤ 5 ∧
  0 ≤ cg_preview_seconds g ≤ 3600.

Record money_ok (a : ApiTables) : Prop := {
  mo_donations : Forall donation_ok (a_donations a);
  mo_donation_ids : NoDup (dn_id <$> a_donations a);
  mo_tiers : Forall tier_ok (a_tiers a);
  mo_tier_ids : NoDup (st_id <$> a_tiers a);
  mo_tier_slots : NoDup (tier_slot <$> a_tiers a);
  mo_active c : active_tiers_of (Some c) (a_tiers a) ≤ 5;
  mo_scopes : scopes_distinct (a_subscriptions a) = true;
  mo_statuses : Forall (λ x, sb_status x ∈ subscription_statuses) (a_subscriptions a);
  mo_fkey : Forall (λ x, sb_tier_id x ∈ st_id <$> a_tiers a) (a_subscriptions a);
  mo_gates : map_Forall gate_ok (a_gates a)
}.

Definition keeps_ok (t t' : Tables) : Prop := money_ok (t_api t) → money_ok (t_api t').

#[export] Instance keeps_ok_preorder : PreOrder keeps_ok.
Proof. split; unfold keeps_ok; repeat intro; naive_solver. Qed.

(** *** Donations *)
Lemma NoDup_snoc {A} (l : list A) x : NoDup l → x ∉ l → NoDup (l ++ [x]).
Proof.
  intros Hl Hx. apply NoDup_app. split; [done|]. split; [set_solver|]. apply NoDup_singleton.
Qed.

Lemma keeps_ok_donations t l :
  (Forall donation_ok (a_donations (t_api t)) → NoDup (dn_id <$> a_donations (t_api t)) →
   Forall donation_ok l ∧ NoDup (dn_id <$> l)) →
  keeps_ok t (set_api (set_donations l (t_api t)) t).
Proof. intros Hl [Hd Hi]. destruct (Hl Hd Hi). by split. Qed.

(** An update that leaves the shape of the rows alone and marks some as succeeded. *)
Lemma keeps_ok_update_donations t (f : DonationRec → DonationRec) :
  (∀ d, dn_id (f d) = dn_id d ∧ dn_amount_cents (f d) = dn_amount_cents d ∧
        dn_tier (f d) = dn_tier d ∧ dn_pin_duration_secs (f d) = dn_pin_duration_secs d ∧
        dn_currency (f d) = dn_currency d ∧ dn_message (f d) = dn_message d ∧
        (dn_status (f d) = dn_status d ∨ dn_status (f d) = "succeeded")) →
  keeps_ok t (set_api (set_donations (f <$> a_donations (t_api t)) (t_api t)) t).
Proof.
  intros Hf. apply keeps_ok_donations. intros Hd Hi. split.
  - apply Forall_fmap. eapply Forall_impl; [exact Hd|].
    intros d [[H1 H2 H3 H4] H5 H6 H7]. destruct (Hf d) as (E1 & E2 & E3 & E4 & E5 & E6 & E7).
    split; [split; [congruence..|]|congruence|..].
    + intros m. rewrite E6. apply H4.
    + intros m. rewrite E6. apply H6.
    + destruct E7 as [->| ->]; auto.
  - rewrite <-list_fmap_compose.
    rewrite (list_fmap_ext (dn_id ∘ f) dn_id (a_donations (t_api t))); [exact Hi|].
    intros i d _. simpl. by destruct (Hf d).
Qed.

(** *** Tiers *)
Lemma same_slot_spec x y : same_slot x y = true ↔ tier_slot x = tier_slot y.
Proof.
  unfold same_slot, tier_slot. rewrite !andb_true_iff, bool_decide_eq_true, String.eqb_eq, Z.eqb_eq.
  split; [intros [[H1 H2] H3]; congruence|]. intros E. injection E as H1 H2 H3. auto.
Qed.

Definition counts (c : string) (x : TierRec) : bool :=
  match st_creator_user_id x with Some c' => String.eqb c c' && st_is_active x | None => false end.

Lemma active_tiers_counts c l :
  active_tiers_of (Some c) l = Z.of_nat (length (List.filter (counts c) l)).
Proof. reflexivity. Qed.

Lemma tier_check_ok l x : tier_check l x = Ok () →
  tier_ok x ∧ (st_id x ∉ st_id <$> l) ∧ (tier_slot x ∉ tier_slot <$> l) ∧
  active_tiers_of (st_creator_user_id x) l < 5.
Proof.
  unfold tier_check. destruct (Z.leb_spec 5 (active_tiers_of (st_creator_user_id x) l)); [done|].
  destruct (negb (_ || _)) eqn:Ep; [done|]. destruct (negb (_ && _)) eqn:El; [done|].
  destruct (existsb (λ y, String.eqb (st_id y) (st_id x)) l) eqn:Ei; [done|].
  destruct (existsb (same_slot x) l) eqn:Es; [done|]. intros _. split; [split; lia|].
  split; [by apply existsb_absent|]. split; [|done].
  intros [y [Hs Hy]]%list_elem_of_fmap. apply not_true_iff_false in Es. apply Es.
  apply existsb_exists. exists y. rewrite <-list_elem_of_In. split; [done|].
  by apply same_slot_spec.
Qed.

Lemma keeps_ok_insert_tier creator room name price level desc perks badge perms :
  stmt_rel keeps_ok (insert_tier creator room name price level desc perks badge perms).
Proof.
  apply stmt_rel_on_api. intros now t y a'. cbn [take_uuid]. set (x := Build_TierRec _ _ _ _ _ _ _ _ _ _ _ _ _ _ _).
  destruct (tier_check _ x) as [[]|] eqn:E; [|done]. intros [= _ <-].
  apply tier_check_ok in E as (Hok & Hid & Hslot & Hact). cbn [a_tiers] in *.
  intros [H1 H2 H3 H4 H5 H6 H7 H8 H9 H10]. split; simpl in *; try done.
  - apply Forall_app. split; [done|]. by constructor.
  - rewrite fmap_app. by apply NoDup_snoc.
  - rewrite fmap_app. by apply NoDup_snoc.
  - intros c. specialize (H6 c). rewrite active_tiers_counts in *.
    rewrite List.filter_app, length_app, Nat2Z.inj_add. cbn [List.filter].
    destruct (counts c x) eqn:Ec; simpl; [|lia].
    unfold counts in Ec. cbn in Ec. apply andb_true_iff in Ec as [->%String.eqb_eq _].
    change (active_tiers_of (Some creator) (a_tiers (t_api t)) < 5) in Hact.
    rewrite active_tiers_counts in Hact. lia.
  - eapply Forall_impl; [exact H9|]. intros z Hz. rewrite fmap_app. set_solver.
Qed.

Lemma filter_length_mono {A} (p q : A → bool) (f : A → A) (l : list A) :
  (∀ x, q (f x) = true → p x = true) →
  (length (List.filter q (f <$> l)) ≤ length (List.filter p l))%nat.
Proof.
  intros Hf. induction l as [|x l IH]; csimpl; [done|].
  destruct (q (f x)) eqn:E; [rewrite (Hf x E); simpl; lia|]. destruct (p x); simpl; lia.
Qed.

Lemma keeps_ok_update_tier t id f :
  tier_update f → keeps_ok t (set_api (update_tiers id f (t_api t)) t).
Proof.
  intros Hf [H1 H2 H3 H4 H5 H6 H7 H8 H9 H10].
  set (g := λ x, if String.eqb (st_id x) id then f x else x).
  assert (Hg : tier_update g).
  { intros x. unfold g. destruct (String.eqb _ _); [apply Hf|by repeat split]. }
  assert (Hids : st_id <$> (g <$> a_tiers (t_api t)) = st_id <$> a_tiers (t_api t)).
  { rewrite <-list_fmap_compose. apply list_fmap_ext. intros i x _. by destruct (Hg x). }
  split; cbn [t_api set_api update_tiers set_tiers a_donations a_tiers a_subscriptions a_gates];
    fold g; try done.
  - apply Forall_fmap. eapply Forall_impl; [exact H3|]. intros x. unfold tier_ok. simpl.
    destruct (Hg x) as (_ & _ & _ & -> & -> & _). done.
  - by rewrite Hids.
  - rewrite <-list_fmap_compose.
    rewrite (list_fmap_ext (tier_slot ∘ g) tier_slot (a_tiers (t_api t))); [done|].
    intros i x _. unfold tier_slot. simpl. by destruct (Hg x) as (_ & -> & -> & -> & _).
  - intros c. specialize (H6 c). rewrite active_tiers_counts in *.
    pose proof (filter_length_mono (counts c) (counts c) g (a_tiers (t_api t))) as Hm.
    enough (length (List.filter (counts c) (g <$> a_tiers (t_api t))) ≤
            length (List.filter (counts c) (a_tiers (t_api t))))%nat by lia.
    apply Hm. intros x. unfold counts. destruct (Hg x) as (_ & -> & _ & _ & _ & Ha).
    destruct (st_creator_user_id x); [|done]. rewrite !andb_true_iff. naive_solver.
  - by rewrite Hids.
Qed.

(** *** Subscriptions *)
Lemma same_scope_sym x y : same_scope x y = same_scope y x.
Proof.
  unfold same_scope. by rewrite (String.eqb_sym (sb_subscriber_user_id x)),
    (String.eqb_sym (sb_creator_user_id x)), (String.eqb_sym (scope (sb_room_id x))).
Qed.

Lemma scopes_distinct_snoc l x :
  scopes_distinct l = true → existsb (same_scope x) l = false →
  scopes_distinct (l ++ [x]) = true.
Proof.
  induction l as [|y l IH]; [done|]. cbn [scopes_distinct app existsb].
  rewrite !andb_true_iff, !negb_true_iff, orb_false_iff. intros [Hy Hl] [Hxy Hx].
  split; [|by apply IH]. rewrite existsb_app, Hy. cbn [existsb]. by rewrite same_scope_sym, Hxy.
Qed.

Lemma sub_check_ok a x : sub_check a x = Ok () →
  sb_status x ∈ subscription_statuses ∧ existsb (same_scope x) (a_subscriptions a) = false ∧
  sb_tier_id x ∈ st_id <$> a_tiers a.
Proof.
  unfold sub_check. destruct (mem (sb_status x) subscription_statuses) eqn:Es; [|done].
  destruct (existsb (λ y, String.eqb (sb_id y) (sb_id x)) _); [done|].
  destruct (existsb (same_scope x) _) eqn:Ex; [done|].
  destruct (existsb (λ y, String.eqb (st_id y) (sb_tier_id x)) _) eqn:Et; [|done].
  intros _. split; [by apply mem_spec|]. split; [done|].
  apply existsb_exists in Et as (y & Hy & <-%String.eqb_eq).
  apply list_elem_of_fmap. exists y. by rewrite list_elem_of_In.
Qed.

Lemma keeps_ok_subscribe id user creator room tier session period_end :
  stmt_rel keeps_ok (insert_incomplete id user creator room tier session period_end).
Proof.
  intros now t y t'. unfold insert_incomplete, insert_subscription, on_api.
  set (x := new_subscription _ _ _ _ _ _ _ _).
  destruct (sub_check (t_api t) x) as [[]|] eqn:E; [|done]. intros [= _ <-].
  apply sub_check_ok in E as (Hs & Hx & Ht). intros [H1 H2 H3 H4 H5 H6 H7 H8 H9 H10].
  split; simpl; try done.
  - by apply scopes_distinct_snoc.
  - apply Forall_app. split; [done|]. by constructor.
  - apply Forall_app. split; [done|]. by constructor.
Qed.

Lemma keeps_ok_update_subs (p : SubRec → bool) (f : DateTime → SubRec → SubRec) :
  (∀ now x, sb_tier_id (f now x) = sb_tier_id x ∧ sb_status (f now x) ∈ subscription_statuses) →
  stmt_rel keeps_ok (on_api (λ now a, update_subscriptions p (f now) a)).
Proof.
  intros Hf. apply stmt_rel_on_api. intros now t y a'. unfold update_subscriptions.
  destruct (scopes_distinct _) eqn:E; [|done]. intros [= _ <-].
  intros [H1 H2 H3 H4 H5 H6 H7 H8 H9 H10]. split; simpl; try done; apply Forall_fmap.
  - eapply Forall_impl; [exact H8|]. intros x Hx. simpl. destruct (p x); [apply Hf|done].
  - eapply Forall_impl; [exact H9|]. intros x Hx. simpl. destruct (p x); [|done].
    by rewrite (proj1 (Hf now x)).
Qed.

(** *** Gates *)
Lemma keeps_ok_gate ct cid creator level preview :
  0 ≤ preview ≤ 3600 → stmt_rel keeps_ok (upsert_gate ct cid creator level preview).
Proof.
  intros Hp. apply stmt_rel_on_api. intros now t g a'.
  unfold gate_check. destruct (mem ct ["stream"; "recording"]) eqn:Em; [|done]. cbn [negb].
  destruct (Z.leb_spec 1 level), (Z.leb_spec level 5); try done. cbn [negb andb take_uuid].
  intros [= _ <-] [H1 H2 H3 H4 H5 H6 H7 H8 H9 H10]. split; try done.
  apply map_Forall_insert_2; [|done].
  assert (Hct : ct = "stream" ∨ ct = "recording") by (apply mem_spec in Em; set_solver).
  simpl. destruct (a_gates (t_api t) !! (ct, cid)); unfold gate_ok; simpl; auto with lia.
Qed.

Lemma keeps_ok_frame t a :
  a_donations a = a_donations (t_api t) → a_tiers a = a_tiers (t_api t) →
  a_subscriptions a = a_subscriptions (t_api t) → a_gates a = a_gates (t_api t) →
  keeps_ok t (set_api a t).
Proof.
  intros E1 E2 E3 E4 [H1 H2 H3 H4 H5 H6 H7 H8 H9 H10].
  split; simpl; rewrite ?E1, ?E2, ?E3, ?E4; done.
Qed.

#[export] Instance keeps_ok_allowed : Allowed keeps_ok True (λ _ _, True) (λ _, True).
Proof.
  split; try apply _; intros.
  - by apply keeps_ok_frame.
  - apply stmt_rel_on_api. intros now t x a'.
    destruct (donation_check _ d) as [[]|] eqn:E; [|done]. intros [= _ <-].
    apply donation_check_ok in E as (Ha & Hm & Hid). apply keeps_ok_donations. intros Hd Hi.
    split; [apply Forall_app; split; [done|]|rewrite fmap_app; by apply NoDup_snoc].
    constructor; [|done]. split; [by destruct H0|done|done|by left].
  - apply stmt_rel_on_api. intros now t x a' [= _ <-]. apply keeps_ok_update_donations.
    intros d. destruct (of_session session d); simpl; auto 10.
  - apply stmt_rel_on_api. intros now t x a' [= _ <-]. apply keeps_ok_update_donations.
    intros d. destruct (String.eqb (dn_id d) id); simpl; auto 10.
  - apply stmt_rel_on_api. intros now t x a'. unfold log_event.
    destruct (_ !! id); intros [= _ <-]; by apply keeps_ok_frame.
  - apply keeps_ok_insert_tier.
  - by apply keeps_ok_update_tier.
  - apply keeps_ok_subscribe.
  - apply keeps_ok_update_subs. intros now x. split; [done|]. set_solver.
  - apply keeps_ok_update_subs. intros now x. split; [done|]. set_solver.
  - apply keeps_ok_update_subs. intros now x. split; [done|]. set_solver.
  - by apply keeps_ok_gate.
  - intros Hok. destruct Hok. split; try done.
    intros k g Hk. by eapply mo_gates0, lookup_weaken.
Qed.
