(* ===== verification/MoneyHistory.v ===== *)
(** * MoneyHistory: histories of the monetization endpoints

    What every sequence of requests does to the money tables: they stay well typed, rows
    only move when a payment was reported, and a Stripe event takes effect at most once.
    An example deployment shows the hypotheses can hold. *)
From Stdlib Require Import Ascii.
From S2P Require Import Prelude F64 ApiSchema Json Schema Errors Text MatrixClient MatrixEvents.
From S2P Require Import Payments Guards MoneyDb Donations Entitlement TierGate Subscriptions.
From S2P Require Import Webhooks MoneyApi MoneyTables.
Local Open Scope Z_scope.
Local Open Scope mm_scope.

(** ** Histories of rows *)

(** Rows keep their place: the old ones have moved along [step], new ones follow. *)
Definition rows_evolve {A} (step : A → A → Prop) (fresh : A → Prop) (l l' : list A) : Prop :=
  ∃ l0 k, l' = l0 ++ k ∧ Forall2 step l l0 ∧ Forall fresh k.

Lemma rows_evolve_refl {A} (step : A → A → Prop) `{!Reflexive step} fresh l :
  rows_evolve step fresh l l.
Proof. exists l, []. rewrite app_nil_r. by split. Qed.

Lemma rows_evolve_trans {A} (step : A → A → Prop) `{!Transitive step} (fresh : A → Prop) l1 l2 l3 :
  (∀ x y, fresh x → step x y → fresh y) →
  rows_evolve step fresh l1 l2 → rows_evolve step fresh l2 l3 → rows_evolve step fresh l1 l3.
Proof.
  intros Hf (a & k & -> & Ha & Hk) (b & k' & -> & Hb & Hk').
  apply Forall2_app_inv_l in Hb as (b1 & b2 & Hb1 & Hb2 & ->).
  exists b1, (b2 ++ k'). split; [by rewrite app_assoc|]. split.
  - by transitivity a.
  - apply Forall_app. split; [|done]. clear -Hb2 Hk Hf.
    revert Hk. induction Hb2; intros Hk; [done|]. inversion Hk; subst. constructor; eauto.
Qed.

Lemma rows_evolve_snoc {A} (step : A → A → Prop) `{!Reflexive step} (fresh : A → Prop) l x :
  fresh x → rows_evolve step fresh l (l ++ [x]).
Proof.
  intros Hx. exists l, [x]. split; [done|]. split; [done|by constructor].
Qed.

Lemma rows_evolve_map {A} (step : A → A → Prop) (fresh : A → Prop) (f : A → A) l :
  (∀ x, x ∈ l → step x (f x)) → rows_evolve step fresh l (f <$> l).
Proof.
  intros Hf. exists (f <$> l), []. rewrite app_nil_r. split; [done|]. split; [|done].
  apply Forall2_fmap_r, Forall2_same_length_lookup. split; [done|].
  intros i x y Hx Hy. simplify_eq. by eapply Hf, list_elem_of_lookup_2.
Qed.

(** A row that was there is still there, at the same place, moved along [step]. *)
Lemma rows_evolve_lookup {A} (step : A → A → Prop) fresh (l l' : list A) i x :
  rows_evolve step fresh l l' → l !! i = Some x → ∃ y, l' !! i = Some y ∧ step x y.
Proof.
  intros (l0 & k & -> & Hs & _) Hi. destruct (Forall2_lookup_l _ _ _ _ _ Hs Hi) as (y & Hy & ?).
  exists y. split; [|done]. by apply lookup_app_l_Some.
Qed.

(** What a donation or a subscription is, apart from how far its payment got. *)
Definition same_donation (d d' : DonationRec) : Prop :=
  (dn_id d', dn_stream_id d', dn_donor_user_id d', dn_recipient_user_id d',
   dn_amount_cents d', dn_stripe_session_id d', dn_idempotency_key d',
   dn_created_at d', dn_payment_hash d') =
  (dn_id d, dn_stream_id d, dn_donor_user_id d, dn_recipient_user_id d,
   dn_amount_cents d, dn_stripe_session_id d, dn_idempotency_key d,
   dn_created_at d, dn_payment_hash d).

Definition same_sub (x x' : SubRec) : Prop :=
  (sb_id x', sb_subscriber_user_id x', sb_creator_user_id x', sb_tier_id x',
   sb_created_at x') =
  (sb_id x, sb_subscriber_user_id x, sb_creator_user_id x, sb_tier_id x,
   sb_created_at x).

#[export] Instance same_donation_equiv : Equivalence same_donation.
Proof. split; unfold same_donation; [by intros ?|congruence..]. Qed.

#[export] Instance same_sub_equiv : Equivalence same_sub.
Proof. split; unfold same_sub; [by intros ?|congruence..]. Qed.

(** *** The tables during one request

    A request either opens payments or reports them, never both. *)
Section evolution.
Context (opens : Prop) (paid : bool → string → Prop) (settled : Uuid → Prop).
Context (opens_reports_nothing : opens → (∀ b s, ¬ paid b s) ∧ ∀ id, ¬ settled id).

Definition donation_paid (d : DonationRec) : Prop :=
  (∃ s, dn_stripe_session_id d = Some s ∧ paid false s) ∨ settled (dn_id d).

(** What a donation is never changes; its status becomes succeeded when it is paid. *)
Record donation_step (d d' : DonationRec) : Prop := {
  dst_same : same_donation d d';
  dst_status : dn_status d' = dn_status d ∨ (dn_status d' = "succeeded" ∧ donation_paid d)
}.

Definition donation_fresh (d : DonationRec) : Prop := opens ∧ dn_status d = "pending".

(** A subscription is activated when its checkout is paid, and cancelled for good. *)
Record sub_step (x x' : SubRec) : Prop := {
  sst_same : same_sub x x';
  sst_status : sb_status x' = sb_status x ∨ sb_status x' = "active" ∨
               sb_status x' = "cancelled";
  sst_active : sb_status x' = "active" → sb_status x = "active" ∨
    (sb_status x = "incomplete" ∧ ∃ s, sb_stripe_subscription_id x = Some s ∧ paid true s);
  sst_incomplete : sb_status x' = "incomplete" →
    sb_status x = "incomplete" ∧ sb_stripe_subscription_id x' = sb_stripe_subscription_id x;
  sst_cancelled : sb_status x = "cancelled" → sb_status x' = "cancelled"
}.

Definition sub_fresh (x : SubRec) : Prop :=
  opens ∧ (sb_status x = "incomplete" ∨ sb_status x = "cancelled").

Record evolves (t t' : Tables) : Prop := {
  ev_donations : rows_evolve donation_step donation_fresh
                   (a_donations (t_api t)) (a_donations (t_api t'));
  ev_subscriptions : rows_evolve sub_step sub_fresh
                       (a_subscriptions (t_api t)) (a_subscriptions (t_api t'))
}.

Lemma donation_paid_same d d' : same_donation d d' → donation_paid d' ↔ donation_paid d.
Proof. intros E. unfold donation_paid. by injection E as -> _ _ _ _ -> _ _ _. Qed.

#[export] Instance donation_step_preorder : PreOrder donation_step.
Proof.
  split.
  - intros d. split; [reflexivity|auto].
  - intros d1 d2 d3 [E1 S1] [E2 S2]. split; [by etrans|].
    rewrite (donation_paid_same d1 d2 E1) in S2.
    destruct S2 as [->|[-> ?]]; [|right; auto]. destruct S1 as [->|[-> ?]]; auto.
Qed.

#[export] Instance sub_step_preorder : PreOrder sub_step.
Proof.
  split.
  - intros x. split; auto; reflexivity.
  - intros x y z [E1 S1 A1 I1 C1] [E2 S2 A2 I2 C2]. split; [by etrans|..].
    + destruct S2 as [->|[|]]; auto.
    + intros Ha. destruct (A2 Ha) as [Hy|[Hy (s & Hs & Hp)]]; [auto|].
      destruct (I1 Hy) as [Hx Hsame]. right. split; [done|]. exists s. by rewrite <-Hsame.
    + intros Hi. destruct (I2 Hi) as [Hy ->]. auto.
    + auto.
Qed.

Lemma donation_fresh_step x y : donation_fresh x → donation_step x y → donation_fresh y.
Proof.
  intros [Ho Hx] [_ S]. split; [done|]. destruct (opens_reports_nothing Ho) as [Hp Hs].
  destruct S as [->|[_ [(s & _ & ?)|?]]]; [done|by destruct (Hp false s)|by destruct (Hs (dn_id x))].
Qed.

Lemma sub_fresh_step x y : sub_fresh x → sub_step x y → sub_fresh y.
Proof.
  intros [Ho Hx] [_ S A I C]. split; [done|]. destruct (opens_reports_nothing Ho) as [Hp _].
  destruct S as [E|[E|E]]; [by rewrite E| |by auto].
  destruct (A E) as [Hs|[_ (s & _ & ?)]]; [|by destruct (Hp true s)].
  rewrite Hs in Hx. by destruct Hx.
Qed.

#[export] Instance evolves_preorder : PreOrder evolves.
Proof.
  split.
  - intros t. split; by apply rows_evolve_refl; apply _.
  - intros t1 t2 t3 [D1 S1] [D2 S2]. split.
    + eapply rows_evolve_trans; [apply _|apply donation_fresh_step|exact D1|exact D2].
    + eapply rows_evolve_trans; [apply _|apply sub_fresh_step|exact S1|exact S2].
Qed.

Lemma evolves_frame t a :
  a_donations a = a_donations (t_api t) → a_subscriptions a = a_subscriptions (t_api t) →
  evolves t (set_api a t).
Proof.
  intros E1 E2. split; simpl; [rewrite E1|rewrite E2]; by apply rows_evolve_refl; apply _.
Qed.

Lemma evolves_donations t l :
  rows_evolve donation_step donation_fresh (a_donations (t_api t)) l →
  evolves t (set_api (set_donations l (t_api t)) t).
Proof. intros Hl. split; simpl; [done|by apply rows_evolve_refl; apply _]. Qed.

Lemma evolves_subs t l :
  rows_evolve sub_step sub_fresh (a_subscriptions (t_api t)) l →
  evolves t (set_api (set_subscriptions l (t_api t)) t).
Proof. intros Hl. split; simpl; [by apply rows_evolve_refl; apply _|done]. Qed.

Lemma evolves_update_subs (p : SubRec → bool) (f : DateTime → SubRec → SubRec) :
  (∀ now x, p x = true → sub_step x (f now x)) →
  stmt_rel evolves (on_api (λ now a, update_subscriptions p (f now) a)).
Proof.
  intros Hf. apply stmt_rel_on_api. intros now t y a'. unfold update_subscriptions.
  destruct (scopes_distinct _); [|done]. intros [= _ <-]. apply evolves_subs, rows_evolve_map.
  intros x _. destruct (p x) eqn:E; [by apply Hf|reflexivity].
Qed.

Lemma cancelled_step now x : sub_step x (cancelled now x).
Proof. split; simpl; auto; try discriminate. reflexivity. Qed.

#[export] Instance evolves_allowed : Allowed evolves opens paid settled.
Proof.
  split; try apply _; intros.
  - by apply evolves_frame.
  - apply stmt_rel_on_api. intros now t x a'. destruct (donation_check _ d); [|done].
    intros [= _ <-]. apply evolves_donations, rows_evolve_snoc; [apply _|by split].
  - apply stmt_rel_on_api. intros now t x a' [= _ <-].
    apply evolves_donations, rows_evolve_map. intros d _.
    destruct (of_session session d) eqn:E; [|reflexivity]. apply bool_decide_eq_true in E.
    split; [done|]. right. split; [done|]. left. eauto.
  - apply stmt_rel_on_api. intros now t x a' [= _ <-].
    apply evolves_donations, rows_evolve_map. intros d _.
    destruct (String.eqb (dn_id d) id) eqn:E; [|reflexivity]. apply String.eqb_eq in E.
    split; [done|]. right. split; [done|]. right. by rewrite E.
  - apply stmt_rel_on_api. intros now t x a'.
    destruct (_ !! id) eqn:E; intros [= _ <-]; by apply evolves_frame.
  - apply stmt_rel_on_api. intros now t x a'. cbn [take_uuid].
    destruct (tier_check _ _); [|done]. intros [= _ <-]. by apply evolves_frame.
  - by apply evolves_frame.
  - intros now t x t'. unfold insert_incomplete, insert_subscription, on_api.
    destruct (sub_check _ _); [|done]. intros [= _ <-].
    apply evolves_subs, rows_evolve_snoc; [apply _|]. split; [done|by left].
  - apply evolves_update_subs. intros now x [E1%bool_decide_eq_true E2%String.eqb_eq]%andb_true_iff.
    split; simpl; auto; try discriminate; [reflexivity|right; split; [done|by exists session]|].
    rewrite E2. discriminate.
  - apply evolves_update_subs. intros. apply cancelled_step.
  - apply evolves_update_subs. intros. apply cancelled_step.
  - apply stmt_rel_on_api. intros now t x a'. destruct (gate_check _ _); [|done].
    cbn [take_uuid]. intros [= _ <-]. by apply evolves_frame.
  - by apply evolves_frame.
Qed.
End evolution.

(** *** The log of processed events *)
Definition log_grows (t t' : Tables) : Prop :=
  a_webhook_log (t_api t) ⊆ a_webhook_log (t_api t').

#[export] Instance log_grows_preorder : PreOrder log_grows.
Proof. split; unfold log_grows; [intros t|intros t1 t2 t3]; [reflexivity|apply transitivity]. Qed.

#[export] Instance log_grows_allowed : Allowed log_grows True (λ _ _, True) (λ _, True).
Proof.
  assert (Hsame : ∀ (a : ApiTables) t, a_webhook_log a = a_webhook_log (t_api t) →
    log_grows t (set_api a t)) by (intros a t E; unfold log_grows; simpl; by rewrite E).
  assert (Hu : ∀ p f, stmt_rel log_grows (on_api (λ now a, update_subscriptions p (f now) a))).
  { intros p f. apply stmt_rel_on_api. intros now t y a'. unfold update_subscriptions.
    destruct (scopes_distinct _); [|done]. intros [= _ <-]. by apply Hsame. }
  split; try apply _; intros; try apply Hu; try (by apply Hsame).
  4: { apply stmt_rel_on_api. intros now t x a'.
       destruct (_ !! id) eqn:E; intros [= _ <-]; [by apply Hsame|]. by apply insert_subseteq. }
  5: { intros now t x t'. unfold insert_incomplete, insert_subscription, on_api.
       destruct (sub_check _ _); [|done]. intros [= _ <-]. by apply Hsame. }
  all: apply stmt_rel_on_api; intros now t' x a'; cbn [take_uuid];
    repeat case_match; try done; intros [= _ <-]; by apply Hsame.
Qed.

Section histories.
Context {N C R : Type} `{Http N, LnurlNet N, StripeNet N}.
Context `{TtlCache C (string * string) (option Entitlement), Redis R}.
Variable registry : @Registry.t N.
Variable ops : Bolt11Ops.
Variable txt : TextOps.
Variable to_numeric : f64 → result Z db_error.
Variable uuid_simple : Uuid → string.
Variable ent_json : option Entitlement → string.
Variable ent_parse : string → option (option Entitlement).
Variable has_redis has_stripe_client : bool.
Variable hs_client : HomeserverClient.
Variable construct_event : string → string → string → result StripeEvent string.
Variable state : ApiState.

Abbreviation World := ((Db * (R * C)) * N)%type.
Abbreviation serve := (serve registry ops txt to_numeric uuid_simple ent_json ent_parse
  has_redis has_stripe_client hs_client construct_event state).
Abbreviation serve_all := (serve_all registry ops txt to_numeric uuid_simple ent_json ent_parse
  has_redis has_stripe_client hs_client construct_event state).

Section moving.
Context (P : Tables → Tables → Prop) (opens : Prop).
Context (paid : bool → string → Prop) (settled : Uuid → Prop).
Context `{!Allowed P opens paid settled}.

Lemma ignore_moves {A} (m : st World A) w :
  on_fst (on_fst (on_tables P)) w (m w).2 → P (tables_of w) (tables_of (ignore m w).2).
Proof. unfold ignore, st_bind. by destruct (m w). Qed.

(** Serving a request moves the tables along every relation that allows what it reports. *)
Lemma serve_moves r (w : World) :
  (opens_payment r → opens) →
  (∀ b s, stripe_reports construct_event state r b s → paid b s) →
  (∀ id, wallet_reports registry txt r w.2 id → settled id) →
  P (tables_of w) (tables_of (serve r w).2).
Proof.
  intros Hopens Hpaid Hsettled. destruct r; apply ignore_moves.
  - eapply (db_net_moves P), (onboard_moves P opens paid settled).
  - eapply (db_net_moves P), (profile_moves P opens paid settled).
  - eapply (db_net_moves P), (public_profile_moves P opens paid settled).
  - eapply (db_net_moves P), (update_profile_moves P opens paid settled).
  - eapply (db_net_moves P), (create_donation_moves P opens paid settled), Hopens, I.
  - eapply (db_net_moves P), (proof_moves P opens paid settled).
  - eapply (db_net_moves P), (feed_moves P opens paid settled).
  - eapply (db_net_moves P), (payment_check_moves P opens paid settled).
  - destruct w as [[db rc] n]. pose proof (lnbits_moves P opens paid settled registry txt hs_client
      state body (db, n)) as Hl.
    unfold db_net. cbn [fst snd] in *. destruct (lnbits_webhook _ _ _ _ _ (db, n)) as [a [db' n']].
    apply Hl. intros session mode md id Hv Hu. apply Hsettled. by exists body, session, mode, md.
  - eapply (create_tier_moves P opens paid settled).
  - eapply (update_tier_moves P opens paid settled).
  - eapply (delete_tier_moves P opens paid settled).
  - eapply (list_tiers_moves P opens paid settled).
  - eapply (subscribe_moves P opens paid settled), Hopens, I.
  - eapply (cancel_moves P opens paid settled).
  - eapply (list_subscriptions_moves P opens paid settled).
  - eapply (check_entitlement_moves P opens paid settled).
  - eapply (create_gate_moves P opens paid settled).
  - eapply (get_gate_moves P opens paid settled).
  - eapply (delete_gate_moves P opens paid settled).
  - eapply (webhook_moves P opens paid settled).
    intros s payload e b session -> -> Hc (Ht & x & Ho & Hb & Hs). apply Hpaid.
    by exists s, payload, now, e, x.
Qed.

End moving.

(** A relation that allows everything holds along every history. *)
Lemma serve_all_moves P `{!Allowed P True (λ _ _, True) (λ _, True)} l (w : World) :
  P (tables_of w) (tables_of (serve_all l w)).
Proof.
  revert w. induction l as [|r l IH]; intros w; [reflexivity|]. cbn [MoneyApi.serve_all fold_left].
  etrans; [|apply IH]. by eapply (serve_moves P True (λ _ _, True) (λ _, True)).
Qed.


(** C7. Whatever is asked of the endpoints, in any order and under any faults of the database,
    the money tables stay well typed: every donation has a valid amount, the tier, pin and
    currency that go with it and a clean message, ids and scopes stay unique, no creator
    has more than five active tiers, levels and prices stay in range, every subscription
    has a valid status and an existing tier, and every gate a valid level. *)
Theorem requests_keep_tables_well_typed (l : list request) (w : World) :
  money_ok (t_api (tables_of w)) → money_ok (t_api (tables_of (serve_all l w))).
Proof. apply (serve_all_moves keeps_ok). Qed.

(** ** Where a payment comes from

    [served_at l w r w1]: the history [l], started in [w], serves the request [r] in the
    world [w1]. *)
Definition served_at (l : list request) (w : World) (r : request) (w1 : World) : Prop :=
  ∃ before after, l = before ++ r :: after ∧ w1 = serve_all before w.

Abbreviation donations_of w := (a_donations (t_api (tables_of w))).
Abbreviation subscriptions_of w := (a_subscriptions (t_api (tables_of w))).

(** A donation that counts as succeeded was reported by a request served while the row
    was at its place. *)
Definition donation_confirmed (l : list request) (w : World) (i : nat) (d : DonationRec) : Prop :=
  ∃ r w1 d1, served_at l w r w1 ∧ donations_of w1 !! i = Some d1 ∧ same_donation d1 d ∧
    donation_reported registry ops txt construct_event state r w1 d1.

(** A subscription that is active was incomplete when a verified event completed the very
    checkout the row was waiting for. *)
Definition sub_confirmed (l : list request) (w : World) (i : nat) (x : SubRec) : Prop :=
  ∃ r w1 x1 session, served_at l w r w1 ∧ subscriptions_of w1 !! i = Some x1 ∧
    same_sub x1 x ∧ sb_status x1 = "incomplete" ∧
    sb_stripe_subscription_id x1 = Some session ∧
    stripe_reports construct_event state r true session.

Lemma served_at_snoc l w r r' w1 : served_at l w r w1 → served_at (l ++ [r']) w r w1.
Proof.
  intros (b & a & -> & ->). exists b, (a ++ [r']). split; [|done].
  by rewrite <-app_assoc.
Qed.

Lemma served_at_last l w r : served_at (l ++ [r]) w r (serve_all l w).
Proof. by exists l, []. Qed.

Lemma donation_confirmed_snoc l w r i d d' :
  donation_confirmed l w i d → same_donation d d' → donation_confirmed (l ++ [r]) w i d'.
Proof.
  intros (q & w1 & d1 & Hs & Hd & E & Hr) E'. exists q, w1, d1.
  split; [by apply served_at_snoc|]. split; [done|]. split; [by etrans|done].
Qed.

Lemma sub_confirmed_snoc l w r i x x' :
  sub_confirmed l w i x → same_sub x x' → sub_confirmed (l ++ [r]) w i x'.
Proof.
  intros (q & w1 & x1 & s & Hs & Hx & E & Hr) E'. exists q, w1, x1, s.
  split; [by apply served_at_snoc|]. split; [done|]. split; [by etrans|done].
Qed.

(** One request moves the rows that are there as its own report allows, and opens rows
    only when it is a request that opens payments. *)
Lemma serve_evolves r (w : World) :
  evolves (opens_payment r) (stripe_reports construct_event state r)
    (wallet_reports registry txt r w.2) (tables_of w) (tables_of (serve r w).2).
Proof.
  assert (Hx : opens_payment r → (∀ b s, ¬ stripe_reports construct_event state r b s) ∧
    ∀ id, ¬ wallet_reports registry txt r w.2 id).
  { intros Ho. split.
    - intros b s (? & ? & ? & ? & ? & -> & _). done.
    - intros id (? & ? & ? & ? & -> & _). done. }
  pose proof (evolves_allowed _ _ _ Hx). by eapply serve_moves.
Qed.

Lemma serve_all_snoc l r (w : World) : serve_all (l ++ [r]) w = (serve r (serve_all l w)).2.
Proof. unfold MoneyApi.serve_all. by rewrite fold_left_app. Qed.

(** A row of the new table is an old one that moved, or a fresh one past the old rows. *)
Lemma rows_evolve_origin {A} (step : A → A → Prop) fresh (l l' : list A) i y :
  rows_evolve step fresh l l' → l' !! i = Some y →
  (∃ x, l !! i = Some x ∧ step x y) ∨ (l !! i = None ∧ fresh y).
Proof.
  intros (l0 & k & -> & Hs & Hk) Hi. apply lookup_app_Some in Hi as [Hi|[Hlen Hi]].
  - left. by eapply Forall2_lookup_r.
  - right. split; [|by eapply Forall_lookup_1].
    apply lookup_ge_None. by rewrite (Forall2_length _ _ _ Hs).
Qed.

Lemma donations_evolve l (w : World) :
  let w' := serve_all l w in
  (∀ i d, donations_of w !! i = Some d →
     ∃ d', donations_of w' !! i = Some d' ∧ same_donation d d') ∧
  (∀ i d', donations_of w' !! i = Some d' →
     (∃ d, donations_of w !! i = Some d ∧ dn_status d' = dn_status d) ∨
     (donations_of w !! i = None ∧ dn_status d' = "pending") ∨
     (dn_status d' = "succeeded" ∧ donation_confirmed l w i d')).
Proof.
  induction l as [|r l IH] using rev_ind; simpl.
  - split; [intros i d Hd; exists d; by split|intros i d' Hd; left; eauto].
  - rewrite serve_all_snoc. destruct IH as [IH1 IH2].
    destruct (serve_evolves r (serve_all l w)) as [Hd _]. split.
    + intros i d Hi. destruct (IH1 i d Hi) as (d1 & K1 & E1).
      destruct (rows_evolve_lookup _ _ _ _ _ _ Hd K1) as (d2 & K2 & [E2 _]).
      exists d2. split; [done|by etrans].
    + intros i d2 K2. destruct (rows_evolve_origin _ _ _ _ _ _ Hd K2)
        as [(d1 & K1 & [E S])|[Hn [_ Hp]]].
      * destruct S as [->|[-> Hp]].
        -- destruct (IH2 i d1 K1) as [?|[?|[? ?]]]; [by left|by right; left|].
           right; right. split; [done|]. by eapply donation_confirmed_snoc.
        -- right; right. split; [done|]. exists r, (serve_all l w), d1.
           split; [apply served_at_last|]. split; [done|]. split; [done|].
           destruct Hp as [?|?]; [by left|by right; left].
      * right; left. split; [|done]. destruct (donations_of w !! i) as [d|] eqn:Ed; [|done].
        destruct (IH1 i d Ed) as (d1 & K1 & _). congruence.
Qed.

Lemma subscriptions_evolve l (w : World) :
  let w' := serve_all l w in
  (∀ i x, subscriptions_of w !! i = Some x →
     ∃ x', subscriptions_of w' !! i = Some x' ∧ same_sub x x' ∧
       (sb_status x = "cancelled" → sb_status x' = "cancelled")) ∧
  (∀ i x', subscriptions_of w' !! i = Some x' → sb_status x' = "active" →
     (∃ x, subscriptions_of w !! i = Some x ∧ sb_status x = "active") ∨
     sub_confirmed l w i x').
Proof.
  induction l as [|r l IH] using rev_ind; simpl.
  - split; [intros i x Hx; exists x; by split|intros i x' Hx; left; eauto].
  - rewrite serve_all_snoc. destruct IH as [IH1 IH2].
    destruct (serve_evolves r (serve_all l w)) as [_ Hs]. split.
    + intros i x Hi. destruct (IH1 i x Hi) as (x1 & K1 & E1 & C1).
      destruct (rows_evolve_lookup _ _ _ _ _ _ Hs K1) as (x2 & K2 & [E2 _ _ _ C2]).
      exists x2. split; [done|]. split; [by etrans|auto].
    + intros i x2 K2 Ha. destruct (rows_evolve_origin _ _ _ _ _ _ Hs K2)
        as [(x1 & K1 & [E _ A _ _])|[Hn [_ [Hp|Hp]]]]; [|congruence..].
      destruct (A Ha) as [Hx|(Hx & s & Hs1 & Hr)].
      * destruct (IH2 i x1 K1 Hx) as [?|?]; [by left|]. right. by eapply sub_confirmed_snoc.
      * right. exists r, (serve_all l w), x1, s. repeat (split; [done || apply served_at_last|]). done.
Qed.

(** C5. In every history of requests, under any faults of the database, money only moves
    when a payment was reported. No donation and no subscription disappears or becomes
    another. A donation of the final table has the status it started with; or it was
    opened during the history and is pending; or it is succeeded, and then a request of
    the history, served while the row was at its place, reported it: a verified Stripe
    event that completed its checkout, a callback for which the Lightning wallet, asked in
    the network state of that moment, reported this donation, or a preimage of its invoice
    shown by its donor or recipient (the code means to accept that proof; since reading a
    donation back always fails, [get_donation_none], it marks nothing today). An active
    subscription was active at the start, or was incomplete when a verified event of the
    history completed the checkout it was waiting for; a cancelled one stays cancelled. *)
Theorem money_moves_only_when_reported (l : list request) (w : World) :
  let w' := serve_all l w in
  ((∀ i d, donations_of w !! i = Some d →
      ∃ d', donations_of w' !! i = Some d' ∧ same_donation d d') ∧
   (∀ i d', donations_of w' !! i = Some d' →
      (∃ d, donations_of w !! i = Some d ∧ dn_status d' = dn_status d) ∨
      (donations_of w !! i = None ∧ dn_status d' = "pending") ∨
      (dn_status d' = "succeeded" ∧ donation_confirmed l w i d'))) ∧
  ((∀ i x, subscriptions_of w !! i = Some x →
      ∃ x', subscriptions_of w' !! i = Some x' ∧ same_sub x x' ∧
        (sb_status x = "cancelled" → sb_status x' = "cancelled")) ∧
   (∀ i x', subscriptions_of w' !! i = Some x' → sb_status x' = "active" →
      (∃ x, subscriptions_of w !! i = Some x ∧ sb_status x = "active") ∨
      sub_confirmed l w i x')).
Proof. intros w'. split; [apply donations_evolve|apply subscriptions_evolve]. Qed.

(** ** Deliveries of an event *)
Definition unchanged (w w' : World) : Prop :=
  tables_of w' = tables_of w ∧ w'.1.2 = w.1.2 ∧ w'.2 = w.2.

Abbreviation log_of w := (a_webhook_log (t_api (tables_of w))).

Lemma record_event_body id ty db1 a db2 :
  (let? _ := asking_tx nothing in
   let? inserted := asking_tx (log_event id ty) in st_ret (Ok inserted)) db1 = (Ok a, db2) →
  (a = false ∧ db_tables db2 = db_tables db1) ∨
  (a = true ∧ a_webhook_log (t_api (db_tables db1)) !! id = None ∧
   a_webhook_log (t_api (db_tables db2)) !! id = Some ty).
Proof.
  unfold st_try, asking_tx, st_bind.
  pose proof (exec_tx_ok nothing db1) as K0. pose proof (exec_tx_now nothing db1) as Hn.
  destruct (exec_tx nothing db1) as [[[]|e] db]; cbn [fst snd st_ret map_err] in *; [|done].
  specialize (K0 () eq_refl). unfold nothing in K0. injection K0 as K0.
  pose proof (exec_tx_ok (log_event id ty) db) as K1.
  destruct (exec_tx (log_event id ty) db) as [[b|e] db']; cbn [fst snd st_ret map_err] in *; [|done].
  intros [= <- <-]. specialize (K1 b eq_refl). unfold log_event, on_api in K1. rewrite <-K0 in K1.
  destruct (a_webhook_log (t_api (db_tables db1)) !! id) eqn:E; injection K1 as <- <-.
  - left. split; [done|]. by destruct (db_tables db1) as [].
  - right. split; [done|]. split; [done|]. simpl. by rewrite lookup_insert_eq.
Qed.

(** Recording an event changes nothing, or records one that was not there. *)
Lemma record_event_spec id ty db :
  let '(r, db') := record_webhook_event id ty db in
  (db_tables db' = db_tables db ∧ r ≠ Ok true) ∨
  (a_webhook_log (t_api (db_tables db)) !! id = None ∧
   a_webhook_log (t_api (db_tables db')) !! id = Some ty ∧ r ≠ Ok false).
Proof.
  unfold record_webhook_event.
  match goal with |- context [in_tx db_err ?b db] =>
    pose proof (in_tx_atomic db_err b db) as Ha; pose proof (in_tx_ok db_err b db) as Ho;
    destruct (in_tx db_err b db) as [[x|e] db'] end; cbn [fst snd] in *.
  - destruct (Ho x eq_refl) as (db1 & db2 & E1 & Eb & E2). apply record_event_body in Eb.
    rewrite E1, <-E2 in Eb. destruct Eb as [[-> ?]|(-> & ? & ?)]; [left|right]; auto.
  - destruct Ha as [Ha|(db1 & db2 & x & E1 & Eb & E2)]; [by left|].
    apply record_event_body in Eb. rewrite E1, <-E2 in Eb.
    destruct Eb as [[-> ?]|(-> & ? & ?)]; [by left|by right].
Qed.

Abbreviation deliver sig payload now :=
  (serve (StripeWebhook (Some sig) (Ok payload) now)).

(** A delivery leaves everything as it is, or records an event that was not recorded. *)
Lemma delivery_records sig payload now e (w : World) :
  construct_event payload sig (mc_webhook_signing_secret (as_config state)) = Ok e →
  let w' := (deliver sig payload now w).2 in
  unchanged w w' ∨ (log_of w !! ev_id e = None ∧ is_Some (log_of w' !! ev_id e)).
Proof.
  intros Hc. cbn [MoneyApi.serve]. unfold ignore, st_bind at 1, stripe_webhook.
  destruct (require_monetization state); [|by left].
  destruct (_ <? _)%nat; [by left|]. rewrite Hc.
  unfold st_try, st_bind, Webhooks.in_db, st_fst.
  pose proof (record_event_spec (ev_id e) (event_type_text (ev_type e)) w.1.1) as Hr.
  destruct (record_webhook_event _ _ w.1.1) as [[[]|er] db'] eqn:Er; cbn [fst snd st_ret negb] in *.
  - destruct Hr as [[_ ?]|(Hn & Hs & _)]; [done|]. right. split; [done|].
    pose proof (process_moves log_grows True (λ _ _, True) (λ _, True)
      has_redis hs_client state e now) as Hm.
    specialize (Hm ltac:(done) (db', w.1.2, w.2)).
    destruct (process _ _ _ _ _ _) as [x w2]. unfold on_fst, on_tables, log_grows in Hm.
    cbn [fst snd st_ret] in *. exists (event_type_text (ev_type e)).
    by eapply lookup_weaken.
  - destruct Hr as [[? _]|(_ & _ & ?)]; [by left|done].
  - destruct Hr as [[? _]|(Hn & Hs & _)]; [by left|right]. split; [done|]. by eexists.
Qed.

(** C6. An event takes effect at most once: of any two deliveries of the same event, however
    many requests are served in between and whatever the database loses or fails to
    acknowledge, at least one leaves the tables, the caches and the services as they were. *)
Theorem stripe_event_effective_once (sig1 payload1 sig2 payload2 : string)
    (now1 now2 : DateTime) (e1 e2 : StripeEvent) (between : list request) (w : World) :
  let secret := mc_webhook_signing_secret (as_config state) in
  construct_event payload1 sig1 secret = Ok e1 →
  construct_event payload2 sig2 secret = Ok e2 → ev_id e1 = ev_id e2 →
  let w1 := (deliver sig1 payload1 now1 w).2 in
  let w2 := serve_all between w1 in
  let w3 := (deliver sig2 payload2 now2 w2).2 in
  unchanged w w1 ∨ unchanged w2 w3.
Proof.
  intros secret Hc1 Hc2 Hid w1 w2 w3.
  destruct (delivery_records _ _ now1 _ w Hc1) as [|[_ [ty Hs]]]; [by left|].
  destruct (delivery_records _ _ now2 _ w2 Hc2) as [|[Hn _]]; [by right|].
  pose proof (serve_all_moves log_grows between w1) as Hl.
  rewrite <-Hid in Hn. fold w1 in Hs.
  fold w2 in Hl. by rewrite (lookup_weaken _ _ _ _ Hs Hl) in Hn.
Qed.
End histories.

(** ** An example deployment *)
Module Demo.
#[local] Instance http : Http () := {|
  http_send _ := st_ret (Err "offline"); lookup_host _ := st_ret (Err "offline");
  new_v4 := st_ret "txn"; status_text _ := ""; shape_error _ := ""; hash_order l := l |}.
#[local] Instance lnurl : LnurlNet () := {|
  http_get _ := st_ret (Err "offline"); callback_url _ _ := Err "no url";
  metadata_of_json _ := Err "no json"; error_of_json _ := None;
  invoice_of_json _ := Err "no json"; debug_text s := s |}.
#[local] Instance stripe : StripeNet () := {|
  stripe_currency c := Some c; stripe_create_price _ _ _ := st_ret (Ok "price_1");
  stripe_parse_subscription_id s := Some s; stripe_cancel _ := st_ret (Ok ()) |}.
#[local] Instance l1 : TtlCache ex_l1 (string * string) (option Entitlement) := map_cache L1_TTL.

Definition provider : PaymentProvider () := {|
  pp_name := "stripe"; pp_is_mock := true;
  pp_create_connected_account _ := st_ret (Err (PaymentError.Internal "none"));
  pp_create_checkout _ := st_ret (Ok {| cs_session_id := "cs_1"; cs_checkout_url := "url" |});
  pp_verify_webhook _ _ := st_ret (Err (PaymentError.Internal "none")) |}.

Definition ops : Bolt11Ops := {|
  invoice_payment_hash _ := Err "none"; hex_encode s := s; hex_decode s := Some s;
  sha256 s := s |}.
Definition txt : TextOps := {|
  rfc3339 _ := ""; parse_rfc3339 _ := None; parse_uuid s := Some s |}.
Definition bot : HomeserverClient := new_client "https://hs/" "token" "@bot:x".

(** Every payload completes the checkout of session cs_1, as event evt_1. *)
Definition event : StripeEvent := {|
  ev_id := "evt_1"; ev_type := CheckoutSessionCompleted;
  ev_object := SessionObject {| se_id := "cs_1"; se_is_subscription := true;
    se_payment_intent := None; se_subscription := Some "sub_9"; se_metadata := None |} |}.

Definition config : MonetizationConfig := {|
  mc_enabled := true; mc_donations_enabled := true; mc_subscriptions_enabled := true;
  mc_min_donation_cents := 100; mc_max_donation_cents := 10000;
  mc_platform_fee_pct := f64_of_ratio 1 10; mc_postgres_url := "";
  mc_stripe_secret_key := ""; mc_stripe_publishable_key := "";
  mc_webhook_signing_secret := "0123456789012345678901234567890123456789";
  mc_stripe_api_base := default_stripe_api_base; mc_redis_url := "";
  mc_lnbits_enabled := false; mc_lnbits_url := ""; mc_lnbits_invoice_key := "";
  mc_lnbits_admin_key := ""; mc_demo_mode := false |}.

Definition app : ApiState := {|
  as_config := config; as_has_pg_pool := true; as_has_entitlement := true;
  as_has_registry := true; as_public_url := None |}.

Definition creator : ProfileRec := {|
  cp_id := "c1"; cp_display_name := "C"; cp_stripe_account_id := Some "acct";
  cp_onboarding_complete := true; cp_platform_fee_e4 := 1000; cp_lightning_address := None;
  cp_created_at := 0; cp_updated_at := 0 |}.

Definition tables : Tables := set_api (set_profiles {["@c:x" := creator]} {|
  a_profiles := ∅; a_donations := []; a_webhook_log := ∅; a_tiers := []; a_subscriptions := [];
  a_gates := ∅; a_rooms := ∅; a_moderation := no_moderation; a_uuids := ["t1"]; a_feed := no_feed; a_media := no_media; a_settings := no_settings;
    a_ads := no_ads |}) no_tables.

Definition W : Type := ((Db * (gmap string (string * DateTime) * ex_l1)) * ())%type.
Definition world : W := ((healthy tables 0, (∅, ∅)), ()).

Definition registry : @Registry.t () := {["stripe" := provider]}.
Definition api_all : list request → W → W := serve_all registry ops txt (λ _, Ok 1000)
  (λ s, s) print_value parse_value true false bot (λ _ _ _, Ok event) app.
Definition api (r : request) (w : W) : W := (serve registry ops txt (λ _, Ok 1000)
  (λ s, s) print_value parse_value true false bot (λ _ _ _, Ok event) app r w).2.

Definition tier_request : CreateTierRequest := {|
  tq_room_id := None; tq_name := "Gold"; tq_description := None; tq_tier_level := 3;
  tq_price_cents := 999; tq_currency := None; tq_perks := None; tq_permissions := None |}.

(** A creator opens a tier and a fan subscribes. *)
Definition opening : list request :=
  [CreateTier "@c:x" tier_request; CreateSubscription "@u:x" "t1" None "s1" 0].
(** Stripe reports the payment, and the fan cancels. *)
Definition closing : list request :=
  [StripeWebhook (Some "sig") (Ok "{}") 1; CancelSubscription "@u:x" "s1"].

Definition statuses (w : W) : list string :=
  sb_status <$> a_subscriptions (t_api (tables_of w)).

Lemma tables_ok : money_ok (t_api tables).
Proof. split; simpl; try constructor; done. Qed.
End Demo.

Lemma requests_keep_tables_well_typed_witness :
  Demo.statuses (Demo.api_all (Demo.opening ++ Demo.closing) Demo.world) = ["cancelled"] ∧
  money_ok (t_api (tables_of (Demo.api_all (Demo.opening ++ Demo.closing) Demo.world))).
Proof.
  split; [vm_compute; reflexivity|].
  apply (requests_keep_tables_well_typed Demo.registry). apply Demo.tables_ok.
Defined.

(** The event is delivered twice with a cancellation in between: the first delivery
    activates the subscription, the second changes nothing. *)
Lemma stripe_event_effective_once_witness :
  let w := Demo.api_all Demo.opening Demo.world in
  let again := StripeWebhook (Some "sig") (Ok "{}") 1 in
  let w1 := Demo.api again w in
  let w2 := Demo.api_all [CancelSubscription "@u:x" "s1"] w1 in
  (Demo.statuses w, Demo.statuses w1, Demo.statuses w2) =
    (["incomplete"], ["active"], ["cancelled"]) ∧
  (unchanged w w1 ∨ unchanged w2 (Demo.api again w2)).
Proof.
  split; [vm_compute; reflexivity|].
  by apply (stripe_event_effective_once Demo.registry _ _ _ _ _ _ _ _ _ _ _
    "sig" "{}" "sig" "{}" 1 1 Demo.event Demo.event [CancelSubscription "@u:x" "s1"]).
Defined.
