(* ===== verification/Provider.v ===== *)
(** * Provider: the boundary to a source of rented machines

    [mm-fleet/src/provider.rs]: the error classes, the [Provider] trait as a class
    of operations on a provider state, the laws its documentation demands of every
    implementation, and [DryRunProvider], which discharges them. *)
From S2P Require Import Prelude FleetTypes.
Local Open Scope Z_scope.

Record InstanceSpec : Type := {
  is_mm_node_id : NodeId;
  is_flavor : NodeFlavor.t;
  is_region : string;
  is_size : string;
  is_user_data : string
}.

Record InstanceHandle : Type := {
  ih_provider_id : string;
  ih_public_ip : option string;
  ih_created_at : option DateTime
}.

#[export] Instance InstanceHandle_eq_dec : EqDecision InstanceHandle.
Proof. solve_decision. Defined.

Module ProviderError.
Inductive t : Type :=
  | Transient (msg : string)
  | Permanent (msg : string)
  | Capacity (msg : string)
  | Quota (msg : string).

Definition is_transient (e : t) : bool :=
  match e with Transient _ => true | _ => false end.
Definition is_capacity (e : t) : bool :=
  match e with Capacity _ => true | _ => false end.
Definition is_quota (e : t) : bool :=
  match e with Quota _ => true | _ => false end.
Definition needs_human (e : t) : bool :=
  match e with Permanent _ | Quota _ => true | _ => false end.

Definition to_string (e : t) : string :=
  match e with
  | Transient m => "transient provider failure: " +:+ m
  | Permanent m => "permanent provider failure: " +:+ m
  | Capacity m => "provider has no capacity: " +:+ m
  | Quota m => "provider quota exhausted: " +:+ m
  end.
End ProviderError.

(** The trait. [P] is the state the provider keeps. *)
Class Provider (P : Type) : Type := {
  provider_name : string;
  provider_create : InstanceSpec → st P (result InstanceHandle ProviderError.t);
  provider_destroy : string → st P (result unit ProviderError.t);
  provider_list : st P (result (list InstanceHandle) ProviderError.t)
}.

(** What the trait's documentation requires. [running p] is what exists, and bills,
    at the provider. *)
Class ProviderLaws (P : Type) `{Provider P} : Type := {
  running : P → list InstanceHandle;
  destroy_only_removes p id h :
    h ∈ running (provider_destroy id p).2 → h ∈ running p;
  destroy_spares_others p id h :
    h ∈ running p → ih_provider_id h ≠ id → h ∈ running (provider_destroy id p).2;
  destroy_ok_gone p id h :
    (provider_destroy id p).1 = Ok tt → h ∈ running (provider_destroy id p).2 →
    ih_provider_id h ≠ id;
  list_changes_nothing p : running (provider_list p).2 = running p;
  list_ok_running p l h : (provider_list p).1 = Ok l → h ∈ l ↔ h ∈ running p
}.

(** ** The dry-run provider *)
Inductive Intent : Type :=
  | Create (node : NodeId)
  | Destroy (provider_id : string)
  | List.

Record DryRunState : Type := {
  dr_intents : list Intent;
  dr_live : list InstanceHandle;
  dr_fail_create : option ProviderError.t;
  dr_fail_destroy : option ProviderError.t;
  dr_fail_list : option ProviderError.t;
  dr_now : DateTime
}.

Module DryRunProvider.
Definition new (now : DateTime) : DryRunState := {|
  dr_intents := []; dr_live := []; dr_fail_create := None; dr_fail_destroy := None;
  dr_fail_list := None; dr_now := now |}.

Definition with_intent (i : Intent) (s : DryRunState) : DryRunState := {|
  dr_intents := dr_intents s ++ [i]; dr_live := dr_live s;
  dr_fail_create := dr_fail_create s; dr_fail_destroy := dr_fail_destroy s;
  dr_fail_list := dr_fail_list s; dr_now := dr_now s |}.

Definition with_live (l : list InstanceHandle) (s : DryRunState) : DryRunState := {|
  dr_intents := dr_intents s; dr_live := l;
  dr_fail_create := dr_fail_create s; dr_fail_destroy := dr_fail_destroy s;
  dr_fail_list := dr_fail_list s; dr_now := dr_now s |}.

Definition with_failures (c d l : option ProviderError.t) (s : DryRunState) :
    DryRunState := {|
  dr_intents := dr_intents s; dr_live := dr_live s;
  dr_fail_create := c; dr_fail_destroy := d; dr_fail_list := l; dr_now := dr_now s |}.

Definition seed_created_at (provider_id : string) (created_at : option DateTime)
    (s : DryRunState) : DryRunState :=
  with_live (dr_live s ++ [{| ih_provider_id := provider_id; ih_public_ip := None;
    ih_created_at := created_at |}]) s.

Definition seed (provider_ids : list string) (s : DryRunState) : DryRunState :=
  foldl (λ s id, seed_created_at id (Some 0) s) s provider_ids.

Definition fail_next_create (e : ProviderError.t) (s : DryRunState) : DryRunState :=
  with_failures (Some e) (dr_fail_destroy s) (dr_fail_list s) s.
Definition fail_next_destroy (e : ProviderError.t) (s : DryRunState) : DryRunState :=
  with_failures (dr_fail_create s) (Some e) (dr_fail_list s) s.
Definition fail_next_list (e : ProviderError.t) (s : DryRunState) : DryRunState :=
  with_failures (dr_fail_create s) (dr_fail_destroy s) (Some e) s.

Definition create (spec : InstanceSpec) :
    st DryRunState (result InstanceHandle ProviderError.t) := λ s0,
  let s := with_intent (Create (is_mm_node_id spec)) s0 in
  match dr_fail_create s with
  | Some e => (Err e, with_failures None (dr_fail_destroy s) (dr_fail_list s) s)
  | None =>
      let handle := {| ih_provider_id := "dry-run-" +:+ is_mm_node_id spec;
        ih_public_ip := Some "203.0.113.1"; ih_created_at := Some (dr_now s) |} in
      (Ok handle, with_live (dr_live s ++ [handle]) s)
  end.

Definition destroy (provider_id : string) :
    st DryRunState (result unit ProviderError.t) := λ s0,
  let s := with_intent (Destroy provider_id) s0 in
  match dr_fail_destroy s with
  | Some e => (Err e, with_failures (dr_fail_create s) None (dr_fail_list s) s)
  | None =>
      (Ok tt, with_live
        (List.filter (λ h, negb (String.eqb (ih_provider_id h) provider_id)) (dr_live s)) s)
  end.

Definition list : st DryRunState (result (list InstanceHandle) ProviderError.t) := λ s0,
  let s := with_intent List s0 in
  match dr_fail_list s with
  | Some e => (Err e, with_failures (dr_fail_create s) (dr_fail_destroy s) None s)
  | None => (Ok (dr_live s), s)
  end.
End DryRunProvider.

#[export] Instance DryRun : Provider DryRunState := {|
  provider_name := "dry-run";
  provider_create := DryRunProvider.create;
  provider_destroy := DryRunProvider.destroy;
  provider_list := DryRunProvider.list
|}.

#[export] Instance DryRunLaws : ProviderLaws DryRunState.
Proof.
  refine {| running := dr_live |}.
  - intros p id h. simpl. unfold DryRunProvider.destroy. simpl.
    destruct (dr_fail_destroy p); simpl; [done|].
    rewrite !list_elem_of_In, filter_In. by intros [??].
  - intros p id h Hh Hne. simpl. unfold DryRunProvider.destroy. simpl.
    destruct (dr_fail_destroy p); simpl; [done|].
    rewrite list_elem_of_In, filter_In. rewrite list_elem_of_In in Hh.
    split; [done|]. by apply negb_true_iff, String.eqb_neq.
  - intros p id h. simpl. unfold DryRunProvider.destroy. simpl.
    destruct (dr_fail_destroy p); simpl; [done|]. intros _.
    rewrite list_elem_of_In, filter_In. intros [_ Hn] Heq.
    by rewrite Heq, String.eqb_refl in Hn.
  - intros p. simpl. unfold DryRunProvider.list. simpl. by destruct (dr_fail_list p).
  - intros p l h. simpl. unfold DryRunProvider.list. simpl.
    destruct (dr_fail_list p); simpl; [done|]. by intros [= <-].
Defined.
