(* ===== verification/Scaleway.v ===== *)
(** * Scaleway: the provider of rented machines

    [mm-fleet/src/scaleway.rs]: the Scaleway Instance and Block Storage APIs as an
    implementation of [Provider]. The HTTP client, serde_json's text parser and chrono's are
    the class [Cloud]; the paths, the wire types, the classification of failures, paging,
    the waits and the order of the calls are written out. A [Duration] is nanoseconds. *)
From Stdlib Require Import Ascii.
From S2P Require Import Prelude FleetTypes ApiSchema Json Text MatrixClient Payments Provider.
Local Open Scope Z_scope.
Local Open Scope mm_scope.

(** ** The wire *)
Inductive CloudBody : Type :=
  | NoBody
  | JsonBody (v : json_value)
  | TextBody (s : string).

Record CloudRequest : Type := {
  cq_method : string;
  cq_url : string;
  cq_token : option string;                (** [X-Auth-Token] *)
  cq_query : list (string * string);
  cq_body : CloudBody
}.

(** [cy_total]: the header [x-total-count]; [cy_text]: the body as text, empty when it
    cannot be read; [cy_json]: the body as JSON, or why it is not. *)
Record CloudReply : Type := {
  cy_status : Z;
  cy_total : option string;
  cy_text : string;
  cy_json : result json_value string
}.

Class Cloud (N : Type) : Type := {
  cloud_send : CloudRequest → st N (result CloudReply string);
  cloud_sleep : Z → st N ();
  json_of_text : string → result json_value string;   (** [serde_json::from_str] *)
  time_of_text : string → option DateTime;            (** RFC 3339 *)
  cloud_status_text : Z → string;                     (** a status code with its reason *)
  cloud_shape_error : json_value → string;            (** not the struct asked for *)
  cloud_map_order : list string → list string         (** the order of a HashMap's keys *)
}.

Definition NOT_FOUND : Z := 404.

(** [{:?}] of a string; characters outside ASCII are taken to be printable. *)
Definition debug_char (c : ascii) : string :=
  let n := nat_of_ascii c in
  if (n =? 34)%nat then "\" +:+ String c EmptyString
  else if (n =? 92)%nat then "\\"
  else if (n =? 0)%nat then "\0"
  else if (n =? 9)%nat then "\t"
  else if (n =? 10)%nat then "\n"
  else if (n =? 13)%nat then "\r"
  else if (n <? 16)%nat then "\u{" +:+ String (ascii_of_nat (if (n <? 10)%nat then 48 + n else 87 + n)) "}"
  else if (n <? 32)%nat then
    "\u{1" +:+ String (ascii_of_nat (if (n <? 26)%nat then 32 + n else 71 + n)) "}"
  else if (n =? 127)%nat then "\u{7f}"
  else String c EmptyString.

Definition quote : string := String (ascii_of_nat 34) EmptyString.
Definition debug_str (s : string) : string :=
  quote +:+ foldr (λ c r, debug_char c +:+ r) EmptyString (String.list_ascii_of_string s) +:+ quote.
Definition debug_list (l : list string) : string :=
  "[" +:+ String.concat ", " (debug_str <$> l) +:+ "]".

(** [str::parse::<usize>]. *)
Definition parse_usize (s : string) : option Z :=
  in_range 0 u64_max
    (match s with
     | String c s' => if decide (c = "+"%char) then parse_dec1 s' else parse_dec1 s
     | EmptyString => None
     end).

Record ServerVolume : Type := { sv_id : string; sv_volume_type : string }.

#[export] Instance ServerVolume_eq_dec : EqDecision ServerVolume.
Proof. solve_decision. Defined.

Record Server : Type := {
  se_id : string;
  se_state : string;
  se_project : string;
  se_creation_date : option DateTime;
  se_tags : list string;
  se_public_ip : option (option string);   (** [ServerIp.address] *)
  se_volumes : gmap string ServerVolume
}.

Record BlockVolume : Type := {
  bv_id : string;
  bv_project_id : string;
  bv_status : string;
  bv_references : list string;             (** [BlockReference.status] *)
  bv_tags : list string;
  bv_created_at : option DateTime
}.

Definition deleted_by_terminate (v : ServerVolume) : bool :=
  String.eqb (sv_volume_type v) "l_ssd" || String.eqb (sv_volume_type v) "scratch".

Definition is_block_storage (v : ServerVolume) : bool := String.eqb (sv_volume_type v) "sbs_volume".

Definition is_detached (v : BlockVolume) : bool :=
  forallb (λ s, String.eqb s "detached") (bv_references v).

Definition SERVER_TAG_PREFIX : string := "mm-server=".

Fixpoint find_map {A B} (f : A → option B) (l : list A) : option B :=
  match l with
  | [] => None
  | a :: l' => match f a with Some b => Some b | None => find_map f l' end
  end.

Definition volume_server_tag (v : BlockVolume) : option string :=
  match find_map (strip_prefix SERVER_TAG_PREFIX) (bv_tags v) with
  | Some uuid => if is_empty_str uuid then None else Some uuid
  | None => None
  end.

Definition server_tag (uuid : string) : string := SERVER_TAG_PREFIX +:+ uuid.

(** ** The provider *)
Record ScalewayProvider : Type := {
  sp_secret_key : string;
  sp_project_id : string;
  sp_zone : string;
  sp_image : string;
  sp_gpu_image : option string;
  sp_fleet_tag : string;
  sp_base_url : string;
  sp_settle_interval : Z;
  sp_settle_polls : Z
}.

Definition DEFAULT_BASE_URL : string := "https://api.scaleway.com".
Definition DEFAULT_SETTLE_INTERVAL : Z := seconds 5.
Definition DEFAULT_SETTLE_POLLS : Z := 60.

Definition new_scaleway (secret_key project_id zone image fleet_tag : string) :
    ScalewayProvider := {|
  sp_secret_key := secret_key; sp_project_id := project_id; sp_zone := zone; sp_image := image;
  sp_gpu_image := None; sp_fleet_tag := fleet_tag; sp_base_url := DEFAULT_BASE_URL;
  sp_settle_interval := DEFAULT_SETTLE_INTERVAL; sp_settle_polls := DEFAULT_SETTLE_POLLS |}.

Definition with_base_url (base : string) (p : ScalewayProvider) : ScalewayProvider := {|
  sp_secret_key := sp_secret_key p; sp_project_id := sp_project_id p; sp_zone := sp_zone p;
  sp_image := sp_image p; sp_gpu_image := sp_gpu_image p; sp_fleet_tag := sp_fleet_tag p;
  sp_base_url := base; sp_settle_interval := sp_settle_interval p;
  sp_settle_polls := sp_settle_polls p |}.

Definition with_gpu_image (image : string) (p : ScalewayProvider) : ScalewayProvider := {|
  sp_secret_key := sp_secret_key p; sp_project_id := sp_project_id p; sp_zone := sp_zone p;
  sp_image := sp_image p; sp_gpu_image := Some image; sp_fleet_tag := sp_fleet_tag p;
  sp_base_url := sp_base_url p; sp_settle_interval := sp_settle_interval p;
  sp_settle_polls := sp_settle_polls p |}.

Definition with_settle (interval polls : Z) (p : ScalewayProvider) : ScalewayProvider := {|
  sp_secret_key := sp_secret_key p; sp_project_id := sp_project_id p; sp_zone := sp_zone p;
  sp_image := sp_image p; sp_gpu_image := sp_gpu_image p; sp_fleet_tag := sp_fleet_tag p;
  sp_base_url := sp_base_url p; sp_settle_interval := interval; sp_settle_polls := polls |}.

Definition instance_path (p : ScalewayProvider) (suffix : string) : string :=
  sp_base_url p +:+ "/instance/v1/zones/" +:+ sp_zone p +:+ suffix.

Definition block_path (p : ScalewayProvider) (suffix : string) : string :=
  sp_base_url p +:+ "/block/v1/zones/" +:+ sp_zone p +:+ suffix.

Definition zoned (p : ScalewayProvider) (uuid : string) : string := sp_zone p +:+ "/" +:+ uuid.

Definition local_uuid (p : ScalewayProvider) (provider_id : string) :
    result string ProviderError.t :=
  match split_once "/"%char provider_id with
  | Some (zone, uuid) =>
      if String.eqb zone (sp_zone p) && negb (is_empty_str uuid) &&
         negb (contains_char "/"%char uuid)
      then Ok uuid
      else Err (ProviderError.Permanent (provider_id +:+ " is in zone " +:+ zone +:+
             ", but this provider serves " +:+ sp_zone p))
  | None => Err (ProviderError.Permanent (provider_id +:+
      " has no zone; expected `zone/uuid`, as create and list return                  and Terraform stores"))
  end.

Definition LIST_PER_PAGE : Z := 100.
Definition LIST_MAX_PAGES : Z := 100.

Definition page_completes (collected got : Z) (total : option Z) (what : string) :
    result bool ProviderError.t :=
  match total with
  | Some total =>
      if total <=? collected then Ok true
      else if got =? 0 then Err (ProviderError.Transient ("list ended at " +:+ pretty collected +:+
             " of " +:+ pretty total +:+ " " +:+ what +:+ "; it changed while paging"))
      else Ok false
  | None => Ok (got <? LIST_PER_PAGE)
  end.

(** A loop [for poll in 0..=n], which waits before every poll but the first. It ends with
    [inl] when the body does, and with what the body carried on when the polls are used up. *)
Fixpoint settle {S A B} (n : nat) (wait : st S ()) (body : B → st S (A + B)) (b : B) :
    st S (A + B) :=
  st_bind (body b) (λ r,
    match r, n with
    | inl a, _ => st_ret (inl a)
    | inr b', O => st_ret (inr b')
    | inr b', Datatypes.S n' => st_bind wait (λ _, settle n' wait body b')
    end).

(** The page's rows after the ones collected; a row that was already there is an error. *)
Fixpoint add_page {A} (id : A → string) (what : string) (acc rows : list A) :
    result (list A) ProviderError.t :=
  match rows with
  | [] => Ok acc
  | a :: rows' =>
      if existsb (λ x, String.eqb (id x) (id a)) acc
      then Err (ProviderError.Transient (what +:+ " " +:+ id a +:+
             " appeared on two pages; the list changed while paging"))
      else add_page id what (acc ++ [a]) rows'
  end.

Section scaleway.
Context {N : Type} `{Cloud N} (p : ScalewayProvider).

(** ** Reading the answers *)
Definition from_text {A} (d : json_value → option A) (text : string) : result A string :=
  match json_of_text text with
  | Err e => Err e
  | Ok v => match d v with Some a => Ok a | None => Err (cloud_shape_error v) end
  end.

Definition as_time (v : json_value) : option DateTime := as_str v ≫= time_of_text.

Definition server_volume_of : json_value → option ServerVolume := struct 2 (λ s,
  id ← req as_str s 0 "id";
  t ← dflt "" as_str s 1 "volume_type";
  Some {| sv_id := id; sv_volume_type := t |}).

Definition dec_map {A} (d : json_value → option A) (v : json_value) : option (gmap string A) :=
  match v with
  | JObj l => list_to_map <$> mapM (λ kv, pair kv.1 <$> d kv.2) l
  | _ => None
  end.

Definition server_ip_of : json_value → option (option string) := struct 1 (λ s,
  opt_default as_str s 0 "address").

Definition server_of : json_value → option Server := struct 7 (λ s,
  id ← req as_str s 0 "id";
  state ← dflt "" as_str s 1 "state";
  project ← dflt "" as_str s 2 "project";
  created ← opt_default as_time s 3 "creation_date";
  tags ← dflt [] (dec_list as_str) s 4 "tags";
  ip ← opt_default server_ip_of s 5 "public_ip";
  volumes ← dflt ∅ (dec_map server_volume_of) s 6 "volumes";
  Some {| se_id := id; se_state := state; se_project := project; se_creation_date := created;
          se_tags := tags; se_public_ip := ip; se_volumes := volumes |}).

(** [CreateServerResponse] and [GetServerResponse]. *)
Definition server_response : json_value → option Server := struct 1 (λ s, req server_of s 0 "server").

Definition servers_response : json_value → option (list Server) := struct 1 (λ s,
  dflt [] (dec_list server_of) s 0 "servers").

Definition block_volume_of : json_value → option BlockVolume := struct 6 (λ s,
  id ← req as_str s 0 "id";
  project ← dflt "" as_str s 1 "project_id";
  status ← dflt "" as_str s 2 "status";
  references ← dflt [] (dec_list (struct 1 (λ s, dflt "" as_str s 0 "status"))) s 3 "references";
  tags ← dflt [] (dec_list as_str) s 4 "tags";
  created ← opt_default as_time s 5 "created_at";
  Some {| bv_id := id; bv_project_id := project; bv_status := status;
          bv_references := references; bv_tags := tags; bv_created_at := created |}).

Definition volumes_response : json_value → option (list BlockVolume * option Z) := struct 2 (λ s,
  volumes ← dflt [] (dec_list block_volume_of) s 0 "volumes";
  total ← opt_default of_u64 s 1 "total_count";
  Some (volumes, total)).

(** [AnyVolume]: what block/v1 calls status and instance/v1 the state of a nested volume. *)
Definition any_volume_state : json_value → option (option string) := struct 2 (λ s,
  status ← opt as_str s 0 "status";
  nested ← opt (struct 1 (λ s, opt as_str s 0 "state")) s 1 "volume";
  Some (match status with Some x => Some x | None => mjoin (M := option) nested end)).

Definition classify (status : Z) (body : string) : ProviderError.t :=
  let msg := cloud_status_text status +:+ ": " +:+ collect (take 400 (chars body)) in
  let kind := match from_text (struct 1 (λ s, opt as_str s 0 "type")) body with
              | Ok k => k | Err _ => None end in
  if bool_decide (kind = Some "out_of_stock") then ProviderError.Capacity msg
  else if bool_decide (kind = Some "quotas_exceeded") then ProviderError.Quota msg
  else if bool_decide (kind = Some "transient_state") then ProviderError.Transient msg
  else if ((500 <=? status) && (status <? 600)) || (status =? 429) || (status =? 408)
  then ProviderError.Transient msg
  else ProviderError.Permanent msg.

Definition is_still_in_use (status : Z) (body : string) : bool :=
  match from_text (struct 2 (λ s,
      kind ← opt as_str s 0 "type"; why ← opt as_str s 1 "precondition"; Some (kind, why))) body with
  | Err _ => false
  | Ok (kind, why) =>
      bool_decide (kind = Some "transient_state") ||
      bool_decide (kind = Some "precondition_failed") &&
        ((status =? 412) || bool_decide (why = Some "resource_still_in_use"))
  end.

(** ** Calls *)
Definition request (method url : string) (query : list (string * string)) (body : CloudBody) :
    CloudRequest := {|
  cq_method := method; cq_url := url; cq_token := Some (sp_secret_key p); cq_query := query;
  cq_body := body |}.

(** A call whose transport failure is a transient error. *)
Definition call (what : string) (rq : CloudRequest) : st N (result CloudReply ProviderError.t) :=
  let! r := cloud_send rq in
  st_ret (map_err (λ e, ProviderError.Transient (what +:+ " failed: " +:+ e)) r).

Definition refused (r : CloudReply) : ProviderError.t := classify (cy_status r) (cy_text r).

(** A body that should be of a shape. *)
Definition parsed {A} (what : string) (d : json_value → option A) (r : CloudReply) :
    result A ProviderError.t :=
  if negb (is_success (cy_status r)) then Err (refused r)
  else map_err (λ e, ProviderError.Permanent (what +:+ " parse error: " +:+ e))
         (from_text d (cy_text r)).

Definition values {A} (m : gmap string A) : list A :=
  omap (λ k, m !! k) (cloud_map_order (map_to_list m).*1).

Definition pause : st N () := cloud_sleep (sp_settle_interval p).
Definition polls : nat := Z.to_nat (sp_settle_polls p).

(** [ProductServer], down to the bandwidth. *)
Definition product_bandwidth : json_value → option (option Z) := struct 1 (λ s,
  network ← opt (struct 1 (λ s, opt of_u64 s 0 "sum_internet_bandwidth")) s 0 "network";
  Some (mjoin (M := option) network)).

Definition products_response : json_value → option (gmap string (option Z)) := struct 1 (λ s,
  req (dec_map product_bandwidth) s 0 "servers").

Definition sku_bandwidth_mbps : st N (result (gmap string Z) ProviderError.t) :=
  let? r := call "products request" {| cq_method := "GET";
    cq_url := instance_path p "/products/servers"; cq_token := None; cq_query := [];
    cq_body := NoBody |} in
  st_ret (match parsed "products" products_response r with
  | Err e => Err e
  | Ok servers => Ok (omap (λ bits : option Z, (λ b, u32_wrap (b `div` 1000000)) <$> bits) servers)
  end).

Definition server_path (uuid : string) : string := instance_path p ("/servers/" +:+ uuid).

Definition server_answer (r : CloudReply) : result (option Server) ProviderError.t :=
  if cy_status r =? NOT_FOUND then Ok None
  else match parsed "get server" server_response r with Ok s => Ok (Some s) | Err e => Err e end.

Definition get_server (uuid : string) : st N (result (option Server) ProviderError.t) :=
  let? r := call "get server" (request "GET" (server_path uuid) [] NoBody) in
  st_ret (server_answer r).

Definition write_cloud_init (uuid user_data : string) : st N (result () ProviderError.t) :=
  let? r := call "user_data request"
    (request "PATCH" (server_path uuid +:+ "/user_data/cloud-init") [] (TextBody user_data)) in
  st_ret (if is_success (cy_status r) then Ok () else Err (refused r)).

Definition server_action (uuid action : string) : st N (result bool ProviderError.t) :=
  let? r := call (action +:+ " request") (request "POST" (server_path uuid +:+ "/action") []
    (JsonBody (JObj [("action", JStr action)]))) in
  st_ret (if cy_status r =? NOT_FOUND then Ok false
          else if is_success (cy_status r) then Ok true else Err (refused r)).

Definition poweron (uuid : string) : st N (result () ProviderError.t) :=
  let? there := server_action uuid "poweron" in
  st_ret (if there : bool then Ok ()
          else Err (ProviderError.Transient (uuid +:+ " vanished between create and poweron"))).

Definition delete_server (uuid : string) : st N (result () ProviderError.t) :=
  let? r := call "delete server request" (request "DELETE" (server_path uuid) [] NoBody) in
  st_ret (if is_success (cy_status r) || (cy_status r =? NOT_FOUND) then Ok () else Err (refused r)).

Definition block_volume_path (id : string) : string := block_path p ("/volumes/" +:+ id).

Definition get_block_volume (id : string) : st N (result (option BlockVolume) ProviderError.t) :=
  let? r := call "get volume" (request "GET" (block_volume_path id) [] NoBody) in
  st_ret (if cy_status r =? NOT_FOUND then Ok None
          else match parsed "get volume" block_volume_of r with
               | Ok v => Ok (Some v) | Err e => Err e end).

(** Sets the tags, waiting out a volume that is still being created. *)
Definition tag_volume (id : string) (tags : list string) : st N (result () ProviderError.t) :=
  let! r := settle polls pause (λ _ : option ProviderError.t,
    let! r := call "volume tag request" (request "PATCH" (block_volume_path id) []
      (JsonBody (JObj [("tags", JArr (JStr <$> tags))]))) in
    st_ret (match r with
    | Err e => inl (Err e)
    | Ok r =>
        if is_success (cy_status r) then inl (Ok ())
        else if is_still_in_use (cy_status r) (cy_text r) then inr (Some (refused r))
        else inl (Err (refused r))
    end)) None in
  st_ret (match r with
  | inl r => r
  | inr last => Err (default (ProviderError.Transient "volume tag never settled") last)
  end).

Definition with_tags (wanted current : list string) : list string :=
  foldl (λ tags t, if bool_decide (t ∈ tags) then tags else tags ++ [t]) current wanted.

Definition ensure_server_tag (uuid : string) (volumes : list ServerVolume) :
    st N (result () ProviderError.t) :=
  st_try_each (λ v,
    let? current := get_block_volume (sv_id v) in
    match current with
    | None => st_ret (Ok ())
    | Some v' =>
        if bool_decide (server_tag uuid ∈ bv_tags v') && bool_decide (sp_fleet_tag p ∈ bv_tags v')
        then st_ret (Ok ())
        else tag_volume (sv_id v) (with_tags [sp_fleet_tag p; server_tag uuid] (bv_tags v'))
    end) (List.filter is_block_storage volumes).

(** ** Lists, every page *)
Definition page_request (path : string) (project tags size : string * string) (page : Z) :
    CloudRequest :=
  request "GET" path [project; tags; size; ("page", pretty page)] NoBody.

(** One page after those collected: the complete list, or the next page to fetch. *)
Definition fetch_page {A} (what lister : string) (id : A → string)
    (read : CloudReply → result (list A * option Z) ProviderError.t)
    (rq : Z → CloudRequest) (b : Z * list A) : st N (result (list A) ProviderError.t + Z * list A) :=
  let '(page, acc) := b in
  let! r := call (lister +:+ " request") (rq page) in
  st_ret (match match r with Ok r => read r | Err e => Err e end with
  | Err e => inl (Err e)
  | Ok (rows, total) =>
      match add_page id what acc rows with
      | Err e => inl (Err e)
      | Ok acc =>
          match page_completes (Z.of_nat (length acc)) (Z.of_nat (length rows)) total
                  (what +:+ "s") with
          | Err e => inl (Err e)
          | Ok true => inl (Ok acc)
          | Ok false => inr (page + 1, acc)
          end
      end
  end).

Definition too_many (what : string) : ProviderError.t :=
  ProviderError.Permanent ("more than " +:+ pretty (LIST_PER_PAGE * LIST_MAX_PAGES) +:+ " " +:+
    what +:+ "; refusing to report a partial list").

(** The pages from 1 to [LIST_MAX_PAGES]. *)
Definition every_page {A} (what lister carry : string) (id : A → string)
    (read : CloudReply → result (list A * option Z) ProviderError.t) (rq : Z → CloudRequest) :
    st N (result (list A) ProviderError.t) :=
  let! r := settle (Z.to_nat LIST_MAX_PAGES - 1) (st_ret ()) (fetch_page what lister id read rq)
              (1, []) in
  st_ret (match r with inl r => r | inr _ => Err (too_many (what +:+ "s carry " +:+ carry)) end).

Definition read_servers (r : CloudReply) : result (list Server * option Z) ProviderError.t :=
  match parsed "list" servers_response r with
  | Ok l => Ok (l, cy_total r ≫= parse_usize)
  | Err e => Err e
  end.

Definition servers_page : Z → CloudRequest :=
  page_request (instance_path p "/servers") ("project", sp_project_id p)
    ("tags", sp_fleet_tag p) ("per_page", pretty LIST_PER_PAGE).

Definition our_server (s : Server) : bool :=
  String.eqb (se_project s) (sp_project_id p) && existsb (String.eqb (sp_fleet_tag p)) (se_tags s).

Definition list_servers : st N (result (list Server) ProviderError.t) :=
  let? l := every_page "server" "list" "the fleet tag" se_id read_servers servers_page in
  st_ret (Ok (List.filter our_server l)).

Definition read_volumes (r : CloudReply) : result (list BlockVolume * option Z) ProviderError.t :=
  parsed "volume list" volumes_response r.

Definition volumes_page (tag : string) : Z → CloudRequest :=
  page_request (block_path p "/volumes") ("project_id", sp_project_id p) ("tags", tag)
    ("page_size", pretty LIST_PER_PAGE).

Definition our_volume (tag : string) (v : BlockVolume) : bool :=
  String.eqb (bv_project_id v) (sp_project_id p) && existsb (String.eqb tag) (bv_tags v).

Definition list_block_volumes (tag : string) : st N (result (list BlockVolume) ProviderError.t) :=
  let? l := every_page "volume" "volume list" tag bv_id read_volumes (volumes_page tag) in
  st_ret (Ok (List.filter (our_volume tag) l)).

(** ** Volumes that outlive their server *)
Definition volume_url (v : ServerVolume) : string :=
  if is_block_storage v then block_volume_path (sv_id v)
  else instance_path p ("/volumes/" +:+ sv_id v).

Definition wait_until_volume_gone (url : string) : st N (result () string) :=
  let! r := settle polls pause (λ _ : (),
    let! r := cloud_send (request "GET" url [] NoBody) in
    st_ret (match r with
    | Err e => inl (Err e)
    | Ok r =>
        if cy_status r =? NOT_FOUND then inl (Ok ())
        else if negb (is_success (cy_status r))
        then inl (Err ("checking deletion: " +:+ cloud_status_text (cy_status r)))
        else match cy_json r with
        | Err e => inl (Err e)
        | Ok v =>
            match any_volume_state v with
            | None => inl (Err (cloud_shape_error v))
            | Some state =>
                if bool_decide (state = Some "error")
                then inl (Err "deletion failed: the volume is in state error")
                else inr ()
            end
        end
    end)) () in
  st_ret (match r with
  | inl r => r
  | inr _ => Err "deletion queued but the volume still exists"
  end).

Definition delete_volume (v : ServerVolume) : st N (result () string) :=
  let! r := settle polls pause (λ _ : string,
    let! r := cloud_send (request "DELETE" (volume_url v) [] NoBody) in
    match r with
    | Err e => st_ret (inl (Err e))
    | Ok r =>
        if is_success (cy_status r) || (cy_status r =? NOT_FOUND)
        then let! gone := wait_until_volume_gone (volume_url v) in st_ret (inl gone)
        else if is_still_in_use (cy_status r) (cy_text r)
        then st_ret (inr (cloud_status_text (cy_status r) +:+ ": still in use"))
        else st_ret (inl (Err (cloud_status_text (cy_status r))))
    end) EmptyString in
  st_ret (match r with inl r => r | inr last => Err last end).

Definition delete_volumes (provider_id verb : string) (volumes : list ServerVolume) :
    st N (result () ProviderError.t) :=
  let! leaked := st_fold (λ leaked v,
    let! r := delete_volume v in
    st_ret (match r with
    | Ok _ => leaked
    | Err why => leaked ++ [sv_id v +:+ " (" +:+ sv_volume_type v +:+ ") -> " +:+ why]
    end)) volumes [] in
  st_ret (match leaked with
  | [] => Ok ()
  | _ => Err (ProviderError.Transient (verb +:+ " " +:+ provider_id +:+ " but " +:+
      pretty (Z.of_nat (length leaked)) +:+ " volume(s) still exist and are billing: " +:+
      debug_list leaked))
  end).

(** ** Removing a server *)
Record Removal : Type := {
  rv_volumes : gmap string ServerVolume;
  rv_requested : option string
}.

Definition with_seen (s : Server) (b : Removal) : Removal := {|
  rv_volumes := foldl (λ m v, <[sv_id v := v]> m) (rv_volumes b) (values (se_volumes s));
  rv_requested := rv_requested b |}.

Definition with_requested (verb : string) (b : Removal) : Removal := {|
  rv_volumes := rv_volumes b; rv_requested := Some verb |}.

Definition is_stopped (state : string) : bool :=
  String.eqb state "stopped" || String.eqb state "stopped in place".

(** The removal a state allows. *)
Definition remove_server (provider_id uuid state : string) (b : Removal) :
    st N (result Removal ProviderError.t + Removal) :=
  if String.eqb state "running" then
    let! there := server_action uuid "terminate" in
    st_ret (match there with
    | Err e => inl (Err e)
    | Ok false => inl (Ok b)
    | Ok true => inr (with_requested "terminated" b)
    end)
  else if is_stopped state then
    let! r := delete_server uuid in
    st_ret (match r with
    | Err e => inl (Err e)
    | Ok _ => inr (with_requested "deleted" b)
    end)
  else if String.eqb state "starting" || String.eqb state "stopping" then st_ret (inr b)
  else st_ret (inl (Err (ProviderError.Permanent (provider_id +:+ " is in state " +:+
    debug_str state +:+ ", which nothing automatic can remove (`locked` means Scaleway is holding it)")))).

(** One poll of [destroy]: [inl (Ok _)] when the server is gone. *)
Definition removal_poll (provider_id uuid : string) (b : Removal) :
    st N (result Removal ProviderError.t + Removal) :=
  let! r := get_server uuid in
  match r with
  | Err e => st_ret (inl (Err e))
  | Ok None => st_ret (inl (Ok b))
  | Ok (Some server) =>
      let b := with_seen server b in
      match rv_requested b with
      | Some _ => st_ret (inr b)
      | None =>
          let! tagged := (if String.eqb (se_state server) "running" || is_stopped (se_state server)
            then ensure_server_tag uuid (values (rv_volumes b)) else st_ret (Ok ())) in
          match tagged with
          | Err e => st_ret (inl (Err e))
          | Ok _ => remove_server provider_id uuid (se_state server) b
          end
      end
  end.

Definition still_there (provider_id : string) (b : Removal) : ProviderError.t :=
  ProviderError.Transient (match rv_requested b with
  | Some verb => provider_id +:+ " was " +:+ verb +:+ " but still exists after " +:+
      pretty (sp_settle_polls p) +:+
      " polls; the asynchronous removal may have failed, so it is retried rather than reported gone"
  | None => provider_id +:+ " did not leave a transitional state within " +:+
      pretty (sp_settle_polls p) +:+ " polls"
  end).

Definition add_tagged (l : list BlockVolume) (m : gmap string ServerVolume) :
    gmap string ServerVolume :=
  foldl (λ m v, match m !! bv_id v with
    | Some _ => m
    | None => <[bv_id v := {| sv_id := bv_id v; sv_volume_type := "sbs_volume" |}]> m
    end) m l.

Definition leftovers (b : Removal) (volumes : gmap string ServerVolume) : list ServerVolume :=
  List.filter (λ v, negb (bool_decide (rv_requested b = Some "terminated") &&
    deleted_by_terminate v)) (values volumes).

(** What is left once the server is gone. *)
Definition remove_leftovers (provider_id uuid : string) (b : Removal) :
    st N (result () ProviderError.t) :=
  let! lookup := list_block_volumes (server_tag uuid) in
  let volumes := match lookup with
                 | Ok tagged => add_tagged tagged (rv_volumes b)
                 | Err _ => rv_volumes b
                 end in
  let? _ := delete_volumes provider_id (default "gone" (rv_requested b)) (leftovers b volumes) in
  st_ret (match lookup with
  | Ok _ => Ok ()
  | Err e => Err (ProviderError.Transient (provider_id +:+
      " is gone but its volumes could not be looked up by tag: " +:+ ProviderError.to_string e))
  end).

Definition scw_destroy (provider_id : string) : st N (result () ProviderError.t) :=
  match local_uuid p provider_id with
  | Err e => st_ret (Err e)
  | Ok uuid =>
      let! r := settle polls pause (removal_poll provider_id uuid)
                  {| rv_volumes := ∅; rv_requested := None |} in
      match r with
      | inl (Err e) => st_ret (Err e)
      | inl (Ok b) => remove_leftovers provider_id uuid b
      | inr b => st_ret (Err (still_there provider_id b))
      end
  end.

(** ** Creating one *)
Definition discard_unbooted (provider_id : string) (cause : ProviderError.t) :
    st N ProviderError.t :=
  let! _ := scw_destroy provider_id in st_ret cause.

Definition image_for (spec : InstanceSpec) : result string ProviderError.t :=
  match is_flavor spec with
  | NodeFlavor.Transcode =>
      match sp_gpu_image p with
      | Some image => Ok image
      | None => Err (ProviderError.Permanent (is_mm_node_id spec +:+
          " is a transcode node but no GPU image is configured (with_gpu_image)"))
      end
  | _ => Ok (sp_image p)
  end.

Definition create_body (image : string) (spec : InstanceSpec) : json_value := JObj [
  ("name", JStr (is_mm_node_id spec)); ("commercial_type", JStr (is_size spec));
  ("image", JStr image); ("project", JStr (sp_project_id p)); ("dynamic_ip_required", JBool true);
  ("tags", JArr [JStr (sp_fleet_tag p); JStr ("mm-node-id=" +:+ is_mm_node_id spec);
                 JStr ("mm-flavor=" +:+ NodeFlavor.as_str (is_flavor spec))])].

(** The steps between the create call and a running server. *)
Definition boot_server (spec : InstanceSpec) (server : Server) : st N (result () ProviderError.t) :=
  let? _ := st_try_each (λ v, tag_volume (sv_id v) [sp_fleet_tag p;
      "mm-node-id=" +:+ is_mm_node_id spec; server_tag (se_id server)])
    (List.filter is_block_storage (values (se_volumes server))) in
  let? _ := write_cloud_init (se_id server) (is_user_data spec) in
  poweron (se_id server).

Definition handle_of (server : Server) : InstanceHandle := {|
  ih_provider_id := zoned p (se_id server);
  ih_public_ip := mjoin (M := option) (se_public_ip server);
  ih_created_at := se_creation_date server |}.

Definition scw_create (spec : InstanceSpec) : st N (result InstanceHandle ProviderError.t) :=
  match image_for spec with
  | Err e => st_ret (Err e)
  | Ok image =>
      let? r := call "create request"
        (request "POST" (instance_path p "/servers") [] (JsonBody (create_body image spec))) in
      match parsed "create" server_response r with
      | Err e => st_ret (Err e)
      | Ok server =>
          let! booted := boot_server spec server in
          match booted with
          | Ok _ => st_ret (Ok (handle_of server))
          | Err e => let! e := discard_unbooted (zoned p (se_id server)) e in st_ret (Err e)
          end
      end
  end.

(** ** Listing what exists *)
(** One volume of the fleet: reported under its server when that is gone. *)
Definition stranded (acc : list string * list InstanceHandle) (v : BlockVolume) :
    st N (result (list string * list InstanceHandle) ProviderError.t) :=
  if negb (String.eqb (bv_status v) "available") || negb (is_detached v) then st_ret (Ok acc)
  else
  match volume_server_tag v with
  | None => st_ret (Ok acc)
  | Some server =>
      if bool_decide (server ∈ acc.1) then st_ret (Ok acc)
      else
      let? there := get_server server in
      st_ret (Ok (match there with
      | Some _ => acc
      | None => (acc.1 ++ [server], acc.2 ++ [{| ih_provider_id := zoned p server;
                   ih_public_ip := None; ih_created_at := bv_created_at v |}])
      end))
  end.

Fixpoint each_stranded (acc : list string * list InstanceHandle) (l : list BlockVolume) :
    st N (result (list string * list InstanceHandle) ProviderError.t) :=
  match l with
  | [] => st_ret (Ok acc)
  | v :: l' => let? acc := stranded acc v in each_stranded acc l'
  end.

Definition scw_list : st N (result (list InstanceHandle) ProviderError.t) :=
  let? tagged := list_block_volumes (sp_fleet_tag p) in
  let? servers := list_servers in
  let? acc := each_stranded (se_id <$> servers, handle_of <$> servers) tagged in
  st_ret (Ok acc.2).

Definition scaleway_provider : Provider N := {|
  provider_name := "scaleway";
  provider_create := scw_create;
  provider_destroy := scw_destroy;
  provider_list := scw_list
|}.
End scaleway.
