(* ===== verification/ScalewayTrace.v ===== *)
(** * ScalewayTrace: what the Scaleway provider asks, and what its answers mean

    Theorems over the log of calls, for a cloud that may answer anything: a destroy that
    succeeds leaves nothing that bills, it touches only its own server, a create that fails
    after the server existed has tried to remove it again, and a list that succeeds is
    complete. *)
From S2P Require Import Prelude FleetTypes ApiSchema Json Text MatrixClient Payments Provider Scaleway.
Local Open Scope Z_scope.
Local Open Scope mm_scope.

(** ** The calls an operation makes

    Over any cloud, the same operations with a log of what was asked and answered. *)
Abbreviation Call := (CloudRequest * result CloudReply string)%type.
Abbreviation Traced N := (list Call * N)%type.

#[export] Instance traced {N} `{Cloud N} : Cloud (Traced N) := {|
  cloud_send rq := λ w, let '(r, n) := cloud_send rq w.2 in (r, (w.1 ++ [(rq, r)], n));
  cloud_sleep d := λ w, let '(_, n) := cloud_sleep d w.2 in (tt, (w.1, n));
  json_of_text := json_of_text (N := N);
  time_of_text := time_of_text (N := N);
  cloud_status_text := cloud_status_text (N := N);
  cloud_shape_error := cloud_shape_error (N := N);
  cloud_map_order := cloud_map_order (N := N)
|}.

(** [emits m P]: [m] adds calls [l] to the log and answers [a] with [P a l]. *)
Definition emits {N A} (m : st (Traced N) A) (P : A → list Call → Prop) : Prop :=
  ∀ w, ∃ l, (m w).2.1 = w.1 ++ l ∧ P (m w).1 l.

Section emits_lemmas.
Context {N : Type} `{Cloud N}.

Lemma emits_ret {A} (a : A) (P : A → list Call → Prop) :
  P a [] → emits (N := N) (st_ret a) P.
Proof. intros HP w. exists []. by rewrite app_nil_r. Qed.

Lemma emits_bind {A B} (m : st (Traced N) A) (k : A → st (Traced N) B) P
    (Q : A → B → list Call → Prop) R :
  emits m P → (∀ a, emits (k a) (Q a)) →
  (∀ a l b l', P a l → Q a b l' → R b (l ++ l')) → emits (st_bind m k) R.
Proof.
  intros Hm Hk HR w. destruct (Hm w) as (l & El & Pl). unfold st_bind.
  destruct (m w) as [a w1]. cbn [fst snd] in *. destruct (Hk a w1) as (l' & El' & Ql).
  exists (l ++ l'). rewrite El', El, app_assoc. split; [done|]. by eapply HR.
Qed.

Lemma emits_conseq {A} (m : st (Traced N) A) (P Q : A → list Call → Prop) :
  emits m P → (∀ a l, P a l → Q a l) → emits m Q.
Proof. intros Hm HPQ w. destruct (Hm w) as (l & ? & ?). exists l. split; auto. Qed.

(** The bind, with the continuation's calls after those already made. *)
Lemma emits_then {A B} (m : st (Traced N) A) (k : A → st (Traced N) B) P R :
  emits m P → (∀ a l, P a l → emits (k a) (λ b l', R b (l ++ l'))) → emits (st_bind m k) R.
Proof.
  intros Hm Hk w. destruct (Hm w) as (l & El & Pl). unfold st_bind.
  destruct (m w) as [a w1]. cbn [fst snd] in *. destruct (Hk a l Pl w1) as (l' & El' & Ql).
  exists (l ++ l'). by rewrite El', El, app_assoc.
Qed.

Lemma emits_try {A B E} (m : st (Traced N) (result A E)) (k : A → st (Traced N) (result B E)) P R :
  emits m P → (∀ a l, P (Ok a) l → emits (k a) (λ b l', R b (l ++ l'))) →
  (∀ e l, P (Err e) l → R (Err e) l) → emits (st_try m k) R.
Proof.
  intros Hm Hk He. apply (emits_then _ _ P); [done|]. intros [a|e] l Hl; [by apply Hk|].
  apply emits_ret. rewrite app_nil_r. auto.
Qed.

Lemma emits_send rq (P : result CloudReply string → list Call → Prop) :
  (∀ r, P r [(rq, r)]) → emits (N := N) (cloud_send rq) P.
Proof.
  intros HP w. cbn. destruct (cloud_send rq w.2) as [r n]. eexists. split; [done|]. apply HP.
Qed.

Lemma emits_sleep d (P : () → list Call → Prop) : P tt [] → emits (N := N) (cloud_sleep d) P.
Proof.
  intros HP w. cbn. destruct (cloud_sleep d w.2) as [[] n]. exists [].
  by rewrite app_nil_r.
Qed.

Lemma emits_call what rq (P : result CloudReply ProviderError.t → list Call → Prop) :
  (∀ r, P (map_err (λ e, ProviderError.Transient (what +:+ " failed: " +:+ e)) r) [(rq, r)]) →
  emits (N := N) (call what rq) P.
Proof.
  intros HP. unfold call. apply (emits_then _ _ (λ r l, l = [(rq, r)])); [by apply emits_send|].
  intros r l ->. apply emits_ret. apply HP.
Qed.

(** A loop that carries an invariant [I] of what it passes on and of the calls so far. *)
Lemma emits_settle {A B} n (wait : st (Traced N) ()) (body : B → st (Traced N) (A + B))
    (I : B → list Call → Prop) (P : A → list Call → Prop) b l0 :
  emits wait (λ _ l, l = []) →
  (∀ b l0, I b l0 → emits (body b) (λ r l, match r with inl a => P a (l0 ++ l) | inr b' => I b' (l0 ++ l) end)) →
  I b l0 →
  emits (settle n wait body b)
    (λ r l, match r with inl a => P a (l0 ++ l) | inr b' => I b' (l0 ++ l) end).
Proof.
  intros Hw Hb. revert b l0. induction n as [|n IH]; intros b l0 HI; cbn [settle];
    (apply (emits_then _ _ _ _ (Hb b l0 HI)); intros [a|b'] l Hl;
     [by apply emits_ret; rewrite app_nil_r|]).
  - by apply emits_ret; rewrite app_nil_r.
  - apply (emits_then _ _ _ _ Hw). intros _ ? ->. cbn [app].
    eapply emits_conseq; [by apply (IH b' (l0 ++ l))|]. intros r l'. by rewrite app_assoc.
Qed.
End emits_lemmas.

(** ** What the log shows *)
Section evidence.
Context {N : Type} `{Cloud N} (p : ScalewayProvider).

Abbreviation get_request url := (request p "GET" url [] NoBody).
Abbreviation action_request uuid action :=
  (request p "POST" (server_path p uuid +:+ "/action") [] (JsonBody (JObj [("action", JStr action)]))).

(** A call answered 404. *)
Definition missing (rq : CloudRequest) (c : Call) : Prop :=
  c.1 = rq ∧ ∃ r, c.2 = Ok r ∧ cy_status r = NOT_FOUND.

(** The server was reported gone: by a GET, or by the terminate action. *)
Definition server_gone (uuid : string) (c : Call) : Prop :=
  missing (get_request (server_path p uuid)) c ∨ missing (action_request uuid "terminate") c.

(** A GET of the server listed the volume. *)
Definition reported (uuid : string) (log : list Call) (v : ServerVolume) : Prop :=
  ∃ r s k, (get_request (server_path p uuid), Ok r) ∈ log ∧
    server_answer (N := N) r = Ok (Some s) ∧ se_volumes s !! k = Some v.

Definition terminate_accepted (uuid : string) (log : list Call) : Prop :=
  ∃ r, (action_request uuid "terminate", Ok r) ∈ log ∧ is_success (cy_status r) = true.

(** A GET of the volume was answered 404. *)
Definition volume_gone (v : ServerVolume) (log : list Call) : Prop :=
  ∃ c, c ∈ log ∧ missing (get_request (volume_url p v)) c.

(** Pages of a list, from a page on, and their rows. *)
Inductive pages_of {A} (read : CloudReply → result (list A * option Z) ProviderError.t)
    (rq : Z → CloudRequest) : Z → list Call → list A → Prop :=
  | pages_nil page : pages_of read rq page [] []
  | pages_cons page r rows total log rest :
      read r = Ok (rows, total) → pages_of read rq (page + 1) log rest →
      pages_of read rq page ((rq page, Ok r) :: log) (rows ++ rest).

(** The list is complete by the server's own account: the rows reach the advertised total,
    or, without one, the last page was short. *)
Definition listed_in_full {A} (read : CloudReply → result (list A * option Z) ProviderError.t)
    (rq : Z → CloudRequest) (id : A → string) (log : list Call) (rows : list A) : Prop :=
  pages_of read rq 1 log rows ∧ NoDup (id <$> rows) ∧
  ∃ log' rq' r last total, log = log' ++ [(rq', Ok r)] ∧ read r = Ok (last, total) ∧
    match total with
    | Some t => t ≤ Z.of_nat (length rows)
    | None => Z.of_nat (length last) < LIST_PER_PAGE
    end.

Lemma pages_snoc {A} (read : CloudReply → result (list A * option Z) ProviderError.t) rq page log acc
    r rows total :
  pages_of read rq page log acc → read r = Ok (rows, total) →
  pages_of read rq page (log ++ [(rq (page + Z.of_nat (length log)), Ok r)]) (acc ++ rows).
Proof.
  intros Hp Hr. induction Hp as [page|page r' rows' total' log rest Hr' Hp IH].
  - cbn [app length Z.of_nat]. rewrite Z.add_0_r, <-(app_nil_r rows). econstructor; [done|constructor].
  - cbn [app length]. rewrite <-app_assoc. econstructor; [done|].
    replace (page + Z.of_nat (S (length log))) with (page + 1 + Z.of_nat (length log)) by lia.
    exact IH.
Qed.

Lemma pages_in {A} (read : CloudReply → result (list A * option Z) ProviderError.t) rq page log rows x :
  pages_of read rq page log rows → x ∈ rows →
  ∃ k r rows' total, (rq k, Ok r) ∈ log ∧ read r = Ok (rows', total) ∧ x ∈ rows'.
Proof.
  intros Hp Hx. induction Hp as [page|page r rows total log rest Hr Hp IH]; [inversion Hx|].
  apply elem_of_app in Hx as [Hx|Hx].
  - exists page, r, rows, total. split; [by left|done].
  - destruct (IH Hx) as (k & r' & rows' & total' & Hin & Hrest).
    exists k, r', rows', total'. split; [by right|done].
Qed.

Lemma add_page_spec {A} (id : A → string) what acc rows acc' :
  add_page id what acc rows = Ok acc' → NoDup (id <$> acc) →
  acc' = acc ++ rows ∧ NoDup (id <$> acc').
Proof.
  revert acc. induction rows as [|a rows IH]; intros acc; cbn [add_page].
  { intros [= <-] Hn. by rewrite app_nil_r. }
  destruct (existsb _ acc) eqn:E; [done|]. intros Ha Hn. destruct (IH _ Ha) as [-> Hn'].
  - rewrite fmap_app. apply NoDup_app. split; [done|]. split; [|apply NoDup_singleton].
    intros x Hx Hx'. apply list_elem_of_singleton in Hx'. subst x.
    apply list_elem_of_fmap in Hx as (b & Hb & Hin). apply list_elem_of_In in Hin.
    assert (existsb (λ x, String.eqb (id x) (id a)) acc = true); [|congruence].
    apply existsb_exists. exists b. split; [done|]. rewrite Hb. apply String.eqb_refl.
  - by rewrite <-app_assoc in *.
Qed.

Lemma every_page_emits {A} what lister carry (id : A → string) read rq :
  emits (N := N) (every_page what lister carry id read rq)
    (λ r l, ∀ rows, r = Ok rows → listed_in_full read rq id l rows).
Proof.
  unfold every_page. eapply emits_then.
  { apply (emits_settle _ _ _
      (λ b l, b.1 = 1 + Z.of_nat (length l) ∧ pages_of read rq 1 l b.2 ∧ NoDup (id <$> b.2))
      (λ r l, ∀ rows, r = Ok rows → listed_in_full read rq id l rows) _ []).
    - by apply emits_ret.
    - intros [page acc] l0 (Hpage & Hp & Hn). cbn [fst snd] in *. unfold fetch_page.
      eapply emits_then; [apply (emits_call _ _ (λ r l, ∃ a, l = [(rq page, a)] ∧
        r = map_err (λ e, ProviderError.Transient ((lister +:+ " request") +:+ " failed: " +:+ e)) a));
        intros r; by eexists|].
      intros r l (a & -> & ->). apply emits_ret. rewrite app_nil_r.
      destruct a as [y|e]; cbn [map_err]; [|done].
      destruct (read y) as [[rows total]|e] eqn:Er; [|done].
      destruct (add_page id what acc rows) as [acc'|e] eqn:Ea; [|done].
      destruct (add_page_spec _ _ _ _ _ Ea Hn) as [-> Hn'].
      pose proof (pages_snoc _ _ _ _ _ _ _ _ Hp Er) as Hs. rewrite <-Hpage in Hs.
      destruct (page_completes _ _ total _) as [[]|e] eqn:Ec; [| |done].
      + intros ? [= <-]. split; [done|]. split; [done|].
        eexists _, _, _, _, _. split; [done|]. split; [exact Er|]. revert Ec. unfold page_completes.
        destruct total as [t|]; [|intros [= Hlt]; by apply Z.ltb_lt in Hlt].
        destruct (Z.leb_spec t (Z.of_nat (length (acc ++ rows)))); [done|]. by case_match.
      + rewrite length_app. cbn. split; [lia|]. by split.
    - cbn. split; [done|]. split; [constructor|]. constructor. }
  intros [r|b] l Hl; apply emits_ret; rewrite app_nil_r; cbn [app] in *; [exact Hl|done].
Qed.
End evidence.

(** ** Destroying a server *)
Section destroying.
Context {N : Type} `{Cloud N} (p : ScalewayProvider).

Abbreviation get_request url := (request p "GET" url [] NoBody).

(** One call to make and an answer computed from it. *)
Lemma emits_asked {A} what rq (f : CloudReply → result A ProviderError.t) :
  emits (N := N) (let? r := call what rq in st_ret (f r))
    (λ r l, ∃ a, l = [(rq, a)] ∧ match a with Ok y => r = f y | Err _ => is_ok r = false end).
Proof.
  eapply emits_try; [apply (emits_call _ _ (λ r l, ∃ a, l = [(rq, a)] ∧
      match a with Ok y => r = Ok y | Err _ => is_ok r = false end));
    intros [y|e]; by eexists| |].
  - intros y l (a & -> & Ha). apply emits_ret. exists a. split; [done|].
    destruct a; [by injection Ha as <-|done].
  - intros e l (a & -> & Ha). exists a. split; [done|]. by destruct a.
Qed.

Lemma get_server_emits uuid :
  emits (N := N) (get_server p uuid)
    (λ r l, ∃ a, l = [(get_request (server_path p uuid), a)] ∧
       match r with
       | Ok None => missing (get_request (server_path p uuid)) (get_request (server_path p uuid), a)
       | Ok (Some s) => ∃ y, a = Ok y ∧ server_answer (N := N) y = Ok (Some s)
       | Err _ => True
       end).
Proof.
  eapply emits_conseq; [apply emits_asked|]. intros r l (a & -> & Ha). exists a. split; [done|].
  destruct a as [y|e]; [|by destruct r]. change (server_answer (N := Traced N)) with (server_answer (N := N)) in Ha.
  subst r. destruct (server_answer y) as [[s|]|e] eqn:E; [by exists y| |done].
  split; [done|]. exists y. split; [done|]. unfold server_answer in E.
  destruct (Z.eqb_spec (cy_status y) NOT_FOUND); [done|]. by destruct (parsed _ _ _).
Qed.

Lemma wait_emits v :
  emits (N := N) (wait_until_volume_gone p (volume_url p v)) (λ r l, r = Ok () → volume_gone p v l).
Proof.
  unfold wait_until_volume_gone. eapply emits_then.
  { apply (emits_settle _ _ _ (λ _ _, True) (λ r l, r = Ok () → volume_gone p v l) _ []);
      [by apply emits_sleep| |done].
    intros _ l0 _. eapply emits_then; [apply (emits_send _ (λ r l, l = [(get_request (volume_url p v), r)]));
      done|].
    intros r l ->. apply emits_ret. rewrite app_nil_r. destruct r as [y|e]; [|done].
    destruct (Z.eqb_spec (cy_status y) NOT_FOUND) as [Hs|_];
      [|destruct (negb _); [done|]; destruct (cy_json y) as [j|]; [|done];
        destruct (any_volume_state j); [|done]; by case_bool_decide].
    intros _. eexists. split; [apply elem_of_app; right; by left|]. split; [done|]. by exists y. }
  intros [r|b] l Hl; apply emits_ret; rewrite app_nil_r; [exact Hl|done].
Qed.

Lemma volume_gone_app v l l' : volume_gone p v l' → volume_gone p v (l ++ l').
Proof. intros (c & Hc & Hm). exists c. split; [|done]. apply elem_of_app. by right. Qed.

Lemma volume_gone_grows v l l' : volume_gone p v l → volume_gone p v (l ++ l').
Proof. intros (c & Hc & Hm). exists c. split; [|done]. apply elem_of_app. by left. Qed.

Lemma delete_volume_emits v :
  emits (N := N) (delete_volume p v) (λ r l, r = Ok () → volume_gone p v l).
Proof.
  unfold delete_volume. eapply emits_then.
  { apply (emits_settle _ _ _ (λ _ _, True) (λ r l, r = Ok () → volume_gone p v l) _ []);
      [by apply emits_sleep| |done].
    intros _ l0 _. eapply emits_then; [by apply (emits_send _ (λ _ _, True))|].
    intros r l _. destruct r as [y|e]; [|by apply emits_ret].
    destruct (_ || _); [|by case_match; apply emits_ret].
    eapply emits_then; [apply wait_emits|]. intros r l' Hl. apply emits_ret. rewrite app_nil_r.
    intros Hr. by apply volume_gone_app, volume_gone_app, Hl. }
  intros [r|b] l Hl; apply emits_ret; rewrite app_nil_r; [exact Hl|done].
Qed.

Lemma delete_volumes_emits provider_id verb vs :
  emits (N := N) (delete_volumes p provider_id verb vs)
    (λ r l, r = Ok () → ∀ v, v ∈ vs → volume_gone p v l).
Proof.
  unfold delete_volumes. set (f := λ leaked v, _).
  assert (Hf : ∀ vs acc, emits (N := N) (st_fold f vs acc)
    (λ leaked l, (leaked = [] → acc = []) ∧ (leaked = [] → ∀ v, v ∈ vs → volume_gone p v l))).
  { clear vs. induction vs as [|v vs IH]; intros acc; cbn [st_fold].
    { apply emits_ret. split; [done|]. intros _ v Hv. inversion Hv. }
    apply (emits_then _ _ (λ acc' l, (acc' = [] → acc = [] ∧ volume_gone p v l))).
    - unfold f. eapply emits_then; [apply delete_volume_emits|]. intros [[]|e] l Hl; apply emits_ret;
        rewrite app_nil_r; [by split; auto|by destruct acc].
    - intros acc' l Hacc. eapply emits_conseq; [apply IH|]. intros leaked l' [Hnil Hall]. split.
      + intros Hn. by apply Hacc, Hnil.
      + intros Hn x Hx. apply elem_of_cons in Hx as [->|Hx].
        * by apply volume_gone_grows, Hacc, Hnil.
        * by apply volume_gone_app, Hall. }
  eapply emits_then; [apply Hf|]. intros leaked l [_ Hl]. apply emits_ret. rewrite app_nil_r.
  destruct leaked; [by intros _; apply Hl|done].
Qed.

(** Calls that neither ask for the server nor delete anything. *)
Definition beside (uuid : string) (l : list Call) : Prop :=
  ∀ c, c ∈ l → c.1 ≠ get_request (server_path p uuid) ∧ cq_method c.1 ≠ "DELETE".

Lemma beside_app uuid l l' : beside uuid l → beside uuid l' → beside uuid (l ++ l').
Proof. intros Hl Hl' c Hc. apply elem_of_app in Hc as [?|?]; auto. Qed.

Lemma beside_one uuid rq a :
  rq ≠ get_request (server_path p uuid) → cq_method rq ≠ "DELETE" → beside uuid [(rq, a)].
Proof. intros H1 H2 c Hc. apply list_elem_of_singleton in Hc. by subst. Qed.

Lemma beside_nil uuid : beside uuid [].
Proof. intros c Hc. inversion Hc. Qed.

Lemma instance_not_block a b : instance_path p a ≠ block_path p b.
Proof. unfold instance_path, block_path. intros E. apply (inj _) in E. discriminate. Qed.

Lemma tag_volume_beside uuid id tags :
  emits (N := N) (tag_volume p id tags) (λ _ l, beside uuid l).
Proof.
  unfold tag_volume. eapply emits_then.
  { apply (emits_settle _ _ _ (λ _ l, beside uuid l) (λ _ l, beside uuid l) _ []);
      [by apply emits_sleep| |apply beside_nil].
    intros _ l0 Hl0. eapply emits_then; [apply (emits_call _ _ (λ r l, beside uuid l));
      intros r; by apply beside_one|].
    intros r l Hl. apply emits_ret. rewrite app_nil_r.
    repeat case_match; simplify_eq; by apply beside_app. }
  intros [r|b] l Hl; apply emits_ret; by rewrite app_nil_r.
Qed.

Lemma ensure_server_tag_beside uuid vs :
  emits (N := N) (ensure_server_tag p uuid vs) (λ _ l, beside uuid l).
Proof.
  unfold ensure_server_tag. generalize (List.filter is_block_storage vs). clear vs.
  intros vs. induction vs as [|v vs IH]; cbn [st_try_each]; [apply emits_ret, beside_nil|].
  apply (emits_try _ _ (λ _ l, beside uuid l));
    [|intros a l Hl; eapply emits_conseq; [apply IH|]; intros ? ? ?; by apply beside_app|by intros e l Hl].
  eapply (emits_try _ _ (λ _ l, beside uuid l)); [|intros [v'|] l Hl|by intros e l Hl].
  - eapply emits_conseq; [apply emits_asked|]. intros r l (a & -> & _). apply beside_one; [|done].
    intros E. injection E as E. by apply eq_sym, instance_not_block in E.
  - destruct (_ && _); [apply emits_ret; by rewrite app_nil_r|].
    eapply emits_conseq; [apply (tag_volume_beside uuid)|]. intros ? ? ?. by apply beside_app.
  - apply emits_ret. by rewrite app_nil_r.
Qed.

(** What the loop knows of the server's volumes. *)
Record tracks (uuid : string) (b : Removal) (log : list Call) : Prop := {
  tk_all v : reported (N := N) p uuid log v → is_Some (rv_volumes b !! sv_id v);
  tk_only k v : rv_volumes b !! k = Some v → sv_id v = k ∧ reported (N := N) p uuid log v;
  tk_verb : rv_requested b = Some "terminated" → terminate_accepted p uuid log
}.

Definition no_volume_deleted (uuid : string) (log : list Call) : Prop :=
  ∀ c, c ∈ log → cq_method c.1 = "DELETE" → cq_url c.1 = server_path p uuid.

Lemma reported_grows uuid log l v :
  reported (N := N) p uuid log v → reported (N := N) p uuid (log ++ l) v.
Proof.
  intros (r & s & k & Hin & Hs). exists r, s, k. split; [|done]. apply elem_of_app. by left.
Qed.

Lemma tracks_beside uuid b log l :
  tracks uuid b log → (∀ c, c ∈ l → c.1 ≠ get_request (server_path p uuid)) →
  tracks uuid b (log ++ l).
Proof.
  intros [Ha Ho Hv] Hb. split.
  - intros v (r & s & k & Hin & Hs). apply Ha. exists r, s, k. split; [|done].
    apply elem_of_app in Hin as [?|Hin]; [done|]. by destruct (Hb _ Hin).
  - intros k v Hk. destruct (Ho _ _ Hk) as [? Hr]. split; [done|]. by apply reported_grows.
  - intros Hr. destruct (Hv Hr) as (r & Hin & Hs). exists r. split; [|done].
    apply elem_of_app. by left.
Qed.

Hypothesis Horder : ∀ l, cloud_map_order (N := N) l ≡ₚ l.

Lemma elem_of_values {A} (m : gmap string A) (x : A) :
  x ∈ values (N := N) m ↔ ∃ k, m !! k = Some x.
Proof.
  unfold values. rewrite list_elem_of_omap. split; [naive_solver|]. intros [k Hk]. exists k.
  split; [|done]. rewrite Horder. apply list_elem_of_fmap. exists (k, x). split; [done|].
  by apply elem_of_map_to_list.
Qed.

Lemma insert_all_lookup (vs : list ServerVolume) (m : gmap string ServerVolume) k :
  let m' := foldl (λ m v, <[sv_id v := v]> m) m vs in
  (is_Some (m !! k) ∨ (∃ v, v ∈ vs ∧ sv_id v = k) → is_Some (m' !! k)) ∧
  (∀ v, m' !! k = Some v → (v ∈ vs ∧ sv_id v = k) ∨ m !! k = Some v).
Proof.
  revert m. induction vs as [|v vs IH]; intros m; cbn [foldl].
  { split; [|by right]. intros [?|(v & Hv & _)]; [done|inversion Hv]. }
  destruct (IH (<[sv_id v := v]> m)) as [Hs Ho]. split.
  - intros Hk. apply Hs. destruct (decide (sv_id v = k)) as [Hv|Hv].
    { left. exists v. by rewrite Hv, lookup_insert_eq. }
    destruct Hk as [Hk|(v' & Hin & Hid)]; [left; by rewrite lookup_insert_ne|right].
    apply elem_of_cons in Hin as [->|?]; [done|]. by exists v'.
  - intros v' Hv'. destruct (Ho _ Hv') as [[? ?]|Hm]; [left; split; [by right|done]|].
    destruct (decide (sv_id v = k)) as [Hv|Hv].
    + rewrite Hv, lookup_insert_eq in Hm. injection Hm as <-. left. split; [by left|done].
    + rewrite lookup_insert_ne in Hm by done. by right.
Qed.

Lemma tracks_seen uuid b log y s :
  tracks uuid b log → server_answer (N := N) y = Ok (Some s) →
  tracks uuid (with_seen (N := N) s b) (log ++ [(get_request (server_path p uuid), Ok y)]).
Proof.
  intros [Ha Ho Hv] Hy.
  assert (Hnew : ∀ k v, se_volumes s !! k = Some v →
    reported (N := N) p uuid (log ++ [(get_request (server_path p uuid), Ok y)]) v).
  { intros k v Hk. exists y, s, k. split; [|done]. apply elem_of_app. right. by left. }
  split; cbn [with_seen rv_volumes rv_requested].
  - intros v (r & s' & k & Hin & Hs & Hk). apply insert_all_lookup.
    apply elem_of_app in Hin as [Hin|Hin].
    + left. apply Ha. by exists r, s', k.
    + right. apply list_elem_of_singleton in Hin. injection Hin as ->. rewrite Hy in Hs.
      injection Hs as <-. exists v. split; [|done]. apply elem_of_values. by exists k.
  - intros k v Hk. apply insert_all_lookup in Hk as [[Hin Hid]|Hk].
    + split; [done|]. apply elem_of_values in Hin as [k' Hk']. by eapply Hnew.
    + destruct (Ho _ _ Hk). split; [done|]. by apply reported_grows.
  - intros Hr. destruct (Hv Hr) as (r & Hin & Hs). exists r. split; [|done].
    apply elem_of_app. by left.
Qed.

Lemma no_volume_deleted_app uuid l l' :
  no_volume_deleted uuid l → (∀ c, c ∈ l' → cq_method c.1 ≠ "DELETE") →
  no_volume_deleted uuid (l ++ l').
Proof. intros Hl Hl' c Hc Hm. apply elem_of_app in Hc as [?|?]; [auto|by destruct (Hl' c)]. Qed.

Definition removed (uuid : string) (r : result Removal ProviderError.t) (l : list Call) : Prop :=
  match r with
  | Ok b => ∃ before c, l = before ++ [c] ∧ server_gone p uuid c ∧ tracks uuid b before ∧
              no_volume_deleted uuid before
  | Err _ => True
  end.

Lemma remove_server_emits provider_id uuid state b l0 :
  tracks uuid b l0 → no_volume_deleted uuid l0 → rv_requested b = None →
  emits (N := N) (remove_server p provider_id uuid state b)
    (λ r l, match r with
            | inl r => removed uuid r (l0 ++ l)
            | inr b => tracks uuid b (l0 ++ l) ∧ no_volume_deleted uuid (l0 ++ l)
            end).
Proof.
  intros Ht Hn Hreq. unfold remove_server.
  destruct (String.eqb state "running"); [|destruct (is_stopped state); [|destruct (_ || _)]].
  - eapply emits_then; [apply emits_asked|]. intros r l (a & -> & Ha). apply emits_ret.
    rewrite app_nil_r. destruct a as [y|e]; [|by destruct r].
    destruct (Z.eqb_spec (cy_status y) NOT_FOUND) as [Hs|Hs]; subst r.
    { eexists _, _. split; [done|]. split; [|done]. right. split; [done|]. by exists y. }
    destruct (is_success (cy_status y)) eqn:Eok; [|done]. split.
    + destruct (tracks_beside uuid b l0 [(request p "POST" (server_path p uuid +:+ "/action") []
        (JsonBody (JObj [("action", JStr "terminate")])), Ok y)] Ht) as [Ha Ho _].
      { intros c Hc. apply list_elem_of_singleton in Hc. by subst. }
      split; [exact Ha|exact Ho|]. intros _. exists y. split; [|done]. apply elem_of_app. right. by left.
    + apply no_volume_deleted_app; [done|]. intros c Hc. apply list_elem_of_singleton in Hc. by subst.
  - eapply emits_then; [apply emits_asked|]. intros r l (a & -> & Ha). apply emits_ret.
    rewrite app_nil_r. destruct r as [[]|e]; [|done]. split.
    + destruct (tracks_beside uuid b l0 [(request p "DELETE" (server_path p uuid) [] NoBody, a)] Ht)
        as [Hal Ho _]; [|by split].
      intros c Hc. apply list_elem_of_singleton in Hc. by subst.
    + intros c Hc Hm. apply elem_of_app in Hc as [Hc|Hc]; [by apply Hn|].
      apply list_elem_of_singleton in Hc. by subst.
  - apply emits_ret. by rewrite app_nil_r.
  - by apply emits_ret.
Qed.

Definition carried_on (uuid : string) (r : result Removal ProviderError.t + Removal)
    (l : list Call) : Prop :=
  match r with
  | inl r => removed uuid r l
  | inr b => tracks uuid b l ∧ no_volume_deleted uuid l
  end.

Lemma tag_first_beside uuid b (state : string) :
  emits (N := N) (if String.eqb state "running" || is_stopped state
      then ensure_server_tag p uuid (values (N := Traced N) (rv_volumes b)) else st_ret (Ok ()))
    (λ _ l, beside uuid l).
Proof. destruct (_ || _); [apply ensure_server_tag_beside|apply emits_ret, beside_nil]. Qed.

Lemma removal_poll_emits provider_id uuid b l0 :
  tracks uuid b l0 → no_volume_deleted uuid l0 →
  emits (N := N) (removal_poll p provider_id uuid b) (λ r l, carried_on uuid r (l0 ++ l)).
Proof.
  intros Ht Hn. unfold removal_poll. eapply emits_then; [apply get_server_emits|].
  intros r l (a & -> & Hr). destruct r as [[s|]|e].
  - destruct Hr as (y & -> & Hy). change (with_seen (N := Traced N)) with (with_seen (N := N)).
    pose proof (tracks_seen _ _ _ _ _ Ht Hy) as Ht'.
    assert (Hn' : no_volume_deleted uuid (l0 ++ [(get_request (server_path p uuid), Ok y)])).
    { apply no_volume_deleted_app; [done|]. intros c Hc. apply list_elem_of_singleton in Hc. by subst. }
    destruct (rv_requested (with_seen s b)) eqn:Ereq; [apply emits_ret; by rewrite app_nil_r|].
    apply (emits_then _ _ _ _ (tag_first_beside _ _ _)). intros t l Hl.
    destruct t as [[]|e]; [|by apply emits_ret].
    eapply emits_conseq; [apply (remove_server_emits provider_id uuid (se_state s) (with_seen s b)
      ((l0 ++ [(get_request (server_path p uuid), Ok y)]) ++ l)); [| |done]|].
    + apply tracks_beside; [done|]. intros c Hc. by apply Hl.
    + apply no_volume_deleted_app; [done|]. intros c Hc. by apply Hl.
    + intros r l'. by rewrite <-!app_assoc.
  - apply emits_ret. rewrite app_nil_r. eexists _, _. split; [done|]. split; [by left|done].
  - by apply emits_ret.
Qed.

Lemma tracks_nothing uuid : tracks uuid {| rv_volumes := ∅; rv_requested := None |} [].
Proof. split; cbn; [|done|done]. intros v (r & s & k & Hin & _). inversion Hin. Qed.

Lemma removal_emits n provider_id uuid :
  emits (N := N) (settle n (pause p) (removal_poll p provider_id uuid)
      {| rv_volumes := ∅; rv_requested := None |}) (carried_on uuid).
Proof.
  apply (emits_settle _ _ _ (λ b l, tracks uuid b l ∧ no_volume_deleted uuid l) (removed uuid) _ []).
  - by apply emits_sleep.
  - intros b l0 [Ht Hn]. by apply removal_poll_emits.
  - split; [apply tracks_nothing|]. intros c Hc. inversion Hc.
Qed.

Lemma add_tagged_lookup (l : list BlockVolume) (m : gmap string ServerVolume) k :
  (is_Some (m !! k) ∨ (∃ v, v ∈ l ∧ bv_id v = k) → is_Some (add_tagged l m !! k)) ∧
  (∀ v, add_tagged l m !! k = Some v →
     m !! k = Some v ∨
     v = {| sv_id := k; sv_volume_type := "sbs_volume" |} ∧ ∃ x, x ∈ l ∧ bv_id x = k).
Proof.
  unfold add_tagged. revert m. induction l as [|x l IH]; intros m; cbn [foldl].
  { split; [|by left]. intros [?|(v & Hv & _)]; [done|inversion Hv]. }
  set (m1 := match m !! bv_id x with Some _ => m | None => _ end). destruct (IH m1) as [Hs Ho].
  assert (Hx : is_Some (m1 !! bv_id x)).
  { unfold m1. destruct (m !! bv_id x) eqn:E; [by rewrite E|]. rewrite lookup_insert_eq. by eexists. }
  assert (Hkeep : is_Some (m !! k) → is_Some (m1 !! k)).
  { intros Hk. unfold m1. destruct (m !! bv_id x) eqn:E; [done|].
    destruct (decide (bv_id x = k)) as [<-|?]; [by rewrite lookup_insert_eq|by rewrite lookup_insert_ne]. }
  split.
  - intros Hk. apply Hs. destruct Hk as [Hk|(v & Hv & Hid)]; [by left; apply Hkeep|].
    apply elem_of_cons in Hv as [->|Hv]; [left; by rewrite <-Hid|right; by exists v].
  - intros v Hv. destruct (Ho v Hv) as [Hm|[-> (y & Hy & Hid)]].
    + unfold m1 in Hm. destruct (m !! bv_id x) eqn:E; [by left|].
      destruct (decide (bv_id x = k)) as [<-|?].
      * rewrite lookup_insert_eq in Hm. injection Hm as <-. right. split; [done|].
        exists x. split; [by left|done].
      * rewrite lookup_insert_ne in Hm by done. by left.
    + right. split; [done|]. exists y. split; [by right|done].
Qed.

(** Everything a removal could leave is accounted for: the volume was seen gone, or the
    server was terminated and the volume is local to it. *)
Definition accounted (uuid : string) (before deletions : list Call) (id : string) : Prop :=
  ∃ v, sv_id v = id ∧
    (volume_gone p v deletions ∨
     terminate_accepted p uuid before ∧ deleted_by_terminate v = true ∧
     reported (N := N) p uuid before v).

Lemma leftovers_accounted uuid b before tagged deletions k :
  tracks uuid b before →
  (∀ v, v ∈ leftovers (N := N) b (add_tagged tagged (rv_volumes b)) → volume_gone p v deletions) →
  is_Some (add_tagged tagged (rv_volumes b) !! k) → accounted uuid before deletions k.
Proof.
  intros [_ Ho Hv] Hgone [v Hk]. destruct (proj2 (add_tagged_lookup _ _ _) _ Hk) as [Hm|[-> _]].
  - destruct (Ho _ _ Hm) as [Hid Hrep]. exists v. split; [done|].
    destruct (bool_decide (rv_requested b = Some "terminated") && deleted_by_terminate v) eqn:E.
    + apply andb_prop in E as [E1 E2]. apply bool_decide_eq_true in E1. right. by split; [apply Hv|].
    + left. apply Hgone. unfold leftovers. apply list_elem_of_In, filter_In. rewrite E.
      split; [|done]. apply list_elem_of_In, elem_of_values. by exists k.
  - eexists. split; [|left; apply Hgone; unfold leftovers; apply list_elem_of_In, filter_In;
      split; [apply list_elem_of_In, elem_of_values; by exists k|]]; [done|].
    cbn. by rewrite andb_false_r.
Qed.

Lemma list_block_volumes_emits tag :
  emits (N := N) (list_block_volumes p tag)
    (λ r l, ∀ vs, r = Ok vs → ∃ rows, vs = List.filter (our_volume p tag) rows ∧
       listed_in_full (read_volumes (N := N)) (volumes_page p tag) bv_id l rows).
Proof.
  unfold list_block_volumes. eapply emits_try; [apply every_page_emits| |done].
  intros rows l Hl. apply emits_ret. rewrite app_nil_r. intros vs [= <-]. exists rows.
  split; [done|]. by apply Hl.
Qed.

Lemma remove_leftovers_emits provider_id uuid b before :
  tracks uuid b before →
  emits (N := N) (remove_leftovers p provider_id uuid b)
    (λ r l, r = Ok () → ∃ listing rows deletions, l = listing ++ deletions ∧
       listed_in_full (read_volumes (N := N)) (volumes_page p (server_tag uuid)) bv_id listing rows ∧
       (∀ v, reported (N := N) p uuid before v → accounted uuid before deletions (sv_id v)) ∧
       (∀ v, v ∈ rows → our_volume p (server_tag uuid) v = true →
          accounted uuid before deletions (bv_id v))).
Proof.
  intros Ht. unfold remove_leftovers. eapply emits_then; [apply list_block_volumes_emits|].
  intros lookup l Hl. eapply emits_try; [apply delete_volumes_emits| |done].
  intros [] l' Hl'. apply emits_ret. rewrite app_nil_r. destruct lookup as [vs|e]; [|done]. intros _.
  destruct (Hl vs eq_refl) as (rows & -> & Hrows). specialize (Hl' eq_refl).
  exists l, rows, l'. split; [done|]. split; [done|]. split.
  - intros v Hv. eapply leftovers_accounted; [done|exact Hl'|].
    apply add_tagged_lookup. left. by apply (tk_all _ _ _ Ht).
  - intros v Hv Hour. eapply leftovers_accounted; [done|exact Hl'|].
    apply add_tagged_lookup. right. exists v. split; [|done].
    by apply list_elem_of_In, filter_In; split; [apply list_elem_of_In|].
Qed.

Lemma local_uuid_zoned provider_id uuid :
  local_uuid p provider_id = Ok uuid → provider_id = zoned p uuid.
Proof.
  unfold local_uuid. destruct (split_once _ provider_id) as [[zone u]|] eqn:E; [|done].
  destruct (_ && _) eqn:Ec; [|done]. intros [= <-].
  apply andb_prop in Ec as [Ec _]. apply andb_prop in Ec as [Ec _]. apply String.eqb_eq in Ec.
  apply split_once_Some in E as [-> _]. by subst.
Qed.

(** C10. A destroy that succeeds has left nothing that bills: Scaleway answered that the server is
    gone, no volume was deleted before that, the volumes tagged for the server were then
    listed in full, and every one of them, as well as every volume any GET of the server
    had shown, was seen gone afterwards, unless the server was terminated and the volume
    is of a kind a terminate deletes. The cloud may answer anything. *)
Theorem destroy_ok_means_gone (provider_id : string) (log calls : list Call) (n n' : N) :
  scw_destroy p provider_id (log, n) = (Ok (), (calls, n')) →
  ∃ uuid before gone listing rows deletions,
    provider_id = zoned p uuid ∧ calls = log ++ before ++ gone :: listing ++ deletions ∧
    server_gone p uuid gone ∧ no_volume_deleted uuid before ∧
    listed_in_full (read_volumes (N := N)) (volumes_page p (server_tag uuid)) bv_id listing rows ∧
    (∀ v, reported (N := N) p uuid before v → accounted uuid before deletions (sv_id v)) ∧
    (∀ v, v ∈ rows → our_volume p (server_tag uuid) v = true →
       accounted uuid before deletions (bv_id v)).
Proof.
  unfold scw_destroy. destruct (local_uuid p provider_id) as [uuid|e] eqn:Eid; [|done]. intros E.
  match type of E with ?m _ = _ => assert (Hm : emits m (λ r l, r = Ok () →
    ∃ before gone listing rows deletions, l = before ++ gone :: listing ++ deletions ∧
      server_gone p uuid gone ∧ no_volume_deleted uuid before ∧
      listed_in_full (read_volumes (N := N)) (volumes_page p (server_tag uuid)) bv_id listing rows ∧
      (∀ v, reported (N := N) p uuid before v → accounted uuid before deletions (sv_id v)) ∧
      (∀ v, v ∈ rows → our_volume p (server_tag uuid) v = true →
         accounted uuid before deletions (bv_id v)))) end.
  { eapply emits_then; [apply removal_emits|]. intros [[b|e]|b] l Hl; [|by apply emits_ret..].
    destruct Hl as (before & gone & -> & Hg & Ht & Hn).
    eapply emits_conseq; [by apply (remove_leftovers_emits provider_id uuid b before)|].
    intros r l' Hl' Hr. destruct (Hl' Hr) as (listing & rows & deletions & -> & ?).
    exists before, gone, listing, rows, deletions. by rewrite <-app_assoc. }
  destruct (Hm (log, n)) as (l & El & Hl). rewrite E in El, Hl. cbn in El. subst calls.
  destruct (Hl eq_refl) as (before & gone & listing & rows & deletions & -> & ?).
  exists uuid, before, gone, listing, rows, deletions. split; [by apply local_uuid_zoned|done].
Qed.
End destroying.

(** ** Whom a destroy touches *)
Section touching.
Context {N : Type} `{Cloud N} (p : ScalewayProvider).

(** [asks P]: a step that only adds calls whose request satisfies [P]. *)
Definition asks (P : CloudRequest → Prop) (w w' : Traced N) : Prop :=
  ∃ l, w'.1 = w.1 ++ l ∧ ∀ c, c ∈ l → P c.1.

#[local] Instance asks_preorder P : PreOrder (asks P).
Proof.
  split.
  - intros w. exists []. rewrite app_nil_r. split; [done|]. intros c Hc. inversion Hc.
  - intros a b c (l & El & Hl) (l' & El' & Hl'). exists (l ++ l'). rewrite El', El, app_assoc.
    split; [done|]. intros x Hx. apply elem_of_app in Hx as [?|?]; auto.
Qed.

Lemma asks_send P rq : P rq → st_rel (asks P) (cloud_send (N := Traced N) rq).
Proof.
  intros HP w. cbn. destruct (cloud_send rq w.2) as [r n]. exists [(rq, r)]. split; [done|].
  intros c Hc. apply list_elem_of_singleton in Hc. by subst.
Qed.

Lemma asks_sleep P d : st_rel (asks P) (cloud_sleep (N := Traced N) d).
Proof.
  intros w. cbn. destruct (cloud_sleep d w.2) as [[] n]. exists []. rewrite app_nil_r.
  split; [done|]. intros c Hc. inversion Hc.
Qed.

Lemma asks_call P what rq : P rq → st_rel (asks P) (call (N := Traced N) what rq).
Proof. intros HP. unfold call. apply st_rel_bind; [apply _|by apply asks_send|]. intros. by apply st_rel_ret; apply _. Qed.

Lemma asks_settle {A B} P n wait (body : B → st (Traced N) (A + B)) b :
  st_rel (asks P) wait → (∀ b, st_rel (asks P) (body b)) → st_rel (asks P) (settle n wait body b).
Proof.
  intros Hw Hb. revert b. induction n as [|n IH]; intros b; cbn [settle];
    (apply st_rel_bind; [apply _|apply Hb|]); intros [a|b']; repeat first [apply IH | exact Hw | st_step].
Qed.

Definition is_get (rq : CloudRequest) : Prop := cq_method rq = "GET".
Definition on_url (urls : list string) (rq : CloudRequest) : Prop := is_get rq ∨ cq_url rq ∈ urls.

Ltac asks_step := first
  [ apply asks_settle; [apply asks_sleep || (apply st_rel_ret; apply _)|intros ?]
  | apply asks_call | apply asks_send | apply asks_sleep | st_step ].

Lemma get_asks urls uuid : st_rel (asks (on_url urls)) (get_server (N := Traced N) p uuid).
Proof. unfold get_server. repeat asks_step. by left. Qed.

Lemma pages_ask {A} P what lister carry (id : A → string) read rq :
  (∀ k, P (rq k)) → st_rel (asks P) (every_page (N := Traced N) what lister carry id read rq).
Proof. intros HP. unfold every_page, fetch_page. repeat asks_step. apply HP. Qed.

Lemma list_volumes_asks urls tag :
  st_rel (asks (on_url urls)) (list_block_volumes (N := Traced N) p tag).
Proof. unfold list_block_volumes. st_step; [|asks_step]. apply pages_ask. intros k. by left. Qed.

Lemma tag_volume_asks urls id tags :
  block_volume_path p id ∈ urls →
  st_rel (asks (on_url urls)) (tag_volume (N := Traced N) p id tags).
Proof. intros Hin. unfold tag_volume. repeat asks_step. by right. Qed.

Lemma ensure_asks urls uuid vs :
  (∀ v, v ∈ vs → block_volume_path p (sv_id v) ∈ urls) →
  st_rel (asks (on_url urls)) (ensure_server_tag (N := Traced N) p uuid vs).
Proof.
  intros Hin. unfold ensure_server_tag. st_step.
  apply list_elem_of_In, filter_In in H0 as [Hv _]. apply list_elem_of_In, Hin in Hv.
  unfold get_block_volume. repeat first [by apply tag_volume_asks | asks_step]. by left.
Qed.

Lemma remove_server_asks provider_id uuid state b :
  st_rel (asks (on_url [server_path p uuid; server_path p uuid +:+ "/action"]))
    (remove_server (N := Traced N) p provider_id uuid state b).
Proof.
  unfold remove_server, server_action, delete_server. repeat asks_step; right; cbn; set_solver.
Qed.

Lemma delete_volumes_asks urls provider_id verb vs :
  (∀ v, v ∈ vs → volume_url p v ∈ urls) →
  st_rel (asks (on_url urls)) (delete_volumes (N := Traced N) p provider_id verb vs).
Proof.
  intros Hin. unfold delete_volumes. st_step; [|asks_step]. st_step.
  unfold delete_volume, wait_until_volume_gone.
  repeat asks_step; first [by left | right; by apply Hin].
Qed.

(** What has been said to belong to the server: the volumes its GETs listed, and those of
    our project that carry its tag. *)
Definition known (uuid : string) (log : list Call) (id : string) : Prop :=
  (∃ v, reported (N := N) p uuid log v ∧ sv_id v = id) ∨
  (∃ page r rows total v, (volumes_page p (server_tag uuid) page, Ok r) ∈ log ∧
     read_volumes (N := N) r = Ok (rows, total) ∧ v ∈ rows ∧
     our_volume p (server_tag uuid) v = true ∧ bv_id v = id).

Definition own_call (uuid : string) (log : list Call) (rq : CloudRequest) : Prop :=
  is_get rq ∨ cq_url rq = server_path p uuid ∨ cq_url rq = server_path p uuid +:+ "/action" ∨
  ∃ id, known uuid log id ∧
    (cq_url rq = block_volume_path p id ∨ cq_url rq = instance_path p ("/volumes/" +:+ id)).

Definition own_calls (uuid : string) (log : list Call) : Prop :=
  ∀ before c after, log = before ++ c :: after → own_call uuid before c.1.

Lemma known_grows uuid log l id : known uuid log id → known uuid (log ++ l) id.
Proof.
  intros [(v & Hv & Hid)|(k & r & rows & total & v & Hin & Hrest)].
  - left. exists v. split; [by apply reported_grows|done].
  - right. exists k, r, rows, total, v. split; [apply elem_of_app; by left|done].
Qed.

Lemma own_calls_app uuid log l :
  own_calls uuid log → (∀ c, c ∈ l → own_call uuid log c.1) → own_calls uuid (log ++ l).
Proof.
  intros Ho Hl before c after E. apply app_eq_app in E as (m & [[-> E]|[-> E]]).
  - destruct m as [|c' m].
    + cbn in E. destruct (Hl c) as [?|[?|[?|(id & Hk & Hu)]]]; [rewrite <-E; by left| | | |].
      * by left.
      * by right; left.
      * by right; right; left.
      * right; right; right. exists id. split; [|done]. by rewrite app_nil_r in Hk.
    + injection E as <- ->. by apply (Ho before c m).
  - destruct (Hl c) as [?|[?|[?|(id & Hk & Hu)]]]; [rewrite E; apply elem_of_app; right; by left| | | |].
    + by left.
    + by right; left.
    + by right; right; left.
    + right; right; right. exists id. split; [by apply known_grows|done].
Qed.

(** Calls to addresses that belong to the server. *)
Lemma own_calls_urls {A} uuid log urls (m : st (Traced N) A) :
  own_calls uuid log → st_rel (asks (on_url urls)) m →
  (∀ u, u ∈ urls → u = server_path p uuid ∨ u = server_path p uuid +:+ "/action" ∨
     ∃ id, known uuid log id ∧ (u = block_volume_path p id ∨ u = instance_path p ("/volumes/" +:+ id))) →
  emits m (λ _ l, own_calls uuid (log ++ l)).
Proof.
  intros Ho Hm Hu w. destruct (Hm w) as (l & El & Hl). exists l. split; [done|].
  apply own_calls_app; [done|]. intros c Hc. destruct (Hl c Hc) as [?|Hin]; [by left|].
  right. by apply Hu.
Qed.

Hypothesis Horder : ∀ l, cloud_map_order (N := N) l ≡ₚ l.

Lemma emits_and {A} (m : st (Traced N) A) P Q :
  emits m P → emits m Q → emits m (λ a l, P a l ∧ Q a l).
Proof.
  intros HP HQ w. destruct (HP w) as (l & El & Hl), (HQ w) as (l' & El' & Hl').
  rewrite El in El'. apply app_inv_head in El'. subst l'. by exists l.
Qed.

Lemma removal_poll_own provider_id uuid b l0 :
  tracks (N := N) p uuid b l0 → own_calls uuid l0 →
  emits (removal_poll (N := Traced N) p provider_id uuid b) (λ _ l, own_calls uuid (l0 ++ l)).
Proof.
  intros Ht Ho. unfold removal_poll. eapply emits_then.
  { apply emits_and; [apply get_server_emits|].
    apply (own_calls_urls uuid l0 [] _ Ho); [apply get_asks|]. intros u Hu. inversion Hu. }
  intros r l [(a & -> & Hr) Ho1]. destruct r as [[s|]|e]; [|apply emits_ret; by rewrite app_nil_r..].
  destruct Hr as (y & -> & Hy). change (with_seen (N := Traced N)) with (with_seen (N := N)).
  pose proof (tracks_seen _ Horder _ _ _ _ _ Ht Hy) as Ht'.
  destruct (rv_requested (with_seen s b)); [apply emits_ret; by rewrite app_nil_r|].
  set (l1 := l0 ++ _) in *. apply (emits_then _ _ (λ _ l, own_calls uuid (l1 ++ l))).
  { destruct (_ || _); [|apply emits_ret; rewrite app_nil_r; exact Ho1].
    apply (own_calls_urls uuid l1 ((λ v, block_volume_path p (sv_id v)) <$>
      values (N := N) (rv_volumes (with_seen (N := N) s b)))); [exact Ho1| |].
    - apply ensure_asks. intros v Hv. by apply (list_elem_of_fmap_2 (λ v, block_volume_path p (sv_id v))).
    - intros u Hu. apply list_elem_of_fmap in Hu as (v & -> & Hv). right; right.
      apply elem_of_values in Hv as [k Hk]; [|done]. destruct (tk_only _ _ _ _ Ht' _ _ Hk) as [Hid Hrep].
      exists (sv_id v). split; [|by left]. left. by exists v. }
  intros t l Ho2. destruct t as [[]|e];
    [|apply emits_ret; rewrite app_nil_r, app_assoc; exact Ho2].
  eapply emits_conseq; [eapply own_calls_urls; [exact Ho2|apply remove_server_asks|]|].
  - intros u Hu. set_solver.
  - intros r l' Hl'. unfold l1 in Hl'. by rewrite !app_assoc in *.
Qed.

Lemma leftovers_known uuid b before l (lookup : result (list BlockVolume) ProviderError.t) k v :
  (∀ k v, rv_volumes b !! k = Some v → reported (N := N) p uuid before v) →
  (∀ vs, lookup = Ok vs → ∃ rows, vs = List.filter (our_volume p (server_tag uuid)) rows ∧
     listed_in_full (read_volumes (N := N)) (volumes_page p (server_tag uuid)) bv_id l rows) →
  match lookup with
  | Ok tagged => add_tagged tagged (rv_volumes b)
  | Err _ => rv_volumes b
  end !! k = Some v → known uuid (before ++ l) (sv_id v).
Proof.
  intros Ht Hl Hk.
  assert (Hrep : rv_volumes b !! k = Some v → known uuid (before ++ l) (sv_id v)).
  { intros Hm. left. exists v.
    split; [by eapply reported_grows, Ht|done]. }
  destruct lookup as [vs|e]; [|by apply Hrep].
  destruct (proj2 (add_tagged_lookup _ _ _) _ Hk) as [Hm|[-> (x & Hx & Hid)]]; [by apply Hrep|].
  destruct (Hl vs eq_refl) as (rows & -> & Hp & _). apply list_elem_of_In, filter_In in Hx as [Hx Hour].
  apply list_elem_of_In, (pages_in _ _ _ _ _ _ Hp) in Hx as (page & r & rows' & total & Hin & Hr & Hx).
  right. exists page, r, rows', total, x. split; [apply elem_of_app; by right|done].
Qed.

Lemma remove_leftovers_own provider_id uuid b before :
  (∀ k v, rv_volumes b !! k = Some v → reported (N := N) p uuid before v) → own_calls uuid before →
  emits (remove_leftovers (N := Traced N) p provider_id uuid b) (λ _ l, own_calls uuid (before ++ l)).
Proof.
  intros Ht Ho. unfold remove_leftovers. eapply emits_then.
  { apply emits_and; [apply list_block_volumes_emits|].
    apply (own_calls_urls uuid _ [] _ Ho); [apply list_volumes_asks|]. intros u Hu. inversion Hu. }
  intros lookup l [Hl Ho1].
  apply (emits_try _ _ (λ _ l', own_calls uuid ((before ++ l) ++ l')));
    [|intros u l' Ho2; apply emits_ret; rewrite app_nil_r, app_assoc in *; exact Ho2
     |intros e l' Ho2; by rewrite app_assoc in *].
  set (vols := match lookup with Ok _ => _ | Err _ => _ end).
  apply (own_calls_urls uuid _ (volume_url p <$> leftovers (N := N) b vols)); [exact Ho1| |].
  - apply delete_volumes_asks. intros v Hv. by apply list_elem_of_fmap_2.
  - intros u Hu. apply list_elem_of_fmap in Hu as (v & -> & Hv). right; right.
    unfold leftovers in Hv. apply list_elem_of_In, filter_In in Hv as [Hv _].
    apply list_elem_of_In, elem_of_values in Hv as [k Hk]; [|done].
    exists (sv_id v). split; [|unfold volume_url; destruct (is_block_storage v); auto].
    by eapply leftovers_known.
Qed.

(** C11. A destroy touches nothing but its own server: whatever the cloud answers, every call
    that is not a GET goes to that server, or to a volume that a GET of the server, or the
    list of our project's volumes carrying its tag, had named before. An id of another zone
    makes no call at all. *)
Theorem destroy_touches_only_its_own (provider_id : string) (n : N) :
  let '(r, (calls, _)) := scw_destroy p provider_id ([], n) in
  match local_uuid p provider_id with
  | Ok uuid => provider_id = zoned p uuid ∧ own_calls uuid calls
  | Err e => calls = [] ∧ r = Err e ∧ ProviderError.needs_human e = true
  end.
Proof.
  unfold scw_destroy. destruct (local_uuid p provider_id) as [uuid|e] eqn:Eid.
  2: { split; [done|]. split; [done|]. revert Eid. unfold local_uuid.
       repeat case_match; by intros [= <-]. }
  match goal with |- context [let '(_, _) := ?m ([], n) in _] =>
    assert (Hm : emits m (λ _ l, own_calls uuid l)) end.
  { eapply emits_then.
    { apply (emits_settle _ _ _
        (λ b l, (tracks (N := N) p uuid b l ∧ no_volume_deleted p uuid l) ∧ own_calls uuid l)
        (λ r l, removed (N := N) p uuid r l ∧ own_calls uuid l) _ []).
      - by apply emits_sleep.
      - intros b l0 [[Ht Hn] Ho]. eapply emits_conseq; [apply emits_and;
          [by apply (removal_poll_emits p Horder provider_id uuid b l0)
          |by apply (removal_poll_own provider_id uuid b l0)]|].
        intros [r|b'] l [Hc Hl]; by split.
      - split; [split; [apply tracks_nothing|intros c Hc; inversion Hc]|].
        intros before c after E. by destruct before. }
    intros [[b|e]|b] l [Hl Ho]; cbn [app] in *; [|apply emits_ret; by rewrite app_nil_r..].
    destruct Hl as (before & gone & -> & _ & Ht & _).
    apply remove_leftovers_own; [|exact Ho].
    intros k v Hkv. apply reported_grows. by apply (tk_only _ _ _ _ Ht _ _ Hkv). }
  match goal with |- let '(_, _) := ?m ([], n) in _ => destruct (Hm ([], n)) as (l & El & Hl);
    destruct (m ([], n)) as [r [calls n']] end. cbn in *. subst.
  split; [by apply local_uuid_zoned|done].
Qed.
End touching.

(** ** Listing *)
Section listing.
Context {N : Type} `{Cloud N} (p : ScalewayProvider).

(** A volume of the fleet that no server holds, and the server it was made for. *)
Definition strandable (v : BlockVolume) (uuid : string) : Prop :=
  our_volume p (sp_fleet_tag p) v = true ∧ bv_status v = "available" ∧ is_detached v = true ∧
  volume_server_tag v = Some uuid.

Definition stranded_handle (v : BlockVolume) (uuid : string) : InstanceHandle := {|
  ih_provider_id := zoned p uuid; ih_public_ip := None; ih_created_at := bv_created_at v |}.

Definition answered_there (uuid : string) (log : list Call) : Prop :=
  ∃ r s, (request p "GET" (server_path p uuid) [] NoBody, Ok r) ∈ log ∧
    server_answer (N := N) r = Ok (Some s).

Definition answered_gone (uuid : string) (log : list Call) : Prop :=
  ∃ c, c ∈ log ∧ missing (request p "GET" (server_path p uuid) [] NoBody) c.

(** What one volume adds. *)
Definition stranded_step (log : list Call) (v : BlockVolume)
    (acc acc' : list string * list InstanceHandle) : Prop :=
  acc' = acc ∧ (∀ u, bv_status v = "available" → is_detached v = true →
    volume_server_tag v = Some u → u ∈ acc.1 ∨ answered_there u log) ∨
  ∃ u, bv_status v = "available" ∧ is_detached v = true ∧ volume_server_tag v = Some u ∧
    u ∉ acc.1 ∧ answered_gone u log ∧
    acc' = (acc.1 ++ [u], acc.2 ++ [stranded_handle v u]).

Lemma stranded_emits acc v :
  emits (N := N) (stranded p acc v) (λ r l, ∀ acc', r = Ok acc' → stranded_step l v acc acc').
Proof.
  unfold stranded.
  destruct (String.eqb_spec (bv_status v) "available") as [Hav|Hav];
    [|apply emits_ret; intros ? [= <-]; left; split; [done|]; intros u Ha; done].
  destruct (is_detached v) eqn:Ed; cbn [negb orb];
    [|apply emits_ret; intros ? [= <-]; left; split; [done|]; intros u _ Hd; by rewrite Ed in Hd].
  destruct (volume_server_tag v) as [u|] eqn:Eu;
    [|apply emits_ret; intros ? [= <-]; left; split; [done|]; intros u _ _ Hu; by rewrite Eu in Hu].
  case_bool_decide as Hin.
  { apply emits_ret. intros ? [= <-]. left. split; [done|]. intros u' _ _ Hu'. rewrite Eu in Hu'.
    injection Hu' as <-. by left. }
  eapply emits_try; [apply get_server_emits| |done]. intros there l (a & -> & Ha). apply emits_ret.
  rewrite app_nil_r. intros acc' [= <-]. destruct there as [s|].
  - left. split; [done|]. intros u' _ _ Hu'. rewrite Eu in Hu'. injection Hu' as <-. right.
    destruct Ha as (y & -> & Hy). exists y, s. split; [by left|done].
  - right. exists u. repeat split; try done. eexists. split; [by left|done].
Qed.

(** What the walk has found after some of the volumes. *)
Record walked (start : list string * list InstanceHandle) (vs : list BlockVolume) (log : list Call)
    (acc : list string * list InstanceHandle) : Prop := {
  wk_ids : ∃ us, acc.1 = start.1 ++ us ∧ (ih_provider_id <$> acc.2) =
      (ih_provider_id <$> start.2) ++ (zoned p <$> us) ∧ NoDup us ∧ (∀ u, u ∈ us → u ∉ start.1);
  wk_keeps h : h ∈ start.2 → h ∈ acc.2;
  wk_sound h : h ∈ acc.2 → h ∈ start.2 ∨ ∃ v u, v ∈ vs ∧ bv_status v = "available" ∧
      is_detached v = true ∧ volume_server_tag v = Some u ∧ u ∉ start.1 ∧ answered_gone u log ∧
      h = stranded_handle v u;
  wk_all v u : v ∈ vs → bv_status v = "available" → is_detached v = true →
      volume_server_tag v = Some u → u ∈ acc.1 ∨ answered_there u log
}.

Lemma there_grows u l l' :
  answered_there u l ∨ answered_there u l' → answered_there u (l ++ l').
Proof. intros [(r & s & Hin & Hs)|(r & s & Hin & Hs)]; exists r, s; rewrite elem_of_app; auto. Qed.

Lemma gone_grows u l l' : answered_gone u l ∨ answered_gone u l' → answered_gone u (l ++ l').
Proof. intros [(c & Hin & Hc)|(c & Hin & Hc)]; exists c; rewrite elem_of_app; auto. Qed.

Lemma walked_step start vs log acc v l acc' :
  walked start vs log acc → stranded_step l v acc acc' →
  walked start (vs ++ [v]) (log ++ l) acc'.
Proof.
  intros [(us & Eus & Eids & Hnd & Hfresh) Hk Hs Ha] Hstep.
  assert (Hold : ∀ h, h ∈ acc.2 → h ∈ start.2 ∨ ∃ v' u, v' ∈ vs ++ [v] ∧ bv_status v' = "available" ∧
    is_detached v' = true ∧ volume_server_tag v' = Some u ∧ u ∉ start.1 ∧ answered_gone u (log ++ l) ∧
    h = stranded_handle v' u).
  { intros h Hh. destruct (Hs h Hh) as [?|(v' & u & Hv' & ? & ? & ? & ? & Hg & ?)]; [by left|right].
    exists v', u. split; [apply elem_of_app; by left|]. repeat split; try done. apply gone_grows; by left. }
  destruct Hstep as [[-> Hno]|(u & Hav & Hd & Hu & Hin & Hg & ->)].
  - split; [by exists us|done|done|]. intros v' u Hv' H1 H2 H3.
    apply elem_of_app in Hv' as [Hv'|Hv'].
    + destruct (Ha v' u Hv' H1 H2 H3); [by left|right; apply there_grows; by left].
    + apply list_elem_of_singleton in Hv'. subst v'.
      destruct (Hno u H1 H2 H3); [by left|right; apply there_grows; by right].
  - rewrite Eus in Hin. split; cbn [fst snd].
    + exists (us ++ [u]). rewrite Eus, app_assoc. split; [done|]. split.
      { by rewrite !fmap_app, Eids, app_assoc. }
      split; [|intros x Hx; apply elem_of_app in Hx as [Hx|Hx]; [auto|];
        apply list_elem_of_singleton in Hx; subst x; set_solver].
      apply NoDup_app. split; [done|]. split; [|apply NoDup_singleton].
      intros x Hx Hx'. apply list_elem_of_singleton in Hx'. subst x. set_solver.
    + intros h Hh. apply elem_of_app. left. auto.
    + intros h Hh. apply elem_of_app in Hh as [Hh|Hh]; [by apply Hold|].
      apply list_elem_of_singleton in Hh. subst h. right. exists v, u.
      split; [apply elem_of_app; right; by left|]. repeat split; try done; [set_solver|].
      apply gone_grows; by right.
    + intros v' u' Hv' H1 H2 H3. apply elem_of_app in Hv' as [Hv'|Hv'].
      * destruct (Ha v' u' Hv' H1 H2 H3); [left; apply elem_of_app; by left|right; apply there_grows; by left].
      * apply list_elem_of_singleton in Hv'. subst v'. rewrite Hu in H3. injection H3 as <-.
        left. apply elem_of_app. right. by left.
Qed.

Lemma each_stranded_emits start vs vs' acc l0 :
  walked start vs l0 acc →
  emits (N := N) (each_stranded p acc vs')
    (λ r l, ∀ acc', r = Ok acc' → walked start (vs ++ vs') (l0 ++ l) acc').
Proof.
  revert vs acc l0. induction vs' as [|v vs' IH]; intros vs acc l0 Hw; cbn [each_stranded].
  { apply emits_ret. intros acc' [= <-]. by rewrite !app_nil_r. }
  eapply emits_try; [apply stranded_emits| |done]. intros acc1 l Hl.
  eapply emits_conseq; [apply (IH (vs ++ [v]) acc1 (l0 ++ l)); eapply walked_step; [exact Hw|by apply Hl]|].
  intros r l' Hl' acc' Hr. rewrite (cons_middle v), app_assoc, app_assoc. by apply Hl'.
Qed.

Lemma list_servers_emits :
  emits (N := N) (list_servers p)
    (λ r l, ∀ ss, r = Ok ss → ∃ rows, ss = List.filter (our_server p) rows ∧
       listed_in_full (read_servers (N := N)) (servers_page p) se_id l rows).
Proof.
  unfold list_servers. eapply emits_try; [apply every_page_emits| |done].
  intros rows l Hl. apply emits_ret. rewrite app_nil_r. intros vs [= <-]. exists rows.
  split; [done|]. by apply Hl.
Qed.

Lemma scw_list_emits :
  emits (N := N) (scw_list p) (λ r l, ∀ handles, r = Ok handles →
    ∃ vlog volumes slog servers glog acc, l = vlog ++ slog ++ glog ∧ handles = acc.2 ∧
      listed_in_full (read_volumes (N := N)) (volumes_page p (sp_fleet_tag p)) bv_id vlog volumes ∧
      listed_in_full (read_servers (N := N)) (servers_page p) se_id slog servers ∧
      walked (se_id <$> List.filter (our_server p) servers,
              handle_of p <$> List.filter (our_server p) servers)
        (List.filter (our_volume p (sp_fleet_tag p)) volumes) glog acc).
Proof.
  unfold scw_list. eapply emits_try; [apply list_block_volumes_emits| |done]. intros tagged vlog Hv.
  eapply emits_try; [apply list_servers_emits| |done]. intros ss slog Hs.
  destruct (Hv tagged eq_refl) as (volumes & -> & Hvols), (Hs ss eq_refl) as (servers & -> & Hservers).
  set (start := (se_id <$> _, handle_of p <$> _)).
  eapply emits_try; [apply (each_stranded_emits start [] _ start [])| |done].
  - split; [exists []|done|by left|intros v u Hin; inversion Hin].
    rewrite !app_nil_r. split; [done|]. split; [done|]. split; [constructor|].
    intros u Hu. inversion Hu.
  - intros acc glog Hacc. apply emits_ret. rewrite app_nil_r. intros handles' [= <-].
    exists vlog, volumes, slog, servers, glog, acc. split; [done|]. split; [done|].
    split; [done|]. split; [done|]. by apply Hacc.
Qed.

Lemma elem_of_filtered {A} (f : A → bool) (l : list A) x :
  x ∈ List.filter f l ↔ x ∈ l ∧ f x = true.
Proof. rewrite !list_elem_of_In. apply filter_In. Qed.

Lemma nodup_filtered {A B} (f : A → bool) (id : A → B) (l : list A) :
  NoDup (id <$> l) → NoDup (id <$> List.filter f l).
Proof.
  induction l as [|a l IH]; cbn; [done|]. intros Hn. apply NoDup_cons in Hn as [Ha Hn].
  destruct (f a); [|auto]. cbn. apply NoDup_cons. split; [|auto]. intros Hin. apply Ha.
  apply list_elem_of_fmap in Hin as (x & -> & Hx). apply elem_of_filtered in Hx as [Hx _].
  by apply list_elem_of_fmap_2.
Qed.

#[local] Instance zoned_inj : Inj (=) (=) (zoned p).
Proof. intros x y. unfold zoned. intros Exy. apply (inj _) in Exy. by injection Exy. Qed.

(** A list that succeeds is exact: volumes and then servers were listed in full, every server
    of our project and tag is reported, no id is reported twice, and everything else that
    is reported is the server of a detached volume of ours, which is on no list and which
    Scaleway said is gone. A detached volume whose server is gone is never missed. *)
Theorem scaleway_list_exact (n n' : N) (handles : list InstanceHandle) (calls : list Call) :
  scw_list p ([], n) = (Ok handles, (calls, n')) →
  ∃ vlog volumes slog servers glog,
    calls = vlog ++ slog ++ glog ∧
    listed_in_full (read_volumes (N := N)) (volumes_page p (sp_fleet_tag p)) bv_id vlog volumes ∧
    listed_in_full (read_servers (N := N)) (servers_page p) se_id slog servers ∧
    NoDup (ih_provider_id <$> handles) ∧
    (∀ s, s ∈ servers → our_server p s = true → handle_of p s ∈ handles) ∧
    (∀ h, h ∈ handles →
       (∃ s, s ∈ servers ∧ our_server p s = true ∧ h = handle_of p s) ∨
       (∃ v uuid, v ∈ volumes ∧ strandable v uuid ∧ answered_gone uuid glog ∧
          (∀ s, s ∈ servers → our_server p s = true → se_id s ≠ uuid) ∧
          h = stranded_handle v uuid)) ∧
    (∀ v uuid, v ∈ volumes → strandable v uuid →
       zoned p uuid ∈ ih_provider_id <$> handles ∨ answered_there uuid glog).
Proof.
  intros E. destruct (scw_list_emits ([], n)) as (l & El & Hl). rewrite E in El, Hl. cbn in El. subst l.
  destruct (Hl handles eq_refl) as (vlog & volumes & slog & servers & glog & acc & -> & -> & Hv & Hs & Hw).
  exists vlog, volumes, slog, servers, glog. split; [done|]. split; [done|]. split; [done|].
  destruct Hw as [(us & Eus & Eids & Hnd & Hfresh) Hk Hsound Hall]. cbn [fst snd] in *.
  assert (Hids : ih_provider_id <$> acc.2 =
    zoned p <$> (se_id <$> List.filter (our_server p) servers) ++ us).
  { rewrite Eids, fmap_app, <-!list_fmap_compose. done. }
  split; [|split; [|split]].
  - rewrite Hids. apply (NoDup_fmap_2 (zoned p)), NoDup_app.
    split; [apply nodup_filtered, Hs|]. split; [|done]. intros x Hx Hx'. by eapply Hfresh.
  - intros s Hin Ho. apply Hk, list_elem_of_fmap_2. by apply elem_of_filtered.
  - intros h Hh. destruct (Hsound h Hh) as [Hh'|(v & u & Hvin & Hav & Hd & Hu & Hnot & Hg & ->)].
    + left. apply list_elem_of_fmap in Hh' as (s & -> & Hin). apply elem_of_filtered in Hin as [? ?].
      by exists s.
    + right. apply elem_of_filtered in Hvin as [Hvin Hov]. exists v, u. repeat split; try done.
      intros s Hin Ho Heq. apply Hnot. apply list_elem_of_fmap. exists s. split; [done|].
      by apply elem_of_filtered.
  - intros v u Hvin (Hov & Hav & Hd & Hu).
    destruct (Hall v u) as [Hin|?]; [by apply elem_of_filtered|done..| |by right].
    left. rewrite Hids. apply list_elem_of_fmap_2. by rewrite <-Eus.
Qed.
End listing.

(** ** Creating *)
Section creating.
Context {N : Type} `{Cloud N} (p : ScalewayProvider).

Definition accepted (rq : CloudRequest) (log : list Call) : Prop :=
  ∃ r, (rq, Ok r) ∈ log ∧ is_success (cy_status r) = true.

Definition tag_request (spec : InstanceSpec) (server : Server) (v : ServerVolume) : CloudRequest :=
  request p "PATCH" (block_volume_path p (sv_id v)) [] (JsonBody (JObj [("tags",
    JArr (JStr <$> [sp_fleet_tag p; "mm-node-id=" +:+ is_mm_node_id spec; server_tag (se_id server)]))])).

Definition user_data_request (spec : InstanceSpec) (server : Server) : CloudRequest :=
  request p "PATCH" (server_path p (se_id server) +:+ "/user_data/cloud-init") []
    (TextBody (is_user_data spec)).

Definition poweron_request (server : Server) : CloudRequest :=
  request p "POST" (server_path p (se_id server) +:+ "/action") []
    (JsonBody (JObj [("action", JStr "poweron")])).

Lemma accepted_app rq l l' : accepted rq l ∨ accepted rq l' → accepted rq (l ++ l').
Proof. intros [(r & Hin & Hr)|(r & Hin & Hr)]; exists r; rewrite elem_of_app; auto. Qed.

Lemma tag_volume_emits id tags :
  emits (N := N) (tag_volume p id tags) (λ r l, r = Ok () →
    accepted (request p "PATCH" (block_volume_path p id) []
      (JsonBody (JObj [("tags", JArr (JStr <$> tags))]))) l).
Proof.
  unfold tag_volume. set (rq := request p "PATCH" _ _ _). eapply emits_then.
  { apply (emits_settle _ _ _ (λ _ _, True) (λ r l, r = Ok () → accepted rq l) _ []);
      [by apply emits_sleep| |done].
    intros _ l0 _. eapply emits_then; [apply (emits_call _ _ (λ r l, ∃ a, l = [(rq, a)] ∧
      ∀ y, r = Ok y → a = Ok y)); intros [y|e]; eexists; (split; [done|]); by intros ? [= <-]|].
    intros r l (a & -> & Ha). apply emits_ret. rewrite app_nil_r. destruct r as [y|e]; [|done].
    rewrite (Ha y eq_refl). destruct (is_success (cy_status y)) eqn:E; [|by destruct (is_still_in_use _ _)].
    intros _. apply accepted_app. right. exists y. split; [by left|done]. }
  intros [r|b] l Hl; apply emits_ret; rewrite app_nil_r; [exact Hl|done].
Qed.

(** The steps in their order, each accepted before the next. *)
Lemma boot_server_emits spec server (Horder : ∀ l, cloud_map_order (N := N) l ≡ₚ l) :
  emits (N := N) (boot_server p spec server) (λ r l, r = Ok () →
    ∃ tagging booting, l = tagging ++ booting ∧
      (∀ k v, se_volumes server !! k = Some v → is_block_storage v = true →
         accepted (tag_request spec server v) tagging) ∧
      ∃ y y', booting = [(user_data_request spec server, Ok y); (poweron_request server, Ok y')] ∧
        is_success (cy_status y) = true ∧ is_success (cy_status y') = true).
Proof.
  unfold boot_server. eapply (emits_try _ _ (λ r l, r = Ok () →
    ∀ k v, se_volumes server !! k = Some v → is_block_storage v = true →
      accepted (tag_request spec server v) l)); [| |done].
  - assert (Hin : ∀ v k, se_volumes server !! k = Some v → is_block_storage v = true →
      v ∈ List.filter is_block_storage (values (N := Traced N) (se_volumes server))).
    { intros v k Hk Hb. apply elem_of_filtered. split; [|done]. by apply elem_of_values; [|exists k]. }
    revert Hin. generalize (List.filter is_block_storage (values (N := Traced N) (se_volumes server))).
    intros vs Hin. eapply emits_conseq; [|intros r l Hl Hr k v Hk Hb; exact (Hl Hr v (Hin v k Hk Hb))].
    clear Hin. induction vs as [|v vs IH]; cbn [st_try_each].
    { apply emits_ret. intros _ v Hv. inversion Hv. }
    eapply emits_try; [apply tag_volume_emits| |done]. intros [] l Hl.
    eapply emits_conseq; [apply IH|]. intros r l' Hl' Hr x Hx. apply accepted_app.
    apply elem_of_cons in Hx as [->|Hx]; [left; by apply Hl|right; by apply Hl'].
  - intros [] tagging Htag. eapply emits_try; [apply emits_asked| |done].
    intros u l (a & -> & Ha). unfold poweron. eapply emits_try; [apply emits_asked| |done].
    intros there l (a' & -> & Ha'). apply emits_ret. rewrite app_nil_r. cbn [app]. intros Hr.
    destruct there; [|done]. destruct a as [y|], a' as [y'|]; [|done..].
    destruct (is_success (cy_status y)) eqn:E; [|done].
    destruct (cy_status y' =? NOT_FOUND); [done|].
    destruct (is_success (cy_status y')) eqn:E'; [|done].
    exists tagging, [(user_data_request spec server, Ok y); (poweron_request server, Ok y')].
    split; [done|]. split; [by apply Htag|]. by exists y, y'.
Qed.

(** C32. Creating a machine either succeeds with the server powered on after every block volume
    was tagged for it and its user data was accepted, or fails with nothing asked for, or
    with no server known to exist, or after a destroy of the server that could not be
    booted; the error is then that of the step that failed. *)
Theorem create_boots_or_discards (spec : InstanceSpec) (n n' : N)
    (r : result InstanceHandle ProviderError.t) (calls : list Call) :
  (∀ l, cloud_map_order (N := N) l ≡ₚ l) →
  scw_create p spec ([], n) = (r, (calls, n')) →
  (is_ok r = false ∧ calls = []) ∨
  ∃ image answer, image_for p spec = Ok image ∧
    let asked := (request p "POST" (instance_path p "/servers") []
                    (JsonBody (create_body p image spec)), answer) in
    (is_ok r = false ∧ calls = [asked] ∧
       ∀ y s, answer = Ok y → parsed (N := N) "create" (server_response (N := N)) y ≠ Ok s) ∨
    ∃ y server, answer = Ok y ∧ parsed (N := N) "create" (server_response (N := N)) y = Ok server ∧
    match r with
    | Ok h => h = handle_of p server ∧ ∃ tagging y y',
        calls = asked :: tagging ++
          [(user_data_request spec server, Ok y); (poweron_request server, Ok y')] ∧
        is_success (cy_status y) = true ∧ is_success (cy_status y') = true ∧
        ∀ k v, se_volumes server !! k = Some v → is_block_storage v = true →
          accepted (tag_request spec server v) tagging
    | Err e => ∃ log n0 n1 booting cleanup,
        boot_server p spec server ([asked], n0) = (Err e, (log, n1)) ∧ log = asked :: booting ∧
        scw_destroy p (zoned p (se_id server)) (log, n1) = (cleanup, (calls, n'))
    end.
Proof.
  intros Horder. unfold scw_create. destruct (image_for p spec) as [image|e]; [|intros [= <- <- _]; by left].
  unfold st_try, st_bind at 1, call, st_bind at 1. cbn [cloud_send traced fst snd].
  destruct (cloud_send _ n) as [answer n0]. cbn [st_ret app]. intros E. right. exists image, answer.
  split; [done|]. cbn zeta. set (asked := (_, answer)) in *.
  destruct answer as [y|e]; cbn [map_err] in E; [|injection E as <- <- _; left; split; [done|]; by split].
  change (parsed (N := Traced N) "create" (server_response (N := Traced N)) y)
    with (parsed (N := N) "create" (server_response (N := N)) y) in E.
  destruct (parsed "create" server_response y) as [server|e] eqn:Ep.
  2: { injection E as <- <- _. left. split; [done|]. split; [done|]. intros y' s [= <-]. by rewrite Ep. }
  right. exists y, server. split; [done|]. split; [done|]. unfold st_bind at 1 in E.
  destruct (boot_server_emits spec server Horder ([asked], n0)) as (l & El & Hl).
  destruct (boot_server p spec server ([asked], n0)) as [booted [log n1]] eqn:Eb. cbn in El, Hl.
  destruct booted as [[]|e].
  - injection E as <- <- _. split; [done|]. destruct (Hl eq_refl) as (tagging & booting & -> & Ht & y1 & y2 & -> & H1 & H2).
    exists tagging, y1, y2. split; [exact El|]. split; [done|]. by split.
  - unfold discard_unbooted, st_bind, st_ret in E.
    destruct (scw_destroy p (zoned p (se_id server)) (log, n1)) as [cleanup w] eqn:Ed.
    injection E as <- ->. by exists log, n0, n1, l, cleanup.
Qed.
End creating.

(** ** A scripted cloud *)
Module CloudDemo.
Definition net : Type := list CloudReply.
Definition volume_json (tags : list string) : json_value := JObj [
  ("id", JStr "v1"); ("project_id", JStr "proj"); ("status", JStr "available");
  ("tags", JArr (JStr <$> tags))].
Definition server_json : json_value := JObj [("id", JStr "u1"); ("state", JStr "running");
  ("project", JStr "proj"); ("tags", JArr [JStr "mm-fleet"]);
  ("volumes", JObj [("0", JObj [("id", JStr "v1"); ("volume_type", JStr "sbs_volume")])])].

(** The bodies, by a short name. *)
Definition body (text : string) : result json_value string :=
  if String.eqb text "server" then Ok (JObj [("server", server_json)])
  else if String.eqb text "servers" then Ok (JObj [("servers", JArr [server_json])])
  else if String.eqb text "volume" then Ok (volume_json [])
  else if String.eqb text "volumes" then
    Ok (JObj [("volumes", JArr [volume_json ["mm-fleet"; "mm-server=u0"; "mm-server=u1"]]);
              ("total_count", JNum "1")])
  else Err "not json".

Definition cloud : Cloud net := {|
  cloud_send _ n := match n with
    | [] => (Err "offline", [])
    | r :: n' => (Ok r, n')
    end;
  cloud_sleep _ := st_ret ();
  json_of_text := body; time_of_text _ := None; cloud_status_text z := pretty z;
  cloud_shape_error _ := "shape"; cloud_map_order l := l |}.
#[local] Existing Instance cloud.

Definition provider : ScalewayProvider :=
  with_settle 0 3 (new_scaleway "key" "proj" "nl-ams-1" "ubuntu_noble" "mm-fleet").
Definition reply (status : Z) (text : string) : CloudReply := {|
  cy_status := status; cy_total := Some "1"; cy_text := text; cy_json := body text |}.

(** Running, its volume untagged; terminated; gone; the volume listed, deleted and gone. *)
Definition removal : net := [reply 200 "server"; reply 200 "volume"; reply 200 ""; reply 200 "";
  reply 404 ""; reply 200 "volumes"; reply 204 ""; reply 404 ""].
(** One volume of a server that is gone, one server. *)
Definition inventory : net := [reply 200 "volumes"; reply 200 "servers"; reply 404 ""].
Definition creation : net := [reply 201 "server"; reply 200 ""; reply 204 ""; reply 202 ""].
Definition node : InstanceSpec := {| is_mm_node_id := "n1"; is_flavor := NodeFlavor.Fanout;
  is_region := "nl-ams"; is_size := "COMPUTE3-X8C-16G"; is_user_data := "#cloud-config" |}.

Definition destroyed := scw_destroy provider "nl-ams-1/u1" ([], removal).
Definition found := scw_list provider ([], inventory).
Definition created := scw_create provider node ([], creation).
End CloudDemo.
#[local] Existing Instance CloudDemo.cloud.

Example demo_found : CloudDemo.found.1 =
  Ok [{| ih_provider_id := "nl-ams-1/u1"; ih_public_ip := None; ih_created_at := None |};
      {| ih_provider_id := "nl-ams-1/u0"; ih_public_ip := None; ih_created_at := None |}].
Proof. by vm_compute. Qed.

Lemma destroy_ok_means_gone_witness :
  ∃ uuid before gone rest, CloudDemo.destroyed.2.1 = before ++ gone :: rest ∧
    server_gone CloudDemo.provider uuid gone.
Proof.
  assert (E : scw_destroy CloudDemo.provider "nl-ams-1/u1" ([], CloudDemo.removal) =
    (Ok (), (CloudDemo.destroyed.2.1, []))) by (vm_compute; reflexivity).
  destruct (destroy_ok_means_gone (N := CloudDemo.net) (H := CloudDemo.cloud) CloudDemo.provider (λ l, Permutation.Permutation_refl l) _ _ _ _ _ E)
    as (uuid & before & gone & listing & rows & deletions & _ & Hc & Hg & _).
  exists uuid, before, gone, (listing ++ deletions). split; [exact Hc|exact Hg].
Defined.

Lemma destroy_touches_only_its_own_witness :
  own_calls CloudDemo.provider "u1" CloudDemo.destroyed.2.1.
Proof.
  pose proof (destroy_touches_only_its_own (N := CloudDemo.net) (H := CloudDemo.cloud) CloudDemo.provider (λ l, Permutation.Permutation_refl l)
    "nl-ams-1/u1" CloudDemo.removal) as Hall.
  fold CloudDemo.destroyed in Hall. rewrite (surjective_pairing CloudDemo.destroyed) in Hall.
  rewrite (surjective_pairing CloudDemo.destroyed.2) in Hall. apply Hall.
Defined.

Lemma scaleway_list_exact_witness :
  ∃ handles, CloudDemo.found.1 = Ok handles ∧ NoDup (ih_provider_id <$> handles).
Proof.
  eexists. split; [vm_compute; reflexivity|].
  assert (E : scw_list CloudDemo.provider ([], CloudDemo.inventory) =
    (CloudDemo.found.1, (CloudDemo.found.2.1, []))) by (vm_compute; reflexivity).
  destruct (scaleway_list_exact (N := CloudDemo.net) (H := CloudDemo.cloud) CloudDemo.provider _ _ _ _ E)
    as (? & ? & ? & ? & ? & _ & _ & _ & Hn & _). exact Hn.
Defined.

Lemma create_boots_or_discards_witness :
  is_ok CloudDemo.created.1 = true ∧
  ∃ tail, CloudDemo.created.2.1 = (request CloudDemo.provider "POST"
      (instance_path CloudDemo.provider "/servers") []
      (JsonBody (create_body CloudDemo.provider "ubuntu_noble" CloudDemo.node)),
    Ok (CloudDemo.reply 201 "server")) :: tail.
Proof.
  assert (E : scw_create CloudDemo.provider CloudDemo.node ([], CloudDemo.creation) =
    (CloudDemo.created.1, (CloudDemo.created.2.1, []))) by (vm_compute; reflexivity).
  destruct (create_boots_or_discards (N := CloudDemo.net) (H := CloudDemo.cloud) CloudDemo.provider CloudDemo.node _ _ _ _ (λ l, Permutation.Permutation_refl l) E)
    as [[Hf _]|(image & answer & Hi & [[Hf _]|(y & server & Ha & Hp & Hr)])];
    [vm_compute in Hf; discriminate|vm_compute in Hf; discriminate|].
  split; [vm_compute; reflexivity|]. eexists. vm_compute. reflexivity.
Defined.
