(* ===== verification/DesiredStore.v ===== *)
(** * DesiredStore: the desired set, and the two orderings allowed to touch it

    [mm-fleet/src/desired.rs] on V034's tables: the replacement of one broadcast's
    desired rows in one transaction, the reads, and [teardown], which deletes the
    desired row before it calls the provider. *)
From S2P Require Import Prelude F64 FleetTypes Billing Planner Schema Provider.
Local Open Scope Z_scope.
Local Open Scope mm_scope.

Module StoreError.
Inductive t : Type :=
  | RentedWithoutDeadline (node : NodeId)
  | NonRentedWithDeadline (node : NodeId) (ownership : Ownership.t)
  | NotReapable (node : NodeId) (ownership : Ownership.t)
  | Provider (node : NodeId) (source : ProviderError.t)
  | Db (e : db_error).

Definition to_string (e : t) : string :=
  match e with
  | RentedWithoutDeadline n =>
      "node " +:+ n +:+ " is rented but carries no TTL; a rented node with no deadline bills forever"
  | NonRentedWithDeadline n o =>
      "node " +:+ n +:+ " is " +:+ Ownership.as_str o +:+
      " and must not carry a TTL; a deadline on non-rented capacity invites the sweeper to destroy it"
  | NotReapable n o =>
      "refusing to tear down " +:+ n +:+ ": ownership " +:+ Ownership.as_str o +:+
      " is not reapable"
  | Provider n s =>
      "provider failure during teardown of " +:+ n +:+ ": " +:+ ProviderError.to_string s
  | Db e => "database error: " +:+ dbe_message e
  end.
End StoreError.

Record DesiredRow : Type := {
  dr_mm_node_id : NodeId;
  dr_flavor : NodeFlavor.t;
  dr_ownership : Ownership.t;
  dr_region : string;
  dr_size : string;
  dr_broadcast_id : option string;
  dr_requested_at : DateTime;
  dr_destroy_deadline : option DateTime
}.

Record ObservedNode : Type := {
  on_mm_node_id : NodeId;
  on_flavor : NodeFlavor.t;
  on_ownership : Ownership.t;
  on_state : NodeState.t;
  on_provider_id : option string;
  on_destroy_deadline : option DateTime;
  on_billing_started_at : option DateTime;
  on_viewer_capacity : Z;
  on_viewers_current : Z
}.

Record TeardownTarget : Type := {
  tt_mm_node_id : NodeId;
  tt_ownership : Ownership.t;
  tt_flavor : NodeFlavor.t;
  tt_provider_id : option string
}.

Definition teardown_target (n : ObservedNode) : TeardownTarget := {|
  tt_mm_node_id := on_mm_node_id n;
  tt_ownership := on_ownership n;
  tt_flavor := on_flavor n;
  tt_provider_id := on_provider_id n
|}.

(** ** V034's constraints *)
Definition flavors : list string := ["origin"; "fanout"; "edge"; "transcode"].
Definition ownerships : list string := ["owned"; "leased"; "rented"].
Definition states : list string :=
  ["requested"; "booting"; "healthy"; "draining"; "destroying"; "gone"].

Definition deadline_rule (ownership : string) (deadline : option DateTime) : bool :=
  (negb (String.eqb ownership "rented") || bool_decide (is_Some deadline)) &&
  (String.eqb ownership "rented" || bool_decide (deadline = None)).

Definition desired_check (r : DesiredRec) : bool :=
  bool_decide (ds_flavor r ∈ flavors) && bool_decide (ds_ownership r ∈ ownerships) &&
  deadline_rule (ds_ownership r) (ds_destroy_deadline r).

Definition node_check (r : NodeRec) : bool :=
  bool_decide (nr_flavor r ∈ flavors) && bool_decide (nr_ownership r ∈ ownerships) &&
  bool_decide (nr_state r ∈ states) && deadline_rule (nr_ownership r) (nr_destroy_deadline r).

(** ** Statements *)

Definition drop_undesired (broadcast_id : string) (keep : list string)
    (m : gmap string DesiredRec) : gmap string DesiredRec :=
  filter (λ kr, ¬ (ds_broadcast_id kr.2 = Some broadcast_id ∧ kr.1 ∉ keep)) m.

(** DELETE of the broadcast's rows that are not in [keep]; the trigger bumps the
    generation once per statement, also when no row matches. *)
Definition delete_undesired (broadcast_id : string) (keep : list string) : stmt unit :=
  λ _ t, Ok ((), set_desired (t_generation t + 1)
    (drop_undesired broadcast_id keep (t_desired t)) t).

(** INSERT ... ON CONFLICT DO UPDATE: [requested_at] keeps its value on conflict.
    The statement fires the trigger for both INSERT and UPDATE. *)
Definition upsert_desired (d : DesiredNode) (deadline : option DateTime) : stmt unit :=
  λ now t,
    let row := {|
      ds_flavor := NodeFlavor.as_str (dn_flavor d);
      ds_ownership := Ownership.as_str (dn_ownership d);
      ds_region := dn_region d;
      ds_size := dn_size d;
      ds_broadcast_id := Some (dn_broadcast_id d);
      ds_requested_at :=
        match t_desired t !! dn_mm_node_id d with
        | Some old => ds_requested_at old
        | None => now
        end;
      ds_destroy_deadline := deadline
    |} in
    if desired_check row
    then Ok ((), set_desired (t_generation t + 2)
           (<[dn_mm_node_id d := row]> (t_desired t)) t)
    else Err (violates "mm_fleet_desired").

Definition delete_desired (node : NodeId) : stmt unit :=
  λ _ t, Ok ((), set_desired (t_generation t + 1) (delete node (t_desired t)) t).

(** UPDATE of one node's state, whose CHECK the enumeration satisfies. *)
Definition update_node_state (node : NodeId) (s : NodeState.t) : stmt unit :=
  λ _ t, Ok ((), set_nodes (alter (λ r, {|
      nr_flavor := nr_flavor r; nr_ownership := nr_ownership r;
      nr_state := NodeState.as_str s; nr_provider_id := nr_provider_id r;
      nr_viewer_capacity := nr_viewer_capacity r;
      nr_viewers_current := nr_viewers_current r;
      nr_billing_started_at := nr_billing_started_at r;
      nr_destroy_deadline := nr_destroy_deadline r |}) node (t_nodes t)) t).

(** ** Operations *)
Definition lift_db {A} (m : st Db (result A db_error)) : st Db (result A StoreError.t) :=
  let! r := m in st_ret (map_err StoreError.Db r).

Definition validate (d : DesiredNode) : option StoreError.t :=
  match Ownership.requires_destroy_deadline (dn_ownership d), dn_destroy_after_secs d with
  | true, None => Some (StoreError.RentedWithoutDeadline (dn_mm_node_id d))
  | false, Some _ =>
      Some (StoreError.NonRentedWithDeadline (dn_mm_node_id d) (dn_ownership d))
  | _, _ => None
  end.

(** The validation loop: the first offender is reported. *)
Fixpoint validate_batch (desired : list DesiredNode) : option StoreError.t :=
  match desired with
  | [] => None
  | d :: rest => match validate d with Some e => Some e | None => validate_batch rest end
  end.

Definition deadline_of (d : DesiredNode) (now : DateTime) : option DateTime :=
  (λ secs, now + seconds secs) <$> dn_destroy_after_secs d.

Definition upsert_for_broadcast (broadcast_id : string) (desired : list DesiredNode)
    (now : DateTime) : st Db (result unit StoreError.t) :=
  match validate_batch desired with
  | Some e => st_ret (Err e)
  | None =>
      in_tx StoreError.Db (
        let? _ := lift_db (exec_tx (delete_undesired broadcast_id
          (dn_mm_node_id <$> desired))) in
        st_try_each (λ d, lift_db (exec_tx (upsert_desired d (deadline_of d now)))) desired)
  end.

Definition parse_desired (kr : string * DesiredRec) : option DesiredRow :=
  flavor ← NodeFlavor.parse (ds_flavor kr.2);
  ownership ← Ownership.parse (ds_ownership kr.2);
  Some {|
    dr_mm_node_id := kr.1; dr_flavor := flavor; dr_ownership := ownership;
    dr_region := ds_region kr.2; dr_size := ds_size kr.2;
    dr_broadcast_id := ds_broadcast_id kr.2; dr_requested_at := ds_requested_at kr.2;
    dr_destroy_deadline := ds_destroy_deadline kr.2 |}.

Definition select_desired (t : Tables) : list (string * DesiredRec) :=
  order_by fst (map_to_list (t_desired t)).

Definition load_all : st Db (result (list DesiredRow) StoreError.t) :=
  let? rows := lift_db (exec (reading select_desired)) in
  st_ret (Ok (omap parse_desired rows)).

Definition desired_deadlines : st Db (result (gmap string DateTime) StoreError.t) :=
  let? rows := lift_db (exec (reading (λ t, omap (λ r, ds_destroy_deadline r) (t_desired t)))) in
  st_ret (Ok rows).

(** [as u32] of a non-negative [i32]. *)
Definition clamp_u32 (z : Z) : Z := Z.max z 0.

Definition parse_node (kr : string * NodeRec) : option ObservedNode :=
  flavor ← NodeFlavor.parse (nr_flavor kr.2);
  ownership ← Ownership.parse (nr_ownership kr.2);
  state ← NodeState.parse (nr_state kr.2);
  Some {|
    on_mm_node_id := kr.1; on_flavor := flavor; on_ownership := ownership;
    on_state := state;
    on_provider_id :=
      match nr_provider_id kr.2 with
      | Some p => if is_empty_str p then None else Some p
      | None => None
      end;
    on_destroy_deadline := nr_destroy_deadline kr.2;
    on_billing_started_at := nr_billing_started_at kr.2;
    on_viewer_capacity := clamp_u32 (default 0 (nr_viewer_capacity kr.2));
    on_viewers_current := clamp_u32 (nr_viewers_current kr.2) |}.

Definition select_nodes (t : Tables) : list (string * NodeRec) :=
  order_by fst (map_to_list (t_nodes t)).

Definition load_nodes : st Db (result (list ObservedNode) StoreError.t) :=
  let? rows := lift_db (exec (reading select_nodes)) in
  st_ret (Ok (omap parse_node rows)).

Definition generation : st Db (result Z StoreError.t) :=
  lift_db (exec (reading t_generation)).

Definition set_node_state (node : NodeId) (s : NodeState.t) :
    st Db (result unit StoreError.t) :=
  lift_db (exec (update_node_state node s)).

Section teardown.
Context {P : Type} `{Provider P}.

Definition teardown (target : TeardownTarget) : st (Db * P) (result unit StoreError.t) :=
  if negb (Ownership.is_reapable (tt_ownership target)) then
    st_ret (Err (StoreError.NotReapable (tt_mm_node_id target) (tt_ownership target)))
  else
    let? _ := st_fst (lift_db (exec (delete_desired (tt_mm_node_id target)))) in
    let! destroyed :=
      match tt_provider_id target with
      | Some id => st_snd (provider_destroy id)
      | None => st_ret (Ok tt)
      end in
    match destroyed with
    | Err source =>
        let? _ := st_fst (set_node_state (tt_mm_node_id target) NodeState.Destroying) in
        st_ret (Err (StoreError.Provider (tt_mm_node_id target) source))
    | Ok _ =>
        let? _ := st_fst (set_node_state (tt_mm_node_id target) NodeState.Gone) in
        st_ret (Ok tt)
    end.
End teardown.

(** ** Specification vocabulary *)

(** The row a planned node becomes. *)
Definition row_of (d : DesiredNode) (requested_at now : DateTime) : DesiredRec := {|
  ds_flavor := NodeFlavor.as_str (dn_flavor d);
  ds_ownership := Ownership.as_str (dn_ownership d);
  ds_region := dn_region d;
  ds_size := dn_size d;
  ds_broadcast_id := Some (dn_broadcast_id d);
  ds_requested_at := requested_at;
  ds_destroy_deadline := deadline_of d now
|}.

Definition find_desired (id : string) (l : list DesiredNode) : option DesiredNode :=
  List.find (λ d, String.eqb (dn_mm_node_id d) id) l.

(** The desired table after replacing the set of one broadcast: planned nodes get
    their row (an existing one keeps its [requested_at]), other rows of the
    broadcast are gone, rows of other broadcasts are untouched. *)
Definition replaced (broadcast_id : string) (l : list DesiredNode) (now clock : DateTime)
    (m : gmap string DesiredRec) (id : string) : option DesiredRec :=
  match find_desired id l with
  | Some d =>
      let kept := r ← m !! id; Some (ds_requested_at r) in
      Some (row_of d (default clock kept) now)
  | None =>
      r ← m !! id;
      if decide (ds_broadcast_id r = Some broadcast_id) then None else Some r
  end.

(** A row may go, none may appear or change. *)
Definition desired_shrinks (t t' : Tables) : Prop := t_desired t' ⊆ t_desired t.

#[export] Instance desired_shrinks_preorder : PreOrder desired_shrinks.
Proof.
  split; unfold desired_shrinks; [by intros t | intros a b c ??; by etrans].
Qed.

Definition schema_ok (t : Tables) : Prop :=
  map_Forall (λ _ r, desired_check r = true) (t_desired t) ∧
  map_Forall (λ _ r, node_check r = true) (t_nodes t).

(** ** Lemmas *)
Lemma st_rel_lift_db {A} R `{!PreOrder R} (m : st Db (result A db_error)) :
  st_rel R m → st_rel R (lift_db m).
Proof. intros Hm. unfold lift_db. apply st_rel_bind; [done..|]. intros. by apply st_rel_ret. Qed.

#[export] Hint Resolve st_rel_lift_db : mm.

Lemma lift_db_run {A} (m : st Db (result A db_error)) db :
  lift_db m db = (map_err StoreError.Db (m db).1, (m db).2).
Proof. unfold lift_db, st_bind, st_ret. by destruct (m db). Qed.

Lemma delete_desired_shrinks node : stmt_rel desired_shrinks (delete_desired node).
Proof.
  intros now t a t' [= _ <-]. unfold desired_shrinks. simpl. apply delete_subseteq.
Qed.

Lemma update_node_state_shrinks node s :
  stmt_rel desired_shrinks (update_node_state node s).
Proof. intros now t a t' [= _ <-]. unfold desired_shrinks. by simpl. Qed.

#[export] Hint Resolve delete_desired_shrinks update_node_state_shrinks : mm.

Lemma validate_batch_None l : validate_batch l = None ↔ Forall (λ d, validate d = None) l.
Proof.
  induction l as [|d l IH]; simpl; [split; [constructor|done]|].
  rewrite Forall_cons, <- IH. by destruct (validate d); split; [|intros []| |intros []].
Qed.

Lemma validate_None d :
  validate d = None ↔
  (is_Some (dn_destroy_after_secs d) ↔ Ownership.is_reapable (dn_ownership d) = true).
Proof.
  unfold validate, Ownership.requires_destroy_deadline.
  destruct (Ownership.is_reapable (dn_ownership d)), (dn_destroy_after_secs d).
  - split; [intros _; split; eauto | done].
  - split; [done | intros [_ Hs]; by destruct (Hs eq_refl)].
  - split; [done | intros [Hs _]; by specialize (Hs ltac:(eauto))].
  - split; [intros _; split; [by intros [? [=]] | done] | done].
Qed.

Lemma row_of_check d requested_at now :
  validate d = None → desired_check (row_of d requested_at now) = true.
Proof.
  rewrite validate_None. unfold desired_check, deadline_rule, row_of, deadline_of.
  intros [H1 H2]. destruct (dn_flavor d), (dn_ownership d), (dn_destroy_after_secs d);
    first [vm_compute; reflexivity | destruct (H2 eq_refl); discriminate
          | specialize (H1 (ex_intro _ _ eq_refl)); discriminate].
Qed.

Lemma upsert_desired_run d now clock t :
  upsert_desired d (deadline_of d now) clock t =
  let kept := r ← t_desired t !! dn_mm_node_id d; Some (ds_requested_at r) in
  let row := row_of d (default clock kept) now in
  if desired_check row
  then Ok ((), set_desired (t_generation t + 2)
         (<[dn_mm_node_id d := row]> (t_desired t)) t)
  else Err (violates "mm_fleet_desired").
Proof.
  unfold upsert_desired, row_of. by destruct (t_desired t !! dn_mm_node_id d).
Qed.

Lemma find_desired_None id l :
  find_desired id l = None → id ∉ dn_mm_node_id <$> l.
Proof.
  intros Hf (d & -> & Hd)%list_elem_of_fmap.
  apply list_elem_of_In in Hd. pose proof (find_none _ _ Hf _ Hd) as He.
  simpl in He. by rewrite String.eqb_refl in He.
Qed.

Lemma find_desired_Some id l d :
  find_desired id l = Some d → d ∈ l ∧ dn_mm_node_id d = id.
Proof.
  intros [Hin He]%find_some. split; [by apply list_elem_of_In | by apply String.eqb_eq].
Qed.

(** The loop over the plan, when it succeeds. *)
Lemma upsert_each_spec now l db db' :
  NoDup (dn_mm_node_id <$> l) →
  st_try_each (λ d, lift_db (exec_tx (upsert_desired d (deadline_of d now)))) l db
    = (Ok tt, db') →
  db_now db' = db_now db ∧
  ∀ id, t_desired (db_tables db') !! id =
    match find_desired id l with
    | Some d =>
        let kept := r ← t_desired (db_tables db) !! id; Some (ds_requested_at r) in
        Some (row_of d (default (db_now db) kept) now)
    | None => t_desired (db_tables db) !! id
    end.
Proof.
  revert db. induction l as [|d l IH]; intros db Hnd; simpl.
  { intros [= <-]. done. }
  inversion_clear Hnd as [|?? Hd Hnd']. unfold st_try at 1, st_bind. rewrite lift_db_run.
  unfold exec_tx. destruct (next_tick db) as [k rest].
  destruct (tk_outcome k); simpl; [|intros [=]|intros [=]].
  rewrite upsert_desired_run. cbv zeta.
  destruct (desired_check _); simpl; [|intros [=]].
  intros Hrun. destruct (IH _ Hnd' Hrun) as [Hnow Hl]. simpl in Hnow, Hl.
  split; [done|]. intros id. rewrite Hl. unfold find_desired at 2. simpl.
  destruct (String.eqb_spec (dn_mm_node_id d) id) as [<-|Hne].
  - destruct (find_desired (dn_mm_node_id d) l) as [d'|] eqn:Ef.
    + exfalso. apply Hd. apply find_desired_Some in Ef as [Hin <-].
      by apply list_elem_of_fmap_2.
    + by rewrite lookup_insert_eq.
  - fold (find_desired id l). by rewrite !lookup_insert_ne by done.
Qed.

Lemma upsert_each_healthy now l t clock :
  Forall (λ d, validate d = None) l →
  (st_try_each (λ d, lift_db (exec_tx (upsert_desired d (deadline_of d now)))) l
    (healthy t clock)).1 = Ok tt ∧
  db_script (st_try_each (λ d, lift_db (exec_tx (upsert_desired d (deadline_of d now)))) l
    (healthy t clock)).2 = [].
Proof.
  revert t. induction l as [|d l IH]; intros t Hv; [done|].
  inversion_clear Hv as [|?? Hd Hv']. cbn [st_try_each]. unfold st_try, st_bind.
  rewrite lift_db_run. unfold exec_tx. cbn [next_tick db_script healthy tk_outcome db_now db_tables].
  rewrite upsert_desired_run. cbv zeta. rewrite row_of_check by done. apply (IH _ Hv').
Qed.

Lemma delete_undesired_lookup broadcast_id (keep : list string)
    (m : gmap string DesiredRec) id :
  drop_undesired broadcast_id keep m !! id =
  (r ← m !! id;
   if decide (ds_broadcast_id r = Some broadcast_id ∧ id ∉ keep) then None else Some r).
Proof.
  unfold drop_undesired. rewrite map_lookup_filter. destruct (m !! id) as [r|]; simpl; [|done].
  destruct (decide (ds_broadcast_id r = Some broadcast_id ∧ id ∉ keep));
    repeat case_guard; simpl; tauto.
Qed.

(** The whole replacement, when it succeeds. *)
Lemma upsert_body_spec broadcast_id l now db db' :
  NoDup (dn_mm_node_id <$> l) →
  (let? _ := lift_db (exec_tx (delete_undesired broadcast_id (dn_mm_node_id <$> l))) in
   st_try_each (λ d, lift_db (exec_tx (upsert_desired d (deadline_of d now)))) l) db
    = (Ok tt, db') →
  ∀ id, t_desired (db_tables db') !! id
    = replaced broadcast_id l now (db_now db) (t_desired (db_tables db)) id.
Proof.
  intros Hnd. unfold st_try at 1, st_bind. rewrite lift_db_run.
  set (s := delete_undesired _ _). pose proof (exec_tx_now s db) as Hnow.
  pose proof (exec_tx_ok s db) as Hok.
  destruct (exec_tx s db) as [[u|e] db1]; simpl in *; [|intros [=]].
  specialize (Hok u eq_refl). injection Hok as Hu Ht.
  intros Hrun. apply upsert_each_spec in Hrun as [_ Hl]; [|done].
  intros id. rewrite Hl, Hnow, <- Ht. simpl. unfold replaced. rewrite delete_undesired_lookup.
  destruct (find_desired id l) as [d|] eqn:Ef.
  - apply find_desired_Some in Ef as [Hin <-].
    destruct (t_desired (db_tables db) !! dn_mm_node_id d) as [r|]; simpl; [|done].
    rewrite decide_False; [done|]. intros [_ Hn]. apply Hn. by apply list_elem_of_fmap_2.
  - apply find_desired_None in Ef.
    destruct (t_desired (db_tables db) !! id) as [r|]; simpl; [|done].
    destruct (decide (ds_broadcast_id r = Some broadcast_id)) as [Hb|Hb].
    + by rewrite decide_True.
    + rewrite decide_False; [done|]. by intros [? _].
Qed.

Lemma upsert_valid_healthy broadcast_id l now clock t :
  validate_batch l = None →
  (upsert_for_broadcast broadcast_id l now (healthy t clock)).1 = Ok tt.
Proof.
  intros Hv. unfold upsert_for_broadcast. rewrite Hv. unfold in_tx.
  rewrite exec_healthy. simpl. unfold st_try at 1, st_bind. rewrite lift_db_run. simpl.
  set (t1 := set_desired _ _ _).
  destruct (upsert_each_healthy now l t1 clock) as [H1 H2];
    [by apply validate_batch_None|]. unfold healthy in H1, H2.
  destruct (st_try_each _ l _) as [res db2]. simpl in *. subst res.
  unfold next_tick. by rewrite H2.
Qed.

(** ** Lemmas: teardown *)
Lemma set_node_state_spec id s db :
  t_desired (db_tables (set_node_state id s db).2) = t_desired (db_tables db) ∧
  ((set_node_state id s db).1 = Ok tt →
    ∀ n, t_nodes (db_tables (set_node_state id s db).2) !! id = Some n →
      nr_state n = NodeState.as_str s).
Proof.
  unfold set_node_state. rewrite lift_db_run. simpl.
  split.
  - refine (st_rel_exec (λ t t', t_desired t' = t_desired t) (PreOrder0 := _) _ _ db);
      [split; [done|intros ???; congruence]|]. by intros now t a t' [= _ <-].
  - intros Hok n Hn.
    destruct (exec (update_node_state id s) db) as [[u|e] db1] eqn:E; [|done].
    pose proof (exec_ok (update_node_state id s) db u) as Hx. rewrite E in Hx.
    destruct (Hx eq_refl) as [now [= _ Ht]]. simpl in *.
    rewrite <- Ht in Hn. simpl in Hn. rewrite lookup_alter_eq in Hn.
    destruct (t_nodes (db_tables db) !! id); simplify_eq/=. done.
Qed.

Section teardown_lemmas.
Context {P : Type} `{Provider P} `{!ProviderLaws P}.

(** What a teardown may do to the machines: remove those with one handle. *)
Definition destroys_only (id : option string) (p p' : P) : Prop :=
  (∀ h, h ∈ running p' → h ∈ running p) ∧
  (∀ h, h ∈ running p → Some (ih_provider_id h) ≠ id → h ∈ running p').

Lemma destroys_only_refl id p : destroys_only id p p.
Proof. split; auto. Qed.

(** Every run of [teardown], by what happened. *)
Lemma teardown_cases (target : TeardownTarget) (w : Db * P) :
  let r := teardown target w in
  (Ownership.is_reapable (tt_ownership target) = false ∧ r.2 = w ∧
    r.1 = Err (StoreError.NotReapable (tt_mm_node_id target) (tt_ownership target))) ∨
  (Ownership.is_reapable (tt_ownership target) = true ∧
   on_tables desired_shrinks w.1 r.2.1 ∧
   ((r.2.2 = w.2 ∧ is_ok r.1 = false) ∨
    (t_desired (db_tables r.2.1) !! tt_mm_node_id target = None ∧
     destroys_only (tt_provider_id target) w.2 r.2.2 ∧
     (r.1 = Ok tt →
       (∀ h, h ∈ running r.2.2 → Some (ih_provider_id h) ≠ tt_provider_id target) ∧
       (∀ n, t_nodes (db_tables r.2.1) !! tt_mm_node_id target = Some n →
         nr_state n = NodeState.as_str NodeState.Gone))))).
Proof.
  cbv zeta. remember (teardown target w) as r eqn:Hr. unfold teardown in Hr.
  destruct (Ownership.is_reapable (tt_ownership target)) eqn:Eo; simpl in Hr;
    [right|subst r; left; done].
  split; [done|]. destruct w as [db p]. revert Hr.
  unfold st_try at 1. unfold st_bind at 1. unfold st_fst at 1. rewrite lift_db_run. simpl.
  set (del := delete_desired (tt_mm_node_id target)).
  pose proof (st_rel_exec desired_shrinks del ltac:(apply delete_desired_shrinks) db) as H1.
  pose proof (exec_ok del db) as Hdel.
  destruct (exec del db) as [[u|e] db1]; simpl in *; 
    [|intros ->; split; [exact H1|left; done]].
  destruct (Hdel u eq_refl) as [now [= _ Ht]].
  assert (Hgone : t_desired (db_tables db1) !! tt_mm_node_id target = None)
    by (rewrite <- Ht; apply lookup_delete_eq).
  clear Hdel now Ht del. unfold on_tables, desired_shrinks in *. simpl in H1.
  unfold st_bind at 1. set (d := match tt_provider_id target with Some _ => _ | _ => _ end).
  assert (Hd : (d (db1, p)).2.1 = db1 ∧
    destroys_only (tt_provider_id target) p (d (db1, p)).2.2 ∧
    ((d (db1, p)).1 = Ok tt → ∀ h, h ∈ running (d (db1, p)).2.2 →
      Some (ih_provider_id h) ≠ tt_provider_id target)).
  { subst d. destruct (tt_provider_id target) as [id|]; [|by split; [|split]].
    unfold st_snd. cbn [fst snd]. pose proof (destroy_only_removes p id) as Hr.
    pose proof (destroy_spares_others p id) as Hs. pose proof (destroy_ok_gone p id) as Hg.
    destruct (provider_destroy id p) as [res p1]. simpl in *.
    split; [done|]. split; [split; [done|]|].
    - intros h Hh Hne. apply Hs; [done | congruence].
    - intros -> h Hh [= ?]. by eapply Hg. }
  destruct (d (db1, p)) as [res [db2 p2]]. simpl in Hd. destruct Hd as (-> & Hp & Hok).
  destruct res as [[]|e]; unfold st_try, st_bind, st_fst; cbn [fst snd].
  - pose proof (set_node_state_spec (tt_mm_node_id target) NodeState.Gone db1) as [Hs Hn].
    destruct (set_node_state _ _ db1) as [[[]|e] db3]; simpl in *; intros ->; simpl;
      rewrite Hs; (split; [done|right]); (split; [done|]); (split; [done|]); [|done].
    intros _. split; [by apply Hok | by apply Hn].
  - pose proof (set_node_state_spec (tt_mm_node_id target) NodeState.Destroying db1)
      as [Hs Hn].
    destruct (set_node_state _ _ db1) as [[[]|e'] db3]; simpl in *; intros ->; simpl;
      rewrite Hs; (split; [done|right]); by split.
Qed.
End teardown_lemmas.

(** ** Lemmas: the schema invariant *)
#[export] Instance schema_preorder : PreOrder (keeps schema_ok).
Proof. apply keeps_preorder. Qed.

Lemma schema_delete_undesired b keep : stmt_rel (keeps schema_ok) (delete_undesired b keep).
Proof.
  intros now t a t' [= _ <-] [Hd Hn]. split; [|done]. intros id r Hr.
  simpl in Hr. unfold drop_undesired in Hr. apply map_lookup_filter_Some in Hr as [Hr _].
  by apply (Hd id).
Qed.

Lemma schema_upsert_desired d dl : stmt_rel (keeps schema_ok) (upsert_desired d dl).
Proof.
  intros now t a t'. unfold upsert_desired.
  destruct (desired_check _) eqn:E; [|done]. intros [= _ <-] [Hd Hn].
  split; [|done]. by apply map_Forall_insert_2.
Qed.

Lemma schema_delete_desired id : stmt_rel (keeps schema_ok) (delete_desired id).
Proof.
  intros now t a t' [= _ <-] [Hd Hn]. split; [|done]. by apply map_Forall_delete.
Qed.

Lemma schema_update_node_state id s : stmt_rel (keeps schema_ok) (update_node_state id s).
Proof.
  intros now t a t' [= _ <-] [Hd Hn]. split; [done|]. intros i r Hr. simpl in Hr.
  apply lookup_alter_Some in Hr as [(-> & r0 & Hr0 & ->)|[_ Hr]]; [|by apply (Hn i)].
  specialize (Hn i r0 Hr0). revert Hn. unfold node_check. simpl.
  rewrite !andb_true_iff, !bool_decide_eq_true. intros [[[??] _] ?].
  repeat split; try done. destruct s; apply (bool_decide_eq_true_1 (_ ∈ states));
    vm_compute; reflexivity.
Qed.

#[export] Hint Resolve schema_delete_undesired schema_upsert_desired
  schema_delete_desired schema_update_node_state : mm.

Lemma schema_upsert b l now :
  st_rel (on_tables (keeps schema_ok)) (upsert_for_broadcast b l now).
Proof.
  unfold upsert_for_broadcast. destruct (validate_batch l); [apply st_rel_ret; apply _|].
  apply st_rel_in_tx; [apply _|]. st_steps.
Qed.

Lemma desired_check_parses kr : desired_check kr.2 = true → is_Some (parse_desired kr).
Proof.
  unfold desired_check, parse_desired. rewrite !andb_true_iff, !bool_decide_eq_true.
  intros [[Hf Ho] _]. unfold flavors, ownerships in *.
  repeat (apply elem_of_cons in Hf as [->|Hf]); try (by apply not_elem_of_nil in Hf);
  repeat (apply elem_of_cons in Ho as [->|Ho]); try (by apply not_elem_of_nil in Ho);
  vm_compute; eauto.
Qed.

Lemma node_check_parses kr : node_check kr.2 = true → is_Some (parse_node kr).
Proof.
  unfold node_check, parse_node. rewrite !andb_true_iff, !bool_decide_eq_true.
  intros [[[Hf Ho] Hs] _]. unfold flavors, ownerships, states in *.
  repeat (apply elem_of_cons in Hf as [->|Hf]); try (by apply not_elem_of_nil in Hf);
  repeat (apply elem_of_cons in Ho as [->|Ho]); try (by apply not_elem_of_nil in Ho);
  repeat (apply elem_of_cons in Hs as [->|Hs]); try (by apply not_elem_of_nil in Hs);
  simpl; eauto.
Qed.

Lemma parse_desired_id kr d : parse_desired kr = Some d → dr_mm_node_id d = kr.1.
Proof.
  unfold parse_desired. destruct (NodeFlavor.parse _), (Ownership.parse _); simpl; try done.
  by intros [= <-].
Qed.

Lemma parse_node_id kr n : parse_node kr = Some n → on_mm_node_id n = kr.1.
Proof.
  unfold parse_node.
  destruct (NodeFlavor.parse _), (Ownership.parse _), (NodeState.parse _); simpl; try done.
  by intros [= <-].
Qed.

(** A [filter_map] that keeps every element keeps every key. *)
Lemma omap_total {A B} (f : A → option B) (l : list A) (key : B → string) (k : A → string) :
  Forall (λ a, is_Some (f a)) l → (∀ a b, f a = Some b → key b = k a) →
  key <$> omap f l = k <$> l.
Proof.
  intros Hf Hk. induction Hf as [|a l [b Hb] _ IH]; [done|]. csimpl.
  rewrite Hb. csimpl. by rewrite IH, (Hk a b Hb).
Qed.

Lemma load_nodes_run db :
  (load_nodes db).2 = (exec (reading select_nodes) db).2 ∧
  (load_nodes db).1 = match (exec (reading select_nodes) db).1 with
    | Ok rows => Ok (omap parse_node rows) | Err e => Err (StoreError.Db e) end.
Proof.
  unfold load_nodes, st_try, st_bind. rewrite lift_db_run.
  by destruct (exec _ db) as [[|] ?].
Qed.

Lemma load_all_run db :
  (load_all db).2 = (exec (reading select_desired) db).2 ∧
  (load_all db).1 = match (exec (reading select_desired) db).1 with
    | Ok rows => Ok (omap parse_desired rows) | Err e => Err (StoreError.Db e) end.
Proof.
  unfold load_all, st_try, st_bind. rewrite lift_db_run.
  by destruct (exec _ db) as [[|] ?].
Qed.

Lemma load_nodes_tables db : db_tables (load_nodes db).2 = db_tables db.
Proof. destruct (load_nodes_run db) as [-> _]. apply exec_reading_tables. Qed.

Lemma load_all_tables db : db_tables (load_all db).2 = db_tables db.
Proof. destruct (load_all_run db) as [-> _]. apply exec_reading_tables. Qed.

Lemma load_nodes_ok db l :
  (load_nodes db).1 = Ok l → l = omap parse_node (select_nodes (db_tables db)).
Proof.
  destruct (load_nodes_run db) as [_ ->].
  pose proof (exec_reading_ok select_nodes db) as He.
  destruct (exec _ db) as [[rows|e] db']; simpl in *; [|done].
  intros [= <-]. by rewrite (He rows eq_refl).
Qed.

Lemma load_all_ok db l :
  (load_all db).1 = Ok l → l = omap parse_desired (select_desired (db_tables db)).
Proof.
  destruct (load_all_run db) as [_ ->].
  pose proof (exec_reading_ok select_desired db) as He.
  destruct (exec _ db) as [[rows|e] db']; simpl in *; [|done].
  intros [= <-]. by rewrite (He rows eq_refl).
Qed.

(** The loaded nodes are the rows of the table. *)
Lemma elem_of_loaded_nodes t n :
  n ∈ omap parse_node (select_nodes t) ↔
  ∃ r, t_nodes t !! on_mm_node_id n = Some r ∧ parse_node (on_mm_node_id n, r) = Some n.
Proof.
  rewrite list_elem_of_omap. unfold select_nodes. split.
  - intros ([id r] & Hin & Hp). rewrite elem_of_order_by, elem_of_map_to_list in Hin.
    apply parse_node_id in Hp as Hid. simpl in Hid. subst id. eauto.
  - intros (r & Hr & Hp). exists (on_mm_node_id n, r).
    by rewrite elem_of_order_by, elem_of_map_to_list.
Qed.

(** ** Properties *)

(** C25. Replacing a broadcast's desired set refines the abstract replacement, for
    every pattern of lost connections: the table is either untouched or exactly
    the replacement, an Ok means the replacement took effect, and on a working
    database a valid batch is accepted. *)
Theorem upsert_refines_replacement (broadcast_id : string) (l : list DesiredNode)
    (now : DateTime) (db : Db) :
  NoDup (dn_mm_node_id <$> l) →
  let r := upsert_for_broadcast broadcast_id l now db in
  let done := ∃ clock, ∀ id, t_desired (db_tables r.2) !! id
      = replaced broadcast_id l now clock (t_desired (db_tables db)) id in
  (r.1 = Ok tt → validate_batch l = None ∧ done) ∧
  (db_tables r.2 = db_tables db ∨ done) ∧
  (validate_batch l = None → db_script db = [] → r.1 = Ok tt).
Proof.
  intros Hnd. cbv zeta. unfold upsert_for_broadcast.
  destruct (validate_batch l) as [e|] eqn:Ev; [split; [done|]; split; [by left | done]|].
  set (body := st_try _ _). set (m := in_tx StoreError.Db body).
  assert (Hdone : ∀ db1 db2, db_tables db1 = db_tables db → body db1 = (Ok tt, db2) →
    ∃ clock, ∀ id, t_desired (db_tables db2) !! id
      = replaced broadcast_id l now clock (t_desired (db_tables db)) id).
  { intros db1 db2 Ht Hb. exists (db_now db1). rewrite <- Ht.
    by apply upsert_body_spec. }
  split; [|split].
  - intros Hok. split; [done|].
    destruct (in_tx_ok StoreError.Db body db tt Hok) as (db1 & db2 & Ht & Hb & Htx).
    fold m in Htx. rewrite Htx. by eapply Hdone.
  - destruct (in_tx_atomic StoreError.Db body db) as [?|(db1 & db2 & [] & Ht & Hb & Htx)];
      [by left|right]. fold m in Htx. rewrite Htx. by eapply Hdone.
  - intros _ Hs. destruct db as [t clock script]. simpl in Hs. subst script.
    pose proof (upsert_valid_healthy broadcast_id l now clock t Ev) as Hu.
    unfold upsert_for_broadcast in Hu. rewrite Ev in Hu. exact Hu.
Qed.

Definition ex_store : Db := healthy (set_desired 7 {[ "bc-b1-fanout-0" := {|
    ds_flavor := "fanout"; ds_ownership := "rented"; ds_region := "eu"; ds_size := "s";
    ds_broadcast_id := Some "b1"; ds_requested_at := 5; ds_destroy_deadline := Some 9 |};
  "bc-b2-fanout-0" := {|
    ds_flavor := "fanout"; ds_ownership := "rented"; ds_region := "eu"; ds_size := "s";
    ds_broadcast_id := Some "b2"; ds_requested_at := 5; ds_destroy_deadline := Some 9 |} ]}
  no_tables) 100.

Lemma upsert_refines_replacement_witness :
  (upsert_for_broadcast "b1" [fanout "b1" ex_policy 1] 50 ex_store).1 = Ok tt.
Proof.
  refine (proj2 (proj2 (upsert_refines_replacement "b1" [fanout "b1" ex_policy 1] 50
    ex_store _)) _ _); [apply NoDup_singleton | vm_compute; reflexivity | reflexivity].
Defined.

(** The store never refuses what the planner asks for: on a working database
    every plan is written, because its rented nodes carry a TTL and no other node
    does. *)
Theorem store_accepts_every_plan (obs : FleetObservation) (policy : FleetPolicy)
    (now clock : DateTime) (t : Tables) :
  (upsert_for_broadcast (fo_broadcast_id obs) (plan obs policy) now
    (healthy t clock)).1 = Ok tt.
Proof.
  pose proof (plan_deadline_iff_rented obs policy) as Hp.
  assert (Hv : validate_batch (plan obs policy) = None).
  { apply validate_batch_None. eapply Forall_impl; [exact Hp|].
    intros d [_ Hd]. by apply validate_None. }
  by apply upsert_valid_healthy.
Qed.

(** Teardown deletes the desired row before any machine is destroyed, for
    every provider that meets its contract and every pattern of lost connections:
    a node that is not rented is refused with nothing changed; a machine that
    disappeared was the target's and its desired row is gone, so that Terraform
    cannot recreate it; and Ok means the machine and the row are gone and the node
    is recorded as gone. *)
Theorem teardown_deletes_row_first {P : Type} `{Provider P} `{!ProviderLaws P}
    (target : TeardownTarget) (w : Db * P) :
  let r := teardown target w in
  let row := t_desired (db_tables r.2.1) !! tt_mm_node_id target in
  (Ownership.is_reapable (tt_ownership target) = false → r.2 = w ∧ is_ok r.1 = false) ∧
  (∀ h, h ∈ running w.2 → h ∉ running r.2.2 →
    Some (ih_provider_id h) = tt_provider_id target ∧ row = None) ∧
  (r.1 = Ok tt → row = None ∧
    (∀ h, h ∈ running r.2.2 → Some (ih_provider_id h) ≠ tt_provider_id target) ∧
    (∀ n, t_nodes (db_tables r.2.1) !! tt_mm_node_id target = Some n →
      nr_state n = NodeState.as_str NodeState.Gone)).
Proof.
  cbv zeta. destruct (teardown_cases target w)
    as [(Ho & Hw & Hr)|(Ho & _ & [[Hw Hr]|(Hrow & [_ Hsp] & Hok)])].
  - rewrite Hw, Hr. split; [done|]. split; [done|done].
  - rewrite Hw, Ho. split; [done|]. split; [done|].
    by destruct (teardown target w) as [[[]|] ?].
  - rewrite Ho. split; [done|]. split; [|by intros [??]%Hok].
    intros h Hh Hn. split; [|done].
    destruct (decide (Some (ih_provider_id h) = tt_provider_id target)) as [|Hne]; [done|].
    exfalso. apply Hn. by apply Hsp.
Qed.

(** V034's constraints are an invariant of the store, whatever connections are
    lost: replacing a set and tearing a node down keep every row legal. *)
Theorem store_preserves_schema {P : Type} `{Provider P}
    (broadcast_id : string) (l : list DesiredNode) (now : DateTime)
    (target : TeardownTarget) (w : Db * P) :
  schema_ok (db_tables w.1) →
  schema_ok (db_tables (upsert_for_broadcast broadcast_id l now w.1).2) ∧
  schema_ok (db_tables (teardown target w).2.1).
Proof.
  intros Hs. split; [by apply schema_upsert|].
  assert (Ht : st_rel (both (on_tables (keeps schema_ok)) (λ _ _ : P, True))
    (teardown target)).
  { unfold teardown, set_node_state. assert (PreOrder (λ _ _ : P, True)) by (split; done).
    assert (Hd : ∀ m : st P (result unit ProviderError.t), st_rel (λ _ _ : P, True) m)
      by done.
    st_steps; first [apply st_rel_fst; by eauto with mm typeclass_instances
      | apply st_rel_snd; [apply _ | apply Hd]]. }
  by apply (Ht w).
Qed.

Lemma store_preserves_schema_witness :
  schema_ok (db_tables (upsert_for_broadcast "b1" [fanout "b1" ex_policy 1] 50
    ex_store).2).
Proof.
  refine (proj1 (store_preserves_schema "b1" [fanout "b1" ex_policy 1] 50
    {| tt_mm_node_id := "x"; tt_ownership := Ownership.Rented;
       tt_flavor := NodeFlavor.Fanout; tt_provider_id := None |}
    (ex_store, DryRunProvider.new 0) _)).
  split; [|done]. simpl. apply map_Forall_insert_2; [vm_compute; reflexivity|].
  apply map_Forall_singleton. vm_compute. reflexivity.
Defined.

(** The reads drop no row: on tables that satisfy V034's constraints the
    values PostgreSQL admits and the ones the enumerations parse agree, so
    [load_all] and [load_nodes] return every row, in the order of the ids. *)
Theorem reads_drop_no_row (t : Tables) (clock : DateTime) :
  schema_ok t →
  ∃ rows nodes,
    load_all (healthy t clock) = (Ok rows, healthy t clock) ∧
    load_nodes (healthy t clock) = (Ok nodes, healthy t clock) ∧
    Sorted String.le (dr_mm_node_id <$> rows) ∧
    dr_mm_node_id <$> rows ≡ₚ (map_to_list (t_desired t)).*1 ∧
    Sorted String.le (on_mm_node_id <$> nodes) ∧
    on_mm_node_id <$> nodes ≡ₚ (map_to_list (t_nodes t)).*1.
Proof.
  intros [Hd Hn]. exists (omap parse_desired (select_desired t)),
    (omap parse_node (select_nodes t)).
  unfold load_all, load_nodes, st_try, st_bind. rewrite !lift_db_run, !exec_healthy.
  split; [done|]. split; [done|].
  assert (H1 : dr_mm_node_id <$> omap parse_desired (select_desired t)
    = fst <$> select_desired t).
  { apply omap_total; [|apply parse_desired_id]. apply Forall_forall. intros [id r].
    unfold select_desired. rewrite elem_of_order_by, elem_of_map_to_list. intros Hr.
    apply desired_check_parses. by apply (Hd id). }
  assert (H2 : on_mm_node_id <$> omap parse_node (select_nodes t)
    = fst <$> select_nodes t).
  { apply omap_total; [|apply parse_node_id]. apply Forall_forall. intros [id r].
    unfold select_nodes. rewrite elem_of_order_by, elem_of_map_to_list. intros Hr.
    apply node_check_parses. by apply (Hn id). }
  rewrite H1, H2. unfold select_desired, select_nodes.
  split; [apply order_by_sorted|]. split; [apply fmap_Permutation, order_by_perm|].
  split; [apply order_by_sorted | apply fmap_Permutation, order_by_perm].
Qed.

Lemma reads_drop_no_row_witness :
  ∃ rows, load_all ex_store = (Ok rows, ex_store) ∧
    Sorted String.le (dr_mm_node_id <$> rows) ∧ length rows = 2%nat.
Proof.
  destruct (reads_drop_no_row (db_tables ex_store) 100)
    as (rows & nodes & Hl & _ & Hs & Hp & _).
  - split; [|done]. simpl. apply map_Forall_insert_2; [vm_compute; reflexivity|].
    apply map_Forall_singleton. vm_compute. reflexivity.
  - exists rows. split; [exact Hl|]. split; [exact Hs|].
    apply Permutation_length in Hp. rewrite !length_fmap in Hp. rewrite Hp.
    vm_compute. reflexivity.
Defined.
