(* ===== verification/Sweeper.v ===== *)
(** * Sweeper: the two backstops

    [mm-fleet/src/sweeper.rs]: the deadline sweep, which destroys rented nodes whose
    deadline passed, and the orphan sweep, which destroys instances nobody has a
    record of. The selectors are pure; the loops call [teardown] and the provider. *)
From S2P Require Import Prelude F64 FleetTypes Billing Planner Schema Provider DesiredStore.
Local Open Scope Z_scope.
Local Open Scope mm_scope.

Definition due_for_reaping (now : DateTime) (nodes : list ObservedNode) :
    list ObservedNode :=
  List.filter (λ n, match on_destroy_deadline n with
      | Some dl => dl <=? now | None => false end)
    (List.filter (λ n, bool_decide (on_state n ≠ NodeState.Gone))
      (List.filter (λ n, Ownership.is_reapable (on_ownership n)) nodes)).

Record SweepReport : Type := {
  sw_reaped : list string;
  sw_failed : list string;
  sw_deferred : list string;
  sw_spared : list string
}.

Definition empty_report : SweepReport :=
  {| sw_reaped := []; sw_failed := []; sw_deferred := []; sw_spared := [] |}.
Definition push_reaped (id : string) (r : SweepReport) : SweepReport := {|
  sw_reaped := sw_reaped r ++ [id]; sw_failed := sw_failed r;
  sw_deferred := sw_deferred r; sw_spared := sw_spared r |}.
Definition push_failed (id : string) (r : SweepReport) : SweepReport := {|
  sw_reaped := sw_reaped r; sw_failed := sw_failed r ++ [id];
  sw_deferred := sw_deferred r; sw_spared := sw_spared r |}.
Definition push_deferred (id : string) (r : SweepReport) : SweepReport := {|
  sw_reaped := sw_reaped r; sw_failed := sw_failed r;
  sw_deferred := sw_deferred r ++ [id]; sw_spared := sw_spared r |}.
Definition push_spared (id : string) (r : SweepReport) : SweepReport := {|
  sw_reaped := sw_reaped r; sw_failed := sw_failed r;
  sw_deferred := sw_deferred r; sw_spared := sw_spared r ++ [id] |}.

Definition old_enough (created_at : option DateTime) (now : DateTime) (min_age : Z) : bool :=
  match created_at with
  | Some t => (min_age <=? now - t) && (t <=? now)
  | None => false
  end.

Definition orphans (at_provider : list string) (known : gset string) : list string :=
  List.filter (λ id, negb (bool_decide (id ∈ known))) at_provider.

Section sweeps.
Context {P : Type} `{Provider P}.

(** When the destroy of an overdue node is put off to the end of a paid period. *)
Definition deferred_to (increment : BillingIncrement.t) (now : DateTime)
    (node : ObservedNode) : option DateTime :=
  aligned_teardown_at increment (on_billing_started_at node)
    (default now (on_destroy_deadline node)) now.

Definition reap_one (increment : BillingIncrement.t) (now : DateTime)
    (report : SweepReport) (node : ObservedNode) : st (Db * P) SweepReport :=
  match deferred_to increment now node with
  | Some _ => st_ret (push_deferred (on_mm_node_id node) report)
  | None =>
      let! r := teardown (teardown_target node) in
      match r with
      | Ok _ => st_ret (push_reaped (on_mm_node_id node) report)
      | Err _ => st_ret (push_failed (on_mm_node_id node) report)
      end
  end.

Definition sweep_deadlines (increment : BillingIncrement.t) (now : DateTime) :
    st (Db * P) (result SweepReport StoreError.t) :=
  let? nodes := st_fst load_nodes in
  let! report := st_fold (reap_one increment now) (due_for_reaping now nodes) empty_report in
  st_ret (Ok report).

(** The loop over the listing: who is old enough to judge, who is spared. *)
Definition judge (now : DateTime) (min_age : Z) (known : gset string)
    (acc : SweepReport * list string) (h : InstanceHandle) : SweepReport * list string :=
  let '(report, at_provider) := acc in
  if old_enough (ih_created_at h) now min_age
  then (report, at_provider ++ [ih_provider_id h])
  else if negb (bool_decide (ih_provider_id h ∈ known))
  then (push_spared (ih_provider_id h) report, at_provider)
  else (report, at_provider).

Definition destroy_orphan (report : SweepReport) (id : string) : st (Db * P) SweepReport :=
  let! r := st_snd (provider_destroy id) in
  match r with
  | Ok _ => st_ret (push_reaped id report)
  | Err _ => st_ret (push_failed id report)
  end.

Definition known_ids (nodes : list ObservedNode) : gset string :=
  list_to_set (omap on_provider_id nodes).

Definition sweep_orphans (now : DateTime) (min_age : Z) :
    st (Db * P) (result SweepReport ProviderError.t) :=
  let! loaded := st_fst load_nodes in
  match loaded with
  | Err e => st_ret (Err (ProviderError.Transient
      ("cannot read our own nodes: " +:+ StoreError.to_string e)))
  | Ok nodes =>
      let known := known_ids nodes in
      let? listed := st_snd provider_list in
      let '(report, at_provider) :=
        foldl (judge now min_age known) (empty_report, []) listed in
      let! report' := st_fold destroy_orphan (orphans at_provider known) report in
      st_ret (Ok report')
  end.
End sweeps.

(** ** Specification vocabulary *)

(** A rented node, not gone, past its deadline. *)
Definition overdue (now : DateTime) (n : ObservedNode) : Prop :=
  on_ownership n = Ownership.Rented ∧ on_state n ≠ NodeState.Gone ∧
  ∃ dl, on_destroy_deadline n = Some dl ∧ dl ≤ now.

(** A node the deadline sweep may destroy at [now]. *)
Definition reap_due (increment : BillingIncrement.t) (now : DateTime) (n : ObservedNode) :
    Prop :=
  overdue now n ∧ deferred_to increment now n = None.

(** A node whose destroy waits: for a time still to come, with hourly billing, and at most
    an hour past the deadline (when billing began before the deadline). *)
Definition put_off (increment : BillingIncrement.t) (now : DateTime) (n : ObservedNode) : Prop :=
  increment = BillingIncrement.PerHour ∧
  ∃ t, deferred_to increment now n = Some t ∧ now < t ∧
    ∀ s dl, on_billing_started_at n = Some s → on_destroy_deadline n = Some dl → s ≤ dl →
      t ≤ dl + seconds 3600.

Lemma deferred_put_off increment now n t :
  deferred_to increment now n = Some t → put_off increment now n.
Proof.
  intros Ht. split.
  { unfold deferred_to, aligned_teardown_at in Ht. by destruct increment. }
  exists t. split; [done|]. unfold deferred_to in Ht. split.
  - revert Ht. unfold aligned_teardown_at. destruct (negb _); [done|].
    destruct (on_billing_started_at n) as [s|]; [|done].
    destruct (Z.ltb_spec now (next_period_boundary increment s
      (default now (on_destroy_deadline n)))); [|done]. by intros [= <-].
  - intros s dl Hs Hdl Hle. rewrite Hs, Hdl in Ht.
    by destruct (aligned_teardown_expires _ _ _ _ _ Hle Ht) as (_ & [_ ?] & _).
Qed.

Section vocabulary.
Context {P : Type} `{Provider P} `{!ProviderLaws P}.

(** Machines may only disappear, and only those [S] allows; desired rows may only
    disappear. *)
Definition only_destroys (S : InstanceHandle → Prop) (w w' : Db * P) : Prop :=
  on_tables desired_shrinks w.1 w'.1 ∧
  (∀ h, h ∈ running w'.2 → h ∈ running w.2) ∧
  (∀ h, h ∈ running w.2 → h ∉ running w'.2 → S h).

#[export] Instance only_destroys_preorder S : PreOrder (only_destroys S).
Proof.
  split.
  - intros w. split; [reflexivity|]. by split.
  - intros a b c (H1 & H2 & H3) (H4 & H5 & H6). split; [by etrans|]. split; [by auto|].
    intros h Ha Hc. destruct (decide (h ∈ running b.2)); auto.
Qed.

Lemma teardown_only_destroys S target :
  (∀ h, Ownership.is_reapable (tt_ownership target) = true →
    Some (ih_provider_id h) = tt_provider_id target → S h) →
  st_rel (only_destroys S) (teardown target).
Proof.
  intros HS w. destruct (teardown_cases target w)
    as [(Ho & Hw & Hr)|(Ho & Hd & [[Hw Hr]|(Hrow & [Hsub Hsp] & Hok)])].
  - rewrite Hw. reflexivity.
  - split; [done|]. rewrite Hw. by split.
  - split; [done|]. split; [done|]. intros h Hh Hn. apply HS; [done|].
    destruct (decide (Some (ih_provider_id h) = tt_provider_id target)); [done|].
    exfalso. by apply Hn, Hsp.
Qed.

Lemma destroy_only_destroys S id :
  (∀ h, ih_provider_id h = id → S h) →
  st_rel (only_destroys S) (st_snd (provider_destroy id) : st (Db * P) _).
Proof.
  intros HS [db p]. unfold st_snd. pose proof (destroy_only_removes p id) as Hr.
  pose proof (destroy_spares_others p id) as Hs. simpl in *.
  destruct (provider_destroy id p) as [res p1]. simpl in *.
  split; [simpl; reflexivity|]. split; [done|]. simpl. intros h Hh Hn. apply HS.
  destruct (decide (ih_provider_id h = id)); [done|]. exfalso. by apply Hn, Hs.
Qed.
End vocabulary.

(** ** Lemmas *)
Lemma elem_of_due now nodes n :
  n ∈ due_for_reaping now nodes ↔ n ∈ nodes ∧ overdue now n.
Proof.
  unfold due_for_reaping, overdue. rewrite !list_elem_of_In, !filter_In, bool_decide_eq_true.
  assert (Ho : Ownership.is_reapable (on_ownership n) = true ↔
    on_ownership n = Ownership.Rented) by (by destruct (on_ownership n)).
  rewrite Ho. destruct (on_destroy_deadline n) as [dl|].
  - rewrite Z.leb_le. split.
    + intros [[[??]?]?]. eauto 10.
    + intros (? & ? & ? & x & [= <-] & ?). auto.
  - split; [by intros [??] | by intros (_ & _ & _ & x & ? & _)].
Qed.

Lemma loaded_nodes_of_table t n :
  n ∈ omap parse_node (select_nodes t) → t_nodes t !! on_mm_node_id n ≠ None.
Proof. by intros (r & -> & _)%elem_of_loaded_nodes. Qed.

Section deadline_lemmas.
Context {P : Type} `{Provider P} `{!ProviderLaws P}.
Context (increment : BillingIncrement.t) (now : DateTime).

(** The handles the deadline sweep may destroy, given the loaded nodes. *)
Definition reap_allowed (nodes : list ObservedNode) (h : InstanceHandle) : Prop :=
  ∃ n, n ∈ nodes ∧ on_provider_id n = Some (ih_provider_id h) ∧ reap_due increment now n.

Lemma reap_one_only_destroys nodes report n :
  n ∈ due_for_reaping now nodes →
  st_rel (only_destroys (reap_allowed nodes)) (reap_one (P := P) increment now report n).
Proof.
  intros Hn. unfold reap_one. destruct (deferred_to increment now n) eqn:Ed.
  - apply st_rel_ret. apply _.
  - apply elem_of_due in Hn as (Hin & Ho & Hs & Hdl).
    apply st_rel_bind; [apply _| |intros [?|?]; apply st_rel_ret; apply _].
    apply teardown_only_destroys. intros h _ Hh. exists n. by repeat split.
Qed.

Definition waits (n : ObservedNode) : bool := bool_decide (is_Some (deferred_to increment now n)).

(** No desired row of the node is left, and no machine with its handle. *)
Definition released (w : Db * P) (n : ObservedNode) : Prop :=
  t_desired (db_tables w.1) !! on_mm_node_id n = None ∧
  ∀ h, h ∈ running w.2 → Some (ih_provider_id h) ≠ on_provider_id n.

(** What is true after the nodes [seen] were handled. *)
Definition sweep_inv (nodes : list ObservedNode) (w0 : Db * P)
    (seen : list ObservedNode) (rep : SweepReport) (w : Db * P) : Prop :=
  only_destroys (reap_allowed nodes) w0 w ∧
  sw_deferred rep = on_mm_node_id <$> List.filter waits seen ∧
  sw_reaped rep ++ sw_failed rep ≡ₚ on_mm_node_id <$> List.filter (λ n, negb (waits n)) seen ∧
  (∀ id, id ∈ sw_reaped rep → ∃ n, n ∈ seen ∧ on_mm_node_id n = id ∧ released w n).

Lemma shrinks_none (db db' : Db) id :
  on_tables desired_shrinks db db' → t_desired (db_tables db) !! id = None →
  t_desired (db_tables db') !! id = None.
Proof.
  unfold on_tables, desired_shrinks. intros Hs Hn.
  destruct (t_desired (db_tables db') !! id) as [r|] eqn:E; [|done].
  pose proof (lookup_weaken _ _ _ _ E Hs). congruence.
Qed.

Lemma released_stable S (w w' : Db * P) n :
  only_destroys S w w' → released w n → released w' n.
Proof.
  intros (Hs & Hsub & _) [H1 H2]. split; [by eapply shrinks_none|]. auto.
Qed.

Lemma sweep_inv_step nodes w0 seen n rep w :
  n ∈ due_for_reaping now nodes → sweep_inv nodes w0 seen rep w →
  sweep_inv nodes w0 (seen ++ [n]) (reap_one increment now rep n w).1
    (reap_one increment now rep n w).2.
Proof.
  intros Hn (Ho & Hd & Hp & Hr).
  pose proof (reap_one_only_destroys nodes rep n Hn w) as Hstep.
  split; [by etrans|]. unfold sweep_inv. rewrite !List.filter_app, !fmap_app, <- Hp, <- Hd.
  assert (Hold : ∀ id, id ∈ sw_reaped rep → ∃ m, m ∈ seen ++ [n] ∧ on_mm_node_id m = id ∧
    released (reap_one increment now rep n w).2 m).
  { intros id (m & Hm & Hid & Hrel)%Hr. exists m. split; [set_solver|]. split; [done|].
    by eapply released_stable. }
  clear Hr Hstep. revert Hold. unfold reap_one, waits. simpl.
  destruct (deferred_to increment now n) as [t|] eqn:Ed.
  - rewrite bool_decide_true by eauto. simpl. intros Hold. by rewrite app_nil_r.
  - rewrite bool_decide_false by (by intros []). simpl. rewrite app_nil_r. unfold st_bind.
    destruct (teardown_cases (teardown_target n) w) as [(Hx & _ & He)|(_ & _ & Hc)].
    { apply elem_of_due in Hn as (_ & Hrent & _). simpl in Hx. by rewrite Hrent in Hx. }
    destruct (teardown (teardown_target n) w) as [[[]|e] w']; simpl in *; intros Hold.
    + split; [done|]. split; [solve_Permutation|]. intros id [Hid|Hid]%elem_of_app; [auto|].
      apply list_elem_of_singleton in Hid as ->. exists n. split; [set_solver|].
      split; [done|]. destruct Hc as [[_ ?]|(Hrow & _ & Hok)]; [done|].
      split; [done|]. by apply Hok.
    + split; [done|]. split; [solve_Permutation|]. exact Hold.
Qed.

Lemma elem_of_reported (f : ObservedNode → bool) nodes id :
  id ∈ on_mm_node_id <$> List.filter f (due_for_reaping now nodes) ↔
  ∃ n, n ∈ nodes ∧ on_mm_node_id n = id ∧ overdue now n ∧ f n = true.
Proof.
  rewrite list_elem_of_fmap. split.
  - intros (n & -> & Hn). apply list_elem_of_In, filter_In in Hn as [Hn Hf].
    apply list_elem_of_In, elem_of_due in Hn as [Hn Ho]. eauto 10.
  - intros (n & Hn & <- & Ho & Hf). exists n. split; [done|].
    apply list_elem_of_In, filter_In. split; [|done]. apply list_elem_of_In, elem_of_due. auto.
Qed.
End deadline_lemmas.

(** On a working database, with a provider in a state [working] that keeps
    answering, teardown succeeds. *)
Section working.
Context {P : Type} `{Provider P} `{!ProviderLaws P}.
Context (working : P → Prop).
Hypothesis working_destroys : ∀ p id, working p →
  (provider_destroy id p).1 = Ok tt ∧ working (provider_destroy id p).2.

Definition all_working (w : Db * P) : Prop := db_script w.1 = [] ∧ working w.2.

Lemma teardown_working target (w : Db * P) :
  Ownership.is_reapable (tt_ownership target) = true → all_working w →
  (teardown target w).1 = Ok tt ∧ all_working (teardown target w).2.
Proof.
  intros Ho [Hs Hw]. destruct w as [[t now script] p]. simpl in Hs, Hw. subst script.
  unfold teardown. rewrite Ho. simpl. unfold st_try, st_bind, st_fst.
  cbn [fst snd]. rewrite lift_db_run. simpl. destruct (tt_provider_id target) as [id|].
  - destruct (working_destroys p id Hw) as [Hd Hw']. unfold st_snd. cbn [fst snd].
    destruct (provider_destroy id p) as [r p']. simpl in *. subst r.
    by split.
  - by split.
Qed.

(** The node is settled: no desired row, no machine, recorded as gone. *)
Definition settled (w : Db * P) (n : ObservedNode) : Prop :=
  t_desired (db_tables w.1) !! on_mm_node_id n = None ∧
  (∀ h, h ∈ running w.2 → Some (ih_provider_id h) ≠ on_provider_id n) ∧
  (∀ r, t_nodes (db_tables w.1) !! on_mm_node_id n = Some r →
    nr_state r = NodeState.as_str NodeState.Gone).

(** A teardown leaves every other node's row alone and never revives a node. *)
Lemma teardown_nodes target (w : Db * P) id r :
  t_nodes (db_tables (teardown target w).2.1) !! id = Some r →
  t_nodes (db_tables w.1) !! id = Some r ∨
  (id = tt_mm_node_id target ∧ ((teardown target w).1 = Ok tt →
    nr_state r = NodeState.as_str NodeState.Gone)).
Proof.
  destruct (decide (id = tt_mm_node_id target)) as [->|Hne].
  - destruct (teardown_cases target w)
      as [(_ & -> & _)|(_ & _ & [[_ Hr]|(_ & _ & Hok)])]; [by left| |].
    + right. split; [done|]. intros Ht. by rewrite Ht in Hr.
    + right. split; [done|]. intros Ht. by apply Hok.
  - intros Hr. left.
    assert (Hs : st_rel (both (on_tables (λ t t', t_nodes t' !! id = t_nodes t !! id))
      (λ _ _ : P, True)) (teardown target)).
    { assert (PreOrder (λ t t', t_nodes t' !! id = t_nodes t !! id))
        by (split; [done|intros ???; congruence]).
      assert (PreOrder (λ _ _ : P, True)) by (split; done).
      assert (Hd : ∀ m : st P (result unit ProviderError.t), st_rel (λ _ _ : P, True) m)
        by done.
      assert (Hs1 : stmt_rel (λ t t', t_nodes t' !! id = t_nodes t !! id)
        (delete_desired (tt_mm_node_id target))) by (by intros ??? ? [= _ <-]).
      assert (Hs2 : ∀ s, stmt_rel (λ t t', t_nodes t' !! id = t_nodes t !! id)
        (update_node_state (tt_mm_node_id target) s)).
      { intros s ??? ? [= _ <-]. simpl. by rewrite lookup_alter_ne. }
      unfold teardown, set_node_state.
      st_steps; first [apply st_rel_fst; by eauto with mm typeclass_instances
        | apply st_rel_snd; [apply _ | apply Hd]]. }
    destruct (Hs w) as [Hw _]. unfold on_tables in Hw. simpl in Hw. by rewrite <- Hw.
Qed.

Lemma teardown_settles (n : ObservedNode) (w : Db * P) :
  (teardown (teardown_target n) w).1 = Ok tt →
  settled (teardown (teardown_target n) w).2 n.
Proof.
  intros Hr. destruct (teardown_cases (teardown_target n) w)
    as [(_ & _ & He)|(_ & _ & [[_ He]|(Hrow & _ & Hok)])]; [congruence| |].
  - by rewrite Hr in He.
  - destruct (Hok Hr) as [H1 H2]. by split; [|split].
Qed.

Lemma settled_stable target (n : ObservedNode) (w : Db * P) :
  (teardown target w).1 = Ok tt → settled w n → settled (teardown target w).2 n.
Proof.
  intros Hr (H1 & H2 & H3).
  destruct (teardown_only_destroys (λ _, True) target ltac:(done) w) as (Hsh & Hsub & _).
  split; [by eapply shrinks_none|]. split; [by eauto|].
  intros r Hx. apply teardown_nodes in Hx as [Hx|[_ Hx]]; auto.
Qed.

Lemma sweep_working increment now nodes (w : Db * P) :
  all_working w →
  let r := st_fold (reap_one increment now) (due_for_reaping now nodes) empty_report w in
  sw_failed r.1 = [] ∧
  (∀ n, n ∈ due_for_reaping now nodes → deferred_to increment now n = None →
    settled r.2 n).
Proof.
  intros Hw. cbv zeta.
  pose (I := λ (seen : list ObservedNode) (rep : SweepReport) (w : Db * P),
    all_working w ∧ sw_failed rep = [] ∧
    ∀ n, n ∈ seen → deferred_to increment now n = None → settled w n).
  assert (HI : I (due_for_reaping now nodes)
    (st_fold (reap_one increment now) (due_for_reaping now nodes) empty_report w).1
    (st_fold (reap_one increment now) (due_for_reaping now nodes) empty_report w).2).
  2: { by destruct HI as (_ & ? & ?). }
  apply (st_fold_inv I).
  { split; [done|]. split; [done|]. by intros n ?%not_elem_of_nil. }
  intros seen n rep w' Hn (Hw' & Hf & Hall). unfold I, reap_one.
  destruct (deferred_to increment now n) eqn:Ed.
  - split; [done|]. split; [done|]. intros m [Hm|Hm%list_elem_of_singleton]%elem_of_app;
      [by apply Hall | congruence].
  - unfold st_bind. apply elem_of_due in Hn as (_ & Ho & _).
    destruct (teardown_working (teardown_target n) w') as [Hok Hw''];
      [by simpl; rewrite Ho | done |].
    pose proof (teardown_settles n w' Hok) as Hset.
    pose proof (λ m, settled_stable (teardown_target n) m w' Hok) as Hst.
    destruct (teardown (teardown_target n) w') as [res w'']. simpl in *. subst res.
    split; [done|]. split; [done|].
    intros m [Hm|Hm%list_elem_of_singleton]%elem_of_app; [by auto | by subst].
Qed.
End working.

(** ** Lemmas: the orphan sweep *)
Section orphan_lemmas.
Context {P : Type} `{Provider P} `{!ProviderLaws P}.

Lemma judge_at_provider now min_age known listed rep ids :
  (foldl (judge now min_age known) (rep, ids) listed).2 =
  ids ++ (ih_provider_id <$> List.filter
    (λ h, old_enough (ih_created_at h) now min_age) listed).
Proof.
  revert rep ids. induction listed as [|h l IH]; intros rep ids; simpl;
    [by rewrite app_nil_r|].
  destruct (old_enough (ih_created_at h) now min_age); csimpl.
  - by rewrite IH, <- app_assoc.
  - destruct (negb _); apply IH.
Qed.

Lemma elem_of_orphans id ids known : id ∈ orphans ids known ↔ id ∈ ids ∧ id ∉ known.
Proof.
  unfold orphans.
  by rewrite !list_elem_of_In, filter_In, negb_true_iff, bool_decide_eq_false.
Qed.

Definition orphan_allowed now min_age (known : gset string) (listed : list InstanceHandle)
    (h : InstanceHandle) : Prop :=
  (ih_provider_id h ∉ known) ∧
  ∃ h', h' ∈ listed ∧ ih_provider_id h' = ih_provider_id h ∧
    old_enough (ih_created_at h') now min_age = true.

Lemma elem_of_judged now min_age known listed rep id :
  id ∈ orphans (foldl (judge now min_age known) (rep, []) listed).2 known ↔
  (id ∉ known) ∧ ∃ h, h ∈ listed ∧ ih_provider_id h = id ∧
    old_enough (ih_created_at h) now min_age = true.
Proof.
  rewrite elem_of_orphans, judge_at_provider. simpl. rewrite list_elem_of_fmap. split.
  - intros [(h & -> & Hh) Hk]. rewrite list_elem_of_In, filter_In in Hh.
    destruct Hh. split; [done|]. exists h. by rewrite list_elem_of_In.
  - intros (Hk & h & Hh & <- & Ho). split; [|done]. exists h. split; [done|].
    rewrite list_elem_of_In, filter_In. by rewrite <- list_elem_of_In.
Qed.

Lemma destroy_orphan_only_destroys now min_age known listed rep0 rep id :
  id ∈ orphans (foldl (judge now min_age known) (rep0, []) listed).2 known →
  st_rel (only_destroys (orphan_allowed now min_age known listed))
    (destroy_orphan (P := P) rep id).
Proof.
  rewrite elem_of_judged. intros (Hk & h & Hh & Hid & Ho). unfold destroy_orphan.
  apply st_rel_bind; [apply _| |intros [?|?]; apply st_rel_ret; apply _].
  apply destroy_only_destroys. intros h' Hh'. split; [by rewrite Hh'|].
  exists h. by rewrite Hh'.
Qed.

Lemma orphan_fold_only_destroys now min_age known listed rep0 rep :
  st_rel (only_destroys (orphan_allowed now min_age known listed))
    (st_fold (destroy_orphan (P := P))
      (orphans (foldl (judge now min_age known) (rep0, []) listed).2 known) rep).
Proof.
  apply st_rel_fold; [apply _|]. intros b id Hid. by eapply destroy_orphan_only_destroys.
Qed.
End orphan_lemmas.

(** ** Properties *)

(** C29. The deadline sweep destroys only what it must, for every provider that meets its
    contract and every pattern of lost connections. A machine that disappears belongs to a
    recorded node that is rented, not gone, past its deadline and not waiting for a billing
    boundary. When the sweep reports, the nodes it put off are exactly the overdue ones that
    wait, with hourly billing only, for a boundary still to come and at most an hour past
    the deadline; the nodes it tried to destroy are exactly the overdue ones that do not wait,
    whatever happened to the others; and one reported reaped has neither a desired row nor a
    machine left. *)
Theorem deadline_sweep_safe {P : Type} `{Provider P} `{!ProviderLaws P}
    (increment : BillingIncrement.t) (now : DateTime) (w : Db * P) :
  let r := sweep_deadlines increment now w in
  let nodes := omap parse_node (select_nodes (db_tables w.1)) in
  (∀ h, h ∈ running w.2 → h ∉ running r.2.2 →
    ∃ n, n ∈ nodes ∧ on_provider_id n = Some (ih_provider_id h) ∧
      reap_due increment now n) ∧
  (∀ rep, r.1 = Ok rep →
    (∀ id, id ∈ sw_deferred rep ↔
      ∃ n, n ∈ nodes ∧ on_mm_node_id n = id ∧ overdue now n ∧ put_off increment now n) ∧
    (∀ id, id ∈ sw_reaped rep ∨ id ∈ sw_failed rep ↔
      ∃ n, n ∈ nodes ∧ on_mm_node_id n = id ∧ reap_due increment now n) ∧
    (∀ id, id ∈ sw_reaped rep →
      ∃ n, n ∈ nodes ∧ on_mm_node_id n = id ∧ released r.2 n)).
Proof.
  cbv zeta. set (nodes := omap _ _). unfold sweep_deadlines, st_try, st_bind, st_fst.
  pose proof (load_nodes_tables w.1) as Ht. pose proof (load_nodes_ok w.1) as Hl.
  destruct (load_nodes w.1) as [[l|e] db1]; simpl in *;
    [|split; [intros h ??; contradiction | done]].
  specialize (Hl l eq_refl). fold nodes in Hl. subst l.
  pose proof (st_fold_inv (sweep_inv increment now nodes (db1, w.2))
    (reap_one increment now) (due_for_reaping now nodes) empty_report (db1, w.2)) as Hinv.
  destruct (st_fold _ _ _ _) as [rep w']. simpl in *.
  destruct Hinv as ((_ & _ & Ho) & Hd & Hp & Hr).
  - split; [reflexivity|]. split; [done|]. split; [done|]. by intros id ?%not_elem_of_nil.
  - intros seen n b s Hn. by apply sweep_inv_step.
  - split; [exact Ho|]. intros rep' [= <-]. split; [|split].
    + intros id. rewrite Hd, elem_of_reported. unfold waits.
      split; intros (n & Hn & Hid & Hod & Hw); exists n; repeat (split; [done|]).
      * apply bool_decide_eq_true in Hw as [t Hw]. by eapply deferred_put_off.
      * apply bool_decide_eq_true. destruct Hw as (_ & t & Hw & _). eauto.
    + intros id. rewrite <- elem_of_app, Hp, elem_of_reported. unfold waits, reap_due.
      split; intros (n & Hn & Hid & Hod); exists n; repeat (split; [done|]);
        [destruct Hod as [Hod Hw]; split; [done|] | destruct Hod as [Hod Hw]; split; [done|]].
      * apply negb_true_iff, bool_decide_eq_false in Hw.
        by apply eq_None_not_Some.
      * apply negb_true_iff, bool_decide_eq_false. by rewrite Hw; intros [].
    + intros id (n & Hn & Hid & Hrel)%Hr. apply elem_of_due in Hn as [Hn _]. eauto.
Qed.

(** The deadline sweep is complete: on a working database and with a provider
    that keeps answering, no teardown fails and every overdue rented node that is
    not waiting for its billing boundary has neither a desired row nor a machine
    afterwards, and is recorded as gone. *)
Theorem deadline_sweep_complete {P : Type} `{Provider P} `{!ProviderLaws P}
    (working : P → Prop)
    (working_destroys : ∀ p id, working p →
      (provider_destroy id p).1 = Ok tt ∧ working (provider_destroy id p).2)
    (increment : BillingIncrement.t) (now clock : DateTime) (t : Tables) (p : P) :
  working p →
  ∃ rep w', sweep_deadlines increment now (healthy t clock, p) = (Ok rep, w') ∧
    sw_failed rep = [] ∧
    ∀ n, n ∈ omap parse_node (select_nodes t) → reap_due increment now n → settled w' n.
Proof.
  intros Hp. unfold sweep_deadlines, st_try, st_bind, st_fst, load_nodes. cbn [fst snd].
  unfold st_try, st_bind. rewrite lift_db_run, exec_healthy. simpl.
  set (nodes := omap _ _).
  destruct (sweep_working working working_destroys increment now nodes
    (healthy t clock, p)) as [Hf Hs]; [by split|].
  destruct (st_fold _ _ _ _) as [rep w']. simpl in *. exists rep, w'.
  split; [done|]. split; [done|]. intros n Hn [Ho Hdef].
  apply Hs; [|done]. by apply elem_of_due.
Qed.

Definition ex_node_row (state : string) (deadline : Z) : NodeRec := {|
  nr_flavor := "fanout"; nr_ownership := "rented"; nr_state := state;
  nr_provider_id := Some "i-1"; nr_viewer_capacity := Some 250; nr_viewers_current := 3;
  nr_billing_started_at := Some 0; nr_destroy_deadline := Some deadline |}.

Definition ex_overdue : Tables :=
  set_nodes {[ "bc-b1-fanout-0" := ex_node_row "healthy" (seconds 1800) ]} no_tables.

Lemma dry_run_keeps_working (p : DryRunState) (id : string) :
  dr_fail_destroy p = None →
  (provider_destroy id p).1 = Ok tt ∧ dr_fail_destroy (provider_destroy id p).2 = None.
Proof. intros Hp. simpl. unfold DryRunProvider.destroy. simpl. by rewrite Hp. Qed.

Lemma deadline_sweep_complete_witness :
  ∃ rep w', sweep_deadlines BillingIncrement.PerHour (seconds 3600)
      (healthy ex_overdue 0, DryRunProvider.seed ["i-1"; "i-2"] (DryRunProvider.new 0))
      = (Ok rep, w') ∧
    sw_reaped rep = ["bc-b1-fanout-0"] ∧ sw_failed rep = [] ∧
    (ih_provider_id <$> dr_live w'.2) = ["i-2"].
Proof.
  destruct (deadline_sweep_complete (λ p, dr_fail_destroy p = None) dry_run_keeps_working
    BillingIncrement.PerHour (seconds 3600) 0 ex_overdue
    (DryRunProvider.seed ["i-1"; "i-2"] (DryRunProvider.new 0)) eq_refl)
    as (rep & w' & Hr & Hf & Hs).
  exists rep, w'. split; [exact Hr|]. vm_compute in Hr. injection Hr as <- <-.
  split; [reflexivity|]. split; [exact Hf | reflexivity].
Defined.

(** Two overdue machines under hourly billing: the one whose paid hour is not over stays. *)
Definition ex_two_overdue : Tables := set_nodes
  {[ "bc-b1-fanout-0" := ex_node_row "healthy" (seconds 1800);
     "bc-b2-fanout-0" := {| nr_flavor := "fanout"; nr_ownership := "rented";
       nr_state := "healthy"; nr_provider_id := Some "i-2"; nr_viewer_capacity := Some 250;
       nr_viewers_current := 3; nr_billing_started_at := Some (seconds 3000);
       nr_destroy_deadline := Some (seconds 3300) |} ]} no_tables.

Lemma deadline_sweep_safe_witness :
  let w := (healthy ex_two_overdue 0, DryRunProvider.seed ["i-1"; "i-2"] (DryRunProvider.new 0)) in
  let r := sweep_deadlines BillingIncrement.PerHour (seconds 3600) w in
  let nodes := omap parse_node (select_nodes ex_two_overdue) in
  (sw_reaped <$> (match r.1 with Ok rep => Some rep | Err _ => None end)) =
    Some ["bc-b1-fanout-0"] ∧
  (ih_provider_id <$> dr_live r.2.2) = ["i-2"] ∧
  ∃ n, n ∈ nodes ∧ on_mm_node_id n = "bc-b2-fanout-0" ∧ overdue (seconds 3600) n ∧
    put_off BillingIncrement.PerHour (seconds 3600) n.
Proof.
  intros w r nodes. destruct (deadline_sweep_safe BillingIncrement.PerHour (seconds 3600) w)
    as [_ Hrep]. split; [vm_compute; reflexivity|]. split; [vm_compute; reflexivity|].
  destruct (sweep_deadlines BillingIncrement.PerHour (seconds 3600) w).1 as [rep|e] eqn:E;
    [|vm_compute in E; discriminate].
  apply (proj1 (Hrep rep eq_refl)). vm_compute in E. injection E as <-.
  apply (bool_decide_eq_true_1 _). vm_compute. reflexivity.
Defined.

(** The orphan sweep never destroys what it should not: when our own nodes
    cannot be read or the provider cannot be listed, nothing at all happens; and a
    machine it does destroy has a handle that no node row carries, whatever the
    row's state, and was reported with an age of at least the grace period. *)
Theorem orphan_sweep_safe {P : Type} `{Provider P} `{!ProviderLaws P}
    (now : DateTime) (min_age : Z) (w : Db * P) :
  let r := sweep_orphans now min_age w in
  let nodes := omap parse_node (select_nodes (db_tables w.1)) in
  db_tables r.2.1 = db_tables w.1 ∧
  (is_ok r.1 = false → running r.2.2 = running w.2) ∧
  (∀ h, h ∈ running w.2 → h ∉ running r.2.2 →
    (∀ n, n ∈ nodes → on_provider_id n ≠ Some (ih_provider_id h)) ∧
    ∃ h' t, h' ∈ running w.2 ∧ ih_provider_id h' = ih_provider_id h ∧
      ih_created_at h' = Some t ∧ t ≤ now ∧ min_age ≤ now - t).
Proof.
  cbv zeta. set (nodes := omap _ _). unfold sweep_orphans, st_bind, st_fst.
  pose proof (load_nodes_tables w.1) as Ht. pose proof (load_nodes_ok w.1) as Hl.
  destruct (load_nodes w.1) as [[l|e] db1]; simpl in *;
    [|split; [done|]; split; [done|]; intros h ??; contradiction].
  specialize (Hl l eq_refl). fold nodes in Hl. subst l.
  unfold st_try, st_bind, st_snd. cbn [fst snd].
  pose proof (list_changes_nothing w.2) as Hrun. pose proof (list_ok_running w.2) as Hlist.
  destruct (provider_list w.2) as [[listed|e] p1]; simpl in *;
    [|rewrite Hrun; split; [done|]; split; [done|]; intros h ??; contradiction].
  specialize (λ h, Hlist listed h eq_refl). rewrite <- Hrun.
  pose proof (orphan_fold_only_destroys (P := P) now min_age (known_ids nodes) listed
    empty_report) as Hf.
  destruct (foldl _ _ listed) as [rep ids]. simpl in Hf. specialize (Hf rep (db1, p1)).
  assert (Htab : st_rel (both (λ a b : Db, db_tables b = db_tables a) (λ _ _ : P, True))
    (st_fold destroy_orphan (orphans ids (known_ids nodes)) rep)).
  { assert (PreOrder (λ a b : Db, db_tables b = db_tables a))
      by (split; [done|intros ???; congruence]).
    assert (PreOrder (λ _ _ : P, True)) by (split; done).
    unfold destroy_orphan. st_steps. by apply st_rel_snd. }
  specialize (Htab (db1, p1)). destruct (st_fold _ _ _ _) as [rep' w']. simpl in *.
  destruct Htab as [Htab _]. simpl in Htab. rewrite Htab. destruct Hf as (_ & _ & Hf).
  split; [done|]. split; [done|]. intros h Hh Hn.
  destruct (Hf h Hh Hn) as (Hk & h' & Hh' & Hid & Hold). split.
  - intros n Hin Hpid. apply Hk. unfold known_ids. rewrite elem_of_list_to_set.
    apply list_elem_of_omap. by exists n.
  - rewrite Hlist, <- Hrun in Hh'. unfold old_enough in Hold.
    destruct (ih_created_at h') as [t|] eqn:Et; [|done].
    exists h', t. rewrite andb_true_iff, !Z.leb_le in Hold. destruct Hold. auto 10.
Qed.
