(* ===== verification/Tfvars.v ===== *)
(** * Tfvars: rendering the desired set for Terraform

    [mm-fleet/src/tfvars.rs]. Every key missing from the file is a machine
    Terraform destroys, so the write is atomic and a large shrink is refused unless
    the caller allows it. The JSON library and the time formatter are parameters;
    the file system is a state whose operations fail as a script says. *)
From S2P Require Import Prelude F64 FleetTypes Billing Planner Schema Provider DesiredStore.
Local Open Scope Z_scope.
Local Open Scope mm_scope.

Record TfNode : Type := {
  tf_flavor : string;
  tf_ownership : string;
  tf_region : string;
  tf_size : string;
  tf_broadcast_id : option string;
  tf_destroy_deadline : option string
}.

(** [BTreeMap<String, TfNode>]. *)
Record Tfvars : Type := { desired_nodes : gmap string TfNode }.

Definition tfvars_len (t : Tfvars) : Z := Z.of_nat (size (desired_nodes t)).

Module TfvarsError.
Inductive t : Type :=
  | UnexpectedShrink (existing new removed : Z)
  | Serialize (msg : string)
  | Io (path msg : string).
End TfvarsError.

Record TfvarsWriter : Type := {
  tw_path : string;
  tw_tmp : string;
  tw_shrink_threshold : f64
}.

(** [TfvarsWriter::new]; [pid] is the process id in the name of the temporary file. *)
Definition tfvars_writer_new (dir : string) (pid : Z) : TfvarsWriter := {|
  tw_path := dir +:+ "/desired_nodes.auto.tfvars.json";
  tw_tmp := dir +:+ "/.desired_nodes.auto.tfvars.json.tmp-" +:+ fmt_u32 pid;
  tw_shrink_threshold := f64_of_ratio 5 10
|}.

Definition with_shrink_threshold (w : TfvarsWriter) (fraction : f64) : TfvarsWriter := {|
  tw_path := tw_path w; tw_tmp := tw_tmp w; tw_shrink_threshold := fraction
|}.

(** ** The file system

    Every call either works or fails; a failed write leaves any content in the file
    it was writing. *)
Inductive io : Type :=
  | IoOk
  | IoFail (msg : string) (left_behind : string).

Record Disk : Type := { files : gmap string string; io_script : list io }.

Definition next_io (d : Disk) : io * Disk :=
  match io_script d with
  | [] => (IoOk, d)
  | o :: rest => (o, {| files := files d; io_script := rest |})
  end.

Definition set_files (m : gmap string string) (d : Disk) : Disk :=
  {| files := m; io_script := io_script d |}.

(** [read_to_string]: the file, its absence, or another error. *)
Definition fs_read (path : string) : st Disk (result (option string) string) := λ d,
  match next_io d with
  | (IoFail m _, d') => (Err m, d')
  | (IoOk, d') => (Ok (files d !! path), d')
  end.

(** [File::create] truncates. *)
Definition fs_create (path : string) : st Disk (result unit string) := λ d,
  match next_io d with
  | (IoFail m _, d') => (Err m, d')
  | (IoOk, d') => (Ok tt, set_files (<[path := ""]> (files d)) d')
  end.

Definition fs_write_all (path body : string) : st Disk (result unit string) := λ d,
  match next_io d with
  | (IoFail m part, d') => (Err m, set_files (<[path := part]> (files d)) d')
  | (IoOk, d') => (Ok tt, set_files (<[path := body]> (files d)) d')
  end.

(** [sync_all]: a failure means the content may not have reached the disk. *)
Definition fs_sync (path : string) : st Disk (result unit string) := λ d,
  match next_io d with
  | (IoFail m part, d') => (Err m, set_files (<[path := part]> (files d)) d')
  | (IoOk, d') => (Ok tt, d')
  end.

(** [rename] is atomic within one directory. *)
Definition fs_rename (from to : string) : st Disk (result unit string) := λ d,
  match next_io d with
  | (IoFail m _, d') => (Err m, d')
  | (IoOk, d') =>
      match files d !! from with
      | Some body => (Ok tt, set_files (<[to := body]> (delete from (files d))) d')
      | None => (Err "No such file or directory", d')
      end
  end.

Definition lift_io {A} (path : string) (m : st Disk (result A string)) :
    st Disk (result A TfvarsError.t) :=
  let! r := m in st_ret (map_err (TfvarsError.Io path) r).

Section tfvars.
(** [serde_json::to_string_pretty], [serde_json::from_str] and chrono's
    [to_rfc3339]. *)
Context (to_string_pretty : Tfvars → result string string).
Context (from_str : string → result Tfvars string).
Context (to_rfc3339 : DateTime → string).

Definition tf_node (r : DesiredRow) : TfNode := {|
  tf_flavor := NodeFlavor.as_str (dr_flavor r);
  tf_ownership := Ownership.as_str (dr_ownership r);
  tf_region := dr_region r;
  tf_size := dr_size r;
  tf_broadcast_id := dr_broadcast_id r;
  tf_destroy_deadline := to_rfc3339 <$> dr_destroy_deadline r
|}.

(** [collect] into a map: the last row of a key wins. *)
Definition from_rows (rows : list DesiredRow) : Tfvars := {|
  desired_nodes := foldl (λ m r, <[dr_mm_node_id r := tf_node r]> m) ∅ rows
|}.

Definition read_current (w : TfvarsWriter) : st Disk (result Tfvars TfvarsError.t) :=
  let? text := lift_io (tw_path w) (fs_read (tw_path w)) in
  match text with
  | Some text => st_ret (map_err TfvarsError.Serialize (from_str text))
  | None => st_ret (Ok {| desired_nodes := ∅ |})
  end.

(** How many keys of [current] are missing from [next]. *)
Definition removed_keys (current next : Tfvars) : Z :=
  Z.of_nat (size (filter (λ kn, desired_nodes next !! kn.1 = None)
    (desired_nodes current))).

(** The condition of the shrink guard. *)
Definition shrinks_too_much (w : TfvarsWriter) (current next : Tfvars) : bool :=
  let removed := removed_keys current next in
  (0 <? removed) &&
  f64_lt (f64_mul (f64_of_Z (tfvars_len current)) (tw_shrink_threshold w))
    (f64_of_Z removed).

Definition guard (w : TfvarsWriter) (next : Tfvars) : st Disk (result unit TfvarsError.t) :=
  let? current := read_current w in
  st_ret (if shrinks_too_much w current next
    then Err (TfvarsError.UnexpectedShrink (tfvars_len current) (tfvars_len next)
           (removed_keys current next))
    else Ok tt).

Definition render (next : Tfvars) : result string TfvarsError.t :=
  match to_string_pretty next with
  | Ok body => Ok (body +:+ bytes [10%nat])
  | Err m => Err (TfvarsError.Serialize m)
  end.

Definition write_tmp (tmp body : string) : st Disk (result unit string) :=
  let? _ := fs_create tmp in
  let? _ := fs_write_all tmp body in
  fs_sync tmp.

Definition write (w : TfvarsWriter) (rows : list DesiredRow) (allow_shrink : bool) :
    st Disk (result Tfvars TfvarsError.t) :=
  let next := from_rows rows in
  let? _ := (if allow_shrink then st_ret (Ok tt) else guard w next) in
  let? body := st_ret (render next) in
  let? _ := lift_io (tw_tmp w) (write_tmp (tw_tmp w) body) in
  let? _ := lift_io (tw_path w) (fs_rename (tw_tmp w) (tw_path w)) in
  st_ret (Ok next).
End tfvars.

(** ** Lemmas *)
Lemma lift_io_run {A} path (m : st Disk (result A string)) d :
  lift_io path m d = (map_err (TfvarsError.Io path) (m d).1, (m d).2).
Proof. unfold lift_io, st_bind, st_ret. by destruct (m d). Qed.

(** Everything but one path. *)
Definition same_but (path : string) (d d' : Disk) : Prop :=
  delete path (files d') = delete path (files d).

#[export] Instance same_but_preorder path : PreOrder (same_but path).
Proof. split; [done|]. intros a b c. unfold same_but. congruence. Qed.

Lemma next_io_files d : files (next_io d).2 = files d.
Proof. unfold next_io. by destruct (io_script d). Qed.

Ltac fs_op := unfold fs_read, fs_create, fs_write_all, fs_sync, fs_rename;
  match goal with |- context [next_io ?d] =>
    pose proof (next_io_files d); destruct (next_io d) as [[|? ?] ?]; simpl in * end.

Lemma write_tmp_same_but tmp body : st_rel (same_but tmp) (write_tmp tmp body).
Proof.
  unfold write_tmp. st_steps; intros d; unfold same_but; fs_op;
    rewrite ?delete_insert_eq; congruence.
Qed.

Lemma write_tmp_ok tmp body d :
  (write_tmp tmp body d).1 = Ok tt → files (write_tmp tmp body d).2 !! tmp = Some body.
Proof.
  unfold write_tmp, st_try, st_bind. unfold fs_create.
  destruct (next_io d) as [[|m p] d1]; simpl; [|done].
  unfold fs_write_all. destruct (next_io (set_files _ d1)) as [[|m p] d2]; simpl; [|done].
  unfold fs_sync. pose proof (next_io_files (set_files
    (<[tmp := body]> (<[tmp := ""]> (files d))) d2)) as Hf. simpl in *.
  destruct (next_io (set_files _ d2)) as [[|m p] d3]; simpl; [|done].
  intros _. simpl in Hf. rewrite Hf. apply lookup_insert_eq.
Qed.

Lemma writer_paths_differ dir pid :
  tw_tmp (tfvars_writer_new dir pid) ≠ tw_path (tfvars_writer_new dir pid).
Proof. simpl. intros H%(inj (String.append dir)). discriminate. Qed.

Section tfvars_lemmas.
Context (to_string_pretty : Tfvars → result string string).
Context (from_str : string → result Tfvars string).
Context (to_rfc3339 : DateTime → string).

(** What Terraform would read from a file, [None] when it cannot be parsed. *)
Definition contents (d : Disk) (path : string) : option Tfvars :=
  match files d !! path with
  | Some text => match from_str text with Ok t => Some t | Err _ => None end
  | None => Some {| desired_nodes := ∅ |}
  end.

Lemma read_current_ok w d t :
  (read_current from_str w d).1 = Ok t → contents d (tw_path w) = Some t.
Proof.
  unfold read_current, contents, st_try, st_bind. rewrite lift_io_run. unfold fs_read.
  destruct (next_io d) as [[|m p] d']; simpl; [|done].
  destruct (files d !! tw_path w) as [text|]; simpl; [|by intros [= <-]].
  destruct (from_str text); simpl; [by intros [= ->] | done].
Qed.

Lemma read_current_files w d : files (read_current from_str w d).2 = files d.
Proof.
  unfold read_current, st_try, st_bind. rewrite lift_io_run. unfold fs_read.
  pose proof (next_io_files d). destruct (next_io d) as [[|m p] d']; simpl in *; [|done].
  destruct (files d !! tw_path w) as [text|]; done.
Qed.

Lemma guard_ok w next d :
  (guard from_str w next d).1 = Ok tt →
  ∃ current, contents d (tw_path w) = Some current ∧
    shrinks_too_much w current next = false.
Proof.
  unfold guard, st_try, st_bind. pose proof (read_current_ok w d) as Hr.
  destruct (read_current from_str w d) as [[c|e] d']; simpl in *; [|done].
  destruct (shrinks_too_much w c next) eqn:E; [done|]. intros _. exists c. eauto.
Qed.

Lemma guard_files w next d : files (guard from_str w next d).2 = files d.
Proof.
  unfold guard, st_try, st_bind. pose proof (read_current_files w d) as Hr.
  destruct (read_current from_str w d) as [[c|e] d']; simpl in *; done.
Qed.

Lemma lookup_same_but path other d d' :
  other ≠ path → same_but path d d' → files d' !! other = files d !! other.
Proof.
  unfold same_but. intros Hne Hs. rewrite <- (lookup_delete_ne (files d') path) by done.
  by rewrite Hs, lookup_delete_ne.
Qed.

(** Every run of [write]: the target is untouched, or it is the whole rendering. *)
Lemma write_cases w rows allow d :
  tw_tmp w ≠ tw_path w →
  let r := write to_string_pretty from_str to_rfc3339 w rows allow d in
  let next := from_rows to_rfc3339 rows in
  (files r.2 !! tw_path w = files d !! tw_path w ∧ is_ok r.1 = false) ∨
  (r.1 = Ok next ∧ ∃ body, render to_string_pretty next = Ok body ∧
    files r.2 !! tw_path w = Some body ∧
    (allow = true ∨ (guard from_str w next d).1 = Ok tt)).
Proof.
  intros Hne. cbv zeta. remember (write _ _ _ w rows allow d) as r eqn:Hr. revert Hr.
  unfold write, st_try at 1, st_bind at 1.
  set (g := if allow then _ else _).
  assert (Hg : files (g d).2 = files d ∧ ((g d).1 = Ok tt →
    allow = true ∨ (guard from_str w (from_rows to_rfc3339 rows) d).1 = Ok tt)).
  { subst g. destruct allow; [by auto|]. split; [apply guard_files | auto]. }
  destruct (g d) as [[[]|e] d1]; simpl in Hg; destruct Hg as [Hf Hg]; simpl;
    [|intros ->; left; simpl; by rewrite Hf].
  specialize (Hg eq_refl). unfold st_try at 1, st_bind at 1.
  destruct (render to_string_pretty _) as [body|e] eqn:Eb; simpl;
    [|intros ->; left; simpl; by rewrite Hf].
  unfold st_try at 1, st_bind at 1. rewrite lift_io_run.
  pose proof (lookup_same_but _ _ _ _ (not_eq_sym Hne)
    (write_tmp_same_but (tw_tmp w) body d1)) as Hs.
  pose proof (write_tmp_ok (tw_tmp w) body d1) as Hw.
  destruct (write_tmp (tw_tmp w) body d1) as [[[]|e] d2]; simpl in *;
    [|intros ->; left; simpl; by rewrite Hs, Hf].
  unfold st_try at 1, st_bind at 1. rewrite lift_io_run. unfold fs_rename.
  pose proof (next_io_files d2) as Hf2.
  destruct (next_io d2) as [[|m p] d3]; simpl in *;
    [|intros ->; left; simpl; by rewrite Hf2, Hs, Hf].
  rewrite (Hw eq_refl). simpl. intros ->. right. simpl. split; [done|].
  exists body. split; [done|]. split; [apply lookup_insert_eq | done].
Qed.
End tfvars_lemmas.

(** Half of a count below 2^53 is exact, so the default guard is the comparison
    one expects. *)
Lemma half_exact (n : Z) :
  0 ≤ n < PREC → f64_mul (f64_of_Z n) (f64_of_ratio 5 10) = Fin (n * 2 ^ 1073).
Proof.
  intros Hn. rewrite f64_of_Z_small by done.
  assert (Hh : f64_of_ratio 5 10 = Fin (2 ^ 1073)) by (vm_compute; reflexivity).
  rewrite Hh. unfold f64_mul.
  replace (n * UNIT * 2 ^ 1073) with (n * 2 ^ 1073 * UNIT) by lia.
  rewrite rnd_exact by (pose proof UNIT_pos; lia). unfold f64_make.
  pose proof (UNIT_lt_OVER n ltac:(lia)) as Ho.
  assert (0 < 2 ^ 1073) by (apply Z.pow_pos_nonneg; lia).
  assert (UNIT = 2 * 2 ^ 1073) by
    (unfold UNIT; rewrite <- Z.pow_succ_r by lia; reflexivity).
  rewrite (proj2 (Z.leb_gt _ _)); [done|nia].
Qed.

Lemma removed_le_len current next : 0 ≤ removed_keys current next ≤ tfvars_len current.
Proof.
  unfold removed_keys, tfvars_len. split; [lia|]. apply Nat2Z.inj_le.
  rewrite <- !size_dom. apply subseteq_size, subseteq_dom, map_filter_subseteq.
Qed.

Lemma default_guard_spec dir pid current next :
  tfvars_len current < PREC →
  shrinks_too_much (tfvars_writer_new dir pid) current next = false →
  2 * removed_keys current next ≤ tfvars_len current.
Proof.
  intros Hl. pose proof (removed_le_len current next) as Hr. unfold shrinks_too_much.
  cbn [tw_shrink_threshold tfvars_writer_new]. rewrite half_exact by lia.
  rewrite f64_of_Z_small by lia. set (n := tfvars_len current) in *.
  set (k := removed_keys current next) in *. clearbody n k.
  destruct (Z.ltb_spec 0 k); [|lia]. rewrite andb_true_l.
  unfold f64_lt, f64_le. rewrite negb_false_iff, Z.leb_le. intros Hle.
  assert (UNIT = 2 * 2 ^ 1073) by
    (unfold UNIT; rewrite <- Z.pow_succ_r by lia; reflexivity).
  assert (0 < 2 ^ 1073) by (apply Z.pow_pos_nonneg; lia). nia.
Qed.

(** ** Properties *)

(** Terraform never reads a partial file: whatever read, write, sync or rename
    fails, the target holds either exactly what it held before, and the write
    reports an error, or the complete rendering of the given rows; after a
    successful write, what Terraform reads is the desired set. *)
Theorem tfvars_write_atomic (to_string_pretty : Tfvars → result string string)
    (from_str : string → result Tfvars string) (to_rfc3339 : DateTime → string)
    (serde_roundtrip : ∀ t body,
      to_string_pretty t = Ok body → from_str (body +:+ bytes [10%nat]) = Ok t)
    (dir : string) (pid : Z) (rows : list DesiredRow) (allow_shrink : bool) (d : Disk) :
  let w := tfvars_writer_new dir pid in
  let r := write to_string_pretty from_str to_rfc3339 w rows allow_shrink d in
  (files r.2 !! tw_path w = files d !! tw_path w ∧ is_ok r.1 = false) ∨
  (r.1 = Ok (from_rows to_rfc3339 rows) ∧
    contents from_str r.2 (tw_path w) = Some (from_rows to_rfc3339 rows)).
Proof.
  cbv zeta. destruct (write_cases to_string_pretty from_str to_rfc3339
    (tfvars_writer_new dir pid) rows allow_shrink d (writer_paths_differ dir pid))
    as [?|(Hr & body & Hb & Hf & _)]; [by left|right].
  split; [done|]. unfold contents. rewrite Hf. unfold render in Hb.
  destruct (to_string_pretty _) as [b|m] eqn:Eb; [|done].
  assert (Hbody : body = b +:+ bytes [10%nat]) by congruence.
  by rewrite Hbody, (serde_roundtrip _ _ Eb).
Qed.

(** A JSON library that knows two documents. *)
Definition ex_row : DesiredRow := {|
  dr_mm_node_id := "bc-b1-fanout-0"; dr_flavor := NodeFlavor.Fanout;
  dr_ownership := Ownership.Rented; dr_region := "eu"; dr_size := "s";
  dr_broadcast_id := Some "b1"; dr_requested_at := 0; dr_destroy_deadline := Some 9 |}.
Definition ex_tf : Tfvars := from_rows (λ _, "t") [ex_row].

#[export] Instance TfNode_eq_dec : EqDecision TfNode.
Proof. solve_decision. Defined.
#[export] Instance Tfvars_eq_dec : EqDecision Tfvars.
Proof. solve_decision. Defined.

Definition ex_print (t : Tfvars) : result string string :=
  if decide (t = ex_tf) then Ok "{b1}"
  else if decide (t = {| desired_nodes := ∅ |}) then Ok "{}" else Err "unsupported".
Definition ex_parse (s : string) : result Tfvars string :=
  if decide (s = "{b1}" +:+ bytes [10%nat]) then Ok ex_tf
  else if decide (s = "{}" +:+ bytes [10%nat]) then Ok {| desired_nodes := ∅ |}
  else Err "syntax".

Lemma ex_serde_roundtrip t body :
  ex_print t = Ok body → ex_parse (body +:+ bytes [10%nat]) = Ok t.
Proof.
  unfold ex_print. repeat case_decide; intros [= <-]; subst; vm_compute; reflexivity.
Qed.

Lemma tfvars_write_atomic_witness :
  let w := tfvars_writer_new "/tf" 1 in
  let d := {| files := ∅; io_script := [IoOk; IoOk; IoFail "disk full" "{b"] |} in
  (files (write ex_print ex_parse (λ _, "t") w [ex_row] false d).2 !! tw_path w
     = files d !! tw_path w ∧
   is_ok (write ex_print ex_parse (λ _, "t") w [ex_row] false d).1 = false) ∨
  ((write ex_print ex_parse (λ _, "t") w [ex_row] false d).1 = Ok ex_tf ∧
   contents ex_parse (write ex_print ex_parse (λ _, "t") w [ex_row] false d).2
     (tw_path w) = Some ex_tf).
Proof.
  exact (tfvars_write_atomic ex_print ex_parse (λ _, "t") ex_serde_roundtrip "/tf" 1
    [ex_row] false {| files := ∅; io_script := [IoOk; IoOk; IoFail "disk full" "{b"] |}).
Defined.

(** A guarded write never removes more than half of the machines Terraform
    manages: when a write that does not allow shrinking succeeds with the default
    threshold, the file on disk could be parsed and at most half of its keys are
    missing from the new set; an existing file that cannot be parsed is never
    treated as empty. *)
Theorem tfvars_guard_bounds_removal (to_string_pretty : Tfvars → result string string)
    (from_str : string → result Tfvars string) (to_rfc3339 : DateTime → string)
    (dir : string) (pid : Z) (rows : list DesiredRow) (d : Disk) :
  let w := tfvars_writer_new dir pid in
  let r := write to_string_pretty from_str to_rfc3339 w rows false d in
  is_ok r.1 = true →
  ∃ current, contents from_str d (tw_path w) = Some current ∧
    (tfvars_len current < PREC →
     2 * removed_keys current (from_rows to_rfc3339 rows) ≤ tfvars_len current).
Proof.
  cbv zeta. intros Hok. destruct (write_cases to_string_pretty from_str to_rfc3339
    (tfvars_writer_new dir pid) rows false d (writer_paths_differ dir pid))
    as [[_ He]|(Hr & body & Hb & Hf & [?|Hg])]; [by rewrite Hok in He|done|].
  destruct (guard_ok _ _ _ _ Hg) as (current & Hc & Hs). exists current.
  split; [done|]. intros Hl. by eapply default_guard_spec.
Qed.

Lemma tfvars_guard_bounds_removal_witness :
  let w := tfvars_writer_new "/tf" 1 in
  let d := {| files := {[ tw_path w := "{b1}" +:+ bytes [10%nat] ]}; io_script := [] |} in
  (write ex_print ex_parse (λ _, "t") w [] false d).1
    = Err (TfvarsError.UnexpectedShrink 1 0 1) ∧
  ∃ current, contents ex_parse d (tw_path w) = Some current ∧
    (tfvars_len current < PREC →
     2 * removed_keys current (from_rows (λ _, "t") [ex_row]) ≤ tfvars_len current).
Proof.
  intros w d. split; [vm_compute; reflexivity|].
  apply (tfvars_guard_bounds_removal ex_print ex_parse (λ _, "t") "/tf" 1 [ex_row] d).
  vm_compute. reflexivity.
Defined.
