(* ===== verification/Runner.v ===== *)
(** * Runner: the reconcile loop

    [mm-fleet/src/runner.rs]. One tick observes what exists, releases the nodes of
    broadcasts that ended, asks the planner what each live broadcast should have,
    writes the desired set and renders it for Terraform. The census and the billing
    source are classes of operations on the shared state; what a tick promises is
    proved against their laws. *)
From S2P Require Import Prelude F64 FleetTypes Billing Planner Schema Provider DesiredStore.
From S2P Require Import Sweeper Tfvars.
Local Open Scope Z_scope.
Local Open Scope mm_scope.

Record LiveBroadcast : Type := { lb_broadcast_id : string; lb_viewers : Z }.

Record BroadcastBilling : Type := {
  bb_available_balance_minor : Z;
  bb_projected_cost_minor : Z;
  bb_transcode_enabled : bool
}.

(** The traits, over the state [S] they read. *)
Class BroadcastCensus (S : Type) : Type := {
  live_broadcasts : st S (result (list LiveBroadcast) string);
  programme_is_live : string → st S (result bool string)
}.

Class BillingSource (S : Type) : Type := {
  quote : string → st S (result BroadcastBilling string)
}.

(** The default until a wallet exists: refuses to quote. *)
Definition no_billing_yet {S : Type} : BillingSource S := {|
  quote := λ broadcast_id, st_ret (Err ("no wallet for broadcast " +:+ broadcast_id +:+
    ": prepaid billing is WS-D and does not exist yet, so nothing may be provisioned on its behalf"))
|}.

Record TickReport : Type := {
  tr_mode : string;
  tr_planned : list string;
  tr_skipped : list (string * string);
  tr_torn_down : list string;
  tr_teardown_failures : list string;
  tr_nodes_observed : Z;
  tr_tfvars_nodes : option Z
}.

Definition push_planned (id : string) (r : TickReport) : TickReport := {|
  tr_mode := tr_mode r; tr_planned := tr_planned r ++ [id]; tr_skipped := tr_skipped r;
  tr_torn_down := tr_torn_down r; tr_teardown_failures := tr_teardown_failures r;
  tr_nodes_observed := tr_nodes_observed r; tr_tfvars_nodes := tr_tfvars_nodes r |}.
Definition push_skipped (id why : string) (r : TickReport) : TickReport := {|
  tr_mode := tr_mode r; tr_planned := tr_planned r;
  tr_skipped := tr_skipped r ++ [(id, why)];
  tr_torn_down := tr_torn_down r; tr_teardown_failures := tr_teardown_failures r;
  tr_nodes_observed := tr_nodes_observed r; tr_tfvars_nodes := tr_tfvars_nodes r |}.
Definition push_torn_down (id : string) (r : TickReport) : TickReport := {|
  tr_mode := tr_mode r; tr_planned := tr_planned r; tr_skipped := tr_skipped r;
  tr_torn_down := tr_torn_down r ++ [id];
  tr_teardown_failures := tr_teardown_failures r;
  tr_nodes_observed := tr_nodes_observed r; tr_tfvars_nodes := tr_tfvars_nodes r |}.
Definition push_teardown_failure (id : string) (r : TickReport) : TickReport := {|
  tr_mode := tr_mode r; tr_planned := tr_planned r; tr_skipped := tr_skipped r;
  tr_torn_down := tr_torn_down r;
  tr_teardown_failures := tr_teardown_failures r ++ [id];
  tr_nodes_observed := tr_nodes_observed r; tr_tfvars_nodes := tr_tfvars_nodes r |}.
Definition set_tfvars_nodes (n : Z) (r : TickReport) : TickReport := {|
  tr_mode := tr_mode r; tr_planned := tr_planned r; tr_skipped := tr_skipped r;
  tr_torn_down := tr_torn_down r; tr_teardown_failures := tr_teardown_failures r;
  tr_nodes_observed := tr_nodes_observed r; tr_tfvars_nodes := Some n |}.

Definition is_reapable_now (n : ObservedNode) : bool :=
  Ownership.is_reapable (on_ownership n) && bool_decide (on_state n ≠ NodeState.Gone).

Definition observed_to_fleet_node (n : ObservedNode) : FleetNode := {|
  fn_id := on_mm_node_id n;
  fn_flavor := on_flavor n;
  fn_ownership := on_ownership n;
  fn_state := on_state n;
  fn_viewer_capacity := on_viewer_capacity n;
  fn_viewers_current := on_viewers_current n
|}.

Definition nodes_for_broadcast (nodes : list ObservedNode) (broadcast_id : string) :
    list FleetNode :=
  let prefix := "bc-" +:+ broadcast_id +:+ "-" in
  observed_to_fleet_node <$>
    List.filter (λ n, starts_with prefix (on_mm_node_id n)) nodes.

(** [num_milliseconds() as f64 / 1000.0], unless it is negative. *)
Definition provision_seconds (requested_at : option DateTime) (now : DateTime) :
    option f64 :=
  match requested_at with
  | None => None
  | Some requested_at =>
      let secs := f64_div (f64_of_Z (Z.quot (now - requested_at) 1000000))
        (f64_of_Z 1000) in
      if f64_le (f64_of_Z 0) secs then Some secs else None
  end.

(** What the runner keeps besides the database and the provider: the Terraform
    directory, the nodes already timed, and the histogram. *)
Record RunnerState : Type := {
  rs_disk : Disk;
  rs_timed : gset string;
  rs_provision_seconds : list (string * f64)
}.

Definition on_disk {A} (m : st Disk A) : st RunnerState A := λ s,
  let (a, d) := m (rs_disk s) in
  (a, {| rs_disk := d; rs_timed := rs_timed s;
         rs_provision_seconds := rs_provision_seconds s |}).

Definition observe_one (requested : gmap string DateTime) (now : DateTime)
    (s : RunnerState) (n : ObservedNode) : RunnerState :=
  if bool_decide (on_mm_node_id n ∈ rs_timed s) then s
  else
    match provision_seconds (requested !! on_mm_node_id n) now with
    | Some secs => {|
        rs_disk := rs_disk s;
        rs_timed := {[ on_mm_node_id n ]} ∪ rs_timed s;
        rs_provision_seconds :=
          rs_provision_seconds s ++ [(NodeFlavor.as_str (on_flavor n), secs)] |}
    | None => s
    end.

Definition observe_provision_times (nodes : list ObservedNode) (desired : list DesiredRow)
    (now : DateTime) : st RunnerState unit := λ s,
  let requested : gmap string DateTime :=
    foldl (λ m d, <[dr_mm_node_id d := dr_requested_at d]> m) ∅ desired in
  (tt, foldl (observe_one requested now) s
         (List.filter (λ n, bool_decide (on_state n = NodeState.Healthy)) nodes)).

Section runner.
Context {P : Type} `{Provider P}.
Context `{BroadcastCensus (Db * P)} `{BillingSource (Db * P)}.
Context (to_string_pretty : Tfvars → result string string).
Context (from_str : string → result Tfvars string).
Context (to_rfc3339 : DateTime → string).
Context (policy : FleetPolicy) (tfvars : option TfvarsWriter).

Definition World : Type := (Db * P) * RunnerState.

Definition tear_down (report : TickReport) (node : ObservedNode) : st World TickReport :=
  let! r := st_fst (teardown (teardown_target node)) in
  match r with
  | Ok _ => st_ret (push_torn_down (on_mm_node_id node) report)
  | Err _ => st_ret (push_teardown_failure (on_mm_node_id node) report)
  end.

Definition render_tfvars (report : TickReport) (allow_shrink : bool) :
    st World TickReport :=
  match tfvars with
  | None => st_ret report
  | Some writer =>
      let! rows := st_fst (st_fst load_all) in
      match rows with
      | Err _ => st_ret report
      | Ok rows =>
          let! written := st_snd (on_disk
            (write to_string_pretty from_str to_rfc3339 writer rows allow_shrink)) in
          match written with
          | Ok t => st_ret (set_tfvars_nodes (tfvars_len t) report)
          | Err _ => st_ret report
          end
      end
  end.

Definition plan_one (bc : LiveBroadcast) (nodes : list ObservedNode) (now : DateTime) :
    st World (result unit string) :=
  let? billing := st_fst (quote (lb_broadcast_id bc)) in
  let? live := st_fst (programme_is_live (lb_broadcast_id bc)) in
  let obs := {|
    fo_broadcast_id := lb_broadcast_id bc;
    fo_programme_is_live := live;
    fo_transcode_enabled := bb_transcode_enabled billing;
    fo_viewers_projected := lb_viewers bc;
    fo_available_balance_minor := bb_available_balance_minor billing;
    fo_projected_cost_minor := bb_projected_cost_minor billing;
    fo_nodes := nodes_for_broadcast nodes (lb_broadcast_id bc)
  |} in
  let! r := st_fst (st_fst
    (upsert_for_broadcast (lb_broadcast_id bc) (plan obs policy) now)) in
  st_ret (map_err (λ e, "writing the desired set failed: " +:+ StoreError.to_string e) r).

(** The broadcast a node's desired row names, if it has a row. *)
Definition desired_broadcast (desired : list DesiredRow) (node : ObservedNode) :
    option string :=
  d ← List.find (λ d, String.eqb (dr_mm_node_id d) (on_mm_node_id node)) desired;
  dr_broadcast_id d.

Definition release_ended (desired : list DesiredRow) (live_ids : gset string)
    (report : TickReport) (node : ObservedNode) : st World TickReport :=
  match desired_broadcast desired node with
  | None => st_ret report
  | Some bc =>
      if negb (bool_decide (bc ∈ live_ids)) && is_reapable_now node
      then tear_down report node else st_ret report
  end.

Definition plan_live (nodes : list ObservedNode) (now : DateTime) (report : TickReport)
    (bc : LiveBroadcast) : st World TickReport :=
  let! r := plan_one bc nodes now in
  match r with
  | Ok _ => st_ret (push_planned (lb_broadcast_id bc) report)
  | Err why => st_ret (push_skipped (lb_broadcast_id bc) why report)
  end.

(** A tick once the nodes and the desired set are loaded. *)
Definition tick_body (nodes : list ObservedNode) (desired : list DesiredRow)
    (mode : FleetMode.t) (now : DateTime) : st World TickReport :=
  let report := {|
    tr_mode := FleetMode.as_str mode; tr_planned := []; tr_skipped := [];
    tr_torn_down := []; tr_teardown_failures := [];
    tr_nodes_observed := Z.of_nat (length nodes); tr_tfvars_nodes := None |} in
  let! _ := st_snd (observe_provision_times nodes desired now) in
  if bool_decide (mode = FleetMode.Off) then
    let! report := st_fold tear_down (List.filter is_reapable_now nodes) report in
    render_tfvars report true
  else
    let! census := st_fst live_broadcasts in
    match census with
    | Err e => st_ret (push_skipped "*" ("census unavailable: " +:+ e) report)
    | Ok live =>
        let live_ids : gset string := list_to_set (lb_broadcast_id <$> live) in
        let! report := st_fold (release_ended desired live_ids) nodes report in
        if negb (FleetMode.allows_placement mode) then render_tfvars report false
        else
          let! report := st_fold (plan_live nodes now) live report in
          render_tfvars report false
    end.

Definition tick (mode : FleetMode.t) (now : DateTime) :
    st World (result TickReport StoreError.t) :=
  let? nodes := st_fst (st_fst load_nodes) in
  let? desired := st_fst (st_fst load_all) in
  let! report := tick_body nodes desired mode now in
  st_ret (Ok report).
End runner.

(** ** Specification vocabulary *)
Section vocabulary.
Context {P : Type} `{Provider P} `{!ProviderLaws P}.

(** Reading only: the tables and the machines stay as they are. *)
Definition observes (w w' : Db * P) : Prop :=
  db_tables w'.1 = db_tables w.1 ∧ running w'.2 = running w.2.

#[export] Instance observes_preorder : PreOrder observes.
Proof.
  split; [done|]. intros a b c [??] [??]. split; congruence.
Qed.

(** Machines only disappear, and only those [S] allows. *)
Definition loses_only (S : InstanceHandle → Prop) (w w' : Db * P) : Prop :=
  (∀ h, h ∈ running w'.2 → h ∈ running w.2) ∧
  (∀ h, h ∈ running w.2 → h ∉ running w'.2 → S h).

#[export] Instance loses_only_preorder S : PreOrder (loses_only S).
Proof.
  split.
  - intros w. by split.
  - intros a b c (H2 & H3) (H5 & H6). split; [by auto|].
    intros h Ha Hc. destruct (decide (h ∈ running b.2)); auto.
Qed.

Definition tables_only (R : Tables → Tables → Prop) (w w' : Db * P) : Prop :=
  R (db_tables w.1) (db_tables w'.1).

#[export] Instance tables_only_preorder R `{!PreOrder R} : PreOrder (tables_only R).
Proof.
  split.
  - intros w. unfold tables_only. reflexivity.
  - intros a b c ??. unfold tables_only in *. by etrans.
Qed.
End vocabulary.

(** What the runner relies on: the census and the billing source only read. *)
Class CensusLaws (P : Type) `{ProviderLaws P} `{!BroadcastCensus (Db * P)} : Prop := {
  live_broadcasts_observes : st_rel observes live_broadcasts;
  programme_is_live_observes id : st_rel observes (programme_is_live id)
}.

Class BillingLaws (P : Type) `{ProviderLaws P} `{!BillingSource (Db * P)} : Prop := {
  quote_observes id : st_rel observes (quote id)
}.

(** ** Lemmas *)
Section runner_lemmas.
Context {P : Type} `{Provider P} `{!ProviderLaws P}.
Context `{!BroadcastCensus (Db * P)} `{!BillingSource (Db * P)}.
Context `{!CensusLaws P} `{!BillingLaws P}.
Context (to_string_pretty : Tfvars → result string string).
Context (from_str : string → result Tfvars string).
Context (to_rfc3339 : DateTime → string).
Context (policy : FleetPolicy) (tfvars : option TfvarsWriter).

(** A relation on the database and the provider, whatever the runner keeps. *)
Definition on_fleet (R : Db * P → Db * P → Prop) (a b : World (P := P)) : Prop :=
  R a.1 b.1.

#[export] Instance on_fleet_preorder R `{!PreOrder R} : PreOrder (on_fleet R).
Proof.
  split.
  - intros w. unfold on_fleet. reflexivity.
  - intros a b c ??. unfold on_fleet in *. by etrans.
Qed.

Lemma on_fleet_fst {A} R (m : st (Db * P) A) : st_rel R m → st_rel (on_fleet R) (st_fst m).
Proof.
  intros Hm [w s]. unfold st_fst, on_fleet. specialize (Hm w). simpl.
  by destruct (m w).
Qed.

Lemma on_fleet_snd {A} R `{!PreOrder R} (m : st RunnerState A) :
  st_rel (on_fleet R) (st_snd m).
Proof. intros [w s]. unfold st_snd, on_fleet. simpl. destruct (m s). simpl. reflexivity. Qed.

Lemma observes_only_destroys S (w w' : Db * P) : observes w w' → only_destroys S w w'.
Proof.
  intros [Ht Hr]. split; [unfold on_tables, desired_shrinks; by rewrite Ht|].
  rewrite Hr. by split.
Qed.

Lemma observes_loses_only S (w w' : Db * P) : observes w w' → loses_only S w w'.
Proof. intros [Ht Hr]. unfold loses_only. rewrite Hr. by split. Qed.

Lemma observes_tables R `{!PreOrder R} (w w' : Db * P) :
  observes w w' → tables_only R w w'.
Proof. intros [Ht _]. unfold tables_only. rewrite Ht. reflexivity. Qed.

Lemma load_nodes_observes : st_rel observes (st_fst load_nodes : st (Db * P) _).
Proof.
  intros [db p]. unfold st_fst. pose proof (load_nodes_tables db) as Ht. simpl.
  destruct (load_nodes db) as [r db']. by split.
Qed.

Lemma load_all_observes : st_rel observes (st_fst load_all : st (Db * P) _).
Proof.
  intros [db p]. unfold st_fst. pose proof (load_all_tables db) as Ht. simpl.
  destruct (load_all db) as [r db']. by split.
Qed.

Lemma render_observes report b :
  st_rel (on_fleet observes)
    (render_tfvars to_string_pretty from_str to_rfc3339 tfvars report b).
Proof.
  unfold render_tfvars. destruct tfvars; [|apply st_rel_ret; apply _].
  apply st_rel_bind; [apply _|apply on_fleet_fst, load_all_observes|].
  intros [rows|e]; [|apply st_rel_ret; apply _].
  apply st_rel_bind; [apply _|apply on_fleet_snd; apply _|].
  intros [?|?]; apply st_rel_ret; apply _.
Qed.

Lemma tear_down_destroys S report n :
  (∀ h, Ownership.is_reapable (on_ownership n) = true →
    on_provider_id n = Some (ih_provider_id h) → S h) →
  st_rel (on_fleet (only_destroys S)) (tear_down report n).
Proof.
  intros HS. unfold tear_down.
  apply st_rel_bind; [apply _| |intros [?|?]; apply st_rel_ret; apply _].
  apply on_fleet_fst, teardown_only_destroys. intros h Ho Hh. by apply HS.
Qed.

(** A node of a broadcast that the census does not list. *)
Definition ended (desired : list DesiredRow) (live_ids : gset string)
    (n : ObservedNode) : Prop :=
  ∃ b, desired_broadcast desired n = Some b ∧ b ∉ live_ids.

Definition may_lose (nodes : list ObservedNode) (allowed : ObservedNode → Prop)
    (h : InstanceHandle) : Prop :=
  ∃ n, n ∈ nodes ∧ on_provider_id n = Some (ih_provider_id h) ∧
    on_ownership n = Ownership.Rented ∧ on_state n ≠ NodeState.Gone ∧ allowed n.

Lemma reapable_now_spec n :
  is_reapable_now n = true ↔
  on_ownership n = Ownership.Rented ∧ on_state n ≠ NodeState.Gone.
Proof.
  unfold is_reapable_now. rewrite andb_true_iff, bool_decide_eq_true.
  assert (Ho : Ownership.is_reapable (on_ownership n) = true ↔
    on_ownership n = Ownership.Rented) by (by destruct (on_ownership n)).
  by rewrite Ho.
Qed.

Lemma release_destroys nodes desired live_ids report n :
  n ∈ nodes →
  st_rel (on_fleet (only_destroys (may_lose nodes (ended desired live_ids))))
    (release_ended desired live_ids report n).
Proof.
  intros Hn. unfold release_ended.
  destruct (desired_broadcast desired n) as [b|] eqn:Eb; [|apply st_rel_ret; apply _].
  destruct (bool_decide (b ∈ live_ids)) eqn:Ed; simpl; [apply st_rel_ret; apply _|].
  destruct (is_reapable_now n) eqn:En; [|apply st_rel_ret; apply _].
  apply reapable_now_spec in En as [Ho Hs]. apply tear_down_destroys.
  intros h _ Hh. exists n. repeat split; try done. exists b.
  by apply bool_decide_eq_false in Ed.
Qed.

Lemma release_all_destroys nodes desired live_ids report :
  st_rel (on_fleet (only_destroys (may_lose nodes (ended desired live_ids))))
    (st_fold (release_ended desired live_ids) nodes report).
Proof. apply st_rel_fold; [apply _|]. intros. by apply release_destroys. Qed.

Lemma off_destroys nodes report :
  st_rel (on_fleet (only_destroys (may_lose nodes (λ _, True))))
    (st_fold tear_down (List.filter is_reapable_now nodes) report).
Proof.
  apply st_rel_fold; [apply _|]. intros rep n Hn.
  rewrite list_elem_of_In, filter_In in Hn. destruct Hn as [Hin [Ho Hs]%reapable_now_spec].
  apply tear_down_destroys. intros h _ Hh. exists n. by rewrite list_elem_of_In.
Qed.

(** Planning touches no machine, and the tables only through the upsert. *)
Lemma plan_one_rel (R : Db * P → Db * P → Prop) `{!PreOrder R} bc nodes now :
  (∀ a b, observes a b → R a b) →
  (∀ obs, fo_broadcast_id obs = lb_broadcast_id bc →
    st_rel R (st_fst (upsert_for_broadcast (lb_broadcast_id bc) (plan obs policy) now))) →
  st_rel (on_fleet R) (plan_one policy bc nodes now).
Proof.
  intros Ho Hu. unfold plan_one.
  apply st_rel_try; [apply _| |intros billing].
  { apply on_fleet_fst. eapply st_rel_weaken; [exact Ho | apply quote_observes]. }
  apply st_rel_try; [apply _| |intros live].
  { apply on_fleet_fst. eapply st_rel_weaken; [exact Ho | apply programme_is_live_observes]. }
  apply st_rel_bind; [apply _| |intros r; apply st_rel_ret; apply _].
  apply on_fleet_fst. by apply Hu.
Qed.

Lemma plan_live_rel (R : Db * P → Db * P → Prop) `{!PreOrder R} bc nodes now report :
  (∀ a b, observes a b → R a b) →
  (∀ obs, fo_broadcast_id obs = lb_broadcast_id bc →
    st_rel R (st_fst (upsert_for_broadcast (lb_broadcast_id bc) (plan obs policy) now))) →
  st_rel (on_fleet R) (plan_live policy nodes now report bc).
Proof.
  intros Ho Hu. unfold plan_live. apply st_rel_bind; [apply _|by apply plan_one_rel|].
  intros [?|?]; apply st_rel_ret; apply _.
Qed.

(** Without a quote there is no plan. *)
Lemma plan_live_unquoted bc nodes now report :
  (∀ s, is_ok (quote (lb_broadcast_id bc) s).1 = false) →
  st_rel (on_fleet observes) (plan_live policy nodes now report bc).
Proof.
  intros Hq. unfold plan_live. apply st_rel_bind; [apply _| |intros [?|?]; apply st_rel_ret; apply _].
  unfold plan_one. intros [w s]. unfold st_try at 1, st_bind, st_fst. simpl.
  specialize (Hq w). pose proof (quote_observes (lb_broadcast_id bc) w) as Ho.
  destruct (quote (lb_broadcast_id bc) w) as [[b|e] w']; [done|]. exact Ho.
Qed.
End runner_lemmas.

(** Rows may be added or changed only on behalf of the broadcasts in [L]. *)
Definition grows_only_for (L : list string) (t t' : Tables) : Prop :=
  ∀ id row, t_desired t' !! id = Some row →
    t_desired t !! id = Some row ∨ ∃ b, b ∈ L ∧ ds_broadcast_id row = Some b.

#[export] Instance grows_only_for_preorder L : PreOrder (grows_only_for L).
Proof.
  split.
  - intros t id row. by left.
  - intros a b c Hab Hbc id row Hc. destruct (Hbc id row Hc) as [Hb|?]; [|by right].
    by apply Hab.
Qed.

Lemma shrinks_grows L t t' : desired_shrinks t t' → grows_only_for L t t'.
Proof. intros Hs id row Hr. left. by eapply lookup_weaken. Qed.

Lemma upsert_grows_only_for L b l now :
  b ∈ L → Forall (λ d, dn_broadcast_id d = b) l →
  st_rel (on_tables (grows_only_for L)) (upsert_for_broadcast b l now).
Proof.
  intros Hb Hl. unfold upsert_for_broadcast.
  destruct (validate_batch l); [apply st_rel_ret; apply _|].
  apply st_rel_in_tx; [apply _|]. apply st_rel_try; [apply _| |intros _].
  - apply st_rel_lift_db, st_rel_exec_tx; [apply _..|]. intros now' t a t' [= _ <-].
    apply shrinks_grows. unfold desired_shrinks. simpl. apply map_filter_subseteq.
  - apply st_rel_try_each; [apply _|]. intros d Hd.
    apply st_rel_lift_db, st_rel_exec_tx; [apply _..|]. intros now' t a t'.
    rewrite upsert_desired_run. cbv zeta. destruct (desired_check _); [|done].
    intros [= _ <-] id row. simpl. rewrite Forall_forall in Hl.
    destruct (decide (id = dn_mm_node_id d)) as [->|Hne].
    + rewrite lookup_insert_eq. intros [= <-]. right. exists b. simpl.
      by rewrite (Hl d Hd).
    + rewrite lookup_insert_ne by done. by left.
Qed.

Section tick_lemmas.
Context {P : Type} `{Provider P} `{!ProviderLaws P}.
Context `{!BroadcastCensus (Db * P)} `{!BillingSource (Db * P)}.
Context `{!CensusLaws P} `{!BillingLaws P}.
Context (to_string_pretty : Tfvars → result string string).
Context (from_str : string → result Tfvars string).
Context (to_rfc3339 : DateTime → string).
Context (policy : FleetPolicy) (tfvars : option TfvarsWriter).

Abbreviation the_tick := (tick to_string_pretty from_str to_rfc3339 policy tfvars).
Abbreviation the_body := (tick_body to_string_pretty from_str to_rfc3339 policy tfvars).

(** A tick stops at a failed read, or runs its body on what the tables hold. *)
Lemma tick_cases mode now (w : World (P := P)) :
  (observes w.1 (the_tick mode now w).2.1 ∧ is_ok (the_tick mode now w).1 = false) ∨
  (∃ w1 : World (P := P), observes w.1 w1.1 ∧
    let nodes := omap parse_node (select_nodes (db_tables w.1.1)) in
    let desired := omap parse_desired (select_desired (db_tables w.1.1)) in
    (the_tick mode now w).1 = Ok (the_body nodes desired mode now w1).1 ∧
    (the_tick mode now w).2 = (the_body nodes desired mode now w1).2).
Proof.
  destruct w as [[db p] s]. unfold tick, st_try, st_bind, st_fst, st_ret. cbn [fst snd].
  pose proof (load_nodes_tables db) as Ht1. pose proof (load_nodes_ok db) as Hl1.
  destruct (load_nodes db) as [[nodes|e] db1]; cbn [fst snd] in *; [|by left].
  pose proof (load_all_tables db1) as Ht2. pose proof (load_all_ok db1) as Hl2.
  destruct (load_all db1) as [[desired|e] db2]; cbn [fst snd] in *;
    [|left; split; [split; [cbn; congruence|done]|done]].
  right. exists ((db2, p), s). split; [split; [cbn; congruence|done]|].
  specialize (Hl1 nodes eq_refl). specialize (Hl2 desired eq_refl). rewrite Ht1 in Hl2.
  subst nodes desired. by destruct (the_body _ _ mode now _).
Qed.

(** The body, by mode and by the census's answer. *)
Lemma body_rel (R : Db * P → Db * P → Prop) `{!PreOrder R} nodes desired mode now
    (w : World (P := P)) :
  (∀ a b, observes a b → R a b) →
  (mode = FleetMode.Off → ∀ a b,
    only_destroys (may_lose nodes (λ _, True)) a b → R a b) →
  (mode ≠ FleetMode.Off → ∀ live, (live_broadcasts w.1).1 = Ok live →
    let L := lb_broadcast_id <$> live in
    (∀ a b, only_destroys (may_lose nodes (ended desired (list_to_set L))) a b → R a b) ∧
    (mode = FleetMode.On → ∀ bc rep, bc ∈ live →
      st_rel (on_fleet R) (plan_live policy nodes now rep bc))) →
  on_fleet R w (the_body nodes desired mode now w).2.
Proof.
  intros Ho Hoff Hlive. unfold tick_body, st_bind at 1, st_snd.
  destruct (observe_provision_times _ _ _ _) as [u s1]. cbn [fst snd].
  change (on_fleet R w) with (on_fleet R (w.1, s1)).
  case_bool_decide as Hm.
  - unfold st_bind. pose proof (off_destroys nodes) as Hd.
    match goal with |- context [st_fold tear_down _ ?rep _] =>
      specialize (Hd rep (w.1, s1)) end.
    destruct (st_fold tear_down _ _ _) as [rep w2].
    etrans; [apply Hoff; [done|exact Hd]|]. apply Ho. by apply render_observes.
  - specialize (Hlive Hm). unfold st_bind at 1, st_fst. cbn [fst snd].
    pose proof (live_broadcasts_observes w.1) as Hc.
    destruct (live_broadcasts w.1) as [[live|e] w2]; cbn [fst snd] in *;
      [|by apply Ho].
    specialize (Hlive live eq_refl) as [Hrel Hplan]. simpl in Hrel.
    transitivity ((w2, s1) : World (P := P)); [exact (Ho _ _ Hc)|]. unfold st_bind at 1.
    match goal with |- context [st_fold (release_ended _ ?ids) _ ?rep _] =>
      pose proof (release_all_destroys nodes desired ids rep (w2, s1)) as Hd end.
    destruct (st_fold _ nodes _ _) as [rep w3]. cbn [snd] in Hd.
    etrans; [apply Hrel, Hd|].
    assert (Hren : ∀ rep b (w : World (P := P)), on_fleet R w
      (render_tfvars to_string_pretty from_str to_rfc3339 tfvars rep b w).2)
      by (intros; apply Ho; by apply render_observes).
    destruct mode; [|by simpl; apply Hren|done]. simpl. unfold st_bind.
    assert (Hp : st_rel (on_fleet R) (st_fold (plan_live policy nodes now) live rep)).
    { apply st_rel_fold; [apply _|]. intros b bc Hin. by apply Hplan. }
    specialize (Hp w3). destruct (st_fold _ live _ _) as [rep' w4].
    etrans; [exact Hp | apply Hren].
Qed.

Lemma upsert_loses_nothing {A} S (m : st Db A) : st_rel (loses_only S) (st_fst m : st (Db * P) A).
Proof.
  intros [db p]. unfold st_fst. simpl. destruct (m db). by split.
Qed.

Lemma upsert_tables {A} R `{!PreOrder R} (m : st Db A) :
  st_rel (on_tables R) m → st_rel (tables_only R) (st_fst m : st (Db * P) A).
Proof.
  intros Hm [db p]. unfold st_fst, tables_only. specialize (Hm db). simpl.
  by destruct (m db).
Qed.
End tick_lemmas.

(** ** Properties *)
Section properties.
Context {P : Type} `{Provider P} `{!ProviderLaws P}.
Context `{!BroadcastCensus (Db * P)} `{!BillingSource (Db * P)}.
Context `{!CensusLaws P} `{!BillingLaws P}.
Context (to_string_pretty : Tfvars → result string string).
Context (from_str : string → result Tfvars string).
Context (to_rfc3339 : DateTime → string).
Context (policy : FleetPolicy) (tfvars : option TfvarsWriter).

(** C3. A tick destroys only what it may, for every provider, census and billing
    source that meet their contracts, and every pattern of lost connections: a
    machine that disappears belongs to a recorded node that is rented and not gone,
    and, unless the fleet is switched off, whose desired row names a broadcast the
    census did not report as live. *)
Theorem tick_destroys_only_ended (mode : FleetMode.t) (now : DateTime)
    (w : World (P := P)) (h : InstanceHandle) :
  let nodes := omap parse_node (select_nodes (db_tables w.1.1)) in
  let desired := omap parse_desired (select_desired (db_tables w.1.1)) in
  h ∈ running w.1.2 →
  h ∉ running (tick to_string_pretty from_str to_rfc3339 policy tfvars mode now w).2.1.2 →
  ∃ n, n ∈ nodes ∧ on_provider_id n = Some (ih_provider_id h) ∧
    on_ownership n = Ownership.Rented ∧ on_state n ≠ NodeState.Gone ∧
    (mode = FleetMode.Off ∨
     ∃ w1 live b, observes w.1 w1 ∧ (live_broadcasts w1).1 = Ok live ∧
       desired_broadcast desired n = Some b ∧ b ∉ lb_broadcast_id <$> live).
Proof.
  cbv zeta. set (nodes := omap parse_node _). set (desired := omap parse_desired _).
  set (why := λ n, mode = FleetMode.Off ∨ ∃ (w1 : Db * P) live b, observes w.1 w1 ∧
    (live_broadcasts w1).1 = Ok live ∧ desired_broadcast desired n = Some b ∧
    b ∉ lb_broadcast_id <$> live).
  enough (Hl : loses_only (may_lose nodes why) w.1
    (tick to_string_pretty from_str to_rfc3339 policy tfvars mode now w).2.1).
  { intros Hh Hn. by apply (proj2 Hl). }
  destruct (tick_cases to_string_pretty from_str to_rfc3339 policy tfvars mode now w)
    as [[Ho _]|(w1 & Ho & _ & ->)]; [by apply observes_loses_only|].
  fold nodes desired. transitivity w1.1; [by apply observes_loses_only|].
  apply (body_rel _ _ _ _ _ (loses_only (may_lose nodes why))).
  - by apply observes_loses_only.
  - intros Hm a b (_ & Hs & Hd). split; [done|]. intros x Hx Hnx.
    destruct (Hd x Hx Hnx) as (n & ? & ? & ? & ? & _). exists n. unfold why. auto 10.
  - intros Hm live Hlive. split.
    + intros a b (_ & Hs & Hd). split; [done|]. intros x Hx Hnx.
      destruct (Hd x Hx Hnx) as (n & ? & ? & ? & ? & bc & Hb & Hnb). exists n.
      repeat split; try done. right. exists w1.1, live, bc. repeat split; try done.
      * by apply Ho.
      * by apply Ho.
      * by rewrite elem_of_list_to_set in Hnb.
    + intros _ bc rep _. apply plan_live_rel; [apply _|apply observes_loses_only|].
      intros obs _. apply upsert_loses_nothing.
Qed.

(** Nothing is provisioned unless the fleet is on and somebody can pay: in a
    mode other than on, or when no broadcast can be quoted, a tick only removes
    desired rows and never adds or changes one, whatever the census says and
    whatever connections are lost. *)
Theorem no_growth_without_mode_and_quote (mode : FleetMode.t) (now : DateTime)
    (w : World (P := P)) :
  mode ≠ FleetMode.On ∨ (∀ id s, is_ok (quote id s).1 = false) →
  t_desired (db_tables
    (tick to_string_pretty from_str to_rfc3339 policy tfvars mode now w).2.1.1)
    ⊆ t_desired (db_tables w.1.1).
Proof.
  intros Hq. change (tables_only desired_shrinks w.1
    (tick to_string_pretty from_str to_rfc3339 policy tfvars mode now w).2.1).
  assert (Ho : ∀ a b : Db * P, observes a b → tables_only desired_shrinks a b)
    by (intros; by apply observes_tables; [apply _|]).
  destruct (tick_cases to_string_pretty from_str to_rfc3339 policy tfvars mode now w)
    as [[Hw _]|(w1 & Hw & _ & ->)]; [by apply Ho|].
  transitivity w1.1; [by apply Ho|].
  apply (body_rel _ _ _ _ _ (tables_only desired_shrinks)); [done| |].
  - by intros _ a b (Hs & _).
  - intros Hm live Hlive. split; [by intros a b (Hs & _)|].
    intros Hon bc rep _. destruct Hq as [?|Hq]; [done|].
    eapply st_rel_weaken; [|apply plan_live_unquoted; auto].
    intros a b. apply Ho.
Qed.

(** A census that cannot answer changes nothing: outside of off mode, when the
    census fails, no machine is destroyed and no table changes, so a failed query
    is never read as "no broadcast is live". *)
Theorem census_failure_changes_nothing (mode : FleetMode.t) (now : DateTime)
    (w : World (P := P)) :
  mode ≠ FleetMode.Off →
  (∀ s : Db * P, observes w.1 s → is_ok (live_broadcasts s).1 = false) →
  observes w.1 (tick to_string_pretty from_str to_rfc3339 policy tfvars mode now w).2.1.
Proof.
  intros Hm Hc.
  destruct (tick_cases to_string_pretty from_str to_rfc3339 policy tfvars mode now w)
    as [[Hw _]|(w1 & Hw & _ & ->)]; [done|].
  transitivity w1.1; [done|]. apply (body_rel _ _ _ _ _ observes); [done|done|].
  intros _ live Hlive. specialize (Hc w1.1 Hw). by rewrite Hlive in Hc.
Qed.

(** Every desired row a tick adds or changes belongs to a broadcast the census
    reported as live. *)
Theorem tick_grows_only_live (mode : FleetMode.t) (now : DateTime) (w : World (P := P))
    (id : string) (row : DesiredRec) :
  t_desired (db_tables
    (tick to_string_pretty from_str to_rfc3339 policy tfvars mode now w).2.1.1) !! id
    = Some row →
  t_desired (db_tables w.1.1) !! id ≠ Some row →
  ∃ w1 live bc, observes w.1 w1 ∧ (live_broadcasts w1).1 = Ok live ∧ bc ∈ live ∧
    ds_broadcast_id row = Some (lb_broadcast_id bc).
Proof.
  destruct (tick_cases to_string_pretty from_str to_rfc3339 policy tfvars mode now w)
    as [[[Hw _] _]|(w1 & Hw & _ & ->)]; [by rewrite Hw|].
  destruct (live_broadcasts w1.1) as [[live|e] w2] eqn:El.
  - set (L := lb_broadcast_id <$> live). intros Hrow Hnew.
    assert (Hg : tables_only (grows_only_for L) w1.1 (tick_body to_string_pretty from_str
      to_rfc3339 policy tfvars (omap parse_node (select_nodes (db_tables w.1.1)))
      (omap parse_desired (select_desired (db_tables w.1.1))) mode now w1).2.1).
    { apply (body_rel _ _ _ _ _ (tables_only (grows_only_for L))).
      - intros. by apply observes_tables; [apply _|].
      - intros _ a b (Hs & _). by apply shrinks_grows.
      - intros _ live' Hl'. rewrite El in Hl'. injection Hl' as <-.
        split; [intros a b (Hs & _); by apply shrinks_grows|].
        intros _ bc rep Hbc. apply plan_live_rel; [apply _| |].
        + intros. by apply observes_tables; [apply _|].
        + intros obs Hobs. apply upsert_tables; [apply _|].
          apply upsert_grows_only_for; [by apply list_elem_of_fmap_2|].
          eapply Forall_impl; [apply plan_deadline_iff_rented|].
          intros d [Hd _]. simpl in Hd. congruence. }
    destruct (Hg id row Hrow) as [Hold|(b & Hb & Hrb)].
    { destruct Hw as [Ht _]. by rewrite Ht in Hold. }
    apply list_elem_of_fmap in Hb as (bc & -> & Hbc).
    exists w1.1, live, bc. by rewrite El.
  - intros Hrow Hnew. exfalso. apply Hnew.
    assert (Hs : tables_only desired_shrinks w1.1 (tick_body to_string_pretty from_str
      to_rfc3339 policy tfvars (omap parse_node (select_nodes (db_tables w.1.1)))
      (omap parse_desired (select_desired (db_tables w.1.1))) mode now w1).2.1).
    { apply (body_rel _ _ _ _ _ (tables_only desired_shrinks)).
      - intros. by apply observes_tables; [apply _|].
      - by intros _ a b (Hs & _).
      - intros _ live' Hl'. by rewrite El in Hl'. }
    destruct Hw as [Ht _]. rewrite <- Ht. by eapply lookup_weaken.
Qed.
End properties.

(** ** Witnesses: a census and a billing source with fixed answers *)
Definition ex_census (live : result (list LiveBroadcast) string) :
    BroadcastCensus (Db * DryRunState) := {|
  live_broadcasts := st_ret live; programme_is_live := λ _, st_ret (Ok true) |}.

Definition ex_billing (q : result BroadcastBilling string) :
    BillingSource (Db * DryRunState) := {| quote := λ _, st_ret q |}.

#[export] Instance ex_census_laws live : @CensusLaws DryRunState _ _ (ex_census live).
Proof. split; simpl; intros; apply st_rel_ret; apply _. Qed.

#[export] Instance ex_billing_laws q : @BillingLaws DryRunState _ _ (ex_billing q).
Proof. split; simpl; intros; apply st_rel_ret; apply _. Qed.

Definition ex_quote : BroadcastBilling := {|
  bb_available_balance_minor := 5000; bb_projected_cost_minor := 1000;
  bb_transcode_enabled := true |}.

Definition ex_desired_row (flavor b : string) : DesiredRec := {|
  ds_flavor := flavor; ds_ownership := "rented"; ds_region := "eu"; ds_size := "s";
  ds_broadcast_id := Some b; ds_requested_at := 0; ds_destroy_deadline := Some 9 |}.

Definition ex_rented (flavor handle : string) : NodeRec := {|
  nr_flavor := flavor; nr_ownership := "rented"; nr_state := "healthy";
  nr_provider_id := Some handle; nr_viewer_capacity := Some 250; nr_viewers_current := 3;
  nr_billing_started_at := Some 0; nr_destroy_deadline := Some 9 |}.

(** Broadcast b0 has ended; b1 is live, with a fan-out node and a transcoder. *)
Definition ex_fleet : Tables :=
  set_desired 1 {[ "bc-b0-fanout-0" := ex_desired_row "fanout" "b0";
    "bc-b1-fanout-0" := ex_desired_row "fanout" "b1";
    "bc-b1-transcode" := ex_desired_row "transcode" "b1" ]}
  (set_nodes {[ "bc-b0-fanout-0" := ex_rented "fanout" "i-0";
    "bc-b1-fanout-0" := ex_rented "fanout" "i-1";
    "bc-b1-transcode" := ex_rented "transcode" "i-2" ]} no_tables).

Definition ex_world : World (P := DryRunState) :=
  ((healthy ex_fleet 0, DryRunProvider.seed ["i-0"; "i-1"; "i-2"] (DryRunProvider.new 0)),
   {| rs_disk := {| files := ∅; io_script := [] |}; rs_timed := ∅;
      rs_provision_seconds := [] |}).

Definition ex_live : result (list LiveBroadcast) string :=
  Ok [{| lb_broadcast_id := "b1"; lb_viewers := 10 |}].

Definition ex_tick (live : result (list LiveBroadcast) string)
    (q : result BroadcastBilling string) (mode : FleetMode.t) :=
  tick (P := DryRunState) (H0 := ex_census live) (H1 := ex_billing q)
    ex_print ex_parse (λ _, "t") ex_policy None mode 0 ex_world.

Lemma tick_destroys_only_ended_witness :
  (ih_provider_id <$> dr_live (ex_tick ex_live (Ok ex_quote) FleetMode.On).2.1.2)
    = ["i-1"; "i-2"] ∧
  ∃ n, on_provider_id n = Some "i-0" ∧ on_ownership n = Ownership.Rented ∧
    on_state n ≠ NodeState.Gone.
Proof.
  split; [vm_compute; reflexivity|].
  destruct (tick_destroys_only_ended (P := DryRunState)
    (BroadcastCensus0 := ex_census ex_live) (BillingSource0 := ex_billing (Ok ex_quote)) ex_print ex_parse (λ _, "t") ex_policy None
    FleetMode.On 0 ex_world {| ih_provider_id := "i-0"; ih_public_ip := None;
      ih_created_at := Some 0 |}) as (n & _ & Hp & Ho & Hs & _).
  - left.
  - apply (bool_decide_eq_true_1 (_ ∉ _)). vm_compute. reflexivity.
  - exists n. auto.
Defined.

Lemma no_growth_without_mode_and_quote_witness :
  t_desired (db_tables (ex_tick ex_live (Ok ex_quote) FleetMode.Frozen).2.1.1)
    ⊆ t_desired ex_fleet ∧
  t_desired (db_tables (ex_tick ex_live (Err "no wallet") FleetMode.On).2.1.1)
    ⊆ t_desired ex_fleet.
Proof.
  split.
  - apply (no_growth_without_mode_and_quote (P := DryRunState)
    (BroadcastCensus0 := ex_census ex_live) (BillingSource0 := ex_billing (Ok ex_quote)) ex_print ex_parse (λ _, "t") ex_policy None
      FleetMode.Frozen 0 ex_world). left. discriminate.
  - apply (no_growth_without_mode_and_quote (P := DryRunState)
    (BroadcastCensus0 := ex_census ex_live) (BillingSource0 := ex_billing (Err "no wallet")) ex_print ex_parse (λ _, "t") ex_policy None
      FleetMode.On 0 ex_world). right. intros id s. reflexivity.
Defined.

Lemma census_failure_changes_nothing_witness :
  observes ex_world.1 (ex_tick (Err "switch down") (Ok ex_quote) FleetMode.On).2.1.
Proof.
  apply (census_failure_changes_nothing (P := DryRunState)
    (BroadcastCensus0 := ex_census (Err "switch down")) (BillingSource0 := ex_billing (Ok ex_quote)) ex_print ex_parse (λ _, "t") ex_policy None
    FleetMode.On 0 ex_world); [discriminate|].
  intros s _. reflexivity.
Defined.

Lemma tick_grows_only_live_witness :
  ∃ live bc, live = [{| lb_broadcast_id := "b2"; lb_viewers := 10 |}] ∧ bc ∈ live ∧
    lb_broadcast_id bc = "b2".
Proof.
  set (live := [{| lb_broadcast_id := "b2"; lb_viewers := 10 |}]).
  destruct (tick_grows_only_live (P := DryRunState)
    (BroadcastCensus0 := ex_census (Ok live)) (BillingSource0 := ex_billing (Ok ex_quote)) ex_print ex_parse (λ _, "t") ex_policy None
    FleetMode.On 0 ex_world "bc-b2-fanout-0" (row_of (fanout "b2" ex_policy 0) 0 0))
    as (w1 & live' & bc & _ & Hl & Hbc & Hb).
  - vm_compute. reflexivity.
  - vm_compute. discriminate.
  - injection Hl as <-. exists live, bc. split; [reflexivity|]. split; [exact Hbc|].
    vm_compute in Hb. by injection Hb.
Defined.

(** A tick withdraws a running transcoder: with broadcast b1 live, funded and
    paying for transcoding, one tick in mode on deletes the desired row of its
    healthy transcoder while its machine runs, although no gate closed and nothing
    ended. *)
Theorem tick_withdraws_running_transcoder :
  let r := ex_tick ex_live (Ok ex_quote) FleetMode.On in
  t_desired (db_tables ex_world.1.1) !! "bc-b1-transcode"
    = Some (ex_desired_row "transcode" "b1") ∧
  t_desired (db_tables r.2.1.1) !! "bc-b1-transcode" = None ∧
  "i-2" ∈ ih_provider_id <$> dr_live r.2.1.2 ∧
  (nr_state <$> t_nodes (db_tables r.2.1.1) !! "bc-b1-transcode") = Some "healthy".
Proof.
  cbv zeta. split; [vm_compute; reflexivity|]. split; [vm_compute; reflexivity|].
  split; [|vm_compute; reflexivity].
  apply (bool_decide_eq_true_1 (_ ∈ _)). vm_compute. reflexivity.
Qed.
