(* ===== verification/Wallet.v ===== *)
(** * Wallet: the prepaid broadcaster wallet

    [mm-db/src/wallet_db.rs] on V035's tables. The balance is maintained by the
    trigger on the ledger, the overdraft limit is a CHECK, idempotency is a UNIQUE
    constraint; the module classifies what the database refused. *)
From S2P Require Import Prelude Schema.
From Stdlib Require Import Ascii.
Local Open Scope Z_scope.
Local Open Scope mm_scope.

Module WalletError.
Inductive t : Type :=
  | InsufficientFunds (user_id : string) (requested_minor : Z)
  | NoWallet (user_id : string)
  | CurrencyMismatch (user_id wallet attempted : string)
  | Db (msg : string).

Definition to_string (e : t) : string :=
  match e with
  | InsufficientFunds u r =>
      "insufficient funds: charging " +:+ fmt_i64 r +:+
      " would breach the credit limit for " +:+ u
  | NoWallet u => "no wallet for " +:+ u
  | CurrencyMismatch u w a =>
      "currency mismatch: " +:+ a +:+ " charged against a " +:+ w +:+ " wallet for " +:+ u
  | Db m => "database error: " +:+ m
  end.
End WalletError.

Record Wallet : Type := {
  wl_user_id : string;
  wl_currency : string;
  wl_balance_minor : Z;
  wl_credit_limit_minor : Z;
  wl_updated_at : DateTime
}.

(** Plain [i64] addition. *)
Definition spendable_minor (w : Wallet) : Z :=
  i64_wrap (wl_balance_minor w + wl_credit_limit_minor w).

Inductive ChargeOutcome : Type := Applied | AlreadyApplied.

#[export] Instance ChargeOutcome_eq_dec : EqDecision ChargeOutcome.
Proof. solve_decision. Defined.

(** ** Statements *)

(** The CHECK [currency ~ '^[a-z]{3}$']. *)
Definition is_lower (c : ascii) : bool :=
  let n := nat_of_ascii c in (97 <=? n)%nat && (n <=? 122)%nat.
Definition iso4217_lower (s : string) : bool :=
  match s with
  | String a (String b (String c EmptyString)) => is_lower a && is_lower b && is_lower c
  | _ => false
  end.

Definition insert_wallet (user_id currency : string) (credit_limit_minor : Z) : stmt unit :=
  λ now t,
    if negb (iso4217_lower currency) then Err (violates "wallet_currency_is_iso4217_lower")
    else if credit_limit_minor <? 0 then Err (violates "wallet_credit_limit_not_negative")
    else
      match t_wallets t !! user_id with
      | Some _ => Ok ((), t)
      | None => Ok ((), set_wallets (<[user_id := {|
          wr_currency := currency; wr_balance_minor := 0;
          wr_credit_limit_minor := credit_limit_minor; wr_updated_at := now;
          wr_rating_blocked_at := None |}]> (t_wallets t)) t)
      end.

(** The CHECK [wallet_tx_sign_matches_kind]. *)
Definition sign_matches_kind (kind : string) (amount : Z) : bool :=
  (String.eqb kind "deposit" && (0 <? amount)) ||
  (String.eqb kind "refund" && (0 <? amount)) ||
  (String.eqb kind "charge" && (amount <? 0)) ||
  (String.eqb kind "adjustment" && negb (amount =? 0)).

Definition with_balance (w : WalletRec) (balance : Z) (now : DateTime) : WalletRec := {|
  wr_currency := wr_currency w; wr_balance_minor := balance;
  wr_credit_limit_minor := wr_credit_limit_minor w; wr_updated_at := now;
  wr_rating_blocked_at := wr_rating_blocked_at w |}.

(** INSERT into the ledger: the CHECK, the UNIQUE key, the foreign key, then the
    trigger that moves the balance and the CHECK on the wallet it updates. *)
Definition insert_transaction (user_id currency kind : string) (amount : Z) (key : string)
    (broadcast_id note : option string) : stmt unit := λ now t,
  if negb (sign_matches_kind kind amount) then Err (violates "wallet_tx_sign_matches_kind")
  else if existsb (λ x, String.eqb (tx_idempotency_key x) key) (t_transactions t)
  then Err (violates "wallet_tx_idempotency_unique")
  else
    match t_wallets t !! user_id with
    | None => Err (violates "wallet_tx_currency_matches_wallet")
    | Some w =>
        if negb (String.eqb (wr_currency w) currency)
        then Err (violates "wallet_tx_currency_matches_wallet")
        else
          let balance := wr_balance_minor w + amount in
          if (balance <? i64_min) || (i64_max <? balance)
          then Err (refused "bigint out of range")
          else if balance <? - wr_credit_limit_minor w
          then Err (violates "wallet_within_credit_limit")
          else
            let tx := {| tx_id := t_tx_seq t; tx_user_id := user_id;
              tx_currency := currency; tx_kind := kind; tx_amount_minor := amount;
              tx_idempotency_key := key; tx_broadcast_id := broadcast_id;
              tx_note := note; tx_created_at := now |} in
            Ok ((), set_ledger (<[user_id := with_balance w balance now]> (t_wallets t))
              (t_transactions t ++ [tx]) (t_tx_seq t + 1) t)
    end.

(** ** Operations *)
Definition wallet_db_err {A} (m : st Db (result A db_error)) :
    st Db (result A WalletError.t) :=
  let! r := m in st_ret (map_err (λ e, WalletError.Db (dbe_message e)) r).

Definition create_wallet (user_id currency : string) (credit_limit_minor : Z) :
    st Db (result unit WalletError.t) :=
  wallet_db_err (exec (insert_wallet user_id currency credit_limit_minor)).

Definition wallet_row (user_id : string) (t : Tables) : option Wallet :=
  (λ w, {| wl_user_id := user_id; wl_currency := wr_currency w;
    wl_balance_minor := wr_balance_minor w;
    wl_credit_limit_minor := wr_credit_limit_minor w;
    wl_updated_at := wr_updated_at w |}) <$> t_wallets t !! user_id.

Definition get (user_id : string) : st Db (result (option Wallet) WalletError.t) :=
  wallet_db_err (exec (reading (wallet_row user_id))).

Definition classify (e : db_error) (user_id currency : string) (amount : Z) :
    st Db WalletError.t :=
  let constraint := default "" (dbe_constraint e) in
  if String.eqb constraint "wallet_tx_idempotency_unique" then
    st_ret (WalletError.Db "__replay__")
  else if String.eqb constraint "wallet_within_credit_limit" then
    st_ret (WalletError.InsufficientFunds user_id amount)
  else if String.eqb constraint "wallet_tx_currency_matches_wallet" then
    let! r := get user_id in
    let held :=
      match r with
      | Ok (Some w) => wl_currency w
      | _ => "<no wallet>"
      end in
    st_ret (if String.eqb held "<no wallet>" then WalletError.NoWallet user_id
            else WalletError.CurrencyMismatch user_id held currency)
  else st_ret (WalletError.Db (dbe_message e)).

Definition movement (user_id currency kind : string) (signed_amount_minor : Z)
    (idempotency_key : string) (broadcast_id note : option string) :
    st Db (result ChargeOutcome WalletError.t) :=
  let! res := exec (insert_transaction user_id currency kind signed_amount_minor
    idempotency_key broadcast_id note) in
  match res with
  | Ok _ => st_ret (Ok Applied)
  | Err e => let! w := classify e user_id currency signed_amount_minor in st_ret (Err w)
  end.

Definition deposit (user_id currency : string) (amount_minor : Z)
    (idempotency_key : string) : st Db (result ChargeOutcome WalletError.t) :=
  movement user_id currency "deposit" amount_minor idempotency_key None None.

Definition charge (user_id currency : string) (amount_minor : Z)
    (idempotency_key : string) (broadcast_id : option string) :
    st Db (result ChargeOutcome WalletError.t) :=
  if amount_minor <=? 0 then
    st_ret (Err (WalletError.Db
      ("charge amount must be positive, got " +:+ fmt_i64 amount_minor)))
  else movement user_id currency "charge" (- amount_minor) idempotency_key broadcast_id None.

Definition refund (user_id currency : string) (amount_minor : Z)
    (idempotency_key : string) (broadcast_id : option string) :
    st Db (result ChargeOutcome WalletError.t) :=
  movement user_id currency "refund" (i64_wrap (Z.abs amount_minor)) idempotency_key
    broadcast_id None.

Definition treat_replay_as_success (r : result ChargeOutcome WalletError.t) :
    result ChargeOutcome WalletError.t :=
  match r with
  | Err (WalletError.Db msg) =>
      if String.eqb msg "__replay__" then Ok AlreadyApplied else r
  | other => other
  end.

(** ** Specification vocabulary *)
Definition ledger_of (user : string) (t : Tables) : list Z :=
  tx_amount_minor <$> List.filter (λ x, String.eqb (tx_user_id x) user) (t_transactions t).

Definition ledger_keys (t : Tables) : list string :=
  tx_idempotency_key <$> t_transactions t.

(** The books are right: every balance is the sum of its ledger, within the credit
    limit and in range; every ledger row is in its wallet's currency; keys and ids
    identify rows. *)
Record books_ok (t : Tables) : Prop := {
  bk_balance u w : t_wallets t !! u = Some w → wr_balance_minor w = sumZ (ledger_of u t);
  bk_limit u w : t_wallets t !! u = Some w →
    - wr_credit_limit_minor w ≤ wr_balance_minor w ∧ is_i64 (wr_balance_minor w) ∧
    0 ≤ wr_credit_limit_minor w;
  bk_currency x : x ∈ t_transactions t →
    ∃ w, t_wallets t !! tx_user_id x = Some w ∧ wr_currency w = tx_currency x;
  bk_keys : NoDup (ledger_keys t);
  bk_ids : Forall (λ x, tx_id x < t_tx_seq t) (t_transactions t);
  bk_ids_unique : NoDup (tx_id <$> t_transactions t)
}.

(** The ledger row a movement writes, and its effect on the tables. *)
Definition ledger_row (id : Z) (user currency kind : string) (amount : Z) (key : string)
    (broadcast note : option string) (now : DateTime) : TxRec := {|
  tx_id := id; tx_user_id := user; tx_currency := currency; tx_kind := kind;
  tx_amount_minor := amount; tx_idempotency_key := key; tx_broadcast_id := broadcast;
  tx_note := note; tx_created_at := now |}.

Definition posted (user currency kind : string) (amount : Z) (key : string)
    (broadcast note : option string) (t t' : Tables) : Prop :=
  ∃ w now, t_wallets t !! user = Some w ∧ wr_currency w = currency ∧
    (key ∉ ledger_keys t) ∧
    is_i64 (wr_balance_minor w + amount) ∧
    - wr_credit_limit_minor w ≤ wr_balance_minor w + amount ∧
    t' = set_ledger (<[user := with_balance w (wr_balance_minor w + amount) now]>
           (t_wallets t))
         (t_transactions t ++
           [ledger_row (t_tx_seq t) user currency kind amount key broadcast note now])
         (t_tx_seq t + 1) t.

(** Over any number of attempts, a key is posted at most once. *)
Definition at_most_once (user currency kind : string) (amount : Z) (key : string)
    (broadcast note : option string) (t t' : Tables) : Prop :=
  t' = t ∨ posted user currency kind amount key broadcast note t t'.

(** ** Lemmas *)
Lemma existsb_key key l :
  existsb (λ x, String.eqb (tx_idempotency_key x) key) l = true ↔
  key ∈ tx_idempotency_key <$> l.
Proof.
  rewrite existsb_exists, list_elem_of_fmap. split.
  - intros (x & Hx & He%String.eqb_eq). exists x. by rewrite list_elem_of_In.
  - intros (x & -> & Hx). exists x. by rewrite <- list_elem_of_In, String.eqb_refl.
Qed.

Lemma insert_transaction_ok user currency kind amount key broadcast note now t a t' :
  insert_transaction user currency kind amount key broadcast note now t = Ok (a, t') →
  posted user currency kind amount key broadcast note t t' ∧
  sign_matches_kind kind amount = true.
Proof.
  unfold insert_transaction, posted.
  destruct (sign_matches_kind kind amount); [|done]. simpl.
  destruct (existsb _ _) eqn:Ek; [done|].
  destruct (t_wallets t !! user) as [w|]; [|done].
  destruct (String.eqb_spec (wr_currency w) currency) as [Hc|]; [|done]. simpl.
  destruct (Z.ltb_spec (wr_balance_minor w + amount) i64_min); [done|].
  destruct (Z.ltb_spec i64_max (wr_balance_minor w + amount)); [done|]. simpl.
  destruct (Z.ltb_spec (wr_balance_minor w + amount) (- wr_credit_limit_minor w)); [done|].
  intros [= _ <-]. split; [|done]. exists w, now.
  split; [done|]. split; [done|]. split; [|unfold is_i64; split; [lia|done]].
  unfold ledger_keys. rewrite <- existsb_key. by rewrite Ek.
Qed.

#[export] Instance at_most_once_preorder user currency kind amount key broadcast note :
  PreOrder (at_most_once user currency kind amount key broadcast note).
Proof.
  split; [by left|]. intros a b c [->|Hab] [->|Hbc]; [by left|by right|by right|].
  exfalso. destruct Hab as (w & now & _ & _ & _ & _ & _ & ->).
  destruct Hbc as (w' & now' & _ & _ & Hk & _). apply Hk.
  unfold ledger_keys. simpl. rewrite fmap_app. apply elem_of_app. right. left.
Qed.

Lemma classify_tables e user currency amount db :
  db_tables (classify e user currency amount db).2 = db_tables db.
Proof.
  unfold classify. repeat case_match; try done.
  unfold st_bind, get, wallet_db_err, st_bind.
  pose proof (exec_reading_tables (wallet_row user) db) as Ht.
  destruct (exec _ db) as [r db1]. simpl in *. done.
Qed.

Lemma movement_at_most_once user currency kind amount key broadcast note :
  st_rel (on_tables (at_most_once user currency kind amount key broadcast note))
    (movement user currency kind amount key broadcast note).
Proof.
  unfold movement. apply st_rel_bind; [apply _| |intros [?|e]].
  - apply st_rel_exec; [apply _|]. intros now t a t' Hi. right.
    by apply insert_transaction_ok in Hi as [? _].
  - apply st_rel_ret. apply _.
  - apply st_rel_bind; [apply _| |intros; apply st_rel_ret; apply _].
    intros db. left. apply classify_tables.
Qed.

(** Whatever [movement] keeps, the three kinds of movement keep. *)
Lemma movement_rel R `{!PreOrder R} user currency kind amount key broadcast note :
  (∀ t t', posted user currency kind amount key broadcast note t t' → R t t') →
  st_rel (on_tables R) (movement user currency kind amount key broadcast note).
Proof.
  intros HR. eapply st_rel_weaken; [|apply movement_at_most_once].
  intros a b [Heq|Hp]; [|by apply HR]. unfold on_tables in *. rewrite Heq. reflexivity.
Qed.

Lemma posted_books user currency kind amount key broadcast note t t' :
  posted user currency kind amount key broadcast note t t' → books_ok t → books_ok t'.
Proof.
  intros (w & now & Hw & Hc & Hk & Hi & Hl & ->) Hb.
  assert (Hled : ∀ u, ledger_of u (set_ledger (<[user := with_balance w
      (wr_balance_minor w + amount) now]> (t_wallets t)) (t_transactions t ++
      [ledger_row (t_tx_seq t) user currency kind amount key broadcast note now])
      (t_tx_seq t + 1) t)
    = ledger_of u t ++ (if String.eqb user u then [amount] else [])).
  { intros u. unfold ledger_of. simpl. rewrite List.filter_app, fmap_app. f_equal.
    simpl. by destruct (String.eqb user u). }
  split; simpl.
  - intros u w'. rewrite Hled, sumZ_app.
    destruct (String.eqb_spec user u) as [<-|Hne].
    + rewrite lookup_insert_eq. intros [= <-]. simpl.
      rewrite (bk_balance t Hb user w Hw). lia.
    + rewrite lookup_insert_ne by done. intros Hu. rewrite (bk_balance t Hb u w' Hu).
      simpl. lia.
  - intros u w'. destruct (decide (user = u)) as [<-|Hne].
    + rewrite lookup_insert_eq. intros [= <-]. simpl.
      pose proof (bk_limit t Hb user w Hw). by repeat split; try lia; apply Hi.
    + rewrite lookup_insert_ne by done. by apply (bk_limit t Hb).
  - intros x [Hx|Hx%list_elem_of_singleton]%elem_of_app.
    + destruct (bk_currency t Hb x Hx) as (wx & Hwx & Hcx).
      destruct (decide (user = tx_user_id x)) as [Heq|Hne].
      * rewrite Heq, lookup_insert_eq. eexists. split; [done|]. simpl.
        rewrite Heq in Hw. congruence.
      * rewrite lookup_insert_ne by done. eauto.
    + subst x. simpl. rewrite lookup_insert_eq. eexists. split; [done|]. done.
  - unfold ledger_keys. simpl. rewrite fmap_app. apply NoDup_app.
    split; [apply (bk_keys t Hb)|]. split; [|apply NoDup_singleton].
    intros k Hin Hk'%list_elem_of_singleton. by subst k.
  - apply Forall_app. split; [|by constructor; [simpl; lia|constructor]].
    eapply Forall_impl; [apply (bk_ids t Hb)|]. intros x Hx. simpl in Hx. lia.
  - rewrite fmap_app. apply NoDup_app. split; [apply (bk_ids_unique t Hb)|].
    split; [|apply NoDup_singleton]. intros i Hin Hi'%list_elem_of_singleton.
    simpl in Hi'. subst i. apply list_elem_of_fmap in Hin as (x & Hx & Hin).
    pose proof (bk_ids t Hb) as Hf. rewrite Forall_forall in Hf. specialize (Hf x Hin).
    simpl in Hf. lia.
Qed.

Lemma ledger_of_absent u t :
  books_ok t → t_wallets t !! u = None → ledger_of u t = [].
Proof.
  intros Hb Hu. unfold ledger_of.
  assert (Hf : List.filter (λ x, String.eqb (tx_user_id x) u) (t_transactions t) = []).
  { destruct (List.filter _ _) as [|x l] eqn:E; [done|]. exfalso.
    assert (Hin : In x (List.filter (λ x, String.eqb (tx_user_id x) u) (t_transactions t)))
      by (rewrite E; by left).
    apply filter_In in Hin as [Hin He%String.eqb_eq].
    destruct (bk_currency t Hb x) as (w & Hw & _); [by apply list_elem_of_In|].
    congruence. }
  by rewrite Hf.
Qed.

Lemma insert_wallet_books user currency limit :
  stmt_rel (keeps books_ok) (insert_wallet user currency limit).
Proof.
  intros now t a t'. unfold insert_wallet. destruct (iso4217_lower currency); [|done].
  simpl. destruct (Z.ltb_spec limit 0); [done|].
  destruct (t_wallets t !! user) as [w0|] eqn:Eu; [by intros [= _ <-]|].
  intros [= _ <-] Hb. split; simpl.
  - intros u w. destruct (decide (user = u)) as [<-|Hne].
    + rewrite lookup_insert_eq. intros [= <-]. simpl.
      change (ledger_of user (set_wallets _ t)) with (ledger_of user t).
      by rewrite (ledger_of_absent user t Hb Eu).
    + rewrite lookup_insert_ne by done. apply (bk_balance t Hb).
  - intros u w. destruct (decide (user = u)) as [<-|Hne].
    + rewrite lookup_insert_eq. intros [= <-]. simpl. unfold is_i64, i64_min, i64_max.
      lia.
    + rewrite lookup_insert_ne by done. apply (bk_limit t Hb).
  - intros x Hx. destruct (bk_currency t Hb x Hx) as (w & Hw & Hc).
    exists w. split; [|done]. rewrite lookup_insert_ne; [done|]. congruence.
  - apply (bk_keys t Hb).
  - apply (bk_ids t Hb).
  - apply (bk_ids_unique t Hb).
Qed.

(** Every error of a statement carries a prefix that no marker has. *)
Lemma exec_err_message {A} (s : stmt A) db e :
  (∀ now t e', s now t = Err e' → dbe_message e' ≠ "__replay__") →
  (exec s db).1 = Err e → dbe_message e ≠ "__replay__".
Proof.
  intros Hs. unfold exec. destruct (next_tick db) as [k rest].
  destruct (tk_outcome k); simpl; [|by intros [= <-]|];
    destruct (s (tk_now k) (db_tables db)) as [[a t]|e'] eqn:E; simpl; try done.
  - intros [= <-]. by eapply Hs.
  - by intros [= <-].
  - by intros [= <-].
Qed.

Lemma insert_transaction_err user currency kind amount key broadcast note now t e :
  insert_transaction user currency kind amount key broadcast note now t = Err e →
  dbe_message e ≠ "__replay__" ∧
  (dbe_constraint e = Some "wallet_tx_idempotency_unique" → key ∈ ledger_keys t).
Proof.
  unfold insert_transaction. destruct (negb _); [by intros [= <-]|].
  destruct (existsb _ _) eqn:Ek.
  { intros [= <-]. split; [done|]. intros _. by apply existsb_key. }
  destruct (t_wallets t !! user) as [w|]; [|by intros [= <-]].
  repeat case_match; try done; by intros [= <-].
Qed.

Lemma exec_constraint {A} (s : stmt A) db e c :
  (exec s db).1 = Err e → dbe_constraint e = Some c →
  ∃ now, s now (db_tables db) = Err e.
Proof.
  unfold exec. destruct (next_tick db) as [k rest].
  destruct (tk_outcome k); simpl; [|by intros [= <-]|];
    destruct (s (tk_now k) (db_tables db)) as [[a t]|e'] eqn:E; simpl; try done.
  - intros [= <-] _. eauto.
  - by intros [= <-].
  - by intros [= <-].
Qed.

(** A movement reported as applied, now or before, is in the ledger. *)
Lemma movement_success user currency kind amount key broadcast note db o :
  treat_replay_as_success (movement user currency kind amount key broadcast note db).1
    = Ok o →
  key ∈ ledger_keys (db_tables (movement user currency kind amount key broadcast note db).2).
Proof.
  unfold movement, st_bind.
  set (s := insert_transaction user currency kind amount key broadcast note).
  pose proof (exec_ok s db) as Hok. pose proof (exec_constraint s db) as Hcon.
  pose proof (st_rel_exec (at_most_once user currency kind amount key broadcast note) s)
    as Hamo.
  pose proof (exec_err_message s db) as Hmsg.
  destruct (exec s db) as [[[]|e] db1] eqn:Ex; simpl in *.
  - intros _. destruct (Hok tt eq_refl) as [now Hs].
    apply insert_transaction_ok in Hs as [(w & now' & _ & _ & _ & _ & _ & ->) _].
    unfold ledger_keys. simpl. rewrite fmap_app. apply elem_of_app. right. left.
  - pose proof (classify_tables e user currency amount db1) as Ht.
    unfold classify in *. destruct (String.eqb_spec (default "" (dbe_constraint e))
      "wallet_tx_idempotency_unique") as [Hc|_].
    + simpl in *. intros _. destruct (dbe_constraint e) as [c|] eqn:Ec; [|done].
      simpl in Hc. subst c. destruct (Hcon e _ eq_refl Ec) as [now Hs].
      apply insert_transaction_err in Hs as [_ Hk]. specialize (Hk Ec).
      assert (Hsub : on_tables (at_most_once user currency kind amount key broadcast note)
        db db1).
      { specialize (Hamo ltac:(intros ? ? ? ? Hi; right;
          by apply insert_transaction_ok in Hi as [? _]) db). by rewrite Ex in Hamo. }
      destruct Hsub as [->|(w & now' & _ & _ & Hn & _)]; [done|contradiction].
    + specialize (Hmsg e ltac:(intros ? ? ? Hs;
        by apply insert_transaction_err in Hs as [? _]) eq_refl).
      destruct (String.eqb _ "wallet_within_credit_limit"); [done|].
      destruct (String.eqb _ "wallet_tx_currency_matches_wallet").
      * unfold st_bind. destruct (get user db1) as [r db2]. simpl.
        by destruct (String.eqb _ "<no wallet>").
      * simpl. by rewrite (proj2 (String.eqb_neq _ _) Hmsg).
Qed.

(** One call of the module, for histories. *)
Inductive wallet_op : Type :=
  | OpCreate (user currency : string) (limit : Z)
  | OpDeposit (user currency : string) (amount : Z) (key : string)
  | OpCharge (user currency : string) (amount : Z) (key : string) (bc : option string)
  | OpRefund (user currency : string) (amount : Z) (key : string) (bc : option string).

Definition run_op (_ : unit) (op : wallet_op) : st Db unit :=
  match op with
  | OpCreate u c l => let! _ := create_wallet u c l in st_ret tt
  | OpDeposit u c a k => let! _ := deposit u c a k in st_ret tt
  | OpCharge u c a k b => let! _ := charge u c a k b in st_ret tt
  | OpRefund u c a k b => let! _ := refund u c a k b in st_ret tt
  end.

(** Retrying one charge: the results of the attempts, replays read as success. *)
Fixpoint charge_attempts (n : nat) (user currency : string) (amount : Z) (key : string)
    (bc : option string) : st Db (list (result ChargeOutcome WalletError.t)) :=
  match n with
  | O => st_ret []
  | S n' =>
      let! r := charge user currency amount key bc in
      let! rest := charge_attempts n' user currency amount key bc in
      st_ret (treat_replay_as_success r :: rest)
  end.

Lemma wallet_db_err_rel {A} R `{!PreOrder R} (m : st Db (result A db_error)) :
  st_rel R m → st_rel R (wallet_db_err m).
Proof.
  intros Hm. unfold wallet_db_err. apply st_rel_bind; [done..|].
  intros. by apply st_rel_ret.
Qed.

Lemma run_op_books op : st_rel (on_tables (keeps books_ok)) (run_op tt op).
Proof.
  assert (Hm : ∀ u c k a key b n, st_rel (on_tables (keeps books_ok))
    (movement u c k a key b n)).
  { intros. apply movement_rel; [apply _|]. intros t t' Hp Hb. by eapply posted_books. }
  destruct op as [u c l|u c a k|u c a k b|u c a k b]; simpl;
    (apply st_rel_bind; [apply _| |intros; apply st_rel_ret; apply _]).
  - apply wallet_db_err_rel, st_rel_exec, insert_wallet_books; apply _.
  - apply Hm.
  - unfold charge. destruct (a <=? 0); [apply st_rel_ret; apply _ | apply Hm].
  - apply Hm.
Qed.

Lemma charge_at_most_once user currency amount key bc :
  st_rel (on_tables (at_most_once user currency "charge" (- amount) key bc None))
    (charge user currency amount key bc).
Proof.
  unfold charge. destruct (amount <=? 0); [apply st_rel_ret; apply _|].
  apply movement_at_most_once.
Qed.

Lemma charge_attempts_rel n user currency amount key bc :
  st_rel (on_tables (at_most_once user currency "charge" (- amount) key bc None))
    (charge_attempts n user currency amount key bc).
Proof.
  induction n as [|n IH]; simpl; [apply st_rel_ret; apply _|].
  apply st_rel_bind; [apply _|apply charge_at_most_once|intros r].
  apply st_rel_bind; [apply _|done|intros rest; apply st_rel_ret; apply _].
Qed.

Lemma posted_keeps_keys user currency kind amount key bc note t t' k :
  at_most_once user currency kind amount key bc note t t' →
  k ∈ ledger_keys t → k ∈ ledger_keys t'.
Proof.
  intros [->|(w & now & _ & _ & _ & _ & _ & ->)] Hk; [done|].
  unfold ledger_keys in *. simpl. rewrite fmap_app. apply elem_of_app. by left.
Qed.

(** ** Properties *)

(** C23. The books are always right: after any sequence of wallet creations,
    deposits, charges and refunds, with any pattern of lost connections, every
    balance is the sum of its ledger, no wallet is beyond its credit limit, every
    ledger row is in its wallet's currency and no idempotency key occurs twice. *)
Theorem books_always_ok (ops : list wallet_op) (db : Db) :
  books_ok (db_tables db) → books_ok (db_tables (st_fold run_op ops tt db).2).
Proof.
  intros Hb. assert (Hr : st_rel (on_tables (keeps books_ok)) (st_fold run_op ops tt)).
  { apply st_rel_fold; [apply _|]. intros [] op _. apply run_op_books. }
  by apply Hr.
Qed.

Lemma no_tables_books : books_ok no_tables.
Proof.
  split; simpl; try (by intros u w; rewrite lookup_empty); try (by constructor).
  intros x Hx. by apply not_elem_of_nil in Hx.
Qed.

Lemma books_always_ok_witness :
  books_ok (db_tables (st_fold run_op
    [OpCreate "u" "eur" 50; OpDeposit "u" "eur" 100 "d1";
     OpCharge "u" "eur" 120 "c1" (Some "b1"); OpCharge "u" "eur" 120 "c1" (Some "b1");
     OpCharge "u" "eur" 60 "c2" None; OpRefund "u" "eur" 20 "r1" None] tt
    {| db_tables := no_tables; db_now := 0; db_script :=
       [{| tk_outcome := Answered; tk_now := 0 |}; {| tk_outcome := Answered; tk_now := 0 |};
        {| tk_outcome := Unacked "reset"; tk_now := 0 |}] |}).2).
Proof. apply books_always_ok. apply no_tables_books. Defined.

(** C24. A charge happens exactly once: however often it is attempted under one key
    and whatever connections are lost, the ledger gains either nothing or one row
    for the amount, and the balance moves by exactly that row; and as soon as one
    attempt is reported as a success, the row is there. *)
Theorem charge_exactly_once (n : nat) (user currency : string) (amount : Z)
    (key : string) (bc : option string) (db : Db) :
  let r := charge_attempts n user currency amount key bc db in
  let before := db_tables db in
  let after := db_tables r.2 in
  (after = before ∨ posted user currency "charge" (- amount) key bc None before after) ∧
  ((∃ o, Ok o ∈ r.1) → key ∈ ledger_keys after).
Proof.
  cbv zeta. split; [apply (charge_attempts_rel n user currency amount key bc db)|].
  revert db. induction n as [|n IH]; intros db; simpl.
  { intros [o Ho]. by apply not_elem_of_nil in Ho. }
  unfold st_bind. pose proof (λ o, movement_success user currency "charge" (- amount) key bc
    None db o) as Hs. unfold charge in *.
  destruct (amount <=? 0) eqn:Ea.
  - simpl. specialize (IH db). destruct (charge_attempts _ _ _ _ _ _ db) as [rest db1].
    simpl in *. intros [o [Ho|Ho]%elem_of_cons]; [done|]. by apply IH; exists o.
  - destruct (movement _ _ _ _ _ _ _ db) as [r1 db1]. simpl in Hs.
    specialize (IH db1).
    pose proof (charge_attempts_rel n user currency amount key bc db1) as Hrel.
    destruct (charge_attempts _ _ _ _ _ _ db1) as [rest db2]. simpl in *.
    intros [o [Ho|Ho]%elem_of_cons]; [|by apply IH; exists o].
    eapply posted_keeps_keys; [exact Hrel|]. by apply (Hs o).
Qed.

(** What a charge answers, on a working database, is what the caller acts on:
    a non-positive amount, a replayed key, a missing wallet, a foreign currency and
    a breached limit are each reported as such with nothing changed, and otherwise
    the charge is applied. The limit error carries the negated amount. *)
Theorem charge_answers (user currency : string) (amount : Z) (key : string)
    (bc : option string) (t : Tables) (now : DateTime) :
  let r := charge user currency amount key bc (healthy t now) in
  let unchanged := db_tables r.2 = t in
  if decide (amount ≤ 0) then is_ok r.1 = false ∧ unchanged
  else if decide (key ∈ ledger_keys t) then
    treat_replay_as_success r.1 = Ok AlreadyApplied ∧ unchanged
  else
    match t_wallets t !! user with
    | None => r.1 = Err (WalletError.NoWallet user) ∧ unchanged
    | Some w =>
        (wr_currency w ≠ currency → wr_currency w ≠ "<no wallet>" →
          r.1 = Err (WalletError.CurrencyMismatch user (wr_currency w) currency) ∧
          unchanged) ∧
        (wr_currency w = currency → is_i64 (wr_balance_minor w - amount) →
          if decide (wr_balance_minor w - amount < - wr_credit_limit_minor w)
          then r.1 = Err (WalletError.InsufficientFunds user (- amount)) ∧ unchanged
          else r.1 = Ok Applied ∧
               posted user currency "charge" (- amount) key bc None t (db_tables r.2))
    end.
Proof.
  cbv zeta. unfold charge. destruct (decide (amount ≤ 0)) as [Ha|Ha].
  { by rewrite (proj2 (Z.leb_le _ _) Ha). }
  rewrite (proj2 (Z.leb_gt _ _)) by lia. unfold movement, st_bind. rewrite exec_healthy.
  pose proof (insert_transaction_ok user currency "charge" (- amount) key bc None now t)
    as Hok.
  unfold insert_transaction in *.
  assert (Hsign : sign_matches_kind "charge" (- amount) = true).
  { unfold sign_matches_kind. simpl. rewrite (proj2 (Z.ltb_lt _ _)) by lia. done. }
  rewrite Hsign in *. simpl in *.
  destruct (decide (key ∈ ledger_keys t)) as [Hk|Hk].
  { apply existsb_key in Hk. by rewrite Hk. }
  destruct (existsb _ _) eqn:Ek; [exfalso; by apply Hk, existsb_key|].
  destruct (t_wallets t !! user) as [w|] eqn:Ew; simpl.
  - split.
    + intros Hc Hnw. rewrite (proj2 (String.eqb_neq _ _) Hc) in *. simpl.
      unfold wallet_row. rewrite Ew. simpl.
      by rewrite (proj2 (String.eqb_neq _ _) Hnw).
    + intros <- Hi. rewrite String.eqb_refl in *. simpl in *.
      unfold Z.sub in *. unfold is_i64 in Hi.
      rewrite (proj2 (Z.ltb_ge (_ + _) i64_min)), (proj2 (Z.ltb_ge i64_max _)) in * by lia.
      simpl in *. destruct (decide (wr_balance_minor w + - amount < _)) as [Hl|Hl].
      * by rewrite (proj2 (Z.ltb_lt _ _) Hl).
      * rewrite (proj2 (Z.ltb_ge _ _)) in * by lia. split; [done|].
        by apply (Hok tt).
  - unfold wallet_row. by rewrite Ew.
Qed.
