(* ===== verification/MeteringDb.v ===== *)
(** * MeteringDb: the persistence of the meter and of the rating queue

    [mm-db/src/metering_db.rs] on V035, V036 and V038: the counter positions, the
    usage events, the queue of unrated events and the rate card. *)
From S2P Require Import Prelude Schema.
Local Open Scope Z_scope.
Local Open Scope mm_scope.

Record EgressBaseline : Type := {
  eb_source : string;
  eb_epoch : string;
  eb_cumulative_bytes : Z;
  eb_observed_at : DateTime
}.

Record Recorded : Type := { rc_events : Z; rc_bytes : Z }.

(** A card: its version, and a price per unit. *)
Abbreviation RateCard := (Z * list (string * Z))%type (only parsing).

Record EgressInterval : Type := {
  ei_source : string;
  ei_user_id : string;
  ei_broadcast_id : string;
  ei_bytes : Z;
  ei_quantity_milli : Z;
  ei_cumulative_bytes : Z;
  ei_epoch : string;
  ei_idempotency_key : string;
  ei_occurred_at : DateTime
}.

Record PendingUsage : Type := {
  pu_id : Z;
  pu_user_id : string;
  pu_broadcast_id : string;
  pu_unit : string;
  pu_quantity_milli : Z;
  pu_idempotency_key : string;
  pu_occurred_at : DateTime;
  pu_currency : string
}.

(** [MeteringDbError::Db(e.to_string())], displayed as the code displays it. *)
Definition metering_db {A} (m : st Db (result A db_error)) : st Db (result A string) :=
  let! r := m in st_ret (map_err (λ e, "database error: " +:+ dbe_message e) r).

(** ** Statements *)
Definition units : list string :=
  ["egress_gb"; "gpu_minute"; "node_minute"; "storage_gb_month"].

Definition select_baselines (mm_node_id : string) (t : Tables) : list EgressBaseline :=
  (λ kr : (string * string) * BaselineRec, {|
     eb_source := kr.1.2; eb_epoch := bl_epoch kr.2;
     eb_cumulative_bytes := bl_cumulative_bytes kr.2;
     eb_observed_at := bl_observed_at kr.2 |}) <$>
  order_by (λ kr, kr.1.2)
    (List.filter (λ kr, String.eqb kr.1.1 mm_node_id) (map_to_list (t_baseline t))).

(** INSERT ... ON CONFLICT (idempotency_key) DO NOTHING: the rows affected. *)
Definition insert_usage (mm_node_id : string) (iv : EgressInterval) : stmt Z := λ _ t,
  if ei_quantity_milli iv <? 0 then Err (violates "mm_usage_events_quantity_milli_check")
  else if existsb (λ e, String.eqb (ue_idempotency_key e) (ei_idempotency_key iv)) (t_usage t)
  then Ok (0, t)
  else Ok (1, set_usage (t_usage t ++ [{|
      ue_id := t_usage_seq t; ue_user_id := ei_user_id iv;
      ue_broadcast_id := ei_broadcast_id iv; ue_unit := "egress_gb";
      ue_quantity_milli := ei_quantity_milli iv; ue_mm_node_id := Some mm_node_id;
      ue_idempotency_key := ei_idempotency_key iv; ue_occurred_at := ei_occurred_at iv;
      ue_rated_at := None; ue_rate_card_version := None; ue_transaction_id := None;
      ue_egress_epoch := Some (ei_epoch iv);
      ue_cumulative_bytes := Some (ei_cumulative_bytes iv) |}]) (t_usage_seq t + 1) t).

Definition upsert_baseline (mm_node_id epoch : string) (observed_at : DateTime)
    (source : string) (cumulative : Z) : stmt unit := λ _ t,
  if cumulative <? 0 then Err (violates "mm_egress_baseline_cumulative_bytes_check")
  else Ok ((), set_baseline (<[(mm_node_id, source) := {|
      bl_epoch := epoch; bl_cumulative_bytes := cumulative;
      bl_observed_at := observed_at |}]> (t_baseline t)) t).

(** ** Operations *)
Definition baselines_for_node (mm_node_id : string) :
    st Db (result (list EgressBaseline) string) :=
  metering_db (exec (reading (select_baselines mm_node_id))).

(** The loop over the intervals, with the counts of what was newly written. *)
Fixpoint record_usage (mm_node_id : string) (intervals : list EgressInterval)
    (written : Recorded) : st Db (result Recorded string) :=
  match intervals with
  | [] => st_ret (Ok written)
  | iv :: rest =>
      let? rows := metering_db (exec_tx (insert_usage mm_node_id iv)) in
      record_usage mm_node_id rest
        (if 0 <? rows
         then {| rc_events := rc_events written + 1;
                 rc_bytes := i64_wrap (rc_bytes written + ei_bytes iv) |}
         else written)
  end.

Definition record_interval (mm_node_id epoch : string) (observed_at : DateTime)
    (intervals : list EgressInterval) (positions : list (string * Z)) :
    st Db (result Recorded string) :=
  in_tx (λ e, "database error: " +:+ dbe_message e) (
    let? written := record_usage mm_node_id intervals {| rc_events := 0; rc_bytes := 0 |} in
    let? _ := st_try_each (λ p, metering_db (exec_tx
      (upsert_baseline mm_node_id epoch observed_at p.1 p.2))) positions in
    st_ret (Ok written)).

Definition is_unrated (e : UsageRec) : bool := bool_decide (ue_rated_at e = None).

Definition unrated_count : st Db (result Z string) :=
  metering_db (exec (reading (λ t,
    Z.of_nat (length (List.filter is_unrated (t_usage t)))))).

Definition payer_for_broadcast (broadcast_id : string) :
    st Db (result (option (string * string)) string) :=
  metering_db (exec (reading (λ t,
    s ← t_streams t !! broadcast_id;
    w ← t_wallets t !! sr_host_user_id s;
    Some (sr_host_user_id s, wr_currency w)))).

(** ORDER BY rating_blocked_at NULLS FIRST, occurred_at, id. *)
Definition queue_key (t : Tables) (e : UsageRec) : option Z * Z * Z :=
  (w ← t_wallets t !! ue_user_id e; wr_rating_blocked_at w, ue_occurred_at e, ue_id e).

Definition blocked_cmp (a b : option Z) : comparison :=
  match a, b with
  | None, None => Eq
  | None, Some _ => Lt
  | Some _, None => Gt
  | Some x, Some y => Z.compare x y
  end.

Definition queue_le (t : Tables) (a b : UsageRec) : bool :=
  let '(ba, oa, ia) := queue_key t a in
  let '(bb, ob, ib) := queue_key t b in
  match blocked_cmp ba bb with
  | Lt => true
  | Gt => false
  | Eq =>
      match Z.compare oa ob with
      | Lt => true
      | Gt => false
      | Eq => ia <=? ib
      end
  end.

Definition pending_of (t : Tables) (e : UsageRec) : option PendingUsage :=
  w ← t_wallets t !! ue_user_id e;
  Some {| pu_id := ue_id e; pu_user_id := ue_user_id e;
    pu_broadcast_id := ue_broadcast_id e; pu_unit := ue_unit e;
    pu_quantity_milli := ue_quantity_milli e;
    pu_idempotency_key := ue_idempotency_key e; pu_occurred_at := ue_occurred_at e;
    pu_currency := wr_currency w |}.

Definition queue_before (t : Tables) (a b : UsageRec) : Prop := queue_le t a b = true.

#[export] Instance queue_before_dec t : RelDecision (queue_before t).
Proof. intros a b. unfold queue_before. apply _. Defined.

Definition queue (t : Tables) : list PendingUsage :=
  omap (pending_of t) (merge_sort (queue_before t) (List.filter is_unrated (t_usage t))).

Definition unrated_events (n : Z) : st Db (result (list PendingUsage) string) :=
  metering_db (exec (reading (λ t, limit n (queue t)))).

Definition set_blocked (user_id : string) (at' : option DateTime) (t : Tables) : Tables :=
  set_wallets (alter (λ w, {| wr_currency := wr_currency w;
    wr_balance_minor := wr_balance_minor w;
    wr_credit_limit_minor := wr_credit_limit_minor w;
    wr_updated_at := wr_updated_at w; wr_rating_blocked_at := at' |}) user_id
    (t_wallets t)) t.

Definition block_rating (user_id : string) (now : DateTime) : st Db (result unit string) :=
  metering_db (exec (λ _ t, Ok ((), set_blocked user_id (Some now) t))).

Definition unblock_rating (user_id : string) : st Db (result unit string) :=
  metering_db (exec (λ _ t, Ok ((), set_blocked user_id None t))).

Definition unrated_without_wallet : st Db (result (list string) string) :=
  metering_db (exec (reading (λ t, remove_dups (ue_user_id <$>
    List.filter (λ e, is_unrated e && bool_decide (t_wallets t !! ue_user_id e = None))
      (t_usage t))))).

(** The rows of the newest version of a currency's card. *)
Definition newest_rates (currency : string) (t : Tables) : list RateRec :=
  let rows := List.filter (λ r, String.eqb (rr_currency r) currency) (t_rate_card t) in
  List.filter (λ r, forallb (λ r', rr_version r' <=? rr_version r) rows) rows.

Definition current_prices (currency : string) : st Db (result (option RateCard) string) :=
  let? rows := metering_db (exec (reading (newest_rates currency))) in
  match rows with
  | [] => st_ret (Ok None)
  | r :: _ => st_ret (Ok (Some (rr_version r,
      (λ r, (rr_unit r, rr_price_minor r)) <$> rows)))
  end.

Definition transaction_id_for_key (key : string) : st Db (result (option Z) string) :=
  metering_db (exec (reading (λ t, tx_id <$>
    List.find (λ x, String.eqb (tx_idempotency_key x) key) (t_transactions t)))).

Definition rate_event (event_id version : Z) (tx : option Z) (rated_at : DateTime)
    (e : UsageRec) : UsageRec :=
  if bool_decide (ue_id e = event_id) && is_unrated e then {|
    ue_id := ue_id e; ue_user_id := ue_user_id e; ue_broadcast_id := ue_broadcast_id e;
    ue_unit := ue_unit e; ue_quantity_milli := ue_quantity_milli e;
    ue_mm_node_id := ue_mm_node_id e; ue_idempotency_key := ue_idempotency_key e;
    ue_occurred_at := ue_occurred_at e; ue_rated_at := Some rated_at;
    ue_rate_card_version := Some version; ue_transaction_id := tx;
    ue_egress_epoch := ue_egress_epoch e; ue_cumulative_bytes := ue_cumulative_bytes e |}
  else e.

(** UPDATE with the foreign key on the transaction, checked when a row changes. *)
Definition update_rated (event_id version : Z) (tx : option Z) (rated_at : DateTime) :
    stmt unit := λ _ t,
  let hit := existsb (λ e, bool_decide (ue_id e = event_id) && is_unrated e) (t_usage t) in
  let known := match tx with
    | None => true
    | Some i => existsb (λ x, tx_id x =? i) (t_transactions t)
    end in
  if hit && negb known then Err (violates "mm_usage_events_transaction_id_fkey")
  else Ok ((), set_usage (rate_event event_id version tx rated_at <$> t_usage t)
         (t_usage_seq t) t).

Definition mark_rated (event_id version transaction_id : Z) (rated_at : DateTime) :
    st Db (result unit string) :=
  metering_db (exec (update_rated event_id version (Some transaction_id) rated_at)).

(** The transaction column is left as it is, which is NULL for an unrated row. *)
Definition mark_rated_without_charge (event_id version : Z) (rated_at : DateTime) :
    st Db (result unit string) :=
  metering_db (exec (update_rated event_id version None rated_at)).

(** GROUP BY node, HAVING MAX(observed_at) < cutoff, ORDER BY that maximum. *)
Definition last_seen (t : Tables) (node : string) : Z :=
  match List.filter (λ kr, String.eqb kr.1.1 node) (map_to_list (t_baseline t)) with
  | [] => 0
  | kr :: rest => foldl (λ m kr, Z.max m (bl_observed_at kr.2)) (bl_observed_at kr.2) rest
  end.

Definition seen_before (a b : string * DateTime) : Prop := a.2 ≤ b.2.

#[export] Instance seen_before_dec : RelDecision seen_before.
Proof. intros a b. unfold seen_before. apply _. Defined.

Definition stale_meters (cutoff : DateTime) :
    st Db (result (list (string * DateTime)) string) :=
  metering_db (exec (reading (λ t, merge_sort seen_before
    (List.filter (λ nl : string * Z, nl.2 <? cutoff)
      ((λ n, (n, last_seen t n)) <$>
        remove_dups ((λ kr, kr.1.1) <$> map_to_list (t_baseline t))))))).
