(* ===== verification/Metering.v ===== *)
(** * Metering: turning a node's egress counters into billable usage

    [mm-fleet/src/metering.rs]. A node exposes cumulative bytes per source within an
    epoch; [egress_delta] turns two readings into usage and [sweep_egress] polls the
    nodes and records usage and counter positions in one transaction. The node's
    HTTP client is a class of its own, over the state of the nodes. *)
From S2P Require Import Prelude Schema MeteringDb.
Local Open Scope Z_scope.
Local Open Scope mm_scope.

(** [mm-core/src/switch_client.rs]: what a node reports. *)
Record SwitchEgress : Type := {
  se_epoch : string;
  se_since : DateTime;
  se_overhead_bytes_per_packet : Z;
  se_sources : list (string * Z)
}.

Record EgressSnapshot : Type := {
  es_epoch : string;
  es_since : DateTime;
  es_bytes : gmap string Z
}.

(** The iteration order of a [BTreeMap]. *)
Definition by_source (m : gmap string Z) : list (string * Z) := order_by fst (map_to_list m).

Definition snapshot_of (e : SwitchEgress) : EgressSnapshot := {|
  es_epoch := se_epoch e;
  es_since := se_since e;
  es_bytes := foldl (λ m r, <[r.1 := i64_wrap (default 0 (m !! r.1) + r.2)]> m) ∅
    (se_sources e)
|}.

Definition baseline_snapshot (rows : list EgressBaseline) : option EgressSnapshot :=
  match rows with
  | [] => None
  | first :: _ =>
      if existsb (λ r, negb (String.eqb (eb_epoch r) (eb_epoch first))) rows then None
      else Some {|
        es_epoch := eb_epoch first;
        es_since := eb_observed_at first;
        es_bytes := foldl (λ m r, <[eb_source r := eb_cumulative_bytes r]> m) ∅ rows
      |}
  end.

Definition broadcast_id_for_source (source : string) : option string :=
  match strip_prefix "stream-" source with
  | Some s => if is_empty_str s then None else Some s
  | None => None
  end.

Record Usage : Type := { us_source : string; us_bytes : Z }.

Inductive MeteringAnomaly : Type :=
  | CountersReset (previous_epoch current_epoch : string) (new_epoch_since : DateTime)
  | CounterWentBackwards (source : string) (previous current : Z)
  | SourceVanished (source : string) (previous : Z).

Record MeteringResult : Type := {
  mr_usage : list Usage;
  mr_anomalies : list MeteringAnomaly;
  mr_advance_baseline : bool
}.

(** One source of the current reading against the previous one. *)
Definition source_delta (previous : gmap string Z) (acc : list Usage * list MeteringAnomaly)
    (r : string * Z) : list Usage * list MeteringAnomaly :=
  let '(usage, anomalies) := acc in
  let '(source, now) := r in
  let before := default 0 (previous !! source) in
  if now <? before then
    (usage, anomalies ++ [CounterWentBackwards source before now])
  else
    let delta := i64_wrap (now - before) in
    if 0 <? delta
    then (usage ++ [{| us_source := source; us_bytes := delta |}], anomalies)
    else (usage, anomalies).

Definition vanished (current : gmap string Z) (r : string * Z) : list MeteringAnomaly :=
  if bool_decide (is_Some (current !! r.1)) then [] else [SourceVanished r.1 r.2].

Definition egress_delta (previous : option EgressSnapshot) (current : EgressSnapshot) :
    MeteringResult :=
  match previous with
  | None => {| mr_usage := []; mr_anomalies := []; mr_advance_baseline := true |}
  | Some previous =>
      if negb (String.eqb (es_epoch previous) (es_epoch current)) then {|
        mr_usage := (λ r, {| us_source := r.1; us_bytes := r.2 |}) <$>
          List.filter (λ r : string * Z, 0 <? r.2) (by_source (es_bytes current));
        mr_anomalies := [CountersReset (es_epoch previous) (es_epoch current)
          (es_since current)];
        mr_advance_baseline := true |}
      else
        let '(usage, anomalies) :=
          foldl (source_delta (es_bytes previous)) ([], []) (by_source (es_bytes current)) in
        {| mr_usage := usage;
           mr_anomalies := anomalies ++
             mjoin (vanished (es_bytes current) <$> by_source (es_bytes previous));
           mr_advance_baseline := true |}
  end.

Definition bytes_to_milli_gb (bytes : Z) : Z :=
  if bytes <=? 0 then 0 else Z.quot bytes 1000000.

Definition usage_idempotency_key (node_id epoch source : string) (cumulative : Z) : string :=
  "egress:" +:+ node_id +:+ ":" +:+ epoch +:+ ":" +:+ source +:+ ":" +:+ fmt_i64 cumulative.

Definition ORIGIN_NODE_ID : string := "origin".

Record MeteringSweep : Type := {
  ms_polled : list string;
  ms_unreachable : list (string * string);
  ms_events_written : Z;
  ms_unbillable : list string;
  ms_anomalies : list MeteringAnomaly;
  ms_metered_bytes : list (string * Z)
}.

Definition empty_sweep : MeteringSweep := {|
  ms_polled := []; ms_unreachable := []; ms_events_written := 0; ms_unbillable := [];
  ms_anomalies := []; ms_metered_bytes := [] |}.
Definition add_unreachable (node why : string) (s : MeteringSweep) : MeteringSweep := {|
  ms_polled := ms_polled s; ms_unreachable := ms_unreachable s ++ [(node, why)];
  ms_events_written := ms_events_written s; ms_unbillable := ms_unbillable s;
  ms_anomalies := ms_anomalies s; ms_metered_bytes := ms_metered_bytes s |}.
Definition add_unbillable (source : string) (s : MeteringSweep) : MeteringSweep := {|
  ms_polled := ms_polled s; ms_unreachable := ms_unreachable s;
  ms_events_written := ms_events_written s; ms_unbillable := ms_unbillable s ++ [source];
  ms_anomalies := ms_anomalies s; ms_metered_bytes := ms_metered_bytes s |}.
Definition add_anomalies (l : list MeteringAnomaly) (s : MeteringSweep) : MeteringSweep := {|
  ms_polled := ms_polled s; ms_unreachable := ms_unreachable s;
  ms_events_written := ms_events_written s; ms_unbillable := ms_unbillable s;
  ms_anomalies := ms_anomalies s ++ l; ms_metered_bytes := ms_metered_bytes s |}.
Definition add_recorded (node : string) (w : Recorded) (s : MeteringSweep) :
    MeteringSweep := {|
  ms_polled := ms_polled s ++ [node]; ms_unreachable := ms_unreachable s;
  ms_events_written := ms_events_written s + rc_events w;
  ms_unbillable := ms_unbillable s; ms_anomalies := ms_anomalies s;
  ms_metered_bytes := if 0 <? rc_bytes w
    then ms_metered_bytes s ++ [(node, rc_bytes w)] else ms_metered_bytes s |}.

(** The node's client: [SwitchClient::egress] of the node with this id. *)
Class SwitchMeter (N : Type) : Type := {
  egress : string → st N (result SwitchEgress string)
}.

(** The body of the loop over the usage of one node. *)
Definition bill_source (node_id : string) (current : EgressSnapshot) (now : DateTime)
    (acc : MeteringSweep * list EgressInterval) (u : Usage) :
    st Db (MeteringSweep * list EgressInterval) :=
  let '(sweep, intervals) := acc in
  match broadcast_id_for_source (us_source u) with
  | None => st_ret (add_unbillable (us_source u) sweep, intervals)
  | Some broadcast_id =>
      let! payer := payer_for_broadcast broadcast_id in
      match payer with
      | Err e => st_ret (add_unreachable node_id ("payer lookup failed: " +:+ e) sweep,
                         intervals)
      | Ok None => st_ret (add_unbillable (us_source u) sweep, intervals)
      | Ok (Some (user_id, _)) =>
          let cumulative := default 0 (es_bytes current !! us_source u) in
          let quantity_milli := bytes_to_milli_gb (us_bytes u) in
          if quantity_milli =? 0 then st_ret (sweep, intervals)
          else st_ret (sweep, intervals ++ [{|
            ei_source := us_source u; ei_user_id := user_id;
            ei_broadcast_id := broadcast_id; ei_bytes := us_bytes u;
            ei_quantity_milli := quantity_milli; ei_cumulative_bytes := cumulative;
            ei_epoch := es_epoch current;
            ei_idempotency_key := usage_idempotency_key node_id (es_epoch current)
              (us_source u) cumulative;
            ei_occurred_at := now |}])
      end
  end.

(** The positions that advance: billed, or nothing to bill. *)
Definition advanced_positions (current : EgressSnapshot) (usage : list Usage)
    (intervals : list EgressInterval) : list (string * Z) :=
  List.filter (λ p : string * Z,
    existsb (λ iv, String.eqb (ei_source iv) p.1) intervals ||
    negb (existsb (λ u, String.eqb (us_source u) p.1) usage))
    (by_source (es_bytes current)).

Section sweep.
Context {N : Type} `{SwitchMeter N}.

Definition sweep_node (now : DateTime) (sweep : MeteringSweep) (node_id : string) :
    st (Db * N) MeteringSweep :=
  let! stored := st_fst (baselines_for_node node_id) in
  match stored with
  | Err e => st_ret (add_unreachable node_id ("baseline read failed: " +:+ e) sweep)
  | Ok stored =>
      let previous := baseline_snapshot stored in
      let! reading := st_snd (egress node_id) in
      match reading with
      | Err e => st_ret (add_unreachable node_id e sweep)
      | Ok reading =>
          let current := snapshot_of reading in
          let result := egress_delta previous current in
          let! billed := st_fst (st_fold (bill_source node_id current now)
            (mr_usage result) (add_anomalies (mr_anomalies result) sweep, [])) in
          let '(sweep, intervals) := billed in
          let advanced := advanced_positions current (mr_usage result) intervals in
          let! written := st_fst (record_interval node_id (es_epoch current) now
            intervals advanced) in
          match written with
          | Ok w => st_ret (add_recorded node_id w sweep)
          | Err e => st_ret (add_unreachable node_id ("write failed: " +:+ e) sweep)
          end
      end
  end.

Definition sweep_egress (nodes : list string) (now : DateTime) : st (Db * N) MeteringSweep :=
  st_fold (sweep_node now) nodes empty_sweep.
End sweep.

(** ** Lemmas: maps and readings *)
Lemma elem_of_by_source m s b : (s, b) ∈ by_source m ↔ m !! s = Some b.
Proof. unfold by_source. by rewrite elem_of_order_by, elem_of_map_to_list. Qed.

Lemma by_source_NoDup m : NoDup (by_source m).*1.
Proof.
  unfold by_source. rewrite (fmap_Permutation fst _ _ (order_by_perm fst _)).
  apply NoDup_fst_map_to_list.
Qed.

(** A loop of inserts under distinct keys. *)
Lemma foldl_insert_lookup {A B} (key : A → string) (val : A → B) (l : list A)
    (m : gmap string B) s :
  NoDup (key <$> l) →
  foldl (λ m a, <[key a := val a]> m) m l !! s =
  match List.find (λ a, String.eqb (key a) s) l with
  | Some a => Some (val a)
  | None => m !! s
  end.
Proof.
  revert m. induction l as [|a l IH]; intros m Hnd; [done|].
  csimpl in Hnd. inversion_clear Hnd as [|?? Ha Hnd']. simpl. rewrite IH by done.
  destruct (String.eqb_spec (key a) s) as [<-|Hne].
  - destruct (List.find _ l) as [a'|] eqn:Ef; [|by rewrite lookup_insert_eq].
    exfalso. apply find_some in Ef as [Hin He%String.eqb_eq]. apply Ha.
    apply list_elem_of_fmap. exists a'. by rewrite list_elem_of_In.
  - by rewrite lookup_insert_ne.
Qed.

Lemma foldl_insert_Some {A B} (key : A → string) (val : A → B) (l : list A) s b :
  NoDup (key <$> l) →
  foldl (λ (m : gmap string B) a, <[key a := val a]> m) ∅ l !! s = Some b ↔
  ∃ a, a ∈ l ∧ key a = s ∧ val a = b.
Proof.
  intros Hnd. rewrite foldl_insert_lookup, lookup_empty by done. split.
  - destruct (List.find _ l) as [a|] eqn:Ef; [|done]. intros [= <-].
    apply find_some in Ef as [Hin He%String.eqb_eq]. exists a. by rewrite list_elem_of_In.
  - intros (a & Hin & Hk & <-).
    destruct (List.find _ l) as [a'|] eqn:Ef.
    + apply find_some in Ef as [Hin' He%String.eqb_eq]. f_equal. f_equal.
      apply list_elem_of_In in Hin'.
      apply list_elem_of_lookup in Hin as [i Hi]. apply list_elem_of_lookup in Hin' as [j Hj].
      assert (i = j) as <-; [|congruence].
      eapply NoDup_lookup; [exact Hnd| |]; rewrite list_lookup_fmap.
      * by rewrite Hi.
      * rewrite Hj. simpl. by rewrite He, Hk.
    + apply list_elem_of_In in Hin. pose proof (find_none _ _ Ef a Hin) as Hn. simpl in Hn.
      by rewrite Hk, String.eqb_refl in Hn.
Qed.

Lemma elem_of_select_baselines node t r :
  r ∈ select_baselines node t ↔
  ∃ rec, t_baseline t !! (node, eb_source r) = Some rec ∧ eb_epoch r = bl_epoch rec ∧
    eb_cumulative_bytes r = bl_cumulative_bytes rec ∧
    eb_observed_at r = bl_observed_at rec.
Proof.
  unfold select_baselines. rewrite list_elem_of_fmap. split.
  - intros ([[n s] rec] & -> & Hin). rewrite elem_of_order_by, list_elem_of_In, filter_In
      in Hin. destruct Hin as [Hin He%String.eqb_eq]. simpl in *. subst n.
    exists rec. rewrite <- list_elem_of_In, elem_of_map_to_list in Hin. done.
  - intros (rec & Hr & He & Hc & Ho). exists ((node, eb_source r), rec). split.
    + destruct r. simpl in *. by subst.
    + rewrite elem_of_order_by, list_elem_of_In, filter_In. simpl.
      rewrite String.eqb_refl. split; [|done].
      by rewrite <- list_elem_of_In, elem_of_map_to_list.
Qed.

Lemma select_baselines_NoDup node t : NoDup (eb_source <$> select_baselines node t).
Proof.
  unfold select_baselines. rewrite <- list_fmap_compose.
  rewrite (fmap_Permutation _ _ _ (order_by_perm _ _)).
  assert (Hnd : NoDup (map_to_list (t_baseline t)).*1) by apply NoDup_fst_map_to_list.
  induction (map_to_list (t_baseline t)) as [|[[n s] rec] l IH]; [constructor|].
  csimpl in Hnd. inversion_clear Hnd as [|?? Ha Hnd']. csimpl.
  destruct (String.eqb_spec n node) as [->|]; [|auto]. csimpl. constructor; [|auto].
  intros ([[n' s'] rec'] & He & Hin)%list_elem_of_fmap. simpl in He. subst s'.
  rewrite list_elem_of_In, filter_In in Hin. destruct Hin as [Hin Hn%String.eqb_eq].
  simpl in Hn. subst n'. apply Ha. apply list_elem_of_fmap.
  exists ((node, s), rec'). by rewrite list_elem_of_In.
Qed.

(** A usable baseline: one epoch, and exactly the stored positions. *)
Lemma baseline_snapshot_Some node t p :
  baseline_snapshot (select_baselines node t) = Some p →
  (∀ s rec, t_baseline t !! (node, s) = Some rec →
    bl_epoch rec = es_epoch p ∧ es_bytes p !! s = Some (bl_cumulative_bytes rec)) ∧
  (∀ s c, es_bytes p !! s = Some c →
    ∃ rec, t_baseline t !! (node, s) = Some rec ∧ bl_cumulative_bytes rec = c).
Proof.
  unfold baseline_snapshot.
  pose proof (elem_of_select_baselines node t) as Hel.
  pose proof (select_baselines_NoDup node t) as Hnd.
  destruct (select_baselines node t) as [|first rest] eqn:Er; [done|].
  destruct (existsb _ (first :: rest)) eqn:Ex; [done|]. intros [= <-].
  cbn [es_bytes es_epoch].
  assert (Hall : ∀ r, r ∈ first :: rest → eb_epoch r = eb_epoch first).
  { intros r Hr. apply list_elem_of_In in Hr.
    destruct (String.eqb_spec (eb_epoch r) (eb_epoch first)) as [|Hne]; [done|].
    exfalso. apply not_true_iff_false in Ex. apply Ex, existsb_exists. exists r.
    split; [done|]. by rewrite (proj2 (String.eqb_neq _ _) Hne). }
  split.
  - intros s rec Hr. set (r := {| eb_source := s; eb_epoch := bl_epoch rec;
      eb_cumulative_bytes := bl_cumulative_bytes rec;
      eb_observed_at := bl_observed_at rec |}).
    assert (Hin : r ∈ first :: rest) by (apply Hel; exists rec; done).
    split; [apply (Hall r Hin)|]. apply (proj2 (foldl_insert_Some eb_source
      eb_cumulative_bytes (first :: rest) s _ Hnd)). by exists r.
  - intros s c Hc. apply (proj1 (foldl_insert_Some eb_source eb_cumulative_bytes
      (first :: rest) s c Hnd)) in Hc as (r & Hin & <- & <-).
    apply Hel in Hin as (rec & Hr & _ & Hcum & _). exists rec. by rewrite Hcum.
Qed.

(** Two rows that disagree about the epoch make the baseline unusable. *)
Lemma baseline_snapshot_mixed node t s1 s2 r1 r2 :
  t_baseline t !! (node, s1) = Some r1 → t_baseline t !! (node, s2) = Some r2 →
  bl_epoch r1 ≠ bl_epoch r2 → baseline_snapshot (select_baselines node t) = None.
Proof.
  intros H1 H2 Hne. destruct (baseline_snapshot _) as [p|] eqn:E; [|done].
  apply baseline_snapshot_Some in E as [Hall _].
  destruct (Hall s1 r1 H1) as [? _], (Hall s2 r2 H2) as [? _]. congruence.
Qed.

(** ** Lemmas: what one poll writes *)

(** The thousandths of a gigabyte on the invoices of a broadcast for one epoch of a
    node. *)
Definition of_epoch (node b e : string) (ev : UsageRec) : bool :=
  bool_decide (ue_mm_node_id ev = Some node) && String.eqb (ue_broadcast_id ev) b &&
  bool_decide (ue_egress_epoch ev = Some e).

Definition billed (node b e : string) (t : Tables) : Z :=
  sumZ (ue_quantity_milli <$> List.filter (of_epoch node b e) (t_usage t)).

Definition interval_sum (b e : string) (ivs : list EgressInterval) : Z :=
  sumZ (ei_quantity_milli <$>
    List.filter (λ iv, String.eqb (ei_broadcast_id iv) b && String.eqb (ei_epoch iv) e) ivs).

Lemma metering_db_run {A} (m : st Db (result A db_error)) db :
  metering_db m db =
  (map_err (λ e, "database error: " +:+ dbe_message e) (m db).1, (m db).2).
Proof. unfold metering_db, st_bind, st_ret. by destruct (m db). Qed.

Lemma insert_usage_ok node iv now t rows t' :
  insert_usage node iv now t = Ok (rows, t') →
  t_baseline t' = t_baseline t ∧
  ∀ b e, billed node b e t ≤ billed node b e t' ≤ billed node b e t + interval_sum b e [iv].
Proof.
  unfold insert_usage. destruct (Z.ltb_spec (ei_quantity_milli iv) 0) as [|Hq]; [done|].
  destruct (existsb _ _); intros [= _ <-]; (split; [done|]); intros b e.
  - unfold interval_sum. simpl. destruct (_ && _); simpl; lia.
  - unfold billed. simpl. rewrite List.filter_app, fmap_app, sumZ_app.
    unfold interval_sum, of_epoch. simpl. rewrite bool_decide_true by done. simpl.
    destruct (String.eqb (ei_broadcast_id iv) b), (String.eqb_spec (ei_epoch iv) e);
      simpl; repeat case_bool_decide; simpl; try congruence; lia.
Qed.

Lemma interval_sum_cons b e iv ivs :
  interval_sum b e (iv :: ivs) = interval_sum b e [iv] + interval_sum b e ivs.
Proof. unfold interval_sum. simpl. destruct (_ && _); csimpl; lia. Qed.

Lemma record_usage_ok node ivs w db w' db' :
  record_usage node ivs w db = (Ok w', db') →
  t_baseline (db_tables db') = t_baseline (db_tables db) ∧
  (ivs = [] → t_usage (db_tables db') = t_usage (db_tables db)) ∧
  ∀ b e, billed node b e (db_tables db) ≤ billed node b e (db_tables db')
    ≤ billed node b e (db_tables db) + interval_sum b e ivs.
Proof.
  revert w db. induction ivs as [|iv ivs IH]; intros w db; simpl.
  { intros [= _ <-]. split; [done|]. split; [done|]. intros b e. unfold interval_sum.
    simpl. lia. }
  unfold st_try, st_bind. rewrite metering_db_run.
  pose proof (exec_tx_ok (insert_usage node iv) db) as Hok.
  destruct (exec_tx _ db) as [[rows|er] db1]; simpl in *; [|done].
  destruct (insert_usage_ok _ _ _ _ _ _ (Hok rows eq_refl)) as [Hb1 Hs1].
  intros Hrun. apply IH in Hrun as (Hb2 & _ & Hs2).
  split; [congruence|]. split; [done|]. intros b e. rewrite interval_sum_cons.
  specialize (Hs1 b e). specialize (Hs2 b e). lia.
Qed.

Lemma upsert_positions_ok node epoch now l db u db' :
  NoDup l.*1 →
  st_try_each (λ p : string * Z, metering_db (exec_tx
    (upsert_baseline node epoch now p.1 p.2))) l db = (Ok u, db') →
  t_usage (db_tables db') = t_usage (db_tables db) ∧
  (∀ s c, (s, c) ∈ l → t_baseline (db_tables db') !! (node, s) =
    Some {| bl_epoch := epoch; bl_cumulative_bytes := c; bl_observed_at := now |}) ∧
  (∀ n s, (n ≠ node ∨ s ∉ l.*1) →
    t_baseline (db_tables db') !! (n, s) = t_baseline (db_tables db) !! (n, s)).
Proof.
  revert db. induction l as [|[s0 c0] l IH]; intros db Hnd; simpl.
  { intros [= _ <-]. split; [done|]. split; [|done]. by intros s c ?%not_elem_of_nil. }
  csimpl in Hnd. inversion_clear Hnd as [|?? Hs0 Hnd'].
  unfold st_try, st_bind. rewrite metering_db_run.
  pose proof (exec_tx_ok (upsert_baseline node epoch now s0 c0) db) as Hok.
  destruct (exec_tx _ db) as [[x|er] db1]; simpl in *; [|done].
  specialize (Hok x eq_refl). unfold upsert_baseline in Hok.
  destruct (c0 <? 0); [done|]. injection Hok as _ Ht.
  intros Hrun. apply IH in Hrun as (Hu & Hin & Hout); [|done].
  split; [rewrite Hu, <- Ht; done|]. split.
  - intros s c [[= -> ->]|Hsc]%elem_of_cons; [|by apply Hin].
    rewrite Hout by (by right). rewrite <- Ht. simpl. apply lookup_insert_eq.
  - intros n s Hns. rewrite Hout.
    + rewrite <- Ht. simpl. apply lookup_insert_ne. intros [= <- <-].
      destruct Hns as [?|Hns]; [done|]. apply Hns. left.
    + destruct Hns as [?|Hns]; [by left|right]. intros Hs. apply Hns. by right.
Qed.

(** A poll's transaction happened or it did not. *)
Definition poll_written (node epoch : string) (now : DateTime) (ivs : list EgressInterval)
    (positions : list (string * Z)) (t t' : Tables) : Prop :=
  (ivs = [] → t_usage t' = t_usage t) ∧
  (∀ b e, billed node b e t ≤ billed node b e t'
    ≤ billed node b e t + interval_sum b e ivs) ∧
  (∀ s c, (s, c) ∈ positions → t_baseline t' !! (node, s) =
    Some {| bl_epoch := epoch; bl_cumulative_bytes := c; bl_observed_at := now |}) ∧
  (∀ n s, (n ≠ node ∨ s ∉ positions.*1) → t_baseline t' !! (n, s) = t_baseline t !! (n, s)).

Lemma record_interval_cases node epoch now ivs positions db :
  NoDup positions.*1 →
  let t := db_tables db in
  let t' := db_tables (record_interval node epoch now ivs positions db).2 in
  t' = t ∨ poll_written node epoch now ivs positions t t'.
Proof.
  intros Hnd. cbv zeta. unfold record_interval.
  match goal with |- context [in_tx ?f ?body db] =>
    destruct (in_tx_atomic f body db) as [?|(db1 & db2 & a & Ht & Hb & Htx)] end;
    [by left|right]. rewrite Htx, <- Ht. revert Hb.
  unfold st_try at 1, st_bind at 1.
  destruct (record_usage _ _ _ db1) as [[w|er] db3] eqn:Eu; [|done].
  apply record_usage_ok in Eu as (Hb3 & Hu3 & Hs3).
  unfold st_try, st_bind.
  destruct (st_try_each _ _ db3) as [[x|er] db4] eqn:Ep; [|done].
  apply upsert_positions_ok in Ep as (Hu & Hin & Hout); [|done].
  intros [= _ <-].
  assert (Hbill : ∀ b e, billed node b e (db_tables db4) = billed node b e (db_tables db3))
    by (intros b e; unfold billed; by rewrite Hu).
  split; [intros Hi; rewrite Hu; auto|]. split; [intros b e; rewrite Hbill; apply Hs3|].
  split; [done|]. intros n s Hns. rewrite Hout by done. by rewrite Hb3.
Qed.

(** The loop over the usage reads only, and every interval stands for one usage. *)
Definition interval_of (node : string) (current : EgressSnapshot) (usage : list Usage)
    (iv : EgressInterval) : Prop :=
  ∃ u, u ∈ usage ∧ ei_source iv = us_source u ∧
    broadcast_id_for_source (us_source u) = Some (ei_broadcast_id iv) ∧
    ei_epoch iv = es_epoch current ∧
    ei_quantity_milli iv = bytes_to_milli_gb (us_bytes u) ∧ ei_quantity_milli iv ≠ 0.

Lemma payer_tables b db : db_tables (payer_for_broadcast b db).2 = db_tables db.
Proof. unfold payer_for_broadcast. rewrite metering_db_run. apply exec_reading_tables. Qed.

Lemma bill_source_spec node current now usage sweep db :
  NoDup (us_source <$> usage) →
  let r := st_fold (bill_source node current now) usage (sweep, []) db in
  db_tables r.2 = db_tables db ∧
  Forall (interval_of node current usage) r.1.2 ∧
  NoDup (ei_source <$> r.1.2) ∧ (ei_source <$> r.1.2) ⊆ us_source <$> usage.
Proof.
  intros Hnd. cbv zeta.
  pose (I := λ (seen : list Usage) (acc : MeteringSweep * list EgressInterval) (db' : Db),
    NoDup (us_source <$> seen) →
    db_tables db' = db_tables db ∧ Forall (interval_of node current seen) acc.2 ∧
    NoDup (ei_source <$> acc.2) ∧ (ei_source <$> acc.2) ⊆ us_source <$> seen).
  enough (HI : I usage (st_fold (bill_source node current now) usage (sweep, []) db).1
    (st_fold (bill_source node current now) usage (sweep, []) db).2) by (by apply HI).
  apply (st_fold_inv I).
  { intros _. split; [done|]. split; [constructor|]. split; [constructor|]. set_solver. }
  intros seen u [sw ivs] db' Hu HI. unfold I in *. rewrite fmap_app. csimpl.
  intros Hnd'. apply NoDup_app in Hnd' as (Hnd1 & Hdisj & _).
  destruct (HI Hnd1) as (Ht & Hf & Hn & Hsub). clear HI.
  assert (Hkeep : Forall (interval_of node current (seen ++ [u])) ivs).
  { eapply Forall_impl; [exact Hf|]. intros iv (v & Hv & Hrest). exists v.
    split; [apply elem_of_app; by left | done]. }
  unfold bill_source. simpl in *.
  destruct (broadcast_id_for_source (us_source u)) as [b|] eqn:Eb;
    [|simpl; repeat split; try done; set_solver].
  unfold st_bind. pose proof (payer_tables b db') as Hp.
  destruct (payer_for_broadcast b db') as [[[[user cur]|]|er] db1]; simpl in *;
    [|repeat split; try congruence; try done; set_solver..].
  destruct (Z.eqb_spec (bytes_to_milli_gb (us_bytes u)) 0) as [|Hq]; simpl;
    [repeat split; try congruence; try done; set_solver|].
  split; [congruence|]. split; [|split].
  - apply Forall_app. split; [done|]. constructor; [|constructor]. exists u. simpl.
    split; [apply elem_of_app; right; left|]. done.
  - rewrite fmap_app. apply NoDup_app. split; [done|]. split; [|apply NoDup_singleton].
    intros s Hs Hs'%list_elem_of_singleton. subst s. csimpl in Hs.
    apply (Hdisj (us_source u)); [by apply Hsub | left].
  - rewrite fmap_app. csimpl. set_solver.
Qed.

(** ** Lemmas: the delta *)
Definition delta_usage (previous : gmap string Z) (r : string * Z) : option Usage :=
  let before := default 0 (previous !! r.1) in
  if r.2 <? before then None
  else if 0 <? i64_wrap (r.2 - before)
  then Some {| us_source := r.1; us_bytes := i64_wrap (r.2 - before) |} else None.

Definition delta_backwards (previous : gmap string Z) (r : string * Z) :
    option MeteringAnomaly :=
  let before := default 0 (previous !! r.1) in
  if r.2 <? before then Some (CounterWentBackwards r.1 before r.2) else None.

Lemma foldl_source_delta previous l u a :
  foldl (source_delta previous) (u, a) l =
  (u ++ omap (delta_usage previous) l, a ++ omap (delta_backwards previous) l).
Proof.
  revert u a. induction l as [|[s now] l IH]; intros u a; [by rewrite !app_nil_r|].
  cbn [foldl source_delta]. unfold delta_usage, delta_backwards. csimpl.
  destruct (now <? _); [by rewrite IH, <- app_assoc|].
  destruct (0 <? _); by rewrite IH, <- ?app_assoc.
Qed.

(** The usage of a poll in closed form: per source, what the reading adds. *)
Definition usage_of (previous : EgressSnapshot) (current : EgressSnapshot) : list Usage :=
  if String.eqb (es_epoch previous) (es_epoch current)
  then omap (delta_usage (es_bytes previous)) (by_source (es_bytes current))
  else omap (delta_usage ∅) (by_source (es_bytes current)).

Lemma filter_as_omap (l : list (string * Z)) :
  Forall (λ r, is_i64 r.2) l → Forall (λ r, 0 ≤ r.2) l →
  (λ r : string * Z, {| us_source := r.1; us_bytes := r.2 |}) <$>
    List.filter (λ r : string * Z, 0 <? r.2) l
  = omap (delta_usage ∅) l.
Proof.
  induction l as [|[s b] l IH]; intros Hi Hn; [done|].
  inversion_clear Hi as [|?? Hb Hi']. inversion_clear Hn as [|?? Hb0 Hn'].
  csimpl. unfold delta_usage at 1. simpl. rewrite lookup_empty. simpl in *.
  rewrite (proj2 (Z.ltb_ge b 0)), Z.sub_0_r, i64_wrap_id by done.
  destruct (0 <? b); csimpl; by rewrite IH.
Qed.

Definition reading_ok (s : EgressSnapshot) : Prop :=
  map_Forall (λ _ b, 0 ≤ b ≤ i64_max) (es_bytes s).

Lemma egress_delta_usage previous current :
  reading_ok current → mr_usage (egress_delta (Some previous) current)
    = usage_of previous current.
Proof.
  intros Hr. unfold egress_delta, usage_of.
  destruct (String.eqb_spec (es_epoch previous) (es_epoch current)); simpl.
  - by rewrite foldl_source_delta.
  - apply filter_as_omap; apply Forall_forall; intros [s b] Hin;
      apply elem_of_by_source, Hr in Hin; simpl; unfold is_i64, i64_min; lia.
Qed.

Lemma elem_of_delta_usage previous current u :
  reading_ok current → 0 ≤ default 0 (previous !! us_source u) →
  u ∈ omap (delta_usage previous) (by_source (es_bytes current)) ↔
  ∃ now, es_bytes current !! us_source u = Some now ∧
    us_bytes u = now - default 0 (previous !! us_source u) ∧ 0 < us_bytes u.
Proof.
  intros Hr Hp. rewrite list_elem_of_omap.
  assert (Hw : ∀ now, es_bytes current !! us_source u = Some now →
    default 0 (previous !! us_source u) ≤ now →
    i64_wrap (now - default 0 (previous !! us_source u))
      = now - default 0 (previous !! us_source u)).
  { intros now Hs Hle. apply Hr in Hs as Hb. apply i64_wrap_id.
    unfold is_i64, i64_min. simpl in Hb. lia. }
  split.
  - intros ([s now] & Hin & Hu). apply elem_of_by_source in Hin. unfold delta_usage in Hu.
    simpl in Hu. destruct (Z.ltb_spec now (default 0 (previous !! s))); [done|].
    destruct (Z.ltb_spec 0 (i64_wrap (now - default 0 (previous !! s)))); [|done].
    injection Hu as <-. simpl in *. exists now. split; [done|].
    rewrite (Hw now Hin) in * by done. done.
  - intros (now & Hs & Hb & Hpos). exists (us_source u, now).
    rewrite elem_of_by_source. split; [done|]. unfold delta_usage. simpl.
    rewrite (proj2 (Z.ltb_ge _ _)) by lia. rewrite (Hw _ Hs) by lia.
    rewrite (proj2 (Z.ltb_lt _ _)) by lia. destruct u. simpl in *. by subst.
Qed.

Lemma delta_usage_NoDup previous m :
  NoDup (us_source <$> omap (delta_usage previous) (by_source m)).
Proof.
  pose proof (by_source_NoDup m) as Hnd. induction (by_source m) as [|[s b] l IH];
    [constructor|]. csimpl in Hnd. inversion_clear Hnd as [|?? Hs Hnd'].
  csimpl. unfold delta_usage at 1. simpl.
  destruct (b <? _); [auto|]. destruct (0 <? _); [|auto]. csimpl. constructor; [|auto].
  intros (u & Hu & Hin)%list_elem_of_fmap.
  apply list_elem_of_omap in Hin as ([s' b'] & Hin & Hd). apply Hs.
  unfold delta_usage in Hd. simpl in Hd. destruct (b' <? _); [done|].
  destruct (0 <? _); [|done]. injection Hd as <-. simpl in Hu. subst s'.
  apply list_elem_of_fmap. by exists (s, b').
Qed.

Lemma usage_NoDup previous current :
  reading_ok current → NoDup (us_source <$> mr_usage (egress_delta previous current)).
Proof.
  intros Hr. destruct previous as [p|]; [|constructor].
  rewrite egress_delta_usage by done. unfold usage_of.
  destruct (String.eqb _ _); apply delta_usage_NoDup.
Qed.

(** ** Lemmas: one poll of one node *)
Lemma baselines_run node db :
  db_tables (baselines_for_node node db).2 = db_tables db ∧
  ∀ l, (baselines_for_node node db).1 = Ok l → l = select_baselines node (db_tables db).
Proof.
  unfold baselines_for_node. rewrite metering_db_run. simpl.
  split; [apply exec_reading_tables|]. intros l.
  pose proof (exec_reading_ok (select_baselines node) db) as He.
  destruct (exec _ db) as [[x|e] db1]; simpl in *; [|done]. intros [= <-]. by apply He.
Qed.

Lemma advanced_NoDup current usage ivs : NoDup (advanced_positions current usage ivs).*1.
Proof.
  unfold advanced_positions. pose proof (by_source_NoDup (es_bytes current)) as Hnd.
  induction (by_source (es_bytes current)) as [|[s b] l IH]; [constructor|].
  csimpl in Hnd. inversion_clear Hnd as [|?? Hs Hnd']. csimpl.
  destruct (_ || _); [|auto]. csimpl. constructor; [|auto].
  intros ([s' b'] & He & Hin)%list_elem_of_fmap. simpl in He. subst s'.
  rewrite list_elem_of_In, filter_In in Hin. destruct Hin as [Hin _]. apply Hs.
  apply list_elem_of_fmap. exists (s, b'). by rewrite list_elem_of_In.
Qed.

(** The outcome of polling a node: nothing, or one transaction derived from the
    stored baseline and the node's answer. *)
Lemma sweep_node_cases {N : Type} `{SwitchMeter N} now sweep node (w : Db * N) :
  let t := db_tables w.1 in
  let t' := db_tables (sweep_node now sweep node w).2.1 in
  t' = t ∨
  ∃ r ivs, (egress node w.2).1 = Ok r ∧
    let current := snapshot_of r in
    let usage := mr_usage (egress_delta (baseline_snapshot (select_baselines node t))
      current) in
    (NoDup (us_source <$> usage) →
      Forall (interval_of node current usage) ivs ∧ NoDup (ei_source <$> ivs) ∧
      (ei_source <$> ivs) ⊆ us_source <$> usage) ∧
    poll_written node (es_epoch current) now ivs
      (advanced_positions current usage ivs) t t'.
Proof.
  cbv zeta. remember (sweep_node now sweep node w) as res eqn:Hres. revert Hres.
  destruct w as [db n]. unfold sweep_node, st_bind at 1, st_fst at 1. cbn [fst snd].
  destruct (baselines_run node db) as [Ht1 Hl].
  destruct (baselines_for_node node db) as [[stored|e] db1]; cbn [fst snd] in *;
    [|intros ->; left; done].
  specialize (Hl stored eq_refl). subst stored.
  unfold st_bind at 1, st_snd. cbn [fst snd].
  destruct (egress node n) as [[r|e] n1]; cbn [fst snd]; [|intros ->; left; done].
  set (current := snapshot_of r).
  set (delta := egress_delta _ current). unfold st_bind at 1, st_fst at 1. cbn [fst snd].
  pose proof (bill_source_spec node current now (mr_usage delta)
    (add_anomalies (mr_anomalies delta) sweep) db1) as Hb. cbv zeta in Hb.
  assert (Ht2 : db_tables (st_fold (bill_source node current now) (mr_usage delta)
    (add_anomalies (mr_anomalies delta) sweep, []) db1).2 = db_tables db1).
  { assert (PreOrder (λ a b : Db, db_tables b = db_tables a))
      by (split; [done|intros ???; congruence]).
    refine (st_rel_fold (λ a b : Db, db_tables b = db_tables a) _ _ _ _ db1).
    intros [sw ivs] u _. unfold bill_source.
    destruct (broadcast_id_for_source _); [|apply st_rel_ret; apply _].
    apply st_rel_bind; [apply _|intros db'; apply payer_tables|].
    intros [[[user cur]|]|?]; try (apply st_rel_ret; apply _).
    destruct (_ =? 0); apply st_rel_ret; apply _. }
  destruct (st_fold _ _ _ db1) as [[sw ivs] db2]. cbn [fst snd] in *.
  unfold st_bind at 1, st_fst. cbn [fst snd].
  pose proof (record_interval_cases node (es_epoch current) now ivs
    (advanced_positions current (mr_usage delta) ivs) db2
    (advanced_NoDup _ _ _)) as Hrec. cbv zeta in Hrec. rewrite Ht2, Ht1 in Hrec.
  destruct (record_interval _ _ _ _ _ db2) as [[wr|e] db3]; cbn [fst snd] in *;
    intros ->; simpl; (destruct Hrec as [?|Hrec]; [by left|right]);
    exists r, ivs; (split; [done|]); split; try exact Hrec;
    intros Hnd; by destruct (Hb Hnd) as (_ & ? & ? & ?).
Qed.
