(* ===== verification/MeterTrace.v ===== *)
(** * MeterTrace: the meter against a node that counts

    A node process counts the bytes it delivers per source; a restart begins a new
    epoch at zero. The theorems are about every interleaving of deliveries,
    restarts and polls of the meter ([Metering.sweep_egress]), with any pattern of
    unreachable polls and lost database connections. *)
From S2P Require Import Prelude Schema MeteringDb Metering.
Local Open Scope Z_scope.
Local Open Scope mm_scope.

(** The node: its epoch, the epochs already used, the bytes delivered per epoch and
    source (those of past epochs are only remembered here), and whether it answers. *)
Record NodeEnv : Type := {
  ne_epoch : string;
  ne_used : gset string;
  ne_counters : gmap (string * string) Z;
  ne_up : bool
}.

Definition current_sources (n : NodeEnv) : list (string * Z) :=
  omap (λ kc : (string * string) * Z,
    if String.eqb kc.1.1 (ne_epoch n) then Some (kc.1.2, kc.2) else None)
    (map_to_list (ne_counters n)).

Definition node_answer (n : NodeEnv) : SwitchEgress := {|
  se_epoch := ne_epoch n; se_since := 0; se_overhead_bytes_per_packet := 28;
  se_sources := current_sources n |}.

#[export] Instance node_meter : SwitchMeter NodeEnv := {|
  egress := λ _ n, (if ne_up n
    then Ok (node_answer n)
    else Err "connection refused", n)
|}.

Inductive meter_event : Type :=
  | Deliver (source : string) (bytes : Z)
  | Restart (epoch : string)
  | Poll (up : bool) (now : DateTime) (script : list tick).

Definition delivered (n : NodeEnv) (epoch source : string) : Z :=
  default 0 (ne_counters n !! (epoch, source)).

Definition set_env (w : Db * NodeEnv) (up : bool) (script : list tick) : Db * NodeEnv :=
  ({| db_tables := db_tables w.1; db_now := db_now w.1; db_script := script |},
   {| ne_epoch := ne_epoch w.2; ne_used := ne_used w.2;
      ne_counters := ne_counters w.2; ne_up := up |}).

Definition meter_step (node : string) (w : Db * NodeEnv) (ev : meter_event) : Db * NodeEnv :=
  match ev with
  | Deliver s b => (w.1, {| ne_epoch := ne_epoch w.2; ne_used := ne_used w.2;
      ne_counters := <[(ne_epoch w.2, s) := delivered w.2 (ne_epoch w.2) s + b]>
        (ne_counters w.2); ne_up := ne_up w.2 |})
  | Restart e => (w.1, {| ne_epoch := e; ne_used := {[ e ]} ∪ ne_used w.2;
      ne_counters := ne_counters w.2; ne_up := ne_up w.2 |})
  | Poll up now script => (sweep_egress [node] now (set_env w up script)).2
  end.

(** What a node process does: counts up within [i64], and never reuses an epoch. *)
Definition possible (n : NodeEnv) (ev : meter_event) : Prop :=
  match ev with
  | Deliver s b => 0 ≤ b ∧ delivered n (ne_epoch n) s + b ≤ i64_max
  | Restart e => e ∉ ne_used n
  | Poll _ _ _ => True
  end.

Fixpoint possible_run (node : string) (w : Db * NodeEnv) (evs : list meter_event) : Prop :=
  match evs with
  | [] => True
  | ev :: rest => possible w.2 ev ∧ possible_run node (meter_step node w ev) rest
  end.

Definition meter_run (node : string) (w : Db * NodeEnv) (evs : list meter_event) :
    Db * NodeEnv :=
  foldl (meter_step node) w evs.

(** ** Lemmas: the reading *)
Definition env_ok (n : NodeEnv) : Prop :=
  map_Forall (λ _ c, 0 ≤ c ≤ i64_max) (ne_counters n) ∧
  ne_epoch n ∈ ne_used n ∧
  (∀ e s c, ne_counters n !! (e, s) = Some c → e ∈ ne_used n).

Lemma elem_of_current_sources n s c :
  (s, c) ∈ current_sources n ↔ ne_counters n !! (ne_epoch n, s) = Some c.
Proof.
  unfold current_sources. rewrite list_elem_of_omap. split.
  - intros ([[e s'] c'] & Hin & Hx). simpl in Hx.
    destruct (String.eqb_spec e (ne_epoch n)) as [->|]; [|done]. injection Hx as -> ->.
    by apply elem_of_map_to_list.
  - intros Hc. exists ((ne_epoch n, s), c). rewrite elem_of_map_to_list. simpl.
    by rewrite String.eqb_refl.
Qed.

Lemma current_sources_NoDup n : NoDup (current_sources n).*1.
Proof.
  unfold current_sources.
  assert (Hnd : NoDup (map_to_list (ne_counters n)).*1) by apply NoDup_fst_map_to_list.
  induction (map_to_list (ne_counters n)) as [|[[e s] c] l IH]; [constructor|].
  csimpl in Hnd. inversion_clear Hnd as [|?? Ha Hnd']. csimpl.
  destruct (String.eqb_spec e (ne_epoch n)) as [->|]; [|auto]. csimpl.
  constructor; [|auto]. intros ([s' c'] & He & Hin)%list_elem_of_fmap. simpl in He. subst s'.
  apply list_elem_of_omap in Hin as ([[e' s''] c''] & Hin & Hx). simpl in Hx.
  destruct (String.eqb_spec e' (ne_epoch n)) as [->|]; [|done]. injection Hx as -> ->.
  apply Ha. apply list_elem_of_fmap. by exists ((ne_epoch n, s), c').
Qed.

(** Summing a source into its entry is an insert when no source is reported twice. *)
Lemma foldl_sum_insert (l : list (string * Z)) (m : gmap string Z) :
  NoDup l.*1 → (∀ s, s ∈ l.*1 → m !! s = None) → Forall (λ r, is_i64 r.2) l →
  foldl (λ m r, <[r.1 := i64_wrap (default 0 (m !! r.1) + r.2)]> m) m l
  = foldl (λ m r, <[r.1 := r.2]> m) m l.
Proof.
  revert m. induction l as [|[s c] l IH]; intros m Hnd Hm Hi; [done|].
  csimpl in *. inversion_clear Hnd as [|?? Hs Hnd']. inversion_clear Hi as [|?? Hc Hi'].
  rewrite (Hm s) by left. simpl in *. rewrite i64_wrap_id by done. apply IH; try done.
  intros s' Hs'. rewrite lookup_insert_ne by (by intros ->). apply Hm. by right.
Qed.

Lemma snapshot_bytes n r s c :
  env_ok n → r = node_answer n →
  es_bytes (snapshot_of r) !! s = Some c ↔ ne_counters n !! (ne_epoch n, s) = Some c.
Proof.
  intros (Hc & _) ->. unfold snapshot_of, node_answer. cbn [es_bytes se_sources].
  rewrite foldl_sum_insert.
  - rewrite (foldl_insert_Some fst snd); [|apply current_sources_NoDup].
    rewrite <- elem_of_current_sources. split.
    + intros ([s' c'] & Hin & <- & <-). done.
    + intros Hin. by exists (s, c).
  - apply current_sources_NoDup.
  - intros. apply lookup_empty.
  - apply Forall_forall. intros [s' c'] Hin%elem_of_current_sources.
    apply Hc in Hin. simpl in *. unfold is_i64, i64_min. lia.
Qed.

Lemma snapshot_ok n r :
  env_ok n → r = node_answer n →
  reading_ok (snapshot_of r).
Proof.
  intros He Hr s c Hs. apply (snapshot_bytes n r s c He Hr) in Hs.
  by apply (proj1 He) in Hs.
Qed.

Lemma node_egress node n r :
  (egress node n).1 = Ok r →
  r = node_answer n.
Proof. simpl. destruct (ne_up n); [by intros [= <-] | done]. Qed.

(** ** The invariant of one broadcast *)
Definition MB : Z := 1000000.
Definition stream_source (b : string) : string := "stream-" +:+ b.

Definition meter_inv (node b : string) (t : Tables) (n : NodeEnv) : Prop :=
  let K e := delivered n e (stream_source b) in
  let B e := MB * billed node b e t in
  (∀ e, 0 ≤ B e ≤ K e) ∧
  match t_baseline t !! (node, stream_source b) with
  | None => B (ne_epoch n) = 0
  | Some r =>
      0 ≤ bl_cumulative_bytes r ≤ K (bl_epoch r) ∧
      B (bl_epoch r) ≤ bl_cumulative_bytes r ∧
      (bl_epoch r ≠ ne_epoch n → B (ne_epoch n) = 0)
  end.

Lemma milli_gb_le u : 0 < u → MB * bytes_to_milli_gb u ≤ u.
Proof.
  intros Hu. unfold bytes_to_milli_gb, MB. rewrite (proj2 (Z.leb_gt _ _)) by lia.
  rewrite Z.quot_div_nonneg by lia. apply Z.mul_div_le. lia.
Qed.

Lemma broadcast_of_source src b :
  broadcast_id_for_source src = Some b → src = stream_source b.
Proof.
  unfold broadcast_id_for_source. destruct (strip_prefix "stream-" src) as [x|] eqn:E;
    [|done]. apply strip_prefix_Some in E. destruct (is_empty_str x); [done|].
  by intros [= ->].
Qed.

(** Intervals with distinct sources bill a broadcast at most once. *)
Lemma interval_sum_no b e ivs :
  (∀ iv, iv ∈ ivs → ei_broadcast_id iv = b → ei_epoch iv = e → False) →
  interval_sum b e ivs = 0.
Proof.
  intros Hs. unfold interval_sum.
  assert (Hf : List.filter (λ iv, String.eqb (ei_broadcast_id iv) b &&
    String.eqb (ei_epoch iv) e) ivs = []); [|by rewrite Hf].
  destruct (List.filter _ ivs) as [|iv l] eqn:E; [done|]. exfalso.
  assert (Hin : In iv (List.filter (λ iv, String.eqb (ei_broadcast_id iv) b &&
    String.eqb (ei_epoch iv) e) ivs)) by (rewrite E; by left).
  apply filter_In in Hin as [Hin [Hb%String.eqb_eq He%String.eqb_eq]%andb_true_iff].
  rewrite <- list_elem_of_In in Hin. by apply (Hs iv).
Qed.

Lemma interval_sum_le b e s ivs X :
  0 ≤ X → NoDup (ei_source <$> ivs) →
  (∀ iv, iv ∈ ivs → ei_broadcast_id iv = b → ei_source iv = s) →
  (∀ iv, iv ∈ ivs → ei_broadcast_id iv = b → ei_epoch iv = e →
    MB * ei_quantity_milli iv ≤ X) →
  MB * interval_sum b e ivs ≤ X.
Proof.
  intros HX. induction ivs as [|iv ivs IH]; intros Hnd Hs Hq; [unfold interval_sum; simpl; lia|].
  csimpl in Hnd. inversion_clear Hnd as [|?? Hiv Hnd']. rewrite interval_sum_cons.
  assert (Hs' : ∀ iv, iv ∈ ivs → ei_broadcast_id iv = b → ei_source iv = s)
    by (intros; apply Hs; [by right|done]).
  assert (IH' : MB * interval_sum b e ivs ≤ X).
  { apply IH; try done. intros; apply Hq; try done. by right. }
  unfold interval_sum at 1. simpl.
  destruct (String.eqb_spec (ei_broadcast_id iv) b) as [Hb|]; [|simpl; lia].
  destruct (String.eqb_spec (ei_epoch iv) e) as [He|]; [|simpl; lia]. simpl.
  rewrite (interval_sum_no b e ivs).
  - specialize (Hq iv ltac:(left) Hb He). lia.
  - intros iv' Hin Hb' _. apply Hiv, list_elem_of_fmap. exists iv'.
    by rewrite (Hs iv ltac:(left) Hb), (Hs' iv' Hin Hb').
Qed.

Section poll.
Context (node b : string) (t : Tables) (n : NodeEnv) (r : SwitchEgress).
Context (ivs : list EgressInterval).
Hypothesis Henv : env_ok n.
Hypothesis Hr : r = node_answer n.

Let current := snapshot_of r.
Let usage := mr_usage (egress_delta (baseline_snapshot (select_baselines node t)) current).
Let s := stream_source b.

Hypothesis Hivs : Forall (interval_of node current usage) ivs.
Hypothesis Hnd : NoDup (ei_source <$> ivs).
Hypothesis Hinv : meter_inv node b t n.

Lemma interval_source iv : iv ∈ ivs → ei_broadcast_id iv = b → ei_source iv = s.
Proof.
  intros Hin Hb. rewrite Forall_forall in Hivs. destruct (Hivs iv Hin)
    as (u & _ & Hs & Hbc & _). rewrite Hs. apply broadcast_of_source. congruence.
Qed.

Lemma snapshot_delivered c :
  es_bytes current !! s = Some c → delivered n (ne_epoch n) s = c.
Proof.
  intros Hx. apply (snapshot_bytes n r s c Henv Hr) in Hx. unfold delivered. by rewrite Hx.
Qed.

(** The bytes of a usage start where the invoices of this epoch end. *)
Lemma usage_after_billed u :
  u ∈ usage → us_source u = s →
  us_bytes u ≤ delivered n (ne_epoch n) s - MB * billed node b (ne_epoch n) t ∧
  0 < us_bytes u ∧ es_bytes current !! s = Some (delivered n (ne_epoch n) s).
Proof.
  intros Hu Hs. subst usage. pose proof (snapshot_ok n r Henv Hr) as Hok.
  destruct Hinv as [HB Hrow].
  destruct (baseline_snapshot (select_baselines node t)) as [p|] eqn:Ep;
    [|by apply not_elem_of_nil in Hu].
  apply baseline_snapshot_Some in Ep as [Hp1 Hp2].
  rewrite egress_delta_usage in Hu by done. unfold usage_of in Hu.
  pose proof snapshot_delivered as Hcur.
  assert (Hep : es_epoch current = ne_epoch n) by (subst current; by rewrite Hr).
  destruct (String.eqb_spec (es_epoch p) (es_epoch current)) as [Heq|Hne].
  - assert (Hbef : default 0 (es_bytes p !! us_source u) =
        match t_baseline t !! (node, s) with
        | Some rec => bl_cumulative_bytes rec | None => 0 end).
    { rewrite Hs. destruct (t_baseline t !! (node, s)) as [rec|] eqn:Erow.
      - by destruct (Hp1 s rec Erow) as [_ ->].
      - destruct (es_bytes p !! s) as [c|] eqn:Ec; [|done].
        apply Hp2 in Ec as (rec & Hrec & _). congruence. }
    fold s in Hrow. specialize (HB (ne_epoch n)) as HBe. fold s in HBe.
    apply elem_of_delta_usage in Hu as (now & Hx & Hb & Hpos); [|done|].
    2: { rewrite Hbef. destruct (t_baseline t !! (node, s)); lia. }
    rewrite Hs in Hx. rewrite Hbef in Hb. split; [|split; [done|]].
    + rewrite (Hcur now Hx), Hb.
      destruct (t_baseline t !! (node, s)) as [rec|] eqn:Erow; [|lia].
      destruct (Hp1 s rec Erow) as [He _].
      assert (Heq' : bl_epoch rec = ne_epoch n) by congruence. rewrite Heq' in Hrow. lia.
    + by rewrite (Hcur now Hx).
  - apply elem_of_delta_usage in Hu as (now & Hx & Hb & Hpos); [|done|].
    2: { rewrite lookup_empty. simpl. lia. }
    rewrite Hs in Hx. rewrite lookup_empty in Hb. simpl in Hb.
    rewrite (Hcur now Hx). split; [|split; [done|done]].
    assert (HB0 : MB * billed node b (ne_epoch n) t = 0); [|lia].
    fold s in Hrow. destruct (t_baseline t !! (node, s)) as [rec|] eqn:Erow; [|done].
    destruct (Hp1 s rec Erow) as [He _]. apply Hrow. congruence.
Qed.

(** The invoices of other epochs, and of a stream without an interval, stay. *)
Lemma other_invoices t' :
  (∀ e, billed node b e t ≤ billed node b e t' ≤ billed node b e t + interval_sum b e ivs) →
  ∀ e, MB * billed node b e t ≤ MB * billed node b e t' ∧
    (e ≠ ne_epoch n ∨ s ∉ ei_source <$> ivs →
      MB * billed node b e t' = MB * billed node b e t).
Proof.
  intros Hbill e. specialize (Hbill e). unfold MB. split; [lia|]. intros Hcase.
  enough (interval_sum b e ivs = 0) by lia. destruct Hcase as [Hne|Hn].
  - apply interval_sum_no. intros iv Hin _ He. rewrite Forall_forall in Hivs.
    destruct (Hivs iv Hin) as (u & _ & _ & _ & Hie & _).
    assert (es_epoch current = ne_epoch n) by (subst current; by rewrite Hr). congruence.
  - apply interval_sum_no. intros iv Hin Hb _. apply Hn, list_elem_of_fmap. exists iv.
    by rewrite (interval_source iv Hin Hb).
Qed.

Lemma poll_keeps_inv now t' :
  poll_written node (es_epoch current) now ivs (advanced_positions current usage ivs) t t' →
  meter_inv node b t' n.
Proof.
  intros (_ & Hbill & Hpos & Hfr).
  assert (Hep : es_epoch current = ne_epoch n) by (subst current; by rewrite Hr).
  pose proof Hinv as [HB Hrow]. cbv zeta in HB. fold s in HB, Hrow.
  set (e0 := ne_epoch n) in *. set (D := delivered n e0 s) in *.
  assert (Hsrc := interval_source). pose proof (proj1 (Forall_forall _ _) Hivs) as Hof.
  pose proof (other_invoices t' (λ e, Hbill b e)) as Hgain.
  assert (Hcur : ∀ c, es_bytes current !! s = Some c → D = c) by apply snapshot_delivered.
  destruct (decide (s ∈ ei_source <$> ivs)) as [Hin|Hnin].
  - apply list_elem_of_fmap in Hin as (iv & Hsi & Hin).
    destruct (Hof iv Hin) as (u & Hu & Hsu & _).
    destruct (usage_after_billed u Hu ltac:(congruence)) as (Hle & Hp & Hx).
    fold e0 D in Hle, Hx.
    assert (Hsum : MB * billed node b e0 t' ≤ D).
    { assert (MB * interval_sum b e0 ivs ≤ D - MB * billed node b e0 t);
        [|specialize (Hbill b e0); unfold MB in *; lia].
      apply (interval_sum_le b e0 s); [lia|done|done|].
      intros iv' Hin' Hb' _. destruct (Hof iv' Hin') as (u' & Hu' & Hs' & _ & _ & Hq & _).
      rewrite Hq. assert (us_source u' = s) as Hs'' by (rewrite <- Hs'; by apply Hsrc).
      destruct (usage_after_billed u' Hu' Hs'') as (Hle' & Hp' & _). fold e0 D in Hle'.
      pose proof (milli_gb_le (us_bytes u') Hp'). lia. }
    assert (Hrow' : t_baseline t' !! (node, s) =
      Some {| bl_epoch := e0; bl_cumulative_bytes := D; bl_observed_at := now |}).
    { rewrite <- Hep. apply Hpos. unfold advanced_positions.
      rewrite list_elem_of_In, filter_In, <- list_elem_of_In, elem_of_by_source.
      split; [done|]. simpl. apply orb_true_iff. left. apply existsb_exists. exists iv.
      rewrite <- list_elem_of_In. split; [done|]. by apply String.eqb_eq. }
    split.
    + intros e. fold s. destruct (Hgain e) as [Hg1 Hg2]. specialize (HB e).
      destruct (decide (e = e0)) as [->|Hne]; [fold D; lia|].
      rewrite Hg2 by (by left). lia.
    + fold s. rewrite Hrow'. cbn [bl_cumulative_bytes bl_epoch]. fold D.
      specialize (HB e0). fold D in HB. split; [lia|]. split; [lia|]. done.
  - assert (Hsame : ∀ e, MB * billed node b e t' = MB * billed node b e t)
      by (intros e; apply Hgain; by right).
    split; [intros e; rewrite Hsame; apply HB|]. fold s.
    destruct (decide (s ∈ (advanced_positions current usage ivs).*1)) as [Hadv|Hnadv].
    + apply list_elem_of_fmap in Hadv as ([s' c] & Hs' & Hadv). simpl in Hs'. subst s'.
      rewrite (Hpos s c Hadv). cbn [bl_cumulative_bytes bl_epoch]. rewrite Hep.
      unfold advanced_positions in Hadv.
      rewrite list_elem_of_In, filter_In, <- list_elem_of_In, elem_of_by_source in Hadv.
      destruct Hadv as [Hx _]. apply Hcur in Hx as <-. fold D. rewrite Hsame.
      pose proof (HB e0) as HB0. fold D in HB0. fold e0. split; [lia|]. split; [|done]. lia.
    + rewrite (Hfr node s) by (by right).
      destruct (t_baseline t !! (node, s)) as [rec|]; [|by rewrite Hsame].
      rewrite !Hsame. done.
Qed.
End poll.

(** ** Lemmas: every event keeps the invariant *)
Definition anything {S : Type} (a b : S) : Prop := True.

#[export] Instance anything_preorder {S} : PreOrder (@anything S).
Proof. by split. Qed.

Lemma sweep_leaves_node now nodes :
  st_rel (both (@anything Db) (@eq NodeEnv)) (sweep_egress nodes now).
Proof.
  unfold sweep_egress. apply st_rel_fold; [apply _|]. intros sw node _. unfold sweep_node.
  assert (Hfst : ∀ A (m : st Db A), st_rel (both (@anything Db) (@eq NodeEnv)) (st_fst m)).
  { intros A m. apply st_rel_fst; [apply _|]. by intros db. }
  apply st_rel_bind; [apply _|apply Hfst|]. intros [stored|?]; [|apply st_rel_ret; apply _].
  apply st_rel_bind; [apply _| |].
  { apply st_rel_snd; [apply _|]. intros n. simpl. done. }
  intros [r|?]; [|apply st_rel_ret; apply _].
  apply st_rel_bind; [apply _|apply Hfst|]. intros [sw' ivs].
  apply st_rel_bind; [apply _|apply Hfst|]. intros [?|?]; apply st_rel_ret; apply _.
Qed.

Lemma poll_node node now up script w :
  (meter_step node w (Poll up now script)).2 = (set_env w up script).2.
Proof. simpl. symmetry. apply (sweep_leaves_node now [node] (set_env w up script)). Qed.

Lemma step_env_ok node w ev :
  env_ok w.2 → possible w.2 ev → env_ok (meter_step node w ev).2.
Proof.
  intros (Hc & He & Hu) Hp. destruct ev as [s b|e|up now script].
  - simpl in *. split; [|split]; simpl; [|done|].
    + apply map_Forall_insert_2; [|done]. unfold delivered in *.
      destruct (ne_counters w.2 !! _) as [c|] eqn:E; simpl in *; [|lia].
      apply Hc in E. simpl in E. lia.
    + intros e s' c [[[= <- <-] _]|[_ Hx]]%lookup_insert_Some; [done|by eapply Hu].
  - split; [done|]. split; simpl; [set_solver|]. intros e' s c Hx. apply Hu in Hx. set_solver.
  - by rewrite poll_node.
Qed.

(** A poll of one node: nothing, or one transaction derived from its reading. *)
Lemma poll_cases node now up script w :
  env_ok w.2 →
  let t := db_tables w.1 in
  let t' := db_tables (meter_step node w (Poll up now script)).1 in
  t' = t ∨
  ∃ r ivs, r = node_answer w.2 ∧
    let usage := mr_usage (egress_delta (baseline_snapshot (select_baselines node t))
      (snapshot_of r)) in
    Forall (interval_of node (snapshot_of r) usage) ivs ∧ NoDup (ei_source <$> ivs) ∧
    (ei_source <$> ivs) ⊆ us_source <$> usage ∧
    poll_written node (ne_epoch w.2) now ivs
      (advanced_positions (snapshot_of r) usage ivs) t t'.
Proof.
  intros He. cbv zeta. set (w0 := set_env w up script).
  assert (Hrun : db_tables (meter_step node w (Poll up now script)).1
    = db_tables (sweep_node now empty_sweep node w0).2.1).
  { simpl. unfold sweep_egress. simpl. unfold st_bind. fold w0.
    by destruct (sweep_node _ _ _ w0). }
  rewrite Hrun. destruct (sweep_node_cases now empty_sweep node w0)
    as [?|(r & ivs & Hr & Hivs & Hpw)]; [by left|right].
  apply node_egress in Hr. exists r, ivs. split; [done|]. cbv zeta.
  assert (Hok : reading_ok (snapshot_of r)) by (by apply (snapshot_ok w.2)).
  destruct (Hivs (usage_NoDup _ _ Hok)) as (? & ? & ?). do 3 (split; [done|]).
  assert (Hep : es_epoch (snapshot_of r) = ne_epoch w.2) by (by rewrite Hr).
  rewrite Hep in Hpw. exact Hpw.
Qed.

Lemma step_meter_inv node b w ev :
  env_ok w.2 → possible w.2 ev →
  meter_inv node b (db_tables w.1) w.2 →
  meter_inv node b (db_tables (meter_step node w ev).1) (meter_step node w ev).2.
Proof.
  intros He Hp Hi. destruct ev as [s x|e|up now script].
  - destruct Hp as [Hx Hm].
    assert (Hgrow : ∀ e s', delivered w.2 e s' ≤ delivered (meter_step node w (Deliver s x)).2
      e s').
    { intros e s'. unfold delivered at 2. simpl.
      destruct (decide ((ne_epoch w.2, s) = (e, s'))) as [[= <- <-]|Hne];
        [rewrite lookup_insert_eq; simpl; lia | by rewrite lookup_insert_ne]. }
    destruct Hi as [HB Hrow]. split.
    + intros e. specialize (HB e). specialize (Hgrow e (stream_source b)).
      cbn [meter_step fst] in *. lia.
    + cbn [meter_step fst snd ne_epoch] in *. destruct (t_baseline _ !! _) as [r|]; [|done].
      specialize (Hgrow (bl_epoch r) (stream_source b)).
      destruct Hrow as (? & ? & ?). split; [|done]. lia.
  - destruct Hi as [HB Hrow]. split; [done|].
    assert (H0 : MB * billed node b e (db_tables w.1) = 0).
    { specialize (HB e). unfold delivered in HB.
      destruct (ne_counters w.2 !! (e, stream_source b)) as [c|] eqn:Ec; simpl in HB; [|lia].
      destruct He as (_ & _ & Hu). by apply Hu in Ec. }
    simpl. destruct (t_baseline _ !! _) as [r|]; [|done].
    destruct Hrow as (? & ? & ?). done.
  - rewrite poll_node. change (meter_inv node b (db_tables (meter_step node w
      (Poll up now script)).1) w.2).
    destruct (poll_cases node now up script w He) as [->|(r & ivs & Hr & Hiv & Hnd & _ & Hpw)];
      [done|]. apply (poll_keeps_inv node b (db_tables w.1) w.2 r ivs) with (now := now); try done.
    assert (Hep : es_epoch (snapshot_of r) = ne_epoch w.2) by (by rewrite Hr).
    rewrite Hep. exact Hpw.
Qed.

Lemma run_meter_inv node b w evs :
  env_ok w.2 → meter_inv node b (db_tables w.1) w.2 → possible_run node w evs →
  meter_inv node b (db_tables (meter_run node w evs).1) (meter_run node w evs).2.
Proof.
  revert w. induction evs as [|ev evs IH]; intros w He Hi Hp; [done|].
  destruct Hp as [Hp Hrest]. simpl. apply IH; [|by apply step_meter_inv|done].
  by apply step_env_ok.
Qed.

Definition unmetered (node : string) (t : Tables) : Prop :=
  t_usage t = [] ∧ ∀ s, t_baseline t !! (node, s) = None.

Lemma unmetered_inv node b t n : env_ok n → unmetered node t → meter_inv node b t n.
Proof.
  intros (Hc & _) [Hu Hb]. unfold meter_inv.
  assert (H0 : ∀ e, billed node b e t = 0) by (intros; unfold billed; by rewrite Hu).
  rewrite (Hb (stream_source b)). split; [|rewrite H0; lia]. intros e. rewrite H0.
  unfold delivered. destruct (ne_counters n !! _) as [c|] eqn:E; simpl; [|lia].
  apply Hc in E. simpl in E. lia.
Qed.

(** C2. Whatever the interleaving of deliveries, restarts and polls, with nodes that do
    not answer and database connections lost at any statement, the invoices of a
    broadcast for one epoch of a node never exceed the bytes delivered in it. *)
Theorem never_overbills node b e w evs :
  env_ok w.2 → unmetered node (db_tables w.1) → possible_run node w evs →
  let w' := meter_run node w evs in
  1000000 * billed node b e (db_tables w'.1) ≤ delivered w'.2 e (stream_source b).
Proof.
  intros He Hu Hp. apply (run_meter_inv node b w evs He); [|done].
  by apply unmetered_inv.
Qed.

#[export] Instance possible_dec n ev : Decision (possible n ev).
Proof. destruct ev; simpl; apply _. Defined.

#[export] Instance possible_run_dec node w evs : Decision (possible_run node w evs).
Proof. revert w. induction evs; simpl; apply _. Defined.

(** Two streams of one host, on a node whose process has just started. *)
Definition demo_world : Db * NodeEnv :=
  ({| db_tables := {|
        t_generation := 1; t_desired := ∅; t_nodes := ∅;
        t_wallets := {[ "alice" := {| wr_currency := "USD"; wr_balance_minor := 5000;
          wr_credit_limit_minor := 0; wr_updated_at := 0; wr_rating_blocked_at := None |} ]};
        t_transactions := []; t_tx_seq := 1; t_rate_card := []; t_usage := [];
        t_usage_seq := 1; t_baseline := ∅; t_demotion := ∅; t_demotion_events := [];
        t_streams := {[ "b1" := stream_row "alice" "live" 0;
          "b2" := stream_row "alice" "live" 0 ]};
        t_api := ApiSchema.no_api |};
      db_now := 0; db_script := [] |},
   {| ne_epoch := "e1"; ne_used := {["e1"]}; ne_counters := ∅; ne_up := true |}).

Lemma demo_env_ok : env_ok demo_world.2.
Proof.
  split; [apply map_Forall_empty|]. split; [apply (bool_decide_eq_true_1 _); vm_compute; reflexivity|].
  intros e s c Hc. cbn in Hc; rewrite lookup_empty in Hc. discriminate.
Defined.

Definition demo_events : list meter_event :=
  [ Deliver "stream-b1" 2500000; Poll true 60 []; Deliver "stream-b1" 7900000;
    Poll true 120 [{| tk_outcome := Answered; tk_now := 120 |};
      {| tk_outcome := Unacked "reset"; tk_now := 121 |}];
    Deliver "stream-b1" 1000000; Poll false 180 []; Poll true 240 [];
    Restart "e2"; Deliver "stream-b1" 3000000; Poll true 300 [] ].

Lemma never_overbills_witness :
  let w' := meter_run "n1" demo_world demo_events in
  billed "n1" "b1" "e1" (db_tables w'.1) = 8 ∧ billed "n1" "b1" "e2" (db_tables w'.1) = 3 ∧
  1000000 * billed "n1" "b1" "e1" (db_tables w'.1)
    ≤ delivered w'.2 "e1" (stream_source "b1").
Proof.
  split; [vm_compute; reflexivity|]. split; [vm_compute; reflexivity|].
  apply never_overbills; [apply demo_env_ok | split; [reflexivity | intros; apply lookup_empty] |].
  apply (bool_decide_eq_true_1 _). vm_compute. reflexivity.
Defined.

(** ** A vanished source after a restart *)
Definition stale_row (node s e : string) (w : Db * NodeEnv) : Prop :=
  (∃ r, t_baseline (db_tables w.1) !! (node, s) = Some r ∧ bl_epoch r = e) ∧
  (∃ s' r, t_baseline (db_tables w.1) !! (node, s') = Some r ∧ bl_epoch r ≠ e) ∧
  e ∈ ne_used w.2 ∧ e ≠ ne_epoch w.2 ∧ ne_counters w.2 !! (ne_epoch w.2, s) = None.

Definition delivers (s : string) (ev : meter_event) : bool :=
  match ev with Deliver s' _ => String.eqb s' s | _ => false end.

Lemma stale_poll node s e up now script w :
  env_ok w.2 → stale_row node s e w →
  let w' := meter_step node w (Poll up now script) in
  stale_row node s e w' ∧ t_usage (db_tables w'.1) = t_usage (db_tables w.1).
Proof.
  intros He ((r1 & Hr1 & He1) & (s2 & r2 & Hr2 & He2) & Hused & Hne & Hcnt). cbv zeta.
  unfold stale_row. rewrite poll_node. cbn [set_env snd ne_used ne_epoch ne_counters].
  destruct (poll_cases node now up script w He) as [->|(r & ivs & Hr & _ & _ & Hsub & Hpw)].
  { split; [|done]. split; [eauto|]. split; [eauto|]. done. }
  rewrite (baseline_snapshot_mixed node _ s s2 r1 r2 Hr1 Hr2 ltac:(congruence)) in Hsub, Hpw.
  destruct Hpw as (Hu & _ & Hpos & Hfr).
  assert (Hivs : ivs = []).
  { destruct ivs as [|iv ivs']; [done|]. exfalso.
    apply (not_elem_of_nil (ei_source iv)), Hsub. left. }
  split; [|by apply Hu]. split; [|split; [|done]].
  - exists r1. split; [|done]. rewrite Hfr; [done|right].
    intros ([s' c] & Hs' & Hin)%list_elem_of_fmap. simpl in Hs'. subst s'.
    unfold advanced_positions in Hin.
    rewrite list_elem_of_In, filter_In, <- list_elem_of_In, elem_of_by_source in Hin.
    destruct Hin as [Hin _]. apply (snapshot_bytes w.2 r s c He Hr) in Hin. congruence.
  - exists s2. destruct (decide (s2 ∈ (advanced_positions (snapshot_of r)
      (mr_usage (egress_delta None (snapshot_of r))) ivs).*1)) as [Hin|Hnin].
    + apply list_elem_of_fmap in Hin as ([s' c] & Hs' & Hin). simpl in Hs'. subst s'.
      apply Hpos in Hin. by eexists.
    + exists r2. by rewrite Hfr by (by right).
Qed.

Lemma stale_step node s e ev w :
  env_ok w.2 → possible w.2 ev → delivers s ev = false → stale_row node s e w →
  let w' := meter_step node w ev in
  stale_row node s e w' ∧ t_usage (db_tables w'.1) = t_usage (db_tables w.1).
Proof.
  intros He Hp Hd Hst. destruct ev as [s' x|e'|up now script]; [| |by apply stale_poll].
  - apply String.eqb_neq in Hd. split; [|done].
    destruct Hst as (H1 & H2 & H3 & H4 & H5). do 4 (split; [done|]). simpl.
    rewrite lookup_insert_ne; [done|]. by intros [= ->].
  - split; [|done]. destruct Hst as (H1 & H2 & H3 & H4 & H5). simpl in Hp.
    do 2 (split; [done|]). simpl. split; [set_solver|]. split; [by intros ->|].
    destruct (ne_counters w.2 !! (e', s)) as [c|] eqn:Ec; [|done].
    destruct He as (_ & _ & Hu). by apply Hu in Ec.
Qed.

(** The recorded defect of the meter: once a source of a previous epoch is stored
    beside one of a later epoch, and that source does not stream through the node
    again, no poll records usage any more, whatever the other streams deliver. *)
Theorem meter_stalls_after_restart node s e w evs :
  env_ok w.2 → stale_row node s e w → possible_run node w evs →
  forallb (λ ev, negb (delivers s ev)) evs = true →
  t_usage (db_tables (meter_run node w evs).1) = t_usage (db_tables w.1).
Proof.
  revert w. induction evs as [|ev evs IH]; intros w He Hst Hp Hd; [done|].
  destruct Hp as [Hp Hrest]. simpl in Hd. apply andb_true_iff in Hd as [Hd1 Hd2].
  apply negb_true_iff in Hd1.
  destruct (stale_step node s e ev w He Hp Hd1 Hst) as [Hst' Hu].
  simpl. rewrite (IH _ (step_env_ok node w ev He Hp) Hst' Hrest Hd2). exact Hu.
Qed.

Lemma run_env_ok node w evs :
  env_ok w.2 → possible_run node w evs → env_ok (meter_run node w evs).2.
Proof.
  revert w. induction evs as [|ev evs IH]; intros w He Hp; [done|].
  destruct Hp as [Hp Hrest]. simpl. apply IH; [by apply step_env_ok|done].
Qed.

(** Both streams run, the node restarts, only the first comes back. *)
Definition restart_events : list meter_event :=
  [ Deliver "stream-b1" 2000000; Deliver "stream-b2" 2000000; Poll true 60 [];
    Restart "e2"; Deliver "stream-b1" 5000000; Poll true 120 [] ].

Definition later_events : list meter_event :=
  [ Deliver "stream-b1" 50000000; Poll true 180 []; Deliver "stream-b1" 70000000;
    Poll true 240 []; Restart "e3"; Deliver "stream-b1" 80000000; Poll true 300 [] ].

Lemma meter_stalls_after_restart_witness :
  let w := meter_run "n1" demo_world restart_events in
  t_usage (db_tables (meter_run "n1" w later_events).1) = t_usage (db_tables w.1) ∧
  delivered (meter_run "n1" w later_events).2 "e2" "stream-b1" = 125000000.
Proof.
  split; [|vm_compute; reflexivity].
  apply (meter_stalls_after_restart "n1" "stream-b2" "e1").
  - apply run_env_ok; [apply demo_env_ok|].
    apply (bool_decide_eq_true_1 _). vm_compute. reflexivity.
  - split; [eexists; split; vm_compute; reflexivity|].
    split; [exists "stream-b1"; eexists; split; [vm_compute; reflexivity|]|].
    { intros Hx. vm_compute in Hx. discriminate. }
    split; [|split; [|vm_compute; reflexivity]];
      apply (bool_decide_eq_true_1 _); vm_compute; reflexivity.
  - apply (bool_decide_eq_true_1 _). vm_compute. reflexivity.
  - vm_compute. reflexivity.
Defined.
