(* ===== verification/Rating.v ===== *)
(** * Rating: turning metered usage into wallet charges

    [mm-fleet/src/rating.rs]. A pass prices the unrated events against the current
    rate card, charges the wallet and then marks the event; charge and mark are two
    transactions, and the idempotency key of the charge is derived from the event. *)
From S2P Require Import Prelude Schema Wallet MeteringDb.
Local Open Scope Z_scope.
Local Open Scope mm_scope.

Record RatingReport : Type := {
  rp_rated : Z;
  rp_charged_minor : Z;
  rp_recovered : Z;
  rp_insufficient_funds : list string;
  rp_unpriceable : list (string * string);
  rp_without_wallet : list string;
  rp_deferred : Z
}.

Definition charge_minor (quantity_milli price_minor : Z) : Z :=
  if (quantity_milli <=? 0) || (price_minor <=? 0) then 0
  else
    let scaled := i64_sat (quantity_milli * price_minor) in
    Z.quot (i64_sat (scaled + 500)) 1000.

Definition charge_idempotency_key (usage_key : string) : string := "rate:" +:+ usage_key.

(** The updates of the report. *)
Definition new_report (without_wallet : list string) : RatingReport := {|
  rp_rated := 0; rp_charged_minor := 0; rp_recovered := 0; rp_insufficient_funds := [];
  rp_unpriceable := []; rp_without_wallet := without_wallet; rp_deferred := 0 |}.
Definition count_rated (r : RatingReport) : RatingReport := {|
  rp_rated := rp_rated r + 1; rp_charged_minor := rp_charged_minor r;
  rp_recovered := rp_recovered r; rp_insufficient_funds := rp_insufficient_funds r;
  rp_unpriceable := rp_unpriceable r; rp_without_wallet := rp_without_wallet r;
  rp_deferred := rp_deferred r |}.
Definition add_charged (amount : Z) (r : RatingReport) : RatingReport := {|
  rp_rated := rp_rated r; rp_charged_minor := i64_wrap (rp_charged_minor r + amount);
  rp_recovered := rp_recovered r; rp_insufficient_funds := rp_insufficient_funds r;
  rp_unpriceable := rp_unpriceable r; rp_without_wallet := rp_without_wallet r;
  rp_deferred := rp_deferred r |}.
Definition count_recovered (r : RatingReport) : RatingReport := {|
  rp_rated := rp_rated r; rp_charged_minor := rp_charged_minor r;
  rp_recovered := rp_recovered r + 1; rp_insufficient_funds := rp_insufficient_funds r;
  rp_unpriceable := rp_unpriceable r; rp_without_wallet := rp_without_wallet r;
  rp_deferred := rp_deferred r |}.
Definition add_insufficient (broadcast : string) (r : RatingReport) : RatingReport := {|
  rp_rated := rp_rated r; rp_charged_minor := rp_charged_minor r;
  rp_recovered := rp_recovered r;
  rp_insufficient_funds := rp_insufficient_funds r ++ [broadcast];
  rp_unpriceable := rp_unpriceable r; rp_without_wallet := rp_without_wallet r;
  rp_deferred := rp_deferred r |}.
Definition add_unpriceable (key why : string) (r : RatingReport) : RatingReport := {|
  rp_rated := rp_rated r; rp_charged_minor := rp_charged_minor r;
  rp_recovered := rp_recovered r; rp_insufficient_funds := rp_insufficient_funds r;
  rp_unpriceable := rp_unpriceable r ++ [(key, why)];
  rp_without_wallet := rp_without_wallet r; rp_deferred := rp_deferred r |}.
Definition count_deferred (r : RatingReport) : RatingReport := {|
  rp_rated := rp_rated r; rp_charged_minor := rp_charged_minor r;
  rp_recovered := rp_recovered r; rp_insufficient_funds := rp_insufficient_funds r;
  rp_unpriceable := rp_unpriceable r; rp_without_wallet := rp_without_wallet r;
  rp_deferred := rp_deferred r + 1 |}.

(** The variables of the pass. *)
Record RatingPass : Type := {
  ps_report : RatingReport;
  ps_cards : gmap string (option RateCard);
  ps_stalled : gset string;
  ps_unblocked : gset string
}.

Definition on_report (f : RatingReport → RatingReport) (p : RatingPass) : RatingPass := {|
  ps_report := f (ps_report p); ps_cards := ps_cards p; ps_stalled := ps_stalled p;
  ps_unblocked := ps_unblocked p |}.
Definition with_card (currency : string) (c : option RateCard) (p : RatingPass) :
    RatingPass := {|
  ps_report := ps_report p; ps_cards := <[currency := c]> (ps_cards p);
  ps_stalled := ps_stalled p; ps_unblocked := ps_unblocked p |}.
Definition with_stalled (user : string) (p : RatingPass) : RatingPass := {|
  ps_report := ps_report p; ps_cards := ps_cards p;
  ps_stalled := {[ user ]} ∪ ps_stalled p; ps_unblocked := ps_unblocked p |}.
Definition with_unblocked (user : string) (p : RatingPass) : RatingPass := {|
  ps_report := ps_report p; ps_cards := ps_cards p; ps_stalled := ps_stalled p;
  ps_unblocked := {[ user ]} ∪ ps_unblocked p |}.

Definition block (user_id : string) (now : DateTime) (p : RatingPass) : st Db RatingPass :=
  let! r := block_rating user_id now in
  st_ret (match r with
    | Ok _ => p
    | Err e => on_report (add_unpriceable user_id ("blocking the wallet failed: " +:+ e)) p
    end).

Definition mark_zero_rated (ev : PendingUsage) (version : Z) (now : DateTime) :
    st Db (result unit string) :=
  let! r := mark_rated_without_charge (pu_id ev) version now in
  st_ret (map_err (λ e, "marking a zero-priced event failed: " +:+ e) r).

(** The card of the event's currency, read once per pass. *)
Definition card_for (currency : string) (p : RatingPass) :
    st Db (result (option RateCard * RatingPass) string) :=
  match ps_cards p !! currency with
  | Some c => st_ret (Ok (c, p))
  | None =>
      let! r := current_prices currency in
      st_ret (match r with
        | Err e => Err ("reading the rate card failed: " +:+ e)
        | Ok c => Ok (c, with_card currency c p)
        end)
  end.

Definition find_price (unit : string) (prices : list (string * Z)) : option Z :=
  snd <$> List.find (λ up : string * Z, String.eqb up.1 unit) prices.

(** The tail of the loop body, once the charge is known to be in the ledger. *)
Definition settle (ev : PendingUsage) (version : Z) (key : string) (now : DateTime)
    (p : RatingPass) : st Db (result RatingPass string) :=
  let! found := transaction_id_for_key key in
  match found with
  | Err e => st_ret (Err ("recovering the transaction id failed: " +:+ e))
  | Ok None => st_ret (Ok (on_report (add_unpriceable (pu_idempotency_key ev)
      "charged but the ledger row could not be found") p))
  | Ok (Some tx_id) =>
      let! marked := mark_rated (pu_id ev) version tx_id now in
      match marked with
      | Err e => st_ret (Ok (on_report (add_unpriceable (pu_idempotency_key ev)
          ("charged but marking rated failed (will retry): " +:+ e)) p))
      | Ok _ =>
          let p := on_report count_rated p in
          if bool_decide (pu_user_id ev ∈ ps_unblocked p) then st_ret (Ok p)
          else
            let p := with_unblocked (pu_user_id ev) p in
            let! r := unblock_rating (pu_user_id ev) in
            st_ret (Ok (match r with
              | Ok _ => p
              | Err e => on_report (add_unpriceable (pu_idempotency_key ev)
                  ("unblocking the wallet failed: " +:+ e)) p
              end))
      end
  end.

(** The body of the loop; [Err] is the early return of the whole pass. *)
Definition rate_one (now : DateTime) (p : RatingPass) (ev : PendingUsage) :
    st Db (result RatingPass string) :=
  if bool_decide (pu_user_id ev ∈ ps_stalled p) then
    st_ret (Ok (on_report count_deferred p))
  else
    let? cp := card_for (pu_currency ev) p in
    let '(card, p) := cp in
    match card with
    | None =>
        let p := on_report (add_unpriceable (pu_idempotency_key ev)
          ("no rate card for currency " +:+ pu_currency ev)) p in
        let! p := block (pu_user_id ev) now p in st_ret (Ok p)
    | Some (version, prices) =>
        match find_price (pu_unit ev) prices with
        | None =>
            let p := on_report (add_unpriceable (pu_idempotency_key ev)
              ("rate card " +:+ fmt_i64 version +:+ " has no price for unit " +:+
               pu_unit ev)) p in
            let! p := block (pu_user_id ev) now p in st_ret (Ok p)
        | Some price =>
            let amount := charge_minor (pu_quantity_milli ev) price in
            if amount =? 0 then
              let! r := mark_zero_rated ev version now in
              st_ret (Ok (match r with
                | Err e => on_report (add_unpriceable (pu_idempotency_key ev) e) p
                | Ok _ => on_report count_rated p
                end))
            else
              let key := charge_idempotency_key (pu_idempotency_key ev) in
              let! r := charge (pu_user_id ev) (pu_currency ev) amount key
                (Some (pu_broadcast_id ev)) in
              match treat_replay_as_success r with
              | Ok Applied => settle ev version key now (on_report (add_charged amount) p)
              | Ok AlreadyApplied => settle ev version key now (on_report count_recovered p)
              | Err (WalletError.InsufficientFunds _ _) =>
                  let p := on_report (add_insufficient (pu_broadcast_id ev)) p in
                  let! p := block (pu_user_id ev) now p in
                  st_ret (Ok (with_stalled (pu_user_id ev) p))
              | Err e => st_ret (Ok (on_report (add_unpriceable (pu_idempotency_key ev)
                  (WalletError.to_string e)) p))
              end
        end
    end.

Fixpoint rate_events (now : DateTime) (evs : list PendingUsage) (p : RatingPass) :
    st Db (result RatingPass string) :=
  match evs with
  | [] => st_ret (Ok p)
  | ev :: rest => let? p := rate_one now p ev in rate_events now rest p
  end.

Definition rate_pending (batch : Z) (now : DateTime) : st Db (result RatingReport string) :=
  let! without := unrated_without_wallet in
  match without with
  | Err e => st_ret (Err ("checking for wallet-less usage failed: " +:+ e))
  | Ok without =>
      let! pending := unrated_events batch in
      match pending with
      | Err e => st_ret (Err ("reading the rating queue failed: " +:+ e))
      | Ok pending =>
          let? p := rate_events now pending {|
            ps_report := new_report without; ps_cards := ∅; ps_stalled := ∅;
            ps_unblocked := ∅ |} in
          st_ret (Ok (ps_report p))
      end
  end.

(** ** Specification vocabulary *)

(** The ledger row [x] is the charge of the event [e], at a price of some card. *)
Definition charge_of (t : Tables) (e : UsageRec) (x : TxRec) : Prop :=
  tx_kind x = "charge" ∧ tx_user_id x = ue_user_id e ∧
  tx_broadcast_id x = Some (ue_broadcast_id e) ∧
  ∃ r, r ∈ t_rate_card t ∧ rr_currency r = tx_currency x ∧ rr_unit r = ue_unit e ∧
    tx_amount_minor x = - charge_minor (ue_quantity_milli e) (rr_price_minor r).

(** What the rating columns of an event say is so. *)
Definition rated_ok (t : Tables) (e : UsageRec) : Prop :=
  match ue_rated_at e with
  | None => ue_rate_card_version e = None ∧ ue_transaction_id e = None
  | Some _ =>
      ∃ v, ue_rate_card_version e = Some v ∧
      match ue_transaction_id e with
      | Some i => ∃ x, x ∈ t_transactions t ∧ tx_id x = i ∧
          tx_idempotency_key x = charge_idempotency_key (ue_idempotency_key e)
      | None => ∃ r, r ∈ t_rate_card t ∧ rr_version r = v ∧ rr_unit r = ue_unit e ∧
          charge_minor (ue_quantity_milli e) (rr_price_minor r) = 0
      end
  end.

Record rating_inv (t : Tables) : Prop := {
  ri_books : books_ok t;
  ri_keys : NoDup (ue_idempotency_key <$> t_usage t);
  ri_ids : NoDup (ue_id <$> t_usage t);
  ri_seq e : e ∈ t_usage t → ue_id e < t_usage_seq t;
  ri_charges x k : x ∈ t_transactions t →
    tx_idempotency_key x = charge_idempotency_key k →
    ∃ e, e ∈ t_usage t ∧ ue_idempotency_key e = k ∧ charge_of t e x;
  ri_rated e : e ∈ t_usage t → rated_ok t e
}.

(** A queued event is a row of the table. *)
Definition row_of (ev : PendingUsage) (e : UsageRec) : Prop :=
  ue_id e = pu_id ev ∧ ue_user_id e = pu_user_id ev ∧
  ue_broadcast_id e = pu_broadcast_id ev ∧ ue_unit e = pu_unit ev ∧
  ue_quantity_milli e = pu_quantity_milli ev ∧
  ue_idempotency_key e = pu_idempotency_key ev.

Definition pass_inv (rc : list RateRec) (evs : list PendingUsage) (t : Tables) : Prop :=
  rating_inv t ∧ t_rate_card t = rc ∧
  ∀ ev, ev ∈ evs → ∃ e, e ∈ t_usage t ∧ row_of ev e.

Definition cards_ok (rc : list RateRec) (p : RatingPass) : Prop :=
  ∀ cur v prices, ps_cards p !! cur = Some (Some (v, prices)) →
  ∀ u pr, (u, pr) ∈ prices → ∃ r, r ∈ rc ∧ rr_version r = v ∧ rr_currency r = cur ∧
    rr_unit r = u ∧ rr_price_minor r = pr.

(** ** Lemmas: the price *)
Lemma charge_minor_nonneg q p : 0 ≤ charge_minor q p.
Proof.
  unfold charge_minor. destruct (Z.leb_spec q 0), (Z.leb_spec p 0); simpl; try lia.
  assert (0 ≤ q * p) by nia. apply Z.quot_pos; [|lia]. unfold i64_sat, i64_min, i64_max. lia.
Qed.

Lemma find_price_Some u prices p : find_price u prices = Some p → (u, p) ∈ prices.
Proof.
  unfold find_price. destruct (List.find _ prices) as [[u' p']|] eqn:E; [|done].
  simpl. intros [= ->]. apply find_some in E as [Hin He%String.eqb_eq]. simpl in He.
  subst u'. by apply list_elem_of_In.
Qed.

Lemma rate_key_inj a b : charge_idempotency_key a = charge_idempotency_key b → a = b.
Proof. unfold charge_idempotency_key. intros H. by injection H. Qed.

(** ** Lemmas: the statements keep the invariant *)
Lemma books_frame t t' :
  t_wallets t' = t_wallets t → t_transactions t' = t_transactions t →
  t_tx_seq t' = t_tx_seq t → books_ok t → books_ok t'.
Proof.
  intros Hw Hx Hs [H1 H2 H3 H4 H5 H6]. split; unfold ledger_of, ledger_keys in *;
    rewrite ?Hw, ?Hx, ?Hs; assumption.
Qed.

Section statements.
Context (rc : list RateRec) (evs : list PendingUsage).

(** Writing a charge for a queued event. *)
Lemma posted_pass_inv t t' ev cur amount v price :
  ev ∈ evs → pass_inv rc evs t →
  (∃ r, r ∈ rc ∧ rr_version r = v ∧ rr_currency r = cur ∧ rr_unit r = pu_unit ev ∧
    rr_price_minor r = price) →
  amount = charge_minor (pu_quantity_milli ev) price →
  posted (pu_user_id ev) cur "charge" (- amount)
    (charge_idempotency_key (pu_idempotency_key ev)) (Some (pu_broadcast_id ev)) None t t' →
  pass_inv rc evs t'.
Proof.
  intros Hev (Hi & Hrc & Hk) (r & Hr & Hv & Hcur & Hu & Hp) Ha Hpost.
  pose proof (posted_books _ _ _ _ _ _ _ _ _ Hpost (ri_books t Hi)) as Hb.
  destruct Hpost as (w & now & Hw & Hwc & _ & _ & _ & Ht').
  destruct (Hk ev Hev) as (e & He & H1 & H2 & H3 & H4 & H5 & H6).
  split; [|split]; [split| |]; try (rewrite Ht'; simpl; apply Hi || apply Hk); [done| | | ].
  - intros x k. rewrite Ht'. simpl. intros [Hx|Hx%list_elem_of_singleton]%elem_of_app Hkey.
    + destruct (ri_charges t Hi x k Hx Hkey) as (e' & ?). by exists e'.
    + subst x. simpl in Hkey. apply rate_key_inj in Hkey. exists e.
      split; [done|]. split; [congruence|]. split; [done|]. simpl.
      split; [congruence|]. split; [congruence|]. exists r. simpl. rewrite Hrc.
      split; [done|]. split; [congruence|]. split; [congruence|]. by rewrite Hp, H5, Ha.
  - intros e'. rewrite Ht'. simpl. intros He'. pose proof (ri_rated t Hi e' He') as Hro.
    unfold rated_ok in *. simpl. destruct (ue_rated_at e'); [|done].
    destruct Hro as (v' & ? & Hro). exists v'. split; [done|].
    destruct (ue_transaction_id e'); [|done]. destruct Hro as (x & Hx & ?).
    exists x. split; [|done]. apply elem_of_app. by left.
  - by rewrite Ht'.
Qed.

(** Marking a queued event. *)
Lemma rate_event_identity id v tx at' e :
  ue_id (rate_event id v tx at' e) = ue_id e ∧
  ue_user_id (rate_event id v tx at' e) = ue_user_id e ∧
  ue_broadcast_id (rate_event id v tx at' e) = ue_broadcast_id e ∧
  ue_unit (rate_event id v tx at' e) = ue_unit e ∧
  ue_quantity_milli (rate_event id v tx at' e) = ue_quantity_milli e ∧
  ue_idempotency_key (rate_event id v tx at' e) = ue_idempotency_key e.
Proof. unfold rate_event. by destruct (_ && _). Qed.

Lemma update_rated_pass_inv ev v tx at' now t a t' :
  ev ∈ evs → pass_inv rc evs t →
  match tx with
  | Some i => ∃ x, x ∈ t_transactions t ∧ tx_id x = i ∧
      tx_idempotency_key x = charge_idempotency_key (pu_idempotency_key ev)
  | None => ∃ r, r ∈ rc ∧ rr_version r = v ∧ rr_unit r = pu_unit ev ∧
      charge_minor (pu_quantity_milli ev) (rr_price_minor r) = 0
  end →
  update_rated (pu_id ev) v tx at' now t = Ok (a, t') → pass_inv rc evs t'.
Proof.
  intros Hev (Hi & Hrc & Hk) Htx. unfold update_rated.
  destruct (_ && _); [done|]. intros [= _ <-].
  pose proof (rate_event_identity (pu_id ev) v tx at') as Hid.
  destruct (Hk ev Hev) as (e & He & Hrow).
  assert (Hsame : ∀ e', e' ∈ t_usage t → ue_id e' = pu_id ev → e' = e).
  { intros e' He' Hx. destruct Hrow as (Hy & _).
    apply list_elem_of_lookup in He as [i Hil]. apply list_elem_of_lookup in He' as [j Hjl].
    assert (i = j) as <-; [|congruence]. eapply NoDup_lookup; [apply (ri_ids t Hi)| |];
      rewrite list_lookup_fmap; [rewrite Hil|rewrite Hjl]; simpl; [done|congruence]. }
  split; [split| split]; simpl.
  - by eapply books_frame, Hi.
  - rewrite <- list_fmap_compose. erewrite list_fmap_ext; [apply (ri_keys t Hi)|].
    intros i x _. simpl. apply Hid.
  - rewrite <- list_fmap_compose. erewrite list_fmap_ext; [apply (ri_ids t Hi)|].
    intros i x _. simpl. apply Hid.
  - intros e' (e0 & -> & He0)%list_elem_of_fmap. destruct (Hid e0) as [-> _].
    by apply (ri_seq t Hi).
  - intros x k Hx Hkey. destruct (ri_charges t Hi x k Hx Hkey) as (e0 & He0 & Hk0 & Hc0).
    exists (rate_event (pu_id ev) v tx at' e0). split; [by apply list_elem_of_fmap_2|].
    destruct (Hid e0) as (_ & Hu & Hb & Hun & Hq & Hke). split; [congruence|].
    unfold charge_of in *. rewrite Hu, Hb, Hun, Hq. done.
  - intros e' (e0 & -> & He0)%list_elem_of_fmap. pose proof (ri_rated t Hi e0 He0) as Hro.
    unfold rate_event. destruct (bool_decide (ue_id e0 = pu_id ev)) eqn:Eid; simpl; [|done].
    destruct (is_unrated e0) eqn:Eu; [|done]. apply bool_decide_eq_true in Eid.
    pose proof (Hsame e0 He0 Eid) as ->. destruct Hrow as (_ & _ & _ & Hun & Hq & Hke).
    exists v. split; [done|]. simpl. rewrite Hke, Hun, Hq. simpl.
    destruct tx; [done|]. by rewrite Hrc.
  - done.
  - intros ev' Hev'. destruct (Hk ev' Hev') as (e0 & He0 & Hrow0).
    exists (rate_event (pu_id ev) v tx at' e0). split; [by apply list_elem_of_fmap_2|].
    unfold row_of in *. destruct (Hid e0) as (-> & -> & -> & -> & -> & ->). done.
Qed.

Lemma set_blocked_books u at' t : books_ok t → books_ok (set_blocked u at' t).
Proof.
  intros Hb. assert (Hlk : ∀ u' w', t_wallets (set_blocked u at' t) !! u' = Some w' →
    ∃ w, t_wallets t !! u' = Some w ∧ wr_balance_minor w' = wr_balance_minor w ∧
      wr_credit_limit_minor w' = wr_credit_limit_minor w).
  { intros u' w'. simpl. destruct (decide (u = u')) as [<-|Hne].
    - rewrite lookup_alter_eq. destruct (t_wallets t !! u) as [w|]; [|done].
      intros [= <-]. by exists w.
    - rewrite lookup_alter_ne by done. intros Hw. by exists w'. }
  split; try apply Hb.
  - intros u' w' (w & Hw & -> & _)%Hlk. by apply (bk_balance t Hb).
  - intros u' w' (w & Hw & -> & ->)%Hlk. by apply (bk_limit t Hb u').
  - intros x Hx. destruct (bk_currency t Hb x Hx) as (w & Hw & Hc). simpl.
    destruct (decide (u = tx_user_id x)) as [->|Hne].
    + rewrite lookup_alter_eq, Hw. simpl. by eexists.
    + rewrite lookup_alter_ne by done. eauto.
Qed.

Lemma set_blocked_pass_inv u at' t :
  pass_inv rc evs t → pass_inv rc evs (set_blocked u at' t).
Proof.
  intros (Hi & Hrc & Hk). split; [|done]. split; try apply Hi.
  apply set_blocked_books, Hi.
Qed.
End statements.

(** ** Lemmas: one pass *)
Lemma hoare_metering {A} (I : Tables → Prop) (m : st Db (result A db_error))
    (Q : A → Tables → Prop) :
  hoare (on I) m (answers I Q) → hoare (on I) (metering_db m) (answers I Q).
Proof.
  intros Hm. eapply hoare_bind; [exact Hm|]. intros [a|e]; apply hoare_ret; by intros db [? ?].
Qed.

Section pass.
Context (rc : list RateRec) (evs : list PendingUsage).
Let I := pass_inv rc evs.
Let good (p : RatingPass) (_ : Tables) : Prop := cards_ok rc p.

Lemma block_pass u now p :
  cards_ok rc p →
  hoare (on I) (block u now p) (λ p' db, on I db ∧ ps_cards p' = ps_cards p).
Proof.
  intros Hp. eapply hoare_bind.
  - apply hoare_metering, (hoare_exec I _ (λ _ _, True)). intros at' t a t' HI [= _ <-].
    split; [|done]. by apply set_blocked_pass_inv.
  - intros [?|?]; apply hoare_ret; by intros db [? _].
Qed.

Lemma card_for_pass cur p :
  cards_ok rc p →
  hoare (on I) (card_for cur p) (answers I (λ cp _, cards_ok rc cp.2 ∧
    ps_cards cp.2 !! cur = Some cp.1)).
Proof.
  intros Hp. unfold card_for. destruct (ps_cards p !! cur) as [c|] eqn:Ec.
  { apply hoare_ret. intros db Hdb. split; [done|]. done. }
  eapply hoare_bind.
  - unfold current_prices. eapply (hoare_try _ _ _ _ (answers I (λ c t, ∀ v prices,
      c = Some (v, prices) → ∀ u pr, (u, pr) ∈ prices → ∃ r, r ∈ rc ∧ rr_version r = v ∧
      rr_currency r = cur ∧ rr_unit r = u ∧ rr_price_minor r = pr))).
    + apply hoare_metering, hoare_exec_reading.
    + intros [|r0 rows]; apply hoare_ret; intros db [HI Hrows]; (split; [done|]); [done|].
      intros v prices [= <- <-] u pr Hin.
      assert (Hall : ∀ r, r ∈ r0 :: rows → r ∈ rc ∧ rr_currency r = cur ∧
        rr_version r = rr_version r0).
      { assert (Hnew : ∀ r, r ∈ r0 :: rows → r ∈ List.filter
          (λ r, String.eqb (rr_currency r) cur) (t_rate_card (db_tables db)) ∧
          ∀ r', r' ∈ List.filter (λ r, String.eqb (rr_currency r) cur)
            (t_rate_card (db_tables db)) → rr_version r' ≤ rr_version r).
        { intros r. rewrite Hrows. unfold newest_rates.
          rewrite list_elem_of_In, filter_In, <- list_elem_of_In. intros [Hr Hf].
          split; [done|]. intros r' Hr'. rewrite forallb_forall in Hf.
          apply list_elem_of_In, Hf in Hr'. lia. }
        intros r Hr. destruct (Hnew r Hr) as [Hr1 Hr2].
        destruct (Hnew r0 ltac:(left)) as [H01 H02].
        pose proof (Hr2 r0 H01). pose proof (H02 r Hr1).
        rewrite list_elem_of_In, filter_In, <- list_elem_of_In in Hr1.
        destruct Hr1 as [Hr1 Hc%String.eqb_eq]. destruct HI as (_ & <- & _).
        split; [done|]. split; [done|]. lia. }
      apply (list_elem_of_fmap (λ r, (rr_unit r, rr_price_minor r)) (r0 :: rows) (u, pr))
        in Hin as (r & [= -> ->] & Hr). exists r. destruct (Hall r Hr) as (? & ? & ?). done.
    + intros e db [? _]. done.
  - intros [c|e]; apply hoare_ret; intros db [HI Hc]; (split; [done|]); [|done]. simpl.
    split; [|by rewrite lookup_insert_eq]. intros cur' v prices. simpl.
    destruct (decide (cur = cur')) as [<-|Hne].
    + rewrite lookup_insert_eq. intros [= ->]. by apply Hc.
    + rewrite lookup_insert_ne by done. apply Hp.
Qed.

Lemma settle_pass ev v now p :
  ev ∈ evs → cards_ok rc p →
  hoare (on I) (settle ev v (charge_idempotency_key (pu_idempotency_key ev)) now p)
    (answers I good).
Proof.
  intros Hev Hp. unfold settle. eapply hoare_bind.
  { apply hoare_metering, hoare_exec_reading. }
  intros [[i|]|e]; [|apply hoare_ret; by intros db [? _]..].
  pose (J := λ t, I t ∧ ∃ x, x ∈ t_transactions t ∧ tx_id x = i ∧
    tx_idempotency_key x = charge_idempotency_key (pu_idempotency_key ev)).
  eapply hoare_bind with (M := answers J (λ _ _, True)).
  - apply (hoare_conseq _ (on J) _ _ (answers J (λ _ _, True))); [| |done].
    + apply hoare_metering, hoare_exec. intros at' t y t' [HI Hx] Hs. split; [|done].
      split; [eapply (update_rated_pass_inv rc evs ev v (Some i)); eauto|].
      unfold update_rated in Hs. destruct (_ && _); [done|]. by injection Hs as _ <-.
    + intros db [HI Hf]. split; [done|]. symmetry in Hf.
      apply fmap_Some in Hf as (x & Hx & ->). apply find_some in Hx as [Hin He%String.eqb_eq].
      exists x. by rewrite list_elem_of_In.
  - intros [?|e]; [|apply hoare_ret; by intros db [[? _] _]].
    case_bool_decide; [apply hoare_ret; by intros db [[? _] _]|].
    eapply (hoare_conseq _ (on I)); [|by intros db [[? _] _]|done].
    eapply hoare_bind.
    + apply hoare_metering, (hoare_exec I _ (λ _ _, True)). intros at' t y t' HI [= _ <-].
      split; [|done]. by apply set_blocked_pass_inv.
    + intros [?|?]; apply hoare_ret; by intros db [? _].
Qed.

Lemma charge_pass ev cur amount v price :
  ev ∈ evs →
  (∃ r, r ∈ rc ∧ rr_version r = v ∧ rr_currency r = cur ∧ rr_unit r = pu_unit ev ∧
    rr_price_minor r = price) →
  amount = charge_minor (pu_quantity_milli ev) price →
  hoare (on I) (charge (pu_user_id ev) cur amount
    (charge_idempotency_key (pu_idempotency_key ev)) (Some (pu_broadcast_id ev)))
    (λ _ db, on I db).
Proof.
  intros Hev Hr Ha db HI.
  destruct (charge_at_most_once (pu_user_id ev) cur amount
    (charge_idempotency_key (pu_idempotency_key ev)) (Some (pu_broadcast_id ev)) db)
    as [Heq|Hpost]; unfold on; [by rewrite Heq|].
  by eapply posted_pass_inv.
Qed.

Lemma mark_zero_pass ev v price now :
  ev ∈ evs →
  (∃ r, r ∈ rc ∧ rr_version r = v ∧ rr_currency r = pu_currency ev ∧
    rr_unit r = pu_unit ev ∧ rr_price_minor r = price) →
  charge_minor (pu_quantity_milli ev) price = 0 →
  hoare (on I) (mark_zero_rated ev v now) (λ _ db, on I db).
Proof.
  intros Hev Hrow Hz.
  apply (hoare_bind _ _ (λ _ db, on I db)); [|intros r; by apply hoare_ret].
  eapply (hoare_conseq _ (on I) _ _ (answers I (λ _ _, True))); [|done|by intros ? db [? _]].
  apply hoare_metering, hoare_exec. intros at' t y t' HI Hs.
  split; [|done]. eapply (update_rated_pass_inv rc evs ev v None); eauto.
  destruct Hrow as (r & ? & ? & ? & ? & ?). exists r. by subst price.
Qed.

Lemma rate_one_pass now p ev :
  ev ∈ evs → cards_ok rc p → hoare (on I) (rate_one now p ev) (answers I good).
Proof.
  intros Hev Hp. unfold rate_one. case_bool_decide; [apply hoare_ret; by intros db ?|].
  eapply hoare_try; [by apply card_for_pass| |by intros e db [? _]].
  intros [card p']. apply (hoare_conseq _ (λ db, on I db ∧ cards_ok rc p' ∧
    ps_cards p' !! pu_currency ev = Some card) _ _ (answers I good));
    [|by intros db [? [? ?]]|done].
  intros db (HI & Hp' & Hc). revert db HI. fold (on I).
  assert (Hblock : ∀ f, hoare (on I)
    (let! p1 := block (pu_user_id ev) now (on_report f p') in st_ret (Ok p1))
    (answers I good : result RatingPass string → Db → Prop)).
  { intros f. eapply hoare_bind; [by apply block_pass|]. intros p1. apply hoare_ret.
    intros db [? Hcards]. split; [done|]. unfold good, cards_ok. by rewrite Hcards. }
  destruct card as [[v prices]|]; [|apply Hblock].
  destruct (find_price (pu_unit ev) prices) as [price|] eqn:Ef; [|apply Hblock].
  pose proof (Hp' _ _ _ Hc _ _ (find_price_Some _ _ _ Ef)) as Hrow.
  destruct (Z.eqb_spec (charge_minor (pu_quantity_milli ev) price) 0) as [Hz|Hz].
  - apply (hoare_bind _ _ (λ _ db, on I db)); [by apply mark_zero_pass with (price := price)|].
    intros [?|?]; by apply hoare_ret.
  - apply (hoare_bind _ _ (λ _ db, on I db)); [by apply charge_pass with (v := v) (price := price)|].
    intros r. destruct (treat_replay_as_success r) as [[]|[]];
      try (by apply settle_pass); try (by apply hoare_ret).
    eapply hoare_bind; [by apply block_pass|]. intros p1. apply hoare_ret.
    intros db [? Hcards]. split; [done|]. unfold good, cards_ok. simpl. by rewrite Hcards.
Qed.

Lemma rate_events_pass now todo p :
  todo ⊆ evs → cards_ok rc p → hoare (on I) (rate_events now todo p) (answers I good).
Proof.
  revert p. induction todo as [|ev todo IH]; intros p Hsub Hp; simpl;
    [by apply hoare_ret|].
  eapply hoare_try; [apply rate_one_pass; [set_solver|done]| |by intros e db [? _]].
  intros p'. intros db [HI Hp']. apply IH; [set_solver|done|done].
Qed.
End pass.

(** The queue lists rows of the table. *)
Lemma queue_rows t ev : ev ∈ queue t → ∃ e, e ∈ t_usage t ∧ row_of ev e.
Proof.
  unfold queue. intros (e & Hin & He)%list_elem_of_omap. exists e.
  rewrite (merge_sort_Permutation _ _) in Hin.
  rewrite list_elem_of_In, filter_In, <- list_elem_of_In in Hin. split; [apply Hin|].
  unfold pending_of in He. destruct (t_wallets t !! ue_user_id e); [|done].
  by injection He as <-.
Qed.

Lemma queue_head t ev rest :
  queue t = ev :: rest →
  ∃ e, e ∈ t_usage t ∧ is_unrated e = true ∧ ue_id e = pu_id ev ∧
    ∃ w, t_wallets t !! pu_user_id ev = Some w ∧ wr_currency w = pu_currency ev.
Proof.
  intros Hq. assert (Hin : ev ∈ queue t) by (rewrite Hq; left). unfold queue in Hin.
  apply list_elem_of_omap in Hin as (e & Hin & He). exists e.
  rewrite (merge_sort_Permutation _ _) in Hin.
  rewrite list_elem_of_In, filter_In, <- list_elem_of_In in Hin. destruct Hin as [Hin Hu].
  unfold pending_of in He. destruct (t_wallets t !! ue_user_id e) as [w|] eqn:Ew; [|done].
  injection He as <-. simpl. eauto 10.
Qed.

Lemma unrated_events_ok batch db l :
  (unrated_events batch db).1 = Ok l → l = limit batch (queue (db_tables db)).
Proof.
  unfold unrated_events, metering_db, st_bind.
  pose proof (exec_reading_ok (λ t, limit batch (queue t)) db) as Hr.
  destruct (exec _ db) as [[x|e] db1]; simpl in *; [|done]. intros [= <-]. by apply Hr.
Qed.

Lemma metering_reading_tables {A} (f : Tables → A) db :
  db_tables (metering_db (exec (reading f)) db).2 = db_tables db.
Proof.
  unfold metering_db, st_bind. pose proof (exec_reading_tables f db) as Ht.
  by destruct (exec _ db).
Qed.

Lemma rate_pending_inv batch now :
  st_rel (on_tables (keeps rating_inv)) (rate_pending batch now).
Proof.
  intros db Hi. unfold rate_pending, st_bind at 1.
  pose proof (metering_reading_tables _ db : db_tables (unrated_without_wallet db).2 = _) as H1.
  destruct (unrated_without_wallet db) as [[wo|e] db1]; simpl in *; [|by rewrite H1].
  unfold st_bind at 1. pose proof (unrated_events_ok batch db1) as Hl.
  pose proof (metering_reading_tables _ db1 : db_tables (unrated_events batch db1).2 = _) as H2.
  destruct (unrated_events batch db1) as [[evs|e] db2]; simpl in *; [|by rewrite H2, H1].
  specialize (Hl evs eq_refl). rewrite H1 in Hl.
  assert (Ht : db_tables db2 = db_tables db) by congruence.
  set (p0 := {| ps_report := new_report wo; ps_cards := ∅; ps_stalled := ∅;
    ps_unblocked := ∅ |}).
  assert (HI : on (pass_inv (t_rate_card (db_tables db)) evs) db2).
  { unfold on. rewrite Ht. split; [done|]. split; [done|]. intros ev Hev. apply queue_rows.
    rewrite Hl in Hev. unfold limit in Hev. apply elem_of_take in Hev as (i & Hi' & _).
    by apply list_elem_of_lookup_2 in Hi'. }
  pose proof (rate_events_pass (t_rate_card (db_tables db)) evs now evs p0 ltac:(done)
    ltac:(by intros ???; simpl; rewrite lookup_empty) db2 HI) as [[Hr _] _].
  unfold st_try, st_bind. by destruct (rate_events now evs p0 db2) as [[p|e] db3].
Qed.

(** ** Histories: passes, other movements, new cards and new usage *)
Inductive rating_event : Type :=
  | RatePass (batch now : Z)
  | WalletOp (op : wallet_op)
  | PublishRates (rows : list RateRec)
  | RecordUsage (node epoch : string) (observed_at : DateTime) (ivs : list EgressInterval)
      (positions : list (string * Z)).

Definition publish (rows : list RateRec) (t : Tables) : Tables := {|
  t_generation := t_generation t; t_desired := t_desired t; t_nodes := t_nodes t;
  t_wallets := t_wallets t; t_transactions := t_transactions t; t_tx_seq := t_tx_seq t;
  t_rate_card := t_rate_card t ++ rows; t_usage := t_usage t;
  t_usage_seq := t_usage_seq t; t_baseline := t_baseline t; t_demotion := t_demotion t;
  t_demotion_events := t_demotion_events t; t_streams := t_streams t;
  t_api := t_api t |}.

Definition rating_step (_ : unit) (ev : rating_event) : st Db unit :=
  match ev with
  | RatePass b now => let! _ := rate_pending b now in st_ret tt
  | WalletOp op => run_op tt op
  | PublishRates rows => let! _ := exec (λ _ t, Ok ((), publish rows t)) in st_ret tt
  | RecordUsage n e o ivs ps => let! _ := record_interval n e o ivs ps in st_ret tt
  end.

(** The prefix is the rating's own: nobody else moves money under it. *)
Definition foreign_key (k : string) : bool := negb (starts_with "rate:" k).

Definition rating_allowed (ev : rating_event) : bool :=
  match ev with
  | WalletOp (OpDeposit _ _ _ k) | WalletOp (OpCharge _ _ _ k _)
  | WalletOp (OpRefund _ _ _ k _) => foreign_key k
  | _ => true
  end.

Lemma rated_ok_mono t t' e :
  t_transactions t ⊆ t_transactions t' → t_rate_card t ⊆ t_rate_card t' →
  rated_ok t e → rated_ok t' e.
Proof.
  intros Hx Hr. unfold rated_ok. destruct (ue_rated_at e); [|done].
  intros (v & Hv & Hm). exists v. split; [done|]. destruct (ue_transaction_id e).
  - destruct Hm as (x & ? & ?). exists x. split; [by apply Hx|done].
  - destruct Hm as (r & ? & ?). exists r. split; [by apply Hr|done].
Qed.

Lemma charge_of_mono t t' e x :
  t_rate_card t ⊆ t_rate_card t' → charge_of t e x → charge_of t' e x.
Proof.
  intros Hr (? & ? & ? & r & Hin & ?). do 3 (split; [done|]). exists r.
  split; [by apply Hr|done].
Qed.

(** Everything that leaves the usage alone and moves money under other keys. *)
Lemma rating_inv_frame t t' :
  books_ok t' → t_usage t' = t_usage t → t_usage_seq t' = t_usage_seq t →
  t_transactions t ⊆ t_transactions t' → t_rate_card t ⊆ t_rate_card t' →
  (∀ x, x ∈ t_transactions t' → x ∈ t_transactions t ∨ foreign_key (tx_idempotency_key x) = true) →
  rating_inv t → rating_inv t'.
Proof.
  intros Hb Hu Hs Hx Hr Hnew Hi. split; rewrite ?Hu, ?Hs; try apply Hi; [done| |].
  - intros x k Hin Hk. destruct (Hnew x Hin) as [Hold|Hf].
    + destruct (ri_charges t Hi x k Hold Hk) as (e & ? & ? & Hc). exists e.
      do 2 (split; [done|]). by eapply charge_of_mono.
    + exfalso. unfold foreign_key in Hf. apply negb_true_iff in Hf.
      apply not_true_iff_false in Hf. apply Hf. apply starts_with_spec. by exists k.
  - intros e He. eapply rated_ok_mono; [done|done|]. by apply (ri_rated t Hi).
Qed.

Lemma posted_rating_inv user cur kind amount key bc note t t' :
  foreign_key key = true → posted user cur kind amount key bc note t t' →
  rating_inv t → rating_inv t'.
Proof.
  intros Hf Hp Hi. pose proof (posted_books _ _ _ _ _ _ _ _ _ Hp (ri_books t Hi)) as Hb.
  destruct Hp as (w & now & _ & _ & _ & _ & _ & ->).
  apply (rating_inv_frame t); simpl; try done.
  - intros x Hx. apply elem_of_app. by left.
  - intros x [Hx|Hx%list_elem_of_singleton]%elem_of_app; [by left|right]. by subst x.
Qed.

Lemma run_op_rating op :
  rating_allowed (WalletOp op) = true → st_rel (on_tables (keeps rating_inv)) (run_op tt op).
Proof.
  intros Ha. assert (Hm : ∀ u c k a key b n, foreign_key key = true →
    st_rel (on_tables (keeps rating_inv)) (movement u c k a key b n)).
  { intros. apply movement_rel; [apply _|]. intros t t' Hp Hi. by eapply posted_rating_inv. }
  destruct op as [u c l|u c a k|u c a k b|u c a k b]; simpl in *;
    (apply st_rel_bind; [apply _| |intros; apply st_rel_ret; apply _]).
  - apply wallet_db_err_rel, st_rel_exec; [apply _..|]. intros now t y t' Hs Hi.
    pose proof (insert_wallet_books _ _ _ _ _ _ _ Hs (ri_books t Hi)) as Hb.
    unfold insert_wallet in Hs. repeat case_match; try done;
      injection Hs as _ <-; [done|]. apply (rating_inv_frame t); simpl; auto.
  - by apply Hm.
  - unfold charge. destruct (a <=? 0); [apply st_rel_ret; apply _ | by apply Hm].
  - by apply Hm.
Qed.

Lemma insert_usage_rating node iv : stmt_rel (keeps rating_inv) (insert_usage node iv).
Proof.
  intros now t y t'. unfold insert_usage. destruct (_ <? 0); [done|].
  destruct (existsb _ _) eqn:Ek; intros [= _ <-] Hi; [done|].
  assert (Hk : ei_idempotency_key iv ∉ ue_idempotency_key <$> t_usage t).
  { intros (e & He & Hin)%list_elem_of_fmap. apply not_true_iff_false in Ek.
    apply Ek, existsb_exists. exists e. rewrite <- list_elem_of_In, He. split; [done|].
    apply String.eqb_refl. }
  split; simpl.
  - by eapply books_frame, Hi.
  - rewrite fmap_app. apply NoDup_app. split; [apply Hi|].
    split; [|apply NoDup_singleton]. intros k Hin Hx%list_elem_of_singleton. by subst k.
  - rewrite fmap_app. apply NoDup_app. split; [apply Hi|].
    split; [|apply NoDup_singleton]. intros i Hin Hx%list_elem_of_singleton. simpl in Hx.
    subst i. apply list_elem_of_fmap in Hin as (e & Hid & Hin).
    pose proof (ri_seq t Hi e Hin). lia.
  - intros e [Hin|Hin%list_elem_of_singleton]%elem_of_app.
    + pose proof (ri_seq t Hi e Hin). lia.
    + subst e. simpl. lia.
  - intros x k Hx Hkey. destruct (ri_charges t Hi x k Hx Hkey) as (e & He & ?). exists e.
    split; [apply elem_of_app; by left|done].
  - intros e [Hin|Hin%list_elem_of_singleton]%elem_of_app.
    + by apply (ri_rated t Hi).
    + by subst e.
Qed.

Lemma metering_db_rel {A} R `{!PreOrder R} (m : st Db (result A db_error)) :
  st_rel R m → st_rel R (metering_db m).
Proof.
  intros Hm. unfold metering_db. apply st_rel_bind; [done..|]. intros. by apply st_rel_ret.
Qed.

Lemma record_interval_rating node epoch at' ivs ps :
  st_rel (on_tables (keeps rating_inv)) (record_interval node epoch at' ivs ps).
Proof.
  unfold record_interval. apply st_rel_in_tx; [apply _|].
  apply st_rel_try; [apply _| |intros w].
  - generalize {| rc_events := 0; rc_bytes := 0 |}.
    induction ivs as [|iv ivs IH]; intros w; simpl; [apply st_rel_ret; apply _|].
    apply st_rel_try; [apply _| |intros rows; apply IH].
    apply metering_db_rel, st_rel_exec_tx, insert_usage_rating; apply _.
  - apply st_rel_try; [apply _| |intros; apply st_rel_ret; apply _].
    apply st_rel_try_each; [apply _|]. intros [s c] _.
    apply metering_db_rel, st_rel_exec_tx; [apply _..|]. intros now t y t' Hs Hi.
    unfold upsert_baseline in Hs. case_match; [done|]. injection Hs as _ <-.
    apply (rating_inv_frame t); simpl; auto. by eapply books_frame, Hi.
Qed.

Lemma same_key_once key l :
  NoDup (tx_idempotency_key <$> l) →
  (length (List.filter (λ x, String.eqb (tx_idempotency_key x) key) l) ≤ 1)%nat.
Proof.
  induction l as [|x l IH]; intros Hnd; [simpl; lia|]. csimpl in Hnd.
  inversion_clear Hnd as [|?? Hx Hnd']. simpl.
  destruct (String.eqb_spec (tx_idempotency_key x) key) as [<-|]; [|auto]. simpl.
  destruct (List.filter _ l) as [|y l'] eqn:E; [simpl; lia|]. exfalso. apply Hx.
  assert (Hin : In y (List.filter (λ y, String.eqb (tx_idempotency_key y)
    (tx_idempotency_key x)) l)) by (rewrite E; by left).
  apply filter_In in Hin as [Hin Hk%String.eqb_eq]. apply list_elem_of_fmap. exists y.
  by rewrite list_elem_of_In.
Qed.

Lemma same_usage_key t e e' :
  rating_inv t → e ∈ t_usage t → e' ∈ t_usage t →
  ue_idempotency_key e' = ue_idempotency_key e → e' = e.
Proof.
  intros Hi He He' Hk. apply list_elem_of_lookup in He as [i Hil].
  apply list_elem_of_lookup in He' as [j Hjl].
  assert (i = j) as <-; [|congruence]. eapply NoDup_lookup; [apply (ri_keys t Hi)| |];
    rewrite list_lookup_fmap; [rewrite Hil|rewrite Hjl]; simpl; [done|congruence].
Qed.

Lemma rating_step_inv ev :
  rating_allowed ev = true → st_rel (on_tables (keeps rating_inv)) (rating_step tt ev).
Proof.
  destruct ev as [b now|op|rows|n e o ivs ps]; intros Ha; simpl.
  - apply st_rel_bind; [apply _|apply rate_pending_inv|intros; apply st_rel_ret; apply _].
  - by apply run_op_rating.
  - apply st_rel_bind; [apply _| |intros; apply st_rel_ret; apply _].
    apply st_rel_exec; [apply _|]. intros now t y t' [= _ <-] Hi.
    apply (rating_inv_frame t); simpl; auto; [by eapply books_frame, Hi|].
    intros r Hr. apply elem_of_app. by left.
  - apply st_rel_bind; [apply _|apply record_interval_rating|
      intros; apply st_rel_ret; apply _].
Qed.

(** ** Lemmas: what one event may change *)
Section one_event.
Context (R : Tables → Tables → Prop) `{!PreOrder R} (ev : PendingUsage).
Hypothesis Hblock : ∀ u at' t, R t (set_blocked u at' t).
Hypothesis Hpost : ∀ cur amount t t', posted (pu_user_id ev) cur "charge" amount
  (charge_idempotency_key (pu_idempotency_key ev)) (Some (pu_broadcast_id ev)) None t t' →
  R t t'.
Hypothesis Hmark : ∀ v tx at', stmt_rel R (update_rated (pu_id ev) v tx at').

Lemma set_blocked_rel u at' :
  st_rel (on_tables R) (metering_db (exec (λ _ t, Ok ((), set_blocked u at' t)))).
Proof.
  apply metering_db_rel; [apply _|]. apply st_rel_exec; [apply _|].
  intros now t y t' [= _ <-]. apply Hblock.
Qed.

Lemma reading_rel {A} (f : Tables → A) :
  st_rel (on_tables R) (metering_db (exec (reading f))).
Proof. intros db. unfold on_tables. rewrite metering_reading_tables. reflexivity. Qed.

Lemma mark_rel v tx at' :
  st_rel (on_tables R) (metering_db (exec (update_rated (pu_id ev) v tx at'))).
Proof. apply metering_db_rel, st_rel_exec, Hmark; apply _. Qed.

Lemma charge_rel cur amount :
  st_rel (on_tables R) (charge (pu_user_id ev) cur amount
    (charge_idempotency_key (pu_idempotency_key ev)) (Some (pu_broadcast_id ev))).
Proof.
  eapply st_rel_weaken; [|apply charge_at_most_once]. intros db db' [Heq|Hp];
    [unfold on_tables; rewrite Heq; reflexivity|]. by eapply Hpost.
Qed.

Lemma settle_rel v now p :
  st_rel (on_tables R)
    (settle ev v (charge_idempotency_key (pu_idempotency_key ev)) now p).
Proof.
  unfold settle. apply st_rel_bind; [apply _|apply reading_rel|intros [[i|]|]];
    [|apply st_rel_ret; apply _..].
  apply st_rel_bind; [apply _|apply mark_rel|intros [?|?]]; [|apply st_rel_ret; apply _].
  case_bool_decide; [apply st_rel_ret; apply _|].
  apply st_rel_bind; [apply _|apply set_blocked_rel|intros; apply st_rel_ret; apply _].
Qed.

Lemma block_rel u now p : st_rel (on_tables R) (block u now p).
Proof.
  apply st_rel_bind; [apply _|apply set_blocked_rel|intros; apply st_rel_ret; apply _].
Qed.

Lemma card_for_rel cur p : st_rel (on_tables R) (card_for cur p).
Proof.
  unfold card_for. destruct (ps_cards p !! cur); [apply st_rel_ret; apply _|].
  apply st_rel_bind; [apply _| |intros; apply st_rel_ret; apply _].
  apply st_rel_try; [apply _|apply reading_rel|]. intros [|]; apply st_rel_ret; apply _.
Qed.

Lemma rate_one_rel now p : st_rel (on_tables R) (rate_one now p ev).
Proof.
  unfold rate_one. case_bool_decide; [apply st_rel_ret; apply _|].
  apply st_rel_try; [apply _|apply card_for_rel|]. intros [card p'].
  assert (Hb : ∀ f, st_rel (on_tables R) (let! p1 := block (pu_user_id ev) now
    (on_report f p') in st_ret (@Ok _ string p1))).
  { intros f. apply st_rel_bind; [apply _|apply block_rel|intros; apply st_rel_ret; apply _]. }
  destruct card as [[v prices]|]; [|apply Hb].
  destruct (find_price _ _) as [price|]; [|apply Hb].
  destruct (_ =? 0).
  - apply st_rel_bind; [apply _| |intros; apply st_rel_ret; apply _].
    apply st_rel_bind; [apply _|apply mark_rel|intros; apply st_rel_ret; apply _].
  - apply st_rel_bind; [apply _|apply charge_rel|]. intros r.
    destruct (treat_replay_as_success r) as [[]|[]];
      try apply settle_rel; try (apply st_rel_ret; apply _).
    apply st_rel_bind; [apply _|apply block_rel|intros; apply st_rel_ret; apply _].
Qed.
End one_event.

Lemma block_stalled u now p db : ps_stalled (block u now p db).1 = ps_stalled p.
Proof. unfold block, st_bind. by destruct (block_rating u now db) as [[?|?] ?]. Qed.

Lemma settle_stalled ev v key now p db p' :
  (settle ev v key now p db).1 = Ok p' → ps_stalled p' = ps_stalled p.
Proof.
  unfold settle, st_bind. destruct (transaction_id_for_key key db) as [[[i|]|?] db1];
    simpl; [|by intros [= <-]|done].
  destruct (mark_rated _ _ _ _ db1) as [[?|?] db2]; simpl; [|by intros [= <-]].
  case_bool_decide; simpl; [by intros [= <-]|].
  destruct (unblock_rating _ db2) as [[?|?] db3]; by intros [= <-].
Qed.

(** The set of stalled wallets only grows within a pass. *)
Lemma rate_one_stalled now p ev db p' :
  (rate_one now p ev db).1 = Ok p' → ps_stalled p ⊆ ps_stalled p'.
Proof.
  unfold rate_one. case_bool_decide; [by intros [= <-]|]. unfold st_try, st_bind at 1.
  assert (Hc : ∀ cp, (card_for (pu_currency ev) p db).1 = Ok cp →
    ps_stalled cp.2 = ps_stalled p).
  { intros cp. unfold card_for. destruct (ps_cards p !! _); [by intros [= <-]|].
    unfold st_bind. destruct (current_prices _ db) as [[?|?] ?]; [by intros [= <-]|done]. }
  destruct (card_for _ p db) as [[[card p1]|e] db1]; [|done].
  specialize (Hc _ eq_refl). simpl in Hc. rewrite <- Hc. clear Hc.
  assert (Hb : ∀ f, (st_bind (block (pu_user_id ev) now (on_report f p1))
    (λ p2, st_ret (@Ok _ string p2)) db1).1 = Ok p' → ps_stalled p1 ⊆ ps_stalled p').
  { intros f. unfold st_bind. pose proof (block_stalled (pu_user_id ev) now (on_report f p1) db1).
    destruct (block _ _ _ db1) as [p2 db2]. simpl in *. intros [= <-]. by rewrite H0. }
  destruct card as [[v prices]|]; [|apply Hb].
  destruct (find_price _ _) as [price|]; [|apply Hb].
  destruct (_ =? 0); unfold st_bind.
  - destruct (mark_zero_rated _ _ _ db1) as [[?|?] ?]; by intros [= <-].
  - destruct (charge _ _ _ _ _ db1) as [r db2].
    destruct (treat_replay_as_success r) as [[]|[]]; simpl;
      try (by intros [= <-]); try (by intros ->%settle_stalled).
    pose proof (block_stalled (pu_user_id ev) now
      (on_report (add_insufficient (pu_broadcast_id ev)) p1) db2) as Hbl.
    destruct (block _ _ _ db2) as [p2 db3]. simpl in *. intros [= <-]. simpl. set_solver.
Qed.

(** Later events leave what is rated, and the ledger only grows. *)
Definition settled_stays (t t' : Tables) : Prop :=
  (∀ e, e ∈ t_usage t → is_unrated e = false → e ∈ t_usage t') ∧
  t_transactions t ⊆ t_transactions t'.

#[export] Instance settled_stays_preorder : PreOrder settled_stays.
Proof.
  split.
  - intros t. by split.
  - intros a b c [H1 H2] [H3 H4]. split; [auto|]. set_solver.
Qed.

Lemma rate_events_settled now evs p :
  st_rel (on_tables settled_stays) (rate_events now evs p).
Proof.
  revert p. induction evs as [|ev evs IH]; intros p; simpl; [apply st_rel_ret; apply _|].
  apply st_rel_try; [apply _| |apply IH].
  apply rate_one_rel; [apply _|by split| |].
  - intros cur amount t t' (w & at' & _ & _ & _ & _ & _ & ->). split; [done|].
    simpl. set_solver.
  - intros v tx at' n t y t'. unfold update_rated. destruct (_ && _); [done|].
    intros [= _ <-]. split; [|done]. intros e He Hr. simpl. apply list_elem_of_fmap.
    exists e. split; [|done]. unfold rate_event. by rewrite Hr, andb_false_r.
Qed.

(** ** Lemmas: a pass on a working database *)
Lemma metering_healthy {A} (s : stmt A) t n a t' :
  s n t = Ok (a, t') → metering_db (exec s) (healthy t n) = (Ok a, healthy t' n).
Proof. intros Hs. unfold metering_db, st_bind. by rewrite exec_healthy, Hs. Qed.

Lemma charge_healthy t n user cur amount key bc w :
  0 < amount → t_wallets t !! user = Some w → wr_currency w = cur →
  key ∉ ledger_keys t → is_i64 (wr_balance_minor w - amount) →
  - wr_credit_limit_minor w ≤ wr_balance_minor w - amount →
  ∃ t1, charge user cur amount key bc (healthy t n) = (Ok Applied, healthy t1 n) ∧
    t_usage t1 = t_usage t ∧ t_rate_card t1 = t_rate_card t ∧
    t_transactions t1 = t_transactions t ++
      [ledger_row (t_tx_seq t) user cur "charge" (- amount) key bc None n].
Proof.
  intros Ha Hw Hc Hk Hi Hl. unfold charge. rewrite (proj2 (Z.leb_gt _ _)) by lia.
  unfold movement, st_bind. rewrite exec_healthy. unfold insert_transaction.
  unfold sign_matches_kind. simpl. rewrite (proj2 (Z.ltb_lt (- amount) 0)) by lia. simpl.
  destruct (existsb _ _) eqn:Ek; [by apply existsb_key in Ek|].
  rewrite Hw, Hc, String.eqb_refl. simpl. unfold is_i64 in Hi.
  rewrite (proj2 (Z.ltb_ge _ i64_min)), (proj2 (Z.ltb_ge i64_max _)) by lia. simpl.
  rewrite (proj2 (Z.ltb_ge _ _)) by lia. eexists. split; [done|]. done.
Qed.

Lemma find_new_row key (l : list TxRec) x :
  key ∉ tx_idempotency_key <$> l → tx_idempotency_key x = key →
  List.find (λ y, String.eqb (tx_idempotency_key y) key) (l ++ [x]) = Some x.
Proof.
  intros Hn Hx. induction l as [|y l IH]; simpl.
  - by rewrite Hx, String.eqb_refl.
  - csimpl in Hn. rewrite (proj2 (String.eqb_neq _ _)); [|set_solver]. apply IH. set_solver.
Qed.

Section working.
Context (t : Tables) (n now : DateTime) (ev : PendingUsage) (e : UsageRec).
Context (w : WalletRec) (r0 : RateRec) (rows : list RateRec) (price : Z).
Let amount := charge_minor (pu_quantity_milli ev) price.
Let key := charge_idempotency_key (pu_idempotency_key ev).
Hypothesis He : e ∈ t_usage t.
Hypothesis Hun : is_unrated e = true.
Hypothesis Hid : ue_id e = pu_id ev.
Hypothesis Hw : t_wallets t !! pu_user_id ev = Some w.
Hypothesis Hcur : wr_currency w = pu_currency ev.
Hypothesis Hrates : newest_rates (pu_currency ev) t = r0 :: rows.
Hypothesis Hprice : find_price (pu_unit ev)
  ((λ r, (rr_unit r, rr_price_minor r)) <$> r0 :: rows) = Some price.
Hypothesis Hpos : 0 < amount.
Hypothesis Hkey : key ∉ ledger_keys t.
Hypothesis Hrange : is_i64 (wr_balance_minor w - amount).
Hypothesis Hfunds : - wr_credit_limit_minor w ≤ wr_balance_minor w - amount.

Definition billed_event (tx : Z) : UsageRec :=
  rate_event (pu_id ev) (rr_version r0) (Some tx) now e.

Lemma rate_one_working p :
  pu_user_id ev ∉ ps_stalled p → ps_cards p = ∅ →
  ∃ p' t', rate_one now p ev (healthy t n) = (Ok p', healthy t' n) ∧
    billed_event (t_tx_seq t) ∈ t_usage t' ∧
    ledger_row (t_tx_seq t) (pu_user_id ev) (pu_currency ev) "charge" (- amount) key
      (Some (pu_broadcast_id ev)) None n ∈ t_transactions t'.
Proof.
  intros Hst Hcards. unfold rate_one. rewrite bool_decide_false by done.
  unfold card_for, current_prices, st_try, st_bind. rewrite Hcards, lookup_empty.
  rewrite (metering_healthy _ t n (r0 :: rows) t) by (unfold reading; by rewrite Hrates).
  cbn [st_ret]. rewrite Hprice. fold amount key. rewrite (proj2 (Z.eqb_neq _ _)) by lia.
  destruct (charge_healthy t n (pu_user_id ev) (pu_currency ev) amount key
    (Some (pu_broadcast_id ev)) w Hpos Hw Hcur Hkey Hrange Hfunds)
    as (t1 & Hch & Hu1 & _ & Hx1).
  rewrite Hch. cbn [treat_replay_as_success]. unfold settle, st_bind, transaction_id_for_key.
  rewrite (metering_healthy _ t1 n (Some (t_tx_seq t)) t1).
  2: { unfold reading. rewrite Hx1. by rewrite find_new_row. }
  unfold mark_rated. set (row := ledger_row _ _ _ _ _ _ _ _ _) in *.
  erewrite (metering_healthy _ t1 n ()).
  2: { unfold update_rated. rewrite (proj2 (existsb_exists _ (t_transactions t1))).
    - rewrite andb_false_r. reflexivity.
    - exists row. rewrite <- list_elem_of_In, Hx1. split; [set_solver|]. apply Z.eqb_refl. }
  set (t2 := set_usage _ _ t1).
  assert (Hdone : billed_event (t_tx_seq t) ∈ t_usage t2 ∧ row ∈ t_transactions t2).
  { split; simpl; [|rewrite Hx1; set_solver]. rewrite Hu1.
    apply list_elem_of_fmap. by exists e. }
  case_bool_decide; [by eexists _, t2|].
  unfold unblock_rating. erewrite (metering_healthy _ t2 n ()) by reflexivity.
  by eexists _, (set_blocked (pu_user_id ev) None t2).
Qed.
End working.

(** ** Properties *)

(** C1. Usage is charged exactly once: after any history of rating passes, deposits,
    refunds, new cards and new usage, with connections lost at any statement, the
    ledger holds at most one charge per usage event, taken from the event's payer for
    its quantity at a published price; and an event is marked as rated only when that
    charge is in the ledger or its price came to nothing. *)
Theorem usage_charged_exactly_once (evs : list rating_event) (db : Db) :
  rating_inv (db_tables db) → forallb rating_allowed evs = true →
  let t := db_tables (st_fold rating_step evs tt db).2 in
  ∀ e, e ∈ t_usage t →
    let charges := List.filter (λ x, String.eqb (tx_idempotency_key x)
      (charge_idempotency_key (ue_idempotency_key e))) (t_transactions t) in
    (length charges ≤ 1)%nat ∧
    (∀ x, x ∈ charges → charge_of t e x) ∧
    (∀ i, ue_transaction_id e = Some i → ∃ x, charges = [x] ∧ tx_id x = i) ∧
    rated_ok t e.
Proof.
  intros Hi Ha t e He charges.
  assert (Hinv : rating_inv t).
  { assert (Hr : st_rel (on_tables (keeps rating_inv)) (st_fold rating_step evs tt)).
    { apply st_rel_fold; [apply _|]. intros [] ev Hev. apply rating_step_inv.
      rewrite forallb_forall in Ha. by apply Ha, list_elem_of_In. }
    by apply Hr. }
  assert (Hmem : ∀ x, x ∈ charges ↔ x ∈ t_transactions t ∧
    tx_idempotency_key x = charge_idempotency_key (ue_idempotency_key e)).
  { intros x. unfold charges. rewrite list_elem_of_In, filter_In, <- list_elem_of_In.
    by rewrite String.eqb_eq. }
  assert (Hlen : (length charges ≤ 1)%nat).
  { apply same_key_once. apply (bk_keys t), Hinv. }
  split; [done|]. split; [|split; [|by apply (ri_rated t Hinv)]].
  - intros x (Hx & Hk)%Hmem. destruct (ri_charges t Hinv x _ Hx Hk) as (e' & He' & Hk' & Hc).
    assert (e' = e) as <-; [|done]. by apply (same_usage_key t).
  - intros i Hti. pose proof (ri_rated t Hinv e He) as Hro. unfold rated_ok in Hro.
    destruct (ue_rated_at e); [|by destruct Hro as [_ Hno]; congruence].
    destruct Hro as (v & _ & Hro). rewrite Hti in Hro. destruct Hro as (x & Hx & Hxi & Hk).
    assert (Hin : x ∈ charges) by (by apply Hmem). exists x. split; [|done].
    destruct charges as [|y [|y' l]]; [by apply not_elem_of_nil in Hin| |simpl in Hlen; lia].
    apply list_elem_of_singleton in Hin. by subst y.
Qed.

Lemma no_tables_rating : rating_inv no_tables.
Proof.
  split; simpl; try (by constructor).
  - apply no_tables_books.
  - intros e He. by apply not_elem_of_nil in He.
  - intros x k Hx. by apply not_elem_of_nil in Hx.
  - intros e He. by apply not_elem_of_nil in He.
Defined.

Definition demo_interval (key : string) (quantity : Z) : EgressInterval := {|
  ei_source := "stream-b1"; ei_user_id := "alice"; ei_broadcast_id := "b1";
  ei_bytes := 1000000 * quantity; ei_quantity_milli := quantity;
  ei_cumulative_bytes := 0; ei_epoch := "e"; ei_idempotency_key := key;
  ei_occurred_at := 0 |}.

Definition demo_rate (version price : Z) : RateRec := {|
  rr_version := version; rr_currency := "eur"; rr_unit := "egress_gb";
  rr_price_minor := price |}.

(** Money moves, the connection of the mark is lost, and the next pass recovers. *)
Definition demo_history : list rating_event :=
  [ WalletOp (OpCreate "alice" "eur" 0); WalletOp (OpDeposit "alice" "eur" 100 "d1");
    PublishRates [demo_rate 1 10];
    RecordUsage "n1" "e" 0 [demo_interval "k1" 2500; demo_interval "k2" 50000] [];
    RatePass 10 5; RatePass 10 6 ].

Definition demo_db (n : nat) : Db := {|
  db_tables := no_tables; db_now := 0;
  db_script := replicate n {| tk_outcome := Answered; tk_now := 0 |} ++
    [{| tk_outcome := Lost "reset"; tk_now := 5 |}] |}.

Definition demo_after : Tables := db_tables (st_fold rating_step demo_history tt (demo_db 12)).2.

Lemma usage_charged_exactly_once_witness :
  (λ e, (ue_idempotency_key e, ue_transaction_id e)) <$> t_usage demo_after
    = [("k1", Some 2); ("k2", None)] ∧
  tx_amount_minor <$> t_transactions demo_after = [100; -25] ∧
  (∀ e, e ∈ t_usage demo_after → rated_ok demo_after e).
Proof.
  split; [vm_compute; reflexivity|]. split; [vm_compute; reflexivity|].
  intros e He. apply (usage_charged_exactly_once demo_history (demo_db 12));
    [exact no_tables_rating | vm_compute; reflexivity | exact He].
Defined.

(** Oldest first: once a pass has put a wallet aside because it could not cover an
    event, no later event of that wallet is charged in the pass, whatever happens to
    the database. *)
Theorem stalled_wallet_not_charged (u : string) (now : DateTime) (evs : list PendingUsage)
    (p : RatingPass) (db : Db) :
  u ∈ ps_stalled p →
  ledger_of u (db_tables (rate_events now evs p db).2) = ledger_of u (db_tables db).
Proof.
  revert p db. induction evs as [|ev evs IH]; intros p db Hu; [done|]. simpl.
  unfold st_try, st_bind.
  assert (Hone : ledger_of u (db_tables (rate_one now p ev db).2) = ledger_of u (db_tables db)).
  { destruct (decide (pu_user_id ev = u)) as [Heq|Hne].
    { unfold rate_one. by rewrite bool_decide_true by (by rewrite Heq). }
    assert (PreOrder (λ t t', ledger_of u t' = ledger_of u t))
      by (split; [done|intros ???; congruence]).
    refine (rate_one_rel (λ t t', ledger_of u t' = ledger_of u t) ev _ _ _ now p db); [done|..].
    - intros cur amount t t' (w & at' & _ & _ & _ & _ & _ & ->). unfold ledger_of. simpl.
      rewrite List.filter_app, fmap_app. simpl.
      rewrite (proj2 (String.eqb_neq _ _) Hne). by rewrite app_nil_r.
    - intros v tx at' n t y t'. unfold update_rated. destruct (_ && _); [done|].
      by intros [= _ <-]. }
  pose proof (rate_one_stalled now p ev db) as Hst.
  destruct (rate_one now p ev db) as [[p1|e] db1]; simpl in *; [|done].
  rewrite <- Hone. apply IH. by apply (Hst p1).
Qed.

Definition demo_pending (key : string) (quantity : Z) : PendingUsage := {|
  pu_id := 1; pu_user_id := "alice"; pu_broadcast_id := "b1"; pu_unit := "egress_gb";
  pu_quantity_milli := quantity; pu_idempotency_key := key; pu_occurred_at := 0;
  pu_currency := "eur" |}.

Lemma stalled_wallet_not_charged_witness :
  ledger_of "alice" (db_tables (rate_events 7 [demo_pending "k3" 1000]
    {| ps_report := new_report []; ps_cards := ∅; ps_stalled := {["alice"]};
       ps_unblocked := ∅ |} (healthy demo_after 7)).2) = [100; -25].
Proof.
  rewrite stalled_wallet_not_charged; [vm_compute; reflexivity|].
  apply (bool_decide_eq_true_1 _). vm_compute. reflexivity.
Defined.

(** A charge is the exact price rounded half up, off by at most half a minor unit;
    a price beyond the range of the ledger saturates instead of wrapping. *)
Theorem charge_minor_rounds (q p : Z) :
  0 ≤ q ≤ i64_max → 0 ≤ p ≤ i64_max →
  if decide (q * p + 500 ≤ i64_max)
  then -500 < 1000 * charge_minor q p - q * p ≤ 500
  else charge_minor q p = i64_max / 1000.
Proof.
  intros Hq Hp. assert (Hqp : 0 ≤ q * p) by nia. unfold charge_minor.
  destruct (Z.leb_spec q 0), (Z.leb_spec p 0); simpl orb; cbv iota;
    try (assert (q * p = 0) as -> by nia; destruct (decide _); unfold i64_max in *; lia).
  destruct (decide _) as [Hle|Hgt].
  - rewrite (i64_sat_id (q * p)), (i64_sat_id (q * p + 500))
      by (unfold is_i64, i64_min; lia).
    rewrite Z.quot_div_nonneg by lia.
    pose proof (Z.div_mod (q * p + 500) 1000 ltac:(lia)).
    pose proof (Z.mod_pos_bound (q * p + 500) 1000 ltac:(lia)). lia.
  - assert (Hs : i64_sat (i64_sat (q * p) + 500) = i64_max).
    { unfold i64_sat, i64_min, i64_max in *. lia. }
    rewrite Hs. by rewrite Z.quot_div_nonneg by (unfold i64_max; lia).
Qed.

Lemma charge_minor_rounds_witness :
  -500 < 1000 * charge_minor 2550 10 - 2550 * 10 ≤ 500.
Proof.
  exact (charge_minor_rounds 2550 10 ltac:(unfold i64_max; lia) ltac:(unfold i64_max; lia)).
Defined.

(** The recorded divergence of the pass from its documentation: a charge that is
    recovered after a new card was published is recorded under the new version,
    although the money moved at the old one's price. *)
Theorem recovered_charge_is_repriced :
  let before := (st_fold rating_step
    [ WalletOp (OpCreate "alice" "eur" 0); WalletOp (OpDeposit "alice" "eur" 100 "d1");
      PublishRates [demo_rate 1 10]; RecordUsage "n1" "e" 0 [demo_interval "k1" 2500] [];
      RatePass 10 5; PublishRates [demo_rate 2 30] ] tt (demo_db 11)).2 in
  let after := db_tables (rate_pending 10 6 before).2 in
  (λ e, (ue_rate_card_version e, ue_transaction_id e)) <$> t_usage after
    = [(Some 2, Some 2)] ∧
  (λ x, (tx_id x, tx_amount_minor x)) <$> t_transactions after
    = [(1, 100); (2, - charge_minor 2500 10)] ∧
  charge_minor 2500 10 ≠ charge_minor 2500 30.
Proof. split_and!; vm_compute; congruence. Qed.

(** A working pass makes progress: the event at the head of the queue, if its card
    prices it and its wallet covers it, is charged and marked by the pass, whatever
    the other events of the batch are. *)
Theorem pass_bills_head_of_queue (t : Tables) (n now batch : Z) ev rest w r0 rows price :
  let amount := charge_minor (pu_quantity_milli ev) price in
  let key := charge_idempotency_key (pu_idempotency_key ev) in
  queue t = ev :: rest → 1 ≤ batch →
  t_wallets t !! pu_user_id ev = Some w →
  newest_rates (pu_currency ev) t = r0 :: rows →
  find_price (pu_unit ev) ((λ r, (rr_unit r, rr_price_minor r)) <$> r0 :: rows) = Some price →
  0 < amount → (key ∉ ledger_keys t) →
  is_i64 (wr_balance_minor w - amount) →
  - wr_credit_limit_minor w ≤ wr_balance_minor w - amount →
  let t' := db_tables (rate_pending batch now (healthy t n)).2 in
  (∃ e, e ∈ t_usage t' ∧ ue_id e = pu_id ev ∧ ue_rated_at e = Some now ∧
    ue_rate_card_version e = Some (rr_version r0) ∧
    ue_transaction_id e = Some (t_tx_seq t)) ∧
  ledger_row (t_tx_seq t) (pu_user_id ev) (pu_currency ev) "charge" (- amount) key
    (Some (pu_broadcast_id ev)) None n ∈ t_transactions t'.
Proof.
  intros amount key Hq Hb Hw Hrates Hprice Hpos Hkey Hrange Hfunds.
  destruct (queue_head t ev rest Hq) as (e & He & Hun & Hid & w' & Hw' & Hcur).
  assert (w' = w) as -> by congruence.
  unfold rate_pending, unrated_without_wallet, unrated_events, st_bind.
  erewrite (metering_healthy _ t n) by reflexivity.
  erewrite (metering_healthy _ t n) by reflexivity.
  rewrite Hq. unfold limit. replace (Z.to_nat batch) with (S (Z.to_nat (batch - 1))) by lia.
  cbn [take rate_events]. unfold st_try, st_bind.
  match goal with |- context [rate_one now ?p ev] => destruct (rate_one_working t n now ev e
    w r0 rows price He Hun Hid Hw Hcur Hrates Hprice Hpos Hkey Hrange Hfunds p)
    as (p' & t1 & Hone & Hbe & Hrow); [apply not_elem_of_empty|done|] end.
  rewrite Hone.
  pose proof (rate_events_settled now (take (Z.to_nat (batch - 1)) rest) p' (healthy t1 n))
    as [Hs1 Hs2].
  assert (Hbill : ue_id (billed_event now ev e r0 (t_tx_seq t)) = pu_id ev ∧
    billed_event now ev e r0 (t_tx_seq t) = rate_event (pu_id ev) (rr_version r0)
      (Some (t_tx_seq t)) now e) by (split; [|done]; rewrite <- Hid;
    apply rate_event_identity).
  destruct (rate_events _ _ p' _) as [[p2|err] db2]; simpl in *;
    (split; [|by apply Hs2]); exists (billed_event now ev e r0 (t_tx_seq t));
    (split; [apply Hs1; [done|]|split; [apply Hbill|]]);
    unfold billed_event, rate_event; by rewrite bool_decide_true, Hun by done.
Qed.

(** One event, a price and the money for it. *)
Definition demo_due : Tables := db_tables (st_fold rating_step
  [ WalletOp (OpCreate "alice" "eur" 0); WalletOp (OpDeposit "alice" "eur" 100 "d1");
    PublishRates [demo_rate 1 10]; RecordUsage "n1" "e" 0 [demo_interval "k1" 2500] [] ]
  tt (healthy no_tables 0)).2.

Lemma pass_bills_head_of_queue_witness :
  let t' := db_tables (rate_pending 10 6 (healthy demo_due 6)).2 in
  (∃ e, e ∈ t_usage t' ∧ ue_id e = 1 ∧ ue_rated_at e = Some 6 ∧
    ue_rate_card_version e = Some 1 ∧ ue_transaction_id e = Some 2) ∧
  ledger_row 2 "alice" "eur" "charge" (-25) "rate:k1" (Some "b1") None 6
    ∈ t_transactions t'.
Proof.
  apply (pass_bills_head_of_queue demo_due 6 6 10 (demo_pending "k1" 2500) []
    {| wr_currency := "eur"; wr_balance_minor := 100; wr_credit_limit_minor := 0;
       wr_updated_at := 0; wr_rating_blocked_at := None |} (demo_rate 1 10) [] 10);
    try (vm_compute; reflexivity); try lia.
  - apply (bool_decide_eq_true_1 _). vm_compute. reflexivity.
  - split; vm_compute; discriminate.
  - vm_compute. discriminate.
Defined.
