(* ===== verification/MeterLoop.v ===== *)
(** * MeterLoop: one turn of the meter

    [mm-fleet/src/meter_loop.rs]: poll, record, then charge when billing is enabled;
    and the rule for warning about the unbilled backlog. Logging and the metrics
    registry are not modelled beyond the values they are given. *)
From S2P Require Import Prelude Schema Wallet MeteringDb Metering Rating.
Local Open Scope Z_scope.
Local Open Scope mm_scope.

Record MeterTick : Type := {
  mt_sweep : MeteringSweep;
  mt_rating : option RatingReport;
  mt_unrated_backlog : option Z;
  mt_errors : list string
}.

Definition meter_tick {N : Type} `{SwitchMeter N} (nodes : list string)
    (billing_enabled : bool) (rating_batch : Z) (now : DateTime) : st (Db * N) MeterTick :=
  let! sweep := sweep_egress nodes now in
  let! rated :=
    if billing_enabled then
      let! r := st_fst (rate_pending rating_batch now) in
      st_ret (match r with
        | Ok report => (Some report, [])
        | Err e => (None, ["rating pass failed: " +:+ e])
        end)
    else st_ret (None, []) in
  let '(rating, errors) := rated in
  let! count := st_fst unrated_count in
  st_ret (match count with
    | Ok n => {| mt_sweep := sweep; mt_rating := rating; mt_unrated_backlog := Some n;
        mt_errors := errors |}
    | Err e => {| mt_sweep := sweep; mt_rating := rating; mt_unrated_backlog := None;
        mt_errors := errors ++ ["counting the rating queue failed: " +:+ e] |}
    end).

Definition node_kind (mm_node_id : string) : string :=
  if String.eqb mm_node_id ORIGIN_NODE_ID then "origin" else "fleet".

(** The samples a tick publishes: the backlog gauge, and a counter increment for
    every metered node. *)
Definition publish (tick : MeterTick) (billing_enabled : bool) :
    option (string * Z) * list (string * Z) :=
  ((λ backlog, (if billing_enabled then "billing_enabled" else "billing_disabled", backlog))
     <$> mt_unrated_backlog tick,
   (λ nb : string * Z, (node_kind nb.1, Z.abs (Z.max nb.2 0)))
     <$> ms_metered_bytes (mt_sweep tick)).

Definition backlog_warning_due (backlog : Z) (last_warned : option Z) : bool :=
  if backlog <=? 0 then false
  else
    match last_warned with
    | None => true
    | Some prev => i64_sat (prev * 2) <=? backlog
    end.

(** Whether [log_tick] warns about the backlog, and what it remembers for the next. *)
Definition log_tick (tick : MeterTick) (billing_enabled : bool) (last_warned : option Z) :
    bool * option Z :=
  match mt_rating tick, billing_enabled, mt_unrated_backlog tick with
  | None, false, Some backlog =>
      if backlog_warning_due backlog last_warned then (true, Some backlog)
      else if backlog =? 0 then (false, None)
      else (false, last_warned)
  | _, _, _ => (false, last_warned)
  end.

(** ** Lemmas *)

(** With billing disabled a tick moves no money: the wallets and the ledger stay. *)
Definition money_stays (t t' : Tables) : Prop :=
  t_wallets t' = t_wallets t ∧ t_transactions t' = t_transactions t.

#[export] Instance money_stays_preorder : PreOrder money_stays.
Proof. split; [done|]. intros a b c [??] [??]. split; congruence. Qed.

Section tick.
Context {N : Type} `{SwitchMeter N} (R : Tables → Tables → Prop) `{!PreOrder R}.
Hypothesis Hrecord : ∀ node epoch now ivs positions,
  st_rel (on_tables R) (record_interval node epoch now ivs positions).

Let T : Db * N → Db * N → Prop := both (on_tables R) (λ _ _, True).

#[local] Instance true_preorder : PreOrder (λ _ _ : N, True).
Proof. by split. Qed.

Lemma reading_both {A} (f : Tables → A) : st_rel T (st_fst (metering_db (exec (reading f)))).
Proof. apply st_rel_fst; [apply _|]. apply reading_rel. apply _. Qed.

(** What one poll's transaction keeps, a sweep keeps. *)
Lemma sweep_rel nodes now : st_rel T (sweep_egress nodes now).
Proof.
  apply st_rel_fold; [apply _|]. intros sw node _. unfold sweep_node.
  apply st_rel_bind; [apply _|apply reading_both|]. intros [stored|?];
    [|apply st_rel_ret; apply _].
  apply st_rel_bind; [apply _|apply st_rel_snd; [apply _|done]|]. intros [r|?];
    [|apply st_rel_ret; apply _].
  apply st_rel_bind; [apply _| |].
  - apply st_rel_fst; [apply _|]. apply st_rel_fold; [apply _|]. intros [sw' ivs] u _.
    unfold bill_source. destruct (broadcast_id_for_source _); [|apply st_rel_ret; apply _].
    apply st_rel_bind; [apply _|apply reading_rel; apply _|].
    intros [[[user cur]|]|?]; try (apply st_rel_ret; apply _).
    destruct (_ =? 0); apply st_rel_ret; apply _.
  - intros [sw' ivs]. apply st_rel_bind; [apply _|apply st_rel_fst; [apply _|apply Hrecord]|].
    intros [?|?]; apply st_rel_ret; apply _.
Qed.

Lemma meter_tick_rel nodes billing batch now :
  (billing = true → st_rel (on_tables R) (rate_pending batch now)) →
  st_rel T (meter_tick nodes billing batch now).
Proof.
  intros Hrate. apply st_rel_bind; [apply _|apply sweep_rel|]. intros sweep.
  apply st_rel_bind; [apply _| |].
  - destruct billing; [|apply st_rel_ret; apply _].
    apply st_rel_bind; [apply _|apply st_rel_fst; [apply _|auto]|].
    intros; apply st_rel_ret; apply _.
  - intros [rating errors]. apply st_rel_bind; [apply _|apply reading_both|].
    intros; apply st_rel_ret; apply _.
Qed.
End tick.

Lemma record_interval_money node epoch now ivs positions :
  st_rel (on_tables money_stays) (record_interval node epoch now ivs positions).
Proof.
  unfold record_interval. apply st_rel_in_tx; [apply _|].
  apply st_rel_try; [apply _| |intros w].
  - generalize {| rc_events := 0; rc_bytes := 0 |}.
    induction ivs as [|iv ivs IH]; intros w; simpl; [apply st_rel_ret; apply _|].
    apply st_rel_try; [apply _| |intros rows; apply IH].
    apply metering_db_rel, st_rel_exec_tx; [apply _..|]. intros n t y t' Hs.
    unfold insert_usage in Hs. repeat case_match; try done; by injection Hs as _ <-.
  - apply st_rel_try; [apply _| |intros; apply st_rel_ret; apply _].
    apply st_rel_try_each; [apply _|]. intros [s c] _.
    apply metering_db_rel, st_rel_exec_tx; [apply _..|]. intros n t y t' Hs.
    unfold upsert_baseline in Hs. case_match; [done|]. by injection Hs as _ <-.
Qed.

Lemma disabled_billing_moves_no_money {N : Type} `{SwitchMeter N} nodes batch now
    (w : Db * N) :
  money_stays (db_tables w.1) (db_tables (meter_tick nodes false batch now w).2.1).
Proof. by apply (meter_tick_rel money_stays record_interval_money). Qed.

(** A tick, billing or not, keeps the books and charges each event at most once. *)
Lemma meter_tick_keeps_rating {N : Type} `{SwitchMeter N} nodes billing batch now
    (w : Db * N) :
  rating_inv (db_tables w.1) →
  rating_inv (db_tables (meter_tick nodes billing batch now w).2.1).
Proof.
  apply (meter_tick_rel (keeps rating_inv) record_interval_rating).
  intros _. apply rate_pending_inv.
Qed.

(** The warnings over a growing backlog: how many, and the last one's size. *)
Definition warn (s : Z * option Z) (backlog : Z) : Z * option Z :=
  if backlog_warning_due backlog s.2 then (s.1 + 1, Some backlog) else s.

Lemma warnings_logarithmic (backlogs : list Z) (M : Z) :
  Forall (λ b, 0 < b ≤ M) backlogs → M < i64_max →
  let '(n, _) := foldl warn (0, None) backlogs in n ≤ 1 + Z.log2 M.
Proof.
  intros Hb HM.
  assert (Hinv : ∀ l s, Forall (λ b, 0 < b ≤ M) l →
    (s = (0, None) ∨ ∃ n L, s = (n, Some L) ∧ 1 ≤ n ∧ 2 ^ (n - 1) ≤ L ≤ M) →
    let s' := foldl warn s l in
    s' = (0, None) ∨ ∃ n L, s' = (n, Some L) ∧ 1 ≤ n ∧ 2 ^ (n - 1) ≤ L ≤ M).
  { induction l as [|b l IH]; intros s Hl Hs; [done|]. inversion_clear Hl as [|?? Hb1 Hl'].
    simpl. apply IH; [done|]. unfold warn, backlog_warning_due.
    rewrite (proj2 (Z.leb_gt b 0)) by lia. destruct Hs as [->|(n & L & -> & Hn & HL)]; simpl.
    - right. exists 1, b. split; [done|]. change (2 ^ (1 - 1)) with 1. lia.
    - right. destruct (Z.leb_spec (i64_sat (L * 2)) b); [|by exists n, L].
      exists (n + 1), b. split; [done|]. split; [lia|]. split; [|lia].
      replace (n + 1 - 1) with (n - 1 + 1) by lia. rewrite Z.pow_add_r by lia.
      unfold i64_sat, i64_min, i64_max in *. lia. }
  destruct (Hinv backlogs (0, None) Hb (or_introl eq_refl)) as [->|(n & L & -> & Hn & HL)].
  - pose proof (Z.log2_nonneg M). lia.
  - assert (0 < 2 ^ (n - 1)) by (apply Z.pow_pos_nonneg; lia).
    assert (n - 1 ≤ Z.log2 M); [|lia]. apply Z.log2_le_pow2; lia.
Qed.
