(* ===== verification/Quotes.v ===== *)
(** * Quotes: what a broadcast costs, and what its wallet has

    [mm-fleet/src/wallet_billing.rs], the planner's quote, and
    [mm-fleet/src/ladder_billing.rs], the ladder's. Both are billing sources over the
    database; the projections are pure. *)
From S2P Require Import Prelude F64 FleetTypes Billing Planner Schema Wallet MeteringDb.
From S2P Require Import Provider DesiredStore Sweeper Tfvars Runner Rating.
From Stdlib Require Import Ascii.
Local Open Scope Z_scope.
Local Open Scope mm_scope.

(** ** SQL: [LIKE], and the cast of a number of seconds to an integer *)
Fixpoint like (p s : string) {struct p} : bool :=
  match p with
  | EmptyString => is_empty_str s
  | String c p' =>
      if Ascii.eqb c "%" then
        (fix any (s : string) : bool :=
           like p' s || match s with EmptyString => false | String _ s' => any s' end) s
      else if Ascii.eqb c "\" then
        match p', s with
        | String e p'', String d s' => Ascii.eqb e d && like p'' s'
        | _, _ => false
        end
      else
        match s with
        | EmptyString => false
        | String d s' => (Ascii.eqb c "_" || Ascii.eqb c d) && like p' s'
        end
  end.

(** To the nearest, ties to even. *)
Definition round_half_even (n d : Z) : Z :=
  let q := n / d in
  let r := n mod d in
  if 2 * r <? d then q else if d <? 2 * r then q + 1 else if Z.even q then q else q + 1.

(** ** The card, reduced to what a live broadcast burns *)
Record RateCard : Type := {
  cd_version : Z;
  cd_node_minute_minor : Z;
  cd_gpu_minute_minor : Z;
  cd_egress_gb_minor : Z
}.

Definition card_row (card : RateCard) (r : RateRec) : RateCard :=
  if String.eqb (rr_unit r) "node_minute" then
    {| cd_version := cd_version card; cd_node_minute_minor := rr_price_minor r;
       cd_gpu_minute_minor := cd_gpu_minute_minor card;
       cd_egress_gb_minor := cd_egress_gb_minor card |}
  else if String.eqb (rr_unit r) "gpu_minute" then
    {| cd_version := cd_version card; cd_node_minute_minor := cd_node_minute_minor card;
       cd_gpu_minute_minor := rr_price_minor r;
       cd_egress_gb_minor := cd_egress_gb_minor card |}
  else if String.eqb (rr_unit r) "egress_gb" then
    {| cd_version := cd_version card; cd_node_minute_minor := cd_node_minute_minor card;
       cd_gpu_minute_minor := cd_gpu_minute_minor card;
       cd_egress_gb_minor := rr_price_minor r |}
  else card.

(** A query of the billing sources, with the error prefix of each. *)
Definition query {A} (why : string) (s : stmt A) : st Db (result A string) :=
  let! r := exec s in st_ret (map_err (λ e, why +:+ ": " +:+ dbe_message e) r).

Definition read_rate_card (currency : string) : st Db (result RateCard string) :=
  let? rows := query "reading the rate card failed" (reading (newest_rates currency)) in
  match rows with
  | [] => st_ret (Err ("no rate card for currency " +:+ currency +:+
      " — nothing may be provisioned without a price"))
  | r :: _ => st_ret (Ok (foldl card_row {| cd_version := rr_version r;
      cd_node_minute_minor := 0; cd_gpu_minute_minor := 0; cd_egress_gb_minor := 0 |} rows))
  end.

Definition project_cost_minor (card : RateCard) (fanout_nodes transcode_nodes horizon_secs : Z)
    (fanout_increment : BillingIncrement.t) : Z :=
  let fanout_periods := BillingIncrement.round_ttl_secs fanout_increment horizon_secs
    / Z.max (u32_wrap (BillingIncrement.seconds fanout_increment)) 1 in
  let fanout_minutes_per_period := Z.max (BillingIncrement.seconds fanout_increment / 60) 1 in
  let fanout := i64_wrap (i64_wrap (i64_wrap (fanout_nodes * fanout_periods)
    * fanout_minutes_per_period) * cd_node_minute_minor card) in
  let gpu_minutes := div_ceil horizon_secs 60 in
  let gpu := i64_wrap (i64_wrap (transcode_nodes * gpu_minutes) * cd_gpu_minute_minor card) in
  i64_wrap (fanout + gpu).

Definition DEFAULT_HORIZON_SECS : Z := 3600.

Record WalletBillingSource : Type := { wb_horizon_secs : Z; wb_currency : string }.

Definition current_rate_card (self : WalletBillingSource) : st Db (result RateCard string) :=
  let? card := read_rate_card (wb_currency self) in
  if cd_node_minute_minor card <=? 0 then
    st_ret (Err ("rate card " +:+ fmt_i64 (cd_version card) +:+ " for " +:+
      wb_currency self +:+ " has no price for node_minute — every projection would be zero, which authorises an empty wallet to provision"))
  else st_ret (Ok card).

(** ** The reads both quotes share *)
Definition host_of (broadcast_id : string) : st Db (result string string) :=
  let? host := query "reading the broadcast host failed"
    (reading (λ t, sr_host_user_id <$> t_streams t !! broadcast_id)) in
  st_ret (match host with
    | Some h => Ok h
    | None => Err ("no host for broadcast " +:+ broadcast_id)
    end).

(** The wallet in the card's currency; [missing] ends the error of a missing one. *)
Definition wallet_of (host currency missing : string) : st Db (result Wallet string) :=
  let! w := get host in
  st_ret (match w with
    | Err e => Err ("reading the wallet failed: " +:+ WalletError.to_string e)
    | Ok None => Err ("no wallet for " +:+ host +:+ missing)
    | Ok (Some w) =>
        if negb (String.eqb (wl_currency w) currency) then
          Err ("wallet for " +:+ host +:+ " is in " +:+ wl_currency w +:+
            " but the rate card is in " +:+ currency +:+
            " — refusing to convert at a rate nobody agreed")
        else Ok w
    end).

(** SELECT flavor, count( * ) ... GROUP BY flavor. *)
Definition node_counts (broadcast_id : string) (t : Tables) : list (string * Z) :=
  let rows := List.filter (λ kv : string * NodeRec,
    like ("bc-" +:+ broadcast_id +:+ "-%") kv.1 && negb (String.eqb (nr_state kv.2) "gone"))
    (map_to_list (t_nodes t)) in
  (λ f, (f, Z.of_nat (length (List.filter (λ kv : string * NodeRec,
      String.eqb (nr_flavor kv.2) f) rows)))) <$>
    remove_dups ((λ kv : string * NodeRec, nr_flavor kv.2) <$> rows).

(** The loop over the counts: fan-out and edge, and transcode. *)
Definition add_count (acc : Z * Z) (c : string * Z) : Z * Z :=
  if String.eqb c.1 "fanout" || String.eqb c.1 "edge"
  then (u32_wrap (acc.1 + u32_wrap c.2), acc.2)
  else if String.eqb c.1 "transcode" then (acc.1, u32_wrap (acc.2 + u32_wrap c.2))
  else acc.

Definition count_nodes (broadcast_id : string) : st Db (result (Z * Z) string) :=
  let? counts := query "counting fleet nodes failed" (reading (node_counts broadcast_id)) in
  st_ret (Ok (foldl add_count (0, 0) counts)).

(** ** The planner's quote *)
Definition wallet_quote (self : WalletBillingSource) (broadcast_id : string) :
    st Db (result BroadcastBilling string) :=
  let? host := host_of broadcast_id in
  let? wallet := wallet_of host (wb_currency self)
    " — nothing may be provisioned on their behalf" in
  let? card := current_rate_card self in
  let? counts := count_nodes broadcast_id in
  let '(fanout, transcode) := counts in
  let fanout_for_projection := Z.max fanout 1 in
  let projected := project_cost_minor card fanout_for_projection transcode
    (wb_horizon_secs self) BillingIncrement.PerHour in
  st_ret (Ok {| bb_available_balance_minor := spendable_minor wallet;
    bb_projected_cost_minor := projected;
    bb_transcode_enabled := 0 <? spendable_minor wallet |}).

Definition wallet_billing (self : WalletBillingSource) : BillingSource Db :=
  {| quote := wallet_quote self |}.

(** ** The ladder's quote *)
Definition EGRESS_RATE_WINDOW_SECS : Z := 600.

Record RunUsage : Type := {
  ru_fanout_nodes : Z;
  ru_transcode_nodes : Z;
  ru_egress_milli_in_window : Z;
  ru_window_secs : Z
}.

Definition project_run_cost_minor (card : RateCard) (usage : RunUsage) (horizon_secs : Z)
    (fanout_increment : BillingIncrement.t) : result Z string :=
  if (0 <? ru_fanout_nodes usage) && (cd_node_minute_minor card <=? 0) then
    Err ("rate card " +:+ fmt_i64 (cd_version card) +:+ " has no node_minute price, and " +:+
      fmt_u32 (ru_fanout_nodes usage) +:+ " fan-out node(s) are running")
  else if (0 <? ru_transcode_nodes usage) && (cd_gpu_minute_minor card <=? 0) then
    Err ("rate card " +:+ fmt_i64 (cd_version card) +:+
      " has no gpu_minute price, and a transcode node is running")
  else if (0 <? ru_egress_milli_in_window usage) && (cd_egress_gb_minor card <=? 0) then
    Err ("rate card " +:+ fmt_i64 (cd_version card) +:+
      " has no egress_gb price, and the broadcast is delivering")
  else
    let nodes := project_cost_minor card (ru_fanout_nodes usage) (ru_transcode_nodes usage)
      horizon_secs fanout_increment in
    let window := Z.max (ru_window_secs usage) 1 in
    let projected_milli :=
      Z.quot (i64_sat (ru_egress_milli_in_window usage * horizon_secs)) window in
    let egress := charge_minor projected_milli (cd_egress_gb_minor card) in
    Ok (i64_sat (nodes + egress)).

Definition available_after_owed (spendable_minor owed_minor : Z) : Z :=
  i64_sat (spendable_minor - Z.max owed_minor 0).

(** [SUM(...)::BIGINT], which the server refuses when it does not fit. *)
Definition sum_bigint (l : list Z) : result Z db_error :=
  let s := sumZ l in
  if bool_decide (is_i64 s) then Ok s else Err (refused "bigint out of range").

Definition egress_window (broadcast_id : string) : stmt (Z * Z) := λ now t,
  match t_streams t !! broadcast_id with
  | None => Err (refused "no rows returned by a query that expected to return at least one row")
  | Some s =>
      let recent := List.filter (λ e, String.eqb (ue_broadcast_id e) broadcast_id &&
        String.eqb (ue_unit e) "egress_gb" &&
        (now - seconds EGRESS_RATE_WINDOW_SECS <? ue_occurred_at e)) (t_usage t) in
      match sum_bigint (ue_quantity_milli <$> recent) with
      | Err e => Err e
      | Ok milli =>
          let window := Z.max 60 (Z.min EGRESS_RATE_WINDOW_SECS
            (round_half_even (now - sr_started_at s) NANOS)) in
          Ok ((milli, window), t)
      end
  end.

(** SELECT unit, SUM(quantity_milli) ... GROUP BY unit. *)
Definition unrated_sums (user : string) : stmt (list (string * Z)) := λ _ t,
  let rows := List.filter (λ e, String.eqb (ue_user_id e) user && is_unrated e) (t_usage t) in
  let sums := (λ u, (u, sumZ (ue_quantity_milli <$>
      List.filter (λ e, String.eqb (ue_unit e) u) rows))) <$>
    remove_dups (ue_unit <$> rows) in
  if forallb (λ us : string * Z, bool_decide (is_i64 us.2)) sums then Ok (sums, t)
  else Err (refused "bigint out of range").

Definition unit_price (card : RateCard) (unit : string) : Z :=
  if String.eqb unit "egress_gb" then cd_egress_gb_minor card
  else if String.eqb unit "gpu_minute" then cd_gpu_minute_minor card
  else if String.eqb unit "node_minute" then cd_node_minute_minor card
  else 0.

Definition owed_minor (card : RateCard) (unrated : list (string * Z)) : Z :=
  foldl (λ owed um, i64_sat (owed + charge_minor um.2 (unit_price card um.1))) 0 unrated.

Record LadderBillingSource : Type := { lb_currency : string; lb_horizon_secs : Z }.

Definition ladder_quote (self : LadderBillingSource) (broadcast_id : string) :
    st Db (result BroadcastBilling string) :=
  let? host := host_of broadcast_id in
  let? wallet := wallet_of host (lb_currency self) "" in
  let? card := read_rate_card (lb_currency self) in
  let? counts := count_nodes broadcast_id in
  let? measured := query "measuring egress failed" (egress_window broadcast_id) in
  let usage := {| ru_fanout_nodes := counts.1; ru_transcode_nodes := counts.2;
    ru_egress_milli_in_window := measured.1; ru_window_secs := measured.2 |} in
  let? projected := st_ret (project_run_cost_minor card usage (lb_horizon_secs self)
    BillingIncrement.PerHour) in
  let? unrated := query "reading unrated usage failed" (unrated_sums host) in
  st_ret (Ok {| bb_available_balance_minor :=
      available_after_owed (spendable_minor wallet) (owed_minor card unrated);
    bb_projected_cost_minor := projected;
    bb_transcode_enabled := 0 <? spendable_minor wallet |}).

Definition ladder_billing (self : LadderBillingSource) : BillingSource Db :=
  {| quote := ladder_quote self |}.

(** ** Lemmas: a quote only reads *)
Definition unchanged (t t' : Tables) : Prop := t' = t.

#[export] Instance unchanged_preorder : PreOrder unchanged.
Proof. unfold unchanged. split; [done|]. intros a b c ??. congruence. Qed.

Definition reads_only {A} (s : stmt A) : Prop := stmt_rel unchanged s.

Lemma query_reads {A} why (s : stmt A) :
  reads_only s → st_rel (on_tables unchanged) (query why s).
Proof.
  intros Hs. apply st_rel_bind; [apply _| |intros; apply st_rel_ret; apply _].
  by apply st_rel_exec; [apply _|].
Qed.

Lemma reading_reads {A} (f : Tables → A) : reads_only (reading f).
Proof. by intros now t a t' [= _ <-]. Qed.

Lemma host_reads b : st_rel (on_tables unchanged) (host_of b).
Proof.
  apply st_rel_try; [apply _|apply query_reads, reading_reads|].
  intros; apply st_rel_ret; apply _.
Qed.

Lemma wallet_reads host cur missing :
  st_rel (on_tables unchanged) (wallet_of host cur missing).
Proof.
  apply st_rel_bind; [apply _| |intros; apply st_rel_ret; apply _].
  apply wallet_db_err_rel; [apply _|]. apply st_rel_exec; [apply _|]. apply reading_reads.
Qed.

Lemma card_reads cur : st_rel (on_tables unchanged) (read_rate_card cur).
Proof.
  apply st_rel_try; [apply _|apply query_reads, reading_reads|].
  intros [|]; apply st_rel_ret; apply _.
Qed.

Lemma counts_read b : st_rel (on_tables unchanged) (count_nodes b).
Proof.
  apply st_rel_try; [apply _|apply query_reads, reading_reads|].
  intros; apply st_rel_ret; apply _.
Qed.

#[export] Hint Resolve host_reads wallet_reads card_reads counts_read : mm.

Lemma wallet_quote_reads self b : st_rel (on_tables unchanged) (wallet_quote self b).
Proof.
  unfold wallet_quote, current_rate_card. st_steps.
Qed.

Lemma ladder_quote_reads self b : st_rel (on_tables unchanged) (ladder_quote self b).
Proof.
  assert (Hw : reads_only (egress_window b)).
  { intros now t a t'. unfold egress_window. destruct (t_streams t !! b); [|done].
    destruct (sum_bigint _); [by intros [= _ <-]|done]. }
  assert (Hu : ∀ u, reads_only (unrated_sums u)).
  { intros u now t a t'. unfold unrated_sums. destruct (forallb _ _); [|done].
    by intros [= _ <-]. }
  unfold ladder_quote. st_steps; by apply query_reads.
Qed.

(** ** Lemmas: what an answered quote was computed from *)
Lemma st_try_ok {S A B E} (m : st S (result A E)) (k : A → st S (result B E)) s b :
  (st_try m k s).1 = Ok b → ∃ a s', m s = (Ok a, s') ∧ (k a s').1 = Ok b.
Proof.
  unfold st_try, st_bind. destruct (m s) as [[a|e] s'] eqn:Em; simpl; [|done].
  intros Hk. by exists a, s'.
Qed.

Lemma rel_run {A} (m : st Db A) db a db' :
  st_rel (on_tables unchanged) m → m db = (a, db') → db_tables db' = db_tables db.
Proof. intros Hm He. specialize (Hm db). by rewrite He in Hm. Qed.

Lemma query_ok {A} why (f : Tables → A) db a db' :
  query why (reading f) db = (Ok a, db') → a = f (db_tables db).
Proof.
  unfold query, st_bind. pose proof (exec_reading_ok f db) as He.
  destruct (exec _ db) as [[x|e] db1]; simpl in *; [|done]. intros [= <- _]. by apply He.
Qed.

Lemma card_prices rows (P : Z → Prop) c :
  P 0 → (∀ r, r ∈ rows → P (rr_price_minor r)) →
  P (cd_node_minute_minor c) → P (cd_gpu_minute_minor c) →
  P (cd_node_minute_minor (foldl card_row c rows)) ∧
  P (cd_gpu_minute_minor (foldl card_row c rows)).
Proof.
  intros H0. revert c. induction rows as [|r rows IH]; intros c Hr Hn Hg; [done|]. simpl.
  apply IH; [intros; apply Hr; by right| |]; unfold card_row; repeat case_match; simpl;
    try done; apply Hr; left.
Qed.

Lemma read_rate_card_prices (P : Z → Prop) cur db card db' :
  P 0 → (∀ r, r ∈ t_rate_card (db_tables db) → P (rr_price_minor r)) →
  read_rate_card cur db = (Ok card, db') →
  P (cd_node_minute_minor card) ∧ P (cd_gpu_minute_minor card).
Proof.
  intros H0 Hr He.
  assert (Hok : (read_rate_card cur db).1 = Ok card) by (by rewrite He).
  apply st_try_ok in Hok as (rows & db1 & Hq & Hk). apply query_ok in Hq.
  destruct rows as [|r rows]; [done|]. simpl in Hk. injection Hk as <-.
  apply (card_prices (r :: rows)); [done| |done|done]. intros r' Hr'. apply Hr.
  rewrite Hq in Hr'. unfold newest_rates in Hr'.
  rewrite list_elem_of_In, filter_In, <- list_elem_of_In in Hr'. destruct Hr' as [Hr' _].
  rewrite list_elem_of_In, filter_In, <- list_elem_of_In in Hr'. apply Hr'.
Qed.

Lemma add_count_bound counts N acc :
  0 ≤ N ≤ u32_max → 0 ≤ acc.1 → 0 ≤ acc.2 → Forall (λ c, 0 ≤ c.2) counts →
  acc.1 + acc.2 + sumZ counts.*2 ≤ N →
  0 ≤ (foldl add_count acc counts).1 ≤ N ∧ 0 ≤ (foldl add_count acc counts).2 ≤ N.
Proof.
  intros HN. revert acc. induction counts as [|[f c] counts IH]; intros [a b] Ha Hb Hf Hs;
    csimpl in *; [lia|]. inversion_clear Hf as [|?? Hc Hf']. simpl in Hc.
  assert (Hrest : 0 ≤ sumZ counts.*2) by (by apply sumZ_nonneg, Forall_fmap).
  assert (Hstep : ∃ a' b', add_count (a, b) (f, c) = (a', b') ∧ 0 ≤ a' ∧ 0 ≤ b' ∧
    a' + b' ≤ a + b + c).
  { unfold add_count. simpl. rewrite (u32_wrap_id c) by (unfold is_u32; lia).
    destruct (_ || _); [|destruct (String.eqb f "transcode")]; do 2 eexists;
      (split; [reflexivity|]); rewrite ?u32_wrap_id by (unfold is_u32; lia); lia. }
  destruct Hstep as (a' & b' & -> & ? & ? & ?). apply IH; simpl; [done..|lia].
Qed.

(** Counting by group counts every row once. *)
Lemma group_counts {A} (f : A → string) (l : list A) (gs : list string) :
  NoDup gs →
  sumZ ((λ g, Z.of_nat (length (List.filter (λ x, String.eqb (f x) g) l))) <$> gs)
    ≤ Z.of_nat (length l).
Proof.
  intros Hnd. induction l as [|x l IH]; simpl.
  - clear Hnd. induction gs; csimpl; lia.
  - assert (Hone : sumZ ((λ g, Z.of_nat (length (if String.eqb (f x) g then
      x :: List.filter (λ x, String.eqb (f x) g) l else
      List.filter (λ x, String.eqb (f x) g) l))) <$> gs) ≤
      sumZ ((λ g, Z.of_nat (length (List.filter (λ x, String.eqb (f x) g) l))) <$> gs) + 1
      ∧ (f x ∉ gs → sumZ ((λ g, Z.of_nat (length (if String.eqb (f x) g then
      x :: List.filter (λ x, String.eqb (f x) g) l else
      List.filter (λ x, String.eqb (f x) g) l))) <$> gs) ≤
      sumZ ((λ g, Z.of_nat (length (List.filter (λ x, String.eqb (f x) g) l))) <$> gs)));
      [|destruct Hone; lia].
    clear IH. induction Hnd as [|g gs Hg Hnd IH]; csimpl; [split; [lia|intros _; lia]|].
    destruct IH as [IH1 IH2]. destruct (String.eqb_spec (f x) g) as [<-|Hne].
    + specialize (IH2 Hg). simpl. split; [lia|]. set_solver.
    + split; [lia|]. intros Hn. assert (f x ∉ gs) as Hx by set_solver. specialize (IH2 Hx). lia.
Qed.

Lemma node_counts_bound b t :
  Forall (λ c, 0 ≤ c.2) (node_counts b t) ∧
  sumZ (node_counts b t).*2 ≤ Z.of_nat (size (t_nodes t)).
Proof.
  unfold node_counts. set (rows := List.filter _ _). split.
  - apply Forall_fmap, Forall_forall. intros f _. simpl. lia.
  - rewrite <- list_fmap_compose. etrans;
      [apply (group_counts (λ kv : string * NodeRec, nr_flavor kv.2) rows), NoDup_remove_dups|].
    rewrite <- length_map_to_list. apply Nat2Z.inj_le. unfold rows.
    apply List.filter_length_le.
Qed.

Lemma count_nodes_bound b db f tr db' :
  count_nodes b db = (Ok (f, tr), db') → Z.of_nat (size (t_nodes (db_tables db))) ≤ u32_max →
  0 ≤ f ≤ Z.of_nat (size (t_nodes (db_tables db))) ∧
  0 ≤ tr ≤ Z.of_nat (size (t_nodes (db_tables db))).
Proof.
  intros He Hsz. assert (Hok : (count_nodes b db).1 = Ok (f, tr)) by (by rewrite He).
  apply st_try_ok in Hok as (counts & db1 & Hq & Hk). apply query_ok in Hq. subst counts.
  simpl in Hk. injection Hk as Hk. destruct (node_counts_bound b (db_tables db)) as [Hf Hs].
  pose proof (add_count_bound (node_counts b (db_tables db)) _ (0, 0)
    (conj (Zle_0_nat _) Hsz) ltac:(done) ltac:(done) Hf ltac:(simpl; lia)) as Hb.
  rewrite Hk in Hb. exact Hb.
Qed.

(** The projection in range, where nothing wraps: whole hours of fan-out, whole
    minutes of transcoding. *)
Lemma project_cost_in_range card f tr horizon :
  0 ≤ f ≤ 1000000 → 0 ≤ tr ≤ 1000000 → 0 ≤ horizon ≤ 86400 →
  0 ≤ cd_node_minute_minor card ≤ 1000000000 → 0 ≤ cd_gpu_minute_minor card ≤ 1000000000 →
  project_cost_minor card f tr horizon BillingIncrement.PerHour =
  f * Z.max 1 (div_ceil horizon 3600) * 60 * cd_node_minute_minor card +
  tr * div_ceil horizon 60 * cd_gpu_minute_minor card.
Proof.
  intros Hf Htr Hh Hn Hg. unfold project_cost_minor.
  assert (Hp : BillingIncrement.round_ttl_secs BillingIncrement.PerHour horizon
    / Z.max (u32_wrap (BillingIncrement.seconds BillingIncrement.PerHour)) 1
    = Z.max 1 (div_ceil horizon 3600)).
  { unfold BillingIncrement.round_ttl_secs. cbn [BillingIncrement.seconds].
    change (u32_wrap 3600) with 3600. change (Z.max 3600 1) with 3600.
    destruct (Z.eqb_spec horizon 0) as [->|Hne]; [done|].
    assert (1 ≤ div_ceil horizon 3600 ≤ 24)
      by (unfold div_ceil; split; [apply Z.div_le_lower_bound; lia|
          apply Z.lt_succ_r, Z.div_lt_upper_bound; lia]).
    rewrite u32_wrap_id by (unfold is_u32, u32_max; lia).
    rewrite Z.div_mul by lia. lia. }
  rewrite Hp. cbn [BillingIncrement.seconds]. change (Z.max (3600 / 60) 1) with 60.
  set (h := Z.max 1 (div_ceil horizon 3600)).
  assert (Hh24 : 1 ≤ h ≤ 24).
  { unfold h, div_ceil. assert ((horizon + 3600 - 1) / 3600 ≤ 24)
      by (apply Z.lt_succ_r, Z.div_lt_upper_bound; lia). lia. }
  set (m := div_ceil horizon 60).
  assert (Hm : 0 ≤ m ≤ 1440) by (unfold m, div_ceil; split;
    [apply Z.div_pos; lia|apply Z.lt_succ_r, Z.div_lt_upper_bound; lia]).
  assert (H1 : 0 ≤ f * h ≤ 24000000) by nia.
  assert (H2 : 0 ≤ f * h * 60 ≤ 1440000000) by lia.
  assert (H3 : 0 ≤ f * h * 60 * cd_node_minute_minor card ≤ 1440000000000000000) by nia.
  assert (H4 : 0 ≤ tr * m ≤ 1440000000) by nia.
  assert (H5 : 0 ≤ tr * m * cd_gpu_minute_minor card ≤ 1440000000000000000) by nia.
  repeat rewrite i64_wrap_id; unfold is_i64, i64_min, i64_max; lia.
Qed.

Lemma host_of_ok b db host db' :
  host_of b db = (Ok host, db') →
  ∃ s, t_streams (db_tables db) !! b = Some s ∧ host = sr_host_user_id s.
Proof.
  intros He. assert (Hok : (host_of b db).1 = Ok host) by (by rewrite He).
  apply st_try_ok in Hok as (h & db1 & Hq & Hk). apply query_ok in Hq. simpl in Hk.
  destruct h as [h|]; [|done]. injection Hk as <-. symmetry in Hq.
  apply fmap_Some in Hq as (s & Hs & ->). by exists s.
Qed.

Lemma wallet_of_ok host cur missing db w db' :
  wallet_of host cur missing db = (Ok w, db') →
  ∃ wr, t_wallets (db_tables db) !! host = Some wr ∧ wr_currency wr = cur ∧
    spendable_minor w = i64_wrap (wr_balance_minor wr + wr_credit_limit_minor wr).
Proof.
  unfold wallet_of, get, wallet_db_err, st_bind.
  pose proof (exec_reading_ok (wallet_row host) db) as He.
  destruct (exec _ db) as [[x|e] db1]; simpl in *; [|done]. specialize (He x eq_refl).
  intros Hw. destruct x as [x|]; [|done]. destruct (String.eqb_spec (wl_currency x) cur);
    [|done]. simpl in Hw. injection Hw as <- _. symmetry in He. unfold wallet_row in He.
  apply fmap_Some in He as (wr & Hwr & ->). by exists wr.
Qed.

Lemma current_rate_card_ok (P : Z → Prop) self db card db' :
  P 0 → (∀ r, r ∈ t_rate_card (db_tables db) → P (rr_price_minor r)) →
  current_rate_card self db = (Ok card, db') →
  db_tables db' = db_tables db ∧ 0 < cd_node_minute_minor card ∧
  P (cd_node_minute_minor card) ∧ P (cd_gpu_minute_minor card).
Proof.
  intros H0 Hr. unfold current_rate_card, st_try, st_bind.
  destruct (read_rate_card (wb_currency self) db) as [[c|e] db1] eqn:Ec; simpl; [|done].
  destruct (Z.leb_spec (cd_node_minute_minor c) 0); simpl; [done|]. intros [= <- <-].
  split; [by eapply rel_run, Ec; apply card_reads|]. split; [done|].
  by eapply read_rate_card_prices.
Qed.

(** The planner is never quoted a free broadcast: whenever the wallet source
    answers, the balance is the spendable amount of the host's own wallet, and the
    projection is at least one minor unit for every minute of every started hour. *)
Theorem wallet_quote_never_free (self : WalletBillingSource) (b : string) (db : Db)
    (q : BroadcastBilling) :
  let t := db_tables db in
  (∀ r, r ∈ t_rate_card t → 0 ≤ rr_price_minor r ≤ 1000000000) →
  Z.of_nat (size (t_nodes t)) ≤ 1000000 → 0 ≤ wb_horizon_secs self ≤ 86400 →
  (wallet_quote self b db).1 = Ok q →
  (∃ s w, t_streams t !! b = Some s ∧ t_wallets t !! sr_host_user_id s = Some w ∧
    wr_currency w = wb_currency self ∧
    bb_available_balance_minor q = i64_wrap (wr_balance_minor w + wr_credit_limit_minor w)) ∧
  60 * Z.max 1 (div_ceil (wb_horizon_secs self) 3600) ≤ bb_projected_cost_minor q.
Proof.
  intros t Hprices Hnodes Hh Hok. unfold wallet_quote in Hok.
  apply st_try_ok in Hok as (host & db1 & Hhost & Hok).
  assert (H1 := rel_run _ _ _ _ (host_reads b) Hhost).
  apply st_try_ok in Hok as (w & db2 & Hw & Hok).
  assert (H2 := rel_run _ _ _ _ (wallet_reads _ _ _) Hw).
  apply st_try_ok in Hok as (card & db3 & Hc & Hok).
  apply st_try_ok in Hok as ([f tr] & db4 & Hn & Hok).
  destruct (host_of_ok b db host db1 Hhost) as (s & Hs & Hhid).
  destruct (wallet_of_ok _ _ _ _ _ _ Hw) as (wr & Hwr & Hcur & Hspend).
  destruct (current_rate_card_ok (λ p, 0 ≤ p ≤ 1000000000) self db2 card db3)
    as (H3 & Hpos & Hpn & Hpg); [lia|by rewrite H2, H1|done|].
  destruct (count_nodes_bound b db3 f tr db4 Hn) as [Hf Htr];
    [rewrite H3, H2, H1; unfold u32_max; fold t; lia|].
  rewrite H3, H2, H1 in Hf, Htr. fold t in Hf, Htr.
  simpl in Hok. injection Hok as <-. simpl. split.
  - exists s, wr. rewrite H1 in Hwr. subst host. rewrite Hspend. done.
  - rewrite project_cost_in_range by lia.
    assert (Hm : 0 ≤ div_ceil (wb_horizon_secs self) 60) by (apply Z.div_pos; lia).
    assert (Hgpu : 0 ≤ tr * div_ceil (wb_horizon_secs self) 60 * cd_gpu_minute_minor card)
      by (repeat apply Z.mul_nonneg_nonneg; lia).
    set (H := Z.max 1 _). assert (1 ≤ H) by lia.
    assert (HF : H ≤ Z.max f 1 * H) by nia.
    assert (HP : Z.max f 1 * H ≤ Z.max f 1 * H * cd_node_minute_minor card) by nia. lia.
Qed.

Definition demo_quote_tables : Tables := {|
  t_generation := 1; t_desired := ∅;
  t_nodes := {[ "bc-b1-fanout-0" := {| nr_flavor := "fanout"; nr_ownership := "rented";
    nr_state := "healthy"; nr_provider_id := None; nr_viewer_capacity := None;
    nr_viewers_current := 0; nr_billing_started_at := None; nr_destroy_deadline := None |} ]};
  t_wallets := {[ "alice" := {| wr_currency := "eur"; wr_balance_minor := 500;
    wr_credit_limit_minor := 100; wr_updated_at := 0; wr_rating_blocked_at := None |} ]};
  t_transactions := []; t_tx_seq := 1;
  t_rate_card := [{| rr_version := 1; rr_currency := "eur"; rr_unit := "node_minute";
    rr_price_minor := 3 |}];
  t_usage := []; t_usage_seq := 1; t_baseline := ∅; t_demotion := ∅;
  t_demotion_events := [];
  t_streams := {[ "b1" := stream_row "alice" "active" 0 ]};
  t_api := ApiSchema.no_api |}.

Lemma wallet_quote_never_free_witness :
  60 * Z.max 1 (div_ceil 3600 3600) ≤ 180 ∧
  (wallet_quote {| wb_horizon_secs := 3600; wb_currency := "eur" |} "b1"
    (healthy demo_quote_tables 0)).1
  = Ok {| bb_available_balance_minor := 600; bb_projected_cost_minor := 180;
          bb_transcode_enabled := true |}.
Proof.
  split; [|vm_compute; reflexivity].
  apply (wallet_quote_never_free {| wb_horizon_secs := 3600; wb_currency := "eur" |} "b1"
    (healthy demo_quote_tables 0) {| bb_available_balance_minor := 600;
      bb_projected_cost_minor := 180; bb_transcode_enabled := true |}).
  - intros r Hr. apply list_elem_of_singleton in Hr. subst r. simpl. lia.
  - vm_compute. discriminate.
  - simpl. lia.
  - vm_compute. reflexivity.
Defined.
