(* ===== verification/LadderDb.v ===== *)
(** * LadderDb: the memory of the demotion ladder

    [mm-db/src/ladder_db.rs] on V037: one mutable row per broadcast with the targeted
    and the applied rung, and the append-only audit trail. *)
From S2P Require Import Prelude Schema.
Local Open Scope Z_scope.
Local Open Scope mm_scope.

Record DemotionState : Type := {
  ds_broadcast_id : string;
  ds_target_step : string;
  ds_applied_step : string;
  ds_entered_at : DateTime;
  ds_milder_streak : Z
}.

Record LiveBroadcast : Type := { lv_broadcast_id : string; lv_user_id : string }.

Module EventKind.
Inductive t : Type := Decision | Applied.

#[global] Instance t_eq_dec : EqDecision t.
Proof. solve_decision. Defined.

Definition as_str (k : t) : string :=
  match k with Decision => "decision" | Applied => "applied" end.
End EventKind.

Record DemotionEvent : Type := {
  dv_kind : EventKind.t;
  dv_from_step : string;
  dv_to_step : string;
  dv_statement : string
}.

Record Evaluation : Type := {
  ev_broadcast_id : string;
  ev_user_id : string;
  ev_target_step : string;
  ev_applied_step : string;
  ev_target_changed : bool;
  ev_milder_streak : Z;
  ev_balance_minor : Z;
  ev_projected_cost_minor : Z;
  ev_events : list DemotionEvent
}.

Definition ladder_db_error (e : db_error) : string := "ladder db: " +:+ dbe_message e.

Definition ladder_db {A} (m : st Db (result A db_error)) : st Db (result A string) :=
  let! r := m in st_ret (map_err ladder_db_error r).

(** ** Statements *)
Definition steps : list string :=
  ["healthy"; "stop_provisioning"; "reduce_quality"; "drain_to_origin"; "end_with_slate";
   "overrun"].

Definition is_active (s : StreamRec) : bool := String.eqb (sr_status s) "active".

(** [id > after], or no bound. *)
Definition follows (after : option string) (id : string) : bool :=
  match after with
  | None => true
  | Some a => negb (bool_decide (String.le id a))
  end.

Definition live_page (after : option string) (n : Z) (t : Tables) : list LiveBroadcast :=
  limit n (order_by lv_broadcast_id
    ((λ kv : string * StreamRec,
        {| lv_broadcast_id := kv.1; lv_user_id := sr_host_user_id kv.2 |}) <$>
      List.filter (λ kv, is_active kv.2 && follows after kv.1) (map_to_list (t_streams t)))).

Definition demotion_state (broadcast_id : string) (t : Tables) : option DemotionState :=
  (λ d, {| ds_broadcast_id := broadcast_id; ds_target_step := dm_target_step d;
    ds_applied_step := dm_applied_step d; ds_entered_at := dm_entered_at d;
    ds_milder_streak := dm_milder_streak d |}) <$> t_demotion t !! broadcast_id.

Definition upsert_demotion (e : Evaluation) (now : DateTime) : stmt unit := λ _ t,
  if negb (bool_decide (ev_target_step e ∈ steps))
  then Err (violates "mm_broadcast_demotion_target_step_check")
  else if negb (bool_decide (ev_applied_step e ∈ steps))
  then Err (violates "mm_broadcast_demotion_applied_step_check")
  else if ev_milder_streak e <? 0
  then Err (violates "mm_broadcast_demotion_milder_streak_check")
  else
    let entered_at :=
      match t_demotion t !! ev_broadcast_id e with
      | None => now
      | Some d => if ev_target_changed e then now else dm_entered_at d
      end in
    Ok ((), set_demotion (<[ev_broadcast_id e := {|
        dm_target_step := ev_target_step e; dm_applied_step := ev_applied_step e;
        dm_entered_at := entered_at; dm_evaluated_at := now;
        dm_balance_minor := ev_balance_minor e;
        dm_projected_cost_minor := ev_projected_cost_minor e;
        dm_milder_streak := ev_milder_streak e |}]> (t_demotion t))
      (t_demotion_events t) t).

Definition insert_demotion_event (e : Evaluation) (now : DateTime) (ev : DemotionEvent) :
    stmt unit := λ _ t,
  if is_empty_str (dv_statement ev) then Err (violates "mm_demotion_events_statement_check")
  else Ok ((), set_demotion (t_demotion t) (t_demotion_events t ++ [{|
    de_broadcast_id := ev_broadcast_id e; de_user_id := ev_user_id e;
    de_from_step := dv_from_step ev; de_to_step := dv_to_step ev;
    de_balance_minor := ev_balance_minor e;
    de_projected_cost_minor := ev_projected_cost_minor e;
    de_statement := dv_statement ev; de_kind := EventKind.as_str (dv_kind ev);
    de_delivered_at := None; de_occurred_at := now |}]) t).

(** ** Operations *)
Definition live_broadcasts_after (after : option string) (n : Z) :
    st Db (result (list LiveBroadcast) string) :=
  ladder_db (exec (reading (live_page after n))).

Definition state (broadcast_id : string) : st Db (result (option DemotionState) string) :=
  ladder_db (exec (reading (demotion_state broadcast_id))).

Definition record (e : Evaluation) (now : DateTime) : st Db (result unit string) :=
  in_tx ladder_db_error (
    let? _ := ladder_db (exec_tx (upsert_demotion e now)) in
    st_try_each (λ ev, ladder_db (exec_tx (insert_demotion_event e now ev))) (ev_events e)).

(** Demotion rows joined to the streams that are active. *)
Definition live_demotions (t : Tables) : list DemotionRec :=
  omap (λ kv : string * DemotionRec,
    match t_streams t !! kv.1 with
    | Some s => if is_active s then Some kv.2 else None
    | None => None
    end) (map_to_list (t_demotion t)).

Definition step_counts (which : string) (step : DemotionRec → string) (t : Tables) :
    list (string * string * Z) :=
  (λ s, (which, s, Z.of_nat (length (List.filter (λ d, String.eqb (step d) s)
    (live_demotions t))))) <$> remove_dups (step <$> live_demotions t).

Definition live_step_counts : st Db (result (list (string * string * Z)) string) :=
  ladder_db (exec (reading (λ t,
    step_counts "target" dm_target_step t ++ step_counts "applied" dm_applied_step t))).

Definition undelivered_statements : st Db (result Z string) :=
  ladder_db (exec (reading (λ t, Z.of_nat (length (List.filter
    (λ e, bool_decide (de_delivered_at e = None) && String.eqb (de_kind e) "applied")
    (t_demotion_events t)))))).
