(* ===== verification/LadderLoop.v ===== *)
(** * LadderLoop: acting on the demotion ladder

    [mm-fleet/src/ladder_loop.rs]. A tick walks the live broadcasts page by page,
    computes the rung each balance calls for, reconciles the applied rung with it as
    far as the mode allows, and records the evaluation with its statements. The
    actuator is a class over the state its effects live in. *)
From S2P Require Import Prelude F64 FleetTypes Billing Planner Ladder Schema Provider.
From S2P Require Import DesiredStore Sweeper Tfvars Runner LadderDb.
Local Open Scope Z_scope.
Local Open Scope mm_scope.

Class LadderActuator (S : Type) : Type := {
  stop_recording : string → st S (result unit string);
  drain_to_origin : string → st S (result unit string);
  end_with_slate : string → string → st S (result unit string)
}.

(** The implementation that only records what it was asked to do. *)
Definition record_call {D : Type} (what : string) : st (D * list string) (result unit string) :=
  λ s, (Ok (), (s.1, s.2 ++ [what])).

#[export] Instance RecordingActuator {D : Type} : LadderActuator (D * list string) := {|
  stop_recording := λ b, record_call ("stop_recording:" +:+ b);
  drain_to_origin := λ b, record_call ("drain_to_origin:" +:+ b);
  end_with_slate := λ b _, record_call ("end_with_slate:" +:+ b)
|}.

Record LadderReport : Type := {
  lr_evaluated : Z;
  lr_moved : list (string * DemotionStep.t * DemotionStep.t);
  lr_applied : list (string * DemotionStep.t * DemotionStep.t);
  lr_withheld : list (string * DemotionStep.t);
  lr_unpriceable : list (string * string);
  lr_actuation_failures : list (string * string)
}.

Definition empty_ladder_report : LadderReport := {|
  lr_evaluated := 0; lr_moved := []; lr_applied := []; lr_withheld := [];
  lr_unpriceable := []; lr_actuation_failures := [] |}.
Definition count_evaluated (r : LadderReport) : LadderReport := {|
  lr_evaluated := lr_evaluated r + 1; lr_moved := lr_moved r; lr_applied := lr_applied r;
  lr_withheld := lr_withheld r; lr_unpriceable := lr_unpriceable r;
  lr_actuation_failures := lr_actuation_failures r |}.
Definition push_moved (m : string * DemotionStep.t * DemotionStep.t) (r : LadderReport) :
    LadderReport := {|
  lr_evaluated := lr_evaluated r; lr_moved := lr_moved r ++ [m]; lr_applied := lr_applied r;
  lr_withheld := lr_withheld r; lr_unpriceable := lr_unpriceable r;
  lr_actuation_failures := lr_actuation_failures r |}.
Definition push_applied (m : string * DemotionStep.t * DemotionStep.t) (r : LadderReport) :
    LadderReport := {|
  lr_evaluated := lr_evaluated r; lr_moved := lr_moved r; lr_applied := lr_applied r ++ [m];
  lr_withheld := lr_withheld r; lr_unpriceable := lr_unpriceable r;
  lr_actuation_failures := lr_actuation_failures r |}.
Definition push_withheld (m : string * DemotionStep.t) (r : LadderReport) :
    LadderReport := {|
  lr_evaluated := lr_evaluated r; lr_moved := lr_moved r; lr_applied := lr_applied r;
  lr_withheld := lr_withheld r ++ [m]; lr_unpriceable := lr_unpriceable r;
  lr_actuation_failures := lr_actuation_failures r |}.
Definition push_unpriceable (id why : string) (r : LadderReport) : LadderReport := {|
  lr_evaluated := lr_evaluated r; lr_moved := lr_moved r; lr_applied := lr_applied r;
  lr_withheld := lr_withheld r; lr_unpriceable := lr_unpriceable r ++ [(id, why)];
  lr_actuation_failures := lr_actuation_failures r |}.
Definition push_failure (id why : string) (r : LadderReport) : LadderReport := {|
  lr_evaluated := lr_evaluated r; lr_moved := lr_moved r; lr_applied := lr_applied r;
  lr_withheld := lr_withheld r; lr_unpriceable := lr_unpriceable r;
  lr_actuation_failures := lr_actuation_failures r ++ [(id, why)] |}.

Definition statement_for (step : DemotionStep.t) (balance_minor projected_minor : Z) :
    string :=
  let money := "Your balance is " +:+ fmt_i64 balance_minor +:+
    " and the cost projected for the rest of this broadcast is " +:+
    fmt_i64 projected_minor +:+ " (in minor currency units)." in
  let action :=
    match step with
    | DemotionStep.Healthy =>
        "Your balance covers the projected cost, and the restrictions on this broadcast have been lifted. If recording was stopped, it does not restart on its own: start it again to resume recording."
    | DemotionStep.StopProvisioning =>
        "No additional streaming capacity will be added for this broadcast. Nothing changes for viewers who are already watching. Adding funds restores normal service."
    | DemotionStep.ReduceQuality =>
        "Recording has been stopped and streaming quality has been reduced for this broadcast. Viewers can still watch. Adding funds restores normal service."
    | DemotionStep.DrainToOrigin =>
        "Viewers are being moved back to the main server, which may briefly interrupt their playback and may reduce capacity for large audiences. The broadcast continues. Adding funds restores normal service."
    | DemotionStep.EndWithSlate =>
        "This broadcast has been ended because the balance available for it has run out. Viewers were shown a notice rather than losing the stream without explanation."
    | DemotionStep.Overrun =>
        "This broadcast has ended with an outstanding balance. No further service is affected; the amount remains payable."
    end in
  action +:+ " " +:+ money.

Definition parse_step (raw : string) : option DemotionStep.t := DemotionStep.parse raw.

(** [a > b] on the derived order. *)
Definition harsher (a b : DemotionStep.t) : bool :=
  DemotionStep.rank b <? DemotionStep.rank a.

(** [errors.join("; ")]. *)
Fixpoint join_errors (l : list string) : string :=
  match l with
  | [] => ""
  | [e] => e
  | e :: rest => e +:+ "; " +:+ join_errors rest
  end.

Record Actuation : Type := {
  ac_reached : DemotionStep.t;
  ac_blocked : bool;
  ac_errors : list string
}.

Section loop.
Context {A : Type} `{BillingSource Db} `{LadderActuator (Db * A)}.

(** The effect of one rung. *)
Definition rung_effect (rung : DemotionStep.t) (broadcast_id statement : string) :
    st (Db * A) (result unit string) :=
  match rung with
  | DemotionStep.Healthy | DemotionStep.StopProvisioning | DemotionStep.Overrun =>
      st_ret (Ok ())
  | DemotionStep.ReduceQuality => stop_recording broadcast_id
  | DemotionStep.DrainToOrigin => drain_to_origin broadcast_id
  | DemotionStep.EndWithSlate => end_with_slate broadcast_id statement
  end.

(** The loop over the rungs, which a failure leaves unless the target is the ending. *)
Fixpoint actuate_rungs (ending : bool) (rungs : list DemotionStep.t)
    (broadcast_id statement : string) (a : Actuation) : st (Db * A) Actuation :=
  match rungs with
  | [] => st_ret a
  | rung :: rest =>
      let! result := rung_effect rung broadcast_id statement in
      match result with
      | Ok _ =>
          let a :=
            if negb (ac_blocked a) || bool_decide (rung = DemotionStep.EndWithSlate)
            then {| ac_reached := rung; ac_blocked := ac_blocked a;
                    ac_errors := ac_errors a |}
            else a in
          actuate_rungs ending rest broadcast_id statement a
      | Err e =>
          let a := {| ac_reached := ac_reached a; ac_blocked := true;
            ac_errors := ac_errors a ++ [DemotionStep.as_str rung +:+ ": " +:+ e] |} in
          if ending then actuate_rungs ending rest broadcast_id statement a else st_ret a
      end
  end.

Definition actuate (from to : DemotionStep.t) (broadcast_id statement : string) :
    st (Db * A) (DemotionStep.t * option string) :=
  let ending := bool_decide (to = DemotionStep.EndWithSlate) in
  let rungs := List.filter (λ r, harsher r from && negb (harsher r to)) DemotionStep.ALL in
  let! a := actuate_rungs ending rungs broadcast_id statement
    {| ac_reached := from; ac_blocked := false; ac_errors := [] |} in
  st_ret (if bool_decide (ac_reached a = DemotionStep.EndWithSlate) then (ac_reached a, None)
          else (ac_reached a,
                match ac_errors a with [] => None | es => Some (join_errors es) end)).

(** What reconciling the applied rung with the target does. *)
Record Reconciled : Type := {
  rn_applied : DemotionStep.t;
  rn_events : list DemotionEvent;
  rn_report : LadderReport
}.

Definition reconcile (mode : LadderMode.t) (id : string) (q : BroadcastBilling)
    (target applied_before : DemotionStep.t) (events : list DemotionEvent)
    (report : LadderReport) : st (Db * A) Reconciled :=
  let statement_of := λ s, statement_for s (bb_available_balance_minor q)
    (bb_projected_cost_minor q) in
  let want := LadderMode.cap mode target in
  if harsher want applied_before then
    let statement := statement_of want in
    let! r := actuate applied_before want id statement in
    let '(reached, failure) := r in
    let '(applied, events) :=
      if harsher reached applied_before then
        (reached, events ++ [{| dv_kind := EventKind.Applied;
           dv_from_step := DemotionStep.as_str applied_before;
           dv_to_step := DemotionStep.as_str reached;
           dv_statement := if bool_decide (reached = want) then statement
                           else statement_of reached |}])
      else (applied_before, events) in
    st_ret {| rn_applied := applied; rn_events := events;
      rn_report := match failure with Some e => push_failure id e report | None => report end |}
  else if harsher applied_before target then
    st_ret {| rn_applied := target;
      rn_events := events ++ [{| dv_kind := EventKind.Applied;
        dv_from_step := DemotionStep.as_str applied_before;
        dv_to_step := DemotionStep.as_str target; dv_statement := statement_of target |}];
      rn_report := report |}
  else st_ret {| rn_applied := applied_before; rn_events := events; rn_report := report |}.

(** The recording stop is kept in force while the rung forbids recording. *)
Definition keep_recording_stopped (id : string) (applied_before applied : DemotionStep.t)
    (report : LadderReport) : st (Db * A) LadderReport :=
  if negb (DemotionStep.allows_recording applied_before) &&
     negb (DemotionStep.allows_recording applied) &&
     DemotionStep.programme_continues applied
  then
    let! r := stop_recording id in
    st_ret (match r with
      | Ok _ => report
      | Err e => push_failure id ("keeping the recording stopped failed: " +:+ e) report
      end)
  else st_ret report.

Definition persisted_step (f : DemotionState → string) (p : option DemotionState) :
    DemotionStep.t :=
  default DemotionStep.Healthy (s ← p; parse_step (f s)).

Definition evaluate_one (mode : LadderMode.t) (policy : LadderPolicy) (now : DateTime)
    (report : LadderReport) (bc : LiveBroadcast) : st (Db * A) LadderReport :=
  let id := lv_broadcast_id bc in
  let! quoted := st_fst (quote id) in
  match quoted with
  | Err e => st_ret (push_unpriceable id e report)
  | Ok q =>
      let! read := st_fst (state id) in
      match read with
      | Err e => st_ret (push_unpriceable id ("reading the rung failed: " +:+ e) report)
      | Ok persisted =>
          let target_before := persisted_step ds_target_step persisted in
          let applied_before := persisted_step ds_applied_step persisted in
          let streak :=
            match persisted with
            | Some s => Z.max (ds_milder_streak s) 0
            | None => 0
            end in
          let computed := demotion_step {|
            lo_balance_minor := bb_available_balance_minor q;
            lo_projected_cost_remaining_minor := bb_projected_cost_minor q;
            lo_programme_is_live := true |} policy in
          let programme_ended := DemotionStep.is_terminal applied_before in
          let transition := next_step target_before computed streak programme_ended policy in
          let target := lt_step transition in
          let want := LadderMode.cap mode target in
          let '(events, report) :=
            if lt_moved transition then
              ([{| dv_kind := EventKind.Decision;
                   dv_from_step := DemotionStep.as_str target_before;
                   dv_to_step := DemotionStep.as_str target;
                   dv_statement := statement_for target (bb_available_balance_minor q)
                     (bb_projected_cost_minor q) |}],
               push_moved (id, target_before, target) report)
            else ([], report) in
          let! r := reconcile mode id q target applied_before events report in
          let applied := rn_applied r in
          let! report := keep_recording_stopped id applied_before applied (rn_report r) in
          let report :=
            if bool_decide (applied ≠ applied_before)
            then push_applied (id, applied_before, applied) report else report in
          let report :=
            if harsher target want && bool_decide (mode ≠ LadderMode.Observe)
            then push_withheld (id, target) report else report in
          let! written := st_fst (record {|
            ev_broadcast_id := id; ev_user_id := lv_user_id bc;
            ev_target_step := DemotionStep.as_str target;
            ev_applied_step := DemotionStep.as_str applied;
            ev_target_changed := lt_moved transition;
            ev_milder_streak := i32_wrap (lt_milder_streak transition);
            ev_balance_minor := bb_available_balance_minor q;
            ev_projected_cost_minor := bb_projected_cost_minor q;
            ev_events := rn_events r |} now) in
          st_ret (match written with
            | Ok _ => report
            | Err e => push_failure id ("recording the evaluation failed: " +:+ e) report
            end)
      end
  end.

(** The walk over the pages; [None] only when the fuel runs out. *)
Fixpoint page_walk (fuel : nat) (mode : LadderMode.t) (policy : LadderPolicy)
    (page_size now : Z) (after : option string) (report : LadderReport) :
    st (Db * A) (option (result LadderReport string)) :=
  match fuel with
  | O => st_ret None
  | S fuel' =>
      let! page := st_fst (live_broadcasts_after after (Z.max page_size 1)) in
      match page with
      | Err e => st_ret (Some (Err ("listing live broadcasts failed: " +:+ e)))
      | Ok page =>
          match last page with
          | None => st_ret (Some (Ok report))
          | Some l =>
              let! report := st_fold (λ report bc,
                evaluate_one mode policy now (count_evaluated report) bc) page report in
              page_walk fuel' mode policy page_size now (Some (lv_broadcast_id l)) report
          end
      end
  end.

(** Every page but the last consumes a broadcast that was live when the tick began. *)
Definition ladder_tick (mode : LadderMode.t) (policy : LadderPolicy) (page_size now : Z) :
    st (Db * A) (option (result LadderReport string)) := λ w,
  page_walk (S (size (t_streams (db_tables w.1)))) mode policy page_size now None
    empty_ladder_report w.
End loop.

(** ** What the loop relies on *)

(** A quote reads; an effect may end a broadcast, never starts one, and leaves the
    ladder's own tables alone. *)
Definition active_in (t : Tables) (id host : string) : Prop :=
  ∃ s, t_streams t !! id = Some s ∧ is_active s = true ∧ sr_host_user_id s = host.

Record effect_ok (t t' : Tables) : Prop := {
  ef_demotion : t_demotion t' = t_demotion t;
  ef_events : t_demotion_events t' = t_demotion_events t;
  ef_streams id host : active_in t' id host → active_in t id host
}.

#[export] Instance effect_ok_preorder : PreOrder effect_ok.
Proof.
  split; [by constructor|]. intros a b c [H1 H2 H3] [H4 H5 H6].
  constructor; [congruence..|]. auto.
Qed.

Class LadderLaws (A : Type) `{!BillingSource Db} `{!LadderActuator (Db * A)} : Prop := {
  quote_reads id db : db_tables (quote id db).2 = db_tables db;
  stop_recording_effect id (w : Db * A) :
    effect_ok (db_tables w.1) (db_tables (stop_recording id w).2.1);
  drain_effect id (w : Db * A) :
    effect_ok (db_tables w.1) (db_tables (drain_to_origin id w).2.1);
  end_effect id statement (w : Db * A) :
    effect_ok (db_tables w.1) (db_tables (end_with_slate id statement w).2.1)
}.

(** The rung in force for a broadcast, as the loop reads it. *)
Definition in_force (b : string) (t : Tables) : DemotionStep.t :=
  persisted_step ds_applied_step (demotion_state b t).

(** ** The audit trail *)
Definition trail (k : EventKind.t) (b : string) (t : Tables) : list DemotionEventRec :=
  List.filter (λ e, String.eqb (de_broadcast_id e) b &&
    String.eqb (de_kind e) (EventKind.as_str k)) (t_demotion_events t).

(** Each event starts where the previous one ended; the rung after the last. *)
Fixpoint chain_end (from : string) (l : list DemotionEventRec) : option string :=
  match l with
  | [] => Some from
  | e :: rest =>
      if String.eqb (de_from_step e) from then chain_end (de_to_step e) rest else None
  end.

Definition current_rung (f : DemotionRec → string) (b : string) (t : Tables) : string :=
  match t_demotion t !! b with
  | Some d => f d
  | None => DemotionStep.as_str DemotionStep.Healthy
  end.

Definition states_reasons (e : DemotionEventRec) : Prop :=
  ∃ s, de_to_step e = DemotionStep.as_str s ∧
    de_statement e = statement_for s (de_balance_minor e) (de_projected_cost_minor e).

(** The trail of a broadcast leads from no restriction to the rung on record, for
    what was decided and for what was applied, each step with its reasons. *)
Record audit_ok (t : Tables) : Prop := {
  au_applied b : chain_end "healthy" (trail EventKind.Applied b t)
    = Some (current_rung dm_applied_step b t);
  au_target b : chain_end "healthy" (trail EventKind.Decision b t)
    = Some (current_rung dm_target_step b t);
  au_rungs b d : t_demotion t !! b = Some d →
    is_Some (parse_step (dm_target_step d)) ∧ is_Some (parse_step (dm_applied_step d));
  au_reasons : Forall states_reasons (t_demotion_events t)
}.

(** ** Lemmas: recording *)
Lemma ladder_db_run {B} (m : st Db (result B db_error)) db :
  ladder_db m db = (map_err ladder_db_error (m db).1, (m db).2).
Proof. unfold ladder_db, st_bind, st_ret. by destruct (m db). Qed.

Definition event_row (e : Evaluation) (now : DateTime) (ev : DemotionEvent) :
    DemotionEventRec := {|
  de_broadcast_id := ev_broadcast_id e; de_user_id := ev_user_id e;
  de_from_step := dv_from_step ev; de_to_step := dv_to_step ev;
  de_balance_minor := ev_balance_minor e;
  de_projected_cost_minor := ev_projected_cost_minor e;
  de_statement := dv_statement ev; de_kind := EventKind.as_str (dv_kind ev);
  de_delivered_at := None; de_occurred_at := now |}.

Lemma insert_events_ok e now evs db u db' :
  st_try_each (λ ev, ladder_db (exec_tx (insert_demotion_event e now ev))) evs db
    = (Ok u, db') →
  t_demotion (db_tables db') = t_demotion (db_tables db) ∧
  t_streams (db_tables db') = t_streams (db_tables db) ∧
  t_demotion_events (db_tables db') =
    t_demotion_events (db_tables db) ++ (event_row e now <$> evs).
Proof.
  revert db. induction evs as [|ev evs IH]; intros db; simpl.
  { intros [= _ <-]. by rewrite app_nil_r. }
  unfold st_try, st_bind. rewrite ladder_db_run.
  pose proof (exec_tx_ok (insert_demotion_event e now ev) db) as Hok.
  destruct (exec_tx _ db) as [[x|er] db1]; simpl in *; [|done].
  specialize (Hok x eq_refl). unfold insert_demotion_event in Hok.
  destruct (is_empty_str _); [done|]. injection Hok as _ Ht.
  intros Hrun. apply IH in Hrun as (H1 & H2 & H3). rewrite H1, H2, H3, <- Ht. simpl.
  by rewrite <- app_assoc.
Qed.

(** Recording an evaluation happens as a whole or not at all. *)
Lemma record_cases e now db :
  let t := db_tables db in
  let t' := db_tables (record e now db).2 in
  t' = t ∨
  (∃ d, dm_target_step d = ev_target_step e ∧ dm_applied_step d = ev_applied_step e ∧
    t_demotion t' = <[ev_broadcast_id e := d]> (t_demotion t) ∧
    t_streams t' = t_streams t ∧
    t_demotion_events t' = t_demotion_events t ++ (event_row e now <$> ev_events e)).
Proof.
  cbv zeta. unfold record.
  match goal with |- context [in_tx ?f ?body db] =>
    destruct (in_tx_atomic f body db) as [?|(db1 & db2 & a & Ht & Hb & Htx)] end;
    [by left|right]. rewrite Htx, <- Ht. revert Hb.
  unfold st_try, st_bind. rewrite ladder_db_run.
  pose proof (exec_tx_ok (upsert_demotion e now) db1) as Hok.
  destruct (exec_tx _ db1) as [[x|er] db3]; simpl in *; [|done].
  specialize (Hok x eq_refl). intros Hev. apply insert_events_ok in Hev as (H1 & H2 & H3).
  unfold upsert_demotion in Hok. repeat case_match; try done;
    injection Hok as _ Hok; rewrite H1, H2, H3, <- Hok; simpl; eexists;
    (split; [|split; [|done]]); done.
Qed.

Lemma chain_end_app from l1 l2 m :
  chain_end from l1 = Some m → chain_end from (l1 ++ l2) = chain_end m l2.
Proof.
  revert from. induction l1 as [|e l1 IH]; intros from; simpl; [by intros [= ->]|].
  destruct (String.eqb _ from); [apply IH|done].
Qed.

(** The events of an evaluation, of one kind. *)
Definition of_kind (k : EventKind.t) (evs : list DemotionEvent) : list DemotionEvent :=
  List.filter (λ ev, bool_decide (dv_kind ev = k)) evs.

(** The new events of a kind lead from the rung on record to the new one. *)
Definition advances (k : EventKind.t) (from to : string) (evs : list DemotionEvent) : Prop :=
  (of_kind k evs = [] ∧ to = from) ∨
  (∃ ev, of_kind k evs = [ev] ∧ dv_from_step ev = from ∧ dv_to_step ev = to).

Lemma trail_app k b t e now l t' :
  t_demotion_events t' = t_demotion_events t ++ (event_row e now <$> l) →
  trail k b t' = trail k b t ++
    (if String.eqb (ev_broadcast_id e) b then event_row e now <$> of_kind k l else []).
Proof.
  intros Ht. unfold trail. rewrite Ht, List.filter_app. f_equal. clear Ht.
  induction l as [|ev l IH]; csimpl; [by destruct (String.eqb _ b)|]. rewrite IH.
  destruct (String.eqb (ev_broadcast_id e) b); simpl; [|done]. unfold of_kind. simpl.
  destruct ev as [[] ? ? ?], k; done.
Qed.

Lemma chain_advances k f b t t' e now from to :
  t_demotion_events t' = t_demotion_events t ++ (event_row e now <$> ev_events e) →
  (∀ b', b' ≠ ev_broadcast_id e → current_rung f b' t' = current_rung f b' t) →
  current_rung f (ev_broadcast_id e) t = from → current_rung f (ev_broadcast_id e) t' = to →
  advances k from to (ev_events e) →
  chain_end "healthy" (trail k b t) = Some (current_rung f b t) →
  chain_end "healthy" (trail k b t') = Some (current_rung f b t').
Proof.
  intros Ht Hother Hfrom Hto Hadv Hc. rewrite (trail_app k b t e now _ t' Ht).
  rewrite (chain_end_app _ _ _ _ Hc).
  destruct (String.eqb_spec (ev_broadcast_id e) b) as [<-|Hne].
  - rewrite Hfrom, Hto. destruct Hadv as [[-> ->]|(ev & -> & Hf & Hd)]; [done|]. simpl.
    by rewrite Hf, String.eqb_refl, Hd.
  - simpl. by rewrite Hother.
Qed.

Lemma recorded_audit t t' e now d :
  dm_target_step d = ev_target_step e → dm_applied_step d = ev_applied_step e →
  t_demotion t' = <[ev_broadcast_id e := d]> (t_demotion t) →
  t_demotion_events t' = t_demotion_events t ++ (event_row e now <$> ev_events e) →
  advances EventKind.Applied (current_rung dm_applied_step (ev_broadcast_id e) t)
    (ev_applied_step e) (ev_events e) →
  advances EventKind.Decision (current_rung dm_target_step (ev_broadcast_id e) t)
    (ev_target_step e) (ev_events e) →
  is_Some (parse_step (ev_target_step e)) → is_Some (parse_step (ev_applied_step e)) →
  Forall (λ ev, states_reasons (event_row e now ev)) (ev_events e) →
  audit_ok t → audit_ok t'.
Proof.
  intros Hdt Hda Hd He Ha Ht Hpt Hpa Hr Hok.
  assert (Hother : ∀ f b', b' ≠ ev_broadcast_id e → current_rung f b' t' = current_rung f b' t)
    by (intros f b' Hb'; unfold current_rung; by rewrite Hd, lookup_insert_ne).
  assert (Hnew : ∀ f, current_rung f (ev_broadcast_id e) t' = f d)
    by (intros f; unfold current_rung; by rewrite Hd, lookup_insert_eq).
  split.
  - intros b. apply (chain_advances EventKind.Applied dm_applied_step b t t' e now _ _ He
      (Hother _) eq_refl (Hnew _)); [by rewrite Hda|apply (au_applied t Hok)].
  - intros b. apply (chain_advances EventKind.Decision dm_target_step b t t' e now _ _ He
      (Hother _) eq_refl (Hnew _)); [by rewrite Hdt|apply (au_target t Hok)].
  - intros b d'. rewrite Hd. destruct (decide (ev_broadcast_id e = b)) as [<-|Hne].
    + rewrite lookup_insert_eq. intros [= <-]. by rewrite Hdt, Hda.
    + rewrite lookup_insert_ne by done. apply (au_rungs t Hok).
  - rewrite He. apply Forall_app. split; [apply Hok|]. by apply Forall_fmap.
Qed.

(** ** Lemmas: one evaluation *)
Section evaluation.
Context {A : Type} `{!BillingSource Db} `{!LadderActuator (Db * A)} `{!LadderLaws A}.

(** The relation on the loop's state that looks at the tables. *)
Definition tabs (R : Tables → Tables → Prop) (w w' : Db * A) : Prop :=
  R (db_tables w.1) (db_tables w'.1).

#[export] Instance tabs_preorder R `{!PreOrder R} : PreOrder (tabs R).
Proof.
  split; [intros w; unfold tabs; reflexivity|]. intros a b c ??. unfold tabs in *. by etrans.
Qed.

Lemma rung_effect_ok r id s : st_rel (tabs effect_ok) (rung_effect r id s).
Proof.
  destruct r; simpl; try (apply st_rel_ret; apply _); intros w; unfold tabs;
    [apply stop_recording_effect | apply drain_effect | apply end_effect].
Qed.

Lemma actuate_rungs_ok ending rungs id s a :
  st_rel (tabs effect_ok) (actuate_rungs ending rungs id s a).
Proof.
  revert a. induction rungs as [|r rungs IH]; intros a; simpl; [apply st_rel_ret; apply _|].
  apply st_rel_bind; [apply _|apply rung_effect_ok|]. intros [?|?]; [apply IH|].
  destruct ending; [apply IH | apply st_rel_ret; apply _].
Qed.

Lemma actuate_ok from to id s : st_rel (tabs effect_ok) (actuate from to id s).
Proof.
  apply st_rel_bind; [apply _|apply actuate_rungs_ok|intros; apply st_rel_ret; apply _].
Qed.

Lemma reconcile_ok mode id q target applied events report :
  st_rel (tabs effect_ok) (reconcile mode id q target applied events report).
Proof.
  unfold reconcile. destruct (harsher _ applied); [|destruct (harsher applied target)];
    try (apply st_rel_ret; apply _).
  apply st_rel_bind; [apply _|apply actuate_ok|]. intros [reached failure].
  destruct (harsher reached applied); apply st_rel_ret; apply _.
Qed.

Lemma keep_stopped_ok id a b report :
  st_rel (tabs effect_ok) (keep_recording_stopped id a b report).
Proof.
  unfold keep_recording_stopped. destruct (_ && _); [|apply st_rel_ret; apply _].
  apply st_rel_bind; [apply _|apply (rung_effect_ok DemotionStep.ReduceQuality id "")|
    intros; apply st_rel_ret; apply _].
Qed.

(** The applied rung moves with exactly one statement, or not at all. *)
Lemma reconcile_events mode id q target applied events report w :
  let r := (reconcile mode id q target applied events report w).1 in
  (rn_applied r = applied ∧ rn_events r = events) ∨
  (rn_events r = events ++ [{| dv_kind := EventKind.Applied;
     dv_from_step := DemotionStep.as_str applied;
     dv_to_step := DemotionStep.as_str (rn_applied r);
     dv_statement := statement_for (rn_applied r) (bb_available_balance_minor q)
       (bb_projected_cost_minor q) |}]).
Proof.
  cbv zeta. unfold reconcile. destruct (harsher _ applied).
  - unfold st_bind. destruct (actuate _ _ _ _ w) as [[reached failure] w'].
    destruct (harsher reached applied); simpl; [right|by left]. repeat f_equal.
    by case_bool_decide as Hw; [rewrite Hw|].
  - destruct (harsher applied target); simpl; [by right|by left].
Qed.

Lemma persisted_step_spec (f : DemotionRec → string) (g : DemotionState → string) b t :
  (∀ d, t_demotion t !! b = Some d → is_Some (parse_step (f d))) →
  (∀ d, t_demotion t !! b = Some d → g <$> demotion_state b t = Some (f d)) →
  DemotionStep.as_str (persisted_step g (demotion_state b t)) = current_rung f b t.
Proof.
  intros Hp Hg. unfold persisted_step, current_rung.
  destruct (t_demotion t !! b) as [d|] eqn:Ed.
  - specialize (Hg d eq_refl). destruct (demotion_state b t) as [s|]; [|done].
    simpl in *. injection Hg as Hg. rewrite Hg. destruct (Hp d eq_refl) as [st Hst].
    rewrite Hst. simpl. unfold parse_step, DemotionStep.parse in Hst.
    apply find_some in Hst as [_ Hs%String.eqb_eq]. done.
  - unfold demotion_state. by rewrite Ed.
Qed.

Lemma states_reasons_row e now ev s :
  dv_to_step ev = DemotionStep.as_str s →
  dv_statement ev = statement_for s (ev_balance_minor e) (ev_projected_cost_minor e) →
  states_reasons (event_row e now ev).
Proof. intros Ht Hs. exists s. done. Qed.

Lemma effect_rung t t' f b : effect_ok t t' → current_rung f b t' = current_rung f b t.
Proof. intros He. unfold current_rung. by rewrite (ef_demotion _ _ He). Qed.

Lemma effect_audit t t' : effect_ok t t' → audit_ok t → audit_ok t'.
Proof.
  intros He [H1 H2 H3 H4].
  assert (Htr : ∀ k b, trail k b t' = trail k b t)
    by (intros; unfold trail; by rewrite (ef_events _ _ He)).
  split; intros; rewrite ?Htr, ?(effect_rung t t') by done; auto.
  - apply (H3 b). by rewrite <- (ef_demotion _ _ He).
  - by rewrite (ef_events _ _ He).
Qed.

Lemma state_run id db :
  db_tables (state id db).2 = db_tables db ∧
  ∀ p, (state id db).1 = Ok p → p = demotion_state id (db_tables db).
Proof.
  unfold state. rewrite ladder_db_run. simpl. split; [apply exec_reading_tables|].
  intros p. pose proof (exec_reading_ok (demotion_state id) db) as He.
  destruct (exec _ db) as [[x|e] db1]; simpl in *; [|done]. intros [= <-]. by apply He.
Qed.

(** The decision of one evaluation, as the events it starts with. *)
Lemma decision_advances computed before streak ended policy stmt :
  let tr := next_step before computed streak ended policy in
  let events := if lt_moved tr then [{| dv_kind := EventKind.Decision;
    dv_from_step := DemotionStep.as_str before;
    dv_to_step := DemotionStep.as_str (lt_step tr); dv_statement := stmt |}] else [] in
  advances EventKind.Decision (DemotionStep.as_str before)
    (DemotionStep.as_str (lt_step tr)) events ∧ of_kind EventKind.Applied events = [].
Proof.
  cbv zeta. unfold next_step.
  destruct (DemotionStep.cmp computed before); simpl;
    [split; [by left|done] | |split; [right; eexists; eauto|done]].
  destruct (_ && ended); simpl; [split; [by left|done]|].
  destruct (_ <? _); simpl; [split; [right; eexists; eauto|done]|split; [by left|done]].
Qed.

(** The database side of recording what [reconcile] did. *)
Lemma record_reconciled_audit e now db (target applied applied' : DemotionStep.t)
    (decisions events : list DemotionEvent) :
  let t := db_tables db in
  audit_ok t →
  ev_events e = events → ev_applied_step e = DemotionStep.as_str applied' →
  ev_target_step e = DemotionStep.as_str target →
  current_rung dm_applied_step (ev_broadcast_id e) t = DemotionStep.as_str applied →
  advances EventKind.Decision (current_rung dm_target_step (ev_broadcast_id e) t)
    (ev_target_step e) decisions →
  of_kind EventKind.Applied decisions = [] →
  Forall (λ ev, states_reasons (event_row e now ev)) decisions →
  ((applied' = applied ∧ events = decisions) ∨
   events = decisions ++ [{| dv_kind := EventKind.Applied;
     dv_from_step := DemotionStep.as_str applied;
     dv_to_step := DemotionStep.as_str applied';
     dv_statement := statement_for applied' (ev_balance_minor e)
       (ev_projected_cost_minor e) |}]) →
  audit_ok (db_tables (record e now db).2).
Proof.
  cbv zeta. intros Hok Hev Hap Hta Hcur Hdec Hno Hreas Hcase.
  destruct (record_cases e now db) as [->|(d & Hd1 & Hd2 & Hd3 & _ & Hd4)]; [done|].
  assert (Hsome : ∀ st, is_Some (parse_step (DemotionStep.as_str st)))
    by (intros st; unfold parse_step; rewrite step_roundtrip; eauto).
  refine (recorded_audit _ _ e now d Hd1 Hd2 Hd3 Hd4 _ _ _ _ _ Hok);
    rewrite ?Hev, ?Hap, ?Hta; try apply Hsome; rewrite <- ?Hta.
  - rewrite Hcur. destruct Hcase as [[-> ->]| ->]; [by left|right].
    eexists. unfold of_kind in *. rewrite List.filter_app, Hno. simpl. done.
  - destruct Hcase as [[_ ->]| ->]; [done|]. unfold advances, of_kind in *.
    rewrite List.filter_app. simpl. by rewrite app_nil_r.
  - destruct Hcase as [[_ ->]| ->]; [done|]. apply Forall_app. split; [done|].
    constructor; [|constructor]. by eapply states_reasons_row.
Qed.

(** One evaluation, taken apart: it reads only, or it decides, reconciles, keeps the
    recording stopped and records. *)
Definition decision_events (tb : DemotionStep.t) (tr : LadderTransition)
    (q : BroadcastBilling) : list DemotionEvent :=
  if lt_moved tr then
    [{| dv_kind := EventKind.Decision; dv_from_step := DemotionStep.as_str tb;
        dv_to_step := DemotionStep.as_str (lt_step tr);
        dv_statement := statement_for (lt_step tr) (bb_available_balance_minor q)
          (bb_projected_cost_minor q) |}]
  else [].

Definition evaluated (mode : LadderMode.t) (policy : LadderPolicy) (now : DateTime)
    (id : string) (w w' : Db * A) : Prop :=
  let t := db_tables w.1 in
  let tb := persisted_step ds_target_step (demotion_state id t) in
  let ab := in_force id t in
  ∃ db q report computed streak e,
    let tr := next_step tb computed streak (DemotionStep.is_terminal ab) policy in
    let rr := reconcile mode id q (lt_step tr) ab (decision_events tb tr q) report
      (db, w.2) in
    let kept := keep_recording_stopped id ab (rn_applied rr.1) (rn_report rr.1) rr.2 in
    db_tables db = t ∧
    ev_broadcast_id e = id ∧ ev_target_step e = DemotionStep.as_str (lt_step tr) ∧
    ev_applied_step e = DemotionStep.as_str (rn_applied rr.1) ∧
    ev_balance_minor e = bb_available_balance_minor q ∧
    ev_projected_cost_minor e = bb_projected_cost_minor q ∧
    ev_events e = rn_events rr.1 ∧
    w' = ((record e now kept.2.1).2, kept.2.2).

Lemma evaluate_one_cases mode policy now report bc (w : Db * A) :
  (∀ id db, db_tables (quote id db).2 = db_tables db) →
  let w' := (evaluate_one mode policy now report bc w).2 in
  (db_tables w'.1 = db_tables w.1 ∧ w'.2 = w.2) ∨
  evaluated mode policy now (lv_broadcast_id bc) w w'.
Proof.
  intros Hq. cbv zeta. destruct w as [db a].
  remember (evaluate_one mode policy now report bc (db, a)) as res eqn:Hres.
  revert Hres. unfold evaluate_one, st_bind at 1, st_fst at 1. cbn [fst snd].
  pose proof (Hq (lv_broadcast_id bc) db) as H1.
  destruct (quote (lv_broadcast_id bc) db) as [[q|e] db1]; cbn [fst snd] in *;
    [|intros ->; by left].
  unfold st_bind at 1, st_fst at 1. cbn [fst snd].
  destruct (state_run (lv_broadcast_id bc) db1) as [H2 Hp].
  destruct (state (lv_broadcast_id bc) db1) as [[p|e] db2]; cbn [fst snd] in *;
    [|intros ->; left; simpl; by rewrite H2].
  specialize (Hp p eq_refl). rewrite H1 in Hp. subst p. intros Hres. right.
  unfold evaluated. cbn [fst snd]. fold (in_force (lv_broadcast_id bc) (db_tables db)) in Hres.
  set (tb := persisted_step ds_target_step _) in *. set (ab := in_force _ _) in *.
  match type of Hres with context [next_step tb ?c ?s ?en policy] =>
    set (tr := next_step tb c s en policy) in *; exists db2, q;
    exists (if lt_moved tr then push_moved (lv_broadcast_id bc, tb, lt_step tr) report
            else report), c, s; fold tr end.
  set (rep := if lt_moved tr then _ else report).
  assert (Hpair : (if lt_moved tr then
     ([{| dv_kind := EventKind.Decision; dv_from_step := DemotionStep.as_str tb;
          dv_to_step := DemotionStep.as_str (lt_step tr);
          dv_statement := statement_for (lt_step tr) (bb_available_balance_minor q)
            (bb_projected_cost_minor q) |}],
      push_moved (lv_broadcast_id bc, tb, lt_step tr) report) else ([], report))
    = (decision_events tb tr q, rep))
    by (unfold decision_events, rep; by destruct (lt_moved tr)).
  rewrite Hpair in Hres. revert Hres. unfold st_bind at 1.
  destruct (reconcile mode (lv_broadcast_id bc) q (lt_step tr) ab (decision_events tb tr q)
    rep (db2, a)) as [r w3]. unfold st_bind at 1. cbn [fst snd].
  destruct (keep_recording_stopped (lv_broadcast_id bc) ab (rn_applied r) (rn_report r) w3)
    as [rep2 [db4 a4]]. unfold st_bind at 1, st_fst. cbn [fst snd].
  intros Hres. match type of Hres with context [record ?e now db4] => exists e; revert Hres;
    destruct (record e now db4) as [wr db5] end.
  intros ->. split; [congruence|]. do 6 (split; [done|]). done.
Qed.

Lemma evaluate_one_audit mode policy now report bc :
  st_rel (tabs (keeps audit_ok)) (evaluate_one mode policy now report bc).
Proof.
  intros w Hok. destruct (evaluate_one_cases mode policy now report bc w quote_reads)
    as [[-> _]|(db & q & rep & c & sk & e & Ht & Hid & Het & Hea & Heb & Hec & Hev & ->)];
    [done|]. cbn [fst].
  set (id := lv_broadcast_id bc) in *. set (t := db_tables w.1) in *.
  set (tb := persisted_step ds_target_step (demotion_state id t)) in *.
  set (tr := next_step tb c sk _ policy) in *.
  set (rr := reconcile _ _ _ _ _ _ _ (db, w.2)) in *.
  set (kept := keep_recording_stopped _ _ _ _ rr.2).
  assert (Heff : effect_ok t (db_tables kept.2.1)).
  { rewrite <- Ht. etrans; [apply (reconcile_ok mode id q (lt_step tr) (in_force id t)
      (decision_events tb tr q) rep (db, w.2))|]. apply keep_stopped_ok. }
  assert (Hrung : ∀ (f : DemotionRec → string) (g : DemotionState → string),
    (∀ d, t_demotion t !! id = Some d → is_Some (parse_step (f d))) →
    (∀ d, g <$> Some {| ds_broadcast_id := id; ds_target_step := dm_target_step d;
       ds_applied_step := dm_applied_step d; ds_entered_at := dm_entered_at d;
       ds_milder_streak := dm_milder_streak d |} = Some (f d)) →
    current_rung f id (db_tables kept.2.1)
      = DemotionStep.as_str (persisted_step g (demotion_state id t))).
  { intros f g Hp Hg. rewrite (effect_rung _ _ _ _ Heff).
    symmetry. apply persisted_step_spec; [done|]. intros d Hd. unfold demotion_state.
    rewrite Hd. apply Hg. }
  destruct (decision_advances c tb sk (DemotionStep.is_terminal (in_force id t)) policy
    (statement_for (lt_step tr) (bb_available_balance_minor q) (bb_projected_cost_minor q)))
    as [Hdec Hno].
  apply (record_reconciled_audit e now _ (lt_step tr) (in_force id t) (rn_applied rr.1)
    (decision_events tb tr q) (rn_events rr.1)); rewrite ?Hid; try done.
  - by eapply effect_audit.
  - apply (Hrung dm_applied_step ds_applied_step); [|done]. intros d Hd.
    apply (au_rungs t Hok id d Hd).
  - rewrite (Hrung dm_target_step ds_target_step); [by rewrite Het| |done]. intros d Hd.
    apply (au_rungs t Hok id d Hd).
  - unfold decision_events. destruct (lt_moved tr); constructor; [|constructor].
    apply (states_reasons_row _ now _ (lt_step tr)); [done|]. simpl. by rewrite Heb, Hec.
  - rewrite Heb, Hec. apply reconcile_events.
Qed.

Lemma page_read after n db :
  db_tables (live_broadcasts_after after n db).2 = db_tables db ∧
  ∀ l, (live_broadcasts_after after n db).1 = Ok l → l = live_page after n (db_tables db).
Proof.
  unfold live_broadcasts_after. rewrite ladder_db_run. simpl.
  split; [apply exec_reading_tables|]. intros l.
  pose proof (exec_reading_ok (live_page after n) db) as He.
  destruct (exec _ db) as [[x|e] db1]; simpl in *; [|done]. intros [= <-]. by apply He.
Qed.

Lemma st_fst_tabs {B} (R : Tables → Tables → Prop) `{!PreOrder R} (m : st Db B) :
  st_rel (on_tables R) m → st_rel (tabs R) (st_fst m : st (Db * A) B).
Proof.
  intros Hm [db a]. specialize (Hm db). unfold st_fst, tabs. simpl.
  by destruct (m db) as [x db'].
Qed.

Lemma page_walk_rel (R : Tables → Tables → Prop) `{!PreOrder R} fuel mode policy size now
    after report :
  (∀ report bc, st_rel (tabs R) (evaluate_one mode policy now report bc)) →
  st_rel (tabs R) (page_walk fuel mode policy size now after report).
Proof.
  intros Hone. revert after report. induction fuel as [|fuel IH]; intros after report; simpl;
    [apply st_rel_ret; apply _|].
  apply st_rel_bind; [apply _| |].
  { apply st_fst_tabs; [apply _|]. intros db. unfold on_tables.
    rewrite (proj1 (page_read _ _ db)). reflexivity. }
  intros [page|?]; [|apply st_rel_ret; apply _].
  destruct (last page) as [l|]; [|apply st_rel_ret; apply _].
  apply st_rel_bind; [apply _| |intros; apply IH].
  apply st_rel_fold; [apply _|]. intros r bc _. apply Hone.
Qed.

(** ** Lemmas: the walk over the pages *)
Definition shrinks (t t' : Tables) : Prop :=
  ∀ id host, active_in t' id host → active_in t id host.

#[export] Instance shrinks_preorder : PreOrder shrinks.
Proof. split; [by intros t id host|]. intros a b c H1 H2 id host Hc. auto. Qed.

Lemma effect_shrinks {B} (m : st (Db * A) B) :
  st_rel (tabs effect_ok) m → st_rel (tabs shrinks) m.
Proof.
  intros Hm. eapply st_rel_weaken; [|exact Hm]. intros w w' He id host. apply (ef_streams _ _ He).
Qed.

Lemma same_shrinks t t' : t_streams t' = t_streams t → shrinks t t'.
Proof. intros He id host. unfold active_in. by rewrite He. Qed.

Lemma evaluate_one_shrinks mode policy now report bc :
  st_rel (tabs shrinks) (evaluate_one mode policy now report bc).
Proof.
  unfold evaluate_one. apply st_rel_bind; [apply _| |].
  { apply st_fst_tabs; [apply _|]. intros db. apply same_shrinks. by rewrite quote_reads. }
  intros [q|?]; [|apply st_rel_ret; apply _]. apply st_rel_bind; [apply _| |].
  { apply st_fst_tabs; [apply _|]. intros db. apply same_shrinks.
    by rewrite (proj1 (state_run _ db)). }
  intros [p|?]; [|apply st_rel_ret; apply _].
  match goal with |- st_rel _ (let '(_, _) := ?x in _) => destruct x as [events rep] end.
  apply st_rel_bind; [apply _|apply effect_shrinks, reconcile_ok|]. intros r.
  apply st_rel_bind; [apply _|apply effect_shrinks, keep_stopped_ok|]. intros rep2.
  apply st_rel_bind; [apply _| |intros; apply st_rel_ret; apply _].
  apply st_fst_tabs; [apply _|]. intros db. apply same_shrinks.
  match goal with |- context [record ?e now db] =>
    destruct (record_cases e now db) as [->|(d & _ & _ & _ & Hs & _)] end; done.
Qed.

End evaluation.

(** Broadcasts in strictly increasing order of their id. *)
Definition before (a b : LiveBroadcast) : Prop :=
  ¬ String.le (lv_broadcast_id b) (lv_broadcast_id a).

Definition live_list (after : option string) (t : Tables) : list LiveBroadcast :=
  order_by lv_broadcast_id
    ((λ kv : string * StreamRec,
        {| lv_broadcast_id := kv.1; lv_user_id := sr_host_user_id kv.2 |}) <$>
      List.filter (λ kv, is_active kv.2 && follows after kv.1) (map_to_list (t_streams t))).

Lemma elem_of_live_list after t bc :
  bc ∈ live_list after t ↔
  active_in t (lv_broadcast_id bc) (lv_user_id bc) ∧
  follows after (lv_broadcast_id bc) = true.
Proof.
  unfold live_list. rewrite elem_of_order_by, list_elem_of_fmap. split.
  - intros ([id s] & -> & Hin). simpl.
    rewrite list_elem_of_In, filter_In, <- list_elem_of_In in Hin.
    destruct Hin as [Hin [Ha Hf]%andb_true_iff]. simpl in *.
    apply elem_of_map_to_list in Hin. split; [|done]. by exists s.
  - intros [(s & Hs & Ha & Hh) Hf]. exists (lv_broadcast_id bc, s). simpl.
    rewrite Hh. split; [by destruct bc|].
    rewrite list_elem_of_In, filter_In, <- list_elem_of_In, elem_of_map_to_list. simpl.
    by rewrite Ha, Hf.
Qed.

Lemma live_list_sorted after t : StronglySorted before (live_list after t).
Proof.
  assert (Hnd : NoDup (lv_broadcast_id <$> live_list after t)).
  { unfold live_list. rewrite (fmap_Permutation _ _ _ (order_by_perm _ _)).
    rewrite <- list_fmap_compose.
    assert (Hk : NoDup (map_to_list (t_streams t)).*1) by apply NoDup_fst_map_to_list.
    induction (map_to_list (t_streams t)) as [|[id s] l IH]; [constructor|].
    csimpl in Hk. inversion_clear Hk as [|?? Hid Hk']. csimpl.
    destruct (_ && _); [|auto]. csimpl. constructor; [|auto].
    intros ([id' s'] & He & Hin)%list_elem_of_fmap. simpl in He. subst id'.
    rewrite list_elem_of_In, filter_In, <- list_elem_of_In in Hin. apply Hid.
    apply list_elem_of_fmap. exists (id, s'). split; [done|apply Hin]. }
  pose proof (order_by_sorted lv_broadcast_id
    ((λ kv : string * StreamRec,
        {| lv_broadcast_id := kv.1; lv_user_id := sr_host_user_id kv.2 |}) <$>
      List.filter (λ kv, is_active kv.2 && follows after kv.1)
        (map_to_list (t_streams t)))) as Hs. fold (live_list after t) in Hs.
  apply Sorted_StronglySorted in Hs; [|intros ? ? ?; by apply transitivity].
  induction (live_list after t) as [|x l IH]; [constructor|]. csimpl in *.
  inversion_clear Hnd as [|?? Hx Hnd']. inversion_clear Hs as [|?? Hs' Hf].
  constructor; [auto|]. apply Forall_forall. intros y Hy Hle. rewrite Forall_fmap in Hf.
  rewrite Forall_forall in Hf. specialize (Hf y Hy). simpl in Hf. apply Hx.
  apply list_elem_of_fmap. exists y. split; [|done]. by apply (anti_symm String.le).
Qed.

Lemma before_trans a b c : before a b → before b c → before a c.
Proof.
  unfold before. intros Hab Hbc Hca. apply Hbc.
  destruct (total String.le (lv_broadcast_id a) (lv_broadcast_id b)) as [Hle|Hle];
    [|by destruct (Hab Hle)]. by etrans.
Qed.

Lemma follows_before after a b :
  follows after (lv_broadcast_id a) = true → before a b →
  follows after (lv_broadcast_id b) = true.
Proof.
  destruct after as [x|]; [|done]. simpl. rewrite !negb_true_iff, !bool_decide_eq_false.
  intros Hax Hab Hbx. apply Hab.
  destruct (total String.le (lv_broadcast_id a) x) as [?|Hle]; [done|]. by etrans.
Qed.

Lemma sorted_split (l1 l2 : list LiveBroadcast) :
  StronglySorted before (l1 ++ l2) →
  StronglySorted before l1 ∧ StronglySorted before l2 ∧
  ∀ a b, a ∈ l1 → b ∈ l2 → before a b.
Proof.
  induction l1 as [|x l1 IH]; simpl; intros Hs.
  - split; [constructor|]. split; [done|]. by intros a b ?%not_elem_of_nil.
  - inversion_clear Hs as [|?? Hs' Hf]. destruct (IH Hs') as (H1 & H2 & H3).
    apply Forall_app in Hf as [Hf1 Hf2]. split; [by constructor|]. split; [done|].
    intros a b [->|Ha]%elem_of_cons Hb; [|by apply H3].
    rewrite Forall_forall in Hf2. by apply Hf2.
Qed.

Lemma sorted_join (l1 l2 : list LiveBroadcast) :
  StronglySorted before l1 → StronglySorted before l2 →
  (∀ a b, a ∈ l1 → b ∈ l2 → before a b) → StronglySorted before (l1 ++ l2).
Proof.
  induction l1 as [|x l1 IH]; simpl; intros H1 H2 H3; [done|].
  inversion_clear H1 as [|?? Hs' Hf]. constructor.
  - apply IH; [done|done|]. intros a b Ha Hb. apply H3; [by right|done].
  - apply Forall_app. split; [done|]. apply Forall_forall. intros b Hb. apply H3; [left|done].
Qed.

(** One page: a sorted run of live broadcasts; what it leaves out comes later. *)
Lemma page_spec after n t page :
  page = live_page after (Z.max n 1) t →
  StronglySorted before page ∧
  (∀ bc, bc ∈ page → bc ∈ live_list after t) ∧
  match last page with
  | None => live_list after t = []
  | Some l => l ∈ page ∧ (∀ bc, bc ∈ page → bc = l ∨ before bc l) ∧
      ∀ bc, bc ∈ live_list after t → bc ∈ page ∨ before l bc
  end.
Proof.
  intros ->. unfold live_page, limit. fold (live_list after t).
  set (k := Z.to_nat (Z.max n 1)). pose proof (live_list_sorted after t) as Hs.
  rewrite <- (take_drop k (live_list after t)) in Hs.
  destruct (sorted_split _ _ Hs) as (H1 & _ & H3). split; [done|].
  split; [intros bc Hbc; by apply elem_of_take in Hbc as (i & Hi & _);
    apply list_elem_of_lookup_2 in Hi|].
  destruct (last (take k (live_list after t))) as [l|] eqn:El.
  - apply last_Some in El as [l' El]. assert (Hl : l ∈ take k (live_list after t))
      by (rewrite El; set_solver). split; [done|]. split.
    + intros bc Hbc. rewrite El in Hbc, H1. apply elem_of_app in Hbc as [Hbc|Hbc].
      * right. apply (sorted_split l' [l] H1); [done|left].
      * left. by apply list_elem_of_singleton in Hbc.
    + intros bc Hbc. rewrite <- (take_drop k (live_list after t)) in Hbc.
      apply elem_of_app in Hbc as [Hbc|Hbc]; [by left|right]. by apply H3.
  - apply last_None in El. destruct (live_list after t) as [|x rest]; [done|].
    unfold k in El. replace (Z.to_nat (Z.max n 1)) with (S (Z.to_nat (Z.max n 1 - 1))) in El
      by lia. done.
Qed.

(** The broadcasts a tick still has to visit. *)
Definition ahead (after : option string) (t : Tables) : gset string :=
  list_to_set (lv_broadcast_id <$> live_list after t).

Lemma elem_of_ahead after t id :
  id ∈ ahead after t ↔ ∃ host, active_in t id host ∧ follows after id = true.
Proof.
  unfold ahead. rewrite elem_of_list_to_set, list_elem_of_fmap. split.
  - intros (bc & -> & Hbc%elem_of_live_list). eauto.
  - intros (host & Ha & Hf). exists {| lv_broadcast_id := id; lv_user_id := host |}.
    split; [done|]. by apply elem_of_live_list.
Qed.

Lemma ahead_shrinks after l t t' :
  l ∈ live_list after t → shrinks t t' →
  ahead (Some (lv_broadcast_id l)) t' ⊂ ahead after t.
Proof.
  intros Hl Hsh. apply elem_of_live_list in Hl as [Hla Hlf]. split.
  - intros id (host & Ha & Hf)%elem_of_ahead. apply elem_of_ahead. exists host.
    split; [by apply Hsh|]. simpl in Hf.
    apply negb_true_iff, bool_decide_eq_false in Hf.
    apply (follows_before after l {| lv_broadcast_id := id; lv_user_id := host |} Hlf Hf).
  - intros Hsub. assert (Hin : lv_broadcast_id l ∈ ahead after t)
      by (apply elem_of_ahead; eauto).
    apply Hsub, elem_of_ahead in Hin as (host & _ & Hf). simpl in Hf.
    apply negb_true_iff, bool_decide_eq_false in Hf. by apply Hf.
Qed.

Section walk.
Context {A : Type} `{!BillingSource Db} `{!LadderActuator (Db * A)} `{!LadderLaws A}.
Context (mode : LadderMode.t) (policy : LadderPolicy) (page_size now : Z).

(** A tick as a sequence of reads and evaluations. *)
Inductive visits : LadderReport → Db * A → list LiveBroadcast → LadderReport → Db * A →
    Prop :=
  | visits_done r w : visits r w [] r w
  | visits_read r w w1 l r' w' :
      db_tables w1.1 = db_tables w.1 → w1.2 = w.2 → visits r w1 l r' w' → visits r w l r' w'
  | visits_eval r w bc l r' w' :
      visits (evaluate_one mode policy now (count_evaluated r) bc w).1
        (evaluate_one mode policy now (count_evaluated r) bc w).2 l r' w' →
      visits r w (bc :: l) r' w'.

Lemma visits_page r w page l r' w' :
  let res := st_fold (λ report bc, evaluate_one mode policy now (count_evaluated report) bc)
    page r w in
  visits res.1 res.2 l r' w' → visits r w (page ++ l) r' w'.
Proof.
  revert r w. induction page as [|bc page IH]; intros r w; simpl; [done|]. intros Hv.
  apply visits_eval. apply IH. unfold st_bind in Hv.
  by destruct (evaluate_one mode policy now (count_evaluated r) bc w).
Qed.

Lemma page_shrinks page r :
  st_rel (tabs shrinks) (st_fold (λ report bc,
    evaluate_one mode policy now (count_evaluated report) bc) page r : st (Db * A) _).
Proof. apply st_rel_fold; [apply _|]. intros ? ? _. apply evaluate_one_shrinks. Qed.

Lemma page_walk_spec fuel after r w :
  (size (ahead after (db_tables w.1)) < fuel)%nat →
  let res := page_walk fuel mode policy page_size now after r w in
  res.1 ≠ None ∧ shrinks (db_tables w.1) (db_tables res.2.1) ∧
  ∀ r', res.1 = Some (Ok r') →
    ∃ l, visits r w l r' res.2 ∧ StronglySorted before l ∧
      (∀ bc, bc ∈ l → bc ∈ live_list after (db_tables w.1)) ∧
      (∀ bc, bc ∈ live_list after (db_tables res.2.1) → bc ∈ l).
Proof.
  revert after r w. induction fuel as [|fuel IH]; intros after r [db a] Hfuel; [lia|].
  cbv zeta. remember (page_walk (S fuel) mode policy page_size now after r (db, a)) as res
    eqn:Hres. revert Hres. simpl. unfold st_bind at 1, st_fst. cbn [fst snd].
  destruct (page_read after (Z.max page_size 1) db) as [Ht Hpage].
  destruct (live_broadcasts_after after (Z.max page_size 1) db) as [[page|e] db1];
    cbn [fst snd] in *; [|intros ->; simpl; rewrite Ht; split; [done|]; split; done].
  specialize (Hpage page eq_refl). destruct (page_spec after page_size _ page Hpage)
    as (Hsort & Hin & Hlast).
  destruct (last page) as [l|] eqn:El; [|].
  - destruct Hlast as (Hl & Hmax & Hcov). unfold st_bind at 1.
    pose proof (page_shrinks page r (db1, a)) as Hsh. unfold tabs in Hsh. simpl in Hsh.
    pose proof (λ l' r' w', visits_page r (db1, a) page l' r' w') as Hvis.
    destruct (st_fold _ page r (db1, a)) as [r1 w1]. cbn [fst snd] in *.
    rewrite Ht in Hsh.
    assert (Hlist : l ∈ live_list after (db_tables db)) by (by apply Hin).
    pose proof (subset_size _ _ (ahead_shrinks after l _ _ Hlist Hsh)) as Hsz.
    specialize (IH (Some (lv_broadcast_id l)) r1 w1 ltac:(simpl in *; lia)).
    intros ->. destruct IH as (Hn & Hsh2 & Hok). split; [done|]. split; [by etrans|].
    intros r' Hr'. destruct (Hok r' Hr') as (l' & Hv & Hs' & Hin' & Hcov').
    exists (page ++ l'). split; [|split; [|split]].
    + apply (visits_read r (db, a) (db1, a)); [done|done|by apply Hvis].
    + apply sorted_join; [done|done|]. intros x y Hx Hy.
      apply Hin', elem_of_live_list in Hy as [_ Hy]. simpl in Hy.
      apply negb_true_iff, bool_decide_eq_false in Hy.
      destruct (Hmax x Hx) as [->|Hxl]; [done|]. by eapply before_trans.
    + intros bc [Hbc|Hbc]%elem_of_app; [by apply Hin|].
      apply Hin', elem_of_live_list in Hbc as [Ha Hf]. apply elem_of_live_list.
      split; [by apply Hsh|]. apply elem_of_live_list in Hlist as [_ Hlf].
      eapply follows_before; [exact Hlf|]. simpl in Hf.
      by apply negb_true_iff, bool_decide_eq_false in Hf.
    + intros bc Hbc. apply elem_of_app. apply elem_of_live_list in Hbc as [Ha Hf].
      assert (Hstart : bc ∈ live_list after (db_tables db)).
      { apply elem_of_live_list. split; [|done]. apply Hsh. by apply Hsh2. }
      destruct (Hcov bc Hstart) as [?|Hb]; [by left|right]. apply Hcov', elem_of_live_list.
      split; [done|]. simpl. by apply negb_true_iff, bool_decide_eq_false.
  - intros ->. simpl. rewrite Ht. split; [done|]. split; [done|]. intros r' [= <-].
    exists []. split; [by apply (visits_read r (db, a) (db1, a)); [| |apply visits_done]|].
    split; [constructor|]. split; [by intros bc ?%not_elem_of_nil|].
    intros bc. by rewrite Hlast.
Qed.
End walk.

(** ** A probe: an actuator that logs its calls and answers as it is told *)
Inductive ActuatorCall : Type :=
  | CallStop (broadcast : string)
  | CallDrain (broadcast : string)
  | CallEnd (broadcast statement : string).

Record Probe : Type := {
  pb_answers : list (result unit string);
  pb_calls : list ActuatorCall
}.

Definition probe {D : Type} (c : ActuatorCall) : st (D * Probe) (result unit string) := λ s,
  (default (Ok ()) (head (pb_answers s.2)),
   (s.1, {| pb_answers := tail (pb_answers s.2); pb_calls := pb_calls s.2 ++ [c] |})).

Definition ProbeActuator {D : Type} : LadderActuator (D * Probe) := {|
  stop_recording := λ b, probe (CallStop b);
  drain_to_origin := λ b, probe (CallDrain b);
  end_with_slate := λ b s, probe (CallEnd b s)
|}.

(** What each mode may ask of the actuator, given the tables. *)
Definition may_call (mode : LadderMode.t) (t : Tables) (c : ActuatorCall) : Prop :=
  match mode, c with
  | LadderMode.Observe, CallStop b => DemotionStep.allows_recording (in_force b t) = false
  | LadderMode.Observe, _ => False
  | LadderMode.Degrade, CallEnd _ _ => False
  | LadderMode.Degrade, _ => True
  | LadderMode.Full, _ => True
  end.

(** In observe mode no rung in force gets harsher. *)
Definition milder (mode : LadderMode.t) (t t' : Tables) : Prop :=
  mode = LadderMode.Observe →
  ∀ b, DemotionStep.rank (in_force b t') ≤ DemotionStep.rank (in_force b t).

Definition within_mode (mode : LadderMode.t) (w w' : Db * Probe) : Prop :=
  milder mode (db_tables w.1) (db_tables w'.1) ∧
  ∃ new, pb_calls w'.2 = pb_calls w.2 ++ new ∧
    Forall (may_call mode (db_tables w.1)) new.

Lemma may_call_milder mode t t' c :
  milder mode t t' → may_call mode t' c → may_call mode t c.
Proof.
  intros Hm. unfold may_call. destruct mode, c as [b|b|b s]; try done.
  specialize (Hm eq_refl b). destruct (in_force b t'), (in_force b t); simpl in *; done || lia.
Qed.

#[export] Instance within_mode_preorder mode : PreOrder (within_mode mode).
Proof.
  split.
  - intros w. split; [by intros _ b|]. exists []. by rewrite app_nil_r.
  - intros a b c [Hm1 (n1 & H1 & F1)] [Hm2 (n2 & H2 & F2)]. split.
    { intros Hmode x. etrans; [by apply Hm2|by apply Hm1]. }
    exists (n1 ++ n2). rewrite H2, H1, app_assoc. split; [done|]. apply Forall_app.
    split; [done|]. eapply Forall_impl; [exact F2|]. intros x. by apply may_call_milder.
Qed.

Section modes.
Context `{!BillingSource Db}.
Hypothesis Hquote : ∀ id db, db_tables (quote id db).2 = db_tables db.
#[local] Existing Instance ProbeActuator.
Context (mode : LadderMode.t) (policy : LadderPolicy) (now : Z).

Lemma probe_tables {D} c (w : D * Probe) : (probe c w).2.1 = w.1.
Proof. done. Qed.

Lemma probe_calls {D} c (w : D * Probe) : pb_calls (probe c w).2.2 = pb_calls w.2 ++ [c].
Proof. done. Qed.

(** A log of calls that leaves the database alone. *)
Definition logs (P : ActuatorCall → Prop) (w w' : Db * Probe) : Prop :=
  w'.1 = w.1 ∧ ∃ new, pb_calls w'.2 = pb_calls w.2 ++ new ∧ Forall P new.

#[local] Instance logs_preorder P : PreOrder (logs P).
Proof.
  split.
  - intros w. split; [done|]. exists []. by rewrite app_nil_r.
  - intros a b c [E1 (n1 & H1 & F1)] [E2 (n2 & H2 & F2)]. split; [congruence|].
    exists (n1 ++ n2). rewrite H2, H1, app_assoc. split; [done|]. by apply Forall_app.
Qed.

Lemma probe_logs (P : ActuatorCall → Prop) c : P c → st_rel (logs P) (probe c : st (Db * Probe) _).
Proof. intros Hc w. split; [done|]. exists [c]. split; [done|]. by constructor. Qed.

Lemma actuate_logs from to id s :
  st_rel (logs (λ c, match c with CallEnd _ _ => to = DemotionStep.EndWithSlate ∨
    to = DemotionStep.Overrun | _ => True end)) (actuate from to id s).
Proof.
  set (P := λ c, match c with CallEnd _ _ => to = DemotionStep.EndWithSlate ∨
    to = DemotionStep.Overrun | _ => True end).
  unfold actuate. apply st_rel_bind; [apply _| |intros; apply st_rel_ret; apply _].
  generalize {| ac_reached := from; ac_blocked := false; ac_errors := [] |}.
  assert (Hall : Forall (λ r, r = DemotionStep.EndWithSlate → P (CallEnd id s))
    (List.filter (λ r, harsher r from && negb (harsher r to)) DemotionStep.ALL)).
  { apply Forall_forall. intros r Hr ->.
    rewrite list_elem_of_In, filter_In in Hr. destruct Hr as [_ Hr].
    apply andb_true_iff in Hr as [_ Hr]. unfold harsher in Hr. simpl in Hr. simpl.
    destruct to; try done; auto. }
  induction Hall as [|r rungs Hr _ IH]; intros a; simpl; [apply st_rel_ret; apply _|].
  apply st_rel_bind; [apply _| |].
  - destruct r; simpl; try (apply st_rel_ret; apply _); apply probe_logs; simpl; auto.
    by apply (Hr eq_refl).
  - intros [?|?]; [apply IH|]. destruct (bool_decide (to = DemotionStep.EndWithSlate));
      [apply IH | apply st_rel_ret; apply _].
Qed.

(** Reconciling, and keeping the recording stopped, stay within the mode. *)
Lemma reconcile_logs t id q target events report :
  st_rel (logs (may_call mode t))
    (reconcile mode id q target (in_force id t) events report).
Proof.
  unfold reconcile. destruct (harsher _ (in_force id t)) eqn:Eh;
    [|destruct (harsher _ target); apply st_rel_ret; apply _].
  apply st_rel_bind; [apply _| |].
  - eapply st_rel_weaken; [|apply actuate_logs]. intros w w' [He (new & Hn & Hf)].
    split; [done|]. exists new. split; [done|]. eapply Forall_impl; [exact Hf|].
    intros c Hc. unfold may_call. destruct mode; [|destruct c; try done|done].
    + simpl in Eh. unfold harsher in Eh. simpl in Eh. destruct (in_force id t); done.
    + simpl in Hc. destruct target; simpl in Hc; destruct Hc; done.
  - intros [reached failure]. destruct (harsher reached _); apply st_rel_ret; apply _.
Qed.

Lemma keep_logs t id applied report :
  st_rel (logs (may_call mode t))
    (keep_recording_stopped id (in_force id t) applied report).
Proof.
  unfold keep_recording_stopped.
  destruct (DemotionStep.allows_recording (in_force id t)) eqn:Ea; simpl;
    [apply st_rel_ret; apply _|].
  destruct (_ && _); [|apply st_rel_ret; apply _].
  apply st_rel_bind; [apply _| |intros; apply st_rel_ret; apply _].
  apply probe_logs. unfold may_call. by destruct mode.
Qed.

Lemma reconcile_observe id q target applied events report (w : Db * Probe) :
  mode = LadderMode.Observe →
  DemotionStep.rank (rn_applied (reconcile mode id q target applied events report w).1)
    ≤ DemotionStep.rank applied.
Proof.
  intros ->. unfold reconcile. simpl. replace (harsher DemotionStep.Healthy applied) with false
    by (by destruct applied). destruct (harsher applied target) eqn:Eh; simpl; [|lia].
  unfold harsher in Eh. lia.
Qed.

Lemma in_force_record e now' db b :
  let t := db_tables db in
  let t' := db_tables (record e now' db).2 in
  in_force b t' = in_force b t ∨
  (b = ev_broadcast_id e ∧
   in_force b t' = default DemotionStep.Healthy (parse_step (ev_applied_step e))).
Proof.
  cbv zeta. destruct (record_cases e now' db) as [->|(d & _ & Hd & Hdm & _)]; [by left|].
  unfold in_force, persisted_step, demotion_state. rewrite Hdm.
  destruct (decide (ev_broadcast_id e = b)) as [<-|Hne].
  - right. rewrite lookup_insert_eq. simpl. by rewrite Hd.
  - left. by rewrite lookup_insert_ne.
Qed.

Lemma evaluate_one_within report bc :
  st_rel (within_mode mode) (evaluate_one mode policy now report bc).
Proof.
  intros w. destruct (evaluate_one_cases mode policy now report bc w Hquote)
    as [[Ht Hp]|(db & q & rep & c & sk & e & Ht & Hid & _ & Hea & _ & _ & _ & ->)].
  { split; [by intros _ b; rewrite Ht|]. exists []. by rewrite Hp, app_nil_r. }
  cbn [fst snd]. set (id := lv_broadcast_id bc) in *. set (t := db_tables w.1) in *.
  set (tb := persisted_step ds_target_step _) in *.
  set (tr := next_step tb c sk _ policy) in *.
  pose proof (reconcile_logs t id q (lt_step tr) (decision_events tb tr q) rep (db, w.2))
    as Hl1.
  pose proof (reconcile_observe id q (lt_step tr) (in_force id t) (decision_events tb tr q)
    rep (db, w.2)) as Hobs.
  set (rr := reconcile _ _ _ _ _ _ _ (db, w.2)) in *.
  pose proof (keep_logs t id (rn_applied rr.1) (rn_report rr.1) rr.2) as Hl2.
  set (kept := keep_recording_stopped _ _ _ _ rr.2) in *.
  pose proof (transitivity Hl1 Hl2) as [Hdb Hcalls]. split; [|exact Hcalls].
  intros Hmode b. cbn [fst snd] in *.
  assert (Hkt : db_tables kept.2.1 = t) by (by rewrite Hdb).
  destruct (in_force_record e now kept.2.1 b) as [->|[-> ->]]; [by rewrite Hkt|].
  rewrite Hea. unfold parse_step. rewrite step_roundtrip. simpl. rewrite Hid.
  by apply Hobs.
Qed.
End modes.

(** ** Properties *)

(** Several ticks, each with its own mode, policy, page size and clock. *)
Record Tick : Type := {
  ti_mode : LadderMode.t; ti_policy : LadderPolicy; ti_page_size : Z; ti_now : Z
}.

Definition run_ticks {A : Type} `{BillingSource Db} `{LadderActuator (Db * A)}
    (ticks : list Tick) : st (Db * A) unit :=
  st_fold (λ _ k, let! _ := ladder_tick (ti_mode k) (ti_policy k) (ti_page_size k) (ti_now k)
    in st_ret tt) ticks tt.

(** C22. Every restriction carries its statement of reasons: over any number of ticks,
    with failing effects, missing quotes and lost connections, the audit trail of each
    broadcast leads step by step from no restriction to the rung on record, for what
    was decided and for what was applied, and every step states its reasons. *)
Theorem every_restriction_has_reasons {A : Type} `{!BillingSource Db}
    `{!LadderActuator (Db * A)} `{!LadderLaws A} (ticks : list Tick) (w : Db * A) :
  audit_ok (db_tables w.1) → audit_ok (db_tables (run_ticks ticks w).2.1).
Proof.
  intros Hok. assert (Hr : st_rel (tabs (keeps audit_ok)) (run_ticks ticks : st (Db * A) _)).
  { apply st_rel_fold; [apply _|]. intros [] k _.
    apply st_rel_bind; [apply _| |intros; apply st_rel_ret; apply _].
    intros w'. unfold ladder_tick. apply page_walk_rel; [apply _|]. intros.
    apply evaluate_one_audit. }
  by apply Hr.
Qed.

(** C33. A tick evaluates every live broadcast exactly once: it always comes to an end,
    and unless the database fails it visits, in increasing order of their ids, only
    broadcasts that were live when it began and all that are live when it ends. *)
Theorem every_live_broadcast_evaluated_once {A : Type} `{!BillingSource Db}
    `{!LadderActuator (Db * A)} `{!LadderLaws A} (mode : LadderMode.t)
    (policy : LadderPolicy) (page_size now : Z) (w : Db * A) :
  let res := ladder_tick mode policy page_size now w in
  res.1 ≠ None ∧
  ∀ report, res.1 = Some (Ok report) →
    ∃ l, visits mode policy now empty_ladder_report w l report res.2 ∧
      StronglySorted before l ∧
      (∀ bc, bc ∈ l → active_in (db_tables w.1) (lv_broadcast_id bc) (lv_user_id bc)) ∧
      (∀ id host, active_in (db_tables res.2.1) id host →
        {| lv_broadcast_id := id; lv_user_id := host |} ∈ l).
Proof.
  cbv zeta. assert (Hsize : (size (ahead None (db_tables w.1)) <
    S (size (t_streams (db_tables w.1))))%nat).
  { rewrite <- (size_dom (D := gset string)). apply Nat.lt_succ_r, subseteq_size.
    intros id (host & (s & Hs & _) & _)%elem_of_ahead. by apply elem_of_dom_2 in Hs. }
  destruct (page_walk_spec mode policy page_size now _ None empty_ladder_report w Hsize)
    as (Hn & _ & Hok). split; [done|]. intros report Hr.
  destruct (Hok report Hr) as (l & Hv & Hs & Hin & Hcov). exists l. split; [done|].
  split; [done|]. split.
  - intros bc Hbc. by apply Hin, elem_of_live_list in Hbc as [? _].
  - intros id host Ha. by apply Hcov, elem_of_live_list.
Qed.

(** The mode bounds what the ladder does: observing it asks for nothing but that a
    recording already forbidden stays stopped, and no rung in force gets harsher;
    degrading it never ends a broadcast; whatever the effects answer. *)
Theorem mode_bounds_actions `{!BillingSource Db} (mode : LadderMode.t)
    (policy : LadderPolicy) (page_size now : Z) (w : Db * Probe) :
  (∀ id db, db_tables (quote id db).2 = db_tables db) →
  within_mode mode w (@ladder_tick Probe _ ProbeActuator mode policy page_size now w).2.
Proof.
  intros Hq. unfold ladder_tick.
  generalize (S (size (t_streams (db_tables w.1)))). intros fuel.
  generalize empty_ladder_report, (@None string). intros r after. revert r after w.
  induction fuel as [|fuel IH]; intros r after w; simpl; [reflexivity|].
  unfold st_bind at 1, st_fst. destruct (page_read after (Z.max page_size 1) w.1) as [Ht _].
  assert (Hread : ∀ db, db_tables db = db_tables w.1 → within_mode mode w (db, w.2)).
  { intros db Hdb. split; [intros _ b; cbn [fst]; by rewrite Hdb|]. exists [].
    by rewrite app_nil_r. }
  destruct (live_broadcasts_after _ _ w.1) as [[page|e] db1]; cbn [fst snd] in *;
    [|by apply Hread].
  destruct (last page) as [l|]; [|by apply Hread].
  etrans; [by apply Hread|]. unfold st_bind.
  assert (Hpage : st_rel (within_mode mode) (st_fold (λ report bc,
    @evaluate_one Probe _ ProbeActuator mode policy now (count_evaluated report) bc) page r)).
  { apply st_rel_fold; [apply _|]. intros r' bc _. by apply evaluate_one_within. }
  specialize (Hpage (db1, w.2)). destruct (st_fold _ page r (db1, w.2)) as [r1 w1].
  etrans; [exact Hpage|]. apply IH.
Qed.

(** ** Examples *)
Definition fixed_quote (balance cost : Z) : BillingSource Db := {|
  quote := λ _, st_ret (Ok {| bb_available_balance_minor := balance;
    bb_projected_cost_minor := cost; bb_transcode_enabled := false |})
|}.

Lemma probe_laws balance cost : @LadderLaws Probe (fixed_quote balance cost) ProbeActuator.
Proof. split; intros; simpl; try reflexivity; split; done. Defined.

Definition demo_streams (demotion : gmap string DemotionRec) : Tables :=
  {| t_generation := 1; t_desired := ∅; t_nodes := ∅; t_wallets := ∅; t_transactions := [];
     t_tx_seq := 1; t_rate_card := []; t_usage := []; t_usage_seq := 1; t_baseline := ∅;
     t_demotion := demotion; t_demotion_events := [];
     t_streams := {[ "b1" := stream_row "alice" "active" 0;
       "b2" := stream_row "bob" "active" 0;
       "b3" := stream_row "bob" "ended" 0 ]};
     t_api := ApiSchema.no_api |}.

Definition demo_ladder (answers : list (result unit string)) (script : list Schema.tick) :
    Db * Probe :=
  ({| db_tables := demo_streams ∅; db_now := 0; db_script := script |},
   {| pb_answers := answers; pb_calls := [] |}).

Lemma demo_audit : audit_ok (demo_streams ∅).
Proof.
  split; try reflexivity; [|constructor].
  intros b d Hd. cbn in Hd. rewrite lookup_empty in Hd. discriminate.
Defined.

Definition demo_ticks : list Tick :=
  [ {| ti_mode := LadderMode.Degrade; ti_policy := placeholder; ti_page_size := 1;
       ti_now := 60 |};
    {| ti_mode := LadderMode.Full; ti_policy := placeholder; ti_page_size := 1;
       ti_now := 120 |} ].

(** The drain fails, a commit is not acknowledged, the broadcasts end in full mode. *)
Lemma every_restriction_has_reasons_witness :
  let w' := (@run_ticks Probe (fixed_quote 0 100) ProbeActuator demo_ticks
    (demo_ladder [Ok (); Err "busy"] [{| tk_outcome := Answered; tk_now := 1 |};
      {| tk_outcome := Answered; tk_now := 1 |}])).2 in
  audit_ok (db_tables w'.1) ∧
  current_rung dm_applied_step "b1" (db_tables w'.1) = "end_with_slate" ∧
  length (t_demotion_events (db_tables w'.1)) = 6%nat.
Proof.
  split; [|split; vm_compute; reflexivity].
  apply (@every_restriction_has_reasons Probe (fixed_quote 0 100) ProbeActuator
    (probe_laws 0 100)). exact demo_audit.
Defined.

Lemma every_live_broadcast_evaluated_once_witness :
  let res := @ladder_tick Probe (fixed_quote 0 100) ProbeActuator LadderMode.Full placeholder
    1 60 (demo_ladder [] []) in
  res.1 ≠ None ∧ lr_evaluated <$> (r ← res.1; match r with Ok x => Some x | Err _ => None end)
    = Some 2.
Proof.
  split; [|vm_compute; reflexivity].
  apply (@every_live_broadcast_evaluated_once Probe (fixed_quote 0 100) ProbeActuator
    (probe_laws 0 100)).
Defined.

Lemma mode_bounds_actions_witness :
  within_mode LadderMode.Degrade (demo_ladder [] [])
    (@ladder_tick Probe (fixed_quote 0 100) ProbeActuator LadderMode.Degrade placeholder 10 60
      (demo_ladder [] [])).2.
Proof. apply (@mode_bounds_actions (fixed_quote 0 100)). intros; reflexivity. Defined.

(** The recorded defect of the recovery: a broadcast whose ending failed, or was
    withheld, and whose wallet has since been topped up far beyond the projected cost,
    is ended at the next tick in full mode, because the target only recovers after the
    dwell while the ending is retried at once. *)
Theorem topped_up_broadcast_is_ended :
  let t := demo_streams {[ "b1" := {|
    dm_target_step := "end_with_slate"; dm_applied_step := "drain_to_origin";
    dm_entered_at := 0; dm_evaluated_at := 0; dm_balance_minor := 0;
    dm_projected_cost_minor := 100; dm_milder_streak := 0 |} ]} in
  let balance := 1000000 in
  let cost := 100 in
  demotion_step {| lo_balance_minor := balance; lo_projected_cost_remaining_minor := cost;
    lo_programme_is_live := true |} placeholder = DemotionStep.Healthy ∧
  pb_calls (@ladder_tick Probe (fixed_quote balance cost) ProbeActuator LadderMode.Full
    placeholder 10 60
    ({| db_tables := t; db_now := 0; db_script := [] |},
     {| pb_answers := []; pb_calls := [] |})).2.2
  = [CallEnd "b1" (statement_for DemotionStep.EndWithSlate balance cost)].
Proof. split; vm_compute; reflexivity. Qed.
