(* ===== verification/Interleave.v ===== *)
(** * Interleave: asynchronous code, one lock acquisition at a time

    An [async fn] of mm-api runs concurrently with every other request. [prog S A] is
    such a function cut at the points where it can be suspended: an [Atom] is what it
    does while it holds a lock (or what one awaited call does), and between two atoms
    anything else may run. [run] is the function on its own; [run_sched] interleaves
    several of them. *)
From S2P Require Import Prelude.
Local Open Scope mm_scope.

Inductive prog (S A : Type) : Type :=
  | Done (a : A)
  | Atom (B : Type) (m : st S B) (k : B → prog S A).
Arguments Done {S A} a.
Arguments Atom {S A B} m k.

Definition atom {S A} (m : st S A) : prog S A := Atom m Done.

Fixpoint prog_bind {S A B} (p : prog S A) (k : A → prog S B) : prog S B :=
  match p with
  | Done a => k a
  | Atom m k' => Atom m (λ b, prog_bind (k' b) k)
  end.

Definition prog_try {S A B E} (p : prog S (result A E)) (k : A → prog S (result B E)) :
    prog S (result B E) :=
  prog_bind p (λ r, match r with Ok a => k a | Err e => Done (Err e) end).

Notation "'do!' x ':=' p 'in' k" := (prog_bind p (λ x, k))
  (at level 10, x name, k at level 200) : mm_scope.
Notation "'do?' x ':=' p 'in' k" := (prog_try p (λ x, k))
  (at level 10, x name, k at level 200) : mm_scope.

(** A [for] loop with a mutable accumulator. *)
Fixpoint prog_fold {S A B} (f : B → A → prog S B) (l : list A) (b : B) : prog S B :=
  match l with
  | [] => Done b
  | a :: l' => do! b' := f b a in prog_fold f l' b'
  end.

Fixpoint run {S A} (p : prog S A) : st S A :=
  match p with
  | Done a => st_ret a
  | Atom m k => let! b := m in run (k b)
  end.

(** One atom of one thread. *)
Definition step_thread {S A} (p : prog S A) : st S (prog S A) :=
  match p with
  | Done a => st_ret (Done a)
  | Atom m k => let! b := m in st_ret (k b)
  end.

(** The scheduler names the thread that runs next. *)
Fixpoint run_sched {S A} (sched : list nat) (ts : list (prog S A)) : st S (list (prog S A)) :=
  match sched with
  | [] => st_ret ts
  | i :: rest =>
      match ts !! i with
      | Some p => let! p' := step_thread p in run_sched rest (<[i := p']> ts)
      | None => run_sched rest ts
      end
  end.

(** ** What holds under every interleaving

    Each atom keeps [I], whatever the other threads did since the previous one, and
    the answer satisfies [Q]. *)
Fixpoint always {S A} (I : S → Prop) (Q : A → Prop) (p : prog S A) : Prop :=
  match p with
  | Done a => Q a
  | Atom m k => ∀ s, I s → I (m s).2 ∧ always I Q (k (m s).1)
  end.

Lemma always_atom {S A} (I : S → Prop) (Q : A → Prop) (m : st S A) :
  (∀ s, I s → I (m s).2 ∧ Q (m s).1) → always I Q (atom m).
Proof. done. Qed.

Lemma always_weaken {S A} (I : S → Prop) (P Q : A → Prop) (p : prog S A) :
  always I P p → (∀ a, P a → Q a) → always I Q p.
Proof.
  intros Hp HPQ. induction p as [a|B m k IH]; simpl in *; [auto|].
  intros s Hs. destruct (Hp s Hs). auto.
Qed.

Lemma always_bind {S A B} (I : S → Prop) (P : A → Prop) (Q : B → Prop) (p : prog S A)
    (k : A → prog S B) :
  always I P p → (∀ a, P a → always I Q (k a)) → always I Q (prog_bind p k).
Proof.
  intros Hp Hk. induction p as [a|C m k' IH]; simpl in *; [auto|].
  intros s Hs. destruct (Hp s Hs). auto.
Qed.

Lemma always_fold {S A B} (I : S → Prop) (Q : B → Prop) (f : B → A → prog S B)
    (l : list A) (b : B) :
  (∀ b a, Q b → always I Q (f b a)) → Q b → always I Q (prog_fold f l b).
Proof.
  intros Hf. revert b. induction l as [|a l IH]; intros b Hb; [done|].
  apply (always_bind I Q); auto.
Qed.

Lemma run_bind {S A B} (p : prog S A) (k : A → prog S B) s :
  run (prog_bind p k) s = (let! a := run p in run (k a)) s.
Proof.
  revert s. induction p as [a|C m k' IH]; intros s; [done|]. simpl. unfold st_bind.
  destruct (m s) as [b s']. by rewrite IH.
Qed.

Lemma run_always {S A} (I : S → Prop) (Q : A → Prop) (p : prog S A) s :
  always I Q p → I s → I (run p s).2 ∧ Q (run p s).1.
Proof.
  revert s. induction p as [a|B m k IH]; intros s Hp Hs; simpl in *; [done|].
  unfold st_bind. destruct (Hp s Hs) as [Hs' Hk]. destruct (m s) as [b s']. auto.
Qed.

(** The rule for threads: what each does alone under interference, all of them do
    together under every schedule. *)
Lemma run_sched_always {S A} (I : S → Prop) (Q : nat → A → Prop) sched :
  ∀ (ts : list (prog S A)) s, I s → (∀ i p, ts !! i = Some p → always I (Q i) p) →
  I (run_sched sched ts s).2 ∧
  ∀ i a, (run_sched sched ts s).1 !! i = Some (Done a) → Q i a.
Proof.
  induction sched as [|i rest IH]; intros ts s Hs Hts; simpl.
  - split; [done|]. intros j a Hj. exact (Hts _ _ Hj).
  - destruct (ts !! i) as [p|] eqn:Hi; [|by apply IH].
    unfold st_bind.
    assert (Hstep : I (step_thread p s).2 ∧ always I (Q i) (step_thread p s).1).
    { specialize (Hts i p Hi). destruct p as [a|B m k]; simpl; [done|].
      unfold st_bind. specialize (Hts s Hs). by destruct (m s). }
    destruct (step_thread p s) as [p' s']. destruct Hstep as [Hs' Hp'].
    apply IH; [done|]. intros j q Hj.
    destruct (decide (i = j)) as [<-|Hij].
    + rewrite list_lookup_insert_eq in Hj by (by eapply lookup_lt_Some). by simplify_eq.
    + rewrite list_lookup_insert_ne in Hj by done. by apply Hts.
Qed.

(** ** What holds while others only do what they may

    [always] knows nothing of the state between two atoms but the invariant. Here the other
    threads are known to take only steps of [R], so that what one atom read can still be
    relied on at the next, as far as [R] keeps it. *)
Section rely.
Context {S : Type} (R : S → S → Prop) (I : S → Prop).
Context `{!PreOrder R}.

Fixpoint alongside {A} (Q : A → S → Prop) (s : S) (p : prog S A) : Prop :=
  match p with
  | Done a => ∀ s', R s s' → I s' → Q a s'
  | Atom m k => ∀ s', R s s' → I s' →
      R s' (m s').2 ∧ I (m s').2 ∧ alongside Q (m s').2 (k (m s').1)
  end.

Lemma alongside_later {A} (Q : A → S → Prop) (p : prog S A) s s' :
  R s s' → alongside Q s p → alongside Q s' p.
Proof.
  intros Hr. destruct p as [a|B m k]; simpl.
  - intros Hq s2 Hr2 Hi. apply Hq; [by transitivity s'|done].
  - intros Ha s2 Hr2 Hi. apply Ha; [by transitivity s'|done].
Qed.

Lemma alongside_bind {A B} (P : A → S → Prop) (Q : B → S → Prop) (p : prog S A)
    (k : A → prog S B) s :
  alongside P s p →
  (∀ a s', R s s' → I s' → P a s' → alongside Q s' (k a)) → alongside Q s (prog_bind p k).
Proof.
  revert s. induction p as [a|C m k' IH]; intros s Hp Hk; simpl in *.
  - destruct (k a) as [b|C m k2] eqn:E; simpl.
    + intros s' Hr Hi. specialize (Hk a s' Hr Hi (Hp s' Hr Hi)). rewrite E in Hk.
      apply Hk; [reflexivity|done].
    + intros s' Hr Hi. specialize (Hk a s' Hr Hi (Hp s' Hr Hi)). rewrite E in Hk.
      apply Hk; [reflexivity|done].
  - intros s' Hr Hi. destruct (Hp s' Hr Hi) as (Hr' & Hi' & Hal). split; [done|]. split; [done|].
    apply IH; [done|]. intros a s2 Hr2 Hi2 HP. apply Hk; [|done|done].
    transitivity s'; [done|]. by transitivity (m s').2.
Qed.

Lemma alongside_atom {A} (Q : A → S → Prop) (m : st S A) s :
  (∀ s1, R s s1 → I s1 → R s1 (m s1).2 ∧ I (m s1).2 ∧
     ∀ s2, R (m s1).2 s2 → I s2 → Q (m s1).1 s2) → alongside Q s (atom m).
Proof. done. Qed.

Lemma run_sched_alongside {A} (Q : nat → A → S → Prop) sched :
  ∀ (ts : list (prog S A)) s, I s → (∀ i p, ts !! i = Some p → alongside (Q i) s p) →
  R s (run_sched sched ts s).2 ∧ I (run_sched sched ts s).2 ∧
  ∀ i a, (run_sched sched ts s).1 !! i = Some (Done a) → Q i a (run_sched sched ts s).2.
Proof.
  induction sched as [|i rest IH]; intros ts s Hs Hts; simpl.
  - split; [done|]. split; [done|]. intros j a Hj. by apply (Hts _ _ Hj).
  - destruct (ts !! i) as [p|] eqn:Hi; [|by apply IH]. unfold st_bind.
    assert (Hstep : R s (step_thread p s).2 ∧ I (step_thread p s).2 ∧
      alongside (Q i) (step_thread p s).2 (step_thread p s).1).
    { specialize (Hts i p Hi). destruct p as [a|B m k]; simpl; [done|].
      unfold st_bind. specialize (Hts s (reflexivity s) Hs). by destruct (m s). }
    destruct (step_thread p s) as [p' s']. simpl in Hstep. destruct Hstep as (Hr & Hs' & Hp').
    destruct (IH (<[i := p']> ts) s' Hs') as (Hr2 & Hi2 & Hq).
    + intros j q Hj. destruct (decide (i = j)) as [<-|Hij].
      * rewrite list_lookup_insert_eq in Hj by (by eapply lookup_lt_Some). by simplify_eq.
      * rewrite list_lookup_insert_ne in Hj by done. apply (alongside_later _ _ s); [done|]. by apply Hts.
    + split; [by transitivity s'|]. by split.
Qed.
End rely.

(** ** What each thread relies on and guarantees

    As before, with a relation of its own for every thread: thread [i] takes only steps of
    [G i], and may count on every step of another being one of [R i]. *)
Section rely_guarantee.
Context {S : Type} (I : S → Prop).

Fixpoint guarded {A} (R G : S → S → Prop) (Q : A → S → Prop) (s : S) (p : prog S A) : Prop :=
  match p with
  | Done a => ∀ s', R s s' → I s' → Q a s'
  | Atom m k => ∀ s', R s s' → I s' →
      G s' (m s').2 ∧ I (m s').2 ∧ guarded R G Q (m s').2 (k (m s').1)
  end.

Lemma guarded_later {A} (R G : S → S → Prop) `{!PreOrder R} (Q : A → S → Prop) (p : prog S A) s s' :
  R s s' → guarded R G Q s p → guarded R G Q s' p.
Proof.
  intros Hr. destruct p as [a|B m k]; simpl.
  - intros Hq s2 Hr2 Hi. apply Hq; [by transitivity s'|done].
  - intros Ha s2 Hr2 Hi. apply Ha; [by transitivity s'|done].
Qed.

(** Postconditions are met again after whatever the others do. *)
Lemma guarded_bind {A B} (R G : S → S → Prop) `{!PreOrder R} (P : A → S → Prop)
    (Q : B → S → Prop) (p : prog S A) (k : A → prog S B) s :
  guarded R G P s p →
  (∀ a s', I s' → P a s' → guarded R G Q s' (k a)) → guarded R G Q s (prog_bind p k).
Proof.
  revert s. induction p as [a|C m k' IH]; intros s Hp Hk; simpl in *.
  - destruct (k a) as [b|C m k2] eqn:E; simpl.
    + intros s' Hr Hi. specialize (Hk a s' Hi (Hp s' Hr Hi)). rewrite E in Hk.
      apply Hk; [reflexivity|done].
    + intros s' Hr Hi. specialize (Hk a s' Hi (Hp s' Hr Hi)). rewrite E in Hk.
      apply Hk; [reflexivity|done].
  - intros s' Hr Hi. destruct (Hp s' Hr Hi) as (Hg & Hi' & Hal). split; [done|]. split; [done|].
    by apply IH.
Qed.

Lemma guarded_atom {A} (R G : S → S → Prop) (Q : A → S → Prop) (m : st S A) s :
  (∀ s1, R s s1 → I s1 → G s1 (m s1).2 ∧ I (m s1).2 ∧
     ∀ s2, R (m s1).2 s2 → I s2 → Q (m s1).1 s2) → guarded R G Q s (atom m).
Proof. done. Qed.

Lemma guarded_done {A} (R G : S → S → Prop) (Q : A → S → Prop) a s :
  (∀ s', R s s' → I s' → Q a s') → guarded R G Q s (Done a).
Proof. done. Qed.

Lemma guarded_weaken {A} (R G : S → S → Prop) (P Q : A → S → Prop) (p : prog S A) s :
  guarded R G P s p → (∀ a s', I s' → P a s' → Q a s') → guarded R G Q s p.
Proof.
  intros Hp HPQ. revert s Hp. induction p as [a|B m k IH]; intros s Hp; simpl in *.
  - intros s' Hr Hi. apply HPQ; [done|]. by apply Hp.
  - intros s' Hr Hi. destruct (Hp s' Hr Hi) as (? & ? & ?). split; [done|]. split; [done|]. by apply IH.
Qed.

(** A thread whose own steps are such as it relies on ends up related to where it began. *)
Lemma guarded_track {A} (R G : S → S → Prop) `{!PreOrder R} (Q : A → S → Prop) (p : prog S A) s :
  (∀ s s', G s s' → R s s') →
  guarded R G Q s p → guarded R G (λ a s', Q a s' ∧ R s s') s p.
Proof.
  intros HG Hp.
  assert (Hg : ∀ s0, R s0 s → guarded R G (λ a s', Q a s' ∧ R s0 s') s p);
    [|by apply Hg].
  revert s Hp. induction p as [a|B m k IH]; intros s Hp s0 H0; simpl in *.
  - intros s' Hr Hi. split; [by apply Hp|]. by transitivity s.
  - intros s' Hr Hi. destruct (Hp s' Hr Hi) as (Hg & Hi' & Hk). split; [done|]. split; [done|].
    apply IH; [done|]. transitivity s; [done|]. transitivity s'; [done|]. by apply HG.
Qed.

Lemma run_sched_guarded {A} (R G : nat → S → S → Prop) (Q : nat → A → S → Prop) sched :
  (∀ i, PreOrder (R i)) → (∀ i j s s', i ≠ j → G i s s' → R j s s') →
  ∀ (ts : list (prog S A)) s, I s → (∀ i p, ts !! i = Some p → guarded (R i) (G i) (Q i) s p) →
  I (run_sched sched ts s).2.
Proof.
  intros HR HG. induction sched as [|i rest IH]; intros ts s Hs Hts; simpl; [done|].
  destruct (ts !! i) as [p|] eqn:Hi; [|by apply IH]. unfold st_bind.
  pose proof (Hts i p Hi) as Hp.
  assert (Hstep : I (step_thread p s).2 ∧ guarded (R i) (G i) (Q i) (step_thread p s).2
    (step_thread p s).1 ∧ (G i s (step_thread p s).2 ∨ (step_thread p s).2 = s)).
  { destruct p as [a|B m k]; simpl; [auto|]. unfold st_bind.
    specialize (Hp s (reflexivity s) Hs). destruct (m s). simpl in *. tauto. }
  destruct (step_thread p s) as [p' s']. simpl in Hstep. destruct Hstep as (Hs' & Hp' & Hg).
  apply IH; [done|]. intros j q Hj. destruct (decide (i = j)) as [<-|Hij].
  - rewrite list_lookup_insert_eq in Hj by (by eapply lookup_lt_Some). by simplify_eq.
  - rewrite list_lookup_insert_ne in Hj by done.
    destruct Hg as [Hg| ->]; [|by apply Hts].
    eapply guarded_later; [apply HR| |by apply Hts]. by apply (HG i j).
Qed.
End rely_guarantee.
