(* ===== verification/SwitchPool.v ===== *)
(** * SwitchPool: which switch a call goes to

    [mm-api/src/switch_pool.rs] with its clients: the affinity guard of an ad
    switch-back ([ad_affinity.rs]), the viewer proxy that places viewers
    ([switch_proxy.rs]), the id and token helpers of mm-core they use, and the poll list
    of the meter ([mm-server/src/startup.rs]). Every operation is cut at its lock
    acquisitions, because requests run concurrently. *)
From Stdlib Require Import Ascii.
From S2P Require Import Prelude Errors FleetTypes Schema Interleave.
Local Open Scope Z_scope.
Local Open Scope mm_scope.

(** ** mm-core: ids and tokens *)
Definition switch_source_id (stream_id : string) : string := "stream-" +:+ stream_id.
Definition switch_viewer_prefix (stream_id : string) : string :=
  "viewer-" +:+ stream_id +:+ "-".

(** [replace] of a set of characters by a dash. *)
Fixpoint dashed (set : list Ascii.ascii) (s : string) : string :=
  match s with
  | EmptyString => EmptyString
  | String c s' => String (if bool_decide (c ∈ set) then "-"%char else c) (dashed set s')
  end.

Definition switch_viewer_id (stream_id user_id : string) : ViewerId :=
  switch_viewer_prefix stream_id +:+ dashed [":"; "@"; "!"]%char user_id.

Record SwitchClaims : Type := { sc_role : string; sc_sub : string; sc_exp : Z }.

Definition u64_wrap (z : Z) : Z := z `mod` 18446744073709551616.

(** The JSON printer, base64url and the keyed hash (hex) are library code. *)
Record TokenOps : Type := {
  claims_json : SwitchClaims → string;
  base64url : string → string;
  hmac_hex : string → string → string
}.

Definition generate_switch_token (ops : TokenOps) (now : Z) (secret role subject : string)
    (ttl_secs : Z) : string :=
  let payload := {| sc_role := role; sc_sub := subject; sc_exp := u64_wrap (now + ttl_secs) |} in
  let payload_b64 := base64url ops (claims_json ops payload) in
  let timestamp := pretty now in
  let message := payload_b64 +:+ "." +:+ timestamp in
  let sig := hmac_hex ops secret message in
  payload_b64 +:+ "." +:+ timestamp +:+ "." +:+ sig.

Record SwitchSource : Type := { ss_id : string; ss_source_type : string; ss_active : bool }.

Record SwitchViewer : Type := {
  sv_id : string;
  sv_current_source : string;
  sv_connected : bool
}.

(** ** The pool

    [C] is [Arc<SwitchClient>], compared as a pointer. *)
Record Entry (C : Type) : Type := { en_node : FleetNode; en_client : C }.
Arguments en_node {C} _.
Arguments en_client {C} _.

Record SwitchPool (C : Type) : Type := {
  sp_nodes : gmap NodeId (Entry C);
  sp_viewers : gmap ViewerId NodeId;
  sp_origin : C
}.
Arguments sp_nodes {C} _.
Arguments sp_viewers {C} _.
Arguments sp_origin {C} _.

Record ViewerRoute (C : Type) : Type := {
  vr_client : C;
  vr_node_id : option NodeId;
  vr_billable : bool
}.
Arguments vr_client {C} _.
Arguments vr_node_id {C} _.
Arguments vr_billable {C} _.

Section pool.
Context {C : Type}.
Implicit Types (p : SwitchPool C) (v : ViewerId) (id : NodeId).

Definition new_pool (origin : C) : SwitchPool C :=
  {| sp_nodes := ∅; sp_viewers := ∅; sp_origin := origin |}.

Definition with_nodes (m : gmap NodeId (Entry C)) p : SwitchPool C :=
  {| sp_nodes := m; sp_viewers := sp_viewers p; sp_origin := sp_origin p |}.
Definition with_viewers (m : gmap ViewerId NodeId) p : SwitchPool C :=
  {| sp_nodes := sp_nodes p; sp_viewers := m; sp_origin := sp_origin p |}.

(** *** Under one lock *)
Definition origin : st (SwitchPool C) C := λ p, (sp_origin p, p).

Definition node_count : st (SwitchPool C) nat := λ p, (size (sp_nodes p), p).

Definition upsert (node : FleetNode) (client : C) : st (SwitchPool C) unit := λ p,
  (tt, with_nodes (<[fn_id node := {| en_node := node; en_client := client |}]> (sp_nodes p)) p).

Definition remove_node id : st (SwitchPool C) unit := λ p,
  (tt, with_nodes (delete id (sp_nodes p)) p).

(** The order of the answer is that of the HashMap's iteration. *)
Definition drop_bindings id : st (SwitchPool C) (list ViewerId) := λ p,
  let orphaned := (filter (λ vn : ViewerId * NodeId, vn.2 = id)
    (map_to_list (sp_viewers p))).*1 in
  (orphaned, with_viewers (foldl (λ m v, delete v m) (sp_viewers p) orphaned) p).

Definition bind_viewer v (node : NodeId) : st (SwitchPool C) unit := λ p,
  (tt, with_viewers (<[v := node]> (sp_viewers p)) p).

Definition unbind_viewer v : st (SwitchPool C) unit := λ p,
  (tt, with_viewers (delete v (sp_viewers p)) p).

Definition node_of_viewer v : st (SwitchPool C) (option NodeId) := λ p,
  (sp_viewers p !! v, p).

(** [self.nodes.read().await.get(&id).map(|e| e.client.clone())]. *)
Definition client_of id : st (SwitchPool C) (option C) := λ p,
  (en_client <$> sp_nodes p !! id, p).

(** [Iterator::max_by] keeps the last of equal maxima. *)
Definition max_by {A} (cmp : A → A → comparison) (l : list A) : option A :=
  foldl (λ best x,
    match best with
    | None => Some x
    | Some y => match cmp y x with Gt => Some y | _ => Some x end
    end) None l.

Definition placement_cmp (a b : NodeId * Entry C) : comparison :=
  match Z.compare (headroom (en_node a.2)) (headroom (en_node b.2)) with
  | Eq => String.compare b.1 a.1
  | o => o
  end.

(** The choice, from the entries in the order the map yields them. *)
Definition pick_from (entries : list (NodeId * Entry C)) : option (NodeId * C) :=
  (λ ie : NodeId * Entry C, (ie.1, en_client ie.2)) <$>
    max_by placement_cmp (List.filter (λ ie, is_placeable (en_node ie.2)) entries).

Definition pick_placeable : st (SwitchPool C) (option (NodeId * C)) := λ p,
  (pick_from (map_to_list (sp_nodes p)), p).

Definition assign_fanout_node (stream : string) : st (SwitchPool C) (option (NodeId * C)) :=
  pick_placeable.

Definition nodes : st (SwitchPool C) (list FleetNode) := λ p,
  (order_by fn_id ((λ ie, en_node ie.2) <$> map_to_list (sp_nodes p)), p).

Definition node_id_of `{EqDecision C} (client : C) : st (SwitchPool C) (option NodeId) := λ p,
  (fst <$> List.find (λ ie : NodeId * Entry C, bool_decide (en_client ie.2 = client))
     (map_to_list (sp_nodes p)), p).
End pool.

(** ** What spans several locks

    [N] is everything outside of the pool that the handlers reach. *)
Section operations.
Context {C N : Type}.
Abbreviation W := (SwitchPool C * N)%type.
Implicit Types (v : ViewerId) (id : NodeId).

Definition on_pool {A} (m : st (SwitchPool C) A) : prog W A := atom (st_fst m).

Definition evict id : prog W (list ViewerId) :=
  do! _ := on_pool (remove_node id) in
  on_pool (drop_bindings id).

Definition for_viewer v : prog W (option C) :=
  do! node_id := on_pool (node_of_viewer v) in
  match node_id with
  | None => Done None
  | Some node_id => on_pool (client_of node_id)
  end.

(** The end of [route_viewer], when no node answers for the viewer. *)
Definition route_to_origin : prog W (ViewerRoute C) :=
  do! client := on_pool origin in
  do! count := on_pool node_count in
  Done {| vr_client := client; vr_node_id := None; vr_billable := bool_decide (count = 0%nat) |}.

Definition route_viewer v : prog W (ViewerRoute C) :=
  do! node_id := on_pool (node_of_viewer v) in
  match node_id with
  | None => route_to_origin
  | Some node_id =>
      do! client := on_pool (client_of node_id) in
      match client with
      | Some client =>
          Done {| vr_client := client; vr_node_id := Some node_id; vr_billable := true |}
      | None => route_to_origin
      end
  end.

Definition client_for_node (node_id : option NodeId) : prog W (option C) :=
  match node_id with
  | None => do! c := on_pool origin in Done (Some c)
  | Some id => on_pool (client_of id)
  end.

Definition assign_fanout (stream : string) : prog W C :=
  do! picked := on_pool pick_placeable in
  match picked with
  | Some (_, client) => Done client
  | None => on_pool origin
  end.

(** [startup.rs]: every switch the meter polls. *)
Definition metered_nodes : prog W (list (NodeId * C)) :=
  do! o := on_pool origin in
  do! ns := on_pool nodes in
  prog_fold (λ acc node,
    do! client := client_for_node (Some (fn_id node)) in
    match client with
    | Some client => Done (acc ++ [(fn_id node, client)])
    | None => Done acc
    end) ns [("origin", o)].

(** The same gathering in the census and in the viewer count. *)
Definition all_clients : prog W (list C) :=
  do! o := on_pool origin in
  do! ns := on_pool nodes in
  prog_fold (λ acc node,
    do! client := client_for_node (Some (fn_id node)) in
    match client with
    | Some client => Done (acc ++ [client])
    | None => Done acc
    end) ns [o].
End operations.

(** ** ad_affinity.rs *)
Module AdSwitchError.
Inductive t : Type :=
  | NodeAffinityMismatch (viewer : ViewerId) (expected actual : option NodeId)
  | NodeGone (node : NodeId).

Definition reason (e : t) : string :=
  match e with
  | NodeAffinityMismatch _ _ None => "unplaced"
  | NodeAffinityMismatch _ _ (Some _) => "moved"
  | NodeGone _ => "node_gone"
  end.
End AdSwitchError.

Definition resolve_switch_back {C N : Type} (viewer : ViewerId) (set_up_on : option NodeId) :
    prog (SwitchPool C * N) (result C AdSwitchError.t) :=
  do! current := on_pool (node_of_viewer viewer) in
  if negb (bool_decide (current = set_up_on))
  then Done (Err (AdSwitchError.NodeAffinityMismatch viewer set_up_on current))
  else
    do! client := client_for_node set_up_on in
    match client with
    | Some client => Done (Ok client)
    | None => Done (Err (AdSwitchError.NodeGone (default "origin" set_up_on)))
    end.

(** ** switch_proxy.rs *)
Record Stream : Type := { stm_id : string; stm_status : string }.

(** What the handlers reach outside of the pool: the stream table (a trait of mm-db), the
    HTTP interface of a switch, and the clock. [J] is a JSON value. *)
Class SwitchNet (C N J : Type) : Type := {
  get_stream : string → st N (result (option Stream) MMError.t);
  viewer_offer : C → ViewerId → string → J → option string → st N (result J string);
  list_viewers : C → st N (result (list SwitchViewer) string);
  list_sources : C → st N (result (list SwitchSource) string);
  unix_now : st N Z
}.

(** The part of the server's state the proxy reads: whether a pool was built at
    startup, the flag and the secret ([""] when unset). *)
Record ProxyConfig : Type := {
  px_switch_pool : bool;
  px_proxy_viewers : bool;
  px_switch_auth_secret : string
}.

Definition switch_auth_secret_opt (cfg : ProxyConfig) : option string :=
  if is_empty_str (px_switch_auth_secret cfg) then None
  else Some (px_switch_auth_secret cfg).

Definition proxy_enabled (cfg : ProxyConfig) : bool :=
  px_proxy_viewers cfg && bool_decide (is_Some (switch_auth_secret_opt cfg)).

Definition switch_base_url (public_url stream_id : string) (proxy_viewers : bool) : string :=
  if proxy_viewers then public_url +:+ "/_mm/fleet/v1/streams/" +:+ stream_id
  else public_url +:+ "/_mm/switch".

Definition VIEWER_TOKEN_TTL_SECS : Z := 60.

Record ProxyOfferRequest (J : Type) : Type := {
  pq_offer : J;
  pq_source_id : option string;
  pq_id : option string
}.
Arguments pq_offer {J} _.
Arguments pq_source_id {J} _.
Arguments pq_id {J} _.

Record ProxyOfferResponse (J : Type) : Type := { pr_id : string; pr_answer : J }.
Arguments pr_id {J} _.
Arguments pr_answer {J} _.

Record ViewerCountResponse : Type := { vc_stream_id : string; vc_viewers : Z }.

Section proxy.
Context {C N J : Type} `{SwitchNet C N J} (ops : TokenOps) (cfg : ProxyConfig).
Abbreviation W := (SwitchPool C * N)%type.

Definition on_net {A} (m : st N A) : prog W A := atom (st_snd m).

(** The node the viewer is on, while it is registered. *)
Definition existing_node (viewer : ViewerId) : prog W (option (option NodeId * C)) :=
  do! node := on_pool (node_of_viewer viewer) in
  match node with
  | Some node =>
      do! client := client_for_node (Some node) in
      Done ((λ c, (Some node, c)) <$> client)
  | None => Done None
  end.

Definition choose_node (stream_id : string) (viewer : ViewerId) : prog W (option NodeId * C) :=
  do! existing := existing_node viewer in
  match existing with
  | Some found => Done found
  | None =>
      do! assigned := on_pool (assign_fanout_node stream_id) in
      match assigned with
      | Some (node_id, client) => Done (Some node_id, client)
      | None => do! c := on_pool origin in Done (None, c)
      end
  end.

Definition record_placement (viewer : ViewerId) (node_id : option NodeId) : prog W unit :=
  on_pool match node_id with
    | Some node => bind_viewer viewer node
    | None => unbind_viewer viewer
    end.

Definition proxy_viewer_offer (user_id id : string) (req : ProxyOfferRequest J) :
    prog W (result (ProxyOfferResponse J) MMError.t) :=
  do? stream := on_net (get_stream id) in
  match stream with
  | None => Done (Err (MMError.api ErrorCode.NotFound "stream not found"))
  | Some stream =>
      if String.eqb (stm_status stream) "ended"
      then Done (Err (MMError.api ErrorCode.StreamEnded "stream has ended"))
      else
        match px_switch_pool cfg, switch_auth_secret_opt cfg with
        | true, Some secret =>
            let viewer := switch_viewer_id (stm_id stream) user_id in
            let source_id := default (switch_source_id (stm_id stream)) (pq_source_id req) in
            do! chosen := choose_node id viewer in
            do! _ := record_placement viewer chosen.1 in
            do! now := on_net unix_now in
            let token := generate_switch_token ops now secret "viewer" viewer
              VIEWER_TOKEN_TTL_SECS in
            do! answer := on_net (viewer_offer chosen.2 viewer token (pq_offer req)
              (Some source_id)) in
            match answer with
            | Ok answer => Done (Ok {| pr_id := viewer; pr_answer := answer |})
            | Err e => Done (Err (MMError.Sfu ("switch node rejected the offer: " +:+ e)))
            end
        | _, _ => Done (Err (MMError.api ErrorCode.FeatureDisabled
            "switch proxy requires MM_SWITCH_URL and MM_SWITCH_AUTH_SECRET"))
        end
  end.

(** The viewers a switch reports on a stream, those in an ad break included. *)
Definition counted_for (want : string) (l : list SwitchViewer) : Z :=
  u32_wrap (Z.of_nat (length
    (List.filter (λ v, String.eqb (sv_current_source v) want
        || starts_with "ad-" (sv_current_source v))
      (List.filter sv_connected l)))).

Definition proxy_viewer_count (id : string) : prog W ViewerCountResponse :=
  if negb (px_switch_pool cfg) then Done {| vc_stream_id := id; vc_viewers := 0 |}
  else
    let want := switch_source_id id in
    do! clients := all_clients in
    do! viewers := prog_fold (λ viewers client,
      do! answer := on_net (list_viewers client) in
      match answer with
      | Ok l => Done (u32_wrap (viewers + counted_for want l))
      | Err _ => Done viewers
      end) clients 0 in
    Done {| vc_stream_id := id; vc_viewers := viewers |}.
End proxy.

(** ** Lemmas: the choice of a node *)
Section choice.
Context {C : Type}.
Implicit Types (x y : NodeId * Entry C) (l : list (NodeId * Entry C)).

(** [x] is at least as good a choice as [y]: more headroom, then the smaller id. *)
Definition preferred x y : Prop :=
  headroom (en_node y.2) < headroom (en_node x.2) ∨
  headroom (en_node y.2) = headroom (en_node x.2) ∧ String.le x.1 y.1.

Lemma placement_cmp_preferred x y : placement_cmp y x ≠ Gt ↔ preferred x y.
Proof.
  unfold placement_cmp, preferred, String.le, String.leb.
  destruct (Z.compare_spec (headroom (en_node y.2)) (headroom (en_node x.2)));
    destruct (String.compare x.1 y.1); simpl;
    (split; [intros ?; by auto | intros [?|[??]]; (done || lia)]).
Qed.

Lemma preferred_total x y : preferred x y ∨ preferred y x.
Proof.
  unfold preferred. destruct (total String.le x.1 y.1);
    destruct (Z.lt_trichotomy (headroom (en_node x.2)) (headroom (en_node y.2)))
      as [?|[?|?]]; auto.
Qed.

#[local] Instance preferred_trans : Transitive preferred.
Proof.
  intros x y z. unfold preferred. intros [?|[??]] [?|[??]]; [left; lia..|].
  right. split; [lia | by etrans].
Qed.

Lemma max_by_snoc {A} (cmp : A → A → comparison) (l : list A) (x : A) :
  max_by cmp (l ++ [x]) =
  match max_by cmp l with
  | None => Some x
  | Some y => match cmp y x with Gt => Some y | _ => Some x end
  end.
Proof. unfold max_by. by rewrite foldl_snoc. Qed.

Lemma max_by_spec l :
  match max_by placement_cmp l with
  | None => l = []
  | Some x => x ∈ l ∧ ∀ y, y ∈ l → preferred x y
  end.
Proof.
  induction l as [|a l IH] using rev_ind; [done|]. rewrite max_by_snoc.
  assert (Hrefl : preferred a a) by (destruct (preferred_total a a); done).
  destruct (max_by placement_cmp l) as [x|].
  - destruct IH as [Hx Hbest].
    destruct (decide (placement_cmp x a = Gt)) as [Hgt|Hgt].
    + rewrite Hgt. split; [set_solver|].
      intros y [?|Hy%list_elem_of_singleton]%elem_of_app; [by auto|subst y].
      destruct (preferred_total x a) as [|Hax]; [done|].
      by apply placement_cmp_preferred in Hax.
    + assert (Hax : preferred a x) by (by apply placement_cmp_preferred).
      replace (match placement_cmp x a with Gt => Some x | _ => Some a end) with (Some a)
        by (by destruct (placement_cmp x a)).
      split; [set_solver|].
      intros y [?|Hy%list_elem_of_singleton]%elem_of_app; [etrans; eauto | by subst y].
  - subst l. split; [set_solver|]. intros y Hy%list_elem_of_singleton. by subst y.
Qed.

(** The best entry of a map is one: the id decides between equals. *)
Lemma preferred_unique (m : gmap NodeId (Entry C)) x y :
  m !! x.1 = Some x.2 → m !! y.1 = Some y.2 → preferred x y → preferred y x → x = y.
Proof.
  intros Hx Hy [?|[? Hxy]] [?|[? Hyx]]; try lia.
  assert (x.1 = y.1) as Heq by (by apply (anti_symm String.le)).
  destruct x, y; simpl in *. by simplify_eq.
Qed.

Lemma pick_from_spec (m : gmap NodeId (Entry C)) l :
  l ≡ₚ map_to_list m →
  match pick_from l with
  | None => ∀ n e, m !! n = Some e → is_placeable (en_node e) = false
  | Some (n, c) => ∃ e, m !! n = Some e ∧ en_client e = c ∧ is_placeable (en_node e) = true ∧
      ∀ n' e', m !! n' = Some e' → is_placeable (en_node e') = true →
        preferred (n, e) (n', e')
  end.
Proof.
  intros Hl. unfold pick_from.
  pose proof (max_by_spec (List.filter (λ ie, is_placeable (en_node ie.2)) l)) as Hbest.
  assert (Hin : ∀ n e, (n, e) ∈ List.filter (λ ie, is_placeable (en_node ie.2)) l ↔
    m !! n = Some e ∧ is_placeable (en_node e) = true).
  { intros n e. rewrite list_elem_of_In, filter_In, <- list_elem_of_In, Hl.
    by rewrite elem_of_map_to_list. }
  destruct (max_by _ _) as [[n e]|]; simpl.
  - destruct Hbest as [[Hn Hp]%Hin Hbest]. exists e. repeat split; [done..|].
    intros n' e' Hn' Hp'. by apply Hbest, Hin.
  - intros n e Hn. destruct (is_placeable (en_node e)) eqn:Hp; [|done].
    assert ((n, e) ∈ List.filter (λ ie, is_placeable (en_node ie.2)) l) as Hx by (by apply Hin).
    rewrite Hbest in Hx. by apply not_elem_of_nil in Hx.
Qed.
End choice.

(** Placement picks a placeable node with the most headroom, the smallest id among
    equals, and none only if no node is placeable; whatever order the hash map yields
    its entries in, the answer is the same. *)
Theorem placement_is_best_in_any_order {C : Type} (p : SwitchPool C)
    (entries : list (NodeId * Entry C)) :
  entries ≡ₚ map_to_list (sp_nodes p) →
  pick_from entries = (pick_placeable p).1 ∧
  match pick_from entries with
  | None => ∀ n e, sp_nodes p !! n = Some e → is_placeable (en_node e) = false
  | Some (n, c) => ∃ e, sp_nodes p !! n = Some e ∧ en_client e = c ∧
      is_placeable (en_node e) = true ∧
      ∀ n' e', sp_nodes p !! n' = Some e' → is_placeable (en_node e') = true →
        headroom (en_node e') < headroom (en_node e) ∨
        headroom (en_node e') = headroom (en_node e) ∧ String.le n n'
  end.
Proof.
  intros Hl. pose proof (pick_from_spec (sp_nodes p) entries Hl) as He.
  split; [|exact He]. simpl.
  pose proof (pick_from_spec (sp_nodes p) (map_to_list (sp_nodes p)) ltac:(done)) as Hm.
  destruct (pick_from entries) as [[n c]|], (pick_from (map_to_list _)) as [[n' c']|]; [| |..|done].
  - destruct He as (e & Hn & <- & Hp & Hbest), Hm as (e' & Hn' & <- & Hp' & Hbest').
    assert ((n, e) = (n', e')) by (apply (preferred_unique (sp_nodes p)); eauto).
    by simplify_eq.
  - destruct He as (e & Hn & _ & Hp & _). by rewrite (Hm n e Hn) in Hp.
  - destruct Hm as (e & Hn & _ & Hp & _). by rewrite (He n' e Hn) in Hp.
Qed.

(** ** Concurrent requests

    [url n] is the client of node [n]: node ids are not reused for another machine, so
    re-registering a node refreshes its state and keeps its address. *)
Section concurrency.
Context {C N J : Type} `{SwitchNet C N J} (ops : TokenOps) (cfg : ProxyConfig).
Context (url : NodeId → C) (o : C).
Abbreviation W := (SwitchPool C * N)%type.

Inductive call : Type :=
  | CallUpsert (node : FleetNode) (client : C)
  | CallEvict (id : NodeId)
  | CallRoute (v : ViewerId)
  | CallSwitchBack (v : ViewerId) (set_up_on : option NodeId)
  | CallOffer (user_id id : string) (req : ProxyOfferRequest J)
  | CallCount (id : string).

Inductive answer : Type :=
  | Acknowledged
  | Evicted (orphaned : list ViewerId)
  | Routed (r : ViewerRoute C)
  | SwitchBack (r : result C AdSwitchError.t)
  | Offered (r : result (ProxyOfferResponse J) MMError.t)
  | Counted (r : ViewerCountResponse).

Definition call_prog (c : call) : prog W answer :=
  match c with
  | CallUpsert node client => do! _ := on_pool (upsert node client) in Done Acknowledged
  | CallEvict id => do! l := evict id in Done (Evicted l)
  | CallRoute v => do! r := route_viewer v in Done (Routed r)
  | CallSwitchBack v set_up_on =>
      do! r := resolve_switch_back v set_up_on in Done (SwitchBack r)
  | CallOffer user_id id req =>
      do! r := proxy_viewer_offer ops cfg user_id id req in Done (Offered r)
  | CallCount id => do! r := proxy_viewer_count cfg id in Done (Counted r)
  end.

Definition keeps_address (c : call) : Prop :=
  match c with CallUpsert node client => client = url (fn_id node) | _ => True end.

Definition registered (p : SwitchPool C) : Prop :=
  sp_origin p = o ∧ ∀ n e, sp_nodes p !! n = Some e → en_client e = url n.

(** Where a node id, or its absence, leads. *)
Definition address (node_id : option NodeId) : C :=
  match node_id with Some n => url n | None => o end.

Abbreviation Reg := (λ w : W, registered w.1).

Lemma always_pool {A} (m : st (SwitchPool C) A) (Q : A → Prop) :
  (∀ p, registered p → registered (m p).2 ∧ Q (m p).1) → always Reg Q (on_pool m).
Proof.
  intros Hm. apply always_atom. intros [p n] Hp. specialize (Hm p Hp). unfold st_fst. simpl.
  by destruct (m p).
Qed.

Lemma always_net {A} (m : st N A) (Q : A → Prop) : (∀ a, Q a) → always Reg Q (on_net m).
Proof.
  intros HQ. apply always_atom. intros [p n] Hp. unfold st_snd. simpl. by destruct (m n).
Qed.

Lemma always_origin : always Reg (λ c, c = o) (on_pool origin).
Proof. apply always_pool. intros p [Ho Hp]. done. Qed.

Lemma always_client_of n :
  always Reg (λ c, match c with Some c => c = url n | None => True end) (on_pool (client_of n)).
Proof.
  apply always_pool. intros p [Ho Hp]. split; [done|]. simpl.
  destruct (sp_nodes p !! n) as [e|] eqn:He; simpl; [by apply Hp | done].
Qed.

Lemma always_read {A} (f : SwitchPool C → A) : always Reg (λ _, True) (on_pool (λ p, (f p, p))).
Proof. by apply always_pool. Qed.

Lemma always_client_for_node nid :
  always Reg (λ c, match c with Some c => c = address nid | None => True end)
    (client_for_node nid).
Proof.
  destruct nid as [n|]; [apply always_client_of|]. unfold client_for_node.
  by apply (always_bind _ _ _ _ _ always_origin).
Qed.

Lemma always_all_clients : always Reg (λ _, True) all_clients.
Proof.
  unfold all_clients. apply (always_bind _ _ _ _ _ always_origin). intros c _.
  apply (always_bind _ _ _ _ _ (always_read _)). intros ns _.
  apply always_fold; [|done]. intros acc n _.
  apply (always_bind _ _ _ _ _ (always_client_for_node (Some (fn_id n)))).
  by intros [d|] _.
Qed.

Lemma always_evict id : always Reg (λ _, True) (evict id).
Proof.
  apply (always_bind _ (λ _, True)); [|intros _ _]; apply always_pool; intros p [Ho Hp];
    (split; [|done]); (split; [done|]); [|exact Hp].
  intros n e. simpl. rewrite lookup_delete_Some. intros [_ ?]. auto.
Qed.

(** A route's client is the one its node id leads to. *)
Lemma always_route v : always Reg (λ r, vr_client r = address (vr_node_id r)) (route_viewer v).
Proof.
  assert (Hback : always Reg (λ r, vr_client r = address (vr_node_id r)) route_to_origin).
  { apply (always_bind _ _ _ _ _ always_origin). intros c ->.
    by apply (always_bind _ _ _ _ _ (always_read _)). }
  apply (always_bind _ _ _ _ _ (always_read _)). intros [n|] _; [|done].
  apply (always_bind _ _ _ _ _ (always_client_of n)). by intros [c|]; [intros ->|].
Qed.

Lemma always_switch_back v nid :
  always Reg (λ r, match r with Ok c => c = address nid | Err _ => True end)
    (resolve_switch_back v nid).
Proof.
  apply (always_bind _ _ _ _ _ (always_read _)). intros cur _.
  destruct (negb _); [done|].
  apply (always_bind _ _ _ _ _ (always_client_for_node nid)). by intros [c|].
Qed.

Lemma always_choose id v : always Reg (λ nc, nc.2 = address nc.1) (choose_node id v).
Proof.
  apply (always_bind _ (λ x, match x with Some nc => nc.2 = address nc.1 | None => True end)).
  { apply (always_bind _ _ _ _ _ (always_read _)). intros [n|] _; [|done].
    apply (always_bind _ _ _ _ _ (always_client_for_node (Some n))). by intros [c|]. }
  intros [nc|] Hnc; [done|].
  apply (always_bind _ (λ x, match x with Some nc => nc.2 = url nc.1 | None => True end)).
  - apply always_pool. intros p [Ho Hp]. split; [done|]. simpl.
    pose proof (pick_from_spec (sp_nodes p) (map_to_list (sp_nodes p)) ltac:(done)) as Hs.
    destruct (pick_from _) as [[n c]|]; [|done].
    destruct Hs as (e & Hn & <- & _). by apply Hp.
  - intros [[n c]|] Hc; [done|]. by apply (always_bind _ _ _ _ _ always_origin).
Qed.

Lemma always_offer user_id id req :
  always Reg (λ _, True) (proxy_viewer_offer ops cfg user_id id req).
Proof.
  unfold proxy_viewer_offer, prog_try.
  apply (always_bind _ (λ _, True)); [by apply always_net|]. intros [[s|]|e] _; [|done..].
  destruct (String.eqb _ _); [done|]. destruct (px_switch_pool cfg); [|done].
  destruct (switch_auth_secret_opt cfg) as [secret|]; [|done].
  apply (always_bind _ _ _ _ _ (always_choose _ _)). intros [nid c] _.
  apply (always_bind _ (λ _, True)).
  { by destruct nid; apply always_pool; intros p [??]. }
  intros _ _. apply (always_bind _ (λ _, True)); [by apply always_net|]. intros now _.
  apply (always_bind _ (λ _, True)); [by apply always_net|]. by intros [a|e] _.
Qed.

Lemma always_count id : always Reg (λ _, True) (proxy_viewer_count cfg id).
Proof.
  unfold proxy_viewer_count. destruct (negb _); [done|].
  apply (always_bind _ _ _ _ _ always_all_clients). intros cs _.
  apply (always_bind _ (λ _, True)); [|done].
  apply always_fold; [|done]. intros acc c _.
  apply (always_bind _ (λ _, True)); [by apply always_net|]. by intros [l|e] _.
Qed.

(** What each call guarantees, whatever runs beside it. *)
Definition answers_well (c : call) (a : answer) : Prop :=
  match c, a with
  | CallRoute _, Routed r => vr_client r = address (vr_node_id r)
  | CallSwitchBack _ nid, SwitchBack (Ok client) => client = address nid
  | _, _ => True
  end.

Lemma always_call c : keeps_address c → always Reg (answers_well c) (call_prog c).
Proof.
  intros Hc. destruct c as [node client|id|v|v nid|u id req|id]; simpl in Hc; unfold call_prog.
  - apply (always_bind _ (λ _, True)); [|done]. apply always_pool. intros p [Ho Hp].
    split; [|done]. split; [done|]. intros n e. simpl.
    rewrite lookup_insert_Some. intros [[<- <-]|[_ ?]]; [done | auto].
  - by apply (always_bind _ _ _ _ _ (always_evict id)).
  - by apply (always_bind _ _ _ _ _ (always_route v)).
  - apply (always_bind _ _ _ _ _ (always_switch_back v nid)). by intros [c|e].
  - by apply (always_bind _ _ _ _ _ (always_offer u id req)).
  - by apply (always_bind _ _ _ _ _ (always_count id)).
Qed.
End concurrency.

(** Under every interleaving of registrations, evictions, placements, routes,
    switch-backs and counts, an ad's switch-back is only ever sent to the switch that
    took the ad: if a route named a node and a later switch-back for that node is
    allowed, both use the same client. *)
Theorem ad_calls_reach_one_switch {C N J : Type} `{SwitchNet C N J} (ops : TokenOps)
    (cfg : ProxyConfig) (url : NodeId → C) (calls : list (call (C := C) (J := J)))
    (sched : list nat) (p : SwitchPool C) (n : N) i j v w r client :
  registered url (sp_origin p) p → Forall (keeps_address url) calls →
  let ts := (run_sched sched (call_prog ops cfg <$> calls) (p, n)).1 in
  calls !! i = Some (CallRoute v) → ts !! i = Some (Done (Routed r)) →
  calls !! j = Some (CallSwitchBack w (vr_node_id r)) →
  ts !! j = Some (Done (SwitchBack (Ok client))) →
  client = vr_client r.
Proof.
  intros Hp Hcalls ts Hi Hri Hj Hrj.
  destruct (run_sched_always (λ w, registered url (sp_origin p) w.1)
    (λ k a, ∀ c, calls !! k = Some c → answers_well url (sp_origin p) c a)
    sched (call_prog ops cfg <$> calls) (p, n) Hp) as [_ Hall].
  - intros k q Hq. apply list_lookup_fmap_Some in Hq as (c & -> & Hc).
    apply (always_weaken _ (answers_well url (sp_origin p) c)).
    + apply always_call. by eapply Forall_lookup_1.
    + intros a Ha c' Hc'. by simplify_eq.
  - pose proof (Hall i _ Hri _ Hi) as H1. pose proof (Hall j _ Hrj _ Hj) as H2.
    simpl in H1, H2. by rewrite H1, H2.
Qed.

(** ** Histories of a pool

    A network that remembers which switch answered each viewer's last offer
    ([nn_held]), which viewers' last offer was not answered, which viewers an
    eviction reported and nobody has placed since, and which viewers' node was
    registered anew with another client and nobody has placed since. *)
Record NodeNet (C : Type) : Type := {
  nn_held : gmap ViewerId C;
  nn_unanswered : gset ViewerId;
  nn_orphaned : gset ViewerId;
  nn_rehomed : gset ViewerId;
  nn_stream : result (option Stream) MMError.t;
  nn_refusal : option string;
  nn_now : Z
}.
Arguments nn_held {C} _.
Arguments nn_unanswered {C} _.
Arguments nn_orphaned {C} _.
Arguments nn_rehomed {C} _.
Arguments nn_stream {C} _.
Arguments nn_refusal {C} _.
Arguments nn_now {C} _.

Definition net_offer {C} (c : C) (v : ViewerId) : st (NodeNet C) (result unit string) := λ n,
  match nn_refusal n with
  | None => (Ok tt, {| nn_held := <[v := c]> (nn_held n);
      nn_unanswered := nn_unanswered n ∖ {[v]}; nn_orphaned := nn_orphaned n ∖ {[v]};
      nn_rehomed := nn_rehomed n ∖ {[v]};
      nn_stream := nn_stream n; nn_refusal := nn_refusal n; nn_now := nn_now n |})
  | Some e => (Err e, {| nn_held := nn_held n; nn_unanswered := {[v]} ∪ nn_unanswered n;
      nn_orphaned := nn_orphaned n ∖ {[v]}; nn_rehomed := nn_rehomed n ∖ {[v]};
      nn_stream := nn_stream n; nn_refusal := nn_refusal n; nn_now := nn_now n |})
  end.

#[export] Instance NodeNetOps {C : Type} : SwitchNet C (NodeNet C) unit := {|
  get_stream := λ _ n, (nn_stream n, n);
  viewer_offer := λ c v _ _ _, net_offer c v;
  list_viewers := λ _ n, (Ok [], n);
  list_sources := λ _ n, (Ok [], n);
  unix_now := λ n, (nn_now n, n)
|}.

Definition orphan {C} (l : list ViewerId) (n : NodeNet C) : NodeNet C := {|
  nn_held := nn_held n; nn_unanswered := nn_unanswered n;
  nn_orphaned := list_to_set l ∪ nn_orphaned n; nn_rehomed := nn_rehomed n;
  nn_stream := nn_stream n; nn_refusal := nn_refusal n; nn_now := nn_now n |}.

Definition rehome {C} (l : list ViewerId) (n : NodeNet C) : NodeNet C := {|
  nn_held := nn_held n; nn_unanswered := nn_unanswered n; nn_orphaned := nn_orphaned n;
  nn_rehomed := list_to_set l ∪ nn_rehomed n;
  nn_stream := nn_stream n; nn_refusal := nn_refusal n; nn_now := nn_now n |}.

Definition facing {C} (s : result (option Stream) MMError.t) (refusal : option string) (now : Z)
    (n : NodeNet C) : NodeNet C := {|
  nn_held := nn_held n; nn_unanswered := nn_unanswered n; nn_orphaned := nn_orphaned n;
  nn_rehomed := nn_rehomed n;
  nn_stream := s; nn_refusal := refusal; nn_now := now |}.

Section histories.
Context {C : Type} `{EqDecision C} (ops : TokenOps) (cfg : ProxyConfig) (o : C).
Abbreviation W := (SwitchPool C * NodeNet C)%type.

(** One event at a time: a node registered with a client, whichever it had before; a node
    evicted; an offer with what the stream table and the chosen switch answer. *)
Inductive pool_event : Type :=
  | Observed (node : FleetNode) (client : C)
  | Evict (id : NodeId)
  | Offer (s : result (option Stream) MMError.t) (refusal : option string) (now : Z)
      (user_id id : string) (source : option string).

Definition viewers_on (id : NodeId) (p : SwitchPool C) : list ViewerId :=
  (filter (λ vn : ViewerId * NodeId, vn.2 = id) (map_to_list (sp_viewers p))).*1.

(** The viewers of a node that had another client until now. *)
Definition moved_viewers (id : NodeId) (client : C) (p : SwitchPool C) : list ViewerId :=
  match sp_nodes p !! id with
  | Some e => if bool_decide (en_client e = client) then [] else viewers_on id p
  | None => []
  end.

Definition pool_step (w : W) (ev : pool_event) : W :=
  match ev with
  | Observed node client =>
      let w' := (run (on_pool (upsert node client)) w).2 in
      (w'.1, rehome (moved_viewers (fn_id node) client w.1) w'.2)
  | Evict id => let (l, w') := run (evict id) w in (w'.1, orphan l w'.2)
  | Offer s refusal now user_id id source =>
      (run (proxy_viewer_offer ops cfg user_id id
        {| pq_offer := tt; pq_source_id := source; pq_id := None |})
        (w.1, facing s refusal now w.2)).2
  end.

Definition fresh_net : NodeNet C := {|
  nn_held := ∅; nn_unanswered := ∅; nn_orphaned := ∅; nn_rehomed := ∅; nn_stream := Ok None;
  nn_refusal := None; nn_now := 0 |}.

Definition pool_history (evs : list pool_event) : W :=
  foldl pool_step (new_pool o, fresh_net) evs.

(** The client the pool has for a placement. *)
Definition client_at (p : SwitchPool C) (nid : option NodeId) : option C :=
  match nid with
  | Some n => en_client <$> sp_nodes p !! n
  | None => Some (sp_origin p)
  end.

Record pool_inv (w : W) : Prop := {
  pi_bound v n : sp_viewers w.1 !! v = Some n → is_Some (sp_nodes w.1 !! n);
  pi_orphaned v : v ∈ nn_orphaned w.2 → sp_viewers w.1 !! v = None;
  pi_rehomed v : v ∈ nn_rehomed w.2 → v ∉ nn_orphaned w.2 → is_Some (sp_viewers w.1 !! v);
  pi_held v c : nn_held w.2 !! v = Some c → v ∉ nn_unanswered w.2 → v ∉ nn_orphaned w.2 →
    v ∉ nn_rehomed w.2 → client_at w.1 (sp_viewers w.1 !! v) = Some c
}.

Lemma lookup_foldl_delete (l : list ViewerId) (m : gmap ViewerId NodeId) v :
  foldl (λ m v, delete v m) m l !! v = if bool_decide (v ∈ l) then None else m !! v.
Proof.
  induction l as [|a l IH] using rev_ind; [done|]. rewrite foldl_snoc.
  destruct (decide (v = a)) as [->|Hne].
  - rewrite lookup_delete_eq, bool_decide_true; [done | set_solver].
  - rewrite lookup_delete_ne, IH by done.
    destruct (decide (v ∈ l)); [rewrite !bool_decide_true | rewrite !bool_decide_false];
      set_solver.
Qed.

Lemma elem_of_viewers_on id (p : SwitchPool C) v :
  v ∈ viewers_on id p ↔ sp_viewers p !! v = Some id.
Proof.
  unfold viewers_on. rewrite list_elem_of_fmap. split.
  - intros ([v' n] & -> & [Hn Hm]%list_elem_of_filter). simpl in *. subst n.
    by apply elem_of_map_to_list.
  - intros Hm. exists (v, id). split; [done|]. apply list_elem_of_filter.
    split; [done|]. by apply elem_of_map_to_list.
Qed.

Lemma evict_inv id w : pool_inv w → pool_inv (pool_step w (Evict id)).
Proof.
  destruct w as [p n]. intros [Hb Horph Hre Hheld]. cbn [fst snd] in *.
  assert (Hv : ∀ v, foldl (λ m v, delete v m) (sp_viewers p) (viewers_on id p) !! v =
    if bool_decide (sp_viewers p !! v = Some id) then None else sp_viewers p !! v).
  { intros v. rewrite lookup_foldl_delete. by rewrite (bool_decide_ext _ _ (elem_of_viewers_on id p v)). }
  assert (Ho : ∀ v, v ∈ list_to_set (C := gset ViewerId) (viewers_on id p) ∪ nn_orphaned n ↔
    sp_viewers p !! v = Some id ∨ v ∈ nn_orphaned n)
    by (intros v; by rewrite elem_of_union, elem_of_list_to_set, elem_of_viewers_on).
  simpl. fold (viewers_on id p). split; cbn [fst snd sp_nodes sp_viewers with_nodes with_viewers
    nn_held nn_unanswered nn_orphaned nn_rehomed orphan].
  - intros v m. rewrite Hv. case_bool_decide as Hid; [done|]. intros Hvm.
    rewrite lookup_delete_ne by congruence. eauto.
  - intros v. rewrite Hv, Ho. case_bool_decide; [done|]. naive_solver.
  - intros v Hr. rewrite Ho, Hv. intros Hn. rewrite bool_decide_false by tauto.
    apply Hre; tauto.
  - intros v c Hc Hu. rewrite Ho, Hv. intros Hn Hr. rewrite bool_decide_false by tauto.
    rewrite <- (Hheld v c Hc Hu) by tauto.
    destruct (sp_viewers p !! v) as [m|] eqn:Em; [|done]. simpl.
    rewrite lookup_delete_ne; [done|]. intros ->. tauto.
Qed.

Lemma observed_inv node client w : pool_inv w → pool_inv (pool_step w (Observed node client)).
Proof.
  destruct w as [p n]. intros [Hb Horph Hre Hheld]. simpl in *. split; simpl; [|done|..].
  - intros v m Hv. destruct (decide (m = fn_id node)) as [->|?].
    + rewrite lookup_insert_eq. eauto.
    + rewrite lookup_insert_ne by done. eauto.
  - intros v. rewrite elem_of_union, elem_of_list_to_set. intros [Hm|Hr] Ho; [|by apply Hre].
    unfold moved_viewers in Hm. destruct (sp_nodes p !! fn_id node) as [e|];
      [|by apply elem_of_nil in Hm].
    case_bool_decide; [by apply elem_of_nil in Hm|]. rewrite elem_of_viewers_on in Hm. eauto.
  - intros v c Hc Hu Ho. rewrite not_elem_of_union, elem_of_list_to_set. intros [Hm Hr].
    rewrite <- (Hheld v c Hc Hu Ho Hr). destruct (sp_viewers p !! v) as [m|] eqn:Hv; [|done].
    simpl. destruct (decide (m = fn_id node)) as [->|?]; [|by rewrite lookup_insert_ne].
    rewrite lookup_insert_eq. destruct (Hb v _ Hv) as [e He]. rewrite He. simpl.
    unfold moved_viewers in Hm. rewrite He in Hm. case_bool_decide as Hcl; [by rewrite Hcl|].
    by rewrite elem_of_viewers_on in Hm.
Qed.

(** Alone, the choice reads the pool and answers a registered node or the origin. *)
Lemma choose_node_run id v w :
  pool_inv w →
  ∃ nid c, run (choose_node id v) w = ((nid, c), w) ∧ client_at w.1 nid = Some c.
Proof.
  destruct w as [p n]. intros [Hb _ _ _]. simpl in *.
  unfold st_bind, st_fst. simpl. destruct (sp_viewers p !! v) as [m|] eqn:Hv.
  - destruct (Hb v m Hv) as [e He]. simpl. unfold st_bind, st_fst. simpl. rewrite He. simpl.
    exists (Some m), (en_client e). split; [done|]. simpl. by rewrite He.
  - simpl. unfold st_bind, st_fst. simpl.
    pose proof (pick_from_spec (sp_nodes p) (map_to_list (sp_nodes p)) ltac:(done)) as Hs.
    destruct (pick_from _) as [[m c]|]; simpl.
    + destruct Hs as (e & Hn & <- & _). exists (Some m), (en_client e).
      split; [done|]. simpl. by rewrite Hn.
    + by exists None, (sp_origin p).
Qed.

Lemma client_at_registered p n c : client_at p (Some n) = Some c → is_Some (sp_nodes p !! n).
Proof. simpl. destruct (sp_nodes p !! n); [eauto|done]. Qed.

(** Placing a viewer and offering it to the switch it is placed on. *)
Lemma placed_inv w v nid client :
  pool_inv w → client_at w.1 nid = Some client →
  pool_inv ((run (record_placement v nid) w).2.1, (net_offer client v w.2).2).
Proof.
  destruct w as [p n]. intros [Hb Horph Hre Hheld] Hnid. cbn [fst snd] in *.
  assert (Hp : (run (record_placement v nid) (p, n)).2.1 =
    with_viewers (partial_alter (λ _, nid) v (sp_viewers p)) p) by (by destruct nid).
  rewrite Hp. clear Hp.
  assert (Hvis : ∀ u, sp_viewers (with_viewers (partial_alter (λ _, nid) v (sp_viewers p)) p) !! u =
    if bool_decide (u = v) then nid else sp_viewers p !! u).
  { intros u. simpl. case_bool_decide as Hu; [subst u; by rewrite lookup_partial_alter_eq|].
    by rewrite lookup_partial_alter_ne. }
  assert (Hn : nn_orphaned (net_offer client v n).2 = nn_orphaned n ∖ {[v]} ∧
    nn_rehomed (net_offer client v n).2 = nn_rehomed n ∖ {[v]})
    by (unfold net_offer; by destruct (nn_refusal n)).
  destruct Hn as [Ho Hr]. split; cbn [fst snd].
  - intros u m. rewrite Hvis. case_bool_decide; [|eauto]. intros ->.
    by apply client_at_registered in Hnid.
  - intros u. rewrite Hvis, Ho, elem_of_difference, not_elem_of_singleton.
    intros [Hu Hne]. rewrite bool_decide_false by done. by apply Horph.
  - intros u. rewrite Hvis, Hr, Ho. intros [Hu Hne]%elem_of_difference Hno.
    rewrite not_elem_of_singleton in Hne. rewrite bool_decide_false by done.
    apply Hre; [done|]. set_solver.
  - intros u c Hc Hu. rewrite Hvis, Ho, Hr. case_bool_decide as E.
    + subst u. intros _ _. unfold net_offer in Hc, Hu. destruct (nn_refusal n); simpl in Hc, Hu.
      * destruct Hu. by apply elem_of_union_l, elem_of_singleton.
      * rewrite lookup_insert_eq in Hc. simplify_eq. exact Hnid.
    + intros H1 H2. apply Hheld; [| |set_solver..]; revert Hc Hu; unfold net_offer;
        destruct (nn_refusal n); simpl; rewrite ?lookup_insert_ne by done; set_solver.
Qed.

Lemma offer_inv s refusal now user_id id source w :
  pool_inv w → pool_inv (pool_step w (Offer s refusal now user_id id source)).
Proof.
  destruct w as [p n0]. intros Hw. unfold pool_step. cbn [fst snd].
  assert (Hf : pool_inv (p, facing s refusal now n0)) by (by destruct Hw).
  unfold proxy_viewer_offer, prog_try. revert Hf. generalize (facing s refusal now n0) as n.
  intros n Hf. rewrite run_bind. unfold st_bind. cbn [on_net atom run st_snd get_stream].
  unfold st_bind, st_snd. cbn [get_stream NodeNetOps fst snd st_ret].
  destruct (nn_stream n) as [[stream|]|e]; [|done..].
  destruct (String.eqb _ _); [done|]. destruct (px_switch_pool cfg); [|done].
  destruct (switch_auth_secret_opt cfg) as [secret|]; [|done].
  set (v := switch_viewer_id _ _). rewrite run_bind. unfold st_bind.
  destruct (choose_node_run id v (p, n) Hf) as (nid & c & Hrun & Hnid).
  rewrite Hrun. clear Hrun. cbn [fst snd]. rewrite run_bind. unfold st_bind.
  pose proof (placed_inv (p, n) v nid c Hf Hnid) as Hpl.
  assert (Hn : (run (record_placement v nid) (p, n)).2.2 = n) by (by destruct nid).
  destruct (run (record_placement v nid) (p, n)) as [u [p' n']]. simpl in Hn. subst n'.
  simpl in *. unfold st_bind, st_snd. simpl.
  destruct (net_offer c v n) as [[a|e] n'']; exact Hpl.
Qed.

Lemma pool_history_inv evs : pool_inv (pool_history evs).
Proof.
  unfold pool_history. induction evs as [|ev evs IH] using rev_ind; simpl.
  - by split.
  - rewrite foldl_snoc. destruct ev; [by apply observed_inv | by apply evict_inv | by apply offer_inv].
Qed.

(** A route, alone: the client of the viewer's node, or the origin. *)
Lemma route_run v (w : W) :
  (run (route_viewer v) w).1 =
  match sp_viewers w.1 !! v ≫= λ n, (λ e, (n, e)) <$> sp_nodes w.1 !! n with
  | Some (n, e) => {| vr_client := en_client e; vr_node_id := Some n; vr_billable := true |}
  | None => {| vr_client := sp_origin w.1; vr_node_id := None;
               vr_billable := bool_decide (size (sp_nodes w.1) = 0%nat) |}
  end.
Proof.
  destruct w as [p n]. simpl. unfold st_bind, st_fst. simpl.
  destruct (sp_viewers p !! v) as [m|]; [|done]. simpl. unfold st_bind, st_fst. simpl.
  by destruct (sp_nodes p !! m).
Qed.

(** A switch-back, alone: refused unless the viewer is where the ad was set up. *)
Lemma switch_back_run v nid (w : W) c :
  (run (resolve_switch_back v nid) w).1 = Ok c ↔
  sp_viewers w.1 !! v = nid ∧ client_at w.1 nid = Some c.
Proof.
  destruct w as [p n]. simpl. unfold st_bind, st_fst. simpl. case_bool_decide as Hcur; simpl.
  2:{ split; [done|]. by intros [? _]. }
  destruct nid as [m|]; simpl; unfold st_bind, st_fst; simpl; [|naive_solver].
  destruct (sp_nodes p !! m); simpl; naive_solver.
Qed.
End histories.

(** C38. Requests served one after another: after any sequence of node registrations (each
    with any client, a known node's client being replaced), evictions and offers (each
    accepted or refused by the stream table and by the switch), a call for a viewer whose
    last offer a switch answered behaves as follows. As long as nobody evicted the viewer's
    node or registered it with another client since, the route names exactly that switch, and
    a switch-back is accepted exactly for the node the route names, and goes to that switch.
    When the node was registered with another client, the route names the node and its
    present client. When the node was evicted, the call may be billed only if no node is
    registered any more. Two overlapping offers of one viewer can part its switch from its
    binding ([racing_offers_part_viewer_and_binding]); that is outside of this theorem. *)
Theorem calls_reach_the_viewers_switch {C : Type} `{EqDecision C} (ops : TokenOps)
    (cfg : ProxyConfig) (o : C) (evs : list pool_event) (v : ViewerId) (c : C) :
  let w := pool_history ops cfg o evs in
  let route := (run (route_viewer v) w).1 in
  nn_held w.2 !! v = Some c → v ∉ nn_unanswered w.2 →
  (v ∉ nn_orphaned w.2 → v ∉ nn_rehomed w.2 →
    vr_client route = c ∧
    ∀ set_up_on c', (run (resolve_switch_back v set_up_on) w).1 = Ok c' ↔
      set_up_on = vr_node_id route ∧ c' = c) ∧
  (v ∉ nn_orphaned w.2 → v ∈ nn_rehomed w.2 →
    ∃ n e, sp_nodes w.1 !! n = Some e ∧
      route = {| vr_client := en_client e; vr_node_id := Some n; vr_billable := true |}) ∧
  (v ∈ nn_orphaned w.2 → vr_billable route = true → sp_nodes w.1 = ∅).
Proof.
  intros w. pose proof (pool_history_inv ops cfg o evs) as Hinv. fold w in Hinv.
  clearbody w. intros route Hc Hu. destruct Hinv as [Hb Horph Hre Hheld].
  split; [|split; unfold route; rewrite route_run].
  - intros Ho Hr. specialize (Hheld v c Hc Hu Ho Hr).
    assert (Hrt : vr_client route = c ∧ vr_node_id route = sp_viewers w.1 !! v).
    { unfold route. rewrite route_run. destruct (sp_viewers w.1 !! v) as [n|] eqn:Ev; simpl.
      - destruct (Hb v n Ev) as [e He]. simpl in Hheld. rewrite He in Hheld |- *.
        by injection Hheld as <-.
      - by injection Hheld as <-. }
    destruct Hrt as [Hcl Hnid]. split; [done|]. intros nid c'. rewrite switch_back_run, Hnid.
    split; [|by intros [-> ->]]. intros [<- Hc']. rewrite Hheld in Hc'. by injection Hc' as <-.
  - intros Ho Hr. destruct (Hre v Hr Ho) as [n Hn]. rewrite Hn. simpl.
    destruct (Hb v n Hn) as [e He]. rewrite He. simpl. eauto.
  - intros Ho. rewrite (Horph v Ho). simpl. intros Hs%bool_decide_eq_true.
    by apply map_size_empty_iff in Hs.
Qed.

(** ** Examples *)
Definition ex_ops : TokenOps := {|
  claims_json := λ c, sc_role c +:+ "/" +:+ sc_sub c;
  base64url := λ s, s; hmac_hex := λ k m, k +:+ m |}.
Definition ex_cfg : ProxyConfig :=
  {| px_switch_pool := true; px_proxy_viewers := true; px_switch_auth_secret := "s3cret" |}.
Definition ex_url (n : NodeId) : string := "http://" +:+ n.
Definition ex_node (id : NodeId) (current : Z) : FleetNode := {|
  fn_id := id; fn_flavor := NodeFlavor.Fanout; fn_ownership := Ownership.Rented;
  fn_state := NodeState.Healthy; fn_viewer_capacity := 250; fn_viewers_current := current |}.
Definition ex_stream : result (option Stream) MMError.t :=
  Ok (Some {| stm_id := "s"; stm_status := "active" |}).
Definition ex_offer : ProxyOfferRequest unit :=
  {| pq_offer := tt; pq_source_id := None; pq_id := None |}.
Definition ex_user : string := "@ann:example.org".
Definition ex_viewer : ViewerId := switch_viewer_id "s" ex_user.
Definition ex_pool : SwitchPool string :=
  (upsert (ex_node "b" 10) (ex_url "b") (upsert (ex_node "a" 10) (ex_url "a")
    (new_pool "http://origin")).2).2.

(** Two nodes with the same headroom: the smaller id is chosen. *)
Lemma placement_is_best_in_any_order_witness :
  pick_from (reverse (map_to_list (sp_nodes ex_pool))) = (pick_placeable ex_pool).1 ∧
  (pick_placeable ex_pool).1 = Some ("a", "http://a").
Proof.
  split; [|reflexivity].
  exact (proj1 (placement_is_best_in_any_order ex_pool
    (reverse (map_to_list (sp_nodes ex_pool))) (reverse_Permutation _))).
Defined.

Definition ex_net : NodeNet string := facing ex_stream None 1000 fresh_net.

Definition ex_calls : list (call (C := string) (J := unit)) :=
  [CallOffer ex_user "s" ex_offer; CallRoute ex_viewer; CallEvict "b";
   CallSwitchBack ex_viewer (Some "a")].

(** The eviction of another node runs between the steps of the route. *)
Definition ex_sched : list nat := [0; 0; 0; 0; 0; 0; 1; 2; 1; 2; 3; 3]%nat.

Lemma ad_calls_reach_one_switch_witness :
  ∃ r client,
    (run_sched ex_sched (call_prog ex_ops ex_cfg <$> ex_calls) (ex_pool, ex_net)).1 !! 1%nat =
      Some (Done (Routed r)) ∧
    (run_sched ex_sched (call_prog ex_ops ex_cfg <$> ex_calls) (ex_pool, ex_net)).1 !! 3%nat =
      Some (Done (SwitchBack (Ok client))) ∧
    client = vr_client r.
Proof.
  exists {| vr_client := "http://a"; vr_node_id := Some "a"; vr_billable := true |}, "http://a".
  split; [reflexivity|]. split; [reflexivity|].
  apply (ad_calls_reach_one_switch ex_ops ex_cfg ex_url ex_calls ex_sched ex_pool ex_net
    1 3 ex_viewer ex_viewer).
  - split; [reflexivity|]. intros n e He.
    apply elem_of_map_to_list in He. vm_compute in He.
    repeat (apply list_elem_of_In in He; destruct He as [He|He];
      [injection He as <- <-; reflexivity|]; apply list_elem_of_In in He).
    by apply not_elem_of_nil in He.
  - repeat constructor.
  - reflexivity.
  - reflexivity.
  - reflexivity.
  - reflexivity.
Defined.

Definition ex_history : list pool_event :=
  [Observed (ex_node "a" 10) (ex_url "a"); Offer ex_stream None 1000 ex_user "s" None;
   Observed (ex_node "b" 0) (ex_url "b"); Evict "b"].

(** Another node comes and goes; the viewer's calls keep reaching the first one. *)
Lemma calls_reach_the_viewers_switch_witness :
  vr_client (run (route_viewer ex_viewer)
    (pool_history ex_ops ex_cfg "http://origin" ex_history)).1 = "http://a".
Proof.
  refine (proj1 (proj1 (calls_reach_the_viewers_switch ex_ops ex_cfg "http://origin"
    ex_history ex_viewer "http://a" _ _) _ _)).
  - reflexivity.
  - apply (bool_decide_eq_true_1 _). vm_compute. reflexivity.
  - apply (bool_decide_eq_true_1 _). vm_compute. reflexivity.
  - apply (bool_decide_eq_true_1 _). vm_compute. reflexivity.
Defined.

(** The last node of the fleet is evicted: its viewer, still connected to it, is routed
    to the origin, and the route says that an impression may be billed. *)
Lemma evicting_the_last_node_bills_its_viewers :
  let w := pool_history ex_ops ex_cfg "http://origin"
    [Observed (ex_node "a" 10) (ex_url "a"); Offer ex_stream None 1000 ex_user "s" None; Evict "a"] in
  nn_held w.2 !! ex_viewer = Some "http://a" ∧
  (run (route_viewer ex_viewer) w).1 =
    {| vr_client := "http://origin"; vr_node_id := None; vr_billable := true |}.
Proof. vm_compute. done. Qed.

(** A node registered anew with another client: its viewer's calls follow the new client. *)
Lemma replaced_client_takes_the_calls :
  let w := pool_history ex_ops ex_cfg "http://origin"
    [Observed (ex_node "a" 10) (ex_url "a"); Offer ex_stream None 1000 ex_user "s" None;
     Observed (ex_node "a" 10) "http://a.new"] in
  nn_held w.2 !! ex_viewer = Some "http://a" ∧
  (run (route_viewer ex_viewer) w).1 =
    {| vr_client := "http://a.new"; vr_node_id := Some "a"; vr_billable := true |}.
Proof. vm_compute. done. Qed.

(** Two offers of one viewer race: the second node is registered after the first offer
    chose, both bind, and the order of the bindings is not the order of the answers.
    The viewer is on one node and bound, billably, to the other. *)
Lemma racing_offers_part_viewer_and_binding :
  let w := (run_sched [0; 0; 0; 1; 2; 2; 2; 2; 0; 0; 0; 2; 2]%nat
    (call_prog ex_ops ex_cfg <$>
      [CallOffer ex_user "s" ex_offer; CallUpsert (ex_node "b" 0) (ex_url "b");
       CallOffer ex_user "s" ex_offer])
    ((upsert (ex_node "a" 10) (ex_url "a") (new_pool "http://origin")).2, ex_net)).2 in
  nn_held w.2 !! ex_viewer = Some "http://b" ∧
  (run (route_viewer ex_viewer) w).1 =
    {| vr_client := "http://a"; vr_node_id := Some "a"; vr_billable := true |}.
Proof. vm_compute. done. Qed.

(** A node evicted while an offer is choosing it is bound after its bindings were
    dropped; the next offer repairs that. *)
Lemma eviction_race_leaves_a_binding :
  let w := (run_sched [0; 0; 0; 1; 1; 0]%nat
    (call_prog ex_ops ex_cfg <$> [CallOffer ex_user "s" ex_offer; CallEvict "a"])
    ((upsert (ex_node "a" 10) (ex_url "a") (new_pool "http://origin")).2, ex_net)).2 in
  sp_nodes w.1 = ∅ ∧ sp_viewers w.1 !! ex_viewer = Some "a" ∧
  sp_viewers (run (proxy_viewer_offer ex_ops ex_cfg ex_user "s" ex_offer) w).2.1 = ∅.
Proof. vm_compute. done. Qed.

(** Different users can have the same viewer id. *)
Lemma viewer_ids_collide (stream_id : string) :
  switch_viewer_id stream_id "@ann-lee:host" = switch_viewer_id stream_id "@ann:lee-host".
Proof. reflexivity. Qed.
