(* ===== verification/Census.v ===== *)
(** * Census: who is watching, and what the ladder may do about it

    [mm-api/src/fleet_census.rs], the switch-backed census of the runner, as an instance
    of [BroadcastCensus] that satisfies the laws the runner relies on; and the parts of
    [mm-api/src/ladder_actuator.rs] that decide: the drain and the recording gate. *)
From S2P Require Import Prelude F64 FleetTypes Billing Planner Ladder Schema Provider.
From S2P Require Import DesiredStore Sweeper Tfvars LadderDb Runner Interleave SwitchPool.
Local Open Scope Z_scope.
Local Open Scope mm_scope.

Definition programme_source_id (broadcast_id : string) : string := "stream-" +:+ broadcast_id.

(** [*counts.entry(source).or_insert(0) += 1] on [u32]. *)
Definition count_source (counts : gmap string Z) (source : string) : gmap string Z :=
  <[source := u32_wrap (default 0 (counts !! source) + 1)]> counts.

Definition connected_sources (l : list SwitchViewer) : list string :=
  sv_current_source <$> List.filter sv_connected l.

Definition active_ids (t : Tables) : list string :=
  (List.filter (λ kv : string * StreamRec, is_active kv.2) (map_to_list (t_streams t))).*1.

Section census.
Context {C N J : Type} `{SwitchNet C N J} {P : Type}.
Abbreviation W := (SwitchPool C * N)%type.

Definition viewers_by_source : prog W (gmap string Z) :=
  do! clients := all_clients in
  prog_fold (λ counts client,
    do! answer := on_net (list_viewers client) in
    match answer with
    | Ok viewers => Done (foldl count_source counts (connected_sources viewers))
    | Err _ => Done counts
    end) clients ∅.

Definition ad_viewers (counts : gmap string Z) : Z :=
  u32_sum (List.filter (λ sn : string * Z, starts_with "ad-" sn.1) (map_to_list counts)).*2.

Definition attribute (counts : gmap string Z) (ids : list string) : list Runner.LiveBroadcast :=
  let single_live := bool_decide (length ids = 1%nat) in
  (λ id,
    let viewers := default 0 (counts !! programme_source_id id) in
    {| lb_broadcast_id := id;
       lb_viewers := if single_live then u32_wrap (viewers + ad_viewers counts) else viewers |})
  <$> ids.

Definition census_live_broadcasts : st (Db * (P * W)) (result (list Runner.LiveBroadcast) string) :=
  let! ids := st_fst (exec (reading active_ids)) in
  match ids with
  | Err e => st_ret (Err ("listing active streams failed: " +:+ dbe_message e))
  | Ok ids =>
      let! counts := st_snd (st_snd (run viewers_by_source)) in
      st_ret (Ok (attribute counts ids))
  end.

Definition census_programme_is_live (broadcast_id : string) :
    st (Db * (P * W)) (result bool string) :=
  let want := programme_source_id broadcast_id in
  let? sources := st_snd (st_snd (run (
    do! client := on_pool origin in on_net (list_sources client)))) in
  st_ret (Ok (existsb (λ s, String.eqb (ss_id s) want && ss_active s) sources)).
End census.

#[export] Instance SwitchCensus {C N J P : Type} `{!SwitchNet C N J} :
  BroadcastCensus (Db * (P * (SwitchPool C * N))) := {|
  live_broadcasts := census_live_broadcasts;
  programme_is_live := census_programme_is_live
|}.

(** ** ladder_actuator.rs *)
Definition drain_verdict (fanout_nodes_serving : nat) : result unit string :=
  if bool_decide (fanout_nodes_serving = 0%nat) then Ok tt
  else Err (pretty fanout_nodes_serving +:+
    " fan-out node(s) serve this broadcast, and draining live viewers is not implemented: nothing can tell a connected viewer to move (FR-502 is unbuilt), and forgetting the node would leave them on an unmetered node. Viewers stay where they are; the ladder retries.").

(** [has_pool]: whether a switch is configured. *)
Definition actuator_drain {C N : Type} (has_pool : bool) (broadcast_id : string) :
    prog (SwitchPool C * N) (result unit string) :=
  if negb has_pool then Done (Ok tt)
  else
    let prefix := "bc-" +:+ broadcast_id +:+ "-" in
    do! ns := on_pool nodes in
    Done (drain_verdict (length (List.filter (λ n, starts_with prefix (fn_id n)) ns))).

Definition recording_blocked_at (applied : option DemotionStep.t) : bool :=
  match applied with
  | Some step => negb (DemotionStep.allows_recording step)
  | None => false
  end.

Definition RECORDING_REFUSED : string :=
  "Recording is paused for this broadcast because its balance does not cover the projected cost of the rest of it. Adding funds lifts this.".

(** [has_db]: whether there is a PostgreSQL pool. *)
Definition recording_refusal (has_db : bool) (broadcast_id : string) : st Db (option string) :=
  if negb has_db then st_ret None
  else
    let! r := LadderDb.state broadcast_id in
    match r with
    | Ok state =>
        let applied := s ← state; DemotionStep.parse (ds_applied_step s) in
        st_ret (if recording_blocked_at applied then Some RECORDING_REFUSED else None)
    | Err _ => st_ret None
    end.

(** ** Lemmas: counting *)
Definition occurrences (s : string) (l : list string) : Z :=
  Z.of_nat (length (List.filter (String.eqb s) l)).

Definition ads_in (l : list string) : Z :=
  Z.of_nat (length (List.filter (starts_with "ad-") l)).

(** The sum of the counts whose key satisfies [p]. *)
Definition sum_where (p : string → bool) (m : gmap string Z) : Z :=
  sumZ ((λ kv : string * Z, if p kv.1 then kv.2 else 0) <$> map_to_list m).

Lemma sum_where_insert_fresh p (m : gmap string Z) k v :
  m !! k = None → sum_where p (<[k := v]> m) = (if p k then v else 0) + sum_where p m.
Proof. intros Hk. unfold sum_where. by rewrite map_to_list_insert. Qed.

Lemma sum_where_insert p (m : gmap string Z) k v :
  sum_where p (<[k := v]> m) =
  (if p k then v - default 0 (m !! k) else 0) + sum_where p m.
Proof.
  rewrite <- insert_delete_eq. rewrite sum_where_insert_fresh by apply lookup_delete_eq.
  destruct (m !! k) as [old|] eqn:Hk; simpl.
  - rewrite <- (insert_delete_id m k old Hk) at 2.
    rewrite sum_where_insert_fresh by apply lookup_delete_eq. destruct (p k); lia.
  - rewrite delete_id by done. destruct (p k); lia.
Qed.

Lemma filter_length_le {A} (p : A → bool) (l : list A) :
  (length (List.filter p l) ≤ length l)%nat.
Proof. induction l as [|x l IH]; simpl; [lia|]. destruct (p x); simpl; lia. Qed.

Lemma occurrences_snoc s l x :
  occurrences s (l ++ [x]) = occurrences s l + (if String.eqb s x then 1 else 0).
Proof.
  unfold occurrences. rewrite List.filter_app, length_app. simpl.
  destruct (String.eqb s x); simpl; lia.
Qed.

Lemma occurrences_le s l : 0 ≤ occurrences s l ≤ Z.of_nat (length l).
Proof. unfold occurrences. pose proof (filter_length_le (String.eqb s) l). lia. Qed.

(** While the audience fits in a [u32], the tally is exact. *)
Lemma tally_spec (l : list string) :
  Z.of_nat (length l) ≤ u32_max →
  (∀ s, default 0 (foldl count_source ∅ l !! s) = occurrences s l) ∧
  sum_where (starts_with "ad-") (foldl count_source ∅ l) = ads_in l.
Proof.
  induction l as [|x l IH] using rev_ind; intros Hlen; [done|].
  rewrite length_app in Hlen. simpl in Hlen. destruct IH as [IHs IHa]; [lia|].
  rewrite foldl_snoc. unfold count_source at 1 3. rewrite IHs.
  pose proof (occurrences_le x l) as Hle.
  rewrite u32_wrap_id by (unfold is_u32; lia). split.
  - intros s. rewrite occurrences_snoc. destruct (decide (s = x)) as [->|Hne].
    + rewrite lookup_insert_eq, String.eqb_refl. done.
    + rewrite lookup_insert_ne by done. rewrite IHs.
      rewrite (proj2 (String.eqb_neq s x)) by done. lia.
  - rewrite sum_where_insert, IHs, IHa. unfold ads_in.
    rewrite List.filter_app, length_app. cbn [List.filter].
    destruct (starts_with "ad-" x); simpl; lia.
Qed.

Lemma sum_where_filter p (m : gmap string Z) :
  sumZ (List.filter (λ sn : string * Z, p sn.1) (map_to_list m)).*2 = sum_where p m.
Proof.
  unfold sum_where. induction (map_to_list m) as [|[k v] l IH]; csimpl; [done|].
  destruct (p k); csimpl; lia.
Qed.

Lemma ad_viewers_tally (l : list string) :
  Z.of_nat (length l) ≤ u32_max → ad_viewers (foldl count_source ∅ l) = ads_in l.
Proof.
  intros Hlen. destruct (tally_spec l Hlen) as [Hs Ha]. unfold ad_viewers.
  assert (Hads : ads_in l ≤ u32_max).
  { unfold ads_in. pose proof (filter_length_le (starts_with "ad-") l). lia. }
  rewrite u32_sum_exact; rewrite ?sum_where_filter, ?Ha; try done.
  apply Forall_forall. intros n Hn. apply list_elem_of_fmap in Hn as ([k v] & -> & Hk).
  apply list_elem_of_In, filter_In in Hk as [Hk _].
  apply list_elem_of_In, elem_of_map_to_list in Hk. specialize (Hs k). rewrite Hk in Hs.
  simpl in *. pose proof (occurrences_le k l). lia.
Qed.

(** Different sources are watched by different viewers. *)
Lemma occurrences_disjoint (ks l : list string) :
  NoDup ks → sumZ ((λ k, occurrences k l) <$> ks) ≤ Z.of_nat (length l).
Proof.
  intros Hks. induction l as [|x l IH] using rev_ind.
  { clear. induction ks as [|k ks IH]; csimpl; [done|].
    change (occurrences k []) with 0. simpl in IH. lia. }
  rewrite length_app. simpl.
  assert (H1 : sumZ ((λ k, if String.eqb k x then 1 else 0) <$> ks) ≤ 1).
  { clear IH. induction Hks as [|k ks Hk Hks IH]; csimpl; [lia|].
    destruct (String.eqb_spec k x) as [->|?]; [|lia].
    assert (sumZ ((λ k, if String.eqb k x then 1 else 0) <$> ks) = 0) as ->; [|lia].
    clear -Hk. induction ks as [|k ks IH]; csimpl; [done|]. apply not_elem_of_cons in Hk as [? ?].
    rewrite (proj2 (String.eqb_neq k x)) by done. by rewrite IH. }
  assert (Hsum : sumZ ((λ k, occurrences k (l ++ [x])) <$> ks) =
    sumZ ((λ k, occurrences k l) <$> ks) + sumZ ((λ k, if String.eqb k x then 1 else 0) <$> ks)).
  { clear. induction ks as [|k ks IH]; csimpl; [done|]. rewrite IH, occurrences_snoc. lia. }
  lia.
Qed.

Lemma programme_and_ads_disjoint b (l : list string) :
  occurrences (programme_source_id b) l + ads_in l ≤ Z.of_nat (length l).
Proof.
  induction l as [|x l IH] using rev_ind; [done|].
  rewrite occurrences_snoc. unfold ads_in in *.
  rewrite List.filter_app, !length_app. cbn [List.filter].
  destruct (String.eqb_spec (programme_source_id b) x) as [<-|]; [simpl; lia|].
  destruct (starts_with "ad-" x); simpl; lia.
Qed.

(** ** Lemmas: gathering *)

(** Listing is a GET: the switches stay as they are. *)
Class ListsOnly (C N J : Type) `{SwitchNet C N J} : Type := {
  viewers_at : C → N → result (list SwitchViewer) string;
  list_viewers_reads c n : list_viewers c n = (viewers_at c n, n)
}.

(** Every node is registered under its own id, as [upsert] does it. *)
Definition keyed {C} (p : SwitchPool C) : Prop :=
  ∀ id e, sp_nodes p !! id = Some e → fn_id (en_node e) = id.

Lemma keyed_upsert {C} (p : SwitchPool C) node client :
  keyed p → keyed (upsert node client p).2.
Proof.
  intros Hp id e. simpl. rewrite lookup_insert_Some. intros [[<- <-]|[_ ?]]; [done | auto].
Qed.

Lemma run_fold_reads {S A B} (f : B → A → prog S B) (g : B → A → B) (l : list A) s :
  (∀ b a, run (f b a) s = (g b a, s)) →
  ∀ b, run (prog_fold f l b) s = (foldl g b l, s).
Proof.
  intros Hf. induction l as [|a l IH]; intros b; [done|].
  cbn [prog_fold]. rewrite run_bind. unfold st_bind. rewrite Hf. apply IH.
Qed.

(** The origin and every registered node. *)
Definition pool_clients {C} (p : SwitchPool C) : list C :=
  sp_origin p :: ((λ ie : NodeId * Entry C, en_client ie.2) <$> map_to_list (sp_nodes p)).

Lemma all_clients_run {C N} (p : SwitchPool C) (n : N) :
  keyed p → ∃ l, run all_clients (p, n) = (l, (p, n)) ∧ l ≡ₚ pool_clients p.
Proof.
  intros Hp. unfold all_clients.
  set (pick := λ node, en_client <$> sp_nodes p !! fn_id node).
  set (ns := order_by fn_id ((λ ie : NodeId * Entry C, en_node ie.2) <$> map_to_list (sp_nodes p))).
  exists (sp_origin p :: omap pick ns). split.
  - rewrite run_bind. unfold st_bind. cbn [run on_pool atom].
    unfold st_bind, st_fst. cbn [origin fst snd st_ret]. rewrite run_bind.
    unfold st_bind, st_fst. cbn [run on_pool atom]. unfold st_bind, st_fst.
    cbn [nodes fst snd st_ret]. fold ns.
    rewrite (run_fold_reads _ (λ acc node, acc ++ option_list (pick node))).
    + f_equal.
      assert (Hacc : ∀ acc : list C,
        foldl (λ acc node, acc ++ option_list (pick node)) acc ns = acc ++ omap pick ns).
      { generalize ns. clear. intros ns. induction ns as [|a ns IH]; intros acc; csimpl.
        - by rewrite app_nil_r.
        - rewrite IH, <- app_assoc. by destruct (pick a). }
      apply Hacc.
    + intros acc node. rewrite run_bind. unfold st_bind. cbn [run client_for_node on_pool atom].
      unfold st_bind, st_fst. cbn [client_of fst snd st_ret]. fold (pick node).
      destruct (pick node); simpl; [done | by rewrite app_nil_r].
  - unfold pool_clients. apply perm_skip. unfold ns. rewrite order_by_perm.
    assert (Hall : Forall (λ ie : NodeId * Entry C, sp_nodes p !! ie.1 = Some ie.2)
      (map_to_list (sp_nodes p))).
    { apply Forall_forall. intros [id e] He. by apply elem_of_map_to_list. }
    induction Hall as [|[id e] l He Hl IH]; csimpl; [done|].
    unfold pick at 1. rewrite (Hp id e He). simpl in He. rewrite He. csimpl. by rewrite IH.
Qed.

Lemma foldl_bind {A B S} (g : S → B → S) (f : A → list B) (l : list A) (s : S) :
  foldl (λ s a, foldl g s (f a)) s l = foldl g s (l ≫= f).
Proof. revert s. induction l as [|a l IH]; intros s; csimpl; [done|]. by rewrite IH, foldl_app. Qed.

#[export] Instance occurrences_perm s : Proper ((≡ₚ) ==> (=)) (occurrences s).
Proof.
  intros l1 l2 Hl. unfold occurrences. induction Hl; simpl;
    repeat destruct (String.eqb s _); simpl; lia.
Qed.

#[export] Instance ads_in_perm : Proper ((≡ₚ) ==> (=)) ads_in.
Proof.
  intros l1 l2 Hl. unfold ads_in.
  induction Hl as [|x l1 l2 Hl IH|x y l|l1 l2 l3 H1 IH1 H2 IH2]; cbn [List.filter];
    [done|..|lia]; repeat destruct (starts_with "ad-" _); cbn [length]; lia.
Qed.

#[export] Instance programme_source_id_inj : Inj (=) (=) programme_source_id.
Proof. intros a b. unfold programme_source_id. apply (inj (String.append "stream-")). Qed.

Section audience.
Context {C N J : Type} `{!SwitchNet C N J} `{!ListsOnly C N J}.

Definition reported (n : N) (c : C) : list string :=
  match viewers_at c n with Ok l => connected_sources l | Err _ => [] end.

(** The sources of all connected viewers, on every switch that answers. *)
Definition audience (p : SwitchPool C) (n : N) : list string :=
  pool_clients p ≫= reported n.

Lemma viewers_by_source_run (p : SwitchPool C) (n : N) :
  keyed p →
  ∃ l, run viewers_by_source (p, n) = (foldl count_source ∅ l, (p, n)) ∧ l ≡ₚ audience p n.
Proof.
  intros Hp. destruct (all_clients_run p n Hp) as (cs & Hrun & Hcs).
  exists (cs ≫= reported n). split; [|unfold audience; by rewrite Hcs].
  unfold viewers_by_source. rewrite run_bind. unfold st_bind. rewrite Hrun.
  rewrite (run_fold_reads _ (λ counts c, foldl count_source counts (reported n c))).
  - by rewrite foldl_bind.
  - intros counts c. rewrite run_bind. unfold st_bind. cbn [run on_net atom].
    unfold st_bind, st_snd. cbn [fst snd]. rewrite list_viewers_reads. unfold reported.
    cbn [st_ret]. by destruct (viewers_at c n).
Qed.

Lemma active_ids_NoDup t : NoDup (active_ids t).
Proof.
  unfold active_ids. pose proof (NoDup_fst_map_to_list (t_streams t)) as Hnd.
  induction (map_to_list (t_streams t)) as [|[k v] l IH]; csimpl in *; [done|].
  apply NoDup_cons in Hnd as [Hk Hnd]. destruct (is_active v); [|by apply IH].
  csimpl. apply NoDup_cons. split; [|by apply IH].
  intros (kv & -> & Hkv)%list_elem_of_fmap. apply Hk, list_elem_of_fmap. exists kv.
  split; [done|]. apply list_elem_of_In in Hkv. apply filter_In in Hkv as [Hkv _].
  by apply list_elem_of_In.
Qed.

(** What the census attributes, against the audience it was told about. *)
Lemma attribute_spec (l ids : list string) (aud : list string) :
  l ≡ₚ aud → Z.of_nat (length aud) ≤ u32_max → NoDup ids →
  let bs := attribute (foldl count_source ∅ l) ids in
  lb_broadcast_id <$> bs = ids ∧
  (∀ b, b ∈ bs → lb_viewers b = occurrences (programme_source_id (lb_broadcast_id b)) aud +
    (if bool_decide (length ids = 1%nat) then ads_in aud else 0)) ∧
  sumZ (lb_viewers <$> bs) ≤ Z.of_nat (length aud).
Proof.
  intros Hl Hlen Hnd bs. pose proof (Permutation_length Hl) as Hll.
  destruct (tally_spec l) as [Hs0 _]; [by rewrite Hll|].
  assert (Hs : ∀ s, default 0 (foldl count_source ∅ l !! s) = occurrences s aud)
    by (intros s; by rewrite Hs0, Hl).
  assert (Ha : ad_viewers (foldl count_source ∅ l) = ads_in aud).
  { rewrite ad_viewers_tally by (by rewrite Hll). by rewrite Hl. }
  assert (Hb : ∀ id, u32_wrap (occurrences (programme_source_id id) aud + ads_in aud) =
    occurrences (programme_source_id id) aud + ads_in aud).
  { intros id. apply u32_wrap_id.
    pose proof (programme_and_ads_disjoint id aud). unfold is_u32.
    pose proof (occurrences_le (programme_source_id id) aud). unfold ads_in in *. lia. }
  assert (Hv : bs = (λ id, {| lb_broadcast_id := id;
    lb_viewers := occurrences (programme_source_id id) aud +
      (if bool_decide (length ids = 1%nat) then ads_in aud else 0) |}) <$> ids).
  { subst bs. unfold attribute. apply list_fmap_ext. intros i id _.
    rewrite Ha, Hs, Hb. destruct (bool_decide _); [done|]. by rewrite Z.add_0_r. }
  rewrite Hv. split; [|split].
  - rewrite <- list_fmap_compose. apply list_fmap_id.
  - intros b (id & -> & _)%list_elem_of_fmap. done.
  - rewrite <- list_fmap_compose. unfold compose. simpl. case_bool_decide as H1.
    + destruct ids as [|id [|]]; try done. csimpl.
      pose proof (programme_and_ads_disjoint id aud). lia.
    + pose proof (occurrences_disjoint (programme_source_id <$> ids) aud) as Hd.
      rewrite <- list_fmap_compose in Hd. unfold compose in Hd.
      rewrite (list_fmap_ext (λ id, occurrences (programme_source_id id) aud + 0)
        (λ id, occurrences (programme_source_id id) aud)) by (intros; lia).
      apply Hd. exact (NoDup_fmap_2 programme_source_id ids Hnd).
Qed.
End audience.

(** ** The census *)

(** A census that answers lists exactly the active streams, whatever the database
    lost on the way (a failed query is never an empty list); each broadcast gets the
    connected viewers of its programme on the origin and on every node that answers,
    and those in an ad break when it is the only one live; no viewer is counted for two
    broadcasts. *)
Theorem census_counts_each_viewer_once {C N J P : Type} `{!SwitchNet C N J}
    `{!ListsOnly C N J} (db : Db) (q : P) (p : SwitchPool C) (n : N) bs :
  keyed p → Z.of_nat (length (audience p n)) ≤ u32_max →
  (census_live_broadcasts (db, (q, (p, n)))).1 = Ok bs →
  lb_broadcast_id <$> bs = active_ids (db_tables db) ∧
  (∀ b, b ∈ bs →
    lb_viewers b = occurrences (programme_source_id (lb_broadcast_id b)) (audience p n) +
      (if bool_decide (length bs = 1%nat) then ads_in (audience p n) else 0)) ∧
  sumZ (lb_viewers <$> bs) ≤ Z.of_nat (length (audience p n)).
Proof.
  intros Hp Hlen. unfold census_live_broadcasts, st_bind at 1. unfold st_fst. cbn [fst snd].
  destruct (exec (reading active_ids) db) as [[ids|e] db'] eqn:Hex; [|done].
  destruct (exec_ok (reading active_ids) db ids) as [now Hids]; [by rewrite Hex|].
  injection Hids as Hids _. unfold st_bind, st_snd. cbn [fst snd].
  destruct (viewers_by_source_run p n Hp) as (l & Hrun & Hl). rewrite Hrun.
  cbn [st_ret fst]. intros [= <-].
  destruct (attribute_spec l ids (audience p n) Hl Hlen) as (H1 & H2 & H3).
  { rewrite <- Hids. apply active_ids_NoDup. }
  assert (Hlb : length (attribute (foldl count_source ∅ l) ids) = length ids)
    by (unfold attribute; by rewrite length_fmap).
  rewrite Hlb, Hids. done.
Qed.

(** ** The runner's laws

    A provider beside other state is a provider. *)
#[export] Instance provider_beside {P E : Type} `{Provider P} : Provider (P * E) := {|
  provider_name := provider_name (P := P);
  provider_create := λ spec, st_fst (provider_create spec);
  provider_destroy := λ id, st_fst (provider_destroy id);
  provider_list := st_fst provider_list
|}.

#[export] Instance provider_beside_laws {P E : Type} `{ProviderLaws P} : ProviderLaws (P * E).
Proof.
  refine {| running := λ pe : P * E, running pe.1 |}; intros [p e]; intros *; simpl;
    unfold st_fst; simpl.
  - pose proof (destroy_only_removes p id h). by destruct (provider_destroy id p).
  - pose proof (destroy_spares_others p id h). by destruct (provider_destroy id p).
  - pose proof (destroy_ok_gone p id h). by destruct (provider_destroy id p).
  - pose proof (list_changes_nothing p). by destruct (provider_list p).
  - pose proof (list_ok_running p l h). by destruct (provider_list p).
Defined.

(** The switch-backed census reads: it changes neither the tables nor a machine. *)
#[export] Instance switch_census_laws {C N J P : Type} `{!SwitchNet C N J}
    `{ProviderLaws P} : CensusLaws (P * (SwitchPool C * N)).
Proof.
  split; simpl.
  - intros [db [p w]]. unfold census_live_broadcasts, st_bind, st_fst, observes. cbn [fst snd].
    pose proof (exec_reading_tables active_ids db) as Ht.
    destruct (exec (reading active_ids) db) as [[ids|e] db']; cbn [fst snd] in *; [|by split].
    unfold st_snd. cbn [fst snd]. destruct (run viewers_by_source w). by split.
  - intros id [db [p w]]. unfold census_programme_is_live, st_try, st_bind at 1, observes.
    unfold st_snd. cbn [fst snd].
    by destruct (run _ w) as [[l|e] w']; split.
Qed.

(** ** The drain and the recording gate *)

(** A drain succeeds only when no registered node of the broadcast is left to drain,
    and it changes nothing in either case. *)
Lemma drain_succeeds_iff_nothing_serves {C N} (p : SwitchPool C) (n : N) b :
  (run (actuator_drain true b) (p, n)).2 = (p, n) ∧
  (is_ok (run (actuator_drain true b) (p, n)).1 = true ↔
   ∀ id e, sp_nodes p !! id = Some e →
     starts_with ("bc-" +:+ b +:+ "-") (fn_id (en_node e)) = false).
Proof.
  split; [done|].
  set (prefix := "bc-" +:+ b +:+ "-").
  set (ns := order_by fn_id ((λ ie : NodeId * Entry C, en_node ie.2) <$> map_to_list (sp_nodes p))).
  change (is_ok (drain_verdict (length (List.filter (λ n, starts_with prefix (fn_id n)) ns))) = true
    ↔ ∀ id e, sp_nodes p !! id = Some e → starts_with prefix (fn_id (en_node e)) = false).
  assert (Hns : ∀ x, x ∈ ns ↔ ∃ id e, sp_nodes p !! id = Some e ∧ x = en_node e).
  { intros x. unfold ns. rewrite elem_of_order_by, list_elem_of_fmap. split.
    - intros ([id e] & -> & He%elem_of_map_to_list). eauto.
    - intros (id & e & He & ->). exists (id, e). by rewrite elem_of_map_to_list. }
  unfold drain_verdict. case_bool_decide as H0; simpl.
  - split; [|done]. intros _ id e He. apply nil_length_inv in H0.
    destruct (starts_with prefix (fn_id (en_node e))) eqn:Hs; [|done].
    assert (In (en_node e) (List.filter (λ n, starts_with prefix (fn_id n)) ns)) as Hin.
    { apply filter_In. split; [|done]. apply list_elem_of_In, Hns. eauto. }
    by rewrite H0 in Hin.
  - split; [done|]. intros Hall. destruct H0.
    assert (Hf : ∀ l, (∀ x, x ∈ l → starts_with prefix (fn_id x) = false) →
      List.filter (λ n, starts_with prefix (fn_id n)) l = []).
    { intros l Hl. induction l as [|x l IH]; [done|]. cbn [List.filter].
      rewrite (Hl x) by left. apply IH. intros y Hy. apply Hl. by right. }
    rewrite Hf; [done|]. intros x (id & e & He & ->)%Hns. by eapply Hall.
Qed.

(** The gate refuses exactly on an applied rung that stops recording; without a row,
    with an unreadable one, or when the database does not answer, it allows. *)
Lemma recording_gate_follows_applied_rung b db m :
  (recording_refusal true b db).1 = Some m →
  ∃ d step, t_demotion (db_tables db) !! b = Some d ∧
    DemotionStep.parse (dm_applied_step d) = Some step ∧
    DemotionStep.allows_recording step = false.
Proof.
  unfold recording_refusal, LadderDb.state, ladder_db, st_bind. simpl.
  destruct (exec (reading (demotion_state b)) db) as [[s|e] db'] eqn:Hex; [|done]. simpl.
  destruct (exec_ok (reading (demotion_state b)) db s) as [now Hs]; [by rewrite Hex|].
  injection Hs as <- _. unfold demotion_state.
  destruct (t_demotion (db_tables db) !! b) as [d|]; simpl; [|done].
  destruct (DemotionStep.parse (dm_applied_step d)) as [step|] eqn:Hstep; simpl; [|done].
  destruct (DemotionStep.allows_recording step) eqn:Hr; simpl; [done|]. eauto.
Qed.

(** ** Examples: switches with fixed answers *)
Definition FixedNet : Type := string → result (list SwitchViewer) string.

#[export] Instance FixedNetOps : SwitchNet string FixedNet unit := {|
  get_stream := λ _ n, (Ok None, n);
  viewer_offer := λ _ _ _ _ _ n, (Err "unreachable", n);
  list_viewers := λ c n, (n c, n);
  list_sources := λ _ n, (Ok [], n);
  unix_now := λ n, (0, n)
|}.

#[export] Instance FixedNetLists : ListsOnly string FixedNet unit.
Proof. refine {| viewers_at := λ c n, n c |}. done. Defined.

Definition watching (id source : string) : SwitchViewer :=
  {| sv_id := id; sv_current_source := source; sv_connected := true |}.

(** Two viewers of one broadcast on two switches, one in an ad break, one node silent. *)
Definition ex_watchers : FixedNet := λ c,
  if decide (c = "http://origin") then Ok [watching "v1" "stream-x"; watching "v2" "ad-v2-7"]
  else if decide (c = "http://a") then Ok [watching "v3" "stream-y"]
  else Err "timeout".

Definition ex_live (ids : list string) : Db := {|
  db_tables := {| t_generation := 0; t_desired := ∅; t_nodes := ∅; t_wallets := ∅;
    t_transactions := []; t_tx_seq := 0; t_rate_card := []; t_usage := []; t_usage_seq := 0;
    t_baseline := ∅; t_demotion := ∅; t_demotion_events := [];
    t_streams := list_to_map ((λ id, (id, stream_row "@h:x" "active" 0)) <$> ids);
    t_api := ApiSchema.no_api |};
  db_now := 0; db_script := [] |}.

Lemma census_counts_each_viewer_once_witness :
  ∃ bs, (census_live_broadcasts (ex_live ["x"; "y"], (tt, (ex_pool, ex_watchers)))).1 = Ok bs ∧
    sumZ (lb_viewers <$> bs) ≤ Z.of_nat (length (audience ex_pool ex_watchers)).
Proof.
  eexists. split; [reflexivity|].
  refine (proj2 (proj2 (census_counts_each_viewer_once (ex_live ["x"; "y"]) tt ex_pool
    ex_watchers _ _ _ _))).
  - do 2 apply keyed_upsert. intros id e He. by apply (lookup_empty_Some (M := gmap string) id e) in He.
  - vm_compute. discriminate.
  - reflexivity.
Defined.

(** The public count of a stream includes every viewer in an ad break, whichever stream
    the ad interrupted: the single ad viewer is counted for two streams, and for none by
    the census. *)
Lemma viewer_count_repeats_ad_viewers :
  vc_viewers (run (proxy_viewer_count (C := string) (J := unit) ex_cfg "x")
    (ex_pool, ex_watchers)).1 = 2 ∧
  vc_viewers (run (proxy_viewer_count (C := string) (J := unit) ex_cfg "y")
    (ex_pool, ex_watchers)).1 = 2 ∧
  length (audience ex_pool ex_watchers) = 3%nat ∧
  (census_live_broadcasts (ex_live ["x"; "y"], (tt, (ex_pool, ex_watchers)))).1 =
    Ok [{| lb_broadcast_id := "y"; lb_viewers := 1 |};
        {| lb_broadcast_id := "x"; lb_viewers := 1 |}].
Proof. repeat split; vm_compute; reflexivity. Qed.
