(* ===== verification/StreamLifecycle.v ===== *)
(** * StreamLifecycle: how a broadcast ends

    [mm-api/src/stream_lifecycle.rs] with the egress cleanup of [mm-api/src/client.rs] and
    [mm-api/src/mp4_tracker.rs]: the one path every end goes through (the host, the sweep,
    moderation, the ladder), the terminal marker, and the sweep that ends broadcasts which
    are no longer live or have run too long. The state is the database, the services the
    process calls (homeserver, SFU, media switch, clocks), and the sweep's own clocks.
    Counters and log lines are left out. *)
From Stdlib Require Import Ascii.
From S2P Require Import SwitchPool.
From S2P Require Import Prelude ApiSchema Json Schema Errors Text MatrixClient MatrixEvents.
From S2P Require Import MoneyDb StreamsDb Rooms.
Local Open Scope Z_scope.
Local Open Scope mm_scope.

(** ** Interfaces *)

(** The process clocks: [Instant::now], [Utc::now] (both in nanoseconds), and sleeping. *)
Class Clock (N : Type) : Type := {
  instant_now : st N Z;
  utc_now : st N DateTime;
  sleep : Z → st N ()
}.

Inductive EgressStatus : Type :=
  | Starting | EgressActive | Ending | Complete | EgressFailed (m : string) | Unknown (code : Z).

Record EgressInfo : Type := { ei_egress_id : string; ei_status : EgressStatus }.

(** The operations of the trait [SfuAdapter] an end uses; an error is its text, an open
    circuit and a timeout are errors. A participant is its identity. *)
Class Sfu (N : Type) : Type := {
  supports_egress : bool;
  list_egresses : string → st N (result (list EgressInfo) string);
  stop_egress : string → st N (result () string);
  delete_room : string → st N (result () string);
  sfu_list_participants : string → st N (result (list string) string)
}.

Record Mp4Report : Type := {
  mp_status : string;
  mp_size_bytes : option Z;
  mp_duration_ms : option Z
}.

(** The calls to the origin's media switch (no answer within the limit is an error), and
    starting a task that tracks a rendition. *)
Class EndSwitch (N : Type) : Type := {
  record_finalise : string → st N (result () string);
  remove_source : string → st N (result () string);
  switch_list_sources : st N (result (list SwitchSource) string);
  record_mp4_status : string → st N (result Mp4Report string);
  spawn_mp4_tracker : string → st N ()
}.

Record MarkerContext : Type := {
  mk_hs_client : HomeserverClient;
  mk_matrix : MatrixConfig
}.

(** [ec_switch] and [ec_pg_pool]: whether they are configured. *)
Record EndContext : Type := {
  ec_marker : MarkerContext;
  ec_switch : bool;
  ec_pg_pool : bool;
  ec_public_url : string
}.

Inductive RecordingRelease : Type := Publish | Withhold.
Definition withholds (r : RecordingRelease) : bool :=
  match r with Withhold => true | Publish => false end.

Record EndOutcome : Type := {
  eo_ended_now : bool;
  eo_marker_written : bool;
  eo_withheld_recordings : list string
}.

Definition not_ended_now : EndOutcome :=
  {| eo_ended_now := false; eo_marker_written := false; eo_withheld_recordings := [] |}.

(** ** The LiveKit egresses of an ending stream *)
Definition is_open (r : RecordingRec) : bool :=
  String.eqb (rec_status r) "recording" || String.eqb (rec_status r) "paused".

Definition livekit_egresses_to_stop (rows : list RecordingRec) : list string :=
  List.filter (λ e, negb (starts_with "mm-switch:" e))
    (omap rec_egress_id (List.filter is_open rows)).

Module EgressCleanup.
Inductive t : Type := None | ListAndStopAll (fallback_ids : list string).
End EgressCleanup.

Definition egress_cleanup_plan (rows : list RecordingRec) : EgressCleanup.t :=
  match livekit_egresses_to_stop rows with
  | [] => EgressCleanup.None
  | fallback_ids => EgressCleanup.ListAndStopAll fallback_ids
  end.

Definition still_running (s : EgressStatus) : bool :=
  match s with Ending | Complete | EgressFailed _ => false | _ => true end.

Definition egresses_to_stop (l : list EgressInfo) : list string :=
  ei_egress_id <$> List.filter (λ e, still_running (ei_status e)) l.

(** ** Statements on the recordings of a stream *)
Definition open_of (stream_id : string) (r : RecordingRec) : bool :=
  String.eqb (rec_stream_id r) stream_id && is_open r.

Definition made_ready (withhold : bool) (now : DateTime) (r : RecordingRec) : RecordingRec :=
  with_recording "ready" (Some now) (rec_hidden r || withhold)
    (if withhold && negb (rec_hidden r) then Some now else rec_hidden_at r)
    (rec_mp4_status r) r.

Definition ready_stmt (stream_id : string) (withhold : bool) : stmt (list RecordingRec) :=
  update_recordings (open_of stream_id) (made_ready withhold).

Definition with_mp4_status (s : string) (r : RecordingRec) : RecordingRec :=
  with_recording (rec_status r) (rec_completed_at r) (rec_hidden r) (rec_hidden_at r) s r.

Definition untracked (stream_id : string) (r : RecordingRec) : bool :=
  String.eqb (rec_stream_id r) stream_id &&
  match rec_egress_id r with Some e => starts_with "mm-switch:" e | None => false end &&
  String.eqb (rec_status r) "ready" && String.eqb (rec_mp4_status r) "none".

Definition pending_stmt (stream_id : string) : stmt (list RecordingRec) :=
  update_recordings (untracked stream_id) (λ _, with_mp4_status "pending").

Definition announced (stream_id : string) (r : RecordingRec) : bool :=
  String.eqb (rec_stream_id r) stream_id && String.eqb (rec_status r) "ready" &&
  negb (rec_hidden r).

(** ** The thumbnail of a local recording *)
(** [rsplit('/').next()]. *)
Fixpoint last_segment (s acc : string) : string :=
  match s with
  | EmptyString => acc
  | String c s' => if Ascii.eqb c "/"%char then last_segment s' ""
                   else last_segment s' (acc +:+ String c EmptyString)
  end.

Definition strip_suffix (suffix s : string) : option string :=
  if ends_with suffix s
  then Some (String.substring 0 (String.length s - String.length suffix) s) else None.

Definition thumbnail_url_hint (public_url storage_backend storage_key : string) : option string :=
  if String.eqb storage_backend "local" && negb (is_empty_str public_url) then
    let filename := last_segment storage_key "" in
    let stem := match strip_suffix ".webm" filename with
                | Some s => s
                | None => default filename (strip_suffix ".mp4" filename)
                end in
    Some (public_url +:+ "/_mm/recordings/" +:+ stem +:+ ".jpg")
  else None.

Definition TERMINAL_WRITE_ATTEMPTS : nat := 3.

(** 250 ms, then 1 s, in nanoseconds. *)
Definition retry_backoff (attempt : nat) : Z := 250 * 4 ^ Z.of_nat attempt * 1000000.

Definition timestamp_millis (d : DateTime) : Z := d / 1000000.

Section lifecycle.
Context {N : Type} `{Http N, Clock N, Sfu N, EndSwitch N}.
Variable url_encode : string → string.

Abbreviation World := (Db * N)%type.

Definition on_db {A} (m : st Db A) : st World A := st_fst m.
Definition on_services {A} (m : st N A) : st World A := st_snd m.

(** A step whose failure is logged and does not stop the others. *)
Definition best_effort {A} (m : st N A) : st World () :=
  let! _ := on_services m in st_ret ().

Definition when (b : bool) (m : st World ()) : st World () := if b then m else st_ret ().

(** ** Media *)
Definition cleanup_livekit_egresses (sfu_room_id : string) (rows : list RecordingRec) : st N () :=
  match egress_cleanup_plan rows with
  | EgressCleanup.None => st_ret ()
  | EgressCleanup.ListAndStopAll fallback_ids =>
      let! listed := list_egresses sfu_room_id in
      let egress_ids := match listed with
                        | Ok egresses => egresses_to_stop egresses
                        | Err _ => fallback_ids
                        end in
      st_fold (λ _ e, let! _ := stop_egress e in st_ret ()) egress_ids ()
  end.

Definition mark_recordings_ready (stream_id : string) (release : RecordingRelease) :
    st World (list string) :=
  let! updated := on_db (exec (ready_stmt stream_id (withholds release))) in
  st_ret (match updated with Ok rows => rec_id <$> rows | Err _ => [] end).

Definition track_switch_mp4s (stream_id : string) : st World () :=
  let! updated := on_db (exec (pending_stmt stream_id)) in
  match updated with
  | Ok rows => on_services (st_fold (λ _ id, spawn_mp4_tracker id) (rec_id <$> rows) ())
  | Err _ => st_ret ()
  end.

Definition announce_ready_recordings (ctx : EndContext) (s : StreamsDb.Stream)
    (matrix_room_id : string) (stream_duration_ms : Z) : st World () :=
  let! rows := on_db (exec (reading (recordings_where (announced s.1)))) in
  match rows with
  | Err _ => st_ret ()
  | Ok rows =>
      let public_url := trim_end_char "/"%char (ec_public_url ctx) in
      on_services (st_fold (λ _ r,
        let content := build_feed_recording_available s.1 (rec_id r) (sr_host_user_id s.2)
          (rec_title r) (default stream_duration_ms (rec_duration_ms r))
          (thumbnail_url_hint public_url (rec_storage_backend r) (rec_storage_key r)) in
        let! _ := emit_feed_recording_available (mk_hs_client (ec_marker ctx)) matrix_room_id
                    content in
        st_ret ()) rows ())
  end.

(** ** The terminal marker *)
Definition next_generation (s : StreamsDb.Stream) : st World Z :=
  let! bumped := on_db (bump_stream_marker_generation s.1) in
  st_ret (match bumped with
          | Ok g => Z.max g 1
          | Err _ => Z.min u32_max (Z.max (sr_marker_generation s.2) 0 + 1)
          end).

(** [left] attempts are left, [attempt] were made. *)
Fixpoint write_terminal (client : HomeserverClient) (stream_id matrix_room_id : string)
    (content : StreamEndedEventContent) (left attempt : nat) : st World (option string) :=
  match left with
  | O => st_ret None
  | S left' =>
      let! r := on_services (publish_stream_ended client matrix_room_id content) in
      match r with
      | Ok event_id =>
          let! _ := on_db (set_stream_ended_event_id stream_id event_id) in
          st_ret (Some event_id)
      | Err _ =>
          if (attempt + 1 <? TERMINAL_WRITE_ATTEMPTS)%nat then
            let! _ := on_services (sleep (retry_backoff attempt)) in
            write_terminal client stream_id matrix_room_id content left' (attempt + 1)
          else st_ret None
      end
  end.

Definition finalize_stream_marker_with_reason (ctx : MarkerContext) (s : StreamsDb.Stream)
    (matrix_room_id : string) (reason : option string) : st World (option string) :=
  let! _ := best_effort (ensure_bot_in_room_cfg url_encode (mk_matrix ctx) (sr_host_user_id s.2)
                           matrix_room_id) in
  let! generation := next_generation s in
  let! _ := when (sr_e2ee s.2) (best_effort (clear_e2ee_key (mk_hs_client ctx) matrix_room_id s.1)) in
  let! now := on_services utc_now in
  let ended := stream_ended (timestamp_millis now) s.1 generation in
  let content := match reason with Some r => with_reason r ended | None => ended end in
  write_terminal (mk_hs_client ctx) s.1 matrix_room_id content TERMINAL_WRITE_ATTEMPTS 0.

Definition finalize_stream_marker (ctx : MarkerContext) (s : StreamsDb.Stream)
    (matrix_room_id : string) : st World (option string) :=
  finalize_stream_marker_with_reason ctx s matrix_room_id None.

Definition republish_active_marker (ctx : MarkerContext) (s : StreamsDb.Stream)
    (matrix_room_id : string) (content : StreamEventContent) : st World (option (string * Z)) :=
  let! generation := next_generation s in
  let! now := on_services utc_now in
  let content := {|
    se_stream_id := se_stream_id content; se_status := se_status content;
    se_host_user_id := se_host_user_id content; se_title := se_title content;
    se_media_type := se_media_type content; se_video_config := se_video_config content;
    se_viewer_url := se_viewer_url content; se_mm_server_url := se_mm_server_url content;
    se_mm_matrix_server := se_mm_matrix_server content;
    se_federation_enabled := se_federation_enabled content;
    se_participant_count := se_participant_count content;
    se_e2ee_enabled := se_e2ee_enabled content; se_e2ee_algorithm := se_e2ee_algorithm content;
    se_e2ee_key_id := se_e2ee_key_id content;
    se_e2ee_key_generation := se_e2ee_key_generation content;
    se_started_at_ms := timestamp_millis (sr_started_at s.2);
    se_updated_at_ms := timestamp_millis now; se_marker_generation := generation |} in
  let! r := on_services (publish_stream_active (mk_hs_client ctx) matrix_room_id content) in
  match r with
  | Ok event_id =>
      let! _ := on_db (set_stream_state_event_id s.1 event_id) in
      st_ret (Some (event_id, generation))
  | Err _ => st_ret None
  end.

(** ** The end path *)
(** Steps 1 to 6, the media; the recordings that were withheld. *)
Definition end_media (ctx : EndContext) (s : StreamsDb.Stream) (release : RecordingRelease) :
    st World (list string) :=
  let source_id := switch_source_id s.1 in
  let! _ := match sr_sfu_room_id s.2 with
    | Some sfu_room_id => when supports_egress (
        let! rows := on_db (get_recordings_for_stream s.1) in
        match rows with
        | Ok rows => best_effort (cleanup_livekit_egresses sfu_room_id rows)
        | Err _ => st_ret ()
        end)
    | None => st_ret ()
    end in
  let! _ := when (ec_switch ctx) (best_effort (record_finalise source_id)) in
  let! withheld := (if ec_pg_pool ctx then
      let! finalised := mark_recordings_ready s.1 release in
      let! _ := when (ec_switch ctx) (track_switch_mp4s s.1) in
      st_ret (if withholds release then finalised else [])
    else st_ret []) in
  let! _ := when (ec_switch ctx) (best_effort (remove_source source_id)) in
  let! _ := match sr_sfu_room_id s.2 with
    | Some sfu_room_id => best_effort (delete_room sfu_room_id)
    | None => st_ret ()
    end in
  st_ret withheld.

(** What only the end that moved the row does: marker and feed. *)
Definition end_matrix (ctx : EndContext) (s : StreamsDb.Stream) (release : RecordingRelease)
    (reason : option string) (matrix_room_id : string) : st World bool :=
  let! terminal := finalize_stream_marker_with_reason (ec_marker ctx) s matrix_room_id reason in
  let! now := on_services utc_now in
  let duration_ms := Z.max 0 (Z.quot (now - sr_started_at s.2) 1000000) in
  let content := build_feed_broadcast_ended s.1 (sr_host_user_id s.2) (timestamp_millis now)
    duration_ms (sr_feed_started_event_id s.2) in
  let! _ := best_effort (emit_feed_broadcast_ended (mk_hs_client (ec_marker ctx)) matrix_room_id
                           content) in
  let! _ := when (negb (withholds release) && ec_pg_pool ctx)
              (announce_ready_recordings ctx s matrix_room_id duration_ms) in
  st_ret (bool_decide (is_Some terminal)).

Definition end_and_finalise_stream_with_reason (ctx : EndContext) (s : StreamsDb.Stream)
    (release : RecordingRelease) (reason : option string) : st World (result EndOutcome MMError.t) :=
  let! withheld := end_media ctx s release in
  let? ended := on_db (end_stream_if_active s.1) in
  if negb ended then st_ret (Ok not_ended_now)
  else
  let! room := on_db (get_room (sr_room_id s.2)) in
  let! marker_written := match room with
    | Ok (Some room) => end_matrix ctx s release reason (rm_matrix_room_id room)
    | _ => st_ret false
    end in
  st_ret (Ok {| eo_ended_now := true; eo_marker_written := marker_written;
                eo_withheld_recordings := withheld |}).

Definition end_and_finalise_stream (ctx : EndContext) (s : StreamsDb.Stream)
    (release : RecordingRelease) : st World (result EndOutcome MMError.t) :=
  end_and_finalise_stream_with_reason ctx s release None.

(** [POST /streams/{id}/end]. *)
Definition end_stream (ctx : EndContext) (me id : string) : st World (result () MMError.t) :=
  let? row := on_db (get_stream id) in
  match row with
  | None => st_ret (Err (MMError.api ErrorCode.NotFound "stream not found"))
  | Some row =>
      if negb (String.eqb (sr_host_user_id row) me)
      then st_ret (Err (MMError.api ErrorCode.Forbidden "only the host can end the stream"))
      else
      let? _ := end_and_finalise_stream ctx (id, row) Publish in
      st_ret (Ok ())
  end.

(** Only the recordings, while the broadcast goes on; the number of rows closed. *)
Definition finalise_open_recordings_with (switch sfu : bool) (stream_id : string) : st World Z :=
  let! open := on_db (exec (reading (recordings_where (open_of stream_id)))) in
  let egress_ids := omap rec_egress_id (match open with Ok rows => rows | Err _ => [] end) in
  let! _ := on_services (st_fold (λ _ eid,
    match strip_prefix "mm-switch:" eid with
    | Some source => if switch then let! _ := record_finalise source in st_ret () else st_ret ()
    | None => if sfu then let! _ := stop_egress eid in st_ret () else st_ret ()
    end) egress_ids ()) in
  let! ids := mark_recordings_ready stream_id Publish in
  st_ret (Z.of_nat (length ids)).

Definition finalise_open_recordings (ctx : EndContext) (stream_id : string)
    (stop_sfu_egress : bool) : st World Z :=
  if negb (ec_pg_pool ctx) then st_ret 0
  else finalise_open_recordings_with (ec_switch ctx) (stop_sfu_egress && supports_egress) stream_id.

(** ** The sweep *)
Inductive RoomLookup : Type := NoRoom | Participants (n : nat) | LookupFailed.

Definition lookup_room (s : StreamsDb.Stream) : st World RoomLookup :=
  match sr_sfu_room_id s.2 with
  | Some room =>
      let! r := on_services (sfu_list_participants room) in
      st_ret (match r with Ok l => Participants (length l) | Err _ => LookupFailed end)
  | None => st_ret NoRoom
  end.

Definition sweep_considers_occupied (room : RoomLookup) (switch_live : option bool) : bool :=
  bool_decide (switch_live = Some true) ||
  match room with Participants n => (0 <? n)%nat | _ => false end.

Definition WEBRTC_SOURCE_TYPE : string := "webrtc".

Definition switch_live_sources (switch : bool) : st N (option (list string)) :=
  if negb switch then st_ret None
  else
  let! r := switch_list_sources in
  st_ret (match r with
    | Ok sources => Some (ss_id <$> List.filter (λ x,
        ss_active x && String.eqb (ss_source_type x) WEBRTC_SOURCE_TYPE) sources)
    | Err _ => None
    end).

Record SweepReport : Type := {
  sw_checked : nat;
  sw_ended : list string;
  sw_marker_failures : nat;
  sw_over_max_duration : list string
}.

Definition empty_report : SweepReport :=
  {| sw_checked := 0; sw_ended := []; sw_marker_failures := 0; sw_over_max_duration := [] |}.

(** The two rules; [None]: off. Durations in nanoseconds. *)
Record SweepPolicy : Type := {
  pl_grace : option Z;
  pl_max_broadcast : option Z
}.

(** The two settings, in seconds; zero turns a rule off. *)
Record StreamingConfig : Type := {
  cf_auto_end_grace_secs : Z;
  cf_max_broadcast_secs : Z
}.

Definition sweep_grace (cfg : StreamingConfig) : option Z :=
  if cf_auto_end_grace_secs cfg =? 0 then None else Some (seconds (cf_auto_end_grace_secs cfg)).

Definition from_config (cfg : StreamingConfig) : SweepPolicy := {|
  pl_grace := sweep_grace cfg;
  pl_max_broadcast := if cf_max_broadcast_secs cfg =? 0 then None
                      else Some (seconds (cf_max_broadcast_secs cfg)) |}.

Definition is_off (p : SweepPolicy) : bool :=
  bool_decide (pl_grace p = None) && bool_decide (pl_max_broadcast p = None).

Definition broadcast_age (now : DateTime) (s : StreamsDb.Stream) : Z :=
  Z.max 0 (now - sr_started_at s.2).

Definition SWEEP_STREAM_LIMIT : Z := 1000.

(** [empty_since]: the instant since which a stream has not been live. *)
Definition StreamSweeper : Type := gmap string Z.

Definition reset (sweeper : StreamSweeper) : StreamSweeper := ∅.

Definition auto_end_stream (ctx : EndContext) (s : StreamsDb.Stream) : st World (option EndOutcome) :=
  let! r := end_and_finalise_stream ctx s Publish in
  st_ret (match r with Ok outcome => Some outcome | Err _ => None end).

(** The report and the clocks after an automatic end. *)
Definition account (over_max : bool) (id : string) (outcome : option EndOutcome)
    (acc : SweepReport * StreamSweeper) : SweepReport * StreamSweeper :=
  match outcome with
  | None => acc
  | Some o =>
      let rep := acc.1 in
      ((if eo_ended_now o then {|
         sw_checked := sw_checked rep;
         sw_ended := sw_ended rep ++ [id];
         sw_marker_failures := if eo_marker_written o then sw_marker_failures rep
                               else S (sw_marker_failures rep);
         sw_over_max_duration := if over_max then sw_over_max_duration rep ++ [id]
                                 else sw_over_max_duration rep |}
        else rep), delete id acc.2)
  end.

(** [broadcast_age(stream) >= cap]. *)
Definition past_cap (policy : SweepPolicy) (s : StreamsDb.Stream) : st World bool :=
  match pl_max_broadcast policy with
  | Some cap => let! now := on_services utc_now in st_ret (cap <=? broadcast_age now s)
  | None => st_ret false
  end.

Definition switch_live (live_sources : option (list string)) (id : string) : option bool :=
  (λ live, mem (switch_source_id id) live) <$> live_sources.

(** One stream of the listing. *)
Definition sweep_stream (ctx : EndContext) (live_sources : option (list string))
    (policy : SweepPolicy) (acc : SweepReport * StreamSweeper) (s : StreamsDb.Stream) :
    st World (SweepReport * StreamSweeper) :=
  let! over := past_cap policy s in
  if over then
    let! outcome := auto_end_stream ctx s in
    st_ret (account true s.1 outcome acc)
  else
  match pl_grace policy with
  | None => st_ret acc
  | Some grace =>
      let! room := lookup_room s in
      if sweep_considers_occupied room (switch_live live_sources s.1)
      then st_ret (acc.1, delete s.1 acc.2)
      else
      let! since := match acc.2 !! s.1 with
                    | Some since => st_ret since
                    | None => on_services instant_now
                    end in
      let acc := (acc.1, <[s.1 := since]> acc.2) in
      let! now := on_services instant_now in
      if Z.max 0 (now - since) <? grace then st_ret acc
      else
      let! outcome := auto_end_stream ctx s in
      st_ret (account false s.1 outcome acc)
  end.

Definition with_checked (n : nat) : SweepReport :=
  {| sw_checked := n; sw_ended := []; sw_marker_failures := 0; sw_over_max_duration := [] |}.

Definition run_once (ctx : EndContext) (live_sources : option (list string))
    (policy : SweepPolicy) (sweeper : StreamSweeper) : st World (SweepReport * StreamSweeper) :=
  let sweeper := match pl_grace policy with None => reset sweeper | Some _ => sweeper end in
  if is_off policy then st_ret (empty_report, sweeper)
  else
  let! streams := on_db (list_all_active_streams SWEEP_STREAM_LIMIT) in
  match streams with
  | Err _ => st_ret (empty_report, sweeper)
  | Ok streams =>
      let! acc := st_fold (sweep_stream ctx live_sources policy) streams
                    (with_checked (length streams), sweeper) in
      st_ret (acc.1, filter (λ kv, kv.1 ∈ streams.*1) acc.2)
  end.

Definition sweep_tick (cfg : StreamingConfig) (ctx : EndContext)
    (live_sources : option (list string)) (sweeper : StreamSweeper) :
    st World (SweepReport * StreamSweeper) :=
  run_once ctx live_sources (from_config cfg) sweeper.

Definition run_stream_sweep (cfg : StreamingConfig) (ctx : EndContext) (sweeper : StreamSweeper) :
    st World (SweepReport * StreamSweeper) :=
  let! live_sources := (match sweep_grace cfg with
    | Some _ => on_services (switch_live_sources (ec_switch ctx))
    | None => st_ret None
    end) in
  sweep_tick cfg ctx live_sources sweeper.

(** ** MP4 renditions *)
Definition POLL_EVERY : Z := seconds 15.
Definition MAX_POLLS : nat := 240.

Definition update_recording (id : string) (p : RecordingRec → bool)
    (f : RecordingRec → RecordingRec) : st World () :=
  let! _ := on_db (exec (update_recordings (λ r, by_id id r && p r) (λ _, f))) in st_ret ().

Definition any_row (r : RecordingRec) : bool := true.

(** [COALESCE($2, size_bytes)]. *)
Definition with_measures (rep : Mp4Report) (r : RecordingRec) : RecordingRec :=
  with_file (match mp_duration_ms rep with Some d => Some d | None => rec_duration_ms r end)
    (match mp_size_bytes rep with Some b => Some b | None => rec_size_bytes r end)
    (rec_sha256 r) (rec_mxc_url r) (rec_cdn_url r) (rec_mp4_key r) r.

(** [regexp_replace(storage_key, '\.webm$', '.mp4')]. *)
Definition mp4_key_of (storage_key : string) : string :=
  match strip_suffix ".webm" storage_key with
  | Some stem => stem +:+ ".mp4"
  | None => storage_key
  end.

Definition mp4_is_ready (r : RecordingRec) : RecordingRec :=
  with_mp4_status "ready" (with_file (rec_duration_ms r) (rec_size_bytes r) (rec_sha256 r)
    (rec_mxc_url r) (rec_cdn_url r) (Some (mp4_key_of (rec_storage_key r))) r).

Definition mark_failed (id : string) : st World () :=
  update_recording id (λ r, String.eqb (rec_mp4_status r) "pending") (with_mp4_status "failed").

(** [polls] are left. *)
Fixpoint poll_mp4 (id : string) (polls : nat) : st World () :=
  match polls with
  | O => mark_failed id
  | S polls' =>
      let! _ := on_services (sleep POLL_EVERY) in
      let! r := on_services (record_mp4_status id) in
      match r with
      | Err _ => poll_mp4 id polls'
      | Ok rep =>
          let! _ := when (bool_decide (is_Some (mp_size_bytes rep)) ||
                          bool_decide (is_Some (mp_duration_ms rep)))
                      (update_recording id any_row (with_measures rep)) in
          if String.eqb (mp_status rep) "ready" then update_recording id any_row mp4_is_ready
          else if String.eqb (mp_status rep) "failed" then mark_failed id
          else poll_mp4 id polls'
      end
  end.

Definition track_mp4_transcode (id : string) : st World () := poll_mp4 id MAX_POLLS.

Definition resume_pending : st World () :=
  let! ids := on_db (exec (reading (λ t, rec_id <$>
    recordings_where (λ r, String.eqb (rec_mp4_status r) "pending") t))) in
  on_services (st_fold (λ _ id, spawn_mp4_tracker id) (match ids with Ok l => l | Err _ => [] end) ()).
End lifecycle.

(** ** What an end may change *)

(** A row of mm_streams: the status and the columns of the marker; ended is final. *)
Definition stream_moves (a b : StreamRec) : Prop :=
  (∃ status ended m1 m2 m3 g, b = with_stream_status status ended (with_marker m1 m2 m3 g a)) ∧
  (sr_status b = sr_status a ∨ sr_status a = "active" ∧ sr_status b = "ended").

#[export] Instance stream_moves_preorder : PreOrder stream_moves.
Proof.
  split.
  - intros []. split; [|by left]. by repeat eexists.
  - intros a b c [(s1 & e1 & x1 & y1 & z1 & g1 & ->) H1] [(s2 & e2 & x2 & y2 & z2 & g2 & ->) H2].
    split; [by repeat eexists|]. cbn in *. intuition congruence.
Qed.

Lemma marker_moves m1 m2 m3 g a : stream_moves a (with_marker m1 m2 m3 g a).
Proof.
  split; [|by left]. exists (sr_status a), (sr_ended_at a), m1, m2, m3, g. by destruct a.
Qed.

(** A row of mm_recordings, when stream [id] ends: an open one of that stream becomes
    ready, and hidden if recordings are [withheld]; nothing else but the columns of the
    rendition. *)
Definition recording_moves (id : string) (withheld : bool) (a b : RecordingRec) : Prop :=
  a = b ∨
  rec_stream_id a = id ∧
  (∃ status completed hidden hidden_at mp4,
     b = with_recording status completed hidden hidden_at mp4 a) ∧
  (rec_status b = rec_status a ∧ rec_hidden b = rec_hidden a ∨
   is_open a = true ∧ rec_status b = "ready" ∧ rec_hidden b = rec_hidden a || withheld).

#[export] Instance recording_moves_preorder id w : PreOrder (recording_moves id w).
Proof.
  split; [by left|].
  intros a b c [->|(Hi & (s1 & c1 & h1 & a1 & m1 & ->) & H1)]; [done|].
  intros [<-|(Hj & (s2 & c2 & h2 & a2 & m2 & ->) & H2)]; [right; eauto 10|].
  right. split; [done|]. split; [by repeat eexists|]. cbn in *.
  destruct H1 as [[-> ->]|(Ho & -> & ->)]; [naive_solver|].
  destruct H2 as [[-> ->]|(Ho' & _)]; [naive_solver|done].
Qed.

(** The tables before and after. *)
Record end_moves (id : string) (withheld : bool) (t t' : Tables) : Prop := {
  em_shape : ∃ m l, t' = set_streams m
    (set_api (set_media (set_recordings l (media_of t)) (t_api t)) t);
  em_streams x : option_Forall2 (λ a b, a = b ∨ x = id ∧ stream_moves a b)
    (t_streams t !! x) (t_streams t' !! x);
  em_recordings : Forall2 (recording_moves id withheld)
    (m_recordings (media_of t)) (m_recordings (media_of t'))
}.

#[export] Instance end_moves_preorder id w : PreOrder (end_moves id w).
Proof.
  split.
  - intros t. split.
    + exists (t_streams t), (m_recordings (media_of t)). by destruct t as [? ? ? ? ? ? ? ? ? ? ? ? ? [? ? ? ? ? ? ? ? ? ? []]].
    + intros x. destruct (t_streams t !! x); constructor. by left.
    + apply Forall_Forall2_diag, Forall_forall. by left.
  - intros a b c [(m1 & l1 & ->) Hs1 Hr1] [(m2 & l2 & ->) Hs2 Hr2]. split.
    + by exists m2, l2.
    + intros x. specialize (Hs1 x). specialize (Hs2 x). cbn in *.
      destruct Hs1 as [? ? H1|]; inversion Hs2 as [? ? H2|]; subst; constructor.
      destruct H1 as [->|[-> H1]]; [done|]. right. split; [done|].
      destruct H2 as [->|[_ H2]]; [done|]. by etrans.
    + cbn in *. by etrans.
Qed.

Lemma update_stream_moves id w p f :
  (∀ now a, p a = true → stream_moves a (f now a)) →
  stmt_rel (end_moves id w) (update_stream id p f).
Proof.
  intros Hf now t a t'. unfold update_stream.
  destruct (t_streams t !! id) as [s|] eqn:E; [|by intros [= _ <-]].
  destruct (p s) eqn:Ep; [|by intros [= _ <-]]. intros [= _ <-]. split.
  - exists (<[id := f now s]> (t_streams t)), (m_recordings (media_of t)).
    by destruct t as [? ? ? ? ? ? ? ? ? ? ? ? ? [? ? ? ? ? ? ? ? ? ? []]].
  - intros x. cbn. destruct (decide (x = id)) as [->|Hne].
    + rewrite lookup_insert_eq, E. constructor. right. auto.
    + rewrite lookup_insert_ne by done. destruct (t_streams t !! x); constructor. by left.
  - cbn. apply Forall_Forall2_diag, Forall_forall. by left.
Qed.

Lemma update_recordings_moves id w p f :
  (∀ now a, p a = true → recording_moves id w a (f now a)) →
  stmt_rel (end_moves id w) (update_recordings p f).
Proof.
  intros Hf now t a t' [= _ <-]. split.
  - by exists (t_streams t), ((λ r, if p r then f now r else r) <$> m_recordings (media_of t)).
  - intros x. cbn. destruct (t_streams t !! x); constructor. by left.
  - cbn. rewrite Forall2_fmap_r. apply Forall_Forall2_diag, Forall_forall.
    intros r _. change (recording_moves id w r (if p r then f now r else r)). destruct (p r) eqn:E; [by apply Hf|reflexivity].
Qed.

Lemma bump_generation_moves id w : stmt_rel (end_moves id w) (bump_generation id).
Proof.
  intros now t a t'. unfold bump_generation. destruct (t_streams t !! id) as [s|] eqn:E; [|done].
  destruct (_ <=? _); [done|]. intros [= _ <-].
  assert (Hu : update_stream id always_row (λ _ s, with_marker (sr_state_event_id s)
    (sr_feed_started_event_id s) (sr_ended_event_id s) (sr_marker_generation s + 1) s) now t =
    Ok (true, set_streams (<[id := with_marker (sr_state_event_id s)
      (sr_feed_started_event_id s) (sr_ended_event_id s) (sr_marker_generation s + 1) s]>
      (t_streams t)) t)) by (unfold update_stream; by rewrite E).
  eapply update_stream_moves; [|exact Hu]. intros. apply marker_moves.
Qed.

Lemma ready_moves id w : stmt_rel (end_moves id w) (ready_stmt id w).
Proof.
  apply update_recordings_moves. intros now a. unfold open_of. rewrite andb_true_iff, String.eqb_eq.
  intros [<- Ho]. right. split; [done|]. split; [by repeat eexists|]. by right.
Qed.

Lemma pending_moves id w : stmt_rel (end_moves id w) (pending_stmt id).
Proof.
  apply update_recordings_moves. intros now a. unfold untracked.
  rewrite !andb_true_iff, !String.eqb_eq. intros (((<- & _) & _) & _).
  right. split; [done|]. split; [by repeat eexists|]. by left.
Qed.

Lemma end_stmt_moves id w : stmt_rel (end_moves id w) (end_stmt id).
Proof.
  apply update_stream_moves. intros now a Ha. unfold is_active in Ha. apply String.eqb_eq in Ha.
  split; [|by right]. exists "ended", (Some now), (sr_state_event_id a),
    (sr_feed_started_event_id a), (sr_ended_event_id a), (sr_marker_generation a). by destruct a.
Qed.

Lemma run_update_moves id w p f :
  (∀ now a, p a = true → stream_moves a (f now a)) →
  st_rel (on_tables (end_moves id w)) (run_update (update_stream id p f)).
Proof. intros Hf. unfold run_update. st_steps. apply st_rel_asking; [apply _|]. by apply update_stream_moves. Qed.

#[export] Hint Resolve ready_moves pending_moves end_stmt_moves bump_generation_moves : mm.

Section services.
Context {N : Type}.
Abbreviation World := (Db * N)%type.

(** On the tables of the world. *)
Definition tables_move (R : Tables → Tables → Prop) (w w' : World) : Prop :=
  R (db_tables w.1) (db_tables w'.1).

#[export] Instance tables_move_preorder R `{!PreOrder R} : PreOrder (tables_move R).
Proof.
  split; [intros w; unfold tables_move; reflexivity|].
  intros a b c ??. unfold tables_move in *. by etrans.
Qed.

Lemma on_db_moves {A} R `{!PreOrder R} (m : st Db A) :
  st_rel (on_tables R) m → st_rel (tables_move R) (on_db m).
Proof. intros Hm. apply (st_rel_on_fst (on_tables R)), Hm. Qed.

Lemma on_services_moves {A} R `{!PreOrder R} (m : st N A) : st_rel (tables_move R) (on_services m).
Proof. intros [db n]. unfold on_services, st_snd. cbn. destruct (m n). unfold tables_move. reflexivity. Qed.

Lemma best_effort_moves {A} R `{!PreOrder R} (m : st N A) : st_rel (tables_move R) (best_effort m).
Proof. unfold best_effort. st_steps. by apply on_services_moves. Qed.

End services.

(** One step of a proof about the end path. *)
Ltac end_step := first
  [ by apply on_services_moves; apply _ | by apply best_effort_moves; apply _
  | apply on_db_moves; [apply _|]; first
      [ apply st_rel_asking; [apply _|]; eauto with mm typeclass_instances
      | apply st_rel_exec; [apply _|]; eauto with mm typeclass_instances ]
  | st_step ].

Section end_path.
Context {N : Type} `{Http N, Clock N, Sfu N, EndSwitch N}.
Variable url_encode : string → string.

Abbreviation World := (Db * N)%type.

Section moves.
Variable ctx : EndContext.
Variable s : StreamsDb.Stream.

Lemma end_media_moves release :
  st_rel (tables_move (end_moves s.1 (withholds release))) (end_media ctx s release).
Proof.
  unfold end_media, mark_recordings_ready, track_switch_mp4s, when, get_recordings_for_stream.
  repeat end_step.
Qed.

Lemma next_generation_moves w : st_rel (tables_move (N := N) (end_moves s.1 w)) (next_generation s).
Proof. unfold next_generation, bump_stream_marker_generation. repeat end_step. Qed.

Lemma write_terminal_moves w client room content left attempt :
  st_rel (tables_move (end_moves s.1 w)) (write_terminal client s.1 room content left attempt).
Proof.
  revert attempt. induction left as [|left IH]; intros attempt; cbn [write_terminal]; repeat end_step;
    try apply IH.
  apply on_db_moves; [apply _|]. apply run_update_moves. intros. apply marker_moves.
Qed.

Lemma end_matrix_moves w release reason room :
  st_rel (tables_move (end_moves s.1 w)) (end_matrix url_encode ctx s release reason room).
Proof.
  unfold end_matrix, finalize_stream_marker_with_reason, announce_ready_recordings, when.
  repeat (apply next_generation_moves || apply write_terminal_moves || end_step).
Qed.

Lemma end_moves_tables release reason :
  st_rel (tables_move (end_moves s.1 (withholds release)))
    (end_and_finalise_stream_with_reason url_encode ctx s release reason).
Proof.
  unfold end_and_finalise_stream_with_reason, end_stream_if_active, get_room.
  repeat (apply end_media_moves || apply end_matrix_moves || end_step).
Qed.
End moves.

(** ** A broadcast ends once *)

Definition active_row (id : string) (t : Tables) : Prop :=
  ∃ row, t_streams t !! id = Some row ∧ sr_status row = "active".

Lemma end_moves_active id w t t' x :
  end_moves id w t t' → active_row x t' → active_row x t.
Proof.
  intros [_ Hs _] (row & Hr & Ha). specialize (Hs x). rewrite Hr in Hs.
  inversion Hs as [a b Hab Ea|]; subst. exists a. split; [done|].
  destruct Hab as [->|[_ [_ [Hst|[Hst _]]]]]; congruence.
Qed.

Lemma end_stmt_true id now t t' :
  end_stmt id now t = Ok (true, t') → active_row id t ∧ ¬ active_row id t'.
Proof.
  unfold end_stmt, update_stream, is_active, active_row. destruct (t_streams t !! id) as [s|]; [|done].
  destruct (String.eqb_spec (sr_status s) "active"); [|done]. intros [= <-]. cbn.
  rewrite lookup_insert_eq. split; [eauto|]. by intros (row & [= <-] & ?).
Qed.

Lemma end_stmt_false id now t t' : end_stmt id now t = Ok (false, t') → ¬ active_row id t ∧ t' = t.
Proof.
  unfold end_stmt, update_stream, is_active, active_row. destruct (t_streams t !! id) as [s|].
  - destruct (String.eqb_spec (sr_status s) "active"); [done|]. intros [= <-]. naive_solver.
  - intros [= <-]. naive_solver.
Qed.

(** The answer of one end. *)
Lemma end_once ctx s release reason w o w' :
  end_and_finalise_stream_with_reason url_encode ctx s release reason w = (Ok o, w') →
  ¬ active_row s.1 (db_tables w'.1) ∧
  (eo_ended_now o = true → active_row s.1 (db_tables w.1)) ∧
  (eo_marker_written o = true → eo_ended_now o = true).
Proof.
  intros E. unfold end_and_finalise_stream_with_reason in E. unfold st_bind at 1 in E.
  pose proof (end_media_moves ctx s release w) as Hm. unfold tables_move in Hm.
  destruct (end_media ctx s release w) as [withheld [db1 n1]]. cbn [fst snd] in Hm, E.
  unfold st_try at 1, st_bind at 1, on_db at 1, st_fst at 1, end_stream_if_active in E.
  cbn [fst snd] in E. pose proof (asking_ok (end_stmt s.1) db1) as Ha.
  destruct (asking (end_stmt s.1) db1) as [[ended|e] db2]; cbn [fst snd] in Ha, E; [|done].
  destruct (Ha ended eq_refl) as [now Hnow]. destruct ended; cbn [negb] in E.
  - apply end_stmt_true in Hnow as [Hbefore Hafter].
    match type of E with ?k _ = _ =>
      assert (Hk : st_rel (tables_move (end_moves s.1 true)) k)
        by (unfold get_room; repeat (apply end_matrix_moves || end_step))
    end.
    specialize (Hk (db2, n1)). rewrite E in Hk. unfold tables_move in Hk. cbn [fst snd] in Hk.
    assert (Ho : eo_ended_now o = true).
    { unfold st_bind, st_ret in E.
      destruct (on_db (get_room (sr_room_id s.2)) (db2, n1)) as [r w2].
      repeat case_match; by simplify_eq. }
    split; [|split; [|done]].
    + intros Hact. apply Hafter. by eapply end_moves_active.
    + intros _. by eapply end_moves_active.
  - apply end_stmt_false in Hnow as [Hbefore Hafter]. injection E as <- <-. cbn [snd fst].
    rewrite Hafter. split; [done|]. split; done.
Qed.

(** Steps that keep the streams as they are. *)
Definition same_streams (t t' : Tables) : Prop := t_streams t' = t_streams t.

#[export] Instance same_streams_preorder : PreOrder same_streams.
Proof. split; [done|]. intros a b c Hab Hbc. unfold same_streams in *. congruence. Qed.

Lemma update_recordings_streams p f : stmt_rel same_streams (update_recordings p f).
Proof. by intros now t a t' [= _ <-]. Qed.

Hint Resolve update_recordings_streams : mm.

Lemma end_media_streams ctx s release :
  st_rel (tables_move same_streams) (end_media ctx s release).
Proof.
  unfold end_media, mark_recordings_ready, track_switch_mp4s, when, get_recordings_for_stream,
    ready_stmt, pending_stmt.
  repeat end_step.
Qed.

(** An end that does not move the row found it ended: no statement before the transition
    writes mm_streams. *)
Lemma end_not_moved ctx s release reason w o w' :
  end_and_finalise_stream_with_reason url_encode ctx s release reason w = (Ok o, w') →
  eo_ended_now o = false → ¬ active_row s.1 (db_tables w.1).
Proof.
  intros E Ho. unfold end_and_finalise_stream_with_reason in E. unfold st_bind at 1 in E.
  pose proof (end_media_streams ctx s release w) as Hm. unfold tables_move, same_streams in Hm.
  destruct (end_media ctx s release w) as [withheld [db1 n1]]. cbn [fst snd] in Hm, E.
  unfold st_try at 1, st_bind at 1, on_db at 1, st_fst at 1, end_stream_if_active in E.
  cbn [fst snd] in E. pose proof (asking_ok (end_stmt s.1) db1) as Ha.
  destruct (asking (end_stmt s.1) db1) as [[ended|e] db2]; cbn [fst snd] in Ha, E; [|done].
  destruct (Ha ended eq_refl) as [now Hnow]. destruct ended; cbn [negb] in E.
  - unfold st_bind, st_ret in E.
    destruct (on_db (get_room (sr_room_id s.2)) (db2, n1)) as [r w2]. repeat case_match; by simplify_eq.
  - apply end_stmt_false in Hnow as [Hna _]. unfold active_row in *. by rewrite <-Hm.
Qed.

(** Without lost acknowledgements a refused end leaves the row active. *)
Definition acked (db : Db) : Prop :=
  Forall (λ k, match tk_outcome k with Unacked _ => False | _ => True end) (db_script db).

(** Every statement is answered. *)
Definition quiet (db : Db) : Prop := db_script db = [].

(** What one statement keeps, a sequence of them does. *)
Class ScriptProperty (I : Db → Prop) : Prop :=
  exec_keeps : ∀ A (s : stmt A), st_rel (keeps I) (exec s).

#[export] Instance acked_script : ScriptProperty acked.
Proof.
  intros A s db Hdb. unfold acked, exec, next_tick in *.
  destruct (db_script db) as [|k rest]; cbn.
  - by destruct (s _ _) as [[]|].
  - apply Forall_cons_1 in Hdb as [_ Hr]. destruct (tk_outcome k); cbn; try done;
      by destruct (s _ _) as [[]|].
Qed.

#[export] Instance quiet_script : ScriptProperty quiet.
Proof.
  intros A s db Hdb. unfold quiet, exec, next_tick in *. rewrite Hdb. cbn.
  by destruct (s _ _) as [[]|].
Qed.

Section script.
Context (I : Db → Prop) `{!ScriptProperty I}.

Definition world_keeps (w w' : World) : Prop := keeps I w.1 w'.1.

#[export] Instance world_keeps_preorder : PreOrder world_keeps.
Proof. split; [by intros w|]. intros a b c Hab Hbc Ha. by apply Hbc, Hab. Qed.

Lemma on_db_keeps {A} (s : stmt A) :
  st_rel world_keeps (on_db (exec s)) ∧ st_rel world_keeps (on_db (asking s)).
Proof.
  split; intros [db n] Ha; pose proof (exec_keeps _ s db Ha); unfold on_db, st_fst, asking, st_bind; cbn;
    by destruct (exec s db) as [[]].
Qed.

Lemma on_services_keeps {A} (m : st N A) :
  st_rel world_keeps (on_services m) ∧ st_rel world_keeps (best_effort m).
Proof. split; intros [db n] Ha; unfold best_effort, on_services, st_snd, st_bind; cbn; by destruct (m n). Qed.

Ltac keep_step := first
  [ apply on_services_keeps | apply on_db_keeps | st_step ].

Lemma end_media_keeps ctx s release : st_rel world_keeps (end_media ctx s release).
Proof.
  unfold end_media, mark_recordings_ready, track_switch_mp4s, when, get_recordings_for_stream.
  repeat keep_step.
Qed.

Lemma write_terminal_keeps client id room content left attempt :
  st_rel world_keeps (write_terminal client id room content left attempt).
Proof.
  revert attempt. induction left as [|left IH]; intros attempt; cbn [write_terminal];
    repeat (apply IH || keep_step).
  intros [db n] Ha. unfold on_db, st_fst, set_stream_ended_event_id, run_update, st_try, st_bind. cbn.
  match goal with |- context [asking ?s db] => pose proof (proj2 (on_db_keeps s) (db, n) Ha) as Hs end.
  unfold on_db, st_fst in Hs. cbn in Hs. by destruct (asking _ db) as [[]].
Qed.

Lemma end_keeps ctx s release reason :
  st_rel world_keeps (end_and_finalise_stream_with_reason url_encode ctx s release reason).
Proof.
  unfold end_and_finalise_stream_with_reason, end_stream_if_active, get_room, end_matrix,
    finalize_stream_marker_with_reason, announce_ready_recordings, when, next_generation,
    bump_stream_marker_generation.
  repeat (apply end_media_keeps || apply write_terminal_keeps || keep_step).
Qed.
End script.

Lemma asking_acked_err {A} (s : stmt A) db e :
  acked db → (asking s db).1 = Err e → db_tables (asking s db).2 = db_tables db.
Proof.
  intros Ha. unfold asking, st_bind, exec, next_tick, acked in *.
  destruct (db_script db) as [|k rest]; cbn.
  - by destruct (s _ _) as [[]|].
  - apply Forall_cons_1 in Ha as [Hk _]. destruct (tk_outcome k); cbn; try done;
      by destruct (s _ _) as [[]|].
Qed.

Lemma refused_end ctx s release reason w e w' id :
  acked w.1 → end_and_finalise_stream_with_reason url_encode ctx s release reason w = (Err e, w') →
  active_row id (db_tables w.1) → active_row id (db_tables w'.1).
Proof.
  intros Hack E. unfold end_and_finalise_stream_with_reason in E. unfold st_bind at 1 in E.
  pose proof (end_media_streams ctx s release w) as Hm. unfold tables_move, same_streams in Hm.
  pose proof (end_media_keeps acked ctx s release w Hack) as Hack1.
  destruct (end_media ctx s release w) as [withheld [db1 n1]]. cbn [fst snd] in Hm, Hack1, E.
  unfold st_try at 1, st_bind at 1, on_db at 1, st_fst at 1, end_stream_if_active in E.
  cbn [fst snd] in E. pose proof (asking_acked_err (end_stmt s.1) db1) as Ha.
  destruct (asking (end_stmt s.1) db1) as [[ended|e'] db2]; cbn [fst snd] in Ha, E.
  - destruct ended; cbn [negb] in E; [|done]. unfold st_bind, st_ret in E.
    destruct (on_db (get_room (sr_room_id s.2)) (db2, n1)) as [r w2]. repeat case_match; by simplify_eq.
  - injection E as _ <-. cbn [fst]. unfold active_row. rewrite (Ha e' Hack1 eq_refl), Hm. done.
Qed.

(** On a database that answers, an end of an active stream moves its row. *)
Lemma end_answered ctx s release reason w :
  quiet w.1 → active_row s.1 (db_tables w.1) →
  ∃ o w', end_and_finalise_stream_with_reason url_encode ctx s release reason w = (Ok o, w') ∧
    eo_ended_now o = true.
Proof.
  intros Hq Hact. unfold end_and_finalise_stream_with_reason. unfold st_bind at 1.
  pose proof (end_media_streams ctx s release w) as Hm. unfold tables_move, same_streams in Hm.
  pose proof (end_media_keeps quiet ctx s release w Hq) as Hq1.
  destruct (end_media ctx s release w) as [withheld [db1 n1]]. cbn [fst snd] in *.
  assert (Hrun : ∃ db2, asking (end_stmt s.1) db1 = (Ok true, db2)).
  { destruct Hact as (row & Hrow & Hst). rewrite <-Hm in Hrow.
    unfold asking, st_bind, exec, next_tick, quiet in *. rewrite Hq1. cbn.
    unfold end_stmt, update_stream, StreamsDb.is_active. rewrite Hrow, Hst. cbn. eauto. }
  destruct Hrun as [db2 Hrun].
  unfold st_try at 1, st_bind at 1, on_db at 1, st_fst at 1, end_stream_if_active. cbn [fst snd].
  rewrite Hrun. cbn [negb]. unfold st_bind, st_ret.
  destruct (on_db (get_room (sr_room_id s.2)) (db2, n1)) as [r w2].
  destruct r as [[room|]|e]; [|by eauto..]. destruct (end_matrix _ _ _ _ _ _ w2). by eauto.
Qed.

(** A sequence of ends of any streams, and the answers. *)
Record end_request : Type := {
  er_stream : StreamsDb.Stream;
  er_release : RecordingRelease;
  er_reason : option string
}.

Fixpoint serve_ends (ctx : EndContext) (l : list end_request) : st World (list (string * result EndOutcome MMError.t)) :=
  match l with
  | [] => st_ret []
  | r :: l' =>
      let! o := end_and_finalise_stream_with_reason url_encode ctx (er_stream r) (er_release r)
                  (er_reason r) in
      let! os := serve_ends ctx l' in
      st_ret (((er_stream r).1, o) :: os)
  end.

(** The answers about stream [id] that report having ended it. *)
Definition moved_row (id : string) (a : string * result EndOutcome MMError.t) : bool :=
  String.eqb a.1 id && match a.2 with Ok o => eo_ended_now o | Err _ => false end.

Definition times_ended (id : string) (l : list (string * result EndOutcome MMError.t)) : nat :=
  length (List.filter (moved_row id) l).

(** What one more end does to the count. *)
Lemma serve_end_step ctx r w o w' id :
  end_and_finalise_stream_with_reason url_encode ctx (er_stream r) (er_release r) (er_reason r) w
    = (o, w') →
  (active_row id (db_tables w'.1) → active_row id (db_tables w.1)) ∧
  (moved_row id ((er_stream r).1, o) = true →
     active_row id (db_tables w.1) ∧ ¬ active_row id (db_tables w'.1)) ∧
  (acked w.1 → acked w'.1 ∧
     (moved_row id ((er_stream r).1, o) = false → active_row id (db_tables w.1) →
      active_row id (db_tables w'.1) ∧ ∀ x, o = Ok x → (er_stream r).1 ≠ id)).
Proof.
  intros E. pose proof (end_moves_tables ctx (er_stream r) (er_release r) (er_reason r) w) as Hm.
  pose proof (end_keeps acked ctx (er_stream r) (er_release r) (er_reason r) w) as Hk.
  rewrite E in Hm, Hk. unfold tables_move in Hm. cbn [fst snd] in Hm, Hk.
  assert (Hback := end_moves_active _ _ _ _ id Hm). split; [done|].
  unfold moved_row. cbn [fst snd].
  destruct o as [o|e].
  - destruct (end_once _ _ _ _ _ _ _ E) as (Hna & Hact & _).
    split.
    + destruct (String.eqb_spec (er_stream r).1 id) as [<-|]; [|done]. intros Ho. auto.
    + intros Ha. split; [auto|]. intros Hno Hid.
      assert (Hne : (er_stream r).1 ≠ id).
      { intros <-. rewrite String.eqb_refl in Hno. cbn in Hno.
        destruct (end_not_moved _ _ _ _ _ _ _ E Hno). done. }
      split; [|done]. destruct Hid as (row & Hr & Hst). exists row. split; [|done].
      destruct Hm as [_ Hs _]. specialize (Hs id). rewrite Hr in Hs.
      inversion Hs as [a b Hab Ea Eb|]; subst. by destruct Hab as [->|[-> _]].
  - split; [by rewrite andb_false_r|]. intros Ha. split; [auto|]. intros _ Hid. split; [|done].
    by eapply refused_end.
Qed.

Lemma times_ended_cons id a l :
  times_ended id (a :: l) = ((if moved_row id a then 1 else 0) + times_ended id l)%nat.
Proof. unfold times_ended. cbn. by destruct (moved_row id a). Qed.
End end_path.

(** C8. A broadcast ends once: of any sequence of ends of any streams, by the host, the sweep,
    an operator or the ladder, under any database faults, at most one reports to have ended a given
    stream, and only such a one writes a terminal marker. A stream whose end was answered
    stays ended; and unless an acknowledgement was lost, exactly one end of an active
    stream reports it. *)
Theorem stream_ends_once {N : Type} `{Http N, Clock N, Sfu N, EndSwitch N}
    (url_encode : string → string) (ctx : EndContext) (l : list end_request) (w : Db * N)
    (id : string) :
  let '(answers, w') := serve_ends url_encode ctx l w in
  (times_ended id answers ≤ 1)%nat ∧
  (∀ o, (id, Ok o) ∈ answers → ¬ active_row id (db_tables w'.1)) ∧
  (∀ x o, (x, Ok o) ∈ answers → eo_marker_written o = true → eo_ended_now o = true) ∧
  (acked w.1 → active_row id (db_tables w.1) → (∃ o, (id, Ok o) ∈ answers) →
     times_ended id answers = 1%nat).
Proof.
  enough (Hall : let '(answers, w') := serve_ends url_encode ctx l w in
    (active_row id (db_tables w'.1) → active_row id (db_tables w.1)) ∧
    (times_ended id answers ≤ 1)%nat ∧
    (¬ active_row id (db_tables w.1) → times_ended id answers = 0%nat) ∧
    (∀ o, (id, Ok o) ∈ answers → ¬ active_row id (db_tables w'.1)) ∧
    (∀ x o, (x, Ok o) ∈ answers → eo_marker_written o = true → eo_ended_now o = true) ∧
    (acked w.1 → active_row id (db_tables w.1) → times_ended id answers = 0%nat →
      ∀ o, (id, Ok o) ∉ answers)).
  { destruct (serve_ends url_encode ctx l w) as [answers w'].
    destruct Hall as (_ & Hle & _ & Hna & Hmk & Hex). split; [done|]. split; [done|].
    split; [done|]. intros Ha Hact [o Ho].
    destruct (times_ended id answers) as [|[|]] eqn:E; [|done|lia]. by destruct (Hex Ha Hact eq_refl o). }
  revert w. induction l as [|r l IH]; intros w; cbn [serve_ends].
  { cbn. repeat split; try done; try lia; intros; set_solver. }
  unfold st_bind, st_ret.
  destruct (end_and_finalise_stream_with_reason _ _ _ _ _ w) as [o w1] eqn:E.
  destruct (serve_end_step url_encode ctx r w o w1 id E) as (Hback & Hmoved & Hacked).
  specialize (IH w1). destruct (serve_ends url_encode ctx l w1) as [answers w2].
  destruct IH as (Iback & Ile & Izero & Ina & Imk & Iex).
  rewrite times_ended_cons. split; [auto|].
  split; [|split; [|split; [|split]]].
  - destruct (moved_row _ _); [|lia]. rewrite Izero; [lia|]. naive_solver.
  - intros Hna. destruct (moved_row _ _); [naive_solver|]. rewrite Izero; naive_solver.
  - intros x [Heq|Hin]%elem_of_cons; [|by eapply Ina]. injection Heq as -> <-.
    destruct (end_once _ _ _ _ _ _ _ _ E) as (Hna & _). auto.
  - intros y x [Heq|Hin]%elem_of_cons; [|by eapply Imk]. injection Heq as -> <-.
    by destruct (end_once _ _ _ _ _ _ _ _ E) as (_ & _ & ?).
  - intros Ha Hact Hz. destruct (moved_row _ _) eqn:Em; [lia|].
    destruct (Hacked Ha) as (Ha1 & Hstay). destruct (Hstay eq_refl Hact) as [Hact1 Hne].
    intros x [Heq|Hin]%elem_of_cons; [injection Heq as -> <-; by eapply Hne|].
    by eapply Iex.
Qed.

(** ** The recordings of an ended broadcast *)
Definition no_open (id : string) (t : Tables) : Prop :=
  Forall (λ r, open_of id r = false) (m_recordings (media_of t)).

Lemma end_moves_no_open x id w t t' : end_moves x w t t' → no_open id t → no_open id t'.
Proof.
  intros [_ _ Hr]. unfold no_open. intros Ho.
  induction Hr as [|a b la lb Hab _ IH]; [done|].
  apply Forall_cons_1 in Ho as [Ha Ho]. constructor; [|auto].
  destruct Hab as [->|(_ & (? & ? & ? & ? & ? & ->) & Hs)]; [done|].
  unfold open_of in *. cbn in *. destruct (String.eqb (rec_stream_id a) id); [|done].
  cbn in *. unfold is_open in *. cbn in *.
  destruct Hs as [[-> _]|(Hopen & -> & _)]; congruence.
Qed.

Lemma ready_stmt_closes id w now t :
  ∃ rows t', ready_stmt id w now t = Ok (rows, t') ∧ no_open id t' ∧
    rows = List.filter (open_of id) (m_recordings (media_of t)).
Proof.
  eexists _, _. split; [reflexivity|]. split; [|done]. unfold no_open. cbn.
  apply Forall_fmap, Forall_forall. intros r _. cbn. destruct (open_of id r) eqn:E; [|done].
  unfold open_of. cbn. by rewrite andb_false_r.
Qed.

Section recordings.
Context {N : Type} `{Http N, Clock N, Sfu N, EndSwitch N}.
Variable url_encode : string → string.
Variable ctx : EndContext.
Hypothesis has_pool : ec_pg_pool ctx = true.

Lemma on_services_healthy {A} (m : st N A) db n : ∃ a n', on_services m (db, n) = (a, (db, n')).
Proof. unfold on_services, st_snd. cbn. destruct (m n). eauto. Qed.

Lemma best_effort_healthy {A} (m : st N A) db n : ∃ n', best_effort m (db, n) = ((), (db, n')).
Proof. unfold best_effort, st_bind, st_ret. destruct (on_services_healthy m db n) as (a & n' & ->). eauto. Qed.

(** On a database that answers, the media steps leave no open recording. *)
Lemma end_media_closes s release t now n :
  ∃ w', end_media ctx s release (healthy t now, n) =
    (if withholds release
     then rec_id <$> List.filter (open_of s.1) (m_recordings (media_of t)) else [], w') ∧
    no_open s.1 (db_tables w'.1).
Proof.
  unfold end_media. unfold st_bind at 1.
  assert (Hpre : ∃ n1, (match sr_sfu_room_id s.2 with
    | Some sfu_room_id => when supports_egress (
        let! rows := on_db (get_recordings_for_stream s.1) in
        match rows with
        | Ok rows => best_effort (cleanup_livekit_egresses sfu_room_id rows)
        | Err _ => st_ret ()
        end)
    | None => st_ret ()
    end : st (Db * N) ()) (healthy t now, n) = ((), (healthy t now, n1))).
  { destruct (sr_sfu_room_id s.2) as [room|]; [|unfold st_ret; eauto].
    unfold when. destruct supports_egress; [|unfold st_ret; eauto].
    unfold st_bind at 1, on_db, st_fst, get_recordings_for_stream, asking, st_bind. cbn [fst snd].
    rewrite exec_healthy. cbn. apply best_effort_healthy. }
  destruct Hpre as [n1 ->]. unfold st_bind at 1.
  assert (Hfin : ∃ n2, when (ec_switch ctx) (best_effort (record_finalise (switch_source_id s.1)))
    (healthy t now, n1) = ((), (healthy t now, n2))).
  { unfold when. destruct (ec_switch ctx); [apply best_effort_healthy|unfold st_ret; eauto]. }
  destruct Hfin as [n2 ->]. rewrite has_pool.
  unfold st_bind at 1. unfold st_bind at 1, mark_recordings_ready. unfold st_bind at 1, on_db, st_fst.
  cbn [fst snd]. rewrite exec_healthy.
  destruct (ready_stmt_closes s.1 (withholds release) now t) as (rows & t' & -> & Hno & ->).
  cbn [fst snd]. unfold st_ret at 1. cbn [fst snd].
  match goal with |- context [st_bind (when ?b ?m) _ _] => set (track := when b m) end.
  assert (Htrack : st_rel (tables_move (end_moves s.1 true)) track).
  { subst track. unfold when, track_switch_mp4s. repeat end_step. }
  unfold st_bind at 1. specialize (Htrack (healthy t' now, n2)).
  destruct (track (healthy t' now, n2)) as [[] w3]. unfold tables_move in Htrack. cbn [fst snd] in Htrack |- *.
  unfold st_ret at 1.
  match goal with |- context [st_bind (when ?b ?m) ?k w3] => set (rest := st_bind (when b m) k) end.
  assert (Hrest : st_rel (tables_move (end_moves s.1 true)) rest).
  { subst rest. unfold when. repeat end_step. }
  specialize (Hrest w3). unfold tables_move in Hrest.
  assert (Hval : (rest w3).1 = if withholds release
    then rec_id <$> List.filter (open_of s.1) (m_recordings (media_of t)) else []).
  { subst rest. unfold st_bind. repeat case_match; by simplify_eq. }
  destruct (rest w3) as [v w']. cbn [fst snd] in *. subst v. exists w'. split; [done|].
  by eapply end_moves_no_open, end_moves_no_open.
Qed.
End recordings.

(** What an end does to the recordings: under any database faults only rows of its own stream
    change, a row that was not open keeps its status and its visibility, an open one can
    only become ready, and of the other tables only the stream's own row is written. When
    the database answers, no recording of the stream is left open, and a forced stop hides
    exactly the ones it closed and reports them. *)
Theorem end_closes_recordings {N : Type} `{Http N, Clock N, Sfu N, EndSwitch N}
    (url_encode : string → string) (ctx : EndContext) (s : StreamsDb.Stream)
    (release : RecordingRelease) (reason : option string) (w : Db * N) :
  let '(answer, w') := end_and_finalise_stream_with_reason url_encode ctx s release reason w in
  end_moves s.1 (withholds release) (db_tables w.1) (db_tables w'.1) ∧
  (ec_pg_pool ctx = true → db_script w.1 = [] →
     no_open s.1 (db_tables w'.1) ∧
     ∀ o, answer = Ok o → eo_ended_now o = true → eo_withheld_recordings o =
       if withholds release
       then rec_id <$> List.filter (open_of s.1) (m_recordings (media_of (db_tables w.1)))
       else []).
Proof.
  pose proof (end_moves_tables url_encode ctx s release reason w) as Hm.
  destruct (end_and_finalise_stream_with_reason _ _ _ _ _ w) as [answer w'] eqn:E.
  split; [exact Hm|]. intros Hp Hs.
  assert (Hw : w = (healthy (db_tables w.1) (db_now w.1), w.2)).
  { destruct w as [[t now script] n]. cbn in *. by subst script. }
  rewrite Hw in E. unfold end_and_finalise_stream_with_reason in E. unfold st_bind at 1 in E.
  destruct (end_media_closes ctx Hp s release (db_tables w.1) (db_now w.1) w.2) as (w1 & E1 & Hno).
  rewrite E1 in E.
  match type of E with ?k w1 = _ =>
    assert (Hk : st_rel (tables_move (end_moves s.1 true)) k)
      by (unfold end_stream_if_active, get_room; repeat (apply end_matrix_moves || end_step));
    assert (Hv : ∀ o, (k w1).1 = Ok o → eo_ended_now o = true → eo_withheld_recordings o =
      if withholds release
      then rec_id <$> List.filter (open_of s.1) (m_recordings (media_of (db_tables w.1))) else [])
  end.
  { intros o. unfold st_try, st_bind, st_ret.
    destruct (on_db _ w1) as [[[]|] w2]; cbn [negb]; [|by intros [= <-]|done].
    destruct (on_db _ w2) as [r w3]. repeat case_match; by intros [= <-]. }
  specialize (Hk w1). rewrite E in Hk, Hv. unfold tables_move in Hk. cbn [fst snd] in *.
  split; [by eapply end_moves_no_open | exact Hv].
Qed.

(** A deployment whose homeserver accepts every event and logs the requests, with an
    SFU room nobody is in, and a switch that carries nothing. *)
Module EndDemo.
Definition net : Type := (Z * list string)%type.
Definition log (line : string) : st net () := λ n, ((), (n.1, n.2 ++ [line])).
Definition http : Http net := {|
  http_send r := let! _ := log (rq_method r +:+ " " +:+ rq_url r) in
    st_ret (Ok {| rs_status := 200; rs_text := "";
                  rs_json := Ok (JObj [("event_id", JStr "$e")]) |});
  lookup_host _ := st_ret (Err "offline"); new_v4 := st_ret "txn"; status_text _ := "";
  shape_error _ := ""; hash_order l := l |}.
Definition clock : Clock net := {|
  instant_now n := (n.1, n); utc_now n := (n.1, n);
  sleep d n := ((), ((n.1 + Z.max 0 d)%Z, n.2)) |}.
Definition sfu : Sfu net := {|
  supports_egress := true; list_egresses _ := st_ret (Ok []);
  stop_egress e := let! _ := log ("stop " +:+ e) in st_ret (Ok ());
  delete_room r := let! _ := log ("delete " +:+ r) in st_ret (Ok ());
  sfu_list_participants _ := st_ret (Ok []) |}.
Definition switch : EndSwitch net := {|
  record_finalise x := let! _ := log ("finalise " +:+ x) in st_ret (Ok ());
  remove_source x := let! _ := log ("remove " +:+ x) in st_ret (Ok ());
  switch_list_sources := st_ret (Ok []);
  record_mp4_status _ := st_ret (Ok {| mp_status := "ready"; mp_size_bytes := Some 5;
                                       mp_duration_ms := None |});
  spawn_mp4_tracker x := log ("track " +:+ x) |}.
#[local] Existing Instances http clock sfu switch.

Definition ctx : EndContext := {|
  ec_marker := {| mk_hs_client := new_client "https://hs" "token" "@bot:x";
                  mk_matrix := {| mx_homeserver_url := "https://hs"; mx_server_name := "x";
                    mx_bot_localpart := "bot"; mx_as_token := "t";
                    mx_synapse_admin_token := "" |} |};
  ec_switch := true; ec_pg_pool := true; ec_public_url := "https://mm" |}.

Definition row : StreamRec :=
  new_stream 1 "@h:x" None "video" (Some "room-s1") None 0.
Definition recording (id status : string) : RecordingRec := {|
  rec_id := id; rec_stream_id := "s1"; rec_room_id := 1; rec_host_user_id := "@h:x";
  rec_status := status; rec_media_type := "video"; rec_storage_key := "dir/r1.webm";
  rec_storage_backend := "local"; rec_mxc_url := None; rec_cdn_url := None;
  rec_duration_ms := None; rec_size_bytes := None; rec_mime_type := "video/webm";
  rec_sha256 := None; rec_title := None; rec_egress_id := Some "mm-switch:stream-s1";
  rec_created_at := 0; rec_completed_at := None; rec_min_tier_level := None;
  rec_hidden := false; rec_hidden_at := None; rec_mp4_status := "none"; rec_mp4_key := None |}.
Definition tables : Tables := set_streams {[ "s1" := row ]} (set_api
  (set_media (set_recordings [recording "r1" "recording"; recording "r0" "ready"] no_media)
    (set_rooms {[ 1 := {| rm_matrix_room_id := "!r:x"; rm_max_participants := 50 |} ]} no_api))
  no_tables).
Definition world : Db * net := (healthy tables 0, (0, [])).
Definition stop (r : RecordingRelease) : end_request :=
  {| er_stream := ("s1", row); er_release := r; er_reason := None |}.
Definition answers := serve_ends id ctx [stop Withhold; stop Publish] world.
End EndDemo.
#[local] Existing Instances EndDemo.http EndDemo.clock EndDemo.sfu EndDemo.switch.

Lemma stream_ends_once_witness :
  times_ended "s1" EndDemo.answers.1 = 1%nat.
Proof.
  pose proof (stream_ends_once id EndDemo.ctx [EndDemo.stop Withhold; EndDemo.stop Publish]
    EndDemo.world "s1") as Hall.
  rewrite (surjective_pairing (serve_ends _ _ _ _)) in Hall.
  destruct Hall as (_ & _ & _ & Hone). apply Hone.
  - constructor.
  - eexists. split; vm_compute; reflexivity.
  - eexists. vm_compute. left.
Defined.

Lemma end_closes_recordings_witness :
  no_open "s1" (db_tables (end_and_finalise_stream_with_reason id EndDemo.ctx
    ("s1", EndDemo.row) Withhold None EndDemo.world).2.1).
Proof.
  pose proof (end_closes_recordings id EndDemo.ctx ("s1", EndDemo.row) Withhold None
    EndDemo.world) as Hall.
  rewrite (surjective_pairing (end_and_finalise_stream_with_reason _ _ _ _ _ _)) in Hall.
  destruct Hall as [_ Hc]. by apply Hc.
Defined.

(** An end whose UPDATE took effect without being acknowledged: the retry finds the stream
    ended, and nobody writes the terminal marker. *)
Example lost_ack_loses_the_marker :
  let script := [{| tk_outcome := Answered; tk_now := 0 |}; {| tk_outcome := Answered; tk_now := 0 |};
    {| tk_outcome := Answered; tk_now := 0 |}; {| tk_outcome := Unacked "reset"; tk_now := 0 |}] in
  let db := {| db_tables := EndDemo.tables; db_now := 0; db_script := script |} in
  let run := serve_ends id EndDemo.ctx [EndDemo.stop Publish; EndDemo.stop Publish]
    (db, (0, [])) in
  times_ended "s1" run.1 = 0%nat ∧
  (∃ e, run.1 !! 0%nat = Some ("s1", Err e)) ∧ run.1 !! 1%nat = Some ("s1", Ok not_ended_now) ∧
  (∃ r, t_streams (db_tables run.2.1) !! "s1" = Some r ∧ sr_status r = "ended" ∧
     sr_ended_event_id r = None).
Proof. vm_compute. split; [done|]. split; [by eexists|]. split; [done|]. by eexists. Qed.
