(* ===== verification/StreamSweep.v ===== *)
(** * StreamSweep: what the sweep of [StreamLifecycle] promises

    The liveness rule never ends a broadcast earlier than the grace period after it was
    last seen live, whatever happens between the ticks, and it does end one that stays
    dead. The clocks of the process are assumed to be monotonic, as [Instant] is. *)
From S2P Require Import SwitchPool.
From S2P Require Import Prelude ApiSchema Json Schema Errors MatrixClient MatrixEvents.
From S2P Require Import MoneyDb StreamsDb Rooms StreamLifecycle.
Local Open Scope Z_scope.
Local Open Scope mm_scope.

(** [Instant] is monotonic: time passes during every call, and never goes back. *)
Class ClockLaws (N : Type) `{Http N, Clock N, Sfu N, EndSwitch N} : Type := {
  time : N → Z;
  passes (n n' : N) : Prop := time n ≤ time n';
  instant_now_reads n : time n ≤ (instant_now n).1 ≤ time (instant_now n).2;
  utc_now_passes : st_rel passes utc_now;
  sleep_passes d : st_rel passes (sleep d);
  http_send_passes r : st_rel passes (http_send r);
  new_v4_passes : st_rel passes new_v4;
  list_egresses_passes r : st_rel passes (list_egresses r);
  stop_egress_passes e : st_rel passes (stop_egress e);
  delete_room_passes r : st_rel passes (delete_room r);
  list_participants_passes r : st_rel passes (sfu_list_participants r);
  record_finalise_passes x : st_rel passes (record_finalise x);
  remove_source_passes x : st_rel passes (remove_source x);
  spawn_passes x : st_rel passes (spawn_mp4_tracker x)
}.

Section passing.
Context {N : Type} `{ClockLaws N}.

#[export] Instance passes_preorder : PreOrder passes.
Proof. split; [intros n; unfold passes; lia|]. intros a b c. unfold passes. lia. Qed.

Definition world_passes (w w' : Db * N) : Prop := passes w.2 w'.2.

#[export] Instance world_passes_preorder : PreOrder world_passes.
Proof. split; [intros w; unfold world_passes, passes; lia|]. intros a b c. unfold world_passes, passes. lia. Qed.

Lemma instant_now_passes : st_rel passes instant_now.
Proof. intros n. pose proof (instant_now_reads n). unfold passes. lia. Qed.

Lemma on_db_passes {A} (m : st Db A) : st_rel world_passes (on_db m).
Proof. intros [db n]. unfold on_db, st_fst. cbn. destruct (m db). unfold world_passes, passes. cbn. lia. Qed.

Lemma on_services_passes {A} (m : st N A) : st_rel passes m → st_rel world_passes (on_services m).
Proof.
  intros Hm [db n]. specialize (Hm n). unfold on_services, st_snd. cbn.
  by destruct (m n).
Qed.

(** One step of a proof about the time a call takes. *)
Ltac pass_step := first
  [ apply on_db_passes | apply on_services_passes
  | apply utc_now_passes | apply instant_now_passes | apply sleep_passes | apply http_send_passes
  | apply new_v4_passes | apply list_egresses_passes | apply stop_egress_passes
  | apply delete_room_passes | apply list_participants_passes | apply record_finalise_passes
  | apply remove_source_passes | apply spawn_passes | st_step ].

Lemma put_event_passes client failed path content :
  st_rel passes (put_event client failed path content).
Proof. unfold put_event, send. repeat pass_step. Qed.

Lemma ensure_bot_passes url_encode cfg user room :
  st_rel passes (ensure_bot_in_room_cfg url_encode cfg user room).
Proof.
  unfold ensure_bot_in_room_cfg, user_login, invite_bot, bot_joins, promote_bot_to_pl100.
  repeat pass_step.
Qed.

Lemma cleanup_passes room rows : st_rel passes (cleanup_livekit_egresses room rows).
Proof. unfold cleanup_livekit_egresses. repeat pass_step. Qed.

Lemma end_media_passes ctx s release : st_rel world_passes (end_media ctx s release).
Proof.
  unfold end_media, mark_recordings_ready, track_switch_mp4s, when, best_effort.
  repeat (apply cleanup_passes || pass_step).
Qed.

Lemma write_terminal_passes client id room content left attempt :
  st_rel world_passes (write_terminal client id room content left attempt).
Proof.
  revert attempt. induction left as [|left IH]; intros attempt; cbn [write_terminal];
    unfold publish_stream_ended, send_state_event; repeat (apply IH || apply put_event_passes || pass_step).
Qed.

Lemma end_passes url_encode ctx s release reason :
  st_rel world_passes (end_and_finalise_stream_with_reason url_encode ctx s release reason).
Proof.
  unfold end_and_finalise_stream_with_reason, end_matrix, finalize_stream_marker_with_reason,
    announce_ready_recordings, next_generation, when, best_effort, clear_e2ee_key,
    emit_feed_broadcast_ended, emit_feed_recording_available, send_state_event, send_custom_event.
  repeat (apply end_media_passes || apply write_terminal_passes || apply put_event_passes ||
    apply ensure_bot_passes || pass_step).
Qed.

Lemma auto_end_passes url_encode ctx s : st_rel world_passes (auto_end_stream url_encode ctx s).
Proof. unfold auto_end_stream, end_and_finalise_stream. repeat (apply end_passes || pass_step). Qed.
End passing.

(** Folding, with the states that are reached: [I] holds of every prefix of the list. *)
Lemma st_fold_trace {S A B} (I : list A → B → S → Prop) (f : B → A → st S B)
    (l : list A) (b : B) (s : S) :
  I [] b s →
  (∀ seen a rest b1 s1, l = seen ++ a :: rest → st_fold f seen b s = (b1, s1) →
     I seen b1 s1 → I (seen ++ [a]) (f b1 a s1).1 (f b1 a s1).2) →
  I l (st_fold f l b s).1 (st_fold f l b s).2.
Proof.
  intros H0 Hstep.
  assert (Hsnoc : ∀ l a b s, st_fold f (l ++ [a]) b s =
    f (st_fold f l b s).1 a (st_fold f l b s).2).
  { clear. induction l as [|x l IH]; intros a b s; cbn; unfold st_bind; cbn.
    - by destruct (f b a s).
    - destruct (f b x s). apply IH. }
  cut (∀ seen rest, l = seen ++ rest → I seen (st_fold f seen b s).1 (st_fold f seen b s).2).
  { intros Hc. by apply (Hc l []), eq_sym, app_nil_r. }
  induction seen as [|a seen IH] using rev_ind; intros rest El; [done|].
  rewrite Hsnoc. rewrite <-app_assoc in El.
  eapply (Hstep seen a rest); [done| |by eapply IH]. by destruct (st_fold f seen b s).
Qed.

(** ** The grace period is respected *)
Section grace.
Context {N : Type} `{ClockLaws N}.
Variable url_encode : string → string.
Variable ctx : EndContext.
Variable id : string.

Abbreviation World := (Db * N)%type.

(** Stream [id] has not been counted dead before [t0]. *)
Definition counted_from (t0 : Z) (c : StreamSweeper) : Prop :=
  ∀ since, c !! id = Some since → t0 ≤ since.

(** If [id] was ended, it was for its duration, or a grace period after [t0]. *)
Definition ended_late (t0 : Z) (policy : SweepPolicy) (rep : SweepReport) (w : World) : Prop :=
  id ∈ sw_ended rep → id ∈ sw_over_max_duration rep ∨
    ∃ g, pl_grace policy = Some g ∧ t0 + g ≤ time w.2.

Definition sweep_inv (t0 : Z) (policy : SweepPolicy) (acc : SweepReport * StreamSweeper)
    (w : World) : Prop :=
  counted_from t0 acc.2 ∧ t0 ≤ time w.2 ∧ ended_late t0 policy acc.1 w.

Lemma sweep_inv_later t0 policy acc w w' :
  world_passes w w' → sweep_inv t0 policy acc w → sweep_inv t0 policy acc w'.
Proof.
  unfold world_passes, passes. intros Hp (Hc & Ht & He). split; [done|]. split; [lia|].
  intros Hin. destruct (He Hin) as [|(g & ? & ?)]; [by left|]. right. exists g. split; [done|lia].
Qed.

Lemma counted_from_delete t0 x c : counted_from t0 c → counted_from t0 (delete x c).
Proof. intros Hc since [_ Hs]%lookup_delete_Some. by apply Hc. Qed.

Lemma account_inv t0 policy over x o acc w :
  sweep_inv t0 policy acc w →
  (x = id → over = true ∨ ∃ g, pl_grace policy = Some g ∧ t0 + g ≤ time w.2) →
  sweep_inv t0 policy (account over x o acc) w.
Proof.
  intros (Hc & Ht & He) Hx. unfold account. destruct o as [o|]; [|by repeat split].
  split; [by apply counted_from_delete|]. split; [done|]. cbn [fst].
  destruct (eo_ended_now o); [|done]. unfold ended_late. cbn.
  rewrite elem_of_app, list_elem_of_singleton. intros [Hin| ->].
  - destruct (He Hin) as [|?]; [|by right]. left. destruct over; [apply elem_of_app|]; auto.
  - destruct (Hx eq_refl) as [->|?]; [|by right]. left. apply elem_of_app. right. by apply list_elem_of_singleton.
Qed.

(** Running a call first does not disturb the invariant. *)
Lemma hoare_pass {A B} t0 policy acc (m : st World A) (k : A → st World B) Q :
  st_rel world_passes m →
  (∀ a, hoare (sweep_inv t0 policy acc) (k a) Q) →
  hoare (sweep_inv t0 policy acc) (st_bind m k) Q.
Proof.
  intros Hm Hk. apply (hoare_bind _ _ (λ _, sweep_inv t0 policy acc)); [|done].
  intros w Hw. eapply sweep_inv_later; [apply Hm|done].
Qed.

Lemma lookup_room_passes s : st_rel world_passes (lookup_room s).
Proof.
  unfold lookup_room. st_steps. apply on_services_passes, list_participants_passes.
Qed.

Lemma past_cap_passes policy s : st_rel world_passes (past_cap policy s).
Proof. unfold past_cap. st_steps. apply on_services_passes, utc_now_passes. Qed.

Lemma sweep_stream_inv t0 live policy acc s :
  hoare (sweep_inv t0 policy acc) (sweep_stream url_encode ctx live policy acc s)
    (sweep_inv t0 policy).
Proof.
  unfold sweep_stream. apply hoare_pass; [apply past_cap_passes|]. intros [].
  { apply hoare_pass; [apply auto_end_passes|]. intros o. apply hoare_ret. intros w Hw.
    apply account_inv; auto. }
  destruct (pl_grace policy) as [g|] eqn:Eg; [|by apply hoare_ret].
  apply hoare_pass; [apply lookup_room_passes|]. intros room.
  destruct (sweep_considers_occupied _ _).
  { apply hoare_ret. intros w (Hc & Ht & He). split; [by apply counted_from_delete|done]. }
  (* the clock starts now, or was running *)
  apply (hoare_bind _ _ (λ since w, sweep_inv t0 policy (acc.1, <[s.1 := since]> acc.2) w ∧
    (s.1 = id → t0 ≤ since))).
  { intros w (Hc & Ht & He). destruct (acc.2 !! s.1) as [since|] eqn:Es.
    - unfold st_ret. cbn [fst snd]. rewrite (insert_id (M := gmap string) _ _ _ Es).
      split; [by destruct acc|]. intros Hid. apply Hc. by rewrite <-Hid.
    - unfold on_services, st_snd. pose proof (instant_now_reads w.2) as Hr.
      destruct (instant_now w.2) as [since n']. cbn in *.
      split; [|lia]. split; [|split; [cbn; lia|]].
      + intros x Hx. cbn in Hx. apply lookup_insert_Some in Hx as [[_ <-]|[_ Hx]]; [lia|by apply Hc].
      + intros Hin. destruct (He Hin) as [|(g' & ? & ?)]; [by left|]. right. exists g'. cbn. split; [done|lia]. }
  intros since. apply (hoare_bind _ _ (λ now w,
    sweep_inv t0 policy (acc.1, <[s.1 := since]> acc.2) w ∧ (s.1 = id → t0 ≤ since) ∧
    now ≤ time w.2)).
  { intros w [Hw Hs]. pose proof (instant_now_reads w.2) as Hr. split; [|split; [done|]].
    - eapply sweep_inv_later; [|done]. apply on_services_passes, instant_now_passes.
    - unfold on_services, st_snd. destruct (instant_now w.2). cbn in *. lia. }
  intros now. destruct (Z.ltb_spec (Z.max 0 (now - since)) g) as [|Hlate].
  { apply hoare_ret. by intros w (? & _). }
  apply (hoare_bind _ _ (λ _ w, sweep_inv t0 policy (acc.1, <[s.1 := since]> acc.2) w ∧
    (s.1 = id → t0 ≤ since) ∧ now ≤ time w.2)).
  { intros w (Hw & Hs & Hn). pose proof (auto_end_passes url_encode ctx s w) as Hp.
    split; [by eapply sweep_inv_later|]. split; [done|]. unfold world_passes, passes in Hp. lia. }
  intros o. apply hoare_ret. intros w (Hw & Hs & Hn). apply account_inv; [done|].
  intros Hid. right. exists g. split; [done|]. specialize (Hs Hid). destruct Hw as (_ & ? & _). lia.
Qed.

(** One tick. *)
Lemma run_once_inv t0 live policy sweeper w :
  counted_from t0 sweeper → t0 ≤ time w.2 →
  sweep_inv t0 policy (run_once url_encode ctx live policy sweeper w).1
    (run_once url_encode ctx live policy sweeper w).2.
Proof.
  intros Hc Ht. unfold run_once.
  set (c := match pl_grace policy with None => reset sweeper | Some _ => sweeper end).
  assert (Hc' : counted_from t0 c) by (subst c; destruct (pl_grace policy); [done|by intros since]).
  assert (Hinit : ∀ n w, t0 ≤ time w.2 → sweep_inv t0 policy (with_checked n, c) w)
    by (intros n w' Hw; split; [done|split; [done|]]; intros Hin; inversion Hin).
  destruct (is_off policy); [by apply (Hinit 0%nat)|].
  unfold st_bind at 1 3. pose proof (on_db_passes (list_all_active_streams SWEEP_STREAM_LIMIT) w) as Hp.
  destruct (on_db _ w) as [[streams|e] w1]; unfold world_passes, passes in Hp; cbn [fst snd] in Hp;
    [|apply (Hinit 0%nat); cbn; lia].
  pose proof (st_fold_inv (λ _ acc w, sweep_inv t0 policy acc w)
    (sweep_stream url_encode ctx live policy) streams (with_checked (length streams), c) w1
    (Hinit _ w1 ltac:(lia)) (λ _ a b w _ Hw, sweep_stream_inv t0 live policy b a w Hw)) as Hf.
  unfold st_bind. destruct (st_fold _ streams _ w1) as [acc w2]. cbn [fst snd] in *.
  destruct Hf as (Hf & ? & ?). split; [|done]. intros since Hs. cbn in Hs.
  apply map_lookup_filter_Some in Hs as [Hs _]. by apply Hf.
Qed.

(** ** What starts the count anew *)
Definition anything (w : World) : Prop := True.

Lemma hoare_anything {A B} (m : st World A) (k : A → st World B) Q :
  (∀ a, hoare anything (k a) Q) → hoare anything (st_bind m k) Q.
Proof. intros Hk. by apply (hoare_bind _ _ (λ _, anything)). Qed.

Definition uncounted (acc : SweepReport * StreamSweeper) (w : World) : Prop := acc.2 !! id = None.

Lemma account_lookup over x o acc :
  x ≠ id → (account over x o acc).2 !! id = acc.2 !! id.
Proof. intros Hx. destruct o as [o|]; [|done]. cbn. by apply lookup_delete_ne. Qed.

Lemma account_none over x o acc : acc.2 !! id = None → (account over x o acc).2 !! id = None.
Proof. intros Hn. destruct o as [o|]; [|done]. cbn. apply lookup_delete_None. by right. Qed.

(** When the tick that started with [sweeper] in the world [w] came to the stream [id], it
    read the wall clock and found the broadcast past its maximum duration: [wc] is the world
    the streams listed before it left. *)
Definition found_past_cap (live : option (list string)) (policy : SweepPolicy)
    (sweeper : StreamSweeper) (w : World) : Prop :=
  let counts := match pl_grace policy with None => reset sweeper | Some _ => sweeper end in
  ∃ streams w1 before row after acc wc,
    on_db (list_all_active_streams SWEEP_STREAM_LIMIT) w = (Ok streams, w1) ∧
    streams = before ++ (id, row) :: after ∧
    st_fold (sweep_stream url_encode ctx live policy) before
      (with_checked (length streams), counts) w1 = (acc, wc) ∧
    (past_cap policy (id, row) wc).1 = true.

Lemma sweep_stream_passes live policy acc s :
  st_rel world_passes (sweep_stream url_encode ctx live policy acc s).
Proof.
  unfold sweep_stream.
  repeat first [ apply past_cap_passes | apply auto_end_passes | apply lookup_room_passes
    | apply on_services_passes, instant_now_passes | st_step ].
Qed.

Lemma run_once_passes live policy sweeper :
  st_rel world_passes (run_once url_encode ctx live policy sweeper).
Proof.
  unfold run_once.
  repeat first [ apply on_db_passes | apply sweep_stream_passes | st_step ].
Qed.

(** One stream, the liveness rule off: no count starts. *)
Lemma sweep_stream_paused live policy acc s :
  pl_grace policy = None → acc.2 !! id = None →
  hoare anything (sweep_stream url_encode ctx live policy acc s) uncounted.
Proof.
  intros Hg Hn. unfold sweep_stream. rewrite Hg. apply hoare_anything. intros [].
  - apply hoare_anything. intros o. apply hoare_ret. intros w _. by apply account_none.
  - by apply hoare_ret.
Qed.

(** Another stream leaves the count of [id] alone. *)
Lemma sweep_stream_other live policy acc s :
  s.1 ≠ id → hoare anything (sweep_stream url_encode ctx live policy acc s)
    (λ acc' _, acc'.2 !! id = acc.2 !! id).
Proof.
  intros Hne. unfold sweep_stream. apply hoare_anything. intros [].
  { apply hoare_anything. intros o. apply hoare_ret. intros w _. by apply account_lookup. }
  destruct (pl_grace policy); [|by apply hoare_ret]. apply hoare_anything. intros room.
  destruct (sweep_considers_occupied _ _).
  { apply hoare_ret. intros w _. by apply lookup_delete_ne. }
  do 2 (apply hoare_anything; intros ?).
  assert (Hi : (<[s.1 := a]> acc.2 : StreamSweeper) !! id = acc.2 !! id) by (by apply lookup_insert_ne).
  destruct (_ <? _); [by apply hoare_ret|]. apply hoare_anything. intros o. apply hoare_ret.
  intros w _. by rewrite account_lookup.
Qed.

(** [id] itself, carried by the switch: the count ends, unless it is past the cap. *)
Lemma sweep_stream_live live policy acc row w :
  pl_grace policy ≠ None → switch_live live id = Some true →
  uncounted (sweep_stream url_encode ctx live policy acc (id, row) w).1 w ∨
  (past_cap policy (id, row) w).1 = true.
Proof.
  intros Hg Hl. unfold sweep_stream. unfold st_bind at 1.
  destruct (past_cap policy (id, row) w) as [[] w1]; [by right|left].
  destruct (pl_grace policy) as [g|]; [|done]. unfold st_bind at 1.
  destruct (lookup_room (id, row) w1) as [room w2].
  unfold sweep_considers_occupied. cbn [fst]. rewrite Hl. cbn. apply lookup_delete_eq.
Qed.

(** A stream is reported as past the cap when it was found so. *)
Lemma sweep_stream_over live policy acc s w :
  id ∈ sw_over_max_duration (sweep_stream url_encode ctx live policy acc s w).1.1 →
  id ∈ sw_over_max_duration acc.1 ∨ (s.1 = id ∧ (past_cap policy s w).1 = true).
Proof.
  assert (Ha : ∀ over x o acc, id ∈ sw_over_max_duration (account over x o acc).1 →
    id ∈ sw_over_max_duration acc.1 ∨ (x = id ∧ over = true)).
  { intros over x [o|] a; [|by left]. cbn. destruct (eo_ended_now o); [|by left].
    destruct over; cbn; [|by left]. rewrite elem_of_app, list_elem_of_singleton. naive_solver. }
  unfold sweep_stream. unfold st_bind at 1. destruct (past_cap policy s w) as [[] w1]; cbn [fst].
  { unfold st_bind. destruct (auto_end_stream _ _ _ _) as [o w2]. intros [?|[? _]]%Ha; auto. }
  destruct (pl_grace policy) as [g|]; [|by left]. unfold st_bind.
  destruct (lookup_room s w1) as [room w2]. destruct (sweep_considers_occupied _ _); [by left|].
  destruct (match acc.2 !! s.1 with Some since => st_ret since | None => on_services instant_now end w2)
    as [since w3]. destruct (on_services instant_now w3) as [now w4]. destruct (_ <? _); [by left|].
  destruct (auto_end_stream _ _ _ _) as [o w5]. intros [?|[_ ?]]%Ha; [by left|done].
Qed.

Lemma run_once_over live policy sweeper w :
  id ∈ sw_over_max_duration (run_once url_encode ctx live policy sweeper w).1.1 →
  found_past_cap live policy sweeper w.
Proof.
  unfold run_once. set (c := match pl_grace policy with None => _ | Some _ => _ end).
  destruct (is_off policy); [by intros ?%elem_of_nil|]. unfold st_bind at 1.
  destruct (on_db _ w) as [[streams|e] w1] eqn:El; [|by intros ?%elem_of_nil].
  pose proof (st_fold_trace (λ (_ : list StreamsDb.Stream) acc _, id ∈ sw_over_max_duration acc.1 →
    found_past_cap live policy sweeper w) (sweep_stream url_encode ctx live policy) streams
    (with_checked (length streams), c) w1) as Hf.
  unfold st_bind. destruct (st_fold _ streams _ w1) as [acc w2]. cbn [fst snd] in *.
  apply Hf; [by intros ?%elem_of_nil|]. intros seen [x row] rest b wc El' Efold IH Hin.
  apply sweep_stream_over in Hin as [Hin|[Hid Hc]]; [by apply IH|]. cbn in Hid. subst x.
  by exists streams, w1, seen, row, rest, b, wc.
Qed.

Lemma active_listing (db : Db) streams s :
  (asking (reading (λ t, limit SWEEP_STREAM_LIMIT (streams_where StreamsDb.is_active t))) db).1 = Ok streams →
  s ∈ streams → t_streams (db_tables db) !! s.1 = Some s.2.
Proof.
  intros ->%asking_reading_ok. unfold limit, streams_where. intros Hin.
  apply elem_of_take in Hin as (i & Hin & _). apply list_elem_of_lookup_2 in Hin.
  apply elem_of_order_desc, list_elem_of_In, filter_In in Hin as [Hin _].
  apply list_elem_of_In in Hin. destruct s. by apply elem_of_map_to_list in Hin.
Qed.

(** A tick that pauses the liveness rule, or sees the stream live, leaves no count. *)
Lemma run_once_uncounted live policy sweeper w rep c w' :
  run_once url_encode ctx live policy sweeper w = ((rep, c), w') →
  pl_grace policy = None ∨ switch_live live id = Some true ∧ sw_checked rep ≠ 0%nat →
  c !! id = None ∨ found_past_cap live policy sweeper w.
Proof.
  intros E Hchk. unfold run_once in E.
  destruct (pl_grace policy) as [g|] eqn:Eg.
  - destruct Hchk as [?|[Hl Hchk]]; [done|]. unfold is_off in E. rewrite Eg in E.
    rewrite bool_decide_false in E by done. cbn [andb] in E. unfold st_bind at 1 in E.
    destruct (on_db _ w) as [[streams|e] w1] eqn:El; [|by injection E as <- _ _].
    pose proof (st_fold_trace (λ (seen : list StreamsDb.Stream) acc _, id ∈ seen.*1 → acc.2 !! id = None ∨
      found_past_cap live policy sweeper w) (sweep_stream url_encode ctx live policy) streams
      (with_checked (length streams), sweeper) w1) as Hf.
    unfold st_bind in E. destruct (st_fold _ streams _ _) as [acc w2].
    cbn [fst snd] in Hf. injection E as <- <- <-.
    destruct (decide (id ∈ streams.*1)) as [Hin|Hin]; [|left; apply map_lookup_filter_None; by right].
    destruct Hf as [?|?]; [by intros ?%elem_of_nil| |done|left; apply map_lookup_filter_None; left; assumption|right; assumption].
    intros seen [x row] rest b wc El' Efold IH.
    rewrite fmap_app, elem_of_app. cbn [fmap list_fmap fst]. rewrite list_elem_of_singleton.
    destruct (decide (x = id)) as [->|Hid].
    + intros _. destruct (sweep_stream_live live policy b row wc) as [Hu|Ho]; [congruence|done|by left|].
      right. unfold found_past_cap. rewrite Eg. by exists streams, w1, seen, row, rest, b, wc.
    + intros [Hseen|?]; [|congruence].
      rewrite (sweep_stream_other live policy b (x, row) Hid wc I). by apply IH.
  - left. destruct (is_off policy); [by injection E as _ <- _|]. unfold st_bind at 1 in E.
    destruct (on_db _ w) as [[streams|e] w1]; [|by injection E as _ <- _].
    pose proof (st_fold_inv (λ _ acc w, uncounted acc w)
      (sweep_stream url_encode ctx live policy) streams (with_checked (length streams), reset sweeper) w1
      (lookup_empty id)
      (λ _ a b w _ Hw, sweep_stream_paused live policy b a Eg Hw w I)) as Hf.
    unfold st_bind in E. destruct (st_fold _ streams _ w1) as [acc w2].
    injection E as <- <- <-. apply map_lookup_filter_None. by left.
Qed.
End grace.

(** ** Histories of ticks *)

(** A tick: the configuration and the switch's sources it starts with, and the world it
    finds. Between two ticks anything may happen to the world. *)
Record SweepTick (N : Type) : Type := {
  tick_cfg : StreamingConfig;
  tick_live : option (list string);
  tick_world : Db * N
}.
Arguments tick_cfg {N} _.
Arguments tick_live {N} _.
Arguments tick_world {N} _.

Section history.
Context {N : Type} `{ClockLaws N}.
Variable url_encode : string → string.
Variable ctx : EndContext.

(** A tick that ran, the counts it started with, its report and the world it left. *)
Record Ran : Type := {
  ran_tick : SweepTick N;
  ran_counts : StreamSweeper;
  ran_report : SweepReport;
  ran_world : Db * N
}.

Fixpoint sweeps (l : list (SweepTick N)) (sweeper : StreamSweeper) : list Ran :=
  match l with
  | [] => []
  | k :: l' =>
      let '((rep, sweeper'), w') :=
        sweep_tick url_encode (tick_cfg k) ctx (tick_live k) sweeper (tick_world k) in
      {| ran_tick := k; ran_counts := sweeper; ran_report := rep; ran_world := w' |}
        :: sweeps l' sweeper'
  end.

(** One process: a tick starts after the one before it. *)
Fixpoint in_order (t : Z) (l : list Ran) : Prop :=
  match l with
  | [] => True
  | x :: l' => t ≤ time (tick_world (ran_tick x)).2 ∧ in_order (time (ran_world x).2) l'
  end.

(** The tick itself found [id] past its maximum duration. *)
Definition too_long (id : string) (x : Ran) : Prop :=
  let k := ran_tick x in
  found_past_cap url_encode ctx id (tick_live k) (from_config (tick_cfg k)) (ran_counts x)
    (tick_world k).

(** The sweep that ends [id] found it past its maximum duration, or ended it a grace
    period after [t0]. *)
Definition late_end (id : string) (t0 : Z) (x : Ran) : Prop :=
  id ∈ sw_ended (ran_report x) → too_long id x ∨
    ∃ g, sweep_grace (tick_cfg (ran_tick x)) = Some g ∧ t0 + g ≤ time (ran_world x).2.

Lemma sweeps_late id t0 l sweeper t :
  counted_from id t0 sweeper → t0 ≤ t → in_order t (sweeps l sweeper) →
  Forall (late_end id t0) (sweeps l sweeper).
Proof.
  revert sweeper t. induction l as [|k l IH]; intros sweeper t Hc Ht; [by constructor|].
  cbn [sweeps]. unfold sweep_tick.
  pose proof (run_once_inv url_encode ctx id t0 (tick_live k) (from_config (tick_cfg k)) sweeper
    (tick_world k) Hc) as Hi.
  destruct (run_once _ _ _ _ _ _) as [[rep c] w'] eqn:E. cbn [in_order ran_tick ran_world].
  intros [Hk Hl]. destruct (Hi ltac:(lia)) as (Hc' & Ht' & He).
  constructor; [|by eapply IH]. intros Hin. destruct (He Hin) as [Hover|?]; [left|by right].
  apply run_once_over. cbn [ran_tick ran_counts]. by rewrite E.
Qed.
End history.
Arguments Ran N : clear implicits.
Arguments ran_tick {N} _.
Arguments ran_counts {N} _.
Arguments ran_report {N} _.
Arguments ran_world {N} _.

(** C20. The liveness rule respects the grace period. Take a tick at which a stream was seen live on
    the switch, or the rule was paused. Whatever happens afterwards, between ticks and
    during them, a later tick that ends the stream does so at least its grace period after
    that tick began, or found, by the wall clock it read when it came to the stream, that the
    broadcast had run past the maximum duration. The one exception is a broadcast that the
    first tick already found past the maximum duration and could not end: its count is left
    as it was. *)
Theorem sweep_respects_grace {N : Type} `{ClockLaws N} (url_encode : string → string)
    (ctx : EndContext) (sweeper : StreamSweeper) (seen : SweepTick N) (later : list (SweepTick N))
    (id : string) (first : Ran N) (rest : list (Ran N)) :
  sweeps url_encode ctx (seen :: later) sweeper = first :: rest →
  in_order (time (tick_world seen).2) (first :: rest) →
  sweep_grace (tick_cfg seen) = None ∨
    switch_live (tick_live seen) id = Some true ∧ sw_checked (ran_report first) ≠ 0%nat →
  Forall (late_end url_encode ctx id (time (tick_world seen).2)) rest ∨
  too_long url_encode ctx id first.
Proof.
  cbn [sweeps]. unfold sweep_tick. intros E Hord Hseen.
  destruct (run_once _ _ _ _ _ _) as [[rep c] w'] eqn:Er. injection E as <- Hrest.
  pose proof (run_once_passes url_encode ctx (tick_live seen) (from_config (tick_cfg seen)) sweeper
    (tick_world seen)) as Hp. rewrite Er in Hp. unfold world_passes, passes in Hp.
  destruct (run_once_uncounted url_encode ctx id _ _ _ _ _ _ _ Er Hseen) as [Hc|Ho]; [left|by right].
  subst rest. destruct Hord as [_ Hord]. eapply sweeps_late; [|exact Hp|exact Hord].
  intros since Hs. congruence.
Qed.

(** ** A dead broadcast is ended *)
Section liveness.
Context {N : Type} `{ClockLaws N}.
Variable url_encode : string → string.
Variable ctx : EndContext.

Abbreviation World := (Db * N)%type.

(** Nobody publishes to the switch, and the SFU's room stays empty. *)
Definition deserted (live : option (list string)) (s : StreamsDb.Stream) : Prop :=
  switch_live live s.1 ≠ Some true ∧
  ∀ room, sr_sfu_room_id s.2 = Some room →
    ∀ n : N, (sfu_list_participants room n).1 = Ok [] ∨ is_ok (sfu_list_participants room n).1 = false.

Lemma deserted_not_occupied live s (w : World) :
  deserted live s → sweep_considers_occupied (lookup_room s w).1 (switch_live live s.1) = false.
Proof.
  intros [Hl Hr]. unfold sweep_considers_occupied. rewrite bool_decide_false by done. cbn.
  unfold lookup_room. destruct (sr_sfu_room_id s.2) as [room|]; [|done].
  unfold on_services, st_snd, st_bind. specialize (Hr room eq_refl w.2).
  destruct (sfu_list_participants room w.2) as [[l|e] n']; cbn in *; [|done].
  by destruct Hr as [[= ->]|].
Qed.

Lemma lookup_room_db s (w : World) : (lookup_room s w).2.1 = w.1.
Proof.
  unfold lookup_room. destruct (sr_sfu_room_id s.2); [|done].
  unfold on_services, st_snd, st_bind. by destruct (sfu_list_participants _ _).
Qed.

Lemma on_services_db {A} (m : st N A) (w : World) : (on_services m w).2.1 = w.1.
Proof. unfold on_services, st_snd. by destruct (m w.2). Qed.

(** The automatic end of an active stream on a database that answers. *)
Lemma auto_end_answered s (w : World) :
  quiet w.1 → active_row s.1 (db_tables w.1) →
  ∃ o w', auto_end_stream url_encode ctx s w = (Some o, w') ∧ eo_ended_now o = true ∧
    quiet w'.1 ∧ ¬ active_row s.1 (db_tables w'.1).
Proof.
  intros Hq Ha. unfold auto_end_stream, end_and_finalise_stream, st_bind.
  destruct (end_answered url_encode ctx s Publish None w Hq Ha) as (o & w' & E & Ho).
  pose proof (end_keeps url_encode quiet ctx s Publish None w Hq) as Hq'.
  rewrite E in Hq' |- *. exists o, w'. split; [done|]. split; [done|]. split; [done|].
  by apply (end_once url_encode ctx s Publish None w o w' E).
Qed.

(** A dead stream was ended, or is counted since [since]. *)
Definition counted (id : string) (g t0 : Z) (before after : option Z) (t1 : Z) : Prop :=
  ∃ since, after = Some since ∧ (before = Some since ∨ before = None ∧ since ≤ t1) ∧ t0 - since < g.

Lemma sweep_stream_dead live policy g acc s (w : World) :
  pl_grace policy = Some g → deserted live s → quiet w.1 → active_row s.1 (db_tables w.1) →
  let '(acc', w') := sweep_stream url_encode ctx live policy acc s w in
  quiet w'.1 ∧
  (s.1 ∈ sw_ended acc'.1 ∧ ¬ active_row s.1 (db_tables w'.1) ∨
   w'.1 = w.1 ∧ counted s.1 g (time w.2) (acc.2 !! s.1) (acc'.2 !! s.1) (time w'.2)).
Proof.
  intros Hg Hd Hq Ha. unfold sweep_stream. rewrite Hg. unfold st_bind at 1.
  assert (Hcap : (past_cap policy s w).2.1 = w.1).
  { unfold past_cap. destruct (pl_max_broadcast policy); [|done]. unfold st_bind.
    pose proof (on_services_db utc_now w). by destruct (on_services utc_now w). }
  pose proof (past_cap_passes policy s w) as Hp0. unfold world_passes, passes in Hp0.
  destruct (past_cap policy s w) as [over w0]. cbn [fst snd] in *. rewrite <-Hcap in Hq, Ha.
  destruct over.
  { unfold st_bind. destruct (auto_end_answered s w0 Hq Ha) as (o & w' & -> & Ho & Hq' & Hna).
    unfold st_ret, account. rewrite Ho. split; [done|]. left. split; [|done]. cbn.
    apply elem_of_app. right. by apply list_elem_of_singleton. }
  unfold st_bind at 1. pose proof (deserted_not_occupied live s w0 Hd) as Hocc.
  pose proof (lookup_room_db s w0) as Hdb1.
  pose proof (lookup_room_passes s w0) as Hp1. unfold world_passes, passes in Hp1.
  destruct (lookup_room s w0) as [room w1]. cbn [fst snd] in *. rewrite Hocc.
  unfold st_bind at 1.
  set (start := match acc.2 !! s.1 with Some since => st_ret since | None => on_services instant_now end).
  assert (Hstart : (start w1).2.1 = w1.1 ∧ time w1.2 ≤ time (start w1).2.2 ∧
    (acc.2 !! s.1 = Some (start w1).1 ∨ acc.2 !! s.1 = None ∧ (start w1).1 ≤ time (start w1).2.2)).
  { subst start. destruct (acc.2 !! s.1) as [since|]; cbn; [split; [done|split; [lia|by left]]|].
    unfold on_services, st_snd. pose proof (instant_now_reads w1.2). destruct (instant_now w1.2).
    cbn in *. split; [done|]. split; [lia|]. right. split; [done|lia]. }
  destruct (start w1) as [since w2]. cbn [fst snd] in Hstart. destruct Hstart as (Hdb2 & Hp2 & Hsince).
  unfold st_bind at 1. pose proof (on_services_db instant_now w2) as Hdb3.
  pose proof (instant_now_reads w2.2) as Hread.
  assert (Hnow : (on_services instant_now w2).1 = (instant_now w2.2).1 ∧
    time (instant_now w2.2).2 = time (on_services instant_now w2).2.2)
    by (unfold on_services, st_snd; by destruct (instant_now w2.2)).
  destruct (on_services instant_now w2) as [now w3]. cbn [fst snd] in *. destruct Hnow as [-> Hnow].
  assert (Hq3 : quiet w3.1) by congruence.
  assert (Ha3 : active_row s.1 (db_tables w3.1)) by (by rewrite Hdb3, Hdb2, Hdb1).
  destruct (Z.ltb_spec (Z.max 0 ((instant_now w2.2).1 - since)) g) as [Hlt|Hge].
  - cbn [st_ret fst snd]. split; [done|]. right. split; [congruence|].
    exists since. split; [apply lookup_insert_eq|]. split; [|lia].
    destruct Hsince as [?|[? ?]]; [by left|]. right. split; [done|lia].
  - unfold st_bind. destruct (auto_end_answered s w3 Hq3 Ha3) as (o & w' & -> & Ho & Hq' & Hna).
    unfold st_ret, account. rewrite Ho. split; [done|]. left. split; [|done]. cbn.
    apply elem_of_app. right. by apply list_elem_of_singleton.
Qed.

(** Whatever a stream's examination does, the report only grows and nothing comes alive. *)
Lemma account_ended over x o acc : sw_ended acc.1 ⊆ sw_ended (account over x o acc).1.
Proof.
  destruct o as [o|]; [|done]. cbn. destruct (eo_ended_now o); [|done]. cbn.
  intros y Hy. apply elem_of_app. by left.
Qed.

Lemma sweep_stream_grows live policy acc s :
  hoare anything (sweep_stream url_encode ctx live policy acc s)
    (λ acc' (_ : World), sw_ended acc.1 ⊆ sw_ended acc'.1).
Proof.
  unfold sweep_stream. apply hoare_anything. intros [].
  { apply hoare_anything. intros o. apply hoare_ret. intros w _. apply account_ended. }
  destruct (pl_grace policy); [|by apply hoare_ret]. apply hoare_anything. intros room.
  destruct (sweep_considers_occupied _ _); [by apply hoare_ret|].
  do 2 (apply hoare_anything; intros ?). destruct (_ <? _); [by apply hoare_ret|].
  apply hoare_anything. intros o. apply hoare_ret. intros w _.
  apply (account_ended false s.1 o (acc.1, <[s.1:=a]> acc.2)).
Qed.

Ltac sweep_step := first
  [ by apply on_services_moves; apply _ | st_step ].

Lemma sweep_stream_moves live policy acc s :
  st_rel (tables_move (end_moves s.1 false)) (sweep_stream url_encode ctx live policy acc s).
Proof.
  unfold sweep_stream, past_cap, lookup_room, auto_end_stream, end_and_finalise_stream.
  repeat (apply (end_moves_tables url_encode ctx s Publish None) || sweep_step).
Qed.

Lemma sweep_stream_quiet live policy acc s :
  st_rel (world_keeps quiet) (sweep_stream url_encode ctx live policy acc s).
Proof.
  unfold sweep_stream, past_cap, lookup_room, auto_end_stream, end_and_finalise_stream.
  repeat first [ apply end_keeps; apply _ | apply (on_services_keeps quiet) | st_step ].
Qed.

(** One tick on a database that answers. *)
Section one_tick.
Variable live : option (list string).
Variable policy : SweepPolicy.
Variable g : Z.
Hypothesis Hg : pl_grace policy = Some g.
Variable id : string.
Variable row : StreamRec.
Hypothesis Hdead : deserted live (id, row).
Hypothesis Hactive : sr_status row = "active".

(** After the streams [seen], from the clocks [c0] at the instant [t0]. *)
Definition tick_inv (c0 : StreamSweeper) (t0 : Z) (seen : list StreamsDb.Stream)
    (acc : SweepReport * StreamSweeper) (w : World) : Prop :=
  quiet w.1 ∧ t0 ≤ time w.2 ∧
  (id ∈ sw_ended acc.1 ∧ ¬ active_row id (db_tables w.1) ∨
   t_streams (db_tables w.1) !! id = Some row ∧
   (if decide (id ∈ seen.*1) then counted id g t0 (c0 !! id) (acc.2 !! id) (time w.2)
    else acc.2 !! id = c0 !! id)).

Lemma counted_later t0 t0' before after t1 t1' :
  t0' ≤ t0 → t1 ≤ t1' → counted id g t0 before after t1 → counted id g t0' before after t1'.
Proof.
  intros H0' H1' (since & -> & Hs & Hlt). exists since. split; [done|]. split; [|lia].
  destruct Hs as [?|[? ?]]; [by left|]. right. split; [done|lia].
Qed.

Lemma tick_inv_step c0 t0 seen acc s w :
  (s.1 = id → s.2 = row) → tick_inv c0 t0 seen acc w →
  tick_inv c0 t0 (seen ++ [s]) (sweep_stream url_encode ctx live policy acc s w).1
    (sweep_stream url_encode ctx live policy acc s w).2.
Proof.
  intros Hs (Hq & Ht & Hcase).
  pose proof (sweep_stream_grows live policy acc s w I) as Hgrow.
  pose proof (sweep_stream_moves live policy acc s w) as Hm. unfold tables_move in Hm.
  pose proof (sweep_stream_quiet live policy acc s w Hq) as Hq'.
  pose proof (sweep_stream_passes url_encode ctx live policy acc s w) as Hp. unfold world_passes, passes in Hp.
  pose proof (sweep_stream_other url_encode ctx id live policy acc s) as Hother.
  pose proof (λ Hd, sweep_stream_dead live policy g acc s w Hg Hd Hq) as Hdd.
  destruct (sweep_stream _ _ _ _ _ s w) as [acc' w'] eqn:E. cbn [fst snd] in *.
  split; [done|]. split; [lia|].
  destruct Hcase as [[Hin Hna]|[Hrow Hcount]].
  { left. split; [by apply Hgrow|]. intros Ha. apply Hna. by eapply end_moves_active. }
  destruct (decide (s.1 = id)) as [Hid|Hid].
  - assert (Hs' : s = (id, row)) by (destruct s; cbn in *; f_equal; auto). subst s. cbn [fst snd] in *.
    destruct (Hdd Hdead) as (_ & [[Hend Hna]|[Hdb Hc]]); [by exists row|by left|].
    right. split; [by rewrite Hdb|]. rewrite decide_True by (rewrite fmap_app; set_solver).
    destruct (decide (id ∈ seen.*1)).
    + destruct Hcount as (since & Hsince & Hold & Hlt). rewrite Hsince in Hc.
      destruct Hc as (since' & Hs2 & [Hs3|[? _]] & Hlt'); [|done]. injection Hs3 as <-.
      exists since. split; [done|]. split; [|done].
      destruct Hold as [?|[? ?]]; [by left|]. right. split; [done|lia].
    + rewrite Hcount in Hc. eapply counted_later; [| |exact Hc]; lia.
  - right. destruct Hm as [_ Hst _]. specialize (Hst id). rewrite Hrow in Hst.
    inversion Hst as [a b Hab Ea Eb|]; subst. destruct Hab as [<-|[-> _]]; [|done].
    split; [done|]. pose proof (Hother Hid w I) as Ho. rewrite E in Ho. cbn [fst] in Ho. rewrite Ho.
    destruct (decide (id ∈ seen.*1)) as [Hin|Hin].
    + rewrite decide_True by (rewrite fmap_app; set_solver). eapply counted_later; [| |exact Hcount]; lia.
    + rewrite decide_False; [done|]. rewrite fmap_app, elem_of_app. cbn. set_solver.
Qed.

Lemma run_once_dead c0 w rep c w' :
  quiet w.1 → t_streams (db_tables w.1) !! id = Some row →
  id ∈ (limit SWEEP_STREAM_LIMIT (streams_where StreamsDb.is_active (db_tables w.1))).*1 →
  run_once url_encode ctx live policy c0 w = ((rep, c), w') →
  quiet w'.1 ∧ time w.2 ≤ time w'.2 ∧
  (id ∈ sw_ended rep ∧ ¬ active_row id (db_tables w'.1) ∨
   t_streams (db_tables w'.1) !! id = Some row ∧
   counted id g (time w.2) (c0 !! id) (c !! id) (time w'.2)).
Proof.
  intros Hq Hrow Hin E. unfold run_once in E. rewrite Hg in E. unfold is_off in E. rewrite Hg in E.
  rewrite bool_decide_false in E by done. cbn [andb] in E. unfold st_bind at 1 in E.
  unfold on_db, st_fst, list_all_active_streams in E.
  pose proof (active_listing w.1) as Hlist.
  set (streams := limit SWEEP_STREAM_LIMIT (streams_where StreamsDb.is_active (db_tables w.1))) in *.
  assert (Hrun : ∃ db1, asking (reading (λ t, limit SWEEP_STREAM_LIMIT
    (streams_where StreamsDb.is_active t))) w.1 = (Ok streams, db1) ∧ quiet db1 ∧ db_tables db1 = db_tables w.1).
  { unfold asking, st_bind, exec, next_tick, quiet in *. rewrite Hq. cbn. eauto. }
  destruct Hrun as (db1 & Hrun & Hq1 & Ht1). rewrite Hrun in E, Hlist. cbn [fst snd] in E, Hlist.
  unfold st_bind in E.
  assert (Hinv : tick_inv c0 (time w.2) streams
    (st_fold (sweep_stream url_encode ctx live policy) streams
      (with_checked (length streams), c0) (db1, w.2)).1
    (st_fold (sweep_stream url_encode ctx live policy) streams
      (with_checked (length streams), c0) (db1, w.2)).2).
  { apply (st_fold_inv (tick_inv c0 (time w.2))).
    - split; [done|]. split; [cbn; lia|]. right. split; [cbn; by rewrite Ht1|].
      by rewrite decide_False by set_solver.
    - intros seen s acc w3 Hs. apply tick_inv_step. intros Hid.
      pose proof (Hlist streams s eq_refl Hs) as Hl. rewrite Hid in Hl. congruence. }
  destruct (st_fold _ streams _ (db1, w.2)) as [acc w2]. injection E as <- <- <-.
  cbn [fst snd] in Hinv. destruct Hinv as (Hq' & Ht' & Hcase). split; [done|]. split; [done|].
  destruct Hcase as [?|[? Hc]]; [by left|]. right. split; [done|].
  rewrite decide_True in Hc by done. destruct Hc as (since & Hs & ?). exists since. split; [|done].
  by apply map_lookup_filter_Some.
Qed.
End one_tick.
End liveness.

(** ** The listing of active streams *)
Lemma streams_where_ids p t :
  (streams_where p t).*1 ≡ₚ (List.filter (λ s : StreamsDb.Stream, p s.2) (map_to_list (t_streams t))).*1.
Proof. unfold streams_where. apply fmap_Permutation, merge_sort_Permutation. Qed.

Lemma NoDup_filter_fst {V} (f : string * V → bool) (l : list (string * V)) :
  NoDup l.*1 → NoDup (List.filter f l).*1.
Proof.
  induction l as [|x l IH]; cbn; [done|]. rewrite NoDup_cons. intros [Hx Hl].
  destruct (f x); cbn; [|auto]. apply NoDup_cons. split; [|auto].
  rewrite list_elem_of_fmap in Hx |- *. intros (y & ? & Hy). apply Hx. exists y. split; [done|].
  apply list_elem_of_In in Hy. apply filter_In in Hy as [? _]. by apply list_elem_of_In.
Qed.

Lemma elem_active x t :
  x ∈ (streams_where StreamsDb.is_active t).*1 ↔ active_row x t.
Proof.
  rewrite streams_where_ids, list_elem_of_fmap. split.
  - intros ([y r] & -> & Hin). apply list_elem_of_In, filter_In in Hin as [Hin Ha].
    apply list_elem_of_In, elem_of_map_to_list in Hin. exists r. split; [done|]. by apply String.eqb_eq.
  - intros (r & Hr & Ha). exists (x, r). split; [done|]. apply list_elem_of_In, filter_In. split.
    + by apply list_elem_of_In, elem_of_map_to_list.
    + by apply String.eqb_eq.
Qed.

Definition active_count (t : Tables) : Z := Z.of_nat (length (streams_where StreamsDb.is_active t)).

Lemma active_count_mono t t' :
  (∀ x, active_row x t' → active_row x t) → active_count t' ≤ active_count t.
Proof.
  intros Hsub. unfold active_count. rewrite <-(length_fmap fst (streams_where _ t)), <-(length_fmap fst (streams_where _ t')).
  apply inj_le, NoDup_incl_length.
  - apply NoDup_ListNoDup. rewrite streams_where_ids. apply NoDup_filter_fst, NoDup_fst_map_to_list.
  - intros x Hx. apply list_elem_of_In, elem_active, Hsub, elem_active, list_elem_of_In, Hx.
Qed.

Lemma active_listed x t :
  active_row x t → active_count t ≤ SWEEP_STREAM_LIMIT →
  x ∈ (limit SWEEP_STREAM_LIMIT (streams_where StreamsDb.is_active t)).*1.
Proof.
  intros Hx Hc. unfold limit. rewrite take_ge; [by apply elem_active|].
  unfold active_count in Hc. unfold SWEEP_STREAM_LIMIT in *. lia.
Qed.

Section shrinking.
Context {N : Type} `{ClockLaws N}.

Definition only_ends (t t' : Tables) : Prop := ∀ x, active_row x t' → active_row x t.

#[export] Instance only_ends_preorder : PreOrder only_ends.
Proof. split; [by intros t x|]. intros a b c Hab Hbc x Hx. by apply Hab, Hbc. Qed.

Lemma run_once_only_ends url_encode ctx live policy c0 :
  st_rel (tables_move only_ends) (run_once url_encode ctx live policy c0).
Proof.
  unfold run_once, list_all_active_streams.
  assert (Hstep : ∀ acc s, st_rel (tables_move only_ends) (sweep_stream url_encode ctx live policy acc s)).
  { intros acc s w x. eapply end_moves_active. apply (sweep_stream_moves url_encode ctx live policy acc s w). }
  repeat first [ apply Hstep
    | apply on_db_moves; [apply _|]; apply st_rel_asking; [apply _|]; apply stmt_rel_reading; apply _
    | st_step ].
Qed.
End shrinking.

(** C21. A dead broadcast is ended: on a database that answers, with at most 1000 active streams,
    a broadcast that stays dead through two ticks, the second starting at least the grace
    period after the first finished, is reported as ended by one of them and its row is
    ended. The sweep may start with any clock that is not ahead of the time. *)
Theorem dead_stream_is_ended {N : Type} `{ClockLaws N} (url_encode : string → string)
    (ctx : EndContext) (cfg : StreamingConfig) (live1 live2 : option (list string)) (g : Z)
    (id : string) (row : StreamRec) (c0 c1 c2 : StreamSweeper) (w w1 w2 : Db * N)
    (n : N) (rep1 rep2 : SweepReport) :
  sweep_grace cfg = Some g →
  t_streams (db_tables w.1) !! id = Some row → sr_status row = "active" →
  active_count (db_tables w.1) ≤ SWEEP_STREAM_LIMIT →
  deserted live1 (id, row) → deserted live2 (id, row) →
  quiet w.1 → (∀ since, c0 !! id = Some since → since ≤ time w.2) →
  sweep_tick url_encode cfg ctx live1 c0 w = ((rep1, c1), w1) →
  time w1.2 + g ≤ time n →
  sweep_tick url_encode cfg ctx live2 c1 (w1.1, n) = ((rep2, c2), w2) →
  (id ∈ sw_ended rep1 ∨ id ∈ sw_ended rep2) ∧ ¬ active_row id (db_tables w2.1).
Proof.
  intros Hg Hrow Hst Hcount Hd1 Hd2 Hq Hc0 E1 Hlate E2. unfold sweep_tick in *.
  assert (Hgp : pl_grace (from_config cfg) = Some g) by done.
  assert (Hact : active_row id (db_tables w.1)) by (by exists row).
  pose proof (run_once_only_ends url_encode ctx live1 (from_config cfg) c0 w) as Hs1.
  pose proof (run_once_only_ends url_encode ctx live2 (from_config cfg) c1 (w1.1, n)) as Hs2.
  rewrite E1 in Hs1. rewrite E2 in Hs2. unfold tables_move in Hs1, Hs2. cbn [fst snd] in Hs1, Hs2.
  destruct (run_once_dead url_encode ctx live1 _ g Hgp id row Hd1 Hst _ _ _ _ _ Hq Hrow
    (active_listed _ _ Hact Hcount) E1) as (Hq1 & Ht1 & [[Hend Hna]|[Hrow1 Hc1]]).
  { split; [by left|]. intros Ha. apply Hna, Hs2, Ha. }
  destruct (run_once_dead url_encode ctx live2 _ g Hgp id row Hd2 Hst c1 (w1.1, n) rep2 c2 w2)
    as (_ & _ & [[Hend Hna]|[_ Hc2]]); try done.
  { apply active_listed; [by exists row|]. etrans; [by apply active_count_mono|done]. }
  { split; [by right|done]. }
  exfalso. destruct Hc1 as (since & Hsince & Hold & _). destruct Hc2 as (since' & _ & Hold' & Hlt).
  cbn [snd] in Hlt. assert (since ≤ time w1.2) by (destruct Hold as [Hold|[_ ?]]; [specialize (Hc0 _ Hold)|]; lia).
  destruct Hold' as [Hold'|[Hold' _]]; rewrite Hsince in Hold'; [injection Hold' as <-; lia|done].
Qed.

(** The laws hold of the example deployment. *)
Module SweepDemo.
#[local] Existing Instances EndDemo.http EndDemo.clock EndDemo.sfu EndDemo.switch.
#[export] Instance laws : ClockLaws EndDemo.net.
Proof.
  refine {| time n := n.1 |}; try (intros; intros n; cbn; lia). intros n. cbn. lia.
Defined.
Definition cfg : StreamingConfig :=
  {| cf_auto_end_grace_secs := 600; cf_max_broadcast_secs := 43200 |}.
Definition at_second (s : Z) : Db * EndDemo.net := (healthy EndDemo.tables 0, (seconds s, [])).
Definition tick (s : Z) (live : list string) : SweepTick EndDemo.net :=
  {| tick_cfg := cfg; tick_live := Some live; tick_world := at_second s |}.
Definition seen : SweepTick EndDemo.net := tick 0 ["stream-s1"].
Definition later : list (SweepTick EndDemo.net) := [tick 60 []; tick 600 []; tick 700 []].
Definition run : list (Ran EndDemo.net) := sweeps id EndDemo.ctx (seen :: later) ∅.
Definition first : Ran EndDemo.net := default {| ran_tick := seen; ran_counts := ∅;
  ran_report := empty_report; ran_world := at_second 0 |} (head run).
Lemma not_too_long : ¬ too_long id EndDemo.ctx "s1" first.
Proof.
  intros (streams & w1 & before & row & after & acc & wc & El & Es & Ef & Hc).
  vm_compute in El. injection El as <- <-. destruct before as [|x [|y before]]; [|done|done].
  injection Es as <- <-. injection Ef as <- <-. vm_compute in Hc. discriminate.
Qed.
Definition tick1 := sweep_tick id cfg EndDemo.ctx (Some []) ∅ (at_second 60).
Definition tick2 := sweep_tick id cfg EndDemo.ctx (Some []) tick1.1.2 (tick1.2.1, (seconds 700, [])).
End SweepDemo.
#[local] Existing Instances EndDemo.http EndDemo.clock EndDemo.sfu EndDemo.switch SweepDemo.laws.

(** The broadcast is within its maximum duration at the first tick, so each later end of it
    is late. *)
Lemma sweep_respects_grace_witness :
  Forall (late_end id EndDemo.ctx "s1" 0) (tail SweepDemo.run).
Proof.
  destruct (sweep_respects_grace id EndDemo.ctx ∅ SweepDemo.seen SweepDemo.later "s1"
    SweepDemo.first (tail SweepDemo.run)) as [Hlate|Hlong].
  - vm_compute. reflexivity.
  - vm_compute. repeat split; discriminate.
  - right. split; [vm_compute; reflexivity|]. vm_compute. discriminate.
  - exact Hlate.
  - destruct (SweepDemo.not_too_long Hlong).
Defined.

(** It was last seen live at 0 and found dead at 60: the tick at 700 ends it. *)
Example ended_at_700 :
  (λ x : Ran EndDemo.net, sw_ended (ran_report x)) <$> SweepDemo.run = [[]; []; []; ["s1"]].
Proof. vm_compute. reflexivity. Qed.

Lemma dead_stream_is_ended_witness :
  ("s1" ∈ sw_ended SweepDemo.tick1.1.1 ∨ "s1" ∈ sw_ended SweepDemo.tick2.1.1) ∧
  ¬ active_row "s1" (db_tables SweepDemo.tick2.2.1).
Proof.
  refine (dead_stream_is_ended id EndDemo.ctx SweepDemo.cfg (Some []) (Some []) (seconds 600)
    "s1" EndDemo.row ∅ SweepDemo.tick1.1.2 SweepDemo.tick2.1.2 (SweepDemo.at_second 60)
    SweepDemo.tick1.2 SweepDemo.tick2.2 (seconds 700, []) SweepDemo.tick1.1.1 SweepDemo.tick2.1.1
    _ _ _ _ _ _ _ _ _ _ _).
  - reflexivity.
  - vm_compute. reflexivity.
  - reflexivity.
  - vm_compute. discriminate.
  - split; [vm_compute; discriminate|]. intros room _ n. by left.
  - split; [vm_compute; discriminate|]. intros room _ n. by left.
  - reflexivity.
  - intros since Hs. vm_compute in Hs. discriminate Hs.
  - vm_compute. reflexivity.
  - vm_compute. discriminate.
  - vm_compute. reflexivity.
Defined.
