(* ===== verification/Actuator.v ===== *)
(** * Actuator: the ladder's effects on the real system

    [mm-api/src/ladder_actuator.rs], the implementation of the ladder's actuator over the
    database, the services and the switch pool. It satisfies what the ladder's loop
    relies on, so that the loop's theorems hold of the deployed ladder, with the quotes
    of the wallet. *)
From S2P Require Import F64 FleetTypes Billing Planner Ladder Provider.
From S2P Require Import DesiredStore Sweeper Tfvars Runner Quotes LadderDb LadderLoop Interleave.
From S2P Require Import SwitchPool Census.
From S2P Require Import Prelude ApiSchema Schema Errors MatrixClient MatrixEvents MoneyDb StreamsDb.
From S2P Require Import Rooms StreamLifecycle.
Local Open Scope Z_scope.
Local Open Scope mm_scope.

Section actuator.
Context {C N : Type} `{Http N, Clock N, Sfu N, EndSwitch N}.
Variable url_encode : string → string.
Variable ctx : EndContext.
(** Whether a switch pool was built. *)
Variable has_switch_pool : bool.

Abbreviation Act := (SwitchPool C * N)%type.

(** What concerns the database and the services, in the actuator's state. *)
Definition on_world {A} (m : st (Db * N) A) : st (Db * Act) A := λ w,
  let '(a, (db, n)) := m (w.1, w.2.2) in (a, (db, (w.2.1, n))).

Definition state_stop_recording (broadcast_id : string) : st (Db * Act) (result () string) :=
  let! _ := on_world (finalise_open_recordings ctx broadcast_id true) in
  st_ret (Ok ()).

Definition state_drain_to_origin (broadcast_id : string) : st (Db * Act) (result () string) :=
  st_snd (run (actuator_drain has_switch_pool broadcast_id)).

(** The room's notice, when this call ended the broadcast. *)
Definition announce_end (row : StreamRec) : st (Db * N) () :=
  let! room := on_db (get_room (sr_room_id row)) in
  match room with
  | Ok (Some room) =>
      let! now := on_services utc_now in
      let duration_secs := Z.max 0 (num_seconds (now - sr_started_at row)) in
      best_effort (notify_stream_ended (mk_hs_client (ec_marker ctx)) (rm_matrix_room_id room)
        (sr_host_user_id row) duration_secs (u32_wrap (sr_participant_count row)))
  | _ => st_ret ()
  end.

Definition end_broadcast (broadcast_id statement : string) : st (Db * N) (result () string) :=
  let! row := on_db (MoneyDb.get_stream broadcast_id) in
  match row with
  | Err e => st_ret (Err ("reading the broadcast failed: " +:+ MMError.to_string e))
  | Ok None => st_ret (Err ("no broadcast " +:+ broadcast_id))
  | Ok (Some row) =>
      if String.eqb (sr_status row) "ended" then st_ret (Ok ())
      else
      let! outcome := end_and_finalise_stream_with_reason url_encode ctx (broadcast_id, row)
                        Publish (Some statement) in
      match outcome with
      | Err e => st_ret (Err ("ending the broadcast failed: " +:+ MMError.to_string e))
      | Ok outcome =>
          let! _ := when (eo_ended_now outcome) (announce_end row) in
          st_ret (Ok ())
      end
  end.

Definition state_end_with_slate (broadcast_id statement : string) :
    st (Db * Act) (result () string) := on_world (end_broadcast broadcast_id statement).

#[export] Instance StateLadderActuator : LadderActuator (Db * Act) := {|
  stop_recording := state_stop_recording;
  drain_to_origin := state_drain_to_origin;
  end_with_slate := state_end_with_slate
|}.

(** ** What the loop relies on *)
Lemma end_moves_effect id w t t' : end_moves id w t t' → effect_ok t t'.
Proof.
  intros [(m & l & ->) Hs _]. split; [done|done|].
  intros x host (row & Hr & Ha & Hh). specialize (Hs x). cbn in Hr, Hs. rewrite Hr in Hs.
  inversion Hs as [a b Hab Ea Eb|]; subst. exists a. split; [done|].
  destruct Hab as [->|[_ [(? & ? & ? & ? & ? & ? & ->) Hst]]]; [done|].
  split; [|done]. unfold LadderDb.is_active in *. cbn in *.
  destruct Hst as [<-|[-> _]]; done.
Qed.

Lemma on_world_run {A} R (m : st (Db * N) A) (w : Db * Act) :
  st_rel (tables_move R) m → R (db_tables w.1) (db_tables (on_world m w).2.1).
Proof.
  intros Hm. specialize (Hm (w.1, w.2.2)). unfold on_world, tables_move in *.
  by destruct (m (w.1, w.2.2)) as [a [db n]].
Qed.

Lemma finalise_moves id sfu :
  st_rel (tables_move (end_moves id false)) (finalise_open_recordings ctx id sfu).
Proof.
  unfold finalise_open_recordings, finalise_open_recordings_with, mark_recordings_ready.
  repeat end_step.
Qed.

Lemma end_broadcast_moves id statement :
  st_rel (tables_move (end_moves id false)) (end_broadcast id statement).
Proof.
  unfold end_broadcast, announce_end, when, MoneyDb.get_stream, get_room.
  repeat (apply (end_moves_tables url_encode ctx (id, _) Publish) || end_step).
Qed.

Lemma drain_run id (w : Act) :
  run (actuator_drain has_switch_pool id) w =
  (if has_switch_pool then drain_verdict (length (List.filter
     (λ n, starts_with ("bc-" +:+ id +:+ "-") (fn_id n)) (nodes w.1).1)) else Ok tt, w).
Proof. unfold actuator_drain. destruct has_switch_pool; [|done]. by destruct w. Qed.

(** The wallet's quotes and this actuator are what the loop expects. *)
#[export] Instance state_actuator_laws (billing : LadderBillingSource) :
  @LadderLaws Act (ladder_billing billing) StateLadderActuator.
Proof.
  split.
  - intros id db. apply (ladder_quote_reads billing id db).
  - intros id w. cbn. unfold state_stop_recording, st_bind.
    pose proof (on_world_run _ (finalise_open_recordings ctx id true) w (finalise_moves id true)) as Hm.
    destruct (on_world _ w). by eapply end_moves_effect.
  - intros id w. cbn. unfold state_drain_to_origin, st_snd. rewrite drain_run. reflexivity.
  - intros id statement w. apply (end_moves_effect id false).
    apply (on_world_run _ (end_broadcast id statement)), end_broadcast_moves.
Qed.

(** ** The effects *)
Lemma finalise_closes id sfu (w : Db * N) :
  ec_pg_pool ctx = true → quiet w.1 →
  no_open id (db_tables (finalise_open_recordings ctx id sfu w).2.1).
Proof.
  intros Hp Hq. unfold finalise_open_recordings, finalise_open_recordings_with. rewrite Hp. cbn [negb].
  assert (Hw : w = (healthy (db_tables w.1) (db_now w.1), w.2)).
  { destruct w as [[t now script] n]. cbn in *. unfold quiet in Hq. cbn in Hq. by subst script. }
  rewrite Hw. unfold st_bind at 1, on_db at 1, st_fst at 1. cbn [fst snd]. rewrite exec_healthy. cbn [reading].
  unfold st_bind at 1.
  match goal with |- context [on_services ?m (?db, ?n)] =>
    destruct (on_services_healthy m db n) as (a & n' & ->) end.
  unfold mark_recordings_ready, st_bind, on_db, st_fst. cbn [fst snd]. rewrite exec_healthy.
  destruct (ready_stmt_closes id false (db_now w.1) (db_tables w.1)) as (rows & t' & E & Hno & _).
  change (withholds Publish) with false. rewrite E. exact Hno.
Qed.

Lemma end_broadcast_ends id statement (w w' : Db * N) :
  end_broadcast id statement w = (Ok (), w') → ¬ active_row id (db_tables w'.1).
Proof.
  unfold end_broadcast. unfold st_bind at 1, on_db at 1, st_fst at 1, MoneyDb.get_stream.
  pose proof (asking_reading_tables (λ t, t_streams t !! id) w.1) as Ht.
  pose proof (asking_reading_ok (λ t, t_streams t !! id) w.1) as Ho.
  destruct (asking _ w.1) as [[[row|]|e] db1]; cbn [fst snd] in *; [|by intros [= ]..].
  specialize (Ho _ eq_refl). destruct (String.eqb_spec (sr_status row) "ended") as [Hst|Hst].
  { intros [= <-]. cbn. rewrite Ht. intros (r & Hr & Ha). congruence. }
  unfold st_bind at 1.
  destruct (end_and_finalise_stream_with_reason _ _ _ _ _ _) as [[o|e] w1] eqn:E; [|by intros [= ]].
  destruct (end_once _ _ _ _ _ _ _ _ E) as (Hna & _ & _). cbn [fst] in Hna.
  match goal with |- ?k w1 = _ → _ =>
    assert (Hk : st_rel (tables_move (end_moves id false)) k)
      by (unfold when, announce_end, get_room; repeat end_step) end.
  specialize (Hk w1). intros E2. rewrite E2 in Hk. intros Ha. apply Hna. by eapply end_moves_active.
Qed.
End actuator.

(** C34. The deployed actuator keeps the ladder's contract, and does what its rungs say. With the
    wallet's quotes it satisfies the laws of the loop: no effect starts a broadcast or
    touches the ladder's tables. Stopping the recording always succeeds, never ends the
    broadcast, and leaves none open when the database answers; the drain changes nothing,
    and succeeds exactly when no fan-out node serves the broadcast; an end that succeeds
    has ended it, and repeating it on an ended broadcast calls nobody. *)
Theorem actuator_effects_exact {C N : Type} `{Http N, Clock N, Sfu N, EndSwitch N}
    (url_encode : string → string) (ctx : EndContext) (has_pool : bool)
    (billing : LadderBillingSource) (id statement : string) (w : Db * (SwitchPool C * N)) :
  @LadderLaws (SwitchPool C * N) (ladder_billing billing)
    (StateLadderActuator url_encode ctx has_pool) ∧
  ((state_stop_recording ctx id w).1 = Ok () ∧
   t_streams (db_tables (state_stop_recording ctx id w).2.1) = t_streams (db_tables w.1) ∧
   (ec_pg_pool ctx = true → quiet w.1 →
    no_open id (db_tables (state_stop_recording ctx id w).2.1))) ∧
  ((state_drain_to_origin has_pool id w).2 = w ∧
   ((state_drain_to_origin has_pool id w).1 = Ok () ↔
    has_pool = false ∨
    ∀ n, n ∈ (nodes w.2.1).1 → starts_with ("bc-" +:+ id +:+ "-") (fn_id n) = false)) ∧
  ((state_end_with_slate url_encode ctx id statement w).1 = Ok () →
   ¬ active_row id (db_tables (state_end_with_slate url_encode ctx id statement w).2.1)) ∧
  (∀ row, t_streams (db_tables w.1) !! id = Some row → sr_status row = "ended" →
   (state_end_with_slate url_encode ctx id statement w).2.2 = w.2).
Proof.
  split; [apply _|]. split; [|split; [|split]].
  - unfold state_stop_recording, st_bind. split; [by destruct (on_world _ w)|].
    pose proof (on_world_run same_streams (finalise_open_recordings ctx id true) w) as Hs.
    assert (Hc : ec_pg_pool ctx = true → quiet w.1 →
      no_open id (db_tables (on_world (finalise_open_recordings ctx id true) w).2.1)).
    { intros Hp Hq. pose proof (finalise_closes ctx id true (w.1, w.2.2) Hp Hq) as Hn.
      unfold on_world. by destruct (finalise_open_recordings _ _ _ _) as [a [db n]]. }
    destruct (on_world _ w). cbn in *. split; [|done]. apply Hs.
    unfold finalise_open_recordings, finalise_open_recordings_with, mark_recordings_ready, ready_stmt.
    pose proof update_recordings_streams. repeat end_step.
  - unfold state_drain_to_origin, st_snd. rewrite drain_run. cbn [fst snd].
    split; [by destruct w|]. destruct has_pool; [|by split; auto].
    unfold drain_verdict. set (l := List.filter _ _).
    assert (Hl : length l = 0%nat ↔ ∀ n, n ∈ (nodes w.2.1).1 →
      starts_with ("bc-" +:+ id +:+ "-") (fn_id n) = false).
    { subst l. split.
      - intros Hz n Hn. apply nil_length_inv in Hz. apply not_true_iff_false. intros Ht.
        assert (Hin : In n []) by (rewrite <-Hz; apply filter_In; split; [by apply list_elem_of_In|done]).
        done.
      - intros Hf. destruct (List.filter _ _) as [|n l] eqn:E; [done|].
        assert (Hin : In n (n :: l)) by (by left). rewrite <-E in Hin. apply filter_In in Hin as [Hin Ht].
        rewrite Hf in Ht; [done|by apply list_elem_of_In]. }
    case_bool_decide as Hz; split; [by intros _; right; apply Hl|done|done|].
    intros [?|Hf]; [done|]. by apply Hl in Hf.
  - unfold state_end_with_slate, on_world. intros E.
    destruct (end_broadcast _ _ _ _ _) as [r [db n]] eqn:E2. cbn [fst snd] in *. subst r.
    by apply (end_broadcast_ends url_encode ctx id statement) in E2.
  - intros row Hrow Hst. unfold state_end_with_slate, on_world, end_broadcast.
    unfold st_bind at 1, on_db, st_fst, MoneyDb.get_stream. cbn [fst snd].
    pose proof (asking_reading_ok (λ t, t_streams t !! id) w.1) as Ho.
    destruct (asking _ w.1) as [[[row'|]|e] db1]; cbn [fst snd] in *; [|by destruct w as [? []]..].
    specialize (Ho _ eq_refl). rewrite Hrow in Ho. injection Ho as ->. rewrite Hst.
    by destruct w as [? []].
Qed.

#[local] Existing Instances EndDemo.http EndDemo.clock EndDemo.sfu EndDemo.switch.
Module ActuatorDemo.
Definition billing : LadderBillingSource := {| lb_currency := "eur"; lb_horizon_secs := 3600 |}.
Definition world : Db * (SwitchPool nat * EndDemo.net) :=
  (EndDemo.world.1, ({| sp_nodes := ∅; sp_viewers := ∅; sp_origin := 0%nat |}, EndDemo.world.2)).
End ActuatorDemo.

Lemma actuator_effects_exact_witness :
  ¬ active_row "s1" (db_tables
    (state_end_with_slate id EndDemo.ctx "s1" "no funds" ActuatorDemo.world).2.1).
Proof.
  apply (actuator_effects_exact id EndDemo.ctx true ActuatorDemo.billing "s1" "no funds"
    ActuatorDemo.world).
  vm_compute. reflexivity.
Defined.
