(* ===== verification/StreamsApi.v ===== *)
(** * StreamsApi: starting, resuming and watching a broadcast

    The stream handlers of [mm-api/src/client.rs]: creating a stream, resuming it, joining
    and leaving it, rotating its key, and the lists. The state is the database, the
    services of [StreamLifecycle] with the SFU calls and the random keys of this file, and
    for joining the caches of the tier gate. *)
From Stdlib Require Import Ascii.
From S2P Require Import SwitchPool.
From S2P Require Import Prelude ApiSchema Json Schema Errors Text MatrixClient MatrixEvents.
From S2P Require Import Guards MoneyDb StreamsDb Donations Entitlement TierGate Feed Rooms.
From S2P Require Import StreamLifecycle.
Local Open Scope Z_scope.
Local Open Scope mm_scope.

(** ** The SFU *)
Record VideoResolution : Type := { vr_width : Z; vr_height : Z; vr_frame_rate : Z }.

Record SfuMediaConfig : Type := {
  md_audio_enabled : bool;
  md_video_enabled : bool;
  md_screen_share_enabled : bool;
  md_audio_codec : string;
  md_max_audio_bitrate : Z;
  md_max_video_bitrate : option Z;
  md_max_video_resolution : option VideoResolution;
  md_simulcast_enabled : bool
}.

Record CreateRoomRequest : Type := {
  cr_name : string;
  cr_max_participants : Z;
  cr_enable_recording : bool;
  cr_media_config : SfuMediaConfig
}.

Record SfuRoom : Type := {
  so_sfu_room_id : string;
  so_name : string;
  so_num_participants : Z
}.

Record ParticipantInfo : Type := {
  pi_sfu_participant_id : string;
  pi_identity : string;
  pi_name : option string
}.

Record ParticipantPermissions : Type := {
  pp_can_publish : bool;
  pp_can_publish_audio : bool;
  pp_can_publish_video : bool;
  pp_can_publish_screen : bool;
  pp_can_subscribe : bool;
  pp_can_publish_data : bool
}.

Definition full_host : ParticipantPermissions := {|
  pp_can_publish := true; pp_can_publish_audio := true; pp_can_publish_video := true;
  pp_can_publish_screen := true; pp_can_subscribe := true; pp_can_publish_data := true |}.

Definition viewer : ParticipantPermissions := {|
  pp_can_publish := false; pp_can_publish_audio := false; pp_can_publish_video := false;
  pp_can_publish_screen := false; pp_can_subscribe := true; pp_can_publish_data := false |}.

Record SfuToken : Type := { tk_token : string; tk_url : string }.

(** The key of a stream: random bytes, as base64, with the first half of their hash. *)
Record E2eeKey : Type := { kk_key_b64 : string; kk_key_id : string; kk_generation : Z }.

Record E2eeStreamInfo : Type := {
  ee_enabled : bool;
  ee_algorithm : string;
  ee_key_id : string;
  ee_key_generation : Z;
  ee_key_b64 : string
}.

(** What these handlers call besides: [random_key] is the key's text and its id; the two
    tasks a new stream may start run on their own. *)
Class StreamServices (N : Type) : Type := {
  create_room : CreateRoomRequest → st N (result SfuRoom string);
  generate_token : SfuRoom → ParticipantInfo → ParticipantPermissions →
    st N (result SfuToken string);
  random_key : st N (string * string);
  spawn_hls_egress : string → string → st N ();
  spawn_livekit_source : string → string → st N ()
}.

Record VideoConfig : Type := {
  vg_max_bitrate : Z;
  vg_max_resolution_width : Z;
  vg_max_resolution_height : Z;
  vg_max_frame_rate : Z;
  vg_simulcast_enabled : bool
}.

Record E2eeConfig : Type := {
  ec_enabled : bool;
  ec_required : bool;
  ec_algorithm : string;
  ec_key_rotation_interval_secs : Z
}.

(** The snapshot of the configuration. [cl_s3]: the egress has a bucket. *)
Record ClientConfig : Type := {
  cl_video : VideoConfig;
  cl_e2ee : E2eeConfig;
  cl_public_url : option string;
  cl_matrix : MatrixConfig;
  cl_federation_enabled : bool;
  cl_s3 : bool;
  cl_switch_legacy_lk_source : bool;
  cl_proxy : ProxyConfig
}.

Record CreateStreamRequest : Type := {
  cq_room_id : string;
  cq_media_type : string;
  cq_title : option string;
  cq_e2ee : bool;
  cq_min_tier : option Z;
  cq_min_tier_level : option Z
}.

Record CreateStreamResponse : Type := {
  cs_stream_id : string;
  cs_sfu_url : string;
  cs_sfu_token : string;
  cs_state_event_id : string;
  cs_e2ee : option E2eeStreamInfo;
  cs_switch_url : option string;
  cs_switch_source_id : option string;
  cs_switch_publisher_token : option string
}.

Record JoinStreamResponse : Type := {
  jr_sfu_url : string;
  jr_sfu_token : string;
  jr_participant_id : string;
  jr_e2ee : option E2eeStreamInfo;
  jr_switch_url : option string;
  jr_switch_source_id : option string;
  jr_switch_viewer_id : option string;
  jr_switch_viewer_token : option string
}.

Definition has_video (media_type : string) : bool :=
  String.eqb media_type "video" || String.eqb media_type "screen".

Definition sfu_media_config (v : VideoConfig) (media_type : string) : SfuMediaConfig :=
  let hv := has_video media_type in {|
  md_audio_enabled := true; md_video_enabled := String.eqb media_type "video";
  md_screen_share_enabled := String.eqb media_type "screen"; md_audio_codec := "opus";
  md_max_audio_bitrate := 48000;
  md_max_video_bitrate := if hv then Some (vg_max_bitrate v) else None;
  md_max_video_resolution := if hv then Some {| vr_width := vg_max_resolution_width v;
    vr_height := vg_max_resolution_height v; vr_frame_rate := vg_max_frame_rate v |} else None;
  md_simulcast_enabled := hv && vg_simulcast_enabled v |}.

Definition stream_video_config (v : VideoConfig) (media_type : string) : option StreamVideoConfig :=
  if has_video media_type then Some {|
    vc_max_bitrate := vg_max_bitrate v; vc_max_width := vg_max_resolution_width v;
    vc_max_height := vg_max_resolution_height v; vc_max_frame_rate := vg_max_frame_rate v;
    vc_simulcast_enabled := vg_simulcast_enabled v |}
  else None.

(** ** Shared pieces *)
Definition sfu_error {A} (r : result A string) : result A MMError.t := map_err MMError.Sfu r.

Definition viewer_url (cfg : ClientConfig) (stream_id : string) : option string :=
  (λ u, u +:+ "/view/" +:+ stream_id) <$> cl_public_url cfg.

Definition server_name_opt (cfg : ClientConfig) : option string :=
  if is_empty_str (mx_server_name (cl_matrix cfg)) then None
  else Some (mx_server_name (cl_matrix cfg)).

(** The marker of a live stream; its times and generation are stamped by the caller. *)
Definition active_marker (cfg : ClientConfig) (id host media_type : string)
    (title url : option string) (count : Z) (e2ee : bool) (info : option E2eeStreamInfo)
    (started updated generation : Z) : StreamEventContent := {|
  se_stream_id := id; se_status := "active"; se_host_user_id := host; se_title := title;
  se_media_type := media_type; se_video_config := stream_video_config (cl_video cfg) media_type;
  se_viewer_url := url; se_mm_server_url := cl_public_url cfg;
  se_mm_matrix_server := server_name_opt cfg;
  se_federation_enabled := Some (cl_federation_enabled cfg); se_participant_count := count;
  se_e2ee_enabled := if e2ee then Some true else None;
  se_e2ee_algorithm := ee_algorithm <$> info; se_e2ee_key_id := ee_key_id <$> info;
  se_e2ee_key_generation := ee_key_generation <$> info;
  se_started_at_ms := started; se_updated_at_ms := updated; se_marker_generation := generation |}.

Definition key_event (cfg : ClientConfig) (stream_id : string) (info : E2eeStreamInfo)
    (now_ms : Z) : E2eeKeyEvent :=
  let every := ec_key_rotation_interval_secs (cl_e2ee cfg) in {|
  ek_stream_id := stream_id; ek_algorithm := ee_algorithm info; ek_key_id := ee_key_id info;
  ek_key_generation := ee_key_generation info; ek_key_b64 := ee_key_b64 info;
  ek_rotated_at_ms := now_ms;
  ek_rotates_next_ms := if 0 <? every then Some (now_ms + every * 1000) else None |}.

Definition info_of_row (k : string * Z * string * string) : E2eeStreamInfo :=
  let '(key_id, generation, key_b64, algorithm) := k in
  {| ee_enabled := true; ee_algorithm := algorithm; ee_key_id := key_id;
     ee_key_generation := generation; ee_key_b64 := key_b64 |}.

(** [default_stream_min_tier] of the creator; a failed query counts as no row. *)
Definition default_min_tier (user : string) : st Db Z :=
  let! r := exec (reading (λ t, m_defaults (media_of t) !! user)) in
  st_ret (match r with Ok (Some d) => df_stream_min_tier d | _ => 0 end).

Definition effective_min_tier (has_pool : bool) (user : string) (min_tier : option Z) : st Db Z :=
  match min_tier with
  | Some v => st_ret (if (0 <=? v) && (v <=? 5) then v else 0)
  | None => if has_pool then default_min_tier user else st_ret 0
  end.

Definition is_suspended (user : string) : st Db bool :=
  let! r := is_user_suspended user in
  st_ret (match r with Ok b => b | Err _ => false end).

Definition suspended_error {A} : result A MMError.t :=
  Err (MMError.api ErrorCode.Forbidden "account suspended").

Definition participant (id user : string) : ParticipantInfo :=
  {| pi_sfu_participant_id := id; pi_identity := user; pi_name := None |}.

Definition e2ee_gate (c : E2eeConfig) (requested : bool) : result () MMError.t :=
  if requested && negb (ec_enabled c)
  then Err (MMError.api ErrorCode.FeatureDisabled "E2EE is not enabled on this server")
  else if ec_required c && negb requested
  then Err (MMError.api ErrorCode.FeatureDisabled "E2EE is required but was not requested")
  else Ok ().

Section streams.
Context {N : Type} `{Http N, Clock N, Sfu N, EndSwitch N, StreamServices N}.
Variable url_encode : string → string.
Variable ops : TokenOps.
Variable state : ApiState.
Variable cfg : ClientConfig.
Variable client : HomeserverClient.

Abbreviation World := (Db * N)%type.

(** The hint to publish to the switch. *)
Definition publish_hint (stream_id : string) :
    st World (option string * option string * option string) :=
  if px_switch_pool (cl_proxy cfg) then
    let public := default "" (cl_public_url cfg) in
    let source_id := switch_source_id stream_id in
    let! now := on_services utc_now in
    st_ret (Some (public +:+ "/_mm/switch"), Some source_id,
      (λ secret, generate_switch_token ops (now / NANOS) secret "publisher" source_id 300)
        <$> switch_auth_secret_opt (cl_proxy cfg))
  else st_ret (None, None, None).

(** A fresh key, kept in the row and in the history. *)
Definition new_key (stream_id algorithm : string) (generation : Z) :
    st World (result E2eeStreamInfo MMError.t) :=
  let! k := on_services random_key in
  let? _ := on_db (set_stream_e2ee_key stream_id k.2 generation k.1 algorithm) in
  st_ret (Ok {| ee_enabled := true; ee_algorithm := algorithm; ee_key_id := k.2;
                ee_key_generation := generation; ee_key_b64 := k.1 |}).

(** Steps 6 and 7: the marker, the key, and the feed. *)
Definition publish_started (s : StreamsDb.Stream) (me : string) (req : CreateStreamRequest)
    (info : option E2eeStreamInfo) : st World string :=
  let url := match viewer_url cfg s.1 with
             | Some u => if is_empty_str u then None else Some u | None => None end in
  let started := timestamp_millis (sr_started_at s.2) in
  let! now := on_services utc_now in
  let content := active_marker cfg s.1 me (cq_media_type req) (cq_title req) url 1 (cq_e2ee req)
    info started (timestamp_millis now) 1 in
  let! published := on_services (publish_stream_active client (cq_room_id req) content) in
  let event_id := match published with Ok e => e | Err _ => "" end in
  let! _ := (if is_empty_str event_id then st_ret (Ok ())
             else on_db (set_stream_state_event_id s.1 event_id)) in
  let! _ := (match info with
    | Some i =>
        let! now := on_services utc_now in
        best_effort (publish_e2ee_key client (cq_room_id req)
                       (key_event cfg s.1 i (timestamp_millis now)))
    | None => st_ret ()
    end) in
  let! started_event := on_services (emit_feed_broadcast_started client (cq_room_id req)
    (build_feed_broadcast_started s.1 me (cq_title req) started)) in
  let! _ := (match started_event with
    | Ok e => on_db (set_stream_feed_started_event_id s.1 e)
    | Err _ => st_ret (Ok ())
    end) in
  st_ret event_id.

(** The host's token, the tasks that follow the stream, and the answer. *)
Definition finish_start (me : string) (req : CreateStreamRequest) (sfu_room : SfuRoom) (id : string)
    (info : option E2eeStreamInfo) (state_event_id : string) :
    st World (result CreateStreamResponse MMError.t) :=
  let! token := on_services (generate_token sfu_room (participant "" me) full_host) in
  match sfu_error token with
  | Err e => st_ret (Err e)
  | Ok token =>
      let! _ := when (supports_egress && has_video (cq_media_type req) && cl_s3 cfg)
        (on_services (spawn_hls_egress (so_name sfu_room) ("streams/" +:+ id +:+ "/"))) in
      let! _ := when (cl_switch_legacy_lk_source cfg && px_switch_pool (cl_proxy cfg))
        (on_services (spawn_livekit_source (switch_source_id id) (so_name sfu_room))) in
      let! hint := publish_hint id in
      let '(url, source, publisher) := hint in
      st_ret (Ok {| cs_stream_id := id; cs_sfu_url := tk_url token; cs_sfu_token := tk_token token;
        cs_state_event_id := state_event_id; cs_e2ee := info; cs_switch_url := url;
        cs_switch_source_id := source; cs_switch_publisher_token := publisher |})
  end.

(** From the SFU's room to the answer. *)
Definition start_in_room (me : string) (req : CreateStreamRequest) (room : Z) (sfu_room : SfuRoom) :
    st World (result CreateStreamResponse MMError.t) :=
  let! id := on_services new_v4 in
  let? s := on_db (StreamsDb.create_stream id room me (cq_title req) (cq_media_type req)
                     (Some (so_name sfu_room)) (cq_min_tier_level req)) in
  let! min_tier := on_db (effective_min_tier (as_has_pg_pool state) me (cq_min_tier req)) in
  let! _ := (if 0 <? min_tier
    then on_db (let! _ := create_content_gate "stream" id me min_tier 120 in st_ret ())
    else st_ret ()) in
  let! pid := on_services new_v4 in
  let? _ := on_db (add_participant pid id me Host None) in
  let? info := (if cq_e2ee req then
      let? i := new_key id (ec_algorithm (cl_e2ee cfg)) 1 in st_ret (Ok (Some i))
    else st_ret (Ok None)) in
  let! state_event_id := publish_started s me req info in
  finish_start me req sfu_room id info state_event_id.

(** [POST /streams]. *)
Definition create_stream (me : string) (req : CreateStreamRequest) :
    st World (result CreateStreamResponse MMError.t) :=
  let! suspended := on_db (is_suspended me) in
  if suspended then st_ret suspended_error
  else
  let? _ := on_db (check_can_host state (cq_room_id req) me) in
  let! _ := best_effort (ensure_bot_in_room_cfg url_encode (cl_matrix cfg) me (cq_room_id req)) in
  let? room := on_db (get_or_create_room (cq_room_id req)) in
  let? active := on_db (get_active_stream room.1) in
  match active with
  | Some a => st_ret (Err (MMError.api ErrorCode.StreamActive
                ("Room already has active stream: " +:+ a.1)))
  | None =>
      match e2ee_gate (cl_e2ee cfg) (cq_e2ee req) with
      | Err e => st_ret (Err e)
      | Ok _ =>
          let! name := on_services new_v4 in
          let! sfu_room := on_services (create_room {| cr_name := "mm-" +:+ name;
            cr_max_participants := u32_wrap (rm_max_participants room.2);
            cr_enable_recording := false;
            cr_media_config := sfu_media_config (cl_video cfg) (cq_media_type req) |}) in
          match sfu_error sfu_room with
          | Err e => st_ret (Err e)
          | Ok sfu_room => start_in_room me req room.1 sfu_room
          end
      end
  end.

Definition not_found {A} : result A MMError.t :=
  Err (MMError.api ErrorCode.NotFound "stream not found").

Definition current_key (s : StreamsDb.Stream) : st Db (result (option E2eeStreamInfo) MMError.t) :=
  if sr_e2ee s.2 then
    let? k := get_stream_e2ee_key s.1 in st_ret (Ok (info_of_row <$> k))
  else st_ret (Ok None).

(** [POST /streams/{id}/resume]. *)
Definition resume_stream (me id : string) : st World (result CreateStreamResponse MMError.t) :=
  let! suspended := on_db (is_suspended me) in
  if suspended then st_ret suspended_error
  else
  let? row := on_db (MoneyDb.get_stream id) in
  match row with
  | None => st_ret not_found
  | Some row =>
      if negb (String.eqb (sr_host_user_id row) me)
      then st_ret (Err (MMError.api ErrorCode.Forbidden "only the stream host can resume"))
      else if String.eqb (sr_status row) "ended"
      then st_ret (Err (MMError.api ErrorCode.StreamEnded "stream has ended"))
      else
      match sr_sfu_room_id row with
      | None => st_ret (Err (MMError.Internal "stream has no sfu_room_id; cannot resume"))
      | Some name =>
          let! token := on_services (generate_token
            {| so_sfu_room_id := name; so_name := name;
               so_num_participants := u32_wrap (sr_participant_count row) |}
            (participant "" me) full_host) in
          match sfu_error token with
          | Err e => st_ret (Err e)
          | Ok token =>
              let? info := on_db (current_key (id, row)) in
              let! hint := publish_hint id in
              let? room := on_db (get_room (sr_room_id row)) in
              let! republished := (match room with
                | Some room => republish_active_marker
                    {| mk_hs_client := client; mk_matrix := cl_matrix cfg |} (id, row)
                    (rm_matrix_room_id room)
                    (active_marker cfg id (sr_host_user_id row) (sr_media_type row) (sr_title row)
                       (viewer_url cfg id) (Z.max 0 (sr_participant_count row)) (sr_e2ee row) info
                       0 0 1)
                | None => st_ret None
                end) in
              let '(url, source, publisher) := hint in
              st_ret (Ok {| cs_stream_id := id; cs_sfu_url := tk_url token;
                cs_sfu_token := tk_token token;
                cs_state_event_id := match republished with
                  | Some (e, _) => e
                  | None => default "" (sr_state_event_id row)
                  end;
                cs_e2ee := info; cs_switch_url := url; cs_switch_source_id := source;
                cs_switch_publisher_token := publisher |})
          end
      end
  end.

(** [POST /streams/{id}/leave]. *)
Definition leave_stream (me id : string) : st Db (result () MMError.t) :=
  let? participants := StreamsDb.list_participants id in
  match List.find (λ p, String.eqb (pt_user_id p) me) participants with
  | Some p => remove_participant id (pt_id p)
  | None => st_ret (Ok ())
  end.

(** [POST /streams/{id}/rotate-key]. The generation is a [u32]: past its top the addition
    panics in a debug build, and wraps in a release build. *)
Definition rotate_stream_key (me id : string) : st World (result E2eeStreamInfo MMError.t) :=
  let? row := on_db (MoneyDb.get_stream id) in
  match row with
  | None => st_ret not_found
  | Some row =>
      if negb (String.eqb (sr_host_user_id row) me)
      then st_ret (Err (MMError.api ErrorCode.Forbidden "only the host can rotate the E2EE key"))
      else if negb (sr_e2ee row)
      then st_ret (Err (MMError.api ErrorCode.FeatureDisabled "stream does not have E2EE enabled"))
      else
      let generation := u32_wrap (match sr_e2ee_key_generation row with
                                  | Some g => as_u32 g | None => 0 end + 1) in
      let algorithm := default (ec_algorithm (cl_e2ee cfg)) (sr_e2ee_algorithm row) in
      let! k := on_services random_key in
      let? _ := on_db (rotate_stream_e2ee_key id k.2 generation k.1 algorithm) in
      let info := {| ee_enabled := true; ee_algorithm := algorithm; ee_key_id := k.2;
                     ee_key_generation := generation; ee_key_b64 := k.1 |} in
      let? room := on_db (get_room (sr_room_id row)) in
      let! _ := (match room with
        | Some room =>
            let! now := on_services utc_now in
            best_effort (publish_e2ee_key client (rm_matrix_room_id room)
                           (key_event cfg id info (timestamp_millis now)))
        | None => st_ret ()
        end) in
      st_ret (Ok info)
  end.

(** ** Lists *)
Definition get_stream (id : string) : st Db (result StreamsDb.Stream MMError.t) :=
  let? row := MoneyDb.get_stream id in
  st_ret (match row with Some r => Ok (id, r) | None => not_found end).

Definition list_participants (id : string) : st Db (result (list ParticipantRec) MMError.t) :=
  StreamsDb.list_participants id.

Definition list_room_streams (room_id : string) : st Db (result (list StreamsDb.Stream) MMError.t) :=
  let? room := get_room_by_matrix_id room_id in
  match room with
  | None => st_ret (Ok [])
  | Some room => list_streams room.1 50
  end.

Record ActiveStreamEntry : Type := {
  ae_stream_id : string;
  ae_room_id : string;
  ae_title : option string;
  ae_host_user_id : string;
  ae_participant_count : Z;
  ae_started_at : DateTime
}.

Fixpoint active_entries (l : list StreamsDb.Stream) : st Db (result (list ActiveStreamEntry) MMError.t) :=
  match l with
  | [] => st_ret (Ok [])
  | s :: l' =>
      let? room := get_room (sr_room_id s.2) in
      let? rest := active_entries l' in
      st_ret (Ok (match room with
        | Some room => {| ae_stream_id := s.1; ae_room_id := rm_matrix_room_id room;
            ae_title := sr_title s.2; ae_host_user_id := sr_host_user_id s.2;
            ae_participant_count := Z.max 0 (sr_participant_count s.2);
            ae_started_at := sr_started_at s.2 |} :: rest
        | None => rest
        end))
  end.

Definition list_active_mine : st Db (result (list ActiveStreamEntry) MMError.t) :=
  let? streams := list_all_active_streams 100 in active_entries streams.
End streams.

(** ** Joining *)
Section joining.
Context {C R P : Type} `{TtlCache C (string * string) (option Entitlement), Redis R}.
Context `{TtlCache P (string * string) TierPermissions}.
Context {N : Type} `{Http N, Clock N, StreamServices N}.
Variable ent_json : option Entitlement → string.
Variable ent_parse : string → option (option Entitlement).
Variable has_redis : bool.
Variable ops : TokenOps.
Variable state : ApiState.
Variable cfg : ClientConfig.

(** The world of the gate, and the services. *)
Abbreviation JoinWorld := ((((Db * (R * C)) * P) * N))%type.

Definition join_db {A} (m : st Db A) : st JoinWorld A := st_fst (TierGate.in_db m).

Definition watch_hint (now : DateTime) (me stream_id : string) :
    option string * option string * option string * option string :=
  if px_switch_pool (cl_proxy cfg) then
    let public := default "" (cl_public_url cfg) in
    let vid := switch_viewer_id stream_id me in
    (Some (switch_base_url public stream_id (proxy_enabled (cl_proxy cfg))),
     Some (switch_source_id stream_id), Some vid,
     (λ secret, generate_switch_token ops (now / NANOS) secret "viewer" vid 300)
       <$> switch_auth_secret_opt (cl_proxy cfg))
  else (None, None, None, None).

(** [participants.len() >= room.max_participants as usize]: an [i32] as [usize]. *)
Definition room_full (present max : Z) : bool :=
  (if max <? 0 then max + 18446744073709551616 else max) <=? present.

(** The seat: what is counted, and the row. *)
Definition take_seat (me id : string) (max : Z) : st JoinWorld (result ParticipantRec MMError.t) :=
  let? participants := join_db (StreamsDb.list_participants id) in
  if room_full (Z.of_nat (length participants)) max
  then st_ret (Err (MMError.api ErrorCode.RoomFull "room has reached maximum capacity"))
  else
  let! pid := st_snd new_v4 in
  join_db (add_participant pid id me Viewer None).

(** [POST /streams/{id}/join]. *)
Definition join_stream (now : DateTime) (me id : string) :
    st JoinWorld (result JoinStreamResponse MMError.t) :=
  let? admitted := st_fst (join_gate ent_json ent_parse has_redis state now me id) in
  let '(row, room) := admitted in
  let? p := take_seat me id (rm_max_participants room) in
  let name := default id (sr_sfu_room_id row) in
  let! token := st_snd (generate_token
    {| so_sfu_room_id := name; so_name := name;
       so_num_participants := u32_wrap (sr_participant_count row) |}
    (participant (pt_id p) me) viewer) in
  match sfu_error token with
  | Err e => st_ret (Err e)
  | Ok token =>
      let? info := join_db (current_key (id, row)) in
      let '(url, source, vid, vtoken) := watch_hint now me id in
      st_ret (Ok {| jr_sfu_url := tk_url token; jr_sfu_token := tk_token token;
        jr_participant_id := pt_id p; jr_e2ee := info; jr_switch_url := url;
        jr_switch_source_id := source; jr_switch_viewer_id := vid;
        jr_switch_viewer_token := vtoken |})
  end.
End joining.
