(* ===== verification/StreamsHistory.v ===== *)
(** * StreamsHistory: what the stream tables look like at any time

    An invariant of mm_rooms, mm_streams and mm_participants that every stream handler
    keeps, under any database faults and any answers of the services: the references hold,
    a room has at most one active stream, and a stream is never over its room's
    capacity. *)
From S2P Require Import SwitchPool.
From S2P Require Import Prelude ApiSchema Schema Errors MatrixClient MatrixEvents.
From S2P Require Import Guards MoneyDb StreamsDb Donations Entitlement TierGate Feed Rooms.
From S2P Require Import StreamLifecycle StreamsApi.
Local Open Scope Z_scope.
Local Open Scope mm_scope.

(** ** The invariant *)
Definition active_in_room (id : string) (room : Z) (t : Tables) : Prop :=
  ∃ row, t_streams t !! id = Some row ∧ sr_status row = "active" ∧ sr_room_id row = room.

(** Who is there. *)
Definition seats (id : string) (t : Tables) : Z :=
  Z.of_nat (length (List.filter (present id) (m_participants (media_of t)))).

Definition who (p : ParticipantRec) : string * string := (pt_stream_id p, pt_user_id p).

Record media_ok (t : Tables) : Prop := {
  mo_rooms r : is_Some (a_rooms (t_api t) !! r) → r < m_room_seq (media_of t);
  mo_streams x row : t_streams t !! x = Some row → is_Some (a_rooms (t_api t) !! sr_room_id row);
  mo_participants p : p ∈ m_participants (media_of t) → is_Some (t_streams t !! pt_stream_id p);
  mo_unique : NoDup (who <$> m_participants (media_of t));
  mo_one x y r : active_in_room x r t → active_in_room y r t → x = y;
  mo_seats x row room :
    t_streams t !! x = Some row → a_rooms (t_api t) !! sr_room_id row = Some room →
    0 ≤ rm_max_participants room → seats x t ≤ Z.max 1 (rm_max_participants room)
}.

(** Steps that touch neither rooms nor participants, and start no stream. *)
Record calm (t t' : Tables) : Prop := {
  ca_rooms : a_rooms (t_api t') = a_rooms (t_api t);
  ca_seq : m_room_seq (media_of t') = m_room_seq (media_of t);
  ca_participants : m_participants (media_of t') = m_participants (media_of t);
  ca_streams x : option_Forall2 (λ a b, sr_room_id b = sr_room_id a ∧
      (sr_status b = "active" → sr_status a = "active"))
    (t_streams t !! x) (t_streams t' !! x)
}.

#[export] Instance calm_preorder : PreOrder calm.
Proof.
  split.
  - intros t. split; try done. intros x. destruct (t_streams t !! x); by constructor.
  - intros a b c [R1 Q1 P1 S1] [R2 Q2 P2 S2]. split; [congruence..|]. intros x.
    specialize (S1 x). specialize (S2 x).
    destruct S1 as [? ? [H1 H1']|]; inversion S2 as [? ? [H2 H2']|]; subst; constructor.
    split; [congruence|auto].
Qed.

Lemma calm_lookup t t' x row' :
  calm t t' → t_streams t' !! x = Some row' →
  ∃ row, t_streams t !! x = Some row ∧ sr_room_id row' = sr_room_id row ∧
    (sr_status row' = "active" → sr_status row = "active").
Proof.
  intros Hc Hr. pose proof (ca_streams _ _ Hc x) as Hs. rewrite Hr in Hs.
  inversion Hs as [a b Hab Ha|]; subst. exists a. split; [done|]. exact Hab.
Qed.

Lemma calm_exists t t' x : calm t t' → is_Some (t_streams t !! x) → is_Some (t_streams t' !! x).
Proof.
  intros Hc [row Hr]. pose proof (ca_streams _ _ Hc x) as Hs. rewrite Hr in Hs.
  inversion Hs; subst. by eexists.
Qed.

Lemma calm_active t t' x r : calm t t' → active_in_room x r t' → active_in_room x r t.
Proof.
  intros Hc (row' & Hr & Ha & Hroom).
  destruct (calm_lookup _ _ _ _ Hc Hr) as (row & Hrow & Heq & Hact).
  exists row. split; [done|]. split; [auto|congruence].
Qed.

Lemma calm_ok t t' : calm t t' → media_ok t → media_ok t'.
Proof.
  intros Hc [Mr Ms Mp Mu M1 Mc]. pose proof (ca_rooms _ _ Hc) as Er. pose proof (ca_seq _ _ Hc) as Eq.
  pose proof (ca_participants _ _ Hc) as Ep. split.
  - intros r. rewrite Er, Eq. apply Mr.
  - intros x row Hr. destruct (calm_lookup _ _ _ _ Hc Hr) as (row0 & Hrow & -> & _).
    rewrite Er. by eapply Ms.
  - intros p. rewrite Ep. intros Hp. by eapply calm_exists, Mp.
  - by rewrite Ep.
  - intros x y r Hx Hy. eapply M1; by eapply calm_active.
  - intros x row room Hr. destruct (calm_lookup _ _ _ _ Hc Hr) as (row0 & Hrow & -> & _).
    rewrite Er. unfold seats. rewrite Ep. by eapply Mc.
Qed.

(** ** Statements *)
Lemma same_streams_calm t t' :
  t_streams t' = t_streams t → a_rooms (t_api t') = a_rooms (t_api t) →
  m_room_seq (media_of t') = m_room_seq (media_of t) →
  m_participants (media_of t') = m_participants (media_of t) → calm t t'.
Proof.
  intros Hs Hr Hq Hp. split; try done. intros x. rewrite Hs. destruct (t_streams t !! x); by constructor.
Qed.

Lemma end_moves_calm id w t t' : end_moves id w t t' → calm t t'.
Proof.
  intros [(m & l & ->) Hs _]. split; try done. intros x. specialize (Hs x). cbn in *.
  destruct Hs as [a b Hab|]; constructor.
  destruct Hab as [<-|[_ [(? & ? & ? & ? & ? & ? & ->) Hst]]]; [done|].
  split; [done|]. cbn in *. intuition congruence.
Qed.

Lemma update_stream_calm id p f :
  (∀ now s, sr_room_id (f now s) = sr_room_id s ∧
     (sr_status (f now s) = "active" → sr_status s = "active")) →
  stmt_rel calm (update_stream id p f).
Proof.
  intros Hf now t a t'. unfold update_stream.
  destruct (t_streams t !! id) as [s|] eqn:E; [|by intros [= _ <-]].
  destruct (p s); [|by intros [= _ <-]]. intros [= _ <-]. split; try done. intros x. cbn.
  destruct (decide (x = id)) as [->|Hne].
  - rewrite lookup_insert_eq, E. by constructor.
  - rewrite lookup_insert_ne by done. destruct (t_streams t !! x); by constructor.
Qed.

Lemma run_update_calm id p f :
  (∀ now s, sr_room_id (f now s) = sr_room_id s ∧
     (sr_status (f now s) = "active" → sr_status s = "active")) →
  st_rel (on_tables calm) (run_update (update_stream id p f)).
Proof.
  intros Hf. unfold run_update. st_steps. apply st_rel_asking; [apply _|]. by apply update_stream_calm.
Qed.

Lemma bump_calm id : stmt_rel calm (bump_generation id).
Proof. intros now t a t' E. eapply end_moves_calm, (bump_generation_moves id false), E. Qed.

Lemma upsert_key_calm id g k : stmt_rel calm (upsert_key id g k).
Proof. intros now t a t' [= _ <-]. by apply same_streams_calm. Qed.

Lemma upsert_gate_calm ct ci creator m p : stmt_rel calm (upsert_gate ct ci creator m p).
Proof.
  intros now t a t'. unfold upsert_gate, on_api.
  destruct (gate_check ct m); [|done]. unfold take_uuid.
  destruct (a_uuids (t_api t)); intros [= _ <-]; by apply same_streams_calm.
Qed.

Lemma sync_calm id : st_rel (on_tables calm) (sync_participant_count id).
Proof.
  unfold sync_participant_count. st_steps. by apply run_update_calm.
Qed.

Lemma set_key_calm id k g b a : st_rel (on_tables calm) (set_stream_e2ee_key id k g b a).
Proof.
  unfold set_stream_e2ee_key. st_steps; (apply st_rel_asking; [apply _|]).
  - by apply update_stream_calm.
  - apply upsert_key_calm.
Qed.

Lemma reading_calm {A} (f : Tables → A) : st_rel (on_tables calm) (asking (reading f)).
Proof. apply st_rel_asking; [apply _|]. apply stmt_rel_reading. apply _. Qed.

Lemma exec_reading_calm {A} (f : Tables → A) : st_rel (on_tables calm) (exec (reading f)).
Proof. apply st_rel_exec; [apply _|]. apply stmt_rel_reading. apply _. Qed.

#[export] Hint Resolve bump_calm upsert_key_calm upsert_gate_calm sync_calm set_key_calm
  reading_calm exec_reading_calm : mm.

(** ** The statements that are not calm *)
Lemma upsert_room_ok m now t a t' :
  media_ok t → upsert_room m now t = Ok (a, t') → media_ok t'.
Proof.
  unfold upsert_room. destruct (find_room m t) as [r|]; [by intros ? [= _ <-]|].
  intros [Mr Ms Mp Mu M1 Mc] [= _ <-].
  assert (Hfresh : a_rooms (t_api t) !! m_room_seq (media_of t) = None).
  { destruct (_ !! _) eqn:E; [|done]. assert (is_Some (a_rooms (t_api t) !! m_room_seq (media_of t))) as Hr%Mr by (by eexists). lia. }
  split; cbn; try done.
  - intros r Hr. destruct (decide (r = m_room_seq (media_of t))) as [->|Hne]; [unfold media_of; lia|].
    rewrite lookup_insert_ne in Hr by done. apply Mr in Hr. unfold media_of in *. lia.
  - intros x row Hr. destruct (decide (sr_room_id row = m_room_seq (media_of t))) as [->|Hne].
    + rewrite lookup_insert_eq. by eexists.
    + rewrite lookup_insert_ne by done. by eapply Ms.
  - intros x row room Hr Hroom. specialize (Ms _ _ Hr).
    rewrite lookup_insert_ne in Hroom by (intros Heq; rewrite <-Heq, Hfresh in Ms; by destruct Ms).
    by eapply Mc.
Qed.

Lemma no_seats_before id t : media_ok t → t_streams t !! id = None → seats id t = 0.
Proof.
  intros Hok Hn. unfold seats. destruct (List.filter _ _) as [|p l] eqn:E; [done|].
  assert (Hin : In p (List.filter (present id) (m_participants (media_of t)))) by (rewrite E; by left).
  apply filter_In in Hin as [Hin Hp]. unfold present in Hp. apply andb_true_iff in Hp as [Hp _].
  apply String.eqb_eq in Hp. apply list_elem_of_In, (mo_participants _ Hok) in Hin.
  rewrite Hp, Hn in Hin. by destruct Hin.
Qed.

(** A new stream in a room without an active one. *)
Lemma insert_stream_ok id room host title mt sfu tier now t s t' :
  media_ok t → (∀ x, ¬ active_in_room x room t) →
  insert_stream id room host title mt sfu tier now t = Ok (s, t') →
  media_ok t' ∧ seats id t' = 0.
Proof.
  intros Hok Hno. unfold insert_stream. destruct (t_streams t !! id) as [?|] eqn:En; [done|].
  destruct (a_rooms (t_api t) !! room) as [r|] eqn:Er; [|done]. intros [= _ <-].
  pose proof (no_seats_before id t Hok En) as Hz. destruct Hok as [Mr Ms Mp Mu M1 Mc].
  assert (Hseats : ∀ x t', m_participants (media_of t') = m_participants (media_of t) → seats x t' = seats x t)
    by (intros x t2 E; unfold seats; by rewrite E).
  split; [|by rewrite (Hseats id)].
  split; cbn; try done.
  - intros x row. destruct (decide (x = id)) as [->|Hne].
    + rewrite lookup_insert_eq. intros [= <-]. cbn. by rewrite Er.
    + rewrite lookup_insert_ne by done. by eapply Ms.
  - intros p Hp. destruct (decide (pt_stream_id p = id)) as [->|Hne].
    + rewrite lookup_insert_eq. by eexists.
    + rewrite lookup_insert_ne by done. by apply Mp.
  - assert (Hact : ∀ x r', active_in_room x r' (set_streams
      (<[id := new_stream room host title mt sfu tier now]> (t_streams t)) t) →
      x = id ∧ r' = room ∨ active_in_room x r' t).
    { intros x r' (row & Hr & Ha & Hroom). cbn in Hr. destruct (decide (x = id)) as [->|Hne].
      - rewrite lookup_insert_eq in Hr. injection Hr as <-. by left.
      - rewrite lookup_insert_ne in Hr by done. right. by exists row. }
    intros x y r' [[-> ->]|Hx]%Hact [[-> Hr']|Hy]%Hact; subst; try done.
    + by destruct (Hno y).
    + by destruct (Hno x).
    + by eapply M1.
  - intros x row rm. destruct (decide (x = id)) as [->|Hne].
    + intros _ _ _. rewrite Hseats by done. rewrite Hz. lia.
    + rewrite lookup_insert_ne by done. rewrite Hseats by done. apply Mc.
Qed.

(** ** Participants *)
Lemma filter_map_bound {A} (p q : A → bool) (f : A → A) (l : list A) :
  (length (List.filter p ((λ x, if q x then f x else x) <$> l)) ≤
   length (List.filter p l) + length (List.filter q l))%nat.
Proof.
  induction l as [|x l IH]; cbn; [lia|].
  destruct (q x); destruct (p x); cbn; repeat case_match; cbn; lia.
Qed.

Lemma filter_map_same {A} (p q : A → bool) (f : A → A) (l : list A) :
  (∀ x, q x = true → p (f x) = true → p x = true) →
  (length (List.filter p ((λ x, if q x then f x else x) <$> l)) ≤ length (List.filter p l))%nat.
Proof.
  intros Hf. induction l as [|x l IH]; cbn; [lia|]. destruct (q x) eqn:Eq.
  - specialize (Hf x Eq). destruct (p (f x)); [rewrite Hf by done; cbn; lia|]. case_match; cbn; lia.
  - case_match; cbn; lia.
Qed.

Lemma same_at_most_one sid user l :
  NoDup (who <$> l) → (length (List.filter (same_participant sid user) l) ≤ 1)%nat.
Proof.
  induction l as [|p l IH]; cbn; [lia|]. rewrite NoDup_cons. intros [Hn Hd].
  destruct (same_participant sid user p) eqn:E; [|auto]. cbn.
  enough (List.filter (same_participant sid user) l = []) as -> by done.
  destruct (List.filter _ _) as [|q l'] eqn:Ef; [done|].
  assert (Hin : In q (List.filter (same_participant sid user) l)) by (rewrite Ef; by left).
  apply filter_In in Hin as [Hin Hq]. unfold same_participant in *.
  rewrite andb_true_iff, !String.eqb_eq in E, Hq. destruct Hn. apply list_elem_of_fmap. exists q.
  split; [|by apply list_elem_of_In]. unfold who. destruct E, Hq. congruence.
Qed.

(** Replacing the participants alone, none of them moved or invented. *)
Lemma set_participants_ok l t :
  media_ok t → NoDup (who <$> l) →
  (∀ p, p ∈ l → is_Some (t_streams t !! pt_stream_id p)) →
  (∀ x row room, t_streams t !! x = Some row → a_rooms (t_api t) !! sr_room_id row = Some room →
     0 ≤ rm_max_participants room →
     Z.of_nat (length (List.filter (present x) l)) ≤ Z.max 1 (rm_max_participants room)) →
  media_ok (set_api (set_media (set_participants l (media_of t)) (t_api t)) t).
Proof. intros [Mr Ms Mp Mu M1 Mc] Hd Hf Hs. split; cbn; try done. Qed.

(** The room left for one more in stream [sid]. *)
Definition room_for_one (sid : string) (t : Tables) : Prop :=
  ∀ row room, t_streams t !! sid = Some row → a_rooms (t_api t) !! sr_room_id row = Some room →
    0 ≤ rm_max_participants room → seats sid t + 1 ≤ Z.max 1 (rm_max_participants room).

Lemma map_who (f : ParticipantRec → ParticipantRec) (q : ParticipantRec → bool)
    (l : list ParticipantRec) :
  (∀ p, who (f p) = who p) → who <$> ((λ p, if q p then f p else p) <$> l) = who <$> l.
Proof.
  intros Hf. rewrite <-list_fmap_compose. apply list_fmap_ext. intros _ p _. cbn.
  by destruct (q p).
Qed.

Lemma map_streams (f : ParticipantRec → ParticipantRec) (q : ParticipantRec → bool)
    (l : list ParticipantRec)
    (P : string → Prop) :
  (∀ p, who (f p) = who p) → (∀ p, p ∈ l → P (pt_stream_id p)) →
  ∀ p, p ∈ (λ p, if q p then f p else p) <$> l → P (pt_stream_id p).
Proof.
  intros Hf Hl p (p0 & -> & Hp)%list_elem_of_fmap. specialize (Hl _ Hp).
  specialize (Hf p0). unfold who in Hf. destruct (q p0); [|done]. congruence.
Qed.

Lemma upsert_participant_ok id sid user role sfu now t p t' :
  media_ok t → room_for_one sid t →
  upsert_participant id sid user role sfu now t = Ok (p, t') → media_ok t'.
Proof.
  intros Hok Hroom. unfold upsert_participant.
  set (l := m_participants (media_of t)) in *.
  destruct (List.find _ l) as [q|] eqn:Ef; [|destruct (t_streams t !! sid) as [row|] eqn:Er; [|done]].
  - intros [= _ <-]. apply set_participants_ok; [done| | |].
    + rewrite map_who by done. apply (mo_unique _ Hok).
    + apply (map_streams (rejoined role sfu now) _ _ (λ x, is_Some (t_streams t !! x))); [done|].
      apply (mo_participants _ Hok).
    + intros x row room Hr Hrm Hmax. destruct (decide (x = sid)) as [->|Hne].
      * specialize (Hroom _ _ Hr Hrm Hmax).
        pose proof (filter_map_bound (present sid) (same_participant sid user) (rejoined role sfu now) l).
        pose proof (same_at_most_one sid user l (mo_unique _ Hok)). unfold seats in Hroom. fold l in Hroom. lia.
      * pose proof (mo_seats _ Hok _ _ _ Hr Hrm Hmax) as Hs. unfold seats in Hs. fold l in Hs.
        etrans; [|exact Hs]. apply inj_le, filter_map_same. intros y Hy Hp. exfalso.
        unfold same_participant in Hy. unfold present in Hp. cbn in Hp.
        rewrite andb_true_iff, !String.eqb_eq in Hy. rewrite andb_true_iff, String.eqb_eq in Hp.
        destruct Hy, Hp. congruence.
  - destruct (existsb _ l); [done|]. intros [= _ <-].
    apply set_participants_ok; [done| | |].
    + rewrite fmap_app. apply NoDup_app. split; [apply (mo_unique _ Hok)|].
      split; [|apply NoDup_singleton]. intros w Hw Hw'. cbn in Hw'. apply list_elem_of_singleton in Hw'. subst w.
      apply list_elem_of_fmap in Hw as (y & Hy & Hin).
      apply list_elem_of_In in Hin. pose proof (List.find_none _ _ Ef y Hin) as Hf.
      unfold who in Hy. cbn in Hy. injection Hy as Hy1 Hy2. unfold same_participant in Hf.
      rewrite <-Hy1, <-Hy2, !String.eqb_refl in Hf. done.
    + intros y. rewrite elem_of_app, list_elem_of_singleton. intros [Hy| ->]; [by apply (mo_participants _ Hok)|].
      cbn. by rewrite Er.
    + intros x row' room Hr Hrm Hmax. rewrite List.filter_app, length_app. cbn.
      destruct (decide (x = sid)) as [->|Hne].
      * specialize (Hroom _ _ Hr Hrm Hmax). unfold seats in Hroom. fold l in Hroom.
        case_match; cbn; lia.
      * pose proof (mo_seats _ Hok _ _ _ Hr Hrm Hmax) as Hs. unfold seats in Hs. fold l in Hs.
        unfold present at 2. cbn. destruct (String.eqb_spec sid x); [congruence|]. cbn. lia.
Qed.

Lemma leave_stmt_ok sid pid now t :
  media_ok t →
  media_ok (set_api (set_media (set_participants
    ((λ p, if present sid p && String.eqb (pt_id p) pid then left_participant now p else p) <$>
     m_participants (media_of t)) (media_of t)) (t_api t)) t).
Proof.
  intros Hok. apply set_participants_ok; [done| | |].
  - rewrite (map_who (left_participant now) (λ p, present sid p && String.eqb (pt_id p) pid)) by done.
    apply (mo_unique _ Hok).
  - apply (map_streams (left_participant now) _ _ (λ x, is_Some (t_streams t !! x))); [done|].
    apply (mo_participants _ Hok).
  - intros x row room Hr Hrm Hmax. pose proof (mo_seats _ Hok _ _ _ Hr Hrm Hmax) as Hs.
    etrans; [|exact Hs]. apply inj_le.
    apply (filter_map_same (present x) (λ p, present sid p && String.eqb (pt_id p) pid) (left_participant now)).
    intros p _. unfold present. cbn. by rewrite andb_false_r.
Qed.

(** ** Handlers *)

(** Assertions that calm steps keep. *)
Class Calm (P : Tables → Prop) : Prop := calm_keeps : ∀ t t', calm t t' → P t → P t'.

#[export] Instance media_ok_calm : Calm media_ok.
Proof. intros t t'. apply calm_ok. Qed.

Definition no_active (room : Z) (t : Tables) : Prop := ∀ x, ¬ active_in_room x room t.
Definition empty_stream (id : string) (t : Tables) : Prop := seats id t = 0.

#[export] Instance no_active_calm room : Calm (no_active room).
Proof. intros t t' Hc Hn x Hx. by eapply Hn, calm_active. Qed.

#[export] Instance empty_stream_calm id : Calm (empty_stream id).
Proof.
  intros t t' Hc. unfold empty_stream, seats. by rewrite (ca_participants _ _ Hc).
Qed.

#[export] Instance and_calm P Q `{!Calm P, !Calm Q} : Calm (λ t, P t ∧ Q t).
Proof. intros t t' Hc [HP HQ]. split; by eapply calm_keeps. Qed.

Ltac calm_step := first
  [ by apply on_services_moves; apply _ | by apply best_effort_moves; apply _
  | apply on_db_moves; [apply _|]; first
      [ eauto with mm typeclass_instances; fail
      | apply st_rel_asking; [apply _|]; eauto with mm typeclass_instances; fail
      | apply run_update_calm; done ]
  | st_step ].

Section handlers.
Context {N : Type} `{Http N, Clock N, Sfu N, EndSwitch N, StreamServices N}.
Variable url_encode : string → string.
Variable ops : TokenOps.
Variable state : ApiState.
Variable cfg : ClientConfig.
Variable client : HomeserverClient.

Abbreviation World := (Db * N)%type.

Definition tables_in (P : Tables → Prop) (w : World) : Prop := P (db_tables w.1).

Lemma hoare_calm {A B} P `{!Calm P} (m : st World A) (k : A → st World B) Q :
  st_rel (tables_move calm) m → (∀ a, hoare (tables_in P) (k a) Q) →
  hoare (tables_in P) (st_bind m k) Q.
Proof.
  intros Hm Hk. apply (hoare_bind _ _ (λ _, tables_in P)); [|done].
  intros w Hw. unfold tables_in in *. eapply (calm_keeps _ _ (Hm w)), Hw.
Qed.

Lemma hoare_calm_last {A} P `{!Calm P} (m : st World A) :
  st_rel (tables_move calm) m → hoare (tables_in P) m (λ _, tables_in P).
Proof. intros Hm w Hw. unfold tables_in in *. eapply (calm_keeps _ _ (Hm w)), Hw. Qed.

(** A statement whose answer tells [Q], and whose failure leaves [J]. *)
Lemma hoare_stmt {A} (I J : Tables → Prop) (Q : A → Tables → Prop) (s : stmt A) :
  (∀ t, I t → J t) → (∀ now t a t', I t → s now t = Ok (a, t') → Q a t' ∧ J t') →
  hoare (tables_in I) (on_db (asking s))
    (λ r w, match r with Ok a => tables_in (Q a) w | Err _ => tables_in J w end).
Proof.
  intros HIJ Hs [db n] Hw. unfold on_db, st_fst, asking, st_bind, exec, tables_in in *. cbn [fst snd] in *.
  destruct (next_tick db) as [k rest]. specialize (Hs (tk_now k) (db_tables db)).
  destruct (tk_outcome k); cbn; [|by apply HIJ|];
    destruct (s (tk_now k) (db_tables db)) as [[a t']|e]; cbn;
    (by apply HIJ) || (by destruct (Hs a t' Hw eq_refl)).
Qed.

Lemma publish_hint_calm id : st_rel (tables_move calm) (publish_hint (N := N) ops cfg id).
Proof. unfold publish_hint. repeat calm_step. Qed.

Lemma set_event_calm id e :
  st_rel (on_tables calm) (set_stream_state_event_id id e) ∧
  st_rel (on_tables calm) (set_stream_feed_started_event_id id e).
Proof. split; by apply run_update_calm. Qed.

Lemma publish_started_calm s me req info :
  st_rel (tables_move calm) (publish_started cfg client s me req info).
Proof.
  unfold publish_started.
  repeat first [ apply on_db_moves; [apply _|]; apply set_event_calm | calm_step ].
Qed.

Lemma finish_start_calm me req sfu_room id info event :
  st_rel (tables_move calm) (finish_start ops cfg me req sfu_room id info event).
Proof. unfold finish_start, when. repeat (apply publish_hint_calm || calm_step). Qed.

Lemma new_key_calm id alg g : st_rel (tables_move calm) (new_key (N := N) id alg g).
Proof. unfold new_key. repeat calm_step. Qed.

(** Adding the first participant of a stream nobody is in. *)
Lemma add_participant_ok pid id me role (I : Tables → Prop) :
  (∀ t, I t → media_ok t ∧ room_for_one id t) →
  hoare (tables_in I) (on_db (add_participant pid id me role None)) (λ _, tables_in media_ok).
Proof.
  intros HI [db n] Hw. unfold on_db, st_fst, add_participant, st_try, st_bind. cbn [fst snd].
  pose proof (hoare_stmt I media_ok (λ _, media_ok)
    (upsert_participant pid id me (role_str role) None)) as Hs.
  assert (Hu : tables_in media_ok (on_db (asking (upsert_participant pid id me (role_str role) None)) (db, n)).2).
  { specialize (Hs ltac:(intros t Ht; by apply HI)
      ltac:(intros now t a t' Ht E; destruct (HI t Ht); split; by eapply upsert_participant_ok) (db, n) Hw).
    by destruct (on_db _ (db, n)) as [[a|e] w']. }
  unfold on_db, st_fst in Hu. cbn [fst snd] in Hu.
  destruct (asking _ db) as [[row|e] db1]; cbn [fst snd] in *; [|done].
  pose proof (sync_calm id db1) as Hc. unfold on_tables in Hc.
  destruct (sync_participant_count id db1) as [[]]; cbn in *; by eapply calm_ok.
Qed.

Lemma start_in_room_ok me req room sfu_room :
  hoare (tables_in (λ t, media_ok t ∧ no_active room t))
    (start_in_room ops state cfg client me req room sfu_room) (λ _, tables_in media_ok).
Proof.
  unfold start_in_room. apply hoare_calm; [apply _|by apply on_services_moves; apply _|]. intros id.
  apply (hoare_try _ _ (λ r w, match r with
    | Ok _ => tables_in (λ t, media_ok t ∧ empty_stream id t) w
    | Err _ => tables_in media_ok w end)); [| |done].
  { unfold StreamsDb.create_stream. apply (hoare_stmt _ media_ok); [by intros t [? _]|].
    intros now t s t' [Hok Hno] E. by destruct (insert_stream_ok _ _ _ _ _ _ _ _ _ _ _ Hok Hno E). }
  intros s. apply hoare_calm; [apply _| |].
  { apply on_db_moves; [apply _|]. unfold effective_min_tier, default_min_tier. st_steps. }
  intros min_tier. apply hoare_calm; [apply _| |].
  { destruct (0 <? min_tier); [|repeat calm_step]. apply on_db_moves; [apply _|].
    unfold create_content_gate. st_steps. }
  intros _. apply hoare_calm; [apply _|by apply on_services_moves; apply _|]. intros pid.
  apply (hoare_try _ _ (λ _, tables_in media_ok)); [| |done].
  { apply add_participant_ok. intros t [Hok Hz]. split; [done|]. intros row rm _ _ _.
    unfold empty_stream in Hz. lia. }
  intros p. apply (hoare_try _ _ (λ _, tables_in media_ok)); [| |done].
  { apply hoare_calm_last; [apply _|]. repeat (apply new_key_calm || calm_step). }
  intros info. apply hoare_calm; [apply _|apply publish_started_calm|]. intros event.
  apply hoare_calm_last; [apply _|]. apply finish_start_calm.
Qed.

Lemma check_can_host_calm room me : st_rel (on_tables calm) (check_can_host state room me).
Proof. unfold check_can_host, load_permissions. st_steps. Qed.

Lemma get_active_stream_none room :
  hoare (tables_in media_ok) (on_db (N := N) (get_active_stream room))
    (λ r w, tables_in media_ok w ∧ (r = Ok None → tables_in (no_active room) w)).
Proof.
  intros [db n] Hw. unfold on_db, st_fst, get_active_stream, tables_in in *. cbn [fst snd] in *.
  set (f := λ t, head _).
  pose proof (asking_reading_tables f db) as Ht. pose proof (asking_reading_ok f db) as Ho.
  destruct (asking (reading f) db) as [r db1]. cbn [fst snd] in *. rewrite Ht. split; [done|].
  intros ->. specialize (Ho _ eq_refl). subst f. cbn beta in Ho. unfold streams_where in Ho.
  intros x (row & Hr & Ha & Hroom).
  destruct (order_desc _ _) as [|s l] eqn:E; [|done].
  assert (Hin : (x, row) ∈ order_desc (λ s : StreamsDb.Stream, sr_started_at s.2)
    (List.filter (λ s : StreamsDb.Stream, (sr_room_id s.2 =? room) && StreamsDb.is_active s.2)
       (map_to_list (t_streams (db_tables db))))).
  { apply elem_of_order_desc, list_elem_of_In, filter_In. split.
    - by apply list_elem_of_In, elem_of_map_to_list.
    - cbn. rewrite Hroom, Z.eqb_refl. unfold StreamsDb.is_active. by rewrite Ha. }
  rewrite E in Hin. inversion Hin.
Qed.

Lemma create_stream_ok me req :
  hoare (tables_in media_ok) (create_stream url_encode ops state cfg client me req)
    (λ _, tables_in media_ok).
Proof.
  unfold create_stream. apply hoare_calm; [apply _| |].
  { apply on_db_moves; [apply _|]. unfold is_suspended, is_user_suspended. st_steps. }
  intros []; [by apply hoare_ret|].
  apply (hoare_try _ _ (λ _, tables_in media_ok)); [|intros _|done].
  { apply hoare_calm_last; [apply _|]. apply on_db_moves; [apply _|]. apply check_can_host_calm. }
  apply hoare_calm; [apply _|by apply best_effort_moves; apply _|]. intros _.
  apply (hoare_try _ _ (λ _, tables_in media_ok)); [|intros room|done].
  { intros w Hw. pose proof (hoare_stmt media_ok media_ok (λ _, media_ok) (upsert_room (cq_room_id req))
      ltac:(done) ltac:(intros now t a t' Ht E; split; by eapply upsert_room_ok) w Hw) as Hs.
    unfold get_or_create_room. by destruct (on_db _ w) as [[]]. }
  apply (hoare_try _ _ _ _ _ (get_active_stream_none room.1)); [|by intros e w [? _]].
  intros [a|]; [apply hoare_ret; by intros w [? _]|].
  destruct (e2ee_gate _ _); [|apply hoare_ret; by intros w [? _]].
  apply (hoare_conseq _ (tables_in (λ t, media_ok t ∧ no_active room.1 t)) _ _ (λ _, tables_in media_ok));
    [|by intros w [? Hn]; split; [|apply Hn]|done].
  apply hoare_calm; [apply _|by apply on_services_moves; apply _|]. intros name.
  apply hoare_calm; [apply _|by apply on_services_moves; apply _|]. intros sfu_room.
  destruct (sfu_error sfu_room); [apply start_in_room_ok|apply hoare_ret; by intros w [? _]].
Qed.

Lemma next_generation_calm s : st_rel (tables_move calm) (next_generation (N := N) s).
Proof. unfold next_generation, bump_stream_marker_generation. repeat calm_step. Qed.

Lemma resume_stream_calm me id :
  st_rel (tables_move calm) (resume_stream ops cfg client me id).
Proof.
  unfold resume_stream, republish_active_marker, current_key, is_suspended, is_user_suspended,
    MoneyDb.get_stream, get_room, get_stream_e2ee_key.
  repeat first [ apply publish_hint_calm | apply next_generation_calm
    | apply on_db_moves; [apply _|]; apply set_event_calm | calm_step
    | apply on_db_moves; [apply _|]; st_steps ].
Qed.

Lemma rotate_stream_key_calm me id :
  st_rel (tables_move calm) (rotate_stream_key cfg client me id).
Proof.
  unfold rotate_stream_key, MoneyDb.get_stream, get_room, rotate_stream_e2ee_key. repeat calm_step.
Qed.

Lemma end_stream_calm ctx me id : st_rel (tables_move calm) (end_stream url_encode ctx me id).
Proof.
  unfold end_stream, end_and_finalise_stream, MoneyDb.get_stream.
  repeat first [ eapply st_rel_weaken; [|apply end_moves_tables]; intros a b; apply end_moves_calm
    | calm_step ].
Qed.
End handlers.

Lemma leave_stream_ok me id : st_rel (on_tables (keeps media_ok)) (leave_stream me id).
Proof.
  unfold leave_stream, StreamsDb.list_participants, remove_participant. st_steps.
  - apply st_rel_asking; [apply _|]. intros now t x t' [= _ <-] Hok. by apply leave_stmt_ok.
  - eapply st_rel_weaken; [|apply sync_calm]. intros db db1 Hc. unfold on_tables. intros Hok. by eapply calm_ok.
Qed.

(** ** Joining *)
Definition unchanged_tables (t t' : Tables) : Prop := t' = t.

#[export] Instance unchanged_tables_preorder : PreOrder unchanged_tables.
Proof. split; [done|]. intros a b c Hab Hbc. unfold unchanged_tables in *. congruence. Qed.

Section joining.
Context {C R P : Type} `{TtlCache C (string * string) (option Entitlement), Redis R}.
Context `{TtlCache P (string * string) TierPermissions}.
Context {N : Type} `{Http N, Clock N, StreamServices N}.
Variable ent_json : option Entitlement → string.
Variable ent_parse : string → option (option Entitlement).
Variable has_redis : bool.
Variable ops : TokenOps.
Variable state : ApiState.
Variable cfg : ClientConfig.

Abbreviation Gate := ((Db * (R * C)) * P)%type.
Abbreviation JoinWorld := (Gate * N)%type.

(** Only the database's tables, and they stay. *)
Definition ent_same : Db * (R * C) → Db * (R * C) → Prop := on_fst (on_tables unchanged_tables).
Definition gate_same : Gate → Gate → Prop := on_fst ent_same.

Lemma exec_reads {A} (f : Tables → A) : st_rel (on_tables unchanged_tables) (exec (reading f)).
Proof. apply st_rel_exec; [apply _|]. apply stmt_rel_reading. apply _. Qed.

Lemma on_l1_same f : st_rel ent_same (on_l1 f).
Proof. intros w. unfold ent_same, on_fst, on_l1. cbn. reflexivity. Qed.

Lemma check_same now u c : st_rel ent_same (check ent_json ent_parse has_redis now u c).
Proof.
  intros w. unfold check. destruct (tc_get _ _ _); [reflexivity|].
  match goal with |- ent_same w (?m w).2 => enough (Hm : st_rel ent_same m) by apply Hm end.
  assert (PreOrder ent_same) by (unfold ent_same; apply _).
  repeat first [ apply on_l1_same | apply st_rel_on_snd; apply _
    | apply st_rel_on_fst; apply st_rel_exec; [apply _|]; intros ? t a t' [= _ <-]; reflexivity
    | st_step ].
Qed.

Lemma in_db_reads {A} (f : Tables → A) :
  st_rel gate_same (TierGate.in_db (asking (reading f))) ∧
  st_rel gate_same (TierGate.in_db (exec (reading f))).
Proof.
  split; apply st_rel_on_fst, st_rel_on_fst; [|apply exec_reads].
  apply st_rel_asking; [apply _|]. apply stmt_rel_reading. apply _.
Qed.

Lemma effective_permissions_same now u c room :
  st_rel gate_same (effective_permissions state now u c room).
Proof.
  intros w. unfold effective_permissions. destruct (tc_get _ _ _); [reflexivity|].
  match goal with |- gate_same w (?m w).2 => enough (Hm : st_rel gate_same m) by apply Hm end.
  assert (PreOrder gate_same) by (unfold gate_same, ent_same; apply _).
  unfold resolve_effective_permissions, resolve_with_pool.
  repeat first [ st_step | apply st_rel_on_snd; unfold ent_same; apply _
    | apply st_rel_on_fst, st_rel_on_fst ].
  all: try (apply st_rel_exec; [apply _|]; intros ? t a' t' [= _ <-]; reflexivity).
Qed.

Lemma join_gate_same now me id :
  st_rel gate_same (join_gate ent_json ent_parse has_redis state now me id).
Proof.
  assert (PreOrder gate_same) by (unfold gate_same, ent_same; apply _).
  unfold join_gate, content_gate, tier_requirement, require_permission, TierGate.get_content_gate,
    db_get_content_gate, MoneyDb.get_stream, get_room, check_entitlement_of.
  repeat first [ apply in_db_reads | apply effective_permissions_same
    | apply st_rel_on_fst, check_same | st_step ].
  all: apply st_rel_on_fst, st_rel_on_fst; st_steps.
Qed.

Definition at_tables (t : Tables) (g : Gate) : Prop := db_tables g.1.1 = t.

Lemma hoare_read {A} (f : Tables → A) t :
  hoare (at_tables t) (TierGate.in_db (asking (reading f)))
    (λ r g, at_tables t g ∧ match r with Ok a => a = f t | Err _ => True end).
Proof.
  intros [[db c] p] Hg. unfold at_tables, TierGate.in_db, st_fst in *. cbn [fst snd] in *.
  pose proof (asking_reading_tables f db) as Ht. pose proof (asking_reading_ok f db) as Ho.
  destruct (asking (reading f) db) as [[a|e] db']; cbn in *; subst; [|done].
  split; [done|]. by apply Ho.
Qed.

Lemma hoare_same {A} t (m : st Gate A) :
  st_rel gate_same m → hoare (at_tables t) m (λ _, at_tables t).
Proof.
  intros Hm g Hg. specialize (Hm g).
  unfold gate_same, ent_same, on_fst, on_tables, unchanged_tables, at_tables in *. congruence.
Qed.

(** Whom the gate admits, and where. *)
Lemma join_gate_answer now me id t :
  hoare (at_tables t) (join_gate ent_json ent_parse has_redis state now me id)
    (λ r g, at_tables t g ∧ ∀ s room, r = Ok (s, room) →
       t_streams t !! id = Some s ∧ a_rooms (t_api t) !! sr_room_id s = Some room).
Proof.
  assert (PreOrder gate_same) by (unfold gate_same, ent_same; apply _).
  unfold join_gate. apply (hoare_try _ _ _ _ _ (hoare_read (λ t, t_streams t !! id) t)); [|by intros e g []].
  intros [row|]; [|apply hoare_ret; by intros g []].
  destruct (String.eqb (sr_status row) "ended"); [apply hoare_ret; by intros g []|].
  apply (hoare_try _ _ (λ _ g, at_tables t g ∧ Some row = t_streams t !! id)); [| |by intros e g []].
  { intros g [Hg Hr]. split; [|done]. revert g Hg. apply hoare_same.
    unfold content_gate, TierGate.get_content_gate, db_get_content_gate, check_entitlement_of.
    repeat first [ apply in_db_reads | apply st_rel_on_fst, check_same | st_step ].
    all: apply st_rel_on_fst, st_rel_on_fst; st_steps. }
  intros _. apply (hoare_try _ _ (λ r g, (at_tables t g ∧ Some row = t_streams t !! id) ∧
    match r with Ok a => a = a_rooms (t_api t) !! sr_room_id row | Err _ => True end)); [| |by intros e g [[]]].
  { intros g [Hg Hr]. destruct (hoare_read (λ t, a_rooms (t_api t) !! sr_room_id row) t g Hg). done. }
  intros [room|]; [|apply hoare_ret; by intros g [[]]].
  apply (hoare_try _ _ (λ _ g, (at_tables t g ∧ Some row = t_streams t !! id) ∧
    Some room = a_rooms (t_api t) !! sr_room_id row)); [| |by intros e g [[]]].
  { intros g [[Hg Hr] Hroom]. split; [split; [|done]|done]. revert g Hg. apply hoare_same.
    unfold tier_requirement, require_permission, check_entitlement_of.
    repeat first [ apply effective_permissions_same | apply st_rel_on_fst, check_same | st_step ]. }
  intros _. apply hoare_ret. intros g [[Hg Hr] Hroom]. split; [done|]. by intros s rm [= <- <-].
Qed.

Definition join_tables (Q : Tables → Prop) (w : JoinWorld) : Prop := Q (db_tables w.1.1.1).

Lemma join_db_keeps {A} (m : st Db A) :
  st_rel (on_tables (keeps media_ok)) m → hoare (join_tables media_ok) (join_db m) (λ _, join_tables media_ok).
Proof.
  intros Hm [[[db c] p] n] Hw. specialize (Hm db).
  unfold join_db, TierGate.in_db, st_fst, join_tables, on_tables, keeps in *. cbn [fst snd] in *.
  destruct (m db). cbn in *. auto.
Qed.

Lemma services_keep {A} Q (m : st N A) : hoare (join_tables Q) (st_snd m) (λ _, join_tables Q).
Proof. intros [g n] Hw. unfold st_snd, join_tables in *. cbn in *. by destruct (m n). Qed.

(** A seat is only taken where there is one. *)
Lemma take_seat_ok me id row room :
  hoare (join_tables (λ t, media_ok t ∧ t_streams t !! id = Some row ∧
      a_rooms (t_api t) !! sr_room_id row = Some room))
    (take_seat me id (rm_max_participants room)) (λ _, join_tables media_ok).
Proof.
  intros [[[db c] p] n] (Hok & Hr & Hroom). cbn [fst] in *. unfold take_seat, StreamsDb.list_participants.
  unfold st_try at 1, st_bind at 1, join_db at 1, TierGate.in_db, st_fst. cbn [fst snd].
  set (f := λ t, order_asc _ _). pose proof (asking_reading_tables f db) as Ht.
  pose proof (asking_reading_ok f db) as Ho.
  destruct (asking (reading f) db) as [[ps|e] db1]; cbn [fst snd] in *;
    [|unfold join_tables; cbn; by rewrite Ht].
  specialize (Ho _ eq_refl).
  assert (Hlen : Z.of_nat (length ps) = seats id (db_tables db1)).
  { rewrite Ht. subst ps f. unfold seats, order_asc. by rewrite merge_sort_Permutation. }
  rewrite Hlen. destruct (room_full _ _) eqn:Efull; [unfold join_tables; cbn; by rewrite Ht|].
  unfold st_bind, st_snd. cbn [fst snd]. destruct (new_v4 n) as [pid n1].
  unfold join_db, TierGate.in_db, st_fst. cbn [fst snd].
  pose proof (add_participant_ok (N := N) pid id me Viewer (λ t, media_ok t ∧ room_for_one id t)
    ltac:(done) (db1, n1)) as Ha. unfold on_db, st_fst, tables_in in Ha. cbn [fst snd] in Ha.
  destruct (add_participant pid id me Viewer None db1) as [r db2]. cbn in *.
  unfold join_tables. cbn. apply Ha. rewrite Ht. split; [done|].
  intros row' room' Hr' Hroom' Hmax. rewrite Hr in Hr'. injection Hr' as <-.
  rewrite Hroom in Hroom'. injection Hroom' as <-. rewrite Ht in Efull. unfold room_full in Efull.
  destruct (Z.ltb_spec (rm_max_participants room) 0); [lia|]. apply Z.leb_gt in Efull. lia.
Qed.

Lemma join_stream_ok now me id :
  hoare (join_tables media_ok)
    (join_stream ent_json ent_parse has_redis ops state cfg now me id) (λ _, join_tables media_ok).
Proof.
  intros [g n] Hw. unfold join_stream. unfold st_try at 1, st_bind at 1, st_fst at 1. cbn [fst snd].
  destruct (join_gate_answer now me id (db_tables g.1.1) g eq_refl) as [Hg Ha].
  destruct (join_gate _ _ _ _ _ _ _ g) as [[[row room]|e] g1]; cbn [fst snd] in *;
    unfold at_tables in Hg; [|unfold join_tables; cbn; by rewrite Hg].
  destruct (Ha _ _ eq_refl) as [Hr Hroom]. rewrite <-Hg in Hr, Hroom.
  match goal with |- join_tables media_ok (?m (g1, n)).2 =>
    enough (Hm : hoare (join_tables (λ t, media_ok t ∧ t_streams t !! id = Some row ∧
      a_rooms (t_api t) !! sr_room_id row = Some room)) m (λ _, join_tables media_ok));
    [apply (Hm (g1, n))|] end.
  { unfold join_tables in *. cbn in *. split; [by rewrite Hg|done]. }
  apply (hoare_try _ _ (λ _, join_tables media_ok)); [apply take_seat_ok| |done]. intros p.
  apply (hoare_bind _ _ (λ _, join_tables media_ok)); [apply services_keep|]. intros token.
  destruct (sfu_error token); [|by apply hoare_ret].
  apply (hoare_try _ _ (λ _, join_tables media_ok)); [| |done].
  { apply join_db_keeps. unfold current_key, get_stream_e2ee_key. st_steps;
      apply st_rel_asking; apply _ || apply stmt_rel_reading; apply _. }
  intros info. destruct (watch_hint _ _ _ _ _) as [[[]]]. by apply hoare_ret.
Qed.
End joining.

(** ** Any sequence of requests and sweeps *)
Inductive stream_request : Type :=
  | CreateRequest (me : string) (req : CreateStreamRequest)
  | ResumeRequest (me id : string)
  | StopRequest (me id : string)
  | LeaveRequest (me id : string)
  | RotateRequest (me id : string)
  | JoinRequest (now : DateTime) (me id : string)
  | SweepPass (streaming : StreamingConfig) (sweeper : StreamSweeper).

Section history.
Context {C R P : Type} `{TtlCache C (string * string) (option Entitlement), Redis R}.
Context `{TtlCache P (string * string) TierPermissions}.
Context {N : Type} `{Http N, Clock N, Sfu N, EndSwitch N, StreamServices N}.
Variable url_encode : string → string.
Variable ent_json : option Entitlement → string.
Variable ent_parse : string → option (option Entitlement).
Variable has_redis : bool.
Variable ops : TokenOps.
Variable state : ApiState.
Variable cfg : ClientConfig.
Variable client : HomeserverClient.
Variable ctx : EndContext.

Abbreviation Deployment := (((Db * (R * C)) * P) * N)%type.

(** A handler that does not see the caches. *)
Definition beside_caches {A} (m : st (Db * N) A) : st Deployment A := λ w,
  let r := m (w.1.1.1, w.2) in (r.1, (((r.2.1, w.1.1.2), w.1.2), r.2.2)).

Definition serve_stream_request (r : stream_request) : st Deployment () :=
  match r with
  | CreateRequest me req =>
      let! _ := beside_caches (create_stream url_encode ops state cfg client me req) in st_ret ()
  | ResumeRequest me id =>
      let! _ := beside_caches (resume_stream ops cfg client me id) in st_ret ()
  | StopRequest me id => let! _ := beside_caches (end_stream url_encode ctx me id) in st_ret ()
  | LeaveRequest me id => let! _ := join_db (leave_stream me id) in st_ret ()
  | RotateRequest me id => let! _ := beside_caches (rotate_stream_key cfg client me id) in st_ret ()
  | JoinRequest now me id =>
      let! _ := join_stream ent_json ent_parse has_redis ops state cfg now me id in st_ret ()
  | SweepPass streaming sweeper =>
      let! _ := beside_caches (run_stream_sweep url_encode streaming ctx sweeper) in st_ret ()
  end.

Definition serve_stream_requests (rs : list stream_request) : st Deployment () :=
  st_fold (λ _ r, serve_stream_request r) rs ().

Lemma beside_keeps {A} (m : st (Db * N) A) :
  hoare (tables_in media_ok) m (λ _, tables_in media_ok) →
  hoare (join_tables media_ok) (let! _ := beside_caches m in st_ret ()) (λ _, join_tables media_ok).
Proof. intros Hm w Hw. exact (Hm (w.1.1.1, w.2) Hw). Qed.

Lemma calm_keeps_ok {A} (m : st (Db * N) A) :
  st_rel (tables_move calm) m → hoare (tables_in media_ok) m (λ _, tables_in media_ok).
Proof. intros Hm w Hw. eapply calm_ok; [apply (Hm w)|exact Hw]. Qed.

Lemma run_stream_sweep_calm streaming sweeper :
  st_rel (tables_move calm) (run_stream_sweep url_encode streaming ctx sweeper).
Proof.
  unfold run_stream_sweep, sweep_tick, run_once, list_all_active_streams, sweep_stream, past_cap,
    lookup_room, auto_end_stream, end_and_finalise_stream.
  repeat first [ eapply st_rel_weaken; [|apply end_moves_tables]; intros ? ?; apply end_moves_calm
    | calm_step ].
Qed.

Lemma serve_stream_request_ok r :
  hoare (join_tables media_ok) (serve_stream_request r) (λ _, join_tables media_ok).
Proof.
  destruct r; cbn [serve_stream_request].
  - apply beside_keeps, create_stream_ok.
  - apply beside_keeps, calm_keeps_ok, resume_stream_calm.
  - apply beside_keeps, calm_keeps_ok, end_stream_calm.
  - apply (hoare_bind _ _ (λ _, join_tables media_ok)); [|intros; by apply hoare_ret].
    apply join_db_keeps, leave_stream_ok.
  - apply beside_keeps, calm_keeps_ok, rotate_stream_key_calm.
  - apply (hoare_bind _ _ (λ _, join_tables media_ok)); [|intros; by apply hoare_ret].
    apply join_stream_ok.
  - apply beside_keeps, calm_keeps_ok, run_stream_sweep_calm.
Qed.

(** C9. Whatever streams are created, resumed, stopped, left, joined, re-keyed and swept, in
    any order, whatever statements fail and whatever the homeserver, the SFU and the switch
    answer: a room has at most one active stream, a stream has no more participants present
    than its room allows (its host apart), a user has one seat in a stream, and every
    stream and participant refers to a row that exists. Requests are served one after
    another. *)
Theorem stream_tables_stay_ok (rs : list stream_request) (w : Deployment) :
  media_ok (db_tables w.1.1.1) →
  media_ok (db_tables (serve_stream_requests rs w).2.1.1.1).
Proof.
  revert w. unfold serve_stream_requests. induction rs as [|r rs IH]; intros w Hw; [done|].
  cbn [st_fold]. unfold st_bind. pose proof (serve_stream_request_ok r w Hw) as Hr.
  destruct (serve_stream_request r w) as [[] w1]. by apply IH.
Qed.
End history.

Lemma no_tables_ok : media_ok no_tables.
Proof.
  split; try done.
  - intros r [room Hr]. vm_compute in Hr. discriminate.
  - intros p Hp. inversion Hp.
  - constructor.
  - intros x y r (row & Hr & _). vm_compute in Hr. discriminate.
Qed.

(** ** A deployment *)
Module HistoryDemo.
(** The ids are counted. *)
Definition http : Http EndDemo.net := {|
  http_send := http_send (Http := EndDemo.http); lookup_host := lookup_host (Http := EndDemo.http);
  new_v4 := let! _ := EndDemo.log "id" in λ n, ("id" +:+ pretty (Z.of_nat (length n.2)), n);
  status_text _ := ""; shape_error _ := ""; hash_order l := l |}.
#[local] Existing Instances http EndDemo.clock EndDemo.sfu EndDemo.switch.
#[local] Instance ent_cache :
  TtlCache (gmap (string * string) (option Entitlement * DateTime)) (string * string)
    (option Entitlement) := map_cache L1_TTL.
#[local] Instance perm_cache :
  TtlCache (gmap (string * string) (TierPermissions * DateTime)) (string * string)
    TierPermissions := map_cache PERMISSIONS_TTL.

Definition services : StreamServices EndDemo.net := {|
  create_room r := let! _ := EndDemo.log "room" in
    st_ret (Ok {| so_sfu_room_id := cr_name r; so_name := cr_name r; so_num_participants := 0 |});
  generate_token _ _ _ := st_ret (Ok {| tk_token := "token"; tk_url := "wss://sfu" |});
  random_key := st_ret ("key", "id");
  spawn_hls_egress _ _ := st_ret (); spawn_livekit_source _ _ := st_ret () |}.
#[local] Existing Instance services.

Definition ops : TokenOps := {|
  claims_json _ := ""; base64url s := s; hmac_hex _ _ := "" |}.
Definition cfg : ClientConfig := {|
  cl_video := {| vg_max_bitrate := 1; vg_max_resolution_width := 1; vg_max_resolution_height := 1;
    vg_max_frame_rate := 1; vg_simulcast_enabled := false |};
  cl_e2ee := {| ec_enabled := false; ec_required := false; ec_algorithm := "a";
    ec_key_rotation_interval_secs := 0 |};
  cl_public_url := None; cl_matrix := mk_matrix (ec_marker EndDemo.ctx);
  cl_federation_enabled := false; cl_s3 := false; cl_switch_legacy_lk_source := false;
  cl_proxy := {| px_switch_pool := false; px_proxy_viewers := false; px_switch_auth_secret := "" |} |}.
Definition start (me : string) : stream_request := CreateRequest me {|
  cq_room_id := "!r:x"; cq_media_type := "video"; cq_title := None; cq_e2ee := false;
  cq_min_tier := None; cq_min_tier_level := None |}.
Definition fresh : (Db * (gmap string (string * DateTime) *
    gmap (string * string) (option Entitlement * DateTime))) *
    gmap (string * string) (TierPermissions * DateTime) * EndDemo.net :=
  (healthy no_tables 0, (∅, ∅), ∅, (0, [])).
Definition served (rs : list stream_request) :=
  (serve_stream_requests id print_value parse_value false ops ex_state cfg
    (mk_hs_client (ec_marker EndDemo.ctx)) EndDemo.ctx rs fresh).2.
Definition statuses (t : Tables) : list (string * string) :=
  (λ kv, (kv.1, sr_status kv.2)) <$> map_to_list (t_streams t).
End HistoryDemo.
#[local] Existing Instances HistoryDemo.http EndDemo.clock EndDemo.sfu EndDemo.switch
  HistoryDemo.services HistoryDemo.ent_cache HistoryDemo.perm_cache.

(** A second stream in the room is refused while the first is on, and a viewer is seated. *)
Definition played : list stream_request :=
  [HistoryDemo.start "@a:x"; HistoryDemo.start "@b:x"; JoinRequest 5 "@b:x" "id3"].

Example one_stream_two_seats :
  let t := db_tables (HistoryDemo.served played).1.1.1 in
  HistoryDemo.statuses t = [("id3", "active")] ∧ seats "id3" t = 2.
Proof. by vm_compute. Qed.

Lemma stream_tables_stay_ok_witness : media_ok (db_tables (HistoryDemo.served played).1.1.1).
Proof. apply stream_tables_stay_ok. exact no_tables_ok. Defined.

(** The check for an active stream and the insert are two statements, and no index forbids
    a second active row: two requests that both check before either inserts both start. *)
Example concurrent_creates_both_start :
  let db := healthy (set_api (set_rooms {[ 1 := {| rm_matrix_room_id := "!r:x";
    rm_max_participants := 50 |} ]} no_api) no_tables) 0 in
  let a := get_active_stream 1 db in
  let b := get_active_stream 1 a.2 in
  let insert id := StreamsDb.create_stream id 1 "@h:x" None "video" None None in
  let db := (insert "s2" (insert "s1" b.2).2).2 in
  a.1 = Ok None ∧ b.1 = Ok None ∧ ¬ media_ok (db_tables db).
Proof.
  split; [by vm_compute|]. split; [by vm_compute|]. intros Hok.
  assert (Hs : "s1" = "s2") by (apply (mo_one _ Hok _ _ 1); eexists; (split; [by vm_compute|done])).
  discriminate.
Qed.
