(* ===== verification/RecordingsApi.v ===== *)
(** * RecordingsApi: recording a broadcast, and watching recordings

    [mm-api/src/client.rs]: starting, pausing and stopping a recording, the watchdog of a
    LiveKit recording, and the endpoints that list, show and delete recordings. The media
    switch, the SFU, the file system and the advertising engine are classes; chrono's
    RFC 3339 printer is a parameter. *)
From S2P Require Import SwitchPool Census.
From S2P Require Import Prelude ApiSchema Json Schema Errors MatrixClient MatrixEvents.
From S2P Require Import Guards MoneyDb StreamsDb Donations Entitlement TierGate Feed Rooms.
From S2P Require Import StreamLifecycle StreamsApi.
Local Open Scope Z_scope.
Local Open Scope mm_scope.

Record LocalRecordingRequest : Type := {
  lr_room_name : string;
  lr_output_path : string;
  lr_audio_only : bool;
  lr_screen_share : bool
}.

(** [AdDecision::ServeAd], the fields that are passed on. *)
Record ServedAd : Type := {
  ad_id : string;
  ad_title : string;
  ad_media_url : string;
  ad_duration_secs : Z;
  ad_click_through_url : option string;
  ad_impression_token : string;
  ad_challenge : string;
  ad_viewer_secret : string;
  ad_slot : string;
  ad_skip_after_secs : Z
}.

(** [ad_decide]: there is an engine, and what it decides for a recording's pre-roll, given
    the stream, the viewer and the host. *)
Class RecordingServices (N : Type) : Type := {
  record_start_or_resume : string → string → st N (result () string);
  record_pause : string → st N (result () string);
  start_local_recording : LocalRecordingRequest → st N (result EgressInfo string);
  spawn_watchdog : string → string → string → st N ();
  remove_file : string → st N (result () string);
  ad_decide : option (string → string → string → st N (option ServedAd))
}.

Record StartRecordingResponse : Type := {
  sr_recording_id : string;
  sr_egress_id : string;
  sr_recording_status : string;
  sr_segment : Z
}.

Record RecordingResponse : Type := {
  rr_id : string;
  rr_stream_id : string;
  rr_host_user_id : string;
  rr_media_type : string;
  rr_title : option string;
  rr_status : string;
  rr_duration_ms : option Z;
  rr_size_bytes : option Z;
  rr_playback_url : option string;
  rr_mxc_url : option string;
  rr_thumbnail_url : option string;
  rr_mp4_url : option string;
  rr_created_at : string;
  rr_min_tier_level : option Z;
  rr_ad_policy : option json_value
}.

Definition or_else {A} (a b : option A) : option A := match a with Some _ => a | None => b end.

Definition is_local_ready (r : RecordingRec) : bool :=
  String.eqb (rec_storage_backend r) "local" && String.eqb (rec_status r) "ready".

Definition playback_url (r : RecordingRec) (public_url : string) : option string :=
  or_else (rec_cdn_url r) (or_else (rec_mxc_url r)
    (if is_local_ready r
     then Some (public_url +:+ "/_mm/recordings/" +:+ last_segment (rec_storage_key r) "")
     else None)).

Definition thumbnail_url (r : RecordingRec) (public_url : string) : option string :=
  if is_local_ready r then
    let filename := last_segment (rec_storage_key r) "" in
    let stem := default filename (or_else (strip_suffix ".webm" filename)
                                          (strip_suffix ".mp4" filename)) in
    Some (public_url +:+ "/_mm/recordings/" +:+ stem +:+ ".jpg")
  else None.

Definition mp4_url (r : RecordingRec) (public_url : string) : option string :=
  if is_local_ready r && String.eqb (rec_mp4_status r) "ready" then
    let filename := last_segment (rec_storage_key r) "" in
    Some (public_url +:+ "/_mm/recordings/" +:+
      default filename (strip_suffix ".webm" filename) +:+ ".mp4")
  else None.

Definition from_recording (to_rfc3339 : DateTime → string) (r : RecordingRec)
    (public_url : string) : RecordingResponse := {|
  rr_id := rec_id r; rr_stream_id := rec_stream_id r; rr_host_user_id := rec_host_user_id r;
  rr_media_type := rec_media_type r; rr_title := rec_title r; rr_status := rec_status r;
  rr_duration_ms := rec_duration_ms r; rr_size_bytes := rec_size_bytes r;
  rr_playback_url := playback_url r public_url; rr_mxc_url := rec_mxc_url r;
  rr_thumbnail_url := thumbnail_url r public_url; rr_mp4_url := mp4_url r public_url;
  rr_created_at := to_rfc3339 (rec_created_at r); rr_min_tier_level := rec_min_tier_level r;
  rr_ad_policy := None |}.

Definition with_urls (playback mxc mp4 : option string) (ads : option json_value)
    (r : RecordingResponse) : RecordingResponse := {|
  rr_id := rr_id r; rr_stream_id := rr_stream_id r; rr_host_user_id := rr_host_user_id r;
  rr_media_type := rr_media_type r; rr_title := rr_title r; rr_status := rr_status r;
  rr_duration_ms := rr_duration_ms r; rr_size_bytes := rr_size_bytes r;
  rr_playback_url := playback; rr_mxc_url := mxc; rr_thumbnail_url := rr_thumbnail_url r;
  rr_mp4_url := mp4; rr_created_at := rr_created_at r;
  rr_min_tier_level := rr_min_tier_level r; rr_ad_policy := ads |}.

Definition withhold_url (r : RecordingResponse) : RecordingResponse :=
  with_urls None None None (rr_ad_policy r) r.

Definition DEFAULT_PAGE_LIMIT : Z := 20.
Definition MAX_PAGE_LIMIT : Z := 100.
Definition clamp_limit (limit : option Z) : Z :=
  Z.max 1 (Z.min MAX_PAGE_LIMIT (default DEFAULT_PAGE_LIMIT limit)).

(** ** Statements of the handlers *)
(** SELECT COUNT of a stream's recordings; a failed query counts as none. *)
Definition next_segment (has_pool : bool) (stream_id : string) : st Db Z :=
  if has_pool then
    let! r := exec (reading (λ t, Z.of_nat (length
      (recordings_where (λ r, String.eqb (rec_stream_id r) stream_id) t)))) in
    st_ret (match r with Ok n => n | Err _ => 0 end + 1)
  else st_ret 1.

Definition open_recording (has_pool : bool) (stream_id : string) :
    st Db (result (option RecordingRec) MMError.t) :=
  if has_pool
  then asking (reading (λ t, head (newest 1 (recordings_where (open_of stream_id) t))))
  else st_ret (Ok None).

(** INSERT of a recording that starts now. *)
Definition insert_started (row : StreamRec) (stream_id recording_id media_type output_path mime title
    egress_id : string) : stmt () := λ now,
  insert_recording {|
    rec_id := recording_id; rec_stream_id := stream_id; rec_room_id := sr_room_id row;
    rec_host_user_id := sr_host_user_id row; rec_status := "recording";
    rec_media_type := media_type; rec_storage_key := output_path; rec_storage_backend := "local";
    rec_mxc_url := None; rec_cdn_url := None; rec_duration_ms := None; rec_size_bytes := None;
    rec_mime_type := mime; rec_sha256 := None; rec_title := Some title;
    rec_egress_id := Some egress_id; rec_created_at := now; rec_completed_at := None;
    rec_min_tier_level := sr_min_tier_level row; rec_hidden := false; rec_hidden_at := None;
    rec_mp4_status := "none"; rec_mp4_key := None |} now.

Definition by_egress (egress_id : string) (r : RecordingRec) : bool :=
  bool_decide (rec_egress_id r = Some egress_id).

Definition completed (now : DateTime) (r : RecordingRec) : RecordingRec :=
  with_recording "ready" (Some now) (rec_hidden r) (rec_hidden_at r) (rec_mp4_status r) r.

Definition recording_min_tier (host : string) : st Db Z :=
  let! r := exec (reading (λ t, m_defaults (media_of t) !! host)) in
  st_ret (match r with Ok (Some d) => df_recording_min_tier d | _ => 0 end).

Definition creator_ads_enabled (has_pool : bool) (host : string) : st Db bool :=
  if has_pool then
    let! r := exec (reading (λ t, m_defaults (media_of t) !! host)) in
    st_ret (match r with Ok (Some d) => df_ads_enabled d | _ => true end)
  else st_ret true.

(** [query_scalar] of a column that is NULL. *)
Definition unexpected_null : MMError.t := MMError.Database
  "error occurred while decoding column 0: unexpected null; try decoding as an `Option`".

Definition active_egress (has_pool : bool) (stream_id : string) :
    st Db (result (option string) MMError.t) :=
  if has_pool then
    let? r := asking (reading (λ t, head (newest 1 (recordings_where (λ r,
      String.eqb (rec_stream_id r) stream_id && String.eqb (rec_status r) "recording") t)))) in
    st_ret (match r with
    | None => Ok None
    | Some r => match rec_egress_id r with Some e => Ok (Some e) | None => Err unexpected_null end
    end)
  else st_ret (Ok None).

Section recording.
Context {N : Type} `{Http N, Clock N, Sfu N, EndSwitch N, RecordingServices N}.
Variable has_pool : bool.
Variable has_switch : bool.

Abbreviation World := (Db * N)%type.

Definition RETRY_DELAY : Z := 250 * 1000000.

(** The switch does not know the source until it is published: a few more attempts. *)
Fixpoint record_with_retry (more : nat) (source recording_id : string) : st N (result () string) :=
  let! r := record_start_or_resume source recording_id in
  match r with
  | Ok _ => st_ret (Ok ())
  | Err e =>
      match more with
      | S more' =>
          if contains "404" e
          then let! _ := sleep RETRY_DELAY in record_with_retry more' source recording_id
          else st_ret (Err e)
      | O => st_ret (Err e)
      end
  end.

Definition recording_title (row : StreamRec) : string :=
  "Recording: " +:+ default "Untitled" (sr_title row).

(** The path through the switch; [None] when the source is not there. *)
Definition switch_recording (id : string) (row : StreamRec) :
    st World (result (option StartRecordingResponse) MMError.t) :=
  if negb has_switch then st_ret (Ok None) else
  let? existing := on_db (open_recording has_pool id) in
  let source := switch_source_id id in
  let recording_id := match existing with Some r => rec_id r | None => id +:+ "_rec1" end in
  let output_path := match existing with
                     | Some r => rec_storage_key r
                     | None => "/data/recordings/" +:+ recording_id +:+ ".webm"
                     end in
  let! started := on_services (record_with_retry 4 source recording_id) in
  match started with
  | Ok _ =>
      let audio := String.eqb (sr_media_type row) "audio" in
      let? _ := (if has_pool then
          match existing with
          | Some _ =>
              let! _ := on_db (exec (update_recordings (by_id recording_id)
                (λ _, keep_but_status "recording"))) in st_ret (Ok ())
          | None =>
              on_db (asking (insert_started row id recording_id
                (if audio then "audio" else "video") output_path
                (if audio then "audio/webm" else "video/webm") (recording_title row)
                ("mm-switch:" +:+ source)))
          end
        else st_ret (Ok ())) in
      st_ret (Ok (Some {| sr_recording_id := recording_id; sr_egress_id := "mm-switch:" +:+ source;
        sr_recording_status := "recording"; sr_segment := 1 |}))
  | Err e =>
      if contains "404" e then st_ret (Ok None)
      else st_ret (Err (MMError.Internal ("mm-switch record failed: " +:+ e)))
  end.

(** The path through LiveKit's egress. *)
Definition livekit_recording (id : string) (row : StreamRec) (segment : Z) :
    st World (result StartRecordingResponse MMError.t) :=
  let sfu_room_name := default id (sr_sfu_room_id row) in
  let audio := String.eqb (sr_media_type row) "audio" in
  let recording_id := id +:+ "_seg" +:+ pretty segment in
  let output_path := "/data/recordings/" +:+ recording_id +:+ ".mp4" in
  let! egress := on_services (start_local_recording {| lr_room_name := sfu_room_name;
    lr_output_path := output_path; lr_audio_only := audio; lr_screen_share := true |}) in
  match egress with
  | Err e => st_ret (Err (MMError.Internal ("egress start failed: " +:+ e)))
  | Ok egress =>
      let title := if segment =? 1 then recording_title row
                   else recording_title row +:+ " (part " +:+ pretty segment +:+ ")" in
      let? _ := (if has_pool then
          let? _ := on_db (asking (insert_started row id recording_id
            (if audio then "audio" else "video") output_path
            (if audio then "audio/ogg" else "video/mp4") title (ei_egress_id egress))) in
          let! tier := on_db (recording_min_tier (sr_host_user_id row)) in
          let! _ := (if 0 <? tier then on_db (let! _ := create_content_gate "recording" recording_id
              (sr_host_user_id row) tier 120 in st_ret ()) else st_ret ()) in
          st_ret (Ok ())
        else st_ret (Ok ())) in
      let! _ := on_services (spawn_watchdog id (ei_egress_id egress) sfu_room_name) in
      st_ret (Ok {| sr_recording_id := recording_id; sr_egress_id := ei_egress_id egress;
        sr_recording_status := "recording"; sr_segment := segment |})
  end.

(** [POST /streams/{id}/record]. *)
Definition start_recording (me id : string) : st World (result StartRecordingResponse MMError.t) :=
  let? row := on_db (MoneyDb.get_stream id) in
  match row with
  | None => st_ret not_found
  | Some row =>
      if negb (String.eqb (sr_host_user_id row) me)
      then st_ret (Err (MMError.api ErrorCode.Forbidden "only the host can record"))
      else if negb (String.eqb (sr_status row) "active")
      then st_ret (Err (MMError.api ErrorCode.InvalidAmount "stream is not active"))
      else
      let! refusal := on_db (recording_refusal has_pool id) in
      match refusal with
      | Some m => st_ret (Err (MMError.api ErrorCode.BalanceTooLow m))
      | None =>
          let! segment := on_db (next_segment has_pool id) in
          let? started := switch_recording id row in
          match started with
          | Some r => st_ret (Ok r)
          | None => livekit_recording id row segment
          end
      end
  end.

(** [DELETE /streams/{id}/record]: the egress that was stopped, if any. *)
Definition stop_recording (me id : string) : st World (result (option string) MMError.t) :=
  let? row := on_db (MoneyDb.get_stream id) in
  match row with
  | None => st_ret not_found
  | Some row =>
      if negb (String.eqb (sr_host_user_id row) me)
      then st_ret (Err (MMError.api ErrorCode.Forbidden "only the host can stop recording"))
      else
      let? egress := on_db (active_egress has_pool id) in
      match egress with
      | None => st_ret (Ok None)
      | Some e =>
          let? _ := match strip_prefix "mm-switch:" e with
            | Some source =>
                let! _ := when has_switch
                  (let! _ := on_services (record_pause source) in st_ret ()) in
                if has_pool then on_db (run_recordings (update_recordings (by_egress e)
                  (λ _, keep_but_status "paused")))
                else st_ret (Ok ())
            | None =>
                let! _ := on_services (stop_egress e) in
                if has_pool then on_db (run_recordings (update_recordings (by_egress e) completed))
                else st_ret (Ok ())
            end in
          st_ret (Ok (Some e))
      end
  end.

(** ** The watchdog *)
Definition CHECK_INTERVAL : Z := seconds 30.
Definition INACTIVITY_TIMEOUT : Z := seconds 120.

Definition watchdog_stop_recording (egress_id : string) : st World () :=
  let! _ := on_services (stop_egress egress_id) in
  when has_pool (let! _ := on_db (exec (update_recordings (λ r, by_egress egress_id r &&
    String.eqb (rec_status r) "recording") completed)) in st_ret ()).

Definition still_recording (egress_id : string) : st Db bool :=
  if has_pool then
    let! r := exec (reading (λ t, recordings_where (λ r, by_egress egress_id r &&
      String.eqb (rec_status r) "recording") t)) in
    st_ret (match r with Ok l => negb (bool_decide (l = [])) | Err _ => false end)
  else st_ret false.

Definition stream_active (stream_id : string) : st Db bool :=
  let! r := MoneyDb.get_stream stream_id in
  st_ret (match r with Ok (Some row) => String.eqb (sr_status row) "active" | _ => false end).

(** One round; [inl] when the watchdog is done. *)
Definition watchdog_round (stream_id egress_id sfu_room : string) (empty_since : option Z) :
    st World (() + option Z) :=
  let! _ := on_services (sleep CHECK_INTERVAL) in
  let! on := on_db (still_recording egress_id) in
  if negb on then st_ret (inl ())
  else
  let! active := on_db (stream_active stream_id) in
  if negb active
  then let! _ := watchdog_stop_recording egress_id in st_ret (inl ())
  else
  let! r := on_services (sfu_list_participants sfu_room) in
  if match r with Ok l => negb (Nat.eqb (length l) 0) | Err _ => true end
  then st_ret (inr None)
  else
  let! since := match empty_since with
                | Some s => st_ret s
                | None => on_services instant_now
                end in
  let! now := on_services instant_now in
  if INACTIVITY_TIMEOUT <=? Z.max 0 (now - since)
  then let! _ := watchdog_stop_recording egress_id in st_ret (inl ())
  else st_ret (inr (Some since)).

(** A number of rounds. *)
Fixpoint recording_watchdog (rounds : nat) (stream_id egress_id sfu_room : string)
    (empty_since : option Z) : st World (() + option Z) :=
  match rounds with
  | O => st_ret (inr empty_since)
  | S rounds' =>
      let! r := watchdog_round stream_id egress_id sfu_room empty_since in
      match r with
      | inl _ => st_ret (inl ())
      | inr since => recording_watchdog rounds' stream_id egress_id sfu_room since
      end
  end.

(** ** Deleting *)
Definition delete_recording_storage (r : RecordingRec) : st World () :=
  if String.eqb (rec_storage_backend r) "local"
  then let! _ := on_services (remove_file (rec_storage_key r)) in st_ret ()
  else st_ret ().

Definition recording_not_found {A} : result A MMError.t :=
  Err (MMError.api ErrorCode.NotFound "recording not found").

(** [DELETE /recordings/{recording_id}]. *)
Definition delete_recording (me id : string) : st World (result () MMError.t) :=
  let? r := on_db (StreamsDb.get_recording id) in
  match r with
  | None => st_ret recording_not_found
  | Some r =>
      if String.eqb (rec_status r) (RecordingStatus.as_str RecordingStatus.Deleted)
      then st_ret recording_not_found
      else if negb (String.eqb (rec_host_user_id r) me)
      then st_ret (Err (MMError.api ErrorCode.Forbidden "only the host can delete this recording"))
      else
      let! _ := delete_recording_storage r in
      on_db (update_recording_status (rec_id r) RecordingStatus.Deleted)
  end.
End recording.

Section watching.
Context {C R P : Type} `{TtlCache C (string * string) (option Entitlement), Redis R}.
Context `{TtlCache P (string * string) TierPermissions}.
Context {N : Type} `{RecordingServices N}.
Variable ent_json : option Entitlement → string.
Variable ent_parse : string → option (option Entitlement).
Variable has_redis : bool.
Variable to_rfc3339 : DateTime → string.
Variable state : ApiState.
Variable public_url : option string.

Abbreviation ViewWorld := ((((Db * (R * C)) * P) * N))%type.

Definition shown (now : DateTime) (me matrix_room_id : string) (r : RecordingRec) :
    st ViewWorld RecordingResponse :=
  let! entitled := st_fst (is_entitled_to_recording ent_json ent_parse has_redis state now me
                             matrix_room_id r) in
  let resp := from_recording to_rfc3339 r (default "" public_url) in
  st_ret (if entitled : bool then resp else withhold_url resp).

(** A [for] loop that collects. *)
Fixpoint st_map {S A B} (f : A → st S B) (l : list A) : st S (list B) :=
  match l with
  | [] => st_ret []
  | a :: l' => let! b := f a in let! bs := st_map f l' in st_ret (b :: bs)
  end.

(** [GET /rooms/{room_id}/recordings]: the page, and whether there are more. *)
Definition list_room_recordings (now : DateTime) (me room_id : string) (lim : option Z)
    (before_id : option string) : st ViewWorld (result (list RecordingResponse * bool) MMError.t) :=
  let? room := join_db (get_room_by_matrix_id room_id) in
  match room with
  | None => st_ret (Err (MMError.api ErrorCode.NotFound "room not found"))
  | Some room =>
      let n := clamp_limit lim in
      let? rows := join_db (StreamsDb.list_room_recordings room.1 (n + 1) before_id) in
      let! page := st_map (shown now me (rm_matrix_room_id room.2)) (limit n rows) in
      st_ret (Ok (page, n <? Z.of_nat (length rows)))
  end.

(** The pre-roll, as it is sent. *)
Definition ad_policy (ad : ServedAd) : json_value := JObj [
  ("pre_roll", JObj [
    ("ad_id", JStr (ad_id ad)); ("title", JStr (ad_title ad)); ("media_url", JStr (ad_media_url ad));
    ("duration_secs", jint (ad_duration_secs ad));
    ("click_through_url", match ad_click_through_url ad with Some u => JStr u | None => JNull end);
    ("impression_token", JStr (ad_impression_token ad)); ("challenge", JStr (ad_challenge ad));
    ("viewer_secret", JStr (ad_viewer_secret ad)); ("slot", JStr (ad_slot ad));
    ("skip_after_secs", jint (ad_skip_after_secs ad))]);
  ("mid_rolls", JArr []); ("post_roll", JNull)].

(** [GET /recordings/{recording_id}]. *)
Definition get_recording (now : DateTime) (me id : string) :
    st ViewWorld (result RecordingResponse MMError.t) :=
  let? r := join_db (StreamsDb.get_recording id) in
  match r with
  | None => st_ret recording_not_found
  | Some r =>
      if String.eqb (rec_status r) (RecordingStatus.as_str RecordingStatus.Deleted)
      then st_ret recording_not_found
      else
      let? _ := st_fst (recording_gate ent_json ent_parse has_redis state now me r) in
      let resp := from_recording to_rfc3339 r (default "" public_url) in
      let! ads := join_db (creator_ads_enabled (as_has_pg_pool state) (rec_host_user_id r)) in
      match ad_decide, ads with
      | Some decide, true =>
          let! ad := st_snd (decide (rec_stream_id r) me (rec_host_user_id r)) in
          st_ret (Ok (with_urls (rr_playback_url resp) (rr_mxc_url resp) (rr_mp4_url resp)
            (ad_policy <$> ad) resp))
      | _, _ => st_ret (Ok resp)
      end
  end.
End watching.
