(* ===== verification/RecordingsHistory.v ===== *)
(** * RecordingsHistory: recordings over any sequence of requests

    An invariant of mm_recordings that every handler of streams and recordings keeps:
    recordings have distinct ids, and each belongs to an existing stream whose host, room
    and minimum tier it carries, so that a recording is never open to more viewers than
    the broadcast was. *)
From S2P Require Import LadderDb SwitchPool Census.
From S2P Require Import Prelude ApiSchema Schema Errors MatrixClient MatrixEvents.
From S2P Require Import Guards MoneyDb StreamsDb Donations Entitlement TierGate Feed Rooms.
From S2P Require Import StreamLifecycle StreamsApi RecordingsApi StreamsHistory.
Local Open Scope Z_scope.
Local Open Scope mm_scope.

(** ** The invariant *)
Definition same_origin (r : RecordingRec) (row : StreamRec) : Prop :=
  rec_min_tier_level r = sr_min_tier_level row ∧ rec_host_user_id r = sr_host_user_id row ∧
  rec_room_id r = sr_room_id row.

Record vod_ok (t : Tables) : Prop := {
  vo_ids : NoDup (rec_id <$> m_recordings (media_of t));
  vo_origin r : r ∈ m_recordings (media_of t) →
    ∃ row, t_streams t !! rec_stream_id r = Some row ∧ same_origin r row
}.

Abbreviation vod := (keeps vod_ok).

(** What a change of rows must keep. *)
Definition same_gate (a b : StreamRec) : Prop :=
  sr_min_tier_level b = sr_min_tier_level a ∧ sr_host_user_id b = sr_host_user_id a ∧
  sr_room_id b = sr_room_id a.

Definition same_recording (a b : RecordingRec) : Prop :=
  rec_id b = rec_id a ∧ rec_stream_id b = rec_stream_id a ∧
  rec_min_tier_level b = rec_min_tier_level a ∧ rec_host_user_id b = rec_host_user_id a ∧
  rec_room_id b = rec_room_id a ∧ (rec_hidden a = true → rec_hidden b = true).

#[export] Instance same_recording_refl : Reflexive same_recording.
Proof. done. Qed.

(** Every stream stays with its gate, the recordings are the same ones, none is shown that
    was hidden, and moderation is left alone. *)
Record rows_move (t t' : Tables) : Prop := {
  rm_streams x row : t_streams t !! x = Some row →
    ∃ row', t_streams t' !! x = Some row' ∧ same_gate row row';
  rm_recordings : Forall2 same_recording (m_recordings (media_of t)) (m_recordings (media_of t'));
  rm_moderation : a_moderation (t_api t') = a_moderation (t_api t)
}.

(** A relation that holds across such moves holds across every handler that starts no
    recording. *)
Class MediaRel (R : Tables → Tables → Prop) : Prop := {
  media_rel_preorder :: PreOrder R;
  media_rel_move t t' : rows_move t t' → R t t'
}.

#[export] Instance vod_media_rel : MediaRel vod.
Proof.
  split; [apply _|]. intros t t' [Hs Hr _] [Hi Ho]. split.
  - replace (rec_id <$> m_recordings (media_of t')) with (rec_id <$> m_recordings (media_of t)); [done|].
    apply list_eq_Forall2, Forall2_fmap. eapply Forall2_impl; [exact Hr|]. by intros a b (-> & _).
  - intros b Hb. apply list_elem_of_lookup in Hb as [i Hi'].
    destruct (Forall2_lookup_r _ _ _ _ _ Hr Hi') as (a & Ha & E1 & E2 & E3 & E4 & E5 & _).
    destruct (Ho a) as (row & Hrow & H1 & H2 & H3); [by eapply list_elem_of_lookup_2|].
    destruct (Hs _ _ Hrow) as (row' & Hrow' & G1 & G2 & G3). exists row'.
    rewrite E2. split; [done|]. unfold same_origin. by rewrite E3, E4, E5, G1, G2, G3.
Qed.

Lemma same_recordings_refl l : Forall2 same_recording l l.
Proof. apply Forall_Forall2_diag, Forall_forall. done. Qed.

(** ** Statements *)
Section statements.
Context (R : Tables → Tables → Prop) `{!MediaRel R}.

Lemma beside_media_rows t t' :
  t_streams t' = t_streams t → m_recordings (media_of t') = m_recordings (media_of t) →
  a_moderation (t_api t') = a_moderation (t_api t) → R t t'.
Proof.
  intros Hs Hr Hm. apply media_rel_move. split; [|rewrite Hr; apply same_recordings_refl|done].
  intros x row Hx. exists row. by rewrite Hs.
Qed.

Lemma update_stream_rows id p f :
  (∀ now s, same_gate s (f now s)) → stmt_rel R (update_stream id p f).
Proof.
  intros Hf now t a t'. unfold update_stream.
  destruct (t_streams t !! id) as [s|] eqn:E; [|by intros [= _ <-]].
  destruct (p s); [|by intros [= _ <-]]. intros [= _ <-].
  apply media_rel_move. split; [|apply same_recordings_refl|done]. intros x row Hx. cbn.
  destruct (decide (x = id)) as [->|Hne].
  - rewrite lookup_insert_eq. rewrite E in Hx. injection Hx as <-. by eexists.
  - rewrite lookup_insert_ne by done. by exists row.
Qed.

Lemma run_update_rows id p f :
  (∀ now s, same_gate s (f now s)) → st_rel (on_tables R) (run_update (update_stream id p f)).
Proof.
  intros Hf. unfold run_update. st_steps. apply st_rel_asking; [apply _|]. by apply update_stream_rows.
Qed.

Lemma update_recordings_rows p f :
  (∀ now r, same_recording r (f now r)) → stmt_rel R (update_recordings p f).
Proof.
  intros Hf now t a t' [= _ <-]. apply media_rel_move. split; [intros x row Hx; by exists row| |done].
  cbn. rewrite Forall2_fmap_r. apply Forall_Forall2_diag, Forall_forall. intros r _.
  change (same_recording r (if p r then f now r else r)). by destruct (p r).
Qed.

Lemma set_status_rows id s : stmt_rel R (set_status id s).
Proof.
  intros now t a t'. unfold set_status. destruct (_ && _); [done|]. by apply update_recordings_rows.
Qed.

Lemma run_recordings_rows s : stmt_rel R s → st_rel (on_tables R) (run_recordings s).
Proof. intros Hs. unfold run_recordings. st_steps. Qed.

Lemma insert_stream_rows id room host title mt sfu tier :
  stmt_rel R (insert_stream id room host title mt sfu tier).
Proof.
  intros now t a t'. unfold insert_stream. destruct (t_streams t !! id) eqn:E; [done|].
  destruct (a_rooms _ !! room); [|done]. intros [= _ <-].
  apply media_rel_move. split; [|apply same_recordings_refl|done]. intros x row Hx. exists row.
  split; [|done]. cbn. rewrite lookup_insert_ne; [done|]. by intros ->; rewrite E in Hx.
Qed.

Lemma upsert_room_rows m : stmt_rel R (upsert_room m).
Proof.
  intros now t a t'. unfold upsert_room. repeat case_match; intros [= _ <-]; by apply beside_media_rows.
Qed.

Lemma upsert_participant_rows id sid user role sfu : stmt_rel R (upsert_participant id sid user role sfu).
Proof.
  intros now t a t'. unfold upsert_participant. repeat case_match; try done; intros [= _ <-];
    by apply beside_media_rows.
Qed.

Lemma upsert_gate_rows ct ci creator m p : stmt_rel R (upsert_gate ct ci creator m p).
Proof.
  intros now t a t'. unfold upsert_gate, on_api.
  destruct (gate_check ct m); [|done]. unfold take_uuid.
  destruct (a_uuids (t_api t)); intros [= _ <-]; by apply beside_media_rows.
Qed.

Lemma upsert_key_rows id g k : stmt_rel R (upsert_key id g k).
Proof. intros now t a t' [= _ <-]. by apply beside_media_rows. Qed.

Lemma end_moves_rows id w t t' : end_moves id w t t' → R t t'.
Proof.
  intros [(m & l & Et) Hs Hr]. apply media_rel_move. split; [| |by rewrite Et].
  - intros x row Hx. specialize (Hs x). rewrite Hx in Hs. inversion Hs as [a b Hab Ea Eb|]; subst.
    exists b. split; [done|]. destruct Hab as [<-|[_ [(? & ? & ? & ? & ? & ? & ->) _]]]; done.
  - eapply Forall2_impl; [exact Hr|]. intros a b [->|(_ & (? & ? & ? & ? & ? & ->) & Hh)]; [done|].
    repeat split. cbn in *. destruct Hh as [[_ ->]|(_ & _ & ->)]; [done|]. by intros ->.
Qed.

Lemma bump_rows id : stmt_rel R (bump_generation id).
Proof. intros now t a t' E. eapply end_moves_rows, (bump_generation_moves id false), E. Qed.

Lemma reading_rows {A} (f : Tables → A) :
  st_rel (on_tables R) (asking (reading f)) ∧ st_rel (on_tables R) (exec (reading f)).
Proof. split; [apply st_rel_asking|apply st_rel_exec]; apply _ || apply stmt_rel_reading; apply _. Qed.

Lemma sync_rows id : st_rel (on_tables R) (sync_participant_count id).
Proof. unfold sync_participant_count. st_steps. by apply run_update_rows. Qed.

Lemma add_participant_rows pid id me role sfu :
  st_rel (on_tables R) (add_participant pid id me role sfu).
Proof.
  unfold add_participant. st_steps; [apply st_rel_asking; [apply _|apply upsert_participant_rows]|apply sync_rows].
Qed.

Lemma set_key_rows id k g b a : st_rel (on_tables R) (set_stream_e2ee_key id k g b a).
Proof.
  unfold set_stream_e2ee_key. st_steps; (apply st_rel_asking; [apply _|]).
  - by apply update_stream_rows.
  - apply upsert_key_rows.
Qed.

Lemma remove_participant_rows sid pid : st_rel (on_tables R) (remove_participant sid pid).
Proof.
  unfold remove_participant. st_steps; [|apply sync_rows]. apply st_rel_asking; [apply _|].
  intros now t a t' [= _ <-]. by apply beside_media_rows.
Qed.

End statements.

#[export] Hint Resolve bump_rows upsert_key_rows upsert_gate_rows sync_rows set_key_rows upsert_room_rows
  insert_stream_rows add_participant_rows remove_participant_rows set_status_rows run_recordings_rows : mm.

(** The statements of a handler, and the handler. *)
Ltac db_rows_step := first
  [ apply reading_rows; apply _
  | apply run_update_rows; [apply _|done]
  | apply run_recordings_rows; [apply _|]; first
      [ apply set_status_rows; apply _ | apply update_recordings_rows; [apply _|done] ]
  | apply st_rel_asking; [apply _|]; eauto with mm typeclass_instances; fail
  | apply st_rel_exec; [apply _|]; apply update_recordings_rows; [apply _|done]
  | solve [eauto with mm typeclass_instances]
  | st_step ].

Ltac rows_step := first
  [ by apply on_services_moves; apply _ | by apply best_effort_moves; apply _
  | apply on_db_moves; [apply _|]; repeat db_rows_step
  | st_step ].

Section handlers.
Context {N : Type} `{Http N, Clock N, Sfu N, EndSwitch N, StreamServices N, RecordingServices N}.
Variable url_encode : string → string.
Variable ops : TokenOps.
Variable state : ApiState.
Variable cfg : ClientConfig.
Variable client : HomeserverClient.
Variable ctx : EndContext.

Variable R : Tables → Tables → Prop.
Context `{!MediaRel R}.

Abbreviation World := (Db * N)%type.

Lemma create_stream_rows me req :
  st_rel (tables_move R) (create_stream (N := N) url_encode ops state cfg client me req).
Proof.
  unfold create_stream, check_can_host, load_permissions, is_suspended, is_user_suspended, get_or_create_room,
    get_active_stream, start_in_room, StreamsDb.create_stream, effective_min_tier, default_min_tier,
    create_content_gate, new_key, publish_started, finish_start, publish_hint, when.
  repeat rows_step.
Qed.

Lemma resume_stream_rows me id : st_rel (tables_move R) (resume_stream (N := N) ops cfg client me id).
Proof.
  unfold resume_stream, republish_active_marker, next_generation, bump_stream_marker_generation,
    current_key, is_suspended, is_user_suspended, MoneyDb.get_stream, get_room, get_stream_e2ee_key,
    publish_hint, set_stream_state_event_id.
  repeat rows_step.
Qed.

Lemma rotate_stream_key_rows me id :
  st_rel (tables_move R) (rotate_stream_key (N := N) cfg client me id).
Proof.
  unfold rotate_stream_key, MoneyDb.get_stream, get_room, rotate_stream_e2ee_key. repeat rows_step.
Qed.

Lemma end_rows s release reason :
  st_rel (tables_move R) (end_and_finalise_stream_with_reason (N := N) url_encode ctx s release reason).
Proof. eapply st_rel_weaken; [|apply end_moves_tables]. intros ? ?. by apply end_moves_rows. Qed.

Lemma end_stream_rows me id : st_rel (tables_move R) (end_stream (N := N) url_encode ctx me id).
Proof.
  unfold end_stream, end_and_finalise_stream, MoneyDb.get_stream. repeat (apply end_rows || rows_step).
Qed.

Lemma run_stream_sweep_rows streaming sweeper :
  st_rel (tables_move R) (run_stream_sweep (N := N) url_encode streaming ctx sweeper).
Proof.
  unfold run_stream_sweep, sweep_tick, run_once, list_all_active_streams, sweep_stream, past_cap,
    lookup_room, auto_end_stream, end_and_finalise_stream.
  repeat (apply end_rows || rows_step).
Qed.

Lemma track_mp4_rows id : st_rel (tables_move R) (track_mp4_transcode (N := N) id).
Proof.
  unfold track_mp4_transcode. generalize MAX_POLLS. intros polls. induction polls as [|n IH];
    cbn [poll_mp4]; unfold mark_failed, update_recording, when; repeat (apply IH || rows_step).
Qed.

Lemma stop_recording_rows has_pool has_switch me id :
  st_rel (tables_move R) (stop_recording (N := N) has_pool has_switch me id).
Proof. unfold stop_recording, MoneyDb.get_stream, active_egress, when. repeat rows_step. Qed.

Lemma watchdog_rows has_pool rounds sid eid room since :
  st_rel (tables_move R) (recording_watchdog (N := N) has_pool rounds sid eid room since).
Proof.
  revert since. induction rounds as [|n IH]; intros since; cbn [recording_watchdog]; [by st_step|].
  unfold watchdog_round, watchdog_stop_recording, still_recording, stream_active, MoneyDb.get_stream, when.
  repeat (apply IH || rows_step).
Qed.

Lemma delete_recording_rows me id : st_rel (tables_move R) (delete_recording (N := N) me id).
Proof.
  unfold delete_recording, StreamsDb.get_recording, delete_recording_storage, update_recording_status.
  repeat rows_step.
Qed.
End handlers.

Lemma leave_stream_rows R `{!MediaRel R} me id : st_rel (on_tables R) (leave_stream me id).
Proof. unfold leave_stream, StreamsDb.list_participants. repeat db_rows_step. Qed.

(** ** Starting a recording *)
(** The stream is still the one the handler read. *)
Definition origin_ok (id : string) (row : StreamRec) (t : Tables) : Prop :=
  vod_ok t ∧ t_streams t !! id = Some row.

Lemma origin_beside id row t t' :
  t_streams t' = t_streams t → vod t t' → keeps (origin_ok id row) t t'.
Proof. intros Hs Hv [Hok Hrow]. split; [auto|]. by rewrite Hs. Qed.

Lemma insert_started_ok id row rid mt path mime title egress :
  stmt_rel (keeps (origin_ok id row)) (insert_started row id rid mt path mime title egress).
Proof.
  intros now t a t'. unfold insert_started, insert_recording, on_media, on_api. cbn [rec_status rec_id].
  destruct (negb _); [done|]. destruct (existsb (by_id rid) _) eqn:E; [done|].
  intros [= _ <-] [[Hi Ho] Hrow]. split; [split|done]; cbn.
  - rewrite fmap_app. apply NoDup_app. split; [done|]. split; [|apply NoDup_singleton].
    intros x Hx Hx'. apply list_elem_of_singleton in Hx'. cbn in Hx'. subst x.
    apply list_elem_of_fmap in Hx as (r & Hr & Hin). apply list_elem_of_In in Hin.
    apply not_true_iff_false in E. apply E, existsb_exists. exists r. split; [done|].
    unfold by_id. rewrite Hr. apply String.eqb_refl.
  - intros r Hr. apply elem_of_app in Hr as [Hr|Hr]; [by apply Ho|].
    apply list_elem_of_singleton in Hr. subst r. cbn. by exists row.
Qed.

Lemma update_recordings_origin id row p f :
  (∀ now r, same_recording r (f now r)) → stmt_rel (keeps (origin_ok id row)) (update_recordings p f).
Proof.
  intros Hf now t a t' E. apply origin_beside; [by injection E as _ <-|].
  by eapply (update_recordings_rows vod).
Qed.

Lemma upsert_gate_origin id row ct ci creator m p :
  stmt_rel (keeps (origin_ok id row)) (upsert_gate ct ci creator m p).
Proof.
  intros now t a t' E. apply origin_beside; [|by eapply (upsert_gate_rows vod)].
  revert E. unfold upsert_gate, on_api. destruct (gate_check ct m); [|done]. unfold take_uuid.
  destruct (a_uuids (t_api t)); by intros [= _ <-].
Qed.

Lemma reading_origin {A} id row (f : Tables → A) :
  st_rel (on_tables (keeps (origin_ok id row))) (asking (reading f)) ∧
  st_rel (on_tables (keeps (origin_ok id row))) (exec (reading f)).
Proof. split; [apply st_rel_asking|apply st_rel_exec]; apply _ || apply stmt_rel_reading; apply _. Qed.

Ltac origin_step := first
  [ by apply on_services_moves; apply _
  | apply on_db_moves; [apply _|]
  | apply reading_origin
  | apply st_rel_asking; [apply _|]; first [apply insert_started_ok | apply upsert_gate_origin]
  | apply st_rel_exec; [apply _|]; by apply update_recordings_origin
  | st_step ].

Section starting.
Context {N : Type} `{Http N, Clock N, Sfu N, EndSwitch N, RecordingServices N}.

Lemma start_recording_vod has_pool has_switch me id :
  st_rel (tables_move vod) (start_recording (N := N) has_pool has_switch me id).
Proof.
  intros w Hw. unfold start_recording, MoneyDb.get_stream, st_try at 1, st_bind at 1, on_db at 1, st_fst.
  set (f := λ t, t_streams t !! id).
  pose proof (asking_reading_tables f w.1) as Ht. pose proof (asking_reading_ok f w.1) as Ho.
  destruct (asking (reading f) w.1) as [[[row|]|e] db]; cbn [fst snd] in *;
    [|unfold st_ret; cbn; by rewrite Ht..].
  specialize (Ho _ eq_refl). unfold f in Ho.
  match goal with |- vod_ok (db_tables (?m (db, w.2)).2.1) =>
    enough (Hm : st_rel (tables_move (keeps (origin_ok id row))) m) by
      (apply (Hm (db, w.2)); unfold origin_ok; cbn [fst]; by rewrite Ht) end.
  unfold recording_refusal, LadderDb.state, LadderDb.ladder_db, next_segment, switch_recording, open_recording,
    livekit_recording, recording_min_tier, create_content_gate.
  repeat origin_step.
Qed.
End starting.

(** ** Joining *)
Section joining.
Context {C R P : Type} `{TtlCache C (string * string) (option Entitlement), Redis R}.
Context `{TtlCache P (string * string) TierPermissions}.
Context {N : Type} `{Http N, Clock N, StreamServices N}.
Variable ent_json : option Entitlement → string.
Variable ent_parse : string → option (option Entitlement).
Variable has_redis : bool.
Variable ops : TokenOps.
Variable state : ApiState.
Variable cfg : ClientConfig.

Variable Rel : Tables → Tables → Prop.
Context `{!MediaRel Rel}.

Abbreviation JoinWorld := (((Db * (R * C)) * P) * N)%type.

Definition join_moves (rel : Tables → Tables → Prop) : JoinWorld → JoinWorld → Prop :=
  λ w w', rel (db_tables w.1.1.1) (db_tables w'.1.1.1).

#[local] Instance join_moves_preorder : PreOrder (join_moves Rel).
Proof.
  split; [intros w; unfold join_moves; reflexivity|].
  intros a b c ??. unfold join_moves in *. by etrans.
Qed.

Lemma join_db_rows {A} (m : st Db A) :
  st_rel (on_tables Rel) m → st_rel (join_moves Rel) (join_db m).
Proof.
  intros Hm [[[db c] p] n]. specialize (Hm db).
  unfold join_db, TierGate.in_db, st_fst, join_moves, on_tables in *. cbn [fst snd] in *.
  by destruct (m db).
Qed.

Lemma join_services_rows {A} (m : st N A) : st_rel (join_moves Rel) (st_snd m).
Proof. intros [g n]. unfold st_snd, join_moves. cbn. by destruct (m n). Qed.

Lemma join_gate_rows now me id :
  st_rel (join_moves Rel) (st_fst (join_gate ent_json ent_parse has_redis state now me id)).
Proof.
  intros [g n]. pose proof (join_gate_same ent_json ent_parse has_redis state now me id g) as Hg.
  unfold st_fst, join_moves, gate_same, ent_same, on_fst, on_tables, unchanged_tables, keeps in *.
  cbn in *. destruct (join_gate _ _ _ _ _ _ _ g) as [r g']. cbn in *. by rewrite Hg.
Qed.

Lemma join_stream_rows now me id :
  st_rel (join_moves Rel) (join_stream ent_json ent_parse has_redis ops state cfg now me id).
Proof.
  unfold join_stream, take_seat, StreamsDb.list_participants, current_key, get_stream_e2ee_key.
  repeat first [ apply join_gate_rows | apply join_services_rows
    | apply join_db_rows; repeat db_rows_step | st_step ].
Qed.
End joining.

(** ** Any sequence of requests, watchdogs and transcodes *)
Inductive media_request : Type :=
  | StreamRequest (r : stream_request)
  | StartRecordingRequest (has_switch : bool) (me id : string)
  | StopRecordingRequest (has_switch : bool) (me id : string)
  | DeleteRecordingRequest (me id : string)
  | Watchdog (rounds : nat) (stream_id egress_id sfu_room : string)
  | TrackMp4 (id : string).

Section history.
Context {C R P : Type} `{TtlCache C (string * string) (option Entitlement), Redis R}.
Context `{TtlCache P (string * string) TierPermissions}.
Context {N : Type} `{Http N, Clock N, Sfu N, EndSwitch N, StreamServices N, RecordingServices N}.
Variable url_encode : string → string.
Variable ent_json : option Entitlement → string.
Variable ent_parse : string → option (option Entitlement).
Variable has_redis : bool.
Variable has_pool : bool.
Variable ops : TokenOps.
Variable state : ApiState.
Variable cfg : ClientConfig.
Variable client : HomeserverClient.
Variable ctx : EndContext.

Abbreviation Deployment := (((Db * (R * C)) * P) * N)%type.

Definition serve_media_request (r : media_request) : st Deployment () :=
  match r with
  | StreamRequest r =>
      serve_stream_request url_encode ent_json ent_parse has_redis ops state cfg client ctx r
  | StartRecordingRequest has_switch me id =>
      let! _ := beside_caches (start_recording has_pool has_switch me id) in st_ret ()
  | StopRecordingRequest has_switch me id =>
      let! _ := beside_caches (stop_recording has_pool has_switch me id) in st_ret ()
  | DeleteRecordingRequest me id =>
      let! _ := beside_caches (delete_recording me id) in st_ret ()
  | Watchdog rounds sid eid room =>
      let! _ := beside_caches (recording_watchdog has_pool rounds sid eid room None) in st_ret ()
  | TrackMp4 id => let! _ := beside_caches (track_mp4_transcode id) in st_ret ()
  end.

Definition serve_media_requests (rs : list media_request) : st Deployment () :=
  st_fold (λ _ r, serve_media_request r) rs ().

Lemma beside_rows {A} Rel (m : st (Db * N) A) :
  st_rel (tables_move Rel) m →
  st_rel (join_moves (C := C) (R := R) (P := P) (N := N) Rel) (let! _ := beside_caches m in st_ret ()).
Proof. intros Hm w. exact (Hm (w.1.1.1, w.2)). Qed.

#[local] Existing Instance join_moves_preorder.

Lemma serve_media_request_rows Rel `{!MediaRel Rel} r :
  (∀ has_switch me id, st_rel (tables_move Rel) (start_recording (N := N) has_pool has_switch me id)) →
  st_rel (join_moves Rel) (serve_media_request r).
Proof.
  intros Hstart.
  destruct r as [[]| | | | |]; cbn [serve_media_request serve_stream_request].
  - by apply beside_rows, create_stream_rows.
  - by apply beside_rows, resume_stream_rows.
  - by apply beside_rows, end_stream_rows.
  - st_step; [|intros; st_step]. by apply join_db_rows, leave_stream_rows.
  - by apply beside_rows, rotate_stream_key_rows.
  - st_step; [|intros; st_step]. by apply join_stream_rows.
  - by apply beside_rows, run_stream_sweep_rows.
  - by apply beside_rows, Hstart.
  - by apply beside_rows, stop_recording_rows.
  - by apply beside_rows, delete_recording_rows.
  - by apply beside_rows, watchdog_rows.
  - by apply beside_rows, track_mp4_rows.
Qed.

(** C12. Whatever streams are created, joined, re-keyed, ended and swept, and whatever
    recordings are started, stopped, deleted, transcoded and given up by their watchdog, in
    any order, whatever statements fail and whatever the SFU and the switch answer: no two
    recordings share an id, and a recording belongs to a stream that exists, in that stream's
    room, with that stream's host and that stream's minimum tier. A paid broadcast never
    leaves a free recording behind. *)
Theorem recordings_stay_gated (rs : list media_request) (w : Deployment) :
  vod_ok (db_tables w.1.1.1) → vod_ok (db_tables (serve_media_requests rs w).2.1.1.1).
Proof.
  revert w. unfold serve_media_requests. induction rs as [|r rs IH]; intros w Hw; [done|].
  cbn [st_fold]. unfold st_bind. pose proof (serve_media_request_rows vod r (start_recording_vod has_pool) w Hw) as Hr.
  destruct (serve_media_request r w) as [[] w1]. by apply IH.
Qed.
End history.

Lemma no_recordings_ok : vod_ok no_tables.
Proof. split; [constructor|]. intros r Hr. inversion Hr. Qed.

(** ** A deployment that records *)
Module RecordingDemo.
#[local] Existing Instances HistoryDemo.http EndDemo.clock EndDemo.sfu EndDemo.switch
  HistoryDemo.services HistoryDemo.ent_cache HistoryDemo.perm_cache.
Definition recorder : RecordingServices EndDemo.net := {|
  record_start_or_resume _ r := let! _ := EndDemo.log ("record " +:+ r) in st_ret (Ok ());
  record_pause x := let! _ := EndDemo.log ("pause " +:+ x) in st_ret (Ok ());
  start_local_recording _ := st_ret (Err "no egress");
  spawn_watchdog _ _ _ := st_ret ();
  remove_file p := let! _ := EndDemo.log ("rm " +:+ p) in st_ret (Ok ());
  ad_decide := None |}.
#[local] Existing Instance recorder.

Definition start (me : string) : media_request := StreamRequest (CreateRequest me {|
  cq_room_id := "!r:x"; cq_media_type := "video"; cq_title := None; cq_e2ee := false;
  cq_min_tier := None; cq_min_tier_level := Some 2 |}).
Definition served (rs : list media_request) :=
  (serve_media_requests id print_value parse_value false true HistoryDemo.ops ex_state
    HistoryDemo.cfg (mk_hs_client (ec_marker EndDemo.ctx)) EndDemo.ctx rs HistoryDemo.fresh).2.
Definition recordings (t : Tables) : list (string * string * option Z) :=
  (λ r, (rec_id r, rec_status r, rec_min_tier_level r)) <$> m_recordings (media_of t).
(** What the switch was told to record. *)
Definition told (n : EndDemo.net) : list string := List.filter (String.prefix "record ") n.2.
End RecordingDemo.
#[local] Existing Instances HistoryDemo.http EndDemo.clock EndDemo.sfu EndDemo.switch
  HistoryDemo.services HistoryDemo.ent_cache HistoryDemo.perm_cache RecordingDemo.recorder.

(** A paid broadcast is recorded, paused, recorded again and ended. *)
Definition recorded : list media_request :=
  [RecordingDemo.start "@a:x"; StartRecordingRequest true "@a:x" "id3";
   StopRecordingRequest true "@a:x" "id3"; StartRecordingRequest true "@a:x" "id3";
   StreamRequest (StopRequest "@a:x" "id3")].

Example one_gated_recording :
  RecordingDemo.recordings (db_tables (RecordingDemo.served recorded).1.1.1) =
    [("id3_rec1", "ready", Some 2)].
Proof. by vm_compute. Qed.

Lemma recordings_stay_gated_witness :
  vod_ok (db_tables (RecordingDemo.served recorded).1.1.1).
Proof. apply recordings_stay_gated. exact no_recordings_ok. Defined.

(** Once the only recording of a live broadcast was deleted, recording it again has the
    switch record under the id of the deleted row, and the insert meets that row. *)
Example second_recording_refused :
  let w := RecordingDemo.served [RecordingDemo.start "@a:x";
    StartRecordingRequest true "@a:x" "id3"; DeleteRecordingRequest "@a:x" "id3_rec1"] in
  let r := start_recording true true "@a:x" "id3" (w.1.1.1, w.2) in
  (match r.1 with Ok _ => false | Err _ => true end) = true ∧
  RecordingDemo.told r.2.2 = ["record id3_rec1"; "record id3_rec1"].
Proof. by vm_compute. Qed.
