(* ===== verification/RecordingsPage.v ===== *)
(** * RecordingsPage: who is let into a stream and given the playable URL of a recording

    Joining, the room's list of recordings and the single GET of [mm-api/src/client.rs]
    decide through different pieces of code, with the entitlement and permission caches
    between them and the tables. Here they are compared with predicates over the tables,
    for caches that agree with the tables about the viewer. *)
From S2P Require Import SwitchPool Census.
From S2P Require Import Prelude ApiSchema Schema Errors Text MatrixClient Guards MoneyDb StreamsDb Donations.
From S2P Require Import Entitlement TierGate Feed Rooms StreamLifecycle StreamsApi RecordingsApi.
From S2P Require Import StreamsHistory RecordingsHistory.
Local Open Scope Z_scope.
Local Open Scope mm_scope.

Section page.
Context {C R P : Type} `{TtlCache C (string * string) (option Entitlement), Redis R}.
Context `{TtlCache P (string * string) TierPermissions}.
Context `{!TtlCacheLaws C (string * string) (option Entitlement) L1_TTL, !RedisLaws R}.
Context `{!TtlCacheLaws P (string * string) TierPermissions PERMISSIONS_TTL}.
Context {N : Type} `{RecordingServices N}.
Variable ent_json : option Entitlement → string.
Variable ent_parse : string → option (option Entitlement).
Variable has_redis : bool.
Variable to_rfc3339 : DateTime → string.
Variable state : ApiState.
Variable public_url : option string.
Variables (now : DateTime) (t : Tables).
Hypothesis parse_json : ∀ e, ent_parse (ent_json e) = Some e.
Hypothesis has_pool : as_has_pg_pool state = true.

Abbreviation right := (current ent_parse now t).

(** What the tables say: one's own recording, a free one, or one whose host's tiers let the
    viewer watch recordings and whose minimum is reached by a live subscription. *)
Definition may_watch (u room : string) (r : RecordingRec) : bool :=
  String.eqb u (rec_host_user_id r) || negb (as_has_entitlement state) ||
  match rec_min_tier_level r with
  | Some min =>
      negb (recording_is_tier_gated (Some min)) ||
      (can_watch_recordings (permissions_of u (rec_host_user_id r) room now t) &&
       (min <=? level_or_0 (entitlement_of u (rec_host_user_id r) now t)))
  | None => true
  end.

(** The recordings of others that have a price: for these the caches are asked. *)
Definition consults (u : string) (r : RecordingRec) : bool :=
  as_has_entitlement state && negb (String.eqb u (rec_host_user_id r)) &&
  recording_is_tier_gated (rec_min_tier_level r).

Lemma entitled_right u host room r w :
  right u host room w → (consults u r = true → rec_host_user_id r = host) →
  ∃ w', is_entitled_to_recording ent_json ent_parse has_redis state now u room r w =
          (may_watch u room r, w') ∧ right u host room w'.
Proof.
  intros Hw Ho. unfold is_entitled_to_recording, may_watch, consults in *.
  destruct (String.eqb u (rec_host_user_id r)); [by eexists|].
  destruct (as_has_entitlement state); [|by eexists]. cbn [negb orb andb] in *.
  destruct (rec_min_tier_level r) as [min|]; [|by eexists].
  destruct (recording_is_tier_gated (Some min)); [|by eexists]. cbn [negb orb].
  rewrite Ho by done.
  destruct (effective_permissions_current ent_parse state now t u host room w Hw has_pool)
    as (w1 & E1 & Hw1).
  unfold st_bind at 1. rewrite E1.
  destruct (can_watch_recordings _); [|by eexists]. cbn [negb andb].
  destruct (check_current ent_json ent_parse has_redis now t parse_json u host room host w1 Hw1)
    as (w2 & E2 & Hw2).
  unfold st_bind at 1. rewrite E2. by eexists.
Qed.

(** A row of the page. *)
Definition page_row (u room : string) (r : RecordingRec) : RecordingResponse :=
  let resp := from_recording to_rfc3339 r (default "" public_url) in
  if may_watch u room r then resp else withhold_url resp.

Abbreviation ViewWorld := ((((Db * (R * C)) * P) * N))%type.

Lemma shown_page u host room rs :
  (∀ r, r ∈ rs → consults u r = true → rec_host_user_id r = host) →
  ∀ w : ViewWorld, right u host room w.1 →
  ∃ w', st_map (shown ent_json ent_parse has_redis to_rfc3339 state public_url now u room) rs w =
          (page_row u room <$> rs, w') ∧ right u host room w'.1.
Proof.
  induction rs as [|r rs IH]; intros Ho [g n] Hw; [by eexists|].
  cbn [st_map]. unfold st_bind at 1, shown at 1, st_bind at 1, st_fst at 1. cbn [fst snd] in *.
  destruct (entitled_right u host room r g Hw) as (g1 & E1 & Hg1); [apply Ho; left|].
  rewrite E1. unfold st_ret at 1. cbn [fst snd]. unfold st_bind at 1.
  destruct (IH (λ r' Hr', Ho r' (list_elem_of_further _ _ _ Hr')) (g1, n) Hg1) as (w2 & E2 & Hw2).
  rewrite E2. exists w2. split; [|done]. unfold st_ret. f_equal.
Qed.

Lemma join_db_right {A} u host room (f : Tables → A) (w : ViewWorld) :
  right u host room w.1 → join_db (asking (reading f)) w = (Ok (f t), w).
Proof.
  intros Hw. destruct w as [g n]. unfold join_db, st_fst. cbn [fst snd] in *.
  by rewrite (in_db_reading ent_parse now t u host room).
Qed.

(** The ready recordings of a room that are not hidden, newest first. *)
Definition ready_of (room_id : Z) (before_id : option string) : list RecordingRec :=
  order_desc rec_created_at (recordings_where (λ r,
    (rec_room_id r =? room_id) && String.eqb (rec_status r) "ready" && negb (rec_hidden r) &&
    created_before t before_id r) t).

(** C28. The page of a room's recordings is a pure function of the tables, when the database
    answers and whatever the caches hold about the viewer that agrees with the tables: the
    newest ready, visible recordings of the room, at most the clamped limit of them, each with
    its playable URLs exactly when the tables entitle the viewer to them and with every URL
    withheld otherwise; the page says there are more exactly when a further row exists. It
    holds under a condition that the code needs and does not check: the recordings with a price
    on this page that are not the viewer's own are of one host, and so are the permissions the
    cache holds for the viewer and the room. The cache is keyed by viewer and room
    without the host, so that otherwise a row is decided by the tiers of another host
    ([two_hosts_share_permissions]). *)
Theorem room_page_exact u host room_id lim before_id (w : ViewWorld) row :
  find_room room_id t = Some row → right u host (rm_matrix_room_id row.2) w.1 →
  let n := clamp_limit lim in
  let rows := ready_of row.1 before_id in
  (∀ r, r ∈ limit n rows → consults u r = true → rec_host_user_id r = host) →
  (list_room_recordings ent_json ent_parse has_redis to_rfc3339 state public_url now u room_id
     lim before_id w).1 =
    Ok (page_row u (rm_matrix_room_id row.2) <$> limit n rows, n <? Z.of_nat (length rows)).
Proof.
  intros Hr Hw n rows Ho. unfold list_room_recordings, get_room_by_matrix_id, st_try at 1.
  unfold st_bind at 1. erewrite join_db_right by done. rewrite Hr.
  unfold StreamsDb.list_room_recordings, st_try at 1. unfold st_bind at 1.
  erewrite join_db_right by done. unfold newest. change (order_desc rec_created_at _) with rows.
  fold n. assert (Hn : 1 ≤ n ≤ MAX_PAGE_LIMIT) by (unfold n, clamp_limit, MAX_PAGE_LIMIT; lia).
  assert (Hl : limit n (limit (n + 1) rows) = limit n rows).
  { unfold limit. rewrite take_take. f_equal. lia. }
  assert (Hm : (n <? Z.of_nat (length (limit (n + 1) rows))) = (n <? Z.of_nat (length rows))).
  { unfold limit. rewrite length_take. apply eq_iff_eq_true. rewrite !Z.ltb_lt. lia. }
  rewrite Hl, Hm. unfold st_bind at 1.
  destruct (shown_page u host (rm_matrix_room_id row.2) (limit n rows) Ho w Hw) as (w' & E & _).
  by rewrite E.
Qed.

(** The recording a GET is about. *)
Definition visible (id : string) : option RecordingRec :=
  head (recordings_where (λ r, by_id id r && negb (rec_hidden r)) t).

Lemma gate_right u r room w :
  right u (rec_host_user_id r) (rm_matrix_room_id room) w →
  a_rooms (t_api t) !! rec_room_id r = Some room →
  ∃ w' q, recording_gate ent_json ent_parse has_redis state now u r w = (q, w') ∧
    right u (rec_host_user_id r) (rm_matrix_room_id room) w' ∧
    (q = Ok () ↔ may_watch u (rm_matrix_room_id room) r = true).
Proof.
  intros Hw Hr. unfold recording_gate, may_watch.
  destruct (rec_min_tier_level r) as [min|]; [|rewrite orb_true_r; by outcome_of].
  destruct (recording_is_tier_gated (Some min)); cbn [andb negb];
    [|rewrite orb_true_r; by outcome_of].
  destruct (as_has_entitlement state); cbn [andb negb]; [|rewrite orb_true_r; by outcome_of].
  destruct (String.eqb u (rec_host_user_id r)); cbn [andb negb orb]; [by outcome_of|].
  unfold st_try at 1, st_bind at 1, get_room.
  rewrite (in_db_reading ent_parse now t u (rec_host_user_id r) (rm_matrix_room_id room)) by done.
  rewrite Hr.
  destruct (tier_requirement_current ent_json ent_parse has_redis state now t parse_json u
    (rec_host_user_id r) (rm_matrix_room_id room) min can_watch_recordings "recording" w Hw has_pool)
    as (w' & q & E & Hw' & Hq).
  exists w', q. split; [done|]. split; [done|]. rewrite Hq, andb_true_iff, Z.leb_le. done.
Qed.

(** The single GET answers with a recording exactly when it is neither deleted nor hidden and
    the tables entitle the caller to its URL, whatever the caches hold about the caller that
    agrees with the tables and whatever advertisement is chosen: the list of the room and the
    GET of one of its rows do not disagree. *)
Theorem get_recording_exact u id (w : ViewWorld) r room :
  visible id = Some r → a_rooms (t_api t) !! rec_room_id r = Some room →
  right u (rec_host_user_id r) (rm_matrix_room_id room) w.1 →
  (∃ resp, (get_recording ent_json ent_parse has_redis to_rfc3339 state public_url now u id w).1 =
     Ok resp) ↔
  rec_status r ≠ "deleted" ∧ may_watch u (rm_matrix_room_id room) r = true.
Proof.
  intros Ev Hroom Hw. unfold get_recording, StreamsDb.get_recording, st_try at 1.
  unfold st_bind at 1. erewrite join_db_right by done. fold (visible id). rewrite Ev.
  destruct (String.eqb_spec (rec_status r) (RecordingStatus.as_str RecordingStatus.Deleted)) as [Hd|Hd].
  { unfold recording_not_found, st_ret. cbn in *. naive_solver. }
  unfold st_try at 1. unfold st_bind at 1, st_fst at 1.
  destruct (gate_right u r room w.1 Hw Hroom) as (g1 & q & E & Hg1 & Hq). rewrite E.
  destruct q as [[]|e]; cbn [fst snd].
  - assert (Hx : may_watch u (rm_matrix_room_id room) r = true) by by apply Hq.
    split; [done|]. intros _.
    unfold st_bind at 1. destruct (join_db _ _) as [ads w2]. destruct ad_decide as [decide|], ads;
      unfold st_bind, st_snd, st_ret; cbn; [|by eexists..].
    destruct (decide _ _ _ _) as [ad n]. by eexists.
  - split; [by intros [? ?]|]. intros [_ Hm]. apply Hq in Hm. done.
Qed.
End page.

(** ** Joining a stream *)
(** The viewer has a seat that it has not left. *)
Definition seated (me id : string) (t : Tables) : Prop :=
  ∃ p, p ∈ m_participants (media_of t) ∧ same_participant id me p = true ∧ pt_left_at p = None.

Lemma asking_healthy {A} (s : stmt A) t now a t' :
  s now t = Ok (a, t') → asking s (healthy t now) = (Ok a, healthy t' now).
Proof. intros E. unfold asking, st_bind. by rewrite exec_healthy, E. Qed.

Lemma seats_listed id t :
  Z.of_nat (length (order_asc pt_joined_at (List.filter (present id) (m_participants (media_of t))))) =
  seats id t.
Proof. unfold seats, order_asc. by rewrite merge_sort_Permutation. Qed.

Lemma upsert_seats pid id me now t :
  is_Some (t_streams t !! id) →
  existsb (λ q, String.eqb (pt_id q) pid) (m_participants (media_of t)) = false →
  ∃ p t', upsert_participant pid id me (role_str Viewer) None now t = Ok (p, t') ∧
    seated me id t' ∧ t_streams t' = t_streams t.
Proof.
  intros [row Hrow] Hpid. unfold upsert_participant.
  destruct (List.find (same_participant id me) _) as [p|] eqn:Ef.
  - apply find_some in Ef as [Hin Hp]. eexists _, _. split; [reflexivity|]. split; [|done].
    eexists. split; [|split].
    + apply list_elem_of_fmap. exists p. rewrite Hp. split; [reflexivity|by apply list_elem_of_In].
    + exact Hp.
    + done.
  - rewrite Hrow, Hpid. eexists _, _. split; [reflexivity|]. split; [|done]. eexists.
    split; [apply elem_of_app; right; by apply list_elem_of_singleton|]. split; [|done].
    unfold same_participant. cbn. by rewrite !String.eqb_refl.
Qed.

Lemma add_participant_seats pid id me now t :
  is_Some (t_streams t !! id) →
  existsb (λ q, String.eqb (pt_id q) pid) (m_participants (media_of t)) = false →
  ∃ p t', add_participant pid id me Viewer None (healthy t now) = (Ok p, healthy t' now) ∧
    seated me id t'.
Proof.
  intros Hrow Hpid. destruct (upsert_seats pid id me now t Hrow Hpid) as (p & t1 & E & Hs & Ht).
  unfold add_participant, st_try at 1, st_bind at 1.
  rewrite (asking_healthy _ _ _ _ _ E). unfold sync_participant_count, run_update.
  unfold st_try, st_bind. erewrite asking_healthy by reflexivity.
  destruct Hrow as [row Hrow]. rewrite <-Ht in Hrow.
  erewrite asking_healthy by (unfold update_stream; by rewrite Hrow). unfold st_ret.
  eexists _, _. split; [reflexivity|]. exact Hs.
Qed.

Section joining.
Context {C R P : Type} `{TtlCache C (string * string) (option Entitlement), Redis R}.
Context `{TtlCache P (string * string) TierPermissions}.
Context `{!TtlCacheLaws C (string * string) (option Entitlement) L1_TTL, !RedisLaws R}.
Context `{!TtlCacheLaws P (string * string) TierPermissions PERMISSIONS_TTL}.
Context {N : Type} `{Http N, Clock N, StreamServices N}.
Variable ent_json : option Entitlement → string.
Variable ent_parse : string → option (option Entitlement).
Variable has_redis : bool.
Variable ops : TokenOps.
Variable state : ApiState.
Variable cfg : ClientConfig.
Variables (now : DateTime) (t : Tables).
Hypothesis parse_json : ∀ e, ent_parse (ent_json e) = Some e.
Hypothesis has_pool : as_has_pg_pool state = true.

Abbreviation JoinWorld := ((((Db * (R * C)) * P) * N))%type.
Abbreviation join := (join_stream (N := N) ent_json ent_parse has_redis ops state cfg now).
Abbreviation tables_after w := (db_tables (w : JoinWorld).1.1.1).

(** The tables let the viewer in, apart from the capacity of the room. *)
Definition admits (me id : string) (s : StreamRec) (room : RoomRec) : Prop :=
  sr_status s ≠ "ended" ∧
  (as_has_entitlement state = true →
   entitled state now t me (sr_host_user_id s) (rm_matrix_room_id room) id s).

Lemma take_seat_full me id max host room (w : (Db * (R * C)) * P) (n : N) :
  current ent_parse now t me host room w → room_full (seats id t) max = true →
  take_seat me id max (w, n) =
    (Err (MMError.api ErrorCode.RoomFull "room has reached maximum capacity"), (w, n)).
Proof.
  intros Hw Hf. unfold take_seat, StreamsDb.list_participants, st_try, st_bind, join_db, st_fst.
  cbn [fst snd]. rewrite (in_db_reading ent_parse now t me host room) by done.
  by rewrite seats_listed, Hf.
Qed.

Lemma take_seat_free me id max host room (w : (Db * (R * C)) * P) (n : N) :
  current ent_parse now t me host room w → room_full (seats id t) max = false →
  is_Some (t_streams t !! id) →
  existsb (λ q, String.eqb (pt_id q) (new_v4 n).1) (m_participants (media_of t)) = false →
  ∃ p t' w', take_seat me id max (w, n) = (Ok p, (w', (new_v4 n).2)) ∧
    w'.1.1 = healthy t' now ∧ seated me id t'.
Proof.
  intros Hw Hf Hrow Hpid. unfold take_seat, StreamsDb.list_participants, st_try, st_bind, join_db,
    st_fst, st_snd.
  cbn [fst snd]. rewrite (in_db_reading ent_parse now t me host room) by done.
  rewrite seats_listed, Hf. cbn [fst snd].
  destruct (new_v4 n) as [pid n1]. cbn [fst snd] in *.
  destruct (add_participant_seats pid id me now t Hrow Hpid) as (p & t' & E & Hs).
  destruct Hw as [Hdb _ _ _]. destruct w as [[db x] c]. cbn in Hdb. subst db.
  unfold TierGate.in_db, st_fst. cbn [fst snd]. rewrite E.
  by eexists p, t', (healthy t' now, x, c).
Qed.

(** C27. A viewer who joins a stream is let in exactly when the tables entitle it and the room
    has a free place. Take a stream whose room exists, a database that answers, and caches
    that hold about the viewer only what the tables say now, where the permissions cached for
    the viewer and the room, if any, are those of this stream's host (the cache is keyed by
    viewer and room without the host, [permissions_cache_ignores_creator]). The viewer is
    admitted when the stream has not ended, a gate row of the stream is met by a live
    subscription to the gate's creator of at least its level, and a minimum tier of the stream
    is met by the permission to join live and a live subscription to the host of at least that
    level. A viewer who is not admitted gets an error, takes no seat and no token is asked of
    the SFU; one who is admitted to a full room gets RoomFull, likewise; one who is
    admitted to a room with a place takes a seat, and gets credentials if the SFU
    issues tokens. *)
Theorem join_admits_exactly_entitled me id s room (w : (Db * (R * C)) * P) (n : N) :
  t_streams t !! id = Some s → a_rooms (t_api t) !! sr_room_id s = Some room →
  current ent_parse now t me (sr_host_user_id s) (rm_matrix_room_id room) w →
  let r := join me id (w, n) in
  let full := room_full (seats id t) (rm_max_participants room) in
  (¬ admits me id s room ∨ full = true →
     is_ok r.1 = false ∧ tables_after r.2 = t ∧ r.2.2 = n) ∧
  (admits me id s room → full = true →
     r.1 = Err (MMError.api ErrorCode.RoomFull "room has reached maximum capacity")) ∧
  (admits me id s room → full = false →
   existsb (λ q, String.eqb (pt_id q) (new_v4 n).1) (m_participants (media_of t)) = false →
     seated me id (tables_after r.2) ∧
     ((∀ x p k, is_ok (generate_token x p viewer k).1 = true) → is_ok r.1 = true)).
Proof.
  intros Hs Hroom Hw r full. assert (Er : r = join me id (w, n)) by done. clearbody r.
  unfold join_stream, st_try at 1 in Er. unfold st_bind at 1 in Er.
  unfold st_fst at 1 in Er. cbn [fst snd] in Er.
  destruct (join_gate_exact ent_json ent_parse has_redis state now t parse_json me _ _ id w s room
    Hw has_pool Hs Hroom eq_refl eq_refl) as (q & w1 & Eg & Hw1 & Hx & Hq).
  fold (admits me id s room) in Hq. rewrite Eg in Er. cbn [fst snd] in Er.
  assert (Ht1 : db_tables w1.1.1 = t) by (by rewrite (cur_db _ _ _ _ _ _ _ Hw1)).
  destruct q as [x|e].
  2: { assert (¬ admits me id s room) by (intros Ha; apply Hq in Ha; done). subst r.
       split; [intros _; split; [done|by split]|]. split; by intros Ha. }
  rewrite (Hx x eq_refl) in Er. assert (Ha : admits me id s room) by by apply Hq. clear Hq Hx.
  unfold st_try at 1 in Er. unfold st_bind at 1 in Er. destruct full eqn:Ef; subst full.
  - rewrite (take_seat_full _ _ _ _ _ _ _ Hw1 Ef) in Er. subst r.
    split; [intros _; split; [done|by split]|]. split; [done|]. by intros _ ?.
  - split; [intros [?|?]; done|]. split; [done|]. intros _ _ Hpid.
    destruct (take_seat_free _ _ _ _ _ _ _ Hw1 Ef (ex_intro _ s Hs) Hpid)
      as (p & t' & w2 & Et & Hdb & Hseat).
    rewrite Et in Er. unfold st_bind at 1, st_snd at 1 in Er. cbn [fst snd] in Er.
    destruct w2 as [[db x2] c2]. cbn in Hdb. subst db.
    match type of Er with context [generate_token ?a ?b viewer ?c] =>
      pose proof (λ H : (∀ x p k, is_ok (generate_token x p viewer k).1 = true), H a b c) as Htok;
      destruct (generate_token a b viewer c) as [tok n2] end.
    destruct tok as [tok|e]; cbn in Er.
    2: { subst r. split; [done|]. intros H'. by specialize (Htok H'). }
    assert (Hk : ∃ info, current_key (id, s) (healthy t' now) = (Ok info, healthy t' now)).
    { unfold current_key, get_stream_e2ee_key, st_try, st_bind. cbn [snd].
      destruct (sr_e2ee s); [|by eexists]. erewrite asking_healthy by reflexivity. by eexists. }
    destruct Hk as [info Hk]. unfold st_try, st_bind, join_db, TierGate.in_db, st_fst in Er.
    cbn [fst snd] in Er. rewrite Hk in Er. destruct (watch_hint _ _ _ _ _) as [[[]]]. subst r.
    by split.
Qed.
End joining.

(** ** A room with a paid and a free recording *)
Module PageDemo.
Definition recording (id : string) (min : option Z) (at_ : DateTime) : RecordingRec := {|
  rec_id := id; rec_stream_id := "b1"; rec_room_id := 1; rec_host_user_id := "@c:x";
  rec_status := "ready"; rec_media_type := "video"; rec_storage_key := "/data/" +:+ id +:+ ".webm";
  rec_storage_backend := "local"; rec_mxc_url := None; rec_cdn_url := None;
  rec_duration_ms := None; rec_size_bytes := None; rec_mime_type := "video/webm";
  rec_sha256 := None; rec_title := None; rec_egress_id := None;
  rec_created_at := at_; rec_completed_at := None; rec_min_tier_level := min;
  rec_hidden := false; rec_hidden_at := None; rec_mp4_status := "none"; rec_mp4_key := None |}.
Definition tables : Tables := set_api
  (set_media (set_recordings [recording "free" None 1; recording "paid" (Some 3) 2] no_media)
    (t_api ex_gated)) ex_gated.
#[export] Instance ents : TtlCache ex_l1 (string * string) (option Entitlement) := map_cache L1_TTL.
#[export] Instance ents_laws : TtlCacheLaws ex_l1 (string * string) (option Entitlement) L1_TTL :=
  map_cache_laws L1_TTL.
#[export] Instance perms : TtlCache (gmap (string * string) (TierPermissions * DateTime))
  (string * string) TierPermissions := map_cache PERMISSIONS_TTL.
#[export] Instance perms_laws : TtlCacheLaws (gmap (string * string) (TierPermissions * DateTime))
  (string * string) TierPermissions PERMISSIONS_TTL := map_cache_laws PERMISSIONS_TTL.
#[export] Existing Instance RecordingDemo.recorder.
Definition world : ((Db * (gmap string (string * DateTime) * ex_l1)) *
    gmap (string * string) (TierPermissions * DateTime)) * EndDemo.net :=
  (healthy tables 5, (∅, ∅), ∅, (0, [])).
Definition when_ (d : DateTime) : string := pretty d.

Lemma world_right u : current parse_value 5 tables u "@c:x" "!r:x" world.1.
Proof. by split. Qed.
Definition of_host (host : string) (r : RecordingRec) : RecordingRec := {|
  rec_id := rec_id r; rec_stream_id := rec_stream_id r; rec_room_id := rec_room_id r;
  rec_host_user_id := host; rec_status := rec_status r;
  rec_media_type := rec_media_type r; rec_storage_key := rec_storage_key r;
  rec_storage_backend := rec_storage_backend r; rec_mxc_url := rec_mxc_url r;
  rec_cdn_url := rec_cdn_url r; rec_duration_ms := rec_duration_ms r;
  rec_size_bytes := rec_size_bytes r; rec_mime_type := rec_mime_type r;
  rec_sha256 := rec_sha256 r; rec_title := rec_title r; rec_egress_id := rec_egress_id r;
  rec_created_at := rec_created_at r; rec_completed_at := rec_completed_at r;
  rec_min_tier_level := rec_min_tier_level r; rec_hidden := rec_hidden r;
  rec_hidden_at := rec_hidden_at r; rec_mp4_status := rec_mp4_status r;
  rec_mp4_key := rec_mp4_key r |}.

(** What the viewer is given on a page of these recordings, with empty caches. *)
Definition urls (l : list RecordingRec) : list (option string) :=
  let t := set_api (set_media (set_recordings l no_media) (t_api ex_gated)) ex_gated in
  match (list_room_recordings print_value parse_value true when_ ex_state (Some "https://m") 5
    "@u:x" "!r:x" None None ((healthy t 5, (∅, ∅), ∅), world.2)).1 with
  | Ok p => rr_playback_url <$> p.1
  | Err _ => []
  end.
End PageDemo.
Import PageDemo.

(** A subscriber of level 3 is given both URLs, a stranger the free one only. *)
Lemma room_page_exact_witness :
  (list_room_recordings print_value parse_value true when_ ex_state (Some "https://m") 5 "@v:x"
     "!r:x" (Some 1) None world).1 =
    Ok ([page_row when_ ex_state (Some "https://m") 5 tables "@v:x" "!r:x"
           (recording "paid" (Some 3) 2)], true) ∧
  rr_playback_url (page_row when_ ex_state (Some "https://m") 5 tables "@v:x" "!r:x"
    (recording "paid" (Some 3) 2)) = None ∧
  rr_playback_url (page_row when_ ex_state (Some "https://m") 5 tables "@u:x" "!r:x"
    (recording "paid" (Some 3) 2)) = Some "https://m/_mm/recordings/paid.webm".
Proof.
  split; [|split; by vm_compute].
  refine (room_page_exact print_value parse_value true when_ ex_state (Some "https://m")
    5 tables parse_print_value eq_refl "@v:x" "@c:x" "!r:x" (Some 1) None world (1, ex_room_row)
    _ (world_right "@v:x") _).
  - by vm_compute.
  - intros r Hr _. apply elem_of_take in Hr as (i & Hr & _). apply list_elem_of_lookup_2 in Hr.
    unfold ready_of in Hr. rewrite elem_of_order_desc in Hr. unfold recordings_where in Hr.
    apply elem_of_filter_bool in Hr as [Hr _]. apply list_elem_of_In in Hr.
    by destruct Hr as [<-|[<-|[]]].
Defined.

(** Two hosts of one room, and a viewer who subscribes to one of them: after the row of the
    other host the viewer is refused the recording it paid for, on the same page. *)
Example two_hosts_share_permissions :
  let own := recording "paid" (Some 3) 1 in
  urls [own] = [Some "https://m/_mm/recordings/paid.webm"] ∧
  urls [own; of_host "@d:x" (recording "other" (Some 3) 2)] = [None; None].
Proof. by vm_compute. Qed.

Lemma get_recording_exact_witness :
  ¬ (∃ resp, (get_recording print_value parse_value true when_ ex_state (Some "https://m") 5 "@v:x"
       "paid" world).1 = Ok resp) ∧
  (∃ resp, (get_recording print_value parse_value true when_ ex_state (Some "https://m") 5 "@u:x"
       "paid" world).1 = Ok resp).
Proof.
  split.
  - intros Hx. apply (get_recording_exact print_value parse_value true when_ ex_state
      (Some "https://m") 5 tables parse_print_value eq_refl "@v:x" "paid" world
      (recording "paid" (Some 3) 2) ex_room_row) in Hx as [_ Hm];
      [|by vm_compute..|apply (world_right "@v:x")]. vm_compute in Hm. done.
  - apply (get_recording_exact print_value parse_value true when_ ex_state (Some "https://m")
      5 tables parse_print_value eq_refl "@u:x" "paid" world
      (recording "paid" (Some 3) 2) ex_room_row); [by vm_compute..|apply (world_right "@u:x")|].
    split; [done|]. by vm_compute.
Defined.

(** A subscriber of level 3 and a stranger join the stream for level 3. *)
#[local] Existing Instances HistoryDemo.http EndDemo.clock HistoryDemo.services.

Lemma join_admits_exactly_entitled_witness :
  let join me := join_stream print_value parse_value true HistoryDemo.ops ex_state HistoryDemo.cfg
    5 me "b1" ((healthy tables 5, (∅, ∅), ∅), (0, [])) in
  is_ok (join "@u:x").1 = true ∧ seated "@u:x" "b1" (db_tables (join "@u:x").2.1.1.1) ∧
  is_ok (join "@v:x").1 = false ∧ db_tables (join "@v:x").2.1.1.1 = tables.
Proof.
  intros join.
  destruct (join_admits_exactly_entitled print_value parse_value true HistoryDemo.ops ex_state
    HistoryDemo.cfg 5 tables parse_print_value eq_refl "@u:x" "b1" (ex_stream_row (Some 3))
    ex_room_row (healthy tables 5, (∅, ∅), ∅) (0, []) eq_refl eq_refl (world_right "@u:x"))
    as (_ & _ & Hin).
  destruct (join_admits_exactly_entitled print_value parse_value true HistoryDemo.ops ex_state
    HistoryDemo.cfg 5 tables parse_print_value eq_refl "@v:x" "b1" (ex_stream_row (Some 3))
    ex_room_row (healthy tables 5, (∅, ∅), ∅) (0, []) eq_refl eq_refl (world_right "@v:x"))
    as (Hout & _ & _).
  destruct Hin as [Hseat Hok]; [|by vm_compute..|].
  { split; [done|]. intros _. split.
    - intros _ g Hg. vm_compute in Hg. discriminate.
    - intros min [= <-] _. by vm_compute. }
  split; [by apply Hok|]. split; [exact Hseat|].
  destruct Hout as (Hno & Ht & _); [|by split].
  left. intros [_ Hent]. destruct (Hent eq_refl) as [_ Hmin].
  destruct (Hmin 3 eq_refl ltac:(lia)) as [Hc _]. vm_compute in Hc. discriminate.
Defined.
