(* ===== verification/SfuBreaker.v ===== *)
(** * SfuBreaker: the circuit breaker around the SFU

    [mm-sfu/src/lib.rs]: the errors of the SFU, the trait [SfuAdapter] with its defaults,
    the breaker that stops calling an SFU that does not answer, and the adapter that puts it
    around every operation. The breaker's mutex is held for the check before a call and for
    the update after it, not in between: calls run concurrently, and the transitions are the
    steps of a relation. *)
From S2P Require Import SwitchPool.
From S2P Require Import Prelude ApiSchema Schema Errors StreamsDb StreamLifecycle StreamsApi RecordingsApi.
Local Open Scope Z_scope.
Local Open Scope mm_scope.

(** ** Errors *)
Module SfuError.
Inductive t : Type :=
  | ConnectionFailed (m : string)
  | RoomNotFound (m : string)
  | ParticipantNotFound (m : string)
  | Timeout (secs : Z)
  | CircuitOpen (secs : Z)
  | Internal (m : string).

Definition to_string (e : t) : string :=
  match e with
  | ConnectionFailed m => "connection failed: " +:+ m
  | RoomNotFound m => "room not found: " +:+ m
  | ParticipantNotFound m => "participant not found: " +:+ m
  | Timeout s => "timeout after " +:+ pretty s +:+ "s"
  | CircuitOpen s => "circuit breaker open: SFU unavailable, retry after " +:+ pretty s +:+ "s"
  | Internal m => "internal: " +:+ m
  end.

Definition is_outage (e : t) : bool :=
  match e with
  | ConnectionFailed _ | Timeout _ | Internal _ | CircuitOpen _ => true
  | RoomNotFound _ | ParticipantNotFound _ => false
  end.
End SfuError.

(** ** Data *)
Definition default_media_config : SfuMediaConfig := {|
  md_audio_enabled := true; md_video_enabled := false; md_screen_share_enabled := false;
  md_audio_codec := "opus"; md_max_audio_bitrate := 48000; md_max_video_bitrate := None;
  md_max_video_resolution := None; md_simulcast_enabled := false |}.

Definition audio_host : ParticipantPermissions := {|
  pp_can_publish := true; pp_can_publish_audio := true; pp_can_publish_video := false;
  pp_can_publish_screen := false; pp_can_subscribe := true; pp_can_publish_data := true |}.

Definition video_host : ParticipantPermissions := {|
  pp_can_publish := true; pp_can_publish_audio := true; pp_can_publish_video := true;
  pp_can_publish_screen := false; pp_can_subscribe := true; pp_can_publish_data := true |}.

Definition screen_share_host : ParticipantPermissions := {|
  pp_can_publish := true; pp_can_publish_audio := true; pp_can_publish_video := false;
  pp_can_publish_screen := true; pp_can_subscribe := true; pp_can_publish_data := true |}.

Definition allowed_sources (p : ParticipantPermissions) : list string :=
  (if pp_can_publish_audio p then ["microphone"] else []) ++
  (if pp_can_publish_video p then ["camera"] else []) ++
  (if pp_can_publish_screen p then ["screen_share"; "screen_share_audio"] else []).

Definition has_source_level_grants (p : ParticipantPermissions) : bool :=
  pp_can_publish_audio p || pp_can_publish_video p || pp_can_publish_screen p.

Definition participant_text (p : ParticipantInfo) : string :=
  pi_identity p +:+ "(" +:+ pi_sfu_participant_id p +:+ ")".

Record RoomStats : Type := {
  rt_sfu_room_id : string;
  rt_num_participants : Z;
  rt_num_publishers : Z;
  rt_num_subscribers : Z
}.

Record EgressS3Config : Type := {
  s3_endpoint : string;
  s3_bucket : string;
  s3_region : string;
  s3_access_key : string;
  s3_secret_key : string;
  s3_path_prefix : string;
  s3_force_path_style : bool
}.

Record HlsEgressRequest : Type := {
  hq_room_name : string;
  hq_s3_config : EgressS3Config;
  hq_segment_duration_secs : Z;
  hq_min_playlist_size : Z;
  hq_audio_only : bool
}.

Definition new_hls_request (room : string) (s3 : EgressS3Config) : HlsEgressRequest := {|
  hq_room_name := room; hq_s3_config := s3; hq_segment_duration_secs := 4;
  hq_min_playlist_size := 3; hq_audio_only := false |}.

Record RecordingEgressRequest : Type := {
  rq_room_name : string;
  rq_s3_config : EgressS3Config;
  rq_audio_only : bool
}.

Definition new_recording_request (room : string) (s3 : EgressS3Config) : RecordingEgressRequest := {|
  rq_room_name := room; rq_s3_config := s3; rq_audio_only := false |}.

(** [EgressInfo] with all its fields; the handlers look at the first two only. *)
Record EgressDetails : Type := {
  eg_info : EgressInfo;
  eg_room_name : string;
  eg_started_at : option DateTime;
  eg_output_url : option string
}.

Definition egress_status_text (s : EgressStatus) : string :=
  match s with
  | Starting => "starting"
  | EgressActive => "active"
  | Ending => "ending"
  | Complete => "complete"
  | EgressFailed m => "failed: " +:+ m
  | Unknown code => "unknown status: " +:+ pretty code
  end.

(** ** The trait *)
Record SfuAdapter (S : Type) : Type := {
  sa_name : string;
  sa_health_check : st S (result () SfuError.t);
  sa_create_room : CreateRoomRequest → st S (result SfuRoom SfuError.t);
  sa_delete_room : string → st S (result () SfuError.t);
  sa_generate_token : SfuRoom → ParticipantInfo → ParticipantPermissions →
    st S (result SfuToken SfuError.t);
  sa_remove_participant : string → string → st S (result () SfuError.t);
  sa_list_participants : string → st S (result (list ParticipantInfo) SfuError.t);
  sa_room_stats : string → st S (result RoomStats SfuError.t);
  sa_supports_e2ee : bool;
  sa_start_hls_egress : HlsEgressRequest → st S (result EgressDetails SfuError.t);
  sa_start_recording_egress : RecordingEgressRequest → st S (result EgressDetails SfuError.t);
  sa_start_local_recording : LocalRecordingRequest → st S (result EgressDetails SfuError.t);
  sa_stop_egress : string → st S (result () SfuError.t);
  sa_list_egresses : string → st S (result (list EgressDetails) SfuError.t);
  sa_supports_egress : bool;
  sa_update_participant_permissions : string → string → bool → st S (result () SfuError.t);
  sa_send_data_message : string → list Z → list string → st S (result () SfuError.t);
  sa_create_ad_ingress : string → string → string → st S (result string SfuError.t);
  sa_delete_ingress : string → st S (result () SfuError.t);
  sa_update_subscriptions : string → string → list string → bool → st S (result () SfuError.t)
}.
Arguments sa_name {S} _.
Arguments sa_health_check {S} _ _.
Arguments sa_create_room {S} _ _ _.
Arguments sa_delete_room {S} _ _ _.
Arguments sa_generate_token {S} _ _ _ _ _.
Arguments sa_remove_participant {S} _ _ _ _.
Arguments sa_list_participants {S} _ _ _.
Arguments sa_room_stats {S} _ _ _.
Arguments sa_supports_e2ee {S} _.
Arguments sa_start_hls_egress {S} _ _ _.
Arguments sa_start_recording_egress {S} _ _ _.
Arguments sa_start_local_recording {S} _ _ _.
Arguments sa_stop_egress {S} _ _ _.
Arguments sa_list_egresses {S} _ _ _.
Arguments sa_supports_egress {S} _.
Arguments sa_update_participant_permissions {S} _ _ _ _ _.
Arguments sa_send_data_message {S} _ _ _ _ _.
Arguments sa_create_ad_ingress {S} _ _ _ _ _.
Arguments sa_delete_ingress {S} _ _ _.
Arguments sa_update_subscriptions {S} _ _ _ _ _ _.

Definition unsupported {S A} (what : string) : st S (result A SfuError.t) :=
  st_ret (Err (SfuError.Internal (what +:+ " not supported by this adapter"))).

(** An adapter that has the required operations only. *)
Definition adapter_defaults {S} (name : string) (health : st S (result () SfuError.t))
    (create : CreateRoomRequest → st S (result SfuRoom SfuError.t))
    (delete : string → st S (result () SfuError.t))
    (token : SfuRoom → ParticipantInfo → ParticipantPermissions → st S (result SfuToken SfuError.t))
    (remove : string → string → st S (result () SfuError.t))
    (participants : string → st S (result (list ParticipantInfo) SfuError.t))
    (stats : string → st S (result RoomStats SfuError.t)) : SfuAdapter S := {|
  sa_name := name; sa_health_check := health; sa_create_room := create; sa_delete_room := delete;
  sa_generate_token := token; sa_remove_participant := remove;
  sa_list_participants := participants; sa_room_stats := stats; sa_supports_e2ee := false;
  sa_start_hls_egress _ := unsupported "egress"; sa_start_recording_egress _ := unsupported "egress";
  sa_start_local_recording _ := unsupported "local recording";
  sa_stop_egress _ := unsupported "egress"; sa_list_egresses _ := st_ret (Ok []);
  sa_supports_egress := false;
  sa_update_participant_permissions _ _ _ := unsupported "permission update";
  sa_send_data_message _ _ _ := unsupported "data messaging";
  sa_create_ad_ingress _ _ _ := unsupported "ad ingress"; sa_delete_ingress _ := unsupported "ingress";
  sa_update_subscriptions _ _ _ _ := unsupported "subscription update" |}.

(** ** The breaker *)
(** Instants and durations in nanoseconds. *)
Inductive CircuitState : Type :=
  | Closed (failures : list Z)
  | Open (opened_at : Z)
  | HalfOpen.

Definition DEFAULT_SFU_CALL_TIMEOUT_SECS : Z := 10.
Definition LOCAL_RECORDING_CALL_TIMEOUT_SECS : Z := 30.

(** The settings of a breaker; its state is part of the world. *)
Record CircuitBreaker : Type := {
  cb_failure_threshold : Z;
  cb_recovery_timeout : Z;
  cb_failure_window : Z;
  cb_call_timeout : Z
}.

Definition new_breaker (threshold recovery : Z) : CircuitBreaker := {|
  cb_failure_threshold := threshold; cb_recovery_timeout := recovery;
  cb_failure_window := seconds 30; cb_call_timeout := seconds DEFAULT_SFU_CALL_TIMEOUT_SECS |}.

Definition with_failure_window (window : Z) (b : CircuitBreaker) : CircuitBreaker := {|
  cb_failure_threshold := cb_failure_threshold b; cb_recovery_timeout := cb_recovery_timeout b;
  cb_failure_window := window; cb_call_timeout := cb_call_timeout b |}.

Definition with_call_timeout (timeout : Z) (b : CircuitBreaker) : CircuitBreaker := {|
  cb_failure_threshold := cb_failure_threshold b; cb_recovery_timeout := cb_recovery_timeout b;
  cb_failure_window := cb_failure_window b; cb_call_timeout := timeout |}.

(** [Instant::duration_since] and [elapsed] saturate. *)
Definition since (now t : Z) : Z := Z.max 0 (now - t).
Definition as_secs (d : Z) : Z := d / NANOS.

(** What a call comes to: its result, or a panic of the task. *)
Inductive ran (A : Type) : Type :=
  | Returned (a : A)
  | Panicked.
Arguments Returned {A} a.
Arguments Panicked {A}.

(** The check before a call. The elapsed time is read twice, at [now] and, when the circuit
    stays open, at [again]; subtracting a longer duration from a shorter one panics. *)
Definition check_state (b : CircuitBreaker) (now again : Z) (s : CircuitState) :
    ran (result CircuitState SfuError.t) :=
  match s with
  | Open t0 =>
      if cb_recovery_timeout b <=? since now t0 then Returned (Ok HalfOpen)
      else if since again t0 <=? cb_recovery_timeout b
      then Returned (Err (SfuError.CircuitOpen (as_secs (cb_recovery_timeout b - since again t0))))
      else Panicked
  | Closed _ | HalfOpen => Returned (Ok s)
  end.

(** The update after a call that ended at [now], with an error or without. *)
Definition update_state (b : CircuitBreaker) (now : Z) (e : option SfuError.t) (s : CircuitState) :
    CircuitState :=
  match e with
  | None => match s with HalfOpen => Closed [] | Closed _ | Open _ => s end
  | Some e =>
      if negb (SfuError.is_outage e)
      then match s with HalfOpen => Closed [] | _ => s end
      else
      match s with
      | HalfOpen => Open now
      | Closed failures =>
          let failures := List.filter (λ t, since now t <? cb_failure_window b) failures ++ [now] in
          if cb_failure_threshold b <=? Z.of_nat (length failures) then Open now
          else Closed failures
      | Open _ => s
      end
  end.

Definition is_open (s : CircuitState) : bool := match s with Open _ => true | _ => false end.
Definition reset : CircuitState := Closed [].

(** [tokio::time::timeout]: the answer, or [None] when there was none within the limit and
    the call was dropped. *)
Class Timer (N : Type) : Type := {
  timeout {A} : Z → st N A → st N (option A)
}.

Section call.
Context {N : Type} `{Clock N, Timer N}.
Variable b : CircuitBreaker.

Abbreviation World := (CircuitState * N)%type.

Definition get_state : st World CircuitState := λ w, (w.1, w).
Definition put_state (s : CircuitState) : st World () := λ w, ((), (s, w.2)).

Definition error_of {A} (r : result A SfuError.t) : option SfuError.t :=
  match r with Ok _ => None | Err e => Some e end.

Definition call_with_timeout {A} (limit : Z) (f : st N (result A SfuError.t)) :
    st World (ran (result A SfuError.t)) :=
  let! s := get_state in
  let! now := (match s with Open _ => st_snd instant_now | _ => st_ret 0 end) in
  let! again := (match s with
    | Open t0 => if cb_recovery_timeout b <=? since now t0 then st_ret now
                 else st_snd instant_now
    | _ => st_ret 0
    end) in
  match check_state b now again s with
  | Panicked => st_ret Panicked
  | Returned (Err e) => st_ret (Returned (Err e))
  | Returned (Ok s') =>
      let! _ := put_state s' in
      let! answer := st_snd (timeout limit f) in
      let r := match answer with Some r => r | None => Err (SfuError.Timeout (as_secs limit)) end in
      let! s := get_state in
      let! now := (match error_of r, s with
        | Some e, Closed _ | Some e, HalfOpen =>
            if SfuError.is_outage e then st_snd instant_now else st_ret 0
        | _, _ => st_ret 0
        end) in
      let! _ := put_state (update_state b now (error_of r) s) in
      st_ret (Returned r)
  end.

Definition call {A} (f : st N (result A SfuError.t)) : st World (ran (result A SfuError.t)) :=
  call_with_timeout (cb_call_timeout b) f.
End call.

(** ** The adapter *)
Section adapter.
Context {N : Type} `{Clock N, Timer N}.
Variable inner : SfuAdapter N.
Variable b : CircuitBreaker.
Variable local_recording_timeout : Z.

Abbreviation World := (CircuitState * N)%type.
Abbreviation guarded A := (st World (ran (result A SfuError.t))).

Definition cba_health_check : guarded () := call b (sa_health_check inner).
Definition cba_create_room (req : CreateRoomRequest) : guarded SfuRoom :=
  call b (sa_create_room inner req).
Definition cba_delete_room (id : string) : guarded () := call b (sa_delete_room inner id).
(** Local: no network call, no breaker. *)
Definition cba_generate_token (room : SfuRoom) (p : ParticipantInfo) (perms : ParticipantPermissions) :
    guarded SfuToken :=
  let! r := st_snd (sa_generate_token inner room p perms) in st_ret (Returned r).
Definition cba_remove_participant (room pid : string) : guarded () :=
  call b (sa_remove_participant inner room pid).
Definition cba_list_participants (room : string) : guarded (list ParticipantInfo) :=
  call b (sa_list_participants inner room).
Definition cba_room_stats (room : string) : guarded RoomStats := call b (sa_room_stats inner room).
Definition cba_supports_e2ee : bool := sa_supports_e2ee inner.
Definition cba_start_hls_egress (req : HlsEgressRequest) : guarded EgressDetails :=
  call b (sa_start_hls_egress inner req).
Definition cba_start_recording_egress (req : RecordingEgressRequest) : guarded EgressDetails :=
  call b (sa_start_recording_egress inner req).
(** Several requests in one call, under a longer limit. *)
Definition cba_start_local_recording (req : LocalRecordingRequest) : guarded EgressDetails :=
  call_with_timeout b local_recording_timeout (sa_start_local_recording inner req).
Definition cba_stop_egress (id : string) : guarded () := call b (sa_stop_egress inner id).
Definition cba_list_egresses (room : string) : guarded (list EgressDetails) :=
  call b (sa_list_egresses inner room).
Definition cba_supports_egress : bool := sa_supports_egress inner.
Definition cba_update_participant_permissions (room identity : string) (can_subscribe : bool) :
    guarded () := call b (sa_update_participant_permissions inner room identity can_subscribe).
Definition cba_create_ad_ingress (room url identity : string) : guarded string :=
  call b (sa_create_ad_ingress inner room url identity).
Definition cba_delete_ingress (id : string) : guarded () := call b (sa_delete_ingress inner id).
Definition cba_update_subscriptions (room viewer : string) (tracks : list string) (subscribe : bool) :
    guarded () := call b (sa_update_subscriptions inner room viewer tracks subscribe).
End adapter.

(** [CircuitBreakerAdapter::new]. *)
Definition adapter_breaker : CircuitBreaker := new_breaker 3 (seconds 30).
Definition adapter_recording_timeout : Z := seconds LOCAL_RECORDING_CALL_TIMEOUT_SECS.

(** ** Concurrent calls *)
(** The breaker, the calls that were let through and have not come back, and the last
    instant anything happened. *)
Record Circuit : Type := {
  ci_state : CircuitState;
  ci_flight : gset positive;
  ci_now : Z
}.

Inductive label : Type :=
  | LetIn (at_ : Z) (c : positive)
  | Rejected (at_ : Z) (e : SfuError.t)
  | Panics (at_ : Z)
  | Finished (at_ : Z) (c : positive) (e : option SfuError.t)
  | Dropped (at_ : Z) (c : positive).

Definition label_time (l : label) : Z :=
  match l with
  | LetIn t _ | Rejected t _ | Panics t | Finished t _ _ | Dropped t _ => t
  end.

(** A call is checked, comes back (in time or not), or is dropped by its caller; the clock
    does not run backwards. *)
Inductive step (b : CircuitBreaker) : Circuit → label → Circuit → Prop :=
  | step_admitted s fl t now c s' :
      t ≤ now → c ∉ fl → check_state b now now s = Returned (Ok s') →
      step b {| ci_state := s; ci_flight := fl; ci_now := t |} (LetIn now c)
             {| ci_state := s'; ci_flight := {[c]} ∪ fl; ci_now := now |}
  | step_rejected s fl t now again e :
      t ≤ now → now ≤ again → check_state b now again s = Returned (Err e) →
      step b {| ci_state := s; ci_flight := fl; ci_now := t |} (Rejected now e)
             {| ci_state := s; ci_flight := fl; ci_now := again |}
  | step_panics s fl t now again :
      t ≤ now → now ≤ again → check_state b now again s = Panicked →
      step b {| ci_state := s; ci_flight := fl; ci_now := t |} (Panics now)
             {| ci_state := s; ci_flight := fl; ci_now := again |}
  | step_finished s fl t now c e :
      t ≤ now → c ∈ fl →
      step b {| ci_state := s; ci_flight := fl; ci_now := t |} (Finished now c e)
             {| ci_state := update_state b now e s; ci_flight := fl ∖ {[c]}; ci_now := now |}
  | step_dropped s fl t now c :
      t ≤ now → c ∈ fl →
      step b {| ci_state := s; ci_flight := fl; ci_now := t |} (Dropped now c)
             {| ci_state := s; ci_flight := fl ∖ {[c]}; ci_now := now |}.

Inductive steps (b : CircuitBreaker) : Circuit → list label → Circuit → Prop :=
  | steps_none c : steps b c [] c
  | steps_more c l c1 ls c2 : step b c l c1 → steps b c1 ls c2 → steps b c (l :: ls) c2.

Definition fresh_circuit (now : Z) : Circuit :=
  {| ci_state := Closed []; ci_flight := ∅; ci_now := now |}.

(** ** Lemmas *)
Lemma since_mono now now' t : now ≤ now' → since now t ≤ since now' t.
Proof. unfold since. lia. Qed.

Lemma step_time b c l c' : step b c l c' → ci_now c ≤ label_time l ∧ label_time l ≤ ci_now c'.
Proof. destruct 1; cbn; lia. Qed.

Lemma steps_time b c ls c' : steps b c ls c' → Forall (λ l, ci_now c ≤ label_time l) ls ∧ ci_now c ≤ ci_now c'.
Proof.
  induction 1 as [c|c l c1 ls c2 H Hs [IH IHn]]; [done|]. apply step_time in H as [H1 H2].
  split; [|lia]. constructor; [done|]. eapply Forall_impl; [exact IH|]. cbn. lia.
Qed.

Lemma update_open b now e t0 : update_state b now e (Open t0) = Open t0.
Proof. destruct e as [e|]; cbn; [|done]. by destruct (SfuError.is_outage e). Qed.

(** An open circuit stays as it is until a call is let through. *)
Lemma step_open b c l c' t0 :
  step b c l c' → ci_state c = Open t0 →
  (∃ now x, l = LetIn now x ∧ cb_recovery_timeout b ≤ since now t0 ∧ ci_state c' = HalfOpen) ∨
  ((∀ now x, l ≠ LetIn now x) ∧ ci_state c' = Open t0).
Proof.
  destruct 1; cbn; intros ->.
  - left. eexists _, _. split; [done|]. revert H1. cbn.
    destruct (Z.leb_spec (cb_recovery_timeout b) (since now t0)); [by intros [= <-]|].
    by destruct (_ <=? _).
  - by right.
  - by right.
  - right. split; [done|]. apply update_open.
  - by right.
Qed.

(** The reference: a breaker that keeps every outage since it was last closed. *)
Definition count_update (b : CircuitBreaker) (now : Z) (e : option SfuError.t) (s : CircuitState) :
    CircuitState :=
  match e, s with
  | Some e, Closed outages =>
      if negb (SfuError.is_outage e) then s
      else if cb_failure_threshold b <=? Z.of_nat (length
        (List.filter (λ t, since now t <? cb_failure_window b) outages ++ [now]))
      then Open now else Closed (outages ++ [now])
  | Some e, HalfOpen => if SfuError.is_outage e then Open now else Closed []
  | None, HalfOpen => Closed []
  | _, _ => s
  end.

Definition count_label (b : CircuitBreaker) (s : CircuitState) (l : label) : CircuitState :=
  match l with
  | LetIn _ _ => match s with Open _ => HalfOpen | _ => s end
  | Finished now _ e => count_update b now e s
  | _ => s
  end.

Definition replay (b : CircuitBreaker) (ls : list label) : CircuitState :=
  foldl (count_label b) (Closed []) ls.

(** From an instant on, two states count the same. *)
Definition same_count (b : CircuitBreaker) (from : Z) (s s' : CircuitState) : Prop :=
  match s, s' with
  | Closed l, Closed l' => ∀ now, from ≤ now →
      List.filter (λ t, since now t <? cb_failure_window b) l =
      List.filter (λ t, since now t <? cb_failure_window b) l'
  | Open t, Open t' => t = t'
  | HalfOpen, HalfOpen => True
  | _, _ => False
  end.

Lemma same_count_later b from from' s s' :
  from ≤ from' → same_count b from s s' → same_count b from' s s'.
Proof. destruct s, s'; cbn; try done. intros Hle Hs now Hn. apply Hs. lia. Qed.

(** What has left the window does not come back. *)
Lemma filter_window b now now' l :
  now ≤ now' →
  List.filter (λ t, since now' t <? cb_failure_window b)
    (List.filter (λ t, since now t <? cb_failure_window b) l) =
  List.filter (λ t, since now' t <? cb_failure_window b) l.
Proof.
  intros Hle. induction l as [|t l IH]; [done|]. cbn.
  pose proof (since_mono now now' t Hle).
  destruct (Z.ltb_spec (since now t) (cb_failure_window b)); cbn; rewrite IH; [done|].
  destruct (Z.ltb_spec (since now' t) (cb_failure_window b)); [lia|done].
Qed.

Lemma update_same_count b from now e s s' :
  from ≤ now → same_count b from s s' →
  same_count b now (update_state b now e s) (count_update b now e s').
Proof.
  intros Hle Hs. destruct e as [e|]; cbn.
  2: { destruct s, s'; try done. by eapply same_count_later. }
  destruct (SfuError.is_outage e); cbn [negb];
    [|destruct s, s'; try done; by eapply same_count_later].
  destruct s as [l|t|], s' as [l'|t'|]; try done. cbn in Hs.
  rewrite <-(Hs now Hle). destruct (_ <=? _) eqn:E; [done|]. cbn. intros now' Hn.
  rewrite !List.filter_app, filter_window by done. by rewrite (Hs now') by lia.
Qed.

Lemma step_same_count b c l c' s :
  step b c l c' → same_count b (ci_now c) (ci_state c) s →
  same_count b (ci_now c') (ci_state c') (count_label b s l).
Proof.
  destruct 1; cbn [ci_now ci_state count_label]; intros Hs.
  - revert H1. destruct s0 as [l|t0|]; cbn.
    + intros [= <-]. destruct s; try done. by eapply same_count_later.
    + destruct (_ <=? _); [|by destruct (_ <=? _)]. intros [= <-]. by destruct s.
    + intros [= <-]. by destruct s.
  - eapply same_count_later; [|exact Hs]. lia.
  - eapply same_count_later; [|exact Hs]. lia.
  - by eapply update_same_count.
  - eapply same_count_later; [|exact Hs]. lia.
Qed.

Lemma steps_same_count b c ls c' s :
  steps b c ls c' → same_count b (ci_now c) (ci_state c) s →
  same_count b (ci_now c') (ci_state c') (foldl (count_label b) s ls).
Proof.
  intros Hs. revert s. induction Hs as [c|c l c1 ls c2 H Hs IH]; intros s Hc; [done|].
  cbn. apply IH. by eapply step_same_count.
Qed.

(** ** What the breaker promises *)

(** C19. However many calls run at once, in whatever order they are let through, come back, time
    out or are dropped: the breaker, which forgets old failures, is at every moment in the
    state of one that remembers every outage since it was last closed. It opens exactly
    when the configured number of outages fell into one window, or when a probe failed, and
    answers that are no outage never bring it closer to that. *)
Theorem breaker_counts_every_outage b tr t0 c :
  steps b (fresh_circuit t0) tr c → same_count b (ci_now c) (ci_state c) (replay b tr).
Proof. intros Hs. apply (steps_same_count _ _ _ _ _ Hs). done. Qed.

(** Once the circuit has opened, no call reaches the SFU before the recovery time has
    passed, whatever calls that were under way before come back with; after it, the next
    call is let through, and the first answer closes the circuit. *)
Theorem open_circuit_spares_the_sfu b c tr c' t0 :
  steps b c tr c' → ci_state c = Open t0 → t0 ≤ ci_now c →
  (∀ now x, LetIn now x ∈ tr → t0 + cb_recovery_timeout b ≤ now) ∧
  (ci_state c' = Open t0 ∨ ∃ now x, LetIn now x ∈ tr) ∧
  (∀ now x, ci_state c' = Open t0 → ci_now c' ≤ now → t0 + cb_recovery_timeout b ≤ now →
     x ∉ ci_flight c' → ∃ c1, step b c' (LetIn now x) c1 ∧
       ∀ later y e c2, step b c1 (Finished later y e) c2 →
         (∀ e', e = Some e' → SfuError.is_outage e' = false) → ci_state c2 = Closed []).
Proof.
  intros Hs Ho Ht. split_and!.
  - intros now x Hin. induction Hs as [c|c l c1 ls c2 H Hs IH]; [by apply not_elem_of_nil in Hin|].
    destruct (step_open _ _ _ _ _ H Ho) as [(now' & x' & -> & Hr & _)|[Hl Ho']].
    + apply step_time in H as Hn. cbn in Hn.
      assert (Hr' : t0 + cb_recovery_timeout b ≤ now') by (unfold since in Hr; lia).
      apply elem_of_cons in Hin as [[= -> ->]|Hin]; [done|].
      apply steps_time in Hs as [Hall _]. rewrite Forall_forall in Hall.
      specialize (Hall _ Hin). cbn in Hall. lia.
    + apply elem_of_cons in Hin as [<-|Hin]; [by destruct (Hl now x)|].
      apply IH; [done| |done]. apply step_time in H. lia.
  - clear Ht. induction Hs as [c|c l c1 ls c2 H Hs IH]; [by left|].
    destruct (step_open _ _ _ _ _ H Ho) as [(now' & x' & -> & _)|[_ Ho']].
    + right. eexists _, _. left.
    + destruct (IH Ho') as [?|(now & x & Hin)]; [by left|right]. eexists _, _. by right.
  - intros now x Ho' Hn Hr Hx. destruct c' as [s fl t]. cbn in *. subst s.
    assert (Hc : check_state b now now (Open t0) = Returned (Ok HalfOpen)).
    { cbn. destruct (Z.leb_spec (cb_recovery_timeout b) (since now t0)); [done|]. unfold since in *. lia. }
    eexists. split; [by apply step_admitted|]. intros later y e c2 Hf He.
    inversion Hf; subst. cbn [ci_state]. destruct e as [e|]; [|done]. unfold update_state.
    by rewrite (He _ eq_refl).
Qed.

(** ** Examples *)
Module BreakerDemo.
Definition b : CircuitBreaker := new_breaker 3 (seconds 30).
Definition down : option SfuError.t := Some (SfuError.ConnectionFailed "down").
Definition gone : option SfuError.t := Some (SfuError.RoomNotFound "r").

(** Three calls at once, all of them failing. *)
Definition burst : list label :=
  [LetIn 0 1; LetIn 0 2; LetIn 0 3; Finished 5 2 down; Finished 6 1 gone;
   Finished 7 3 down; LetIn 8 4; Finished 9 4 down].
End BreakerDemo.
Import BreakerDemo.

(** Decides a run step by step. *)
Ltac run_steps :=
  repeat match goal with
  | |- steps _ _ (LetIn _ _ :: _) _ =>
      eapply steps_more; [eapply step_admitted; [lia|set_solver|reflexivity]|]
  | |- steps _ _ (Finished _ _ _ :: _) _ =>
      eapply steps_more; [eapply step_finished; [lia|set_solver]|]
  | |- steps _ _ (Rejected _ _ :: _) _ =>
      eapply steps_more; [eapply (step_rejected _ _ _ _ _ _ _); [lia|reflexivity|reflexivity]|]
  end; apply steps_none.

Lemma burst_opens : ∃ c, steps b (fresh_circuit 0) burst c ∧ ci_state c = Open 9 ∧ ci_now c = 9.
Proof. eexists. split; [unfold fresh_circuit, burst; run_steps|]. by vm_compute. Qed.

Lemma breaker_counts_every_outage_witness :
  ∃ c, steps b (fresh_circuit 0) burst c ∧ same_count b (ci_now c) (ci_state c) (replay b burst).
Proof.
  destruct burst_opens as (c & Hs & _). exists c. split; [exact Hs|].
  exact (breaker_counts_every_outage b burst 0 c Hs).
Defined.

Lemma open_circuit_spares_the_sfu_witness :
  let c := {| ci_state := Open 9; ci_flight := {[ 5%positive ]}; ci_now := 9 |} in
  let ls := [Finished 10 5 None; Rejected 11 (SfuError.CircuitOpen 29)] in
  ∃ c', steps b c ls c' ∧ ∀ now x, LetIn now x ∈ ls → 9 + seconds 30 ≤ now.
Proof.
  intros c ls.
  assert (Hs : ∃ c', steps b c ls c') by (eexists; subst c ls; run_steps).
  destruct Hs as [c' Hs]. exists c'. split; [exact Hs|].
  exact (proj1 (open_circuit_spares_the_sfu b c ls c' 9 Hs eq_refl (Z.le_refl 9))).
Defined.

(** While it probes, the breaker lets every call through, not one. *)
Example several_probes : ∃ c, steps b {| ci_state := Open 0; ci_flight := ∅; ci_now := 0 |}
    [LetIn (seconds 30) 1; LetIn (seconds 30) 2; LetIn (seconds 30) 3] c.
Proof. eexists. unfold seconds, NANOS. run_steps. Qed.

(** The remaining time is computed from a second reading of the clock: a call that straddles
    the end of the recovery time panics. *)
Example straddling_call_panics : check_state b (seconds 30 - 1) (seconds 30 + 1) (Open 0) = Panicked.
Proof. by vm_compute. Qed.
