(* ===== verification/LiveKit.v ===== *)
(** * LiveKit: the SFU adapter over LiveKit's API

    [mm-sfu/src/livekit.rs] and the parsing of LiveKit's webhooks, [mm-sfu/src/webhook.rs].
    The clients of the crate livekit-api (room, egress, ingress, access tokens, the webhook
    receiver) are the class [LiveKitApi]. Log lines are left out. *)
From S2P Require Import SwitchPool.
From S2P Require Import Prelude ApiSchema Schema Errors Text MatrixClient StreamsDb StreamLifecycle StreamsApi.
From S2P Require Import RecordingsApi SfuBreaker.
Local Open Scope Z_scope.
Local Open Scope mm_scope.

(** ** The crate livekit-api *)
(** An error of a service: the code of a Twirp answer, if it is one, and the text. *)
Record ServiceError : Type := { sv_twirp_code : option string; sv_text : string }.

Record LkRoom : Type := { lk_sid : string; lk_name : string; lk_num_participants : Z }.
Record LkParticipant : Type := {
  lp_sid : string;
  lp_identity : string;
  lp_name : string;
  lp_is_publisher : bool
}.

Record LkEgress : Type := {
  le_egress_id : string;
  le_status : Z;
  le_error : string;
  le_room_name : string;
  le_started_at : Z;
  le_segment_playlists : list string;
  le_file_names : list string
}.

Record VideoGrants : Type := {
  vg_room_join : bool;
  vg_room : string;
  vg_can_publish : bool;
  vg_can_subscribe : bool;
  vg_can_publish_data : bool;
  vg_can_publish_sources : list string
}.

Record AccessToken : Type := {
  at_identity : string;
  at_name : string;
  at_ttl : Z;
  at_grants : VideoGrants
}.

Record S3Upload : Type := {
  su_access_key : string;
  su_secret : string;
  su_region : string;
  su_endpoint : string;
  su_bucket : string;
  su_force_path_style : bool
}.

Inductive EgressOutput : Type :=
  | Segments (filename_prefix playlist_name live_playlist_name : string) (segment_duration : Z)
      (s3 : S3Upload)
  | File (filepath : string) (disable_manifest : bool) (s3 : option S3Upload).

Record CreateIngress : Type := {
  ig_name : string;
  ig_room_name : string;
  ig_participant_identity : string;
  ig_participant_name : string;
  ig_url : string;
  ig_enable_transcoding : bool
}.

Class LiveKitApi (N : Type) : Type := {
  lk_list_rooms : list string → st N (result (list LkRoom) ServiceError);
  lk_create_room : string → Z → Z → st N (result LkRoom ServiceError);
  lk_delete_room : string → st N (result () ServiceError);
  lk_remove_participant : string → string → st N (result () ServiceError);
  lk_list_participants : string → st N (result (list LkParticipant) ServiceError);
  lk_update_permission : string → string → bool → bool → bool → st N (result () ServiceError);
  lk_update_subscriptions : string → string → list string → bool → st N (result () ServiceError);
  lk_room_composite_egress : string → list EgressOutput → bool → st N (result LkEgress ServiceError);
  lk_participant_egress : string → string → list EgressOutput → bool →
    st N (result LkEgress ServiceError);
  lk_stop_egress : string → st N (result () ServiceError);
  lk_list_egress : string → bool → st N (result (list LkEgress) ServiceError);
  lk_create_url_ingress : CreateIngress → st N (result string ServiceError);
  lk_delete_ingress : string → st N (result () ServiceError);
  lk_to_jwt : string → string → AccessToken → st N (result string string)
}.

(** ** Conversions *)
Definition map_service_err (e : ServiceError) : SfuError.t :=
  if bool_decide (sv_twirp_code e = Some "not_found") then SfuError.RoomNotFound (sv_text e)
  else if contains "not found" (sv_text e) || contains "NotFound" (sv_text e)
  then SfuError.RoomNotFound (sv_text e)
  else SfuError.ConnectionFailed (sv_text e).

Definition to_lk_s3_upload (c : EgressS3Config) : S3Upload := {|
  su_access_key := s3_access_key c; su_secret := s3_secret_key c; su_region := s3_region c;
  su_endpoint := s3_endpoint c; su_bucket := s3_bucket c;
  su_force_path_style := s3_force_path_style c |}.

(** [DateTime::from_timestamp] of whole seconds; [None] outside chrono's range. *)
Definition from_timestamp (secs : Z) : option DateTime :=
  if (-8334601228800 <=? secs) && (secs <=? 8210266876799) then Some (seconds secs) else None.

Definition map_egress_status (code : Z) (error : string) : EgressStatus :=
  if code =? 0 then Starting
  else if code =? 1 then EgressActive
  else if code =? 2 then Ending
  else if code =? 3 then Complete
  else if code =? 4 then EgressFailed error
  else if code =? 5 then EgressFailed ("aborted: " +:+ error)
  else if code =? 6 then EgressFailed "egress limit reached"
  else Unknown code.

Definition map_egress_info (lk : LkEgress) : EgressDetails := {|
  eg_info := {| ei_egress_id := le_egress_id lk;
                ei_status := map_egress_status (le_status lk) (le_error lk) |};
  eg_room_name := le_room_name lk;
  eg_started_at := if 0 <? le_started_at lk then from_timestamp (le_started_at lk) else None;
  eg_output_url := or_else (head (le_segment_playlists lk)) (head (le_file_names lk)) |}.

(** [str::replace]: every occurrence from the left, without overlap. Each round consumes a
    character, so the length of the text is enough. *)
Fixpoint replace_go (fuel : nat) (pat by_ s : string) : string :=
  match fuel with
  | O => s
  | S fuel' =>
      match strip_prefix pat s with
      | Some rest => by_ +:+ replace_go fuel' pat by_ rest
      | None => match s with
                | EmptyString => EmptyString
                | String a s' => String a (replace_go fuel' pat by_ s')
                end
      end
  end.
Definition replace (pat by_ s : string) : string := replace_go (String.length s) pat by_ s.

(** ** The adapter *)
Record LiveKitAdapter : Type := {
  la_url : string;
  la_public_url : string;
  la_api_key : string;
  la_api_secret : string
}.

Definition new_livekit (url api_key api_secret : string) (public_url : option string) :
    LiveKitAdapter := {|
  la_url := url; la_public_url := default url public_url; la_api_key := api_key;
  la_api_secret := api_secret |}.

Section adapter.
Context {N : Type} `{LiveKitApi N}.
Variable a : LiveKitAdapter.

(** A call whose error is mapped. *)
Definition served {A} (m : st N (result A ServiceError)) : st N (result A SfuError.t) :=
  let! r := m in st_ret (map_err map_service_err r).

Definition health_check : st N (result () SfuError.t) :=
  let? _ := served (lk_list_rooms []) in st_ret (Ok ()).

Definition livekit_create_room (req : CreateRoomRequest) : st N (result SfuRoom SfuError.t) :=
  let? room := served (lk_create_room (cr_name req) (cr_max_participants req) 300) in
  st_ret (Ok {| so_sfu_room_id := lk_sid room; so_name := lk_name room;
                so_num_participants := lk_num_participants room |}).

Definition grants_of (room : SfuRoom) (p : ParticipantPermissions) : VideoGrants := {|
  vg_room_join := true; vg_room := so_name room; vg_can_publish := pp_can_publish p;
  vg_can_subscribe := pp_can_subscribe p; vg_can_publish_data := pp_can_publish_data p;
  vg_can_publish_sources := if has_source_level_grants p then allowed_sources p else [] |}.

Definition livekit_generate_token (room : SfuRoom) (who : ParticipantInfo)
    (p : ParticipantPermissions) : st N (result SfuToken SfuError.t) :=
  let! r := lk_to_jwt (la_api_key a) (la_api_secret a) {|
    at_identity := pi_identity who; at_name := default (pi_identity who) (pi_name who);
    at_ttl := seconds 60; at_grants := grants_of room p |} in
  st_ret (match r with
  | Ok token => Ok {| tk_token := token; tk_url := la_public_url a |}
  | Err e => Err (SfuError.Internal ("token generation failed: " +:+ e))
  end).

Definition livekit_list_participants (room : string) : st N (result (list ParticipantInfo) SfuError.t) :=
  let? ps := served (lk_list_participants room) in
  st_ret (Ok ((λ p, {| pi_sfu_participant_id := lp_sid p; pi_identity := lp_identity p;
    pi_name := if is_empty_str (lp_name p) then None else Some (lp_name p) |}) <$> ps)).

Definition room_stats (room : string) : st N (result RoomStats SfuError.t) :=
  let? ps := served (lk_list_participants room) in
  let total := u32_wrap (Z.of_nat (length ps)) in
  let publishers := u32_wrap (Z.of_nat (length (List.filter lp_is_publisher ps))) in
  st_ret (Ok {| rt_sfu_room_id := room; rt_num_participants := total;
    rt_num_publishers := publishers; rt_num_subscribers := Z.max 0 (total - publishers) |}).

Definition start_hls_egress (req : HlsEgressRequest) : st N (result EgressDetails SfuError.t) :=
  let prefix := s3_path_prefix (hq_s3_config req) in
  let? info := served (lk_room_composite_egress (hq_room_name req)
    [Segments (prefix +:+ "segment") (prefix +:+ "playlist.m3u8") (prefix +:+ "live.m3u8")
       (hq_segment_duration_secs req) (to_lk_s3_upload (hq_s3_config req))]
    (hq_audio_only req)) in
  st_ret (Ok (map_egress_info info)).

Definition start_recording_egress (req : RecordingEgressRequest) :
    st N (result EgressDetails SfuError.t) :=
  let? info := served (lk_room_composite_egress (rq_room_name req)
    [File (s3_path_prefix (rq_s3_config req) +:+ "recording.mp4") false
       (Some (to_lk_s3_upload (rq_s3_config req)))]
    (rq_audio_only req)) in
  st_ret (Ok (map_egress_info info)).

Definition livekit_local_recording (req : LocalRecordingRequest) :
    st N (result EgressDetails SfuError.t) :=
  let screen_path := replace ".mp4" "_screen.mp4" (lr_output_path req) in
  let? participants := livekit_list_participants (lr_room_name req) in
  match head participants with
  | None => st_ret (Err (SfuError.Internal "no participants in room to record"))
  | Some p =>
      let? info := served (lk_participant_egress (lr_room_name req) (pi_identity p)
        [File (lr_output_path req) true None] false) in
      let! _ := (if lr_screen_share req
        then let! _ := lk_participant_egress (lr_room_name req) (pi_identity p)
                         [File screen_path true None] true in st_ret ()
        else st_ret ()) in
      st_ret (Ok (map_egress_info info))
  end.

Definition livekit_list_egresses (room : string) : st N (result (list EgressDetails) SfuError.t) :=
  let? l := served (lk_list_egress room false) in st_ret (Ok (map_egress_info <$> l)).

Definition update_participant_permissions (room identity : string) (can_subscribe : bool) :
    st N (result () SfuError.t) :=
  served (lk_update_permission room identity can_subscribe true true).

Definition create_ad_ingress (room url identity : string) : st N (result string SfuError.t) :=
  served (lk_create_url_ingress {| ig_name := "mm-ad-" +:+ identity; ig_room_name := room;
    ig_participant_identity := identity; ig_participant_name := "Ad"; ig_url := url;
    ig_enable_transcoding := true |}).

Definition livekit : SfuAdapter N := {|
  sa_name := "livekit"; sa_health_check := health_check; sa_create_room := livekit_create_room;
  sa_delete_room id := served (lk_delete_room id); sa_generate_token := livekit_generate_token;
  sa_remove_participant r p := served (lk_remove_participant r p);
  sa_list_participants := livekit_list_participants; sa_room_stats := room_stats;
  sa_supports_e2ee := false; sa_start_hls_egress := start_hls_egress;
  sa_start_recording_egress := start_recording_egress;
  sa_start_local_recording := livekit_local_recording;
  sa_stop_egress e := served (lk_stop_egress e); sa_list_egresses := livekit_list_egresses;
  sa_supports_egress := true;
  sa_update_participant_permissions := update_participant_permissions;
  sa_send_data_message _ _ _ := unsupported "data messaging";
  sa_create_ad_ingress := create_ad_ingress;
  sa_delete_ingress i := served (lk_delete_ingress i);
  sa_update_subscriptions r v ts s := served (lk_update_subscriptions r v ts s) |}.
End adapter.

(** ** Webhooks *)
Module WebhookEventType.
Inductive t : Type :=
  | RoomStarted | RoomFinished | ParticipantJoined | ParticipantLeft
  | ParticipantConnectionAborted | TrackPublished | TrackUnpublished
  | EgressStarted | EgressUpdated | EgressEnded | IngressStarted | IngressEnded
  | UnknownEvent (name : string).

Definition from_livekit (s : string) : t :=
  if String.eqb s "room_started" then RoomStarted
  else if String.eqb s "room_finished" then RoomFinished
  else if String.eqb s "participant_joined" then ParticipantJoined
  else if String.eqb s "participant_left" then ParticipantLeft
  else if String.eqb s "participant_connection_aborted" then ParticipantConnectionAborted
  else if String.eqb s "track_published" then TrackPublished
  else if String.eqb s "track_unpublished" then TrackUnpublished
  else if String.eqb s "egress_started" then EgressStarted
  else if String.eqb s "egress_updated" then EgressUpdated
  else if String.eqb s "egress_ended" then EgressEnded
  else if String.eqb s "ingress_started" then IngressStarted
  else if String.eqb s "ingress_ended" then IngressEnded
  else UnknownEvent s.

Definition as_str (e : t) : string :=
  match e with
  | RoomStarted => "room_started"
  | RoomFinished => "room_finished"
  | ParticipantJoined => "participant_joined"
  | ParticipantLeft => "participant_left"
  | ParticipantConnectionAborted => "participant_connection_aborted"
  | TrackPublished => "track_published"
  | TrackUnpublished => "track_unpublished"
  | EgressStarted => "egress_started"
  | EgressUpdated => "egress_updated"
  | EgressEnded => "egress_ended"
  | IngressStarted => "ingress_started"
  | IngressEnded => "ingress_ended"
  | UnknownEvent _ => "unknown"
  end.
End WebhookEventType.

Record WebhookEvent : Type := {
  we_id : string;
  we_event : WebhookEventType.t;
  we_room : option (string * string);
  we_participant : option (string * string);
  we_egress_id : option string;
  we_egress_status : option string;
  we_egress_error : option string;
  we_created_at : option Z
}.

Inductive WebhookParseError : Type :=
  | MissingAuth
  | InvalidSignature (why : string)
  | InvalidBody (why : string).

(** Why the receiver of livekit-api refuses a request. *)
Inductive ReceiveError : Type :=
  | BadData (text : string)
  | BadAuth (kind : option string)
  | BadBodyHash.

(** Its decoded event; an egress is its id, its status and its error. *)
Record LkWebhook : Type := {
  lw_id : string;
  lw_event : string;
  lw_room : option (string * string);
  lw_participant : option (string * string);
  lw_egress : option (string * Z * string);
  lw_created_at : Z
}.

(** The kinds of jsonwebtoken's errors, as a fixed word. *)
Definition authorization_failure (kind : option string) : string :=
  match kind with
  | Some "InvalidSignature" => "bad_signature"
  | Some "InvalidIssuer" => "wrong_issuer"
  | Some "ExpiredSignature" => "expired"
  | Some "ImmatureSignature" => "not_yet_valid"
  | _ => "malformed"
  end.

Definition egress_status_name (code : Z) : string :=
  if code =? 0 then "EGRESS_STARTING"
  else if code =? 1 then "EGRESS_ACTIVE"
  else if code =? 2 then "EGRESS_ENDING"
  else if code =? 3 then "EGRESS_COMPLETE"
  else if code =? 4 then "EGRESS_FAILED"
  else if code =? 5 then "EGRESS_ABORTED"
  else if code =? 6 then "EGRESS_LIMIT_REACHED"
  else "UNKNOWN(" +:+ pretty code +:+ ")".

Section webhook.
(** The receiver: it checks the signature and the hash of the body, then decodes it. *)
Variable receive : string → string → string → string → result LkWebhook ReceiveError.

(** The body is [None] when it is not UTF-8. *)
Definition parse_webhook (body : option string) (auth_header : option string) (api_key api_secret : string) :
    result WebhookEvent WebhookParseError :=
  match auth_header with
  | None => Err MissingAuth
  | Some token =>
      match receive api_key api_secret <$> body with
      | None => Err (InvalidSignature "body is not UTF-8")
      | Some received =>
      match received token with
      | Err (BadData e) => Err (InvalidBody e)
      | Err (BadAuth k) => Err (InvalidSignature (authorization_failure k))
      | Err BadBodyHash => Err (InvalidSignature "body_hash_mismatch")
      | Ok e => Ok {|
          we_id := lw_id e; we_event := WebhookEventType.from_livekit (lw_event e);
          we_room := lw_room e; we_participant := lw_participant e;
          we_egress_id := (λ x, x.1.1) <$> lw_egress e;
          we_egress_status := (λ x, egress_status_name x.1.2) <$> lw_egress e;
          we_egress_error := match lw_egress e with
                             | Some x => if is_empty_str x.2 then None else Some x.2
                             | None => None
                             end;
          we_created_at := Some (lw_created_at e) |}
      end
      end
  end.
End webhook.

(** The label of a known event is the name it came under. *)
Lemma event_label_round_trip (s : string) :
  WebhookEventType.as_str (WebhookEventType.from_livekit s) = s ∨
  WebhookEventType.from_livekit s = WebhookEventType.UnknownEvent s.
Proof.
  unfold WebhookEventType.from_livekit.
  repeat match goal with |- context [String.eqb s ?x] =>
    destruct (String.eqb_spec s x) as [->|_]; [by left|] end.
  by right.
Qed.

(** ** LiveKit behind the breaker *)
Section behind.
Context {N : Type} `{Clock N, Timer N, LiveKitApi N}.

(** A call that was answered, even by an error of the room, leaves a closed circuit as it
    is. *)
Lemma answered_keeps_closed {A} b limit (f : st N (result A SfuError.t)) fs n r n' :
  timeout limit f n = (Some r, n') →
  (∀ e, r = Err e → SfuError.is_outage e = false) →
  call_with_timeout b limit f (Closed fs, n) = (Returned r, (Closed fs, n')).
Proof.
  intros Et Hr. unfold call_with_timeout, get_state, put_state, st_bind, st_ret, st_snd. cbn.
  rewrite Et. cbn. destruct r as [a|e]; [done|]. cbn. by rewrite (Hr e eq_refl).
Qed.

(** Ending broadcasts whose room LiveKit already removed, any number of them, never
    opens the circuit. *)
Theorem missing_room_keeps_circuit b a fs n n' id text :
  timeout (cb_call_timeout b) (sa_delete_room (livekit (N := N) a) id) n =
    (Some (Err (map_service_err {| sv_twirp_code := Some "not_found"; sv_text := text |})), n') →
  (cba_delete_room (livekit a) b id (Closed fs, n)).2 = (Closed fs, n').
Proof.
  intros Et. unfold cba_delete_room, call. erewrite answered_keeps_closed; [done|exact Et|].
  by intros e [= <-].
Qed.
End behind.

(** ** Examples *)
Module LiveKitDemo.
(** A LiveKit that answers, with nobody in its rooms; the state is the clock. *)
#[export] Instance api : LiveKitApi Z := {|
  lk_list_rooms _ := st_ret (Ok []);
  lk_create_room n _ _ := st_ret (Ok {| lk_sid := "RM"; lk_name := n; lk_num_participants := 0 |});
  lk_delete_room _ := st_ret (Ok ()); lk_remove_participant _ _ := st_ret (Ok ());
  lk_list_participants _ := st_ret (Ok []); lk_update_permission _ _ _ _ _ := st_ret (Ok ());
  lk_update_subscriptions _ _ _ _ := st_ret (Ok ());
  lk_room_composite_egress _ _ _ := st_ret (Err {| sv_twirp_code := None; sv_text := "" |});
  lk_participant_egress _ _ _ _ := st_ret (Err {| sv_twirp_code := None; sv_text := "" |});
  lk_stop_egress _ := st_ret (Ok ()); lk_list_egress _ _ := st_ret (Ok []);
  lk_create_url_ingress _ := st_ret (Ok "IN"); lk_delete_ingress _ := st_ret (Ok ());
  lk_to_jwt _ _ _ := st_ret (Ok "jwt") |}.
#[export] Instance clock : Clock Z := {|
  instant_now n := (n, n + 1); utc_now n := (n, n); sleep d n := ((), n + d) |}.
#[export] Instance timer : Timer Z := {| timeout A limit m n := let '(a, n') := m n in (Some a, n') |}.
Definition a : LiveKitAdapter := new_livekit "http://livekit:7880" "key" "secret" None.
Definition record_ : st (CircuitState * Z) (ran (result EgressDetails SfuError.t)) :=
  cba_start_local_recording (livekit a) adapter_breaker adapter_recording_timeout
    {| lr_room_name := "r"; lr_output_path := "/data/x.mp4"; lr_audio_only := false;
       lr_screen_share := true |}.
Definition create : st (CircuitState * Z) (ran (result SfuRoom SfuError.t)) :=
  cba_create_room (livekit a) adapter_breaker {| cr_name := "s"; cr_max_participants := 9;
    cr_enable_recording := false; cr_media_config := default_media_config |}.
End LiveKitDemo.
Import LiveKitDemo.

(** A room with nobody in it is an answer of LiveKit, but counts as an outage: three tries
    to record one refuse every new broadcast for half a minute. *)
Example empty_room_opens_the_circuit :
  let w := (record_ (record_ (record_ (Closed [], 0)).2).2).2 in
  is_open w.1 = true ∧ (create w).1 = Returned (Err (SfuError.CircuitOpen 29)).
Proof. by vm_compute. Qed.

Example screen_file : replace ".mp4" "_screen.mp4" "/data/x.mp4" = "/data/x_screen.mp4".
Proof. by vm_compute. Qed.
