(* ===== verification/Auth.v ===== *)
(** * Auth: who a request comes from

    [mm-core/src/auth.rs] (session, refresh and admin tokens), the token cache of
    [mm-core/src/cache.rs], [mm-core/src/federation.rs], the extractors of
    [mm-api/src/middleware.rs], the two auth handlers of [mm-api/src/client.rs], the widget's
    session of [mm-api/src/widget.rs] and the dashboard's login of [mm-api/src/admin.rs]. The
    crate jsonwebtoken is the class [Jwt], SHA-256 a parameter. A request happens at one
    instant. Metrics and log lines are left out. *)
From Stdlib Require Import Ascii.
From S2P Require Import SwitchPool.
From S2P Require Import Prelude ApiSchema Json Schema Errors Text MatrixClient Entitlement.
From S2P Require Import StreamLifecycle Scaleway.
Local Open Scope Z_scope.
Local Open Scope mm_scope.

(** ** Tokens *)
Definition MM_JWT_ISSUER : string := "matrixmedia".
Definition MM_JWT_AUDIENCE : string := "mm-api".
Definition MM_REFRESH_AUDIENCE : string := "mm-refresh".

(** [env]: the variable MM_JWT_TTL_SECS. *)
Definition session_ttl_secs (env : option string) : Z :=
  Z.min 604800 (Z.max 60 (default 900 (env ≫= parse_usize))).

Definition REFRESH_TTL_SECS : Z := 86400.
Definition ADMIN_SESSION_TTL_SECS : Z := 86400.

(** A refresh token carries the same claims without the last two. *)
Record MMSessionClaims : Type := {
  jc_sub : string;
  jc_iss : string;
  jc_aud : string;
  jc_exp : Z;
  jc_iat : Z;
  jc_jti : string;
  jc_room_id : option string;
  jc_role : option string
}.

Record Validation : Type := {
  va_issuer : string;
  va_audience : string;
  va_required : list string;
  va_leeway : Z
}.

Definition session_validation : Validation := {|
  va_issuer := MM_JWT_ISSUER; va_audience := MM_JWT_AUDIENCE;
  va_required := ["exp"; "iss"; "aud"; "sub"; "iat"; "jti"]; va_leeway := 0 |}.

Definition refresh_validation : Validation := {|
  va_issuer := MM_JWT_ISSUER; va_audience := MM_REFRESH_AUDIENCE;
  va_required := ["exp"; "iss"; "aud"; "sub"; "iat"; "jti"]; va_leeway := 0 |}.

(** jsonwebtoken with HS256: encoding under a key, and decoding with the validation's
    checks at an instant in seconds. *)
Class Jwt : Type := {
  jwt_encode : string → MMSessionClaims → result string string;
  jwt_decode : Validation → Z → string → string → result MMSessionClaims string
}.

(** What the code relies on: a decoded token passed the checks, a token that was encoded
    under a key is decoded to the claims it was made of, and no token is empty. *)
Class JwtLaws `{Jwt} : Type := {
  jwt_checked v now key token c : jwt_decode v now key token = Ok c →
    jc_iss c = va_issuer v ∧ jc_aud c = va_audience v ∧ now ≤ jc_exp c + va_leeway v;
  jwt_same v now key token c c' : jwt_encode key c = Ok token →
    jwt_decode v now key token = Ok c' → c' = c;
  jwt_accepted v now key token c : jwt_encode key c = Ok token →
    jc_iss c = va_issuer v → jc_aud c = va_audience v → now ≤ jc_exp c + va_leeway v →
    jwt_decode v now key token = Ok c;
  jwt_not_empty key c token : jwt_encode key c = Ok token → token ≠ EmptyString
}.

Definition now_secs (now : DateTime) : Z := now / NANOS.

Section tokens.
Context {N : Type} `{Http N, Jwt}.
Variable env_ttl : option string.

Definition session_claims (user : string) (now ttl : Z) (jti : string) (role : option string) :
    MMSessionClaims := {|
  jc_sub := user; jc_iss := MM_JWT_ISSUER; jc_aud := MM_JWT_AUDIENCE; jc_exp := now + ttl;
  jc_iat := now; jc_jti := jti; jc_room_id := None; jc_role := role |}.

Definition refresh_claims (user : string) (now : Z) (jti : string) : MMSessionClaims := {|
  jc_sub := user; jc_iss := MM_JWT_ISSUER; jc_aud := MM_REFRESH_AUDIENCE;
  jc_exp := now + REFRESH_TTL_SECS; jc_iat := now; jc_jti := jti; jc_room_id := None;
  jc_role := None |}.

(** The session token and the refresh token. *)
Definition issue_session_token (now : DateTime) (user key : string) :
    st N (result (string * string) MMError.t) :=
  let! jti := new_v4 in
  match jwt_encode key (session_claims user (now_secs now) (session_ttl_secs env_ttl) jti None) with
  | Err e => st_ret (Err (MMError.Internal ("JWT encode failed: " +:+ e)))
  | Ok session =>
      let! jti := new_v4 in
      match jwt_encode key (refresh_claims user (now_secs now) jti) with
      | Err e => st_ret (Err (MMError.Internal ("refresh JWT encode failed: " +:+ e)))
      | Ok refresh => st_ret (Ok (session, refresh))
      end
  end.

Definition issue_admin_session_token (now : DateTime) (user role key : string) :
    st N (result string MMError.t) :=
  let! jti := new_v4 in
  st_ret (map_err (λ e, MMError.Internal ("admin JWT encode failed: " +:+ e))
    (jwt_encode key (session_claims user (now_secs now) ADMIN_SESSION_TTL_SECS jti (Some role)))).

Definition validate_session_token (now : DateTime) (token key : string) :
    result MMSessionClaims MMError.t :=
  map_err (λ e, MMError.api ErrorCode.Forbidden ("invalid token: " +:+ e))
    (jwt_decode session_validation (now_secs now) key token).

Definition refresh_session_token (now : DateTime) (refresh key : string) :
    st N (result (string * string) MMError.t) :=
  match jwt_decode refresh_validation (now_secs now) key refresh with
  | Err e => st_ret (Err (MMError.api ErrorCode.Forbidden ("invalid refresh token: " +:+ e)))
  | Ok c => issue_session_token now (jc_sub c) key
  end.
End tokens.

(** ** The token cache *)
Definition DEFAULT_TTL_SECS : Z := 60.

Section cache.
Context {C : Type} `{TtlCache C string string}.
Variable hash_token : string → string.

(** The part of the state a cache is in is given by the two functions. *)
Definition get_or_validate {S} (get : S → C) (set : C → S → S) (now : DateTime) (token : string)
    (validate : st S (result string MMError.t)) : st S (result string MMError.t) := λ s,
  match tc_get now (hash_token token) (get s) with
  | Some user => (Ok user, s)
  | None =>
      let '(r, s) := validate s in
      match r with
      | Err e => (Err e, s)
      | Ok user => (Ok user, set (tc_insert now (hash_token token) user (get s)) s)
      end
  end.

Definition invalidate_token (token : string) (c : C) : C := tc_invalidate (hash_token token) c.
End cache.

(** ** Federation *)
Inductive FederationDecision : Type :=
  | Allowed
  | Denied (reason : string)
  | Disabled.

Definition has_whitespace (s : string) : bool :=
  existsb (λ c, bool_decide (c ∈ white_space)) (chars s).

Definition is_valid_server_name (name : string) : bool :=
  negb (is_empty_str name) && (Z.of_nat (String.length name) <=? 255) &&
  negb (has_whitespace name || contains "/" name || contains "://" name).

Definition check_federation (server : string) (enabled : bool) (allow_list deny_list : list string) :
    FederationDecision :=
  if negb enabled then Disabled
  else if negb (is_valid_server_name server) then Denied ("invalid server name: " +:+ server)
  else if existsb (String.eqb server) deny_list
  then Denied ("server " +:+ server +:+ " is denylisted")
  else if bool_decide (allow_list = []) then Allowed
  else if existsb (String.eqb server) allow_list then Allowed
  else Denied ("server " +:+ server +:+ " not in allowlist").

(** ** Extractors *)
Record AuthConfig : Type := {
  au_jwt_signing_key : string;
  au_admin_token : string;
  au_hs_token : string;
  au_matrix_homeserver_url : string
}.

(** The Authorization header: absent, not text, or text. *)
Inductive Authorization : Type :=
  | NoHeader
  | NotText
  | HeaderText (value : string).

Definition extract_bearer_token (h : Authorization) : result string MMError.t :=
  match h with
  | NoHeader => Err (MMError.api ErrorCode.Forbidden "missing Authorization header")
  | NotText => Err (MMError.api ErrorCode.Forbidden "invalid Authorization header encoding")
  | HeaderText v =>
      match strip_prefix "Bearer " v with
      | None => Err (MMError.api ErrorCode.Forbidden "Authorization header must use Bearer scheme")
      | Some token =>
          if is_empty_str token
          then Err (MMError.api ErrorCode.Forbidden "empty bearer token") else Ok token
      end
  end.

(** The bytes of two texts of one length, xor-ed and or-ed together. *)
Fixpoint diff_bytes (a b : string) (acc : Z) : Z :=
  match a, b with
  | String x a', String y b' =>
      diff_bytes a' b' (Z.lor acc (Z.lxor (Z.of_nat (nat_of_ascii x)) (Z.of_nat (nat_of_ascii y))))
  | _, _ => acc
  end.

Definition constant_time_eq (a b : string) : bool :=
  if negb (String.length a =? String.length b)%nat then false else diff_bytes a b 0 =? 0.

Definition WHOAMI_CACHE_TTL_SECS : Z := 60.

Inductive AdminRole : Type := AdminRole_Admin | AdminRole_Demo.

Record AdminAuth : Type := { aa_role : AdminRole; aa_user_id : option string }.

Definition is_demo (a : AdminAuth) : bool :=
  match aa_role a with AdminRole_Demo => true | AdminRole_Admin => false end.

Definition require_admin (a : AdminAuth) : result () MMError.t :=
  match aa_role a with
  | AdminRole_Admin => Ok ()
  | AdminRole_Demo => Err (MMError.api ErrorCode.Forbidden "admin access required")
  end.

Definition actor (a : AdminAuth) : string := default "admin-token" (aa_user_id a).

Section admin.
Context `{Jwt}.

Definition admin_auth (cfg : AuthConfig) (now : DateTime) (h : Authorization) :
    result AdminAuth MMError.t :=
  match extract_bearer_token h with
  | Err e => Err e
  | Ok token =>
      let by_role := (if is_empty_str (au_jwt_signing_key cfg) then None
        else match validate_session_token now token (au_jwt_signing_key cfg) with
             | Ok c => match jc_role c with
                       | Some role => Some (c, role)
                       | None => None
                       end
             | Err _ => None
             end) in
      match by_role with
      | Some (c, role) =>
          if String.eqb role "admin"
          then Ok {| aa_role := AdminRole_Admin; aa_user_id := Some (jc_sub c) |}
          else if String.eqb role "demo"
          then Ok {| aa_role := AdminRole_Demo; aa_user_id := Some (jc_sub c) |}
          else Err (MMError.api ErrorCode.Forbidden ("unknown admin role: " +:+ role))
      | None =>
          if (32 <=? Z.of_nat (String.length (au_admin_token cfg))) &&
             constant_time_eq token (au_admin_token cfg)
          then Ok {| aa_role := AdminRole_Admin; aa_user_id := None |}
          else Err (MMError.api ErrorCode.Forbidden "invalid admin token")
      end
  end.
End admin.

Definition appservice_auth (cfg : AuthConfig) (h : Authorization) : result () MMError.t :=
  if is_empty_str (au_hs_token cfg)
  then Err (MMError.api ErrorCode.Forbidden "appservice auth is not configured")
  else match extract_bearer_token h with
       | Err e => Err e
       | Ok token =>
           if negb (constant_time_eq token (au_hs_token cfg))
           then Err (MMError.api ErrorCode.Forbidden "invalid appservice token") else Ok ()
       end.

(** ** Origins *)
Definition DEV_ORIGINS : list string :=
  ["http://localhost:3000"; "http://localhost:5173"; "http://localhost:8080"].

Definition origin_allowed (configured : list string) (origin : option string) : bool :=
  match origin with
  | None => false
  | Some o => existsb (String.eqb o) (if bool_decide (configured = []) then DEV_ORIGINS else configured)
  end.

(** ** Requests *)
(** The caches: of the client's handlers, of federated logins, of the widget, and of the
    homeserver's whoami. The second has a time of its own. *)
Record AuthCaches (C F : Type) : Type := {
  ac_client : C;
  ac_federated : F;
  ac_widget : C;
  ac_whoami : C
}.
Arguments ac_client {C F} _.
Arguments ac_federated {C F} _.
Arguments ac_widget {C F} _.
Arguments ac_whoami {C F} _.

Record FederationConfig : Type := {
  fc_enabled : bool;
  fc_allow_list : list string;
  fc_deny_list : list string;
  fc_validation_timeout_secs : Z
}.

Record AuthTokenResponse : Type := {
  tr_mm_token : string;
  tr_refresh_token : string;
  tr_user_id : string;
  tr_expires_in : Z
}.

Section requests.
Context {C F : Type} `{TtlCache C string string, TtlCache F string string}.
Context {N : Type} `{Http N, Jwt}.
Variable hash_token : string → string.
Variable url_encode : string → string.
Variable env_ttl : option string.
Variable cfg : AuthConfig.
Variable client : HomeserverClient.
Variable server_name : string.
Variable synapse_admin_token : string.
Variable federation : FederationConfig.

Abbreviation World := (AuthCaches C F * N)%type.

Definition set_client (c : C) (w : World) : World :=
  ({| ac_client := c; ac_federated := ac_federated w.1; ac_widget := ac_widget w.1;
      ac_whoami := ac_whoami w.1 |}, w.2).
Definition set_federated (c : F) (w : World) : World :=
  ({| ac_client := ac_client w.1; ac_federated := c; ac_widget := ac_widget w.1;
      ac_whoami := ac_whoami w.1 |}, w.2).
Definition set_widget (c : C) (w : World) : World :=
  ({| ac_client := ac_client w.1; ac_federated := ac_federated w.1; ac_widget := c;
      ac_whoami := ac_whoami w.1 |}, w.2).
Definition set_whoami (c : C) (w : World) : World :=
  ({| ac_client := ac_client w.1; ac_federated := ac_federated w.1; ac_widget := ac_widget w.1;
      ac_whoami := c |}, w.2).

Definition whoami_request (token : string) : HttpRequest := {|
  rq_method := "GET";
  rq_url := trim_end_char "/"%char (au_matrix_homeserver_url cfg) +:+ "/_matrix/client/v3/account/whoami";
  rq_bearer := Some token; rq_query := []; rq_json := None; rq_timeout_secs := Some 5 |}.

Definition invalid_token (m : string) : MMError.t := MMError.api ErrorCode.InvalidToken m.

Definition whoami_uncached (token : string) : st N (result string MMError.t) :=
  let! r := http_send (whoami_request token) in
  st_ret (match r with
  | Err e => Err (invalid_token ("whoami: " +:+ e))
  | Ok resp =>
      if negb (is_success (rs_status resp)) then Err (invalid_token "matrix token rejected")
      else match rs_json resp with
           | Err e => Err (invalid_token ("whoami parse: " +:+ e))
           | Ok body => match get_str "user_id" body with
                        | Some u => Ok u
                        | None => Err (invalid_token "whoami missing user_id")
                        end
           end
  end).

Definition validate_matrix_bearer (now : DateTime) (token : string) : st World (result string MMError.t) :=
  if is_empty_str (au_matrix_homeserver_url cfg)
  then st_ret (Err (invalid_token "matrix_homeserver_url not configured"))
  else get_or_validate hash_token (λ w : World, ac_whoami w.1) set_whoami now token
         (st_snd (whoami_uncached token)).

(** The extractor [AuthUser]: the user and the claims. *)
Definition auth_user (now : DateTime) (h : Authorization) :
    st World (result (string * MMSessionClaims) MMError.t) :=
  match extract_bearer_token h with
  | Err e => st_ret (Err e)
  | Ok token =>
      match validate_session_token now token (au_jwt_signing_key cfg) with
      | Ok c => st_ret (Ok (jc_sub c, c))
      | Err _ =>
          let? user := validate_matrix_bearer now token in
          st_ret (Ok (user, {|
            jc_sub := user; jc_iss := "matrixmedia"; jc_aud := "mm-api";
            jc_exp := now_secs now + 3600; jc_iat := now_secs now;
            jc_jti := "matrix-bearer-" +:+ pretty (now_secs now); jc_room_id := None;
            jc_role := None |}))
      end
  end.

(** OpenID, against our homeserver and against another. *)
Definition local_sub (token : string) : st N (result string MMError.t) :=
  let! r := validate_openid client token in
  st_ret (match r with
  | Ok info => Ok (oi_sub info)
  | Err e => Err (MMError.api ErrorCode.Forbidden
      ("OpenID validation failed: " +:+ MMError.to_string e))
  end).

Definition federated_sub (token server : string) : st N (result string MMError.t) :=
  let! r := validate_openid_federated token server (fc_validation_timeout_secs federation) in
  st_ret (match r with
  | Ok info => Ok (oi_sub info)
  | Err e => Err (MMError.api ErrorCode.Forbidden
      ("federated OpenID validation failed: " +:+ MMError.to_string e))
  end).

Definition openid_user (now : DateTime) (access_token server : string) :
    st World (result string MMError.t) :=
  if String.eqb server server_name || is_empty_str server_name
  then get_or_validate hash_token (λ w : World, ac_client w.1) set_client now access_token
         (st_snd (local_sub access_token))
  else
  if negb (fc_enabled federation)
  then st_ret (Err (MMError.api ErrorCode.Forbidden "federation disabled"))
  else
  match check_federation server (fc_enabled federation) (fc_allow_list federation)
          (fc_deny_list federation) with
  | Allowed =>
      get_or_validate hash_token (λ w : World, ac_federated w.1) set_federated now access_token
        (st_snd (federated_sub access_token server))
  | Denied reason => st_ret (Err (MMError.api ErrorCode.Forbidden reason))
  | Disabled => st_ret (Err (MMError.api ErrorCode.Forbidden "federation disabled"))
  end.

(** [POST /auth/token]. *)
Definition auth_token (now : DateTime) (access_token server : string) :
    st World (result AuthTokenResponse MMError.t) :=
  let? user := openid_user now access_token server in
  let? pair := st_snd (issue_session_token env_ttl now user (au_jwt_signing_key cfg)) in
  st_ret (Ok {| tr_mm_token := pair.1; tr_refresh_token := pair.2; tr_user_id := user;
                tr_expires_in := 900 |}).

(** [POST /auth/refresh]. *)
Definition auth_refresh (now : DateTime) (refresh_token : string) :
    st World (result AuthTokenResponse MMError.t) :=
  let? pair := st_snd (refresh_session_token env_ttl now refresh_token (au_jwt_signing_key cfg)) in
  st_ret (match validate_session_token now pair.1 (au_jwt_signing_key cfg) with
  | Err e => Err e
  | Ok c => Ok {| tr_mm_token := pair.1; tr_refresh_token := pair.2; tr_user_id := jc_sub c;
                  tr_expires_in := 900 |}
  end).

(** [POST /session] of the widget: the token, the user and 900. *)
Definition create_session (now : DateTime) (access_token : string) :
    st World (result (string * string * Z) MMError.t) :=
  let? user := get_or_validate hash_token (λ w : World, ac_widget w.1) set_widget now access_token
                 (st_snd (local_sub access_token)) in
  let? pair := st_snd (issue_session_token env_ttl now user (au_jwt_signing_key cfg)) in
  st_ret (Ok (pair.1, user, 900)).

(** ** The dashboard's login *)
Definition login_request (user password : string) : HttpRequest := {|
  rq_method := "POST"; rq_url := au_matrix_homeserver_url cfg +:+ "/_matrix/client/v3/login";
  rq_bearer := None; rq_query := [];
  rq_json := Some (JObj [("type", JStr "m.login.password");
    ("identifier", JObj [("type", JStr "m.id.user"); ("user", JStr user)]);
    ("password", JStr password)]);
  rq_timeout_secs := None |}.

Definition forbidden (m : string) : MMError.t := MMError.api ErrorCode.Forbidden m.

(** The access token and the confirmed user. *)
Definition synapse_password_login (user password : string) :
    st N (result (string * string) MMError.t) :=
  let! r := http_send (login_request user password) in
  st_ret (match r with
  | Err _ => Err (forbidden "homeserver unreachable")
  | Ok resp =>
      if negb (is_success (rs_status resp))
      then Err (forbidden (default "invalid credentials"
             (match rs_json resp with Ok v => get_str "error" v | Err _ => None end)))
      else match rs_json resp with
           | Err _ => Err (forbidden "unreadable response from the homeserver")
           | Ok v => match get_str "access_token" v with
                     | None => Err (forbidden "no access_token in login response")
                     | Some t => Ok (t, default user (get_str "user_id" v))
                     end
           end
  end).

Definition admin_check_request (user : string) : HttpRequest := {|
  rq_method := "GET";
  rq_url := au_matrix_homeserver_url cfg +:+ "/_synapse/admin/v2/users/" +:+ url_encode user;
  rq_bearer := Some synapse_admin_token; rq_query := []; rq_json := None;
  rq_timeout_secs := None |}.

Definition check_synapse_admin (user : string) : st N (result bool MMError.t) :=
  if is_empty_str synapse_admin_token then st_ret (Ok false)
  else
  let! r := http_send (admin_check_request user) in
  st_ret (match r with
  | Err e => Err (MMError.Internal ("Synapse admin check failed: " +:+ e))
  | Ok resp =>
      if negb (is_success (rs_status resp)) then Ok false
      else match rs_json resp with
           | Err e => Err (MMError.Internal ("Synapse admin response parse failed: " +:+ e))
           | Ok v => Ok (default false (jget "admin" v ≫= of_bool))
           end
  end).

Definition logout_request (token : string) : HttpRequest := {|
  rq_method := "POST"; rq_url := au_matrix_homeserver_url cfg +:+ "/_matrix/client/v3/logout";
  rq_bearer := Some token; rq_query := []; rq_json := None; rq_timeout_secs := None |}.

(** [POST /login] of the dashboard: the token, the role and the user. *)
Definition admin_login (now : DateTime) (user password : string) :
    st World (result (string * string * string) MMError.t) :=
  let user := if starts_with "@" user then user else "@" +:+ user +:+ ":" +:+ server_name in
  let? login := st_snd (synapse_password_login user password) in
  let '(access_token, confirmed) := login in
  let! admin := st_snd (check_synapse_admin confirmed) in
  let role := if (match admin with Ok b => b | Err _ => false end) then "admin" else "demo" in
  let! _ := st_snd (http_send (logout_request access_token)) in
  let! token := st_snd (issue_admin_session_token now confirmed role (au_jwt_signing_key cfg)) in
  st_ret (match token with
  | Ok t => Ok (t, role, confirmed)
  | Err e => Err (MMError.Internal ("failed to issue admin token: " +:+ MMError.to_string e))
  end).
End requests.
