(* ===== verification/AuthHistory.v ===== *)
(** * AuthHistory: whoever is let in was vouched for by a homeserver

    Any sequence of logins, refreshes, widget sessions, dashboard logins and authenticated
    calls, with the HTTP calls each of them makes. The caches and the tokens the process
    handed out are what connects them: an invariant says which answer of a homeserver each
    of them goes back to. *)
From Stdlib Require Import Ascii.
From S2P Require Import SwitchPool.
From S2P Require Import Prelude ApiSchema Json Schema Errors Text MatrixClient Entitlement.
From S2P Require Import StreamLifecycle Auth.
Local Open Scope Z_scope.
Local Open Scope mm_scope.

(** ** Lemmas *)
Lemma lor_zero_iff a b : Z.lor a b = 0 ↔ a = 0 ∧ b = 0.
Proof. apply Z.lor_eq_0_iff. Qed.

Lemma diff_bytes_zero a b acc :
  String.length a = String.length b → diff_bytes a b acc = 0 ↔ acc = 0 ∧ a = b.
Proof.
  revert b acc. induction a as [|x a IH]; intros [|y b] acc; cbn; try done; [naive_solver|].
  intros [= Hl]. rewrite IH by done. rewrite lor_zero_iff, Z.lxor_eq_0_iff.
  split; [|naive_solver]. intros [[? Hx] ->]. split; [done|]. f_equal.
  apply Nat2Z.inj in Hx. by rewrite <-(ascii_nat_embedding x), Hx, ascii_nat_embedding.
Qed.

(** The comparison that takes the same time for every pair of one length is equality. *)
Lemma constant_time_eq_spec a b : constant_time_eq a b = true ↔ a = b.
Proof.
  unfold constant_time_eq. destruct (Nat.eqb_spec (String.length a) (String.length b)) as [Hl|Hl]; cbn.
  - rewrite Z.eqb_eq, diff_bytes_zero by done. naive_solver.
  - split; [done|]. by intros ->.
Qed.

(** ** The calls that are made *)
Abbreviation HttpCall := (HttpRequest * result HttpResponse string)%type.

#[local] Instance traced {N} `{Http N} : Http (list HttpCall * N) := {|
  http_send r s := let '(a, n) := http_send r s.2 in (a, (s.1 ++ [(r, a)], n));
  lookup_host h := st_snd (lookup_host h);
  new_v4 := st_snd new_v4;
  status_text := status_text (N := N); shape_error := shape_error (N := N);
  hash_order := hash_order (N := N) |}.

(** A call that succeeded with a body. *)
Definition answered (v : json_value) (c : HttpCall) : Prop :=
  ∃ resp, c.2 = Ok resp ∧ is_success (rs_status resp) = true ∧ rs_json resp = Ok v.

(** ** Requests and what they lead to *)
Inductive auth_request : Type :=
  | LoginRequest (access_token server : string)
  | RefreshRequest (token : string)
  | WidgetRequest (access_token : string)
  | DashboardLogin (user password : string)
  | ClientCall (h : Authorization)
  | AdminCall (h : Authorization).

Inductive auth_answer : Type :=
  | Refused (e : MMError.t)
  | Issued (tokens : list string) (user : string)
  | Authenticated (user : string) (c : MMSessionClaims)
  | AdminIs (a : AdminAuth).

Record AuthEvent : Type := {
  ev_now : DateTime;
  ev_request : auth_request;
  ev_answer : auth_answer;
  ev_calls : list HttpCall
}.

Definition answer_of {A} (f : A → auth_answer) (r : result A MMError.t) : auth_answer :=
  match r with Ok a => f a | Err e => Refused e end.

Definition issued (past : list AuthEvent) : list string :=
  past ≫= (λ e, match ev_answer e with Issued l _ => l | _ => [] end).

(** The token a request brings along. *)
Definition presented (r : auth_request) (token : string) : Prop :=
  match r with
  | RefreshRequest t => t = token
  | ClientCall h | AdminCall h => extract_bearer_token h = Ok token
  | _ => False
  end.

Section history.
Context {C F : Type} `{TtlCache C string string, TtlCache F string string}.
Context {N : Type} `{Http N, Jwt}.
Variable hash_token : string → string.
Variable url_encode : string → string.
Variable env_ttl : option string.
Variable cfg : AuthConfig.
Variable client : HomeserverClient.
Variable server_name : string.
Variable synapse_admin_token : string.
Variable federation : FederationConfig.

Abbreviation key := (au_jwt_signing_key cfg).

Definition serve_auth (now : DateTime) (r : auth_request) :
    st (AuthCaches C F * (list HttpCall * N)) auth_answer :=
  match r with
  | LoginRequest t server =>
      let! r := auth_token hash_token env_ttl cfg client server_name federation now t server in
      st_ret (answer_of (λ a, Issued [tr_mm_token a; tr_refresh_token a] (tr_user_id a)) r)
  | RefreshRequest t =>
      let! r := auth_refresh env_ttl cfg now t in
      st_ret (answer_of (λ a, Issued [tr_mm_token a; tr_refresh_token a] (tr_user_id a)) r)
  | WidgetRequest t =>
      let! r := create_session hash_token env_ttl cfg client now t in
      st_ret (answer_of (λ a, Issued [a.1.1] a.1.2) r)
  | DashboardLogin user password =>
      let! r := admin_login url_encode cfg server_name synapse_admin_token now user password in
      st_ret (answer_of (λ a, Issued [a.1.1] a.2) r)
  | ClientCall h =>
      let! r := auth_user hash_token cfg now h in
      st_ret (answer_of (λ a, Authenticated a.1 a.2) r)
  | AdminCall h => st_ret (answer_of AdminIs (admin_auth cfg now h))
  end.

(** One request after another. *)
Fixpoint play (rs : list (DateTime * auth_request)) (cs : AuthCaches C F) (n : N) : list AuthEvent :=
  match rs with
  | [] => []
  | (now, r) :: rs' =>
      let '(a, (cs', (calls, n'))) := serve_auth now r (cs, ([], n)) in
      {| ev_now := now; ev_request := r; ev_answer := a; ev_calls := calls |} :: play rs' cs' n'
  end.

Lemma play_requests rs cs n : (λ e, (ev_now e, ev_request e)) <$> play rs cs n = rs.
Proof.
  revert cs n. induction rs as [|[now r] rs IH]; intros cs n; [done|]. cbn [play].
  destruct (serve_auth now r (cs, ([], n))) as [a [cs' [calls n']]]. cbn. by rewrite IH.
Qed.

(** ** Vouching *)
Definition openid_request (token : string) : HttpRequest := {|
  rq_method := "GET"; rq_url := hc_homeserver_url client +:+ openid_path token;
  rq_bearer := None; rq_query := []; rq_json := None; rq_timeout_secs := None |}.

(** The homeserver says whose access token this is. *)
Definition whoami_vouches (token user : string) (c : HttpCall) : Prop :=
  c.1 = whoami_request cfg token ∧ ∃ v, answered v c ∧ get_str "user_id" v = Some user.

(** Our homeserver, or one that federation admits for its own users, confirms an OpenID
    token. *)
Definition openid_vouches (user : string) (c : HttpCall) : Prop :=
  ∃ token v info, answered v c ∧ openid_of v = Some info ∧ oi_sub info = user ∧
    (c.1 = openid_request token ∨
     ∃ server name, c.1 = federated_request token server (fc_validation_timeout_secs federation) ∧
       check_federation server (fc_enabled federation) (fc_allow_list federation)
         (fc_deny_list federation) = Allowed ∧ user = name +:+ ":" +:+ server).

(** The homeserver accepts a password, and says who is its administrator. *)
Definition password_vouches (user : string) (c : HttpCall) : Prop :=
  ∃ asked password v, c.1 = login_request cfg asked password ∧ answered v c ∧
    user = default asked (get_str "user_id" v).

Definition admin_vouches (user : string) (c : HttpCall) : Prop :=
  c.1 = admin_check_request url_encode cfg synapse_admin_token user ∧
  ∃ v, answered v c ∧ jget "admin" v ≫= of_bool = Some true.

Definition in_past (past : list AuthEvent) (P : HttpCall → Prop) : Prop :=
  ∃ e c, e ∈ past ∧ c ∈ ev_calls e ∧ P c.

(** What stands behind claims: an OpenID confirmation of their subject, or for a dashboard
    session the password and, for an administrator, the homeserver's word. *)
Definition attested (past : list AuthEvent) (c : MMSessionClaims) : Prop :=
  (jc_role c = None ∧ in_past past (openid_vouches (jc_sub c))) ∨
  (jc_aud c = MM_JWT_AUDIENCE ∧ in_past past (password_vouches (jc_sub c)) ∧
   (jc_role c = Some "demo" ∨ jc_role c = Some "admin" ∧ in_past past (admin_vouches (jc_sub c)))).

Lemma in_past_mono past past' P : past ⊆ past' → in_past past P → in_past past' P.
Proof. intros Hs (e & c & He & Hc & HP). exists e, c. eauto. Qed.

Lemma attested_mono past past' c : past ⊆ past' → attested past c → attested past' c.
Proof.
  intros Hs [[Hr Hv]|(Ha & Hp & Hr)]; [left|right].
  - split; [done|]. by eapply in_past_mono.
  - split; [done|]. split; [by eapply in_past_mono|].
    destruct Hr as [Hr|[Hr Hv]]; [by left|right]. split; [done|]. by eapply in_past_mono.
Qed.

(** ** What each step calls *)
Abbreviation Net := (list HttpCall * N)%type.

Lemma traced_send r (s : Net) :
  ∃ a n, http_send r s = (a, (s.1 ++ [(r, a)], n)).
Proof. cbn [http_send traced]. destruct (http_send r s.2) as [a n]. by exists a, n. Qed.

Lemma whoami_calls token (s : Net) r l n :
  whoami_uncached cfg token s = (r, (l, n)) →
  ∃ c, l = s.1 ++ [c] ∧ ∀ u, r = Ok u → whoami_vouches token u c.
Proof.
  unfold whoami_uncached, st_bind. destruct (traced_send (whoami_request cfg token) s) as (a & n1 & E).
  rewrite E. unfold st_ret. intros [= <- <- <-]. eexists. split; [done|]. intros u Hr.
  split; [done|]. destruct a as [resp|]; [|done]. destruct (is_success (rs_status resp)) eqn:Es; [|done].
  cbn in Hr. destruct (rs_json resp) as [v|] eqn:Ej; [|done]. exists v.
  destruct (get_str "user_id" v); [|done]. split; [|congruence]. by exists resp.
Qed.

Lemma local_calls token (s : Net) r l n :
  local_sub client token s = (r, (l, n)) →
  ∃ c, l = s.1 ++ [c] ∧ ∀ u, r = Ok u → openid_vouches u c.
Proof.
  unfold local_sub, validate_openid, send. unfold st_bind at 1, st_try at 1, st_bind at 1 2.
  fold (openid_request token). destruct (traced_send (openid_request token) s) as (a & n1 & E).
  rewrite E. unfold st_ret. cbn [fst snd]. destruct a as [resp|e]; cbn [map_err].
  2: { intros [= <- <- <-]. by eexists. }
  intros [= <- <- <-]. eexists. split; [done|]. intros u Hr. unfold checked, parsed in Hr.
  destruct (is_success (rs_status resp)) eqn:Es; [|done].
  destruct (rs_json resp) as [v|] eqn:Ej; [|done]. destruct (openid_of v) as [info|] eqn:Ei; [|done].
  exists token, v, info. split; [by exists resp|]. split; [done|]. split; [congruence|]. by left.
Qed.

Lemma federated_calls token server (s : Net) r l n :
  check_federation server (fc_enabled federation) (fc_allow_list federation)
    (fc_deny_list federation) = Allowed →
  federated_sub federation token server s = (r, (l, n)) →
  ∃ l', l = s.1 ++ l' ∧ ∀ u, r = Ok u → ∃ c, c ∈ l' ∧ openid_vouches u c.
Proof.
  intros Hfed. unfold federated_sub, validate_openid_federated. unfold st_bind at 1 2.
  cbn [lookup_host traced]. unfold st_snd at 1. destruct (lookup_host (with_port server) s.2) as [[[|x l0]|e] n1];
    try (intros [= <- <- <-]; exists []; by rewrite app_nil_r).
  destruct (existsb is_private_or_reserved_ip (x :: l0)); [intros [= <- <- <-]; exists []; by rewrite app_nil_r|].
  unfold st_try at 1, send, st_bind at 1 2.
  set (rq := federated_request token server (fc_validation_timeout_secs federation)).
  destruct (traced_send rq (s.1, n1)) as (a & n2 & E). rewrite E. unfold st_ret. cbn [fst snd].
  destruct a as [resp|e]; cbn [map_err]; intros [= <- <- <-]; (eexists; split; [reflexivity|]); [|done].
  intros u Hr. eexists. split; [left|]. unfold checked, parsed, MatrixClient.of_server in Hr.
  destruct (is_success (rs_status resp)) eqn:Es; [|done].
  destruct (rs_json resp) as [v|] eqn:Ej; [|done]. destruct (openid_of v) as [info|] eqn:Ei; [|done].
  destruct (ends_with (":" +:+ server) (oi_sub info)) eqn:Ee; [|done].
  apply ends_with_spec in Ee as [name Hname]. injection Hr as <-.
  exists token, v, info. split; [by exists resp|]. split; [done|]. split; [done|]. right.
  exists server, name. split; [done|]. split; [done|]. exact Hname.
Qed.

Lemma issue_calls now user (s : Net) r l n :
  issue_session_token env_ttl now user key s = (r, (l, n)) →
  l = s.1 ∧ ∀ p, r = Ok p → ∃ c1 c2, jwt_encode key c1 = Ok p.1 ∧ jwt_encode key c2 = Ok p.2 ∧
    jc_sub c1 = user ∧ jc_sub c2 = user ∧ jc_role c1 = None ∧ jc_role c2 = None ∧
    jc_iss c1 = MM_JWT_ISSUER ∧ jc_aud c1 = MM_JWT_AUDIENCE.
Proof.
  unfold issue_session_token, st_bind. cbn [new_v4 traced]. unfold st_snd at 1.
  destruct (new_v4 s.2) as [j1 n1]. cbn [fst snd].
  destruct (jwt_encode key _) as [t1|e] eqn:E1; [|by intros [= <- <- <-]].
  unfold st_snd. cbn [fst snd]. destruct (new_v4 n1) as [j2 n2].
  destruct (jwt_encode key (refresh_claims _ _ _)) as [t2|e] eqn:E2; intros [= <- <- <-]; [|done].
  split; [done|]. intros p [= <-]. eexists _, _. cbn [fst snd]. split; [exact E1|]. split; [exact E2|]. done.
Qed.

(** Looking a token up: from the cache, or by asking and keeping a success. *)
Lemma get_or_validate_run {D S} `{TtlCache D string string} (get : S → D) (set : D → S → S) now token
    validate s r s' :
  get_or_validate hash_token get set now token validate s = (r, s') →
  (∃ u, r = Ok u ∧ s' = s ∧ tc_get now (hash_token token) (get s) = Some u) ∨
  ∃ s1, validate s = (r, s1) ∧
    s' = match r with Ok u => set (tc_insert now (hash_token token) u (get s1)) s1 | Err _ => s1 end.
Proof.
  unfold get_or_validate. destruct (tc_get _ _ _) as [u|] eqn:E; [intros [= <- <-]; left; eauto|].
  destruct (validate s) as [[u|e] s1]; intros [= <- <-]; right; eauto.
Qed.

Lemma login_calls user password (s : Net) r l n :
  synapse_password_login cfg user password s = (r, (l, n)) →
  ∃ c, l = s.1 ++ [c] ∧ ∀ p, r = Ok p → password_vouches p.2 c.
Proof.
  unfold synapse_password_login, st_bind.
  destruct (traced_send (login_request cfg user password) s) as (a & n1 & E). rewrite E.
  unfold st_ret. intros [= <- <- <-]. eexists. split; [done|]. intros p Hr.
  destruct a as [resp|]; [|done]. destruct (is_success (rs_status resp)) eqn:Es; [|done].
  cbn in Hr. destruct (rs_json resp) as [v|] eqn:Ej; [|done].
  destruct (get_str "access_token" v); [|done]. injection Hr as <-.
  exists user, password, v. split; [done|]. split; [|done]. by exists resp.
Qed.

Lemma admin_check_calls user (s : Net) r l n :
  check_synapse_admin url_encode cfg synapse_admin_token user s = (r, (l, n)) →
  ∃ l', l = s.1 ++ l' ∧ (r = Ok true → ∃ c, c ∈ l' ∧ admin_vouches user c).
Proof.
  unfold check_synapse_admin. destruct (is_empty_str synapse_admin_token).
  { intros [= <- ->]. exists []. by rewrite app_nil_r. }
  unfold st_bind. destruct (traced_send (admin_check_request url_encode cfg synapse_admin_token user) s)
    as (a & n1 & E). rewrite E. unfold st_ret. intros [= <- <- <-]. eexists. split; [done|]. intros Hr.
  eexists. split; [left|]. split; [done|].
  destruct a as [resp|]; [|done]. destruct (is_success (rs_status resp)) eqn:Es; [|done].
  cbn in Hr. destruct (rs_json resp) as [v|] eqn:Ej; [|done]. exists v. split; [by exists resp|].
  destruct (jget "admin" v ≫= of_bool) as [[]|]; done.
Qed.

Lemma admin_issue_calls now user role (s : Net) r l n :
  issue_admin_session_token now user role key s = (r, (l, n)) →
  l = s.1 ∧ ∀ t, r = Ok t → ∃ c, jwt_encode key c = Ok t ∧ jc_sub c = user ∧
    jc_aud c = MM_JWT_AUDIENCE ∧ jc_role c = Some role.
Proof.
  unfold issue_admin_session_token, st_bind. cbn [new_v4 traced]. unfold st_snd at 1.
  destruct (new_v4 s.2) as [j n1]. unfold st_ret. cbn [fst snd].
  destruct (jwt_encode key _) as [t|e] eqn:E; intros [= <- <- <-]; [|done]. split; [done|].
  intros t' [= <-]. eexists. split; [exact E|done].
Qed.

Lemma admin_login_calls now user password (cs : AuthCaches C F) (s : Net) r cs' l n :
  admin_login url_encode cfg server_name synapse_admin_token now user password (cs, s) =
    (r, (cs', (l, n))) →
  cs' = cs ∧ ∃ l', l = s.1 ++ l' ∧ ∀ p, r = Ok p → ∃ c, jwt_encode key c = Ok p.1.1 ∧
    jc_aud c = MM_JWT_AUDIENCE ∧ (∃ x, x ∈ l' ∧ password_vouches (jc_sub c) x) ∧
    (jc_role c = Some "demo" ∨ jc_role c = Some "admin" ∧ ∃ x, x ∈ l' ∧ admin_vouches (jc_sub c) x).
Proof.
  unfold admin_login. set (who := if starts_with "@" user then _ else _).
  unfold st_try at 1, st_bind at 1, st_snd at 1. cbn [fst snd].
  destruct (synapse_password_login cfg who password s) as [r1 [l1 n1]] eqn:E1.
  apply login_calls in E1 as (x1 & -> & H1'). cbn [fst snd].
  destruct r1 as [[tok confirmed]|e]; [|intros [= <- <- <- <-]; split; [done|]; by eexists].
  specialize (H1' _ eq_refl). cbn in H1'. unfold st_bind at 1, st_snd at 1. cbn [fst snd].
  destruct (check_synapse_admin _ _ _ _ _) as [r2 [l2 n2]] eqn:E2.
  apply admin_check_calls in E2 as (y & -> & H2'). cbn [fst snd] in *.
  unfold st_bind at 1, st_snd at 1. cbn [fst snd].
  destruct (traced_send (logout_request cfg tok) ((s.1 ++ [x1]) ++ y, n2)) as (a3 & n3 & E3).
  rewrite E3. cbn [fst snd]. unfold st_bind at 1, st_snd at 1. cbn [fst snd].
  destruct (issue_admin_session_token _ _ _ _ _) as [r4 [l4 n4]] eqn:E4.
  apply admin_issue_calls in E4 as [-> H4]. cbn [fst snd]. unfold st_ret.
  intros [= <- <- <- <-]. split; [done|]. eexists. split; [by rewrite <-!app_assoc|].
  intros p Hp. destruct r4 as [t|e]; [|done]. injection Hp as <-.
  destruct (H4 t eq_refl) as (c & Hc & Hs & Ha & Hr). exists c. split; [done|]. split; [done|].
  rewrite Hs. split; [exists x1; split; [left|done]|].
  destruct r2 as [[]|e]; cbn in Hr; [right|by left|by left]. split; [done|].
  destruct (H2' eq_refl) as (x & Hx & Hv). exists x. split; [|done]. right. by apply elem_of_app; left.
Qed.

(** ** The invariant *)
Variable federated_ttl : Z.
Context `{!TtlCacheLaws C string string (seconds DEFAULT_TTL_SECS)}.
Context `{!TtlCacheLaws F string string federated_ttl, !JwtLaws}.
Hypothesis no_collisions : ∀ a b, hash_token a = hash_token b → a = b.

Definition whoami_kept (past : list AuthEvent) (c : C) : Prop :=
  ∀ k u t, tc_entry c k = Some (u, t) → ∃ e token x, e ∈ past ∧ ev_now e = t ∧
    k = hash_token token ∧ x ∈ ev_calls e ∧ whoami_vouches token u x.

Definition openid_kept {D} `{TtlCacheLaws D string string ttl} (past : list AuthEvent) (c : D) : Prop :=
  ∀ k u t, tc_entry c k = Some (u, t) → in_past past (openid_vouches u).

Definition tokens_kept (past : list AuthEvent) : Prop :=
  ∀ tok, tok ∈ issued past → ∃ c, jwt_encode key c = Ok tok ∧ attested past c.

Record auth_inv (past : list AuthEvent) (cs : AuthCaches C F) : Prop := {
  ai_whoami : whoami_kept past (ac_whoami cs);
  ai_client : openid_kept past (ac_client cs);
  ai_federated : openid_kept past (ac_federated cs);
  ai_widget : openid_kept past (ac_widget cs);
  ai_tokens : tokens_kept past
}.

Lemma past_grows (past : list AuthEvent) e : past ⊆ past ++ [e].
Proof. set_solver. Qed.

Lemma now_past past e x P : x ∈ ev_calls e → P x → in_past (past ++ [e]) P.
Proof. intros Hx HP. exists e, x. set_solver. Qed.

Lemma issued_app past e : issued (past ++ [e]) = issued past ++ issued [e].
Proof. unfold issued. by rewrite bind_app. Qed.

Lemma whoami_kept_mono past past' c : past ⊆ past' → whoami_kept past c → whoami_kept past' c.
Proof. intros Hs Hc k u t He. destruct (Hc k u t He) as (e & tok & x & ? & ?). exists e, tok, x. set_solver. Qed.

Lemma openid_kept_mono {D} `{TtlCacheLaws D string string ttl} past past' (c : D) :
  past ⊆ past' → openid_kept past c → openid_kept past' c.
Proof. intros Hs Hc k u t He. eapply in_past_mono; eauto. Qed.

Lemma openid_kept_insert {D} `{TtlCacheLaws D string string ttl} past (c : D) now k u :
  openid_kept past c → in_past past (openid_vouches u) → openid_kept past (tc_insert now k u c).
Proof.
  intros Hc Hu k' u' t He. apply tc_insert_entry in He as [[_ [= -> _]]|[_ He]]; [done|]. by eapply Hc.
Qed.

Lemma tokens_kept_more past e :
  tokens_kept past →
  (∀ tok, tok ∈ issued [e] → ∃ c, jwt_encode key c = Ok tok ∧ attested (past ++ [e]) c) →
  tokens_kept (past ++ [e]).
Proof.
  intros Hp He tok. rewrite issued_app, elem_of_app. intros [Ht|Ht]; [|by apply He].
  destruct (Hp tok Ht) as (c & Hc & Ha). exists c. split; [done|].
  eapply attested_mono; [apply past_grows|done].
Qed.

Lemma inv_later past e cs cs' :
  auth_inv past cs →
  whoami_kept (past ++ [e]) (ac_whoami cs') → openid_kept (past ++ [e]) (ac_client cs') →
  openid_kept (past ++ [e]) (ac_federated cs') → openid_kept (past ++ [e]) (ac_widget cs') →
  (∀ tok, tok ∈ issued [e] → ∃ c, jwt_encode key c = Ok tok ∧ attested (past ++ [e]) c) →
  auth_inv (past ++ [e]) cs'.
Proof. intros [_ _ _ _ Ht] ????. split; try done. by apply tokens_kept_more. Qed.

(** The caches did not change. *)
Lemma inv_same past e cs :
  auth_inv past cs →
  (∀ tok, tok ∈ issued [e] → ∃ c, jwt_encode key c = Ok tok ∧ attested (past ++ [e]) c) →
  auth_inv (past ++ [e]) cs.
Proof.
  intros Hi Ht. pose proof Hi as [Hw Hc Hf Hg _]. pose proof (past_grows past e) as Hs.
  eapply inv_later; eauto using whoami_kept_mono, openid_kept_mono.
Qed.

(** A token we gave out decodes to claims that are attested. *)
Lemma issued_attested past cs tok v now c :
  auth_inv past cs → tok ∈ issued past → jwt_decode v now key tok = Ok c → attested past c.
Proof.
  intros Hi Ht Hd. destruct (ai_tokens _ _ Hi tok Ht) as (c0 & Hc & Ha).
  by rewrite (jwt_same _ _ _ _ _ _ Hc Hd).
Qed.

(** What is claimed of a request that was let in. *)
Definition rightful (past : list AuthEvent) (e : AuthEvent) : Prop :=
  match ev_answer e with
  | Authenticated u c => ∃ tok, presented (ev_request e) tok ∧ jc_sub c = u ∧
      ((∃ e' x, e' ∈ past ++ [e] ∧ ev_now e < ev_now e' + seconds WHOAMI_CACHE_TTL_SECS ∧
          x ∈ ev_calls e' ∧ whoami_vouches tok u x) ∨
       (tok ∈ issued past ∧ now_secs (ev_now e) ≤ jc_exp c ∧ attested past c))
  | AdminIs a => ∃ tok, presented (ev_request e) tok ∧
      match aa_user_id a with
      | None => aa_role a = AdminRole_Admin ∧ tok = au_admin_token cfg ∧
          32 ≤ Z.of_nat (String.length tok)
      | Some u => ∃ c, jc_sub c = u ∧ tok ∈ issued past ∧ now_secs (ev_now e) ≤ jc_exp c ∧
          attested past c ∧
          jc_role c = Some (match aa_role a with AdminRole_Admin => "admin" | AdminRole_Demo => "demo" end)
      end
  | _ => True
  end.

(** No token verifies under our key unless we gave it out before. *)
Definition unforged (past : list AuthEvent) (now : DateTime) (r : auth_request) : Prop :=
  ∀ tok v c, presented r tok → jwt_decode v (now_secs now) key tok = Ok c → tok ∈ issued past.

(** ** Every request keeps it *)
Abbreviation event now r a calls :=
  {| ev_now := now; ev_request := r; ev_answer := a; ev_calls := calls |}.

(** The user an OpenID token stands for, with the caches afterwards. *)
Definition opened past e (cs cs' : AuthCaches C F) (u : string) : Prop :=
  in_past (past ++ [e]) (openid_vouches u) ∧
  whoami_kept (past ++ [e]) (ac_whoami cs') ∧ openid_kept (past ++ [e]) (ac_client cs') ∧
  openid_kept (past ++ [e]) (ac_federated cs') ∧ openid_kept (past ++ [e]) (ac_widget cs').

Lemma kept_later past e cs :
  auth_inv past cs →
  whoami_kept (past ++ [e]) (ac_whoami cs) ∧ openid_kept (past ++ [e]) (ac_client cs) ∧
  openid_kept (past ++ [e]) (ac_federated cs) ∧ openid_kept (past ++ [e]) (ac_widget cs).
Proof.
  intros [Hw Hc Hf Hg _]. pose proof (past_grows past e) as Hs.
  split_and!; eauto using whoami_kept_mono, openid_kept_mono.
Qed.

Lemma hit_vouched {D} `{TtlCacheLaws D string string ttl} past (c : D) now k u :
  openid_kept past c → tc_get now k c = Some u → in_past past (openid_vouches u).
Proof. intros Hc Hg. apply tc_get_hit in Hg as (t & He & _). by eapply Hc. Qed.

(** Either way, the calls made are those of the lookup. *)
Lemma openid_user_run past now token server (cs : AuthCaches C F) n r cs' calls n' :
  auth_inv past cs →
  openid_user hash_token client server_name federation now token server (cs, ([], n)) =
    (r, (cs', (calls, n'))) →
  ∀ e, (∀ x, x ∈ calls → x ∈ ev_calls e) →
  match r with
  | Ok u => opened past e cs cs' u
  | Err _ => cs' = cs
  end.
Proof.
  intros Hi E e Hx. pose proof (kept_later past e cs Hi) as (Kw & Kc & Kf & Kg). revert E.
  unfold openid_user. destruct (_ || _).
  - intros E. apply get_or_validate_run in E as [(u & -> & E & Hg)|([cs1 s1] & E & E')].
    + injection E as -> -> ->. split; [|done]. exact (hit_vouched _ _ _ _ _ Kc Hg).
    + unfold st_snd in E. cbn [fst snd] in E. destruct (local_sub client token ([], n)) as [r1 [l n1]] eqn:El.
      apply local_calls in El as (x & -> & Hv). cbn in E. inversion E; subst; clear E. cbn in Hv.
      destruct r as [u|er]; inversion E'; subst; clear E'; [|done].
      assert (Hu : in_past (past ++ [e]) (openid_vouches u)).
      { eapply now_past; [apply Hx; left|]. by apply Hv. }
      split; [done|]. split_and!; cbn; try done. by apply openid_kept_insert.
  - destruct (negb _); [by intros [= <- <- _ _]|].
    destruct (check_federation _ _ _ _) eqn:Ef; [|by intros [= <- <- _ _]..].
    intros E. apply get_or_validate_run in E as [(u & -> & E & Hg)|([cs1 s1] & E & E')].
    + injection E as -> -> ->. split; [|done]. exact (hit_vouched _ _ _ _ _ Kf Hg).
    + unfold st_snd in E. cbn [fst snd] in E.
      destruct (federated_sub federation token server ([], n)) as [r1 [l n1]] eqn:El.
      apply federated_calls in El as (l' & -> & Hv); [|done]. cbn in E. inversion E; subst; clear E. cbn in Hv.
      destruct r as [u|er]; inversion E'; subst; clear E'; [|done].
      destruct (Hv u eq_refl) as (x & Hin & Hvx).
      assert (Hu : in_past (past ++ [e]) (openid_vouches u)) by (eapply now_past; eauto).
      split; [done|]. split_and!; cbn; try done. by apply openid_kept_insert.
Qed.

(** Two tokens for a confirmed user. *)
Lemma pair_attested past e u c1 c2 p :
  in_past (past ++ [e]) (openid_vouches u) →
  jwt_encode key c1 = Ok p.1 → jwt_encode key c2 = Ok p.2 → jc_sub c1 = u → jc_sub c2 = u →
  jc_role c1 = None → jc_role c2 = None →
  ∀ tok, tok ∈ [p.1; p.2] → ∃ c, jwt_encode key c = Ok tok ∧ attested (past ++ [e]) c.
Proof.
  intros Hu E1 E2 <- Hs R1 R2 tok Ht. apply elem_of_cons in Ht as [->|Ht].
  - exists c1. split; [done|]. by left.
  - apply list_elem_of_singleton in Ht as ->. exists c2. split; [done|]. left. by rewrite Hs.
Qed.

Lemma login_keeps past now token server cs n a cs' calls n' :
  auth_inv past cs →
  serve_auth now (LoginRequest token server) (cs, ([], n)) = (a, (cs', (calls, n'))) →
  auth_inv (past ++ [event now (LoginRequest token server) a calls]) cs'.
Proof.
  intros Hi. cbn [serve_auth]. unfold auth_token. unfold st_bind at 1, st_try at 1, st_bind at 1.
  destruct (openid_user _ _ _ _ _ _ _ _) as [r1 [cs1 [l1 n1]]] eqn:E1.
  destruct r1 as [u|e1].
  2: { intros [= <- <- <- <-]. pose proof (openid_user_run past _ _ _ _ _ _ _ _ _ Hi E1
         (event now (LoginRequest token server) (Refused e1) l1) (λ _ H, H)) as ->.
       apply inv_same; [done|]. intros tok Ht. by apply not_elem_of_nil in Ht. }
  unfold st_try at 1, st_bind at 1, st_snd at 1. cbn [fst snd].
  destruct (issue_session_token _ _ _ _ _) as [r2 [l2 n2]] eqn:E2.
  apply issue_calls in E2 as [-> H2']. cbn [fst snd].
  destruct r2 as [p|e2]; unfold st_ret; intros [= <- <- <- <-]; cbn [answer_of];
    match goal with |- auth_inv (_ ++ [?e]) _ =>
      pose proof (openid_user_run past _ _ _ _ _ _ _ _ _ Hi E1 e (λ _ H, H)) as (Hu & Kw & Kc & Kf & Kg)
    end; eapply inv_later; eauto.
  - destruct (H2' p eq_refl) as (c1 & c2 & ? & ? & ? & ? & ? & ? & _). cbn.
    by eapply pair_attested.
  - intros tok Ht. by apply not_elem_of_nil in Ht.
Qed.

Lemma nothing_issued {past e} tok :
  issued [e] = [] → tok ∈ issued [e] → ∃ c, jwt_encode key c = Ok tok ∧ attested (past ++ [e]) c.
Proof. intros ->. by intros ?%not_elem_of_nil. Qed.

Lemma refresh_keeps past now token cs n a cs' calls n' :
  auth_inv past cs → unforged past now (RefreshRequest token) →
  serve_auth now (RefreshRequest token) (cs, ([], n)) = (a, (cs', (calls, n'))) →
  auth_inv (past ++ [event now (RefreshRequest token) a calls]) cs'.
Proof.
  intros Hi Hun. cbn [serve_auth]. unfold auth_refresh, refresh_session_token.
  unfold st_bind at 1, st_try at 1, st_bind at 1, st_snd at 1. cbn [fst snd].
  destruct (jwt_decode refresh_validation _ _ _) as [c|e] eqn:Ed.
  2: { intros [= <- <- <- <-]. apply inv_same; [done|]. intros. by apply nothing_issued. }
  assert (Ha : attested past c) by (eapply issued_attested; [done| |done]; by eapply Hun).
  apply jwt_checked in Ed as (_ & Haud & _).
  destruct Ha as [[_ Hu]|[Ha _]]; [|rewrite Haud in Ha; done].
  destruct (issue_session_token _ _ _ _ _) as [r2 [l2 n2]] eqn:E2.
  apply issue_calls in E2 as [-> H2']. cbn [fst snd].
  destruct r2 as [p|e2]; unfold st_ret; intros [= <- <- <- <-].
  2: { apply inv_same; [done|]. intros. by apply nothing_issued. }
  apply inv_same; [done|]. intros tok.
  destruct (validate_session_token _ _ _); cbn [answer_of]; [|intros; by apply nothing_issued].
  destruct (H2' p eq_refl) as (c1 & c2 & ? & ? & ? & ? & ? & ? & _). cbn.
  eapply pair_attested; eauto. eapply in_past_mono; [apply past_grows|done].
Qed.

Lemma widget_keeps past now token cs n a cs' calls n' :
  auth_inv past cs →
  serve_auth now (WidgetRequest token) (cs, ([], n)) = (a, (cs', (calls, n'))) →
  auth_inv (past ++ [event now (WidgetRequest token) a calls]) cs'.
Proof.
  intros Hi. cbn [serve_auth]. unfold create_session. unfold st_bind at 1, st_try at 1, st_bind at 1.
  destruct (get_or_validate _ _ _ _ _ _ _) as [r1 [cs1 [l1 n1]]] eqn:E1.
  assert (Hr : ∀ e, (∀ x, x ∈ l1 → x ∈ ev_calls e) →
    match r1 with Ok u => opened past e cs cs1 u | Err _ => cs1 = cs end).
  { intros e Hx. pose proof (kept_later past e cs Hi) as (Kw & Kc & Kf & Kg).
    apply get_or_validate_run in E1 as [(u & -> & E & Hg)|([cs2 s2] & E & E')].
    - inversion E; subst. split; [|done]. exact (hit_vouched _ _ _ _ _ Kg Hg).
    - unfold st_snd in E. cbn [fst snd] in E. destruct (local_sub client token ([], n)) as [r2 [l n2]] eqn:El.
      apply local_calls in El as (x & -> & Hv). cbn in E. inversion E; subst; clear E. cbn in Hv.
      destruct r1 as [u|er]; inversion E'; subst; clear E'; [|done].
      assert (Hu : in_past (past ++ [e]) (openid_vouches u)).
      { eapply now_past; [apply Hx; left|]. by apply Hv. }
      split; [done|]. split_and!; cbn; try done. by apply openid_kept_insert. }
  clear E1. destruct r1 as [u|e1].
  2: { intros [= <- <- <- <-]. rewrite (Hr (event now (WidgetRequest token) (Refused e1) l1) (λ _ H, H)).
       apply inv_same; [done|]. intros. by apply nothing_issued. }
  unfold st_try at 1, st_bind at 1, st_snd at 1. cbn [fst snd].
  destruct (issue_session_token _ _ _ _ _) as [r2 [l2 n2]] eqn:E2.
  apply issue_calls in E2 as [-> H2']. cbn [fst snd].
  destruct r2 as [p|e2]; unfold st_ret; intros [= <- <- <- <-]; cbn [answer_of];
    match goal with |- auth_inv (_ ++ [?e]) _ =>
      destruct (Hr e (λ _ H, H)) as (Hu & Kw & Kc & Kf & Kg) end; eapply inv_later; eauto.
  - destruct (H2' p eq_refl) as (c1 & c2 & ? & ? & ? & ? & ? & ? & _). cbn. intros tok Ht.
    eapply pair_attested; eauto. apply list_elem_of_singleton in Ht as ->. left.
  - intros. by apply nothing_issued.
Qed.

Lemma dashboard_keeps past now user password cs n a cs' calls n' :
  auth_inv past cs →
  serve_auth now (DashboardLogin user password) (cs, ([], n)) = (a, (cs', (calls, n'))) →
  auth_inv (past ++ [event now (DashboardLogin user password) a calls]) cs'.
Proof.
  intros Hi. cbn [serve_auth]. unfold st_bind at 1.
  destruct (admin_login _ _ _ _ _ _ _ _) as [r [cs1 [l n1]]] eqn:E.
  apply admin_login_calls in E as (-> & l' & -> & Hr). unfold st_ret. cbn [fst app].
  intros [= <- <- <- <-]. apply inv_same; [done|]. intros tok Ht.
  destruct r as [p|e]; [|by apply nothing_issued]. cbn in Ht. apply list_elem_of_singleton in Ht as ->.
  destruct (Hr p eq_refl) as (c & Hc & Ha & (x & Hx & Hp) & Hrole). exists c. split; [done|]. right.
  split; [done|]. split; [by eapply now_past|].
  destruct Hrole as [?|[? (y & Hy & Hv)]]; [by left|right]. split; [done|]. by eapply now_past.
Qed.

(** ** Who is let in *)
Lemma client_call_right past now h cs n a cs' calls n' :
  auth_inv past cs → unforged past now (ClientCall h) →
  serve_auth now (ClientCall h) (cs, ([], n)) = (a, (cs', (calls, n'))) →
  let e := event now (ClientCall h) a calls in auth_inv (past ++ [e]) cs' ∧ rightful past e.
Proof.
  intros Hi Hun. cbn [serve_auth]. unfold auth_user. unfold st_bind at 1.
  destruct (extract_bearer_token h) as [token|er] eqn:Eh.
  2: { intros [= <- <- <- <-]. split; [|done]. apply inv_same; [done|]. intros. by apply nothing_issued. }
  unfold validate_session_token. destruct (jwt_decode _ _ _ _) as [c|er] eqn:Ed; cbn [map_err].
  { intros [= <- <- <- <-]. split; [apply inv_same; [done|]; intros; by apply nothing_issued|].
    exists token. split; [done|]. split; [done|]. right.
    assert (Hin : token ∈ issued past) by (by eapply Hun). split; [done|].
    split; [|by eapply issued_attested]. apply jwt_checked in Ed as (_ & _ & Hexp). cbn in *. lia. }
  unfold validate_matrix_bearer. destruct (is_empty_str _).
  { intros [= <- <- <- <-]. split; [|done]. apply inv_same; [done|]. intros. by apply nothing_issued. }
  unfold st_try at 1, st_bind at 1.
  destruct (get_or_validate _ _ _ _ _ _ _) as [r1 [cs1 [l1 n1]]] eqn:E1.
  apply get_or_validate_run in E1 as [(u & -> & E & Hg)|([cs2 s2] & E & E')].
  - inversion E; subst; clear E. intros [= <- <- <- <-].
    split; [apply inv_same; [done|]; intros; by apply nothing_issued|].
    exists token. split; [done|]. split; [done|]. left. apply tc_get_hit in Hg as (t & He & Ht).
    destruct (ai_whoami _ _ Hi _ _ _ He) as (e & tok & x & Hin & <- & Hk & Hx & Hv).
    apply no_collisions in Hk as <-. exists e, x. split; [set_solver|]. done.
  - unfold st_snd in E. cbn [fst snd] in E.
    destruct (whoami_uncached cfg token ([], n)) as [r2 [l n2]] eqn:El.
    apply whoami_calls in El as (x & -> & Hv). cbn in E. inversion E; subst; clear E. cbn in Hv.
    destruct r1 as [u|er1]; inversion E'; subst; clear E'; intros [= <- <- <- <-].
    2: { split; [|done]. apply inv_same; [done|]. intros. by apply nothing_issued. }
    match goal with |- auth_inv (_ ++ [?x]) _ ∧ _ => set (e := x) end.
    pose proof (kept_later past e _ Hi) as (Kw & Kc & Kf & Kg).
    assert (Hxe : x ∈ ev_calls e) by (subst e; cbn; left).
    assert (Hee : e ∈ past ++ [e]) by set_solver.
    split.
    + eapply inv_later; eauto; [|intros; by apply nothing_issued].
      intros k u' t He. cbn in He. apply tc_insert_entry in He as [[-> [= -> ->]]|[_ He]]; [|by eapply Kw].
      exists e, token, x. split_and!; try done. by apply Hv.
    + exists token. split; [done|]. split; [done|]. left. exists e, x. split; [done|].
      split; [|split; [done|by apply Hv]]. unfold seconds, WHOAMI_CACHE_TTL_SECS, NANOS. lia.
Qed.

Lemma admin_call_right past now h cs n a cs' calls n' :
  auth_inv past cs → unforged past now (AdminCall h) →
  serve_auth now (AdminCall h) (cs, ([], n)) = (a, (cs', (calls, n'))) →
  let e := event now (AdminCall h) a calls in auth_inv (past ++ [e]) cs' ∧ rightful past e.
Proof.
  intros Hi Hun. cbn [serve_auth]. unfold st_ret. intros [= <- <- <- <-]. split.
  { apply inv_same; [done|]. intros tok. destruct (admin_auth _ _ _); intros; by apply nothing_issued. }
  unfold admin_auth, rightful. cbn [ev_answer ev_request].
  destruct (extract_bearer_token h) as [token|er] eqn:Eh; [|done].
  set (by_role := if is_empty_str _ then _ else _). cbn zeta.
  assert (Hb : ∀ c role, by_role = Some (c, role) → jc_role c = Some role ∧ token ∈ issued past ∧
    now_secs now ≤ jc_exp c ∧ attested past c).
  { intros c role. unfold by_role, validate_session_token. destruct (is_empty_str _); [done|].
    destruct (jwt_decode _ _ _ _) as [c'|] eqn:Ed; [|done]. cbn. destruct (jc_role c') as [r|] eqn:Er; [|done].
    intros [= -> ->]. assert (Hin : token ∈ issued past) by (by eapply Hun).
    split; [done|]. split; [done|]. split; [|by eapply issued_attested].
    apply jwt_checked in Ed as (_ & _ & Hexp). cbn in Hexp. lia. }
  destruct by_role as [[c role]|].
  - destruct (Hb c role eq_refl) as (Hr & Hin & Hexp & Ha).
    destruct (String.eqb_spec role "admin") as [->|_]; cbn; [exists token; split; [done|]; by exists c|].
    destruct (String.eqb_spec role "demo") as [->|_]; cbn; [|done]. exists token. split; [done|]. by exists c.
  - destruct (Z.leb_spec 32 (Z.of_nat (String.length (au_admin_token cfg)))); [|done]. cbn [andb].
    destruct (constant_time_eq token (au_admin_token cfg)) eqn:Et; [|done]. cbn.
    apply constant_time_eq_spec in Et as ->. by eexists.
Qed.

Lemma serve_auth_right past now r cs n a cs' calls n' :
  auth_inv past cs → unforged past now r →
  serve_auth now r (cs, ([], n)) = (a, (cs', (calls, n'))) →
  let e := event now r a calls in auth_inv (past ++ [e]) cs' ∧ rightful past e.
Proof.
  intros Hi Hun E. destruct r; cbn zeta.
  - split; [by eapply login_keeps|]. revert E. cbn [serve_auth]. unfold st_bind at 1, rightful.
    destruct (auth_token _ _ _ _ _ _ _ _ _ _) as [[]]; by intros [= <- _].
  - split; [by eapply refresh_keeps|]. revert E. cbn [serve_auth]. unfold st_bind at 1, rightful.
    destruct (auth_refresh _ _ _ _ _) as [[]]; by intros [= <- _].
  - split; [by eapply widget_keeps|]. revert E. cbn [serve_auth]. unfold st_bind at 1, rightful.
    destruct (create_session _ _ _ _ _ _ _) as [[]]; by intros [= <- _].
  - split; [by eapply dashboard_keeps|]. revert E. cbn [serve_auth]. unfold st_bind at 1, rightful.
    destruct (admin_login _ _ _ _ _ _ _ _) as [[]]; by intros [= <- _].
  - by eapply client_call_right.
  - by eapply admin_call_right.
Qed.

Lemma play_right rs past cs n :
  auth_inv past cs →
  (∀ earlier e later, play rs cs n = earlier ++ e :: later →
     unforged (past ++ earlier) (ev_now e) (ev_request e)) →
  ∀ earlier e later, play rs cs n = earlier ++ e :: later → rightful (past ++ earlier) e.
Proof.
  revert past cs n. induction rs as [|[now r] rs IH]; intros past cs n Hi Hun earlier e later.
  { cbn. intros E. by destruct earlier. }
  cbn [play] in *. destruct (serve_auth now r (cs, ([], n))) as [a [cs' [calls n']]] eqn:Es.
  assert (Hun0 : unforged past now r) by (rewrite <-(app_nil_r past); by apply (Hun [] _ _ eq_refl)).
  destruct (serve_auth_right _ _ _ _ _ _ _ _ _ Hi Hun0 Es) as [Hi' Hr].
  destruct earlier as [|e0 earlier]; [intros [= <- _]; by rewrite app_nil_r|].
  intros [= <- E]. specialize (IH _ cs' n' Hi'). rewrite cons_middle, app_assoc.
  eapply IH; [|exact E]. intros earlier' e' later' E'. rewrite <-app_assoc. cbn.
  apply (Hun (_ :: earlier') e' later'). by rewrite E'.
Qed.

(** No entry at all. *)
Definition cold_caches (cs : AuthCaches C F) : Prop :=
  (∀ k, tc_entry (ac_whoami cs) k = None) ∧ (∀ k, tc_entry (ac_client cs) k = None) ∧
  (∀ k, tc_entry (ac_federated cs) k = None) ∧ (∀ k, tc_entry (ac_widget cs) k = None).

(** C13. Whatever logins, refreshes, widget sessions, dashboard logins and calls arrive, in
    any order, and whatever the homeservers answer: a call is let in as a user only when the
    homeserver said within the last minute that this very access token is that user's, or
    when the call carries an unexpired token this server issued, and a homeserver had
    confirmed that user's OpenID token or password before. A call is an administrator's only
    with the configured token of at least 32 bytes, or with a session issued after the
    homeserver accepted the password and named the user an administrator. The signing key
    is assumed not to be shared: no token verifies that was not issued here. *)
Theorem only_vouched_users_are_let_in rs cs n :
  cold_caches cs →
  (∀ earlier e later, play rs cs n = earlier ++ e :: later →
     unforged earlier (ev_now e) (ev_request e)) →
  ∀ earlier e later, play rs cs n = earlier ++ e :: later → rightful earlier e.
Proof.
  intros (Hw & Hc & Hf & Hg) Hun. apply (play_right rs []); [|done].
  split; [intros k u t He|intros k u t He..|intros tok Ht]; try congruence. by apply not_elem_of_nil in Ht.
Qed.

(** A token that was handed out works: for as long as the configured lifetime, which is
    between a minute and a week, the session token of a login lets its user in, whatever
    happened to the caches and whatever the homeserver would answer. *)
Theorem issued_token_lets_in now now' token server (w w' w2 : AuthCaches C F * Net) resp :
  auth_token hash_token env_ttl cfg client server_name federation now token server w = (Ok resp, w') →
  now_secs now' ≤ now_secs now + session_ttl_secs env_ttl →
  60 ≤ session_ttl_secs env_ttl ≤ 604800 ∧
  ∃ c, auth_user hash_token cfg now' (HeaderText ("Bearer " +:+ tr_mm_token resp)) w2 =
    (Ok (tr_user_id resp, c), w2) ∧ jc_sub c = tr_user_id resp ∧ jc_role c = None.
Proof.
  unfold auth_token, st_try at 1, st_bind at 1.
  destruct (openid_user _ _ _ _ _ _ _ _) as [[u|e] [cs1 s1]]; [|done].
  unfold st_try at 1, st_bind at 1, st_snd at 1. cbn [fst snd]. unfold issue_session_token.
  unfold st_bind at 1. destruct (new_v4 s1) as [j1 s2].
  destruct (jwt_encode key (session_claims _ _ _ _ _)) as [t1|e] eqn:E1; [|done].
  unfold st_bind at 1. destruct (new_v4 s2) as [j2 s3].
  destruct (jwt_encode key (refresh_claims _ _ _)) as [t2|e] eqn:E2; [|done].
  unfold st_ret. intros [= <- _] Hnow. split; [unfold session_ttl_secs; lia|].
  exists (session_claims u (now_secs now) (session_ttl_secs env_ttl) j1 None). split; [|done]. unfold auth_user, extract_bearer_token.
  rewrite strip_prefix_app. cbn [tr_mm_token tr_user_id].
  pose proof (jwt_not_empty _ _ _ E1) as Hne. destruct t1 as [|x t1]; [done|]. cbn [is_empty_str].
  unfold validate_session_token. erewrite jwt_accepted; [|exact E1|done|done|cbn; lia]. done.
Qed.
End history.

(** ** A deployment *)
Module AuthDemo.
(** A token is its key and its claims, printed. *)
Abbreviation tuple := (string * string * string * Z * Z * string * option string * option string)%type.
Definition to_tuple (c : MMSessionClaims) : tuple :=
  (jc_sub c, jc_iss c, jc_aud c, jc_exp c, jc_iat c, jc_jti c, jc_room_id c, jc_role c).
Definition of_tuple (x : tuple) : MMSessionClaims :=
  let '(sub, iss, aud, exp, iat, jti, room, role) := x in {|
  jc_sub := sub; jc_iss := iss; jc_aud := aud; jc_exp := exp; jc_iat := iat; jc_jti := jti;
  jc_room_id := room; jc_role := role |}.
Definition seal (key : string) (c : MMSessionClaims) : string := "t" +:+ print_value (key, to_tuple c).
Definition unseal (v : Validation) (now : Z) (key token : string) : result MMSessionClaims string :=
  match strip_prefix "t" token ≫= parse_value (A := string * tuple) with
  | Some (k, x) =>
      let c := of_tuple x in
      if String.eqb k key && String.eqb (jc_iss c) (va_issuer v) && String.eqb (jc_aud c) (va_audience v) &&
         (now <=? jc_exp c + va_leeway v)
      then Ok c else Err "invalid"
  | None => Err "malformed"
  end.
#[export] Instance jwt : Jwt := {| jwt_encode k c := Ok (seal k c); jwt_decode := unseal |}.

Lemma unseal_seal v now key c :
  unseal v now key (seal key c) =
    if String.eqb (jc_iss c) (va_issuer v) && String.eqb (jc_aud c) (va_audience v) &&
       (now <=? jc_exp c + va_leeway v) then Ok c else Err "invalid".
Proof.
  unfold unseal, seal. rewrite strip_prefix_app. cbn [mbind option_bind]. rewrite parse_print_value.
  rewrite String.eqb_refl. by destruct c.
Qed.

#[export] Instance jwt_laws : JwtLaws.
Proof.
  split.
  - intros v now key token c. cbn. unfold unseal. destruct (_ ≫= _) as [[k x]|]; [|done].
    destruct (String.eqb_spec k key); [|done]. destruct (String.eqb_spec (jc_iss (of_tuple x)) (va_issuer v)); [|done].
    destruct (String.eqb_spec (jc_aud (of_tuple x)) (va_audience v)); [|done].
    destruct (Z.leb_spec now (jc_exp (of_tuple x) + va_leeway v)); [|done]. by intros [= <-].
  - intros v now key token c c' [= <-]. cbn. rewrite unseal_seal.
    by destruct (_ && _ && _); intros [= <-].
  - intros v now key token c [= <-] Hi Ha Hn. cbn. rewrite unseal_seal, Hi, Ha, !String.eqb_refl. cbn.
    by destruct (Z.leb_spec now (jc_exp c + va_leeway v)); [|lia].
  - by intros key c token [= <-].
Qed.

(** A homeserver that answers everything the same way. *)
Definition answer : json_value := JObj [("user_id", JStr "@u:x"); ("sub", JStr "@a:x");
  ("access_token", JStr "m"); ("admin", JBool true)].
#[export] Instance http : Http () := {|
  http_send _ := st_ret (Ok {| rs_status := 200; rs_text := ""; rs_json := Ok answer |});
  lookup_host _ := st_ret (Err ""); new_v4 := st_ret "id"; status_text _ := ""; shape_error _ := "";
  hash_order l := l |}.
#[export] Instance cache : TtlCache (gmap string (string * DateTime)) string string :=
  map_cache (seconds DEFAULT_TTL_SECS).
#[export] Instance cache_laws :
  TtlCacheLaws (gmap string (string * DateTime)) string string (seconds DEFAULT_TTL_SECS) :=
  map_cache_laws (seconds DEFAULT_TTL_SECS).
Definition cfg : AuthConfig := {|
  au_jwt_signing_key := "k"; au_admin_token := ""; au_hs_token := "";
  au_matrix_homeserver_url := "https://hs" |}.
Definition client : HomeserverClient := new_client "https://hs" "as" "@bot:x".
Definition no_federation : FederationConfig := {|
  fc_enabled := false; fc_allow_list := []; fc_deny_list := []; fc_validation_timeout_secs := 5 |}.
Definition caches : AuthCaches (gmap string (string * DateTime)) (gmap string (string * DateTime)) :=
  {| ac_client := ∅; ac_federated := ∅; ac_widget := ∅; ac_whoami := ∅ |}.
Definition played (rs : list (DateTime * auth_request)) : list AuthEvent :=
  play id id None cfg client "x" "adm" no_federation rs caches ().
Definition session : string := seal "k" (session_claims "@a:x" 0 900 "id" None).
Definition admin_session : string := seal "k" (session_claims "@u:x" 0 ADMIN_SESSION_TTL_SECS "id" (Some "admin")).
Definition bearer (t : string) : Authorization := HeaderText ("Bearer " +:+ t).
(** A login, a call with its token, one with an access token of Matrix, and a dashboard. *)
Definition day : list (DateTime * auth_request) :=
  [(0, LoginRequest "openid" "x"); (seconds 600, ClientCall (bearer session));
   (seconds 700, ClientCall (bearer "syt_1")); (seconds 730, ClientCall (bearer "syt_1"));
   (0, DashboardLogin "u" "pw"); (seconds 800, AdminCall (bearer admin_session))].
Definition outcome (e : AuthEvent) : option string :=
  match ev_answer e with
  | Authenticated u _ => Some u
  | AdminIs a => aa_user_id a
  | Issued _ u => Some u
  | Refused _ => None
  end.
End AuthDemo.
Import AuthDemo.

Example a_day : outcome <$> played day =
  [Some "@a:x"; Some "@a:x"; Some "@u:x"; Some "@u:x"; Some "@u:x"; Some "@u:x"].
Proof. by vm_compute. Qed.

(** The second whoami is answered from the cache. *)
Example one_whoami : (λ e, length (ev_calls e)) <$> played day = [1; 0; 1; 0; 3; 0]%nat.
Proof. by vm_compute. Qed.

(** The tokens presented that day are those issued before. *)
Lemma day_unforged earlier e later :
  played day = earlier ++ e :: later → unforged cfg earlier (ev_now e) (ev_request e).
Proof.
  intros E. assert (Hday : day !! length earlier = Some (ev_now e, ev_request e)).
  { rewrite <-(play_requests id id None cfg client "x" "adm" no_federation day caches ()).
    change (play _ _ _ _ _ _ _ _ _ _ _) with (played day). rewrite E, list_lookup_fmap.
    by rewrite lookup_app_r, Nat.sub_diag. }
  assert (Hpast : earlier = take (length earlier) (played day)).
  { rewrite E. by rewrite take_app_length. }
  rewrite Hpast. clear Hpast E. revert Hday. generalize (length earlier). intros i Hday.
  destruct i as [|[|[|[|[|[|i]]]]]]; [..|done]; injection Hday as <- <-; intros tok v c Ht Hd;
    try done; cbn in Ht; injection Ht as <-; try done;
    apply (bool_decide_unpack _); vm_compute; exact I.
Qed.

Lemma only_vouched_users_are_let_in_witness :
  cold_caches (seconds DEFAULT_TTL_SECS) caches ∧ ∀ earlier e later, played day = earlier ++ e :: later →
    rightful id cfg client "adm" no_federation earlier e.
Proof.
  split; [by split_and!|].
  apply (only_vouched_users_are_let_in id id None cfg client "x" "adm" no_federation
    (seconds DEFAULT_TTL_SECS) (λ _ _ H, H) day caches ()).
  - by split_and!.
  - exact day_unforged.
Defined.

Lemma issued_token_lets_in_witness :
  ∃ resp c, (auth_token id None cfg client "x" no_federation 0 "openid" "x" (caches, ([], ()))).1 = Ok resp ∧
    auth_user id cfg (seconds 600) (HeaderText ("Bearer " +:+ tr_mm_token resp)) (caches, ([], ())) =
      (Ok (tr_user_id resp, c), (caches, ([], ()))) ∧ jc_sub c = tr_user_id resp ∧ jc_role c = None.
Proof.
  assert (Hok : is_ok (auth_token id None cfg client "x" no_federation 0 "openid" "x" (caches, ([], ()))).1
    = true) by (vm_compute; reflexivity).
  destruct (auth_token id None cfg client "x" no_federation 0 "openid" "x" (caches, ([], ())))
    as [[resp|e] w] eqn:E; [|discriminate Hok].
  destruct (issued_token_lets_in id None cfg client "x" no_federation 0 (seconds 600) "openid" "x"
    (caches, ([], ())) w (caches, ([], ())) resp E) as (_ & c & Hc); [vm_compute; discriminate|].
  exists resp, c. split; [reflexivity|exact Hc].
Defined.

(** Without a signing key, which the configuration's validation accepts, the extractor of
    users verifies tokens under the empty key, which everybody has; the one of
    administrators does not. *)
Example empty_key_lets_anyone_in :
  let cfg := {| au_jwt_signing_key := ""; au_admin_token := ""; au_hs_token := "";
                au_matrix_homeserver_url := "https://hs" |} in
  let forged := bearer (seal "" (session_claims "@victim:x" 0 900 "j" (Some "admin"))) in
  (match (auth_user id cfg 0 forged (caches, ())).1 with Ok a => Some a.1 | Err _ => None end) =
    Some "@victim:x" ∧ is_ok (admin_auth cfg 0 forged) = false.
Proof. by vm_compute. Qed.
