(* ===== verification/Internal.v ===== *)
(** * Internal: the endpoints for Alertmanager and LiveKit

    [mm-api/src/internal.rs]. Both routes are published with the client's, so each request has
    to show where it comes from: alerts by a token or by their address, LiveKit's webhooks by
    their signature. Metrics and log lines are left out. *)
From Stdlib Require Import Ascii.
From S2P Require Import SwitchPool.
From S2P Require Import Prelude ApiSchema Json Schema Errors Text MatrixClient Rooms StreamLifecycle.
From S2P Require Import StreamsApi RecordingsApi SfuBreaker LiveKit Auth AuthHistory.
Local Open Scope Z_scope.
Local Open Scope mm_scope.

(** ** Where an alert comes from *)
(** The parts of a request that are looked at. *)
Record Parts : Type := {
  pa_authorization : Authorization;
  pa_headers : list string;          (** the names of the headers present *)
  pa_peer : option IpAddr
}.

Definition PROXY_HEADERS : list string := ["forwarded"; "x-forwarded-for"; "x-real-ip"].

(** The first group of an IPv6 address. *)
Definition v6_first (bits : Z) : Z := Z.shiftr bits 112.

Definition is_private_peer (ip : IpAddr) : bool :=
  let v4 a b := v4_private a b || v4_loopback a || v4_link_local a b in
  match ip with
  | V4 a b _ _ => v4 a b
  | V6 bits =>
      match to_ipv4_mapped bits with
      | Some (a, b, _, _) => v4 a b
      | None => (bits =? 1) || (Z.land (v6_first bits) 65024 =? 64512) ||
                (Z.land (v6_first bits) 65472 =? 65152)
      end
  end.

Definition direct_from_private_network (p : Parts) : result () MMError.t :=
  let proxied := existsb (λ h, existsb (String.eqb h) (pa_headers p)) PROXY_HEADERS in
  if negb proxied && match pa_peer p with Some ip => is_private_peer ip | None => false end
  then Ok () else Err (MMError.api ErrorCode.Forbidden "alert webhook: unauthorized").

(** The extractor [AlertSender]. *)
Definition alert_sender (expected : string) (p : Parts) : result () MMError.t :=
  if is_empty_str expected then direct_from_private_network p
  else match extract_bearer_token (pa_authorization p) with
       | Err e => Err e
       | Ok token =>
           if constant_time_eq token expected then Ok ()
           else Err (MMError.api ErrorCode.Forbidden "invalid alert webhook token")
       end.

(** ** Alerts *)
Record Alert : Type := {
  al_status : string;
  al_labels : gmap string string;
  al_annotations : gmap string string
}.

Record AlertmanagerPayload : Type := { ap_status : string; ap_alerts : list Alert }.

Definition alert_line (a : Alert) : string :=
  "[" +:+ default "none" (al_labels a !! "severity") +:+ "] " +:+
  default "unknown" (al_labels a !! "alertname") +:+ " — " +:+
  default "" (al_annotations a !! "summary") +:+ " (" +:+ al_status a +:+ ")".

Definition newline : string := String (ascii_of_nat 10) EmptyString.

Definition format_alert_text (p : AlertmanagerPayload) : string :=
  String.concat newline
    (("MatrixMedia alerts (" +:+ ap_status p +:+ ")") :: (alert_line <$> ap_alerts p)).

Section alerts.
Context {N : Type} `{Http N}.
Variable url_encode : string → string.
Variable matrix : MatrixConfig.

(** The counter of transaction ids is the first part of the state. *)
Abbreviation World := (Z * N)%type.

Definition post_to_matrix_room (room text : string) : st World (result () string) := λ w,
  if is_empty_str (mx_as_token matrix) then (Err "matrix.as_token not configured", w)
  else if is_empty_str (mx_server_name matrix) then (Err "matrix.server_name not configured", w)
  else
  let bot := "@" +:+ mx_bot_localpart matrix +:+ ":" +:+ mx_server_name matrix in
  let txn := "mmalert" +:+ pretty w.1 in
  let '(r, n) := http_send {| rq_method := "PUT";
    rq_url := mx_homeserver_url matrix +:+ "/_matrix/client/v3/rooms/" +:+ url_encode room +:+
      "/send/m.room.message/" +:+ txn;
    rq_bearer := Some (mx_as_token matrix); rq_query := [("user_id", bot)];
    rq_json := Some (JObj [("msgtype", JStr "m.text"); ("body", JStr text)]);
    rq_timeout_secs := None |} w.2 in
  (match r with
   | Err e => Err e
   | Ok resp => if is_success (rs_status resp) then Ok ()
                else Err ("homeserver returned " +:+ status_text (N := N) (rs_status resp))
   end, ((w.1 + 1) mod 18446744073709551616, n)).

(** [POST /alert-webhook]: always 200 once the sender is accepted. *)
Definition alert_webhook (expected : string) (alert_room : option string) (p : Parts)
    (payload : AlertmanagerPayload) : st World (result Z MMError.t) :=
  match alert_sender expected p with
  | Err e => st_ret (Err e)
  | Ok _ =>
      let! _ := (match alert_room with
        | Some room => if is_empty_str room then st_ret ()
                       else let! _ := post_to_matrix_room room (format_alert_text payload) in st_ret ()
        | None => st_ret ()
        end) in
      st_ret (Ok 200)
  end.
End alerts.

(** ** LiveKit *)
Section livekit.
Variable receive : string → string → string → string → result LkWebhook ReceiveError.

(** A bare token, or one after Bearer. *)
Definition webhook_token (h : Authorization) : option string :=
  match h with
  | HeaderText v => Some (default v (strip_prefix "Bearer " v))
  | NoHeader | NotText => None
  end.

(** [POST /v1/sfu/webhook]: the event that is counted, or the refusal. *)
Definition sfu_webhook (api_key api_secret : string) (h : Authorization) (body : option string) :
    result WebhookEvent MMError.t :=
  if is_empty_str api_key || is_empty_str api_secret
  then Err (MMError.api ErrorCode.SfuUnavailable "LiveKit webhook verification is not configured")
  else match parse_webhook receive body (webhook_token h) api_key api_secret with
       | Ok event => Ok event
       | Err (InvalidBody _) =>
           Err (MMError.api ErrorCode.WebhookInvalid "undecodable webhook body")
       | Err _ => Err (MMError.api ErrorCode.InvalidToken "invalid LiveKit webhook signature")
       end.
End livekit.

(** ** What is accepted *)
(** The ranges of the comment: RFC 1918, loopback and link-local. *)
Definition peer_ranges : list (Z * Z) :=
  [(v4_bits 10 0 0 0, 8); (v4_bits 172 16 0 0, 12); (v4_bits 192 168 0 0, 16);
   (v4_bits 127 0 0 0, 8); (v4_bits 169 254 0 0, 16)].

Definition in_private_range (ip : IpAddr) : Prop :=
  match ip with
  | V4 a b c d => existsb (in_prefix (v4_bits a b c d)) peer_ranges = true
  | V6 bits =>
      match to_ipv4_mapped bits with
      | Some (a, b, c, d) => existsb (in_prefix (v4_bits a b c d)) peer_ranges = true
      | None => bits = 1 ∨ Z.shiftr bits 121 = 126 ∨ Z.shiftr bits 118 = 1018
      end
  end.

Definition ip_ok (ip : IpAddr) : Prop :=
  match ip with
  | V4 a b c d => is_octet a ∧ is_octet b ∧ is_octet c ∧ is_octet d
  | V6 bits => 0 ≤ bits < 2 ^ 128
  end.

(** The leading bits of an address, from its octets. *)
Lemma v4_leading a b c d :
  is_octet a → is_octet b → is_octet c → is_octet d →
  Z.shiftr (v4_bits a b c d) 24 = a ∧ Z.shiftr (v4_bits a b c d) 20 = 16 * a + b / 16 ∧
  Z.shiftr (v4_bits a b c d) 16 = 256 * a + b.
Proof.
  unfold is_octet, v4_bits. intros Ha Hb Hc Hd. rewrite !Z.shiftr_div_pow2 by lia.
  change (2 ^ 24) with 16777216. change (2 ^ 20) with 1048576. change (2 ^ 16) with 65536.
  pose proof (Z.div_mod b 16 ltac:(lia)). pose proof (Z.mod_pos_bound b 16 ltac:(lia)).
  split_and!; symmetry.
  - apply (Z.div_unique _ _ _ (b * 65536 + c * 256 + d)); lia.
  - apply (Z.div_unique _ _ _ (b mod 16 * 65536 + c * 256 + d)); lia.
  - apply (Z.div_unique _ _ _ (c * 256 + d)); lia.
Qed.

Lemma peer_v4_ranges a b c d :
  is_octet a → is_octet b → is_octet c → is_octet d →
  v4_private a b || v4_loopback a || v4_link_local a b = true ↔
  existsb (in_prefix (v4_bits a b c d)) peer_ranges = true.
Proof.
  intros Ha Hb Hc Hd. destruct (v4_leading a b c d Ha Hb Hc Hd) as (E24 & E20 & E16).
  unfold v4_private, v4_loopback, v4_link_local, peer_ranges, in_prefix. cbn [existsb fst snd].
  change (32 - 8) with 24. change (32 - 12) with 20. change (32 - 16) with 16.
  rewrite E24, E20, E16, !orb_true_iff, !andb_true_iff, !Z.eqb_eq, !Z.leb_le.
  change (Z.shiftr (v4_bits 10 0 0 0) 24) with 10. change (Z.shiftr (v4_bits 127 0 0 0) 24) with 127.
  change (Z.shiftr (v4_bits 172 16 0 0) 20) with 2753. change (Z.shiftr (v4_bits 192 168 0 0) 16) with 49320.
  change (Z.shiftr (v4_bits 169 254 0 0) 16) with 43518.
  unfold is_octet in *. pose proof (Z.div_mod b 16 ltac:(lia)). pose proof (Z.mod_pos_bound b 16 ltac:(lia)).
  split; intros Hx; [|destruct Hx as [?|[?|[?|[?|[?|[=]]]]]]; lia].
  destruct Hx as [[[[?|?]|?]|?]|?]; lia.
Qed.

Lemma mapped_octets bits a b c d :
  to_ipv4_mapped bits = Some (a, b, c, d) → is_octet a ∧ is_octet b ∧ is_octet c ∧ is_octet d.
Proof.
  unfold to_ipv4_mapped, is_octet. destruct (_ =? _); [|done]. intros [= <- <- <- <-].
  assert (Hl : ∀ x, 0 ≤ Z.land x 255 ≤ 255).
  { intros x. change 255 with (Z.ones 8). rewrite Z.land_ones by lia.
    pose proof (Z.mod_pos_bound x (2 ^ 8) ltac:(lia)). change (Z.ones 8) with 255. lia. }
  split_and!; apply Hl.
Qed.

(** A mask of leading bits. *)
Lemma mask_is_prefix x k m :
  0 ≤ x < 65536 → 0 ≤ k → m = Z.land (Z.ones 16) (Z.lnot (Z.ones k)) →
  Z.land x m = Z.shiftr x k * 2 ^ k.
Proof.
  intros Hx Hk ->. rewrite Z.land_assoc, Z.land_ones, Z.mod_small by (cbn; lia).
  rewrite <-Z.ldiff_land, Z.ldiff_ones_r, Z.shiftl_mul_pow2 by done. done.
Qed.

Lemma v6_masks bits :
  0 ≤ bits < 2 ^ 128 →
  (Z.land (v6_first bits) 65024 = 64512 ↔ Z.shiftr bits 121 = 126) ∧
  (Z.land (v6_first bits) 65472 = 65152 ↔ Z.shiftr bits 118 = 1018).
Proof.
  intros Hb. unfold v6_first.
  assert (Hf : 0 ≤ Z.shiftr bits 112 < 65536).
  { rewrite Z.shiftr_div_pow2 by lia. split; [apply Z.div_pos; lia|].
    apply Z.div_lt_upper_bound; lia. }
  rewrite (mask_is_prefix _ 9 65024), (mask_is_prefix _ 6 65472) by (done || lia).
  rewrite !Z.shiftr_shiftr by lia. change (112 + 9) with 121. change (112 + 6) with 118.
  change (2 ^ 9) with 512. change (2 ^ 6) with 64. split; lia.
Qed.

Lemma private_peer_ranges ip : ip_ok ip → is_private_peer ip = true ↔ in_private_range ip.
Proof.
  destruct ip as [a b c d|bits]; cbn [ip_ok is_private_peer in_private_range].
  - intros (Ha & Hb & Hc & Hd). by apply peer_v4_ranges.
  - intros Hb. destruct (to_ipv4_mapped bits) as [[[[a b] c] d]|] eqn:E.
    + apply mapped_octets in E as (Ha & Hb' & Hc & Hd). by apply peer_v4_ranges.
    + rewrite !orb_true_iff, !Z.eqb_eq. destruct (v6_masks bits Hb) as [-> ->]. tauto.
Qed.

(** The internal endpoints accept nobody by accident. With a token configured, an alert is
    accepted exactly when it carries that token; without one, exactly when no proxy header
    is present and the peer's address lies in a private, loopback or link-local range (an
    IPv4-mapped address counts as the IPv4 address it carries). A webhook is accepted
    exactly when both credentials of LiveKit are configured, a token is there, the body is
    text and LiveKit's receiver verifies it with those credentials. *)
Theorem internal_endpoints_exact receive expected p api_key api_secret h body :
  (∀ ip, pa_peer p = Some ip → ip_ok ip) →
  (alert_sender expected p = Ok () ↔
     (expected ≠ EmptyString ∧ extract_bearer_token (pa_authorization p) = Ok expected) ∨
     (expected = EmptyString ∧ (∀ x, x ∈ PROXY_HEADERS → x ∉ pa_headers p) ∧
        ∃ ip, pa_peer p = Some ip ∧ in_private_range ip)) ∧
  ((∃ e, sfu_webhook receive api_key api_secret h body = Ok e) ↔
     api_key ≠ EmptyString ∧ api_secret ≠ EmptyString ∧
     ∃ token text e, webhook_token h = Some token ∧ body = Some text ∧
       receive api_key api_secret text token = Ok e).
Proof.
  intros Hip. split.
  - unfold alert_sender. destruct expected as [|x expected]; cbn [is_empty_str].
    + unfold direct_from_private_network.
      assert (Hh : existsb (λ h, existsb (String.eqb h) (pa_headers p)) PROXY_HEADERS = true ↔
        ∃ x, x ∈ PROXY_HEADERS ∧ x ∈ pa_headers p).
      { rewrite existsb_exists. setoid_rewrite existsb_exists. setoid_rewrite String.eqb_eq.
        setoid_rewrite list_elem_of_In. split.
        - intros (x & Hx & y & Hy & ->). eauto.
        - intros (x & Hx & Hy). eauto. }
      destruct (existsb _ PROXY_HEADERS) eqn:Ep; cbn [negb andb].
      * destruct (proj1 Hh eq_refl) as (x & Hx & Hx').
        split; [done|]. intros [[? _]|(_ & Hno & _)]; [done|]. by destruct (Hno x Hx).
      * assert (Hno : ∀ x, x ∈ PROXY_HEADERS → x ∉ pa_headers p).
        { intros x Hx Hx'. assert (Hf : false = true) by (apply Hh; eauto). done. }
        destruct (pa_peer p) as [ip|];
          [|split; [done|]; intros [[? _]|(_ & _ & ip & ? & _)]; done].
        pose proof (private_peer_ranges ip (Hip ip eq_refl)) as Hr.
        destruct (is_private_peer ip); split; try done.
        -- intros _. right. split; [done|]. split; [done|]. exists ip. split; [done|]. by apply Hr.
        -- intros [[? _]|(_ & _ & ip' & [= <-] & Hin)]; [done|]. apply Hr in Hin. done.
    + destruct (extract_bearer_token _) as [token|e];
        [|split; [done|]; intros [[_ ?]|[? _]]; done].
      destruct (constant_time_eq token (String x expected)) eqn:Et.
      * apply constant_time_eq_spec in Et as ->. split; [by left|done].
      * assert (token ≠ String x expected).
        { intros Heq. apply constant_time_eq_spec in Heq. congruence. }
        split; [done|]. intros [[_ [=]]|[? _]]; done.
  - unfold sfu_webhook, parse_webhook. destruct api_key as [|k api_key]; [naive_solver|].
    destruct api_secret as [|s api_secret]; [naive_solver|]. cbn [is_empty_str orb].
    destruct (webhook_token h) as [token|]; [|naive_solver].
    destruct body as [text|]; [|cbn; naive_solver]. cbn [fmap option_fmap option_map].
    destruct (receive (String k api_key) (String s api_secret) text token) as [e|er] eqn:Er; split.
    + intros _. do 2 (split; [done|]). by exists token, text, e.
    + intros _. eauto.
    + intros [e He]. by destruct er.
    + intros (_ & _ & token' & text' & e & [= <-] & [= <-] & He). congruence.
Qed.

(** An alert over the docker bridge, and a webhook that verifies. *)
Lemma internal_endpoints_exact_witness :
  let p := {| pa_authorization := NoHeader; pa_headers := ["content-type"]; pa_peer := Some (V4 172 18 0 7) |} in
  alert_sender "" p = Ok () ∧ alert_sender "secret" p ≠ Ok ().
Proof.
  cbn zeta. split.
  - refine (proj2 (proj1 (internal_endpoints_exact (λ _ _ _ _, Err BadBodyHash) "" _ "" "" NoHeader None _)) _).
    + intros ip [= <-]. cbn. unfold is_octet. lia.
    + right. split; [done|]. split; [set_solver|]. eexists. split; [done|]. by vm_compute.
  - vm_compute. discriminate.
Defined.
