(* ===== verification/Settings.v ===== *)
(** * Settings: the registry of the settings a dashboard may change

    [mm-core/src/settings/mod.rs] and [entries.rs]: one entry per visible field of the
    configuration with its kind, how a change takes effect, whether it is a secret, and its
    checks; and [crypto.rs], the envelope in which secrets are stored. The help texts are left
    out. The URL parser, the decimal text of floats, JSON text, AES-256-GCM, SHA-256 and the
    byte encodings are the classes [Lib] and [Cipher]. *)
From Stdlib Require Import Ascii.
From S2P Require Import Prelude F64 FleetTypes Ladder ApiSchema Errors Json Text Guards Config.
Local Open Scope Z_scope.
Local Open Scope mm_scope.

(** ** Kinds, classes, entries *)
Inductive Group : Type :=
  | General | Network | Streaming | Storage | Monetization | Advertising | Federation | Fleet | Security.

Inductive ApplyClass : Type :=
  | Live
  | Restart
  | Bootstrap (reason : string)
  | HostCoupled (service : string).

Definition is_live (c : ApplyClass) : bool := match c with Live => true | _ => false end.
Definition is_restart (c : ApplyClass) : bool := match c with Restart => true | _ => false end.

Inductive ValueKind : Type :=
  | Bool
  | Int (min max : Z)
  | Float (min max : f64)
  | Text_
  | OptText
  | UrlKind
  | OptUrl
  | List_
  | Choice (options : list string).

Record ParsedUrl : Type := {
  pu_url : Guards.Url;
  pu_path : string;
  pu_query : option string;
  pu_fragment : option string
}.

Class Lib : Type := {
  parse_url : string → result ParsedUrl string;
  json_of_f64 : f64 → string;            (** of a finite number *)
  f64_of_json : string → option f64;     (** [Number::as_f64] *)
  show_f64 : f64 → string;
  print_json : json_value → string;
  parse_json : string → option json_value
}.

Record SettingDef : Type := {
  sd_key : string;
  sd_group : Group;
  sd_kind : ValueKind;
  sd_class : ApplyClass;
  sd_secret : bool;
  sd_env : option string;
  sd_check : option (json_value → result () string)
}.

Definition editable (d : SettingDef) : bool := is_live (sd_class d) || is_restart (sd_class d).

(** ** Values as JSON: what serde writes and reads for the type of a field *)
Definition unit_variant (v : json_value) : option string :=
  match v with JStr s => Some s | JObj [(k, JNull)] => Some k | _ => None end.

Definition variant_fleet (s : string) : option FleetMode.t :=
  if String.eqb s "on" then Some FleetMode.On
  else if String.eqb s "frozen" then Some FleetMode.Frozen
  else if String.eqb s "off" then Some FleetMode.Off else None.
Definition variant_ladder (s : string) : option LadderMode.t :=
  if String.eqb s "observe" then Some LadderMode.Observe
  else if String.eqb s "degrade" then Some LadderMode.Degrade
  else if String.eqb s "full" then Some LadderMode.Full else None.

Section registry.
Context `{Lib}.

Definition to_value (v : field_value) : json_value :=
  match v with
  | VBool b => JBool b
  | VInt z => jint z
  | VF64 x => match x with Fin _ => JNum (json_of_f64 x) | Inf _ | NaN => JNull end
  | VText s => JStr s
  | VOptText o => match o with Some s => JStr s | None => JNull end
  | VList l => JArr (JStr <$> l)
  | VFleetMode m => JStr (FleetMode.as_str m)
  | VLadderMode m => JStr (LadderMode.as_str m)
  end.

Definition from_value (ty : field_type) (v : json_value) : option field_value :=
  match ty with
  | TBool => VBool <$> of_bool v
  | TInt lo hi => VInt <$> of_int lo hi v
  | TF64 => match v with JNum t => VF64 <$> f64_of_json t | _ => None end
  | TText => VText <$> as_str v
  | TOptText => match v with JNull => Some (VOptText None) | JStr s => Some (VOptText (Some s)) | _ => None end
  | TList => match v with JArr l => VList <$> mapM as_str l | _ => None end
  | TFleetMode => VFleetMode <$> (unit_variant v ≫= variant_fleet)
  | TLadderMode => VLadderMode <$> (unit_variant v ≫= variant_ladder)
  end.

Definition get (d : SettingDef) (c : Config) : json_value :=
  match c !! sd_key d with Some v => to_value v | None => JNull end.

Definition set (d : SettingDef) (c : Config) (v : json_value) : result Config string :=
  match type_of (sd_key d) ≫= λ ty, from_value ty v with
  | Some fv => Ok (<[sd_key d := fv]> c)
  | None => Err "the value does not fit this setting's type"
  end.

(** ** Validation *)
Definition MAX_TEXT : Z := 2048.
Definition MAX_LIST : Z := 256.

Definition text (v : json_value) : result string string :=
  match as_str v with
  | None => Err "expected text"
  | Some s => if MAX_TEXT <? Z.of_nat (String.length s) then Err "at most 2048 characters" else Ok s
  end.

Definition has_userinfo (u : ParsedUrl) : bool :=
  negb (is_empty_str (url_username (pu_url u))) ||
  match url_password (pu_url u) with Some _ => true | None => false end.

Definition http_url (s : string) (allow_userinfo : bool) : result () string :=
  match parse_url s with
  | Err e => Err ("not a valid URL: " +:+ e)
  | Ok u =>
      if negb (existsb (String.eqb (url_scheme (pu_url u))) ["http"; "https"])
      then Err "URL scheme must be http or https"
      else if negb allow_userinfo && has_userinfo u
      then Err "credentials don't belong in a URL; use the secret settings"
      else Ok ()
  end.

Definition is_null (v : json_value) : bool := match v with JNull => true | _ => false end.

Fixpoint list_items (items : list json_value) : result () string :=
  match items with
  | [] => Ok ()
  | item :: rest =>
      match text item with
      | Err e => Err e
      | Ok s => if is_empty_str (trim s) then Err "entries must not be empty" else list_items rest
      end
  end.

Definition between {A} (fmt : A → string) (min max : A) : string :=
  "must be between " +:+ fmt min +:+ " and " +:+ fmt max.

Definition validate_kind (kind : ValueKind) (v : json_value) (allow_userinfo : bool) : result () string :=
  let url := match text v with Err e => Err e | Ok s => http_url s allow_userinfo end in
  let txt := match text v with Err e => Err e | Ok _ => Ok () end in
  match kind with
  | Bool => match of_bool v with Some _ => Ok () | None => Err "expected true or false" end
  | Int min max =>
      match as_i64 v with
      | None => Err "expected a whole number"
      | Some n => if (n <? min) || (max <? n) then Err (between pretty min max) else Ok ()
      end
  | Float min max =>
      match (match v with JNum t => f64_of_json t | _ => None end) with
      | None => Err "expected a number"
      | Some n => if f64_le min n && f64_le n max then Ok () else Err (between show_f64 min max)
      end
  | Text_ => txt
  | OptText => if is_null v then Ok () else txt
  | UrlKind => url
  | OptUrl => if is_null v then Ok () else url
  | List_ =>
      match v with
      | JArr items =>
          if MAX_LIST <? Z.of_nat (length items) then Err "at most 256 entries" else list_items items
      | _ => Err "expected a list"
      end
  | Choice options =>
      match text v with
      | Err e => Err e
      | Ok s => if existsb (String.eqb s) options then Ok ()
                else Err ("must be one of: " +:+ String.concat ", " options)
      end
  end.

(** ** The extra checks *)
Definition items_of (v : json_value) : list json_value := match v with JArr l => l | _ => [] end.

Fixpoint each_entry (f : Z → string → result () string) (i : Z) (l : list json_value) : result () string :=
  match l with
  | [] => Ok ()
  | item :: rest =>
      match f i (default EmptyString (as_str item)) with
      | Err e => Err e
      | Ok _ => each_entry f (i + 1) rest
      end
  end.

Definition bad_origin (i : Z) : string :=
  "entry " +:+ pretty (i + 1) +:+
  " is not an origin — use scheme://host[:port] with no path, e.g. https://matrix.example.org".

Definition check_origins (v : json_value) : result () string :=
  each_entry (λ i s,
    if contains_char "@" s then Err "origins must not contain credentials"
    else match parse_url s with
    | Err _ => Err (bad_origin i)
    | Ok u =>
        let bare := String.eqb (pu_path u) "/" && negb (ends_with "/" s) &&
          bool_decide (pu_query u = None) && bool_decide (pu_fragment u = None) in
        if negb (existsb (String.eqb (url_scheme (pu_url u))) ["http"; "https"]) ||
           bool_decide (url_host (pu_url u) = None) || negb bare
        then Err (bad_origin i) else Ok ()
    end) 0 (items_of v).

Definition check_empty_or_url (v : json_value) : result () string :=
  match as_str v with
  | None | Some EmptyString => Ok ()
  | Some s => http_url s false
  end.

Definition check_ws_url (v : json_value) : result () string :=
  match as_str v with
  | None => Ok ()
  | Some s =>
      match parse_url s with
      | Err e => Err ("not a valid URL: " +:+ e)
      | Ok u =>
          if negb (existsb (String.eqb (url_scheme (pu_url u))) ["ws"; "wss"; "http"; "https"])
          then Err "scheme must be ws, wss, http or https"
          else if has_userinfo u
          then Err "credentials don't belong in a URL; use the secret settings"
          else Ok ()
      end
  end.

Definition check_turn_uris (v : json_value) : result () string :=
  each_entry (λ i s,
    if contains_char "@" s then Err "TURN/STUN entries must not contain credentials"
    else if negb (starts_with "turn:" s || starts_with "turns:" s || starts_with "stun:" s)
    then Err ("entry " +:+ pretty (i + 1) +:+ " must start with turn:, turns: or stun:")
    else Ok ()) 0 (items_of v).

Definition check_redis_url (v : json_value) : result () string :=
  match as_str v with
  | None | Some EmptyString => Ok ()
  | Some s => if starts_with "redis://" s || starts_with "rediss://" s then Ok ()
              else Err "must start with redis:// or rediss://"
  end.

Definition validate_setting (d : SettingDef) (v : json_value) : result () string :=
  match validate_kind (sd_kind d) v (sd_secret d) with
  | Err e => Err e
  | Ok _ => match sd_check d with Some check => check v | None => Ok () end
  end.

(** ** The table *)
Definition FLEET_AT_BOOT : string :=
  "it changes how broadcast servers are started, stopped, used or billed, so it is set in the config file or .env (read at boot) until Broadcast servers has controls with a confirmation step for it".

Definition def (key : string) (group : Group) (kind : ValueKind) (class : ApplyClass) (is_secret : bool)
    (env : option string) (check : option (json_value → result () string)) : SettingDef :=
  {| sd_key := key; sd_group := group; sd_kind := kind; sd_class := class; sd_secret := is_secret;
     sd_env := env; sd_check := check |}.

Definition server_entries : list SettingDef := [
  def "server.drain_seconds" General (Int 0 600) Restart false None None;
  def "server.widget_dir" General OptText (Bootstrap "a path inside the server; pointing the public /_mm/widget route at another directory would publish its files") false (Some "MM_WIDGET_DIR") None;
  def "server.feed_enabled" General Bool Live false (Some "MM_FEED_ENABLED") None;
  def "server.request_webhook_url" General OptUrl Live true (Some "MM_SERVER_REQUEST_WEBHOOK_URL") None;
  def "matrix.alert_matrix_room" General OptText Live false (Some "MM_ALERT_MATRIX_ROOM") None;
  def "monetization.redis_url" General Text_ Restart true (Some "MM_REDIS_URL") (Some check_redis_url);
  def "server.public_url" Network OptUrl (Bootstrap "the server's public identity: written into room state, the appservice registration and payment return URLs") false (Some "MM_SERVER_PUBLIC_URL") None;
  def "server.cors_origins" Network List_ Live false (Some "MM_CORS_ORIGINS") (Some check_origins);
  def "server.client_bind" Network Text_ (HostCoupled "Traefik") false None None;
  def "server.admin_bind" Network Text_ (Bootstrap "changing it can cut the dashboard off from the admin API; set with --admin-bind") false None None;
  def "server.metrics_port" Network (Int 1 65535) (HostCoupled "Prometheus") false (Some "MM_METRICS_PORT") None;
  def "matrix.homeserver_url" Network UrlKind (HostCoupled "Synapse") false (Some "MM_MATRIX_HOMESERVER_URL") None;
  def "matrix.public_homeserver_url" Network OptUrl (HostCoupled "Synapse") false (Some "MM_MATRIX_PUBLIC_HOMESERVER_URL") None;
  def "matrix.server_name" Network Text_ (HostCoupled "Synapse") false (Some "MM_MATRIX_SERVER_NAME") None;
  def "matrix.bot_localpart" Network Text_ (HostCoupled "Synapse") false (Some "MM_MATRIX_BOT_LOCALPART") None;
  def "sfu.livekit_url" Network OptUrl (HostCoupled "LiveKit") false (Some "MM_SFU_LIVEKIT_URL") None;
  def "sfu.livekit_public_url" Network OptText (HostCoupled "LiveKit") false (Some "MM_SFU_LIVEKIT_PUBLIC_URL") (Some check_ws_url);
  def "advertising.switch_url" Network Text_ (HostCoupled "mm-switch") false (Some "MM_SWITCH_URL") (Some check_empty_or_url);
  def "turn.urls" Network List_ Live false (Some "MM_TURN_URLS") (Some check_turn_uris);
  def "turn.ttl_secs" Network (Int 60 604800) Live false (Some "MM_TURN_TTL_SECS") None;
  def "streaming.auto_end_grace_secs" Streaming (Int 0 86400) Live false (Some "MM_STREAMING_AUTO_END_GRACE_SECS") None;
  def "streaming.max_broadcast_secs" Streaming (Int 0 604800) Live false (Some "MM_STREAMING_MAX_BROADCAST_SECS") None;
  def "streaming.switch_viewer_capacity" Fleet (Int 0 100000) Live false None None;
  def "fleet.mode" Fleet (Choice ["on"; "frozen"; "off"]) (Bootstrap FLEET_AT_BOOT) false (Some "MM_FLEET_MODE") None;
  def "fleet.proxy_viewers" Fleet Bool (Bootstrap FLEET_AT_BOOT) false (Some "MM_FLEET_PROXY_VIEWERS") None;
  def "fleet.meter_interval_secs" Fleet (Int 0 86400) Restart false (Some "MM_EGRESS_METER_INTERVAL_SECS") None;
  def "fleet.billing_enabled" Fleet Bool (Bootstrap FLEET_AT_BOOT) false (Some "MM_BILLING_ENABLED") None;
  def "fleet.rating_batch" Fleet (Int 1 100000) Restart false None None;
  def "fleet.ladder_mode" Fleet (Choice ["observe"; "degrade"; "full"]) (Bootstrap FLEET_AT_BOOT) false (Some "MM_LADDER_MODE") None;
  def "fleet.ladder_interval_secs" Fleet (Int 0 86400) (Bootstrap FLEET_AT_BOOT) false (Some "MM_LADDER_INTERVAL_SECS") None;
  def "fleet.ladder_batch" Fleet (Int 1 100000) (Bootstrap FLEET_AT_BOOT) false None None;
  def "fleet.wallet_currency" Fleet Text_ (Bootstrap FLEET_AT_BOOT) false (Some "MM_WALLET_CURRENCY") None;
  def "fleet.orphan_min_age_secs" Fleet (Int 0 86400) (Bootstrap FLEET_AT_BOOT) false (Some "MM_FLEET_ORPHAN_MIN_AGE_SECS") None;
  def "video.max_bitrate" Streaming (Int 100000 100000000) Live false (Some "MM_VIDEO_MAX_BITRATE") None;
  def "video.max_resolution_width" Streaming (Int 16 7680) Live false (Some "MM_VIDEO_MAX_WIDTH") None;
  def "video.max_resolution_height" Streaming (Int 16 4320) Live false (Some "MM_VIDEO_MAX_HEIGHT") None;
  def "video.max_frame_rate" Streaming (Int 1 240) Live false (Some "MM_VIDEO_MAX_FRAME_RATE") None;
  def "video.simulcast_enabled" Streaming Bool Live false (Some "MM_VIDEO_SIMULCAST_ENABLED") None;
  def "e2ee.enabled" Streaming Bool Live false (Some "MM_E2EE_ENABLED") None;
  def "e2ee.required" Streaming Bool Live false (Some "MM_E2EE_REQUIRED") None;
  def "e2ee.key_rotation_interval_secs" Streaming (Int 0 604800) Live false (Some "MM_E2EE_KEY_ROTATION_INTERVAL_SECS") None;
  def "e2ee.algorithm" Streaming Text_ Live false (Some "MM_E2EE_ALGORITHM") None;
  def "advertising.switch_legacy_lk_source" Streaming Bool Live false (Some "MM_SWITCH_LEGACY_LK_SOURCE") None].

Definition storage_entries : list SettingDef := [
  def "storage.s3.endpoint" Storage OptUrl Restart false (Some "MM_STORAGE_S3_ENDPOINT") None;
  def "storage.s3.bucket" Storage Text_ Restart false (Some "MM_STORAGE_S3_BUCKET") None;
  def "storage.s3.region" Storage Text_ Restart false (Some "MM_STORAGE_S3_REGION") None;
  def "storage.s3.access_key" Storage Text_ Restart true (Some "MM_STORAGE_S3_ACCESS_KEY") None;
  def "storage.s3.secret_key" Storage Text_ Restart true (Some "MM_STORAGE_S3_SECRET_KEY") None;
  def "storage.s3.path_style" Storage Bool Restart false (Some "MM_STORAGE_S3_PATH_STYLE") None;
  def "recording.enabled" Storage Bool Live false (Some "MM_RECORDING_ENABLED") None;
  def "recording.retention_days" Storage (Int 0 3650) Live false (Some "MM_RECORDING_RETENTION_DAYS") None;
  def "monetization.enabled" Monetization Bool Restart false (Some "MM_MONETIZATION_ENABLED") None;
  def "monetization.donations_enabled" Monetization Bool Live false (Some "MM_MONETIZATION_DONATIONS_ENABLED") None;
  def "monetization.subscriptions_enabled" Monetization Bool Restart false (Some "MM_MONETIZATION_SUBSCRIPTIONS_ENABLED") None;
  def "monetization.min_donation_cents" Monetization (Int 100 100000000) Live false None None;
  def "monetization.max_donation_cents" Monetization (Int 100 100000000) Live false None None;
  def "monetization.platform_fee_pct" Monetization (Float (f64_of_Z 0) (f64_of_ratio 1 2)) Live false (Some "MM_MONETIZATION_PLATFORM_FEE_PCT") None;
  def "monetization.stripe_secret_key" Monetization Text_ Restart true (Some "MM_STRIPE_SECRET_KEY") None;
  def "monetization.webhook_signing_secret" Monetization Text_ Restart true (Some "MM_STRIPE_WEBHOOK_SECRET") None;
  def "monetization.stripe_api_base" Monetization UrlKind (Bootstrap "the Stripe secret key is sent to this host; change it in .env, only for a test double") false (Some "MM_STRIPE_API_BASE") None;
  def "monetization.lnbits_enabled" Monetization Bool Restart false (Some "MM_LNBITS_ENABLED") None;
  def "monetization.lnbits_url" Monetization Text_ Restart false (Some "MM_LNBITS_URL") (Some check_empty_or_url);
  def "monetization.lnbits_invoice_key" Monetization Text_ Restart true (Some "MM_LNBITS_INVOICE_KEY") None;
  def "monetization.lnbits_admin_key" Monetization Text_ Restart true (Some "MM_LNBITS_ADMIN_KEY") None;
  def "monetization.demo_mode" Monetization Bool Live false (Some "MM_DEMO_MODE") None;
  def "advertising.enabled" Advertising Bool Restart false (Some "MM_ADVERTISING_ENABLED") None;
  def "advertising.streamer_ads_enabled" Advertising Bool Restart false None None;
  def "advertising.platform_ads_enabled" Advertising Bool Restart false None None;
  def "advertising.skip_after_secs" Advertising (Int 0 120) Restart false None None;
  def "federation.enabled" Federation Bool Live false (Some "MM_FEDERATION_ENABLED") None;
  def "federation.allow_list" Federation List_ Live false (Some "MM_FEDERATION_ALLOW_LIST") None;
  def "federation.deny_list" Federation List_ Live false (Some "MM_FEDERATION_DENY_LIST") None;
  def "federation.validation_timeout_secs" Federation (Int 1 60) Live false (Some "MM_FEDERATION_VALIDATION_TIMEOUT_SECS") None;
  def "federation.validation_cache_ttl_secs" Federation (Int 0 86400) Restart false (Some "MM_FEDERATION_VALIDATION_CACHE_TTL_SECS") None;
  def "matrix.signup_rate_limit_per_ip_per_hour" Security (Int 1 10000) Live false (Some "MM_SIGNUP_RATE_LIMIT_PER_IP_PER_HOUR") None;
  def "matrix.signup_tos_current_version" Security Text_ Live false (Some "MM_SIGNUP_TOS_CURRENT_VERSION") None;
  def "matrix.signup_ip_hash_pepper" Security Text_ (Bootstrap "Docker secret file managed by `mmctl rotate MM_SIGNUP_IP_HASH_PEPPER`") true (Some "MM_SIGNUP_IP_HASH_PEPPER") None;
  def "server.admin_token" Security Text_ (Bootstrap "authenticates the dashboard itself; rotate with `mmctl rotate MM_ADMIN_TOKEN`") true (Some "MM_ADMIN_TOKEN") None;
  def "jwt_signing_key" Security Text_ (Bootstrap "signs every session; rotate with `mmctl rotate MM_JWT_SIGNING_KEY`") true (Some "MM_JWT_SIGNING_KEY") None;
  def "database.url" Security Text_ (Bootstrap "needed before the database can be read") true (Some "MM_DATABASE_URL") None;
  def "monetization.postgres_url" Security Text_ (Bootstrap "needed before the database can be read") true (Some "MM_POSTGRES_URL") None;
  def "matrix.as_token" Security Text_ (HostCoupled "Synapse") true (Some "MM_MATRIX_AS_TOKEN") None;
  def "matrix.hs_token" Security Text_ (HostCoupled "Synapse") true (Some "MM_MATRIX_HS_TOKEN") None;
  def "matrix.synapse_admin_token" Security Text_ (HostCoupled "Synapse") true (Some "MM_SYNAPSE_ADMIN_TOKEN") None;
  def "matrix.synapse_registration_secret" Security Text_ (HostCoupled "Synapse") true (Some "MM_SYNAPSE_REGISTRATION_SHARED_SECRET") None;
  def "sfu.livekit_api_key" Security Text_ (HostCoupled "LiveKit") true (Some "MM_SFU_LIVEKIT_API_KEY") None;
  def "sfu.livekit_api_secret" Security Text_ (HostCoupled "LiveKit") true (Some "MM_SFU_LIVEKIT_API_SECRET") None;
  def "advertising.switch_auth_secret" Security Text_ (HostCoupled "mm-switch") true (Some "MM_SWITCH_AUTH_SECRET") None;
  def "turn.shared_secret" Security Text_ (HostCoupled "coturn") true (Some "MM_TURN_SHARED_SECRET") None;
  def "server.alert_webhook_token" Security Text_ (HostCoupled "Alertmanager") true (Some "MM_ALERT_WEBHOOK_TOKEN") None].

Definition registry : list SettingDef := server_entries ++ storage_entries.


Definition find (key : string) : option SettingDef :=
  List.find (λ d, String.eqb (sd_key d) key) registry.
End registry.

(** A destination and the secrets sent there. *)
Record UrlCredentials : Type := { uc_url : string; uc_secrets : list string }.

Definition URL_CREDENTIALS : list UrlCredentials := [
  {| uc_url := "monetization.lnbits_url";
     uc_secrets := ["monetization.lnbits_invoice_key"; "monetization.lnbits_admin_key"] |};
  {| uc_url := "storage.s3.endpoint"; uc_secrets := ["storage.s3.access_key"; "storage.s3.secret_key"] |};
  {| uc_url := "storage.s3.bucket"; uc_secrets := ["storage.s3.access_key"; "storage.s3.secret_key"] |}].

(** The fields that are deliberately not settings. *)
Definition EXCLUDED : list string := [
  "sfu.timeout_seconds"; "database.path"; "media.local_dir"; "media.max_upload_bytes";
  "recording.auto_record"; "recording.format"; "recording.upload_to_matrix";
  "recording.max_duration_secs"; "advertising.pre_roll_enabled"; "advertising.pre_roll_max_secs";
  "advertising.mid_roll_enabled"; "advertising.mid_roll_min_interval_secs";
  "advertising.mid_roll_max_secs"; "advertising.max_file_size_mb"; "advertising.max_duration_secs";
  "advertising.max_ads_per_creator"; "advertising.priority_mode";
  "advertising.auto_restore_timeout_secs"; "monetization.stripe_publishable_key"; "storage.backend";
  "storage.local_path"; "cdn.enabled"; "cdn.base_url"; "cdn.signing_key"; "cdn.default_ttl_secs"].

(** ** The envelope of a stored secret *)
Definition KEY_ENV : string := "MM_SETTINGS_ENCRYPTION_KEY".
Definition PREVIOUS_KEY_ENV : string := "MM_SETTINGS_ENCRYPTION_KEY_PREVIOUS".
Definition MAGIC : string := "MS1".
Definition ID_LEN : nat := 8.
Definition NONCE_LEN : nat := 12.
Definition TAG_LEN : nat := 16.

Module CryptoError.
Inductive t : Type :=
  | BadKey (var : string)
  | Malformed
  | UnknownKey (id : string)
  | Decrypt.

Definition to_string (e : t) : string :=
  match e with
  | BadKey var => var +:+ " is not a 32-byte key (expected 64 hex characters or base64)"
  | Malformed => "stored secret is malformed"
  | UnknownKey id => "stored secret was encrypted with a key that is not configured (key id " +:+ id +:+ ")"
  | Decrypt => "decryption failed (wrong key, or the value was moved between settings)"
  end.
End CryptoError.

(** Byte strings. [seal] is encryption with the tag appended; [open_] checks the tag. *)
Class Cipher : Type := {
  seal (key nonce aad msg : string) : string;
  open_ (key nonce aad ct : string) : option string;
  sha256 : string → string;
  hex_encode : string → string;
  hex_decode : string → option string;
  base64_decode : string → option string
}.

(** What AES-GCM and SHA-256 are documented to do. *)
Class CipherLaws `{Cipher} : Prop := {
  open_seal key nonce aad msg : open_ key nonce aad (seal key nonce aad msg) = Some msg;
  seal_length key nonce aad msg :
    String.length (seal key nonce aad msg) = (String.length msg + TAG_LEN)%nat;
  sha256_length s : String.length (sha256 s) = 32%nat
}.

Record Key : Type := { k_id : string; k_bytes : string }.
Record KeyRing : Type := { kr_current : Key; kr_previous : option Key }.

Section crypto.
Context `{Cipher}.

Definition is_hex_digit (c : ascii) : bool :=
  let n := Z.of_N (N_of_ascii c) in
  ((48 <=? n) && (n <=? 57)) || ((65 <=? n) && (n <=? 70)) || ((97 <=? n) && (n <=? 102)).

Definition parse_key (raw var : string) : result Key CryptoError.t :=
  let raw := trim raw in
  let decoded :=
    if (String.length raw =? 64)%nat && forallb is_hex_digit (String.list_ascii_of_string raw)
    then hex_decode raw else base64_decode raw in
  match decoded with
  | None => Err (CryptoError.BadKey var)
  | Some bytes =>
      if negb (String.length bytes =? 32)%nat then Err (CryptoError.BadKey var)
      else Ok {| k_id := String.substring 0 ID_LEN (sha256 bytes); k_bytes := bytes |}
  end.

Definition not_blank (o : option string) : option string :=
  match o with Some s => if is_empty_str (trim s) then None else Some s | None => None end.

Definition from_values (current previous : option string) : result (option KeyRing) CryptoError.t :=
  match not_blank current with
  | None => Ok None
  | Some c =>
      match parse_key c KEY_ENV with
      | Err e => Err e
      | Ok current =>
          match not_blank previous with
          | None => Ok (Some {| kr_current := current; kr_previous := None |})
          | Some p =>
              match parse_key p PREVIOUS_KEY_ENV with
              | Err e => Err e
              | Ok previous =>
                  Ok (Some {| kr_current := current;
                    kr_previous := if String.eqb (k_id previous) (k_id current) then None
                                   else Some previous |})
              end
          end
      end
  end.

Definition env_value_of (v : option env_value) (var : string) : result (option string) CryptoError.t :=
  match v with
  | Some (Unicode s) => Ok (Some s)
  | None => Ok None
  | Some NotUnicode => Err (CryptoError.BadKey var)
  end.

Definition keys_from_env (p : Process) : result (option KeyRing) CryptoError.t :=
  match env_value_of (pr_env p KEY_ENV) KEY_ENV with
  | Err e => Err e
  | Ok current =>
      match env_value_of (pr_env p PREVIOUS_KEY_ENV) PREVIOUS_KEY_ENV with
      | Err e => Err e
      | Ok previous => from_values current previous
      end
  end.

(** [nonce] is the random one the call draws. *)
Definition encrypt (r : KeyRing) (nonce setting_key plaintext : string) : string :=
  MAGIC +:+ k_id (kr_current r) +:+ nonce +:+ seal (k_bytes (kr_current r)) nonce setting_key plaintext.

Definition split_envelope (blob : string) : result (string * string * string) CryptoError.t :=
  let len := String.length blob in
  if (len <? 3 + ID_LEN + NONCE_LEN + TAG_LEN)%nat || negb (String.eqb (String.substring 0 3 blob) MAGIC)
  then Err CryptoError.Malformed
  else Ok (String.substring 3 ID_LEN blob, String.substring (3 + ID_LEN) NONCE_LEN blob,
           String.substring (3 + ID_LEN + NONCE_LEN) (len - (3 + ID_LEN + NONCE_LEN)) blob).

Definition decrypt (r : KeyRing) (setting_key blob : string) : result string CryptoError.t :=
  match split_envelope blob with
  | Err e => Err e
  | Ok (id, nonce, ct) =>
      let key :=
        if String.eqb id (k_id (kr_current r)) then Some (kr_current r)
        else match kr_previous r with
             | Some p => if String.eqb (k_id p) id then Some p else None
             | None => None
             end in
      match key with
      | None => Err (CryptoError.UnknownKey (hex_encode id))
      | Some k => match open_ (k_bytes k) nonce setting_key ct with
                  | Some m => Ok m
                  | None => Err CryptoError.Decrypt
                  end
      end
  end.

Definition is_on_previous (r : KeyRing) (blob : string) : bool :=
  match split_envelope blob, kr_previous r with
  | Ok (id, _, _), Some prev => String.eqb id (k_id prev)
  | _, _ => false
  end.
End crypto.

(** ** What was encrypted is decrypted *)
Lemma substring_app_skip (a b : string) n m :
  String.substring (String.length a + n) m (a +:+ b) = String.substring n m b.
Proof. induction a as [|c a IH]; [done|exact IH]. Qed.

Lemma substring_prefix (a b : string) : String.substring 0 (String.length a) (a +:+ b) = a.
Proof. induction a as [|c a IH]; [by destruct b|exact (f_equal (String c) IH)]. Qed.

Lemma substring_all (a : string) : String.substring 0 (String.length a) a = a.
Proof. induction a as [|c a IH]; [done|exact (f_equal (String c) IH)]. Qed.

Lemma substring_length_le n m (s : string) :
  (n + m ≤ String.length s)%nat → String.length (String.substring n m s) = m.
Proof.
  revert n m. induction s as [|c s IH]; intros n m Hle; cbn in *.
  - by destruct n, m; cbn in *; try lia.
  - destruct n as [|n]; [destruct m as [|m]; cbn; [done|]|cbn].
    + rewrite IH by lia. done.
    + apply IH. lia.
Qed.

Lemma string_length_app (a b : string) :
  String.length (a +:+ b) = (String.length a + String.length b)%nat.
Proof. induction a as [|c a IH]; [done|exact (f_equal S IH)]. Qed.

Section crypto_lemmas.
Context `{CipherLaws}.

Definition key_ok (k : Key) : Prop := String.length (k_id k) = ID_LEN.

Lemma parse_key_ok raw var k : parse_key raw var = Ok k → key_ok k.
Proof.
  unfold parse_key. cbn zeta. destruct (if _ : bool then hex_decode _ else _) as [bytes|]; [|done].
  destruct (negb _); [done|]. intros [= <-]. unfold key_ok. cbn [k_id]. apply substring_length_le. rewrite sha256_length. unfold ID_LEN. lia.
Qed.

Lemma split_encrypted r nonce key plain :
  key_ok (kr_current r) → String.length nonce = NONCE_LEN →
  split_envelope (encrypt r nonce key plain) =
    Ok (k_id (kr_current r), nonce, seal (k_bytes (kr_current r)) nonce key plain).
Proof.
  unfold key_ok, encrypt. intros Hid Hn. set (id := k_id _) in *.
  set (ct := seal _ _ _ _).
  assert (Hct : (TAG_LEN ≤ String.length ct)%nat) by (unfold ct; rewrite seal_length; lia).
  unfold split_envelope.
  replace (String.length (MAGIC +:+ id +:+ nonce +:+ ct))
    with (3 + (ID_LEN + (NONCE_LEN + String.length ct)))%nat
    by (rewrite !string_length_app, Hid, Hn; reflexivity).
  assert (Hlt : (3 + (ID_LEN + (NONCE_LEN + String.length ct)) <? 3 + ID_LEN + NONCE_LEN + TAG_LEN)%nat
    = false) by (apply Nat.ltb_ge; lia).
  rewrite Hlt.
  replace (String.substring 0 3 (MAGIC +:+ id +:+ nonce +:+ ct)) with MAGIC
    by (symmetry; exact (substring_prefix MAGIC _)).
  rewrite String.eqb_refl. cbn [orb negb]. repeat f_equal.
  - change 3%nat with (String.length MAGIC + 0)%nat. rewrite substring_app_skip, <- Hid.
    apply substring_prefix.
  - change (3 + ID_LEN)%nat with (String.length MAGIC + ID_LEN)%nat.
    rewrite substring_app_skip, <- Hid, <- (Nat.add_0_r (String.length id)), substring_app_skip, <- Hn.
    apply substring_prefix.
  - replace (3 + (ID_LEN + (NONCE_LEN + String.length ct)) - (3 + ID_LEN + NONCE_LEN))%nat
      with (String.length ct) by lia.
    replace (3 + ID_LEN + NONCE_LEN)%nat with (String.length MAGIC + (ID_LEN + (NONCE_LEN + 0)))%nat
      by (cbn [String.length MAGIC]; unfold ID_LEN, NONCE_LEN; cbn; lia).
    rewrite substring_app_skip, <- Hid, substring_app_skip, <- Hn, substring_app_skip.
    apply substring_all.
Qed.

(** The key a ring decrypts an envelope with. *)
Definition opens_with (r : KeyRing) (id : string) : option Key :=
  if String.eqb id (k_id (kr_current r)) then Some (kr_current r)
  else match kr_previous r with
       | Some p => if String.eqb (k_id p) id then Some p else None
       | None => None
       end.

(** A blob that a ring wrote for a setting is read back by every ring that knows its key. *)
Lemma decrypt_encrypted r r' nonce key plain :
  key_ok (kr_current r) → String.length nonce = NONCE_LEN →
  opens_with r' (k_id (kr_current r)) = Some (kr_current r) →
  decrypt r' key (encrypt r nonce key plain) = Ok plain.
Proof.
  intros Hk Hn Hw. unfold decrypt. rewrite split_encrypted by done.
  unfold opens_with in Hw. rewrite Hw. by rewrite open_seal.
Qed.
End crypto_lemmas.

(** ** The registry agrees with the configuration *)
Definition is_some {A} (o : option A) : bool := match o with Some _ => true | None => false end.

Definition kind_fits (kind : ValueKind) (ty : field_type) : bool :=
  match kind, ty with
  | Bool, TBool | Float _ _, TF64 | Text_, TText | OptText, TOptText | UrlKind, TText
  | OptUrl, TOptText | List_, TList => true
  | Int min max, TInt lo hi => (lo <=? min) && (max <=? hi)
  | Choice options, TFleetMode => forallb (λ s, is_some (variant_fleet s)) options
  | Choice options, TLadderMode => forallb (λ s, is_some (variant_ladder s)) options
  | _, _ => false
  end.

(** An entry names a field of the type of its kind; with an environment variable, it is the
    one that field is overridden by, and with none no variable overrides it. *)
Definition entry_fits (d : SettingDef) : bool :=
  match type_of (sd_key d) with Some ty => kind_fits (sd_kind d) ty | None => false end &&
  bool_decide (sd_env d = ov_var <$> List.find (λ o, String.eqb (ov_path o) (sd_key d))
                                       (overrides (λ _, None))).

Section registry_lemmas.
Context `{Lib}.

Lemma registry_fits : forallb entry_fits registry = true.
Proof. vm_compute. reflexivity. Qed.

Lemma registry_keys_distinct : NoDup (sd_key <$> registry).
Proof. apply (bool_decide_unpack _). vm_compute. exact I. Qed.

(** Every field is a setting or excluded, never both. *)
Lemma registry_covers_fields :
  forallb (λ f, xorb (existsb (String.eqb f.1.1) (sd_key <$> registry)) (existsb (String.eqb f.1.1) EXCLUDED))
    config_fields = true.
Proof. vm_compute. reflexivity. Qed.

Lemma find_spec key d : find key = Some d → sd_key d = key ∧ d ∈ registry.
Proof.
  intros Hf. apply List.find_some in Hf as [Hin Hk]. split; [by apply String.eqb_eq in Hk|].
  by apply list_elem_of_In.
Qed.

Lemma entry_type d : d ∈ registry → ∃ ty, type_of (sd_key d) = Some ty ∧ kind_fits (sd_kind d) ty = true.
Proof.
  intros Hd. pose proof registry_fits as Hall. rewrite forallb_forall in Hall.
  specialize (Hall d (proj1 (list_elem_of_In _ _) Hd)). unfold entry_fits in Hall.
  apply andb_true_iff in Hall as [Hk _]. destruct (type_of (sd_key d)) as [ty|]; [eauto|done].
Qed.

Lemma text_as_str v s : text v = Ok s → v = JStr s.
Proof. unfold text. destruct v; try done. cbn. destruct (_ <? _); [done|]. by intros [= ->]. Qed.

Lemma items_texts items : list_items items = Ok () → ∃ l, mapM as_str items = Some l.
Proof.
  induction items as [|v items IH]; cbn; [eauto|].
  destruct (text v) as [s|] eqn:E; [|done]. apply text_as_str in E as ->.
  destruct (is_empty_str _); [done|]. intros Hi. destruct (IH Hi) as [l Hl].
  exists (s :: l). cbn. by rewrite Hl.
Qed.

(** A value that passes validation fits the type of its field. *)
Lemma validated_fits d v ty :
  type_of (sd_key d) = Some ty → kind_fits (sd_kind d) ty = true →
  validate_setting d v = Ok () → ∃ fv, from_value ty v = Some fv ∧ typed ty fv = true.
Proof.
  intros _ Hk. unfold validate_setting.
  destruct (validate_kind _ _ _) as [[]|] eqn:Ev; [|done]. intros _.
  destruct (sd_kind d) as [|min max|min max| | | | | |options]; destruct ty; try done; cbn in Ev |- *.
  - destruct (of_bool v); [eauto|done].
  - destruct v; try done. cbn in Ev |- *. cbn in Hk. apply andb_true_iff in Hk as [H1 H2].
    apply Z.leb_le in H1, H2. destruct (json_int text0) as [n|]; cbn in Ev; [|done].
    destruct (_ && _); [|done]. destruct (_ || _) eqn:Eb; [done|].
    apply orb_false_iff in Eb as [E1 E2]. apply Z.ltb_ge in E1, E2.
    rewrite in_range_id by lia. cbn. eexists. split; [done|]. cbn. apply andb_true_iff. split; apply Z.leb_le; lia.
  - destruct v; try done. destruct (f64_of_json text0); [|done]. cbn. eauto.
  - destruct (text v) as [s|] eqn:E; [|done]. apply text_as_str in E as ->. cbn. eauto.
  - destruct v; try done; cbn in Ev |- *; eauto.
  - destruct (text v) as [s|] eqn:E; [|done]. apply text_as_str in E as ->. cbn. eauto.
  - destruct v; try done; cbn in Ev |- *; eauto.
  - destruct v; try done. cbn in Ev. destruct (_ <? _); [done|].
    apply items_texts in Ev as [l' Hl]. exists (VList l'). cbn. by rewrite Hl.
  - destruct (text v) as [s|] eqn:E; [|done]. apply text_as_str in E as ->. cbn.
    destruct (existsb _ _) eqn:Ex; [|done]. apply existsb_exists in Ex as (o & Ho & Heq).
    apply String.eqb_eq in Heq as <-. cbn in Hk. rewrite forallb_forall in Hk. specialize (Hk _ Ho).
    destruct (variant_fleet s); [cbn; eauto|done].
  - destruct (text v) as [s|] eqn:E; [|done]. apply text_as_str in E as ->. cbn.
    destruct (existsb _ _) eqn:Ex; [|done]. apply existsb_exists in Ex as (o & Ho & Heq).
    apply String.eqb_eq in Heq as <-. cbn in Hk. rewrite forallb_forall in Hk. specialize (Hk _ Ho).
    destruct (variant_ladder s); [cbn; eauto|done].
Qed.

Lemma validated_set d v c :
  d ∈ registry → validate_setting d v = Ok () →
  ∃ fv, set d c v = Ok (<[sd_key d := fv]> c) ∧ ∀ ty, type_of (sd_key d) = Some ty → typed ty fv = true.
Proof.
  intros Hd Hv. destruct (entry_type d Hd) as (ty & Hty & Hk).
  destruct (validated_fits d v ty Hty Hk Hv) as (fv & Hf & Ht). exists fv.
  unfold set. rewrite Hty. cbn. rewrite Hf. split; [done|]. by intros ty' [= <-].
Qed.

Lemma set_typed d c v c' : set d c v = Ok c' → ∃ fv, c' = <[sd_key d := fv]> c.
Proof. unfold set. destruct (_ ≫= _); [|done]. intros [= <-]. eauto. Qed.

(** Text is read back as it was set. *)
Lemma set_get_text d c c' v ty :
  type_of (sd_key d) = Some ty → ty = TText ∨ ty = TOptText →
  set d c v = Ok c' → get d c' = v.
Proof.
  intros Hty Ho. unfold set, get. rewrite Hty. cbn.
  destruct (from_value ty v) as [fv|] eqn:Ef; [|done]. intros [= <-]. rewrite lookup_insert_eq.
  destruct Ho as [-> | ->]; cbn in Ef.
  - destruct v; try done. by simplify_eq/=.
  - destruct v; try done; by simplify_eq/=.
Qed.

Lemma set_get_other d d' c c' v : set d c v = Ok c' → sd_key d' ≠ sd_key d → get d' c' = get d' c.
Proof. intros [fv ->]%set_typed Hne. unfold get. by rewrite lookup_insert_ne. Qed.
End registry_lemmas.
