(* ===== verification/SettingsOverlay.v ===== *)
(** * SettingsOverlay: from stored settings to the configuration that runs

    [mm-core/src/settings/overlay.rs]: the overlay at boot with its safe mode, the import of the
    first boot, the reload of live values, what waits for a restart, and the rules on
    destinations that secrets are sent to. *)
From S2P Require Import Prelude F64 FleetTypes Ladder ApiSchema Errors Json Text Guards Config Settings.
Local Open Scope Z_scope.
Local Open Scope mm_scope.

Inductive Stored : Type :=
  | SJson (v : json_value)
  | SEncrypted (blob : string).

Record StoredSetting : Type := {
  ss_key : string;
  ss_value : Stored;
  ss_rev : Z
}.

Inductive Source : Type := FromDefault | FromFile | FromEnv | FromDatabase.

Record Problem : Type := { pb_key : string; pb_reason : string }.

Record Overlay : Type := {
  ol_config : Config;
  ol_loaded_rev : Z;
  ol_from_db : gset string;
  ol_problems : list Problem;
  ol_secret_problems : list Problem;
  ol_ignored : list string;
  ol_unpaired_destinations : list string
}.

Definition joined (ps : list Problem) : string :=
  String.concat "; " ((λ p, pb_key p +:+ ": " +:+ pb_reason p) <$> ps).

Definition safe_mode_reason (o : Overlay) : option string :=
  match ol_problems o with [] => None | ps => Some (joined ps) end.

(** [iter().max().unwrap_or(0)]. *)
Definition newest (revs : list Z) : Z :=
  match revs with [] => 0 | r :: rs => foldl Z.max r rs end.

Definition is_empty (v : json_value) : bool :=
  match v with JNull | JStr EmptyString | JArr [] => true | _ => false end.

Definition no_key_reason : string := KEY_ENV +:+ " is not set, so this secret cannot be decrypted".

Definition has_key (l : list string) (key : string) : bool := existsb (String.eqb key) l.

Section overlay.
Context `{Lib, Cipher}.

Definition url_of (s : string) : option Guards.Url :=
  match parse_url s with Ok u => Some (pu_url u) | Err _ => None end.

Definition validate_config (c : Config) (policy : BuildPolicy) : result () (list string) :=
  let errors :=
    (match validate_top c with Err e => [e] | Ok _ => [] end) ++
    (match validate_for url_of (monetization_of c) policy with Err e => [e] | Ok _ => [] end) in
  match errors with [] => Ok () | _ => Err errors end.

Definition decode (keys : option KeyRing) (d : SettingDef) (row : StoredSetting) : result json_value string :=
  match ss_value row, sd_secret d with
  | SJson v, false => Ok v
  | SEncrypted blob, true =>
      match keys with
      | None => Err no_key_reason
      | Some k =>
          match decrypt k (sd_key d) blob with
          | Err e => Err (CryptoError.to_string e)
          | Ok plain => match parse_json plain with
                        | Some v => Ok v
                        | None => Err "decrypted value is not valid JSON"
                        end
          end
      end
  | SJson _, true => Err "secret stored without encryption"
  | SEncrypted _, false => Err "non-secret value stored encrypted"
  end.

Definition apply_row (keys : option KeyRing) (d : SettingDef) (row : StoredSetting) (c : Config) :
    result Config string :=
  match decode keys d row with
  | Err e => Err e
  | Ok v => match validate_setting d v with Err e => Err e | Ok _ => set d c v end
  end.

Definition find_editable (key : string) : option SettingDef :=
  match find key with Some d => if editable d then Some d else None | None => None end.

(** One row of the boot overlay; [ol_config] is the candidate. *)
Definition overlay_row (keys : option KeyRing) (o : Overlay) (row : StoredSetting) : Overlay :=
  match find_editable (ss_key row) with
  | None => {| ol_config := ol_config o; ol_loaded_rev := ol_loaded_rev o; ol_from_db := ol_from_db o;
      ol_problems := ol_problems o; ol_secret_problems := ol_secret_problems o;
      ol_ignored := ol_ignored o ++ [ss_key row];
      ol_unpaired_destinations := ol_unpaired_destinations o |}
  | Some d =>
      match apply_row keys d row (ol_config o) with
      | Ok c => {| ol_config := c; ol_loaded_rev := ol_loaded_rev o;
          ol_from_db := {[ ss_key row ]} ∪ ol_from_db o;
          ol_problems := ol_problems o; ol_secret_problems := ol_secret_problems o;
          ol_ignored := ol_ignored o; ol_unpaired_destinations := ol_unpaired_destinations o |}
      | Err reason =>
          let p := {| pb_key := ss_key row; pb_reason := reason |} in
          {| ol_config := ol_config o; ol_loaded_rev := ol_loaded_rev o; ol_from_db := ol_from_db o;
             ol_problems := if sd_secret d then ol_problems o else ol_problems o ++ [p];
             ol_secret_problems := if sd_secret d then ol_secret_problems o ++ [p] else ol_secret_problems o;
             ol_ignored := ol_ignored o; ol_unpaired_destinations := ol_unpaired_destinations o |}
      end
  end.

(** The secrets of a pair that are set but did not come from the database. *)
Definition foreign_secrets (o : Overlay) (pair : UrlCredentials) : list string :=
  List.filter (λ s, negb (bool_decide (s ∈ ol_from_db o)) &&
    match find s with Some d => negb (is_empty (get d (ol_config o))) | None => false end)
    (uc_secrets pair).

(** A stored destination applies only with its secrets. *)
Definition pair_destination (base : Config) (rows : list StoredSetting) (o : Overlay) (pair : UrlCredentials) :
    Overlay :=
  match find (uc_url pair) with
  | None => o
  | Some d =>
      if negb (bool_decide (uc_url pair ∈ ol_from_db o)) ||
         bool_decide (get d (ol_config o) = get d base)
      then o
      else
      match foreign_secrets o pair with
      | [] => o
      | foreign => {|
          ol_config := match set d (ol_config o) (get d base) with Ok c => c | Err _ => ol_config o end;
          ol_loaded_rev := ol_loaded_rev o;
          ol_from_db := ol_from_db o ∖ {[ uc_url pair ]};
          ol_problems := ol_problems o;
          ol_secret_problems := ol_secret_problems o ++ [{| pb_key := uc_url pair;
            pb_reason := "the stored value is ignored because " +:+ String.concat " and " foreign +:+
              " did not come from the dashboard" |}];
          ol_ignored := ol_ignored o;
          ol_unpaired_destinations := ol_unpaired_destinations o ++
            (if existsb (has_key (ss_key <$> rows)) foreign then [] else [uc_url pair]) |}
      end
  end.

Definition apply_overlay (base : Config) (rows : list StoredSetting) (keys : option KeyRing)
    (policy : BuildPolicy) : Overlay :=
  let start := {| ol_config := base; ol_loaded_rev := newest (ss_rev <$> rows); ol_from_db := ∅;
    ol_problems := []; ol_secret_problems := []; ol_ignored := []; ol_unpaired_destinations := [] |} in
  let o := foldl (overlay_row keys) start rows in
  let o := foldl (pair_destination base rows) o URL_CREDENTIALS in
  let problems := match ol_problems o with
    | [] => match validate_config (ol_config o) policy with
            | Err errors => (λ reason, {| pb_key := "*"; pb_reason := reason |}) <$> errors
            | Ok _ => []
            end
    | ps => ps
    end in
  {| ol_config := match problems with [] => ol_config o | _ => base end;
     ol_loaded_rev := ol_loaded_rev o;
     ol_from_db := match problems with [] => ol_from_db o | _ => ∅ end;
     ol_problems := problems; ol_secret_problems := ol_secret_problems o; ol_ignored := ol_ignored o;
     ol_unpaired_destinations := ol_unpaired_destinations o |}.

(** ** The import of the first boot *)
Record ImportPlan : Type := {
  ip_values : list (string * Stored);
  ip_skipped : list Problem
}.

Definition import_setting (nonce : string → string) (base : Config) (keys : option KeyRing)
    (plan : ImportPlan) (d : SettingDef) : ImportPlan :=
  let v := get d base in
  let add := λ s, {| ip_values := ip_values plan ++ [(sd_key d, s)]; ip_skipped := ip_skipped plan |} in
  match validate_setting d v with
  | Err reason => {| ip_values := ip_values plan;
      ip_skipped := ip_skipped plan ++ [{| pb_key := sd_key d; pb_reason := reason |}] |}
  | Ok _ =>
      if sd_secret d then
        match keys with
        | None => plan
        | Some k => if is_empty v then plan
                    else add (SEncrypted (encrypt k (nonce (sd_key d)) (sd_key d) (print_json v)))
        end
      else add (SJson v)
  end.

(** [nonce] gives the random nonce drawn for a setting; each is encrypted once. *)
Definition import_plan (nonce : string → string) (base : Config) (keys : option KeyRing) : ImportPlan :=
  foldl (import_setting nonce base keys) {| ip_values := []; ip_skipped := [] |}
    (List.filter editable registry).

Definition chosen_in_db (stored : list StoredSetting) (base : Config) (url : string) : bool :=
  match find url with
  | None => false
  | Some d =>
      match List.find (λ r, String.eqb (ss_key r) url) stored with
      | None => false
      | Some row => match ss_value row with
                    | SJson v => negb (bool_decide (v = get d base))
                    | SEncrypted _ => true
                    end
      end
  end.

Definition guard_import (values : list (string * Stored)) (stored : list StoredSetting) (base : Config) :
    list (string * Stored) * list string :=
  let dropped := flat_map uc_secrets (List.filter (λ p, chosen_in_db stored base (uc_url p)) URL_CREDENTIALS) in
  (List.filter (λ kv, negb (has_key dropped kv.1)) values,
   fst <$> List.filter (λ kv, has_key dropped kv.1) values).

(** ** Live values and what waits for a restart *)
Definition reload_row (keys : option KeyRing) (acc : Config * list Problem) (row : StoredSetting) :
    Config * list Problem :=
  match find (ss_key row) with
  | Some d =>
      if is_live (sd_class d) then
        match apply_row keys d row acc.1 with
        | Ok c => (c, acc.2)
        | Err reason =>
            if sd_secret d then acc
            else (acc.1, acc.2 ++ [{| pb_key := ss_key row; pb_reason := reason |}])
        end
      else acc
  | None => acc
  end.

Definition reload_live (current : Config) (rows : list StoredSetting) (keys : option KeyRing)
    (policy : BuildPolicy) : result Config (list Problem) :=
  let '(candidate, problems) := foldl (reload_row keys) (current, []) rows in
  match problems with
  | [] => match validate_config candidate policy with
          | Err errors => Err ((λ reason, {| pb_key := "*"; pb_reason := reason |}) <$> errors)
          | Ok _ => Ok candidate
          end
  | _ => Err problems
  end.

Definition pending_restart (rows : list StoredSetting) (loaded_rev : Z) (every_class : bool) : list string :=
  omap (λ r, if loaded_rev <? ss_rev r then
      match find (ss_key r) with
      | Some d => if is_restart (sd_class d) || (every_class && is_live (sd_class d))
                  then Some (sd_key d) else None
      | None => None
      end else None) rows.

Definition moved_destinations (next running : Config) : list string :=
  omap (λ p, match find (uc_url p) with
             | Some d => if bool_decide (get d next = get d running) then None else Some (sd_key d)
             | None => None
             end) URL_CREDENTIALS.

Definition stored_elsewhere (stored : list StoredSetting) (key : string) (now : json_value) : bool :=
  match List.find (λ r, String.eqb (ss_key r) key) stored with
  | Some r => match ss_value r with SJson v => negb (bool_decide (v = now)) | SEncrypted _ => true end
  | None => false
  end.

Definition unsettled_destinations (stored : list StoredSetting) (next running : Config) : list string :=
  omap (λ p, match find (uc_url p) with
             | Some d =>
                 let now := get d running in
                 if stored_elsewhere stored (sd_key d) now || negb (bool_decide (get d next = now))
                 then Some (sd_key d) else None
             | None => None
             end) URL_CREDENTIALS.

(** The first unsettled destination that is not sent while secrets of it are. *)
Fixpoint unconfirmed_in (sent : string → bool) (unsettled : list string) (pairs : list UrlCredentials) :
    option (string * list string) :=
  match pairs with
  | [] => None
  | p :: rest =>
      if has_key unsettled (uc_url p) && negb (sent (uc_url p)) then
        match List.filter sent (uc_secrets p) with
        | [] => unconfirmed_in sent unsettled rest
        | secrets => Some (uc_url p, secrets)
        end
      else unconfirmed_in sent unsettled rest
  end.

Definition unconfirmed_destination (sent : string → bool) (unsettled : list string) :
    option (string * list string) := unconfirmed_in sent unsettled URL_CREDENTIALS.

Definition shadowed_env (from_db : gset string) (is_set : string → bool) : list string :=
  List.filter (λ v, is_set v || is_set (v +:+ "_FROM_FILE"))
    (omap sd_env (List.filter (λ d, bool_decide (sd_key d ∈ from_db)) registry)).
End overlay.

(** ** What the overlay does to a destination and its secrets *)
Definition sends (url s : string) : Prop := ∃ p, p ∈ URL_CREDENTIALS ∧ uc_url p = url ∧ s ∈ uc_secrets p.

Definition pair_keys : list string := flat_map (λ p, uc_url p :: uc_secrets p) URL_CREDENTIALS.

Section overlay_lemmas.
Context `{Lib, Cipher}.

Definition value_at (key : string) (c : Config) : json_value :=
  match c !! key with Some v => to_value v | None => JNull end.

Lemma sends_keys url s : sends url s → url ∈ pair_keys ∧ s ∈ pair_keys.
Proof.
  intros (p & Hp & <- & Hs). unfold pair_keys. rewrite !list_elem_of_In, !List.in_flat_map.
  split; exists p; (split; [by apply list_elem_of_In|]); [by left|right; by apply list_elem_of_In].
Qed.

Definition is_pair_secret (k : string) : bool :=
  existsb (λ p, existsb (String.eqb k) (uc_secrets p)) URL_CREDENTIALS.

Definition pair_key_ok (k : string) : bool :=
  match find k, type_of k with
  | Some d, Some ty => String.eqb (sd_key d) k && is_restart (sd_class d) &&
      Bool.eqb (sd_secret d) (is_pair_secret k) && match ty with TText | TOptText => true | _ => false end
  | _, _ => false
  end.

Lemma pair_keys_ok : forallb pair_key_ok pair_keys = true.
Proof. vm_compute. reflexivity. Qed.

#[local] Opaque find registry type_of config_fields.

(** The keys of the pairs: texts that wait for a restart. *)
Lemma pair_key_def k :
  k ∈ pair_keys → ∃ d ty, find k = Some d ∧ sd_key d = k ∧ sd_class d = Restart ∧ type_of k = Some ty ∧
    (ty = TText ∨ ty = TOptText) ∧ sd_secret d = is_pair_secret k.
Proof.
  intros Hk. pose proof pair_keys_ok as Hall. rewrite forallb_forall in Hall.
  specialize (Hall k (proj1 (list_elem_of_In _ _) Hk)). unfold pair_key_ok in Hall.
  destruct (find k) as [d|]; [|done]. destruct (type_of k) as [ty|]; [|done].
  rewrite !andb_true_iff in Hall. destruct Hall as [[[H1 H2] H3] H4].
  exists d, ty. split_and!; [done|by apply String.eqb_eq|by destruct (sd_class d)|done| |by apply Bool.eqb_prop].
  destruct ty; try done; auto.
Qed.

Lemma sends_secret url s : sends url s → is_pair_secret s = true ∧ is_pair_secret url = false.
Proof.
  intros (p & Hp & <- & Hs). split.
  - apply existsb_exists. exists p. split; [by apply list_elem_of_In|]. apply existsb_exists.
    exists s. split; [by apply list_elem_of_In|apply String.eqb_refl].
  - unfold URL_CREDENTIALS in Hp. rewrite !elem_of_cons in Hp.
    destruct_or! Hp; [subst p; vm_compute; reflexivity..|by apply not_elem_of_nil in Hp].
Qed.

Lemma pair_has_secret p : p ∈ URL_CREDENTIALS → ∃ s, s ∈ uc_secrets p.
Proof.
  unfold URL_CREDENTIALS. rewrite !elem_of_cons. intros Hp.
  destruct_or! Hp; [subst p; eexists; left..|by apply not_elem_of_nil in Hp].
Qed.

#[local] Opaque URL_CREDENTIALS.

Lemma value_at_get d c : get d c = value_at (sd_key d) c.
Proof. done. Qed.

(** Of each pair key, the candidate has the value of a stored row or that of the base. *)
Definition tracks (keys : option KeyRing) (base : Config) (rows : list StoredSetting) (o : Overlay) : Prop :=
  ∀ k d, k ∈ pair_keys → find k = Some d →
    (k ∈ ol_from_db o → ∃ row, row ∈ rows ∧ ss_key row = k ∧
       decode keys d row = Ok (value_at k (ol_config o))) ∧
    (k ∉ ol_from_db o → value_at k (ol_config o) = value_at k base).

Lemma set_value_at d c c' v : d ∈ registry → set d c v = Ok c' → sd_key d ∈ pair_keys →
  value_at (sd_key d) c' = v.
Proof.
  intros Hd Hs Hk. destruct (pair_key_def _ Hk) as (d' & ty & Hf & _ & _ & Hty & Ht & _).
  rewrite <- value_at_get. by eapply set_get_text.
Qed.

Lemma find_editable_spec key d : find_editable key = Some d → find key = Some d ∧ editable d = true.
Proof. unfold find_editable. destruct (find key) as [d'|]; [|done]. destruct (editable d') eqn:E; [|done]. by intros [= <-]. Qed.

Lemma apply_row_ok keys d row c c' :
  apply_row keys d row c = Ok c' → ∃ v, decode keys d row = Ok v ∧ validate_setting d v = Ok () ∧ set d c v = Ok c'.
Proof.
  unfold apply_row. destruct (decode keys d row) as [v|]; [|done].
  destruct (validate_setting d v) as [[]|] eqn:E; [|done]. eauto.
Qed.

Lemma overlay_row_tracks keys base rows row o :
  tracks keys base rows o → row ∈ rows → tracks keys base rows (overlay_row keys o row).
Proof.
  intros Ht Hin. unfold overlay_row.
  destruct (find_editable (ss_key row)) as [d|] eqn:Ef; [|exact Ht].
  destruct (apply_row keys d row (ol_config o)) as [c|e] eqn:Ea; [|exact Ht].
  apply find_editable_spec in Ef as [Ef _]. destruct (find_spec _ _ Ef) as [Hk Hd].
  apply apply_row_ok in Ea as (v & Hdec & _ & Hset).
  intros k d' Hpk Hf. cbn [ol_config ol_from_db]. destruct (decide (k = ss_key row)) as [->|Hne].
  - rewrite Ef in Hf. injection Hf as <-. split; [|intros Hno; set_solver].
    intros _. exists row. split_and!; [done|done|].
    rewrite <- Hk. rewrite (set_value_at d _ _ v Hd Hset); [done|by rewrite Hk].
  - destruct (find_spec _ _ Hf) as [Hk' _].
    replace (value_at k c) with (value_at k (ol_config o)).
    + destruct (Ht k d' Hpk Hf) as [H1 H2]. split; intros Hk2; [apply H1|apply H2]; set_solver.
    + rewrite <- Hk', <- !value_at_get. symmetry. eapply set_get_other; [done|congruence].
Qed.

Lemma overlay_rows_track keys base rows l o :
  (∀ r, r ∈ l → r ∈ rows) → tracks keys base rows o → tracks keys base rows (foldl (overlay_row keys) o l).
Proof.
  revert o. induction l as [|r l IH]; intros o Hl Ht; [done|]. cbn. apply IH; [set_solver|].
  apply overlay_row_tracks; set_solver.
Qed.

(** A pair is settled in a candidate: its destination is not from the database, or every
    secret of it is, or is empty. *)
Definition settled (base : Config) (o : Overlay) (p : UrlCredentials) : Prop :=
  uc_url p ∈ ol_from_db o → value_at (uc_url p) (ol_config o) ≠ value_at (uc_url p) base →
  ∀ s, s ∈ uc_secrets p → s ∈ ol_from_db o ∨ is_empty (value_at s (ol_config o)) = true.

Lemma base_set d base c :
  config_typed base → d ∈ registry → sd_key d ∈ pair_keys → ∃ c', set d c (get d base) = Ok c'.
Proof.
  intros Hb Hd Hk. destruct (pair_key_def _ Hk) as (d' & ty & _ & _ & _ & Hty & Ht & _).
  destruct (Hb _ _ Hty) as (v & Hv & Htv). unfold set, get. rewrite Hty, Hv. cbn.
  destruct Ht as [-> | ->]; destruct v; try done; cbn; [eauto|]. destruct o; cbn; eauto.
Qed.

Lemma pair_destination_cases base rows o p :
  config_typed base → p ∈ URL_CREDENTIALS →
  (pair_destination base rows o p = o ∧ settled base o p) ∨
  (uc_url p ∈ ol_from_db o ∧ ol_from_db (pair_destination base rows o p) = ol_from_db o ∖ {[uc_url p]} ∧
   value_at (uc_url p) (ol_config (pair_destination base rows o p)) = value_at (uc_url p) base ∧
   ∀ k, k ≠ uc_url p → value_at k (ol_config (pair_destination base rows o p)) = value_at k (ol_config o)).
Proof.
  intros Hb Hp.
  assert (Hk : uc_url p ∈ pair_keys).
  { unfold pair_keys. apply list_elem_of_In, List.in_flat_map. exists p. split; [by apply list_elem_of_In|by left]. }
  destruct (pair_key_def _ Hk) as (d & ty & Hf & Hkey & _ & Hty & Htext & _).
  destruct (find_spec _ _ Hf) as [_ Hd]. unfold pair_destination. rewrite Hf.
  destruct (bool_decide_reflect (uc_url p ∈ ol_from_db o)) as [Hin|Hnot]; cbn [negb orb].
  2: { left. split; [done|]. intros Hin. contradiction. }
  destruct (bool_decide_reflect (get d (ol_config o) = get d base)) as [Heq|Hne].
  { left. split; [done|]. intros _ Hne. rewrite !value_at_get, Hkey in Heq. contradiction. }
  destruct (foreign_secrets o p) as [|x xs] eqn:Efs.
  - left. split; [done|]. intros _ _ s Hs.
    destruct (decide (s ∈ ol_from_db o)) as [|Hno]; [by left|right].
    destruct (is_empty (value_at s (ol_config o))) eqn:Ee; [done|exfalso].
    assert (Hpk : s ∈ pair_keys) by (apply (sends_keys (uc_url p)); by exists p).
    destruct (pair_key_def _ Hpk) as (ds & _ & Hfs & Hks & _).
    assert (Hfor : s ∈ foreign_secrets o p).
    { unfold foreign_secrets. apply list_elem_of_In, filter_In. split; [by apply list_elem_of_In|].
      rewrite bool_decide_eq_false_2 by done. rewrite Hfs, value_at_get, Hks, Ee. done. }
    rewrite Efs in Hfor. by apply not_elem_of_nil in Hfor.
  - right. cbn [ol_from_db ol_config]. split_and!; [done|done|..].
    + destruct (base_set d base (ol_config o) Hb Hd) as [c' Hc']; [by rewrite Hkey|]. rewrite Hc'.
      rewrite <- Hkey, (set_value_at d _ _ _ Hd Hc'); [done|by rewrite Hkey].
    + intros k Hkne. destruct (set d (ol_config o) (get d base)) as [c'|] eqn:Es; [|done].
      apply set_typed in Es as [fv ->]. unfold value_at. by rewrite lookup_insert_ne by congruence.
Qed.

Lemma pair_destination_keeps keys base rows l o p :
  config_typed base → p ∈ URL_CREDENTIALS → tracks keys base rows o → Forall (settled base o) l →
  l ⊆ URL_CREDENTIALS →
  let o' := pair_destination base rows o p in
  tracks keys base rows o' ∧ Forall (settled base o') (l ++ [p]).
Proof.
  intros Hb Hp Ht Hl Hsub. cbn zeta.
  destruct (pair_destination_cases base rows o p Hb Hp) as [[-> Hs]|(Hin & Hdb & Hurl & Hother)].
  { split; [done|]. apply Forall_app. by split; [|apply Forall_singleton]. }
  set (o' := pair_destination base rows o p) in *. split.
  - intros k d Hk Hf. rewrite Hdb. destruct (decide (k = uc_url p)) as [->|Hne].
    + split; [set_solver|]. by intros _.
    + rewrite (Hother k Hne). destruct (Ht k d Hk Hf) as [H1 H2].
      split; intros Hk2; [apply H1|apply H2]; set_solver.
  - apply Forall_app. split; [|apply Forall_singleton; intros Hi; rewrite Hdb in Hi; set_solver].
    apply Forall_forall. intros q Hq. rewrite Forall_forall in Hl. specialize (Hl q Hq).
    intros Hqin Hqne s Hs. rewrite Hdb in *.
    assert (Hqp : uc_url q ≠ uc_url p) by set_solver. rewrite (Hother _ Hqp) in Hqne.
    assert (Hsp : s ≠ uc_url p).
    { intros ->. assert (Hsq : sends (uc_url q) (uc_url p)) by (exists q; by split_and!; [apply Hsub|..]).
      destruct (sends_secret _ _ Hsq) as [Hy _].
      destruct (pair_has_secret p Hp) as [x Hx].
      assert (Hsp : sends (uc_url p) x) by (exists p; by split_and!).
      destruct (sends_secret _ _ Hsp) as [_ Hn]. congruence. }
    rewrite (Hother _ Hsp). destruct (Hl) with (s := s) as [Hs'|Hs']; [set_solver|done|done| |by right].
    left. set_solver.
Qed.

Lemma pair_destinations_keep keys base rows l : ∀ done o,
  config_typed base → tracks keys base rows o → Forall (settled base o) done →
  done ⊆ URL_CREDENTIALS → l ⊆ URL_CREDENTIALS →
  let o' := foldl (pair_destination base rows) o l in
  tracks keys base rows o' ∧ Forall (settled base o') (done ++ l).
Proof.
  induction l as [|p l IH]; intros done_ o Hb Ht Hd Hsub Hl; cbn zeta; cbn [foldl].
  { by rewrite app_nil_r. }
  destruct (pair_destination_keeps keys base rows done_ o p) as [Ht' Hd']; [done|set_solver|done..|].
  destruct (IH (done_ ++ [p]) (pair_destination base rows o p)) as [H1 H2]; [done|done|done|set_solver|set_solver|].
  split; [done|]. by rewrite <- app_assoc in H2.
Qed.

(** The configuration an overlay gives: a destination has its value of the base, or a stored
    one, and then its secrets are stored ones too. *)
Lemma overlay_pairs base rows keys policy url s :
  config_typed base → sends url s →
  let c := ol_config (apply_overlay base rows keys policy) in
  value_at url c = value_at url base ∨
  (∃ d row, find url = Some d ∧ row ∈ rows ∧ ss_key row = url ∧ decode keys d row = Ok (value_at url c)) ∧
  (is_empty (value_at s c) = true ∨
   ∃ d row, find s = Some d ∧ row ∈ rows ∧ ss_key row = s ∧ decode keys d row = Ok (value_at s c)).
Proof.
  intros Hb Hsend. cbn zeta. unfold apply_overlay.
  set (start := {| ol_config := base |}).
  assert (Hstart : tracks keys base rows start) by (intros k d _ _; split; [set_solver|done]).
  pose proof (overlay_rows_track keys base rows rows start (λ _ h, h) Hstart) as Hrows.
  destruct (pair_destinations_keep keys base rows URL_CREDENTIALS [] _ Hb Hrows) as [Ht Hset];
    [constructor|set_solver|done|].
  set (o := foldl (pair_destination base rows) (foldl (overlay_row keys) start rows) URL_CREDENTIALS) in *.
  cbn [ol_config]. destruct (match ol_problems o with [] => _ | _ => _ end) as [|p ps]; [|by left].
  destruct (decide (value_at url (ol_config o) = value_at url base)) as [|Hne]; [by left|right].
  destruct (sends_keys _ _ Hsend) as [Hu Hs].
  destruct (pair_key_def _ Hu) as (du & _ & Hfu & _). destruct (pair_key_def _ Hs) as (ds & _ & Hfs & _).
  destruct (decide (url ∈ ol_from_db o)) as [Hin|Hno].
  2: { exfalso. apply Hne. by apply (Ht url du Hu Hfu). }
  split.
  - destruct (proj1 (Ht url du Hu Hfu) Hin) as (row & Hr & Hk & Hd). exists du, row. by split_and!.
  - destruct Hsend as (p & Hp & <- & Hsp). rewrite Forall_forall in Hset.
    destruct (Hset p Hp Hin Hne s Hsp) as [Hsin|Hemp]; [right|by left].
    destruct (proj1 (Ht s ds Hs Hfs) Hsin) as (row & Hr & Hk & Hd). exists ds, row. by split_and!.
Qed.

(** A reload leaves everything that is not live as it was. *)
Lemma reload_row_keeps keys acc row k d :
  find k = Some d → is_live (sd_class d) = false → value_at k (reload_row keys acc row).1 = value_at k acc.1.
Proof.
  intros Hf Hl. unfold reload_row. destruct (find (ss_key row)) as [d'|] eqn:E; [|done].
  destruct (is_live (sd_class d')) eqn:El; [|done].
  destruct (apply_row keys d' row acc.1) as [c|e] eqn:Ea; [|by destruct (sd_secret d')].
  apply apply_row_ok in Ea as (v & _ & _ & Hs). apply set_typed in Hs as [fv ->]. cbn.
  unfold value_at. rewrite lookup_insert_ne; [done|]. intros <-.
  destruct (find_spec _ _ E) as [Hk _]. rewrite Hk in Hf. congruence.
Qed.

Lemma reload_keeps current rows keys policy c k d :
  reload_live current rows keys policy = Ok c → find k = Some d → is_live (sd_class d) = false →
  value_at k c = value_at k current.
Proof.
  intros E Hf Hl. unfold reload_live in E.
  assert (Hfold : ∀ l acc, value_at k (foldl (reload_row keys) acc l).1 = value_at k acc.1).
  { induction l as [|r l IH]; intros acc; [done|]. cbn. rewrite IH. by eapply reload_row_keeps. }
  specialize (Hfold rows (current, [])). destruct (foldl _ _ rows) as [cand ps].
  destruct ps; [|done]. destruct (validate_config cand policy); [|done]. by injection E as <-.
Qed.
End overlay_lemmas.
