(* ===== verification/SettingsDb.v ===== *)
(** * SettingsDb: the settings tables

    [mm-db/src/settings_db.rs] on the tables of V039. Writers take one advisory lock for the
    length of their transaction, so a transaction is one step. JSONB's own form of a value is
    a parameter: it may refuse a value, and it keeps texts, null and booleans as they are. *)
From S2P Require Import Prelude ApiSchema Schema Json.
Local Open Scope Z_scope.
Local Open Scope mm_scope.

Class Jsonb : Type := { jsonb : json_value → option json_value }.

Class JsonbLaws `{Jsonb} : Prop := {
  jsonb_null : jsonb JNull = Some JNull;
  jsonb_text s v : jsonb (JStr s) = Some v → v = JStr s
}.

Inductive StoredPayload : Type :=
  | PJson (v : json_value)
  | PEncrypted (blob : string).

Record SettingRow : Type := {
  sr_key : string;
  sr_payload : StoredPayload;
  sr_rev : Z;
  sr_updated_at : DateTime;
  sr_updated_by : string
}.

Record NewValue : Type := { nv_key : string; nv_payload : StoredPayload }.

Record SettingsMeta : Type := {
  me_imported_at : option DateTime;
  me_restart_requested_rev : Z
}.

Record ImportOutcome : Type := { io_first : bool; io_inserted : Z }.

Inductive SettingsDbError : Type :=
  | SettingsConflict (expected current : Z)
  | SettingsSql (e : db_error).

Definition split (p : StoredPayload) : option json_value * option string :=
  match p with PJson v => (Some v, None) | PEncrypted b => (None, Some b) end.

Definition settings_of (t : Tables) : SettingsTables := a_settings (t_api t).
Definition put_settings (s : SettingsTables) (t : Tables) : Tables :=
  set_api (set_settings s (t_api t)) t.

Definition set_setting_rows (m : gmap string SettingRec) (s : SettingsTables) : SettingsTables := {|
  s_rows := m; s_audit := s_audit s; s_imported_at := s_imported_at s;
  s_restart_requested_rev := s_restart_requested_rev s; s_rev_seq := s_rev_seq s;
  s_audit_seq := s_audit_seq s |}.

(** ** Statements *)
Definition lock : stmt () := nothing.

Definition max_rev_of (s : SettingsTables) : Z :=
  foldr Z.max 0 ((λ kr, sg_rev kr.2) <$> map_to_list (s_rows s)).

Definition max_rev_in : stmt Z := reading (λ t, max_rev_of (settings_of t)).

Definition next_rev : stmt Z := λ _ t,
  let s := settings_of t in
  Ok (s_rev_seq s, put_settings {| s_rows := s_rows s; s_audit := s_audit s;
    s_imported_at := s_imported_at s; s_restart_requested_rev := s_restart_requested_rev s;
    s_rev_seq := s_rev_seq s + 1; s_audit_seq := s_audit_seq s |} t).

Definition to_row (kr : string * SettingRec) : SettingRow := {|
  sr_key := kr.1;
  sr_payload := match sg_json kr.2, sg_enc kr.2 with
    | _, Some blob => PEncrypted blob
    | Some v, None => PJson v
    | None, None => PJson JNull
    end;
  sr_rev := sg_rev kr.2; sr_updated_at := sg_updated_at kr.2; sr_updated_by := sg_updated_by kr.2 |}.

Definition SELECT_ROWS (t : Tables) : list SettingRow :=
  to_row <$> order_by fst (map_to_list (s_rows (settings_of t))).

Section settings_db.
Context `{Jsonb}.

(** A JSONB column: NULL, or what PostgreSQL makes of the value. *)
Definition jsonb_column (v : option json_value) : result (option json_value) db_error :=
  match v with
  | None => Ok None
  | Some v => match jsonb v with Some w => Ok (Some w) | None => Err (refused "unsupported JSON value") end
  end.

Definition audit_insert (key action : string) (old new : option json_value) (secret_changed : bool)
    (actor : string) (rev : Z) : stmt () := λ now t,
  match jsonb_column old, jsonb_column new with
  | Ok old, Ok new =>
      let s := settings_of t in
      Ok ((), put_settings {| s_rows := s_rows s;
        s_audit := s_audit s ++ [{| sa_id := s_audit_seq s; sa_key := key; sa_action := action;
          sa_old := old; sa_new := new; sa_secret_changed := secret_changed; sa_actor := actor;
          sa_rev := rev; sa_at := now |}];
        s_imported_at := s_imported_at s; s_restart_requested_rev := s_restart_requested_rev s;
        s_rev_seq := s_rev_seq s; s_audit_seq := s_audit_seq s + 1 |} t)
  | Err e, _ | _, Err e => Err e
  end.

(** INSERT; with [upsert], ON CONFLICT (key) DO UPDATE of every column. *)
Definition insert_row (upsert : bool) (key : string) (p : StoredPayload) (rev : Z) (by_ : string) : stmt () :=
  λ now t,
  let s := settings_of t in
  match jsonb_column (split p).1 with
  | Err e => Err e
  | Ok json =>
      if negb upsert && bool_decide (is_Some (s_rows s !! key)) then Err (violates "mm_settings_pkey")
      else Ok ((), put_settings (set_setting_rows (<[key := {| sg_json := json; sg_enc := (split p).2;
             sg_rev := rev; sg_updated_at := now; sg_updated_by := by_ |}]> (s_rows s)) s) t)
  end.

Definition load_all : st Db (result (list SettingRow) db_error) := exec (reading SELECT_ROWS).

Definition max_rev : st Db (result Z db_error) := exec max_rev_in.

Definition meta : st Db (result SettingsMeta db_error) :=
  exec (reading (λ t, {| me_imported_at := s_imported_at (settings_of t);
    me_restart_requested_rev := s_restart_requested_rev (settings_of t) |})).

Definition mark_imported : stmt () := λ now t,
  let s := settings_of t in
  Ok ((), put_settings {| s_rows := s_rows s; s_audit := s_audit s; s_imported_at := Some now;
    s_restart_requested_rev := s_restart_requested_rev s; s_rev_seq := s_rev_seq s;
    s_audit_seq := s_audit_seq s |} t).

Definition import_value (v : NewValue) : st Db (result () db_error) :=
  let? rev := exec_tx next_rev in
  let? _ := exec_tx (insert_row false (nv_key v) (nv_payload v) rev "system") in
  exec_tx (audit_insert (nv_key v) "import" None (split (nv_payload v)).1
    (match (split (nv_payload v)).2 with Some _ => true | None => false end) "system" rev).

(** [filter] chooses the values from the rows as they stand under the lock. *)
Definition import_filtered (filter : list SettingRow → list NewValue) :
    st Db (result ImportOutcome db_error) :=
  in_tx id (
    let? _ := exec_tx lock in
    let? imported_at := exec_tx (reading (λ t, s_imported_at (settings_of t))) in
    let? rows := exec_tx (reading SELECT_ROWS) in
    let values := List.filter (λ v, negb (existsb (λ r, String.eqb (sr_key r) (nv_key v)) rows)) (filter rows) in
    let? _ := st_try_each import_value values in
    let first := match imported_at with None => true | Some _ => false end in
    let? _ := (if first then exec_tx mark_imported else st_ret (Ok ())) in
    st_ret (Ok {| io_first := first; io_inserted := Z.of_nat (length values) |})).

Definition import (values : list NewValue) : st Db (result ImportOutcome db_error) :=
  import_filtered (λ _, values).

Definition sql {A} (s : stmt A) : st Db (result A SettingsDbError) :=
  let! r := exec_tx s in st_ret (map_err SettingsSql r).

Definition write_value (actor : string) (c : NewValue) : st Db (result () SettingsDbError) :=
  let? old := sql (reading (λ t, sg_json <$> s_rows (settings_of t) !! nv_key c)) in
  let? rev := sql next_rev in
  let? _ := sql (insert_row true (nv_key c) (nv_payload c) rev actor) in
  let is_secret := match (split (nv_payload c)).2 with Some _ => true | None => false end in
  sql (audit_insert (nv_key c) "set" (if is_secret then None else mjoin old) (split (nv_payload c)).1
    is_secret actor rev).

(** Fails unless the newest revision is still [expected_rev]; answers the new one. *)
Definition write (changes : list NewValue) (expected_rev : Z) (actor : string) :
    st Db (result Z SettingsDbError) :=
  in_tx SettingsSql (
    let? _ := sql lock in
    let? current := sql max_rev_in in
    if negb (current =? expected_rev) then st_ret (Err (SettingsConflict expected_rev current))
    else
    let? _ := st_try_each (write_value actor) changes in
    sql max_rev_in).

Definition set_restart_requested (rev : Z) : stmt () := λ _ t,
  let s := settings_of t in
  Ok ((), put_settings {| s_rows := s_rows s; s_audit := s_audit s; s_imported_at := s_imported_at s;
    s_restart_requested_rev := rev; s_rev_seq := s_rev_seq s; s_audit_seq := s_audit_seq s |} t).

Definition request_restart (actor : string) : st Db (result Z db_error) :=
  in_tx id (
    let? _ := exec_tx lock in
    let? rev := exec_tx max_rev_in in
    let? _ := exec_tx (set_restart_requested rev) in
    let? _ := exec_tx (audit_insert "*" "restart_requested" None None false actor rev) in
    st_ret (Ok rev)).

(** UPDATE .. WHERE key AND value_enc IS NOT NULL AND rev RETURNING rev. *)
Definition replace_blob (key : string) (expected_rev : Z) (blob : string) : stmt (option Z) := λ _ t,
  let s := settings_of t in
  match s_rows s !! key with
  | Some r =>
      match sg_enc r with
      | Some _ =>
          if sg_rev r =? expected_rev
          then Ok (Some (sg_rev r), put_settings (set_setting_rows (<[key := {| sg_json := sg_json r;
                 sg_enc := Some blob; sg_rev := sg_rev r; sg_updated_at := sg_updated_at r;
                 sg_updated_by := sg_updated_by r |}]> (s_rows s)) s) t)
          else Ok (None, t)
      | None => Ok (None, t)
      end
  | None => Ok (None, t)
  end.

Definition reencrypt_one (skipped : list string) (row : string * Z * string) :
    st Db (result (list string) db_error) :=
  let '(key, expected_rev, blob) := row in
  let? rev := exec_tx (replace_blob key expected_rev blob) in
  match rev with
  | Some rev =>
      let? _ := exec_tx (audit_insert key "reencrypt" None None false "system" rev) in
      st_ret (Ok skipped)
  | None => st_ret (Ok (skipped ++ [key]))
  end.

Fixpoint reencrypt_all (skipped : list string) (rows : list (string * Z * string)) :
    st Db (result (list string) db_error) :=
  match rows with
  | [] => st_ret (Ok skipped)
  | r :: rest => let? skipped := reencrypt_one skipped r in reencrypt_all skipped rest
  end.

Definition reencrypt (rows : list (string * Z * string)) : st Db (result (list string) db_error) :=
  in_tx id (let? _ := exec_tx lock in reencrypt_all [] rows).

(** Newest first. *)
Definition audit (key : option string) (n : Z) : st Db (result (list SettingAuditRec) db_error) :=
  exec (reading (λ t, limit n (order_desc sa_id
    (List.filter (λ a, match key with None => true | Some k => String.eqb (sa_key a) k end)
       (s_audit (settings_of t)))))).
End settings_db.

(** ** What a transaction of this file does to the settings *)
Definition rows_in (t : Tables) : gmap string SettingRec := s_rows (settings_of t).
Definition seq_in (t : Tables) : Z := s_rev_seq (settings_of t).

(** The rows and the sequence after some values were written in order, each under the next
    revision. *)
Inductive puts `{Jsonb} : list NewValue → gmap string SettingRec * Z → gmap string SettingRec * Z → Prop :=
  | puts_nil S : puts [] S S
  | puts_cons v vs rows seq json now by_ S' :
      jsonb_column (split (nv_payload v)).1 = Ok json →
      puts vs (<[nv_key v := {| sg_json := json; sg_enc := (split (nv_payload v)).2; sg_rev := seq;
                 sg_updated_at := now; sg_updated_by := by_ |}]> rows, seq + 1) S' →
      puts (v :: vs) (rows, seq) S'.

Definition stored_in (t : Tables) : gmap string SettingRec * Z := (rows_in t, seq_in t).

Section effects.
Context `{Jsonb}.

Lemma try_ok {S A B E} (m : st S (result A E)) (k : A → st S (result B E)) s b s' :
  st_try m k s = (Ok b, s') → ∃ a s1, m s = (Ok a, s1) ∧ k a s1 = (Ok b, s').
Proof.
  unfold st_try, st_bind. destruct (m s) as [[a|e] s1]; [eauto|]. by intros [= ? ?].
Qed.

Lemma tx_ok {A} (s : stmt A) db a db' :
  exec_tx s db = (Ok a, db') → s (db_now db) (db_tables db) = Ok (a, db_tables db').
Proof. intros E. pose proof (exec_tx_ok s db a) as Ht. rewrite E in Ht. by apply Ht. Qed.

Lemma sql_ok {A} (s : stmt A) db a db' :
  sql s db = (Ok a, db') → s (db_now db) (db_tables db) = Ok (a, db_tables db').
Proof.
  unfold sql, st_bind, st_ret. destruct (exec_tx s db) as [[a'|e] db1] eqn:E; cbn; [|done].
  intros [= <- <-]. by apply tx_ok.
Qed.

Lemma insert_row_ok up key p rev by_ now t t' :
  insert_row up key p rev by_ now t = Ok ((), t') →
  ∃ json, jsonb_column (split p).1 = Ok json ∧ seq_in t' = seq_in t ∧
    rows_in t' = <[key := {| sg_json := json; sg_enc := (split p).2; sg_rev := rev;
      sg_updated_at := now; sg_updated_by := by_ |}]> (rows_in t).
Proof.
  unfold insert_row. destruct (jsonb_column _) as [json|]; [|done].
  destruct (negb up && _); [done|]. intros [= <-]. eauto.
Qed.

Lemma audit_insert_ok key action old new sc actor rev now t t' :
  audit_insert key action old new sc actor rev now t = Ok ((), t') → stored_in t' = stored_in t.
Proof.
  unfold audit_insert. destruct (jsonb_column old); [|by destruct (jsonb_column new)].
  destruct (jsonb_column new); [|done]. by intros [= <-].
Qed.

Lemma next_rev_ok now t rev t' :
  next_rev now t = Ok (rev, t') → rev = seq_in t ∧ rows_in t' = rows_in t ∧ seq_in t' = seq_in t + 1.
Proof. by intros [= <- <-]. Qed.

Lemma reading_ok {A} (f : Tables → A) now t a t' : reading f now t = Ok (a, t') → a = f t ∧ t' = t.
Proof. by intros [= <- <-]. Qed.

Lemma write_value_puts actor v db db' S' vs :
  write_value actor v db = (Ok (), db') → puts vs (stored_in (db_tables db')) S' →
  puts (v :: vs) (stored_in (db_tables db)) S'.
Proof.
  unfold write_value. intros E Hp.
  apply try_ok in E as (old & db1 & E1 & E). apply sql_ok, reading_ok in E1 as [_ E1].
  apply try_ok in E as (rev & db2 & E2 & E). apply sql_ok, next_rev_ok in E2 as (-> & Hr2 & Hs2).
  apply try_ok in E as ([] & db3 & E3 & E). apply sql_ok, insert_row_ok in E3 as (json & Hj & Hs3 & Hr3).
  apply sql_ok, audit_insert_ok in E. rewrite E in Hp. unfold stored_in in *.
  rewrite Hs3, Hr3, Hs2, Hr2, E1 in Hp. econstructor; eauto.
Qed.

Lemma write_all_puts actor vs db db' :
  st_try_each (write_value actor) vs db = (Ok (), db') →
  puts vs (stored_in (db_tables db)) (stored_in (db_tables db')).
Proof.
  revert db. induction vs as [|v vs IH]; intros db; cbn [st_try_each].
  - intros [= <-]. constructor.
  - intros E. apply try_ok in E as ([] & db1 & E1 & E). eapply write_value_puts; eauto.
Qed.

(** A write changes nothing, or the newest revision was the expected one and all its values
    are there. *)
Lemma write_effect vs exp actor db :
  let t := db_tables db in let t' := db_tables (write vs exp actor db).2 in
  t' = t ∨ (max_rev_of (settings_of t) = exp ∧ puts vs (stored_in t) (stored_in t')).
Proof.
  cbn zeta. unfold write.
  match goal with |- context [in_tx ?f ?b ?d] =>
    destruct (in_tx_atomic f b d) as [Hsame|(db1 & db2 & a & Ht & E & ->)] end; [by left|right].
  apply try_ok in E as ([] & d1 & E1 & E). apply sql_ok in E1. injection E1 as E1.
  apply try_ok in E as (cur & d2 & E2 & E). apply sql_ok, reading_ok in E2 as [-> E2].
  assert (Hd1 : db_tables d1 = db_tables db) by congruence.
  assert (Hd2 : db_tables d2 = db_tables db) by congruence. rewrite Hd1 in E.
  destruct (max_rev_of _ =? exp) eqn:Em; cbn [negb] in E; [|discriminate].
  apply Z.eqb_eq in Em. split; [done|].
  apply try_ok in E as ([] & d3 & E3 & E). apply sql_ok, reading_ok in E as [_ E].
  rewrite E. apply write_all_puts in E3. by rewrite Hd2 in E3.
Qed.

Lemma import_value_puts v db db' S' vs :
  import_value v db = (Ok (), db') → puts vs (stored_in (db_tables db')) S' →
  puts (v :: vs) (stored_in (db_tables db)) S'.
Proof.
  unfold import_value. intros E Hp.
  apply try_ok in E as (rev & db2 & E2 & E). apply tx_ok, next_rev_ok in E2 as (-> & Hr2 & Hs2).
  apply try_ok in E as ([] & db3 & E3 & E). apply tx_ok, insert_row_ok in E3 as (json & Hj & Hs3 & Hr3).
  apply tx_ok, audit_insert_ok in E. rewrite E in Hp. unfold stored_in in *.
  rewrite Hs3, Hr3, Hs2, Hr2 in Hp. econstructor; eauto.
Qed.

Lemma import_all_puts vs db db' :
  st_try_each import_value vs db = (Ok (), db') →
  puts vs (stored_in (db_tables db)) (stored_in (db_tables db')).
Proof.
  revert db. induction vs as [|v vs IH]; intros db; cbn [st_try_each].
  - intros [= <-]. constructor.
  - intros E. apply try_ok in E as ([] & db1 & E1 & E). eapply import_value_puts; eauto.
Qed.

(** The values of an import that have no row yet. *)
Definition unstored (rows : list SettingRow) (vs : list NewValue) : list NewValue :=
  List.filter (λ v, negb (existsb (λ r, String.eqb (sr_key r) (nv_key v)) rows)) vs.

Lemma import_effect filter db :
  let t := db_tables db in let t' := db_tables (import_filtered filter db).2 in
  stored_in t' = stored_in t ∨
  puts (unstored (SELECT_ROWS t) (filter (SELECT_ROWS t))) (stored_in t) (stored_in t').
Proof.
  cbn zeta. unfold import_filtered.
  match goal with |- context [in_tx ?f ?b ?d] =>
    destruct (in_tx_atomic f b d) as [Hsame|(db1 & db2 & a & Ht & E & ->)] end;
    [left; by rewrite Hsame|right].
  apply try_ok in E as ([] & d1 & E1 & E). apply tx_ok in E1. injection E1 as E1.
  apply try_ok in E as (imp & d2 & E2 & E). apply tx_ok, reading_ok in E2 as [_ E2].
  apply try_ok in E as (rows & d3 & E3 & E). apply tx_ok, reading_ok in E3 as [-> E3].
  assert (Hd2 : db_tables d2 = db_tables db) by congruence.
  assert (Hd3 : db_tables d3 = db_tables db) by congruence. rewrite Hd2 in E.
  apply try_ok in E as ([] & d4 & E4 & E). apply import_all_puts in E4.
  apply try_ok in E as ([] & d5 & E5 & E). injection E as _ ->.
  assert (Hs : stored_in (db_tables db2) = stored_in (db_tables d4)).
  { destruct imp; [by injection E5 as ->|]. apply tx_ok in E5. injection E5 as E5. by rewrite <- E5. }
  rewrite Hs. by rewrite Hd3 in E4.
Qed.
End effects.

(** ** Reading the rows *)
Lemma elem_of_select t row :
  row ∈ SELECT_ROWS t ↔ ∃ key r, rows_in t !! key = Some r ∧ row = to_row (key, r).
Proof.
  unfold SELECT_ROWS. rewrite list_elem_of_fmap. split.
  - intros ([key r] & -> & Hin). rewrite elem_of_order_by, elem_of_map_to_list in Hin. eauto.
  - intros (key & r & Hr & ->). exists (key, r). split; [done|].
    by rewrite elem_of_order_by, elem_of_map_to_list.
Qed.

Lemma find_selected t key :
  List.find (λ r, String.eqb (sr_key r) key) (SELECT_ROWS t) = (λ r, to_row (key, r)) <$> rows_in t !! key.
Proof.
  destruct (List.find _ _) as [row|] eqn:E.
  - apply List.find_some in E as [Hin Hk]. apply list_elem_of_In, elem_of_select in Hin as (k & r & Hr & ->).
    apply String.eqb_eq in Hk. cbn in Hk. subst k. by rewrite Hr.
  - destruct (rows_in t !! key) as [r|] eqn:Hr; [|done]. exfalso.
    assert (Hin : to_row (key, r) ∈ SELECT_ROWS t) by (apply elem_of_select; eauto).
    apply list_elem_of_In in Hin. eapply List.find_none in E; [|exact Hin]. cbn in E.
    by rewrite String.eqb_refl in E.
Qed.

Lemma max_rev_ge s key r : s_rows s !! key = Some r → sg_rev r ≤ max_rev_of s.
Proof.
  intros Hr. apply elem_of_map_to_list in Hr. unfold max_rev_of.
  induction (map_to_list (s_rows s)) as [|[k r'] l IH]; [by apply not_elem_of_nil in Hr|].
  cbn. apply elem_of_cons in Hr as [[= <- <-]|Hr]; [lia|]. specialize (IH Hr). lia.
Qed.

Lemma max_rev_cases s : max_rev_of s = 0 ∨ ∃ key r, s_rows s !! key = Some r ∧ sg_rev r = max_rev_of s.
Proof.
  unfold max_rev_of.
  assert (Hall : ∀ kr, kr ∈ map_to_list (s_rows s) → s_rows s !! kr.1 = Some kr.2)
    by (intros [k r] Hin; by apply elem_of_map_to_list in Hin).
  induction (map_to_list (s_rows s)) as [|[k r] l IH]; cbn; [by left|].
  destruct IH as [H0|(k' & r' & Hr' & He)]; [intros kr Hin; apply Hall; by right| |].
  - rewrite H0. destruct (decide (0 < sg_rev r)); [right; exists k, r|left; lia].
    split; [apply (Hall (k, r)); left|lia].
  - destruct (decide (sg_rev r ≤ foldr Z.max 0 ((λ kr, sg_rev kr.2) <$> l))) as [Hle|Hgt].
    + right. exists k', r'. split; [done|lia].
    + right. exists k, r. split; [apply (Hall (k, r)); left|lia].
Qed.

(** ** Re-encryption *)
Definition with_blob (r : SettingRec) (blob : string) : SettingRec := {|
  sg_json := sg_json r; sg_enc := Some blob; sg_rev := sg_rev r; sg_updated_at := sg_updated_at r;
  sg_updated_by := sg_updated_by r |}.

(** Only blobs of rows whose revision is the expected one were replaced. *)
Definition reblobbed (upd : list (string * Z * string)) (t t' : Tables) : Prop :=
  seq_in t' = seq_in t ∧ ∀ key, rows_in t' !! key = rows_in t !! key ∨
    ∃ r blob, rows_in t !! key = Some r ∧ is_Some (sg_enc r) ∧ (key, sg_rev r, blob) ∈ upd ∧
      rows_in t' !! key = Some (with_blob r blob).

Section reencryption.
Context `{Jsonb}.

Lemma reblobbed_refl upd t : reblobbed upd t t.
Proof. split; [done|]. by left. Qed.

Lemma reblobbed_trans upd t1 t2 t3 : reblobbed upd t1 t2 → reblobbed upd t2 t3 → reblobbed upd t1 t3.
Proof.
  intros [Hs Hr] [Hs' Hr']. split; [congruence|]. intros key.
  destruct (Hr' key) as [->|(r2 & blob & H2 & He2 & Hin & ->)]; [apply Hr|right].
  destruct (Hr key) as [Heq|(r & blob1 & H1 & He & Hin1 & Heq)].
  - exists r2, blob. split_and!; [congruence|done|done|done].
  - rewrite Heq in H2. injection H2 as <-. exists r, blob. by split_and!.
Qed.

Lemma reblobbed_stored upd t t' t'' :
  stored_in t'' = stored_in t' → reblobbed upd t t' → reblobbed upd t t''.
Proof.
  intros [= Hr Hs] [Hs' Hr']. split; [congruence|]. intros key. rewrite Hr. apply Hr'.
Qed.

Lemma replace_blob_ok upd key rev blob now t o t' :
  (key, rev, blob) ∈ upd → replace_blob key rev blob now t = Ok (o, t') → reblobbed upd t t'.
Proof.
  intros Hin. unfold replace_blob. fold (rows_in t).
  destruct (rows_in t !! key) as [r|] eqn:Hr; [|intros [= <- <-]; apply reblobbed_refl].
  destruct (sg_enc r) as [b|] eqn:He; [|intros [= <- <-]; apply reblobbed_refl].
  destruct (sg_rev r =? rev) eqn:Erev; [|intros [= <- <-]; apply reblobbed_refl].
  apply Z.eqb_eq in Erev as <-. intros [= <- <-]. split; [done|]. intros k.
  change (rows_in (put_settings _ _)) with (<[key := with_blob r blob]> (rows_in t)).
  destruct (decide (k = key)) as [->|Hne]; [|left; by rewrite lookup_insert_ne].
  right. exists r, blob. rewrite lookup_insert_eq, He. by split_and!.
Qed.

Lemma reencrypt_all_ok upd rows db skipped l db' :
  (∀ x, x ∈ rows → x ∈ upd) → reencrypt_all skipped rows db = (Ok l, db') →
  reblobbed upd (db_tables db) (db_tables db').
Proof.
  revert db skipped. induction rows as [|[[key rev] blob] rows IH]; intros db skipped Hin; cbn [reencrypt_all].
  - intros [= _ <-]. apply reblobbed_refl.
  - intros E. apply try_ok in E as (sk & db1 & E1 & E).
    eapply reblobbed_trans; [|eapply IH; [|exact E]; intros x Hx; apply Hin; by right].
    unfold reencrypt_one in E1. apply try_ok in E1 as (o & db2 & E2 & E1).
    apply tx_ok, (replace_blob_ok upd) in E2; [|apply Hin; left].
    destruct o as [rev'|]; [|by injection E1 as _ <-].
    apply try_ok in E1 as ([] & db3 & E3 & E1). apply tx_ok, audit_insert_ok in E3.
    injection E1 as _ <-. by eapply reblobbed_stored.
Qed.

Lemma reencrypt_effect upd db :
  reblobbed upd (db_tables db) (db_tables (reencrypt upd db).2).
Proof.
  unfold reencrypt. match goal with |- context [in_tx ?f ?b ?d] =>
    destruct (in_tx_atomic f b d) as [->|(db1 & db2 & a & Ht & E & ->)] end; [apply reblobbed_refl|].
  apply try_ok in E as ([] & d1 & E1 & E). apply tx_ok in E1. injection E1 as E1.
  rewrite <- Ht, E1. by eapply reencrypt_all_ok.
Qed.

(** Requesting a restart leaves the rows alone. *)
Lemma request_restart_effect actor db :
  stored_in (db_tables (request_restart actor db).2) = stored_in (db_tables db).
Proof.
  unfold request_restart. match goal with |- context [in_tx ?f ?b ?d] =>
    destruct (in_tx_atomic f b d) as [->|(db1 & db2 & a & Ht & E & ->)] end; [done|].
  apply try_ok in E as ([] & d1 & E1 & E). apply tx_ok in E1. injection E1 as E1.
  apply try_ok in E as (rev & d2 & E2 & E). apply tx_ok, reading_ok in E2 as [-> E2].
  apply try_ok in E as ([] & d3 & E3 & E). apply tx_ok in E3. injection E3 as E3.
  apply try_ok in E as ([] & d4 & E4 & E). apply tx_ok, audit_insert_ok in E4. injection E as _ <-.
  rewrite E4, <- E3. unfold stored_in. cbn. by rewrite <- Ht, E1, <- E2.
Qed.
End reencryption.

(** Where the values of a write end up. *)
Lemma puts_lookup `{Jsonb} vs S S' :
  puts vs S S' → NoDup (nv_key <$> vs) →
  S.2 ≤ S'.2 ∧ (∀ key, key ∉ nv_key <$> vs → S'.1 !! key = S.1 !! key) ∧
  ∀ v, v ∈ vs → ∃ r, S'.1 !! nv_key v = Some r ∧ jsonb_column (split (nv_payload v)).1 = Ok (sg_json r) ∧
    sg_enc r = (split (nv_payload v)).2 ∧ S.2 ≤ sg_rev r < S'.2.
Proof.
  induction 1 as [S|v vs rows seq json now by_ S' Hj Hp IH]; intros Hnd.
  { split_and!; [lia|done|]. intros v Hv. by apply not_elem_of_nil in Hv. }
  cbn [fmap list_fmap] in Hnd. apply NoDup_cons in Hnd as [Hv Hnd].
  destruct (IH Hnd) as (Hle & Hold & Hnew). cbn [fst snd] in *. split_and!; [lia|..].
  - intros key Hk. cbn [fmap list_fmap] in Hk. apply not_elem_of_cons in Hk as [Hne Hk].
    rewrite Hold by done. by rewrite lookup_insert_ne.
  - intros v' Hv'. apply elem_of_cons in Hv' as [->|Hv'].
    + eexists. split; [rewrite Hold by done; apply lookup_insert_eq|]. cbn. split_and!; [done|done|lia|].
      destruct Hp as [S|]; cbn in *; lia.
    + destruct (Hnew v' Hv') as (r & Hr & Hj' & He & Hrev). exists r. split_and!; [done..|lia|lia].
Qed.
