(* ===== verification/SettingsService.v ===== *)
(** * SettingsService: settings while the server runs

    [mm-api/src/settings_service.rs]: boot, saves, live reloads, the revision poll, Apply and
    restart, and the view of the dashboard; with the handlers of
    [mm-api/src/admin_settings.rs] and the rules of a connection test in
    [mm-api/src/settings_checks.rs]. Several instances share the database. Each operation is
    cut at its database calls and at its reads and writes of the instance's state, because
    anything else may run in between. Log lines are left out. *)
From Stdlib Require Import Ascii.
From S2P Require Import Prelude F64 FleetTypes Ladder ApiSchema Schema Errors Json Text Guards.
From S2P Require Import Config Settings SettingsOverlay SettingsDb Interleave.
Local Open Scope Z_scope.
Local Open Scope mm_scope.

Record BootOptions : Type := {
  bo_break_glass : bool;
  bo_env_probe : string → bool;
  bo_restart_delay : Z;
  bo_restart_jitter_max : Z;
  bo_policy : BuildPolicy;
  bo_key_error : option CryptoError.t
}.

Definition quoted (s : string) : string := String "034"%char s +:+ String "034"%char "".

(** [MM_SETTINGS_SAFE_MODE]: only an unset, blank or recognised off value is off. *)
Definition safe_mode_flag (v : option env_value) : bool :=
  match v with
  | None => false
  | Some NotUnicode => true
  | Some (Unicode s) =>
      match trim s with
      | EmptyString => false
      | s => negb (existsb (String.eqb (to_ascii_lowercase s)) ["0"; "false"; "no"; "off"])
      end
  end.

Definition production (p : Process) (release_build : bool) : BootOptions := {|
  bo_break_glass := safe_mode_flag (pr_env p "MM_SETTINGS_SAFE_MODE");
  bo_env_probe := λ v, match pr_env p v with Some _ => true | None => false end;
  bo_restart_delay := seconds 2; bo_restart_jitter_max := seconds 10;
  bo_policy := {| bp_release_build := release_build;
                  bp_allow_mock := bool_decide (env_var p "MM_ALLOW_MOCK" = Some "true") |};
  bo_key_error := None |}.

Record SettingsStatus : Type := {
  st_safe_mode : bool;
  st_break_glass : bool;
  st_safe_mode_reason : option string;
  st_loaded_rev : Z;
  st_from_db : gset string;
  st_secret_problems : list Problem;
  st_shadowed_env : list string;
  st_live_reload_error : option string
}.

(** A running process; [in_running] is what the config handle holds. *)
Record Instance : Type := {
  in_base : Config;
  in_keys : option KeyRing;
  in_opts : BootOptions;
  in_running : Config;
  in_status : SettingsStatus;
  in_last_seen_rev : Z;
  in_restart_at : option Z
}.

(** The database, the running instances, and for the theorems what was started and what
    operators sent: the instance, the values, and what that instance ran. *)
Record World : Type := {
  w_db : Db;
  w_instances : gmap positive Instance;
  w_boots : list (Config * option KeyRing);
  w_asked : list (gmap string json_value * Config)
}.

Definition set_db (db : Db) (w : World) : World :=
  {| w_db := db; w_instances := w_instances w; w_boots := w_boots w; w_asked := w_asked w |}.
Definition set_instances (m : gmap positive Instance) (w : World) : World :=
  {| w_db := w_db w; w_instances := m; w_boots := w_boots w; w_asked := w_asked w |}.

Definition on_db {A} (m : st Db A) : st World A := λ w,
  let '(a, db) := m (w_db w) in (a, set_db db w).
Definition db_call {A} (m : st Db A) : prog World A := atom (on_db m).

Definition note_boot (base : Config) (keys : option KeyRing) : prog World () := atom (λ w, ((),
  {| w_db := w_db w; w_instances := w_instances w; w_boots := w_boots w ++ [(base, keys)];
     w_asked := w_asked w |})).
Definition note_asked (values : gmap string json_value) (running : Config) : prog World () := atom (λ w, ((),
  {| w_db := w_db w; w_instances := w_instances w; w_boots := w_boots w;
     w_asked := w_asked w ++ [(values, running)] |})).

(** A process gets a name no other has. *)
Definition start_instance (i : Instance) : prog World positive := atom (λ w,
  let id := fresh (dom (w_instances w)) in (id, set_instances (<[id := i]> (w_instances w)) w)).
Definition read_instance (id : positive) : prog World (option Instance) :=
  atom (λ w, (w_instances w !! id, w)).
Definition update_instance (id : positive) (f : Instance → Instance) : prog World () :=
  atom (λ w, ((), set_instances (alter f id (w_instances w)) w)).

Definition to_payload (v : Stored) : StoredPayload :=
  match v with SJson j => PJson j | SEncrypted b => PEncrypted b end.

Definition to_stored (r : SettingRow) : StoredSetting := {|
  ss_key := sr_key r;
  ss_value := match sr_payload r with PJson v => SJson v | PEncrypted b => SEncrypted b end;
  ss_rev := sr_rev r |}.

Inductive PatchError : Type :=
  | Unknown (key : string)
  | ReadOnly (m : string)
  | NoKey (m : string)
  | NeedsCredentials (m : string)
  | InvalidValues (ps : list Problem)
  | RevConflict (current_rev : Z)
  | BreakGlass
  | PatchDb (e : db_error).

Record Saved : Type := { sav_rev : Z; sav_rows : list SettingRow }.

Inductive ApplyOutcome : Type :=
  | Restarting (in_secs : Z)
  | NothingToRestart.

Definition RESET_ATTEMPTS : nat := 3.

Definition key_var (e : CryptoError.t) : string :=
  match e with CryptoError.BadKey var => var | _ => KEY_ENV end.

Definition report_key_error (e : option CryptoError.t) (problems : list Problem) : list Problem :=
  match e with
  | None => problems
  | Some e =>
      let var := key_var e in
      {| pb_key := var; pb_reason := "could not be loaded (" +:+ CryptoError.to_string e +:+
           "); secrets keep their file/env values and cannot be saved in the dashboard until it is fixed" |} ::
      ((λ p, if String.eqb (pb_reason p) no_key_reason
             then {| pb_key := pb_key p; pb_reason :=
                    var +:+ " is set but could not be loaded, so this secret cannot be decrypted" |}
             else p) <$> problems)
  end.

Definition read_only_message (d : SettingDef) : string :=
  match sd_class d with
  | Bootstrap reason => sd_key d +:+ " is read-only here: " +:+ reason +:+
      ". Change it in the server's environment and restart."
  | HostCoupled service => sd_key d +:+ " must match " +:+ service +:+
      "'s own configuration; change both together outside the dashboard."
  | Live | Restart => sd_key d +:+ " is read-only"
  end.

Section service.
Context `{Lib, Cipher, Jsonb}.

Definition load_stored : prog World (result (list StoredSetting) db_error) :=
  do? rows := db_call load_all in Done (Ok (to_stored <$> rows)).

(** ** Boot *)
Definition reencrypted (nonce : string → string) (k : KeyRing) (row : SettingRow) : option (string * Z * string) :=
  match sr_payload row with
  | PEncrypted blob =>
      if is_on_previous k blob then
        match decrypt k (sr_key row) blob with
        | Ok plain => Some (sr_key row, sr_rev row, encrypt k (nonce (sr_key row)) (sr_key row) plain)
        | Err _ => None
        end
      else None
  | PJson _ => None
  end.

Definition reencrypt_previous (nonce : string → string) (k : KeyRing) : prog World (result () db_error) :=
  do? rows := db_call load_all in
  let updates := omap (reencrypted nonce k) rows in
  if bool_decide (updates = []) then Done (Ok ())
  else do? _ := db_call (reencrypt updates) in Done (Ok ()).

Definition resets_of (base : Config) (o : Overlay) : list NewValue :=
  omap (λ key, match find key with
    | Some d => if is_ok (validate_setting d (get d base))
                then Some {| nv_key := sd_key d; nv_payload := PJson (get d base) |} else None
    | None => None
    end) (ol_unpaired_destinations o).

Fixpoint overlay_attempts (n : nat) (base : Config) (keys : option KeyRing) (policy : BuildPolicy)
    (stored : list StoredSetting) : prog World (result Overlay db_error) :=
  let o := apply_overlay base stored keys policy in
  match n with
  | O => Done (Ok o)
  | S n' =>
      match resets_of base o with
      | [] => Done (Ok o)
      | resets =>
          do! r := db_call (write resets (newest (ss_rev <$> stored)) "system") in
          match r with
          | Err (SettingsSql e) => Done (Err e)
          | Ok _ | Err (SettingsConflict _ _) =>
              do? stored := load_stored in overlay_attempts n' base keys policy stored
          end
      end
  end.

Definition overlay_resetting_unpaired (base : Config) (keys : option KeyRing) (policy : BuildPolicy) :
    prog World (result Overlay db_error) :=
  do? stored := load_stored in overlay_attempts RESET_ATTEMPTS base keys policy stored.

Definition break_glass_status (opts : BootOptions) (stored : list StoredSetting) : SettingsStatus := {|
  st_safe_mode := true; st_break_glass := true;
  st_safe_mode_reason := Some "MM_SETTINGS_SAFE_MODE is set";
  st_loaded_rev := newest (ss_rev <$> stored); st_from_db := ∅;
  st_secret_problems := report_key_error (bo_key_error opts) [];
  st_shadowed_env := []; st_live_reload_error := None |}.

Definition overlay_status (opts : BootOptions) (o : Overlay) : SettingsStatus := {|
  st_safe_mode := match safe_mode_reason o with Some _ => true | None => false end;
  st_break_glass := false; st_safe_mode_reason := safe_mode_reason o;
  st_loaded_rev := ol_loaded_rev o; st_from_db := ol_from_db o;
  st_secret_problems := report_key_error (bo_key_error opts) (ol_secret_problems o);
  st_shadowed_env := shadowed_env (ol_from_db o) (bo_env_probe opts);
  st_live_reload_error := None |}.

(** The values an import may write, from the rows under its lock. *)
Definition import_values (nonce : string → string) (base : Config) (keys : option KeyRing)
    (rows : list SettingRow) : list NewValue :=
  let kept := (guard_import (ip_values (import_plan nonce base keys)) (to_stored <$> rows) base).1 in
  (λ kv, {| nv_key := kv.1; nv_payload := to_payload kv.2 |}) <$> kept.

(** [import] and [again] give the nonces of the import and of a re-encryption. *)
Definition boot (import again : string → string) (base : Config) (keys : option KeyRing)
    (opts : BootOptions) : prog World (result positive db_error) :=
  do! _ := note_boot base keys in
  do? _ := db_call (import_filtered (import_values import base keys)) in
  do? _ := (match keys with Some k => reencrypt_previous again k | None => Done (Ok ()) end) in
  do? cs := (if bo_break_glass opts then
      do? stored := load_stored in Done (Ok (base, break_glass_status opts stored))
    else
      do? o := overlay_resetting_unpaired base keys (bo_policy opts) in
      Done (Ok (ol_config o, overlay_status opts o))) in
  do! id := start_instance {| in_base := base; in_keys := keys; in_opts := opts; in_running := cs.1;
    in_status := cs.2; in_last_seen_rev := st_loaded_rev cs.2; in_restart_at := None |} in
  Done (Ok id).

(** ** Saving *)
Definition no_key (i : Instance) (key : string) : PatchError :=
  NoKey (match bo_key_error (in_opts i) with
    | None => key +:+ " is a secret, and " +:+ KEY_ENV +:+
        " is not configured on this server, so it cannot be saved here"
    | Some e => key +:+ " is a secret, and " +:+ key_var e +:+
        " is set but could not be loaded on this server (see the settings status), so it cannot be saved here"
    end).

Definition encode (nonce : string → string) (i : Instance) (d : SettingDef) (v : json_value) :
    result StoredPayload PatchError :=
  if negb (sd_secret d) then Ok (PJson v)
  else match in_keys i with
       | None => Err (no_key i (sd_key d))
       | Some k => Ok (PEncrypted (encrypt k (nonce (sd_key d)) (sd_key d) (print_json v)))
       end.

(** A stored secret this instance cannot read counts as set. *)
Definition stored_secret_is_set (i : Instance) (d : SettingDef) (row : SettingRow) : bool :=
  match sr_payload row, in_keys i with
  | PEncrypted blob, Some k =>
      match decrypt k (sd_key d) blob with
      | Ok plain => match parse_json plain with Some v => negb (is_empty v) | None => true end
      | Err _ => true
      end
  | PEncrypted _, None => true
  | PJson v, _ => negb (is_empty v)
  end.

Fixpoint accept (changes : list (string * json_value)) (accepted : list (SettingDef * json_value))
    (problems : list Problem) : result (list (SettingDef * json_value)) PatchError :=
  match changes with
  | [] => match problems with [] => Ok accepted | _ => Err (InvalidValues problems) end
  | (key, v) :: rest =>
      match find key with
      | None => Err (Unknown key)
      | Some d =>
          if negb (editable d) then Err (ReadOnly (read_only_message d))
          else match validate_setting d v with
               | Ok _ => accept rest (accepted ++ [(d, v)]) problems
               | Err reason => accept rest accepted (problems ++ [{| pb_key := key; pb_reason := reason |}])
               end
      end
  end.

Fixpoint encode_all (nonce : string → string) (i : Instance) (l : list (SettingDef * json_value)) :
    result (list NewValue) PatchError :=
  match l with
  | [] => Ok []
  | (d, v) :: rest =>
      match encode nonce i d v with
      | Err e => Err e
      | Ok p => match encode_all nonce i rest with
                | Err e => Err e
                | Ok vs => Ok ({| nv_key := sd_key d; nv_payload := p |} :: vs)
                end
      end
  end.

(** Set secrets of a pair that a save moving its destination does not carry. *)
Definition missing_secrets (i : Instance) (rows : list SettingRow) (next : Config)
    (changes : gmap string json_value) (uc : UrlCredentials) : list string :=
  List.filter (λ s, negb (is_some (changes !! s)) &&
    match find s with
    | Some d => negb (is_empty (get d next)) ||
        match List.find (λ r, String.eqb (sr_key r) s) rows with
        | Some r => stored_secret_is_set i d r
        | None => false
        end
    | None => false
    end) (uc_secrets uc).

Definition and_join (l : list string) : string := String.concat " and " l.
Definition them (l : list string) : string := if (length l =? 1)%nat then "it" else "them".

Fixpoint moves_without_secrets (i : Instance) (rows : list SettingRow) (next : Config)
    (changes : gmap string json_value) (pairs : list UrlCredentials) : result () PatchError :=
  match pairs with
  | [] => Ok ()
  | uc :: rest =>
      match changes !! uc_url uc with
      | None => moves_without_secrets i rows next changes rest
      | Some dest =>
          if match find (uc_url uc) with Some d => bool_decide (get d next = dest) | None => false end
          then moves_without_secrets i rows next changes rest
          else match missing_secrets i rows next changes uc with
               | [] => moves_without_secrets i rows next changes rest
               | missing => Err (NeedsCredentials ("changing " +:+ uc_url uc +:+ " sends " +:+
                   and_join missing +:+ " to the new host; re-enter " +:+ them missing +:+ " in the same save"))
               end
      end
  end.

Fixpoint set_all (l : list (SettingDef * json_value)) (c : Config) : result Config PatchError :=
  match l with
  | [] => Ok c
  | (d, v) :: rest =>
      match set d c v with
      | Err reason => Err (InvalidValues [{| pb_key := sd_key d; pb_reason := reason |}])
      | Ok c' => set_all rest c'
      end
  end.

(** The rows a save would leave, for the dry run of the reload. *)
Definition rows_after (stored : list StoredSetting) (changes : gmap string json_value)
    (values : list NewValue) (rev : Z) : list StoredSetting :=
  List.filter (λ r, negb (is_some (changes !! ss_key r))) stored ++
  ((λ v, {| ss_key := nv_key v;
            ss_value := match nv_payload v with PJson j => SJson j | PEncrypted b => SEncrypted b end;
            ss_rev := rev |}) <$> values).

(** Everything a save checks against the rows it read and the running configuration. *)
Definition save_checks (i : Instance) (rows : list SettingRow) (running : Config) (expected_rev : Z)
    (changes : gmap string json_value) (accepted : list (SettingDef * json_value)) (values : list NewValue) :
    result () PatchError :=
  let snapshot_rev := newest (sr_rev <$> rows) in
  if negb (snapshot_rev =? expected_rev) then Err (RevConflict snapshot_rev)
  else
  let stored := to_stored <$> rows in
  let next := ol_config (apply_overlay (in_base i) stored (in_keys i) (bo_policy (in_opts i))) in
  match moves_without_secrets i rows next changes URL_CREDENTIALS with
  | Err e => Err e
  | Ok _ =>
  match unconfirmed_destination (λ k, is_some (changes !! k)) (unsettled_destinations stored next running) with
  | Some (url, sent) => Err (NeedsCredentials (url +:+
      " is not settled: its saved value, or the one a restart would run, differs from the running one, so saving " +:+
      and_join sent +:+ " alone could send " +:+ them sent +:+ " to a host nobody confirmed; include " +:+
      url +:+ " in the same save"))
  | None =>
  match set_all accepted next with
  | Err e => Err e
  | Ok next =>
  match validate_config next (bo_policy (in_opts i)) with
  | Err errors => Err (InvalidValues ((λ reason, {| pb_key := "*"; pb_reason := reason |}) <$> errors))
  | Ok _ =>
      if negb (st_safe_mode (in_status i)) && existsb (λ dv, is_live (sd_class dv.1)) accepted then
        match reload_live running (rows_after stored changes values (snapshot_rev + 1)) (in_keys i)
                (bo_policy (in_opts i)) with
        | Ok _ => Ok ()
        | Err problems => Err (InvalidValues ((λ p, {| pb_key := pb_key p; pb_reason := pb_reason p +:+
            " — conflicts with the running configuration until " +:+ quoted "Apply & restart" +:+
            " applies the pending changes" |})
            <$> problems))
        end
      else Ok ()
  end end end end.

(** ** Live values *)
Definition set_reloaded (rev : Z) (i : Instance) : Instance := {|
  in_base := in_base i; in_keys := in_keys i; in_opts := in_opts i; in_running := in_running i;
  in_status := in_status i; in_last_seen_rev := rev; in_restart_at := in_restart_at i |}.

Definition reloaded (stored : list StoredSetting) (i : Instance) : Instance :=
  if st_safe_mode (in_status i) then i
  else
  let outcome := reload_live (in_running i) stored (in_keys i) (bo_policy (in_opts i)) in
  let s := in_status i in
  {| in_base := in_base i; in_keys := in_keys i; in_opts := in_opts i;
     in_running := match outcome with Ok c => c | Err _ => in_running i end;
     in_status := {| st_safe_mode := st_safe_mode s; st_break_glass := st_break_glass s;
       st_safe_mode_reason := st_safe_mode_reason s; st_loaded_rev := st_loaded_rev s;
       st_from_db := st_from_db s; st_secret_problems := st_secret_problems s;
       st_shadowed_env := st_shadowed_env s;
       st_live_reload_error := match outcome with Ok _ => None | Err ps => Some (joined ps) end |};
     in_last_seen_rev := in_last_seen_rev i; in_restart_at := in_restart_at i |}.

(** The reload lock keeps two reloads of an instance apart; the schedules may also interleave
    them, so what is proved of all schedules holds with the lock. *)
Definition reload_live_now (id : positive) : prog World (result () db_error) :=
  do? stored := load_stored in
  do! _ := update_instance id (λ i, reloaded stored (set_reloaded (newest (ss_rev <$> stored)) i)) in
  Done (Ok ()).

Definition replace_row (rows : list SettingRow) (row : SettingRow) : list SettingRow :=
  if existsb (λ r, String.eqb (sr_key r) (sr_key row)) rows
  then (λ r, if String.eqb (sr_key r) (sr_key row) then row else r) <$> rows
  else rows ++ [row].

Definition of_settings_db (e : SettingsDbError) : PatchError :=
  match e with SettingsConflict _ current => RevConflict current | SettingsSql e => PatchDb e end.

Definition prog_err {S A E F} (f : E → F) (p : prog S (result A E)) : prog S (result A F) :=
  do! r := p in Done (map_err f r).

(** [i] is the instance as it was when the request came in; the running configuration is read
    again where the code reads it. *)
Definition save (id : positive) (i : Instance) (nonce : string → string) (now : DateTime)
    (changes : gmap string json_value) (expected_rev : Z) (actor : string) :
    prog World (result Saved PatchError) :=
  do! _ := note_asked changes (in_running i) in
  match accept (order_by fst (map_to_list changes)) [] [] with
  | Err e => Done (Err e)
  | Ok accepted =>
  match encode_all nonce i accepted with
  | Err e => Done (Err e)
  | Ok values =>
      do? rows := prog_err PatchDb (db_call load_all) in
      do! current := read_instance id in
      let running := match current with Some c => in_running c | None => in_running i end in
      match save_checks i rows running expected_rev changes accepted values with
      | Err e => Done (Err e)
      | Ok _ =>
          do? rev := prog_err of_settings_db (db_call (write values expected_rev actor)) in
          do! _ := reload_live_now id in
          Done (Ok {| sav_rev := rev; sav_rows := foldl replace_row rows ((λ v, {| sr_key := nv_key v;
            sr_payload := nv_payload v; sr_rev := rev; sr_updated_at := now; sr_updated_by := actor |})
            <$> values) |})
      end
  end end.

(** [save], answering the new revision only. *)
Definition patch (id : positive) (i : Instance) (nonce : string → string) (now : DateTime)
    (changes : gmap string json_value) (expected_rev : Z) (actor : string) :
    prog World (result Z PatchError) :=
  do? saved := save id i nonce now changes expected_rev actor in Done (Ok (sav_rev saved)).

(** ** What waits for a restart *)
Definition pending_in (i : Instance) (stored : list StoredSetting) : list string :=
  let s := in_status i in
  let every_class := st_safe_mode s && negb (st_break_glass s) in
  let pending := pending_restart stored (st_loaded_rev s) every_class in
  let next := ol_config (apply_overlay (in_base i) stored (in_keys i) (bo_policy (in_opts i))) in
  foldl (λ ps key, if has_key ps key then ps else ps ++ [key]) pending
    (moved_destinations next (in_running i)).

Definition pending (id : positive) (i : Instance) : prog World (result (list string) db_error) :=
  do? stored := load_stored in
  do! current := read_instance id in
  Done (Ok (pending_in (default i current) stored)).

(** Sets the restart at most once; the instant it fires. *)
Definition schedule_restart (id : positive) (now after : Z) : prog World Z :=
  atom (λ w, match w_instances w !! id with
    | Some i =>
        match in_restart_at i with
        | Some deadline => (deadline, w)
        | None => (now + after, set_instances (<[id := {| in_base := in_base i; in_keys := in_keys i;
            in_opts := in_opts i; in_running := in_running i; in_status := in_status i;
            in_last_seen_rev := in_last_seen_rev i; in_restart_at := Some (now + after) |}]> (w_instances w)) w)
        end
    | None => (now + after, w)
    end).

(** [as_secs_f64().ceil()] of a duration, in whole seconds. *)
Definition ceil_secs (d : Z) : Z := div_ceil d NANOS.

(** Apply and restart; [now] and [later] are the two readings of the clock. *)
Definition apply_restart (id : positive) (i : Instance) (now later : Z) (actor : string) :
    prog World (result ApplyOutcome PatchError) :=
  if bo_break_glass (in_opts i) then Done (Err BreakGlass)
  else
  do? stored := prog_err PatchDb load_stored in
  match ol_problems (apply_overlay (in_base i) stored (in_keys i) (bo_policy (in_opts i))) with
  | [] =>
      do? requested := prog_err PatchDb (db_call (request_restart actor)) in
      if st_loaded_rev (in_status i) <? requested then
        do! deadline := schedule_restart id now (bo_restart_delay (in_opts i)) in
        Done (Ok (Restarting (ceil_secs (Z.max 0 (deadline - later)))))
      else Done (Ok NothingToRestart)
  | problems => Done (Err (InvalidValues problems))
  end.

(** One poll; [jitter] is the random delay, at most the configured one. *)
Definition poll_once (id : positive) (i : Instance) (now jitter : Z) : prog World (result () db_error) :=
  do? newest_rev := db_call max_rev in
  do! current := read_instance id in
  do? _ := (if in_last_seen_rev (default i current) <? newest_rev then reload_live_now id else Done (Ok ())) in
  if bo_break_glass (in_opts i) then Done (Ok ())
  else
  do? m := db_call meta in
  do! current := read_instance id in
  match in_restart_at (default i current) with
  | None =>
      if st_loaded_rev (in_status i) <? me_restart_requested_rev m
      then do! _ := schedule_restart id now (Z.min jitter (bo_restart_jitter_max (in_opts i))) in Done (Ok ())
      else Done (Ok ())
  | Some _ => Done (Ok ())
  end.

(** What a connection test runs against: the configuration of the next restart, and the
    destinations that are not settled. *)
Definition next_run (id : positive) (i : Instance) : prog World (result (Config * list string) db_error) :=
  do? stored := load_stored in
  let next := ol_config (apply_overlay (in_base i) stored (in_keys i) (bo_policy (in_opts i))) in
  do! current := read_instance id in
  Done (Ok (next, unsettled_destinations stored next (in_running (default i current)))).

(** ** The view *)
Record ValueView : Type := {
  vv_value : option json_value;
  vv_is_set : option bool;
  vv_source : Source;
  vv_env_shadowed : bool;
  vv_pending : bool;
  vv_updated_at : option DateTime;
  vv_updated_by : option string;
  vv_problem : option string
}.

Record SettingsView : Type := {
  sw_values : list (string * ValueView);
  sw_safe_mode : bool;
  sw_break_glass : bool;
  sw_safe_mode_reason : option string;
  sw_loaded_rev : Z;
  sw_current_rev : Z;
  sw_pending_restart : list string;
  sw_encryption_key_configured : bool;
  sw_rows_on_previous_key : Z;
  sw_secret_problems : list Problem;
  sw_live_reload_error : option string;
  sw_demo : bool
}.

Definition INVALID_OUTSIDE_VALUE : string :=
  "the value from the server's file/env configuration is not valid for this setting, so it is not shown; correct it there".

Definition secret_is_set (i : Instance) (d : SettingDef) (row : option SettingRow) : bool :=
  let running_says := negb (is_empty (get d (in_running i))) in
  match row, in_keys i with
  | Some r, Some k =>
      match sr_payload r with
      | PEncrypted blob =>
          match decrypt k (sd_key d) blob with
          | Ok plain => negb (is_empty (default JNull (parse_json plain)))
          | Err _ => running_says
          end
      | PJson _ => running_says
      end
  | _, _ => running_says
  end.

Definition source_of (i : Instance) (d : SettingDef) : Source :=
  let probe := bo_env_probe (in_opts i) in
  if bool_decide (sd_key d ∈ st_from_db (in_status i)) then FromDatabase
  else if match sd_env d with Some v => probe v || probe (v +:+ "_FROM_FILE") | None => false end then FromEnv
  else if negb (bool_decide (get d (in_base i) = get d default_of_config)) then FromFile
  else FromDefault.

Definition shown_value (i : Instance) (demo : bool) (d : SettingDef) (row : option SettingRow) :
    option json_value * option bool * option string :=
  if demo then (Some (JStr "hidden"), None, None)
  else if sd_secret d then (None, Some (secret_is_set i d row), None)
  else
  match sr_payload <$> row with
  | Some (PJson v) => (Some v, None, None)
  | _ =>
      let v := get d (in_running i) in
      if is_ok (validate_setting d v) then (Some v, None, None)
      else (None, None, Some INVALID_OUTSIDE_VALUE)
  end.

Definition value_view (i : Instance) (demo : bool) (pending : list string) (rows : list SettingRow)
    (d : SettingDef) : string * ValueView :=
  let row := List.find (λ r, String.eqb (sr_key r) (sd_key d)) rows in
  let '(value, is_set, problem) := shown_value i demo d row in
  (sd_key d, {| vv_value := value; vv_is_set := is_set; vv_source := source_of i d;
    vv_env_shadowed := match sd_env d with Some v => has_key (st_shadowed_env (in_status i)) v | None => false end;
    vv_pending := has_key pending (sd_key d);
    vv_updated_at := if demo then None else sr_updated_at <$> row;
    vv_updated_by := if demo then None else sr_updated_by <$> row;
    vv_problem := problem |}).

Definition hide {A} (demo : bool) (hidden : A) (o : option A) : option A :=
  if demo then (λ _, hidden) <$> o else o.

Definition view_of (i : Instance) (rows : list SettingRow) (demo : bool) : SettingsView :=
  let stored := to_stored <$> rows in
  let pending := pending_in i stored in
  let s := in_status i in
  {| sw_values := order_by fst (value_view i demo pending rows <$> registry);
     sw_safe_mode := st_safe_mode s; sw_break_glass := st_break_glass s;
     sw_safe_mode_reason := hide demo "hidden" (st_safe_mode_reason s);
     sw_loaded_rev := st_loaded_rev s; sw_current_rev := newest (sr_rev <$> rows);
     sw_pending_restart := pending;
     sw_encryption_key_configured := is_some (in_keys i);
     sw_rows_on_previous_key := match in_keys i with
       | None => 0
       | Some k => Z.of_nat (length (List.filter (λ r,
           match sr_payload r with PEncrypted b => is_on_previous k b | PJson _ => false end) rows))
       end;
     sw_secret_problems := if demo then [] else st_secret_problems s;
     sw_live_reload_error := hide demo "hidden" (st_live_reload_error s);
     sw_demo := demo |}.

Definition view (id : positive) (i : Instance) (demo : bool) : prog World (result SettingsView db_error) :=
  do? rows := db_call load_all in
  do! current := read_instance id in
  Done (Ok (view_of (default i current) rows demo)).

(** Never fails: two tries, then the rows the save left. *)
Definition view_after_save (id : positive) (i : Instance) (saved : Saved) : prog World SettingsView :=
  do! first := view id i false in
  match first with
  | Ok v => Done v
  | Err _ =>
      do! second := view id i false in
      match second with
      | Ok v => Done v
      | Err _ => do! current := read_instance id in Done (view_of (default i current) (sav_rows saved) false)
      end
  end.

(** ** Connection tests *)

(** The form applied onto [base], with the rules of a save on where secrets go. *)
Fixpoint form_values (form : list (string * json_value)) (c : Config) : result Config string :=
  match form with
  | [] => Ok c
  | (key, v) :: rest =>
      match find key with
      | None => Err ("unknown setting " +:+ key)
      | Some d =>
          if negb (editable d) then Err (key +:+ " is read-only here; the test uses its saved value")
          else match validate_setting d v with
          | Err r => Err (key +:+ ": " +:+ r)
          | Ok _ => match set d c v with
                    | Err r => Err (key +:+ ": " +:+ r)
                    | Ok c' => form_values rest c'
                    end
          end
      end
  end.

Fixpoint form_moves (base : Config) (form : gmap string json_value) (pairs : list UrlCredentials) :
    result () string :=
  match pairs with
  | [] => Ok ()
  | uc :: rest =>
      match form !! uc_url uc, find (uc_url uc) with
      | Some v, Some d =>
          if bool_decide (v = get d base) then form_moves base form rest
          else match List.filter (λ s, negb (is_some (form !! s)) &&
                   match find s with Some d => negb (is_empty (get d base)) | None => false end)
                   (uc_secrets uc) with
               | [] => form_moves base form rest
               | missing => Err ("to test a new " +:+ uc_url uc +:+ ", re-enter " +:+ and_join missing +:+ " too")
               end
      | _, _ => form_moves base form rest
      end
  end.

Definition candidate (base : Config) (unsettled : list string) (form : gmap string json_value) :
    result Config string :=
  match form_values (order_by fst (map_to_list form)) base with
  | Err e => Err e
  | Ok cfg =>
  match unconfirmed_destination (λ k, is_some (form !! k)) unsettled with
  | Some (url, secrets) => Err (url +:+
      " is not settled: its saved value, or the one a restart would run, differs from the running one, so testing " +:+
      and_join secrets +:+ " could send " +:+ them secrets +:+ " to a host nobody confirmed; include " +:+ url +:+
      " in the test")
  | None => match form_moves base form URL_CREDENTIALS with Err e => Err e | Ok _ => Ok cfg end
  end end.

(** The configuration a test probes with, or why it does not. *)
Definition test_connection (id : positive) (i : Instance) (form : gmap string json_value) :
    prog World (result (result Config string) db_error) :=
  do! _ := note_asked form (in_running i) in
  do? next := next_run id i in
  Done (Ok (candidate next.1 next.2 form)).

(** ** Everything that runs *)
Inductive Operation : Type :=
  | OpBoot (import again : string → string) (base : Config) (keys : option KeyRing) (opts : BootOptions)
  | OpSave (id : positive) (nonce : string → string) (now : DateTime) (changes : gmap string json_value)
      (expected_rev : Z) (actor : string)
  | OpPoll (id : positive) (now jitter : Z)
  | OpApply (id : positive) (now later : Z) (actor : string)
  | OpTest (id : positive) (form : gmap string json_value)
  | OpView (id : positive) (demo : bool).

Inductive Outcome : Type :=
  | NoInstance
  | Booted (r : result positive db_error)
  | SaveDone (r : result Saved PatchError)
  | Polled (r : result () db_error)
  | ApplyDone (r : result ApplyOutcome PatchError)
  | Tested (r : result (result Config string) db_error)
  | Viewed (r : result SettingsView db_error).

Definition with_instance (id : positive) (k : Instance → prog World Outcome) : prog World Outcome :=
  do! i := read_instance id in match i with Some i => k i | None => Done NoInstance end.

Definition program (op : Operation) : prog World Outcome :=
  match op with
  | OpBoot import again base keys opts => do! r := boot import again base keys opts in Done (Booted r)
  | OpSave id nonce now changes rev actor =>
      with_instance id (λ i, do! r := save id i nonce now changes rev actor in Done (SaveDone r))
  | OpPoll id now jitter => with_instance id (λ i, do! r := poll_once id i now jitter in Done (Polled r))
  | OpApply id now later actor =>
      with_instance id (λ i, do! r := apply_restart id i now later actor in Done (ApplyDone r))
  | OpTest id form => with_instance id (λ i, do! r := test_connection id i form in Done (Tested r))
  | OpView id demo => with_instance id (λ i, do! r := view id i demo in Done (Viewed r))
  end.
End service.
