(* ===== verification/SettingsHistory.v ===== *)
(** * SettingsHistory: where secrets may be sent

    A setting such as the S3 endpoint is a host to which stored secrets go. Any number of
    instances boot, save, poll, test and restart on one database, every database call of one
    interleaved with those of the others and failing at any point; whatever they do, a secret
    goes to a host only if some instance's own file or environment named that host, or an
    operator sent the secret together with it or while it was running. *)
From Stdlib Require Import Ascii.
From S2P Require Import Prelude F64 FleetTypes Ladder ApiSchema Schema Errors Json Text Guards.
From S2P Require Import Config Settings SettingsOverlay SettingsDb Interleave SettingsService.
Local Open Scope Z_scope.
Local Open Scope mm_scope.

Lemma secret_types `{Lib} :
  forallb (λ d, negb (sd_secret d) ||
    match type_of (sd_key d) with Some TText | Some TOptText => true | _ => false end) registry = true.
Proof. vm_compute. reflexivity. Qed.

Lemma destinations_distinct : NoDup (uc_url <$> URL_CREDENTIALS).
Proof. by apply (bool_decide_unpack _). Qed.

#[local] Opaque find registry type_of config_fields URL_CREDENTIALS.

(** Texts and null, which all secrets are. *)
Definition text_value (v : json_value) : Prop := v = JNull ∨ ∃ s, v = JStr s.

(** serde_json reads back the text it wrote. *)
Class LibLaws `{Lib} : Prop := {
  parse_print v : text_value v → parse_json (print_json v) = Some v
}.

Lemma NoDup_omap {A B C} (k : A → C) (g : B → C) (f : A → option B) l :
  NoDup (k <$> l) → (∀ a b, f a = Some b → g b = k a) → NoDup (g <$> omap f l).
Proof.
  intros Hnd Hf. induction l as [|a l IH]; cbn; [constructor|].
  cbn in Hnd. apply NoDup_cons in Hnd as [Ha Hnd]. destruct (f a) as [b|] eqn:E; [|by apply IH].
  cbn. apply NoDup_cons. split; [|by apply IH]. rewrite (Hf _ _ E).
  intros (b' & Hb & (a' & Ha' & Hfa)%list_elem_of_omap)%list_elem_of_fmap. apply Ha, list_elem_of_fmap.
  exists a'. split; [|done]. rewrite Hb. by apply Hf.
Qed.

Lemma NoDup_filtered {A C} (k : A → C) (p : A → bool) l : NoDup (k <$> l) → NoDup (k <$> List.filter p l).
Proof.
  intros Hnd. induction l as [|a l IH]; cbn; [constructor|]. cbn in Hnd. apply NoDup_cons in Hnd as [Ha Hnd].
  destruct (p a); [|by apply IH]. cbn. apply NoDup_cons. split; [|by apply IH].
  intros (b & Hb & Hin)%list_elem_of_fmap. apply Ha, list_elem_of_fmap. exists b. split; [done|].
  by apply list_elem_of_In, filter_In in Hin as [Hin%list_elem_of_In _].
Qed.

Lemma elem_of_List_filter {A} (p : A → bool) l a : a ∈ List.filter p l ↔ a ∈ l ∧ p a = true.
Proof. by rewrite !list_elem_of_In, filter_In. Qed.

Lemma find_registered `{Lib} d : d ∈ registry → find (sd_key d) = Some d.
Proof.
  intros Hd. destruct (find (sd_key d)) as [d'|] eqn:E.
  - destruct (find_spec _ _ E) as [Hk Hd']. f_equal.
    apply list_elem_of_lookup in Hd as [i Hi], Hd' as [j Hj].
    assert (i = j) as ->; [|congruence]. eapply NoDup_lookup; [apply registry_keys_distinct|..].
    + by rewrite list_lookup_fmap, Hi.
    + by rewrite list_lookup_fmap, Hj, <- Hk.
  - exfalso. apply list_elem_of_In in Hd. eapply (List.find_none _ _ E) in Hd.
    by rewrite String.eqb_refl in Hd.
Qed.

Section history.
Context `{LibLaws, CipherLaws, JsonbLaws}.

(** The keys in use; an id, a prefix of a hash, belongs to one of them. *)
Variable all_keys : list Key.
Hypothesis keys_ok : ∀ k, k ∈ all_keys → key_ok k.
Hypothesis ids_distinct : ∀ k k', k ∈ all_keys → k' ∈ all_keys → k_id k = k_id k' → k = k'.

Definition ring_ok (r : KeyRing) : Prop :=
  kr_current r ∈ all_keys ∧ ∀ p, kr_previous r = Some p → p ∈ all_keys.

Definition rings_ok (r : option KeyRing) : Prop := ∀ k, r = Some k → ring_ok k.

Definition nonces_ok (nonce : string → string) : Prop := ∀ key, String.length (nonce key) = NONCE_LEN.

(** The blob of a setting holds a value. *)
Definition sealed (key blob : string) (v : json_value) : Prop :=
  text_value v ∧ ∃ r nonce, ring_ok r ∧ String.length nonce = NONCE_LEN ∧
    blob = encrypt r nonce key (print_json v).

Lemma sealed_decrypt r key blob v plain :
  ring_ok r → sealed key blob v → decrypt r key blob = Ok plain → plain = print_json v.
Proof.
  intros [Hc Hp] (_ & r0 & nonce & [Hr0 _] & Hn & ->). unfold decrypt.
  rewrite split_encrypted by (try apply keys_ok; done).
  destruct (String.eqb_spec (k_id (kr_current r0)) (k_id (kr_current r))) as [Heq|Hne].
  - apply ids_distinct in Heq as <-; [|done..]. rewrite open_seal. congruence.
  - destruct (kr_previous r) as [p|]; [|done].
    destruct (String.eqb_spec (k_id p) (k_id (kr_current r0))) as [Heq|Hne']; [|done].
    apply ids_distinct in Heq as ->; [|by apply Hp|done]. rewrite open_seal. congruence.
Qed.

Lemma sealed_fun key blob v v' : sealed key blob v → sealed key blob v' → v = v'.
Proof.
  intros Hs Hs'. pose proof Hs as (Ht & r & nonce & Hr & Hn & ->).
  assert (Hd : decrypt r key (encrypt r nonce key (print_json v)) = Ok (print_json v)).
  { refine (decrypt_encrypted r r nonce key _ (keys_ok _ (proj1 Hr)) Hn _).
    unfold opens_with. by rewrite String.eqb_refl. }
  pose proof (sealed_decrypt _ _ _ _ _ Hr Hs' Hd) as Heq. pose proof (parse_print v Ht) as Hp.
  rewrite Heq, parse_print in Hp by apply Hs'. congruence.
Qed.

Lemma sealed_decode keys d row blob v w :
  rings_ok keys → sd_secret d = true → ss_value row = SEncrypted blob → sealed (sd_key d) blob v →
  decode keys d row = Ok w → w = v.
Proof.
  intros Hk Hs Hv Hsl. unfold decode. rewrite Hv, Hs. destruct keys as [r|]; [|done].
  destruct (decrypt r (sd_key d) blob) as [plain|] eqn:Ed; [|done].
  apply (sealed_decrypt r _ _ v) in Ed as ->; [|by apply Hk|done].
  rewrite parse_print by apply Hsl. congruence.
Qed.

(** ** What a world says about a secret at a destination *)
Definition based (w : World) (url : string) (d : json_value) : Prop :=
  ∃ b, b ∈ w_boots w ∧ value_at url b.1 = d.

Definition cleared (w : World) (url s : string) (v d : json_value) : Prop :=
  ∃ a, a ∈ w_asked w ∧ a.1 !! s = Some v ∧
    (a.1 !! url = Some d ∨ (a.1 !! url = None ∧ value_at url a.2 = d)).

Definition allowed (w : World) (url s : string) (v d : json_value) : Prop :=
  is_empty v = true ∨ based w url d ∨ cleared w url s v d.

Definition safe_config (w : World) (c : Config) : Prop :=
  ∀ url s, sends url s → allowed w url s (value_at s c) (value_at url c).

Definition tables (w : World) : Tables := db_tables (w_db w).
Definition rows (w : World) : gmap string SettingRec := rows_in (tables w).

Definition holds (key : string) (r : SettingRec) (v : json_value) : Prop :=
  ∃ blob, sg_enc r = Some blob ∧ sealed key blob v.

Lemma holds_fun key r v v' : holds key r v → holds key r v' → v = v'.
Proof. intros (b & Hb & Hs) (b' & Hb' & Hs'). simplify_eq. by eapply sealed_fun. Qed.

Definition row_form (key : string) (r : SettingRec) : Prop :=
  ∃ d, find key = Some d ∧
    if sd_secret d then ∃ v, holds key r v else sg_enc r = None ∧ is_Some (sg_json r).

Record tables_ok (w : World) : Prop := {
  to_seq : 1 ≤ seq_in (tables w);
  to_revs key r : rows w !! key = Some r → 1 ≤ sg_rev r < seq_in (tables w);
  to_form key r : rows w !! key = Some r → row_form key r;
  to_pairs url s ru rs d v : sends url s → rows w !! url = Some ru → rows w !! s = Some rs →
    sg_json ru = Some d → holds s rs v → allowed w url s v d
}.

Definition instance_ok (w : World) (i : Instance) : Prop :=
  config_typed (in_base i) ∧ rings_ok (in_keys i) ∧ (in_base i, in_keys i) ∈ w_boots w ∧
  safe_config w (in_running i).

Definition inv (w : World) : Prop :=
  tables_ok w ∧ ∀ id i, w_instances w !! id = Some i → instance_ok w i.

(** ** What may happen between two steps *)
Definition same_row (key : string) (r r' : SettingRec) : Prop :=
  sg_rev r = sg_rev r' ∧ sg_json r = sg_json r' ∧ ∀ v, holds key r v ↔ holds key r' v.

Record later (t t' : Tables) : Prop := {
  lt_seq : seq_in t ≤ seq_in t';
  lt_old key r : rows_in t !! key = Some r → ∃ r', rows_in t' !! key = Some r' ∧ sg_rev r ≤ sg_rev r';
  lt_new key r' : rows_in t' !! key = Some r' →
    seq_in t ≤ sg_rev r' ∨ ∃ r, rows_in t !! key = Some r ∧ same_row key r r'
}.

#[local] Instance later_preorder : PreOrder later.
Proof.
  split.
  - intros t. split; [lia|eauto with lia|]. intros key r Hr. right. by exists r.
  - intros t1 t2 t3 [S1 O1 N1] [S2 O2 N2]. split; [lia|..].
    + intros key r Hr. destruct (O1 _ _ Hr) as (r2 & Hr2 & Hle). destruct (O2 _ _ Hr2) as (r3 & Hr3 & Hle').
      exists r3. split; [done|lia].
    + intros key r3 Hr3. destruct (N2 _ _ Hr3) as [|(r2 & Hr2 & He2 & Hj2 & Hh2)]; [left; lia|].
      destruct (N1 _ _ Hr2) as [|(r & Hr & He & Hj & Hh)]; [left; lia|right].
      exists r. split; [done|]. split; [congruence|]. split; [congruence|]. intros v. by rewrite Hh.
Qed.

(** The same process: only live values of what it runs changed. *)
Definition like (i i' : Instance) : Prop :=
  in_base i = in_base i' ∧ in_keys i = in_keys i' ∧ in_opts i = in_opts i' ∧
  ∀ k, k ∈ pair_keys → value_at k (in_running i) = value_at k (in_running i').

Record rely (w w' : World) : Prop := {
  re_tables : later (tables w) (tables w');
  re_boots : w_boots w `prefix_of` w_boots w';
  re_asked : w_asked w `prefix_of` w_asked w';
  re_instances id i : w_instances w !! id = Some i →
    ∃ i', w_instances w' !! id = Some i' ∧ like i i'
}.

#[local] Instance rely_preorder : PreOrder rely.
Proof.
  split.
  - intros w. split; [reflexivity..|]. intros id i Hi. exists i. by split_and!.
  - intros w1 w2 w3 [T1 B1 A1 I1] [T2 B2 A2 I2].
    split; [by transitivity (tables w2)|by transitivity (w_boots w2)|by transitivity (w_asked w2)|].
    intros id i Hi. destruct (I1 _ _ Hi) as (i2 & Hi2 & L1). destruct (I2 _ _ Hi2) as (i3 & Hi3 & L2).
    exists i3. split; [done|]. unfold like in *. destruct L1 as (-> & -> & -> & L1). destruct L2 as (-> & -> & -> & L2).
    split_and!; [done..|]. intros k Hk. by rewrite L1, L2.
Qed.

Lemma based_later w w' url d : rely w w' → based w url d → based w' url d.
Proof.
  intros [_ [l Hb] _ _] (b & Hin & Hv). exists b. split; [|done]. rewrite Hb. apply elem_of_app. by left.
Qed.

Lemma allowed_later w w' url s v d : rely w w' → allowed w url s v d → allowed w' url s v d.
Proof.
  intros Hr [He|[Hb|(a & Hin & Ha)]]; [by left|right; left; by eapply based_later|right; right].
  exists a. split; [|done]. destruct (re_asked _ _ Hr) as [l ->]. apply elem_of_app. by left.
Qed.

Lemma safe_later w w' c : rely w w' → safe_config w c → safe_config w' c.
Proof. intros Hr Hc url s Hs. eapply allowed_later; [done|by apply Hc]. Qed.

Lemma booted_later w w' b : rely w w' → b ∈ w_boots w → b ∈ w_boots w'.
Proof. intros [_ [l ->] _ _] Hb. apply elem_of_app. by left. Qed.

Lemma instance_later w w' i : rely w w' → instance_ok w i → instance_ok w' i.
Proof.
  intros Hr (Ht & Hk & Hb & Hc). split_and!; [done|done|by eapply booted_later|by eapply safe_later].
Qed.

(** While the newest revision is the same, so are the rows. *)
Lemma same_rows w w' :
  tables_ok w → rely w w' → max_rev_of (settings_of (tables w')) = max_rev_of (settings_of (tables w)) →
  ∀ key, match rows w !! key, rows w' !! key with
         | None, None => True
         | Some r, Some r' => same_row key r r'
         | _, _ => False
         end.
Proof.
  intros Hok Hr Hmax key. destruct (re_tables _ _ Hr) as [Hs Ho Hn].
  assert (Hlt : max_rev_of (settings_of (tables w)) < seq_in (tables w)).
  { destruct (max_rev_cases (settings_of (tables w))) as [->|(k & r & Hk & <-)].
    - pose proof (to_seq _ Hok). lia.
    - by apply (to_revs _ Hok k r). }
  destruct (rows w' !! key) as [r'|] eqn:Hr'.
  - destruct (Hn _ _ Hr') as [Hge|(r & Hrr & Hsame)].
    + pose proof (max_rev_ge (settings_of (tables w')) key r' Hr'). lia.
    + unfold rows. by rewrite Hrr.
  - destruct (rows w !! key) as [r|] eqn:Hrr; [|done]. destruct (Ho _ _ Hrr) as (r' & Hr2 & _).
    unfold rows in Hr'. congruence.
Qed.

(** ** Values on their way into a row *)
Lemma secret_text d x :
  d ∈ registry → sd_secret d = true → validate_setting d x = Ok () → text_value x.
Proof.
  intros Hd Hs Hv. pose proof secret_types as Hall. rewrite forallb_forall in Hall.
  specialize (Hall d (proj1 (list_elem_of_In _ _) Hd)). rewrite Hs in Hall. cbn [negb orb] in Hall.
  destruct (entry_type d Hd) as (ty & Hty & Hk). rewrite Hty in Hall.
  destruct (validated_fits d x ty Hty Hk Hv) as (fv & Hf & _).
  destruct ty; try done; destruct x; try done; unfold text_value; eauto.
Qed.

Lemma dest_text k d x :
  k ∈ pair_keys → find k = Some d → validate_setting d x = Ok () → text_value x.
Proof.
  intros Hk Hf Hv. destruct (pair_key_def _ Hk) as (d' & ty & Hf' & Hkey & _ & Hty & Ht & _).
  rewrite Hf in Hf'. injection Hf' as <-. destruct (find_spec _ _ Hf) as [_ Hd].
  destruct (entry_type d Hd) as (ty' & Hty' & Hkf). rewrite Hkey in Hty'. rewrite Hty in Hty'. injection Hty' as <-.
  rewrite <- Hkey in Hty. destruct (validated_fits d x ty Hty Hkf Hv) as (fv & Hfv & _).
  destruct Ht as [-> | ->]; destruct x; try done; unfold text_value; eauto.
Qed.

Lemma jsonb_text_value x o : text_value x → jsonb_column (Some x) = Ok o → o = Some x.
Proof.
  intros [->|[t ->]]; cbn; [rewrite jsonb_null; congruence|].
  destruct (jsonb (JStr t)) as [v|] eqn:E; [|done]. apply jsonb_text in E as ->. congruence.
Qed.

(** A new value carries a valid value of its setting, sealed if that is a secret. *)
Definition carries (v : NewValue) (x : json_value) : Prop :=
  ∃ d, find (nv_key v) = Some d ∧ validate_setting d x = Ok () ∧
    if sd_secret d then ∃ blob, nv_payload v = PEncrypted blob ∧ sealed (nv_key v) blob x
    else nv_payload v = PJson x.

Lemma carries_form v x r :
  carries v x → jsonb_column (split (nv_payload v)).1 = Ok (sg_json r) →
  sg_enc r = (split (nv_payload v)).2 → row_form (nv_key v) r.
Proof.
  intros (d & Hf & Hv & Hp) Hj He. exists d. split; [done|]. destruct (sd_secret d).
  - destruct Hp as (blob & Hp & Hs). rewrite Hp in He. exists x, blob. done.
  - rewrite Hp in Hj, He. split; [done|]. cbn in Hj. destruct (jsonb x); [|done].
    injection Hj as <-. done.
Qed.

(** What the destination and the secret of a pair are once some values are written. *)
Definition dest_after (w : World) (vs : list NewValue) (url : string) (d : json_value) : Prop :=
  (∃ v, v ∈ vs ∧ nv_key v = url ∧ carries v d) ∨
  (url ∉ nv_key <$> vs ∧ ∃ r, rows w !! url = Some r ∧ sg_json r = Some d).

Definition secret_after (w : World) (vs : list NewValue) (s : string) (x : json_value) : Prop :=
  (∃ v, v ∈ vs ∧ nv_key v = s ∧ carries v x) ∨
  (s ∉ nv_key <$> vs ∧ ∃ r, rows w !! s = Some r ∧ holds s r x).

Definition pairs_after (w : World) (vs : list NewValue) : Prop :=
  ∀ url s d x, sends url s → dest_after w vs url d → secret_after w vs s x → allowed w url s x d.

Lemma pair_dest url s : sends url s → ∃ d, find url = Some d ∧ sd_secret d = false.
Proof.
  intros Hs. destruct (sends_secret _ _ Hs) as [_ Hn]. destruct (sends_keys _ _ Hs) as [Hk _].
  destruct (pair_key_def _ Hk) as (d & ty & Hf & _ & _ & _ & _ & Hsec). exists d. split; [done|congruence].
Qed.

Lemma pair_secret url s : sends url s → ∃ d, find s = Some d ∧ sd_secret d = true.
Proof.
  intros Hs. destruct (sends_secret _ _ Hs) as [Hy _]. destruct (sends_keys _ _ Hs) as [_ Hk].
  destruct (pair_key_def _ Hk) as (d & ty & Hf & _ & _ & _ & _ & Hsec). exists d. split; [done|congruence].
Qed.

Section puts_keep.
Context (w : World) (db' : Db) (vs : list NewValue).
Let w' := set_db db' w.
Hypothesis Hok : tables_ok w.
Hypothesis Hputs : puts vs (stored_in (tables w)) (stored_in (db_tables db')).
Hypothesis Hnd : NoDup (nv_key <$> vs).
Hypothesis Hcarry : ∀ v, v ∈ vs → ∃ x, carries v x.

Lemma put_cases key r :
  rows w' !! key = Some r →
  (key ∉ nv_key <$> vs ∧ rows w !! key = Some r) ∨
  (∃ v, v ∈ vs ∧ nv_key v = key ∧ jsonb_column (split (nv_payload v)).1 = Ok (sg_json r) ∧
    sg_enc r = (split (nv_payload v)).2 ∧ seq_in (tables w) ≤ sg_rev r < seq_in (tables w')).
Proof.
  intros Hr. destruct (puts_lookup _ _ _ Hputs Hnd) as (_ & Hold & Hnew). cbn in Hold, Hnew.
  destruct (decide (key ∈ nv_key <$> vs)) as [Hin|Hno].
  - right. apply list_elem_of_fmap in Hin as (v & -> & Hv). destruct (Hnew v Hv) as (r' & Hr' & H').
    change (rows w' !! nv_key v = Some r') in Hr'. rewrite Hr in Hr'. injection Hr' as <-. by exists v.
  - left. split; [done|]. change (rows_in (db_tables db') !! key = Some r) in Hr. by rewrite Hold in Hr.
Qed.

Lemma put_dest url s r d :
  sends url s → rows w' !! url = Some r → sg_json r = Some d → dest_after w vs url d.
Proof.
  intros Hs Hr Hj. destruct (put_cases _ _ Hr) as [[Hno Hr0]|(v & Hv & Hk & Hc & _)]; [right; eauto|left].
  exists v. split; [done|]. split; [done|]. destruct (Hcarry v Hv) as (x & Hx).
  destruct (pair_dest _ _ Hs) as (d' & Hf & Hsec). destruct Hx as (d2 & Hf2 & Hval & Hp).
  rewrite Hk, Hf in Hf2. injection Hf2 as <-. rewrite Hsec in Hp. rewrite Hp in Hc.
  apply jsonb_text_value in Hc; [|exact (dest_text _ _ _ (proj1 (sends_keys _ _ Hs)) Hf Hval)].
  assert (d = x) as -> by congruence. exists d'. rewrite Hk, Hsec. done.
Qed.

Lemma put_secret url s r x :
  sends url s → rows w' !! s = Some r → holds s r x → secret_after w vs s x.
Proof.
  intros Hs Hr Hh. destruct (put_cases _ _ Hr) as [[Hno Hr0]|(v & Hv & Hk & _ & He & _)]; [right; eauto|left].
  exists v. split; [done|]. split; [done|]. destruct (Hcarry v Hv) as (x' & Hx). pose proof Hx as Hx2.
  destruct (pair_secret _ _ Hs) as (d' & Hf & Hsec). destruct Hx2 as (d2 & Hf2 & Hval & Hp).
  rewrite Hk, Hf in Hf2. injection Hf2 as <-. rewrite Hsec in Hp. destruct Hp as (blob & Hp & Hse).
  rewrite Hp in He. rewrite Hk in Hse. assert (x = x') as ->; [|done].
  apply (holds_fun s r); [done|]. by exists blob.
Qed.

Lemma puts_ok : pairs_after w vs → tables_ok w' ∧ later (tables w) (tables w').
Proof.
  intros Hpairs. destruct (puts_lookup _ _ _ Hputs Hnd) as (Hseq & Hold & Hnew). cbn in Hseq, Hold, Hnew.
  split; split.
  - pose proof (to_seq _ Hok). change (seq_in (tables w')) with (seq_in (db_tables db')). lia.
  - intros key r Hr. change (seq_in (tables w')) with (seq_in (db_tables db')).
    destruct (put_cases _ _ Hr) as [[_ Hr0]|(v & _ & _ & _ & _ & Hrev)].
    + pose proof (to_revs _ Hok _ _ Hr0). lia.
    + pose proof (to_seq _ Hok). change (seq_in (tables w')) with (seq_in (db_tables db')) in Hrev. lia.
  - intros key r Hr. destruct (put_cases _ _ Hr) as [[_ Hr0]|(v & Hv & <- & Hj & He & _)].
    + by apply (to_form _ Hok).
    + destruct (Hcarry v Hv) as (x & Hx). by eapply carries_form.
  - intros url s ru rs d v Hs Hu Hrs Hj Hh.
    apply Hpairs; [done|by eapply put_dest|by eapply put_secret].
  - done.
  - intros key r Hr. destruct (decide (key ∈ nv_key <$> vs)) as [Hin|Hno].
    + apply list_elem_of_fmap in Hin as (v & -> & Hv). destruct (Hnew v Hv) as (r' & Hr' & _ & _ & Hrev).
      exists r'. split; [done|]. pose proof (to_revs _ Hok _ _ Hr). lia.
    + exists r. split; [|lia]. change (rows_in (db_tables db') !! key = Some r). by rewrite Hold.
  - intros key r Hr. destruct (put_cases _ _ Hr) as [[_ Hr0]|(v & _ & _ & _ & _ & Hrev)]; [right; by exists r|left; lia].
Qed.
End puts_keep.

Lemma quiet_ok w db' :
  tables_ok w → stored_in (db_tables db') = stored_in (tables w) →
  tables_ok (set_db db' w) ∧ later (tables w) (tables (set_db db' w)).
Proof.
  intros Hok [= Hr Hs].
  assert (Hrows : rows (set_db db' w) = rows w) by exact Hr.
  assert (Hseq : seq_in (tables (set_db db' w)) = seq_in (tables w)) by exact Hs.
  split.
  - destruct Hok as [Q1 Q2 Q3 Q4]. split; rewrite ?Hrows, ?Hseq; try done.
  - split; unfold rows in Hrows; rewrite ?Hrows, ?Hseq; [done|eauto with lia|].
    intros key r Hk. right. by exists r.
Qed.

(** New blobs that hold what the old ones did. *)
Lemma reblob_ok w db' upd :
  tables_ok w → reblobbed upd (tables w) (db_tables db') →
  (∀ key blob r, (key, sg_rev r, blob) ∈ upd → rows w !! key = Some r →
     ∃ v, holds key r v ∧ sealed key blob v) →
  tables_ok (set_db db' w) ∧ later (tables w) (tables (set_db db' w)).
Proof.
  intros Hok [Hseq Hrows] Hupd. set (w' := set_db db' w).
  assert (Hsame : ∀ key r', rows w' !! key = Some r' → ∃ r, rows w !! key = Some r ∧ same_row key r r' ∧
    (sg_enc r = None ↔ sg_enc r' = None)).
  { intros key r' Hr'. destruct (Hrows key) as [Heq|(r & blob & Hr & [b Hb] & Hin & Heq)].
    - exists r'. change (rows_in (db_tables db') !! key = Some r') in Hr'. rewrite Heq in Hr'. done.
    - change (rows_in (db_tables db') !! key = Some r') in Hr'. rewrite Heq in Hr'. injection Hr' as <-.
      exists r. split; [done|]. destruct (Hupd _ _ _ Hin Hr) as (v & Hv & Hs).
      assert (Hv' : holds key (with_blob r blob) v) by by exists blob.
      split; [|rewrite Hb; done]. split_and!; [done|done|]. intros x. split; intros Hx.
      + by rewrite (holds_fun _ _ _ _ Hx Hv).
      + by rewrite (holds_fun _ _ _ _ Hx Hv'). }
  assert (Hkept : ∀ key r, rows w !! key = Some r → ∃ r', rows w' !! key = Some r' ∧ sg_rev r ≤ sg_rev r').
  { intros key r Hr. destruct (Hrows key) as [Heq|(r0 & blob & Hr0 & _ & _ & Heq)].
    - exists r. split; [|lia]. change (rows_in (db_tables db') !! key = Some r). by rewrite Heq.
    - change (rows w !! key = Some r0) in Hr0. exists (with_blob r0 blob). split; [done|].
      assert (r = r0) as -> by congruence. cbn. lia. }
  split; split.
  - change (1 ≤ seq_in (db_tables db')). rewrite Hseq. apply Hok.
  - intros key r' Hr'. destruct (Hsame _ _ Hr') as (r & Hr & (Hrev & _) & _).
    change (1 ≤ sg_rev r' < seq_in (db_tables db')). rewrite Hseq, <- Hrev. by apply (to_revs _ Hok key).
  - intros key r' Hr'. destruct (Hsame _ _ Hr') as (r & Hr & (_ & Hj & Hh) & Hn).
    destruct (to_form _ Hok _ _ Hr) as (d & Hf & Hform). exists d. split; [done|]. destruct (sd_secret d).
    + destruct Hform as [v Hv]. exists v. by apply Hh.
    + rewrite <- Hj. destruct Hform. split; [by apply Hn|done].
  - intros url s ru rs d v Hs Hu Hrs Hj Hh.
    destruct (Hsame _ _ Hu) as (ru0 & Hu0 & (_ & Hju & _) & _).
    destruct (Hsame _ _ Hrs) as (rs0 & Hs0 & (_ & _ & Hhs) & _).
    apply (to_pairs _ Hok url s ru0 rs0); [done..|congruence|by apply Hhs].
  - change (seq_in (tables w) ≤ seq_in (db_tables db')). lia.
  - exact Hkept.
  - intros key r' Hr'. right. destruct (Hsame _ _ Hr') as (r & Hr & Hsr & _). eauto.
Qed.

(** ** Programs among others *)
Definition runs {A} (Q : A → World → Prop) (w : World) (p : prog World A) : Prop :=
  alongside rely inv Q w p.

Definition on_ok {A E} (P : A → World → Prop) (r : result A E) (w : World) : Prop :=
  match r with Ok a => P a w | Err _ => True end.

Lemma runs_done {A} (Q : A → World → Prop) w a :
  (∀ w', rely w w' → inv w' → Q a w') → runs Q w (Done a).
Proof. done. Qed.

Lemma runs_bind {A B} (P : A → World → Prop) (Q : B → World → Prop) w p k :
  runs P w p → (∀ a w', rely w w' → inv w' → P a w' → runs Q w' (k a)) → runs Q w (prog_bind p k).
Proof. by apply alongside_bind, rely_preorder. Qed.

Lemma runs_try {A B E} (P : A → World → Prop) (Q : result B E → World → Prop) w
    (p : prog World (result A E)) k :
  runs (on_ok P) w p → (∀ e w', inv w' → Q (Err e) w') →
  (∀ a w', rely w w' → inv w' → P a w' → runs Q w' (k a)) → runs Q w (prog_try p k).
Proof.
  intros Hp He Hk. eapply runs_bind; [exact Hp|]. intros [a|e] w' Hr Hi HP; [by apply Hk|].
  apply runs_done. intros. by apply He.
Qed.

Lemma runs_err {A E F} (f : E → F) (P : A → World → Prop) w (p : prog World (result A E)) :
  runs (on_ok P) w p → (∀ a w w', rely w w' → P a w → P a w') → runs (on_ok P) w (prog_err f p).
Proof.
  intros Hp Hm. eapply runs_bind; [exact Hp|]. intros [a|e] w' Hr Hi HP; apply runs_done; [|done].
  intros w2 Hr2 _. by eapply Hm.
Qed.

Lemma step_ok w db' :
  inv w → tables_ok (set_db db' w) ∧ later (tables w) (tables (set_db db' w)) →
  rely w (set_db db' w) ∧ inv (set_db db' w).
Proof.
  intros [Hok Hin] [Ht Hl].
  assert (Hr : rely w (set_db db' w)).
  { split; [done|done|done|]. intros id i Hi. exists i. split; [done|]. by split_and!. }
  split; [done|]. split; [done|]. intros id i Hi. eapply instance_later; [done|]. by eapply Hin.
Qed.

Lemma runs_db {A} (Q : A → World → Prop) (m : st Db A) w :
  (∀ w1, rely w w1 → inv w1 →
    let w2 := set_db (m (w_db w1)).2 w1 in
    (tables_ok w2 ∧ later (tables w1) (tables w2)) ∧
    ∀ w3, rely w1 w3 → inv w3 → Q (m (w_db w1)).1 w3) →
  runs Q w (db_call m).
Proof.
  intros Hm. apply alongside_atom. intros w1 Hr Hi. destruct (Hm w1 Hr Hi) as [Ht Hq].
  destruct (step_ok _ _ Hi Ht) as [Hr2 Hi2]. unfold on_db.
  destruct (m (w_db w1)) as [a db'] eqn:E. cbn [fst snd] in *. split_and!; [done|done|].
  intros w3 Hr3 Hi3. apply Hq; [by etrans|done].
Qed.

(** Rows read at an earlier moment. *)
Definition snapshot (rs : list SettingRow) (w : World) : Prop :=
  ∃ w0, tables_ok w0 ∧ rely w0 w ∧ rs = SELECT_ROWS (tables w0).

Lemma snapshot_later rs w w' : rely w w' → snapshot rs w → snapshot rs w'.
Proof. intros Hr (w0 & Hok & Hr0 & ->). exists w0. split_and!; [done|by etrans|done]. Qed.

Lemma runs_reading {A} (Q : result A db_error → World → Prop) (f : Tables → A) w :
  (∀ w1 w3, rely w w1 → inv w1 → rely w1 w3 → inv w3 → Q (Ok (f (tables w1))) w3) →
  (∀ e w3, inv w3 → Q (Err e) w3) →
  runs Q w (db_call (exec (reading f))).
Proof.
  intros Hok He. apply runs_db. intros w1 Hr Hi. cbn zeta. split.
  - apply quiet_ok; [apply Hi|]. by rewrite exec_reading_tables.
  - intros w3 Hr3 Hi3. destruct (exec (reading f) (w_db w1)).1 as [a|e] eqn:E; [|by apply He].
    apply exec_reading_ok in E as ->. by apply Hok.
Qed.

Lemma runs_load_all w : runs (on_ok snapshot) w (db_call load_all).
Proof.
  apply runs_reading; [|done]. intros w1 w3 _ Hi Hr _. exists w1. split_and!; [apply Hi|done|done].
Qed.

Definition stored_snapshot (st : list StoredSetting) (w : World) : Prop :=
  ∃ rs, snapshot rs w ∧ st = to_stored <$> rs.

Lemma runs_load_stored w : runs (on_ok stored_snapshot) w load_stored.
Proof.
  eapply runs_try; [apply runs_load_all|done|]. intros rs w' _ _ Hs. apply runs_done. intros w2 Hr _.
  exists rs. split; [by eapply snapshot_later|done].
Qed.

(** ** Boot *)
Definition imported (nonce : string → string) (base : Config) (keys : option KeyRing) (d : SettingDef) :
    option (string * Stored) :=
  let v := get d base in
  if is_ok (validate_setting d v) then
    if sd_secret d then
      match keys with
      | None => None
      | Some k => if is_empty v then None
                  else Some (sd_key d, SEncrypted (encrypt k (nonce (sd_key d)) (sd_key d) (print_json v)))
      end
    else Some (sd_key d, SJson v)
  else None.

Lemma import_plan_values nonce base keys l plan :
  ip_values (foldl (import_setting nonce base keys) plan l) =
    ip_values plan ++ omap (imported nonce base keys) l.
Proof.
  revert plan. induction l as [|d l IH]; intros plan; cbn [foldl omap list_omap]; [by rewrite app_nil_r|].
  rewrite IH. unfold import_setting, imported.
  destruct (validate_setting d (get d base)); cbn [is_ok]; [|done].
  destruct (sd_secret d); [|cbn; by rewrite <- app_assoc].
  destruct keys; [|done]. destruct (is_empty _); [done|]. cbn. by rewrite <- app_assoc.
Qed.

Lemma imported_key nonce base keys d kv : imported nonce base keys d = Some kv → kv.1 = sd_key d.
Proof.
  unfold imported. destruct (is_ok _); [|done]. destruct (sd_secret d).
  - destruct keys; [|done]. destruct (is_empty _); [done|]. by intros [= <-].
  - by intros [= <-].
Qed.

Lemma is_ok_unit {E} (r : result () E) : is_ok r = true → r = Ok ().
Proof. by destruct r as [[]|]. Qed.

Lemma import_values_elem nonce base keys rs v :
  nonces_ok nonce → rings_ok keys → v ∈ import_values nonce base keys rs →
  carries v (value_at (nv_key v) base) ∧
  ∀ p, p ∈ URL_CREDENTIALS → nv_key v ∈ uc_secrets p → chosen_in_db (to_stored <$> rs) base (uc_url p) = false.
Proof.
  intros Hn Hk Hv. unfold import_values in Hv. apply list_elem_of_fmap in Hv as (kv & -> & Hkv).
  cbn [guard_import fst nv_key] in *. apply elem_of_List_filter in Hkv as [Hkv Hdrop]. split.
  - unfold import_plan in Hkv. rewrite import_plan_values in Hkv. cbn in Hkv.
    apply list_elem_of_omap in Hkv as (d & Hd & Himp). apply elem_of_List_filter in Hd as [Hd _].
    pose proof (imported_key _ _ _ _ _ Himp) as Hkey. exists d. cbn [nv_key]. rewrite Hkey.
    split; [by apply find_registered|]. unfold imported in Himp.
    destruct (is_ok (validate_setting d (get d base))) eqn:Eok; [|done]. apply is_ok_unit in Eok.
    split; [exact Eok|]. destruct (sd_secret d) eqn:Esec; [|by injection Himp as <-].
    destruct keys as [k|]; [|done]. destruct (is_empty _); [done|]. injection Himp as <-. cbn [fst snd nv_payload to_payload].
    eexists. split; [done|]. split; [by eapply secret_text|]. exists k, (nonce (sd_key d)).
    split_and!; [by apply Hk|apply Hn|done].
  - intros p Hp Hs. destruct (chosen_in_db _ _ _) eqn:E; [|done]. exfalso.
    apply negb_true_iff, not_true_iff_false in Hdrop. apply Hdrop, existsb_exists. exists kv.1.
    split; [|apply String.eqb_refl]. apply List.in_flat_map. exists p. split; [|by apply list_elem_of_In].
    apply filter_In. split; [by apply list_elem_of_In|done].
Qed.

Lemma import_values_distinct nonce base keys rs : NoDup (nv_key <$> import_values nonce base keys rs).
Proof.
  unfold import_values. rewrite <- list_fmap_compose.
  change (NoDup (fst <$> (guard_import (ip_values (import_plan nonce base keys)) (to_stored <$> rs) base).1)).
  cbn [guard_import fst]. apply NoDup_filtered. unfold import_plan. rewrite import_plan_values. cbn [ip_values app].
  apply (NoDup_omap sd_key); [apply NoDup_filtered, registry_keys_distinct|apply imported_key].
Qed.

Lemma carries_fun v x y : carries v x → carries v y → x = y.
Proof.
  intros (d & Hf & _ & Hx) (d' & Hf' & _ & Hy). rewrite Hf in Hf'. injection Hf' as <-.
  destruct (sd_secret d); [|congruence]. destruct Hx as (b & Hb & Hx), Hy as (b' & Hb' & Hy).
  rewrite Hb in Hb'. injection Hb' as <-. by eapply sealed_fun.
Qed.

(** The row of a destination as it is read. *)
Lemma dest_row w url s r d :
  tables_ok w → sends url s → rows w !! url = Some r → sg_json r = Some d →
  sr_payload (to_row (url, r)) = PJson d.
Proof.
  intros Hok Hs Hr Hj. destruct (to_form _ Hok _ _ Hr) as (def & Hf & Hform).
  destruct (pair_dest _ _ Hs) as (def' & Hf' & Hsec). rewrite Hf in Hf'. injection Hf' as <-.
  rewrite Hsec in Hform. destruct Hform as [He _]. cbn. by rewrite He, Hj.
Qed.

Lemma find_stored t key :
  List.find (λ r, String.eqb (ss_key r) key) (to_stored <$> SELECT_ROWS t) =
    (λ r, to_stored (to_row (key, r))) <$> rows_in t !! key.
Proof.
  transitivity (to_stored <$> List.find (λ r, String.eqb (sr_key r) key) (SELECT_ROWS t)).
  - induction (SELECT_ROWS t) as [|r l IH]; cbn; [done|]. by destruct (String.eqb (sr_key r) key).
  - rewrite find_selected. by destruct (rows_in t !! key).
Qed.

Lemma import_pairs nonce base keys w :
  tables_ok w → nonces_ok nonce → rings_ok keys → (base, keys) ∈ w_boots w →
  pairs_after w (unstored (SELECT_ROWS (tables w)) (import_values nonce base keys (SELECT_ROWS (tables w)))).
Proof.
  intros Hok Hn Hk Hb url s d x Hs Hd Hx. set (vs := unstored _ _) in *.
  assert (Hvs : ∀ v, v ∈ vs → v ∈ import_values nonce base keys (SELECT_ROWS (tables w)))
    by (intros v Hv; by apply elem_of_List_filter in Hv as [Hv _]).
  assert (Hbased : based w url (value_at url base)) by by exists (base, keys).
  destruct Hd as [(v & Hv & <- & Hc)|[Hno (r & Hr & Hj)]].
  - destruct (import_values_elem _ _ _ _ _ Hn Hk (Hvs _ Hv)) as [Hc' _].
    rewrite (carries_fun _ _ _ Hc Hc'). by right; left.
  - destruct Hx as [(v & Hv & <- & Hc)|[_ (rs & Hrs & Hh)]]; [|by eapply (to_pairs _ Hok url s r rs)].
    destruct (import_values_elem _ _ _ _ _ Hn Hk (Hvs _ Hv)) as [_ Hg].
    destruct (pair_dest _ _ Hs) as (du & Hf & _). pose proof Hs as (p & Hp & <- & Hsp).
    specialize (Hg p Hp Hsp). unfold chosen_in_db in Hg. rewrite Hf, find_stored in Hg.
    change (rows_in (tables w)) with (rows w) in Hg. rewrite Hr in Hg. cbn [fmap option_fmap option_map] in Hg.
    unfold to_stored in Hg. rewrite (dest_row _ _ _ _ _ Hok Hs Hr Hj) in Hg. cbn in Hg.
    apply negb_false_iff, bool_decide_eq_true in Hg. destruct (find_spec _ _ Hf) as [Hkey _].
    rewrite Hg, value_at_get, Hkey. by right; left.
Qed.

Lemma runs_import nonce base keys w :
  nonces_ok nonce → rings_ok keys → (base, keys) ∈ w_boots w →
  runs (on_ok (λ _ _, True)) w (db_call (import_filtered (import_values nonce base keys))).
Proof.
  intros Hn Hk Hb. apply runs_db. intros w1 Hr [Hok Hi]. split; [|by intros; destruct (import_filtered _ _).1].
  destruct (import_effect (import_values nonce base keys) (w_db w1)) as [Hq|Hp]; [by apply quiet_ok|].
  pose proof (booted_later _ _ _ Hr Hb) as Hb1.
  eapply puts_ok; [done|exact Hp| | |by eapply import_pairs].
  - apply NoDup_filtered, import_values_distinct.
  - intros v Hv. apply elem_of_List_filter in Hv as [Hv _].
    eexists. by eapply import_values_elem.
Qed.

(** A row whose revision was seen before holds what it held then. *)
Lemma row_seen w w' key r r' :
  tables_ok w → rely w w' → rows w !! key = Some r → rows w' !! key = Some r' → sg_rev r' = sg_rev r →
  same_row key r r'.
Proof.
  intros Hok Hr Hrow Hrow' Hrev. destruct (lt_new _ _ (re_tables _ _ Hr) _ _ Hrow') as [Hge|(r0 & Hr0 & Hs)].
  - pose proof (to_revs _ Hok _ _ Hrow). lia.
  - change (rows w !! key = Some r0) in Hr0. congruence.
Qed.

Lemma reencrypted_holds w0 w nonce k key blob r :
  tables_ok w0 → rely w0 w → nonces_ok nonce → ring_ok k →
  (key, sg_rev r, blob) ∈ omap (reencrypted nonce k) (SELECT_ROWS (tables w0)) → rows w !! key = Some r →
  ∃ v, holds key r v ∧ sealed key blob v.
Proof.
  intros Hok Hr Hn Hk Hin Hrow. apply list_elem_of_omap in Hin as (row & Hrow0 & Hre).
  apply elem_of_select in Hrow0 as (key0 & r0 & Hr0 & ->). unfold reencrypted in Hre. cbn [sr_key sr_rev to_row fst snd] in Hre.
  destruct (sr_payload (to_row (key0, r0))) as [|b0] eqn:Ep; [done|].
  destruct (is_on_previous k b0); [|done]. destruct (decrypt k key0 b0) as [plain|] eqn:Ed; [|done].
  injection Hre as -> Hrev <-. change (rows w0 !! key = Some r0) in Hr0.
  cbn in Ep. destruct (sg_enc r0) as [b|] eqn:He; [|by destruct (sg_json r0)].
  assert (b = b0) as -> by (destruct (sg_json r0); congruence).
  destruct (to_form _ Hok _ _ Hr0) as (d & Hf & Hform). destruct (sd_secret d); [|destruct Hform; congruence].
  destruct Hform as [v Hv]. exists v. split.
  - by apply (row_seen w0 w key r0 r Hok Hr Hr0 Hrow (eq_sym Hrev)).
  - destruct Hv as (b & Hb & Hsl). assert (b = b0) as -> by congruence.
    rewrite (sealed_decrypt _ _ _ _ _ Hk Hsl Ed). split; [apply Hsl|]. exists k, (nonce key).
    split_and!; [done|apply Hn|done].
Qed.

Lemma runs_reencrypt nonce k w :
  nonces_ok nonce → ring_ok k → runs (on_ok (λ _ _, True)) w (reencrypt_previous nonce k).
Proof.
  intros Hn Hk. eapply runs_try; [apply runs_load_all|done|]. intros rs w1 _ _ (w0 & Hok & Hr0 & ->).
  cbn beta zeta. case_bool_decide; [by apply runs_done|].
  apply (runs_try (λ _ _, True)); [|done|by intros; apply runs_done].
  apply runs_db. intros w2 Hr [Hok2 _]. split; [|by intros; destruct (reencrypt _ _).1].
  eapply reblob_ok; [done|apply reencrypt_effect|]. intros key blob r Hin Hrow.
  eapply (reencrypted_holds w0 w2); [done|by etrans|done..].
Qed.

(** What an overlay makes of rows that were read is safe. *)
Lemma decoded_dest w0 keys url s d row v :
  tables_ok w0 → sends url s → find url = Some d → row ∈ to_stored <$> SELECT_ROWS (tables w0) → ss_key row = url →
  decode keys d row = Ok v → ∃ r, rows w0 !! url = Some r ∧ sg_json r = Some v.
Proof.
  intros Hok Hs Hf Hin Hk Hd. apply list_elem_of_fmap in Hin as (sr & -> & Hin).
  apply elem_of_select in Hin as (key & r & Hr & ->). cbn in Hk. subst key. exists r. split; [done|].
  destruct (pair_dest _ _ Hs) as (d' & Hf' & Hsec). rewrite Hf in Hf'. injection Hf' as <-.
  destruct (to_form _ Hok _ _ Hr) as (d' & Hf' & Hform). rewrite Hf in Hf'. injection Hf' as <-.
  rewrite Hsec in Hform. destruct Hform as [He [j Hj]]. unfold decode, to_stored in Hd. cbn in Hd.
  rewrite He, Hj, Hsec in Hd. congruence.
Qed.

Lemma decoded_secret w0 keys url s d row v :
  tables_ok w0 → rings_ok keys → sends url s → find s = Some d →
  row ∈ to_stored <$> SELECT_ROWS (tables w0) → ss_key row = s →
  decode keys d row = Ok v → ∃ r, rows w0 !! s = Some r ∧ holds s r v.
Proof.
  intros Hok Hkeys Hs Hf Hin Hk Hd. apply list_elem_of_fmap in Hin as (sr & -> & Hin).
  apply elem_of_select in Hin as (key & r & Hr & ->). cbn in Hk. subst key. exists r. split; [done|].
  destruct (pair_secret _ _ Hs) as (d' & Hf' & Hsec). rewrite Hf in Hf'. injection Hf' as <-.
  destruct (to_form _ Hok _ _ Hr) as (d' & Hf' & Hform). rewrite Hf in Hf'. injection Hf' as <-.
  rewrite Hsec in Hform. destruct Hform as [x (b & Hb & Hx)]. destruct (find_spec _ _ Hf) as [Hkey _].
  assert (v = x) as ->; [|by exists b].
  eapply (sealed_decode keys d _ b); [done|done| |by rewrite Hkey|exact Hd].
  cbn. rewrite Hb. by destruct (sg_json r).
Qed.

Lemma overlay_safe base keys policy stored w :
  config_typed base → rings_ok keys → (base, keys) ∈ w_boots w → stored_snapshot stored w →
  safe_config w (ol_config (apply_overlay base stored keys policy)).
Proof.
  intros Ht Hk Hb (rs & (w0 & Hok & Hr & ->) & ->) url s Hs.
  destruct (overlay_pairs base (to_stored <$> SELECT_ROWS (tables w0)) keys policy url s Ht Hs)
    as [Hbase|[(d & row & Hf & Hin & Hkey & Hd) [He|(d' & row' & Hf' & Hin' & Hkey' & Hd')]]].
  - right; left. by exists (base, keys).
  - by left.
  - eapply (allowed_later w0); [done|].
    destruct (decoded_dest _ _ _ _ _ _ _ Hok Hs Hf Hin Hkey Hd) as (ru & Hru & Hj).
    destruct (decoded_secret _ _ _ _ _ _ _ Hok Hk Hs Hf' Hin' Hkey' Hd') as (rs & Hrs & Hh).
    by eapply (to_pairs _ Hok).
Qed.

(** The destinations an overlay gives up are some of the pairs, each once. *)
Lemma overlay_rows_unpaired keys l o :
  ol_unpaired_destinations (foldl (overlay_row keys) o l) = ol_unpaired_destinations o.
Proof.
  revert o. induction l as [|r l IH]; intros o; [done|]. cbn [foldl]. rewrite IH. unfold overlay_row.
  destruct (find_editable _); [|done]. by destruct (apply_row _ _ _ _).
Qed.

Lemma pair_destinations_unpaired base rs l o :
  ∃ l', ol_unpaired_destinations (foldl (pair_destination base rs) o l) = ol_unpaired_destinations o ++ l' ∧
    l' `sublist_of` (uc_url <$> l).
Proof.
  revert o. induction l as [|p l IH]; intros o; cbn [foldl fmap list_fmap].
  { exists []. by rewrite app_nil_r. }
  destruct (IH (pair_destination base rs o p)) as (l' & Hl & Hsub). rewrite Hl. unfold pair_destination.
  destruct (find (uc_url p)); [|exists l'; split; [done|by constructor]].
  destruct (_ || _); [exists l'; split; [done|by constructor]|].
  destruct (foreign_secrets o p); [exists l'; split; [done|by constructor]|].
  cbn [ol_unpaired_destinations]. destruct (existsb _ _).
  - exists l'. rewrite app_nil_r. split; [done|by constructor].
  - exists (uc_url p :: l'). rewrite <- app_assoc. split; [done|by constructor].
Qed.

Lemma unpaired_sublist base rs keys policy :
  ol_unpaired_destinations (apply_overlay base rs keys policy) `sublist_of` (uc_url <$> URL_CREDENTIALS).
Proof.
  unfold apply_overlay. cbn [ol_unpaired_destinations].
  match goal with |- ol_unpaired_destinations (foldl _ ?o _) `sublist_of` _ =>
    destruct (pair_destinations_unpaired base rs URL_CREDENTIALS o) as (l' & -> & Hl) end.
  by rewrite overlay_rows_unpaired.
Qed.

Lemma resets_elem base rs keys policy v :
  v ∈ resets_of base (apply_overlay base rs keys policy) →
  ∃ s, sends (nv_key v) s ∧ carries v (value_at (nv_key v) base).
Proof.
  intros Hv. apply list_elem_of_omap in Hv as (key & Hin & Hv).
  assert (Hp : key ∈ uc_url <$> URL_CREDENTIALS).
  { eapply elem_of_submseteq; [exact Hin|]. apply sublist_submseteq, unpaired_sublist. }
  apply list_elem_of_fmap in Hp as (p & -> & Hp). destruct (pair_has_secret p Hp) as [s Hs].
  assert (Hsend : sends (uc_url p) s) by by exists p.
  destruct (pair_dest _ _ Hsend) as (d & Hf & Hsec). rewrite Hf in Hv.
  destruct (is_ok (validate_setting d (get d base))) eqn:Eok; [|done]. apply is_ok_unit in Eok.
  destruct (find_spec _ _ Hf) as [Hkey _]. injection Hv as <-. exists s. cbn [nv_key]. rewrite Hkey.
  split; [done|]. exists d. cbn [nv_key nv_payload]. rewrite Hsec. split_and!; [done|..].
  - by rewrite <- Hkey, <- value_at_get.
  - by rewrite <- Hkey, <- value_at_get.
Qed.

Lemma resets_distinct base rs keys policy :
  NoDup (nv_key <$> resets_of base (apply_overlay base rs keys policy)).
Proof.
  unfold resets_of. apply (NoDup_omap id).
  - rewrite list_fmap_id. eapply sublist_NoDup; [apply destinations_distinct|apply unpaired_sublist].
  - intros key v. destruct (find key) as [d|] eqn:Hf; [|done]. destruct (is_ok _); [|done].
    intros [= <-]. by apply find_spec in Hf as [? _].
Qed.

Lemma resets_pairs base rs keys policy w :
  tables_ok w → (base, keys) ∈ w_boots w → pairs_after w (resets_of base (apply_overlay base rs keys policy)).
Proof.
  intros Hok Hb url s d x Hs Hd Hx. destruct Hd as [(v & Hv & <- & Hc)|[_ (ru & Hru & Hj)]].
  - destruct (resets_elem _ _ _ _ _ Hv) as (_ & _ & Hc'). rewrite (carries_fun _ _ _ Hc Hc').
    right; left. by exists (base, keys).
  - destruct Hx as [(v & Hv & <- & _)|[_ (r & Hr & Hh)]]; [|by eapply (to_pairs _ Hok url s ru r)].
    destruct (resets_elem _ _ _ _ _ Hv) as (s' & Hs' & _).
    destruct (sends_secret _ _ Hs) as [Hy _]. destruct (sends_secret _ _ Hs') as [_ Hno]. congruence.
Qed.

Lemma stored_snapshot_later st w w' : rely w w' → stored_snapshot st w → stored_snapshot st w'.
Proof. intros Hr (rs & Hs & ->). exists rs. split; [by eapply snapshot_later|done]. Qed.

Lemma runs_reset base rs keys policy exp actor w :
  (base, keys) ∈ w_boots w →
  runs (λ _ _, True) w (db_call (write (resets_of base (apply_overlay base rs keys policy)) exp actor)).
Proof.
  intros Hb. apply runs_db. intros w1 Hr [Hok _]. split; [|done].
  destruct (write_effect (resets_of base (apply_overlay base rs keys policy)) exp actor (w_db w1)) as [Hq|[_ Hp]].
  { apply quiet_ok; [done|]. by rewrite Hq. }
  eapply puts_ok; [done|exact Hp|apply resets_distinct| |].
  - intros v Hv. destruct (resets_elem _ _ _ _ _ Hv) as (_ & _ & Hc). eauto.
  - apply resets_pairs; [done|by eapply booted_later].
Qed.

Definition safe_overlay (o : Overlay) (w : World) : Prop := safe_config w (ol_config o).

Lemma runs_attempts n base keys policy stored w :
  config_typed base → rings_ok keys → (base, keys) ∈ w_boots w → stored_snapshot stored w →
  runs (on_ok safe_overlay) w (overlay_attempts n base keys policy stored).
Proof.
  intros Ht Hk. revert stored w. induction n as [|n IH]; intros stored w Hb Hs; cbn [overlay_attempts];
    pose proof (overlay_safe base keys policy stored w Ht Hk Hb Hs) as Hsafe.
  { apply runs_done. intros w' Hr _. by eapply safe_later. }
  destruct (resets_of base (apply_overlay base stored keys policy)) as [|v vs] eqn:Ers.
  { apply runs_done. intros w' Hr _. by eapply safe_later. }
  rewrite <- Ers. eapply runs_bind; [by apply runs_reset|]. intros r w1 Hr1 _ _.
  assert (Hnext : runs (on_ok safe_overlay) w1
    (do? stored := load_stored in overlay_attempts n base keys policy stored)).
  { eapply runs_try; [apply runs_load_stored|done|]. intros st w2 Hr2 _ Hst. apply IH; [|done].
    eapply booted_later; [|exact Hb]. by etrans. }
  destruct r as [rev|[e c|e]]; [exact Hnext|exact Hnext|by apply runs_done].
Qed.

(** ** What happens to the instances *)
Lemma noted w w' :
  inv w → w_db w' = w_db w → w_instances w' = w_instances w → w_boots w `prefix_of` w_boots w' →
  w_asked w `prefix_of` w_asked w' → rely w w' ∧ inv w'.
Proof.
  intros [Hok Hi] Hdb Hin Hb Ha.
  assert (Hr : rely w w').
  { split; [unfold tables; by rewrite Hdb|done|done|]. rewrite Hin. intros id i Hid. exists i. by split_and!. }
  assert (Hrows : rows w' = rows w) by (unfold rows, tables; by rewrite Hdb).
  assert (Ht : tables w' = tables w) by (unfold tables; by rewrite Hdb).
  split; [done|]. split.
  - destruct Hok as [Q1 Q2 Q3 Q4]. split; rewrite ?Hrows, ?Ht; [done..|].
    intros url s ru rs d v Hs Hu Hrs Hj Hh. eapply allowed_later; [done|]. by eapply (Q4 url s ru rs).
  - rewrite Hin. intros id i Hid. eapply instance_later; [done|]. by eapply Hi.
Qed.

Lemma like_ok w i i' : like i i' → instance_ok w i → instance_ok w i'.
Proof.
  intros (Hb & Hk & _ & Hv) (Ht & Hr & Hin & Hs). unfold instance_ok. rewrite <- Hb, <- Hk.
  split_and!; [done..|]. intros url s Hsend. destruct (sends_keys _ _ Hsend) as [Hu Hsk].
  rewrite <- (Hv _ Hu), <- (Hv _ Hsk). by apply Hs.
Qed.

Lemma instances_step w m :
  inv w → (∀ id i, w_instances w !! id = Some i → ∃ i', m !! id = Some i' ∧ like i i') →
  (∀ id i, m !! id = Some i → instance_ok w i) →
  rely w (set_instances m w) ∧ inv (set_instances m w).
Proof.
  intros [Hok Hi] Hold Hnew.
  assert (Hr : rely w (set_instances m w)) by by split.
  split; [done|]. split; [|intros id i Hid; eapply instance_later; [done|by eapply Hnew]].
  destruct Hok as [Q1 Q2 Q3 Q4]. by split.
Qed.

Lemma runs_update id f w :
  (∀ i, like i (f i)) → runs (λ _ _, True) w (update_instance id f).
Proof.
  intros Hf. apply alongside_atom. intros w1 Hr Hi. cbn [fst snd].
  assert (Hs : rely w1 (set_instances (alter f id (w_instances w1)) w1) ∧
    inv (set_instances (alter f id (w_instances w1)) w1)); [|destruct Hs; by split_and!].
  apply instances_step; [done|..].
  - intros id' i Hid. destruct (decide (id = id')) as [<-|Hne].
    + exists (f i). split; [|done]. by rewrite lookup_alter_eq, Hid.
    + exists i. split; [by rewrite lookup_alter_ne|by split_and!].
  - intros id' i Hid. destruct (decide (id = id')) as [<-|Hne].
    + rewrite lookup_alter_eq in Hid. destruct (w_instances w1 !! id) as [i0|] eqn:E0; [|done].
      injection Hid as <-. eapply like_ok; [done|]. by eapply Hi.
    + rewrite lookup_alter_ne in Hid by done. by eapply Hi.
Qed.

Lemma reloaded_like stored rev i : like i (reloaded stored (set_reloaded rev i)).
Proof.
  unfold reloaded. cbn [set_reloaded in_status in_running in_keys in_opts in_base].
  destruct (st_safe_mode _); [by split_and!|]. split_and!; [done..|]. cbn [in_running]. intros k Hk.
  destruct (reload_live _ _ _ _) as [c|] eqn:E; [|done].
  destruct (pair_key_def _ Hk) as (d & _ & Hf & _ & Hc & _).
  symmetry. eapply reload_keeps; [exact E|done|]. by rewrite Hc.
Qed.

Lemma runs_reload id w : runs (on_ok (λ _ _, True)) w (reload_live_now id).
Proof.
  eapply runs_try; [apply runs_load_stored|done|]. intros st w1 _ _ _.
  eapply runs_bind; [apply runs_update; intros i; apply reloaded_like|]. intros. by apply runs_done.
Qed.

Lemma runs_start i w :
  instance_ok w i → runs (λ _ _, True) w (start_instance i).
Proof.
  intros Hok. apply alongside_atom. intros w1 Hr Hi. cbn [fst snd]. set (id := fresh _).
  assert (Hfresh : w_instances w1 !! id = None).
  { apply not_elem_of_dom. apply is_fresh. }
  assert (Hs : rely w1 (set_instances (<[id := i]> (w_instances w1)) w1) ∧
    inv (set_instances (<[id := i]> (w_instances w1)) w1)); [|destruct Hs; by split_and!].
  apply instances_step; [done|..].
  - intros id' i' Hid. exists i'. split; [|by split_and!]. rewrite lookup_insert_ne; [done|congruence].
  - intros id' i' Hid. apply lookup_insert_Some in Hid as [[<- <-]|[_ Hid]].
    + by eapply instance_later.
    + by eapply Hi.
Qed.

Lemma runs_boot import again base keys opts w :
  config_typed base → rings_ok keys → nonces_ok import → nonces_ok again →
  runs (λ _ _, True) w (boot import again base keys opts).
Proof.
  intros Ht Hk Hn Hn'. unfold boot.
  apply (runs_bind (λ _ w', (base, keys) ∈ w_boots w')).
  { apply alongside_atom. intros w1 Hr Hi. cbn [fst snd]. destruct (noted w1
      {| w_db := w_db w1; w_instances := w_instances w1; w_boots := w_boots w1 ++ [(base, keys)];
         w_asked := w_asked w1 |}) as [Hr1 Hi1]; [done|done|done|by apply prefix_app_r|done|].
    split_and!; [done|done|]. intros w2 Hr2 _. eapply booted_later; [done|]. cbn. set_solver. }
  intros _ w1 _ _ Hb.
  eapply runs_try; [by apply runs_import|done|]. intros _ w2 Hr2 _ _.
  eapply booted_later in Hb; [|done].
  apply (runs_try (λ _ _, True)); [|done|].
  { destruct keys as [k|]; [|by apply runs_done]. apply runs_reencrypt; [done|by apply Hk]. }
  intros _ w3 Hr3 _ _. eapply booted_later in Hb; [|done].
  apply (runs_try (λ cs w', safe_config w' cs.1)); [|done|].
  - destruct (bo_break_glass opts).
    + eapply runs_try; [apply runs_load_stored|done|]. intros st w4 Hr4 _ _. apply runs_done.
      intros w5 Hr5 _ url s Hs. right; left. exists (base, keys).
      split; [|done]. eapply booted_later; [exact Hr5|]. by eapply booted_later.
    + apply (runs_try safe_overlay); [|done|].
      * eapply runs_try; [apply runs_load_stored|done|]. intros st w4 Hr4 _ Hst.
        apply runs_attempts; [done|done| |done]. by eapply booted_later.
      * intros o w4 _ _ Ho. apply runs_done. intros w5 Hr5 _. by eapply safe_later.
  - intros cs w4 Hr4 _ Hcs. eapply runs_bind; [|by intros; apply runs_done].
    apply runs_start. split_and!; [done|done|by eapply booted_later|done].
Qed.

(** ** Saves *)
Definition entry_ok (dv : SettingDef * json_value) : Prop :=
  find (sd_key dv.1) = Some dv.1 ∧ validate_setting dv.1 dv.2 = Ok ().

Lemma accept_ok l acc ps a :
  accept l acc ps = Ok a →
  ∃ l', a = acc ++ l' ∧ (λ dv, (sd_key dv.1, dv.2)) <$> l' = l ∧ Forall entry_ok l'.
Proof.
  revert acc ps. induction l as [|[key v] l IH]; intros acc ps; cbn [accept].
  { destruct ps; [|done]. intros [= <-]. exists []. split_and!; [by rewrite app_nil_r|done|constructor]. }
  destruct (find key) as [d|] eqn:Hf; [|done]. destruct (negb (editable d)); [done|].
  destruct (find_spec _ _ Hf) as [Hk _].
  destruct (validate_setting d v) as [[]|e] eqn:Ev.
  - intros E. destruct (IH _ _ E) as (l' & -> & Hl & Hok). exists ((d, v) :: l').
    rewrite <- app_assoc. split_and!; [done|cbn; by rewrite Hl, Hk|]. constructor; [|done].
    split; [cbn; congruence|done].
  - intros E. exfalso. clear IH.
    assert (Hno : ∀ l acc ps, ps ≠ [] → accept l acc ps ≠ Ok a); [|eapply Hno; [|exact E]; by destruct ps].
    clear. induction l as [|[k v] l IH]; intros acc ps Hps; cbn [accept]; [by destruct ps|].
    destruct (find k) as [d|]; [|done]. destruct (negb _); [done|].
    destruct (validate_setting d v); [by apply IH|]. apply IH. by destruct ps.
Qed.

Lemma encode_carries nonce i d v p :
  nonces_ok nonce → rings_ok (in_keys i) → entry_ok (d, v) → encode nonce i d v = Ok p →
  carries {| nv_key := sd_key d; nv_payload := p |} v.
Proof.
  intros Hn Hk [Hf Hv]. cbn in Hf, Hv. unfold encode. intros E. exists d. cbn [nv_key nv_payload].
  split; [done|]. split; [done|]. destruct (sd_secret d) eqn:Es; cbn in E; [|congruence].
  destruct (in_keys i) as [k|]; [|done]. injection E as <-. eexists. split; [done|].
  destruct (find_spec _ _ Hf) as [_ Hd]. split; [by eapply secret_text|].
  exists k, (nonce (sd_key d)). split_and!; [by apply Hk|apply Hn|done].
Qed.

Lemma encode_all_ok nonce i l vs :
  nonces_ok nonce → rings_ok (in_keys i) → Forall entry_ok l → encode_all nonce i l = Ok vs →
  Forall2 (λ dv v, nv_key v = sd_key dv.1 ∧ carries v dv.2) l vs.
Proof.
  intros Hn Hk Hl. revert vs. induction Hl as [|[d v] l Hdv Hl IH]; intros vs; cbn [encode_all].
  { intros [= <-]. constructor. }
  destruct (encode nonce i d v) as [p|] eqn:Ep; [|done].
  destruct (encode_all nonce i l) as [vs'|]; [|done]. intros [= <-]. constructor; [|by apply IH].
  split; [done|]. by eapply encode_carries.
Qed.

(** What is written is what was sent. *)
Record writes (changes : gmap string json_value) (vs : list NewValue) : Prop := {
  wr_sent v : v ∈ vs → ∃ x, changes !! nv_key v = Some x ∧ carries v x;
  wr_rest key : key ∉ nv_key <$> vs → changes !! key = None;
  wr_distinct : NoDup (nv_key <$> vs)
}.

Lemma accepted_writes changes nonce i accepted vs :
  nonces_ok nonce → rings_ok (in_keys i) →
  accept (order_by fst (map_to_list changes)) [] [] = Ok accepted →
  encode_all nonce i accepted = Ok vs → writes changes vs.
Proof.
  intros Hn Hk Ha He. apply accept_ok in Ha as (l & -> & Hl & Hok). cbn [app] in He.
  apply encode_all_ok in He; [|done..].
  assert (Hkeys : nv_key <$> vs = fst <$> order_by fst (map_to_list changes)).
  { rewrite <- Hl, <- list_fmap_compose. clear Hl Hok. induction He as [|dv v l vs [Hkv _] _ IH]; [done|].
    cbn. by rewrite Hkv, IH. }
  split.
  - intros v Hv. apply list_elem_of_lookup in Hv as [j Hj].
    destruct (Forall2_lookup_r _ _ _ _ _ He Hj) as ([d x] & Hdx & Hkv & Hc). exists x. split; [|done].
    rewrite Hkv. cbn [fst]. apply elem_of_map_to_list. rewrite <- (elem_of_order_by fst), <- Hl.
    apply list_elem_of_fmap. exists (d, x). split; [done|]. by eapply list_elem_of_lookup_2.
  - intros key Hno. destruct (changes !! key) as [x|] eqn:E; [|done]. exfalso. apply Hno. rewrite Hkeys.
    apply list_elem_of_fmap. exists (key, x). split; [done|]. by rewrite elem_of_order_by, elem_of_map_to_list.
  - rewrite Hkeys. rewrite order_by_perm. apply NoDup_fst_map_to_list.
Qed.

Lemma newest_foldr l : Forall (λ r, 0 ≤ r) l → newest l = foldr Z.max 0 l.
Proof.
  destruct l as [|r l]; intros Hl; [done|]. cbn [newest foldr].
  assert (Hf : ∀ a, 0 ≤ a → foldl Z.max a l = Z.max a (foldr Z.max 0 l)); [|apply Hf; by inv Hl].
  inversion Hl as [|? ? _ Hl']; subst. clear Hl. induction Hl' as [|x l Hx Hl IH]; intros a Ha; cbn; [lia|].
  rewrite IH by lia. lia.
Qed.

Lemma newest_is_max w :
  tables_ok w → newest (sr_rev <$> SELECT_ROWS (tables w)) = max_rev_of (settings_of (tables w)).
Proof.
  intros Hok. unfold SELECT_ROWS, max_rev_of. rewrite <- list_fmap_compose.
  change (sr_rev ∘ to_row) with (λ kr : string * SettingRec, sg_rev kr.2).
  rewrite newest_foldr.
  - apply (foldr_permutation_proper (=) Z.max 0); [intros; lia|].
    apply fmap_Permutation, order_by_perm.
  - apply Forall_fmap, Forall_forall. intros [k r] Hin.
    rewrite elem_of_order_by, elem_of_map_to_list in Hin. cbn. pose proof (to_revs _ Hok k r Hin). lia.
Qed.

Lemma moves_ok i rs next changes pairs p dest :
  moves_without_secrets i rs next changes pairs = Ok () → p ∈ pairs → changes !! uc_url p = Some dest →
  (∃ d, find (uc_url p) = Some d ∧ get d next = dest) ∨ missing_secrets i rs next changes p = [].
Proof.
  intros E Hp Hd. induction pairs as [|q pairs IH]; [by apply not_elem_of_nil in Hp|].
  cbn [moves_without_secrets] in E.
  assert (Hrest : p ∈ pairs → moves_without_secrets i rs next changes pairs = Ok () →
    (∃ d, find (uc_url p) = Some d ∧ get d next = dest) ∨ missing_secrets i rs next changes p = [])
    by (intros; by apply IH).
  apply elem_of_cons in Hp as [->|Hp].
  - rewrite Hd in E. destruct (find (uc_url q)) as [d|] eqn:Ef.
    + case_bool_decide as Eb; [by left; exists d|]. right.
      destruct (missing_secrets i rs next changes q); [done|discriminate].
    + right. destruct (missing_secrets i rs next changes q); [done|discriminate].
  - destruct (changes !! uc_url q) as [dest'|]; [|by apply Hrest].
    destruct (match find (uc_url q) with Some _ => _ | None => _ end); [by apply Hrest|].
    destruct (missing_secrets i rs next changes q); [by apply Hrest|discriminate].
Qed.

Lemma unconfirmed_none sent unsettled pairs p s :
  unconfirmed_in sent unsettled pairs = None → p ∈ pairs → s ∈ uc_secrets p → sent s = true →
  sent (uc_url p) = false → uc_url p ∉ unsettled.
Proof.
  intros E Hp Hs Hsent Hno Hin. induction pairs as [|q pairs IH]; [by apply not_elem_of_nil in Hp|].
  cbn [unconfirmed_in] in E. apply elem_of_cons in Hp as [->|Hp].
  - assert (Hk : has_key unsettled (uc_url q) = true).
    { apply existsb_exists. exists (uc_url q). split; [by apply list_elem_of_In|apply String.eqb_refl]. }
    rewrite Hk, Hno in E. cbn in E.
    assert (Hf : s ∈ List.filter sent (uc_secrets q)) by by apply elem_of_List_filter.
    destruct (List.filter sent (uc_secrets q)); [by apply not_elem_of_nil in Hf|discriminate].
  - destruct (_ && _); [|by apply IH]. destruct (List.filter _ _); [by apply IH|discriminate].
Qed.

Lemma settled_destination stored next running url s :
  sends url s → url ∉ unsettled_destinations stored next running →
  stored_elsewhere stored url (value_at url running) = false ∧ value_at url next = value_at url running.
Proof.
  intros Hs Hno. destruct (pair_dest _ _ Hs) as (d & Hf & _). destruct (find_spec _ _ Hf) as [Hk _].
  destruct Hs as (p & Hp & <- & _).
  destruct (stored_elsewhere stored (sd_key d) (get d running) || negb (bool_decide (get d next = get d running))) eqn:E.
  - exfalso. apply Hno. apply list_elem_of_omap. exists p. split; [done|]. rewrite Hf. cbv zeta. rewrite E. by rewrite Hk.
  - apply orb_false_iff in E as [E1 E2]. apply negb_false_iff, bool_decide_eq_true in E2.
    rewrite !value_at_get, Hk in *. done.
Qed.

Lemma unset_secret i d w s r x :
  rings_ok (in_keys i) → find s = Some d → sd_secret d = true → rows w !! s = Some r → holds s r x →
  stored_secret_is_set i d (to_row (s, r)) = false → is_empty x = true.
Proof.
  intros Hk Hf Hsec Hr (b & Hb & Hsl). destruct (find_spec _ _ Hf) as [Hkey _].
  unfold stored_secret_is_set. cbn [to_row sr_payload snd]. rewrite Hb.
  replace (match sg_json r with Some _ | _ => PEncrypted b end) with (PEncrypted b) by by destruct (sg_json r).
  destruct (in_keys i) as [k|]; [|done]. rewrite Hkey. destruct (decrypt k s b) as [plain|] eqn:Ed; [|done].
  rewrite (sealed_decrypt _ _ _ _ _ (Hk _ eq_refl) Hsl Ed), parse_print by apply Hsl.
  by intros ?%negb_false_iff.
Qed.

Section saved.
Context (w0 w : World) (i : Instance) (running : Config).
Context (changes : gmap string json_value) (expected : Z) (accepted : list (SettingDef * json_value)) (vs : list NewValue).
Let rs := SELECT_ROWS (tables w0).
Let next := ol_config (apply_overlay (in_base i) (to_stored <$> rs) (in_keys i) (bo_policy (in_opts i))).
Hypothesis Hok0 : tables_ok w0.
Hypothesis Hok : tables_ok w.
Hypothesis Hrely : rely w0 w.
Hypothesis Hinst : instance_ok w i.
Hypothesis Hlike : ∀ k, k ∈ pair_keys → value_at k running = value_at k (in_running i).
Hypothesis Hasked : (changes, in_running i) ∈ w_asked w.
Hypothesis Hwrites : writes changes vs.
Hypothesis Hchecks : save_checks i rs running expected changes accepted vs = Ok ().
Hypothesis Hmax : max_rev_of (settings_of (tables w)) = expected.

Lemma checks_same key :
  match rows w0 !! key, rows w !! key with
  | None, None => True
  | Some r, Some r' => same_row key r r'
  | _, _ => False
  end.
Proof.
  apply same_rows; [done|done|]. rewrite Hmax, <- newest_is_max by done. unfold save_checks in Hchecks.
  destruct (newest (sr_rev <$> rs) =? expected) eqn:E; [|done]. apply Z.eqb_eq in E. by symmetry.
Qed.

Lemma checks_moves : moves_without_secrets i rs next changes URL_CREDENTIALS = Ok ().
Proof.
  unfold save_checks in Hchecks. destruct (negb _); [done|]. cbv zeta in Hchecks. fold next in Hchecks.
  destruct (moves_without_secrets i rs next changes URL_CREDENTIALS) as [[]|]; done.
Qed.

Lemma checks_confirmed :
  unconfirmed_destination (λ k, is_some (changes !! k)) (unsettled_destinations (to_stored <$> rs) next running) = None.
Proof.
  unfold save_checks in Hchecks. destruct (negb _); [done|]. cbv zeta in Hchecks. fold next in Hchecks.
  destruct (moves_without_secrets _ _ _ _ _); [|done].
  by destruct (unconfirmed_destination _ _) as [[]|].
Qed.

(** The destination changes, a stored secret stays. *)
Lemma moved_pair url s d r x :
  sends url s → changes !! url = Some d → changes !! s = None →
  rows w !! s = Some r → holds s r x → allowed w url s x d.
Proof.
  intros Hs Hurl Hno Hr Hh. pose proof (checks_same s) as Hsame. rewrite Hr in Hsame.
  destruct (rows w0 !! s) as [r0|] eqn:Hr0; [|done]. destruct Hsame as (_ & _ & Hhh). apply Hhh in Hh.
  destruct Hinst as (Ht & Hk & Hb & _). pose proof Hs as (p & Hp & <- & Hsp).
  destruct (moves_ok _ _ _ _ _ _ _ checks_moves Hp Hurl) as [(du & Hf & Hn)|Hmiss].
  - destruct (find_spec _ _ Hf) as [Hkey _]. rewrite value_at_get, Hkey in Hn.
    destruct (overlay_pairs (in_base i) (to_stored <$> rs) (in_keys i) (bo_policy (in_opts i)) (uc_url p) s Ht Hs)
      as [Hbase|[(du' & row & Hf' & Hin & Hrk & Hd) _]].
    + right; left. exists (in_base i, in_keys i). split; [done|]. rewrite <- Hn. by symmetry.
    + fold next in Hd. rewrite Hn in Hd.
      destruct (decoded_dest _ _ _ _ _ _ _ Hok0 Hs Hf' Hin Hrk Hd) as (ru & Hru & Hj).
      eapply (allowed_later w0); [done|]. by eapply (to_pairs _ Hok0 (uc_url p) s ru r0).
  - left. destruct (pair_secret _ _ Hs) as (ds & Hfs & Hsec).
    destruct (stored_secret_is_set i ds (to_row (s, r0))) eqn:Eset.
    + exfalso. assert (Hin : s ∈ missing_secrets i rs next changes p); [|rewrite Hmiss in Hin; by apply not_elem_of_nil in Hin].
      apply elem_of_List_filter. split; [done|]. rewrite Hno, Hfs. cbn [is_some negb andb]. apply orb_true_iff. right.
      unfold rs. rewrite find_selected. change (rows_in (tables w0)) with (rows w0). by rewrite Hr0.
    + by eapply (unset_secret i ds w0 s r0).
Qed.

(** A secret changes, the stored destination stays. *)
Lemma confirmed_pair url s d r x :
  sends url s → changes !! s = Some x → changes !! url = None →
  rows w !! url = Some r → sg_json r = Some d → allowed w url s x d.
Proof.
  intros Hs Hx Hno Hr Hj. pose proof (checks_same url) as Hsame. rewrite Hr in Hsame.
  destruct (rows w0 !! url) as [r0|] eqn:Hr0; [|done]. destruct Hsame as (_ & Hj0 & _). rewrite Hj in Hj0.
  right; right. exists (changes, in_running i). split; [done|]. split; [done|]. right. split; [done|].
  pose proof Hs as (p & Hp & <- & Hsp).
  assert (Hset : uc_url p ∉ unsettled_destinations (to_stored <$> rs) next running).
  { eapply unconfirmed_none; [apply checks_confirmed|done|done| |]; cbn; [by rewrite Hx|by rewrite Hno]. }
  destruct (settled_destination _ _ _ _ _ Hs Hset) as [Hel _]. unfold stored_elsewhere, rs in Hel.
  rewrite find_stored in Hel. change (rows_in (tables w0)) with (rows w0) in Hel. rewrite Hr0 in Hel.
  cbn [fmap option_fmap option_map] in Hel. unfold to_stored in Hel.
  rewrite (dest_row _ _ _ _ _ Hok0 Hs Hr0 Hj0) in Hel. cbn in Hel.
  apply negb_false_iff, bool_decide_eq_true in Hel. rewrite Hel. symmetry. apply Hlike. by apply (sends_keys _ s).
Qed.

Lemma save_pairs : pairs_after w vs.
Proof.
  intros url s d x Hs [(v & Hv & <- & Hc)|[Hno (ru & Hru & Hj)]] [(v' & Hv' & <- & Hc')|[Hno' (r & Hr & Hh)]].
  - destruct (wr_sent _ _ Hwrites _ Hv) as (y & Hy & Hcy). rewrite (carries_fun _ _ _ Hc Hcy).
    destruct (wr_sent _ _ Hwrites _ Hv') as (y' & Hy' & Hcy'). rewrite (carries_fun _ _ _ Hc' Hcy').
    right; right. exists (changes, in_running i). split; [done|]. split; [done|by left].
  - destruct (wr_sent _ _ Hwrites _ Hv) as (y & Hy & Hcy). rewrite (carries_fun _ _ _ Hc Hcy).
    apply (moved_pair _ _ _ r); [done..|by apply (wr_rest _ _ Hwrites)|done|done].
  - destruct (wr_sent _ _ Hwrites _ Hv') as (y' & Hy' & Hcy'). rewrite (carries_fun _ _ _ Hc' Hcy').
    apply (confirmed_pair _ _ _ ru); [done..|by apply (wr_rest _ _ Hwrites)|done|done].
  - by eapply (to_pairs _ Hok url s ru r).
Qed.
End saved.

(** ** The operations *)

(** An instance that was read: it is there still, but for its live values. *)
Definition known (id : positive) (i : Instance) (w : World) : Prop :=
  instance_ok w i ∧ ∃ i', w_instances w !! id = Some i' ∧ like i i'.

#[local] Instance like_preorder : PreOrder like.
Proof.
  split.
  - intros i. by split_and!.
  - intros i1 i2 i3 (B1 & K1 & O1 & L1) (B2 & K2 & O2 & L2). split_and!; [congruence..|].
    intros k Hk. by rewrite L1, L2.
Qed.

Lemma known_later id i w w' : rely w w' → known id i w → known id i w'.
Proof.
  intros Hr (Hok & i1 & Hi1 & Hl). split; [by eapply instance_later|].
  destruct (re_instances _ _ Hr _ _ Hi1) as (i2 & Hi2 & Hl2). exists i2. split; [done|]. by etrans.
Qed.

Lemma runs_read id i w :
  known id i w → runs (λ o _, like i (default i o)) w (read_instance id).
Proof.
  intros Hk. apply alongside_atom. intros w1 Hr Hi. cbn [fst snd]. split_and!; [done|done|].
  intros _ _ _. destruct (known_later _ _ _ _ Hr Hk) as (_ & i' & Hi' & Hl). by rewrite Hi'.
Qed.

Lemma runs_with_instance id k (Q : Outcome → World → Prop) w :
  (∀ w', Q NoInstance w') → (∀ i w', known id i w' → runs Q w' (k i)) → runs Q w (with_instance id k).
Proof.
  intros Hno Hk. unfold with_instance.
  apply (runs_bind (λ o w', ∀ i, o = Some i → known id i w')).
  - apply alongside_atom. intros w1 Hr Hi. cbn [fst snd]. split_and!; [done|done|]. intros w2 Hr2 _ i E.
    eapply known_later; [exact Hr2|]. split; [by eapply Hi|]. exists i. split; [done|reflexivity].
  - intros [i|] w1 _ _ H1w; [|by apply runs_done]. apply Hk. by apply H1w.
Qed.

Lemma runs_asked values running w :
  runs (λ _ w', (values, running) ∈ w_asked w') w (note_asked values running).
Proof.
  apply alongside_atom. intros w1 Hr Hi. cbn [fst snd]. destruct (noted w1
    {| w_db := w_db w1; w_instances := w_instances w1; w_boots := w_boots w1;
       w_asked := w_asked w1 ++ [(values, running)] |}) as [Hr1 Hi1]; [done|done|done|done|by apply prefix_app_r|].
  split_and!; [done|done|]. intros w2 [_ _ [l ->] _] _. cbn. set_solver.
Qed.

Lemma asked_later w w' a : rely w w' → a ∈ w_asked w → a ∈ w_asked w'.
Proof. intros [_ _ [l ->] _] Ha. apply elem_of_app. by left. Qed.

Lemma runs_write w0 i running changes expected accepted vs actor w :
  tables_ok w0 → rely w0 w → instance_ok w i →
  (∀ k, k ∈ pair_keys → value_at k running = value_at k (in_running i)) →
  (changes, in_running i) ∈ w_asked w → writes changes vs →
  save_checks i (SELECT_ROWS (tables w0)) running expected changes accepted vs = Ok () →
  runs (λ _ _, True) w (db_call (write vs expected actor)).
Proof.
  intros Hok0 Hr0 Hi Hl Ha Hw Hc. apply runs_db. intros w1 Hr [Hok _]. split; [|done].
  destruct (write_effect vs expected actor (w_db w1)) as [Hq|[Hmax Hp]].
  { apply quiet_ok; [done|]. by rewrite Hq. }
  eapply puts_ok; [done|exact Hp|apply Hw| |].
  - intros v Hv. destruct (wr_sent _ _ Hw _ Hv) as (x & _ & Hx). eauto.
  - eapply (save_pairs w0 w1 i running); [done|done|by etrans|by eapply instance_later|done
      |by eapply asked_later|done|exact Hc|exact Hmax].
Qed.

Lemma runs_save id i nonce now changes expected actor w :
  nonces_ok nonce → known id i w →
  runs (λ _ _, True) w (save id i nonce now changes expected actor).
Proof.
  intros Hn Hi. unfold save. eapply runs_bind; [apply runs_asked|]. intros [] w1 Hr1 _ Ha. cbn beta in Ha.
  destruct (accept _ _ _) as [accepted|] eqn:Eacc; [|by apply runs_done].
  destruct (encode_all _ _ _) as [vs|] eqn:Eenc; [|by apply runs_done].
  eapply known_later in Hi; [|exact Hr1]. pose proof Hi as [(_ & Hkeys & _) _].
  assert (Hw : writes changes vs) by by eapply accepted_writes.
  eapply (runs_try snapshot); [|done|].
  { apply runs_err; [apply runs_load_all|]. intros; by eapply snapshot_later. }
  intros rs w2 Hr2 _ Hsnap. eapply known_later in Hi; [|exact Hr2].
  eapply runs_bind; [by apply (runs_read id i)|]. intros current w3 Hr3 _ Hcur. cbn beta zeta.
  set (running := match current with Some c => in_running c | None => in_running i end).
  assert (Hrun : ∀ k, k ∈ pair_keys → value_at k running = value_at k (in_running i)).
  { intros k Hk. destruct Hcur as (_ & _ & _ & Hv). unfold running. rewrite (Hv k Hk). by destruct current. }
  destruct (save_checks _ _ _ _ _ _ _) as [[]|] eqn:Ec; [|by apply runs_done].
  destruct Hsnap as (w0 & Hok0 & Hr0 & ->). eapply known_later in Hi; [|exact Hr3].
  apply (runs_try (λ _ _, True)); [|done|].
  - eapply runs_bind; [eapply (runs_write w0 i running); [done|by etrans|apply Hi|done| |done|exact Ec]|].
    + exact (asked_later _ _ _ Hr3 (asked_later _ _ _ Hr2 Ha)).
    + intros [a|e] w4 _ _ _; by apply runs_done.
  - intros rev w4 _ _ _. eapply runs_bind; [apply runs_reload|]. intros. by apply runs_done.
Qed.

Lemma runs_schedule id now after w : runs (λ _ _, True) w (schedule_restart id now after).
Proof.
  apply alongside_atom. intros w1 Hr Hi.
  destruct (w_instances w1 !! id) as [i|] eqn:E; [|by split_and!].
  destruct (in_restart_at i); [by split_and!|]. cbn [fst snd].
  match goal with |- rely _ (set_instances ?m _) ∧ _ =>
    assert (Hs : rely w1 (set_instances m w1) ∧ inv (set_instances m w1)); [|destruct Hs; by split_and!] end.
  apply instances_step; [done|..].
  - intros id' i' Hid. destruct (decide (id = id')) as [<-|Hne].
    + assert (i = i') as <- by congruence. eexists. split; [apply lookup_insert_eq|]. by split_and!.
    + exists i'. split; [by rewrite lookup_insert_ne|reflexivity].
  - intros id' i' Hid. apply lookup_insert_Some in Hid as [[<- <-]|[_ Hid]]; [|by eapply Hi].
    eapply (like_ok w1 i); [by split_and!|by eapply Hi].
Qed.

Lemma runs_apply id i now later_ actor w : runs (λ _ _, True) w (apply_restart id i now later_ actor).
Proof.
  unfold apply_restart. destruct (bo_break_glass _); [by apply runs_done|].
  apply (runs_try (λ _ _, True)); [|done|].
  { eapply runs_bind; [apply runs_load_stored|]. intros [a|e] w1 _ _ _; by apply runs_done. }
  intros stored w1 _ _ _. destruct (ol_problems _); [|by apply runs_done].
  apply (runs_try (λ _ _, True)); [|done|].
  { apply (runs_bind (λ _ _, True)); [|intros [a|e] w2 _ _ _; by apply runs_done].
    apply runs_db. intros w2 _ [Hok _]. split; [|done]. apply quiet_ok; [done|]. apply request_restart_effect. }
  intros requested w2 _ _ _. destruct (_ <? _); [|by apply runs_done].
  eapply runs_bind; [apply runs_schedule|]. intros. by apply runs_done.
Qed.

Lemma runs_poll id i now jitter w : known id i w → runs (λ _ _, True) w (poll_once id i now jitter).
Proof.
  intros Hi. unfold poll_once. apply (runs_try (λ _ _, True)); [by apply runs_reading|done|].
  intros rev w1 Hr1 _ _. eapply known_later in Hi; [|exact Hr1].
  eapply runs_bind; [by apply (runs_read id i)|]. intros current w2 Hr2 _ _.
  eapply known_later in Hi; [|exact Hr2].
  apply (runs_try (λ _ _, True)); [destruct (_ <? _); [apply runs_reload|by apply runs_done]|done|].
  intros _ w3 Hr3 _ _. eapply known_later in Hi; [|exact Hr3].
  destruct (bo_break_glass _); [by apply runs_done|].
  apply (runs_try (λ _ _, True)); [by apply runs_reading|done|]. intros m w4 Hr4 _ _.
  eapply known_later in Hi; [|exact Hr4].
  eapply runs_bind; [by apply (runs_read id i)|]. intros current' w5 _ _ _.
  destruct (in_restart_at _); [by apply runs_done|]. destruct (_ <? _); [|by apply runs_done].
  eapply runs_bind; [apply runs_schedule|]. intros. by apply runs_done.
Qed.

Lemma runs_view id i demo w : known id i w → runs (λ _ _, True) w (view id i demo).
Proof.
  intros Hi. eapply runs_try; [apply runs_load_all|done|]. intros rs w1 Hr1 _ _.
  eapply runs_bind; [apply (runs_read id i); by eapply known_later|]. intros. by apply runs_done.
Qed.

(** ** Connection tests *)
Lemma form_values_ok l c cfg :
  form_values l c = Ok cfg → NoDup (fst <$> l) → ∀ k, k ∈ pair_keys →
  (∀ v, (k, v) ∈ l → value_at k cfg = v) ∧ (k ∉ fst <$> l → value_at k cfg = value_at k c).
Proof.
  intros E Hnd k Hk. revert c E. induction l as [|[key v] l IH]; intros c E; cbn [form_values] in E.
  { injection E as <-. split; [intros v Hv; by apply not_elem_of_nil in Hv|done]. }
  cbn in Hnd. apply NoDup_cons in Hnd as [Hkey Hnd].
  destruct (find key) as [d|] eqn:Hf; [|done]. destruct (negb (editable d)); [done|].
  destruct (validate_setting d v); [|done]. destruct (set d c v) as [c'|] eqn:Es; [|done].
  destruct (find_spec _ _ Hf) as [Hdk Hd]. destruct (IH Hnd c' E) as [Hin Hout]. split.
  - intros v' [[= -> ->]|Hv']%elem_of_cons; [|by apply Hin]. rewrite (Hout Hkey), <- Hdk.
    eapply set_value_at; [done|exact Es|by rewrite Hdk].
  - cbn. intros [Hne Hno]%not_elem_of_cons. rewrite (Hout Hno). apply set_typed in Es as [fv ->].
    unfold value_at. rewrite lookup_insert_ne; [done|]. by rewrite Hdk.
Qed.

Lemma form_moves_ok base form pairs p v d :
  form_moves base form pairs = Ok () → p ∈ pairs → form !! uc_url p = Some v → find (uc_url p) = Some d →
  v = get d base ∨
  ∀ s ds, s ∈ uc_secrets p → form !! s = None → find s = Some ds → is_empty (get ds base) = true.
Proof.
  intros E Hp Hv Hf. induction pairs as [|q pairs IH]; [by apply not_elem_of_nil in Hp|].
  cbn [form_moves] in E. apply elem_of_cons in Hp as [->|Hp].
  - rewrite Hv, Hf in E. case_bool_decide as Eb; [by left|right]. intros s ds Hs Hno Hfs.
    destruct (is_empty (get ds base)) eqn:Ee; [done|exfalso].
    destruct (List.filter _ _) as [|x xs] eqn:Efil; [|discriminate].
    assert (Hin : s ∈ List.filter (λ s, negb (is_some (form !! s)) &&
      match find s with Some d => negb (is_empty (get d base)) | None => false end) (uc_secrets q)).
    { apply elem_of_List_filter. split; [done|]. by rewrite Hno, Hfs, Ee. }
    rewrite Efil in Hin. by apply not_elem_of_nil in Hin.
  - destruct (form !! uc_url q) as [v'|]; [|by apply IH]. destruct (find (uc_url q)) as [d'|]; [|by apply IH].
    case_bool_decide; [by apply IH|]. destruct (List.filter _ _); [by apply IH|discriminate].
Qed.

Lemma candidate_safe w stored next running (i : Instance) form cfg :
  safe_config w next → (∀ k, k ∈ pair_keys → value_at k running = value_at k (in_running i)) →
  (form, in_running i) ∈ w_asked w →
  candidate next (unsettled_destinations stored next running) form = Ok cfg → safe_config w cfg.
Proof.
  intros Hnext Hrun Ha Hc url s Hs. unfold candidate in Hc.
  destruct (form_values _ _) as [cfg'|] eqn:Efv; [|done].
  destruct (unconfirmed_destination _ _) as [[]|] eqn:Eun; [done|].
  destruct (form_moves _ _ _) as [[]|] eqn:Emv; [|done]. injection Hc as ->.
  assert (Hkey : ∀ k, k ∈ pair_keys → match form !! k with
    | Some v => value_at k cfg = v | None => value_at k cfg = value_at k next end).
  { intros k Hk. destruct (form_values_ok _ _ _ Efv) with (k := k) as [Hin Hout]; [|done|].
    - rewrite order_by_perm. apply NoDup_fst_map_to_list.
    - destruct (form !! k) as [v|] eqn:Ek.
      + apply Hin. by rewrite elem_of_order_by, elem_of_map_to_list.
      + apply Hout. rewrite order_by_perm. intros ([k' v] & -> & Hkv)%list_elem_of_fmap.
        apply elem_of_map_to_list in Hkv. cbn in Ek. congruence. }
  destruct (sends_keys _ _ Hs) as [Hku Hks]. pose proof (Hkey _ Hku) as Hu. pose proof (Hkey _ Hks) as Hsec.
  pose proof (Hnext url s Hs) as Hn. pose proof Hs as (p & Hp & <- & Hsp).
  destruct (form !! uc_url p) as [v|] eqn:Efu; destruct (form !! s) as [x|] eqn:Efs; rewrite Hsec, Hu.
  - right; right. exists (form, in_running i). split; [done|]. split; [done|by left].
  - destruct (pair_dest _ _ Hs) as (du & Hfu & _). destruct (pair_secret _ _ Hs) as (ds & Hfs & _).
    destruct (find_spec _ _ Hfu) as [Hdu _]. destruct (find_spec _ _ Hfs) as [Hds _].
    destruct (form_moves_ok _ _ _ _ _ _ Emv Hp Efu Hfu) as [->|Hmiss].
    + rewrite value_at_get, Hdu. exact Hn.
    + left. rewrite <- Hds, <- value_at_get. by eapply Hmiss.
  - right; right. exists (form, in_running i). split; [done|]. split; [done|]. right. split; [done|].
    cbn [snd]. rewrite <- (Hrun _ Hku). symmetry.
    apply (settled_destination stored next running (uc_url p) s Hs).
    eapply unconfirmed_none; [exact Eun|done|done|cbn; by rewrite Efs|cbn; by rewrite Efu].
  - exact Hn.
Qed.

Definition safe_test (r : result (result Config string) db_error) (w : World) : Prop :=
  match r with Ok (Ok cfg) => safe_config w cfg | _ => True end.

Lemma runs_test id i form w : known id i w → runs safe_test w (test_connection id i form).
Proof.
  intros Hi. unfold test_connection. eapply runs_bind; [apply runs_asked|]. intros [] w1 Hr1 _ Ha. cbn beta in Ha.
  eapply known_later in Hi; [|exact Hr1]. unfold next_run, prog_try at 1.
  apply (runs_try (λ nu w', ∃ stored next running, nu = (next, unsettled_destinations stored next running) ∧
    safe_config w' next ∧ ∀ k, k ∈ pair_keys → value_at k running = value_at k (in_running i))); [|done|].
  - eapply runs_try; [apply runs_load_stored|done|]. intros stored w2 Hr2 _ Hst.
    eapply known_later in Hi; [|exact Hr2]. pose proof Hi as [(Ht & Hk & Hb & _) _].
    pose proof (overlay_safe _ _ (bo_policy (in_opts i)) _ _ Ht Hk Hb Hst) as Hsafe. cbn beta zeta.
    eapply runs_bind; [by apply (runs_read id i)|]. intros current w3 Hr3 _ (_ & _ & _ & Hv).
    apply runs_done. intros w4 Hr4 _. do 3 eexists. split; [done|]. split.
    + eapply safe_later; [exact Hr4|]. by eapply safe_later.
    + intros k Hk'. by rewrite <- (Hv k Hk').
  - intros nu w2 Hr2 _ (stored & next & running & -> & Hsafe & Hrun). apply runs_done. intros w3 Hr3 _. cbn [fst snd].
    unfold safe_test. destruct (candidate _ _ _) as [cfg|] eqn:Ec; [|done].
    eapply candidate_safe; [by eapply safe_later|exact Hrun| |exact Ec].
    eapply asked_later; [exact Hr3|]. by eapply asked_later.
Qed.

(** ** Every history *)
Definition op_ok (op : Operation) : Prop :=
  match op with
  | OpBoot import again base keys _ =>
      config_typed base ∧ rings_ok keys ∧ nonces_ok import ∧ nonces_ok again
  | OpSave _ nonce _ _ _ _ => nonces_ok nonce
  | _ => True
  end.

Definition safe_outcome (o : Outcome) (w : World) : Prop :=
  match o with Tested r => safe_test r w | _ => True end.

Lemma runs_program op w : op_ok op → runs safe_outcome w (program op).
Proof.
  intros Hop. destruct op as [import again base keys opts|id nonce now changes rev actor|id now jitter
    |id now later_ actor|id form|id demo]; cbn [program].
  - destruct Hop as (Ht & Hk & Hn & Hn'). eapply runs_bind; [by apply runs_boot|]. intros. by apply runs_done.
  - apply runs_with_instance; [done|]. intros i w1 Hi. eapply runs_bind; [by apply runs_save|].
    intros. by apply runs_done.
  - apply runs_with_instance; [done|]. intros i w1 Hi. eapply runs_bind; [by apply runs_poll|].
    intros. by apply runs_done.
  - apply runs_with_instance; [done|]. intros i w1 Hi. eapply runs_bind; [by apply runs_apply|].
    intros. by apply runs_done.
  - apply runs_with_instance; [done|]. intros i w1 Hi. eapply runs_bind; [by apply runs_test|].
    intros r w2 _ _ Hr. apply runs_done. intros w3 Hr3 _. cbn. destruct r as [[cfg|]|]; cbn in *; [|done..].
    by eapply safe_later.
  - apply runs_with_instance; [done|]. intros i w1 Hi. eapply runs_bind; [by apply runs_view|].
    intros. by apply runs_done.
Qed.

(** A new installation: nothing stored, nothing started. *)
Definition new_installation (w : World) : Prop :=
  rows w = ∅ ∧ 1 ≤ seq_in (tables w) ∧ w_instances w = ∅.

Lemma new_installation_inv w : new_installation w → inv w.
Proof.
  intros (Hr & Hs & Hi). split; [|rewrite Hi; intros id i Hid; by rewrite lookup_empty in Hid].
  split; rewrite ?Hr; [done|..].
  - intros key r Hk. by rewrite lookup_empty in Hk.
  - intros key r Hk. by rewrite lookup_empty in Hk.
  - intros url s ru rs d v _ Hk. by rewrite lookup_empty in Hk.
Qed.

(** C14. Whatever boots, saves, polls, restarts, tests and views run on one database, their
    calls interleaved in any order and failing anywhere, from a new installation on: in what
    every instance runs, and in what every connection test probes with, each secret that goes
    to a host is empty, or the file or environment of a started instance names that host, or
    an operator sent that very secret, with the host in the same request or while the
    instance asked was running with it. *)
Theorem secrets_reach_only_confirmed_hosts w ops sched :
  new_installation w → Forall op_ok ops →
  let '(ts, w') := run_sched sched (program <$> ops) w in
  (∀ id i, w_instances w' !! id = Some i → safe_config w' (in_running i)) ∧
  (∀ n cfg, ts !! n = Some (Done (Tested (Ok (Ok cfg)))) → safe_config w' cfg).
Proof.
  intros Hw Hops. destruct (run_sched_alongside rely inv (λ _, safe_outcome) sched (program <$> ops) w)
    as (_ & [_ Hi] & Hq); [by apply new_installation_inv|..].
  - intros n p Hp. rewrite list_lookup_fmap in Hp. destruct (ops !! n) as [op|] eqn:Eo; [|done].
    injection Hp as <-. apply runs_program. rewrite Forall_forall in Hops. by eapply Hops, list_elem_of_lookup_2.
  - destruct (run_sched sched (program <$> ops) w) as [ts w']. cbn [fst snd] in *. split.
    + intros id i Hid. apply (Hi id i Hid).
    + intros n cfg Hn. by apply (Hq n _ Hn).
Qed.
End history.

(** ** An example: a bucket and its keys are saved, and a restart runs with them *)
#[local] Transparent find registry type_of config_fields URL_CREDENTIALS.

Module SettingsDemo.
Definition a_url (s : string) : result ParsedUrl string :=
  if String.eqb (String.substring 0 8 s) "https://" then
    Ok {| pu_url := {| url_scheme := "https"; url_host := Some s; url_port_or_known_default := Some 443;
                       url_username := ""; url_password := None |};
          pu_path := "/"; pu_query := None; pu_fragment := None |}
  else Err "no scheme".

#[export] Instance lib : Lib := {|
  parse_url := a_url; json_of_f64 _ := "0.0"; f64_of_json _ := None; show_f64 _ := "0.0";
  print_json v := match v with JStr s => String "'"%char s | _ => "null" end;
  parse_json s := match s with
    | String "'"%char s => Some (JStr s)
    | _ => if String.eqb s "null" then Some JNull else None
    end |}.

#[export] Instance lib_laws : LibLaws.
Proof. split. intros v [-> | [s ->]]; reflexivity. Qed.

(** No secrecy: the text and sixteen more bytes. *)
Definition tag : string := "0123456789abcdef".
#[export] Instance cipher : Cipher := {|
  seal _ _ _ msg := msg +:+ tag;
  open_ _ _ _ ct := Some (String.substring 0 (String.length ct - TAG_LEN) ct);
  sha256 _ := tag +:+ tag; hex_encode s := s; hex_decode s := Some s; base64_decode s := Some s |}.

#[export] Instance cipher_laws : CipherLaws.
Proof.
  split.
  - intros key nonce aad msg. unfold open_, seal, cipher. f_equal.
    rewrite string_length_app. replace (_ + _ - _)%nat with (String.length msg) by (cbn; unfold TAG_LEN; lia).
    apply substring_prefix.
  - intros key nonce aad msg. unfold seal, cipher. by rewrite string_length_app.
  - done.
Qed.

#[export] Instance jsonb_ : Jsonb := {| jsonb v := Some v |}.
#[export] Instance jsonb_laws : JsonbLaws.
Proof. split; [done|]. intros s v. cbn. congruence. Qed.

Definition key : Key := {| k_id := "key00001"; k_bytes := "k" |}.
Definition ring : KeyRing := {| kr_current := key; kr_previous := None |}.
Definition nonce (_ : string) : string := "000000000000".
Definition opts : BootOptions := {| bo_break_glass := false; bo_env_probe _ := false; bo_restart_delay := 0;
  bo_restart_jitter_max := 0; bo_policy := {| bp_release_build := true; bp_allow_mock := false |};
  bo_key_error := None |}.
Definition world : World := {|
  w_db := healthy no_tables 0; w_instances := ∅; w_boots := []; w_asked := [] |}.
Definition changes : gmap string json_value := {[ "storage.s3.endpoint" := JStr "https://s3.example";
  "storage.s3.access_key" := JStr "A"; "storage.s3.secret_key" := JStr "S" ]}.
Definition boot_op : Operation := OpBoot nonce nonce default_of_config (Some ring) opts.
(** The import of the first boot leaves revision 46. *)
Definition ops : list Operation := [boot_op; OpSave 1 nonce 0 changes 46 "admin"; boot_op; OpTest 2 ∅].
Definition sched : list nat := replicate 30 0%nat ++ replicate 30 1%nat ++ replicate 30 2%nat ++ replicate 30 3%nat.
Definition final := run_sched sched (program <$> ops) world.
Definition tested : option (json_value * json_value) :=
  match final.1 !! 3%nat with
  | Some (Done (Tested (Ok (Ok c)))) => Some (value_at "storage.s3.secret_key" c, value_at "storage.s3.endpoint" c)
  | _ => None
  end.
End SettingsDemo.
Import SettingsDemo.

Lemma secrets_reach_only_confirmed_hosts_witness :
  SettingsDemo.tested = Some (JStr "S", JStr "https://s3.example") ∧
  let '(ts, w') := run_sched SettingsDemo.sched (program <$> SettingsDemo.ops) SettingsDemo.world in
  (∀ id i, w_instances w' !! id = Some i → safe_config w' (in_running i)) ∧
  (∀ n cfg, ts !! n = Some (Done (Tested (Ok (Ok cfg)))) → safe_config w' cfg).
Proof.
  split; [vm_compute; reflexivity|].
  apply (secrets_reach_only_confirmed_hosts [SettingsDemo.key]).
  - intros k ->%list_elem_of_singleton. reflexivity.
  - intros k k' ->%list_elem_of_singleton ->%list_elem_of_singleton _. reflexivity.
  - split; [reflexivity|]. split; [vm_compute; discriminate|reflexivity].
  - assert (Hk : rings_ok [SettingsDemo.key] (Some SettingsDemo.ring)).
    { intros k [= <-]. split; [apply list_elem_of_singleton; reflexivity|]. discriminate. }
    assert (Hb : op_ok [SettingsDemo.key] SettingsDemo.boot_op).
    { split; [apply default_config_typed|]. split; [exact Hk|]. split; intros n; reflexivity. }
    constructor; [exact Hb|]. constructor; [intros n; reflexivity|]. constructor; [exact Hb|].
    constructor; [exact I|constructor].
Defined.
