(* ===== verification/SettingsApi.v ===== *)
(** * SettingsApi: the endpoints of the settings dashboard

    [mm-api/src/admin_settings.rs] and the probes of [mm-api/src/settings_checks.rs], on top of
    the service. The HTTP client of the probes and the object store (the trait [MediaStorage])
    are classes; every call of them is bounded by a timeout. Log lines are left out. *)
From Stdlib Require Import Ascii.
From S2P Require Import Prelude F64 FleetTypes Ladder ApiSchema Schema Errors Json Text Guards.
From S2P Require Import Config Settings SettingsOverlay SettingsDb Interleave SettingsService.
From S2P Require Import MatrixClient Auth.
Local Open Scope Z_scope.
Local Open Scope mm_scope.

(** ** Probes *)
Module Check.
Inductive t : Type := S3 | Stripe | Lnbits | Livekit | Homeserver.
End Check.

Record CheckResult : Type := { ck_ok : bool; ck_detail : string }.
Definition check_ok (detail : string) : CheckResult := {| ck_ok := true; ck_detail := detail |}.
Definition check_fail (detail : string) : CheckResult := {| ck_ok := false; ck_detail := detail |}.

(** A call under [tokio::time::timeout], or with the client's timeout. *)
Inductive timed (A : Type) : Type :=
  | InTime (a : A)
  | TimedOut.
Arguments InTime {A} a.
Arguments TimedOut {A}.

Record ProbeRequest : Type := { pq_url : string; pq_headers : list (string * string) }.

(** The status, and what reading the body as JSON gives. *)
Record ProbeAnswer : Type := { pa_status : Z; pa_json : option json_value }.

Class Probes (S : Type) : Type := {
  probe_client : bool;                      (** whether the client could be built *)
  probe_get : ProbeRequest → st S (timed (result ProbeAnswer string));
  s3_feature : bool;
  s3_new : Config → st S (timed (result () string));
  s3_put : Config → string → st S (timed (result () string));
  s3_exists : Config → string → st S (timed (result bool string));
  s3_delete : Config → string → st S (timed (result () string));
  probe_uuid : st S string
}.

Definition TIMED_OUT : string := "timed out after 5 s".
Definition CLIENT_UNAVAILABLE : string :=
  "the settings-check HTTP client could not be created; see the server log".

Definition status_success (s : Z) : bool := (200 <=? s) && (s <? 300).
Definition status_redirect (s : Z) : bool := (300 <=? s) && (s <? 400).

Definition unreachable (e : timed string) : CheckResult :=
  match e with TimedOut => check_fail TIMED_OUT | InTime e => check_fail ("could not connect: " +:+ e) end.

Definition redirected (status : Z) : CheckResult :=
  check_fail ("answered HTTP " +:+ pretty status +:+ " (redirect) — enter the final URL").

Section probes.
Context {S : Type} `{!Probes S}.

(** One GET; [judge] gives the verdict of an answer. *)
Definition probe (req : ProbeRequest) (judge : ProbeAnswer → CheckResult) : st S CheckResult :=
  let! r := probe_get req in
  match r with
  | InTime (Ok a) => st_ret (judge a)
  | InTime (Err e) => st_ret (unreachable (InTime e))
  | TimedOut => st_ret (unreachable TimedOut)
  end.

Definition under (base path : string) : string := trim_end_char "/"%char base +:+ path.

Definition homeserver (cfg : Config) : st S CheckResult :=
  if negb probe_client then st_ret (check_fail CLIENT_UNAVAILABLE)
  else probe {| pq_url := under (cfg_text "matrix.homeserver_url" cfg) "/_matrix/client/versions"; pq_headers := [] |}
    (λ a, if status_success (pa_status a) then
            match pa_json a ≫= jget "versions" with
            | Some (JArr l) => check_ok ("Matrix client API reachable (" +:+ pretty (Z.of_nat (length l)) +:+ " spec versions)")
            | _ => check_fail "reachable, but this is not a Matrix homeserver"
            end
          else if status_redirect (pa_status a) then redirected (pa_status a)
          else check_fail ("homeserver answered HTTP " +:+ pretty (pa_status a))).

Definition livekit (cfg : Config) : st S CheckResult :=
  match cfg_opt "sfu.livekit_url" cfg with
  | None | Some EmptyString => st_ret (check_fail "sfu.livekit_url is not set")
  | Some url =>
      if negb probe_client then st_ret (check_fail CLIENT_UNAVAILABLE)
      else probe {| pq_url := url; pq_headers := [] |}
        (λ a, if status_success (pa_status a) then check_ok "LiveKit reachable"
              else if status_redirect (pa_status a) then redirected (pa_status a)
              else check_fail ("LiveKit answered HTTP " +:+ pretty (pa_status a)))
  end.

Definition stripe (cfg : Config) : st S CheckResult :=
  let key := cfg_text "monetization.stripe_secret_key" cfg in
  if is_empty_str key then st_ret (check_fail "monetization.stripe_secret_key is not set")
  else if negb probe_client then st_ret (check_fail CLIENT_UNAVAILABLE)
  else probe {| pq_url := under (cfg_text "monetization.stripe_api_base" cfg) "/v1/account";
                pq_headers := [("authorization", "Bearer " +:+ key)] |}
    (λ a, if status_success (pa_status a) then check_ok "Stripe accepted the secret key"
          else if pa_status a =? 401 then check_fail "Stripe rejected the secret key"
          else if status_redirect (pa_status a) then redirected (pa_status a)
          else check_fail ("Stripe answered HTTP " +:+ pretty (pa_status a))).

Definition lnbits (cfg : Config) : st S CheckResult :=
  let url := cfg_text "monetization.lnbits_url" cfg in
  if is_empty_str url then st_ret (check_fail "monetization.lnbits_url is not set")
  else if negb probe_client then st_ret (check_fail CLIENT_UNAVAILABLE)
  else probe {| pq_url := under url "/api/v1/wallet";
                pq_headers := [("X-Api-Key", cfg_text "monetization.lnbits_invoice_key" cfg)] |}
    (λ a, if status_success (pa_status a) then check_ok "LNbits accepted the invoice key"
          else if (pa_status a =? 401) || (pa_status a =? 403) then check_fail "LNbits rejected the invoice key"
          else if status_redirect (pa_status a) then redirected (pa_status a)
          else check_fail ("LNbits answered HTTP " +:+ pretty (pa_status a))).

(** Writes an object, looks for it and deletes it; a put that timed out may have landed. *)
Definition s3 (cfg : Config) : st S CheckResult :=
  if negb s3_feature
  then st_ret (check_fail "this build has no S3 support (build mm-server with --features s3)")
  else
  let! store := s3_new cfg in
  match store with
  | TimedOut => st_ret (check_fail TIMED_OUT)
  | InTime (Err e) => st_ret (check_fail ("S3 client: " +:+ e))
  | InTime (Ok _) =>
      let! id := probe_uuid in
      let key := "mm-settings-probe/" +:+ id in
      let! written := s3_put cfg key in
      match written with
      | InTime (Err e) => st_ret (check_fail ("write failed: " +:+ e))
      | TimedOut => let! _ := s3_delete cfg key in st_ret (check_fail TIMED_OUT)
      | InTime (Ok _) =>
          let! found := s3_exists cfg key in
          let! deleted := s3_delete cfg key in
          st_ret (match found with
            | TimedOut => check_fail TIMED_OUT
            | InTime (Err e) => check_fail ("probe failed: " +:+ e)
            | InTime (Ok false) => check_fail "wrote a probe object but could not find it"
            | InTime (Ok true) =>
                match deleted with
                | InTime (Ok _) => check_ok ("wrote, found and deleted a probe object in bucket " +:+
                    cfg_text "storage.s3.bucket" cfg)
                | InTime (Err e) => check_fail ("probe failed: " +:+ e)
                | TimedOut => check_fail TIMED_OUT
                end
            end)
      end
  end.

Definition run_check (check : Check.t) (cfg : Config) : st S CheckResult :=
  match check with
  | Check.Homeserver => homeserver cfg
  | Check.Livekit => livekit cfg
  | Check.Stripe => stripe cfg
  | Check.Lnbits => lnbits cfg
  | Check.S3 => s3 cfg
  end.
End probes.

(** ** Answers *)
Inductive SettingsApiError : Type :=
  | ApiForbidden
  | ApiBadRequest (m : string)
  | ApiReadOnly (m : string)
  | ApiNoKey (m : string)
  | ApiInvalid (ps : list Problem)
  | ApplyRefused (ps : list Problem)
  | ApplyBlocked (m : string)
  | ApiConflict (current : option SettingsView)
  | Lockout (m : string)
  | ReenterSecrets (m : string)
  | ApiInternal.

(** What the body of an error carries beside the code and the message. *)
Inductive Extra : Type :=
  | NoExtra
  | WithProblems (ps : list Problem)
  | WithCurrent (v : option SettingsView).

Definition into_response (e : SettingsApiError) : Z * string * string * Extra :=
  match e with
  | ApiForbidden => (403, "MM_FORBIDDEN", "admin access required", NoExtra)
  | ApiBadRequest m => (400, "MM_INVALID_REQUEST", m, NoExtra)
  | ApiReadOnly m => (400, "MM_SETTINGS_READ_ONLY", m, NoExtra)
  | ApiNoKey m => (400, "MM_SETTINGS_NO_KEY", m, NoExtra)
  | ApiInvalid ps => (422, "MM_SETTINGS_INVALID", "some values were rejected", WithProblems ps)
  | ApplyRefused ps => (409, "MM_SETTINGS_INVALID", "not restarted: stored settings are invalid", WithProblems ps)
  | ApplyBlocked m => (409, "MM_SETTINGS_INVALID", "not restarted: " +:+ m,
      WithProblems [{| pb_key := "*"; pb_reason := m |}])
  | ApiConflict v => (409, "MM_SETTINGS_CONFLICT", "settings changed since you loaded them", WithCurrent v)
  | Lockout m => (409, "MM_SETTINGS_LOCKOUT", m, NoExtra)
  | ReenterSecrets m => (409, "MM_SETTINGS_REENTER_SECRETS", m, NoExtra)
  | ApiInternal => (500, "MM_INTERNAL", "settings store unavailable", NoExtra)
  end.

Definition internal (_ : db_error) : SettingsApiError := ApiInternal.

Definition require_admin_role (a : AdminAuth) : result () SettingsApiError :=
  match aa_role a with AdminRole_Admin => Ok () | AdminRole_Demo => Err ApiForbidden end.

Definition BREAK_GLASS_APPLY_REFUSED : string :=
  "MM_SETTINGS_SAFE_MODE is set: a restart would still ignore dashboard settings; remove it and recreate mm-core".

Definition of_patch_error (e : PatchError) : SettingsApiError :=
  match e with
  | Unknown k => ApiBadRequest ("unknown setting " +:+ k)
  | ReadOnly m => ApiReadOnly m
  | NoKey m => ApiNoKey m
  | NeedsCredentials m => ReenterSecrets m
  | InvalidValues ps => ApiInvalid ps
  | RevConflict _ => ApiConflict None
  | BreakGlass => ApplyBlocked BREAK_GLASS_APPLY_REFUSED
  | PatchDb e => internal e
  end.

Definition unknown_check : string :=
  "unknown check; expected one of s3, stripe, lnbits, livekit, homeserver".

(** ** Handlers *)
Record PatchBody : Type := {
  pbd_changes : gmap string json_value;
  pbd_expected_rev : Z;
  pbd_confirm_lockout : bool
}.

Definition PATCH_SHAPE : string :=
  "the body must be {" +:+ quoted "changes" +:+ ": {key: value}, " +:+ quoted "expected_rev" +:+ ": n, " +:+
  quoted "confirm_lockout" +:+ "?: bool}".

Inductive Reply : Type :=
  | ViewReply (v : SettingsView)
  | RestartReply (status : Z) (in_secs : option Z)
  | AuditReply (l : list SettingAuditRec)
  | CheckReply (r : CheckResult).

Section handlers.
Context `{Lib, Cipher, Jsonb} {S : Type} `{!Probes S}.

(** The database and the instances, and whatever the probes reach. *)
Definition on_world {A} (m : st World A) : st (World * S) A := λ s,
  let '(a, w) := m s.1 in (a, (w, s.2)).
Fixpoint in_world {A} (p : prog World A) : prog (World * S) A :=
  match p with Done a => Done a | Atom m k => Atom (on_world m) (λ b, in_world (k b)) end.
Definition outside {A} (m : st S A) : prog (World * S) A := atom (st_snd m).

Definition get_settings (id : positive) (i : Instance) (auth : AdminAuth) :
    prog (World * S) (result Reply SettingsApiError) :=
  do! r := in_world (view id i (is_demo auth)) in
  Done (match r with Ok v => Ok (ViewReply v) | Err e => Err (internal e) end).

(** A CORS list that would stop the calling browser; [origin] is the header, [None] inside if
    it is not text. *)
Definition locks_out (running : Config) (origin : option (option string)) (body : PatchBody) : option string :=
  match pbd_changes body !! "server.cors_origins", origin, pbd_confirm_lockout body with
  | Some new, Some origin, false =>
      let valid := match find "server.cors_origins" with Some d => is_ok (validate_setting d new) | None => false end in
      let list := match new with JArr l => default [] (mapM as_str l) | _ => [] end in
      if valid && origin_allowed (cfg_list "server.cors_origins" running) origin && negb (origin_allowed list origin)
      then Some ("This list leaves out " +:+ default "this browser's address" origin +:+
        ", the address this browser uses for the dashboard. Once saved, the dashboard can no longer reach the server from this browser.")
      else None
  | _, _, _ => None
  end.

(** [body] is [None] when it could not be read. *)
Definition patch_settings (id : positive) (i : Instance) (nonce : string → string) (now : DateTime)
    (auth : AdminAuth) (origin : option (option string)) (body : option PatchBody) :
    prog (World * S) (result Reply SettingsApiError) :=
  match require_admin_role auth, body with
  | Err e, _ => Done (Err e)
  | Ok _, None => Done (Err (ApiBadRequest PATCH_SHAPE))
  | Ok _, Some body =>
      if bool_decide (pbd_changes body = ∅) then Done (Err (ApiBadRequest "no changes"))
      else
      match locks_out (in_running i) origin body with
      | Some m => Done (Err (Lockout m))
      | None =>
          do! r := in_world (save id i nonce now (pbd_changes body) (pbd_expected_rev body) (actor auth)) in
          match r with
          | Ok saved => do! v := in_world (view_after_save id i saved) in Done (Ok (ViewReply v))
          | Err (RevConflict _) =>
              do! v := in_world (view id i false) in
              Done (Err (match v with Ok v => ApiConflict (Some v) | Err e => internal e end))
          | Err e => Done (Err (of_patch_error e))
          end
      end
  end.

Definition apply_settings (id : positive) (i : Instance) (now later : Z) (auth : AdminAuth) :
    prog (World * S) (result Reply SettingsApiError) :=
  match require_admin_role auth with
  | Err e => Done (Err e)
  | Ok _ =>
      do! r := in_world (apply_restart id i now later (actor auth)) in
      Done (match r with
        | Ok (Restarting n) => Ok (RestartReply 202 (Some n))
        | Ok NothingToRestart => Ok (RestartReply 200 None)
        | Err (InvalidValues ps) => Err (ApplyRefused ps)
        | Err e => Err (of_patch_error e)
        end)
  end.

Definition hide_audit (r : SettingAuditRec) : SettingAuditRec := {|
  sa_id := sa_id r; sa_key := sa_key r; sa_action := sa_action r; sa_old := None; sa_new := None;
  sa_secret_changed := sa_secret_changed r; sa_actor := "hidden"; sa_rev := sa_rev r; sa_at := sa_at r |}.

(** [query] is [None] when it could not be read. *)
Definition get_audit (auth : AdminAuth) (query : option (option string * option Z)) :
    prog (World * S) (result Reply SettingsApiError) :=
  match query with
  | None => Done (Err (ApiBadRequest "query must be ?key=<setting>&limit=<1-500>"))
  | Some (key, limit) =>
      let limit := Z.max 1 (Z.min 500 (default 50 limit)) in
      let key := match key with Some EmptyString | None => None | k => k end in
      do! r := in_world (db_call (audit key limit)) in
      Done (match r with
        | Err e => Err (internal e)
        | Ok rows => Ok (AuditReply (if is_demo auth then hide_audit <$> rows else rows))
        end)
  end.

(** [check] is [None] for an unknown check, [body] when it could not be read; no body means no
    values. *)
Definition post_test (id : positive) (i : Instance) (auth : AdminAuth) (check : option Check.t)
    (body : option (option (gmap string json_value))) : prog (World * S) (result Reply SettingsApiError) :=
  match require_admin_role auth, check, body with
  | Err e, _, _ => Done (Err e)
  | Ok _, None, _ => Done (Err (ApiBadRequest unknown_check))
  | Ok _, Some _, None => Done (Err (ApiBadRequest ("the body must be {" +:+ quoted "values" +:+ ": {key: value}}")))
  | Ok _, Some check, Some values =>
      do! next := in_world (test_connection id i (default ∅ values)) in
      match next with
      | Err e => Done (Err (internal e))
      | Ok (Err e) => Done (Ok (CheckReply (check_fail e)))
      | Ok (Ok cfg) => do! r := outside (run_check check cfg) in Done (Ok (CheckReply r))
      end
  end.

(** ** Everything that runs on the settings *)
Inductive Request : Type :=
  | GetSettings
  | PatchSettings (nonce : string → string) (now : DateTime) (origin : option (option string))
      (body : option PatchBody)
  | ApplySettings (now later : Z)
  | GetAudit (query : option (option string * option Z))
  | PostTest (check : option Check.t) (body : option (option (gmap string json_value))).

Inductive Event : Type :=
  | Boot (import again : string → string) (base : Config) (keys : option KeyRing) (opts : BootOptions)
  | Poll (id : positive) (now jitter : Z)
  | Ask (id : positive) (auth : AdminAuth) (r : Request).

Inductive Answer : Type :=
  | NoSuchInstance
  | BootAnswer (r : result positive db_error)
  | PollAnswer (r : result () db_error)
  | ReplyTo (auth : AdminAuth) (r : result Reply SettingsApiError).

Definition handle (id : positive) (i : Instance) (auth : AdminAuth) (r : Request) :
    prog (World * S) (result Reply SettingsApiError) :=
  match r with
  | GetSettings => get_settings id i auth
  | PatchSettings nonce now origin body => patch_settings id i nonce now auth origin body
  | ApplySettings now later => apply_settings id i now later auth
  | GetAudit query => get_audit auth query
  | PostTest check body => post_test id i auth check body
  end.

Definition happen (e : Event) : prog (World * S) Answer :=
  match e with
  | Boot import again base keys opts => do! r := in_world (boot import again base keys opts) in Done (BootAnswer r)
  | Poll id now jitter =>
      do! i := in_world (read_instance id) in
      match i with
      | Some i => do! r := in_world (poll_once id i now jitter) in Done (PollAnswer r)
      | None => Done NoSuchInstance
      end
  | Ask id auth r =>
      do! i := in_world (read_instance id) in
      match i with
      | Some i => do! r := handle id i auth r in Done (ReplyTo auth r)
      | None => Done NoSuchInstance
      end
  end.
End handlers.
