(* ===== verification/SettingsSecrets.v ===== *)
(** * SettingsSecrets: what can be read of a secret

    Through every history of boots, polls and requests to the dashboard, with every database
    call interleaved and failing at any point: a secret is stored only sealed, the audit trail
    never has its value, and no view, conflict or audit list that is answered shows it; a demo
    session sees no value at all. *)
From S2P Require Import Prelude F64 FleetTypes Ladder ApiSchema Schema Errors Json Text Guards.
From S2P Require Import Config Settings SettingsOverlay SettingsDb Interleave SettingsService.
From S2P Require Import SettingsHistory MatrixClient Auth SettingsApi.
Local Open Scope Z_scope.
Local Open Scope mm_scope.

#[local] Opaque find registry type_of config_fields URL_CREDENTIALS.

Section secrets.
Context `{Lib, Cipher, Jsonb} {S : Type} `{!Probes S}.

Definition secret_key (key : string) : Prop := ∃ d, find key = Some d ∧ sd_secret d = true.

Definition row_sealed (key : string) (r : SettingRec) : Prop :=
  secret_key key → sg_json r = None ∧ is_Some (sg_enc r).
Definition audit_blank (a : SettingAuditRec) : Prop :=
  secret_key (sa_key a) → sa_old a = None ∧ sa_new a = None.

Definition clean (t : Tables) : Prop :=
  (∀ key r, rows_in t !! key = Some r → row_sealed key r) ∧
  (∀ a, a ∈ s_audit (settings_of t) → audit_blank a).

(** A new value of a secret is sealed. *)
Definition value_sealed (v : NewValue) : Prop := secret_key (nv_key v) → ∃ blob, nv_payload v = PEncrypted blob.

Lemma clean_same t t' :
  rows_in t' = rows_in t → s_audit (settings_of t') = s_audit (settings_of t) → (keeps clean) t t'.
Proof. unfold keeps, clean. by intros -> ->. Qed.

(** ** Statements *)
Lemma next_rev_clean : stmt_rel (keeps clean) next_rev.
Proof. intros now t a t' [= _ <-]. apply clean_same; reflexivity. Qed.

Lemma mark_imported_clean : stmt_rel (keeps clean) mark_imported.
Proof. intros now t a t' [= <- <-]. apply clean_same; reflexivity. Qed.

Lemma set_restart_clean rev : stmt_rel (keeps clean) (set_restart_requested rev).
Proof. intros now t a t' [= <- <-]. apply clean_same; reflexivity. Qed.

Lemma lock_clean : stmt_rel (keeps clean) lock.
Proof. by intros now t a t' [= <- <-]. Qed.

Lemma insert_clean up key p rev by_ :
  (secret_key key → ∃ blob, p = PEncrypted blob) → stmt_rel (keeps clean) (insert_row up key p rev by_).
Proof.
  intros Hp now t a t'. unfold insert_row. destruct (jsonb_column _) as [json|] eqn:Ej; [|done].
  destruct (negb up && _); [done|]. intros [= <- <-] [Hr Ha]. split; [|exact Ha].
  intros k r. change (rows_in (put_settings ?s t)) with (s_rows s). cbn [set_setting_rows s_rows].
  intros [[<- <-]|[_ Hk]]%lookup_insert_Some; [|by apply Hr].
  intros Hsec. destruct (Hp Hsec) as [blob ->]. cbn in *. injection Ej as <-. eauto.
Qed.

Lemma audit_clean key action old new sc actor rev :
  (secret_key key → old = None ∧ new = None) →
  stmt_rel (keeps clean) (audit_insert key action old new sc actor rev).
Proof.
  intros Hv now t a t'. unfold audit_insert.
  destruct (jsonb_column old) as [o|] eqn:Eo; [|by destruct (jsonb_column new)].
  destruct (jsonb_column new) as [n|] eqn:En; [|done]. intros [= <- <-] [Hr Ha]. split; [exact Hr|].
  intros x. change (s_audit (settings_of (put_settings ?s t))) with (s_audit s). cbn [s_audit].
  intros Hx. apply elem_of_app in Hx as [Hx|Hx]; [by apply Ha|]. apply list_elem_of_singleton in Hx as ->. intros Hsec. cbn in *.
  destruct (Hv Hsec) as [-> ->]. cbn in Eo, En. split; congruence.
Qed.

Lemma replace_clean key rev blob : stmt_rel (keeps clean) (replace_blob key rev blob).
Proof.
  intros now t a t'. unfold replace_blob. destruct (s_rows _ !! key) as [r|] eqn:Er; [|by intros [= _ <-]].
  destruct (sg_enc r) eqn:Ee; [|by intros [= _ <-]]. destruct (_ =? _); [|by intros [= _ <-]].
  intros [= _ <-] [Hr Ha]. split; [|exact Ha].
  intros k r'. change (rows_in (put_settings ?s t)) with (s_rows s). cbn [set_setting_rows s_rows].
  intros [[<- <-]|[_ Hk]]%lookup_insert_Some; [|by apply Hr].
  intros Hsec. destruct (Hr _ _ Er Hsec). cbn. eauto.
Qed.

Lemma sql_clean {A} (s : stmt A) : stmt_rel (keeps clean) s → st_rel (on_tables (keeps clean)) (sql s).
Proof.
  intros Hs. unfold sql. apply st_rel_bind; [apply _|apply st_rel_exec_tx; [apply _|done]|]. intros r. apply st_rel_ret. apply _.
Qed.

Lemma tx_clean {A} (s : stmt A) : stmt_rel (keeps clean) s → st_rel (on_tables (keeps clean)) (exec_tx s).
Proof. intros Hs. apply st_rel_exec_tx; [apply _|done]. Qed.

Lemma reading_clean {A} (f : Tables → A) : stmt_rel (keeps clean) (reading f).
Proof. apply stmt_rel_reading, _. Qed.

Ltac clean_step :=
  lazymatch goal with
  | |- PreOrder _ => apply _
  | |- st_rel _ (st_ret _) => apply st_rel_ret; apply _
  | |- st_rel _ (st_try _ _) => apply st_rel_try; [apply _| |intros ?]
  | |- st_rel _ (in_tx _ _) => apply st_rel_in_tx; [apply _|]
  | |- st_rel _ (sql _) => apply sql_clean
  | |- st_rel _ (exec_tx _) => apply tx_clean
  | |- st_rel _ (if ?b then _ else _) => destruct b
  | |- stmt_rel _ (reading _) => apply reading_clean
  | |- stmt_rel _ next_rev => apply next_rev_clean
  | |- stmt_rel _ max_rev_in => apply reading_clean
  | |- stmt_rel _ lock => apply lock_clean
  | |- stmt_rel _ mark_imported => apply mark_imported_clean
  | |- stmt_rel _ (set_restart_requested _) => apply set_restart_clean
  | |- stmt_rel _ (replace_blob _ _ _) => apply replace_clean
  | |- stmt_rel _ (insert_row _ _ _ _ _) => apply insert_clean
  | |- stmt_rel _ (audit_insert _ _ None None _ _ _) => apply audit_clean; by intros _
  | |- stmt_rel _ (audit_insert _ _ _ _ _ _ _) => apply audit_clean
  end.

Lemma write_clean vs exp actor :
  (∀ v, v ∈ vs → value_sealed v) → st_rel (on_tables (keeps clean)) (write vs exp actor).
Proof.
  intros Hvs. unfold write. repeat clean_step.
  apply st_rel_try_each; [apply _|]. intros v Hv. specialize (Hvs v Hv). unfold write_value.
  repeat clean_step; [exact Hvs|]. intros Hsec. destruct (Hvs Hsec) as [blob ->]. done.
Qed.

Lemma import_clean filter :
  (∀ rs v, v ∈ filter rs → value_sealed v) → st_rel (on_tables (keeps clean)) (import_filtered filter).
Proof.
  intros Hf. unfold import_filtered. repeat clean_step.
  apply st_rel_try_each; [apply _|]. intros v Hv. apply elem_of_List_filter in Hv as [Hv _].
  specialize (Hf _ v Hv). unfold import_value. repeat clean_step; [exact Hf|].
  intros Hsec. destruct (Hf Hsec) as [blob ->]. done.
Qed.

Lemma reencrypt_clean upd : st_rel (on_tables (keeps clean)) (reencrypt upd).
Proof.
  unfold reencrypt. repeat clean_step. generalize (@nil string) as skipped.
  induction upd as [|[[key rev] blob] upd IH]; intros skipped; cbn [reencrypt_all]; repeat clean_step; [|apply IH].
  unfold reencrypt_one. repeat clean_step. lazymatch goal with |- st_rel _ (match ?o with _ => _ end) => destruct o end;
    repeat clean_step.
Qed.

Lemma restart_clean actor : st_rel (on_tables (keeps clean)) (request_restart actor).
Proof. unfold request_restart. repeat clean_step. Qed.

(** ** The values that are written *)
Lemma encode_all_sealed nonce i l vs v :
  Forall entry_ok l → encode_all nonce i l = Ok vs → v ∈ vs → value_sealed v.
Proof.
  intros Hl. revert vs. induction Hl as [|[d x] l [Hf _] Hl IH]; intros vs; cbn [encode_all].
  { intros [= <-] Hv. by apply not_elem_of_nil in Hv. }
  destruct (encode nonce i d x) as [p|] eqn:Ep; [|done].
  destruct (encode_all nonce i l) as [vs'|] eqn:Er; [|done]. intros [= <-] [->|Hv]%elem_of_cons; [|by eapply IH].
  intros (d' & Hf' & Hsec). cbn in Hf, Hf'. rewrite Hf in Hf'. injection Hf' as <-.
  unfold encode in Ep. rewrite Hsec in Ep. cbn in Ep. destruct (in_keys i); [|done]. injection Ep as <-. eauto.
Qed.

Lemma import_values_sealed nonce base keys rs v : v ∈ import_values nonce base keys rs → value_sealed v.
Proof.
  intros Hv. unfold import_values in Hv. apply list_elem_of_fmap in Hv as (kv & -> & Hkv).
  cbn [guard_import fst] in Hkv. apply elem_of_List_filter in Hkv as [Hkv _].
  unfold import_plan in Hkv. rewrite import_plan_values in Hkv. cbn in Hkv.
  apply list_elem_of_omap in Hkv as (d & Hd & Himp). apply elem_of_List_filter in Hd as [Hd _].
  pose proof (imported_key _ _ _ _ _ Himp) as Hkey. intros (d' & Hf & Hsec). cbn [nv_key] in Hf.
  rewrite Hkey, find_registered in Hf by done. injection Hf as <-.
  unfold imported in Himp. destruct (is_ok _); [|done]. rewrite Hsec in Himp.
  destruct keys; [|done]. destruct (is_empty _); [done|]. injection Himp as <-. cbn. eauto.
Qed.

Lemma resets_sealed base rs keys policy v :
  v ∈ resets_of base (apply_overlay base rs keys policy) → value_sealed v.
Proof.
  intros Hv. destruct (resets_elem [] _ _ _ _ _ Hv) as (s & Hs & _). intros (d & Hf & Hsec).
  destruct (pair_dest _ _ Hs) as (d' & Hf' & Hno). congruence.
Qed.

(** ** Programs *)
Definition clean_world (w : World) : Prop := clean (tables w).

Lemma always_db {A} (Q : A → Prop) (m : st Db A) :
  st_rel (on_tables (keeps clean)) m → (∀ db, clean (db_tables db) → Q (m db).1) →
  always clean_world Q (db_call m).
Proof.
  intros Hm Hq. apply always_atom. intros w Hw. unfold on_db. specialize (Hm (w_db w)). specialize (Hq _ Hw).
  destruct (m (w_db w)) as [a db']. split; [by apply Hm|done].
Qed.

Lemma always_reading {A} (Q : result A db_error → Prop) (f : Tables → A) :
  (∀ t, clean t → Q (Ok (f t))) → (∀ e, Q (Err e)) → always clean_world Q (db_call (exec (reading f))).
Proof.
  intros Hf He. apply always_db.
  - apply st_rel_exec; [apply _|apply reading_clean].
  - intros db Hdb. destruct (exec (reading f) db).1 as [a|e] eqn:E; [|apply He].
    apply exec_reading_ok in E as ->. by apply Hf.
Qed.

Lemma always_quiet {A} (Q : A → Prop) (m : st World A) :
  (∀ w, w_db (m w).2 = w_db w) → (∀ w, Q (m w).1) → always clean_world Q (atom m).
Proof.
  intros Hm Hq. apply always_atom. intros w Hw. split; [|apply Hq]. unfold clean_world, tables. by rewrite Hm.
Qed.

Lemma always_try {A B E} (Q : result B E → Prop) (p : prog World (result A E)) (k : A → prog World (result B E)) :
  always clean_world (λ _, True) p → (∀ e, Q (Err e)) → (∀ a, always clean_world Q (k a)) →
  always clean_world Q (prog_try p k).
Proof.
  intros Hp He Hk. eapply always_bind; [exact Hp|]. intros [a|e] _; [apply Hk|apply He].
Qed.

Lemma load_all_clean : always clean_world (λ _, True) (db_call load_all).
Proof. by apply always_reading. Qed.

Lemma load_stored_clean : always clean_world (λ _, True) load_stored.
Proof. by apply always_try; [apply load_all_clean|..]. Qed.

Lemma attempts_clean n base keys policy stored :
  always clean_world (λ _, True) (overlay_attempts n base keys policy stored).
Proof.
  revert stored. induction n as [|n IH]; intros stored; cbn [overlay_attempts]; [done|].
  destruct (resets_of base (apply_overlay base stored keys policy)) as [|v vs] eqn:E; [done|]. rewrite <- E.
  apply (always_bind _ (λ _, True)).
  - apply always_db; [|done]. apply write_clean. intros x. apply resets_sealed.
  - intros r _. assert (Hk : always clean_world (λ _, True)
      (do? stored := load_stored in overlay_attempts n base keys policy stored))
      by by apply always_try; [apply load_stored_clean|..].
    by destruct r as [|[|]].
Qed.

Lemma boot_clean import again base keys opts :
  always clean_world (λ _, True) (boot import again base keys opts).
Proof.
  unfold boot. apply (always_bind _ (λ _, True)); [by apply always_quiet|]. intros _ _.
  apply always_try; [|done|].
  { apply always_db; [|done]. apply import_clean. intros rs v. apply import_values_sealed. }
  intros _. apply always_try; [|done|].
  { destruct keys as [k|]; [|done]. apply always_try; [apply load_all_clean|done|]. intros rs. cbv zeta.
    case_bool_decide; [done|]. apply always_try; [|done|done]. apply always_db; [apply reencrypt_clean|done]. }
  intros _. apply always_try; [|done|].
  { destruct (bo_break_glass opts).
    - by apply always_try; [apply load_stored_clean|..].
    - apply always_try; [|done|done]. apply always_try; [apply load_stored_clean|done|]. intros. apply attempts_clean. }
  intros cs. apply (always_bind _ (λ _, True)); [by apply always_quiet|done].
Qed.

Lemma reload_clean id : always clean_world (λ _, True) (reload_live_now id).
Proof.
  apply always_try; [apply load_stored_clean|done|]. intros st.
  apply (always_bind _ (λ _, True)); [by apply always_quiet|done].
Qed.

Lemma save_clean id i nonce now changes exp actor :
  always clean_world (λ _, True) (save id i nonce now changes exp actor).
Proof.
  unfold save. apply (always_bind _ (λ _, True)); [by apply always_quiet|]. intros _ _.
  destruct (accept _ _ _) as [accepted|] eqn:Ea; [|done]. destruct (encode_all _ _ _) as [vs|] eqn:Ee; [|done].
  apply accept_ok in Ea as (l & -> & _ & Hl). cbn [app] in Ee.
  apply always_try; [|done|].
  { apply (always_bind _ (λ _, True)); [apply load_all_clean|done]. }
  intros rs. apply (always_bind _ (λ _, True)); [by apply always_quiet|]. intros current _. cbv zeta.
  destruct (save_checks _ _ _ _ _ _ _); [|done]. apply always_try; [|done|].
  { apply (always_bind _ (λ _, True)); [|done]. apply always_db; [|done]. apply write_clean.
    intros v Hv. by eapply encode_all_sealed. }
  intros rev. apply (always_bind _ (λ _, True)); [apply reload_clean|done].
Qed.

Lemma schedule_clean id now after : always clean_world (λ _, True) (schedule_restart id now after).
Proof.
  apply always_quiet; [|done]. intros w. destruct (w_instances w !! id) as [i|]; [|done].
  by destruct (in_restart_at i).
Qed.

Lemma apply_clean id i now later_ actor : always clean_world (λ _, True) (apply_restart id i now later_ actor).
Proof.
  unfold apply_restart. destruct (bo_break_glass _); [done|]. apply always_try; [|done|].
  { apply (always_bind _ (λ _, True)); [apply load_stored_clean|done]. }
  intros stored. destruct (ol_problems _); [|done]. apply always_try; [|done|].
  { apply (always_bind _ (λ _, True)); [|done]. apply always_db; [apply restart_clean|done]. }
  intros rev. destruct (_ <? _); [|done]. apply (always_bind _ (λ _, True)); [apply schedule_clean|done].
Qed.

Lemma poll_clean id i now jitter : always clean_world (λ _, True) (poll_once id i now jitter).
Proof.
  unfold poll_once. apply always_try; [by apply always_reading|done|]. intros rev.
  apply (always_bind _ (λ _, True)); [by apply always_quiet|]. intros current _.
  apply always_try; [destruct (_ <? _); [apply reload_clean|done]|done|]. intros _.
  destruct (bo_break_glass _); [done|]. apply always_try; [by apply always_reading|done|]. intros m.
  apply (always_bind _ (λ _, True)); [by apply always_quiet|]. intros current' _.
  destruct (in_restart_at _); [done|]. destruct (_ <? _); [|done].
  apply (always_bind _ (λ _, True)); [apply schedule_clean|done].
Qed.

(** ** What is answered *)
Definition hidden (o : option json_value) : Prop := o = None ∨ o = Some (JStr "hidden").

(** A view shows no secret, and to a demo session no value, no actor and no time. *)
Definition view_hides (demo : bool) (v : SettingsView) : Prop :=
  ∀ key vv, (key, vv) ∈ sw_values v →
    (secret_key key → hidden (vv_value vv)) ∧
    (demo = true → vv_value vv = Some (JStr "hidden") ∧ vv_updated_at vv = None ∧ vv_updated_by vv = None).

(** An audit log shows no value of a secret, and to a demo session no value and no actor;
    the time and the revision of a change stay visible. *)
Definition audit_hides (demo : bool) (l : list SettingAuditRec) : Prop :=
  ∀ a, a ∈ l → audit_blank a ∧ (demo = true → sa_old a = None ∧ sa_new a = None ∧ sa_actor a = "hidden").

Definition hides_secrets (a : Answer) : Prop :=
  match a with
  | ReplyTo auth (Ok (ViewReply v)) | ReplyTo auth (Err (ApiConflict (Some v))) => view_hides (is_demo auth) v
  | ReplyTo auth (Ok (AuditReply l)) => audit_hides (is_demo auth) l
  | _ => True
  end.

Lemma view_of_hides i rs demo : view_hides demo (view_of i rs demo).
Proof.
  intros key vv Hin. cbn [view_of sw_values] in Hin. rewrite elem_of_order_by in Hin.
  apply list_elem_of_fmap in Hin as (d & Heq & Hd). unfold value_view in Heq.
  destruct (shown_value i demo d _) as [[value is_set] problem] eqn:Es. injection Heq as -> ->.
  cbn [vv_value vv_updated_at vv_updated_by]. split.
  - intros (d' & Hf & Hsec). rewrite find_registered in Hf by done. injection Hf as <-.
    unfold shown_value in Es. rewrite Hsec in Es. destruct demo; injection Es as <- _ _; [by right|by left].
  - intros ->. unfold shown_value in Es. by injection Es as <- _ _.
Qed.

Lemma view_clean id i demo :
  always clean_world (λ r, match r with Ok v => view_hides demo v | Err _ => True end) (view id i demo).
Proof.
  unfold view. apply always_try; [apply load_all_clean|done|]. intros rs.
  apply (always_bind _ (λ _, True)); [by apply always_quiet|]. intros current _. apply view_of_hides.
Qed.

Lemma view_after_save_clean id i saved : always clean_world (view_hides false) (view_after_save id i saved).
Proof.
  unfold view_after_save. eapply always_bind; [apply view_clean|]. intros [v|e] Hv; [exact Hv|].
  eapply always_bind; [apply view_clean|]. intros [v|e'] Hv'; [exact Hv'|].
  apply (always_bind _ (λ _, True)); [by apply always_quiet|]. intros current _. apply view_of_hides.
Qed.

Lemma audit_reads_clean key n :
  always clean_world (λ r, match r with Ok l => ∀ a, a ∈ l → audit_blank a | Err _ => True end)
    (db_call (audit key n)).
Proof.
  apply always_reading; [|done]. intros t [_ Ha] a Hin. apply Ha. unfold limit in Hin.
  apply list_elem_of_In in Hin. assert (Hin' : a ∈ order_desc sa_id (List.filter (λ a,
    match key with None => true | Some k => String.eqb (sa_key a) k end) (s_audit (settings_of t)))).
  { rewrite <- (take_drop (Z.to_nat n) (order_desc _ _)). apply elem_of_app. left. by apply list_elem_of_In. }
  rewrite elem_of_order_desc in Hin'. by apply elem_of_List_filter in Hin' as [? _].
Qed.

(** The database and the instances beside what the probes reach. *)
Definition clean_all (s : World * S) : Prop := clean_world s.1.

Lemma always_in_world {A} (Q : A → Prop) (p : prog World A) :
  always clean_world Q p → always clean_all Q (in_world (S := S) p).
Proof.
  induction p as [a|B m k IH]; cbn; [done|]. intros Hp [w s] Hw. specialize (Hp w Hw). unfold on_world. cbn [fst snd].
  destruct (m w) as [b w']. cbn [fst snd] in *. destruct Hp as [Hc Hk]. split; [exact Hc|by apply IH].
Qed.

Lemma always_outside {A} (m : st S A) : always clean_all (λ _, True) (outside m).
Proof.
  apply always_atom. intros [w s] Hw. unfold st_snd. cbn [fst snd]. destruct (m s) as [a s'].
  split; [exact Hw|exact I].
Qed.

Definition reply_hides (auth : AdminAuth) (r : result Reply SettingsApiError) : Prop := hides_secrets (ReplyTo auth r).

Lemma patch_clean id i nonce now auth origin body :
  always clean_all (reply_hides auth) (patch_settings (S := S) id i nonce now auth origin body).
Proof.
  unfold patch_settings, require_admin_role, reply_hides, hides_secrets, is_demo.
  destruct (aa_role auth); [|done]. destruct body as [body|]; [|done]. case_bool_decide; [done|].
  destruct (locks_out _ _ _); [done|].
  eapply always_bind; [apply always_in_world, save_clean|]. intros [saved|e] _.
  - eapply always_bind; [apply always_in_world, view_after_save_clean|]. by intros v Hv.
  - destruct e; try done.
    eapply always_bind; [apply always_in_world, view_clean|]. by intros [v|e] Hv.
Qed.

Lemma handle_clean id i auth r : always clean_all (reply_hides auth) (handle (S := S) id i auth r).
Proof.
  destruct r as [|nonce now origin body|now later_|query|check body]; cbn [handle].
  - unfold get_settings. eapply always_bind; [apply always_in_world, view_clean|]. by intros [v|e] Hv.
  - apply patch_clean.
  - unfold apply_settings. destruct (require_admin_role auth) as [[]|e] eqn:Er.
    + eapply always_bind; [apply always_in_world, apply_clean|]. intros [[]|[]] _; done.
    + unfold require_admin_role in Er. destruct (aa_role auth); [done|]. by injection Er as <-.
  - unfold get_audit. destruct query as [[key limit]|]; [|done]. cbv zeta.
    eapply always_bind; [apply always_in_world, audit_reads_clean|]. intros [l|e] Hl; [|done].
    intros a Ha. destruct (is_demo auth); [|by split; [apply Hl|]].
    apply list_elem_of_fmap in Ha as (a' & -> & _). split; [by intros _|done].
  - unfold post_test, require_admin_role. destruct (aa_role auth); [|done].
    destruct check as [check|]; [|done]. destruct body as [values|]; [|done].
    eapply (always_bind _ (λ _, True)).
    + apply always_in_world. unfold test_connection.
      apply (always_bind _ (λ _, True)); [by apply always_quiet|]. intros _ _.
      apply always_try; [|done|done]. apply always_try; [apply load_stored_clean|done|]. intros st. cbv zeta.
      apply (always_bind _ (λ _, True)); [by apply always_quiet|done].
    + intros [[cfg|e]|e] _; [|done|done]. eapply always_bind; [apply always_outside|done].
Qed.

Lemma happen_clean e : always clean_all hides_secrets (happen (S := S) e).
Proof.
  destruct e as [import again base keys opts|id now jitter|id auth r]; cbn [happen].
  - eapply always_bind; [apply always_in_world, boot_clean|done].
  - apply (always_bind _ (λ _, True)); [by apply always_in_world, always_quiet|]. intros [i|] _; [|done].
    eapply always_bind; [apply always_in_world, poll_clean|done].
  - apply (always_bind _ (λ _, True)); [by apply always_in_world, always_quiet|]. intros [i|] _; [|done].
    eapply always_bind; [apply handle_clean|]. by intros a Ha.
Qed.

(** C15. Whatever boots, polls and dashboard requests run at the same time on one database, in
    any interleaving and with any failures: the row of a secret has a sealed value and no
    plain one, no audit record of a secret has a value, every view that is answered (also the
    one of a conflict) shows no secret. A view answered to a demo session shows for no
    setting its value, who changed it or when; the audit log answered to a demo session shows
    no value and no actor, and keeps the key, the action, the time and the revision of each
    change, as the handler leaves them. *)
Theorem secrets_are_never_shown (s : World * S) events sched :
  clean_all s →
  let '(ts, s') := run_sched sched (happen <$> events) s in
  (∀ key r, secret_key key → rows s'.1 !! key = Some r → sg_json r = None ∧ is_Some (sg_enc r)) ∧
  (∀ a, a ∈ s_audit (settings_of (tables s'.1)) → secret_key (sa_key a) → sa_old a = None ∧ sa_new a = None) ∧
  (∀ n a, ts !! n = Some (Done a) → hides_secrets a).
Proof.
  intros Hs. destruct (run_sched_always clean_all (λ _, hides_secrets) sched (happen <$> events) s) as [[Hr Ha] Hq];
    [done|intros n p Hp; rewrite list_lookup_fmap in Hp; destruct (events !! n); [|done];
      injection Hp as <-; apply happen_clean|].
  destruct (run_sched sched (happen <$> events) s) as [ts s']. cbn [fst snd] in *. split_and!.
  - intros key r Hk Hrow. by apply (Hr key r).
  - intros a Hin Hk. by apply Ha.
  - intros n a Hn. by eapply Hq.
Qed.
End secrets.

(** ** An example: a key is saved, then the view and the audit are read *)
#[local] Transparent find registry type_of config_fields URL_CREDENTIALS.

Module SecretsDemo.
Import SettingsDemo.
#[export] Instance probes : Probes () := {|
  probe_client := true; probe_get _ := st_ret TimedOut; s3_feature := false;
  s3_new _ := st_ret TimedOut; s3_put _ _ := st_ret TimedOut; s3_exists _ _ := st_ret TimedOut;
  s3_delete _ _ := st_ret TimedOut; probe_uuid := st_ret "id" |}.
Definition admin : AdminAuth := {| aa_role := AdminRole_Admin; aa_user_id := Some "@a:x" |}.
Definition demo : AdminAuth := {| aa_role := AdminRole_Demo; aa_user_id := Some "@d:x" |}.
Definition body : PatchBody := {|
  pbd_changes := changes; pbd_expected_rev := 46; pbd_confirm_lockout := false |}.
Definition events : list Event := [Boot nonce nonce default_of_config (Some ring) opts;
  Ask 1 admin (PatchSettings nonce 0 None (Some body)); Ask 1 demo GetSettings;
  Ask 1 admin (GetAudit (Some (Some "storage.s3.secret_key", None)))].
Definition final : list (prog (World * ()) Answer) * (World * ()) :=
  run_sched sched (happen <$> events) (world, ()).
(** The records of the audit for the secret. *)
Definition audited : option (list (string * option json_value)) :=
  match final.1 !! 3%nat with
  | Some (Done (ReplyTo _ (Ok (AuditReply l)))) => Some ((λ a, (sa_action a, sa_new a)) <$> l)
  | _ => None
  end.
End SecretsDemo.
Import SettingsDemo SecretsDemo.

Lemma secrets_are_never_shown_witness :
  SecretsDemo.audited = Some [("set", None)] ∧
  let '(ts, s') := run_sched SettingsDemo.sched (happen <$> SecretsDemo.events) (SettingsDemo.world, ()) in
  (∀ key r, secret_key key → rows s'.1 !! key = Some r → sg_json r = None ∧ is_Some (sg_enc r)) ∧
  (∀ a, a ∈ s_audit (settings_of (tables s'.1)) → secret_key (sa_key a) → sa_old a = None ∧ sa_new a = None) ∧
  (∀ n a, ts !! n = Some (Done a) → hides_secrets a).
Proof.
  split; [vm_compute; reflexivity|].
  apply (secrets_are_never_shown (SettingsDemo.world, ())). split.
  - intros key r Hr. exact (False_ind _ (lookup_empty_Some (M := gmap string) (A := SettingRec) key r Hr)).
  - intros a Ha. apply not_elem_of_nil in Ha. contradiction.
Defined.
