(* ===== verification/MediaProbe.v ===== *)
(** * MediaProbe: the length of an ad, read from the head of its file

    [mm-ads/src/media_probe.rs]. The bytes come from whatever the creator's URL serves, so
    every index the code takes is an index that may be out of range: reading is a
    computation that can panic. *)
From S2P Require Import Prelude F64.
Local Open Scope Z_scope.
Local Open Scope mm_scope.

(** ** Slices

    A byte is an integer below 256. An index or a range outside of the slice panics. *)
Inductive read (A : Type) : Type :=
  | Read (a : A)
  | OutOfRange.
Arguments Read {A} a.
Arguments OutOfRange {A}.

Definition read_bind {A B} (r : read A) (k : A → read B) : read B :=
  match r with Read a => k a | OutOfRange => OutOfRange end.

Notation "'at*' x ':=' r 'in' k" := (read_bind r (λ x, k))
  (at level 10, x name, k at level 200) : mm_scope.

Definition byte_at (data : list Z) (i : nat) : read Z :=
  match data !! i with Some b => Read b | None => OutOfRange end.

(** [&data[i..j]]. *)
Definition range_at (data : list Z) (i j : nat) : read (list Z) :=
  if bool_decide (i ≤ j ∧ j ≤ length data)%nat then Read (take (j - i) (drop i data))
  else OutOfRange.

(** [from_be_bytes] of [n] bytes from [i] on. *)
Fixpoint from_be (data : list Z) (i n : nat) (acc : Z) : read Z :=
  match n with
  | O => Read acc
  | S n' => at* b := byte_at data i in from_be data (S i) n' (Z.lor (Z.shiftl acc 8) b)
  end.

(** [f32::from_be_bytes] widened and [f64::from_be_bytes], from the bits: sign, exponent and
    fraction. *)
Definition float_of (neg : bool) (special : bool) (fraction magnitude : Z) : f64 :=
  if special then (if fraction =? 0 then Inf neg else NaN)
  else Fin (if neg then - magnitude else magnitude).

Definition f32_of_bits (bits : Z) : f64 :=
  let e := Z.land (Z.shiftr bits 23) 255 in
  let m := Z.land bits (Z.ones 23) in
  float_of (Z.testbit bits 31) (e =? 255) m
    (if e =? 0 then m * 2 ^ 925 else (2 ^ 23 + m) * 2 ^ (e + 924)).

Definition f64_of_bits (bits : Z) : f64 :=
  let e := Z.land (Z.shiftr bits 52) 2047 in
  let m := Z.land bits (Z.ones 52) in
  float_of (Z.testbit bits 63) (e =? 2047) m
    (if e =? 0 then m else (2 ^ 52 + m) * 2 ^ (e - 1)).

(** [x as i32]. *)
Definition f64_as_i32 (x : f64) : Z :=
  match x with
  | Fin z => Z.max i32_min (Z.min i32_max (Z.quot z UNIT))
  | Inf true => i32_min
  | Inf false => i32_max
  | NaN => 0
  end.

(** ** EBML numbers *)
Definition leading_zeros (b : Z) : nat :=
  if b =? 0 then 8%nat else Z.to_nat (7 - Z.log2 b).

(** A u8 shifted right by [n]: the shift count is taken modulo 8. *)
Definition u8_shr (b : Z) (n : nat) : Z := Z.shiftr b (Z.of_nat (n mod 8)).

Definition read_ebml_size (data : list Z) : read (option (Z * nat)) :=
  match data with
  | [] => Read None
  | first :: _ =>
      let len := S (leading_zeros first) in
      if bool_decide (8 < len)%nat || bool_decide (length data < len)%nat then Read None
      else
        at* val := from_be data 1 (len - 1) (Z.land first (u8_shr 255 len)) in
        Read (Some (val, len))
  end.

Definition read_ebml_uint (data : list Z) : read (option (Z * nat)) :=
  match data with
  | [] => Read None
  | _ :: _ =>
      at* size := read_ebml_size data in
      match size with
      | None => Read None
      | Some (data_len, offset) =>
          if (Z.of_nat (length data) <? Z.of_nat offset + data_len) || (8 <? data_len)
          then Read None
          else
            at* val := from_be data offset (Z.to_nat data_len) 0 in
            Read (Some (val, (offset + Z.to_nat data_len)%nat))
      end
  end.

Definition read_ebml_float (data : list Z) : read (option (f64 * nat)) :=
  match data with
  | [] => Read None
  | _ :: _ =>
      at* size := read_ebml_size data in
      match size with
      | None => Read None
      | Some (float_len, offset) =>
          if Z.of_nat (length data) <? Z.of_nat offset + float_len then Read None
          else if float_len =? 4 then
            at* bits := from_be data offset 4 0 in
            Read (Some (f32_of_bits bits, (offset + 4)%nat))
          else if float_len =? 8 then
            at* bits := from_be data offset 8 0 in
            Read (Some (f64_of_bits bits, (offset + 8)%nat))
          else Read None
      end
  end.

(** ** WebM

    The state of the scan is the time scale and the duration seen last. *)
Definition TimecodeScale : list Z := [0x2A; 0xD7; 0xB1].
Definition Duration : list Z := [0x44; 0x89].

(** The element's id at [i]: the bytes are compared one by one. *)
Fixpoint has_id (data : list Z) (i : nat) (id : list Z) : read bool :=
  match id with
  | [] => Read true
  | x :: id' =>
      at* b := byte_at data i in
      if b =? x then has_id data (S i) id' else Read false
  end.

Definition scan_scale (data : list Z) (i : nat) (scale : Z) : read Z :=
  if bool_decide (i + 3 < length data)%nat then
    at* here := has_id data i TimecodeScale in
    if here : bool then
      at* rest := range_at data (i + 3) (length data) in
      at* val := read_ebml_uint rest in
      Read (match val with Some (v, _) => v | None => scale end)
    else Read scale
  else Read scale.

Definition scan_duration (data : list Z) (i : nat) (dur : option f64) : read (option f64) :=
  if bool_decide (i + 2 < length data)%nat then
    at* here := has_id data i Duration in
    if here : bool then
      at* rest := range_at data (i + 2) (length data) in
      at* val := read_ebml_float rest in
      Read (match val with Some (v, _) => Some v | None => dur end)
    else Read dur
  else Read dur.

(** [while i + 12 < data.len()], from [i] on; [n] steps are left of it. *)
Fixpoint scan_webm (n : nat) (data : list Z) (i : nat) (scale : Z) (dur : option f64) :
    read (Z * option f64) :=
  match n with
  | O => Read (scale, dur)
  | S n' =>
      at* scale' := scan_scale data i scale in
      at* dur' := scan_duration data i dur in
      scan_webm n' data (S i) scale' dur'
  end.

Definition probe_webm_duration (data : list Z) : read (option Z) :=
  at* found := scan_webm (length data - 12) data 0 1000000 None in
  Read (match found.2 with
        | None => None
        | Some dur =>
            Some (f64_as_i32 (f64_round
              (f64_div (f64_mul dur (f64_of_Z found.1)) (f64_of_Z 1000000000))))
        end).

(** ** MP4 *)
Definition tag (s : string) : list Z :=
  (λ c, Z.of_nat (Ascii.nat_of_ascii c)) <$> String.list_ascii_of_string s.

Definition is_tag (bs : list Z) (s : string) : bool := bool_decide (bs = tag s).

Definition seconds_of (dur ts : Z) : Z :=
  f64_as_i32 (f64_round (f64_div (f64_of_Z dur) (f64_of_Z ts))).

(** The movie header at [i]: [Some] when the function returns here. *)
Definition mvhd_at (data : list Z) (i : nat) (box_type : list Z) : read (option Z) :=
  if is_tag box_type "mvhd" && bool_decide (i + 24 < length data)%nat then
    at* version := byte_at data (i + 8) in
    if (version =? 0) && bool_decide (i + 28 < length data)%nat then
      at* ts := from_be data (i + 20) 4 0 in
      at* dur := from_be data (i + 24) 4 0 in
      Read (if 0 <? ts then Some (seconds_of dur ts) else None)
    else if (version =? 1) && bool_decide (i + 36 < length data)%nat then
      at* ts := from_be data (i + 28) 4 0 in
      at* dur := from_be data (i + 32) 8 0 in
      Read (if 0 <? ts then Some (seconds_of dur ts) else None)
    else Read None
  else Read None.

Definition is_container (box_type : list Z) : bool :=
  is_tag box_type "moov" || is_tag box_type "trak" || is_tag box_type "mdia".

(** What one round of the loop comes to: the next index, or the answer. *)
Inductive boxed : Type :=
  | Next (i : nat)
  | Answer (secs : option Z).

Definition mp4_round (data : list Z) (i : nat) : read boxed :=
  if bool_decide (i + 8 < length data)%nat then
    at* box_size := from_be data i 4 0 in
    at* box_type := range_at data (i + 4) (i + 8) in
    at* found := mvhd_at data i box_type in
    match found with
    | Some secs => Read (Answer (Some secs))
    | None =>
        if is_container box_type then Read (Next (i + 8)%nat)
        else if (box_size <? 8) || (Z.of_nat (length data) <? Z.of_nat i + box_size)
        then Read (Answer None)
        else Read (Next (i + Z.to_nat box_size)%nat)
    end
  else Read (Answer None).

(** The loop, for at most [n] rounds; [None] when they are used up. *)
Fixpoint mp4_rounds (n : nat) (data : list Z) (i : nat) : option (read (option Z)) :=
  match n with
  | O => None
  | S n' =>
      match mp4_round data i with
      | OutOfRange => Some OutOfRange
      | Read (Answer a) => Some (Read a)
      | Read (Next j) => mp4_rounds n' data j
      end
  end.

(** Every round that goes on advances by 8 bytes at least. *)
Definition mp4_fuel (data : list Z) : nat := S (length data).

Definition probe_mp4_duration (data : list Z) : read (option Z) :=
  default (Read None) (mp4_rounds (mp4_fuel data) data 0).

(** ** The probe

    [get url range]: the status and the body, or a transport error. *)
Record Reply : Type := { rp_status : Z; rp_bytes : option (list Z) }.

Definition is_success (status : Z) : bool := (200 <=? status) && (status <? 300).

Definition RANGE : string := "bytes=0-131071".

Definition probe_bytes (data : list Z) : read (option Z) :=
  if bool_decide (length data < 8)%nat then Read None
  else
    at* magic := range_at data 0 4 in
    if bool_decide (magic = [0x1a; 0x45; 0xdf; 0xa3]) then probe_webm_duration data
    else
      at* kind := range_at data 4 8 in
      if is_tag kind "ftyp" || is_tag kind "moov" || is_tag kind "free"
      then probe_mp4_duration data
      else Read None.

Section probe.
Context {N : Type} (get : string → option string → st N (option Reply)).

(** The bytes to look at: of the range request, or of a second one without a range. *)
Definition fetch_head (url : string) : st N (option (list Z)) :=
  let! resp := get url (Some RANGE) in
  match resp with
  | None => st_ret None
  | Some resp =>
      if is_success (rp_status resp) || (rp_status resp =? 206)
      then st_ret (rp_bytes resp)
      else
        let! resp2 := get url None in
        st_ret (match resp2 with Some r => rp_bytes r | None => None end)
  end.

Definition probe_duration (url : string) : st N (read (option Z)) :=
  let! data := fetch_head url in
  st_ret (match data with Some data => probe_bytes data | None => Read None end).
End probe.

(** ** Reading within the slice *)
Lemma byte_at_lt data i : (i < length data)%nat → ∃ b, byte_at data i = Read b.
Proof. intros [b Hb]%lookup_lt_is_Some. exists b. unfold byte_at. by rewrite Hb. Qed.

Lemma from_be_lt data n : ∀ i acc, (i + n ≤ length data)%nat → ∃ v, from_be data i n acc = Read v.
Proof.
  induction n as [|n IH]; intros i acc Hlen; simpl; [eauto|].
  destruct (byte_at_lt data i) as [b ->]; [lia|]. simpl. apply IH. lia.
Qed.

Lemma from_be_past data n i acc :
  (i < length data → length data < i + n → from_be data i n acc = OutOfRange)%nat.
Proof.
  revert i acc. induction n as [|n IH]; intros i acc Hi Hlen; simpl; [lia|].
  destruct (byte_at_lt data i Hi) as [b ->]. simpl.
  destruct (decide (S i < length data)%nat) as [Hlt|Hge]; [apply IH; lia|].
  destruct n as [|n]; simpl; [lia|]. unfold byte_at.
  by rewrite (proj2 (lookup_ge_None _ _)) by lia.
Qed.

Lemma from_be_nonneg data n : ∀ i acc v,
  Forall (λ b, 0 ≤ b) data → 0 ≤ acc → from_be data i n acc = Read v → 0 ≤ v.
Proof.
  induction n as [|n IH]; intros i acc v Hd Ha; simpl; [by intros [= <-]|].
  unfold byte_at. destruct (data !! i) as [b|] eqn:E; simpl; [|done].
  apply IH; [done|]. apply Z.lor_nonneg. split; [by apply Z.shiftl_nonneg|].
  by apply (Forall_lookup_1 _ _ _ _ Hd E).
Qed.

#[local] Arguments from_be : simpl never.

Lemma range_at_le data i j :
  (i ≤ j)%nat → (j ≤ length data)%nat → range_at data i j = Read (take (j - i) (drop i data)).
Proof. intros H1 H2. unfold range_at. by rewrite bool_decide_true. Qed.

Lemma has_id_lt data id : ∀ i, (i + length id ≤ length data)%nat → ∃ b, has_id data i id = Read b.
Proof.
  induction id as [|x id IH]; intros i Hlen; simpl in *; [eauto|].
  destruct (byte_at_lt data i) as [b ->]; [lia|]. simpl.
  destruct (b =? x); [|eauto]. apply IH. lia.
Qed.

Lemma ebml_size_reads data : ∃ r, read_ebml_size data = Read r ∧
  ∀ v n, r = Some (v, n) → (1 ≤ n ≤ length data)%nat.
Proof.
  destruct data as [|first data]; simpl; [by exists None|].
  destruct (bool_decide (8 < _)%nat) eqn:E1; simpl; [by exists None|].
  destruct (bool_decide (S (length data) < _)%nat) eqn:E2; simpl; [by exists None|].
  apply bool_decide_eq_false in E2. rewrite Nat.sub_0_r.
  destruct (from_be_lt (first :: data) (leading_zeros first) 1
    (Z.land first (u8_shr 255 (S (leading_zeros first))))) as [v ->]; [simpl; lia|].
  simpl. eexists. split; [done|]. intros w n [= _ <-]. lia.
Qed.

Definition are_bytes (data : list Z) : Prop := Forall (λ b, 0 ≤ b < 256) data.

Lemma are_bytes_nonneg data : are_bytes data → Forall (λ b, 0 ≤ b) data.
Proof. intros H. eapply Forall_impl; [exact H|]. simpl. lia. Qed.

Lemma ebml_size_nonneg data v n :
  are_bytes data → read_ebml_size data = Read (Some (v, n)) → 0 ≤ v.
Proof.
  intros Hb. destruct data as [|first data]; simpl; [done|].
  destruct (_ || _); [done|].
  destruct (from_be _ _ _ _) as [w|] eqn:E; simpl; [|done]. intros [= <- _].
  apply (from_be_nonneg _ _ _ _ _ (are_bytes_nonneg _ Hb)) in E; [done|].
  apply Z.land_nonneg. left. inversion Hb; lia.
Qed.

Lemma ebml_uint_reads data : are_bytes data → ∃ r, read_ebml_uint data = Read r.
Proof.
  intros Hb. destruct data as [|first data]; [by exists None|]. unfold read_ebml_uint.
  destruct (ebml_size_reads (first :: data)) as (r & E & Hr). rewrite E. simpl read_bind.
  destruct r as [[len off]|]; [|eauto].
  specialize (Hr _ _ eq_refl). apply ebml_size_nonneg in E; [|done].
  destruct (_ || _) eqn:Ec; [eauto|]. apply orb_false_iff in Ec as [E1%Z.ltb_ge E2%Z.ltb_ge].
  destruct (from_be_lt (first :: data) (Z.to_nat len) off 0) as [v ->]; [simpl length in *; lia|]. simpl. eauto.
Qed.

Lemma ebml_float_reads data : are_bytes data → ∃ r, read_ebml_float data = Read r.
Proof.
  intros Hb. destruct data as [|first data]; [by exists None|]. unfold read_ebml_float.
  destruct (ebml_size_reads (first :: data)) as (r & E & Hr). rewrite E. simpl read_bind.
  destruct r as [[len off]|]; [|eauto].
  destruct (_ <? _) eqn:E1; [eauto|]. apply Z.ltb_ge in E1.
  destruct (len =? 4) eqn:E4; [apply Z.eqb_eq in E4 as ->|].
  { destruct (from_be_lt (first :: data) 4 off 0) as [v ->]; [simpl length in *; lia|]. simpl. eauto. }
  destruct (len =? 8) eqn:E8; [apply Z.eqb_eq in E8 as ->|eauto].
  destruct (from_be_lt (first :: data) 8 off 0) as [v ->]; [simpl length in *; lia|]. simpl. eauto.
Qed.

Lemma scan_scale_reads data i scale : are_bytes data → ∃ s, scan_scale data i scale = Read s.
Proof.
  intros Hb. unfold scan_scale. case_bool_decide as Hi; [|eauto].
  destruct (has_id_lt data TimecodeScale i) as [b ->]; [simpl; lia|]. simpl.
  destruct b; [|eauto]. rewrite range_at_le by lia. simpl.
  destruct (ebml_uint_reads (take (length data - (i + 3)) (drop (i + 3) data))) as [r ->];
    [by apply Forall_take, Forall_drop|]. simpl. eauto.
Qed.

Lemma scan_duration_reads data i dur : are_bytes data → ∃ d, scan_duration data i dur = Read d.
Proof.
  intros Hb. unfold scan_duration. case_bool_decide as Hi; [|eauto].
  destruct (has_id_lt data Duration i) as [b ->]; [simpl; lia|]. simpl.
  destruct b; [|eauto]. rewrite range_at_le by lia. simpl.
  destruct (ebml_float_reads (take (length data - (i + 2)) (drop (i + 2) data))) as [r ->];
    [by apply Forall_take, Forall_drop|]. simpl. eauto.
Qed.

Lemma scan_webm_reads n data : ∀ i scale dur,
  are_bytes data → ∃ r, scan_webm n data i scale dur = Read r.
Proof.
  induction n as [|n IH]; intros i scale dur Hb; simpl; [eauto|].
  destruct (scan_scale_reads data i scale Hb) as [s ->]. simpl.
  destruct (scan_duration_reads data i dur Hb) as [d ->]. simpl. by apply IH.
Qed.

Lemma webm_reads data : are_bytes data → ∃ r, probe_webm_duration data = Read r.
Proof.
  intros Hb. unfold probe_webm_duration.
  destruct (scan_webm_reads (length data - 12) data 0 1000000 None Hb) as [r ->]. simpl. eauto.
Qed.

(** ** The loop of an MP4 file

    Which indices the loop visits, and when reading at one of them is out of range. *)
Inductive visits (data : list Z) : nat → Prop :=
  | visits_start : visits data 0
  | visits_next i j : visits data i → mp4_round data i = Read (Next j) → visits data j.

(** A movie header of version 1 whose duration the file ends in. *)
Definition cut_header (data : list Z) (i : nat) : Prop :=
  take 4 (drop (i + 4) data) = tag "mvhd" ∧ data !! (i + 8)%nat = Some 1 ∧
  (i + 36 < length data < i + 40)%nat.

Lemma mvhd_reads data i t :
  mvhd_at data i t = OutOfRange ↔
  t = tag "mvhd" ∧ data !! (i + 8)%nat = Some 1 ∧ (i + 36 < length data < i + 40)%nat.
Proof.
  unfold mvhd_at, is_tag. case_bool_decide as Ht; simpl; [|split; [done|tauto]].
  case_bool_decide as H24; [|split; [done|lia]].
  destruct (lookup_lt_is_Some_2 data (i + 8)) as [b Hb]; [lia|].
  unfold byte_at at 1. rewrite Hb. simpl.
  destruct (b =? 0) eqn:E0; simpl.
  { apply Z.eqb_eq in E0 as ->. case_bool_decide as H28; simpl; [|split; [done|by intros (_ & [= ?] & _)]].
    destruct (from_be_lt data 4 (i + 20) 0) as [x ->]; [lia|].
    destruct (from_be_lt data 4 (i + 24) 0) as [y ->]; [lia|]. simpl.
    split; [done|by intros (_ & [= ?] & _)]. }
  destruct (b =? 1) eqn:E1; simpl.
  - apply Z.eqb_eq in E1 as ->. case_bool_decide as H36; [|split; [done|lia]].
    destruct (from_be_lt data 4 (i + 28) 0) as [x ->]; [lia|]. simpl read_bind.
    destruct (decide (i + 40 ≤ length data)%nat) as [Hl|Hl].
    + destruct (from_be_lt data 8 (i + 32) 0) as [y ->]; [lia|]. simpl. split; [done|lia].
    + rewrite (from_be_past data 8 (i + 32)) by lia. simpl. split; [|done]. intros _. repeat split; auto; lia.
  - split; [done|]. intros (_ & [= ->] & _). done.
Qed.

Lemma mp4_round_reads data i : mp4_round data i = OutOfRange ↔ cut_header data i.
Proof.
  unfold mp4_round, cut_header.
  case_bool_decide as H8; [|split; [done|lia]].
  destruct (from_be_lt data 4 i 0) as [sz ->]; [lia|]. simpl read_bind.
  rewrite range_at_le by lia. simpl read_bind.
  replace (i + 8 - (i + 4))%nat with 4%nat by lia.
  rewrite <- mvhd_reads. destruct (mvhd_at _ _ _) as [[s|]|]; simpl; [done| |done].
  destruct (is_container _); [done|]. by destruct (_ || _).
Qed.


(** Each round advances, and stays within the file. *)
Lemma mp4_round_next data i j :
  mp4_round data i = Read (Next j) → (i + 8 ≤ j ≤ length data)%nat.
Proof.
  unfold mp4_round. case_bool_decide as H8; [|done].
  destruct (from_be data i 4 0) as [sz|]; simpl; [|done].
  destruct (range_at _ _ _) as [t|]; simpl; [|done].
  destruct (mvhd_at _ _ _) as [[s|]|]; simpl; [done| |done].
  destruct (is_container t); [intros [= <-]; lia|].
  destruct (_ || _) eqn:E; [done|].
  apply orb_false_iff in E as [E1%Z.ltb_ge E2%Z.ltb_ge]. intros [= <-]. lia.
Qed.

Lemma mp4_rounds_end data : ∀ n i, (length data - i < n)%nat →
  ∃ r, mp4_rounds n data i = Some r.
Proof.
  induction n as [|n IH]; intros i Hn; simpl; [lia|].
  destruct (mp4_round data i) as [[j|a]|] eqn:E; [|eauto|eauto].
  apply mp4_round_next in E. apply IH. lia.
Qed.

Lemma mp4_rounds_range data : ∀ n i, visits data i →
  mp4_rounds n data i = Some OutOfRange → ∃ j, visits data j ∧ cut_header data j.
Proof.
  induction n as [|n IH]; intros i Hv; simpl; [done|].
  destruct (mp4_round data i) as [[j|a]|] eqn:E; [|done|].
  - apply IH. by apply (visits_next _ i).
  - intros _. exists i. split; [done|]. by apply mp4_round_reads.
Qed.

(** What the loop answers from the start it answers from every index it visits. *)
Lemma mp4_rounds_visit data i : visits data i → ∃ k, (k ≤ i)%nat ∧
  ∀ n, mp4_rounds (k + n) data 0 = mp4_rounds n data i.
Proof.
  induction 1 as [|i j _ (k & Hk & IH) E]; [by exists 0%nat|].
  exists (S k). pose proof (mp4_round_next _ _ _ E). split; [lia|]. intros n.
  rewrite (Nat.add_succ_comm k n), IH. simpl. by rewrite E.
Qed.

Lemma visits_le data i : visits data i → (i ≤ length data)%nat.
Proof. destruct 1 as [|i j _ E]; [lia|]. apply mp4_round_next in E. lia. Qed.

Lemma mp4_visit data i : visits data i →
  ∃ n, (length data - i < n)%nat ∧ mp4_rounds (mp4_fuel data) data 0 = mp4_rounds n data i.
Proof.
  intros Hv. destruct (mp4_rounds_visit data i Hv) as (k & Hk & E). pose proof (visits_le _ _ Hv).
  exists (mp4_fuel data - k)%nat. unfold mp4_fuel in *. split; [lia|].
  rewrite <- E. f_equal. lia.
Qed.

Lemma mp4_probe_range data :
  probe_mp4_duration data = OutOfRange ↔ ∃ i, visits data i ∧ cut_header data i.
Proof.
  unfold probe_mp4_duration. split.
  - destruct (mp4_rounds (mp4_fuel data) data 0) as [r|] eqn:E; simpl; [|done].
    intros ->. apply (mp4_rounds_range data (mp4_fuel data) 0); [constructor|done].
  - intros (i & Hv & Hc). destruct (mp4_visit data i Hv) as (n & Hn & ->).
    destruct n as [|n]; [lia|]. simpl. apply mp4_round_reads in Hc. by rewrite Hc.
Qed.

(** ** Writing what the probe reads *)
Fixpoint be (n : nat) (v : Z) : list Z :=
  match n with
  | O => []
  | S n' => v / 256 ^ Z.of_nat n' mod 256 :: be n' v
  end.

Lemma be_length n v : length (be n v) = n.
Proof. induction n as [|n IH]; simpl; congruence. Qed.

Lemma shifted_or a b : 0 ≤ b < 256 → Z.lor (Z.shiftl a 8) b = a * 256 + b.
Proof.
  intros Hb. pose proof (Z.add_lor_land (Z.shiftl a 8) b) as E.
  assert (Hl : Z.land (Z.shiftl a 8) b = 0).
  { apply Z.bits_inj'. intros n Hn. rewrite Z.land_spec, Z.bits_0.
    destruct (decide (n < 8)) as [Hlt|Hge].
    - by rewrite Z.shiftl_spec_low.
    - replace b with (b mod 2 ^ 8) by (apply Z.mod_small; lia).
      rewrite Z.mod_pow2_bits_high by lia. apply andb_false_r. }
  rewrite Hl in E. rewrite Z.shiftl_mul_pow2 in * by lia. change (2 ^ 8) with 256 in *. lia.
Qed.

Lemma byte_at_app pre suf k : byte_at (pre ++ suf) (length pre + k) = byte_at suf k.
Proof. unfold byte_at. by rewrite lookup_app_r, Nat.add_comm, Nat.add_sub by lia. Qed.

Lemma from_be_app pre suf n : ∀ k acc,
  from_be (pre ++ suf) (length pre + k) n acc = from_be suf k n acc.
Proof.
  induction n as [|n IH]; intros k acc; [done|]. unfold from_be; fold from_be.
  rewrite byte_at_app. destruct (byte_at suf k) as [b|]; simpl; [|done].
  by rewrite <- Nat.add_succ_r, IH.
Qed.

Lemma from_be_be n v rest : ∀ pre acc,
  from_be (pre ++ be n v ++ rest) (length pre) n acc
    = Read (acc * 256 ^ Z.of_nat n + v mod 256 ^ Z.of_nat n).
Proof.
  induction n as [|n IH]; intros pre acc.
  { unfold from_be. rewrite Z.pow_0_r, Z.mod_1_r. f_equal. lia. }
  unfold from_be; fold from_be. simpl be. set (b := v / 256 ^ Z.of_nat n mod 256).
  assert (Hb : 0 ≤ b < 256) by (apply Z.mod_pos_bound; lia).
  replace (byte_at _ _) with (Read b).
  2:{ pose proof (byte_at_app pre ((b :: be n v) ++ rest) 0) as E. rewrite Nat.add_0_r in E.
      by rewrite E. }
  simpl read_bind. specialize (IH (pre ++ [b]) (Z.lor (Z.shiftl acc 8) b)).
  rewrite length_app, Nat.add_1_r, <- app_assoc in IH. simpl in IH |- *. rewrite IH. f_equal.
  rewrite shifted_or by done. rewrite Nat2Z.inj_succ, Z.pow_succ_r by lia.
  rewrite (Z.mul_comm 256), Z.rem_mul_r by lia. fold b. nia.
Qed.

Lemma from_be_at n v rest pre k :
  length pre = k → 0 ≤ v < 256 ^ Z.of_nat n → from_be (pre ++ be n v ++ rest) k n 0 = Read v.
Proof. intros <- Hv. rewrite from_be_be, Z.mod_small by done. f_equal. Qed.

(** A box: its length, its type and its contents. *)
Definition mp4_box (t : string) (payload : list Z) : list Z :=
  be 4 (8 + Z.of_nat (length payload)) ++ tag t ++ payload.

(** A box the loop steps over. *)
Record plain (b : string * list Z) : Prop := {
  plain_type : String.length b.1 = 4%nat;
  plain_other : b.1 ∉ ["mvhd"; "moov"; "trak"; "mdia"];
  plain_size : 8 + Z.of_nat (length b.2) < 256 ^ 4
}.

(** The head of a version-0 or version-1 movie header, up to its duration. *)
Definition mvhd_head (version : bool) (size : Z) (created : list Z) (ts dur : Z) : list Z :=
  be 4 size ++ tag "mvhd" ++
  if version then [1; 0; 0; 0] ++ created ++ be 4 ts ++ be 8 dur
  else [0; 0; 0; 0] ++ created ++ be 4 ts ++ be 4 dur.

Lemma tag_length s : length (tag s) = String.length s.
Proof.
  unfold tag. rewrite length_fmap. induction s as [|c s IH]; simpl; congruence.
Qed.

Lemma tag_inj s s' : tag s = tag s' → s = s'.
Proof.
  unfold tag. intros E. apply list_fmap_eq_inj in E.
  - rewrite <- (String.string_of_list_ascii_of_string s), E.
    apply String.string_of_list_ascii_of_string.
  - intros c c' Ec. apply Nat2Z.inj in Ec.
    by rewrite <- (Ascii.ascii_nat_embedding c), Ec, Ascii.ascii_nat_embedding.
Qed.

Lemma is_tag_tag s s' : is_tag (tag s) s' = bool_decide (s = s').
Proof. unfold is_tag. apply bool_decide_ext. split; [apply tag_inj|congruence]. Qed.

(** What a round reads of a box: its size, then its type. *)
Lemma mp4_round_header pre size t rest :
  String.length t = 4%nat → 0 ≤ size < 256 ^ 4 → rest ≠ [] →
  let data := pre ++ be 4 size ++ tag t ++ rest in
  mp4_round data (length pre) =
    at* found := mvhd_at data (length pre) (tag t) in
    match found with
    | Some secs => Read (Answer (Some secs))
    | None =>
        if is_container (tag t) then Read (Next (length pre + 8)%nat)
        else if (size <? 8) || (Z.of_nat (length data) <? Z.of_nat (length pre) + size)
        then Read (Answer None)
        else Read (Next (length pre + Z.to_nat size)%nat)
    end.
Proof.
  intros Ht Hs Hr data.
  assert (Hlen : (length data = length pre + 8 + length rest)%nat).
  { unfold data. rewrite !length_app, be_length, tag_length, Ht. lia. }
  assert (0 < length rest)%nat by (destruct rest; [done|simpl; lia]).
  unfold mp4_round. rewrite bool_decide_true by lia.
  unfold data at 1. rewrite from_be_at by (done || lia). cbn [read_bind].
  rewrite range_at_le by lia. cbn [read_bind].
  replace (length pre + 8 - (length pre + 4))%nat with 4%nat by lia.
  replace (take 4 (drop (length pre + 4) data)) with (tag t); [done|].
  unfold data. rewrite <- drop_drop, drop_app_length.
  rewrite drop_app_length' by (by rewrite be_length).
  by rewrite take_app_length' by (by rewrite tag_length).
Qed.

Lemma mp4_round_plain pre b rest :
  plain b → b.2 ++ rest ≠ [] →
  mp4_round (pre ++ mp4_box b.1 b.2 ++ rest) (length pre)
    = Read (Next (length (pre ++ mp4_box b.1 b.2))).
Proof.
  intros [Ht Ho Hs] Hne. unfold mp4_box. rewrite <- !app_assoc.
  rewrite mp4_round_header by (done || lia).
  unfold mvhd_at, is_container. rewrite !is_tag_tag.
  rewrite (bool_decide_false (b.1 = "mvhd")), (bool_decide_false (b.1 = "moov")),
    (bool_decide_false (b.1 = "trak")), (bool_decide_false (b.1 = "mdia"))
    by (intros E; rewrite E in Ho; set_solver).
  cbn [andb orb read_bind].
  rewrite (proj2 (Z.ltb_ge _ _)) by lia. cbn [orb].
  rewrite (proj2 (Z.ltb_ge _ _)).
  - f_equal. f_equal. rewrite !length_app, be_length, tag_length, Ht. lia.
  - rewrite !length_app, be_length, tag_length, Ht. lia.
Qed.

Lemma mp4_round_moov pre size rest :
  0 ≤ size < 256 ^ 4 → rest ≠ [] →
  mp4_round (pre ++ be 4 size ++ tag "moov" ++ rest) (length pre)
    = Read (Next (length (pre ++ be 4 size ++ tag "moov"))).
Proof.
  intros Hs Hne. rewrite mp4_round_header by done.
  unfold mvhd_at, is_container. rewrite !is_tag_tag.
  rewrite (bool_decide_false ("moov" = "mvhd")), (bool_decide_true ("moov" = "moov")) by done.
  cbn [andb orb read_bind]. f_equal. f_equal. rewrite !length_app, be_length. simpl. lia.
Qed.

Lemma mp4_round_mvhd pre (version : bool) size created ts dur rest :
  0 ≤ size < 256 ^ 4 → length created = (if version then 16 else 8)%nat →
  0 < ts < 256 ^ 4 → 0 ≤ dur < (if version then 256 ^ 8 else 256 ^ 4) → rest ≠ [] →
  mp4_round (pre ++ mvhd_head version size created ts dur ++ rest) (length pre)
    = Read (Answer (Some (seconds_of dur ts))).
Proof.
  intros Hs Hc Hts Hdur Hne. unfold mvhd_head. rewrite <- !app_assoc.
  assert (0 < length rest)%nat by (destruct rest; [done|simpl; lia]).
  rewrite mp4_round_header; [|done|done|by destruct version].
  set (data := pre ++ _). unfold mvhd_at. rewrite is_tag_tag. cbn [andb bool_decide].
  rewrite (bool_decide_true ("mvhd" = "mvhd")) by done. cbn [andb].
  assert (Hlen : (length data = length pre + (if version then 40 else 28) + length rest)%nat).
  { unfold data. destruct version; rewrite !length_app, Hc, !be_length; simpl; lia. }
  rewrite bool_decide_true by (destruct version; lia).
  assert (Hv : byte_at data (length pre + 8) = Read (if version then 1 else 0)).
  { unfold data. rewrite byte_at_app. by destruct version. }
  rewrite Hv. cbn [read_bind].
  destruct version; cbn [Z.eqb andb].
  - rewrite bool_decide_true by lia.
    set (p := pre ++ be 4 size ++ tag "mvhd" ++ [1; 0; 0; 0] ++ created).
    assert (Hp : length p = (length pre + 28)%nat).
    { unfold p. rewrite !length_app, be_length, Hc. simpl. lia. }
    assert (E : data = p ++ be 4 ts ++ be 8 dur ++ rest).
    { unfold data, p. by rewrite <- !app_assoc. }
    rewrite E at 1. rewrite from_be_at by (done || lia). cbn [read_bind].
    rewrite E, (app_assoc p). rewrite from_be_at by (rewrite ?length_app, ?be_length, ?Hp; lia).
    cbn [read_bind]. by rewrite (proj2 (Z.ltb_lt _ _)) by lia.
  - rewrite bool_decide_true by lia.
    set (p := pre ++ be 4 size ++ tag "mvhd" ++ [0; 0; 0; 0] ++ created).
    assert (Hp : length p = (length pre + 20)%nat).
    { unfold p. rewrite !length_app, be_length, Hc. simpl. lia. }
    assert (E : data = p ++ be 4 ts ++ be 4 dur ++ rest).
    { unfold data, p. by rewrite <- !app_assoc. }
    rewrite E at 1. rewrite from_be_at by (done || lia). cbn [read_bind].
    rewrite E, (app_assoc p). rewrite from_be_at by (rewrite ?length_app, ?be_length, ?Hp; lia).
    cbn [read_bind]. by rewrite (proj2 (Z.ltb_lt _ _)) by lia.
Qed.

(** ** The rounded number of seconds

    The quotient is rounded to 53 bits before it is rounded to an integer; for 32-bit
    numbers the first rounding never crosses a half. *)
Lemma rounded_half_up (dur ts : Z) :
  0 ≤ dur < 256 ^ 4 → 0 < ts < 256 ^ 4 →
  let k := (2 * dur + ts) / (2 * ts) in
  let q := rnd (dur * UNIT * UNIT) (ts * UNIT) in
  (2 * k - 1) * UNIT ≤ 2 * q < (2 * k + 1) * UNIT.
Proof.
  intros Hd Ht k q. pose proof UNIT_pos as HU.
  assert (Hk : (2 * k - 1) * ts ≤ 2 * dur < (2 * k + 1) * ts ∧ 0 ≤ k).
  { pose proof (Z.div_mod (2 * dur + ts) (2 * ts) ltac:(lia)).
    pose proof (Z.mod_pos_bound (2 * dur + ts) (2 * ts) ltac:(lia)).
    split; [unfold k; nia|]. apply Z.div_pos; lia. }
  destruct Hk as [[Hlo Hhi] Hk].
  assert (HU2 : UNIT = 2 * 2 ^ 1073) by reflexivity.
  assert (H73 : 0 < 2 ^ 1073) by (apply Z.pow_pos_nonneg; lia).
  split.
  - destruct (decide (k = 0)) as [->|Hk1].
    { assert (0 ≤ q); [|nia]. unfold q, rnd. rewrite (proj2 (Z.ltb_ge _ _)) by nia.
      apply round_pos_nonneg; nia. }
    assert ((2 * k - 1) * 2 ^ 1073 ≤ q); [|nia].
    assert (k ≤ 256 ^ 4).
    { assert (k < 256 ^ 4 + 1); [|lia]. apply Z.div_lt_upper_bound; nia. }
    rewrite <- (rnd_exact (2 * k - 1) 1073 (ts * UNIT)) by (rewrite ?PREC_val; nia).
    apply rnd_mono; [nia|nia|].
    assert ((2 * k - 1) * 2 ^ 1073 * ts ≤ dur * UNIT) by nia. nia.
  - set (s := Z.log2_up (2 * ts)).
    assert (Hs : 2 * ts ≤ 2 ^ s ∧ 2 ^ s < 4 * ts ∧ 1 ≤ s ≤ 40).
    { destruct (Z.log2_up_spec (2 * ts) ltac:(lia)) as [H1 H2]. fold s in H1, H2.
      assert (1 ≤ s) by (apply (Z.log2_up_le_mono 2); lia).
      split; [done|]. split.
      - replace s with (Z.succ (Z.pred s)) by lia. rewrite Z.pow_succ_r by lia. lia.
      - split; [done|]. apply (Z.log2_up_le_mono _ (2 ^ 40)). lia. }
    destruct Hs as (Hs1 & Hs2 & Hs3).
    assert (Hp : 2 ^ s = 2 * 2 ^ (s - 1)).
    { replace s with (Z.succ (s - 1)) at 1 by lia. by rewrite Z.pow_succ_r by lia. }
    set (m := (2 * k + 1) * 2 ^ (s - 1) - 1).
    assert (Hm : 0 ≤ m < PREC) by (rewrite PREC_val; unfold m; nia).
    assert (Hs4 : 2 ^ (s - 1) * 2 ^ (1074 - s) = 2 ^ 1073).
    { rewrite <- Z.pow_add_r by lia. f_equal. lia. }
    assert (0 < 2 ^ (1074 - s)) by (apply Z.pow_pos_nonneg; lia).
    assert (q ≤ m * 2 ^ (1074 - s)); [|unfold m in *; nia].
    rewrite <- (rnd_exact m (1074 - s) (ts * UNIT)) by (done || lia || nia).
    apply rnd_mono; [nia|nia|].
    assert (dur * UNIT ≤ m * 2 ^ (1074 - s) * ts); [|nia].
    assert (HU3 : UNIT = 2 ^ s * 2 ^ (1074 - s)).
    { unfold UNIT. rewrite <- Z.pow_add_r by lia. f_equal. lia. }
    rewrite HU3. assert (dur * 2 ^ s ≤ m * ts); [|nia]. unfold m. nia.
Qed.

Lemma seconds_of_nearest (dur ts : Z) :
  0 ≤ dur < 256 ^ 4 → 0 < ts < 256 ^ 4 →
  seconds_of dur ts = Z.min i32_max ((2 * dur + ts) / (2 * ts)).
Proof.
  intros Hd Ht. pose proof (rounded_half_up dur ts Hd Ht) as Hq. simpl in Hq.
  set (k := (2 * dur + ts) / (2 * ts)) in *. pose proof UNIT_pos as HU.
  assert (Hk : 0 ≤ k ≤ 256 ^ 4).
  { split; [apply Z.div_pos; lia|]. assert (k < 256 ^ 4 + 1); [|lia].
    apply Z.div_lt_upper_bound; nia. }
  unfold seconds_of. rewrite !f64_of_Z_small by (rewrite PREC_val; lia). unfold f64_div.
  rewrite (proj2 (Z.eqb_neq _ _)), (proj2 (Z.ltb_ge _ _)) by nia.
  set (q := rnd _ _) in *.
  assert (Hq0 : 0 ≤ q).
  { unfold q, rnd. rewrite (proj2 (Z.ltb_ge _ _)) by nia. apply round_pos_nonneg; nia. }
  unfold f64_make. rewrite (proj2 (Z.leb_gt _ _)).
  2:{ rewrite Z.abs_eq by done. pose proof (UNIT_lt_OVER (256 ^ 4 + 1) ltac:(rewrite PREC_val; lia)).
      nia. }
  unfold f64_round, f64_as_i32.
  assert (E : round_half_away q = k).
  { unfold round_half_away. rewrite (Z.abs_eq q) by done.
    destruct (decide (q = 0)) as [->|Hne].
    - simpl Z.sgn. rewrite Z.mul_0_l. nia.
    - rewrite Z.sgn_pos, Z.mul_1_l by lia. symmetry. apply (Z.div_unique _ _ _ (2 * q + UNIT - 2 * UNIT * k)); nia. }
  rewrite E, Z.quot_mul by lia. unfold i32_min, i32_max. lia.
Qed.

(** ** Whole files *)
Definition mp4_boxes (l : list (string * list Z)) : list Z :=
  concat ((λ b, mp4_box b.1 b.2) <$> l).

(** A file of plain boxes, then the movie box with plain boxes before its header. *)
Definition mp4_file (before : list (string * list Z)) (moov_size : Z)
    (within : list (string * list Z)) (header rest : list Z) : list Z :=
  mp4_boxes before ++ be 4 moov_size ++ tag "moov" ++ mp4_boxes within ++ header ++ rest.

Lemma mp4_boxes_cons b l : mp4_boxes (b :: l) = mp4_box b.1 b.2 ++ mp4_boxes l.
Proof. done. Qed.

Lemma visits_boxes l : ∀ pre rest,
  Forall plain l → rest ≠ [] → let data := pre ++ mp4_boxes l ++ rest in
  visits data (length pre) → visits data (length (pre ++ mp4_boxes l)).
Proof.
  induction l as [|b l IH]; intros pre rest Hl Hr data; unfold data; clear data.
  { by rewrite app_nil_r. }
  inversion Hl as [|? ? Hb Hl']; subst. rewrite mp4_boxes_cons, <- !app_assoc. intros Hv.
  specialize (IH (pre ++ mp4_box b.1 b.2) rest Hl' Hr). cbv zeta in IH.
  rewrite <- !app_assoc in IH. apply IH.
  apply (visits_next _ (length pre)); [done|]. apply mp4_round_plain; [done|].
  by intros [_ [_ ?]%app_nil]%app_nil.
Qed.

Lemma app_ne_nil_r {A} (l k : list A) : k ≠ [] → l ++ k ≠ [].
Proof. by intros Hk [_ ?]%app_nil. Qed.

Lemma visits_header before moov_size within header rest :
  Forall plain before → Forall plain within → 0 ≤ moov_size < 256 ^ 4 → header ++ rest ≠ [] →
  visits (mp4_file before moov_size within header rest)
    (length (mp4_boxes before ++ be 4 moov_size ++ tag "moov" ++ mp4_boxes within)).
Proof.
  intros Hb Hw Hm Hr. unfold mp4_file.
  assert (Hv : visits (mp4_boxes before ++ be 4 moov_size ++ tag "moov" ++ mp4_boxes within
    ++ header ++ rest) (length (mp4_boxes before ++ be 4 moov_size ++ tag "moov"))).
  { apply (visits_next _ (length (mp4_boxes before))).
    - apply (visits_boxes before []); [done|by apply app_ne_nil_r|constructor].
    - apply mp4_round_moov; [done|]. by apply app_ne_nil_r. }
  pose proof (visits_boxes within (mp4_boxes before ++ be 4 moov_size ++ tag "moov")
    (header ++ rest) Hw Hr) as Hvb. cbv zeta in Hvb. rewrite <- !app_assoc in Hvb.
  by apply Hvb.
Qed.

(** An MP4 file the probe reads as one. *)
Definition is_mp4 (data : list Z) : Prop :=
  (8 ≤ length data)%nat ∧ take 4 data ≠ [0x1a; 0x45; 0xdf; 0xa3] ∧
  ∃ t, t ∈ ["ftyp"; "moov"; "free"] ∧ take 4 (drop 4 data) = tag t.

Lemma probe_mp4 data : is_mp4 data → probe_bytes data = probe_mp4_duration data.
Proof.
  intros (Hl & Hm & t & Ht & E). unfold probe_bytes. rewrite bool_decide_false by lia.
  rewrite range_at_le by lia. cbn [read_bind]. rewrite drop_0.
  rewrite bool_decide_false by done.
  rewrite range_at_le by lia. cbn [read_bind]. change (8 - 4)%nat with 4%nat. rewrite E, !is_tag_tag.
  by repeat (apply elem_of_cons in Ht as [->|Ht]; [done|]); apply elem_of_nil in Ht.
Qed.

Lemma probe_range data : are_bytes data →
  probe_bytes data = OutOfRange ↔ is_mp4 data ∧ probe_mp4_duration data = OutOfRange.
Proof.
  intros Hb. split; [|by intros [Hm E]; rewrite probe_mp4].
  unfold probe_bytes. case_bool_decide as Hl; [done|].
  rewrite range_at_le by lia. cbn [read_bind]. rewrite drop_0.
  case_bool_decide as Hm; [by destruct (webm_reads data Hb) as [r ->]|].
  rewrite range_at_le by lia. cbn [read_bind]. change (8 - 4)%nat with 4%nat.
  destruct (_ || _) eqn:E; [|done]. intros E'. split; [|done]. split; [lia|]. split; [done|].
  rewrite !orb_true_iff in E. unfold is_tag in E. rewrite !bool_decide_eq_true in E.
  destruct E as [[E|E]|E]; eexists; (split; [|exact E]); set_solver.
Qed.

(** C40. Probing the length of an ad's file always comes to an end, whatever the server of
    the file sends: the loop over the boxes of an MP4 never runs out of the rounds the length
    of the data gives it, a WebM file is scanned without reading outside of the data, and the
    only data that take the probe out of range (a panic of the request) are MP4 files that
    end within the last three bytes of the duration of a version-1 movie header the loop
    comes to. *)
Theorem probe_ends_in_range data : are_bytes data →
  is_Some (mp4_rounds (mp4_fuel data) data 0) ∧
  (probe_bytes data = OutOfRange ↔ is_mp4 data ∧ ∃ i, visits data i ∧ cut_header data i).
Proof.
  intros Hb. split.
  - destruct (mp4_rounds_end data (mp4_fuel data) 0) as [r ->]; [unfold mp4_fuel; lia|done].
  - by rewrite probe_range, mp4_probe_range.
Qed.

(** C39. The probe reads what a muxer writes: of a file that starts with its file-type box,
    with any other boxes before the movie box and before the movie header, it returns the
    duration of the header in seconds, rounded to the nearest (a half up) and capped at the
    largest i32, for both versions of the header and all 32-bit durations and time scales. *)
Theorem probe_reads_the_duration brands before moov_size within (version : bool) size created
    ts dur rest :
  8 + Z.of_nat (length brands) < 0x1a45dfa3 →
  Forall plain before → Forall plain within → 0 ≤ moov_size < 256 ^ 4 → 0 ≤ size < 256 ^ 4 →
  length created = (if version then 16 else 8)%nat →
  0 < ts < 256 ^ 4 → 0 ≤ dur < 256 ^ 4 → rest ≠ [] →
  probe_bytes (mp4_file (("ftyp", brands) :: before) moov_size within
    (mvhd_head version size created ts dur) rest)
  = Read (Some (Z.min i32_max ((2 * dur + ts) / (2 * ts)))).
Proof.
  intros Hbr Hb Hw Hm Hs Hc Hts Hd Hr.
  assert (Hf : Forall plain (("ftyp", brands) :: before)).
  { constructor; [|done]. split; simpl; [done|set_solver|lia]. }
  set (hd := mvhd_head _ _ _ _ _). rewrite probe_mp4.
  - unfold probe_mp4_duration.
    destruct (mp4_visit _ _ (visits_header _ moov_size within hd rest Hf Hw Hm (app_ne_nil_r _ _ Hr)))
      as (n & Hn & ->). destruct n as [|n]; [lia|]. cbn [mp4_rounds].
    set (pre := mp4_boxes _ ++ _ ++ _ ++ _) in *.
    replace (mp4_file _ _ _ _ _) with (pre ++ hd ++ rest)
      by (unfold pre, mp4_file; by rewrite <- !app_assoc).
    unfold hd. rewrite mp4_round_mvhd; [|done..| |done].
    + by rewrite seconds_of_nearest.
    + destruct version; lia.
  - unfold mp4_file, mp4_boxes. cbn [fmap list_fmap concat fst snd]. unfold mp4_box.
    rewrite <- !app_assoc. split; [rewrite !length_app, be_length; simpl; lia|]. split.
    + rewrite take_app_length' by (by rewrite be_length). intros E.
      pose proof (from_be_at 4 (8 + Z.of_nat (length brands)) [] [] 0 eq_refl ltac:(lia)) as H1.
      rewrite app_nil_r, app_nil_l, E in H1.
      change (from_be _ _ _ _) with (Read (A := Z) 0x1a45dfa3) in H1. injection H1. lia.
    + exists "ftyp". split; [set_solver|].
      rewrite drop_app_length' by (by rewrite be_length). by rewrite take_app_length'.
Qed.

(** ** EBML sizes

    A size of [n] bytes is its value with the bit [7 * n] set, big endian. *)
Definition ebml_size (n : nat) (v : Z) : list Z := be n (2 ^ (7 * Z.of_nat n) + v).

Lemma leading_zeros_marker n top :
  (1 ≤ n ≤ 8)%nat → 0 ≤ top < 2 ^ (8 - Z.of_nat n) →
  leading_zeros (2 ^ (8 - Z.of_nat n) + top) = (n - 1)%nat.
Proof.
  intros Hn Ht. unfold leading_zeros. rewrite (proj2 (Z.eqb_neq _ _)) by lia.
  rewrite (Z.log2_unique _ (8 - Z.of_nat n)); [lia|lia|].
  rewrite Z.pow_succ_r by lia. lia.
Qed.

(** The first byte of a size, and what is left of the value below it. *)
Lemma ebml_parts n v :
  (1 ≤ n ≤ 8)%nat → 0 ≤ v < 2 ^ (7 * Z.of_nat n) →
  let p := 256 ^ Z.of_nat (n - 1) in
  (2 ^ (7 * Z.of_nat n) + v) / p mod 256 = 2 ^ (8 - Z.of_nat n) + v / p ∧
  0 ≤ v / p < 2 ^ (8 - Z.of_nat n) ∧ (2 ^ (7 * Z.of_nat n) + v) mod p = v mod p.
Proof.
  intros Hn Hv p.
  assert (Hp : p = 2 ^ (8 * Z.of_nat n - 8)).
  { unfold p. change 256 with (2 ^ 8). rewrite <- Z.pow_mul_r by lia. f_equal. lia. }
  assert (E : 2 ^ (7 * Z.of_nat n) = 2 ^ (8 - Z.of_nat n) * p).
  { rewrite Hp, <- Z.pow_add_r by lia. f_equal. lia. }
  assert (0 < p) by (rewrite Hp; apply Z.pow_pos_nonneg; lia).
  assert (Ht : 0 ≤ v / p < 2 ^ (8 - Z.of_nat n)).
  { split; [apply Z.div_pos; lia|]. apply Z.div_lt_upper_bound; lia. }
  assert (2 ^ (8 - Z.of_nat n) ≤ 2 ^ 7) by (apply Z.pow_le_mono_r; lia).
  rewrite E, Z.div_add_l, (Z.add_comm (_ * p)), Z.mod_add by lia.
  split; [|done]. apply Z.mod_small. lia.
Qed.

Lemma read_ebml_marked n v rest :
  (1 ≤ n ≤ 8)%nat → 0 ≤ v < 2 ^ (7 * Z.of_nat n) →
  let p := 256 ^ Z.of_nat (n - 1) in
  let first := 2 ^ (8 - Z.of_nat n) + v / p in
  read_ebml_size (ebml_size n v ++ rest)
    = Read (Some (Z.land first (u8_shr 255 n) * p + v mod p, n)).
Proof.
  intros Hn Hv p first. destruct (ebml_parts n v Hn Hv) as (Ef & Ht & Em). fold p in Ef, Ht, Em.
  unfold ebml_size. destruct n as [|n]; [lia|]. cbn [be app].
  assert (Hp : 256 ^ Z.of_nat n = p) by (unfold p; do 2 f_equal; lia).
  rewrite Hp, Ef. fold first.
  pose proof (leading_zeros_marker (S n) (v / p) Hn Ht) as Hz. fold first in Hz.
  unfold read_ebml_size. rewrite Hz.
  rewrite bool_decide_false by lia. rewrite bool_decide_false.
  2:{ simpl length. rewrite length_app, be_length. lia. }
  cbn [orb]. replace (S (S n - 1)) with (S n) by lia.
  replace (S n - 1)%nat with n by lia.
  pose proof (from_be_be n (2 ^ (7 * Z.of_nat (S n)) + v) rest [first]
    (Z.land first (u8_shr 255 (S n)))) as E. cbn [app length] in E. rewrite E.
  cbn [read_bind]. by rewrite Hp, Em.
Qed.

(** Up to seven bytes, a size is read as it was written. *)
Lemma ebml_size_round_trip n v rest :
  (1 ≤ n ≤ 7)%nat → 0 ≤ v < 2 ^ (7 * Z.of_nat n) →
  read_ebml_size (ebml_size n v ++ rest) = Read (Some (v, n)).
Proof.
  intros Hn Hv. rewrite read_ebml_marked by (done || lia). do 3 f_equal.
  destruct (ebml_parts n v ltac:(lia) Hv) as (_ & Ht & _).
  set (p := 256 ^ _) in *. set (top := v / p) in *.
  assert (0 < p) by (apply Z.pow_pos_nonneg; lia).
  assert (E : u8_shr 255 n = Z.ones (8 - Z.of_nat n)).
  { unfold u8_shr. rewrite Nat.mod_small by lia.
    do 8 (destruct n as [|n]; [first [lia|done]|]). lia. }
  rewrite E, Z.land_ones by lia.
  replace (2 ^ (8 - Z.of_nat n) + top) with (top + 1 * 2 ^ (8 - Z.of_nat n)) by lia.
  rewrite Z.mod_add by lia.
  rewrite (Z.mod_small top) by done. pose proof (Z.div_mod v p ltac:(lia)). unfold top. lia.
Qed.

(** A size of eight bytes keeps its marker bit: the mask is shifted by the width of its
    type, which leaves it whole. *)
Lemma eight_byte_size v rest :
  0 ≤ v < 2 ^ 56 → read_ebml_size (ebml_size 8 v ++ rest) = Read (Some (2 ^ 56 + v, 8%nat)).
Proof.
  intros Hv. rewrite read_ebml_marked by (done || lia). do 3 f_equal.
  change (8 - 1)%nat with 7%nat. change (256 ^ Z.of_nat 7) with (2 ^ 56).
  rewrite Z.div_small, Z.mod_small by done. reflexivity.
Qed.

(** So an element whose size takes eight bytes is never read. *)
Lemma eight_byte_float_unread v rest :
  0 ≤ v < 2 ^ 56 → Z.of_nat (length rest) < 2 ^ 56 →
  read_ebml_float (ebml_size 8 v ++ rest) = Read None.
Proof.
  intros Hv Hr. assert (E : ebml_size 8 v ++ rest ≠ []) by done.
  unfold read_ebml_float. rewrite eight_byte_size by done. cbn [read_bind].
  rewrite (proj2 (Z.ltb_lt _ _)).
  - by destruct (ebml_size 8 v ++ rest).
  - rewrite length_app. unfold ebml_size. rewrite be_length. lia.
Qed.

(** ** On examples *)
Definition ex_mp4 : list Z :=
  mp4_file [("ftyp", tag "isom0000")] 0 [("free", [0])]
    (mvhd_head false 108 (repeat 0 8) 1000 15500) [0].

Definition ex_cut : list Z :=
  be 4 16 ++ tag "ftyp" ++ tag "isom0000" ++ be 4 0 ++ tag "moov" ++ be 4 120 ++ tag "mvhd" ++
  [1; 0; 0; 0] ++ repeat 0 16 ++ be 4 1000 ++ [0; 0; 0; 0; 0].

Example ex_mp4_secs : probe_bytes ex_mp4 = Read (Some 16).
Proof. by vm_compute. Qed.

(** WebM: a scale of a millisecond and a duration of 12345 as a double. *)
Example ex_webm_secs :
  probe_bytes ([0x1a; 0x45; 0xdf; 0xa3; 0x2A; 0xD7; 0xB1; 0x83; 0x0F; 0x42; 0x40;
                0x44; 0x89; 0x88; 0x40; 0xC8; 0x1C; 0x80; 0; 0; 0; 0] ++ repeat 0 12)
  = Read (Some 12).
Proof. by vm_compute. Qed.

Lemma probe_reads_the_duration_witness :
  probe_bytes ex_mp4 = Read (Some (Z.min i32_max ((2 * 15500 + 1000) / (2 * 1000)))).
Proof.
  apply (probe_reads_the_duration (tag "isom0000") [] 0 [("free", [0])] false 108 (repeat 0 8)
    1000 15500 [0]); try done; try lia.
  constructor; [|constructor]. split; simpl; [done|set_solver|lia].
Defined.

Lemma probe_ends_in_range_witness :
  probe_bytes ex_cut = OutOfRange ∧
  (probe_bytes ex_cut = OutOfRange ↔
    is_mp4 ex_cut ∧ ∃ i, visits ex_cut i ∧ cut_header ex_cut i).
Proof.
  split; [by vm_compute|]. apply (probe_ends_in_range ex_cut).
  unfold are_bytes. apply (bool_decide_unpack _). by vm_compute.
Defined.
