(* ===== verification/Ads.v ===== *)
(** * Ads: creatives, insertion rules, impressions and the decision for a viewer

    The crate mm-ads, but for its file probe (in [MediaProbe]) and its hourly statistics:
    [creative.rs], [rules.rs], [impression.rs], [platform_policy.rs], [enforcement.rs] and
    [decision.rs]. The engine runs inside of concurrent requests, so the decision is a
    program cut at its statements. *)
From S2P Require Import Prelude F64 ApiSchema Json Schema Errors MoneyDb Interleave.
Local Open Scope Z_scope.
Local Open Scope mm_scope.

(** ** creative.rs *)
Module AdSlot.
Inductive t : Type := PreRoll | MidRoll | PostRoll | Any.

#[export] Instance eq_dec : EqDecision t.
Proof. solve_decision. Defined.

Definition as_str (s : t) : string :=
  match s with
  | PreRoll => "pre_roll" | MidRoll => "mid_roll" | PostRoll => "post_roll" | Any => "any"
  end.

Definition from_str (s : string) : option t :=
  if String.eqb s "pre_roll" then Some PreRoll
  else if String.eqb s "mid_roll" then Some MidRoll
  else if String.eqb s "post_roll" then Some PostRoll
  else if String.eqb s "any" then Some Any
  else None.

(** Whether this slot matches a requested one. *)
Definition matches (s requested : t) : bool :=
  bool_decide (s = Any) || bool_decide (s = requested).
End AdSlot.

Module OwnerType.
Inductive t : Type := Creator | Platform.
Definition as_str (o : t) : string :=
  match o with Creator => "creator" | Platform => "platform" end.
End OwnerType.

Module AdStatus.
Inductive t : Type := Processing | Ready | Paused | Deleted.
Definition as_str (s : t) : string :=
  match s with
  | Processing => "processing" | Ready => "ready" | Paused => "paused" | Deleted => "deleted"
  end.
End AdStatus.

Definition ads_of (t : Tables) : AdTables := a_ads (t_api t).

Definition set_creatives (l : list CreativeRec) (d : AdTables) : AdTables := {|
  d_creatives := l; d_rules := d_rules d; d_impressions := d_impressions d;
  d_policies := d_policies d |}.
Definition set_rule_rows (l : list RuleRec) (d : AdTables) : AdTables := {|
  d_creatives := d_creatives d; d_rules := l; d_impressions := d_impressions d;
  d_policies := d_policies d |}.
Definition set_impressions (l : list ImpressionRec) (d : AdTables) : AdTables := {|
  d_creatives := d_creatives d; d_rules := d_rules d; d_impressions := l;
  d_policies := d_policies d |}.
Definition set_policies (l : list PolicyRec) (d : AdTables) : AdTables := {|
  d_creatives := d_creatives d; d_rules := d_rules d; d_impressions := d_impressions d;
  d_policies := l |}.

Definition on_ads {A} (f : DateTime → AdTables → result (A * AdTables) db_error) : stmt A :=
  on_api (λ now a, match f now (a_ads a) with
                   | Ok (x, d) => Ok (x, set_ads d a)
                   | Err e => Err e
                   end).

(** The CHECK constraints of mm_ad_creatives, in the order of their names. *)
Definition check_creative (c : CreativeRec) : result () db_error :=
  if negb ((0 <? ac_duration_secs c) && (ac_duration_secs c <=? 120))
  then Err (violates "mm_ad_creatives_duration_secs_check")
  else if negb (bool_decide (ac_owner_type c ∈ ["creator"; "platform"]))
  then Err (violates "mm_ad_creatives_owner_type_check")
  else if negb (bool_decide (ac_placement c ∈ ["pre_roll"; "mid_roll"; "post_roll"; "any"]))
  then Err (violates "mm_ad_creatives_placement_check")
  else if negb (bool_decide (ac_status c ∈ ["processing"; "ready"; "paused"; "deleted"]))
  then Err (violates "mm_ad_creatives_status_check")
  else Ok ().

Definition insert_creative (c : CreativeRec) : stmt () := on_ads (λ _ d,
  match check_creative c with
  | Err e => Err e
  | Ok _ =>
      if existsb (λ c', String.eqb (ac_id c') (ac_id c)) (d_creatives d)
      then Err (violates "mm_ad_creatives_pkey")
      else Ok ((), set_creatives (d_creatives d ++ [c]) d)
  end).

(** UPDATE mm_ad_creatives SET ... WHERE id = $1: every new row is checked. *)
Fixpoint update_creatives (p : CreativeRec → bool) (f : CreativeRec → CreativeRec)
    (l : list CreativeRec) : result (list CreativeRec) db_error :=
  match l with
  | [] => Ok []
  | c :: l' =>
      match update_creatives p f l' with
      | Err e => Err e
      | Ok rest =>
          if p c then match check_creative (f c) with Ok _ => Ok (f c :: rest) | Err e => Err e end
          else Ok (c :: rest)
      end
  end.

Definition update_creative_where (id : string) (f : DateTime → CreativeRec → CreativeRec) :
    stmt () := on_ads (λ now d,
  match update_creatives (λ c, String.eqb (ac_id c) id) (f now) (d_creatives d) with
  | Ok l => Ok ((), set_creatives l d)
  | Err e => Err e
  end).

Definition not_deleted (c : CreativeRec) : bool := negb (String.eqb (ac_status c) "deleted").

(** *** CreativeService *)
Definition create_creative (c : CreativeRec) : st Db (result () db_error) :=
  exec (insert_creative c).

Definition get_creative (id : string) : st Db (result (option CreativeRec) db_error) :=
  exec (reading (λ t, head (List.filter (λ c, String.eqb (ac_id c) id && not_deleted c)
    (d_creatives (ads_of t))))).

Definition list_by_owner (owner_type owner_id : string) :
    st Db (result (list CreativeRec) db_error) :=
  exec (reading (λ t, order_desc ac_created_at
    (List.filter (λ c, String.eqb (ac_owner_type c) owner_type &&
       String.eqb (ac_owner_id c) owner_id && not_deleted c) (d_creatives (ads_of t))))).

Definition ready_for_slot (owner_type : string) (owner_id : option string) (placement : string)
    (c : CreativeRec) : bool :=
  String.eqb (ac_owner_type c) owner_type &&
  match owner_id with Some oid => String.eqb (ac_owner_id c) oid | None => true end &&
  String.eqb (ac_status c) "ready" &&
  (String.eqb (ac_placement c) placement || String.eqb (ac_placement c) "any").

Definition list_ready_for_slot (owner_type : string) (owner_id : option string)
    (placement : string) : st Db (result (list CreativeRec) db_error) :=
  exec (reading (λ t, order_desc ac_created_at
    (List.filter (ready_for_slot owner_type owner_id placement) (d_creatives (ads_of t))))).

Definition with_creative_status (status : string) (now : DateTime) (c : CreativeRec) : CreativeRec := {|
  ac_id := ac_id c; ac_owner_type := ac_owner_type c; ac_owner_id := ac_owner_id c;
  ac_title := ac_title c; ac_placement := ac_placement c;
  ac_duration_secs := ac_duration_secs c; ac_storage_key := ac_storage_key c;
  ac_storage_backend := ac_storage_backend c; ac_cdn_url := ac_cdn_url c;
  ac_mime_type := ac_mime_type c; ac_file_size_bytes := ac_file_size_bytes c;
  ac_click_through_url := ac_click_through_url c; ac_categories := ac_categories c;
  ac_status := status; ac_created_at := ac_created_at c; ac_updated_at := now |}.

Definition update_creative_status (id status : string) : st Db (result () db_error) :=
  exec (update_creative_where id (with_creative_status status)).

Definition soft_delete (id : string) : st Db (result () db_error) :=
  update_creative_status id "deleted".

Definition list_all_creatives (n : Z) : st Db (result (list CreativeRec) db_error) :=
  exec (reading (λ t, limit n (order_desc ac_created_at
    (List.filter not_deleted (d_creatives (ads_of t)))))).

Definition coalesce {A} (a : option A) (b : A) : A := default b a.
Definition coalesce_opt {A} (a b : option A) : option A := match a with Some _ => a | None => b end.

(** The columns an update may name; [None] keeps the value. *)
Record CreativePatch : Type := {
  cu_title : option string;
  cu_placement : option string;
  cu_status : option string;
  cu_click_through_url : option string;
  cu_categories : option json_value;
  cu_duration_secs : option Z;
  cu_cdn_url : option string;
  cu_file_size_bytes : option Z;
  cu_mime_type : option string
}.

Definition patch_creative (u : CreativePatch) (now : DateTime) (c : CreativeRec) : CreativeRec := {|
  ac_id := ac_id c; ac_owner_type := ac_owner_type c; ac_owner_id := ac_owner_id c;
  ac_title := coalesce (cu_title u) (ac_title c);
  ac_placement := coalesce (cu_placement u) (ac_placement c);
  ac_duration_secs := coalesce (cu_duration_secs u) (ac_duration_secs c);
  ac_storage_key := ac_storage_key c; ac_storage_backend := ac_storage_backend c;
  ac_cdn_url := coalesce_opt (cu_cdn_url u) (ac_cdn_url c);
  ac_mime_type := coalesce (cu_mime_type u) (ac_mime_type c);
  ac_file_size_bytes := coalesce (cu_file_size_bytes u) (ac_file_size_bytes c);
  ac_click_through_url := coalesce_opt (cu_click_through_url u) (ac_click_through_url c);
  ac_categories := coalesce (cu_categories u) (ac_categories c);
  ac_status := coalesce (cu_status u) (ac_status c);
  ac_created_at := ac_created_at c; ac_updated_at := now |}.

Definition update_creative (id : string) (u : CreativePatch) : st Db (result () db_error) :=
  exec (update_creative_where id (patch_creative u)).

(** ** rules.rs *)
Module RuleType.
Inductive t : Type :=
  | Always | TimeInterval | ViewerCountMin | ViewerCountMax | CategoryMatch | TimeOfDay
  | Probability.

Definition as_str (r : t) : string :=
  match r with
  | Always => "always" | TimeInterval => "time_interval"
  | ViewerCountMin => "viewer_count_min" | ViewerCountMax => "viewer_count_max"
  | CategoryMatch => "category_match" | TimeOfDay => "time_of_day"
  | Probability => "probability"
  end.

Definition from_str (s : string) : option t :=
  if String.eqb s "always" then Some Always
  else if String.eqb s "time_interval" then Some TimeInterval
  else if String.eqb s "viewer_count_min" then Some ViewerCountMin
  else if String.eqb s "viewer_count_max" then Some ViewerCountMax
  else if String.eqb s "category_match" then Some CategoryMatch
  else if String.eqb s "time_of_day" then Some TimeOfDay
  else if String.eqb s "probability" then Some Probability
  else None.

Lemma rule_type_round_trip r : from_str (as_str r) = Some r.
Proof. by destruct r. Qed.
End RuleType.

Record RuleContext : Type := {
  rx_viewer_count : Z;
  rx_stream_duration_secs : Z;
  rx_categories : list string;
  rx_last_ad_at : option DateTime
}.

(** What the engine reaches: the database, the clock, the randomness of the process, and
    the number parser of serde_json. *)
Class AdHost (S : Type) : Type := {
  ad_db : ∀ {A}, st Db A → st S A;
  ad_utc_now : st S DateTime;
  ad_random_index : nat → st S nat;      (** [random_range(0..n)] *)
  ad_random_unit : st S f64;             (** [random_range(0.0..1.0)] *)
  ad_random_hex : nat → st S string;     (** [hex::encode] of random bytes *)
  ad_uuid : st S string;
  ad_json_f64 : string → option f64      (** [Number::as_f64] *)
}.

Definition as_u64 (v : json_value) : option Z :=
  match v with JNum t => in_range 0 u64_max (json_int t) | _ => None end.

(** Indexing a value by a key: of anything else than an object with the key it is null. *)
Definition jindex (name : string) (v : json_value) : json_value := default JNull (jget name v).

Definition config_u64 (r : RuleRec) (name : string) (dflt : Z) : Z :=
  default dflt (as_u64 (jindex name (ru_rule_config r))).

Definition rule_categories (r : RuleRec) : list string :=
  match jindex "categories" (ru_rule_config r) with
  | JArr a => omap as_str a
  | _ => []
  end.

(** [n as u64] of a signed number. *)
Definition as_u64_cast (z : Z) : Z := z `mod` 18446744073709551616.

Definition hour_of (now : DateTime) : Z := now `div` (3600 * NANOS) `mod` 24.

Definition time_interval_matches (r : RuleRec) (last now : DateTime) : bool :=
  config_u64 r "interval_secs" 1200 <=? as_u64_cast (num_seconds (now - last)).

Definition time_of_day_matches (r : RuleRec) (now_hour : Z) : bool :=
  let start := u32_wrap (config_u64 r "start_hour_utc" 0) in
  let stop := u32_wrap (config_u64 r "end_hour_utc" 24) in
  if start <=? stop then (start <=? now_hour) && (now_hour <? stop)
  else (start <=? now_hour) || (now_hour <? stop).

Section engine.
Context {S : Type} `{AdHost S}.

Definition evaluate_rule (r : RuleRec) (ctx : RuleContext) : prog S bool :=
  if negb (ru_active r) then Done false
  else
  match RuleType.from_str (ru_rule_type r) with
  | None => Done false
  | Some RuleType.Always => Done true
  | Some RuleType.TimeInterval =>
      match rx_last_ad_at ctx with
      | Some last => do! now := atom ad_utc_now in Done (time_interval_matches r last now)
      | None => Done true
      end
  | Some RuleType.ViewerCountMin =>
      Done (u32_wrap (config_u64 r "min_viewers" 0) <=? rx_viewer_count ctx)
  | Some RuleType.ViewerCountMax =>
      Done (rx_viewer_count ctx <=? u32_wrap (config_u64 r "max_viewers" u64_max))
  | Some RuleType.CategoryMatch =>
      Done (existsb (λ c, existsb (String.eqb c) (rule_categories r)) (rx_categories ctx))
  | Some RuleType.TimeOfDay =>
      do! now := atom ad_utc_now in Done (time_of_day_matches r (hour_of now))
  | Some RuleType.Probability =>
      let prob := default (f64_of_Z 1)
        (match jindex "probability" (ru_rule_config r) with
         | JNum t => ad_json_f64 t | _ => None end) in
      do! x := atom ad_random_unit in Done (f64_lt x prob)
  end.

(** [any]: stops at the first rule that matches. *)
Fixpoint evaluate_rules (rules : list RuleRec) (ctx : RuleContext) : prog S bool :=
  match rules with
  | [] => Done false
  | r :: rest =>
      do! b := evaluate_rule r ctx in
      if b : bool then Done true else evaluate_rules rest ctx
  end.
End engine.

(** *** RuleService *)
Definition rule_types : list string := RuleType.as_str <$>
  [RuleType.Always; RuleType.TimeInterval; RuleType.ViewerCountMin; RuleType.ViewerCountMax;
   RuleType.CategoryMatch; RuleType.TimeOfDay; RuleType.Probability].

Definition delete_rules (ad_id : string) : stmt () := on_ads (λ _ d,
  Ok ((), set_rule_rows (List.filter (λ r, negb (String.eqb (ru_ad_id r) ad_id)) (d_rules d)) d)).

Definition insert_rule (ad_id : string) (r : RuleRec) : stmt () := on_ads (λ now d,
  if negb (bool_decide (ru_rule_type r ∈ rule_types)) then Err (violates "mm_ad_rules_rule_type_check")
  else if existsb (λ r', String.eqb (ru_id r') (ru_id r)) (d_rules d)
  then Err (violates "mm_ad_rules_pkey")
  else if negb (existsb (λ c, String.eqb (ac_id c) ad_id) (d_creatives d))
  then Err (violates "mm_ad_rules_ad_id_fkey")
  else Ok ((), set_rule_rows (d_rules d ++ [{|
    ru_id := ru_id r; ru_ad_id := ad_id; ru_rule_type := ru_rule_type r;
    ru_rule_config := ru_rule_config r; ru_priority := ru_priority r;
    ru_active := ru_active r; ru_created_at := now |}]) d)).

(** Each statement is a transaction of its own. *)
Definition set_rules (ad_id : string) (rules : list RuleRec) : st Db (result () db_error) :=
  let? _ := exec (delete_rules ad_id) in
  st_try_each (λ r, exec (insert_rule ad_id r)) rules.

Definition active_rules (ad_id : string) (t : Tables) : list RuleRec :=
  order_desc ru_priority
    (List.filter (λ r, String.eqb (ru_ad_id r) ad_id && ru_active r) (d_rules (ads_of t))).

Definition list_rules (ad_id : string) : st Db (result (list RuleRec) db_error) :=
  exec (reading (active_rules ad_id)).

(** ** platform_policy.rs *)
Definition create_policy (p : PolicyRec) : st Db (result () db_error) :=
  exec (on_ads (λ _ d,
    if existsb (λ p', String.eqb (po_id p') (po_id p)) (d_policies d)
    then Err (violates "mm_ad_platform_policy_pkey")
    else Ok ((), set_policies (d_policies d ++ [p]) d))).

Definition list_active_policies : st Db (result (list PolicyRec) db_error) :=
  exec (reading (λ t, order_desc po_priority (List.filter po_active (d_policies (ads_of t))))).

Definition deactivate (now : DateTime) (p : PolicyRec) : PolicyRec := {|
  po_id := po_id p; po_slot := po_slot p; po_rule_type := po_rule_type p;
  po_rule_config := po_rule_config p; po_priority := po_priority p; po_active := false;
  po_created_at := po_created_at p; po_updated_at := now |}.

Definition delete_policy (id : string) : st Db (result () db_error) :=
  exec (on_ads (λ now d, Ok ((), set_policies
    ((λ p, if String.eqb (po_id p) id then deactivate now p else p) <$> d_policies d) d))).

(** ** impression.rs *)
Module AdEvent.
Inductive t : Type :=
  | Decision | Impression | Quartile25 | Quartile50 | Quartile75 | Completed | Skipped
  | Clicked | Error.

Definition as_str (e : t) : string :=
  match e with
  | Decision => "decision" | Impression => "impression" | Quartile25 => "quartile_25"
  | Quartile50 => "quartile_50" | Quartile75 => "quartile_75" | Completed => "completed"
  | Skipped => "skipped" | Clicked => "clicked" | Error => "error"
  end.

Definition from_str (s : string) : option t :=
  if String.eqb s "decision" then Some Decision
  else if String.eqb s "impression" then Some Impression
  else if String.eqb s "quartile_25" then Some Quartile25
  else if String.eqb s "quartile_50" then Some Quartile50
  else if String.eqb s "quartile_75" then Some Quartile75
  else if String.eqb s "completed" then Some Completed
  else if String.eqb s "skipped" then Some Skipped
  else if String.eqb s "clicked" then Some Clicked
  else if String.eqb s "error" then Some Error
  else None.

Lemma ad_event_round_trip e : from_str (as_str e) = Some e.
Proof. by destruct e. Qed.

Definition quartile_number (e : t) : option Z :=
  match e with
  | Quartile25 => Some 1 | Quartile50 => Some 2 | Quartile75 => Some 3 | Completed => Some 4
  | _ => None
  end.
End AdEvent.

Definition new_impression (id token ad_id stream_id viewer slot owner_type : string)
    (now : DateTime) : ImpressionRec := {|
  im_id := id; im_impression_token := token; im_ad_id := ad_id; im_stream_id := stream_id;
  im_viewer_user_id := viewer; im_slot := slot; im_owner_type := owner_type;
  im_decided_at := now; im_started_at := None; im_completed_at := None; im_skipped_at := None;
  im_clicked_at := None; im_error_at := None; im_watch_duration_secs := None;
  im_quartile_reached := 0; im_viewport_visible := None; im_audio_audible := None;
  im_sfu_revoked_at := None; im_sfu_restored_at := None |}.

(** The primary key, the unique token, and the reference to the creative. *)
Definition insert_impression (id token ad_id stream_id viewer slot owner_type : string) :
    stmt string := on_ads (λ now d,
  if existsb (λ i, String.eqb (im_id i) id) (d_impressions d)
  then Err (violates "mm_ad_impressions_pkey")
  else if existsb (λ i, String.eqb (im_impression_token i) token) (d_impressions d)
  then Err (violates "mm_ad_impressions_impression_token_key")
  else if negb (existsb (λ c, String.eqb (ac_id c) ad_id) (d_creatives d))
  then Err (violates "mm_ad_impressions_ad_id_fkey")
  else Ok (id, set_impressions (d_impressions d ++
    [new_impression id token ad_id stream_id viewer slot owner_type now]) d)).

Definition with_progress (started completed skipped clicked error : option DateTime) (quartile : Z)
    (i : ImpressionRec) : ImpressionRec := {|
  im_id := im_id i; im_impression_token := im_impression_token i; im_ad_id := im_ad_id i;
  im_stream_id := im_stream_id i; im_viewer_user_id := im_viewer_user_id i;
  im_slot := im_slot i; im_owner_type := im_owner_type i; im_decided_at := im_decided_at i;
  im_started_at := started; im_completed_at := completed; im_skipped_at := skipped;
  im_clicked_at := clicked; im_error_at := error;
  im_watch_duration_secs := im_watch_duration_secs i; im_quartile_reached := quartile;
  im_viewport_visible := im_viewport_visible i; im_audio_audible := im_audio_audible i;
  im_sfu_revoked_at := im_sfu_revoked_at i; im_sfu_restored_at := im_sfu_restored_at i |}.

Definition with_sfu (revoked restored : option DateTime) (i : ImpressionRec) : ImpressionRec := {|
  im_id := im_id i; im_impression_token := im_impression_token i; im_ad_id := im_ad_id i;
  im_stream_id := im_stream_id i; im_viewer_user_id := im_viewer_user_id i;
  im_slot := im_slot i; im_owner_type := im_owner_type i; im_decided_at := im_decided_at i;
  im_started_at := im_started_at i; im_completed_at := im_completed_at i;
  im_skipped_at := im_skipped_at i; im_clicked_at := im_clicked_at i;
  im_error_at := im_error_at i; im_watch_duration_secs := im_watch_duration_secs i;
  im_quartile_reached := im_quartile_reached i; im_viewport_visible := im_viewport_visible i;
  im_audio_audible := im_audio_audible i; im_sfu_revoked_at := revoked;
  im_sfu_restored_at := restored |}.

(** What an event writes; [None]: no statement is sent. *)
Definition apply_event (e : AdEvent.t) : option (DateTime → ImpressionRec → ImpressionRec) :=
  match e with
  | AdEvent.Impression => Some (λ now i,
      match im_started_at i with
      | None => with_progress (Some now) (im_completed_at i) (im_skipped_at i) (im_clicked_at i)
                  (im_error_at i) (im_quartile_reached i) i
      | Some _ => i
      end)
  | AdEvent.Completed => Some (λ now i,
      with_progress (im_started_at i) (Some now) (im_skipped_at i) (im_clicked_at i)
        (im_error_at i) 4 i)
  | AdEvent.Skipped => Some (λ now i,
      with_progress (im_started_at i) (im_completed_at i) (Some now) (im_clicked_at i)
        (im_error_at i) (im_quartile_reached i) i)
  | AdEvent.Clicked => Some (λ now i,
      with_progress (im_started_at i) (im_completed_at i) (im_skipped_at i) (Some now)
        (im_error_at i) (im_quartile_reached i) i)
  | AdEvent.Error => Some (λ now i,
      with_progress (im_started_at i) (im_completed_at i) (im_skipped_at i) (im_clicked_at i)
        (Some now) (im_quartile_reached i) i)
  | AdEvent.Quartile25 | AdEvent.Quartile50 | AdEvent.Quartile75 =>
      (λ q _ i, with_progress (im_started_at i) (im_completed_at i) (im_skipped_at i)
        (im_clicked_at i) (im_error_at i) (Z.max (im_quartile_reached i) q) i)
      <$> AdEvent.quartile_number e
  | AdEvent.Decision => None
  end.

Definition update_impression (token : string) (f : DateTime → ImpressionRec → ImpressionRec) :
    stmt () := on_ads (λ now d, Ok ((), set_impressions
  ((λ i, if String.eqb (im_impression_token i) token then f now i else i) <$> d_impressions d) d)).

(** *** ImpressionService *)
Definition update_event (token : string) (e : AdEvent.t) : st Db (result () db_error) :=
  match apply_event e with
  | Some f => exec (update_impression token f)
  | None => st_ret (Ok ())
  end.

Definition record_sfu_revoked (token : string) : st Db (result () db_error) :=
  exec (update_impression token (λ now i, with_sfu (Some now) (im_sfu_restored_at i) i)).

Definition record_sfu_restored (token : string) : st Db (result () db_error) :=
  exec (update_impression token (λ now i, with_sfu (im_sfu_revoked_at i) (Some now) i)).

Definition get_by_token (token : string) : st Db (result (option ImpressionRec) db_error) :=
  exec (reading (λ t, head (List.filter (λ i, String.eqb (im_impression_token i) token)
    (d_impressions (ads_of t))))).

Definition AD_BREAK : Z := seconds 300.

Definition in_ad_break (now : DateTime) (stream_id viewer : string) (i : ImpressionRec) : bool :=
  String.eqb (im_stream_id i) stream_id && String.eqb (im_viewer_user_id i) viewer &&
  match im_completed_at i, im_skipped_at i, im_error_at i with
  | None, None, None => now - AD_BREAK <? im_decided_at i
  | _, _, _ => false
  end.

Definition has_active_ad_break (stream_id viewer : string) : st Db (result bool db_error) :=
  exec (λ now t, Ok (existsb (in_ad_break now stream_id viewer) (d_impressions (ads_of t)), t)).

Definition list_by_ad (ad_id : string) (n offset : Z) :
    st Db (result (list ImpressionRec) db_error) :=
  exec (reading (λ t, limit n (drop (Z.to_nat offset) (order_desc im_decided_at
    (List.filter (λ i, String.eqb (im_ad_id i) ad_id) (d_impressions (ads_of t))))))).

(** ** enforcement.rs *)
Record ChallengeData : Type := {
  ch_nonce : string;
  ch_ad_id : string;
  ch_viewer_secret : string
}.

Record AdCompletionProof : Type := {
  pf_impression_token : string;
  pf_challenge_response : string;
  pf_timestamp : Z
}.

(** The crates hex, hmac and sha2: [hmac_hex key message] is the code in hexadecimal. *)
Class Mac : Type := {
  hex_decode : string → option string;
  hmac_hex : string → string → string
}.

Definition compute_expected_response `{Mac} (nonce ad_id : string) (timestamp : Z)
    (viewer_secret : string) : string :=
  let secret_bytes := default EmptyString (hex_decode viewer_secret) in
  hmac_hex secret_bytes (nonce +:+ ad_id +:+ fmt_i64 timestamp).

Definition str_bytes (s : string) : list Z :=
  (λ c, Z.of_nat (Ascii.nat_of_ascii c)) <$> String.list_ascii_of_string s.

(** The accumulated difference of two byte strings. *)
Definition difference (a b : list Z) : Z :=
  foldl (λ acc p, Z.lor acc (Z.lxor p.1 p.2)) 0 (zip a b).

(** [unsigned_abs] of an i64 difference, which wraps. *)
Definition proof_age (now timestamp : Z) : Z := Z.abs (i64_wrap (now - timestamp)).

Definition validate_proof `{Mac} (now : Z) (proof : AdCompletionProof) (challenge : ChallengeData) :
    result () string :=
  let age := proof_age now (pf_timestamp proof) in
  if 120 <? age then Err ("proof expired: " +:+ fmt_i64 age +:+ "s old (max 120s)")
  else
    let expected := compute_expected_response (ch_nonce challenge) (ch_ad_id challenge)
      (pf_timestamp proof) (ch_viewer_secret challenge) in
    let response := pf_challenge_response proof in
    if negb (Nat.eqb (String.length response) (String.length expected))
    then Err "invalid proof"
    else if negb (difference (str_bytes response) (str_bytes expected) =? 0)
    then Err "invalid proof"
    else Ok ().

(** ** decision.rs *)
Record AdDecisionAd : Type := {
  da_ad_id : string;
  da_title : string;
  da_media_url : string;
  da_duration_secs : Z;
  da_click_through_url : option string;
  da_owner_type : string
}.

Inductive AdDecision : Type :=
  | ServeAd (ad : AdDecisionAd) (impression_token challenge viewer_secret slot enforcement : string)
      (skip_after_secs : Z)
  | NoAd (reason : string).

Record StreamAdContext : Type := {
  sx_viewer_count : Z;
  sx_stream_duration_secs : Z;
  sx_categories : list string;
  sx_last_ad_at : option DateTime;
  sx_host_user_id : string
}.

(** The part of [AdvertisingConfig] the engine and the handlers read. *)
Record AdConfig : Type := {
  dc_enabled : bool;
  dc_streamer_ads_enabled : bool;
  dc_platform_ads_enabled : bool;
  dc_skip_after_secs : Z
}.

Section decision.
Context {S : Type} `{AdHost S} (config : AdConfig) (public_url : string).

Definition db_atom {A} (m : st Db A) : prog S A := atom (ad_db m).

Definition generate_challenge (ad_id : string) : prog S ChallengeData :=
  do! nonce := atom (ad_random_hex 16) in
  do! viewer_secret := atom (ad_random_hex 32) in
  Done {| ch_nonce := nonce; ch_ad_id := ad_id; ch_viewer_secret := viewer_secret |}.

Definition record_decision (token ad_id stream_id viewer slot owner_type : string) :
    prog S (result string db_error) :=
  do! id := atom ad_uuid in
  db_atom (exec (insert_impression id token ad_id stream_id viewer slot owner_type)).

Definition media_url_of (ad : CreativeRec) : string :=
  default (public_url +:+ "/_mm/client/v1/ads/" +:+ ac_id ad +:+ "/media") (ac_cdn_url ad).

Definition build_decision (ad : CreativeRec) (stream_id viewer slot : string) (is_live : bool) :
    prog S AdDecision :=
  do! challenge := generate_challenge (ac_id ad) in
  do! token := atom ad_uuid in
  do! _ := record_decision token (ac_id ad) stream_id viewer slot (ac_owner_type ad) in
  Done (ServeAd
    {| da_ad_id := ac_id ad; da_title := ac_title ad; da_media_url := media_url_of ad;
       da_duration_secs := ac_duration_secs ad;
       da_click_through_url := ac_click_through_url ad; da_owner_type := ac_owner_type ad |}
    token (ch_nonce challenge) (ch_viewer_secret challenge) slot
    (if is_live then "sfu_permission_revoked" else "client_reported")
    (dc_skip_after_secs config)).

(** The first of the ads that has no rule or a rule that matches; one whose rules cannot be
    read is passed over. *)
Fixpoint first_eligible (ctx : RuleContext) (ads : list CreativeRec) :
    prog S (option CreativeRec) :=
  match ads with
  | [] => Done None
  | ad :: rest =>
      do! r := db_atom (list_rules (ac_id ad)) in
      match r with
      | Err _ => first_eligible ctx rest
      | Ok rules =>
          do! eligible := (if bool_decide (rules = []) then Done true else evaluate_rules rules ctx) in
          if eligible : bool then Done (Some ad) else first_eligible ctx rest
      end
  end.

Definition rule_context (context : StreamAdContext) : RuleContext := {|
  rx_viewer_count := sx_viewer_count context;
  rx_stream_duration_secs := sx_stream_duration_secs context;
  rx_categories := sx_categories context; rx_last_ad_at := sx_last_ad_at context |}.

Definition no_matching_ad : AdDecision := NoAd "no matching ad".

Definition pick_platform (slot : string) : prog S (option CreativeRec) :=
  if dc_platform_ads_enabled config then
    do! r := db_atom (list_ready_for_slot "platform" None slot) in
    match r with
    | Ok ((_ :: _) as ads) => do! idx := atom (ad_random_index (length ads)) in Done (ads !! idx)
    | _ => Done None
    end
  else Done None.

Definition pick_streamer (slot : string) (context : StreamAdContext) :
    prog S (option CreativeRec) :=
  if dc_streamer_ads_enabled config then
    do! r := db_atom (list_ready_for_slot "creator" (Some (sx_host_user_id context)) slot) in
    match r with
    | Ok ads => first_eligible (rule_context context) ads
    | Err _ => Done None
    end
  else Done None.

Definition decide (stream_id viewer : string) (slot : AdSlot.t) (context : StreamAdContext)
    (is_live : bool) : prog S AdDecision :=
  let slot_str := AdSlot.as_str slot in
  do! platform := pick_platform slot_str in
  match platform with
  | Some ad => build_decision ad stream_id viewer slot_str is_live
  | None =>
      do! streamer := pick_streamer slot_str context in
      match streamer with
      | Some ad => build_decision ad stream_id viewer slot_str is_live
      | None => Done no_matching_ad
      end
  end.
End decision.

(** ** The proof of completion *)
Lemma lxor_eq_0 (a b : Z) : Z.lxor a b = 0 ↔ a = b.
Proof. split; [apply Z.lxor_eq|intros ->; apply Z.lxor_nilpotent]. Qed.

Lemma difference_acc (l : list (Z * Z)) : ∀ acc,
  foldl (λ acc p, Z.lor acc (Z.lxor p.1 p.2)) acc l = 0 ↔
  acc = 0 ∧ Forall (λ p, p.1 = p.2) l.
Proof.
  induction l as [|p l IH]; intros acc; simpl; [split; [by auto|tauto]|].
  rewrite IH, Z.lor_eq_0_iff, lxor_eq_0, Forall_cons. tauto.
Qed.

Lemma difference_zero (a b : list Z) : length a = length b → difference a b = 0 ↔ a = b.
Proof.
  intros Hl. unfold difference. rewrite difference_acc. split.
  - intros [_ Hf]. revert b Hl Hf. induction a as [|x a IH]; intros [|y b] Hl Hf; try done.
    simpl in Hf. inversion Hf as [|? ? Hxy Hf']; subst. simpl in Hxy. f_equal; [done|].
    apply IH; [by injection Hl|done].
  - intros ->. split; [done|]. clear Hl. induction b as [|y b IH]; constructor; done.
Qed.

Lemma str_bytes_inj s s' : str_bytes s = str_bytes s' → s = s'.
Proof.
  unfold str_bytes. intros E. apply list_fmap_eq_inj in E.
  - rewrite <- (String.string_of_list_ascii_of_string s), E.
    apply String.string_of_list_ascii_of_string.
  - intros c c' Ec. apply Nat2Z.inj in Ec.
    by rewrite <- (Ascii.ascii_nat_embedding c), Ec, Ascii.ascii_nat_embedding.
Qed.

Lemma str_bytes_length s : length (str_bytes s) = String.length s.
Proof. unfold str_bytes. rewrite length_fmap. induction s; simpl; congruence. Qed.

(** The comparison that does not stop at the first difference is equality: a proof is
    accepted exactly when its answer is the expected code and its time is within two
    minutes. *)
Lemma validate_proof_exact `{Mac} now proof challenge :
  validate_proof now proof challenge = Ok () ↔
  proof_age now (pf_timestamp proof) ≤ 120 ∧
  pf_challenge_response proof = compute_expected_response (ch_nonce challenge)
    (ch_ad_id challenge) (pf_timestamp proof) (ch_viewer_secret challenge).
Proof.
  unfold validate_proof. set (e := compute_expected_response _ _ _ _).
  set (r := pf_challenge_response proof).
  destruct (Z.ltb_spec 120 (proof_age now (pf_timestamp proof))) as [Ha|Ha]; [split; [done|lia]|].
  destruct (Nat.eqb_spec (String.length r) (String.length e)) as [Hl|Hl]; simpl.
  2:{ split; [done|]. by intros [_ E]; rewrite E in Hl. }
  destruct (Z.eqb_spec (difference (str_bytes r) (str_bytes e)) 0) as [Hd|Hd]; simpl.
  - apply difference_zero in Hd; [|by rewrite !str_bytes_length].
    split; [|done]. intros _. split; [done|]. by apply str_bytes_inj.
  - split; [done|]. intros [_ E]. destruct Hd. rewrite E. by apply difference_zero.
Qed.

(** ** Progress of an impression *)
(** What no event takes back: an impression keeps its identity, its slot, its ad's owner and
    the time of its decision, its first start and every mark it has (completed, skipped,
    clicked, failed, video withheld, video given back), and its quartile never falls. *)
Record grows (i j : ImpressionRec) : Prop := {
  grows_id : im_id j = im_id i;
  grows_token : im_impression_token j = im_impression_token i;
  grows_ad : im_ad_id j = im_ad_id i;
  grows_viewer : im_viewer_user_id j = im_viewer_user_id i;
  grows_stream : im_stream_id j = im_stream_id i;
  grows_slot : im_slot j = im_slot i;
  grows_owner : im_owner_type j = im_owner_type i;
  grows_decided : im_decided_at j = im_decided_at i;
  grows_started : is_Some (im_started_at i) → im_started_at j = im_started_at i;
  grows_completed : is_Some (im_completed_at i) → is_Some (im_completed_at j);
  grows_skipped : is_Some (im_skipped_at i) → is_Some (im_skipped_at j);
  grows_clicked : is_Some (im_clicked_at i) → is_Some (im_clicked_at j);
  grows_error : is_Some (im_error_at i) → is_Some (im_error_at j);
  grows_revoked : is_Some (im_sfu_revoked_at i) → is_Some (im_sfu_revoked_at j);
  grows_restored : is_Some (im_sfu_restored_at i) → is_Some (im_sfu_restored_at j);
  grows_quartile : im_quartile_reached i ≤ im_quartile_reached j
}.

#[export] Instance grows_preorder : PreOrder grows.
Proof.
  split.
  - intros i. by split.
  - intros i j k [] []. split; try congruence; eauto.
    + intros Hs. rewrite <- grows_started0 by done. apply grows_started1. by rewrite grows_started0.
    + lia.
Qed.

Definition quartile_ok (i : ImpressionRec) : Prop :=
  0 ≤ im_quartile_reached i ≤ 4 ∧ (is_Some (im_completed_at i) → im_quartile_reached i = 4).

Lemma event_grows e f now i : apply_event e = Some f → quartile_ok i →
  grows i (f now i) ∧ quartile_ok (f now i).
Proof.
  intros He [Hq Hc]. unfold quartile_ok.
  destruct e; simpl in He; try done; injection He as <-; simpl;
    try (destruct (im_started_at i) as [t|] eqn:Es; simpl);
    (split; [split; simpl; rewrite ?Es; try done; try lia; eauto|split; [lia|]]);
    intros Hs; try apply Hc in Hs; try lia; done.
Qed.
