(* ===== verification/AdsTables.v ===== *)
(** * AdsTables: what the advertising tables always say, and which ad a decision serves

    The statements of [Ads] under every history and every fault of the connection: the
    constraints of the migration are an invariant, and nothing an impression records is
    taken back. Then the choice of [decide], read off the tables. *)
From S2P Require Import Prelude F64 ApiSchema Json Schema Errors MoneyDb Interleave Ads.
Local Open Scope Z_scope.
Local Open Scope mm_scope.

(** ** The invariant of the tables *)
Definition creative_ok (c : CreativeRec) : Prop := check_creative c = Ok ().

Record ads_inv (d : AdTables) : Prop := {
  inv_creatives : Forall creative_ok (d_creatives d);
  inv_creative_ids : NoDup (ac_id <$> d_creatives d);
  inv_rules : Forall (λ r, ru_rule_type r ∈ rule_types ∧
    ru_ad_id r ∈ (ac_id <$> d_creatives d)) (d_rules d);
  inv_tokens : NoDup (im_impression_token <$> d_impressions d);
  inv_quartiles : Forall quartile_ok (d_impressions d);
  inv_served : Forall (λ i, im_ad_id i ∈ (ac_id <$> d_creatives d)) (d_impressions d)
}.

(** One history step: old impressions stay, in their order, and only grow. *)
Definition progress (d d' : AdTables) : Prop :=
  ads_inv d → ads_inv d' ∧ ∃ l new,
    d_impressions d' = l ++ new ∧ Forall2 grows (d_impressions d) l.

Lemma progress_same d : progress d d.
Proof. intros Hd. split; [done|]. exists (d_impressions d), []. rewrite app_nil_r. split; [done|].
  reflexivity. Qed.

#[export] Instance progress_preorder : PreOrder progress.
Proof.
  split; [exact progress_same|]. intros a b c Hab Hbc Ha.
  destruct (Hab Ha) as (Hb & l & new & E & Hg).
  destruct (Hbc Hb) as (Hc & l2 & new2 & E2 & Hg2). split; [done|].
  rewrite E in Hg2. apply Forall2_app_inv_l in Hg2 as (k1 & k2 & H1 & H2 & ->).
  exists k1, (k2 ++ new2). rewrite <- app_assoc in E2. split; [done|].
  by apply (transitivity (R := Forall2 grows) Hg H1).
Qed.

Definition ads_step (t t' : Tables) : Prop := progress (ads_of t) (ads_of t').

#[export] Instance ads_step_preorder : PreOrder ads_step.
Proof.
  split; [intros t; unfold ads_step; reflexivity|].
  intros a b c. unfold ads_step. intros; by etrans.
Qed.

Lemma on_ads_step {A} (f : DateTime → AdTables → result (A * AdTables) db_error) :
  (∀ now d a d', f now d = Ok (a, d') → progress d d') → stmt_rel ads_step (on_ads f).
Proof.
  intros Hf now t a t'. unfold on_ads, on_api, ads_step.
  destruct (f now (a_ads (t_api t))) as [[x d]|e] eqn:E; [|done].
  intros [= <- <-]. by eapply Hf.
Qed.

(** ** Each statement *)
Lemma update_creatives_spec p f : ∀ l l',
  (∀ c, ac_id (f c) = ac_id c) → update_creatives p f l = Ok l' → Forall creative_ok l →
  Forall creative_ok l' ∧ ac_id <$> l' = ac_id <$> l.
Proof.
  induction l as [|c l IH]; intros l' Hid; simpl; [by intros [= <-]|].
  destruct (update_creatives p f l) as [rest|e]; [|done].
  intros E Hl. inversion Hl as [|? ? Hc Hl']; subst.
  destruct (IH rest Hid eq_refl Hl') as [H1 H2].
  destruct (p c).
  - destruct (check_creative (f c)) as [[]|e] eqn:Ec; [|done]. injection E as <-.
    split; [by constructor|]. rewrite !fmap_cons. by rewrite Hid, H2.
  - injection E as <-. split; [by constructor|]. rewrite !fmap_cons. by rewrite H2.
Qed.

Lemma progress_update_creatives p f d l :
  (∀ c, ac_id (f c) = ac_id c) → update_creatives p f (d_creatives d) = Ok l →
  progress d (set_creatives l d).
Proof.
  intros Hid E Hd. destruct (progress_same d Hd) as [_ Hp]. split; [|exact Hp].
  destruct Hd. destruct (update_creatives_spec p f _ _ Hid E) as [H1 H2]; [done|].
  split; simpl; rewrite ?H2; done.
Qed.

Lemma progress_insert_creative c d :
  creative_ok c → c.(ac_id) ∉ (ac_id <$> d_creatives d) →
  progress d (set_creatives (d_creatives d ++ [c]) d).
Proof.
  intros Hc Hid Hd. destruct (progress_same d Hd) as [_ Hp]. split; [|exact Hp].
  destruct Hd. split; simpl; rewrite ?fmap_app; simpl; try done.
  - by apply Forall_app_2; [|constructor].
  - apply NoDup_app. split; [done|]. split; [|apply NoDup_singleton].
    by intros x Hx ->%list_elem_of_singleton.
  - eapply Forall_impl; [exact inv_rules0|]. simpl. intros r [? ?]. split; [done|].
    apply elem_of_app. by left.
  - eapply Forall_impl; [exact inv_served0|]. simpl. intros i ?. apply elem_of_app. by left.
Qed.

Lemma progress_rules d l :
  (ads_inv d → Forall (λ r, ru_rule_type r ∈ rule_types ∧
    ru_ad_id r ∈ (ac_id <$> d_creatives d)) l) →
  progress d (set_rule_rows l d).
Proof.
  intros Hl Hd. destruct (progress_same d Hd) as [_ Hp]. split; [|exact Hp].
  specialize (Hl Hd). destruct Hd. by split.
Qed.

Lemma progress_policies d l : progress d (set_policies l d).
Proof.
  intros Hd. destruct (progress_same d Hd) as [_ Hp]. split; [|exact Hp]. destruct Hd. by split.
Qed.

Lemma progress_impressions d (f : ImpressionRec → ImpressionRec) :
  (∀ i, quartile_ok i → grows i (f i) ∧ quartile_ok (f i)) →
  progress d (set_impressions (f <$> d_impressions d) d).
Proof.
  intros Hf Hd. destruct Hd as [H1 H2 H3 H4 H5 H6]. rewrite Forall_forall in H5.
  assert (E : ∀ (B : Type) (g : ImpressionRec → B),
    (∀ i j, grows i j → g j = g i) → g <$> (f <$> d_impressions d) = g <$> d_impressions d).
  { intros B g Hg. rewrite <- list_fmap_compose. apply list_fmap_ext. intros k i Hi. simpl.
    apply Hg, Hf, H5. by eapply list_elem_of_lookup_2. }
  split.
  - split; simpl; try done.
    + by rewrite (E _ im_impression_token) by (intros i j []; done).
    + apply Forall_fmap, Forall_forall. intros i Hi. simpl. by apply Hf, H5.
    + apply (Forall_fmap im_ad_id (λ a, a ∈ (ac_id <$> d_creatives d))) in H6.
      apply (Forall_fmap im_ad_id (λ a, a ∈ (ac_id <$> d_creatives d))).
      by rewrite (E _ im_ad_id) by (intros i j []; done).
  - exists (f <$> d_impressions d), []. rewrite app_nil_r. split; [done|].
    apply Forall2_fmap_r, Forall_Forall2_diag, Forall_forall. intros i Hi. by apply Hf, H5.
Qed.

Lemma existsb_keyed {A} (key : A → string) (l : list A) k :
  existsb (λ x, String.eqb (key x) k) l = true ↔ k ∈ (key <$> l).
Proof.
  rewrite existsb_exists, list_elem_of_fmap. split.
  - intros (x & Hx & E%String.eqb_eq). exists x. by rewrite list_elem_of_In.
  - intros (x & -> & Hx). exists x. rewrite <- list_elem_of_In. by rewrite String.eqb_refl.
Qed.

Lemma existsb_keyed_false {A} (key : A → string) (l : list A) k :
  existsb (λ x, String.eqb (key x) k) l = false ↔ k ∉ (key <$> l).
Proof. rewrite <- existsb_keyed. destruct (existsb _ l); split; naive_solver. Qed.

Lemma insert_creative_step c : stmt_rel ads_step (insert_creative c).
Proof.
  apply on_ads_step. intros now d a d'. destruct (check_creative c) as [[]|e] eqn:Ec; [|done].
  destruct (existsb _ _) eqn:Ee; [done|]. apply existsb_keyed_false in Ee. intros [= <- <-].
  by apply progress_insert_creative.
Qed.

Lemma update_creative_step id f :
  (∀ now c, ac_id (f now c) = ac_id c) → stmt_rel ads_step (update_creative_where id f).
Proof.
  intros Hid. apply on_ads_step. intros now d a d'.
  destruct (update_creatives _ _ _) as [l|e] eqn:E; [|done]. intros [= <- <-].
  apply (progress_update_creatives (λ c, String.eqb (ac_id c) id) (f now)); auto.
Qed.

Lemma insert_impression_step id token ad_id stream viewer slot owner :
  stmt_rel ads_step (insert_impression id token ad_id stream viewer slot owner).
Proof.
  apply on_ads_step. intros now d a d'.
  destruct (existsb _ _); [done|]. destruct (existsb _ _) eqn:Et; [done|].
  apply existsb_keyed_false in Et. destruct (existsb _ _) eqn:Ea; [|done].
  apply existsb_keyed in Ea. intros [= <- <-] []. split.
  - split; simpl; try done; rewrite ?fmap_app; simpl.
    + apply NoDup_app. split; [done|]. split; [|apply NoDup_singleton].
    by intros x Hx ->%list_elem_of_singleton.
    + apply Forall_app_2; [done|]. constructor; [|done]. split; simpl; [lia|by intros []].
    + apply Forall_app_2; [done|]. by constructor.
  - eexists _, _. split; [done|]. reflexivity.
Qed.

Lemma update_impression_step token f :
  (∀ now i, quartile_ok i → grows i (f now i) ∧ quartile_ok (f now i)) →
  stmt_rel ads_step (update_impression token f).
Proof.
  intros Hf. apply on_ads_step. intros now d a d' [= <- <-].
  apply (progress_impressions d (λ i, if String.eqb (im_impression_token i) token then f now i else i)).
  intros i Hi. destruct (String.eqb _ _); [by apply Hf|]. by split.
Qed.

Lemma insert_rule_step ad_id r : stmt_rel ads_step (insert_rule ad_id r).
Proof.
  apply on_ads_step. intros now d a d'. case_bool_decide as Ht; [|done]. simpl.
  destruct (existsb _ _); [done|]. destruct (existsb _ _) eqn:Ea; [|done].
  apply existsb_keyed in Ea. intros [= <- <-]. apply progress_rules. intros [].
  apply Forall_app_2; [done|]. by constructor.
Qed.

Lemma delete_rules_step ad_id : stmt_rel ads_step (delete_rules ad_id).
Proof.
  apply on_ads_step. intros now d a d' [= <- <-]. apply progress_rules. intros [].
  apply Forall_forall. intros r Hr. rewrite Forall_forall in inv_rules0. apply inv_rules0.
  apply list_elem_of_In, filter_In in Hr as [Hr _]. by apply list_elem_of_In.
Qed.

(** ** Histories *)
Inductive ad_op : Type :=
  | OpCreate (c : CreativeRec)
  | OpStatus (id status : string)
  | OpUpdate (id : string) (u : CreativePatch)
  | OpRules (ad_id : string) (rules : list RuleRec)
  | OpDecision (id token ad_id stream viewer slot owner : string)
  | OpEvent (token : string) (e : AdEvent.t)
  | OpRevoked (token : string)
  | OpRestored (token : string)
  | OpPolicy (p : PolicyRec)
  | OpUnpolicy (id : string).

Definition forget {S A} (m : st S A) : st S () := let! _ := m in st_ret ().

Definition ad_op_run (o : ad_op) : st Db () :=
  match o with
  | OpCreate c => forget (create_creative c)
  | OpStatus id status => forget (update_creative_status id status)
  | OpUpdate id u => forget (update_creative id u)
  | OpRules ad_id rules => forget (set_rules ad_id rules)
  | OpDecision id token ad_id stream viewer slot owner =>
      forget (exec (insert_impression id token ad_id stream viewer slot owner))
  | OpEvent token e => forget (update_event token e)
  | OpRevoked token => forget (record_sfu_revoked token)
  | OpRestored token => forget (record_sfu_restored token)
  | OpPolicy p => forget (create_policy p)
  | OpUnpolicy id => forget (delete_policy id)
  end.

Definition ad_history (ops : list ad_op) : st Db () := st_fold (λ _ o, ad_op_run o) ops ().

Lemma st_rel_forget {S A} (R : S → S → Prop) `{!PreOrder R} (m : st S A) :
  st_rel R m → st_rel R (forget m).
Proof. intros Hm. apply st_rel_bind; [done|done|]. intros a. by apply st_rel_ret. Qed.

Lemma update_event_step token e : st_rel (on_tables ads_step) (update_event token e).
Proof.
  unfold update_event. destruct (apply_event e) as [f|] eqn:E; [|apply st_rel_ret, _].
  apply st_rel_exec; [apply _|]. apply update_impression_step. intros now i.
  by apply event_grows with (e := e).
Qed.

Lemma sfu_grows revoked restored i :
  (is_Some (im_sfu_revoked_at i) → is_Some revoked) →
  (is_Some (im_sfu_restored_at i) → is_Some restored) → quartile_ok i →
  grows i (with_sfu revoked restored i) ∧ quartile_ok (with_sfu revoked restored i).
Proof. intros Hr Hs Hq. split; [|done]. by split. Qed.

Lemma ad_op_step o : st_rel (on_tables ads_step) (ad_op_run o).
Proof.
  destruct o; simpl; apply st_rel_forget; try apply _; try (apply st_rel_exec; [apply _|]).
  - apply insert_creative_step.
  - by apply update_creative_step.
  - by apply update_creative_step.
  - apply st_rel_try; [apply _| |intros _].
    + apply st_rel_exec; [apply _|]. apply delete_rules_step.
    + apply st_rel_try_each; [apply _|]. intros r _.
      apply st_rel_exec; [apply _|]. apply insert_rule_step.
  - apply insert_impression_step.
  - apply update_event_step.
  - apply update_impression_step. intros now i. by apply sfu_grows.
  - apply update_impression_step. intros now i. by apply sfu_grows.
  - apply on_ads_step. intros now d a d'. destruct (existsb _ _); [done|]. intros [= <- <-].
    apply progress_policies.
  - apply on_ads_step. intros now d a d' [= <- <-]. apply progress_policies.
Qed.

(** C30. Whatever happens to creatives, rules, policies and impressions, and however the
    connection fails in between, the advertising tables keep their constraints (a creative
    lasts 1 to 120 seconds, its placement, owner and status are among the known ones, ids and
    tokens are unique, rules and impressions belong to a creative, the quartile is 0 to 4 and
    4 once the ad was completed), and no impression is lost or taken back: it keeps its ad,
    viewer, stream, slot, owner type, time of decision and first start, every mark it has
    (completed, skipped, clicked, failed, video withheld, video given back; the time of such
    a mark may be renewed), and its quartile never falls. *)
Theorem impressions_only_grow ops db :
  ads_inv (ads_of (db_tables db)) →
  let db' := (ad_history ops db).2 in
  ads_inv (ads_of (db_tables db')) ∧
  ∃ l new, d_impressions (ads_of (db_tables db')) = l ++ new ∧
    Forall2 grows (d_impressions (ads_of (db_tables db))) l.
Proof.
  intros Hd. assert (Hs : st_rel (on_tables ads_step) (ad_history ops)).
  { apply st_rel_fold; [apply _|]. intros _ o _. apply ad_op_step. }
  exact (Hs db Hd).
Qed.

(** ** The decision

    [rule_holds now x r ctx]: the rule at the clock [now] and the draw [x]. *)
Section decision.
Context {S : Type} `{AdHost S}.

(** A draw of [random_range(0.0..1.0)]. *)
Definition unit_draw (x : f64) : Prop :=
  f64_le (f64_of_Z 0) x = true ∧ f64_lt x (f64_of_Z 1) = true.

(** The engine's host is a state that contains the database and shares its clock. *)
Class AdHostLaws : Type := {
  ad_view : S → Db;
  ad_db_runs {A} (m : st Db A) s :
    (ad_db m s).1 = (m (ad_view s)).1 ∧ ad_view (ad_db m s).2 = (m (ad_view s)).2;
  ad_utc_reads s : (ad_utc_now s).1 = db_now (ad_view s);
  ad_utc_view s : ad_view (ad_utc_now s).2 = ad_view s;
  ad_index_view n s : ad_view (ad_random_index n s).2 = ad_view s;
  ad_index_lt n s : (0 < n)%nat → ((ad_random_index n s).1 < n)%nat;
  ad_unit_range s : unit_draw (ad_random_unit s).1;
  ad_unit_view s : ad_view (ad_random_unit s).2 = ad_view s;
  ad_hex_view n s : ad_view (ad_random_hex n s).2 = ad_view s;
  ad_uuid_view s : ad_view (ad_uuid s).2 = ad_view s
}.

Definition rule_holds (now : DateTime) (x : f64) (r : RuleRec) (ctx : RuleContext) : bool :=
  ru_active r &&
  match RuleType.from_str (ru_rule_type r) with
  | None => false
  | Some RuleType.Always => true
  | Some RuleType.TimeInterval =>
      match rx_last_ad_at ctx with Some last => time_interval_matches r last now | None => true end
  | Some RuleType.ViewerCountMin =>
      u32_wrap (config_u64 r "min_viewers" 0) <=? rx_viewer_count ctx
  | Some RuleType.ViewerCountMax =>
      rx_viewer_count ctx <=? u32_wrap (config_u64 r "max_viewers" u64_max)
  | Some RuleType.CategoryMatch =>
      existsb (λ c, existsb (String.eqb c) (rule_categories r)) (rx_categories ctx)
  | Some RuleType.TimeOfDay => time_of_day_matches r (hour_of now)
  | Some RuleType.Probability =>
      f64_lt x (default (f64_of_Z 1)
        (match jindex "probability" (ru_rule_config r) with JNum t => ad_json_f64 t | _ => None end))
  end.

(** An ad that may run: it has no rule that is switched on, or one of them holds. *)
Definition may_run (t : Tables) (now : DateTime) (ctx : RuleContext) (ad : CreativeRec) : Prop :=
  active_rules (ac_id ad) t = [] ∨
  ∃ r x, r ∈ active_rules (ac_id ad) t ∧ unit_draw x ∧ rule_holds now x r ctx = true.

(** An ad that was passed over: it has rules, and each was found not to hold. *)
Definition passed_over (t : Tables) (now : DateTime) (ctx : RuleContext) (ad : CreativeRec) : Prop :=
  active_rules (ac_id ad) t ≠ [] ∧
  ∀ r, r ∈ active_rules (ac_id ad) t → ∃ x, unit_draw x ∧ rule_holds now x r ctx = false.

Context `{!AdHostLaws}.
Variable (t : Tables) (now0 : DateTime).
Abbreviation calm := (λ s, ad_view s = healthy t now0).

Lemma unit_draw_0 : unit_draw (f64_of_Z 0).
Proof. split; vm_compute; reflexivity. Qed.

Lemma run_rule r ctx :
  hoare calm (run (evaluate_rule r ctx))
    (λ b s, calm s ∧ ∃ x, unit_draw x ∧ rule_holds now0 x r ctx = b).
Proof.
  pose proof unit_draw_0 as H00. intros s Hs. unfold evaluate_rule, rule_holds.
  pose proof (ad_utc_reads s) as Hnow. pose proof (ad_utc_view s) as Hv. rewrite Hs in Hnow, Hv.
  pose proof (ad_unit_range s) as Hu. pose proof (ad_unit_view s) as Huv. rewrite Hs in Huv.
  destruct (ru_active r); simpl; [|by eauto].
  destruct (RuleType.from_str (ru_rule_type r)) as [[]|]; simpl; try by eauto.
  - destruct (rx_last_ad_at ctx) as [last|]; simpl; [|by eauto].
    unfold st_bind. destruct (ad_utc_now s) as [now s']. simpl in *. subst now. by eauto.
  - unfold st_bind. destruct (ad_utc_now s) as [now s']. simpl in *. subst now. by eauto.
  - unfold st_bind. destruct (ad_random_unit s) as [x s']. simpl in *. by eauto.
Qed.

Lemma hoare_run_bind {A B} (P : S → Prop) (p : prog S A) (M : A → S → Prop)
    (k : A → prog S B) (Q : B → S → Prop) :
  hoare P (run p) M → (∀ a, hoare (M a) (run (k a)) Q) → hoare P (run (prog_bind p k)) Q.
Proof.
  intros Hp Hk s Hs. rewrite run_bind. exact (hoare_bind P (run p) M (λ a, run (k a)) Q Hp Hk s Hs).
Qed.

Lemma run_rules ctx rules :
  hoare calm (run (evaluate_rules rules ctx)) (λ (b : bool) s, calm s ∧
    if b then ∃ r x, r ∈ rules ∧ unit_draw x ∧ rule_holds now0 x r ctx = true
    else ∀ r, r ∈ rules → ∃ x, unit_draw x ∧ rule_holds now0 x r ctx = false).
Proof.
  induction rules as [|r rules IH]; simpl.
  { apply hoare_ret. intros s Hs. split; [done|]. set_solver. }
  apply (hoare_run_bind _ _ _ _ _ (run_rule r ctx)). intros [].
  - apply hoare_ret. intros s (Hs & x & Hx & E). split; [done|]. exists r, x.
    split; [set_solver|done].
  - intros s (Hs & x & Hx & E). destruct (IH s Hs) as [Hs' Hb]. split; [done|].
    destruct (run (evaluate_rules rules ctx) s).1.
    + destruct Hb as (r' & x' & Hr' & E'). exists r', x'. split; [set_solver|done].
    + intros r' [->|Hr']%elem_of_cons; eauto.
Qed.

Lemma run_query {A} (f : Tables → A) :
  hoare calm (run (db_atom (exec (reading f)))) (λ r s, calm s ∧ r = Ok (f t)).
Proof.
  intros s Hs. unfold db_atom. simpl. unfold st_bind.
  destruct (ad_db_runs (exec (reading f)) s) as [E1 E2]. rewrite Hs in E1, E2.
  destruct (ad_db (exec (reading f)) s) as [r s']. simpl in *. by rewrite E1, E2.
Qed.

Lemma hoare_known {A B} (P : S → Prop) (k : A → prog S B) (a v : A) (Q : B → S → Prop) :
  hoare P (run (k v)) Q → hoare (λ s, P s ∧ a = v) (run (k a)) Q.
Proof. intros Hk s [Hs ->]. by apply Hk. Qed.

Lemma run_first_eligible ctx ads :
  hoare calm (run (first_eligible ctx ads)) (λ o s, calm s ∧
    match o with
    | Some ad => ∃ pre post, ads = pre ++ ad :: post ∧ may_run t now0 ctx ad ∧
        Forall (passed_over t now0 ctx) pre
    | None => Forall (passed_over t now0 ctx) ads
    end).
Proof.
  induction ads as [|ad ads IH]; [by apply hoare_ret|]. simpl first_eligible.
  apply (hoare_run_bind _ _ _ _ _ (run_query (active_rules (ac_id ad)))). intros r.
  apply (hoare_known calm (λ r, match r with
    | Err _ => first_eligible ctx ads
    | Ok rules =>
        do! eligible := (if bool_decide (rules = []) then Done true else evaluate_rules rules ctx) in
        if eligible : bool then Done (Some ad) else first_eligible ctx ads
    end)).
  assert (Helig : hoare calm (run (if bool_decide (active_rules (ac_id ad) t = []) then Done true
    else evaluate_rules (active_rules (ac_id ad) t) ctx))
    (λ (b : bool) s, calm s ∧ if b then may_run t now0 ctx ad else passed_over t now0 ctx ad)).
  { case_bool_decide as Hn.
    - apply hoare_ret. intros s1 Hs1. split; [done|by left].
    - intros s1 Hs1. destruct (run_rules ctx (active_rules (ac_id ad) t) s1 Hs1) as [Hs2 Hb].
      split; [done|]. destruct (run (evaluate_rules _ ctx) s1).1; [by right|by split]. }
  apply (hoare_run_bind _ _ _ _ _ Helig). intros [].
  - apply hoare_ret. intros s [Hs Hm]. split; [done|]. by exists [], ads.
  - intros s [Hs Hp]. destruct (IH s Hs) as [Hs' Ho]. split; [done|].
    destruct (run (first_eligible ctx ads) s).1 as [ad'|].
    + destruct Ho as (pre & post & -> & Hm & Hpre). exists (ad :: pre), post.
      split; [done|]. split; [done|]. by constructor.
    + by constructor.
Qed.

Definition ready_ads (owner_type : string) (owner_id : option string) (slot : string) :
    list CreativeRec :=
  order_desc ac_created_at
    (List.filter (ready_for_slot owner_type owner_id slot) (d_creatives (ads_of t))).

Variable (config : AdConfig) (public_url : string).

Lemma run_platform slot :
  hoare calm (run (pick_platform config slot)) (λ o s, calm s ∧
    match o with
    | Some ad => dc_platform_ads_enabled config = true ∧ ad ∈ ready_ads "platform" None slot
    | None => dc_platform_ads_enabled config = true → ready_ads "platform" None slot = []
    end).
Proof.
  unfold pick_platform. destruct (dc_platform_ads_enabled config); [|by apply hoare_ret].
  apply (hoare_run_bind _ _ _ _ _ (run_query _)). intros r s [Hs ->].
  fold (ready_ads "platform" None slot). destruct (ready_ads _ _ _) as [|ad ads] eqn:E; [done|].
  simpl. unfold st_bind.
  pose proof (ad_index_view (Datatypes.S (length ads)) s) as Hv.
  pose proof (ad_index_lt (Datatypes.S (length ads)) s ltac:(lia)) as Hlt.
  destruct (ad_random_index _ s) as [idx s']. simpl in *. split; [congruence|].
  destruct (lookup_lt_is_Some_2 (ad :: ads) idx Hlt) as [x Hx]. rewrite Hx.
  split; [done|]. by eapply list_elem_of_lookup_2.
Qed.

Lemma run_streamer slot context :
  hoare calm (run (pick_streamer config slot context)) (λ o s, calm s ∧
    let ads := ready_ads "creator" (Some (sx_host_user_id context)) slot in
    match o with
    | Some ad => dc_streamer_ads_enabled config = true ∧ ∃ pre post, ads = pre ++ ad :: post ∧
        may_run t now0 (rule_context context) ad ∧ Forall (passed_over t now0 (rule_context context)) pre
    | None => dc_streamer_ads_enabled config = true →
        Forall (passed_over t now0 (rule_context context)) ads
    end).
Proof.
  unfold pick_streamer. destruct (dc_streamer_ads_enabled config); [|by apply hoare_ret].
  apply (hoare_run_bind _ _ _ _ _ (run_query _)). intros r s [Hs ->].
  destruct (run_first_eligible (rule_context context)
    (ready_ads "creator" (Some (sx_host_user_id context)) slot) s Hs) as [Hs' Ho].
  split; [exact Hs'|]. simpl.
  destruct (run (first_eligible _ _) s).1 as [ad|]; [by split|done].
Qed.

(** The decision names the ad, the slot, and how long it cannot be skipped. *)
Definition serves (ad : CreativeRec) (slot : string) (d : AdDecision) : Prop :=
  ∃ token nonce secret enforcement, d = ServeAd
    {| da_ad_id := ac_id ad; da_title := ac_title ad; da_media_url := media_url_of public_url ad;
       da_duration_secs := ac_duration_secs ad;
       da_click_through_url := ac_click_through_url ad; da_owner_type := ac_owner_type ad |}
    token nonce secret slot enforcement (dc_skip_after_secs config).

Lemma run_build ad stream_id viewer slot is_live s :
  serves ad slot (run (build_decision config public_url ad stream_id viewer slot is_live) s).1.
Proof.
  unfold build_decision, generate_challenge, record_decision, db_atom. simpl. unfold st_bind.
  destruct (ad_random_hex 16 s) as [nonce s1]. destruct (ad_random_hex 32 s1) as [secret s2].
  destruct (ad_uuid s2) as [token s3]. destruct (ad_uuid s3) as [id s4].
  destruct (ad_db _ s4) as [r s5]. simpl. by eexists _, _, _, _.
Qed.
End decision.

Arguments AdHostLaws S {_}.

(** Which ad a viewer gets, when the database answers, at one instant: with platform ads on
    and one of them ready for the slot, one of those; otherwise, with streamer ads on, the
    newest ready ad of the host for the slot that has no active rule or an active rule that
    holds then (a probability rule for some draw), every newer one having been passed over
    because each of its rules failed; and no ad only if that leaves none. The subscriber of
    a stream is no exception, against the first step the source announces. *)
Theorem decide_serves_the_first {S} `{AdHostLaws S} (config : AdConfig) (public_url : string)
    stream_id viewer slot context is_live t now s :
  ad_view s = healthy t now →
  let d := (run (decide config public_url stream_id viewer slot context is_live) s).1 in
  let platform := ready_ads t "platform" None (AdSlot.as_str slot) in
  let own := ready_ads t "creator" (Some (sx_host_user_id context)) (AdSlot.as_str slot) in
  let ctx := rule_context context in
  let platform_serves := dc_platform_ads_enabled config = true ∧ platform ≠ [] in
  (platform_serves ∧ ∃ ad, ad ∈ platform ∧ serves config public_url ad (AdSlot.as_str slot) d) ∨
  (¬ platform_serves ∧ dc_streamer_ads_enabled config = true ∧
   ∃ pre ad post, own = pre ++ ad :: post ∧ may_run t now ctx ad ∧ Forall (passed_over t now ctx) pre ∧
     serves config public_url ad (AdSlot.as_str slot) d) ∨
  (¬ platform_serves ∧ d = no_matching_ad ∧
   (dc_streamer_ads_enabled config = true → Forall (passed_over t now ctx) own)).
Proof.
  intros Hs d platform own ctx platform_serves. unfold d, decide. rewrite run_bind. unfold st_bind.
  destruct (run_platform t now config (AdSlot.as_str slot) s Hs) as [Hs1 Hp].
  destruct (run (pick_platform config (AdSlot.as_str slot)) s) as [[ad|] s1]; simpl in Hs1, Hp.
  { left. destruct Hp as [Hen Hin]. split; [|exists ad; split; [done|apply run_build]].
    split; [done|]. intros E. change (ad ∈ platform) in Hin. rewrite E in Hin.
    by apply elem_of_nil in Hin. }
  assert (Hno : ¬ platform_serves) by (intros [Hen Hne]; by apply Hne; apply Hp).
  right. rewrite run_bind. unfold st_bind.
  destruct (run_streamer t now config (AdSlot.as_str slot) context s1 Hs1) as [Hs2 Ho].
  destruct (run (pick_streamer config (AdSlot.as_str slot) context) s1) as [[ad|] s2]; simpl in Hs2, Ho.
  - left. destruct Ho as (Hen & pre & post & E & Hm & Hpre). split; [done|]. split; [done|].
    exists pre, ad, post. split; [done|]. split; [done|]. split; [done|]. apply run_build.
  - right. by split.
Qed.

(** ** On examples *)
Module AdsTablesDemo.
Definition demo_state : Type := Db * nat.

#[export] Instance demo_host : AdHost demo_state := {|
  ad_db A m := st_fst m;
  ad_utc_now s := (db_now s.1, s);
  ad_random_index n s := (O, s);
  ad_random_unit s := (f64_of_ratio 1 2, s);
  ad_random_hex n s := ("00", s);
  ad_uuid s := (fmt_i64 (Z.of_nat s.2), (s.1, S s.2));
  ad_json_f64 t := None
|}.

#[export] Instance demo_host_laws : AdHostLaws demo_state.
Proof.
  refine {| ad_view := fst |}; try done.
  intros A m [db n]. unfold ad_db. simpl. unfold st_fst. simpl. by destruct (m db).
Defined.

Definition demo_ad (id : string) (created : Z) : CreativeRec := {|
  ac_id := id; ac_owner_type := "creator"; ac_owner_id := "@host:x"; ac_title := id;
  ac_placement := "any"; ac_duration_secs := 15; ac_storage_key := id;
  ac_storage_backend := "external"; ac_cdn_url := None; ac_mime_type := "video/mp4";
  ac_file_size_bytes := 0; ac_click_through_url := None; ac_categories := JArr [];
  ac_status := "ready"; ac_created_at := created; ac_updated_at := created |}.

(** Shown to at least ten viewers. *)
Definition demo_rule : RuleRec := {|
  ru_id := "r"; ru_ad_id := "new"; ru_rule_type := "viewer_count_min";
  ru_rule_config := JObj [("min_viewers", JNum "10")]; ru_priority := 0; ru_active := true;
  ru_created_at := 0 |}.

Definition demo_tables : Tables := set_api (set_ads {|
  d_creatives := [demo_ad "old" 1; demo_ad "new" 2]; d_rules := [demo_rule];
  d_impressions := []; d_policies := [] |} no_api) no_tables.

Definition demo_config : AdConfig := {|
  dc_enabled := true; dc_streamer_ads_enabled := true; dc_platform_ads_enabled := true;
  dc_skip_after_secs := 5 |}.

Definition demo_context (viewers : Z) : StreamAdContext := {|
  sx_viewer_count := viewers; sx_stream_duration_secs := 60; sx_categories := [];
  sx_last_ad_at := None; sx_host_user_id := "@host:x" |}.

Definition demo_decision (viewers : Z) : AdDecision :=
  (run (decide demo_config "https://x" "s" "@me:x" AdSlot.PreRoll (demo_context viewers) true)
     (healthy demo_tables (seconds 3600), O)).1.

Definition served_id (d : AdDecision) : option string :=
  match d with ServeAd ad _ _ _ _ _ _ => Some (da_ad_id ad) | NoAd _ => None end.

Example demo_few : served_id (demo_decision 3) = Some "old".
Proof. by vm_compute. Qed.
Example demo_many : served_id (demo_decision 30) = Some "new".
Proof. by vm_compute. Qed.

Definition demo_ops : list ad_op :=
  [OpDecision "i" "tok" "old" "s" "@me:x" "pre_roll" "creator";
   OpEvent "tok" AdEvent.Quartile75; OpEvent "tok" AdEvent.Quartile25;
   OpEvent "tok" AdEvent.Completed; OpDecision "j" "tok" "new" "s" "@me:x" "pre_roll" "creator"].

Example demo_quartile :
  im_quartile_reached <$> d_impressions (ads_of (db_tables
    (ad_history demo_ops (healthy demo_tables 7)).2)) = [4].
Proof. by vm_compute. Qed.
End AdsTablesDemo.

Lemma impressions_only_grow_witness :
  let db := healthy AdsTablesDemo.demo_tables 7 in
  let db' := (ad_history AdsTablesDemo.demo_ops db).2 in
  ads_inv (ads_of (db_tables db')) ∧
  ∃ l new, d_impressions (ads_of (db_tables db')) = l ++ new ∧
    Forall2 grows (d_impressions (ads_of (db_tables db))) l.
Proof.
  apply (impressions_only_grow AdsTablesDemo.demo_ops (healthy AdsTablesDemo.demo_tables 7)).
  split; simpl.
  - repeat constructor.
  - apply (bool_decide_unpack _). by vm_compute.
  - repeat constructor; apply (bool_decide_unpack _); by vm_compute.
  - constructor.
  - constructor.
  - constructor.
Defined.

Lemma decide_serves_the_first_witness :
  AdsTablesDemo.served_id (AdsTablesDemo.demo_decision 3) = Some "old" ∧
  let t := AdsTablesDemo.demo_tables in
  let d := AdsTablesDemo.demo_decision 3 in
  let platform := ready_ads t "platform" None "pre_roll" in
  let own := ready_ads t "creator" (Some "@host:x") "pre_roll" in
  let ctx := rule_context (AdsTablesDemo.demo_context 3) in
  let platform_serves := true = true ∧ platform ≠ [] in
  (platform_serves ∧ ∃ ad, ad ∈ platform ∧
     serves AdsTablesDemo.demo_config "https://x" ad "pre_roll" d) ∨
  (¬ platform_serves ∧ true = true ∧
   ∃ pre ad post, own = pre ++ ad :: post ∧
     may_run (H := AdsTablesDemo.demo_host) t (seconds 3600) ctx ad ∧
     Forall (passed_over (H := AdsTablesDemo.demo_host) t (seconds 3600) ctx) pre ∧
     serves AdsTablesDemo.demo_config "https://x" ad "pre_roll" d) ∨
  (¬ platform_serves ∧ d = no_matching_ad ∧
   (true = true → Forall (passed_over (H := AdsTablesDemo.demo_host) t (seconds 3600) ctx) own)).
Proof.
  split; [by vm_compute|].
  apply (decide_serves_the_first (S := AdsTablesDemo.demo_state)
    (H := AdsTablesDemo.demo_host) (H0 := AdsTablesDemo.demo_host_laws) AdsTablesDemo.demo_config "https://x" "s" "@me:x" AdSlot.PreRoll
    (AdsTablesDemo.demo_context 3) true AdsTablesDemo.demo_tables (seconds 3600)
    (healthy AdsTablesDemo.demo_tables (seconds 3600), O)). done.
Defined.
