(* ===== verification/AdsApi.v ===== *)
(** * AdsApi: ads in a running broadcast

    [mm-api/src/ads.rs] with the ad routing entries of [state.rs]. Requests, the switch-back
    timers they leave behind and the fleet that moves viewers all run concurrently; they
    share the switch pool, the map of running ads and the database. Every handler is cut at
    its awaits. What goes out to a switch, and what is done to the map of running ads, is
    written down with the task that did it and the time. *)
From Stdlib Require Import Ascii.
From S2P Require Import Prelude F64 ApiSchema Json Schema Errors FleetTypes MoneyDb Interleave.
From S2P Require Import SwitchPool RecordingsApi MediaProbe Ads.
Local Open Scope Z_scope.
Local Open Scope mm_scope.

(** ** State *)
Record AdSwitchEntry : Type := {
  se_viewer_id : ViewerId;
  se_stream_source_id : string;
  se_ad_source_id : string;
  se_started_at : Z;
  se_node_id : option NodeId;
  se_slot : AdSlot.t;
  se_billable : bool
}.

Definition preroll_for_migration (now : Z) (node_id : NodeId) (viewer_id : ViewerId)
    (stream_source_id ad_source_id : string) : AdSwitchEntry := {|
  se_viewer_id := viewer_id; se_stream_source_id := stream_source_id;
  se_ad_source_id := ad_source_id; se_started_at := now; se_node_id := Some node_id;
  se_slot := AdSlot.PreRoll; se_billable := false |}.

(** The calls to a switch, [SwitchClient]'s methods. *)
Inductive SwitchCall : Type :=
  | AddFileSource (id url : string) (looped : bool)
  | SwitchViewer (viewer : ViewerId) (source : string)
  | RemoveSource (id : string).

#[export] Instance SwitchCall_eq_dec : EqDecision SwitchCall.
Proof. solve_decision. Defined.

(** What a spawned switch-back captured. *)
Record AdTimer : Type := {
  tm_token : string;
  tm_secs : Z;
  tm_viewer : ViewerId;
  tm_stream_src : string;
  tm_ad_src : string;
  tm_node : option NodeId
}.

(** What is written down: a token was drawn, a switch was called and how it ended, an ad
    was entered in the map (with the client that took it), an entry was taken out. *)
Inductive ad_mark (C : Type) : Type :=
  | Drew (token : string)
  | Called (c : C) (call : SwitchCall) (ok : bool)
  | Began (token : string) (c : C) (e : AdSwitchEntry)
  | Claimed (token : string) (e : AdSwitchEntry).
Arguments Drew {C} _.
Arguments Called {C} _ _ _.
Arguments Began {C} _ _ _.
Arguments Claimed {C} _ _.

Record marked (C : Type) : Type := { mk_who : nat; mk_at : Z; mk_what : ad_mark C }.
Arguments mk_who {C} _.
Arguments mk_at {C} _.
Arguments mk_what {C} _.

(** [aw_clock] is the monotonic clock in nanoseconds, [aw_config] the live configuration,
    [aw_net] everything outside of the process. *)
Record AdWorld (C N : Type) : Type := {
  aw_db : Db;
  aw_clock : Z;
  aw_config : AdConfig;
  aw_switches : gmap string AdSwitchEntry;
  aw_timers : list AdTimer;
  aw_drawn : nat;
  aw_net : N;
  aw_trace : list (marked C)
}.
Arguments aw_db {C N} _.
Arguments aw_clock {C N} _.
Arguments aw_config {C N} _.
Arguments aw_switches {C N} _.
Arguments aw_timers {C N} _.
Arguments aw_drawn {C N} _.
Arguments aw_net {C N} _.
Arguments aw_trace {C N} _.

(** The switches' HTTP interface, the SFU's, the wall clock and the random generator. *)
Class AdNet (C N : Type) : Type := {
  net_call : C → SwitchCall → st N (result () string);
  net_permissions : string → ViewerId → bool → st N (result () string);
  net_utc : st N DateTime;
  net_index : nat → st N nat;
  net_unit : st N f64;
  net_hex : nat → st N string;
  net_get : string → option string → st N (option Reply);
  json_f64 : string → option f64
}.

Section world.
Context {C N : Type} `{AdNet C N}.
(** The identifiers [Uuid::new_v4] returns, in the order they are drawn. *)
Context (uuid_of : nat → string).
(** The task that runs: a request, or a timer. *)
Context (who : nat).
Abbreviation World := (AdWorld C N).
Abbreviation W := (SwitchPool C * World)%type.
Implicit Types (w : World).

Definition with_db (db : Db) w : World := {|
  aw_db := db; aw_clock := aw_clock w; aw_config := aw_config w; aw_switches := aw_switches w;
  aw_timers := aw_timers w; aw_drawn := aw_drawn w; aw_net := aw_net w; aw_trace := aw_trace w |}.
Definition with_clock (t : Z) w : World := {|
  aw_db := aw_db w; aw_clock := t; aw_config := aw_config w; aw_switches := aw_switches w;
  aw_timers := aw_timers w; aw_drawn := aw_drawn w; aw_net := aw_net w; aw_trace := aw_trace w |}.
Definition with_config (c : AdConfig) w : World := {|
  aw_db := aw_db w; aw_clock := aw_clock w; aw_config := c; aw_switches := aw_switches w;
  aw_timers := aw_timers w; aw_drawn := aw_drawn w; aw_net := aw_net w; aw_trace := aw_trace w |}.
Definition with_switches (m : gmap string AdSwitchEntry) w : World := {|
  aw_db := aw_db w; aw_clock := aw_clock w; aw_config := aw_config w; aw_switches := m;
  aw_timers := aw_timers w; aw_drawn := aw_drawn w; aw_net := aw_net w; aw_trace := aw_trace w |}.
Definition with_timers (l : list AdTimer) w : World := {|
  aw_db := aw_db w; aw_clock := aw_clock w; aw_config := aw_config w; aw_switches := aw_switches w;
  aw_timers := l; aw_drawn := aw_drawn w; aw_net := aw_net w; aw_trace := aw_trace w |}.
Definition with_drawn (n : nat) w : World := {|
  aw_db := aw_db w; aw_clock := aw_clock w; aw_config := aw_config w; aw_switches := aw_switches w;
  aw_timers := aw_timers w; aw_drawn := n; aw_net := aw_net w; aw_trace := aw_trace w |}.
Definition with_net (n : N) w : World := {|
  aw_db := aw_db w; aw_clock := aw_clock w; aw_config := aw_config w; aw_switches := aw_switches w;
  aw_timers := aw_timers w; aw_drawn := aw_drawn w; aw_net := n; aw_trace := aw_trace w |}.
Definition note (m : ad_mark C) w : World := {|
  aw_db := aw_db w; aw_clock := aw_clock w; aw_config := aw_config w; aw_switches := aw_switches w;
  aw_timers := aw_timers w; aw_drawn := aw_drawn w; aw_net := aw_net w;
  aw_trace := aw_trace w ++ [{| mk_who := who; mk_at := aw_clock w; mk_what := m |}] |}.

Definition on_world {A} (m : st World A) : st W A := st_snd m.
Definition use_db {A} (m : st Db A) : st W A :=
  on_world (λ w, let (a, db) := m (aw_db w) in (a, with_db db w)).
Definition use_net {A} (m : st N A) : st W A :=
  on_world (λ w, let (a, n) := m (aw_net w) in (a, with_net n w)).

Definition draw_uuid : st W string := on_world (λ w,
  let token := uuid_of (aw_drawn w) in
  (token, note (Drew token) (with_drawn (S (aw_drawn w)) w))).

#[local] Instance world_host : AdHost W := {|
  ad_db A m := use_db m;
  ad_utc_now := use_net net_utc;
  ad_random_index n := use_net (net_index n);
  ad_random_unit := use_net net_unit;
  ad_random_hex n := use_net (net_hex n);
  ad_uuid := draw_uuid;
  ad_json_f64 := json_f64
|}.

Definition ask {A} (m : st Db (result A db_error)) : prog W (result A MMError.t) :=
  do! r := atom (use_db m) in Done (map_err db_err r).

Definition ask_db {A} (m : st Db (result A MMError.t)) : prog W (result A MMError.t) :=
  atom (use_db m).

Definition ignore {A} (m : st Db (result A db_error)) : prog W () :=
  do! _ := atom (use_db m) in Done ().

(** One call to a switch. *)
Definition switch_call (c : C) (call : SwitchCall) : prog W (result () string) :=
  atom (on_world (λ w,
    let (r, n) := net_call c call (aw_net w) in
    (r, note (Called c call (is_ok r)) (with_net n w)))).

Definition live_config : prog W AdConfig := atom (on_world (λ w, (aw_config w, w))).
Definition instant_now : prog W Z := atom (on_world (λ w, (aw_clock w, w))).

(** [tokio::time::sleep]: counted from now; when the task runs again that much time has
    passed. *)
Definition sleep (d : Z) : prog W () :=
  do! now := instant_now in
  atom (on_world (λ w, ((), with_clock (Z.max (aw_clock w) (now + d)) w))).

(** [map.remove(&token)]. *)
Definition claim (token : string) : prog W (option AdSwitchEntry) :=
  atom (on_world (λ w,
    match aw_switches w !! token with
    | Some e => (Some e, note (Claimed token e) (with_switches (delete token (aw_switches w)) w))
    | None => (None, w)
    end)).

(** [map.insert(token, entry)], with the start read under the lock. *)
Definition begin_ad (token : string) (c : C) (viewer : ViewerId) (stream_src ad_src : string)
    (node : option NodeId) (slot : AdSlot.t) (billable : bool) : prog W () :=
  atom (on_world (λ w,
    let e := {| se_viewer_id := viewer; se_stream_source_id := stream_src;
                se_ad_source_id := ad_src; se_started_at := aw_clock w; se_node_id := node;
                se_slot := slot; se_billable := billable |} in
    ((), note (Began token c e) (with_switches (<[token := e]> (aw_switches w)) w)))).

Definition spawn_timer (t : AdTimer) : prog W () :=
  atom (on_world (λ w, ((), with_timers (aw_timers w ++ [t]) w))).

(** ** The server *)

(** What the handlers were built with: an engine with its own copy of the configuration, a
    switch pool and a PostgreSQL pool, each or not. *)
Record AdServer : Type := {
  sv_engine : option AdConfig;
  sv_switch_pool : bool;
  sv_pg_pool : bool;
  sv_public_url : option string
}.
Context (state : AdServer) (to_rfc3339 : DateTime → string).

Definition require_advertising : prog W (result AdConfig MMError.t) :=
  do! cfg := live_config in
  Done (if negb (dc_enabled cfg)
        then Err (MMError.api ErrorCode.FeatureDisabled "advertising is disabled")
        else match sv_engine state with
             | None => Err (MMError.api ErrorCode.FeatureDisabled "ad engine not initialized")
             | Some engine => Ok engine
             end).

Definition ad_not_found {A} : prog W (result A MMError.t) :=
  Done (Err (MMError.api ErrorCode.NotFound "ad not found")).

(** *** Creators *)
Record UploadAdRequest : Type := {
  ur_title : string;
  ur_placement : string;
  ur_duration_secs : Z;
  ur_click_through_url : option string;
  ur_media_url : option string;
  ur_categories : list string
}.

Record AdCreativeResponse : Type := {
  cr_id : string;
  cr_title : string;
  cr_placement : string;
  cr_duration_secs : Z;
  cr_status : string;
  cr_owner_type : string;
  cr_media_url : string;
  cr_created_at : string
}.

(** The duration given, or the probed one; a panic of the probe ends the request. *)
Definition upload_duration (requested : Z) (media_url : string) : prog W (read Z) :=
  if 0 <? requested then Done (Read requested)
  else
    do! probed := atom (use_net (probe_duration net_get media_url)) in
    Done (match probed with Read p => Read (default 30 p) | OutOfRange => OutOfRange end).

Definition uploaded (me : string) (req : UploadAdRequest) (id : string) (now : DateTime)
    (duration_secs : Z) : CreativeRec := {|
  ac_id := id; ac_owner_type := "creator"; ac_owner_id := me; ac_title := ur_title req;
  ac_placement := ur_placement req; ac_duration_secs := duration_secs;
  ac_storage_key := match ur_media_url req with
                    | Some _ => "external/" +:+ id
                    | None => "/data/ads/" +:+ id +:+ ".mp4"
                    end;
  ac_storage_backend := match ur_media_url req with Some _ => "external" | None => "local" end;
  ac_cdn_url := ur_media_url req; ac_mime_type := "video/mp4"; ac_file_size_bytes := 0;
  ac_click_through_url := ur_click_through_url req;
  ac_categories := JArr (JStr <$> ur_categories req); ac_status := "ready";
  ac_created_at := now; ac_updated_at := now |}.

Definition upload_ad (me : string) (req : UploadAdRequest) :
    prog W (read (result AdCreativeResponse MMError.t)) :=
  do! guard := require_advertising in
  match guard with
  | Err e => Done (Read (Err e))
  | Ok _ =>
      do! id := atom draw_uuid in
      do! now := atom (use_net net_utc) in
      let public_url := default EmptyString (sv_public_url state) in
      let media_url := default (public_url +:+ "/_mm/ads/" +:+ id +:+ ".mp4") (ur_media_url req) in
      do! dur := upload_duration (ur_duration_secs req) media_url in
      match dur with
      | OutOfRange => Done OutOfRange
      | Read duration_secs =>
          do! r := ask (create_creative (uploaded me req id now duration_secs)) in
          Done (Read (match r with
            | Err e => Err e
            | Ok _ => Ok {| cr_id := id; cr_title := ur_title req;
                cr_placement := ur_placement req; cr_duration_secs := duration_secs;
                cr_status := "ready"; cr_owner_type := "creator"; cr_media_url := media_url;
                cr_created_at := to_rfc3339 now |}
            end))
      end
  end.

Definition ad_summary (a : CreativeRec) : json_value := JObj [
  ("id", JStr (ac_id a)); ("title", JStr (ac_title a)); ("placement", JStr (ac_placement a));
  ("duration_secs", jint (ac_duration_secs a)); ("status", JStr (ac_status a));
  ("categories", ac_categories a); ("created_at", JStr (to_rfc3339 (ac_created_at a)))].

Definition list_my_ads (me : string) : prog W (result json_value MMError.t) :=
  do? _ := require_advertising in
  do? ads := ask (list_by_owner "creator" me) in
  Done (Ok (JObj [("ads", JArr (ad_summary <$> ads))])).

Definition get_ad (id : string) : prog W (result CreativeRec MMError.t) :=
  do? _ := require_advertising in
  do? ad := ask (get_creative id) in
  match ad with None => ad_not_found | Some ad => Done (Ok ad) end.

Definition delete_ad (me id : string) : prog W (result () MMError.t) :=
  do? _ := require_advertising in
  do? ad := ask (get_creative id) in
  match ad with
  | None => ad_not_found
  | Some ad =>
      if negb (String.eqb (ac_owner_id ad) me)
      then Done (Err (MMError.api ErrorCode.Forbidden "not your ad"))
      else ask (soft_delete id)
  end.

Definition serve_ad_media (id : string) : prog W (result string MMError.t) :=
  do? _ := require_advertising in
  do? ad := ask (get_creative id) in
  match ad with
  | None => ad_not_found
  | Some ad => Done (Ok (default (default EmptyString (sv_public_url state) +:+ "/_mm/ads/" +:+
                                   ac_id ad +:+ ".mp4") (ac_cdn_url ad)))
  end.

Record AdStatsResponse : Type := {
  sp_ad_id : string;
  sp_total : nat;
  sp_completions : nat;
  sp_skips : nat;
  sp_clicks : nat;
  sp_completion_rate : f64;
  sp_ctr : f64
}.

Definition count_some {A B} (f : A → option B) (l : list A) : nat :=
  length (List.filter (λ a, match f a with Some _ => true | None => false end) l).

Definition rate (n total : nat) : f64 :=
  if bool_decide (0 < total)%nat
  then f64_div (f64_of_Z (Z.of_nat n)) (f64_of_Z (Z.of_nat total)) else Fin 0.

Definition stats_of (id : string) (l : list ImpressionRec) : AdStatsResponse := {|
  sp_ad_id := id; sp_total := length l; sp_completions := count_some im_completed_at l;
  sp_skips := count_some im_skipped_at l; sp_clicks := count_some im_clicked_at l;
  sp_completion_rate := rate (count_some im_completed_at l) (length l);
  sp_ctr := rate (count_some im_clicked_at l) (length l) |}.

Definition get_ad_stats (me id : string) : prog W (result AdStatsResponse MMError.t) :=
  do? _ := require_advertising in
  do? ad := ask (get_creative id) in
  match ad with
  | None => ad_not_found
  | Some ad =>
      if negb (String.eqb (ac_owner_id ad) me) && negb (String.eqb (ac_owner_type ad) "platform")
      then Done (Err (MMError.api ErrorCode.Forbidden "not your ad"))
      else
        do? l := ask (list_by_ad id 1000 0) in
        Done (Ok (stats_of id l))
  end.

(** *** Viewers *)
Definition stream_not_found {A} : prog W (result A MMError.t) :=
  Done (Err (MMError.api ErrorCode.NotFound "stream not found")).

Definition GRACE : Z := 10.

(** How long the server waits before it switches back by itself. *)
Definition timer_secs (duration_secs : Z) : Z :=
  as_u64_cast (Z.max (as_u64_cast duration_secs) 30 + GRACE).

Definition switch_media_url (media_url : string) : string :=
  if starts_with "http://" media_url || starts_with "https://" media_url then media_url
  else "http://mm-web/_mm/ads/bunny.webm".

Definition ad_source_id (user : string) (millis : Z) : string :=
  "ad-" +:+ dashed [":"; "@"; "!"]%char user +:+ "-" +:+ fmt_i64 millis.

(** The ad goes out on the viewer's pipe: the switch is told of the file and of the viewer,
    the ad is entered in the map, and the switch-back is scheduled. *)
Definition inject_ad (stream_id user token : string) (ad : AdDecisionAd) (slot : AdSlot.t)
    (ad_src : string) (route : ViewerRoute C) : prog W () :=
  let viewer := switch_viewer_id stream_id user in
  let c := vr_client route in
  do! added := switch_call c (AddFileSource ad_src (switch_media_url (da_media_url ad)) false) in
  match added with
  | Err _ => Done ()
  | Ok _ =>
      do! switched := switch_call c (SwitchViewer viewer ad_src) in
      do! _ := (match switched with
                | Err _ => Done ()
                | Ok _ => if vr_billable route then ignore (record_sfu_revoked token) else Done ()
                end) in
      do! _ := begin_ad token c viewer (switch_source_id stream_id) ad_src (vr_node_id route) slot
                 (vr_billable route) in
      spawn_timer {| tm_token := token; tm_secs := timer_secs (da_duration_secs ad);
        tm_viewer := viewer; tm_stream_src := switch_source_id stream_id; tm_ad_src := ad_src;
        tm_node := vr_node_id route |}
  end.

Definition show_ad (stream_id user token : string) (row : StreamRec) (ad : AdDecisionAd)
    (slot : AdSlot.t) : prog W () :=
  do! now := atom (use_net net_utc) in
  let ad_src := ad_source_id user (now `div` 1000000) in
  if sv_switch_pool state then
    do! route := route_viewer (switch_viewer_id stream_id user) in
    inject_ad stream_id user token ad slot ad_src route
  else
    match sr_sfu_room_id row with
    | Some room =>
        do! _ := atom (use_net (net_permissions room (switch_viewer_id stream_id user) false)) in
        ignore (record_sfu_revoked token)
    | None => Done ()
    end.

Definition decision_context (row : StreamRec) (now : DateTime) : StreamAdContext := {|
  sx_viewer_count := u32_wrap (sr_participant_count row);
  sx_stream_duration_secs := Z.max 0 (num_seconds (now - sr_started_at row));
  sx_categories := []; sx_last_ad_at := None; sx_host_user_id := sr_host_user_id row |}.

Definition is_live (row : StreamRec) : bool := String.eqb (sr_status row) "active".

Definition ad_decision (me stream_id slot_name : string) : prog W (result AdDecision MMError.t) :=
  do? engine := require_advertising in
  do? stream := ask_db (MoneyDb.get_stream stream_id) in
  match stream with
  | None => stream_not_found
  | Some row =>
      do! ads_enabled := atom (use_db (creator_ads_enabled (sv_pg_pool state)
                                         (sr_host_user_id row))) in
      if negb ads_enabled then Done (Ok (NoAd "creator_opt_out"))
      else
      match AdSlot.from_str slot_name with
      | None => Done (Err (MMError.api ErrorCode.InvalidAmount "invalid slot"))
      | Some slot =>
          do! now := atom (use_net net_utc) in
          do! decision := decide engine (default EmptyString (sv_public_url state)) stream_id me slot
                            (decision_context row now) (is_live row) in
          do! _ := (if is_live row then
                      match decision with
                      | ServeAd ad token _ _ _ _ _ => show_ad stream_id me token row ad slot
                      | NoAd _ => Done ()
                      end
                    else Done ()) in
          Done (Ok decision)
      end
  end.

(** [POST /streams/{id}/ad-complete]. *)
Definition ad_complete (me stream_id : string) (proof : AdCompletionProof) :
    prog W (result () MMError.t) :=
  do? _ := require_advertising in
  do? impression := ask (get_by_token (pf_impression_token proof)) in
  match impression with
  | None => Done (Err (MMError.api ErrorCode.NotFound "impression not found"))
  | Some impression =>
      if negb (String.eqb (im_viewer_user_id impression) me)
      then Done (Err (MMError.api ErrorCode.Forbidden "not your impression"))
      else
        do? _ := ask (update_event (pf_impression_token proof) AdEvent.Completed) in
        do? stream := ask_db (MoneyDb.get_stream stream_id) in
        do! _ := (match stream with
                  | Some row => if is_live row
                                then ignore (record_sfu_restored (pf_impression_token proof))
                                else Done ()
                  | None => Done ()
                  end) in
        Done (Ok ())
  end.

Definition ad_status (me stream_id : string) : prog W (result bool MMError.t) :=
  do? _ := require_advertising in
  ask (has_active_ad_break stream_id me).

(** The end of an ad, on the switch that still holds the viewer. *)
Definition end_ad (c : C) (viewer : ViewerId) (stream_src ad_src : string) : prog W () :=
  do! _ := switch_call c (SwitchViewer viewer stream_src) in
  do! _ := switch_call c (RemoveSource ad_src) in
  Done ().

Definition ENDING : list string := ["skip"; "skipped"; "complete"; "completed"].

(** A skip that comes early waits until the ad was shown for its minimum. *)
Definition end_entry (e : AdSwitchEntry) : prog W () :=
  if sv_switch_pool state then
    do! client := resolve_switch_back (se_viewer_id e) (se_node_id e) in
    match client with
    | Err _ => Done ()
    | Ok c =>
        do! cfg := live_config in
        do! now := instant_now in
        let min_view := seconds (dc_skip_after_secs cfg) in
        let elapsed := Z.max 0 (now - se_started_at e) in
        do! _ := (if elapsed <? min_view then sleep (min_view - elapsed) else Done ()) in
        end_ad c (se_viewer_id e) (se_stream_source_id e) (se_ad_source_id e)
    end
  else Done ().

(** [POST /ads/events]. *)
Definition report_ad_event (token event : string) : prog W (result () MMError.t) :=
  do? _ := require_advertising in
  match AdEvent.from_str event with
  | None => Done (Err (MMError.api ErrorCode.InvalidAmount "unknown event type"))
  | Some ev =>
      do? _ := ask (update_event token ev) in
      do! _ := (if bool_decide (event ∈ ENDING) then
                  do! entry := claim token in
                  match entry with Some e => end_entry e | None => Done () end
                else Done ()) in
      Done (Ok ())
  end.

(** [POST /streams/{id}/ad-break]: checks, and logs the request. *)
Definition trigger_ad_break (me stream_id : string) : prog W (result () MMError.t) :=
  do? _ := require_advertising in
  do? stream := ask_db (MoneyDb.get_stream stream_id) in
  match stream with
  | None => stream_not_found
  | Some row =>
      if negb (String.eqb (sr_host_user_id row) me)
      then Done (Err (MMError.api ErrorCode.Forbidden "only the host can trigger ad breaks"))
      else if negb (is_live row)
      then Done (Err (MMError.api ErrorCode.InvalidAmount "stream is not active"))
      else
        do! ads_enabled := atom (use_db (creator_ads_enabled (sv_pg_pool state)
                                           (sr_host_user_id row))) in
        Done (if negb ads_enabled
              then Err (MMError.api ErrorCode.Forbidden "advertising is disabled for this creator")
              else Ok ())
  end.

(** *** The spawned switch-back *)
Definition take_timer (n : nat) : prog W (option AdTimer) :=
  atom (on_world (λ w,
    match aw_timers w !! n with
    | Some t => (Some t, with_timers (delete n (aw_timers w)) w)
    | None => (None, w)
    end)).

Definition fire (t : AdTimer) : prog W () :=
  do! _ := sleep (seconds (tm_secs t)) in
  do! entry := claim (tm_token t) in
  match entry with
  | None => Done ()
  | Some _ =>
      if sv_switch_pool state then
        do! client := resolve_switch_back (tm_viewer t) (tm_node t) in
        match client with
        | Err _ => Done ()
        | Ok c => end_ad c (tm_viewer t) (tm_stream_src t) (tm_ad_src t)
        end
      else Done ()
  end.

(** The runtime picks a spawned task and runs it. *)
Definition run_timer (n : nat) : prog W () :=
  do! t := take_timer n in
  match t with Some t => fire t | None => Done () end.
End world.

(** The answer to a completion does not depend on the proof it carries, only on the token. *)
Lemma completion_unproved {C N : Type} `{AdNet C N} state me stream_id proof proof' :
  pf_impression_token proof = pf_impression_token proof' →
  ad_complete (C := C) (N := N) state me stream_id proof = ad_complete state me stream_id proof'.
Proof. intros E. unfold ad_complete. by rewrite E. Qed.

(** Of the four event names that end an ad, two are refused as unknown before. *)
Example ending_events : AdEvent.from_str <$> ENDING =
  [None; Some AdEvent.Skipped; None; Some AdEvent.Completed].
Proof. done. Qed.
