(* ===== verification/AdsAdmin.v ===== *)
(** * AdsAdmin: the operator's ads

    The advertising endpoints of [mm-api/src/admin.rs]: platform ads, updates, the upload of
    a video file with its transcoding, and the statistics. *)
From S2P Require Import Prelude F64 ApiSchema Json Schema Errors Text MoneyDb Interleave.
From S2P Require Import SwitchPool Auth MediaProbe Ads AdsApi.
Local Open Scope Z_scope.
Local Open Scope mm_scope.

(** The file system and ffmpeg; [None] where the code ignores the outcome. *)
Class AdFiles (N : Type) : Type := {
  fs_create_dir_all : string → st N ();
  fs_write : string → string → st N (result () string);
  fs_rename : string → string → st N (result () string);
  fs_remove : string → st N ();
  fs_len : string → st N (option Z);
  ffmpeg : string → string → st N (result bool string)   (** whether it ended with success *)
}.

Section admin.
Context {C N : Type} `{AdNet C N, AdFiles N} (uuid_of : nat → string) (who : nat).
Context (state : AdServer) (to_rfc3339 : DateTime → string).
Abbreviation W := (SwitchPool C * AdWorld C N)%type.

Definition on_ok {A B} (r : result A MMError.t) (k : A → prog W (result B MMError.t)) :
    prog W (result B MMError.t) :=
  match r with Ok a => k a | Err e => Done (Err e) end.

(** [require_admin] and the engine. *)
Definition admin_engine (admin : AdminAuth) : result () MMError.t :=
  match require_admin admin with
  | Err e => Err e
  | Ok _ => match sv_engine state with
            | Some _ => Ok ()
            | None => Err (MMError.api ErrorCode.FeatureDisabled "advertising disabled")
            end
  end.

Definition opt_json (o : option string) : json_value :=
  match o with Some s => JStr s | None => JNull end.

Definition ad_details (a : CreativeRec) : json_value := JObj [
  ("id", JStr (ac_id a)); ("title", JStr (ac_title a)); ("owner_type", JStr (ac_owner_type a));
  ("owner_id", JStr (ac_owner_id a)); ("placement", JStr (ac_placement a));
  ("duration_secs", jint (ac_duration_secs a)); ("status", JStr (ac_status a));
  ("cdn_url", opt_json (ac_cdn_url a)); ("click_through_url", opt_json (ac_click_through_url a));
  ("mime_type", JStr (ac_mime_type a)); ("file_size_bytes", jint (ac_file_size_bytes a));
  ("categories", ac_categories a); ("created_at", JStr (to_rfc3339 (ac_created_at a)));
  ("updated_at", JStr (to_rfc3339 (ac_updated_at a)))].

Definition admin_list_ads (admin : AdminAuth) : prog W (result json_value MMError.t) :=
  on_ok (admin_engine admin) (λ _,
  do? ads := ask (list_all_creatives 500) in
  Done (Ok (JObj [("ads", JArr (ad_details <$> ads))]))).

Definition platform_ad (id : string) (now : DateTime) (req : json_value) : CreativeRec := {|
  ac_id := id; ac_owner_type := "platform"; ac_owner_id := "admin";
  ac_title := default "Platform Ad" (as_str (jindex "title" req));
  ac_placement := default "pre_roll" (as_str (jindex "placement" req));
  ac_duration_secs := i32_wrap (default 15 (as_i64 (jindex "duration_secs" req)));
  ac_storage_key := "ads/" +:+ id +:+ ".mp4"; ac_storage_backend := "local";
  ac_cdn_url := as_str (jindex "cdn_url" req); ac_mime_type := "video/mp4";
  ac_file_size_bytes := 0; ac_click_through_url := as_str (jindex "click_through_url" req);
  ac_categories := default (JArr []) (jget "categories" req); ac_status := "ready";
  ac_created_at := now; ac_updated_at := now |}.

Definition admin_upload_ad (admin : AdminAuth) (req : json_value) :
    prog W (result json_value MMError.t) :=
  on_ok (admin_engine admin) (λ _,
  do! id := atom (draw_uuid uuid_of who) in
  do! now := atom (use_net net_utc) in
  do? _ := ask (create_creative (platform_ad id now req)) in
  Done (Ok (JObj [("id", JStr id); ("status", JStr "ready")]))).

Definition admin_delete_ad (admin : AdminAuth) (id : string) : prog W (result () MMError.t) :=
  on_ok (admin_engine admin) (λ _, ask (soft_delete id)).

Definition patch_of (req : json_value) : CreativePatch := {|
  cu_title := as_str (jindex "title" req); cu_placement := as_str (jindex "placement" req);
  cu_status := as_str (jindex "status" req);
  cu_click_through_url := as_str (jindex "click_through_url" req);
  cu_categories := jget "categories" req;
  cu_duration_secs := i32_wrap <$> as_i64 (jindex "duration_secs" req);
  cu_cdn_url := as_str (jindex "cdn_url" req); cu_file_size_bytes := None; cu_mime_type := None |}.

Definition admin_update_ad (admin : AdminAuth) (id : string) (req : json_value) :
    prog W (result () MMError.t) :=
  on_ok (admin_engine admin) (λ _, ask (update_creative id (patch_of req))).

(** *** The upload of a file *)
Definition ADS_DIR : string := "/opt/MatrixMedia/web/ads".

Definition bad_upload {A} (msg : string) : result A MMError.t :=
  Err (MMError.api ErrorCode.InvalidAmount msg).

(** What the multipart form holds: the name and the bytes of its file, or an error while it
    was read. *)
Definition form_file (form : result (option (option string * string)) string) :
    result (string * string) MMError.t :=
  match form with
  | Err e => bad_upload ("read error: " +:+ e)
  | Ok None => bad_upload "no file in upload"
  | Ok (Some (name, data)) =>
      if is_empty_str data then bad_upload "no file in upload"
      else Ok (default "upload.mp4" name, data)
  end.

Definition os {A} (what : string) (m : st N (result A string)) : prog W (result A MMError.t) :=
  do! r := atom (use_net m) in
  Done (match r with Ok a => Ok a | Err e => bad_upload (what +:+ " error: " +:+ e) end).

(** The stored file is WebM: renamed, or transcoded. *)
Definition store_webm (is_webm : bool) (input output : string) : prog W (result () MMError.t) :=
  if is_webm then os "rename" (fs_rename input output)
  else
    do? success := os "ffmpeg" (ffmpeg input output) in
    do! _ := atom (use_net (fs_remove input)) in
    Done (if negb success then bad_upload "ffmpeg transcoding failed" else Ok ()).

Definition uploaded_patch (duration file_size : Z) (cdn_url : string) : CreativePatch := {|
  cu_title := None; cu_placement := None; cu_status := Some "ready";
  cu_click_through_url := None; cu_categories := None; cu_duration_secs := Some duration;
  cu_cdn_url := Some cdn_url; cu_file_size_bytes := Some file_size;
  cu_mime_type := Some "video/webm" |}.

(** The answer is the URL, the duration and the size; a panic of the probe ends the request. *)
Definition admin_upload_ad_file (admin : AdminAuth) (id : string)
    (form : result (option (option string * string)) string) :
    prog W (read (result (string * Z * Z) MMError.t)) :=
  match admin_engine admin, form_file form with
  | Err e, _ => Done (Read (Err e))
  | Ok _, Err e => Done (Read (Err e))
  | Ok _, Ok (file_name, data) =>
      let is_webm := ends_with ".webm" file_name in
      let input := ADS_DIR +:+ "/" +:+ id +:+ "_upload" +:+ (if is_webm then ".webm" else ".mp4") in
      let output := ADS_DIR +:+ "/" +:+ id +:+ ".webm" in
      do! _ := atom (use_net (fs_create_dir_all ADS_DIR)) in
      do! stored := (do? _ := os "write" (fs_write input data) in store_webm is_webm input output) in
      match stored with
      | Err e => Done (Read (Err e))
      | Ok _ =>
          let internal_url := "http://mm-web/_mm/ads/" +:+ id +:+ ".webm" in
          do! probed := atom (use_net (probe_duration net_get internal_url)) in
          match probed with
          | OutOfRange => Done OutOfRange
          | Read probed =>
              let duration := default 30 probed in
              do! len := atom (use_net (fs_len output)) in
              let file_size := default 0 (i64_wrap <$> len) in
              do! r := ask (update_creative id (uploaded_patch duration file_size internal_url)) in
              Done (Read (match r with
                          | Ok _ => Ok (internal_url, duration, file_size)
                          | Err e => Err e
                          end))
          end
      end
  end.

(** *** Statistics *)
Definition count_impressions (p : ImpressionRec → bool) : prog W (result Z MMError.t) :=
  ask (exec (reading (λ t, Z.of_nat (length (List.filter p (d_impressions (ads_of t))))))).

Definition some {A} (o : option A) : bool := match o with Some _ => true | None => false end.

Definition admin_pool (admin : AdminAuth) : result () MMError.t :=
  match require_admin admin with
  | Err e => Err e
  | Ok _ => if sv_pg_pool state then Ok ()
            else Err (MMError.api ErrorCode.FeatureDisabled "no database")
  end.

Definition ratio (n total : Z) : f64 :=
  if 0 <? total then f64_div (f64_of_Z n) (f64_of_Z total) else Fin 0.

(** To two digits. *)
Definition two_digits (x : f64) : f64 :=
  f64_div (f64_round (f64_mul x (f64_of_Z 100))) (f64_of_Z 100).

Record AdminStats : Type := {
  as_total_ads : option Z;
  as_impressions : Z;
  as_completions : Z;
  as_skips : Z;
  as_clicks : Z;
  as_completion_rate : f64;
  as_ctr : f64
}.

(** The four counts are four statements. *)
Definition four_counts (p : ImpressionRec → bool) : prog W (result (Z * Z * Z * Z) MMError.t) :=
  do? impressions := count_impressions p in
  do? completions := count_impressions (λ i, p i && some (im_completed_at i)) in
  do? skips := count_impressions (λ i, p i && some (im_skipped_at i)) in
  do? clicks := count_impressions (λ i, p i && some (im_clicked_at i)) in
  Done (Ok (impressions, completions, skips, clicks)).

Definition admin_get_ad_stats (admin : AdminAuth) (id : string) :
    prog W (result AdminStats MMError.t) :=
  on_ok (admin_pool admin) (λ _,
  do? counts := four_counts (λ i, String.eqb (im_ad_id i) id) in
  let '(impressions, completions, skips, clicks) := counts in
  Done (Ok {| as_total_ads := None; as_impressions := impressions;
    as_completions := completions; as_skips := skips; as_clicks := clicks;
    as_completion_rate := two_digits (ratio completions impressions);
    as_ctr := two_digits (ratio clicks impressions) |})).

Definition admin_ad_analytics (admin : AdminAuth) : prog W (result AdminStats MMError.t) :=
  on_ok (admin_pool admin) (λ _,
  do? counts := four_counts (λ _, true) in
  do? total := ask (exec (reading (λ t, Z.of_nat (length
                 (List.filter not_deleted (d_creatives (ads_of t))))))) in
  let '(impressions, completions, skips, clicks) := counts in
  Done (Ok {| as_total_ads := Some total; as_impressions := impressions;
    as_completions := completions; as_skips := skips; as_clicks := clicks;
    as_completion_rate := ratio completions impressions; as_ctr := ratio clicks impressions |})).
End admin.
