(* ===== verification/AdsHistory.v ===== *)
(** * AdsHistory: every ad ends once, where it began, and not too soon

    Requests for ads, reports of skips, the timers left behind, the clock, new
    configurations, other work on the database, and a fleet that registers and evicts nodes
    and moves viewers, in every interleaving. What the tasks do to switches and to the map of
    running ads is the trace they leave; the invariant says that every mark in it was
    justified by the marks before it. *)
From S2P Require Import Prelude F64 ApiSchema Json Schema Errors FleetTypes MoneyDb Interleave.
From S2P Require Import SwitchPool RecordingsApi Auth MediaProbe Ads AdsTables AdsApi AdsAdmin.
Local Open Scope Z_scope.
Local Open Scope mm_scope.

(** The calls that end an ad: the viewer goes back to a stream, the file is dropped. *)
Definition is_ending (call : SwitchCall) : bool :=
  match call with
  | SwitchViewer _ source => starts_with "stream-" source
  | RemoveSource _ => true
  | AddFileSource _ _ _ => false
  end.

(** The call ends this ad. *)
Definition ends_entry (call : SwitchCall) (e : AdSwitchEntry) : Prop :=
  match call with
  | SwitchViewer v source => v = se_viewer_id e ∧ source = se_stream_source_id e
  | RemoveSource src => src = se_ad_source_id e
  | AddFileSource _ _ _ => False
  end.

(** What a task does at most once. *)
Inductive kind : Type := KBegan | KClaimed | KBack | KRemoved.

Definition kind_of {C} (m : ad_mark C) : option kind :=
  match m with
  | Drew _ => None
  | Began _ _ _ => Some KBegan
  | Claimed _ _ => Some KClaimed
  | Called _ (SwitchViewer _ source) _ => if starts_with "stream-" source then Some KBack else None
  | Called _ (RemoveSource _) _ => Some KRemoved
  | Called _ (AddFileSource _ _ _) _ => None
  end.

Section history.
Context {C N : Type} `{AdNet C N, AdFiles N} (uuid_of : nat → string) `{!Inj (=) (=) uuid_of}.
Context (state : AdServer) (to_rfc3339 : DateTime → string).
(** Where a node's switch is, the origin's switch, and the least time before a skip counts
    that was ever configured. *)
Context (url : NodeId → C) (o : C) (min_secs : Z).
Abbreviation W := (SwitchPool C * AdWorld C N)%type.
Abbreviation node_address := (address url o).

(** The least time an ad stays on, in seconds. *)
Definition least_view : Z := Z.min min_secs 40.

(** ** Marks that were justified *)
Definition justified (before : list (marked C)) (k : marked C) : Prop :=
  (∀ k', k' ∈ before → mk_who k' = mk_who k →
     is_Some (kind_of (mk_what k)) → kind_of (mk_what k') ≠ kind_of (mk_what k)) ∧
  match mk_what k with
  | Drew token => ∀ k', k' ∈ before → mk_what k' ≠ Drew token
  | Began token c e =>
      (∃ d, d ∈ before ∧ mk_who d = mk_who k ∧ mk_what d = Drew token) ∧
      c = node_address (se_node_id e) ∧ se_started_at e = mk_at k ∧
      starts_with "stream-" (se_stream_source_id e) = true ∧
      ∃ a src_url, a ∈ before ∧ mk_who a = mk_who k ∧ mk_at a ≤ mk_at k ∧
        mk_what a = Called c (AddFileSource (se_ad_source_id e) src_url false) true
  | Claimed token e =>
      (∀ k' e', k' ∈ before → mk_what k' ≠ Claimed token e') ∧
      ∃ b c, b ∈ before ∧ mk_what b = Began token c e
  | Called c call _ => is_ending call = true →
      ∃ y token e, y ∈ before ∧ mk_who y = mk_who k ∧ mk_what y = Claimed token e ∧
        ends_entry call e ∧ c = node_address (se_node_id e) ∧
        se_started_at e + seconds least_view ≤ mk_at k
  end.

Definition all_justified (T : list (marked C)) : Prop :=
  ∀ n k, T !! n = Some k → justified (take n T) k.

Lemma all_justified_snoc T k : all_justified T → justified T k → all_justified (T ++ [k]).
Proof.
  intros HT Hk n k' Hn. apply lookup_app_Some in Hn as [Hn|[Hge Hn]].
  - rewrite take_app_le by (apply lookup_lt_Some in Hn; lia). by apply HT.
  - apply list_lookup_singleton_Some in Hn as [Hz <-].
    rewrite take_app_length' by lia. done.
Qed.

(** ** What the trace then says *)

(** The ad that the call at [n] ends was put on by the call at [a]: the task of [n] had taken
    out the entry that the task of [a] had made. *)
Definition closes (T : list (marked C)) (n a : nat) : Prop :=
  ∃ kn ka ky kx y x token c e call ok src_url,
    T !! n = Some kn ∧ T !! y = Some ky ∧ T !! x = Some kx ∧ T !! a = Some ka ∧
    (a < x < y ∧ y < n)%nat ∧
    mk_what kn = Called c call ok ∧ ends_entry call e ∧
    mk_what ky = Claimed token e ∧ mk_who ky = mk_who kn ∧
    mk_what kx = Began token c e ∧ mk_who kx = mk_who ka ∧
    mk_what ka = Called c (AddFileSource (se_ad_source_id e) src_url false) true ∧
    mk_at ka + seconds least_view ≤ mk_at kn.

Lemma elem_of_take_lookup {A} (l : list A) n x :
  x ∈ take n l → ∃ i, (i < n)%nat ∧ l !! i = Some x.
Proof.
  intros [i Hi]%list_elem_of_lookup. exists i. apply lookup_take_Some in Hi. tauto.
Qed.

Lemma lookup_take_elem {A} (l : list A) n i x : l !! i = Some x → (i < n)%nat → x ∈ take n l.
Proof. intros Hi Hn. apply list_elem_of_lookup. exists i. by apply lookup_take_Some. Qed.

Lemma kind_once T a b ka kb :
  all_justified T → T !! a = Some ka → T !! b = Some kb → mk_who ka = mk_who kb →
  is_Some (kind_of (mk_what ka)) → kind_of (mk_what ka) = kind_of (mk_what kb) → a = b.
Proof.
  intros HT Ha Hb Hw Hs Hk.
  destruct (Nat.lt_trichotomy a b) as [Hlt|[Heq|Hgt]]; [|done|]; exfalso.
  - destruct (HT b kb Hb) as [Hf _]. apply (Hf ka); try done.
    + by eapply lookup_take_elem.
    + by rewrite <- Hk.
  - destruct (HT a ka Ha) as [Hf _]. by apply (Hf kb); [eapply lookup_take_elem| | |].
Qed.

Lemma claimed_once T y y' k k' token e e' :
  all_justified T → T !! y = Some k → T !! y' = Some k' →
  mk_what k = Claimed token e → mk_what k' = Claimed token e' → y = y'.
Proof.
  intros HT Hy Hy' Hk Hk'.
  destruct (Nat.lt_trichotomy y y') as [Hlt|[Heq|Hgt]]; [|done|]; exfalso.
  - destruct (HT y' k' Hy') as [_ Hf]. rewrite Hk' in Hf. destruct Hf as [Hf _].
    apply (Hf k e); [by eapply lookup_take_elem|done].
  - destruct (HT y k Hy) as [_ Hf]. rewrite Hk in Hf. destruct Hf as [Hf _].
    apply (Hf k' e'); [by eapply lookup_take_elem|done].
Qed.

Lemma ending_closes T n k c call ok :
  all_justified T → T !! n = Some k → mk_what k = Called c call ok → is_ending call = true →
  ∃ a, closes T n a.
Proof.
  intros HT Hn Hk He. destruct (HT n k Hn) as [_ Hf]. rewrite Hk in Hf.
  destruct (Hf He) as (ky & token & e & Hy & Hwy & Hky & Hend & Hc & Htime).
  apply elem_of_take_lookup in Hy as (y & Hyn & Hy).
  destruct (HT y ky Hy) as [_ Hf2]. rewrite Hky in Hf2.
  destruct Hf2 as (_ & kx & c' & Hx & Hkx).
  apply elem_of_take_lookup in Hx as (x & Hxy & Hx).
  destruct (HT x kx Hx) as [_ Hf3]. rewrite Hkx in Hf3.
  destruct Hf3 as (_ & Hc' & Hst & _ & ka & src_url & Ha & Hwa & Hta & Hka).
  apply elem_of_take_lookup in Ha as (a & Hax & Ha). subst c c'. exists a.
  exists k, ka, ky, kx, y, x, token, (node_address (se_node_id e)), e, call, ok, src_url.
  repeat (split; [done || lia|]). rewrite Hst in Htime. lia.
Qed.

Lemma closes_inj T n n' a :
  all_justified T → closes T n a → closes T n' a →
  (∃ k k', T !! n = Some k ∧ T !! n' = Some k' ∧
    is_Some (kind_of (mk_what k)) ∧ kind_of (mk_what k) = kind_of (mk_what k')) → n = n'.
Proof.
  intros HT (kn & ka & ky & kx & y & x & tok & c & e & call & ok & u & Hn & Hy & Hx & Ha & _ & Ekn &
    _ & Eky & Wy & Ekx & Wx & _).
  intros (kn' & ka' & ky' & kx' & y' & x' & tok' & c' & e' & call' & ok' & u' & Hn' & Hy' & Hx' & Ha'
    & _ & Ekn' & _ & Eky' & Wy' & Ekx' & Wx' & _).
  intros (k & k' & Hk & Hk' & Hs & Hkind). simplify_eq.
  assert (x = x') as <-.
  { apply (kind_once T x x' kx kx'); try done; [congruence| |]; by rewrite ?Ekx, ?Ekx'. }
  simplify_eq. rewrite Ekx in Ekx'. simplify_eq.
  assert (y = y') as <- by by eapply (claimed_once T y y').
  simplify_eq. apply (kind_once T n n' kn kn'); try done. congruence.
Qed.

(** ** Tasks *)
Inductive task : Type :=
  | TDecision (me stream_id slot : string)
  | TEvent (token event : string)
  | TComplete (me stream_id : string) (proof : AdCompletionProof)
  | TUpload (me : string) (req : UploadAdRequest)
  | TDelete (me id : string)
  | TAdminUpload (admin : AdminAuth) (req : json_value)
  | TAdminUpdate (admin : AdminAuth) (id : string) (req : json_value)
  | TAdminDelete (admin : AdminAuth) (id : string)
  | TAdminFile (admin : AdminAuth) (id : string)
      (form : result (option (option string * string)) string)
  | TTimer (n : nat)
  | TClock (d : Z)
  | TConfig (cfg : AdConfig)
  | TDb (m : st Db ())
  | TUpsert (node : FleetNode) (client : C)
  | TEvict (id : NodeId)
  | TBind (v : ViewerId) (node : NodeId)
  | TUnbind (v : ViewerId).

Definition discard {A} (p : prog W A) : prog W () := do! _ := p in Done ().

Definition task_prog (who : nat) (t : task) : prog W () :=
  match t with
  | TDecision me stream_id slot => discard (ad_decision uuid_of who state me stream_id slot)
  | TEvent token event => discard (report_ad_event who state token event)
  | TComplete me stream_id proof => discard (ad_complete state me stream_id proof)
  | TUpload me req => discard (upload_ad uuid_of who state to_rfc3339 me req)
  | TDelete me id => discard (delete_ad state me id)
  | TAdminUpload admin req => discard (admin_upload_ad uuid_of who state admin req)
  | TAdminUpdate admin id req => discard (admin_update_ad state admin id req)
  | TAdminDelete admin id => discard (admin_delete_ad state admin id)
  | TAdminFile admin id form => discard (admin_upload_ad_file state admin id form)
  | TTimer n => run_timer who state n
  | TClock d => atom (on_world (λ w, ((), with_clock (aw_clock w + d) w)))
  | TConfig cfg => atom (on_world (λ w, ((), with_config cfg w)))
  | TDb m => atom (use_db m)
  | TUpsert node client => on_pool (upsert node client)
  | TEvict id => discard (evict id)
  | TBind v node => on_pool (bind_viewer v node)
  | TUnbind v => on_pool (unbind_viewer v)
  end.

(** Time passes, skips stay at least [min_secs], other work respects the constraints of the
    ad tables, and a node keeps its address. *)
Definition task_ok (t : task) : Prop :=
  match t with
  | TClock d => 0 ≤ d
  | TConfig cfg => min_secs ≤ dc_skip_after_secs cfg
  | TDb m => st_rel (on_tables ads_step) m
  | TUpsert node client => client = url (fn_id node)
  | _ => True
  end.

(** ** The invariant *)
Abbreviation trace w := (aw_trace w.2).

Definition timer_ok (T : list (marked C)) (t : AdTimer) : Prop :=
  40 ≤ tm_secs t ∧ ∃ b c e, b ∈ T ∧ mk_what b = Began (tm_token t) c e ∧
    tm_viewer t = se_viewer_id e ∧ tm_stream_src t = se_stream_source_id e ∧
    tm_ad_src t = se_ad_source_id e ∧ tm_node t = se_node_id e.

Record inv (w : W) : Prop := {
  i_pool : registered url o w.1;
  i_ads : ads_inv (ads_of (db_tables (aw_db w.2)));
  i_cfg : min_secs ≤ dc_skip_after_secs (aw_config w.2);
  i_clock : ∀ k, k ∈ trace w → mk_at k ≤ aw_clock w.2;
  i_drawn : ∀ k token, k ∈ trace w → mk_what k = Drew token →
    ∃ n, (n < aw_drawn w.2)%nat ∧ token = uuid_of n;
  i_trace : all_justified (trace w);
  i_map : ∀ token e, aw_switches w.2 !! token = Some e →
    (∃ b c, b ∈ trace w ∧ mk_what b = Began token c e) ∧
    ∀ k e', k ∈ trace w → mk_what k ≠ Claimed token e';
  i_timers : ∀ t, t ∈ aw_timers w.2 → timer_ok (trace w) t
}.

(** The trace and the clock only grow. *)
Definition later (w w' : W) : Prop :=
  trace w `prefix_of` trace w' ∧ aw_clock w.2 ≤ aw_clock w'.2.

#[export] Instance later_preorder : PreOrder later.
Proof.
  split; [by intros w; split|]. intros a b c [H1 H2] [H3 H4].
  split; [by etrans|lia].
Qed.

(** The task has not done this yet. *)
Definition lacks (i : nat) (x : kind) (w : W) : Prop :=
  ∀ k, k ∈ trace w → mk_who k = i → kind_of (mk_what k) ≠ Some x.

(** What others do keeps what a task has not done; what it does itself bears its name. *)
Definition others (i : nat) (w w' : W) : Prop :=
  later w w' ∧ ∀ x, lacks i x w → lacks i x w'.

Definition adds (i : nat) (P : marked C → Prop) (w w' : W) : Prop :=
  aw_clock w.2 ≤ aw_clock w'.2 ∧
  ∃ l, trace w' = trace w ++ l ∧ Forall (λ k, mk_who k = i ∧ P k) l.

Definition mine (i : nat) : W → W → Prop := adds i (λ _, True).
Definition mild (i : nat) : W → W → Prop := adds i (λ k, kind_of (mk_what k) = None).

#[export] Instance others_preorder i : PreOrder (others i).
Proof.
  split; [by intros w; split|]. intros a b c [H1 H2] [H3 H4].
  split; [by etrans|auto].
Qed.

Lemma adds_later i P w w' : adds i P w w' → later w w'.
Proof. intros [Hc (l & E & _)]. split; [|done]. rewrite E. by apply prefix_app_r. Qed.

Lemma mild_mine i w w' : mild i w w' → mine i w w'.
Proof.
  intros [Hc (l & E & Hl)]. split; [done|]. exists l. split; [done|].
  eapply Forall_impl; [exact Hl|]. simpl. tauto.
Qed.

Lemma mild_others i w w' : mild i w w' → others i w w'.
Proof.
  intros Hm. split; [by eapply adds_later|]. destruct Hm as [Hc (l & E & Hl)].
  intros x Hx k. rewrite E. intros [Hk|Hk]%elem_of_app Hw; [by apply Hx|].
  rewrite Forall_forall in Hl. destruct (Hl k Hk) as [_ ->]. done.
Qed.

Lemma mine_others i j w w' : i ≠ j → mine i w w' → others j w w'.
Proof.
  intros Hij Hm. split; [by eapply adds_later|]. destruct Hm as [Hc (l & E & Hl)].
  intros x Hx k. rewrite E. intros [Hk|Hk]%elem_of_app Hw; [by apply Hx|].
  rewrite Forall_forall in Hl. destruct (Hl k Hk) as [Hi _]. congruence.
Qed.

(** ** Programs *)

(** Steps that leave at most marks of no kind. *)
Definition tame {A} (i : nat) (Q : A → W → Prop) (p : prog W A) : Prop :=
  ∀ w, guarded inv later (mild i) Q w p.

(** A task's program, from a state on. *)
Abbreviation safe i := (guarded inv (others i) (mine i)).

Lemma safe_tame {A} i (Q : A → W → Prop) (p : prog W A) w :
  tame i Q p → safe i (λ a w', Q a w' ∧ others i w w') w p.
Proof.
  intros Hp. specialize (Hp w).
  assert (Hg : ∀ w0, others i w0 w → safe i (λ a w', Q a w' ∧ others i w0 w') w p);
    [|by apply Hg].
  revert w Hp. induction p as [a|B m k IH]; intros w Hp w0 Hw0; simpl in *.
  - intros w' Hr Hi. split; [by apply Hp; [apply Hr|]|]. by trans w.
  - intros w' Hr Hi. destruct (Hp w' (proj1 Hr) Hi) as (Hm & Hi' & Hk).
    split; [by apply mild_mine|]. split; [done|]. apply IH; [done|].
    trans w; [done|]. trans w'; [done|]. by apply mild_others.
Qed.

Lemma safe_bind {A B} i (P : A → W → Prop) (Q : B → W → Prop) (p : prog W A)
    (k : A → prog W B) w :
  tame i P p → (∀ a w', inv w' → P a w' → others i w w' → safe i Q w' (k a)) →
  safe i Q w (prog_bind p k).
Proof.
  intros Hp Hk. eapply guarded_bind; [apply _|by apply safe_tame|].
  intros a w' Hi [Hq Ho]. by apply Hk.
Qed.

Lemma tame_bind {A B} i (P : A → W → Prop) (Q : B → W → Prop) (p : prog W A)
    (k : A → prog W B) :
  tame i P p → (∀ a w', inv w' → P a w' → guarded inv later (mild i) Q w' (k a)) →
  tame i Q (prog_bind p k).
Proof. intros Hp Hk w. eapply guarded_bind; [apply _|apply Hp|done]. Qed.

(** The same from one state on, with what the first part leads to. *)
Lemma tame_step {A B} i (P : A → W → Prop) (Q : B → W → Prop) (p : prog W A)
    (k : A → prog W B) w :
  tame i P p →
  (∀ a w', inv w' → P a w' → later w w' → guarded inv later (mild i) Q w' (k a)) →
  guarded inv later (mild i) Q w (prog_bind p k).
Proof.
  intros Hp Hk. eapply guarded_bind; [apply _| |].
  - eapply guarded_track; [apply _| |apply (Hp w)]. intros s s'. apply adds_later.
  - intros a w' Hi [HP Hl]. by apply Hk.
Qed.

Lemma tame_done {A} i (Q : A → W → Prop) a : (∀ w, inv w → Q a w) → tame i Q (Done a).
Proof. intros HQ w w' _ Hi. by apply HQ. Qed.

(** A step that touches neither the trace nor what it is about. *)
Definition apart (w w' : W) : Prop :=
  registered url o w'.1 ∧ ads_inv (ads_of (db_tables (aw_db w'.2))) ∧
  min_secs ≤ dc_skip_after_secs (aw_config w'.2) ∧ aw_clock w.2 ≤ aw_clock w'.2 ∧
  trace w' = trace w ∧ aw_switches w'.2 = aw_switches w.2 ∧ aw_timers w'.2 = aw_timers w.2 ∧
  aw_drawn w'.2 = aw_drawn w.2.

Lemma inv_apart w w' : inv w → apart w w' → inv w'.
Proof.
  intros [] (H1 & H2 & H3 & H4 & H5 & H6 & H7 & H8). split; rewrite ?H5, ?H6, ?H7, ?H8; try done.
  intros k Hk. specialize (i_clock0 k Hk). lia.
Qed.

Lemma apart_mild i w w' : apart w w' → mild i w w'.
Proof. intros (_ & _ & _ & H4 & H5 & _). split; [done|]. exists []. by rewrite app_nil_r. Qed.

Lemma tame_atom {A} i (Q : A → W → Prop) (m : st W A) :
  (∀ w, inv w → mild i w (m w).2 ∧ inv (m w).2 ∧ ∀ w', later (m w).2 w' → inv w' → Q (m w).1 w') →
  tame i Q (atom m).
Proof. intros Hm w w1 _ Hi. destruct (Hm w1 Hi) as (H1 & H2 & H3). by split. Qed.

Lemma tame_apart {A} i (Q : A → Prop) (m : st W A) :
  (∀ w, inv w → apart w (m w).2 ∧ Q (m w).1) → tame i (λ a _, Q a) (atom m).
Proof.
  intros Hm. apply tame_atom. intros w Hi. destruct (Hm w Hi) as [Ha Hq].
  split; [by apply apart_mild|]. split; [by eapply inv_apart|done].
Qed.

Lemma tame_weaken {A} i (P Q : A → W → Prop) (p : prog W A) :
  tame i P p → (∀ a w, inv w → P a w → Q a w) → tame i Q p.
Proof.
  intros Hp HQ w. specialize (Hp w). revert w Hp.
  induction p as [a|B m k IH]; intros w Hp; simpl in *.
  - intros w' Hr Hi. apply HQ; [done|]. by apply Hp.
  - intros w' Hr Hi. destruct (Hp w' Hr Hi) as (? & ? & ?). split; [done|]. split; [done|]. by apply IH.
Qed.

(** *** Atoms of no kind *)
Ltac solve_apart :=
  unfold apart; simpl;
  repeat (split; [solve [assumption | reflexivity | lia]|]); solve [assumption | reflexivity | lia].

Lemma tame_db {A} i (Q : A → Prop) (m : st Db A) :
  st_rel (on_tables ads_step) m →
  (∀ db, ads_inv (ads_of (db_tables db)) → Q (m db).1) → tame i (λ a _, Q a) (atom (use_db m)).
Proof.
  intros Hm HQ. apply tame_apart. intros [p w] Hi. unfold use_db, on_world, st_snd. simpl.
  specialize (Hm (aw_db w)). destruct Hi. simpl in *. specialize (HQ _ i_ads0).
  specialize (Hm i_ads0) as [Hm _]. destruct (m (aw_db w)) as [a db]. simpl in *.
  split; [solve_apart|done].
Qed.

Lemma tame_db' {A} i (m : st Db A) :
  st_rel (on_tables ads_step) m → tame i (λ _ _, True) (atom (use_db m)).
Proof. intros Hm. by apply (tame_db i (λ _, True)). Qed.

Lemma tame_net {A} i (m : st N A) : tame i (λ _ _, True) (atom (use_net m)).
Proof.
  apply (tame_apart i (λ _, True)). intros [p w] []. unfold use_net, on_world, st_snd. simpl.
  destruct (m (aw_net w)) as [a n]. simpl in *. split; [solve_apart|done].
Qed.

Lemma tame_config i : tame i (λ c _, min_secs ≤ dc_skip_after_secs c) live_config.
Proof.
  apply (tame_apart i (λ c, min_secs ≤ dc_skip_after_secs c)). intros [p w] []. simpl in *.
  split; [solve_apart|done].
Qed.

Lemma tame_pool {A} i (Q : A → Prop) (m : st (SwitchPool C) A) :
  (∀ p, registered url o p → registered url o (m p).2 ∧ Q (m p).1) →
  tame i (λ a _, Q a) (on_pool m).
Proof.
  intros Hm. apply tame_apart. intros [p w] []. unfold st_fst. simpl in *.
  destruct (Hm p i_pool0) as [Hp HQ]. destruct (m p) as [a p']. simpl in *.
  split; [solve_apart|done].
Qed.

Lemma tame_pool_read {A} i (f : SwitchPool C → A) : tame i (λ _ _, True) (on_pool (λ p, (f p, p))).
Proof. by apply (tame_pool i (λ _, True)). Qed.

Lemma tame_client_of i n :
  tame i (λ c _, match c with Some c => c = url n | None => True end) (on_pool (client_of n)).
Proof.
  apply (tame_pool i (λ c, match c with Some c => c = url n | None => True end)).
  intros p [Ho Hp]. split; [done|]. simpl.
  destruct (sp_nodes p !! n) as [e|] eqn:He; simpl; [by apply Hp|done].
Qed.

Lemma tame_origin i : tame i (λ c _, c = o) (on_pool origin).
Proof. apply (tame_pool i (λ c, c = o)). by intros p [Ho Hp]. Qed.

(** A route's client is where its node id leads; so is the client of a switch-back. *)
Lemma tame_route i v :
  tame i (λ r _, vr_client r = node_address (vr_node_id r)) (route_viewer v).
Proof.
  assert (Hback : tame i (λ r _, vr_client r = node_address (vr_node_id r)) route_to_origin).
  { eapply tame_bind; [apply tame_origin|]. intros c w' _ ->.
    refine (tame_bind i _ _ _ _ (tame_pool_read i _) _ w'). by intros n w2 _ _ w3 _ _. }
  eapply tame_bind; [apply tame_pool_read|]. intros [n|] w' _ _; [|apply Hback].
  refine (tame_bind i _ _ _ _ (tame_client_of i n) _ w'). intros [c|] w2 _ Hc; [|apply Hback].
  by intros w3 _ _.
Qed.

Lemma tame_switch_back i v nid :
  tame i (λ r _, match r with Ok c => c = node_address nid | Err _ => True end)
    (resolve_switch_back v nid).
Proof.
  eapply tame_bind; [apply tame_pool_read|]. intros cur w' _ _.
  destruct (negb _); [by intros w2 _ _|].
  refine (tame_bind i (λ c _, match c with Some c => c = node_address nid | None => True end)
    _ _ _ _ _ w').
  - destruct nid as [n|]; [apply tame_client_of|]. unfold client_for_node.
    eapply tame_bind; [apply tame_origin|]. intros c w2 _ ->. by intros w3 _ _.
  - intros [c|] w2 _ Hc; by intros w3 _ _.
Qed.

(** A mark that is justified. *)
Lemma inv_note i p w m :
  inv (p, w) → justified (aw_trace w) {| mk_who := i; mk_at := aw_clock w; mk_what := m |} →
  (∀ token, m = Drew token → ∃ n, (n < aw_drawn w)%nat ∧ token = uuid_of n) →
  (∀ token e', m = Claimed token e' → aw_switches w !! token = None) →
  inv (p, note i m w).
Proof.
  intros [] Hj Hd Hc. simpl in *. split; simpl; try done.
  - intros k [Hk| ->%list_elem_of_singleton]%elem_of_app; [auto|]. simpl. lia.
  - intros k token [Hk| ->%list_elem_of_singleton]%elem_of_app Hm; [eauto|]. by apply Hd.
  - by apply all_justified_snoc.
  - intros token e He. destruct (i_map0 token e He) as [(b & c & Hb & Eb) Hn]. split.
    + exists b, c. split; [apply elem_of_app; by left|done].
    + intros k e' [Hk| ->%list_elem_of_singleton]%elem_of_app; [by apply Hn|]. simpl.
      intros ->. by rewrite (Hc token e') in He.
  - intros t Ht. destruct (i_timers0 t Ht) as (Hs & b & c & e & Hb & Hrest). split; [done|].
    exists b, c, e. split; [apply elem_of_app; by left|done].
Qed.

Lemma note_adds i (P : marked C → Prop) p w m :
  P {| mk_who := i; mk_at := aw_clock w; mk_what := m |} → adds i P (p, w) (p, note i m w).
Proof.
  intros HP. split; simpl; [lia|]. eexists. split; [done|]. constructor; [|done]. by split.
Qed.

(** Someone drew it: a fact that lasts. *)
Definition drew (i : nat) (token : string) (w : W) : Prop :=
  ∃ k, k ∈ trace w ∧ mk_who k = i ∧ mk_what k = Drew token.

Lemma later_elem w w' k : later w w' → k ∈ trace w → k ∈ trace w'.
Proof. intros [[l E] _] Hk. rewrite E. apply elem_of_app. by left. Qed.

Lemma tame_draw i : tame i (λ token w, drew i token w) (atom (draw_uuid uuid_of i)).
Proof.
  apply tame_atom. intros [p w] Hi. unfold draw_uuid, on_world, st_snd. simpl.
  assert (Hfresh : ∀ k, k ∈ aw_trace w → mk_what k ≠ Drew (uuid_of (aw_drawn w))).
  { intros k Hk E. destruct (i_drawn _ Hi k _ Hk E) as (n & Hn & En%Inj0). simpl in Hn. lia. }
  assert (Hi' : inv (p, with_drawn (S (aw_drawn w)) w)).
  { destruct Hi. simpl in *. split; simpl; try done. intros k token Hk E.
    destruct (i_drawn0 k token Hk E) as (n & Hn & ->). exists n. split; [lia|done]. }
  split; [|split].
  - by apply (note_adds i _ p (with_drawn _ w)).
  - apply inv_note; simpl; [done| |by intros token [= <-]; eauto|done].
    split; simpl; [by intros k' _ _ []|exact Hfresh].
  - intros w' Hl _. eexists. split; [eapply later_elem; [exact Hl|]|].
    + simpl. apply elem_of_app. right. by apply list_elem_of_singleton.
    + done.
Qed.

(** A call to a switch that ends no ad. *)
Lemma tame_call i c call :
  is_ending call = false →
  tame i (λ r w, is_ok r = true → ∃ k, k ∈ trace w ∧ mk_who k = i ∧
    mk_what k = Called c call true) (switch_call i c call).
Proof.
  intros Hc.
  assert (Hk : ∀ ok, kind_of (Called (C := C) c call ok) = None).
  { intros ok. destruct call; simpl in *; try done. by rewrite Hc. }
  apply tame_atom. intros [p w] Hi. unfold on_world, st_snd. simpl.
  destruct (net_call c call (aw_net w)) as [r n]. simpl.
  assert (Hi' : inv (p, with_net n w)) by (by destruct Hi; split).
  split; [|split].
  - apply (note_adds i _ p (with_net n w)). apply Hk.
  - apply inv_note; [done| |done|done]. split; cbn [mk_what].
    + intros k' _ _ [x Hx]. by rewrite Hk in Hx.
    + by rewrite Hc.
  - intros w' Hl _ Hok. eexists. split; [eapply later_elem; [exact Hl|]|].
    + simpl. apply elem_of_app. right. by apply list_elem_of_singleton.
    + simpl. by rewrite Hok.
Qed.

(** *** The decision *)
Abbreviation host i := (world_host uuid_of i).

(** After a step of which nothing needs to be known. *)
Ltac tame_skip t := refine (tame_bind _ (λ _ _, True) _ _ _ t _ _); intros ? ? _ _.

Lemma tame_true {A} i (a : A) w : guarded inv later (mild i) (λ _ _, True) w (Done a).
Proof. by intros w' _ _. Qed.

Lemma tame_rule i r ctx : tame i (λ _ _, True) (evaluate_rule (H := host i) r ctx).
Proof.
  intros w. unfold evaluate_rule. destruct (negb _); [apply tame_true|].
  destruct (RuleType.from_str _) as [[]|]; try apply tame_true.
  - destruct (rx_last_ad_at ctx); [|apply tame_true].
    tame_skip (tame_net i net_utc). apply tame_true.
  - tame_skip (tame_net i net_utc). apply tame_true.
  - tame_skip (tame_net i net_unit). apply tame_true.
Qed.

Lemma tame_rules i ctx rules : tame i (λ _ _, True) (evaluate_rules (H := host i) rules ctx).
Proof.
  induction rules as [|r rules IH]; intros w; [apply tame_true|]. cbn [evaluate_rules].
  tame_skip (tame_rule i r ctx). destruct a; [apply tame_true|apply IH].
Qed.

Lemma reads_step {A} (f : Tables → A) : st_rel (on_tables ads_step) (exec (reading f)).
Proof. apply st_rel_exec; [apply _|]. apply stmt_rel_reading, _. Qed.

Lemma tame_first_eligible i ctx ads :
  Forall creative_ok ads →
  tame i (λ a _, ∀ ad, a = Some ad → creative_ok ad) (first_eligible (H := host i) ctx ads).
Proof.
  induction ads as [|ad ads IH]; intros Hads; [by apply tame_done|].
  inversion Hads as [|? ? Had Hads']; subst. specialize (IH Hads'). simpl first_eligible.
  intros w. tame_skip (tame_db' i _ (reads_step (active_rules (ac_id ad)))).
  destruct a as [rules|e]; [|apply IH].
  refine (tame_bind i (λ _ _, True) _ _ _ _ _ _).
  - case_bool_decide; [by apply tame_done|apply tame_rules].
  - intros [] w2 _ _; [|apply IH]. intros w3 _ _ ad' [= <-]. done.
Qed.

Lemma tame_ready i owner_type owner_id placement :
  tame i (λ r _, match r with Ok ads => Forall creative_ok ads | Err _ => True end)
    (db_atom (H := host i) (list_ready_for_slot owner_type owner_id placement)).
Proof.
  apply (tame_db i (λ r, match r with Ok ads => Forall creative_ok ads | Err _ => True end)).
  - apply reads_step.
  - intros db [Hc _ _ _ _ _]. destruct (list_ready_for_slot _ _ _ db).1 as [ads|e] eqn:E; [|done].
    apply exec_reading_ok in E as ->. apply Forall_forall. intros c.
    rewrite elem_of_order_desc, list_elem_of_In, filter_In, <- list_elem_of_In. intros [Hin _].
    by apply (Forall_forall creative_ok) with (x := c) in Hc.
Qed.

Definition decided (i : nat) (d : AdDecision) (w : W) : Prop :=
  match d with
  | ServeAd ad token _ _ _ _ _ => drew i token w ∧ 1 ≤ da_duration_secs ad ≤ 120
  | NoAd _ => True
  end.

Lemma creative_duration c : creative_ok c → 1 ≤ ac_duration_secs c ≤ 120.
Proof.
  unfold creative_ok, check_creative. destruct (negb (_ && _)) eqn:E; [done|].
  apply negb_false_iff, andb_true_iff in E as [E1%Z.ltb_lt E2%Z.leb_le]. lia.
Qed.

Lemma drew_later i token w w' : later w w' → drew i token w → drew i token w'.
Proof. intros Hl (k & Hk & Hrest). exists k. split; [by eapply later_elem|done]. Qed.

Lemma tame_build i config public_url ad stream viewer slot live :
  creative_ok ad →
  tame i (decided i) (build_decision (H := host i) config public_url ad stream viewer slot live).
Proof.
  intros Had w. unfold build_decision.
  refine (tame_bind i (λ _ _, True) _ _ _ _ _ w).
  { intros w1. tame_skip (tame_net i (net_hex 16)). tame_skip (tame_net i (net_hex 32)).
    apply tame_true. }
  intros ch w1 _ _. refine (tame_bind i _ _ _ _ (tame_draw i) _ w1). intros token w2 _ Hd.
  assert (Hrec : tame i (λ _ _, True) (record_decision (H := host i) token (ac_id ad) stream viewer slot
    (ac_owner_type ad))).
  { intros w3. unfold record_decision. refine (tame_bind i _ _ _ _ (tame_draw i) _ w3).
    intros id w4 _ _. apply tame_db'. apply st_rel_exec; [apply _|]. apply insert_impression_step. }
  refine (tame_step i _ _ _ _ _ Hrec _). intros r w3 _ _ Hl w4 Hl' _.
  split; [|by apply creative_duration]. eapply drew_later; [|exact Hd]. by trans w3.
Qed.

Lemma tame_decide i config public_url stream viewer slot context live :
  tame i (decided i) (decide (H := host i) config public_url stream viewer slot context live).
Proof.
  intros w. unfold decide.
  refine (tame_bind i (λ a _, ∀ ad, a = Some ad → creative_ok ad) _ _ _ _ _ w).
  { intros w1. unfold pick_platform. destruct (dc_platform_ads_enabled config); [|by intros w2 _ _].
    refine (tame_bind i _ _ _ _ (tame_ready i _ _ _) _ w1).
    intros [[|c ads]|e] w2 _ Hads; [by intros w3 _ _| |by intros w3 _ _].
    tame_skip (tame_net i (net_index (length (c :: ads)))). intros w4 _ _ ad Had.
    by apply (Forall_lookup_1 _ _ _ _ Hads Had). }
  intros [ad|] w1 _ Had; [by apply tame_build, Had|].
  refine (tame_bind i (λ a _, ∀ ad, a = Some ad → creative_ok ad) _ _ _ _ _ w1).
  { intros w2. unfold pick_streamer. destruct (dc_streamer_ads_enabled config); [|by intros w3 _ _].
    refine (tame_bind i _ _ _ _ (tame_ready i _ _ _) _ w2).
    intros [ads|e] w3 _ Hads; [by apply tame_first_eligible|by intros w4 _ _]. }
  intros [ad|] w2 _ Had2; [by apply tame_build, Had2|by intros w3 _ _].
Qed.

(** ** What a task does once *)

(** Having done [x], and nothing else of a kind. *)
Definition did (i : nat) (x : kind) (w w' : W) : Prop :=
  later w w' ∧ ∀ y, y ≠ x → lacks i y w → lacks i y w'.

Lemma did_then i x w w1 w2 : did i x w w1 → others i w1 w2 → did i x w w2.
Proof. intros [H1 H2] [H3 H4]. split; [by trans w1|]. auto. Qed.

Lemma others_did i x w w1 w2 : others i w w1 → did i x w1 w2 → did i x w w2.
Proof. intros [H1 H2] [H3 H4]. split; [by trans w1|]. auto. Qed.

Lemma note_did i x p (w : AdWorld C N) (m : ad_mark C) :
  kind_of m = Some x → did i x (p, w) (p, note i m w).
Proof.
  intros Hk. split.
  - split; simpl; [|lia]. by apply prefix_app_r.
  - intros y Hy Hl k. simpl. intros [Hin| ->%list_elem_of_singleton]%elem_of_app; [by apply Hl|].
    simpl. intros _. rewrite Hk. congruence.
Qed.

(** What a task lacks it may do. *)
Lemma lacks_fresh i x (w : W) (m : ad_mark C) t :
  lacks i x w → kind_of m = Some x →
  ∀ k', k' ∈ trace w → mk_who k' = i → is_Some (kind_of m) →
    kind_of (mk_what k') ≠ kind_of (mk_what {| mk_who := i; mk_at := t; mk_what := m |}).
Proof. intros Hl Hk k' Hin Hw _. simpl. rewrite Hk. by apply Hl. Qed.

(** A token that was drawn by a task is entered by no other. *)
Lemma drawn_by_one T a b ka kb token :
  all_justified T → T !! a = Some ka → T !! b = Some kb →
  mk_what ka = Drew token → mk_what kb = Drew token → a = b.
Proof.
  intros HT Ha Hb Ea Eb.
  destruct (Nat.lt_trichotomy a b) as [Hlt|[Heq|Hgt]]; [|done|]; exfalso.
  - destruct (HT b kb Hb) as [_ Hf]. rewrite Eb in Hf.
    apply (Hf ka); [by eapply lookup_take_elem|done].
  - destruct (HT a ka Ha) as [_ Hf]. rewrite Ea in Hf.
    apply (Hf kb); [by eapply lookup_take_elem|done].
Qed.

Lemma began_by_drawer i token c e (w : W) b :
  all_justified (trace w) → drew i token w → b ∈ trace w → mk_what b = Began token c e →
  mk_who b = i.
Proof.
  intros HT (d & Hd & Hwd & Ed) Hb Eb.
  apply list_elem_of_lookup in Hd as [nd Hd]. apply list_elem_of_lookup in Hb as [nb Hb].
  destruct (HT nb b Hb) as [_ Hf]. rewrite Eb in Hf. destruct Hf as ((d' & Hd' & Hwd' & Ed') & _).
  apply elem_of_take_lookup in Hd' as (nd' & _ & Hd').
  assert (nd = nd') as <- by (by eapply (drawn_by_one _ nd nd')). simplify_eq. congruence.
Qed.

Lemma began_same T token c c' e e' b b' :
  all_justified T → b ∈ T → b' ∈ T → mk_what b = Began token c e → mk_what b' = Began token c' e' →
  e = e' ∧ c = c'.
Proof.
  intros HT Hb Hb' Eb Eb'. pose proof Hb' as Hb0.
  apply list_elem_of_lookup in Hb as [n Hb]. apply list_elem_of_lookup in Hb' as [n' Hb'].
  destruct (HT n b Hb) as [_ Hf]. rewrite Eb in Hf. destruct Hf as ((d & Hd & Hwd & Ed) & _).
  apply elem_of_take_lookup in Hd as (nd & _ & Hd).
  destruct (HT n' b' Hb') as [_ Hf']. rewrite Eb' in Hf'. destruct Hf' as ((d' & Hd' & Hwd' & Ed') & _).
  apply elem_of_take_lookup in Hd' as (nd' & _ & Hd').
  assert (nd = nd') as <- by (by eapply (drawn_by_one _ nd nd')). simplify_eq.
  assert (n = n') as <-.
  { apply (kind_once T n n' b b'); try done; [congruence| |]; by rewrite ?Eb, ?Eb'. }
  simplify_eq. rewrite Eb in Eb'. by simplify_eq.
Qed.

Definition began (token : string) (e : AdSwitchEntry) (w : W) : Prop :=
  ∃ b c, b ∈ trace w ∧ mk_what b = Began token c e.

Lemma began_later token e w w' : later w w' → began token e w → began token e w'.
Proof. intros Hl (b & c & Hb & E). exists b, c. split; [by eapply later_elem|done]. Qed.

Lemma safe_begin i token c viewer stream_src ad_src node slot billable w src_url :
  lacks i KBegan w → drew i token w → c = node_address node →
  starts_with "stream-" stream_src = true →
  (∃ k, k ∈ trace w ∧ mk_who k = i ∧ mk_what k = Called c (AddFileSource ad_src src_url false) true) →
  safe i (λ _ w', did i KBegan w w' ∧ ∃ e, began token e w' ∧ viewer = se_viewer_id e ∧
    stream_src = se_stream_source_id e ∧ ad_src = se_ad_source_id e ∧ node = se_node_id e) w
    (begin_ad i token c viewer stream_src ad_src node slot billable).
Proof.
  intros Hl Hd Hc Hs Ha. apply guarded_atom. intros [p w1] Hr Hi.
  unfold on_world, st_snd. simpl. set (e := {| se_viewer_id := viewer |}).
  set (w2 := note i (Began token c e) _).
  assert (Hd1 : drew i token (p, w1)) by (by eapply drew_later; [apply Hr|]).
  assert (Hl1 : lacks i KBegan (p, w1)) by (by apply Hr).
  assert (Hno : ∀ k e', k ∈ aw_trace w1 → mk_what k ≠ Claimed token e').
  { intros k e' Hk Ek. apply list_elem_of_lookup in Hk as [n Hn].
    destruct (i_trace _ Hi n k Hn) as [_ Hf]. rewrite Ek in Hf. destruct Hf as (_ & b & c' & Hb & Eb).
    apply elem_of_take_lookup in Hb as (nb & _ & Hb). apply list_elem_of_lookup_2 in Hb.
    apply (Hl1 b Hb); [|by rewrite Eb].
    eapply (began_by_drawer i token c' e' (p, w1)); try done. apply Hi. }
  destruct Ha as (ka & Hka & Hwa & Ea).
  assert (Hka1 : ka ∈ aw_trace w1) by (by eapply later_elem in Hka; [|apply Hr]).
  assert (Hdid : did i KBegan (p, w1) (p, w2)).
  { apply (note_did i KBegan p (with_switches (<[token:=e]> (aw_switches w1)) w1)). done. }
  assert (Hj : justified (aw_trace w1) {| mk_who := i; mk_at := aw_clock w1; mk_what := Began token c e |}).
  { split; [exact (lacks_fresh i KBegan (p, w1) (Began token c e) _ Hl1 eq_refl)|]. simpl.
    destruct Hd1 as (d & Hin & Hw & Ed). split; [by exists d|]. split; [done|]. split; [done|].
    split; [done|]. exists ka, src_url. split; [done|]. split; [done|]. split; [|done].
    by apply (i_clock _ Hi). }
  split; [|split].
  - apply (note_adds i _ p (with_switches _ w1)). done.
  - destruct Hi. simpl in *. unfold w2. split; simpl; try done.
    + intros k [Hk| ->%list_elem_of_singleton]%elem_of_app; [auto|]. simpl. lia.
    + intros k tok [Hk| ->%list_elem_of_singleton]%elem_of_app Hm; [eauto|done].
    + by apply all_justified_snoc.
    + intros tok e' He'. destruct (String.string_dec tok token) as [->|Hne].
      * rewrite lookup_insert_eq in He'. assert (e' = e) as -> by congruence. split.
        -- eexists _, c. split; [apply elem_of_app; right; by apply list_elem_of_singleton|done].
        -- intros k e2 [Hk| ->%list_elem_of_singleton]%elem_of_app; [by apply Hno|done].
      * rewrite lookup_insert_ne in He' by done. destruct (i_map0 tok e' He') as [(b & c' & Hb & Eb) Hn].
        split; [exists b, c'; split; [apply elem_of_app; by left|done]|].
        intros k e2 [Hk| ->%list_elem_of_singleton]%elem_of_app; [by apply Hn|done].
    + intros t Ht. destruct (i_timers0 t Ht) as (Hsec & b & c' & e' & Hb & Hrest). split; [done|].
      exists b, c', e'. split; [apply elem_of_app; by left|done].
  - intros w3 Hr3 _. split.
    + eapply others_did; [exact Hr|]. by eapply did_then.
    + exists e. split; [|done]. eapply began_later; [apply Hr3|].
      eexists _, c. split; [apply elem_of_app; right; by apply list_elem_of_singleton|done].
Qed.

Definition claimed (i : nat) (token : string) (e : AdSwitchEntry) (w : W) : Prop :=
  ∃ k, k ∈ trace w ∧ mk_who k = i ∧ mk_what k = Claimed token e.

Lemma claimed_later i token e w w' : later w w' → claimed i token e w → claimed i token e w'.
Proof. intros Hl (k & Hk & Hrest). exists k. split; [by eapply later_elem|done]. Qed.

Lemma safe_claim i token w :
  lacks i KClaimed w →
  safe i (λ r w', match r with
    | Some e => did i KClaimed w w' ∧ claimed i token e w' ∧ began token e w'
    | None => others i w w'
    end) w (claim i token).
Proof.
  intros Hl. apply guarded_atom. intros [p w1] Hr Hi. unfold on_world, st_snd. simpl.
  destruct (aw_switches w1 !! token) as [e|] eqn:Ee; simpl.
  2:{ split; [|split; [done|]]. - split; [lia|]. exists []. by rewrite app_nil_r.
      - intros w2 Hr2 _. by trans (p, w1). }
  destruct (i_map _ Hi token e Ee) as [(b & c & Hb & Eb) Hn]. simpl in *.
  set (w' := with_switches (delete token (aw_switches w1)) w1).
  assert (Hi' : inv (p, w')).
  { destruct Hi. simpl in *. split; simpl; try done. intros tok e' He'.
    apply lookup_delete_Some in He' as [_ He']. auto. }
  split; [|split].
  - by apply (note_adds i _ p w').
  - apply inv_note; simpl; [done| |done|].
    + split; simpl; [|split; [exact Hn|by exists b, c]].
      assert (Hl1 : lacks i KClaimed (p, w1)) by (by apply Hr).
      exact (lacks_fresh i KClaimed (p, w1) (Claimed token e) 0 Hl1 eq_refl).
    + intros tok e' [= <- _]. apply lookup_delete_eq.
  - intros w2 Hr2 _. split; [|split].
    + eapply others_did; [exact Hr|]. eapply did_then; [|exact Hr2].
      by apply (note_did i KClaimed p w').
    + eapply claimed_later; [apply Hr2|].
      exists {| mk_who := i; mk_at := aw_clock w1; mk_what := Claimed token e |}. split; [|done].
      simpl. apply elem_of_app. right. by apply list_elem_of_singleton.
    + eapply began_later; [apply Hr2|]. exists b, c. split; [|done]. simpl.
      apply elem_of_app. by left.
Qed.

Lemma safe_ending i x c call e token w :
  lacks i x w → (∀ ok, kind_of (Called (C := C) c call ok) = Some x) → ends_entry call e →
  claimed i token e w → c = node_address (se_node_id e) →
  se_started_at e + seconds least_view ≤ aw_clock w.2 →
  safe i (λ _ w', did i x w w') w (switch_call i c call).
Proof.
  intros Hl Hk He Hcl Hc Ht. apply guarded_atom. intros [p w1] Hr Hi. unfold on_world, st_snd. simpl.
  destruct (net_call c call (aw_net w1)) as [r n]. simpl.
  assert (Hi' : inv (p, with_net n w1)) by (by destruct Hi; split).
  assert (Hl1 : lacks i x (p, w1)) by (by apply Hr).
  assert (Hcl1 : claimed i token e (p, w1)) by (by eapply claimed_later; [apply Hr|]).
  assert (Ht1 : aw_clock w.2 ≤ aw_clock w1) by apply Hr.
  split; [|split].
  - by apply (note_adds i _ p (with_net n w1)).
  - apply inv_note; [done| |done|done]. split; cbn [mk_what].
    + intros k' Hin Hw' _. rewrite (Hk (is_ok r)). by apply Hl1.
    + intros _. destruct Hcl1 as (y & Hy & Hwy & Ey). exists y, token, e.
      split; [done|]. split; [done|]. split; [done|]. split; [done|]. split; [done|]. simpl. lia.
  - intros w2 Hr2 _. eapply others_did; [exact Hr|]. eapply did_then; [|exact Hr2].
    by apply (note_did i x p (with_net n w1)).
Qed.

Lemma began_facts token e w :
  inv w → began token e w →
  se_started_at e ≤ aw_clock w.2 ∧ starts_with "stream-" (se_stream_source_id e) = true.
Proof.
  intros Hi (b & c & Hb & Eb). pose proof (i_clock _ Hi b Hb) as Ht.
  apply list_elem_of_lookup in Hb as [n Hb]. destruct (i_trace _ Hi n b Hb) as [_ Hf].
  rewrite Eb in Hf. destruct Hf as (_ & _ & Hst & Hs & _). split; [lia|done].
Qed.

Lemma safe_now i w :
  safe i (λ now w', aw_clock w.2 ≤ now ≤ aw_clock w'.2 ∧ others i w w') w instant_now.
Proof.
  apply guarded_atom. intros [p w1] Hr Hi. simpl. split; [|split; [done|]].
  - split; [lia|]. exists []. by rewrite app_nil_r.
  - intros w2 Hr2 _. destruct Hr as [[Hp Hc] Ho], Hr2 as [[Hp2 Hc2] Ho2]. simpl in *.
    split; [lia|]. split; [split; [by trans (aw_trace w1)|lia]|auto].
Qed.

Lemma safe_sleep i d w :
  safe i (λ _ w', aw_clock w.2 + d ≤ aw_clock w'.2 ∧ others i w w') w (sleep d).
Proof.
  unfold sleep. eapply guarded_bind; [apply _|apply safe_now|].
  intros now w1 _ [[Hn _] Ho]. apply guarded_atom. intros [p w2] Hr Hi.
  unfold on_world, st_snd. simpl. set (w3 := with_clock _ w2).
  assert (Ha : apart (p, w2) (p, w3)) by (destruct Hi; simpl in *; solve_apart).
  split; [|split].
  - by apply mild_mine, apart_mild.
  - by eapply inv_apart.
  - intros w4 Hr4 _. split.
    + destruct Hr4 as [[_ Hc] _]. simpl in Hc. lia.
    + trans w1; [done|]. trans (p, w2); [done|]. trans (p, w3); [|done].
      by apply mild_others, apart_mild.
Qed.

(** ** The end of an ad *)
Lemma safe_end_ad i token e c w :
  lacks i KBack w → lacks i KRemoved w → claimed i token e w → c = node_address (se_node_id e) →
  starts_with "stream-" (se_stream_source_id e) = true →
  se_started_at e + seconds least_view ≤ aw_clock w.2 →
  safe i (λ _ _, True) w
    (end_ad i c (se_viewer_id e) (se_stream_source_id e) (se_ad_source_id e)).
Proof.
  intros Hb Hr Hcl Hc Hs Ht. unfold end_ad. eapply guarded_bind; [apply _| |].
  - eapply (safe_ending i KBack); try done. intros ok. simpl. by rewrite Hs.
  - intros r w1 _ [[Hp Hclk] Hd]. eapply guarded_bind; [apply _| |].
    + eapply (safe_ending i KRemoved c (RemoveSource (se_ad_source_id e)) e token); try done.
      * by apply Hd.
      * eapply claimed_later; [|exact Hcl]. by split.
      * lia.
    + by intros r2 w2 _ _ w3 _ _.
Qed.

Lemma least_view_min cfg : min_secs ≤ dc_skip_after_secs cfg →
  seconds least_view ≤ seconds (dc_skip_after_secs cfg).
Proof. unfold least_view, seconds. intros Hc. assert (0 < NANOS) by done. nia. Qed.

Lemma safe_end_entry i token e w :
  lacks i KBack w → lacks i KRemoved w → claimed i token e w → began token e w →
  safe i (λ _ _, True) w (end_entry i state e).
Proof.
  intros Hb Hr Hcl Hbe. unfold end_entry.
  destruct (sv_switch_pool state); [|by intros w1 _ _].
  apply (safe_bind i _ _ _ _ _ (tame_switch_back i _ _)).
  intros [c|er] w1 Hi1 Hc Ho1; [|by intros w2 _ _].
  apply (safe_bind i _ _ _ _ _ (tame_config i)). intros cfg w2 Hi2 Hcfg Ho2.
  eapply guarded_bind; [apply _|apply safe_now|]. intros now w3 Hi3 [Hnow Ho3].
  assert (Ho : others i w w3) by (trans w1; [done|]; by trans w2).
  destruct (began_facts token e w1 Hi1) as [Hst Hs]; [by eapply began_later; [apply Ho1|]|].
  assert (Hst3 : se_started_at e ≤ now) by (destruct Ho2 as [[_ ?] _]; lia).
  pose proof (least_view_min cfg Hcfg) as Hlv.
  set (elapsed := Z.max 0 (now - se_started_at e)).
  set (min_view := seconds (dc_skip_after_secs cfg)).
  eapply guarded_bind with (P := λ _ w4, se_started_at e + seconds least_view ≤ aw_clock w4.2 ∧
    others i w3 w4); [apply _| |].
  - destruct (elapsed <? min_view) eqn:E.
    + eapply guarded_weaken; [apply safe_sleep|]. intros _ w4 _ [Hc4 Ho4]. split; [|done].
      unfold elapsed, min_view in *. lia.
    + apply Z.ltb_ge in E. apply guarded_done. intros w4 Ho4 _. split; [|done].
      destruct Ho4 as [[_ Hc4] _]. unfold elapsed, min_view in *. lia.
  - intros _ w4 _ [Ht Ho4]. assert (Ho5 : others i w w4) by (by trans w3).
    apply (safe_end_ad i token); try done; try (by apply Ho5).
    eapply claimed_later; [apply Ho5|done].
Qed.

Lemma safe_fire i t e w :
  lacks i KClaimed w → lacks i KBack w → lacks i KRemoved w →
  40 ≤ tm_secs t → began (tm_token t) e w → se_started_at e ≤ aw_clock w.2 →
  tm_viewer t = se_viewer_id e → tm_stream_src t = se_stream_source_id e →
  tm_ad_src t = se_ad_source_id e → tm_node t = se_node_id e →
  safe i (λ _ _, True) w (fire i state t).
Proof.
  intros Hc Hb Hr Hsec Hbe Hst Hv Hss Has Hn. unfold fire.
  eapply guarded_bind; [apply _|apply safe_sleep|]. intros _ w1 Hi1 [Ht1 Ho1].
  eapply guarded_bind; [apply _|apply safe_claim; by apply Ho1|].
  intros [e'|] w2 Hi2; [|by intros _ w3 _ _]. intros (Hdid & Hcl & Hbe2).
  assert (e' = e) as ->.
  { destruct Hbe2 as (b2 & c2 & Hb2 & Eb2).
    assert (Hbe1 : began (tm_token t) e w2).
    { eapply began_later; [|exact Hbe]. trans w1; [apply Ho1|apply Hdid]. }
    destruct Hbe1 as (b1 & c1 & Hb1 & Eb1).
    by destruct (began_same _ _ _ _ _ _ _ _ (i_trace _ Hi2) Hb2 Hb1 Eb2 Eb1). }
  destruct (sv_switch_pool state); [|by intros w3 _ _].
  apply (safe_bind i _ _ _ _ _ (tame_switch_back i _ _)).
  intros [c|er] w3 Hi3 Hc3 Ho3; [|by intros w4 _ _].
  rewrite Hv, Hss, Has. apply (safe_end_ad i (tm_token t)).
  - apply Ho3, Hdid; [done|]. by apply Ho1.
  - apply Ho3, Hdid; [done|]. by apply Ho1.
  - eapply claimed_later; [apply Ho3|done].
  - by rewrite Hc3, Hn.
  - by apply (began_facts (tm_token t) e w2).
  - destruct Ho3 as [[_ H3] _], Hdid as [[_ H2] _]. unfold least_view, seconds in *.
    assert (0 < NANOS) by done. nia.
Qed.

Lemma safe_timer i n w :
  lacks i KClaimed w → lacks i KBack w → lacks i KRemoved w →
  safe i (λ _ _, True) w (run_timer i state n).
Proof.
  intros Hc Hb Hr. unfold run_timer, take_timer.
  eapply guarded_bind with (P := λ t w', others i w w' ∧
    ∀ t0, t = Some t0 → timer_ok (trace w') t0); [apply _| |].
  - apply guarded_atom. intros [p w1] Ho Hi. unfold on_world, st_snd. simpl.
    destruct (aw_timers w1 !! n) as [t|] eqn:Et; simpl.
    + split; [|split].
      * split; [simpl; lia|]. exists []. by rewrite app_nil_r.
      * destruct Hi. simpl in *. split; simpl; try done. intros t' Ht'.
        apply i_timers0. apply list_elem_of_lookup in Ht' as [j Hj].
        apply list_elem_of_lookup. destruct (Nat.lt_ge_cases j n).
        -- rewrite list_lookup_delete_lt in Hj by done. eauto.
        -- rewrite list_lookup_delete_ge in Hj by done. eauto.
      * intros w2 Ho2 _. split.
        -- trans (p, w1); [done|]. split; [|intros x; apply Ho2].
           destruct Ho2 as [[H1 H2] _]. by split.
        -- intros t0 [= <-]. destruct (i_timers _ Hi t) as (Hs & b & c & e & Hbt & Hrest);
             [by eapply list_elem_of_lookup_2|].
           split; [done|]. exists b, c, e. split; [|done].
           destruct Ho2 as [[[l E] _] _]. simpl in E. rewrite E. apply elem_of_app. by left.
    + split; [|split; [done|]].
      * split; [simpl; lia|]. exists []. by rewrite app_nil_r.
      * intros w2 Ho2 _. split; [by trans (p, w1)|done].
  - intros [t|] w1 Hi1 [Ho Hok]; [|by intros w2 _ _].
    destruct (Hok t eq_refl) as (Hs & b & c & e & Hbt & Eb & Hv & Hss & Has & Hn).
    assert (Hbe : began (tm_token t) e w1) by (by exists b, c).
    apply (safe_fire i t e); try done; try (by apply Ho).
    by apply (began_facts (tm_token t) e w1).
Qed.

(** ** Showing an ad *)
Lemma timer_secs_range d : 1 ≤ d ≤ 120 → 40 ≤ timer_secs d.
Proof. intros Hd. unfold timer_secs, as_u64_cast, GRACE. rewrite (Z.mod_small d) by lia.
  rewrite Z.mod_small; lia. Qed.

Lemma tame_ignore {A} i (m : st Db (result A db_error)) :
  st_rel (on_tables ads_step) m → tame i (λ _ _, True) (ignore m).
Proof. intros Hm w. unfold ignore. tame_skip (tame_db' i m Hm). apply tame_true. Qed.

Lemma tame_revoked i token : tame i (λ _ _, True) (ignore (record_sfu_revoked token)).
Proof.
  apply tame_ignore, st_rel_exec; [apply _|]. apply update_impression_step. intros now im.
  by apply sfu_grows.
Qed.

Lemma safe_spawn i t w :
  (∃ e, began (tm_token t) e w ∧ tm_viewer t = se_viewer_id e ∧
    tm_stream_src t = se_stream_source_id e ∧ tm_ad_src t = se_ad_source_id e ∧
    tm_node t = se_node_id e) → 40 ≤ tm_secs t → safe i (λ _ _, True) w (spawn_timer t).
Proof.
  intros (e & Hb & Hv & Hs & Ha & Hn) Ht. apply guarded_atom. intros [p w1] Hr Hi.
  unfold on_world, st_snd. simpl.
  assert (Hb1 : began (tm_token t) e (p, w1)) by (by eapply began_later; [apply Hr|]).
  split; [|split; [|done]].
  - split; [simpl; lia|]. exists []. by rewrite app_nil_r.
  - destruct Hi. simpl in *. split; simpl; try done.
    intros t' [Ht'| ->%list_elem_of_singleton]%elem_of_app; [auto|]. split; [done|].
    destruct Hb1 as (b & c & Hbt & Eb). by exists b, c, e.
Qed.

Lemma safe_inject i stream_id user token ad slot millis route w :
  lacks i KBegan w → drew i token w → 1 ≤ da_duration_secs ad ≤ 120 →
  vr_client route = node_address (vr_node_id route) →
  safe i (λ _ _, True) w
    (inject_ad i stream_id user token ad slot (ad_source_id user millis) route).
Proof.
  intros Hl Hd Hdur Hc. unfold inject_ad.
  eapply safe_bind; [by apply tame_call|]. intros [[]|er] w1 Hi1 Hadd Ho1; [|by intros w2 _ _].
  specialize (Hadd eq_refl).
  eapply safe_bind; [by apply tame_call|]. intros switched w2 Hi2 _ Ho2.
  apply (safe_bind i (λ _ _, True)).
  { destruct switched as [[]|er]; [|by apply tame_done].
    destruct (vr_billable route); [apply tame_revoked|by apply tame_done]. }
  intros _ w3 Hi3 _ Ho3. assert (Ho : others i w1 w3) by (by trans w2).
  assert (Ho' : others i w w3) by (by trans w1).
  eapply guarded_bind; [apply _| |].
  - eapply safe_begin.
    + by apply Ho'.
    + eapply drew_later; [apply Ho'|done].
    + done.
    + done.
    + destruct Hadd as (k & Hk & Hw & Ek). exists k. split; [by eapply later_elem; [apply Ho|]|].
      split; [done|exact Ek].
  - intros _ w4 _ (_ & e & Hb & Hrest). apply safe_spawn; [by exists e|].
    by apply timer_secs_range.
Qed.

Lemma safe_show i stream_id user token row ad slot w :
  lacks i KBegan w → drew i token w → 1 ≤ da_duration_secs ad ≤ 120 →
  safe i (λ _ _, True) w (show_ad i state stream_id user token row ad slot).
Proof.
  intros Hl Hd Hdur. unfold show_ad. eapply safe_bind; [apply tame_net|].
  intros now w1 _ _ Ho1. destruct (sv_switch_pool state).
  - eapply safe_bind; [apply tame_route|]. intros route w2 _ Hroute Ho2.
    assert (Ho : others i w w2) by (by trans w1).
    apply safe_inject; try done; [by apply Ho|]. eapply drew_later; [apply Ho|done].
  - destruct (sr_sfu_room_id row); [|by intros w2 _ _].
    eapply safe_bind; [apply tame_net|]. intros r w2 _ _ _.
    eapply guarded_weaken; [apply safe_tame, tame_revoked|done].
Qed.

(** ** The handlers *)
Lemma tame_require i : tame i (λ _ _, True) (require_advertising state).
Proof.
  unfold require_advertising. eapply tame_bind; [apply tame_config|]. intros cfg w _ _. apply tame_true.
Qed.

Lemma tame_ask {A} i (m : st Db (result A db_error)) :
  st_rel (on_tables ads_step) m → tame i (λ _ _, True) (ask m).
Proof. intros Hm w. unfold ask. tame_skip (tame_db' i m Hm). apply tame_true. Qed.

Lemma get_stream_step id : st_rel (on_tables ads_step) (MoneyDb.get_stream id).
Proof.
  unfold MoneyDb.get_stream, asking. apply st_rel_bind; [apply _|apply reads_step|].
  intros r. apply st_rel_ret, _.
Qed.

Lemma ads_enabled_step has host : st_rel (on_tables ads_step) (creator_ads_enabled has host).
Proof.
  unfold creator_ads_enabled. destruct has; [|apply st_rel_ret, _].
  apply st_rel_bind; [apply _|apply reads_step|]. intros r. apply st_rel_ret, _.
Qed.

(** A program that is of no kind is safe for every task. *)
Lemma safe_of_tame {A} i (p : prog W A) w : tame i (λ _ _, True) p → safe i (λ _ _, True) w (discard p).
Proof. intros Hp. unfold discard. eapply safe_bind; [exact Hp|]. by intros a w1 _ _ _ w2 _ _. Qed.

Lemma tame_try {A B} i (p : prog W (result A MMError.t)) (k : A → prog W (result B MMError.t)) :
  tame i (λ _ _, True) p → (∀ a, tame i (λ _ _, True) (k a)) → tame i (λ _ _, True) (prog_try p k).
Proof.
  intros Hp Hk w. unfold prog_try. tame_skip Hp. destruct a as [a|e]; [apply Hk|apply tame_true].
Qed.

Lemma safe_try {A B} i (Q : result B MMError.t → W → Prop) (p : prog W (result A MMError.t))
    (k : A → prog W (result B MMError.t)) w :
  tame i (λ _ _, True) p → (∀ e w', Q (Err e) w') →
  (∀ a w', others i w w' → safe i Q w' (k a)) → safe i Q w (prog_try p k).
Proof.
  intros Hp He Hk. unfold prog_try. eapply safe_bind; [exact Hp|].
  intros [a|e] w' _ _ Ho; [by apply Hk|]. intros w2 _ _. apply He.
Qed.

Lemma safe_decision i me stream_id slot w :
  lacks i KBegan w →
  safe i (λ _ _, True) w (ad_decision uuid_of i state me stream_id slot).
Proof.
  intros Hl. unfold ad_decision. apply safe_try; [apply tame_require|done|]. intros engine w1 Ho1.
  apply safe_try; [by apply tame_db', get_stream_step|done|]. intros [row|] w2 Ho2; [|by intros w3 _ _].
  eapply safe_bind; [by apply tame_db', ads_enabled_step|]. intros [] w3 _ _ Ho3; [|by intros w4 _ _].
  cbn [negb]. destruct (AdSlot.from_str slot) as [sl|]; [|by intros w4 _ _].
  eapply safe_bind; [apply tame_net|]. intros now w4 _ _ Ho4.
  eapply safe_bind; [apply tame_decide|]. intros d w5 _ Hd Ho5.
  assert (Hl5 : lacks i KBegan w5).
  { apply Ho5, Ho4, Ho3, Ho2, Ho1. done. }
  eapply guarded_bind with (P := λ _ _, True); [apply _| |by intros _ w6 _ _ w7 _ _].
  destruct (is_live row); [|by intros w6 _ _].
  destruct d as [ad token ? ? ? ? ?|]; [|by intros w6 _ _]. destruct Hd as [Hdrew Hdur].
  by apply safe_show.
Qed.

Lemma safe_event i token event w :
  lacks i KClaimed w → lacks i KBack w → lacks i KRemoved w →
  safe i (λ _ _, True) w (report_ad_event i state token event).
Proof.
  intros Hc Hb Hr. unfold report_ad_event. apply safe_try; [apply tame_require|done|]. intros ? w1 Ho1.
  destruct (AdEvent.from_str event) as [ev|]; [|by intros w2 _ _].
  apply safe_try; [by apply tame_ask, update_event_step|done|]. intros ? w2 Ho2.
  assert (Ho : others i w w2) by (by trans w1).
  eapply guarded_bind with (P := λ _ _, True); [apply _| |by intros _ w3 _ _ w4 _ _].
  case_bool_decide; [|by intros w3 _ _].
  eapply guarded_bind; [apply _|apply safe_claim; by apply Ho|].
  intros [e|] w3 Hi3; [|by intros _ w4 _ _]. intros ([_ Hdid] & Hcl & Hbe).
  apply (safe_end_entry i token); try done; by apply Hdid; [|apply Ho].
Qed.

Lemma tame_complete i me stream_id proof : tame i (λ _ _, True) (ad_complete state me stream_id proof).
Proof.
  unfold ad_complete. apply tame_try; [apply tame_require|]. intros ?.
  apply tame_try; [apply tame_ask, reads_step|]. intros [im|]; [|by apply tame_done].
  destruct (negb _); [by apply tame_done|].
  apply tame_try; [apply tame_ask, update_event_step|]. intros _.
  apply tame_try; [apply tame_db', get_stream_step|]. intros stream w.
  refine (tame_bind i (λ _ _, True) _ _ _ _ _ w); [|intros; apply tame_true].
  destruct stream as [row|]; [|by apply tame_done].
  destruct (is_live row); [|by apply tame_done].
  apply tame_ignore, st_rel_exec; [apply _|]. apply update_impression_step. intros now im'.
  by apply sfu_grows.
Qed.

Lemma tame_upload i me req : tame i (λ _ _, True) (upload_ad uuid_of i state to_rfc3339 me req).
Proof.
  intros w. unfold upload_ad. tame_skip (tame_require i). destruct a as [engine|e]; [|apply tame_true].
  refine (tame_bind i _ _ _ _ (tame_draw i) _ _). intros id w1 _ _.
  tame_skip (tame_net i net_utc).
  refine (tame_bind i (λ _ _, True) _ _ _ _ _ _).
  { unfold upload_duration. destruct (0 <? _); [by apply tame_done|]. intros w3.
    tame_skip (tame_net i (probe_duration net_get
      (default (default EmptyString (sv_public_url state) +:+ "/_mm/ads/" +:+ id +:+ ".mp4")
         (ur_media_url req)))).
    apply tame_true. }
  intros [d|] w3 _ _; [|apply tame_true].
  refine (tame_bind i (λ _ _, True) _ _ _ _ _ _); [|intros; apply tame_true].
  apply tame_ask, st_rel_exec; [apply _|]. apply insert_creative_step.
Qed.

Lemma tame_delete i me id : tame i (λ _ _, True) (delete_ad state me id).
Proof.
  unfold delete_ad. apply tame_try; [apply tame_require|]. intros ?.
  apply tame_try; [apply tame_ask, reads_step|]. intros [ad|]; [|by apply tame_done].
  destruct (negb _); [by apply tame_done|].
  apply tame_ask, st_rel_exec; [apply _|]. by apply update_creative_step.
Qed.

Lemma tame_on_ok {A B} i (r : result A MMError.t) (k : A → prog W (result B MMError.t)) :
  (∀ a, tame i (λ _ _, True) (k a)) → tame i (λ _ _, True) (on_ok r k).
Proof. intros Hk. destruct r; [apply Hk|by apply tame_done]. Qed.

Lemma tame_admin_upload i admin req : tame i (λ _ _, True) (admin_upload_ad uuid_of i state admin req).
Proof.
  apply tame_on_ok. intros _ w. refine (tame_bind i _ _ _ _ (tame_draw i) _ w). intros id w1 _ _.
  tame_skip (tame_net i net_utc). apply tame_try; [|intros ?; by apply tame_done].
  apply tame_ask, st_rel_exec; [apply _|]. apply insert_creative_step.
Qed.

Lemma tame_update i id u : tame i (λ _ _, True) (ask (update_creative id u)).
Proof. apply tame_ask, st_rel_exec; [apply _|]. by apply update_creative_step. Qed.

Lemma tame_os {A} i what (m : st N (result A string)) : tame i (λ _ _, True) (os what m).
Proof. intros w. unfold os. tame_skip (tame_net i m). apply tame_true. Qed.

Lemma tame_admin_file i admin id form : tame i (λ _ _, True) (admin_upload_ad_file state admin id form).
Proof.
  intros w. unfold admin_upload_ad_file. destruct (admin_engine state admin); [|apply tame_true].
  destruct (form_file form) as [[name data]|e]; [|apply tame_true].
  tame_skip (tame_net i (fs_create_dir_all ADS_DIR)).
  refine (tame_bind i (λ _ _, True) _ _ _ _ _ _).
  { apply tame_try; [apply tame_os|]. intros _. unfold store_webm.
    destruct (Text.ends_with _ _); [apply tame_os|]. apply tame_try; [apply tame_os|].
    intros ok w1. tame_skip (tame_net i (fs_remove (ADS_DIR +:+ "/" +:+ id +:+ "_upload" +:+ ".mp4"))).
    apply tame_true. }
  intros [_|e] w1 _ _; [|apply tame_true].
  refine (tame_bind i (λ _ _, True) _ _ _ (tame_net i _) _ _).
  intros [probed|] w2 _ _; [|apply tame_true].
  tame_skip (tame_net i (fs_len (ADS_DIR +:+ "/" +:+ id +:+ ".webm"))).
  refine (tame_bind i _ _ _ _ (tame_update i _ _) _ _). intros; apply tame_true.
Qed.

Lemma tame_evict i id : tame i (λ _ _, True) (evict id).
Proof.
  intros w. unfold evict.
  refine (tame_bind i (λ _ _, True) _ _ _ _ _ w).
  - apply (tame_pool i (λ _, True)). intros p [Ho Hp]. split; [|done]. split; [done|].
    intros n e. simpl. rewrite lookup_delete_Some. intros [_ ?]. auto.
  - intros _ w1 _ _. apply (tame_pool i (λ _, True)). intros p [Ho Hp]. by split.
Qed.

Lemma safe_task i t w :
  task_ok t → (∀ x, lacks i x w) → safe i (λ _ _, True) w (task_prog i t).
Proof.
  intros Ht Hl. destruct t; cbn [task_ok] in Ht; cbn [task_prog].
  - unfold discard. eapply guarded_bind; [apply _|by apply safe_decision|]. by intros a w1 _ _ w2 _ _.
  - unfold discard. eapply guarded_bind; [apply _|by apply safe_event|]. by intros a w1 _ _ w2 _ _.
  - apply safe_of_tame, tame_complete.
  - apply safe_of_tame, tame_upload.
  - apply safe_of_tame, tame_delete.
  - apply safe_of_tame, tame_admin_upload.
  - apply safe_of_tame, tame_on_ok. intros ?. apply tame_update.
  - apply safe_of_tame, tame_on_ok. intros ?. apply tame_ask, st_rel_exec; [apply _|].
    by apply update_creative_step.
  - apply safe_of_tame, tame_admin_file.
  - by apply safe_timer.
  - eapply guarded_weaken; [apply safe_tame, (tame_apart i (λ _, True))|done].
    intros [p w1] []. simpl in *. split; [solve_apart|done].
  - eapply guarded_weaken; [apply safe_tame, (tame_apart i (λ _, True))|done].
    intros [p w1] []. simpl in *. split; [solve_apart|done].
  - eapply guarded_weaken; [by apply safe_tame, tame_db'|done].
  - eapply guarded_weaken; [apply safe_tame, (tame_pool i (λ _, True))|done].
    intros p [Ho Hp]. split; [|done]. split; [done|]. intros n e. simpl.
    rewrite lookup_insert_Some. intros [[<- <-]|[_ ?]]; [done|auto].
  - apply safe_of_tame, tame_evict.
  - eapply guarded_weaken; [apply safe_tame, (tame_pool i (λ _, True))|done].
    intros p [Ho Hp]. by split.
  - eapply guarded_weaken; [apply safe_tame, (tame_pool i (λ _, True))|done].
    intros p [Ho Hp]. by split.
Qed.
End history.

(** C16. In every interleaving of requests for ads, reported skips and completions, switch-back
    timers, uploads, updates and deletions by creators and the operator, with a clock that moves on, settings that change, other
    work on the database and a fleet that registers and evicts nodes and moves viewers: every
    call that takes a viewer from an ad back to a stream, and every call that drops an ad's
    file, goes to the very switch the ad was put on, ends an ad that was put on there
    successfully at least the minimum viewing time before (the least that was ever configured
    for a skip, or the 40 seconds of the shortest timer), and no ad is ended twice in either
    way. It relies on the identifiers drawn for impressions never repeating, and on a node
    keeping its address. *)
Theorem ads_end_once_and_not_early {C N : Type} `{AdNet C N, AdFiles N} (uuid_of : nat → string)
    (state : AdServer) (to_rfc3339 : DateTime → string) (url : NodeId → C) (o : C) (min_secs : Z)
    (tasks : list (task (C := C))) (sched : list nat) (p : SwitchPool C) (w : AdWorld C N) :
  Inj (=) (=) uuid_of → registered url o p →
  ads_inv (ads_of (db_tables (aw_db w))) → min_secs ≤ dc_skip_after_secs (aw_config w) →
  aw_trace w = [] → aw_switches w = ∅ → aw_timers w = [] →
  Forall (task_ok url min_secs) tasks →
  let T := aw_trace (run_sched sched (imap (task_prog uuid_of state to_rfc3339) tasks) (p, w)).2.2 in
  (∀ n k c call ok, T !! n = Some k → mk_what k = Called c call ok → is_ending call = true →
     ∃ a, closes min_secs T n a) ∧
  (∀ n n' a k k', closes min_secs T n a → closes min_secs T n' a → T !! n = Some k →
     T !! n' = Some k' → is_Some (kind_of (mk_what k)) →
     kind_of (mk_what k) = kind_of (mk_what k') → n = n').
Proof.
  intros Hinj Hp Hads Hcfg HT Hsw Htm Hok T.
  assert (Hi0 : inv uuid_of url o min_secs (p, w)).
  { split; simpl; rewrite ?HT, ?Hsw, ?Htm; try done; try set_solver.
    all: intros ? ? Hx; exfalso; revert Hx; first [by rewrite lookup_empty | by rewrite lookup_nil
      | set_solver]. }
  assert (Hi : inv uuid_of url o min_secs
    (run_sched sched (imap (task_prog uuid_of state to_rfc3339) tasks) (p, w)).2).
  { apply (run_sched_guarded _ others mine (λ _ _ _, True)).
    - intros i. apply _.
    - intros i j s s' Hij. by apply mine_others.
    - done.
    - intros i q Hq. apply list_lookup_imap_Some in Hq as (t & Ht & ->).
      apply safe_task; [done|by eapply Forall_lookup_1|].
      intros x k. simpl. rewrite HT. by intros ?%elem_of_nil. }
  pose proof (i_trace _ _ _ _ _ Hi) as HJ. split.
  - intros n k c call ok Hn Hk He. by eapply ending_closes.
  - intros n n' a k k' Hc Hc' Hn Hn' Hs Hk. eapply closes_inj; try done.
    by exists k, k'.
Qed.

(** ** On an example *)
Module AdsDemo.
(** Every switch answers; the generator always returns the same. *)
#[export] Instance demo_net : AdNet string () := {|
  net_call c call n := (Ok (), n);
  net_permissions room v b n := (Ok (), n);
  net_utc n := (seconds 3600, n);
  net_index k n := (O, n);
  net_unit n := (Fin 0, n);
  net_hex k n := ("00", n);
  net_get u r n := (None, n);
  json_f64 t := None
|}.

#[export] Instance demo_files : AdFiles () := {|
  fs_create_dir_all d n := ((), n);
  fs_write f data n := (Ok (), n);
  fs_rename a b n := (Ok (), n);
  fs_remove f n := ((), n);
  fs_len f n := (None, n);
  ffmpeg a b n := (Ok true, n)
|}.

Definition demo_uuid (n : nat) : string := pretty n.

Definition demo_server : AdServer := {|
  sv_engine := Some AdsTablesDemo.demo_config; sv_switch_pool := true; sv_pg_pool := true;
  sv_public_url := Some "https://x" |}.

Definition demo_db : Db :=
  healthy (set_streams {[ "s" := stream_row "@host:x" "active" 0 ]} AdsTablesDemo.demo_tables) 0.

Definition demo_world : AdWorld string () := {|
  aw_db := demo_db; aw_clock := 0; aw_config := AdsTablesDemo.demo_config; aw_switches := ∅;
  aw_timers := []; aw_drawn := 0; aw_net := (); aw_trace := [] |}.

(** The viewer skips after two seconds; the timer fires all the same. *)
Definition demo_tasks : list (task (C := string)) :=
  [TDecision "@me:x" "s" "pre_roll"; TClock (seconds 2); TEvent "0" "skipped"; TTimer 0].

Definition demo_sched : list nat :=
  replicate 30 0%nat ++ [1%nat] ++ replicate 20 2%nat ++ replicate 20 3%nat.

Definition demo_url (n : NodeId) : string := "http://" +:+ n.

Definition demo_trace : list (marked string) :=
  aw_trace (run_sched demo_sched (imap (task_prog demo_uuid demo_server (λ _, "")) demo_tasks)
    (new_pool "origin", demo_world)).2.2.

(** Added at once, taken back after the five seconds of the configuration, and once. *)
Definition ad_calls (T : list (marked string)) : list (Z * SwitchCall) :=
  omap (λ k, match mk_what k with Called _ call _ => Some (mk_at k / NANOS, call) | _ => None end) T.

Example demo_calls : ad_calls demo_trace =
  [(0, AddFileSource "ad--me-x-3600000" "https://x/_mm/client/v1/ads/old/media" false);
   (0, SwitchViewer "viewer-s--me-x" "ad--me-x-3600000");
   (5, SwitchViewer "viewer-s--me-x" "stream-s");
   (5, RemoveSource "ad--me-x-3600000")].
Proof. by vm_compute. Qed.

(** A skip that comes early takes the entry and then waits; if its request is dropped while
    it waits, nothing ends the ad: the timer finds no entry. *)
Definition dropped_sched : list nat :=
  replicate 30 0%nat ++ [1%nat] ++ replicate 7 2%nat ++ replicate 20 3%nat.

Example dropped_skip_strands_viewer :
  let w := (run_sched dropped_sched (imap (task_prog demo_uuid demo_server (λ _, "")) demo_tasks)
    (new_pool "origin", demo_world)).2.2 in
  (snd <$> ad_calls (aw_trace w)) =
    [AddFileSource "ad--me-x-3600000" "https://x/_mm/client/v1/ads/old/media" false;
     SwitchViewer "viewer-s--me-x" "ad--me-x-3600000"] ∧
  size (aw_switches w) = 0%nat ∧ aw_timers w = [].
Proof. by vm_compute. Qed.

Lemma demo_ads_inv : ads_inv (ads_of (db_tables demo_db)).
Proof.
  split; simpl; try (by repeat constructor).
  - apply (bool_decide_unpack _). by vm_compute.
Qed.
End AdsDemo.

Lemma ads_end_once_and_not_early_witness :
  let T := AdsDemo.demo_trace in
  length (AdsDemo.ad_calls T) = 4%nat ∧
  (∀ n k c call ok, T !! n = Some k → mk_what k = Called c call ok → is_ending call = true →
     ∃ a, closes 5 T n a) ∧
  (∀ n n' a k k', closes 5 T n a → closes 5 T n' a → T !! n = Some k →
     T !! n' = Some k' → is_Some (kind_of (mk_what k)) →
     kind_of (mk_what k) = kind_of (mk_what k') → n = n').
Proof.
  split; [by vm_compute|].
  apply (ads_end_once_and_not_early (H := AdsDemo.demo_net) (H0 := AdsDemo.demo_files)
    AdsDemo.demo_uuid AdsDemo.demo_server
    (λ _, "") AdsDemo.demo_url "origin" 5 AdsDemo.demo_tasks AdsDemo.demo_sched (new_pool "origin")
    AdsDemo.demo_world).
  - intros x y E. by apply (inj pretty) in E.
  - split; [done|]. intros n e He. simpl in He. by rewrite lookup_empty in He.
  - exact AdsDemo.demo_ads_inv.
  - simpl. lia.
  - done.
  - done.
  - done.
  - repeat constructor; simpl; done.
Defined.
