(* ===== verification/Moderation.v ===== *)
(** * Moderation: reports, takedowns and their audit

    [mm-db/src/moderation_db.rs] and [mm-api/src/moderation.rs]: the report of a viewer, the
    reports fetched from Synapse, the operator's queue, and the actions an operator takes
    against streams, recordings and users. A stream is stopped through the end path of
    [StreamLifecycle], a recording deleted as in [RecordingsApi]. The answer of the rate
    limiter is part of the class [ReportLimiter]. *)
From S2P Require Import Prelude ApiSchema Json Schema Errors Text MatrixClient MatrixEvents.
From S2P Require Import MoneyDb StreamsDb Donations StreamLifecycle StreamsApi RecordingsApi Auth.
Local Open Scope Z_scope.
Local Open Scope mm_scope.

(** ** The statements *)
Definition moderation_of (t : Tables) : ModerationTables := a_moderation (t_api t).

Definition set_reports (l : list ReportRec) (q : ModerationTables) : ModerationTables :=
  {| q_reports := l; q_actions := q_actions q; q_users := q_users q |}.
Definition set_actions (l : list ActionRec) (q : ModerationTables) : ModerationTables :=
  {| q_reports := q_reports q; q_actions := l; q_users := q_users q |}.
Definition set_users (m : gmap string UserModerationRec) (q : ModerationTables) :
    ModerationTables :=
  {| q_reports := q_reports q; q_actions := q_actions q; q_users := m |}.

Record NewReport : Type := {
  nw_source : string;
  nw_target_type : string;
  nw_target_id : string;
  nw_room_id : option string;
  nw_reported_user_id : option string;
  nw_reporter_id : option string;
  nw_reason : string;
  nw_details : option string;
  nw_synapse_report_id : option Z
}.

(** The columns the INSERT does not name take their defaults. *)
Definition report_row (id : Uuid) (now : DateTime) (r : NewReport) : ReportRec := {|
  mr_id := id; mr_source := nw_source r; mr_target_type := nw_target_type r;
  mr_target_id := nw_target_id r; mr_room_id := nw_room_id r;
  mr_reported_user_id := nw_reported_user_id r; mr_reporter_id := nw_reporter_id r;
  mr_reason := nw_reason r; mr_details := nw_details r; mr_status := "open";
  mr_synapse_report_id := nw_synapse_report_id r; mr_created_at := now; mr_updated_at := now;
  mr_resolved_by := None; mr_resolved_at := None |}.

(** The partial unique index on (source, synapse_report_id). *)
Definition same_synapse (source : string) (sid : Z) (x : ReportRec) : bool :=
  String.eqb (mr_source x) source && bool_decide (mr_synapse_report_id x = Some sid).

Definition already_synced (r : NewReport) (l : list ReportRec) : bool :=
  match nw_synapse_report_id r with
  | Some sid => existsb (same_synapse (nw_source r) sid) l
  | None => false
  end.

Definition insert_report_stmt (r : NewReport) : stmt (option Uuid) := on_api (λ now a,
  let '(id, a) := take_uuid a in
  let q := a_moderation a in
  if already_synced r (q_reports q) then Ok (None, a)
  else if existsb (λ x, String.eqb (mr_id x) id) (q_reports q)
  then Err (violates "mm_moderation_reports_pkey")
  else Ok (Some id, set_moderation (set_reports (q_reports q ++ [report_row id now r]) q) a)).

Definition insert_report (r : NewReport) : st Db (result (option Uuid) db_error) :=
  exec (insert_report_stmt r).

(** ORDER BY created_at DESC LIMIT $2 OFFSET $3. *)
Definition list_reports_db (status : option string) (lim offset : Z) :
    st Db (result (list ReportRec) db_error) :=
  exec (reading (λ t, limit lim (drop (Z.to_nat offset) (order_desc mr_created_at
    (List.filter (λ x, match status with Some s => String.eqb (mr_status x) s | None => true end)
       (q_reports (moderation_of t))))))).

Definition by_report_id (id : Uuid) (x : ReportRec) : bool := String.eqb (mr_id x) id.

Definition get_report_db (id : Uuid) : st Db (result (option ReportRec) db_error) :=
  exec (reading (λ t, head (List.filter (by_report_id id) (q_reports (moderation_of t))))).

(** MAX, 0 when there is none. *)
Definition max_synapse_report_id : st Db (result Z db_error) :=
  exec (reading (λ t, default 0 (foldr (λ x m,
    match mr_synapse_report_id x with
    | Some i => if String.eqb (mr_source x) "matrix" then Some (default i (Z.max i <$> m)) else m
    | None => m
    end) None (q_reports (moderation_of t))))).

Definition with_report_status (status by_ : string) (now : DateTime) (x : ReportRec) :
    ReportRec := {|
  mr_id := mr_id x; mr_source := mr_source x; mr_target_type := mr_target_type x;
  mr_target_id := mr_target_id x; mr_room_id := mr_room_id x;
  mr_reported_user_id := mr_reported_user_id x; mr_reporter_id := mr_reporter_id x;
  mr_reason := mr_reason x; mr_details := mr_details x; mr_status := status;
  mr_synapse_report_id := mr_synapse_report_id x; mr_created_at := mr_created_at x;
  mr_updated_at := now; mr_resolved_by := Some by_; mr_resolved_at := Some now |}.

(** The number of rows is more than none. *)
Definition report_status_stmt (id : Uuid) (status by_ : string) : stmt bool := on_api (λ now a,
  let q := a_moderation a in
  Ok (existsb (by_report_id id) (q_reports q),
      set_moderation (set_reports ((λ x, if by_report_id id x
        then with_report_status status by_ now x else x) <$> q_reports q) q) a)).

Definition set_report_status (id : Uuid) (status by_ : string) : st Db (result bool db_error) :=
  exec (report_status_stmt id status by_).

Record NewAction : Type := {
  na_report_id : option Uuid;
  na_action_type : string;
  na_target_type : string;
  na_target_id : string;
  na_operator_id : string;
  na_reason : string;
  na_metadata : json_value
}.

Definition action_row (id : Uuid) (now : DateTime) (a : NewAction) : ActionRec := {|
  ma_id := id; ma_report_id := na_report_id a; ma_action_type := na_action_type a;
  ma_target_type := na_target_type a; ma_target_id := na_target_id a;
  ma_operator_id := na_operator_id a; ma_reason := na_reason a; ma_metadata := na_metadata a;
  ma_created_at := now |}.

Definition append_action_stmt (x : NewAction) : stmt Uuid := on_api (λ now a,
  let '(id, a) := take_uuid a in
  let q := a_moderation a in
  if existsb (λ y, String.eqb (ma_id y) id) (q_actions q)
  then Err (violates "mm_moderation_actions_pkey")
  else Ok (id, set_moderation (set_actions (q_actions q ++ [action_row id now x]) q) a)).

Definition append_action (x : NewAction) : st Db (result Uuid db_error) :=
  exec (append_action_stmt x).

Definition actions_where (p : ActionRec → bool) (t : Tables) : list ActionRec :=
  order_desc ma_created_at (List.filter p (q_actions (moderation_of t))).

Definition list_actions_for_target (target_type target_id : string) (lim : Z) :
    st Db (result (list ActionRec) db_error) :=
  exec (reading (λ t, limit lim (actions_where (λ a,
    String.eqb (ma_target_type a) target_type && String.eqb (ma_target_id a) target_id) t))).

Definition list_actions_for_report (report_id : Uuid) : st Db (result (list ActionRec) db_error) :=
  exec (reading (λ t, actions_where (λ a, bool_decide (ma_report_id a = Some report_id)) t)).

(** The upsert: every column is the new one in both branches. *)
Definition user_suspended_stmt (user : string) (suspended : bool) (by_ reason : string) : stmt () :=
  on_api (λ now a,
  let q := a_moderation a in
  Ok ((), set_moderation (set_users (<[user := {| um_suspended := suspended;
    um_suspended_at := if suspended then Some now else None; um_suspended_by := Some by_;
    um_reason := Some reason |}]> (q_users q)) q) a)).

Definition set_user_suspended (user : string) (suspended : bool) (by_ reason : string) :
    st Db (result () db_error) := exec (user_suspended_stmt user suspended by_ reason).

Definition get_user_moderation (user : string) :
    st Db (result (option UserModerationRec) db_error) :=
  exec (reading (λ t, q_users (moderation_of t) !! user)).

(** ** The handlers *)
(** [SignupRateLimiter::allow] answered with Ok. *)
Class ReportLimiter (N : Type) : Type := { report_allowed : string → st N bool }.

Record ReportRequest : Type := {
  rp_target_type : string;
  rp_target_id : string;
  rp_reason : string;
  rp_details : option string
}.

Definition MM_REPORT_TARGETS : list string := ["stream"; "recording"; "user"].
Definition REPORT_STATUSES : list string := ["open"; "actioned"; "dismissed"].

Record ModerationConfig : Type := {
  mg_homeserver_url : string;
  mg_server_name : string;
  mg_synapse_admin_token : string
}.

Definition invalid {A} (m : string) : result A MMError.t :=
  Err (MMError.api ErrorCode.InvalidRequest m).

(** A query of the moderation tables that failed. *)
Definition mod_err {A} (what : string) (r : result A db_error) : result A MMError.t :=
  map_err (λ e, MMError.Internal (what +:+ ": " +:+ dbe_message e)) r.

Definition mod_db {A N} (what : string) (m : st Db (result A db_error)) :
    st (Db * N) (result A MMError.t) :=
  let! r := on_db m in st_ret (mod_err what r).

Definition mm_report (reporter : string) (req : ReportRequest) : NewReport := {|
  nw_source := "mm"; nw_target_type := rp_target_type req; nw_target_id := rp_target_id req;
  nw_room_id := None;
  nw_reported_user_id := if String.eqb (rp_target_type req) "user"
                         then Some (rp_target_id req) else None;
  nw_reporter_id := Some reporter; nw_reason := rp_reason req; nw_details := rp_details req;
  nw_synapse_report_id := None |}.

Record SynapseEventReport : Type := {
  se_id : Z;
  se_room_id : option string;
  se_event_id : option string;
  se_user_id : option string;
  se_sender : option string;
  se_reason : option string
}.

Definition event_report_of (v : json_value) : option SynapseEventReport :=
  struct 6 (λ s,
    i ← dflt 0 as_i64 s 0 "id";
    r ← opt_default as_str s 1 "room_id";
    e ← opt_default as_str s 2 "event_id";
    u ← opt_default as_str s 3 "user_id";
    d ← opt_default as_str s 4 "sender";
    w ← opt_default as_str s 5 "reason";
    Some {| se_id := i; se_room_id := r; se_event_id := e; se_user_id := u; se_sender := d;
            se_reason := w |}) v.

(** The reports of a page; its next_token must be a number or null, and is dropped. *)
Definition event_reports_of (v : json_value) : option (list SynapseEventReport) :=
  struct 2 (λ s,
    l ← dflt [] (dec_list event_report_of) s 0 "event_reports";
    _ ← opt_default as_i64 s 1 "next_token";
    Some l) v.

Definition matrix_report (r : SynapseEventReport) : NewReport := {|
  nw_source := "matrix"; nw_target_type := "event"; nw_target_id := default "" (se_event_id r);
  nw_room_id := se_room_id r; nw_reported_user_id := se_sender r;
  nw_reporter_id := se_user_id r; nw_reason := default "(none)" (se_reason r);
  nw_details := None; nw_synapse_report_id := Some (se_id r) |}.

Record ApplyActionRequest : Type := {
  aq_action_type : string;
  aq_target_type : string;
  aq_target_id : string;
  aq_report_id : option Uuid;
  aq_reason : string
}.

Definition clamp_to (lo hi x : Z) : Z := Z.max lo (Z.min hi x).

Definition unless_empty (o : option string) : option string :=
  match o with Some s => if is_empty_str s then None else Some s | None => None end.

Definition require_operator (admin : AdminAuth) : result () MMError.t := require_admin admin.

(** A check before the rest of a handler. *)
Definition after {S A B} (r : result A MMError.t) (k : A → st S (result B MMError.t)) :
    st S (result B MMError.t) := match r with Ok a => k a | Err e => st_ret (Err e) end.

Section moderation.
Context {N : Type} `{Http N, Clock N, Sfu N, EndSwitch N, RecordingServices N, ReportLimiter N}.
Variable url_encode : string → string.
Variable cfg : ModerationConfig.
Variable ctx : EndContext.
Abbreviation World := (Db * N)%type.

(** [POST /moderation/report]: the id of the new report. *)
Definition submit_report (reporter : string) (req : ReportRequest) :
    st World (result (option Uuid) MMError.t) :=
  if negb (mem (rp_target_type req) MM_REPORT_TARGETS) then st_ret (invalid "invalid target_type")
  else if is_empty_str (trim (rp_reason req)) then st_ret (invalid "reason required")
  else
  let! allowed := on_services (report_allowed reporter) in
  if negb allowed then st_ret (Err (MMError.api ErrorCode.RateLimited "too many reports"))
  else mod_db "insert_report" (insert_report (mm_report reporter req)).

(** *** Synapse's administration API *)
Definition synapse : result (string * string) MMError.t :=
  if is_empty_str (mg_synapse_admin_token cfg)
  then Err (MMError.api ErrorCode.Internal "MM_SYNAPSE_ADMIN_TOKEN not configured")
  else Ok (mg_homeserver_url cfg, mg_synapse_admin_token cfg).

Definition synapse_request (method path : string) (body : option json_value)
    (access : string * string) : HttpRequest := {|
  rq_method := method; rq_url := access.1 +:+ "/_synapse/admin/" +:+ path;
  rq_bearer := Some access.2; rq_query := []; rq_json := body; rq_timeout_secs := None |}.

(** The error text of an answer that is no success. *)
Definition synapse_failed (what : string) (resp : HttpResponse) : MMError.t :=
  MMError.Internal (what +:+ " " +:+ status_text (rs_status resp) +:+ ": " +:+
    default "unknown" (match rs_json resp with Ok v => get_str "error" v | Err _ => None end)).

(** One call, whose answer must be a success. *)
Definition synapse_call (requested failed method path : string) (body : option json_value) :
    st N (result HttpResponse MMError.t) :=
  after synapse (λ access,
  let! r := http_send (synapse_request method path body access) in
  st_ret (match r with
  | Err e => Err (MMError.Internal (requested +:+ " request failed: " +:+ e))
  | Ok resp => if negb (is_success (rs_status resp)) then Err (synapse_failed failed resp)
               else Ok resp
  end)).

Definition synapse_set_suspended (user : string) (suspend : bool) : st N (result () MMError.t) :=
  let? _ := synapse_call "Synapse suspend" "Synapse suspend failed" "PUT"
              ("v1/suspend/" +:+ url_encode user)
              (Some (JObj [("suspend", JBool suspend)])) in
  st_ret (Ok ()).

Definition fetch_event_reports (lim : Z) : st N (result (list SynapseEventReport) MMError.t) :=
  let? resp := synapse_call "Synapse event_reports" "Synapse event_reports failed" "GET"
                 ("v1/event_reports?dir=f&limit=" +:+ pretty lim) None in
  st_ret (match rs_json resp with
  | Err e => Err (MMError.Internal ("Synapse event_reports parse failed: " +:+ e))
  | Ok v => match event_reports_of v with
            | Some l => Ok l
            | None => Err (MMError.Internal
                             ("Synapse event_reports parse failed: " +:+ shape_error v))
            end
  end).

Definition operator_id (admin : AdminAuth) : string :=
  default ("@operator:" +:+ mg_server_name cfg) (aa_user_id admin).

(** *** What an action does *)
Definition actuate_force_stop_stream (id : string) : st World (result (list string) MMError.t) :=
  let? row := on_db (MoneyDb.get_stream id) in
  match row with
  | None => st_ret (Err (MMError.api ErrorCode.NotFound "stream not found"))
  | Some row =>
      let? outcome := end_and_finalise_stream url_encode ctx (id, row) Withhold in
      st_ret (Ok (eo_withheld_recordings outcome))
  end.

Definition actuate_delete_recording (id : string) : st World (result () MMError.t) :=
  let? r := on_db (StreamsDb.get_recording id) in
  match r with
  | None => st_ret recording_not_found
  | Some r =>
      if String.eqb (rec_status r) (RecordingStatus.as_str RecordingStatus.Deleted)
      then st_ret recording_not_found
      else
      let! _ := delete_recording_storage r in
      on_db (update_recording_status (rec_id r) RecordingStatus.Deleted)
  end.

Definition actuate_deactivate_user (user : string) : st N (result () MMError.t) :=
  let? _ := synapse_call "Synapse deactivate" "Synapse deactivation failed" "POST"
              ("v1/deactivate/" +:+ url_encode user) (Some (JObj [("erase", JBool true)])) in
  st_ret (Ok ()).

Definition hide (id : string) (hidden : bool) : st World (result () MMError.t) :=
  let! now := on_services utc_now in
  let? _ := on_db (set_recording_hidden id hidden now) in st_ret (Ok ()).

Definition suspend (op : string) (req : ApplyActionRequest) (suspended : bool) :
    st World (result () MMError.t) :=
  let? _ := on_services (synapse_set_suspended (aq_target_id req) suspended) in
  mod_db "set_user_suspended" (set_user_suspended (aq_target_id req) suspended op (aq_reason req)).

(** The metadata of the audit row. *)
Definition take_action (op : string) (req : ApplyActionRequest) :
    st World (result json_value MMError.t) :=
  let plain (m : st World (result () MMError.t)) := let? _ := m in st_ret (Ok (JObj [])) in
  let ty := aq_action_type req in
  if String.eqb ty "force_stop_stream" then
    let? withheld := actuate_force_stop_stream (aq_target_id req) in
    st_ret (Ok (JObj [("withheld_recordings", JArr (JStr <$> withheld))]))
  else if String.eqb ty "hide_recording" then plain (hide (aq_target_id req) true)
  else if String.eqb ty "unhide_recording" then plain (hide (aq_target_id req) false)
  else if String.eqb ty "delete_recording" then plain (actuate_delete_recording (aq_target_id req))
  else if String.eqb ty "suspend_user" then plain (suspend op req true)
  else if String.eqb ty "unsuspend_user" then plain (suspend op req false)
  else if String.eqb ty "deactivate_user" then
    let? _ := on_services (actuate_deactivate_user (aq_target_id req)) in
    st_ret (Ok (JObj [("erase", JBool true)]))
  else st_ret (invalid "unknown action").

Definition audit_of (op : string) (req : ApplyActionRequest) (metadata : json_value) : NewAction := {|
  na_report_id := aq_report_id req; na_action_type := aq_action_type req;
  na_target_type := aq_target_type req; na_target_id := aq_target_id req; na_operator_id := op;
  na_reason := aq_reason req; na_metadata := metadata |}.

(** [POST /moderation/actions]. *)
Definition apply_action (admin : AdminAuth) (req : ApplyActionRequest) :
    st World (result () MMError.t) :=
  after (require_operator admin) (λ _,
  if is_empty_str (trim (aq_reason req)) then st_ret (invalid "reason required")
  else
  let op := operator_id admin in
  let? metadata := take_action op req in
  let? _ := mod_db "append_action" (append_action (audit_of op req metadata)) in
  match aq_report_id req with
  | Some rid =>
      let? _ := mod_db "set_report_status" (set_report_status rid "actioned" op) in st_ret (Ok ())
  | None => st_ret (Ok ())
  end).

(** *** The queue *)
(** [GET /moderation/reports]. *)
Definition list_reports (admin : AdminAuth) (status : option string) (lim offset : option Z) :
    st World (result (list ReportRec) MMError.t) :=
  after (require_operator admin) (λ _,
  mod_db "list_reports" (list_reports_db (unless_empty status)
    (clamp_to 1 200 (default 50 lim)) (Z.max 0 (default 0 offset)))).

(** [GET /moderation/reports/{id}]. *)
Definition get_report (admin : AdminAuth) (id : Uuid) :
    st World (result (ReportRec * list ActionRec) MMError.t) :=
  after (require_operator admin) (λ _,
  let? report := mod_db "get_report" (get_report_db id) in
  match report with
  | None => st_ret (Err (MMError.api ErrorCode.NotFound "report not found"))
  | Some report =>
      let? actions := mod_db "list_actions_for_report" (list_actions_for_report id) in
      st_ret (Ok (report, actions))
  end).

Definition dismissal (id : Uuid) (op reason : string) : NewAction := {|
  na_report_id := Some id; na_action_type := "dismiss_report"; na_target_type := "report";
  na_target_id := id; na_operator_id := op; na_reason := reason; na_metadata := JObj [] |}.

(** [PUT /moderation/reports/{id}/status]. *)
Definition update_status (admin : AdminAuth) (id : Uuid) (status reason : string) :
    st World (result () MMError.t) :=
  after (require_operator admin) (λ _,
  if negb (mem status REPORT_STATUSES) then st_ret (invalid "invalid status")
  else
  let op := operator_id admin in
  let? updated := mod_db "set_report_status" (set_report_status id status op) in
  if negb updated then st_ret (Err (MMError.api ErrorCode.NotFound "report not found"))
  else if String.eqb status "dismissed" then
    let? _ := mod_db "append_action" (append_action (dismissal id op reason)) in st_ret (Ok ())
  else st_ret (Ok ())).

Fixpoint store_reports (inserted : Z) (l : list SynapseEventReport) :
    st World (result Z MMError.t) :=
  match l with
  | [] => st_ret (Ok inserted)
  | r :: l' =>
      let? id := mod_db "insert_report" (insert_report (matrix_report r)) in
      store_reports (match id with Some _ => inserted + 1 | None => inserted end) l'
  end.

Definition run_sync : st World (result Z MMError.t) :=
  let? reports := on_services (fetch_event_reports 100) in store_reports 0 reports.

(** [POST /moderation/reports/sync]. *)
Definition sync_reports (admin : AdminAuth) : st World (result Z MMError.t) :=
  after (require_operator admin) (λ _, run_sync).

(** A tick of the loop in the server. *)
Definition sync_tick : st World () :=
  if is_empty_str (mg_synapse_admin_token cfg) then st_ret ()
  else let! _ := run_sync in st_ret ().

(** [GET /moderation/audit]. *)
Definition list_audit (admin : AdminAuth) (target_type target_id : string) (lim : option Z) :
    st World (result (list ActionRec) MMError.t) :=
  after (require_operator admin) (λ _,
  mod_db "list_actions_for_target"
    (list_actions_for_target target_type target_id (clamp_to 1 500 (default 100 lim)))).

(** [GET /moderation/users/{user_id}]. *)
Definition user_status (admin : AdminAuth) (user : string) :
    st World (result (option UserModerationRec * list ActionRec) MMError.t) :=
  after (require_operator admin) (λ _,
  let? moderation := mod_db "get_user_moderation" (get_user_moderation user) in
  let? actions := mod_db "list_actions_for_target" (list_actions_for_target "user" user 100) in
  st_ret (Ok (moderation, actions))).
End moderation.
