(* ===== verification/AdminApi.v ===== *)
(** * AdminApi: the operator's dashboard

    [mm-api/src/admin.rs], the endpoints over streams, recordings, money and the accounts of
    the homeserver. The demo role may read the statistics and nothing else here. The
    advertising endpoints are in [AdsAdmin], logins in [Auth]; chrono is a parameter. *)
From S2P Require Import Prelude ApiSchema Json Schema Errors Text MatrixClient MatrixEvents.
From S2P Require Import MoneyDb StreamsDb Donations StreamLifecycle StreamsApi RecordingsApi Auth.
From S2P Require Import Moderation.
Local Open Scope Z_scope.
Local Open Scope mm_scope.

(** ** Money *)
Definition DONATION_STATUSES : list string := ["pending"; "succeeded"; "failed"; "refunded"].

(** The cast of a text to uuid. *)
Definition bad_uuid : db_error := refused "invalid input syntax for type uuid".

Definition donation_status_stmt (id : option Uuid) (status : string) : stmt () := on_api (λ _ a,
  match id with
  | None => Err bad_uuid
  | Some id => Ok ((), set_donations ((λ d, if String.eqb (dn_id d) id
                 then with_status status None d else d) <$> a_donations a) a)
  end).

(** Whether a row was deleted. *)
Definition remove_gate_stmt (id : option Uuid) : stmt bool := on_api (λ _ a,
  match id with
  | None => Err bad_uuid
  | Some id =>
      Ok (bool_decide (map_Exists (λ _ g, cg_id g = id) (a_gates a)),
          set_gates (filter (λ kg, cg_id kg.2 ≠ id) (a_gates a)) a)
  end).

Definition onboarding_stmt (user : string) (complete : bool) : stmt () := on_api (λ now a,
  Ok ((), set_profiles (alter (with_onboarding complete now) user (a_profiles a)) a)).

Definition classify_donation_provider (session_id : option string) : string :=
  match session_id with
  | Some s => if starts_with "cs_" s then "stripe" else "lightning"
  | None => "stripe"
  end.

(** [GET /stats], [GET /streams] *)
Record StatsResponse : Type := {
  ss_active_streams : Z;
  ss_active_participants : Z;
  ss_uptime_seconds : Z
}.

Definition ADMIN_DEFAULT_LIMIT : Z := 100.
Definition ADMIN_MAX_LIMIT : Z := 500.

Record SynapseUserBody : Type := {
  su_password : option string;
  su_displayname : option string;
  su_admin : option bool
}.

Definition user_payload (b : SynapseUserBody) : json_value := to_object [
  ("password", JStr <$> su_password b); ("displayname", JStr <$> su_displayname b);
  ("admin", JBool <$> su_admin b)].

Section dashboard.
Context {N : Type} `{Http N, Clock N, Sfu N, EndSwitch N, RecordingServices N}.
Variable url_encode : string → string.
Variable parse_uuid : string → option Uuid.
Variable to_rfc3339 : DateTime → string.
Variable parse_utc : string → option DateTime.
(** The instant a number of days before another, printed. *)
Variable days_before : DateTime → Z → string.
Variable cfg : ModerationConfig.
Variable ctx : EndContext.
Variable has_pg_pool : bool.
Variable started_at : Z.
Variable retention_days : Z.
Abbreviation World := (Db * N)%type.

Definition stats : st World (result StatsResponse MMError.t) :=
  let? streams := on_db (list_all_active_streams 1000) in
  let! now := on_services instant_now in
  st_ret (Ok {| ss_active_streams := Z.of_nat (length streams);
    ss_active_participants := sumZ ((λ s, sr_participant_count s.2) <$> streams) mod 2 ^ 64;
    ss_uptime_seconds := Z.max 0 (now - started_at) / 1000000000 |}).

Definition opt_text (o : option string) : json_value :=
  match o with Some s => JStr s | None => JNull end.

Definition stream_item (s : StreamsDb.Stream) : json_value := JObj [
  ("stream_id", JStr s.1); ("room_id", JStr (fmt_i64 (sr_room_id s.2)));
  ("host", JStr (sr_host_user_id s.2)); ("media_type", JStr (sr_media_type s.2));
  ("title", opt_text (sr_title s.2)); ("status", JStr (sr_status s.2));
  ("participant_count", jint (sr_participant_count s.2));
  ("started_at", JStr (to_rfc3339 (sr_started_at s.2)));
  ("ended_at", opt_text (to_rfc3339 <$> sr_ended_at s.2))].

Definition list_streams (admin : AdminAuth) : st World (result (list json_value) MMError.t) :=
  after (require_admin admin) (λ _,
  let? streams := on_db (list_all_active_streams 100) in
  st_ret (Ok (stream_item <$> streams))).

(** [DELETE /streams/{id}]: the recordings that were withheld. *)
Definition force_stop_stream (admin : AdminAuth) (id : string) :
    st World (result (list string) MMError.t) :=
  after (require_admin admin) (λ _,
  let? row := on_db (MoneyDb.get_stream id) in
  match row with
  | None => st_ret (Err (MMError.api ErrorCode.NotFound "stream not found"))
  | Some row =>
      let? outcome := end_and_finalise_stream url_encode ctx (id, row) Withhold in
      st_ret (Ok (eo_withheld_recordings outcome))
  end).

(** ** Recordings *)
Definition admin_list_recordings (admin : AdminAuth) (status : option string) (lim : option Z) :
    st World (result (list RecordingResponse) MMError.t) :=
  after (require_admin admin) (λ _,
  let? rows := on_db (list_all_recordings
    (clamp_to 1 ADMIN_MAX_LIMIT (default ADMIN_DEFAULT_LIMIT lim)) (unless_empty status)) in
  st_ret (Ok ((λ r, from_recording to_rfc3339 r "") <$> rows))).

Definition admin_delete_recording (admin : AdminAuth) (id : string) :
    st World (result () MMError.t) :=
  after (require_admin admin) (λ _,
  let? r := on_db (StreamsDb.get_recording id) in
  match r with
  | None => st_ret recording_not_found
  | Some r =>
      if String.eqb (rec_status r) (RecordingStatus.as_str RecordingStatus.Deleted)
      then st_ret recording_not_found
      else
      let! _ := delete_recording_storage r in
      on_db (update_recording_status (rec_id r) RecordingStatus.Deleted)
  end).

(** One expired recording; a failed update is passed over. *)
Definition cleanup_recording (deleted : Z) (r : RecordingRec) : st World Z :=
  let! _ := delete_recording_storage r in
  let! u := on_db (update_recording_status (rec_id r) RecordingStatus.Deleted) in
  st_ret (match u with Ok _ => deleted + 1 | Err _ => deleted end).

(** [POST /recordings/cleanup]: how many were deleted. *)
Definition admin_cleanup_recordings (admin : AdminAuth) : st World (result Z MMError.t) :=
  after (require_admin admin) (λ _,
  if retention_days =? 0 then st_ret (Ok 0)
  else
  let! now := on_services utc_now in
  let? rows := on_db (recordings_older_than parse_utc (days_before now retention_days)) in
  let! deleted := st_fold cleanup_recording rows 0 in
  st_ret (Ok deleted)).

(** ** Donations, gates and creators *)
Definition money_pool (admin : AdminAuth) : result () MMError.t :=
  match require_admin admin with
  | Err e => Err e
  | Ok _ => if has_pg_pool then Ok ()
            else Err (MMError.api ErrorCode.MonetizationDisabled "Monetization not enabled")
  end.

Definition admin_update_donation_status (admin : AdminAuth) (id status : string) :
    st Db (result () MMError.t) :=
  after (money_pool admin) (λ _,
  if negb (mem status DONATION_STATUSES)
  then st_ret (Err (MMError.api ErrorCode.InvalidAmount
    "Invalid status. Must be one of: pending, succeeded, failed, refunded"))
  else asking (donation_status_stmt (parse_uuid id) status)).

Definition admin_remove_content_gate (admin : AdminAuth) (id : string) :
    st Db (result () MMError.t) :=
  after (money_pool admin) (λ _,
  let? removed := asking (remove_gate_stmt (parse_uuid id)) in
  st_ret (if negb removed then Err (MMError.api ErrorCode.NotFound "content gate not found")
          else Ok ())).

Definition admin_set_onboarding (admin : AdminAuth) (user : string) (complete : bool) :
    st Db (result () MMError.t) :=
  after (money_pool admin) (λ _, asking (onboarding_stmt user complete)).

(** ** Accounts of the homeserver *)
(** An answer whose body must be JSON even when it is an error. *)
Definition synapse_proxied (resp : HttpResponse) : result json_value MMError.t :=
  match rs_json resp with
  | Err e => Err (MMError.Internal ("Synapse response parse failed: " +:+ e))
  | Ok v => if negb (is_success (rs_status resp)) then Err (synapse_failed "Synapse returned" resp)
            else Ok v
  end.

Definition synapse_send (method path : string) (body : option json_value) :
    st N (result HttpResponse MMError.t) :=
  after (synapse cfg) (λ access,
  let! r := http_send (synapse_request method path body access) in
  st_ret (map_err (λ e, MMError.Internal ("Synapse request failed: " +:+ e)) r)).

Definition synapse_list_users (admin : AdminAuth) (lim : option string) :
    st N (result json_value MMError.t) :=
  after (require_admin admin) (λ _,
  let? resp := synapse_send "GET"
    ("v2/users?limit=" +:+ pretty (default 200 (lim ≫= parse_u32))) None in
  st_ret (synapse_proxied resp)).

Definition synapse_upsert_user (admin : AdminAuth) (user : string) (body : SynapseUserBody) :
    st N (result json_value MMError.t) :=
  after (require_admin admin) (λ _,
  let? resp := synapse_send "PUT" ("v2/users/" +:+ url_encode user) (Some (user_payload body)) in
  st_ret (synapse_proxied resp)).

(** A body that is no JSON counts as an acknowledgement. *)
Definition synapse_deactivate_user (admin : AdminAuth) (user : string) :
    st N (result json_value MMError.t) :=
  after (require_admin admin) (λ _,
  let? resp := synapse_send "POST" ("v1/deactivate/" +:+ url_encode user)
                 (Some (JObj [("erase", JBool true)])) in
  st_ret (if negb (is_success (rs_status resp))
          then Err (synapse_failed "Synapse deactivation failed" resp)
          else Ok (match rs_json resp with Ok v => v | Err _ => JObj [("ok", JBool true)] end))).
End dashboard.
