(* ===== verification/ModerationHistory.v ===== *)
(** * ModerationHistory: what a takedown is worth

    Every history of the requests of users, operators and background tasks over one
    database, whatever statements are lost and whatever the homeserver, the SFU and the
    switch answer. *)
From S2P Require Import LadderDb SwitchPool Census.
From S2P Require Import Prelude ApiSchema Json Schema Errors Text MatrixClient MatrixEvents.
From S2P Require Import Guards MoneyDb StreamsDb Donations Entitlement TierGate Feed Rooms.
From S2P Require Import StreamLifecycle StreamsApi RecordingsApi StreamsHistory RecordingsHistory.
From S2P Require Import Auth Moderation AdminApi.
Local Open Scope Z_scope.
Local Open Scope mm_scope.

(** ** What lasts *)
Definition recordings_of (t : Tables) : list RecordingRec := m_recordings (media_of t).

(** The recording exists and is hidden. *)
Definition withheld (id : string) (t : Tables) : Prop :=
  (∃ r, r ∈ recordings_of t ∧ rec_id r = id) ∧
  ∀ r, r ∈ recordings_of t → rec_id r = id → rec_hidden r = true.

(** The reports fetched from Synapse are there once each. *)
Definition synapse_key (x : ReportRec) : option (string * Z) :=
  (λ sid, (mr_source x, sid)) <$> mr_synapse_report_id x.

Definition synced_once (q : ModerationTables) : Prop := NoDup (omap synapse_key (q_reports q)).

Section lasting.
(** The users and the recordings whose takedown nobody lifts. *)
Variables users recs : string → Prop.

Record lasts (t t' : Tables) : Prop := {
  la_users u : users u → suspended_in u (t_api t) = true → suspended_in u (t_api t') = true;
  la_recs id : recs id → withheld id t → withheld id t';
  la_actions : q_actions (moderation_of t) `prefix_of` q_actions (moderation_of t');
  la_reports : (mr_id <$> q_reports (moderation_of t)) `prefix_of`
               (mr_id <$> q_reports (moderation_of t'));
  la_synced : synced_once (moderation_of t) → synced_once (moderation_of t')
}.

#[export] Instance lasts_preorder : PreOrder lasts.
Proof.
  split; [by split|]. intros a b c [H1 H2 H3 H4 H5] [G1 G2 G3 G4 G5]. split; [auto..| | |auto]; by etrans.
Qed.

#[export] Instance lasts_media_rel : MediaRel lasts.
Proof.
  split; [apply _|]. intros t t' [_ Hr Hm]. unfold moderation_of, suspended_in.
  split; unfold moderation_of, suspended_in; rewrite ?Hm; [done| |done..].
  intros id _ [(r & Hin & Hid) Hall]. unfold recordings_of in *. split.
  - apply list_elem_of_lookup in Hin as [i Hi].
    destruct (Forall2_lookup_l _ _ _ _ _ Hr Hi) as (b & Hb & E & _).
    exists b. split; [by eapply list_elem_of_lookup_2|]. by rewrite E.
  - intros b Hb Hbid. apply list_elem_of_lookup in Hb as [i Hi].
    destruct (Forall2_lookup_r _ _ _ _ _ Hr Hi) as (a & Ha & E & _ & _ & _ & _ & Hh).
    apply Hh, Hall; [by eapply list_elem_of_lookup_2|]. by rewrite <-E.
Qed.

(** A statement on the other tables of the API. *)
Lemma lasts_beside {A} (f : DateTime → ApiTables → result (A * ApiTables) db_error) :
  (∀ now a x a', f now a = Ok (x, a') → a_media a' = a_media a ∧ a_moderation a' = a_moderation a) →
  stmt_rel lasts (on_api f).
Proof.
  intros Hf now t x t'. unfold on_api. destruct (f now (t_api t)) as [[y a']|e] eqn:E; [|done].
  intros [= _ <-]. apply Hf in E as [E1 E2].
  apply beside_media_rows; [apply _|done| |done]. unfold media_of. by rewrite <-E1.
Qed.

(** The moderation tables change, and nothing else. *)
Lemma lasts_moderation t api :
  a_media api = a_media (t_api t) →
  (∀ u, users u → suspended_in u (t_api t) = true → suspended_in u api = true) →
  q_actions (moderation_of t) `prefix_of` q_actions (a_moderation api) →
  (mr_id <$> q_reports (moderation_of t)) `prefix_of` (mr_id <$> q_reports (a_moderation api)) →
  (synced_once (moderation_of t) → synced_once (a_moderation api)) →
  lasts t (set_api api t).
Proof.
  intros Hm Hu Ha Hr Hs. split; [done| |done..]. intros id _. unfold withheld, recordings_of, media_of.
  cbn. by rewrite Hm.
Qed.

Lemma new_report_once id now r q :
  already_synced r (q_reports q) = false → synced_once q →
  synced_once (set_reports (q_reports q ++ [report_row id now r]) q).
Proof.
  intros Hn Hq. unfold synced_once in *. cbn. rewrite omap_app. cbn. change (synapse_key (report_row id now r))
    with ((λ sid, (nw_source r, sid)) <$> nw_synapse_report_id r).
  unfold already_synced in Hn. destruct (nw_synapse_report_id r) as [sid|]; cbn;
    [|by rewrite app_nil_r].
  apply NoDup_app. split; [done|]. split; [|apply NoDup_singleton].
  intros k Hk Hk'. apply list_elem_of_singleton in Hk'. subst k.
  apply list_elem_of_omap in Hk as (x & Hx & Hkey). apply not_true_iff_false in Hn. destruct Hn.
  apply existsb_exists. exists x. split; [by apply list_elem_of_In|]. unfold synapse_key in Hkey.
  destruct (mr_synapse_report_id x) as [i|] eqn:Ei; [|done]. injection Hkey as Hsrc ->.
  unfold same_synapse. by rewrite Hsrc, String.eqb_refl, Ei, bool_decide_true.
Qed.

Lemma lasts_insert_report r : stmt_rel lasts (insert_report_stmt r).
Proof.
  intros now t x t'. unfold insert_report_stmt, on_api, take_uuid.
  cbn [a_moderation]. destruct (already_synced _ _) eqn:Es; [|destruct (existsb _ _); [done|]];
    intros [= _ <-]; apply lasts_moderation; try done.
  - cbn. rewrite fmap_app. by eexists.
  - apply (new_report_once _ _ _ _ Es).
Qed.

Lemma lasts_report_status id status op : stmt_rel lasts (report_status_stmt id status op).
Proof.
  intros now t x t' [= _ <-]. apply lasts_moderation; try done. cbn.
  - rewrite <-list_fmap_compose. apply reflexive_eq, list_fmap_ext. intros _ y _. cbn.
    by destruct (by_report_id id y).
  - unfold synced_once. cbn. intros Hq. unfold synced_once in Hq. erewrite list_omap_ext; [exact Hq|].
    apply Forall2_fmap_l, Forall_Forall2_diag, Forall_forall. intros y _. cbn beta.
    change (synapse_key (if by_report_id id y then with_report_status status op now y else y) =
      synapse_key y). by destruct (by_report_id id y).
Qed.

Lemma lasts_append x : stmt_rel lasts (append_action_stmt x).
Proof.
  intros now t y t'. unfold append_action_stmt, on_api, take_uuid. cbn [a_moderation].
  destruct (existsb _ _); [done|]. intros [= _ <-]. apply lasts_moderation; try done. cbn. by eexists.
Qed.

Lemma lasts_suspension u b op reason :
  (b = false → ¬ users u) → stmt_rel lasts (user_suspended_stmt u b op reason).
Proof.
  intros Hb now t y t' [= _ <-]. apply lasts_moderation; try done. intros v Hv. unfold suspended_in.
  cbn. destruct (String.string_dec u v) as [->|Hne]; [|by rewrite lookup_insert_ne].
  rewrite lookup_insert_eq. cbn. destruct b; [done|]. by destruct (Hb eq_refl).
Qed.

Lemma lasts_hidden id (b : bool) now :
  (b = false → ¬ recs id) → st_rel (on_tables lasts) (set_recording_hidden id b now).
Proof.
  intros Hb. unfold set_recording_hidden. st_steps. apply st_rel_asking; [apply _|].
  intros n t x t' [= _ <-]. split; [done| |done..]. intros v Hv [(r & Hin & Hid) Hall].
  unfold withheld, recordings_of. cbn. split.
  - eexists. split; [apply list_elem_of_fmap_2, Hin|]. by destruct (by_id id r).
  - intros y Hy. apply list_elem_of_fmap in Hy as (z & -> & Hz). intros Hyv.
    destruct (by_id id z) eqn:E; cbn in *; [|by apply Hall].
    unfold by_id in E. apply String.eqb_eq in E. destruct b; [done|].
    destruct (Hb eq_refl). by rewrite <-E, Hyv.
Qed.

Lemma lasts_insert_recording row id rid mt path mime title egress :
  stmt_rel lasts (insert_started row id rid mt path mime title egress).
Proof.
  intros now t x t'. unfold insert_started, insert_recording, on_media, on_api. cbn [rec_status rec_id].
  destruct (negb _); [done|]. destruct (existsb (by_id rid) _) eqn:E; [done|].
  intros [= _ <-]. split; [done| |done..]. intros v Hv [(r & Hin & Hid) Hall].
  unfold withheld, recordings_of. cbn. split; [exists r; split; [by apply elem_of_app; left|done]|].
  intros y Hy Hyv. apply elem_of_app in Hy as [Hy|Hy]; [by apply Hall|].
  apply list_elem_of_singleton in Hy. subst y. cbn in Hyv.
  apply not_true_iff_false in E. destruct E. apply existsb_exists. exists r.
  split; [by apply list_elem_of_In|]. unfold by_id. rewrite Hid, Hyv. apply String.eqb_refl.
Qed.
End lasting.

(** ** Requests *)
Inductive operator_request : Type :=
  | MediaRequest (r : media_request)
  | SubmitReport (reporter : string) (req : ReportRequest)
  | ApplyAction (admin : AdminAuth) (req : ApplyActionRequest)
  | SetReportStatus (admin : AdminAuth) (id : Uuid) (status reason : string)
  | SyncReports (admin : AdminAuth)
  | SyncTick
  | ForceStop (admin : AdminAuth) (id : string)
  | AdminDeleteRecording (admin : AdminAuth) (id : string)
  | CleanupRecordings (admin : AdminAuth)
  | SetDonationStatus (admin : AdminAuth) (id status : string)
  | RemoveGate (admin : AdminAuth) (id : string)
  | SetOnboarding (admin : AdminAuth) (user : string) (complete : bool).

(** A request that lifts a takedown: an operator's, with a reason. *)
Definition lifts (users recs : string → Prop) (r : operator_request) : Prop :=
  match r with
  | ApplyAction admin req =>
      aa_role admin = AdminRole_Admin ∧ is_empty_str (trim (aq_reason req)) = false ∧
      (aq_action_type req = "unsuspend_user" ∧ users (aq_target_id req) ∨
       aq_action_type req = "unhide_recording" ∧ recs (aq_target_id req))
  | _ => False
  end.

Lemma after_rel {S A B} (R : S → S → Prop) `{!PreOrder R} (r : result A MMError.t)
    (k : A → st S (result B MMError.t)) :
  (∀ a, r = Ok a → st_rel R (k a)) → st_rel R (after r k).
Proof. intros Hk. destruct r; cbn; [by apply Hk|]. by apply st_rel_ret. Qed.

Lemma mod_db_rel {A N} (R : Tables → Tables → Prop) `{!PreOrder R} what
    (m : st Db (result A db_error)) :
  st_rel (on_tables R) m → st_rel (tables_move (N := N) R) (mod_db what m).
Proof.
  intros Hm. unfold mod_db. apply st_rel_bind; [apply _|by apply on_db_moves; [apply _|]|].
  intros r. apply st_rel_ret, _.
Qed.

Section handlers.
Context {N : Type} `{Http N, Clock N, Sfu N, EndSwitch N, StreamServices N, RecordingServices N,
  ReportLimiter N}.
Variable url_encode : string → string.
Variable parse_uuid : string → option Uuid.
Variable parse_utc : string → option DateTime.
Variable days_before : DateTime → Z → string.
Variable mod_cfg : ModerationConfig.
Variable ctx : EndContext.
Variable has_pg_pool : bool.
Variable retention_days : Z.
Variables users recs : string → Prop.

Abbreviation World := (Db * N)%type.
Abbreviation LR := (lasts users recs).

Lemma start_recording_lasts has_pool has_switch me id :
  st_rel (tables_move LR) (start_recording (N := N) has_pool has_switch me id).
Proof.
  unfold start_recording, MoneyDb.get_stream, recording_refusal, LadderDb.state, LadderDb.ladder_db,
    next_segment, switch_recording, open_recording, livekit_recording, recording_min_tier,
    create_content_gate.
  repeat first [ apply on_db_moves; [apply _|]; apply st_rel_asking; [apply _|];
    apply lasts_insert_recording | rows_step ].
Qed.

Ltac last_step := first
  [ apply mod_db_rel; [apply _|]; apply st_rel_exec; [apply _|]; first
      [ apply lasts_insert_report | apply lasts_report_status | apply lasts_append
      | apply lasts_suspension; naive_solver ]
  | rows_step ].

Lemma take_action_lasts op req :
  (aq_action_type req = "unsuspend_user" → ¬ users (aq_target_id req)) →
  (aq_action_type req = "unhide_recording" → ¬ recs (aq_target_id req)) →
  st_rel (tables_move LR) (take_action (N := N) url_encode mod_cfg ctx op req).
Proof.
  intros Hu Hr. unfold take_action. repeat case_match; repeat match goal with
    | E : String.eqb _ _ = true |- _ => apply String.eqb_eq in E end;
    unfold actuate_force_stop_stream, end_and_finalise_stream, MoneyDb.get_stream, hide, suspend,
      actuate_delete_recording, StreamsDb.get_recording, delete_recording_storage,
      update_recording_status;
    repeat first [ apply end_rows; apply _
      | apply on_db_moves; [apply _|]; apply lasts_hidden; naive_solver | last_step ].
Qed.

Lemma apply_action_lasts admin req :
  ¬ lifts users recs (ApplyAction admin req) →
  st_rel (tables_move LR) (apply_action (N := N) url_encode mod_cfg ctx admin req).
Proof.
  intros Hl. unfold apply_action, require_operator, require_admin. cbn in Hl.
  destruct (aa_role admin); [cbn|by apply st_rel_ret, _].
  destruct (is_empty_str (trim (aq_reason req))); [by apply st_rel_ret, _|].
  apply st_rel_try; [apply _|apply take_action_lasts; naive_solver|]. intros meta.
  unfold append_action, set_report_status. repeat last_step.
Qed.

Lemma update_status_lasts admin id status reason :
  st_rel (tables_move LR) (update_status (N := N) mod_cfg admin id status reason).
Proof.
  unfold update_status. apply after_rel; [apply _|]. intros _ _.
  unfold set_report_status, append_action. repeat last_step.
Qed.

Lemma run_sync_lasts : st_rel (tables_move LR) (run_sync (N := N) mod_cfg).
Proof.
  unfold run_sync. apply st_rel_try; [apply _|by apply on_services_moves; apply _|].
  intros l. generalize 0. induction l as [|r l IH]; intros n; cbn [store_reports]; [by last_step|].
  unfold insert_report. repeat (apply IH || last_step).
Qed.

Lemma submit_report_lasts reporter req :
  st_rel (tables_move LR) (submit_report (N := N) reporter req).
Proof. unfold submit_report, insert_report. repeat last_step. Qed.

Lemma force_stop_lasts admin id :
  st_rel (tables_move LR) (force_stop_stream (N := N) url_encode ctx admin id).
Proof.
  unfold force_stop_stream. apply after_rel; [apply _|]. intros _ _.
  unfold end_and_finalise_stream, MoneyDb.get_stream.
  repeat first [ apply end_rows; apply _ | last_step ].
Qed.

Lemma admin_delete_lasts admin id :
  st_rel (tables_move LR) (admin_delete_recording (N := N) admin id).
Proof.
  unfold admin_delete_recording. apply after_rel; [apply _|]. intros _ _.
  unfold StreamsDb.get_recording, delete_recording_storage, update_recording_status.
  repeat last_step.
Qed.

Lemma cleanup_lasts admin :
  st_rel (tables_move LR) (admin_cleanup_recordings (N := N) parse_utc days_before retention_days
    admin).
Proof.
  unfold admin_cleanup_recordings. apply after_rel; [apply _|]. intros _ _.
  unfold recordings_older_than, cleanup_recording, delete_recording_storage,
    update_recording_status.
  repeat last_step.
Qed.

Lemma money_lasts admin :
  (∀ id status, st_rel (on_tables LR)
     (admin_update_donation_status parse_uuid has_pg_pool admin id status)) ∧
  (∀ id, st_rel (on_tables LR) (admin_remove_content_gate parse_uuid has_pg_pool admin id)) ∧
  (∀ user b, st_rel (on_tables LR) (admin_set_onboarding has_pg_pool admin user b)).
Proof.
  unfold admin_update_donation_status, admin_remove_content_gate, admin_set_onboarding.
  split_and!; intros; (apply after_rel; [apply _|]; intros _ _); repeat st_step;
    (apply st_rel_asking; [apply _|]); apply lasts_beside; intros now a x a';
    [destruct (parse_uuid id); [|done]..|]; by intros [= _ <-].
Qed.
End handlers.

(** ** What a suspension and a withheld recording mean *)
(** The next statement is executed and acknowledged. *)
Definition next_answered (db : Db) : Prop := tk_outcome (next_tick db).1 = Answered.

Lemma reading_answered {A} (f : Tables → A) db :
  next_answered db → (exec (reading f) db).1 = Ok (f (db_tables db)).
Proof. unfold next_answered, exec. destruct (next_tick db) as [k rest]. cbn. by intros ->. Qed.

Lemma refused_while_suspended {N A} u (k : st (Db * N) (result A MMError.t)) db n :
  next_answered db → suspended_in u (t_api (db_tables db)) = true →
  ((let! suspended := on_db (is_suspended u) in
    if suspended then st_ret suspended_error else k) (db, n)).1 = suspended_error.
Proof.
  intros Hdb Hu. unfold st_bind, on_db, st_fst, is_suspended, is_user_suspended, st_bind. cbn [fst snd].
  pose proof (reading_answered (λ t, suspended_in u (t_api t)) db Hdb) as Hr.
  destruct (exec _ db) as [r db']. cbn in Hr. subst r. cbn. by rewrite Hu.
Qed.

(** The check fails open: when the question is lost or not acknowledged, a suspended user is
    treated like everybody else. *)
Lemma suspension_check_fails_open u db :
  ¬ next_answered db → (is_suspended u db).1 = false.
Proof.
  unfold next_answered, is_suspended, is_user_suspended, st_bind, exec.
  destruct (next_tick db) as [k rest]. cbn. by destruct (tk_outcome k).
Qed.

Lemma withheld_not_read id db :
  withheld id (db_tables db) → ∀ r, (StreamsDb.get_recording id db).1 ≠ Ok (Some r).
Proof.
  intros [_ Hall] r E. unfold StreamsDb.get_recording in E. apply asking_reading_ok in E.
  symmetry in E. apply head_Some_elem_of in E. apply elem_of_filter_bool in E as [Hin Hr].
  apply andb_true_iff in Hr as [Hid Hh]. unfold by_id in Hid. apply String.eqb_eq in Hid.
  by rewrite (Hall r Hin Hid) in Hh.
Qed.

Lemma withheld_not_listed id db room lim before_id l r :
  withheld id (db_tables db) →
  (StreamsDb.list_room_recordings room lim before_id db).1 = Ok l → r ∈ l → rec_id r ≠ id.
Proof.
  intros [_ Hall] E Hr Hid. unfold StreamsDb.list_room_recordings in E.
  apply asking_reading_ok in E. subst l. unfold newest, limit in Hr.
  apply elem_of_take in Hr as (i & Hi & _). apply list_elem_of_lookup_2 in Hi.
  apply elem_of_order_desc, elem_of_filter_bool in Hi as [Hin Hb].
  rewrite !andb_true_iff in Hb. destruct Hb as [[[_ _] Hh] _]. by rewrite (Hall r Hin Hid) in Hh.
Qed.

(** ** What a synchronisation stores *)
Definition stored (r : SynapseEventReport) (t : Tables) : Prop :=
  ∃ x, x ∈ q_reports (moderation_of t) ∧ mr_source x = "matrix" ∧
    mr_synapse_report_id x = Some (se_id r).

Definition row_of (r : SynapseEventReport) (x : ReportRec) : Prop :=
  ∃ id now, x = report_row id now (matrix_report r).

(** Rows of the page are appended, and every report of the page is there. *)
Definition stores (page : list SynapseEventReport) (k : Z) (t t' : Tables) : Prop :=
  ∃ new, q_reports (moderation_of t') = q_reports (moderation_of t) ++ new ∧
    k = Z.of_nat (length new) ∧
    (∀ x, x ∈ new → ∃ r, r ∈ page ∧ row_of r x) ∧ ∀ r, r ∈ page → stored r t'.

Lemma insert_one r now t o t' :
  insert_report_stmt (matrix_report r) now t = Ok (o, t') →
  stores [r] (match o with Some _ => 1 | None => 0 end) t t'.
Proof.
  unfold insert_report_stmt, on_api, take_uuid. cbn [a_moderation].
  destruct (already_synced _ _) eqn:Es; [|destruct (existsb _ _); [done|]]; intros [= <- <-].
  - exists []. split; [by rewrite app_nil_r|]. split; [done|]. split; [intros x Hx; inversion Hx|].
    intros r' Hr. apply list_elem_of_singleton in Hr. subst r'. apply existsb_exists in Es as (x & Hx & Hs).
    apply andb_true_iff in Hs as [H1 H2]. apply String.eqb_eq in H1. apply bool_decide_eq_true in H2.
    exists x. split; [by apply list_elem_of_In|done].
  - eexists [_]. split; [reflexivity|]. split; [done|]. split.
    + intros x Hx. apply list_elem_of_singleton in Hx. subst x. exists r.
      split; [by left|]. by eexists _, _.
    + intros r' Hr. apply list_elem_of_singleton in Hr. subst r'. eexists.
      split; [apply elem_of_app; right; by left|done].
Qed.

Lemma stores_cons r page k k' t t1 t' :
  stores [r] k t t1 → stores page k' t1 t' → stores (r :: page) (k + k') t t'.
Proof.
  intros (n1 & E1 & -> & H1 & S1) (n2 & E2 & -> & H2 & S2). exists (n1 ++ n2).
  split; [by rewrite E2, E1, <-app_assoc|]. split; [rewrite length_app; lia|]. split.
  - intros x Hx. apply elem_of_app in Hx as [Hx|Hx];
      [destruct (H1 x Hx) as (r' & Hr & ?)|destruct (H2 x Hx) as (r' & Hr & ?)];
      exists r'; (split; [set_solver|done]).
  - intros r' Hr. apply elem_of_cons in Hr as [->|Hr]; [|by apply S2].
    destruct (S1 r) as (x & Hx & ?); [by left|]. exists x. split; [|done].
    rewrite E2. apply elem_of_app. by left.
Qed.

Lemma store_reports_stores {N} page : ∀ n (w : Db * N) k w',
  store_reports n page w = (Ok k, w') → stores page (k - n) (db_tables w.1) (db_tables w'.1).
Proof.
  induction page as [|r page IH]; intros n w k w'; cbn [store_reports].
  - intros [= <- <-]. exists []. split; [by rewrite app_nil_r|]. split; [cbn; lia|].
    by split; intros x Hx; inversion Hx.
  - unfold st_try at 1, st_bind at 1, mod_db at 1, st_bind at 1, on_db at 1, st_fst at 1, insert_report.
    pose proof (exec_ok (insert_report_stmt (matrix_report r)) w.1) as Ho.
    destruct (exec _ w.1) as [[o|e] db]; cbn; [|done]. destruct (Ho o eq_refl) as [now Hnow].
    apply insert_one in Hnow. intros E. apply IH in E. cbn in Hnow, E.
    replace (k - n) with ((match o with Some _ => 1 | None => 0 end) +
      (k - match o with Some _ => n + 1 | None => n end)) by (destruct o; lia).
    by eapply stores_cons.
Qed.

(** ** Any sequence of requests *)
Section history.
Context {C R P : Type} `{TtlCache C (string * string) (option Entitlement), Redis R}.
Context `{TtlCache P (string * string) TierPermissions}.
Context {N : Type} `{Http N, Clock N, Sfu N, EndSwitch N, StreamServices N, RecordingServices N,
  ReportLimiter N}.
Variable url_encode : string → string.
Variable ent_json : option Entitlement → string.
Variable ent_parse : string → option (option Entitlement).
Variable has_redis : bool.
Variable ops : TokenOps.
Variable state : ApiState.
Variable cfg : ClientConfig.
Variable client : HomeserverClient.
Variable ctx : EndContext.
Variable parse_uuid : string → option Uuid.
Variable parse_utc : string → option DateTime.
Variable days_before : DateTime → Z → string.
Variable mod_cfg : ModerationConfig.
Variable has_pool : bool.
Variable retention_days : Z.

Abbreviation Deployment := (((Db * (R * C)) * P) * N)%type.

Definition beside_ {A} (m : st (Db * N) A) : st Deployment () :=
  let! _ := beside_caches m in st_ret ().

Definition serve_operator_request (r : operator_request) : st Deployment () :=
  match r with
  | MediaRequest r => serve_media_request url_encode ent_json ent_parse has_redis has_pool ops state
                        cfg client ctx r
  | SubmitReport reporter req => beside_ (submit_report reporter req)
  | ApplyAction admin req => beside_ (apply_action url_encode mod_cfg ctx admin req)
  | SetReportStatus admin id status reason => beside_ (update_status mod_cfg admin id status reason)
  | SyncReports admin => beside_ (sync_reports mod_cfg admin)
  | SyncTick => beside_ (sync_tick mod_cfg)
  | ForceStop admin id => beside_ (force_stop_stream url_encode ctx admin id)
  | AdminDeleteRecording admin id => beside_ (admin_delete_recording admin id)
  | CleanupRecordings admin =>
      beside_ (admin_cleanup_recordings parse_utc days_before retention_days admin)
  | SetDonationStatus admin id status =>
      beside_ (on_db (admin_update_donation_status parse_uuid has_pool admin id status))
  | RemoveGate admin id => beside_ (on_db (admin_remove_content_gate parse_uuid has_pool admin id))
  | SetOnboarding admin user b => beside_ (on_db (admin_set_onboarding has_pool admin user b))
  end.

Definition serve_operator_requests (rs : list operator_request) : st Deployment () :=
  st_fold (λ _ r, serve_operator_request r) rs ().

#[local] Existing Instance join_moves_preorder.

Lemma serve_operator_request_lasts users recs r :
  ¬ lifts users recs r →
  st_rel (join_moves (lasts users recs)) (serve_operator_request r).
Proof.
  intros Hl. destruct r; cbn [serve_operator_request]; unfold beside_; try apply beside_rows.
  - apply serve_media_request_rows; [apply _|]. intros. apply start_recording_lasts.
  - apply submit_report_lasts.
  - by apply apply_action_lasts.
  - apply update_status_lasts.
  - unfold sync_reports. apply after_rel; [apply _|]. intros _ _. apply run_sync_lasts.
  - unfold sync_tick. st_step; [by st_step|]. st_step; [apply run_sync_lasts|by st_step].
  - apply force_stop_lasts.
  - apply admin_delete_lasts.
  - apply cleanup_lasts.
  - apply on_db_moves; [apply _|]. apply (money_lasts parse_uuid).
  - apply on_db_moves; [apply _|]. apply (money_lasts parse_uuid).
  - apply on_db_moves; [apply _|]. apply (money_lasts parse_uuid).
Qed.

Lemma history_lasts users recs rs w :
  Forall (λ r, ¬ lifts users recs r) rs →
  lasts users recs (db_tables w.1.1.1) (db_tables (serve_operator_requests rs w).2.1.1.1).
Proof.
  intros Hrs. revert w. unfold serve_operator_requests.
  induction Hrs as [|r rs Hr _ IH]; intros w; cbn [st_fold]; [reflexivity|]. unfold st_bind.
  pose proof (serve_operator_request_lasts users recs r Hr w) as Hw. unfold join_moves in Hw.
  destruct (serve_operator_request r w) as [[] w1]. etrans; [exact Hw|]. apply IH.
Qed.

(** C17. A takedown lasts until an operator lifts it: whatever users, operators, sweeps,
    watchdogs and synchronisations do in between, whatever statements of that history fail and
    whatever the homeserver, the SFU and the switch answer, and as long as no operator
    unsuspends the user or unhides the recording with a reason. After the history, a suspended
    user who starts or resumes a broadcast is refused, provided that the database answers the
    question whether the user is suspended: when that statement fails the code lets the request
    through ([suspension_check_fails_open]). A withheld recording is neither found by a request
    for it nor on any page of its room, however the reading statement ends; the audit log is
    only appended to and no report disappears. *)
Theorem takedowns_last u id rs (w : Deployment) :
  Forall (λ r, ¬ lifts (eq u) (eq id) r) rs →
  let t := db_tables w.1.1.1 in
  let w' := (serve_operator_requests rs w).2 in
  (suspended_in u (t_api t) = true → next_answered w'.1.1.1 →
     ∀ req sid n,
     (create_stream (N := N) url_encode ops state cfg client u req (w'.1.1.1, n)).1 =
       suspended_error ∧
     (resume_stream (N := N) ops cfg client u sid (w'.1.1.1, n)).1 = suspended_error) ∧
  (withheld id t →
     (∀ r, (StreamsDb.get_recording id w'.1.1.1).1 ≠ Ok (Some r)) ∧
     (∀ room lim before_id l r,
        (StreamsDb.list_room_recordings room lim before_id w'.1.1.1).1 = Ok l → r ∈ l →
        rec_id r ≠ id)) ∧
  q_actions (moderation_of t) `prefix_of` q_actions (moderation_of (db_tables w'.1.1.1)) ∧
  (mr_id <$> q_reports (moderation_of t)) `prefix_of`
    (mr_id <$> q_reports (moderation_of (db_tables w'.1.1.1))).
Proof.
  intros Hrs t w'. destruct (history_lasts (eq u) (eq id) rs w Hrs) as [Hu Hr Ha Hq].
  fold t w' in Hu, Hr, Ha, Hq. split_and!; [| |done..].
  - intros Hs Hdb req sid n. specialize (Hu u eq_refl Hs).
    split; by apply refused_while_suspended.
  - intros Hw. specialize (Hr id eq_refl Hw). split; [by apply withheld_not_read|].
    intros room lim before_id l r. by apply withheld_not_listed.
Qed.

(** C31. However often the reports of the homeserver are fetched, by the loop and by
    operators, whatever else happens and whatever statements fail or lose their
    acknowledgement, each of them is in the queue at most once. A synchronisation that
    answers with a number appended exactly that many rows, each of them a report of the page
    the homeserver answered with, and every report of that page is in the queue. *)
Theorem reports_are_synced_once rs (w : Deployment) :
  synced_once (moderation_of (db_tables w.1.1.1)) →
  let w' := (serve_operator_requests rs w).2 in
  synced_once (moderation_of (db_tables w'.1.1.1)) ∧
  ∀ k n db page n1, run_sync (N := N) mod_cfg (w'.1.1.1, w'.2) = (Ok k, (db, n)) →
    fetch_event_reports (N := N) mod_cfg 100 w'.2 = (Ok page, n1) →
    stores page k (db_tables w'.1.1.1) (db_tables db).
Proof.
  intros Hs w'. split.
  - apply (la_synced _ _ _ _ (history_lasts (λ _, False) (λ _, False) rs w
      ltac:(apply Forall_forall; intros [] _; cbn; naive_solver))), Hs.
  - intros k n db page n1 E F. unfold run_sync, st_try, st_bind, on_services, st_snd in E.
    cbn [fst snd] in E. rewrite F in E. apply store_reports_stores in E. cbn in E.
    by rewrite Z.sub_0_r in E.
Qed.
End history.

(** ** What an accepted action did *)
(** The tables and the services after an answer that is no error. *)
Definition when_ok {N A} (P : Tables → N → Prop) (m : st (Db * N) (result A MMError.t))
    (Q : A → Tables → N → Prop) : Prop :=
  ∀ w a w', P (db_tables w.1) w.2 → m w = (Ok a, w') → Q a (db_tables w'.1) w'.2.

Section when_ok.
Context {N : Type}.

Lemma ok_ret {A} P (r : result A MMError.t) Q :
  (∀ a t n, r = Ok a → P t n → Q a t n) → when_ok (N := N) P (st_ret r) Q.
Proof. intros HQ w a w' Hw [= -> <-]. by apply HQ. Qed.

Lemma ok_try {A B} P M Q (m : st (Db * N) (result A MMError.t)) (k : A → st (Db * N) (result B MMError.t)) :
  when_ok P m M → (∀ a, when_ok (M a) (k a) Q) → when_ok P (st_try m k) Q.
Proof.
  intros Hm Hk w b w'. unfold st_try, st_bind. intros Hw.
  destruct (m w) as [[a|e] w1] eqn:E; [|done]. apply Hk. by eapply Hm.
Qed.

Lemma ok_after {A B} P Q (r : result A MMError.t) (k : A → st (Db * N) (result B MMError.t)) :
  (∀ a, r = Ok a → when_ok P (k a) Q) → when_ok P (after r k) Q.
Proof. intros Hk. destruct r; [by apply Hk|]. by apply ok_ret. Qed.

(** A call of the services, told by what it did to them. *)
Lemma ok_services {A} P Q (m : st N (result A MMError.t)) :
  (∀ a t n n', P t n → m n = (Ok a, n') → Q a t n') → when_ok P (on_services m) Q.
Proof.
  intros HQ [db n] a w' Hw. unfold on_services, st_snd. cbn. destruct (m n) as [r n'] eqn:E.
  intros [= -> <-]. by eapply HQ.
Qed.

(** Steps that leave the tables alone, before one that says nothing of the services. *)
Lemma ok_beside {A B} (P : Tables → Prop) Q (m : st (Db * N) A)
    (k : A → st (Db * N) (result B MMError.t)) :
  st_rel (tables_move eq) m → (∀ a, when_ok (λ t _, P t) (k a) Q) →
  when_ok (λ t _, P t) (st_bind m k) Q.
Proof.
  intros Hm Hk w b w' Hw. unfold st_bind. specialize (Hm w). unfold tables_move in Hm.
  destruct (m w) as [a w1]. apply Hk. cbn in Hm. by rewrite <-Hm.
Qed.

Lemma ok_forget {A} (P : Tables → N → Prop) (P' : Tables → Prop) (m : st (Db * N) (result A MMError.t)) Q :
  (∀ t n, P t n → P' t) → when_ok (λ t _, P' t) m Q → when_ok P m Q.
Proof. intros HP Hm w a w' Hw. apply Hm. by eapply HP. Qed.

(** A function of the database, step by step. *)
Lemma ok_db_try {A B} P M Q (m : st Db (result A MMError.t)) (k : A → st Db (result B MMError.t)) :
  when_ok (N := N) P (on_db m) M → (∀ a, when_ok (N := N) (M a) (on_db (k a)) Q) →
  when_ok (N := N) P (on_db (st_try m k)) Q.
Proof.
  intros Hm Hk w b w' Hw. specialize (Hm w). unfold when_ok, on_db, st_fst, st_try, st_bind in *.
  destruct (m w.1) as [[a|e] db]; [|done]. apply (Hk a (db, w.2)). by apply (Hm a (db, w.2)).
Qed.

Lemma ok_db_ret {A} P (r : result A MMError.t) Q :
  (∀ a t n, r = Ok a → P t n → Q a t n) → when_ok (N := N) P (on_db (st_ret r)) Q.
Proof. intros HQ [db n] a w' Hw [= -> <-]. by apply HQ. Qed.

(** The answer of the last call is dropped. *)
Lemma ok_then {A B} P Q (m : st (Db * N) (result A MMError.t)) (b : A → B) :
  when_ok P m (λ _, Q) → when_ok P (let? a := m in st_ret (Ok (b a))) (λ _, Q).
Proof. intros Hm. eapply ok_try; [exact Hm|]. intros a. apply ok_ret. by intros ? ? ? _. Qed.

Lemma ok_db_then {A B} P Q (m : st Db (result A MMError.t)) (b : A → B) :
  when_ok (N := N) P (on_db m) (λ _, Q) →
  when_ok (N := N) P (on_db (let? a := m in st_ret (Ok (b a)))) (λ _, Q).
Proof. intros Hm. eapply ok_db_try; [exact Hm|]. intros a. apply ok_db_ret. by intros ? ? ? _. Qed.

Lemma ok_asking {A} P Q (s : stmt A) :
  (∀ now t n a t', P t n → s now t = Ok (a, t') → Q a t' n) → when_ok (N := N) P (on_db (asking s)) Q.
Proof.
  intros Hs [db n] a w' Hw. unfold on_db, st_fst. cbn. intros E.
  pose proof (asking_ok s db) as Ho. destruct (asking s db) as [r db']. injection E as -> <-.
  destruct (Ho a eq_refl) as [now Hnow]. by eapply Hs.
Qed.

Lemma ok_mod {A} P Q what (s : stmt A) :
  (∀ now t n a t', P t n → s now t = Ok (a, t') → Q a t' n) →
  when_ok (N := N) P (mod_db what (exec s)) Q.
Proof.
  intros Hs [db n] a w' Hw. unfold mod_db, st_bind, on_db, st_fst. cbn. intros E.
  pose proof (exec_ok s db) as Ho. destruct (exec s db) as [r db'].
  destruct r as [x|e]; [|done]. injection E as -> <-.
  destruct (Ho a eq_refl) as [now Hnow]. by eapply Hs.
Qed.
End when_ok.

(** The recordings of the id became [p]; every other one is as it was. *)
Definition rewrites (id : string) (p : RecordingRec → RecordingRec → Prop) (t t' : Tables) : Prop :=
  Forall2 (λ r r', if by_id id r then rec_id r' = id ∧ p r r' else r' = r)
    (recordings_of t) (recordings_of t').

(** A recording an operator may delete: it is there, not hidden and not deleted. *)
Definition deletable (id : string) (t : Tables) : Prop :=
  ∃ r, r ∈ recordings_of t ∧ rec_id r = id ∧ rec_hidden r = false ∧ rec_status r ≠ "deleted".

Lemma update_rewrites id p f now t l t' :
  (∀ r, p r (f now r)) → (∀ r, rec_id (f now r) = rec_id r) →
  update_recordings (by_id id) f now t = Ok (l, t') → rewrites id p t t'.
Proof.
  intros Hp Hid [= _ <-]. unfold rewrites, recordings_of. cbn.
  apply Forall2_fmap_r, Forall_Forall2_diag, Forall_forall. intros r _.
  cbn. destruct (by_id id r) eqn:E; [|done]. rewrite Hid. split; [by apply String.eqb_eq|done].
Qed.

Section actions.
Context {N : Type} `{Http N, Clock N, Sfu N, EndSwitch N, RecordingServices N}.
Variable url_encode : string → string.
Variable cfg : ModerationConfig.
Variable ctx : EndContext.

(** Synapse was asked in the state [n], answered with success, and left the state [n']. *)
Definition synapse_did (method path : string) (body : json_value) (n n' : N) : Prop :=
  ∃ access resp, synapse cfg = Ok access ∧
    http_send (synapse_request method path (Some body) access) n = (Ok resp, n') ∧
    is_success (rs_status resp) = true.

(** The effect an action is taken for, from the tables [t] and the services [n] to [t'] and
    [n']. A hidden or shown recording need not exist: then no recording changes. *)
Definition effect_of (req : ApplyActionRequest) (t : Tables) (n : N) (t' : Tables) (n' : N) : Prop :=
  let id := aq_target_id req in
  let ty := aq_action_type req in
  let suspension b := synapse_did "PUT" ("v1/suspend/" +:+ url_encode id)
      (JObj [("suspend", JBool b)]) n n' ∧ suspended_in id (t_api t') = b in
  let hiding b := rewrites id (λ r r', rec_hidden r' = b ∧ rec_status r' = rec_status r) t t' in
  if String.eqb ty "force_stop_stream" then is_Some (t_streams t !! id) ∧ ¬ active_row id t'
  else if String.eqb ty "hide_recording" then hiding true
  else if String.eqb ty "unhide_recording" then hiding false
  else if String.eqb ty "delete_recording" then
    deletable id t ∧ rewrites id (λ _ r', rec_status r' = "deleted") t t'
  else if String.eqb ty "suspend_user" then suspension true
  else if String.eqb ty "unsuspend_user" then suspension false
  else ty = "deactivate_user" ∧
    synapse_did "POST" ("v1/deactivate/" +:+ url_encode id) (JObj [("erase", JBool true)]) n n'.

(** Only the audit and the reports change. *)
Lemma effect_same req t n t1 n1 t' :
  t_streams t' = t_streams t1 → recordings_of t' = recordings_of t1 →
  q_users (moderation_of t') = q_users (moderation_of t1) →
  effect_of req t n t1 n1 → effect_of req t n t' n1.
Proof.
  intros Hs Hr Hu. unfold effect_of, rewrites, active_row, suspended_in, moderation_of in *.
  by rewrite Hs, Hr, Hu.
Qed.

Lemma synapse_call_did requested failed method path body n a n' :
  synapse_call cfg requested failed method path (Some body) n = (Ok a, n') →
  synapse_did method path body n n'.
Proof.
  unfold synapse_call, after, synapse_did, st_bind.
  destruct (synapse cfg) as [access|e]; [|done].
  destruct (http_send _ n) as [[resp|e] n1] eqn:E; [|done]. cbn.
  destruct (is_success (rs_status resp)) eqn:Es; [|done]. intros [= _ <-].
  by exists access, resp.
Qed.

(** The actions start from the tables [t0] and the services [n0]. *)
Variables (t0 : Tables) (n0 : N).
Abbreviation l := (q_actions (moderation_of t0)).
Definition logged (t : Tables) : Prop := q_actions (moderation_of t) = l.
Abbreviation start := (λ t n, t = t0 ∧ n = n0).
Abbreviation unchanged_tables := (λ (t : Tables) (_ : N), t = t0).

(** Updates of recordings beside the log. *)
Lemma ok_update {A} (s : stmt A) (Q : Tables → Prop) :
  (∀ now a t', s now t0 = Ok (a, t') → Q t' ∧ moderation_of t' = moderation_of t0) →
  when_ok (N := N) unchanged_tables (on_db (asking s)) (λ _ t _, Q t ∧ logged t).
Proof.
  intros Hs. apply ok_asking. intros now t n a t' -> E. destruct (Hs _ _ _ E) as [HQ Hm].
  split; [done|]. unfold logged. by rewrite Hm.
Qed.

Lemma hide_ok id b :
  when_ok (N := N) unchanged_tables (hide id b)
    (λ _ t _, rewrites id (λ r r', rec_hidden r' = b ∧ rec_status r' = rec_status r) t0 t ∧ logged t).
Proof.
  unfold hide. apply (ok_beside (λ t, t = t0)); [by apply on_services_moves; apply _|]. intros now.
  apply (ok_then _ (λ t _, _ t ∧ logged t)), (ok_db_then _ (λ t _, _ t ∧ logged t)), ok_update.
  intros n a t' E. split; [by eapply update_rewrites, E|]. by injection E as _ <-.
Qed.

Lemma delete_ok id :
  when_ok (N := N) unchanged_tables (actuate_delete_recording id)
    (λ _ t _, (deletable id t0 ∧ rewrites id (λ _ r', rec_status r' = "deleted") t0 t) ∧ logged t).
Proof.
  unfold actuate_delete_recording, StreamsDb.get_recording.
  apply (ok_try _ (λ r t _, t = t0 ∧ ∀ x, r = Some x →
    x ∈ recordings_of t0 ∧ rec_id x = id ∧ rec_hidden x = false)).
  { apply ok_asking. intros now t n a t' -> [= <- <-]. split; [done|]. intros x Hx.
    apply head_Some_elem_of, elem_of_filter_bool in Hx as [Hin Hx].
    apply andb_true_iff in Hx as [Hx Hh]. split; [done|].
    split; [by apply String.eqb_eq|by destruct (rec_hidden x)]. }
  intros [r|]; [|by apply ok_ret]. destruct (String.eqb_spec (rec_status r) (RecordingStatus.as_str RecordingStatus.Deleted)) as [|Hd];
    [by apply ok_ret|].
  apply ok_forget with (P' := λ t, t = t0 ∧ deletable id t0 ∧ rec_id r = id).
  { intros t _ [-> Hx]. destruct (Hx r eq_refl) as (? & ? & ?). split; [done|].
    split; [by exists r|done]. }
  apply ok_beside.
  { unfold delete_recording_storage. repeat first [by apply on_services_moves; apply _|st_step]. }
  intros _ w a w' (Hw & Hdel & Hid). rewrite Hid. revert w a w' Hw.
  change (when_ok (N := N) unchanged_tables (on_db (update_recording_status id RecordingStatus.Deleted))
    (λ _ t _, (deletable id t0 ∧ rewrites id (λ _ r', rec_status r' = "deleted") t0 t) ∧ logged t)).
  unfold update_recording_status, run_recordings.
  apply ok_db_then.
  apply (ok_update _ (λ t, deletable id t0 ∧ rewrites id (λ _ r', rec_status r' = "deleted") t0 t)).
  intros n a t'. unfold set_status. destruct (_ && _); [done|]. intros E.
  split; [split; [done|by eapply update_rewrites, E]|]. by injection E as _ <-.
Qed.

Lemma force_stop_ok id :
  when_ok (N := N) unchanged_tables (actuate_force_stop_stream url_encode ctx id)
    (λ _ t _, (is_Some (t_streams t0 !! id) ∧ ¬ active_row id t) ∧ logged t).
Proof.
  unfold actuate_force_stop_stream, MoneyDb.get_stream.
  apply (ok_try _ (λ row t _, t = t0 ∧ row = t_streams t0 !! id)).
  { apply ok_asking. by intros now t n a t' -> [= <- <-]. }
  intros [row|]; [|by apply ok_ret].
  apply ok_then.
  intros w o w' [Hw Hrow] E. unfold end_and_finalise_stream in E.
  pose proof (end_moves_tables url_encode ctx (id, row) Withhold None w) as Hm.
  rewrite E in Hm. apply end_once in E as [Hna _]. split; [by rewrite <-Hrow|].
  unfold tables_move in Hm. cbn [snd] in Hm. destruct (em_shape _ _ _ _ Hm) as (m & rs & Et).
  unfold logged, moderation_of in *. by rewrite Et, <-Hw.
Qed.

Lemma suspend_ok op req b :
  when_ok (N := N) start (suspend url_encode cfg op req b)
    (λ _ t n, (synapse_did "PUT" ("v1/suspend/" +:+ url_encode (aq_target_id req))
        (JObj [("suspend", JBool b)]) n0 n ∧ suspended_in (aq_target_id req) (t_api t) = b) ∧ logged t).
Proof.
  unfold suspend. apply (ok_try _ (λ _ t n, t = t0 ∧ synapse_did "PUT"
    ("v1/suspend/" +:+ url_encode (aq_target_id req)) (JObj [("suspend", JBool b)]) n0 n)).
  { apply ok_services. intros [] t n n' [-> ->]. unfold synapse_set_suspended, st_try, st_bind.
    destruct (synapse_call _ _ _ _ _ _ n0) as [[resp|e] n1] eqn:E; [|done].
    intros [= <-]. split; [done|]. by eapply synapse_call_did. }
  intros _. apply ok_mod. intros now t n a t' [-> Hn] [= _ <-]. split; [split; [done|]|done].
  unfold suspended_in. cbn. by rewrite lookup_insert_eq.
Qed.

Lemma deactivate_ok user :
  when_ok (N := N) start (on_services (actuate_deactivate_user url_encode cfg user))
    (λ _ t n, synapse_did "POST" ("v1/deactivate/" +:+ url_encode user)
       (JObj [("erase", JBool true)]) n0 n ∧ logged t).
Proof.
  apply ok_services. intros [] t n n' [-> ->]. unfold actuate_deactivate_user, st_try, st_bind.
  destruct (synapse_call _ _ _ _ _ _ n0) as [[resp|e] n1] eqn:E; [|done].
  intros [= <-]. split; [by eapply synapse_call_did|done].
Qed.

(** What [take_action] answers with. *)
Lemma take_action_ok op req :
  when_ok (N := N) start (take_action url_encode cfg ctx op req)
    (λ _ t n, effect_of req t0 n0 t n ∧ logged t).
Proof.
  unfold take_action, effect_of.
  destruct (String.eqb _ "force_stop_stream");
    [|destruct (String.eqb _ "hide_recording"); [|destruct (String.eqb _ "unhide_recording");
      [|destruct (String.eqb _ "delete_recording"); [|destruct (String.eqb _ "suspend_user");
        [|destruct (String.eqb _ "unsuspend_user");
          [|destruct (String.eqb_spec (aq_action_type req) "deactivate_user");
            [|by apply ok_ret]]]]]]].
  1-4: apply ok_forget with (P' := λ t, t = t0); [by intros t n [-> _]|].
  1-4: apply ok_then;
    first [apply force_stop_ok | apply hide_ok | apply delete_ok].
  1-2: apply ok_then, suspend_ok.
  apply ok_then. intros w a w' Hw E.
  destruct (deactivate_ok _ w a w' Hw E). by repeat split.
Qed.

(** The rest of [apply_action]: the audit row and the report. *)
Definition resolved (req : ApplyActionRequest) (op : string) (t : Tables) : Prop :=
  ∀ rid x, aq_report_id req = Some rid → x ∈ q_reports (moderation_of t) → mr_id x = rid →
  mr_status x = "actioned" ∧ mr_resolved_by x = Some op.

Definition audited (a : NewAction) (t : Tables) : Prop :=
  ∃ id now, q_actions (moderation_of t) = l ++ [action_row id now a].

Lemma append_ok req a :
  when_ok (N := N) (λ t n, effect_of req t0 n0 t n ∧ logged t)
    (mod_db "append_action" (append_action a))
    (λ _ t n, effect_of req t0 n0 t n ∧ audited a t).
Proof.
  apply ok_mod. intros now t n x t' [He Hl]. unfold append_action_stmt, on_api, take_uuid. cbn [a_moderation].
  destruct (existsb _ _); [done|]. intros [= _ <-]. split; [by eapply effect_same, He|].
  unfold audited, logged in *. cbn. rewrite <-Hl. by eexists _, _.
Qed.

Lemma report_ok req op a rid :
  aq_report_id req = Some rid →
  when_ok (N := N) (λ t n, effect_of req t0 n0 t n ∧ audited a t)
    (mod_db "set_report_status" (set_report_status rid "actioned" op))
    (λ _ t n, effect_of req t0 n0 t n ∧ audited a t ∧ resolved req op t).
Proof.
  intros Hrid. apply ok_mod. intros now t n x t' [He Ha] [= _ <-].
  split; [by eapply effect_same, He|]. split; [exact Ha|].
  intros rid' y Hr. rewrite Hrid in Hr. injection Hr as <-. cbn. intros Hy.
  apply list_elem_of_fmap in Hy as (z & -> & _). destruct (by_report_id rid z) eqn:E; [done|].
  intros Hz. unfold by_report_id in E. by rewrite Hz, String.eqb_refl in E.
Qed.

Lemma apply_ok admin req :
  when_ok (N := N) start (apply_action url_encode cfg ctx admin req)
    (λ _ t n, effect_of req t0 n0 t n ∧
       (∃ meta, audited (audit_of (operator_id cfg admin) req meta) t) ∧
       resolved req (operator_id cfg admin) t).
Proof.
  unfold apply_action. apply ok_after. intros _ _. destruct (is_empty_str _); [by apply ok_ret|].
  eapply ok_try; [apply take_action_ok|]. intros meta. eapply ok_try; [apply append_ok|]. intros id0.
  destruct (aq_report_id req) as [rid|] eqn:Er.
  - apply ok_then. intros w a w' Hw E. destruct (report_ok req _ _ rid Er w a w' Hw E) as (? & ? & ?).
    eauto.
  - apply ok_ret. intros _ t n _ [He Ha]. split; [done|]. split; [eauto|].
    intros rid x Hx. by rewrite Er in Hx.
Qed.
End actions.

Definition ACTIONS : list string :=
  ["force_stop_stream"; "hide_recording"; "unhide_recording"; "delete_recording"; "suspend_user";
   "unsuspend_user"; "deactivate_user"].

Lemma try_err {S A B E} (m : st S (result A E)) (k : A → st S (result B E)) w e w' :
  m w = (Err e, w') → st_try m k w = (Err e, w').
Proof. unfold st_try, st_bind. by intros ->. Qed.

Lemma unknown_action {N} `{Http N, Clock N, Sfu N, EndSwitch N, RecordingServices N}
    url_encode cfg ctx op req (w : Db * N) :
  mem (aq_action_type req) ACTIONS = false →
  take_action url_encode cfg ctx op req w = (invalid "unknown action", w).
Proof.
  unfold mem, ACTIONS, take_action. cbn [existsb]. rewrite !orb_false_iff.
  intros (-> & -> & -> & -> & -> & -> & -> & _). done.
Qed.

(** C18. An action that is answered with success took effect and is the one new row of the
    audit log, under the operator's name and with the reason; the report it answers is closed
    in that operator's name. The effect is: the stream existed and is no longer active; the
    recording that was deleted was there, neither hidden nor deleted, and has the status
    deleted; the recordings of the id are hidden, or shown (when there is none nothing changes
    and the action is still accepted, as the handler drops the answer of the statement); for a
    suspension and its lifting, the one request to Synapse of this handler is the suspension
    call for this user and Synapse answered it with success, and the flag in the database is set;
    for a deactivation, likewise the erasing deactivation call. No other recording changes
    when one is hidden, shown or deleted. A demo account, an empty reason or an unknown action
    changes nothing and is answered with an error. The statements may fail in any way:
    success is only answered when all of it happened. *)
Theorem accepted_action_is_done_and_audited {N} `{Http N, Clock N, Sfu N, EndSwitch N,
    RecordingServices N} url_encode cfg ctx admin req (w : Db * N) :
  let r := apply_action url_encode cfg ctx admin req w in
  let t := db_tables w.1 in
  let t' := db_tables r.2.1 in
  let op := operator_id cfg admin in
  (r.1 = Ok () →
     effect_of url_encode cfg req t w.2 t' r.2.2 ∧
     (∃ id now meta, q_actions (moderation_of t') =
        q_actions (moderation_of t) ++ [action_row id now (audit_of op req meta)]) ∧
     resolved req op t') ∧
  (aa_role admin = AdminRole_Demo ∨ is_empty_str (trim (aq_reason req)) = true ∨
     mem (aq_action_type req) ACTIONS = false →
     r.2 = w ∧ is_ok r.1 = false).
Proof.
  intros r t t' op. split.
  - intros Hr. assert (E : apply_action url_encode cfg ctx admin req w = (Ok (), r.2)).
    { rewrite <-Hr. unfold r. by destruct (apply_action _ _ _ _ _ w). }
    destruct (apply_ok url_encode cfg ctx t w.2 admin req w () r.2 (conj eq_refl eq_refl) E)
      as (He & (meta & id & now & Ha) & Hres).
    split; [exact He|]. split; [by exists id, now, meta|done].
  - unfold r, apply_action, require_operator, require_admin. intros Hbad.
    destruct (aa_role admin); [cbn [after]|done].
    destruct (is_empty_str _); [done|]. destruct Hbad as [?|[?|Hu]]; [done..|].
    cbv zeta. by rewrite (try_err _ _ _ _ _ (unknown_action _ _ _ _ _ _ Hu)).
Qed.

(** ** A deployment with an operator *)
Module ModerationDemo.
#[local] Existing Instances EndDemo.clock EndDemo.sfu EndDemo.switch HistoryDemo.services
  HistoryDemo.ent_cache HistoryDemo.perm_cache RecordingDemo.recorder.
Definition event_report (i : Z) : json_value :=
  JObj [("id", jint i); ("event_id", JStr ("$e" +:+ pretty i)); ("sender", JStr "@spam:x")].
(** The homeserver answers with its oldest reports, as it is asked to, and every other call
    succeeds. *)
Definition homeserver (reports : Z) : Http EndDemo.net := {|
  http_send r := let! _ := EndDemo.log (rq_method r +:+ " " +:+ rq_url r) in
    st_ret (Ok {| rs_status := 200; rs_text := "";
      rs_json := Ok (JObj [("event_id", JStr "$e");
        ("event_reports", JArr (event_report <$> seqZ 1 reports)); ("next_token", jint reports)]) |});
  lookup_host _ := st_ret (Err "offline");
  new_v4 := let! _ := EndDemo.log "id" in λ n, ("id" +:+ pretty (Z.of_nat (length n.2)), n);
  status_text _ := ""; shape_error _ := ""; hash_order l := l |}.
Definition http : Http EndDemo.net := homeserver 3.
Definition limiter : ReportLimiter EndDemo.net := {| report_allowed _ := st_ret true |}.
#[local] Existing Instances http limiter.

Definition cfg : ModerationConfig := {| mg_homeserver_url := "https://hs"; mg_server_name := "x";
  mg_synapse_admin_token := "syt" |}.
Definition with_uuids (l : list Uuid) (a : ApiTables) : ApiTables := {|
  a_profiles := a_profiles a; a_donations := a_donations a; a_webhook_log := a_webhook_log a;
  a_tiers := a_tiers a; a_subscriptions := a_subscriptions a; a_gates := a_gates a;
  a_rooms := a_rooms a; a_moderation := a_moderation a; a_uuids := l; a_feed := a_feed a;
  a_media := a_media a; a_settings := a_settings a; a_ads := a_ads a |}.
Definition tables_with (uuids : list Uuid) : Tables :=
  set_api (with_uuids uuids (t_api EndDemo.tables)) EndDemo.tables.
Definition tables : Tables := tables_with ["u1"; "u2"; "u3"; "u4"; "u5"; "u6"; "u7"; "u8"; "u9"].
Definition op : AdminAuth := {| aa_role := AdminRole_Admin; aa_user_id := Some "@op:x" |}.
Definition demo : AdminAuth := {| aa_role := AdminRole_Demo; aa_user_id := Some "@demo:x" |}.
Definition action (ty target reason : string) : ApplyActionRequest := {|
  aq_action_type := ty; aq_target_type := "any"; aq_target_id := target; aq_report_id := None;
  aq_reason := reason |}.
Definition does (ty target : string) : operator_request := ApplyAction op (action ty target "spam").
Definition deployed (script : list tick) : (Db * (gmap string (string * DateTime) *
    gmap (string * string) (option Entitlement * DateTime))) *
    gmap (string * string) (TierPermissions * DateTime) * EndDemo.net :=
  ({| db_tables := tables; db_now := 0; db_script := script |}, (∅, ∅), ∅, (0, [])).
Definition serve (rs : list operator_request) w :=
  (serve_operator_requests id print_value parse_value false HistoryDemo.ops ex_state
    HistoryDemo.cfg (mk_hs_client (ec_marker EndDemo.ctx)) EndDemo.ctx Some (λ _, None) (λ _ _, "")
    cfg true 90 rs w).2.
Definition taken_down := serve [does "suspend_user" "@h:x"; does "hide_recording" "r0"] (deployed []).
Definition later : list operator_request :=
  [ApplyAction demo (action "unsuspend_user" "@h:x" "please");
   ApplyAction op (action "unhide_recording" "r0" "  "); does "unsuspend_user" "@b:x";
   does "force_stop_stream" "s1"; SyncTick; SyncReports op;
   MediaRequest (RecordingDemo.start "@h:x")].
Definition audit (w : Db) : list (string * string * string) :=
  (λ a, (ma_action_type a, ma_target_id a, ma_operator_id a)) <$>
    q_actions (moderation_of (db_tables w)).
Lemma nothing_lifted : Forall (λ r, ¬ lifts (eq "@h:x") (eq "r0") r) later.
Proof.
  unfold later, lifts. rewrite !Forall_cons. split_and!; try apply Forall_nil_2; try (by intros ?).
  - by intros [? _].
  - intros (_ & He & _). vm_compute in He. done.
  - by intros (_ & _ & [[_ ?]|[? _]]).
  - by intros (_ & _ & [[? _]|[? _]]).
Qed.

Definition ended := serve later taken_down.

Lemma ended_answers : next_answered ended.1.1.1.
Proof. by vm_compute. Qed.

Lemma host_suspended : suspended_in "@h:x" (t_api (db_tables taken_down.1.1.1)) = true.
Proof. by vm_compute. Qed.

Lemma recordings_then : recordings_of (db_tables taken_down.1.1.1) =
  [EndDemo.recording "r1" "recording";
   with_recording "ready" None true (Some 0) "none" (EndDemo.recording "r0" "ready")].
Proof. by vm_compute. Qed.

Lemma r0_withheld : withheld "r0" (db_tables taken_down.1.1.1).
Proof.
  unfold withheld. rewrite recordings_then. split; [eexists; split; [by right; left|done]|].
  intros r Hin. apply list_elem_of_In in Hin. by destruct Hin as [<-|[<-|[]]].
Qed.
End ModerationDemo.
Import ModerationDemo.
#[local] Existing Instances ModerationDemo.http ModerationDemo.limiter EndDemo.clock EndDemo.sfu
  EndDemo.switch HistoryDemo.services HistoryDemo.ent_cache HistoryDemo.perm_cache
  RecordingDemo.recorder.

(** The suspended host is refused, the withheld recording is not found, and the log has the
    four actions that were taken. *)
Lemma takedowns_last_witness :
  (resume_stream (N := EndDemo.net) HistoryDemo.ops HistoryDemo.cfg
     (mk_hs_client (ec_marker EndDemo.ctx)) "@h:x" "s1" (ended.1.1.1, ended.2)).1 = suspended_error ∧
  (∀ r, (StreamsDb.get_recording "r0" ended.1.1.1).1 ≠ Ok (Some r)) ∧
  audit ended.1.1.1 = [("suspend_user", "@h:x", "@op:x"); ("hide_recording", "r0", "@op:x");
    ("unsuspend_user", "@b:x", "@op:x"); ("force_stop_stream", "s1", "@op:x")].
Proof.
  pose proof (takedowns_last id print_value parse_value false HistoryDemo.ops ex_state
    HistoryDemo.cfg (mk_hs_client (ec_marker EndDemo.ctx)) EndDemo.ctx Some (λ _, None) (λ _ _, "")
    cfg true 90 "@h:x" "r0" later taken_down nothing_lifted) as (Hu & Hr & _ & _).
  split; [|split; [exact (proj1 (Hr r0_withheld))|by vm_compute]].
  exact (proj2 (Hu host_suspended ended_answers {| cq_room_id := ""; cq_media_type := "";
    cq_title := None; cq_e2ee := false; cq_min_tier := None; cq_min_tier_level := None |} "s1" ended.2)).
Defined.

Lemma accepted_action_is_done_and_audited_witness :
  let stop := action "deactivate_user" "@h:x" "spam" in
  let w := (taken_down.1.1.1, taken_down.2) in
  let r := apply_action id cfg EndDemo.ctx op stop w in
  effect_of id cfg stop (db_tables w.1) w.2 (db_tables r.2.1) r.2.2 ∧
  is_ok (apply_action id cfg EndDemo.ctx demo stop w).1 = false.
Proof.
  intros stop w r.
  destruct (accepted_action_is_done_and_audited id cfg EndDemo.ctx op stop w) as [Hok _].
  destruct (accepted_action_is_done_and_audited id cfg EndDemo.ctx demo stop w) as [_ Hno].
  split; [|by apply Hno; left]. destruct Hok as (He & _); [by vm_compute|exact He].
Defined.

Lemma reports_are_synced_once_witness :
  let w := serve [SyncTick; SyncReports op] (deployed []) in
  synced_once (moderation_of (db_tables w.1.1.1)) ∧
  (mr_synapse_report_id <$> q_reports (moderation_of (db_tables w.1.1.1))) = [Some 1; Some 2; Some 3] ∧
  ∃ page, length page = 3%nat ∧
    stores page 0 (db_tables w.1.1.1) (db_tables (run_sync cfg (w.1.1.1, w.2)).2.1).
Proof.
  intros w. unfold serve in (value of w). destruct (reports_are_synced_once id print_value parse_value false HistoryDemo.ops
    ex_state HistoryDemo.cfg (mk_hs_client (ec_marker EndDemo.ctx)) EndDemo.ctx Some (λ _, None)
    (λ _ _, "") cfg true 90 [SyncTick; SyncReports op] (deployed [])) as [Hs Hp]; [by constructor|].
  fold w in Hs, Hp. split; [exact Hs|]. split; [by vm_compute|].
  assert (Ek : (run_sync cfg (w.1.1.1, w.2)).1 = Ok 0) by by vm_compute.
  assert (Ef : match (fetch_event_reports (N := EndDemo.net) cfg 100 w.2).1 with
    | Ok p => length p = 3%nat | Err _ => False end) by by vm_compute.
  clearbody w. destruct (run_sync cfg (w.1.1.1, w.2)) as [k [db n]] eqn:E. cbn in Ek. subst k.
  destruct (fetch_event_reports cfg 100 w.2) as [[page|e] n1] eqn:F; [|done].
  exists page. split; [exact Ef|]. exact (Hp 0 n db page n1 eq_refl eq_refl).
Defined.

(** The page is the oldest hundred, whatever was stored before: of a homeserver with more
    reports the newer ones are never fetched, since every request is the same. *)
Example newer_reports_never_synced :
  let sync := @run_sync EndDemo.net (homeserver 100) cfg in
  let w := sync (healthy (tables_with ((λ i, "u" +:+ pretty i) <$> seqZ 0 200)) 0, (0, [])) in
  w.1 = Ok 100 ∧ (sync w.2).1 = Ok 0 ∧
  (sync w.2).2.2.2 = replicate 2 "GET https://hs/_synapse/admin/v1/event_reports?dir=f&limit=100".
Proof. by vm_compute. Qed.

(** A recording that was hidden cannot be deleted by an operator any more. *)
Example hidden_cannot_be_deleted :
  let w := (taken_down.1.1.1, taken_down.2) in
  (apply_action id cfg EndDemo.ctx op (action "delete_recording" "r0" "spam") w).1 = recording_not_found ∧
  (admin_delete_recording op "r0" w).1 = recording_not_found.
Proof. by vm_compute. Qed.

(** Hiding a recording that does not exist succeeds and is audited. *)
Example unknown_recording_hidden :
  let w := (taken_down.1.1.1, taken_down.2) in
  let r := apply_action id cfg EndDemo.ctx op (action "hide_recording" "nothing" "spam") w in
  r.1 = Ok () ∧ last (audit r.2.1) = Some ("hide_recording", "nothing", "@op:x").
Proof. by vm_compute. Qed.

(** The suspension took effect and the audit row was lost. *)
Example suspended_without_audit :
  let script := [{| tk_outcome := Answered; tk_now := 0 |}; {| tk_outcome := Lost "reset"; tk_now := 0 |}] in
  let w := serve [does "suspend_user" "@h:x"] (deployed script) in
  suspended_in "@h:x" (t_api (db_tables w.1.1.1)) = true ∧ audit w.1.1.1 = [].
Proof. by vm_compute. Qed.
